(* ===== verification/_CoqProject ===== *)
-Q . S2P
Prelude.v
Ledger.v
GptGate.v
Sart.v
Pmgr.v
NvmePrp.v
NvmeQueue.v
NvmeCtrl.v
NvmeRq.v
NvmeState.v
NvmeSetup.v
NvmeScan.v
NvmeHead.v
NvmeSubsys.v
NvmeEnable.v
NvmeKeepAlive.v
NvmeEvents.v
NvmeInfo.v
NvmeLife.v
Channel.v
Dockchannel.v
HidPacket.v
HidIface.v
UsbBridge.v
Aic.v
AicFiq.v
Cpufreq.v
Regcache.v
IdregOverride.v
CpuFtrTables.v
CpuFeature.v
CpuCaps.v
CpuCapTables.v
CpuMatch.v
CpuHwcaps.v
CpuSystem.v
BrcmPcie.v
BrcmOtp.v
BrcmIrq.v
BrcmFw.v
BrcmRing.v
