(* ===== verification/Prelude.v ===== *)
(** * Project Wallace: a verification library for the C code of the repository

    The repository brings Linux up on Apple silicon (T6040 and its relatives).  Its own
    C code is of three kinds: two host tools under src/scripts, the driver sources it
    carries under src/evidence/2026-10-24-upstream-convergence/local-source, and the
    driver sources of the asahi tree it compares them with, in the directory [sources]
    next to it.  This library models that code, function by function, and proves what
    makes it correct.

    ** Parts and files

    - [Prelude.v]: machine integers with their truncations, bit fields, error results,
      the state-and-error monad [ST], the trace monad [TR] (a computation that issues
      events to which an oracle on the whole history answers), and shared lemmas.
    - [Ledger.v]: what a computation holds, by replaying its events; the rules behind
      the theorems on error paths in [Aic.v], [Cpufreq.v] and [Regcache.v].
    - [Channel.v]: the byte channel interface, two classes, between the transport
      ([Dockchannel.v], which implements it) and the protocol ([HidPacket.v], which is
      proved against it).
    - [GptGate.v]: scripts/t6040-usb-root-metadata.c, the gate that decides whether a
      disk is the reviewed root (MBR, both GPT copies, the root entry, ext4).
    - [UsbBridge.v]: scripts/t6040-usb-bulk-pty.c, the bridge between a USB ACM device
      and a pseudo terminal.
    - [Sart.v]: drivers/soc/apple/sart.c, the DMA filter; one class for the three
      register layouts.
    - [Pmgr.v]: drivers/pmdomain/apple/pmgr-pwrstate.c, power states and resets.
    - [NvmePrp.v], [NvmeQueue.v], [NvmeRq.v], [NvmeCtrl.v]:
      drivers/nvme/host/apple.c, from the scatter list of a request to the PRP entries
      the controller reads, the two submission paths and the completion ring, the
      dispatch of requests with the delayed flush and the firmware's shared memory, and
      the life cycle of the controller (reset, time-out, probe, removal, power).
      [NvmeRq.v] calls [NvmePrp.v], [NvmeQueue.v] and [Sart.v].
    - [Dockchannel.v]: drivers/soc/apple/dockchannel.c, a byte FIFO and its interrupts.
    - [HidPacket.v], [HidIface.v]: drivers/hid/dockchannel-hid/dockchannel-hid.c, the
      packets and commands, and the interfaces that are announced, created and used
      through them.
    - [Aic.v], [AicFiq.v]: drivers/irqchip/irq-apple-aic.c, the interrupt controller
      and the per-CPU FIQs and inter-processor interrupts.
    - [Cpufreq.v]: drivers/cpufreq/apple-soc-cpufreq.c.
    - [Regcache.v]: drivers/base/regmap/regcache.c, the register cache.
    - [IdregOverride.v]: sources/idreg-override.c (arch/arm64/kernel/pi), the command
      line options that override CPU features.

    Definitions carry the names of the C functions; a function that is long is cut into
    definitions along its loops and labels.  A struct is a record with the fields the
    code uses, an enum or a set of return labels is an inductive type, a C string is the
    list of its characters, a buffer a list of bytes.  Integers are [Z] with the
    truncation of their type written where it can matter.  Where the code handles
    untrusted lengths or can stop ([HidPacket.v], [HidIface.v], [NvmePrp.v],
    [Regcache.v]), an access outside an array or a BUG() is a fault value, so that a
    theorem that a function returns is also a theorem that it does not fault.

    ** The other side

    Hardware, firmware, libraries and the rest of the kernel are parameters: an oracle
    that answers each event from the history before it, or functions with their
    documented laws as a class or as named hypotheses ([ByteChannelLaws], the laws of a
    SART layout, [ArrayLibLaws] for the kernel's sort and bsearch, [LayoutLaws] for the
    generated register layout).  A theorem that quantifies over the oracle holds for
    every behaviour of the other side.  Each theorem with hypotheses has a witness that
    applies it to a concrete device or input.

    ** What is proved

    - Data paths: the PRP lists describe exactly the bytes of a request and are freed
      ([NvmePrp]); a queued request reaches the right slot, completions are taken once
      and in order, and the interrupt handler drains the ring ([NvmeRq], [NvmeQueue]);
      a HID message that is sent is the message received, a command returns the answer
      to it and to nothing else, corrupted headers are refused ([HidPacket],
      [GptGate]); what the USB side sends reaches the terminal ([UsbBridge]); the bytes
      of the FIFO are received in order, and the transmit interrupt stays balanced
      but for one race ([Dockchannel]).
    - Register programming: masking, translation and dispatch of interrupts ([Aic],
      [AicFiq]), power states ([Pmgr]), performance states and reading them back
      ([Cpufreq]), write-back of a register cache, in bulk as register by register
      ([Regcache]), overridden feature fields ([IdregOverride]).
    - Refinement: SART as a bag of regions on every layout ([Sart]); the command-line
      parser as a fold over the parameters ([IdregOverride]); both schedules of reads
      of the disk gate ([GptGate]).
    - Invariants and order: the interfaces of the HID driver in every reachable state,
      their creation, the masks of the FIQs, consistent overrides, the delayed flush,
      the queues of a controller under reset.
    - Errors: what is allocated is given back on every path ([NvmePrp], [Cpufreq],
      [Regcache], [UsbBridge], and further lemmas in [Aic], [NvmeCtrl], [Pmgr]).
    - Termination and progress: loops over a ring, a register file or a command line
      end; interrupts that were raised are handled and a FIQ that was handled is quiet.

    Loops that are not structural take fuel.  Where the code bounds the loop, the fuel
    is that bound and a lemma shows that it is enough (the length of the command line in
    [IdregOverride.parse_loop_total], the number of registers in
    [Regcache.default_sync_runs], the depth of the ring in [NvmeQueue]); where only
    the other side bounds it (a device that keeps an interrupt raised, a terminal that
    is never closed), the theorem names the assumption under which the fuel is enough.
    Polling loops take the number of reads that fit into the time-out.

    Lemmas at the end of a file that describe a defect (a leak, a lost error, a read
    behind an array) are exact statements of what the code does.

    ** Not modelled

    - arch/arm64/kernel/cpufeature.c, drivers/nvme/host/core.c and the brcmfmac PCIe
      driver: generic kernel code quoted as evidence; what the modelled drivers use of
      it is a parameter.  The ring protocol of brcmfmac and the evaluation of the
      feature registers are the next candidates.
    - arch/arm64/kernel/idle.c and lib/delay.c: their effect is an instruction and time.
    - The variants of the same driver in [sources] (mainline and two patch series): the
      model follows the local source, or the asahi one where there is no local source.
    - scripts/t6040-nvme-readonly-test.c and the decompressor harness: system calls
      and a decompressor that is not in the repository; src/archive/xnu-shim: stubs.
    - Log messages, trace points, memory barriers, and true concurrency: a function runs
      on its own, except where an interleaving is modelled as a step relation (the HID
      driver, the delayed flush, the completion ring). *)

From Stdlib Require Import ZArith Lia Bool Btauto.
From stdpp Require Import base numbers list option strings.

Local Open Scope Z_scope.

(** ** Machine integers

    A C integer of width [w] is a [Z] in [0, 2^w); every arithmetic operation
    that can leave the range is followed by the truncation the type makes. *)

Definition u8 (x : Z) : Z := x mod 2 ^ 8.
Definition u16 (x : Z) : Z := x mod 2 ^ 16.
Definition u32 (x : Z) : Z := x mod 2 ^ 32.
Definition u64 (x : Z) : Z := x mod 2 ^ 64.

(** Bitwise complement of a [u32] operand. *)
Definition not32 (x : Z) : Z := u32 (Z.lnot x).

(** The bit-field macros of linux/bits.h and linux/bitfield.h. *)
Definition BIT (n : Z) : Z := Z.shiftl 1 n.
Definition GENMASK (h l : Z) : Z := Z.shiftl (Z.ones (h - l + 1)) l.

(** Index of the lowest set bit, [__bf_shf(mask)] = [ffs(mask) - 1]. *)
Definition bf_shf (mask : Z) : Z := Z.log2 (Z.land mask (- mask)).
Definition FIELD_PREP (mask val : Z) : Z := Z.land (Z.shiftl val (bf_shf mask)) mask.
Definition FIELD_GET (mask reg : Z) : Z := Z.shiftr (Z.land reg mask) (bf_shf mask).

(** [DIV_ROUND_UP] of linux/math.h, on non-negative operands. *)
Definition DIV_ROUND_UP (n d : Z) : Z := (n + d - 1) / d.

(** The errno values the sources return (negated). *)
Definition ENOENT : Z := 2.
Definition EIO : Z := 5.
Definition ENXIO : Z := 6.
Definition ENOMEM : Z := 12.
Definition EBUSY : Z := 16.
Definition ENODEV : Z := 19.
Definition EINVAL : Z := 22.
Definition ETIMEDOUT : Z := 110.
Definition EPROBE_DEFER : Z := 517.

(** ** Error results and the state-and-error monad *)

Inductive result (E A : Type) : Type :=
| Ok (a : A)
| Err (e : E).
Arguments Ok {E A} a.
Arguments Err {E A} e.

Definition is_ok {E A} (r : result E A) : bool :=
  match r with Ok _ => true | Err _ => false end.

(** A computation that threads a state [S] and can stop with an error [E].
    The notations are stdpp's [x ← m; k] and [m;; k]. *)
Definition ST (S E A : Type) : Type := S → result E (A * S).

#[export] Instance ST_ret S E : MRet (ST S E) := λ A a s, Ok (a, s).
#[export] Instance ST_bind S E : MBind (ST S E) := λ A B k m s,
  match m s with
  | Ok (a, s') => k a s'
  | Err e => Err e
  end.

Definition fail {S E A} (e : E) : ST S E A := λ _, Err e.
Definition get {S E} : ST S E S := λ s, Ok (s, s).
Definition put {S E} (s : S) : ST S E unit := λ _, Ok (tt, s).

(** [if (b) stop(e);] *)
Definition fail_if {S E} (b : bool) (e : E) : ST S E unit :=
  if b then fail e else mret tt.

(** ** Traces

    A driver that talks to its device and to the kernel is a computation that
    issues events.  The state is the list of events issued so far; the answer of
    the other side to an event is an oracle, a function of the whole history, so
    that a theorem for every oracle holds for every behaviour of the device. *)
Definition TR (Ev A : Type) : Type := list Ev → A * list Ev.

#[export] Instance TR_ret Ev : MRet (TR Ev) := λ A a t, (a, t).
#[export] Instance TR_bind Ev : MBind (TR Ev) := λ A B k m t,
  let '(a, t') := m t in k a t'.

(** Issue an event whose answer is given by the oracle [o]. *)
Definition ask {Ev A} (o : list Ev → Ev → A) (e : Ev) : TR Ev A := λ t, (o t e, t ++ [e]).
(** Issue an event without an answer. *)
Definition emit {Ev} (e : Ev) : TR Ev unit := λ t, ((), t ++ [e]).
(** Issue the events of a list in order. *)
Definition emits {Ev} (es : list Ev) : TR Ev unit := λ t, ((), t ++ es).

(** ** Tactics *)

(** Case analysis on the scrutinee of the first [if] or [match] found. *)
Ltac case_if :=
  match goal with
  | |- context [if ?b then _ else _] => destruct b eqn:?
  | H : context [if ?b then _ else _] |- _ => destruct b eqn:?
  end.

(** Turns boolean tests on [Z] and [bool] hypotheses into propositions. *)
Ltac boolprop :=
  repeat match goal with
  | H : (_ && _) = true |- _ => apply andb_prop in H as [? ?]
  | H : (_ || _) = false |- _ => apply orb_false_elim in H as [? ?]
  | H : negb _ = true |- _ => apply negb_true_iff in H
  | H : negb _ = false |- _ => apply negb_false_iff in H
  | H : (_ =? _) = true |- _ => apply Z.eqb_eq in H
  | H : (_ =? _) = false |- _ => apply Z.eqb_neq in H
  | H : (_ <? _) = true |- _ => apply Z.ltb_lt in H
  | H : (_ <? _) = false |- _ => apply Z.ltb_ge in H
  | H : (_ <=? _) = true |- _ => apply Z.leb_le in H
  | H : (_ <=? _) = false |- _ => apply Z.leb_gt in H
  | H : (_ >? _) = true |- _ => rewrite Z.gtb_ltb in H; apply Z.ltb_lt in H
  | H : (_ >? _) = false |- _ => rewrite Z.gtb_ltb in H; apply Z.ltb_ge in H
  | H : (_ >=? _) = true |- _ => rewrite Z.geb_leb in H; apply Z.leb_le in H
  | H : (_ >=? _) = false |- _ => rewrite Z.geb_leb in H; apply Z.leb_gt in H
  end.

(** ** Lemmas: the monad *)

Lemma bind_ok {S E A B} (m : ST S E A) (k : A → ST S E B) s b s' :
  (m ≫= k) s = Ok (b, s') ↔ ∃ a s1, m s = Ok (a, s1) ∧ k a s1 = Ok (b, s').
Proof.
  unfold mbind, ST_bind. split.
  - destruct (m s) as [[a s1]|e]; intros ?; [by exists a, s1|done].
  - intros (a & s1 & -> & ?). done.
Qed.

Lemma bind_err {S E A B} (m : ST S E A) (k : A → ST S E B) s e :
  (m ≫= k) s = Err e ↔
  m s = Err e ∨ ∃ a s1, m s = Ok (a, s1) ∧ k a s1 = Err e.
Proof.
  unfold mbind, ST_bind. destruct (m s) as [[a s1]|e']; split.
  - intros ?. right. by exists a, s1.
  - intros [?|(? & ? & [= -> ->] & ?)]; done.
  - intros [= ->]. by left.
  - intros [[= ->]|(? & ? & ? & ?)]; done.
Qed.

Lemma ret_ok {S E A} (a : A) (s : S) b s' :
  (mret a : ST S E A) s = Ok (b, s') ↔ b = a ∧ s' = s.
Proof. unfold mret, ST_ret. split; [intros [= -> ->]; done|intros [-> ->]; done]. Qed.

Lemma fail_if_ok {S E} (b : bool) (e : E) (s : S) u s' :
  fail_if b e s = Ok (u, s') ↔ b = false ∧ s' = s.
Proof.
  unfold fail_if, fail, mret, ST_ret.
  destruct b, u; split; [done|by intros [? _]|by intros [= ->]|by intros [_ ->]].
Qed.

Lemma fail_if_err {S E} (b : bool) (e e' : E) (s : S) :
  fail_if b e s = Err e' ↔ b = true ∧ e' = e.
Proof.
  unfold fail_if, fail, mret, ST_ret. destruct b; split; try done.
  - by intros [= ->].
  - by intros [_ ->].
  - by intros [? _].
Qed.

(** [monad_inv] splits every successful run in the context into its steps. *)
Ltac monad_inv :=
  repeat match goal with
  | H : (_ ≫= _) _ = Ok _ |- _ =>
      apply bind_ok in H as (? & ? & ? & H); cbv beta in H
  | H : (let '(_, _) := ?p in _) _ = Ok _ |- _ => destruct p; cbv beta iota in H
  | H : fail_if _ _ _ = Ok _ |- _ => apply fail_if_ok in H as [? ->]
  | H : (mret _) _ = Ok _ |- _ => apply ret_ok in H as [? ?]
  | H : fail _ _ = Ok _ |- _ => discriminate H
  | H : Ok _ = Ok _ |- _ => injection H as ? ?
  | H : Err _ = Ok _ |- _ => discriminate H
  end; simplify_eq.

(** ** Lemmas: traces *)

Lemma TR_bind_eq {Ev A B} (m : TR Ev A) (k : A → TR Ev B) t :
  (m ≫= k) t = k (m t).1 (m t).2.
Proof. unfold mbind, TR_bind. by destruct (m t). Qed.

Lemma TR_ret_eq {Ev A} (a : A) (t : list Ev) : (mret a : TR Ev A) t = (a, t).
Proof. done. Qed.

(** A computation that, whatever the history, only appends events that satisfy
    [ok]. *)
Definition quiet {Ev} (ok : Ev → bool) {A} (m : TR Ev A) : Prop :=
  ∀ t, ∃ evs, (m t).2 = t ++ evs ∧ forallb ok evs = true.

Section quiet.
Context {Ev : Type} (ok : Ev → bool).

Lemma quiet_ret {A} (a : A) : quiet ok (mret a).
Proof. intros t. exists []. by rewrite app_nil_r. Qed.
Lemma quiet_emit e : ok e = true → quiet ok (emit e).
Proof. intros H t. exists [e]. simpl. by rewrite H. Qed.
Lemma quiet_ask {A} (o : list Ev → Ev → A) e : ok e = true → quiet ok (ask o e).
Proof. intros H t. exists [e]. simpl. by rewrite H. Qed.
Lemma quiet_bind {A B} (m : TR Ev A) (k : A → TR Ev B) :
  quiet ok m → (∀ a, quiet ok (k a)) → quiet ok (m ≫= k).
Proof.
  intros Hm Hk t. rewrite TR_bind_eq. destruct (Hm t) as (e1 & H1 & N1). rewrite H1.
  destruct (Hk (m t).1 (t ++ e1)) as (e2 & H2 & N2). exists (e1 ++ e2).
  by rewrite H2, app_assoc, forallb_app, N1, N2.
Qed.
Lemma quiet_if {A} (b : bool) (m k : TR Ev A) :
  quiet ok m → quiet ok k → quiet ok (if b then m else k).
Proof. by destruct b. Qed.
Lemma quiet_read {A} (f : list Ev → A) : quiet ok (λ t, (f t, t)).
Proof. intros t. exists []. by rewrite app_nil_r. Qed.
End quiet.

Create HintDb quiet.
#[export] Hint Resolve quiet_ret quiet_bind quiet_if quiet_read : quiet.
#[export] Hint Extern 1 (quiet _ (emit _)) => by apply quiet_emit : quiet.
#[export] Hint Extern 1 (quiet _ (ask _ _)) => by apply quiet_ask : quiet.

(** [trace_step] runs the computation in the goal as far as it is determined. *)
Ltac trace_step :=
  rewrite ?TR_bind_eq, ?TR_ret_eq; unfold ask, emit, emits; cbn [fst snd].

(** ** Lemmas: widths *)

Lemma u8_range x : 0 ≤ u8 x < 2 ^ 8.
Proof. apply Z.mod_pos_bound. lia. Qed.
Lemma u16_range x : 0 ≤ u16 x < 2 ^ 16.
Proof. apply Z.mod_pos_bound. lia. Qed.
Lemma u32_range x : 0 ≤ u32 x < 2 ^ 32.
Proof. apply Z.mod_pos_bound. lia. Qed.
Lemma u64_range x : 0 ≤ u64 x < 2 ^ 64.
Proof. apply Z.mod_pos_bound. lia. Qed.

Lemma u8_small x : 0 ≤ x < 2 ^ 8 → u8 x = x.
Proof. apply Z.mod_small. Qed.
Lemma u16_small x : 0 ≤ x < 2 ^ 16 → u16 x = x.
Proof. apply Z.mod_small. Qed.
Lemma u32_small x : 0 ≤ x < 2 ^ 32 → u32 x = x.
Proof. apply Z.mod_small. Qed.
Lemma u64_small x : 0 ≤ x < 2 ^ 64 → u64 x = x.
Proof. apply Z.mod_small. Qed.

(** ** Lemmas: bits *)

Lemma testbit_above w n i : 0 ≤ n < 2 ^ w → 0 ≤ w ≤ i → Z.testbit n i = false.
Proof.
  intros Hn Hi. rewrite <- (Z.mod_small n (2 ^ w)) by done.
  apply Z.mod_pow2_bits_high. lia.
Qed.

Lemma bits_bound w n :
  0 ≤ w → 0 ≤ n → (∀ i, w ≤ i → Z.testbit n i = false) → n < 2 ^ w.
Proof.
  intros Hw Hn Hb. destruct (Z.eq_dec n 0) as [->|]; [lia|].
  apply Z.log2_lt_pow2; [lia|]. destruct (Z.lt_ge_cases (Z.log2 n) w); [done|].
  pose proof (Z.bit_log2 n ltac:(lia)) as Hl. rewrite Hb in Hl by lia. done.
Qed.

Lemma testbit_BIT n i : 0 ≤ n → Z.testbit (BIT n) i = (i =? n).
Proof.
  intros. unfold BIT. rewrite Z.shiftl_1_l, Z.pow2_bits_eqb by done.
  destruct (Z.eqb_spec i n), (Z.eqb_spec n i); congruence.
Qed.

Lemma testbit_GENMASK h l i :
  0 ≤ l ≤ h → 0 ≤ i → Z.testbit (GENMASK h l) i = (l <=? i) && (i <=? h).
Proof.
  intros Hl Hi. unfold GENMASK. rewrite Z.shiftl_spec by done.
  destruct (Z.leb_spec l i).
  - rewrite Z.testbit_ones by lia. destruct (Z.leb_spec i h); simpl.
    + apply andb_true_intro; split; [apply Z.leb_le|apply Z.ltb_lt]; lia.
    + apply andb_false_intro2, Z.ltb_ge. lia.
  - rewrite Z.testbit_neg_r by lia. done.
Qed.

Lemma testbit_not32 x i : 0 ≤ i < 32 → Z.testbit (not32 x) i = negb (Z.testbit x i).
Proof.
  intros. unfold not32, u32. rewrite Z.mod_pow2_bits_low by lia.
  by rewrite Z.lnot_spec by lia.
Qed.

(** The lowest set bit of a mask of adjacent bits. *)
Lemma bf_shf_GENMASK h l : 0 ≤ l ≤ h → bf_shf (GENMASK h l) = l.
Proof.
  intros Hl. unfold bf_shf, GENMASK.
  set (k := h - l + 1).
  assert (- Z.shiftl (Z.ones k) l = Z.shiftl (Z.lnot (Z.shiftl (Z.ones (k - 1)) 1)) l) as ->.
  { rewrite !Z.shiftl_mul_pow2, !Z.ones_equiv by lia. unfold Z.lnot.
    replace (2 ^ k) with (2 ^ (k - 1) * 2 ^ 1) by (rewrite <- Z.pow_add_r by lia; f_equal; lia).
    lia. }
  rewrite <- Z.shiftl_land.
  assert (Z.land (Z.ones k) (Z.lnot (Z.shiftl (Z.ones (k - 1)) 1)) = 1) as ->.
  { apply Z.bits_inj'. intros i Hi.
    rewrite Z.land_spec, Z.lnot_spec, Z.shiftl_spec, !Z.testbit_ones by lia.
    destruct (Z.eq_dec i 0) as [->|].
    { replace (0 <? k) with true by (symmetry; apply Z.ltb_lt; lia). done. }
    rewrite (Z.bits_above_log2 1) by (simpl; lia).
    destruct (Z.ltb_spec i k).
    - replace (i - 1 <? k - 1) with true by (symmetry; apply Z.ltb_lt; lia).
      replace (0 <=? i - 1) with true by (symmetry; apply Z.leb_le; lia).
      by rewrite andb_false_r.
    - by rewrite andb_false_r. }
  rewrite Z.shiftl_1_l. apply Z.log2_pow2. lia.
Qed.

(** Concatenating a low field of [k] bits with a high part. *)
Lemma lor_shiftl_add a b k : 0 ≤ k → 0 ≤ a < 2 ^ k → Z.lor a (Z.shiftl b k) = a + b * 2 ^ k.
Proof.
  intros Hk Ha. rewrite <- Z.shiftl_mul_pow2 by done. symmetry.
  assert (Z.land a (Z.shiftl b k) = 0) as Hd.
  { apply Z.bits_inj'. intros i Hi. rewrite Z.land_spec, Z.bits_0, Z.shiftl_spec by done.
    destruct (Z.lt_ge_cases i k); [rewrite (Z.testbit_neg_r b) by lia; apply andb_false_r|].
    by rewrite (testbit_above k a) by lia. }
  rewrite Z.add_nocarry_lxor by done. by apply Z.lxor_lor.
Qed.

Lemma lor_shiftl_range a b k j :
  0 ≤ k → 0 ≤ j → 0 ≤ a < 2 ^ k → 0 ≤ b < 2 ^ j →
  0 ≤ Z.lor a (Z.shiftl b k) < 2 ^ (k + j).
Proof. intros. rewrite lor_shiftl_add, Z.pow_add_r by done. nia. Qed.

(** ** Lemmas: lists *)

Lemma nth_map_Z {A} (f : A → Z) (l : list A) n d :
  (n < length l)%nat → nth n (map f l) 0 = f (nth n l d).
Proof. intros. rewrite nth_indep with (d' := f d) by (by rewrite length_map). apply map_nth. Qed.

(** A fold whose step is injective on an invariant set of states tells apart
    any two sequences that differ in one element. *)
Section fold_inj.
Context (f : Z → Z → Z) (I B : Z → Prop).
Hypothesis f_range : ∀ c x, I c → B x → I (f c x).
Hypothesis f_inj_state : ∀ c d x, I c → I d → B x → f c x = f d x → c = d.
Hypothesis f_inj_elem : ∀ c x y, I c → B x → B y → f c x = f c y → x = y.

Lemma fold_left_range p c : Forall B p → I c → I (fold_left f p c).
Proof.
  revert c. induction p as [|x p IH]; intros c Hp Hc; simpl; [done|].
  inversion Hp; subst. apply IH; auto.
Qed.

Lemma fold_left_inj p c d :
  Forall B p → I c → I d → fold_left f p c = fold_left f p d → c = d.
Proof.
  revert c d. induction p as [|x p IH]; intros c d Hp Hc Hd H; simpl in H; [done|].
  inversion Hp; subst. apply IH in H; eauto.
Qed.

Lemma fold_left_one_change l x y r c :
  Forall B l → Forall B r → B x → B y → I c →
  fold_left f (l ++ x :: r) c = fold_left f (l ++ y :: r) c → x = y.
Proof.
  intros Hl Hr Hx Hy Hc. rewrite !fold_left_app. simpl. intros H.
  apply fold_left_inj in H; eauto using fold_left_range.
Qed.
End fold_inj.

(** ** Lemmas: bit fields *)

Lemma testbit_FIELD_PREP h l v i :
  0 ≤ l ≤ h → 0 ≤ i →
  Z.testbit (FIELD_PREP (GENMASK h l) v) i = (l <=? i) && (i <=? h) && Z.testbit v (i - l).
Proof.
  intros. unfold FIELD_PREP.
  rewrite bf_shf_GENMASK, Z.land_spec, testbit_GENMASK, Z.shiftl_spec by lia. btauto.
Qed.

Lemma testbit_FIELD_GET h l r i :
  0 ≤ l ≤ h → 0 ≤ i →
  Z.testbit (FIELD_GET (GENMASK h l) r) i = (i <=? h - l) && Z.testbit r (i + l).
Proof.
  intros. unfold FIELD_GET.
  rewrite bf_shf_GENMASK, Z.shiftr_spec, Z.land_spec, testbit_GENMASK by lia.
  replace (l <=? i + l) with true by (symmetry; apply Z.leb_le; lia).
  destruct (Z.leb_spec (i + l) h), (Z.leb_spec i (h - l)); lia || btauto.
Qed.

Lemma FIELD_PREP_range h l v : 0 ≤ l ≤ h → 0 ≤ v → 0 ≤ FIELD_PREP (GENMASK h l) v < 2 ^ (h + 1).
Proof.
  intros Hl Hv. assert (0 ≤ FIELD_PREP (GENMASK h l) v) as Hn.
  { unfold FIELD_PREP. apply Z.land_nonneg. left. by apply Z.shiftl_nonneg. }
  split; [done|]. apply bits_bound; [lia|done|]. intros i Hi.
  rewrite testbit_FIELD_PREP by lia. replace (i <=? h) with false; [btauto|].
  symmetry. apply Z.leb_gt. lia.
Qed.

Lemma FIELD_GET_PREP h l v :
  0 ≤ l ≤ h → 0 ≤ v < 2 ^ (h - l + 1) →
  FIELD_GET (GENMASK h l) (FIELD_PREP (GENMASK h l) v) = v.
Proof.
  intros Hl Hv. apply Z.bits_inj'. intros i Hi.
  rewrite testbit_FIELD_GET, testbit_FIELD_PREP by lia.
  replace (i + l - l) with i by lia.
  replace (l <=? i + l) with true by (symmetry; apply Z.leb_le; lia).
  destruct (Z.leb_spec i (h - l)).
  - replace (i + l <=? h) with true by (symmetry; apply Z.leb_le; lia). done.
  - by rewrite (testbit_above (h - l + 1) v) by lia.
Qed.

Lemma FIELD_GET_PREP_disjoint h l h' l' v :
  0 ≤ l ≤ h → 0 ≤ l' ≤ h' → h < l' ∨ h' < l →
  FIELD_GET (GENMASK h l) (FIELD_PREP (GENMASK h' l') v) = 0.
Proof.
  intros Hl Hl' Hd. apply Z.bits_inj'. intros i Hi.
  rewrite testbit_FIELD_GET, testbit_FIELD_PREP, Z.bits_0 by lia.
  destruct (Z.leb_spec i (h - l)), (Z.leb_spec l' (i + l)), (Z.leb_spec (i + l) h');
    try lia; done.
Qed.

Lemma FIELD_GET_lor m a b : FIELD_GET m (Z.lor a b) = Z.lor (FIELD_GET m a) (FIELD_GET m b).
Proof. unfold FIELD_GET. by rewrite Z.land_lor_distr_l, Z.shiftr_lor. Qed.

Lemma FIELD_GET_range h l r : 0 ≤ l ≤ h → 0 ≤ FIELD_GET (GENMASK h l) r < 2 ^ (h - l + 1).
Proof.
  intros Hl. assert (0 ≤ FIELD_GET (GENMASK h l) r) as Hn.
  { unfold FIELD_GET. apply Z.shiftr_nonneg, Z.land_nonneg. right.
    unfold GENMASK. apply Z.shiftl_nonneg. rewrite Z.ones_equiv.
    pose proof (Z.pow_pos_nonneg 2 (h - l + 1)). lia. }
  split; [done|]. apply bits_bound; [lia|done|]. intros i Hi.
  rewrite testbit_FIELD_GET by lia.
  replace (i <=? h - l) with false by (symmetry; apply Z.leb_gt; lia). done.
Qed.

Lemma lor_u32 a b : 0 ≤ a < 2 ^ 32 → 0 ≤ b < 2 ^ 32 → 0 ≤ Z.lor a b < 2 ^ 32.
Proof.
  intros Ha Hb. assert (0 ≤ Z.lor a b) by (apply Z.lor_nonneg; lia). split; [done|].
  apply bits_bound; [lia|done|]. intros i Hi.
  rewrite Z.lor_spec, !(testbit_above 32) by (done || lia). done.
Qed.

(** ** Lemmas: a table of optional values changed at one index *)

Lemma omap_ext_in {A B} (f g : A → option B) (l : list A) :
  (∀ x, x ∈ l → f x = g x) → omap f l = omap g l.
Proof.
  induction l as [|x l IH]; intros H; simpl; [done|].
  rewrite (H x) by apply list_elem_of_here. destruct (g x); [f_equal|];
    apply IH; intros; apply H; by apply list_elem_of_further.
Qed.

Lemma omap_none {A B} (f : A → option B) (l : list A) :
  (∀ x, x ∈ l → f x = None) → omap f l = [].
Proof.
  intros H. rewrite (omap_ext_in f (λ _, None)) by done.
  clear H. induction l; [done|]. simpl. done.
Qed.

Lemma omap_set {A B} (f g : A → option B) (l : list A) i v :
  NoDup l → i ∈ l → (∀ x, x ∈ l → x ≠ i → g x = f x) → f i = None → g i = Some v →
  omap g l ≡ₚ v :: omap f l.
Proof.
  induction l as [|x l IH]; intros Hnd Hi Hfg Hf Hg; [by apply not_elem_of_nil in Hi|].
  apply NoDup_cons in Hnd as [Hx Hnd]. simpl. apply elem_of_cons in Hi as [<- | Hi].
  - rewrite Hf, Hg. f_equiv. rewrite (omap_ext_in g f); [done|].
    intros y Hy. apply Hfg; [by apply list_elem_of_further|]. by intros ->.
  - rewrite Hfg by (try apply list_elem_of_here; by intros ->).
    assert (omap g l ≡ₚ v :: omap f l) as Hp.
    { apply IH; try done. intros y Hy. apply Hfg. by apply list_elem_of_further. }
    destruct (f x); [|done]. rewrite Hp. apply Permutation_swap.
Qed.

(** A search over consecutive indices finds the first one. *)
Lemma find_seqZ_first (f : Z → bool) a n i :
  List.find f (seqZ a n) = Some i →
  a ≤ i < a + n ∧ f i = true ∧ ∀ j, a ≤ j < i → f j = false.
Proof.
  revert a. remember (Z.to_nat n) as k eqn:Hk. revert n Hk.
  induction k as [|k IH]; intros n Hk a H.
  - by rewrite seqZ_nil in H by lia.
  - rewrite seqZ_cons in H by lia. simpl in H. destruct (f a) eqn:Ha.
    + injection H as <-. split; [lia|]. split; [done|]. lia.
    + apply IH in H as (? & ? & Hj); [|lia]. split; [lia|]. split; [done|].
      intros j Hj'. destruct (Z.eq_dec j a) as [->|]; [done|]. apply Hj. lia.
Qed.

Lemma find_seqZ_none (f : Z → bool) a n :
  List.find f (seqZ a n) = None → ∀ j, a ≤ j < a + n → f j = false.
Proof.
  intros H j Hj. eapply List.find_none; [done|]. apply list_elem_of_In, elem_of_seqZ. lia.
Qed.
