(* ===== verification/Ledger.v ===== *)
(** * Resource ledgers

    A driver that acquires and releases things issues events; a ledger replays the
    events on a record of what is held, and fails when something is released that is
    not held.  The rules below prove what a computation holds at its end by following
    its steps; [Aic.v], [Cpufreq.v] and [Regcache.v] use them for their error paths. *)

From stdpp Require Import base list option.
From S2P Require Import Prelude.

Local Open Scope list_scope.

(** Things that are given back in the opposite order are a stack. *)
Definition pop {K} `{EqDecision K} (r : K) (o : list K) : option (list K) :=
  match o with x :: o' => if decide (x = r) then Some o' else None | [] => None end.

Section ledger.
Context {Ev O : Type} (step : list Ev → Ev → O → option O).

(** [None] when a step of the history is not possible. *)
Fixpoint ledger (pre evs : list Ev) (o : O) : option O :=
  match evs with
  | [] => Some o
  | e :: evs' => match step pre e o with Some o' => ledger (pre ++ [e]) evs' o' | None => None end
  end.

Lemma ledger_app evs evs' : ∀ pre o,
  ledger pre (evs ++ evs') o = ledger pre evs o ≫= ledger (pre ++ evs) evs'.
Proof.
  induction evs as [|e evs IH]; intros pre o; simpl; [by rewrite app_nil_r|].
  destruct (step pre e o); [|done]. by rewrite IH, <- app_assoc.
Qed.

(** Events that move nothing. *)
Definition keeps (keep : Ev → bool) : Prop := ∀ e pre o, keep e = true → step pre e o = Some o.

Lemma ledger_keeps keep evs : keeps keep → ∀ pre o,
  forallb keep evs = true → ledger pre evs o = Some o.
Proof.
  intros Hk. induction evs as [|e evs IH]; intros pre o; [done|]. cbn [forallb ledger].
  intros [He H]%andb_prop. rewrite (Hk e) by done. by apply IH.
Qed.

(** [m], started with [o] held, ends with a result and a holding related by [post]. *)
Definition settles {A} (m : TR Ev A) (t : list Ev) (o : O) (post : A → O → Prop) : Prop :=
  ∃ evs o', (m t).2 = t ++ evs ∧ ledger t evs o = Some o' ∧ post (m t).1 o'.

Lemma settles_ret {A} (a : A) t o (post : A → O → Prop) : post a o → settles (mret a) t o post.
Proof. intros H. exists [], o. by rewrite app_nil_r. Qed.

Lemma settles_weaken {A} (m : TR Ev A) t o (post post' : A → O → Prop) :
  settles m t o post → (∀ a o', post a o' → post' a o') → settles m t o post'.
Proof. intros (evs & o' & He & Hl & H) Himp. exists evs, o'. auto. Qed.

Lemma settles_bind {A B} (m : TR Ev A) (k : A → TR Ev B) t e o o' post :
  (m t).2 = t ++ e → ledger t e o = Some o' → settles (k (m t).1) (t ++ e) o' post →
  settles (m ≫= k) t o post.
Proof.
  intros He Ho (evs & o2 & Hevs & Hl & H). exists (e ++ evs), o2.
  rewrite TR_bind_eq, He, Hevs, <- app_assoc, ledger_app, Ho. done.
Qed.

Lemma settles_emit {A} e (k : unit → TR Ev A) t o o' post :
  step t e o = Some o' → settles (k tt) (t ++ [e]) o' post → settles (emit e ≫= k) t o post.
Proof. intros Hs. apply (settles_bind (emit e) k t [e]); [done|]. simpl. by rewrite Hs. Qed.

Lemma settles_ask {A B} (ans : list Ev → Ev → A) e (k : A → TR Ev B) t o o' post :
  step t e o = Some o' → settles (k (ans t e)) (t ++ [e]) o' post → settles (ask ans e ≫= k) t o post.
Proof. intros Hs. apply (settles_bind (ask ans e) k t [e]); [done|]. simpl. by rewrite Hs. Qed.

Lemma settles_quiet {A B} keep (m : TR Ev A) (k : A → TR Ev B) t o post :
  keeps keep → quiet keep m → (∀ e, (m t).2 = t ++ e → settles (k (m t).1) (t ++ e) o post) →
  settles (m ≫= k) t o post.
Proof.
  intros Hk Hm H. destruct (Hm t) as (e & He & Hn).
  eapply settles_bind; [done|by eapply ledger_keeps|auto].
Qed.

Lemma settles_call {A B} (m : TR Ev A) (k : A → TR Ev B) t o (mid : A → O → Prop) post :
  settles m t o mid →
  (∀ e o', (m t).2 = t ++ e → mid (m t).1 o' → settles (k (m t).1) (t ++ e) o' post) →
  settles (m ≫= k) t o post.
Proof. intros (e & o' & He & Hl & Hm) H. eapply settles_bind; [done|done|auto]. Qed.
End ledger.
