(* ===== verification/GptGate.v ===== *)
(** * The USB-root metadata gate (scripts/t6040-usb-root-metadata.c)

    A read-only program that decides whether a disk carries exactly the
    reviewed GPT/ext4 root: protective MBR, both GPT copies with their CRCs,
    one partition with the expected identity, a clean ext4 superblock.  The
    model follows the program function by function; [die] is the error of the
    monad, the state is the schedule of outcomes the kernel gives the
    successive [pread] calls. *)

From Stdlib Require Import ZArith Lia Bool Ascii String.
From Stdlib Require Strings.Byte.
From stdpp Require Import base numbers list option strings pretty.
From S2P Require Import Prelude.

Local Open Scope string_scope.
Local Open Scope list_scope.
Local Open Scope Z_scope.

(** ** Buffers *)

(** A buffer is the list of its bytes; [ld8 p i] is [p[i]]. *)
Definition ld8 (p : list Z) (i : Z) : Z := nth (Z.to_nat i) p 0.
Definition sub (p : list Z) (off n : Z) : list Z :=
  take (Z.to_nat n) (drop (Z.to_nat off) p).

Definition byteZ (b : Byte.byte) : Z := Z.of_N (Byte.to_N b).
Definition charZ (c : ascii) : Z := Z.of_N (N_of_ascii c).
Definition bytes_of_string (s : string) : list Z := map charZ (list_ascii_of_string s).

(** ** Constants *)

Definition SECTOR : Z := 512.
Definition MAX_ARRAY : Z := 1024 * 1024.
Definition LINUX_FS : string := "0fc63daf-8483-4772-8e79-3d69d8477de4".
Definition UINT32_MAX : Z := 2 ^ 32 - 1.
Definition UINT64_MAX : Z := 2 ^ 64 - 1.
Definition INT64_MAX : Z := 2 ^ 63 - 1.

(** ** Scalars and checksums *)

Definition le16 (p : list Z) (o : Z) : Z := Z.lor (ld8 p o) (Z.shiftl (ld8 p (o + 1)) 8).
Definition le32 (p : list Z) (o : Z) : Z := Z.lor (le16 p o) (Z.shiftl (le16 p (o + 2)) 16).
Definition le64 (p : list Z) (o : Z) : Z := Z.lor (le32 p o) (Z.shiftl (le32 p (o + 4)) 32).

(** One of the eight iterations of the inner loop. *)
Definition crc32_bit (c : Z) : Z :=
  Z.lxor (Z.shiftr c 1) (Z.land 0xedb88320 (u32 (0 - Z.land c 1))).
Definition crc32_byte (c b : Z) : Z := Nat.iter 8 crc32_bit (Z.lxor c b).
Definition crc32 (p : list Z) : Z := not32 (fold_left crc32_byte p UINT32_MAX).

#[global] Arguments crc32_bit : simpl never.
#[global] Arguments crc32_byte : simpl never.
#[global] Arguments crc32 : simpl never.

(** [zero(p, n)] *)
Definition zero (p : list Z) : bool := forallb (λ b, b =? 0) p.

Definition memeq (p q : list Z) : bool := bool_decide (p = q).

(** ** The medium and the monad *)

Record media := Media { m_len : Z; m_byte : Z → Byte.byte }.

Definition bytes_at (m : media) (off n : Z) : list Z :=
  map (λ i, byteZ (m_byte m (off + i))) (seqZ 0 n).

(** What one [pread] returns: [EINTR], or the value [k] (an error or an end of
    file when [k <= 0], a possibly short count when [k > 0]).  When the
    schedule is exhausted a [pread] returns all the bytes it was asked for. *)
Inductive pread_outcome :=
| PreadIntr
| PreadRet (k : Z).

Abbreviation G := (ST (list pread_outcome) string).

Definition die {A} (why : string) : G A := fail why.

(** The [while (n)] loop of [read_at]. *)
Fixpoint read_loop (m : media) (sched : list pread_outcome) (n off : Z)
    : result string (list Z * list pread_outcome) :=
  if n =? 0 then Ok ([], sched) else
  match sched with
  | [] => Ok (bytes_at m off n, [])
  | PreadIntr :: sched' => read_loop m sched' n off
  | PreadRet k :: sched' =>
      if k <=? 0 then Err "short or failed read"
      else
        let k := Z.min k n in
        match read_loop m sched' (n - k) (off + k) with
        | Ok (rest, sched'') => Ok (bytes_at m off k ++ rest, sched'')
        | Err e => Err e
        end
  end.

Definition read_at (m : media) (n off : Z) : G (list Z) :=
  fail_if ((off >? m_len m) || (n >? u64 (m_len m - off)) || (off >? INT64_MAX))
    "read outside pinned media bounds";;
  ((λ sched, read_loop m sched n off) : G (list Z)).

(** ** Arguments *)

Definition is_digit (c : ascii) : bool := (48 <=? charZ c) && (charZ c <=? 57).
Definition decimal (s : string) : Z :=
  fold_left (λ n c, 10 * n + (charZ c - 48)) (list_ascii_of_string s) 0.

(** [strtoull] on a string of digits sets [errno] to [ERANGE] above 2^64-1. *)
Definition number (s : string) : G Z :=
  fail_if (match s with EmptyString => true | _ => false end
           || negb (forallb is_digit (list_ascii_of_string s)))
    "invalid decimal argument";;
  fail_if ((decimal s >? UINT64_MAX) || (decimal s =? 0)) "invalid numeric argument";;
  mret (decimal s).

Definition nibble (c : Z) : Z :=
  if (48 <=? c) && (c <=? 57) then c - 48
  else if (97 <=? c) && (c <=? 102) then c - 97 + 10
  else -1.

(** The [while (i < 36)] loop of [uuid], on the characters from index [i]. *)
Fixpoint uuid_loop (fuel : nat) (i j : Z) (s : list Z) : G (list Z) :=
  match fuel with
  | O => mret []
  | S fuel =>
      match s with
      | [] => mret []
      | x :: s1 =>
          if (i =? 8) || (i =? 13) || (i =? 18) || (i =? 23) then
            fail_if (negb (x =? 45)) "invalid UUID separator";;
            uuid_loop fuel (i + 1) j s1
          else
            let a := nibble x in
            let c := nibble (hd 0 s1) in
            fail_if ((a <? 0) || (c <? 0) || (j >=? 16)) "invalid UUID digit";;
            rest ← uuid_loop fuel (i + 2) (j + 1) (tl s1);
            mret (u8 (a * 16 + c) :: rest)
      end
  end.

Definition gpt_order : list Z := [3;2;1;0;5;4;7;6;8;9;10;11;12;13;14;15].

Definition uuid (s : string) (gpt : bool) : G (list Z) :=
  fail_if (negb (Z.of_nat (String.length s) =? 36)) "UUID must use lowercase canonical format";;
  b ← uuid_loop 36 0 0 (bytes_of_string s);
  fail_if (negb (Z.of_nat (length b) =? 16)) "invalid UUID length";;
  fail_if (zero b) "zero UUID is not an identity";;
  mret (if gpt then map (ld8 b) gpt_order else b).

(** ** GPT *)

Record header_t := Header {
  h_current : Z; h_backup : Z; h_first : Z; h_last : Z; h_table : Z;
  h_count : Z; h_entry_size : Z; h_array_crc : Z;
  h_guid : list Z
}.

(** [memcpy(copy, b, n); memset(copy + 16, 0, 4)], the [n] bytes that are summed. *)
Definition header_copy (b : list Z) (n : Z) : list Z :=
  sub b 0 16 ++ [0; 0; 0; 0] ++ sub b 20 (n - 20).

Definition parse_header (b : list Z) : header_t :=
  {| h_current := le64 b 24; h_backup := le64 b 32;
     h_first := le64 b 40; h_last := le64 b 48;
     h_table := le64 b 72; h_count := le32 b 80;
     h_entry_size := le32 b 84; h_array_crc := le32 b 88;
     h_guid := sub b 56 16 |}.

(** The geometry test that ends in "invalid or excessive GPT geometry". *)
Definition bad_geometry (h : header_t) (lba layout_sectors : Z) : bool :=
  negb (h_current h =? lba) || (h_backup h >=? layout_sectors) ||
  (h_first h >? h_last h) || (h_first h <? 3) ||
  (h_last h >=? u64 (layout_sectors - 1)) ||
  (h_count h =? 0) || (h_entry_size h <? 128) ||
  negb (h_entry_size h mod 128 =? 0) ||
  negb (Z.land (h_entry_size h / 128) (u32 (h_entry_size h / 128 - 1)) =? 0) ||
  (h_count h >? MAX_ARRAY / h_entry_size h).

Definition array_sectors (h : header_t) : Z :=
  u64 (u64 (h_count h * h_entry_size h) + SECTOR - 1) / SECTOR.

Definition header (m : media) (lba layout_sectors : Z) : G header_t :=
  b ← read_at m SECTOR (u64 (lba * SECTOR));
  fail_if (negb (memeq (sub b 0 8) (bytes_of_string "EFI PART")) ||
           negb (le32 b 8 =? 0x10000) || negb (le32 b 20 =? 0))
    "invalid GPT signature, revision or reserved field";;
  let n := le32 b 12 in
  fail_if ((n <? 92) || (n >? SECTOR)) "invalid GPT header size";;
  fail_if (negb (crc32 (header_copy b n) =? le32 b 16)) "GPT header CRC mismatch";;
  let h := parse_header b in
  fail_if (bad_geometry h lba layout_sectors) "invalid or excessive GPT geometry";;
  fail_if ((h_table h <? 2) || (h_table h >=? layout_sectors) ||
           (array_sectors h >? u64 (layout_sectors - h_table h)))
    "GPT array outside pinned layout";;
  (if lba =? 1 then
     fail_if (negb (h_backup h =? u64 (layout_sectors - 1)) || negb (h_table h =? 2) ||
              (u64 (h_table h + array_sectors h) >? h_first h))
       "primary GPT overlaps usable sectors or wrong backup location"
   else
     fail_if (negb (h_backup h =? 1) || (h_table h <=? h_last h) ||
              negb (u64 (h_table h + array_sectors h) =? lba))
       "backup GPT overlaps usable sectors or wrong primary location");;
  mret h.

(** The system interface the program uses, besides [pread]. *)
Inductive file_kind := KindReg | KindBlk | KindOther.
Record stat_t := Stat {
  st_kind : file_kind; st_dev : Z; st_ino : Z; st_major : Z; st_minor : Z; st_size : Z
}.
Record env := Env {
  e_lstat : string → option stat_t;
  e_open : string → option (Z → Byte.byte);  (** [open(path, O_RDONLY | ... | O_NOFOLLOW)] *)
  e_fstat : option stat_t;
  e_blksszget : option Z;
  e_blkgetsize64 : option Z;
  e_malloc : Z → bool
}.

Definition array (e : env) (m : media) (h : header_t) : G (list Z) :=
  let n := u64 (h_count h * h_entry_size h) in
  fail_if (negb (e_malloc e n)) "allocation failed";;
  p ← read_at m n (u64 (h_table h * SECTOR));
  fail_if (negb (crc32 p =? h_array_crc h)) "GPT partition-array CRC mismatch";;
  mret p.

(** ** Options *)

Record opts := Opts {
  o_path : option string; o_disk : bool;
  o_disk_id : option string; o_part_id : option string; o_fs_id : option string;
  o_media : Z; o_layout : Z; o_devnum : option string
}.
Definition opts0 : opts := Opts None false None None None 0 0 None.

Definition unset {A} (o : option A) : bool := match o with None => true | _ => false end.

(** One iteration of the option loop of [main]. *)
Definition parse_opt (o : opts) (name v : string) : G opts :=
  let '(Opts path disk did pid fid med lay dn) := o in
  if String.eqb name "--image" || String.eqb name "--disk" then
    fail_if (negb (unset path)) "multiple input paths";;
    mret (Opts (Some v) (String.eqb name "--disk") did pid fid med lay dn)
  else if String.eqb name "--disk-guid" && unset did then
    mret (Opts path disk (Some v) pid fid med lay dn)
  else if String.eqb name "--partuuid" && unset pid then
    mret (Opts path disk did (Some v) fid med lay dn)
  else if String.eqb name "--fsuuid" && unset fid then
    mret (Opts path disk did pid (Some v) med lay dn)
  else if String.eqb name "--media-bytes" && (med =? 0) then
    n ← number v; mret (Opts path disk did pid fid n lay dn)
  else if String.eqb name "--layout-bytes" && (lay =? 0) then
    n ← number v; mret (Opts path disk did pid fid med n dn)
  else if String.eqb name "--device-number" && unset dn then
    mret (Opts path disk did pid fid med lay (Some v))
  else die "unknown or repeated option".

Fixpoint parse_args (o : opts) (argv : list string) : G opts :=
  match argv with
  | [] => mret o
  | [_] => die "option missing value"
  | name :: v :: argv' => o' ← parse_opt o name v; parse_args o' argv'
  end.

(** ** The stages of [main] *)

Definition kind_eqb (a b : file_kind) : bool :=
  match a, b with
  | KindReg, KindReg | KindBlk, KindBlk | KindOther, KindOther => true
  | _, _ => false
  end.

(** [snprintf(actual, sizeof actual, "%u:%u", major, minor)] *)
Definition devnum (st : stat_t) : string :=
  (pretty (st_major st) +:+ ":" +:+ pretty (st_minor st))%string.

(** From [lstat] to the comparison with the pinned capacity. *)
Definition open_input (e : env) (path : string) (disk : bool) (dn : option string)
    (expected_media : Z) : G media :=
  before ← (match e_lstat e path with
            | Some st =>
                fail_if ((negb disk && negb (kind_eqb (st_kind st) KindReg)) ||
                         (disk && negb (kind_eqb (st_kind st) KindBlk)))
                  "input has the wrong type or is a symlink";;
                mret st
            | None => die "input has the wrong type or is a symlink"
            end);
  (if disk then
     fail_if (match dn with
              | None => true
              | Some d => negb (String.eqb d (devnum before))
              end) "device number differs from sysfs identity"
   else fail_if (negb (unset dn)) "device-number is only valid in disk mode");;
  content ← (match e_open e path with
             | Some c => mret c
             | None => die "cannot open input read-only"
             end);
  st ← (match e_fstat e with
        | Some st =>
            fail_if (negb (st_dev st =? st_dev before) || negb (st_ino st =? st_ino before) ||
                     negb (st_major st =? st_major before) || negb (st_minor st =? st_minor before))
              "input identity changed during open";;
            mret st
        | None => die "input identity changed during open"
        end);
  media_bytes ←
    (if disk then
       fail_if (negb (kind_eqb (st_kind st) KindBlk)) "--disk requires a block device";;
       match e_blksszget e, e_blkgetsize64 e with
       | Some ss, Some sz =>
           fail_if (negb (ss =? SECTOR)) "unsupported block geometry";; mret (u64 sz)
       | _, _ => die "unsupported block geometry"
       end
     else
       fail_if (negb (kind_eqb (st_kind st) KindReg) || (st_size st <? 0))
         "--image requires a regular file";;
       mret (u64 (st_size st)));
  fail_if (negb (media_bytes =? expected_media)) "media length differs from pinned capacity";;
  mret (Media media_bytes content).

Definition check_mbr (m : media) (sectors : Z) : G unit :=
  mbr ← read_at m SECTOR 0;
  fail_if (negb (ld8 mbr 510 =? 0x55) || negb (ld8 mbr 511 =? 0xaa) ||
           negb (ld8 mbr (446 + 4) =? 0xee) || negb (ld8 mbr 446 =? 0) ||
           negb (le32 mbr (446 + 8) =? 1) ||
           negb (le32 mbr (446 + 12) =?
                 (if u64 (sectors - 1) >? UINT32_MAX then UINT32_MAX else u64 (sectors - 1))) ||
           negb (zero (sub mbr 462 48)))
    "invalid protective MBR or hybrid partition table".

(** Both headers and both arrays, and their agreement. *)
Definition check_copies (e : env) (m : media) (sectors : Z) (dg : list Z)
    : G (header_t * list Z) :=
  a ← header m 1 sectors;
  b ← header m (u64 (sectors - 1)) sectors;
  fail_if (negb (memeq (h_guid a) dg) || negb (memeq (h_guid b) dg) ||
           negb (h_first a =? h_first b) || negb (h_last a =? h_last b) ||
           negb (h_count a =? h_count b) || negb (h_entry_size a =? h_entry_size b) ||
           negb (h_array_crc a =? h_array_crc b))
    "GPT copies or disk GUID disagree";;
  pa ← array e m a;
  pb ← array e m b;
  let array_bytes := u64 (h_count a * h_entry_size a) in
  fail_if (negb (memeq (sub pa 0 array_bytes) (sub pb 0 array_bytes)))
    "GPT partition arrays disagree";;
  mret (a, pa).

Definition label : string := "t6040root".

(** The UTF-16 name field of the entry. *)
Definition label_mismatch (pa : list Z) : bool :=
  existsb (λ i, negb (le16 pa (56 + i * 2) =?
                      (if i <? Z.of_nat (String.length label)
                       then ld8 (bytes_of_string label) i else 0)))
    (seqZ 0 36).

Definition extra_partition (a : header_t) (pa : list Z) : bool :=
  existsb (λ i, negb (zero (sub pa (i * h_entry_size a) (h_entry_size a))))
    (seqZ 1 (h_count a - 1)).

Definition check_entry (a : header_t) (pa type pg : list Z) : G (Z * Z) :=
  fail_if (negb (memeq (sub pa 0 16) type) || negb (memeq (sub pa 16 16) pg))
    "partition type or PARTUUID mismatch";;
  fail_if (extra_partition a pa) "unexpected additional GPT partition";;
  let first := le64 pa 32 in
  let last := le64 pa 40 in
  fail_if (negb (first =? 2048) || (first <? h_first a) || (first >? last) ||
           (last >? h_last a) || negb (le64 pa 48 =? 0))
    "unexpected root extent or GPT attributes";;
  fail_if (label_mismatch pa) "GPT root label mismatch";;
  mret (first, last).

(** [char fs_label[16] = "t6040root"] *)
Definition fs_label : list Z := bytes_of_string label ++ replicate 7 0.

Definition ext4_blocks (sb : list Z) : Z :=
  if negb (Z.land (le32 sb 96) 0x80 =? 0)
  then Z.lor (le32 sb 4) (Z.shiftl (le32 sb 0x150) 32)
  else le32 sb 4.

Definition check_ext4 (m : media) (first last : Z) (fg : list Z) : G (Z * Z) :=
  sb ← read_at m 1024 (u64 (u64 (first * SECTOR) + 1024));
  fail_if (negb (le16 sb 56 =? 0xef53) || negb (le32 sb 76 =? 1) ||
           negb (memeq (sub sb 104 16) fg))
    "ext4 magic, revision or UUID mismatch";;
  fail_if (negb (memeq (sub sb 120 16) fs_label)) "ext4 label mismatch";;
  fail_if (negb (le16 sb 58 =? 1) || negb (Z.land (le32 sb 96) 4 =? 0))
    "ext4 is dirty, errored or needs journal replay";;
  let shift := le32 sb 24 in
  fail_if (shift >? 6) "unsupported ext4 block size";;
  let block_size := u64 (Z.shiftl 1024 shift) in
  let blocks := ext4_blocks sb in
  let part_bytes := u64 (u64 (last - first + 1) * SECTOR) in
  fail_if ((blocks =? 0) || (blocks >? part_bytes / block_size))
    "ext4 size exceeds root partition";;
  mret (block_size, blocks).

(** What the program prints when the gate passes; the block size and count are
    not printed, they are kept for the statements. *)
Record report := Report {
  r_disk_id : string; r_part_id : string; r_fs_id : string;
  r_first : Z; r_last : Z; r_media_bytes : Z; r_layout_bytes : Z;
  r_block_size : Z; r_blocks : Z
}.

Definition require {A} (o : option A) (why : string) : G A :=
  match o with Some a => mret a | None => die why end.

Definition missing : string :=
  "require input mode, disk-guid, partuuid, fsuuid, media-bytes and layout-bytes".

(** [main] after the option loop. *)
Definition gate (e : env) (o : opts) : G report :=
  path ← require (o_path o) missing;
  disk_id ← require (o_disk_id o) missing;
  part_id ← require (o_part_id o) missing;
  fs_id ← require (o_fs_id o) missing;
  fail_if ((o_layout o =? 0) || (o_media o =? 0)) missing;;
  fail_if (negb (o_layout o mod SECTOR =? 0) || negb (o_media o mod SECTOR =? 0) ||
           (o_layout o >? o_media o) || (o_layout o <? 68 * SECTOR) || (o_media o >? INT64_MAX))
    "invalid pinned layout or media length";;
  dg ← uuid disk_id true;
  pg ← uuid part_id true;
  fg ← uuid fs_id false;
  type ← uuid LINUX_FS true;
  m ← open_input e path (o_disk o) (o_devnum o) (o_media o);
  let sectors := o_layout o / SECTOR in
  check_mbr m sectors;;
  '(a, pa) ← check_copies e m sectors dg;
  '(first, last) ← check_entry a pa type pg;
  '(block_size, blocks) ← check_ext4 m first last fg;
  mret (Report disk_id part_id fs_id first last (m_len m) (o_layout o) block_size blocks).

(** The whole program on its arguments ([argv] without the program name). *)
Definition main (e : env) (argv : list string) : G report :=
  o ← parse_args opts0 argv; gate e o.

(** ** A concrete medium

    A 2060-sector image that the gate accepts, for the witnesses. *)
Module Sample.
Definition le (n : nat) (v : Z) : list Z :=
  map (λ i, Z.land (Z.shiftr v (8 * i)) 255) (seqZ 0 (Z.of_nat n)).
Definition pad (n : Z) (p : list Z) : list Z :=
  p ++ replicate (Z.to_nat n - List.length p) 0.
Definition disk_id : string := "11111111-2222-3333-4444-555555555555".
Definition part_id : string := "aaaaaaaa-bbbb-cccc-dddd-eeeeeeeeeeee".
Definition fs_id : string := "01234567-89ab-cdef-0123-456789abcdef".
Definition id (s : string) (gpt : bool) : list Z :=
  match uuid s gpt [] with Ok (b, _) => b | Err _ => [] end.
Definition sectors : Z := 2060.
Definition entry : list Z :=
  id LINUX_FS true ++ id part_id true ++ le 8 2048 ++ le 8 2057 ++ le 8 0 ++
  concat (map (λ c, [c; 0]) (pad 36 (bytes_of_string label))).
Definition hdr (lba backup table crc : Z) : list Z :=
  bytes_of_string "EFI PART" ++ le 4 0x10000 ++ le 4 92 ++ le 4 crc ++ le 4 0 ++
  le 8 lba ++ le 8 backup ++ le 8 3 ++ le 8 2057 ++ id disk_id true ++
  le 8 table ++ le 4 1 ++ le 4 128 ++ le 4 (crc32 entry).
Definition sealed (lba backup table : Z) : list Z :=
  hdr lba backup table (crc32 (hdr lba backup table 0)).
Definition mbr : list Z :=
  pad 446 [] ++ [0;0;0;0;0xee;0;0;0] ++ le 4 1 ++ le 4 (sectors - 1) ++ pad 48 [] ++ [0x55; 0xaa].
Definition sb : list Z :=
  pad 24 (le 4 0 ++ le 4 2) ++ pad 32 (le 4 0) ++ le 2 0xef53 ++ le 2 1 ++
  pad 16 [] ++ le 4 1 ++ pad 24 [] ++ id fs_id false ++ fs_label.
Definition chunks : list (Z * list Z) := Eval vm_compute in
  [(0, mbr); (512, sealed 1 2059 2); (1024, entry);
   (2048 * 512 + 1024, sb); (2058 * 512, entry); (2059 * 512, sealed 2059 1 2058)].
Definition content (o : Z) : Byte.byte :=
  match List.find (λ c, (fst c <=? o) && (o <? fst c + Z.of_nat (List.length (snd c)))) chunks with
  | Some (base, p) =>
      match Byte.of_N (Z.to_N (ld8 p (o - base))) with Some b => b | None => Byte.x00 end
  | None => Byte.x00
  end.
Definition st : stat_t := Stat KindReg 1 2 0 0 (sectors * 512).
Definition e : env :=
  Env (λ _, Some st) (λ _, Some content) (Some st) None None (λ _, true).
Definition argv : list string :=
  ["--image"; "disk.img"; "--disk-guid"; disk_id; "--partuuid"; part_id; "--fsuuid"; fs_id;
   "--media-bytes"; "1054720"; "--layout-bytes"; "1054720"].
Definition sched : list pread_outcome :=
  [PreadRet 100; PreadIntr; PreadRet 300; PreadIntr; PreadRet 1].
End Sample.

(** ** Lemmas: reads *)

Lemma bytes_at_length m off n : 0 ≤ n → Z.of_nat (length (bytes_at m off n)) = n.
Proof. intros. unfold bytes_at. rewrite length_map, length_seqZ. lia. Qed.

Lemma bytes_at_0 m off : bytes_at m off 0 = [].
Proof. done. Qed.

Lemma bytes_at_app m off k n :
  0 ≤ k → 0 ≤ n → bytes_at m off k ++ bytes_at m (off + k) n = bytes_at m off (k + n).
Proof.
  intros. unfold bytes_at. rewrite (seqZ_app 0 k n), map_app by lia. f_equal.
  rewrite (Z.add_comm 0 k), <- (fmap_add_seqZ k 0 n). change (Z.add k <$> seqZ 0 n) with (map (Z.add k) (seqZ 0 n)).
  rewrite map_map.
  apply map_ext. intros i. do 2 f_equal. lia.
Qed.

Lemma read_loop_spec m sched n off :
  match read_loop m sched n off with
  | Ok (p, _) => p = bytes_at m off n
  | Err e => e = "short or failed read"
  end.
Proof.
  revert n off. induction sched as [|[|k] sched IH]; intros n off; simpl.
  - case_if; boolprop; subst; done.
  - case_if; boolprop; subst; [done|]. by apply IH.
  - case_if; boolprop; subst; [done|]. case_if; boolprop; [done|].
    specialize (IH (n - Z.min k n) (off + Z.min k n)).
    destruct (read_loop _ _ _ _) as [[rest ?]|]; [|done]. subst rest.
    destruct (Z.lt_ge_cases n 0).
    + rewrite Z.min_r, Z.sub_diag by lia. apply app_nil_r.
    + rewrite bytes_at_app by lia. f_equal. lia.
Qed.

(** ** Lemmas: schedules do not matter

    [Robust c]: under any schedule of short reads and interruptions, [c] gives
    what it gives when every [pread] is complete, or stops on a failed read. *)
Class Robust {A} (c : G A) : Prop :=
  robust : ∀ s, match c s with
                | Ok (a, _) => c [] = Ok (a, [])
                | Err e => e = "short or failed read" ∨ c [] = Err e
                end.

#[export] Instance robust_ret {A} (a : A) : Robust (mret a).
Proof. by intros s. Qed.
#[export] Instance robust_fail {A} (e : string) : Robust (fail e : G A).
Proof. intros s. by right. Qed.
#[export] Instance robust_die {A} (e : string) : Robust (die e : G A).
Proof. intros s. by right. Qed.
#[export] Instance robust_fail_if (b : bool) (e : string) : Robust (fail_if b e : G ()).
Proof. destruct b; apply _. Qed.
#[export] Instance robust_if {A} (b : bool) (c1 c2 : G A) :
  Robust c1 → Robust c2 → Robust (if b then c1 else c2).
Proof. by destruct b. Qed.
#[export] Instance robust_opt {A B} (o : option B) (k : B → G A) (c : G A) :
  (∀ b, Robust (k b)) → Robust c →
  Robust (match o with Some b => k b | None => c end).
Proof. by destruct o. Qed.
#[export] Instance robust_bind {A B} (c : G A) (k : A → G B) :
  Robust c → (∀ a, Robust (k a)) → Robust (c ≫= k).
Proof.
  intros Hc Hk s. specialize (Hc s). unfold mbind, ST_bind in *.
  destruct (c s) as [[a s1]|e].
  - specialize (Hk a s1). rewrite Hc. done.
  - destruct Hc as [-> | ->]; [by left|by right].
Qed.
#[export] Instance robust_pair {A B C} (p : A * B) (k : A → B → G C) :
  (∀ a b, Robust (k a b)) → Robust (let '(a, b) := p in k a b).
Proof. by destruct p. Qed.
#[export] Instance robust_read_at m n off : Robust (read_at m n off).
Proof.
  unfold read_at. apply robust_bind; [apply _|intros _ s].
  pose proof (read_loop_spec m s n off) as H. cbv beta.
  destruct (read_loop m s n off) as [[p ?]|e]; [|by left].
  subst p. simpl. destruct (Z.eqb_spec n 0); by subst.
Qed.
#[export] Instance robust_number s : Robust (number s).
Proof. unfold number. apply _. Qed.
#[export] Instance robust_uuid_loop fuel i j s : Robust (uuid_loop fuel i j s).
Proof.
  revert i j s. induction fuel as [|fuel IH]; intros i j [|x s]; simpl; apply _.
Qed.
#[export] Instance robust_uuid s g : Robust (uuid s g).
Proof. unfold uuid. apply _. Qed.
#[export] Instance robust_header m l n : Robust (header m l n).
Proof. unfold header. apply _. Qed.
#[export] Instance robust_array e m h : Robust (array e m h).
Proof. unfold array. apply _. Qed.
#[export] Instance robust_parse_opt o n v : Robust (parse_opt o n v).
Proof. destruct o. unfold parse_opt. apply _. Qed.
#[export] Instance robust_parse_args o argv : Robust (parse_args o argv).
Proof.
  revert o. induction argv as [argv IH] using (induction_ltof1 _ (@List.length string)); intros o.
  destruct argv as [|n [|v argv]]; simpl; [apply _..|].
  apply robust_bind; [apply _|]. intros o'. apply IH. unfold ltof. simpl. lia.
Qed.
#[export] Instance robust_open_input e p d dn x : Robust (open_input e p d dn x).
Proof. unfold open_input. destruct (e_blksszget e), (e_blkgetsize64 e); apply _. Qed.
#[export] Instance robust_check_mbr m n : Robust (check_mbr m n).
Proof. unfold check_mbr. apply _. Qed.
#[export] Instance robust_check_copies e m n dg : Robust (check_copies e m n dg).
Proof. unfold check_copies. apply _. Qed.
#[export] Instance robust_check_entry a pa t pg : Robust (check_entry a pa t pg).
Proof. unfold check_entry. apply _. Qed.
#[export] Instance robust_check_ext4 m f l fg : Robust (check_ext4 m f l fg).
Proof. unfold check_ext4. apply _. Qed.
#[export] Instance robust_require {A} (o : option A) why : Robust (require o why).
Proof. unfold require. apply _. Qed.
#[export] Instance robust_gate e o : Robust (gate e o).
Proof. unfold gate. apply _. Qed.

(** Whatever schedule of interruptions, short reads and failed reads the
    kernel gives the gate's [pread] calls, the program reports exactly what it
    reports when every read is complete, or stops with "short or failed read":
    a short read can never turn a refusal into a pass or change the report. *)
Theorem main_schedule_independent (e : env) (argv : list string) (s : list pread_outcome) :
  match main e argv s with
  | Ok (r, _) => main e argv [] = Ok (r, [])
  | Err why => why = "short or failed read" ∨ main e argv [] = Err why
  end.
Proof. assert (Robust (main e argv)) as H by (unfold main; apply _). apply H. Qed.

(** ** Lemmas: fields of a buffer *)

Lemma byteZ_range b : 0 ≤ byteZ b < 256.
Proof. unfold byteZ. pose proof (Byte.to_N_bounded b). lia. Qed.

Definition is_byte (x : Z) : Prop := 0 ≤ x < 256.

Lemma bytes_at_bytes m off n : Forall is_byte (bytes_at m off n).
Proof. unfold bytes_at. apply Forall_map, Forall_true. intros. apply byteZ_range. Qed.

Lemma ld8_range p i : Forall is_byte p → 0 ≤ ld8 p i < 256.
Proof.
  intros Hp. unfold ld8. destruct (nth_in_or_default (Z.to_nat i) p 0) as [Hin| ->]; [|lia].
  rewrite Forall_forall in Hp. apply Hp. by apply list_elem_of_In.
Qed.

Lemma le16_range p i : Forall is_byte p → 0 ≤ le16 p i < 2 ^ 16.
Proof. intros. apply (lor_shiftl_range _ _ 8 8); try lia; by apply ld8_range. Qed.
Lemma le32_range p i : Forall is_byte p → 0 ≤ le32 p i < 2 ^ 32.
Proof. intros. apply (lor_shiftl_range _ _ 16 16); try lia; by apply le16_range. Qed.
Lemma le64_range p i : Forall is_byte p → 0 ≤ le64 p i < 2 ^ 64.
Proof. intros. apply (lor_shiftl_range _ _ 32 32); try lia; by apply le32_range. Qed.

Lemma read_at_ok m n off s p s' :
  read_at m n off s = Ok (p, s') →
  p = bytes_at m off n ∧ off ≤ m_len m ∧ n ≤ u64 (m_len m - off) ∧ off ≤ INT64_MAX.
Proof.
  unfold read_at. intros. monad_inv. boolprop. pose proof (read_loop_spec m s n off) as Hs.
  cbv beta in *. rewrite H in Hs. done.
Qed.

Create HintDb gate discriminated.
#[export] Hint Resolve bytes_at_bytes le16_range le32_range le64_range ld8_range : gate.

(** ** Lemmas: what an accepted header says *)

Lemma header_ok m lba L s h s' :
  header m lba L s = Ok (h, s') →
  h = parse_header (bytes_at m (u64 (lba * SECTOR)) SECTOR) ∧
  bad_geometry h lba L = false ∧
  2 ≤ h_table h < L ∧ array_sectors h ≤ u64 (L - h_table h) ∧
  (if lba =? 1
   then h_backup h = u64 (L - 1) ∧ h_table h = 2 ∧ u64 (2 + array_sectors h) ≤ h_first h
   else h_backup h = 1 ∧ h_last h < h_table h ∧ u64 (h_table h + array_sectors h) = lba).
Proof.
  unfold header. intros H. monad_inv.
  apply read_at_ok in H0 as (-> & _).
  destruct (lba =? 1); monad_inv; boolprop; split_and!; try done; try lia.
  match goal with H : h_table _ = 2 |- _ => by rewrite <- H end.
Qed.

Lemma header_array_bounds m lba L s h s' :
  header m lba L s = Ok (h, s') →
  1 ≤ h_count h ∧ 128 ≤ h_entry_size h ∧ h_count h * h_entry_size h ≤ MAX_ARRAY ∧
  (array_sectors h - 1) * SECTOR < h_count h * h_entry_size h ≤ array_sectors h * SECTOR.
Proof.
  intros (Hh & Hg & _)%header_ok.
  assert (0 ≤ h_count h < 2 ^ 32 ∧ 0 ≤ h_entry_size h < 2 ^ 32) as [Hc He]
    by (subst h; simpl; auto with gate).
  unfold bad_geometry in Hg. boolprop.
  assert (h_count h * h_entry_size h ≤ MAX_ARRAY) as Hm.
  { pose proof (Z.mul_div_le MAX_ARRAY (h_entry_size h) ltac:(lia)). nia. }
  unfold MAX_ARRAY in *.
  unfold array_sectors. rewrite (u64_small (_ * _)), u64_small by (unfold SECTOR; nia).
  unfold SECTOR in *. generalize dependent (h_count h * h_entry_size h). intros x **.
  repeat split; try lia; Z.to_euclidean_division_equations; lia.
Qed.

(** ** Lemmas: the stages of an accepting run *)

Lemma open_input_ok e path disk dn x s m s' :
  open_input e path disk dn x s = Ok (m, s') →
  m_len m = x ∧ e_open e path = Some (m_byte m).
Proof.
  unfold open_input. intros H. monad_inv. boolprop. simpl.
  match goal with H : (match e_open e path with _ => _ end) _ = _ |- _ =>
    destruct (e_open e path) as [c|] eqn:Hc; monad_inv; split; [done|] end.
  congruence.
Qed.

Lemma array_ok e m h s p s' :
  array e m h s = Ok (p, s') →
  p = bytes_at m (u64 (h_table h * SECTOR)) (u64 (h_count h * h_entry_size h)) ∧
  crc32 p = h_array_crc h.
Proof.
  unfold array. intros H. monad_inv. boolprop.
  match goal with H : read_at _ _ _ _ = _ |- _ => apply read_at_ok in H as (-> & _) end. done.
Qed.

Lemma sub_bytes_at m off n o k :
  0 ≤ o → 0 ≤ k → o + k ≤ n → sub (bytes_at m off n) o k = bytes_at m (off + o) k.
Proof.
  intros. unfold sub.
  replace n with (o + (k + (n - o - k))) by lia.
  rewrite <- !bytes_at_app by lia.
  pose proof (bytes_at_length m off o). pose proof (bytes_at_length m (off + o) k).
  rewrite drop_app_length', take_app_length' by lia. done.
Qed.

Lemma memeq_true p q : memeq p q = true ↔ p = q.
Proof. apply bool_decide_eq_true. Qed.

Lemma check_copies_ok e m L dg s a pa s' :
  check_copies e m L dg s = Ok ((a, pa), s') →
  ∃ b s1 s2 s3,
    header m 1 L s = Ok (a, s1) ∧ header m (u64 (L - 1)) L s1 = Ok (b, s2) ∧
    array e m a s2 = Ok (pa, s3) ∧
    h_guid a = dg ∧ h_guid b = dg ∧ h_first a = h_first b ∧ h_last a = h_last b ∧
    h_count a = h_count b ∧ h_entry_size a = h_entry_size b ∧
    bytes_at m (u64 (h_table b * SECTOR)) (u64 (h_count a * h_entry_size a)) = pa.
Proof.
  unfold check_copies. intros H. monad_inv. boolprop.
  repeat match goal with H : memeq _ _ = true |- _ => apply memeq_true in H end.
  do 4 eexists. split_and!; try eassumption.
  repeat match goal with H : array _ _ _ _ = _ |- _ => apply array_ok in H as [? ?] end.
  match goal with Hc : h_count _ = _, He : h_entry_size _ = _ |- _ =>
    rewrite <- Hc, <- He in * end.
  match goal with H : sub ?p 0 (u64 ?n) = sub ?q 0 _ |- _ =>
    pose proof (u64_range n); subst p q;
    rewrite !sub_bytes_at, !Z.add_0_r in H by lia end.
  by symmetry.
Qed.

Lemma check_entry_ok a pa type pg s first last s' :
  check_entry a pa type pg s = Ok ((first, last), s') →
  sub pa 0 16 = type ∧ sub pa 16 16 = pg ∧ extra_partition a pa = false ∧
  label_mismatch pa = false ∧ first = 2048 ∧ last = le64 pa 40 ∧
  h_first a ≤ 2048 ≤ last ∧ last ≤ h_last a.
Proof.
  unfold check_entry. intros H. monad_inv. boolprop.
  repeat match goal with H : memeq _ _ = true |- _ => apply memeq_true in H end.
  split_and!; try done; lia.
Qed.

Lemma check_ext4_ok m first last fg s bs blocks s' :
  check_ext4 m first last fg s = Ok ((bs, blocks), s') →
  let sb := bytes_at m (u64 (u64 (first * SECTOR) + 1024)) 1024 in
  sub sb 104 16 = fg ∧ sub sb 120 16 = fs_label ∧ le16 sb 58 = 1 ∧
  Z.land (le32 sb 96) 4 = 0 ∧ blocks = ext4_blocks sb ∧
  bs = 1024 * 2 ^ le32 sb 24 ∧ 0 ≤ le32 sb 24 ≤ 6 ∧ blocks ≠ 0 ∧
  blocks ≤ u64 (u64 (last - first + 1) * SECTOR) / bs.
Proof.
  unfold check_ext4. intros H. monad_inv. boolprop.
  match goal with H : read_at _ _ _ _ = _ |- _ => apply read_at_ok in H as (-> & _) end.
  repeat match goal with H : memeq _ _ = true |- _ => apply memeq_true in H end.
  set (sb := bytes_at _ _ _) in *.
  assert (0 ≤ le32 sb 24 < 2 ^ 32) as Hr by (subst sb; auto with gate).
  assert (2 ^ 0 ≤ 2 ^ le32 sb 24 ≤ 2 ^ 6) as Hp
    by (split; apply Z.pow_le_mono_r; lia).
  assert (u64 (Z.shiftl 1024 (le32 sb 24)) = 1024 * 2 ^ le32 sb 24) as Hu.
  { rewrite Z.shiftl_mul_pow2 by lia. apply u64_small. lia. }
  rewrite Hu in *. cbv zeta. split_and!; try done; lia.
Qed.

Lemma ext4_blocks_range sb : Forall is_byte sb → 0 ≤ ext4_blocks sb < 2 ^ 64.
Proof.
  intros. unfold ext4_blocks. pose proof (le32_range sb 4 H). case_if; [|lia].
  apply (lor_shiftl_range _ _ 32 32); try lia; by apply le32_range.
Qed.

Lemma sectors_bounds layout x :
  layout mod SECTOR = 0 → 68 * SECTOR ≤ layout → layout ≤ x → x ≤ INT64_MAX →
  layout = layout / SECTOR * SECTOR ∧ 68 ≤ layout / SECTOR < 2 ^ 54.
Proof.
  unfold SECTOR, INT64_MAX. intros. Z.to_euclidean_division_equations. lia.
Qed.

(** What an accepting run of [main] went through. *)
Lemma main_ok e argv s r s' :
  main e argv s = Ok (r, s') →
  ∃ path m a pa dg pg fg type s1 s2 s3 s4 s5 s6 s7 s8 s9,
    m_len m = r_media_bytes r ∧ e_open e path = Some (m_byte m) ∧
    r_layout_bytes r mod SECTOR = 0 ∧ 68 * SECTOR ≤ r_layout_bytes r ∧
    r_layout_bytes r ≤ r_media_bytes r ∧ r_media_bytes r ≤ INT64_MAX ∧
    uuid (r_disk_id r) true s1 = Ok (dg, s2) ∧ uuid (r_part_id r) true s2 = Ok (pg, s3) ∧
    uuid (r_fs_id r) false s3 = Ok (fg, s4) ∧ uuid LINUX_FS true s4 = Ok (type, s5) ∧
    check_copies e m (r_layout_bytes r / SECTOR) dg s6 = Ok ((a, pa), s7) ∧
    check_entry a pa type pg s7 = Ok ((r_first r, r_last r), s8) ∧
    check_ext4 m (r_first r) (r_last r) fg s8 = Ok ((r_block_size r, r_blocks r), s9).
Proof.
  unfold main, gate. intros H. monad_inv.
  boolprop.
  match goal with H : open_input _ _ _ _ _ _ = _ |- _ => apply open_input_ok in H as [? ?] end.
  simpl. do 17 eexists. split_and!; try eassumption; lia.
Qed.

(** The usable sectors of two agreeing headers lie between their arrays. *)
Lemma headers_usable m L s a s1 b s2 :
  68 ≤ L < 2 ^ 54 →
  header m 1 L s = Ok (a, s1) → header m (u64 (L - 1)) L s1 = Ok (b, s2) →
  h_last a = h_last b → h_count a = h_count b → h_entry_size a = h_entry_size b →
  1 ≤ array_sectors a ∧ 2 + array_sectors a ≤ h_first a ∧
  h_last a + 1 + array_sectors a + 1 ≤ L ∧ 0 ≤ h_last a.
Proof.
  intros HL Ha Hb El Ec Ee.
  pose proof (header_array_bounds _ _ _ _ _ _ Ha) as (? & ? & ? & ?).
  apply header_ok in Ha as (Hpa & _ & Hta & _ & Hla).
  apply header_ok in Hb as (_ & _ & Htb & _ & Hlb).
  assert (0 ≤ h_last a < 2 ^ 64) as ? by (subst a; simpl; auto with gate).
  assert (array_sectors b = array_sectors a) as Earr by (unfold array_sectors; congruence).
  rewrite Earr, El in *. unfold MAX_ARRAY, SECTOR in *.
  rewrite (u64_small (L - 1)) in * by lia. simpl in Hla.
  replace (L - 1 =? 1) with false in Hlb by (symmetry; apply Z.eqb_neq; lia).
  rewrite u64_small in Hla by lia. rewrite u64_small in Hlb by lia. lia.
Qed.

(** The block count accepted for a partition of [w] sectors. *)
Lemma ext4_fits m first last fg s bs blocks s' :
  0 ≤ first ≤ last → last < 2 ^ 54 →
  check_ext4 m first last fg s = Ok ((bs, blocks), s') →
  1 ≤ blocks ∧ 1024 ≤ bs ≤ 65536 ∧ first * SECTOR + blocks * bs ≤ (last + 1) * SECTOR.
Proof.
  intros Hf Hl H%check_ext4_ok. cbv zeta in H. destruct_and! H.
  set (sb := bytes_at _ _ _) in *.
  pose proof (ext4_blocks_range sb (bytes_at_bytes _ _ _)).
  assert (2 ^ 0 ≤ 2 ^ le32 sb 24 ≤ 2 ^ 6) as Hp by (split; apply Z.pow_le_mono_r; lia).
  unfold SECTOR in *. rewrite (u64_small (last - first + 1)), u64_small in * by lia.
  split; [lia|]. split; [lia|].
  pose proof (Z.mul_div_le ((last - first + 1) * 512) bs ltac:(lia)). nia.
Qed.



(** ** Identities

    The text of an identity, from its bytes: what [uuid] parses. *)
Definition hexdigit (n : Z) : Z := if n <? 10 then 48 + n else 87 + n.
Definition hexbyte (b : Z) : list Z := [hexdigit (b / 16); hexdigit (b mod 16)].
Definition uuid_text (gpt : bool) (p : list Z) : list Z :=
  let b := if gpt then map (ld8 p) gpt_order else p in
  let hex i n := concat (map hexbyte (sub b i n)) in
  hex 0 4 ++ [45] ++ hex 4 2 ++ [45] ++ hex 6 2 ++ [45] ++ hex 8 2 ++ [45] ++ hex 10 6.

#[local] Arguments hexbyte : simpl never.
#[local] Arguments u8 : simpl never.
#[local] Arguments nibble : simpl never.

Lemma nibble_hexdigit x : 0 ≤ nibble x → hexdigit (nibble x) = x ∧ nibble x < 16.
Proof. unfold nibble, hexdigit. repeat case_if; boolprop; lia. Qed.

Lemma hexbyte_nibbles x y :
  0 ≤ nibble x → 0 ≤ nibble y → hexbyte (u8 (nibble x * 16 + nibble y)) = [x; y].
Proof.
  intros Hx Hy. pose proof (nibble_hexdigit x Hx) as [Ex ?].
  pose proof (nibble_hexdigit y Hy) as [Ey ?]. unfold hexbyte. rewrite u8_small by lia.
  rewrite Z.div_add_l, Z.div_small, Z.add_0_r, Ex by lia.
  rewrite Z.add_comm, Z.mod_add, Z.mod_small, Ey by lia. done.
Qed.

Lemma length_bytes_of_string s : length (bytes_of_string s) = String.length s.
Proof. unfold bytes_of_string. rewrite length_map. induction s; simpl; congruence. Qed.

Lemma charZ_inj c c' : charZ c = charZ c' → c = c'.
Proof.
  unfold charZ. intros H%N2Z.inj. rewrite <- (ascii_N_embedding c), <- (ascii_N_embedding c').
  by rewrite H.
Qed.

Lemma bytes_of_string_inj s s' : bytes_of_string s = bytes_of_string s' → s = s'.
Proof.
  intros H. rewrite <- (string_of_list_ascii_of_string s), <- (string_of_list_ascii_of_string s').
  f_equal. revert H. unfold bytes_of_string.
  generalize (list_ascii_of_string s), (list_ascii_of_string s').
  induction l as [|c l IH]; intros [|c' l']; simpl; try done.
  intros [= Hc Hl]. by rewrite (charZ_inj _ _ Hc), (IH _ Hl).
Qed.

Lemma uuid_loop_text l s b s' :
  length l = 36%nat → uuid_loop 36 0 0 l s = Ok (b, s') →
  length b = 16%nat ∧ uuid_text false b = l.
Proof.
  intros Hl. do 37 (destruct l as [|? l]; try (simpl in Hl; discriminate Hl)). clear Hl.
  intros H. simpl uuid_loop in H. monad_inv. boolprop. subst. split; [done|].
  cbv -[hexbyte u8 nibble Z.mul Z.add]. rewrite !hexbyte_nibbles by done. done.
Qed.

Lemma gpt_order_involutive p :
  length p = 16%nat → map (ld8 (map (ld8 p) gpt_order)) gpt_order = p.
Proof. intros H. do 17 (destruct p as [|? p]; try discriminate H). done. Qed.

Lemma zero_gpt_order p : length p = 16%nat → zero (map (ld8 p) gpt_order) = zero p.
Proof.
  intros H. do 17 (destruct p as [|? p]; try discriminate H).
  unfold zero. simpl. apply eq_true_iff_eq. rewrite !andb_true_iff. tauto.
Qed.

(** [uuid] loses nothing: an accepted text is exactly the canonical
    lowercase rendering of the 16 bytes it yields (in GPT mixed-endian order when
    [gpt] is set), and those bytes are 16 and not all zero; so two different texts
    never denote the same identity. *)
Theorem uuid_roundtrip (t : string) (gpt : bool) s p s' :
  uuid t gpt s = Ok (p, s') →
  length p = 16%nat ∧ uuid_text gpt p = bytes_of_string t ∧ zero p = false.
Proof.
  unfold uuid. intros H. monad_inv. boolprop.
  match goal with H : uuid_loop _ _ _ _ _ = _ |- _ => apply uuid_loop_text in H as [Hb Ht] end;
    [|rewrite length_bytes_of_string; lia].
  destruct gpt; [|done]. unfold uuid_text in *. rewrite gpt_order_involutive by done.
  by rewrite zero_gpt_order by done.
Qed.

Lemma uuid_roundtrip_witness :
  ∃ p, uuid LINUX_FS true [] = Ok (p, []) ∧ uuid_text true p = bytes_of_string LINUX_FS.
Proof.
  eexists. split; [vm_compute; reflexivity|].
  apply (uuid_roundtrip LINUX_FS true [] _ []). vm_compute. reflexivity.
Defined.

Lemma uuid_text_of t gpt s p s' :
  uuid t gpt s = Ok (p, s') → uuid_text gpt p = bytes_of_string t.
Proof.
  unfold uuid. intros H. monad_inv. boolprop.
  match goal with H : uuid_loop _ _ _ _ _ = _ |- _ => apply uuid_loop_text in H as [Hb Ht] end;
    [|rewrite length_bytes_of_string; lia].
  destruct gpt; [|done]. unfold uuid_text in *. by rewrite gpt_order_involutive by done.
Qed.

Lemma header_guid m lba L s h s' :
  0 ≤ lba < 2 ^ 54 →
  header m lba L s = Ok (h, s') → h_guid h = bytes_at m (lba * SECTOR + 56) 16.
Proof.
  intros ? (-> & _)%header_ok. simpl. unfold SECTOR. rewrite u64_small by lia.
  by rewrite sub_bytes_at by lia.
Qed.

Lemma primary_array e m L s a s1 s2 pa s3 :
  header m 1 L s = Ok (a, s1) → array e m a s2 = Ok (pa, s3) →
  ∃ n, 128 ≤ n ∧ pa = bytes_at m (2 * SECTOR) n.
Proof.
  intros Ha [-> _]%array_ok.
  pose proof (header_array_bounds _ _ _ _ _ _ Ha) as (? & ? & ? & ?).
  apply header_ok in Ha as (_ & _ & _ & _ & _ & -> & _).
  exists (h_count a * h_entry_size a). unfold MAX_ARRAY, SECTOR in *. rewrite !u64_small by lia.
  split; [nia|done].
Qed.

(** A pass pins identity: the identities the program prints are the ones the
    medium carries, read at the places the formats fix.  Both GPT headers carry
    [disk_guid], entry 1 of the (primary) array carries the Linux file system
    type and [partuuid], the ext4 superblock carries [filesystem_uuid], is marked
    clean and needs no journal replay. *)
Theorem gate_pass_identity e argv s r s' :
  main e argv s = Ok (r, s') →
  ∃ path c, e_open e path = Some c ∧
    let m := Media (r_media_bytes r) c in
    let sb := bytes_at m (2048 * SECTOR + 1024) 1024 in
    uuid_text true (bytes_at m (SECTOR + 56) 16) = bytes_of_string (r_disk_id r) ∧
    uuid_text true (bytes_at m (r_layout_bytes r - SECTOR + 56) 16) = bytes_of_string (r_disk_id r) ∧
    uuid_text true (bytes_at m (2 * SECTOR) 16) = bytes_of_string LINUX_FS ∧
    uuid_text true (bytes_at m (2 * SECTOR + 16) 16) = bytes_of_string (r_part_id r) ∧
    uuid_text false (sub sb 104 16) = bytes_of_string (r_fs_id r) ∧
    le16 sb 58 = 1 ∧ Z.testbit (le32 sb 96) 2 = false.
Proof.
  intros H%main_ok.
  repeat match goal with H : ∃ _, _ |- _ => destruct H as [? H] end. destruct_and!.
  match goal with H : check_copies _ _ _ _ _ = _ |- _ => apply check_copies_ok in H end.
  repeat match goal with H : ∃ _, _ |- _ => destruct H as [? H] end. destruct_and!.
  match goal with H : check_entry _ _ _ _ _ = _ |- _ => apply check_entry_ok in H end.
  match goal with H : check_ext4 _ _ _ _ _ = _ |- _ => apply check_ext4_ok in H end.
  destruct (sectors_bounds (r_layout_bytes r) (r_media_bytes r)) as [Hlay HL]; try done.
  cbv zeta in *. destruct_and!.
  match goal with m : media |- _ => destruct m as [len c] end. cbn [m_len m_byte] in *.
  do 2 eexists. split; [eassumption|]. subst len.
  set (m := Media _ c) in *.
  match goal with H : r_first r = 2048 |- _ => rewrite H in * end.
  replace (u64 (u64 (2048 * SECTOR) + 1024)) with (2048 * SECTOR + 1024) in * by done.
  match goal with Ha : header m 1 _ _ = _, Hr : array e m _ _ = _ |- _ =>
    destruct (primary_array _ _ _ _ _ _ _ _ _ Ha Hr) as (n & ? & Hpa);
    apply header_guid in Ha; [|lia] end.
  match goal with Hb : header m (u64 _) _ _ = _ |- _ =>
    rewrite u64_small in Hb by lia; apply header_guid in Hb; [|lia] end.
  repeat match goal with H : uuid _ _ _ = _ |- _ => apply uuid_text_of in H end.
  replace (r_layout_bytes r - SECTOR) with ((r_layout_bytes r / SECTOR - 1) * SECTOR)
    by (rewrite Z.mul_sub_distr_r; lia).
  rewrite Hpa, !sub_bytes_at in * by lia. rewrite Z.add_0_r, Z.mul_1_l in *.
  split_and!; try congruence.
  match goal with H : Z.land ?x 4 = 0 |- _ =>
    apply (f_equal (λ z, Z.testbit z 2)) in H; rewrite Z.land_spec in H end.
  by rewrite andb_true_r in *.
Qed.

Lemma gate_pass_identity_witness :
  ∃ r path c, main Sample.e Sample.argv [] = Ok (r, []) ∧
    e_open Sample.e path = Some c ∧
    uuid_text true (bytes_at (Media (r_media_bytes r) c) (SECTOR + 56) 16)
    = bytes_of_string Sample.disk_id.
Proof.
  assert (∃ r, main Sample.e Sample.argv [] = Ok (r, []) ∧ r_disk_id r = Sample.disk_id)
    as (r & Hr & Hid) by (eexists; split; [vm_compute; reflexivity|reflexivity]).
  destruct (gate_pass_identity Sample.e Sample.argv [] r [] Hr) as (path & c & Ho & Hg & _).
  exists r, path, c. split; [exact Hr|]. split; [exact Ho|]. rewrite <- Hid. exact Hg.
Defined.

(** ** Lemmas: the checksum *)

Definition is_u32 (c : Z) : Prop := 0 ≤ c < 2 ^ 32.

Lemma crc32_bit_odd c :
  crc32_bit c = Z.lxor (Z.shiftr c 1) (if Z.testbit c 0 then 0xedb88320 else 0).
Proof.
  unfold crc32_bit. change (Z.land c 1) with (Z.land c (Z.ones 1)).
  rewrite Z.land_ones, <- Z.bit0_mod by lia. by destruct (Z.testbit c 0).
Qed.

Lemma crc32_bit_range c : is_u32 c → is_u32 (crc32_bit c).
Proof.
  intros Hc. rewrite crc32_bit_odd.
  assert (0 ≤ Z.lxor (Z.shiftr c 1) (if Z.testbit c 0 then 0xedb88320 else 0)).
  { apply Z.lxor_nonneg. rewrite Z.shiftr_nonneg. destruct (Z.testbit c 0); destruct Hc; lia. }
  split; [done|]. apply bits_bound; [lia|done|]. intros i Hi.
  rewrite Z.lxor_spec, Z.shiftr_spec, (testbit_above 32 c) by (done || lia).
  destruct (Z.testbit c 0); [by apply (testbit_above 32)|apply Z.bits_0].
Qed.

Lemma crc32_bit_inj c d : is_u32 c → is_u32 d → crc32_bit c = crc32_bit d → c = d.
Proof.
  intros Hc Hd H. rewrite !crc32_bit_odd in H.
  assert (∀ x b, is_u32 x →
    Z.testbit (Z.lxor (Z.shiftr x 1) (if b : bool then 0xedb88320 else 0)) 31 = b) as H31.
  { intros x b Hx. rewrite Z.lxor_spec, Z.shiftr_spec, (testbit_above 32 x) by (done || lia).
    by destruct b. }
  pose proof (f_equal (λ z, Z.testbit z 31) H) as H0. cbv beta in H0.
  rewrite !H31 in H0 by done. rewrite H0 in H.
  apply (f_equal (λ z, Z.lxor z (if Z.testbit d 0 then 0xedb88320 else 0))) in H.
  rewrite !Z.lxor_assoc, !Z.lxor_nilpotent, !Z.lxor_0_r in H.
  apply Z.bits_inj'. intros i Hi. destruct (Z.eq_dec i 0) as [->|]; [done|].
  replace i with (i - 1 + 1) by lia. rewrite <- !Z.shiftr_spec by lia. by rewrite H.
Qed.

Lemma lxor_byte_u32 c b : is_u32 c → is_byte b → is_u32 (Z.lxor c b).
Proof.
  intros Hc Hb. split; [apply Z.lxor_nonneg; destruct Hc, Hb; lia|].
  apply bits_bound; [lia|apply Z.lxor_nonneg; destruct Hc, Hb; lia|]. intros i Hi.
  rewrite Z.lxor_spec, (testbit_above 32 c), (testbit_above 8 b); try done; lia.
Qed.

Lemma crc32_iter n c : is_u32 c → is_u32 (Nat.iter n crc32_bit c).
Proof. intros. induction n; simpl; [done|]. by apply crc32_bit_range. Qed.

Lemma crc32_iter_inj n c d :
  is_u32 c → is_u32 d → Nat.iter n crc32_bit c = Nat.iter n crc32_bit d → c = d.
Proof.
  intros Hc Hd. induction n as [|n IH]; simpl; [done|].
  intros H. apply IH. eapply crc32_bit_inj; [| |done]; by apply crc32_iter.
Qed.

Lemma crc32_byte_inj c d x y :
  is_u32 c → is_u32 d → is_byte x → is_byte y →
  crc32_byte c x = crc32_byte d y → Z.lxor c x = Z.lxor d y.
Proof. intros ????. apply crc32_iter_inj; by apply lxor_byte_u32. Qed.

Lemma crc32_byte_range c x : is_u32 c → is_byte x → is_u32 (crc32_byte c x).
Proof. intros. apply crc32_iter. by apply lxor_byte_u32. Qed.

Lemma lxor_cancel_r a b x : Z.lxor a x = Z.lxor b x → a = b.
Proof.
  intros H. apply (f_equal (λ z, Z.lxor z x)) in H.
  by rewrite !Z.lxor_assoc, !Z.lxor_nilpotent, !Z.lxor_0_r in H.
Qed.

Lemma crc32_fold_range p :
  Forall is_byte p → is_u32 (fold_left crc32_byte p UINT32_MAX).
Proof.
  intros. eapply fold_left_range; [apply crc32_byte_range|done|].
  split; unfold UINT32_MAX; lia.
Qed.

Lemma not32_inj c d : is_u32 c → is_u32 d → not32 c = not32 d → c = d.
Proof.
  intros Hc Hd H. apply Z.bits_inj'. intros i Hi. destruct (Z.lt_ge_cases i 32).
  - apply (f_equal (λ z, Z.testbit z i)) in H. rewrite !testbit_not32 in H by lia.
    by destruct (Z.testbit c i), (Z.testbit d i).
  - by rewrite !(testbit_above 32) by (done || lia).
Qed.

(** Two buffers that differ in one byte have different checksums. *)
Lemma crc32_one_byte l x y r :
  Forall is_byte l → Forall is_byte r → is_byte x → is_byte y → x ≠ y →
  crc32 (l ++ x :: r) ≠ crc32 (l ++ y :: r).
Proof.
  intros Hl Hr Hx Hy Hne H. apply Hne. apply not32_inj in H;
    [|apply crc32_fold_range, Forall_app; split; [done|by constructor]..].
  revert H. apply (fold_left_one_change _ is_u32 is_byte); try done.
  - apply crc32_byte_range.
  - intros c d z ??? H%crc32_byte_inj; [|done..]. by apply lxor_cancel_r in H.
  - intros c z z' ??? H%crc32_byte_inj; [|done..].
    rewrite !(Z.lxor_comm c) in H. by apply lxor_cancel_r in H.
Qed.

(** ** One corrupted byte *)

Definition corrupt (m : media) (a : Z) (v : Byte.byte) : media :=
  Media (m_len m) (λ i, if i =? a then v else m_byte m i).

Lemma byteZ_inj b b' : byteZ b = byteZ b' → b = b'.
Proof.
  unfold byteZ. intros H%N2Z.inj. apply (f_equal Byte.of_N) in H.
  rewrite !Byte.of_to_N in H. congruence.
Qed.

Lemma ld8_bytes_at m off n i :
  0 ≤ i < n → ld8 (bytes_at m off n) i = byteZ (m_byte m (off + i)).
Proof.
  intros. unfold ld8, bytes_at. rewrite nth_map_Z with (d := 0) by (rewrite length_seqZ; lia).
  do 2 f_equal. assert (seqZ 0 n !! Z.to_nat i = Some i) as Hl by (apply lookup_seqZ; lia).
  rewrite nth_lookup, Hl. simpl. lia.
Qed.

Lemma bytes_at_corrupt_outside m a v off n :
  (∀ i, 0 ≤ i < n → off + i ≠ a) → bytes_at (corrupt m a v) off n = bytes_at m off n.
Proof.
  intros Hn. unfold bytes_at. apply map_ext_in. intros i Hi. simpl.
  apply list_elem_of_In, elem_of_seqZ in Hi.
  by rewrite (proj2 (Z.eqb_neq _ _)) by (apply Hn; lia).
Qed.

Lemma bytes_at_split m off n o :
  0 ≤ o < n → bytes_at m off n =
    bytes_at m off o ++ byteZ (m_byte m (off + o)) :: bytes_at m (off + o + 1) (n - o - 1).
Proof.
  intros. replace n with (o + (1 + (n - o - 1))) at 1 by lia. rewrite <- !bytes_at_app by lia.
  f_equal. unfold bytes_at at 1. simpl. by rewrite Z.add_0_r.
Qed.

Lemma crc32_corrupt m off n o v l r :
  0 ≤ o < n → v ≠ m_byte m (off + o) → Forall is_byte l → Forall is_byte r →
  crc32 (l ++ bytes_at (corrupt m (off + o) v) off n ++ r) ≠ crc32 (l ++ bytes_at m off n ++ r).
Proof.
  intros Ho Hv Hl Hr. rewrite (bytes_at_split m off n o), (bytes_at_split _ off n o) by done.
  simpl. rewrite Z.eqb_refl. rewrite !bytes_at_corrupt_outside by (intros; lia).
  rewrite <- !app_assoc, !(app_assoc l). simpl.
  apply crc32_one_byte; rewrite ?Forall_app; auto using bytes_at_bytes; [apply byteZ_range..|].
  intros E%byteZ_inj. done.
Qed.

Lemma header_crc m lba L s h s' :
  header m lba L s = Ok (h, s') →
  let b := bytes_at m (u64 (lba * SECTOR)) SECTOR in
  92 ≤ le32 b 12 ≤ SECTOR ∧ crc32 (header_copy b (le32 b 12)) = le32 b 16.
Proof.
  unfold header. intros H. monad_inv. boolprop.
  match goal with H : read_at _ _ _ _ = _ |- _ => apply read_at_ok in H as (-> & _) end. done.
Qed.

Lemma header_copy_bytes m off n :
  20 ≤ n ≤ SECTOR → header_copy (bytes_at m off SECTOR) n =
    bytes_at m off 16 ++ [0; 0; 0; 0] ++ bytes_at m (off + 20) (n - 20).
Proof.
  intros. unfold header_copy, SECTOR in *. rewrite !sub_bytes_at by lia. by rewrite Z.add_0_r.
Qed.

Lemma le32_bytes_at_inj m m' off n i :
  0 ≤ i → i + 4 ≤ n → le32 (bytes_at m off n) i = le32 (bytes_at m' off n) i →
  ∀ j, i ≤ j < i + 4 → m_byte m (off + j) = m_byte m' (off + j).
Proof.
  intros Hi Hn H j Hj. unfold le32, le16 in H. rewrite !ld8_bytes_at in H by lia.
  pose proof (byteZ_range (m_byte m (off + i))). pose proof (byteZ_range (m_byte m' (off + i))).
  pose proof (byteZ_range (m_byte m (off + (i + 1)))).
  pose proof (byteZ_range (m_byte m' (off + (i + 1)))).
  pose proof (byteZ_range (m_byte m (off + (i + 2)))).
  pose proof (byteZ_range (m_byte m' (off + (i + 2)))).
  rewrite !(lor_shiftl_add _ _ 8) in H by lia. rewrite !(lor_shiftl_add _ _ 16) in H by lia.
  apply byteZ_inj.
  assert (j = i ∨ j = i + 1 ∨ j = i + 2 ∨ j = i + 2 + 1) as [-> | [-> | [-> | ->]]] by lia; lia.
Qed.

Lemma le32_corrupt_outside m off n o v i :
  0 ≤ i → i + 4 ≤ n → o < i ∨ i + 4 ≤ o →
  le32 (bytes_at (corrupt m (off + o) v) off n) i = le32 (bytes_at m off n) i.
Proof.
  intros. unfold le32, le16. rewrite !ld8_bytes_at by lia. simpl.
  rewrite !(proj2 (Z.eqb_neq _ _)) by lia. done.
Qed.

(** Any change of one byte of a GPT header that the gate accepts, inside the
    length the header declares and outside the length field itself, makes the
    header refused, whatever the byte and whatever the reads' schedule. *)
Theorem header_rejects_corruption m lba L s h s1 o v s2 :
  0 ≤ lba < 2 ^ 54 →
  header m lba L s = Ok (h, s1) →
  0 ≤ o < le32 (bytes_at m (lba * SECTOR) SECTOR) 12 → o < 12 ∨ 16 ≤ o →
  v ≠ m_byte m (lba * SECTOR + o) →
  is_ok (header (corrupt m (lba * SECTOR + o) v) lba L s2) = false.
Proof.
  intros Hlba H%header_crc Ho Ho' Hv. cbv zeta in H.
  destruct (header (corrupt _ _ _) _ _ _) as [[h' s3]|] eqn:H'; [|done]. exfalso.
  apply header_crc in H'. cbv zeta in H'.
  rewrite (u64_small (lba * SECTOR)) in * by (unfold SECTOR; lia).
  set (off := lba * SECTOR) in *. destruct H as [Hn Hc], H' as [_ Hc'].
  rewrite le32_corrupt_outside in Hc' by (unfold SECTOR; lia). set (n := le32 _ 12) in *.
  rewrite !header_copy_bytes in * by lia.
  destruct (Z.lt_ge_cases o 16); [|destruct (Z.lt_ge_cases o 20)].
  - rewrite le32_corrupt_outside, <- Hc in Hc' by (unfold SECTOR; lia).
    rewrite (bytes_at_corrupt_outside _ _ _ (off + 20)) in Hc' by lia.
    revert Hc'. apply (crc32_corrupt _ _ _ _ _ []); try done; [lia|].
    repeat constructor; try (unfold is_byte; lia). apply bytes_at_bytes.
  - rewrite !bytes_at_corrupt_outside in Hc' by lia. rewrite Hc in Hc'.
    eapply le32_bytes_at_inj with (j := o) in Hc'; [|unfold SECTOR; lia..].
    simpl in Hc'. rewrite Z.eqb_refl in Hc'. done.
  - rewrite le32_corrupt_outside, <- Hc in Hc' by (unfold SECTOR; lia).
    rewrite (bytes_at_corrupt_outside _ _ _ off) in Hc' by lia.
    revert Hc'. replace (off + o) with (off + 20 + (o - 20)) in * by lia.
    rewrite !app_assoc, <- (app_nil_r (bytes_at (corrupt _ _ _) _ _)),
      <- (app_nil_r (bytes_at m (off + 20) _)).
    apply crc32_corrupt; try done; [lia|]. apply Forall_app; split; [apply bytes_at_bytes|].
    repeat constructor; unfold is_byte; lia.
Qed.

Lemma header_rejects_corruption_witness :
  ∃ h, header (Media 1054720 Sample.content) 1 2060 [] = Ok (h, []) ∧
    is_ok (header (corrupt (Media 1054720 Sample.content) (1 * SECTOR + 40) Byte.xff) 1 2060 [])
    = false.
Proof.
  eexists. split; [vm_compute; reflexivity|].
  eapply (header_rejects_corruption _ _ _ []); [lia|vm_compute; reflexivity| | |].
  - vm_compute. split; [discriminate|reflexivity].
  - lia.
  - vm_compute. discriminate.
Defined.

Lemma read_at_in_bounds m n off s why :
  0 ≤ off → off + n ≤ m_len m → 0 ≤ n → m_len m ≤ INT64_MAX →
  read_at m n off s = Err why → why = "short or failed read".
Proof.
  intros ???? H. unfold read_at in H. apply bind_err in H as [H | (? & ? & _ & H)].
  - unfold INT64_MAX in *. rewrite u64_small in H by lia.
    apply fail_if_err in H as [Hb _].
    repeat (apply orb_prop in Hb as [Hb | Hb]); boolprop; lia.
  - pose proof (read_loop_spec m x0 n off) as Hs. cbv beta in H. by rewrite H in Hs.
Qed.

(** Once a header is accepted, reading the partition array it describes stays
    inside the medium: the only ways [array] can stop are an allocation failure, a
    failed read or a checksum mismatch. *)
Theorem array_read_stays_in_media e m lba L s h s1 s2 why :
  L * SECTOR ≤ m_len m → m_len m ≤ INT64_MAX →
  header m lba L s = Ok (h, s1) → array e m h s2 = Err why →
  why = "allocation failed" ∨ why = "short or failed read" ∨
  why = "GPT partition-array CRC mismatch".
Proof.
  intros HL Hm Hh Ha.
  pose proof (header_array_bounds _ _ _ _ _ _ Hh) as (? & ? & ? & ?).
  apply header_ok in Hh as (_ & _ & Ht & Har & _).
  unfold MAX_ARRAY, INT64_MAX, SECTOR in *.
  rewrite (u64_small (L - h_table h)) in Har by lia.
  unfold array in Ha. rewrite (u64_small (h_count h * _)), u64_small in Ha by (unfold SECTOR; lia).
  apply bind_err in Ha as [Ha | (? & ? & _ & Ha)].
  { left. by apply fail_if_err in Ha as [_ ->]. }
  apply bind_err in Ha as [Ha | (? & ? & _ & Ha)].
  { right; left. eapply read_at_in_bounds; [| | | |exact Ha]; unfold INT64_MAX, SECTOR; lia. }
  right; right. apply bind_err in Ha as [Ha | (? & ? & _ & Ha)]; [|done].
  by apply fail_if_err in Ha as [_ ->].
Qed.

Lemma array_read_stays_in_media_witness :
  ∃ h, header (Media 1054720 Sample.content) 1 2060 [] = Ok (h, []) ∧
    array Sample.e (Media 1054720 Sample.content) h [PreadRet 0] = Err "short or failed read".
Proof.
  assert (∃ h, header (Media 1054720 Sample.content) 1 2060 [] = Ok (h, []) ∧
    array Sample.e (Media 1054720 Sample.content) h [PreadRet 0] = Err "short or failed read")
    as (h & Hh & Ha) by (eexists; split; [vm_compute; reflexivity|vm_compute; reflexivity]).
  exists h. split; [exact Hh|].
  assert (2060 * SECTOR ≤ 1054720) as HL by (unfold SECTOR; lia).
  assert (1054720 ≤ INT64_MAX) as Hm by (unfold INT64_MAX; lia).
  destruct (array_read_stays_in_media _ (Media 1054720 Sample.content) _ 2060 _ _ _ _ _ HL Hm Hh Ha) as [E | [E | E]].
  - discriminate E.
  - exact Ha.
  - discriminate E.
Defined.
