(* ===== verification/Sart.v ===== *)
(** * SART, the DMA filter (drivers/soc/apple/sart.c of the asahi snapshot)

    Sixteen entries of physical regions the coprocessor may access.  Three
    hardware generations differ in their register layout; the driver hides them
    behind [struct apple_sart_ops].  Here the ops are a record, the law of an
    entry is a class with one instance per generation, and the driver's theorems
    are proved against the class. *)

From Stdlib Require Import ZArith Lia Bool String.
From stdpp Require Import base numbers list option gmap strings.
From S2P Require Import Prelude.

Local Open Scope string_scope.
Local Open Scope list_scope.
Local Open Scope Z_scope.

(** ** Registers *)

Abbreviation mmio := (gmap Z Z).

Definition readl (regs : mmio) (off : Z) : Z := default 0 (regs !! off).
Definition writel (val off : Z) (regs : mmio) : mmio := <[off := u32 val]> regs.

Definition APPLE_SART_MAX_ENTRIES : Z := 16.

(** SARTv0 *)
Definition APPLE_SART0_CONFIG (idx : Z) : Z := 0x00 + 4 * idx.
Definition APPLE_SART0_CONFIG_FLAGS : Z := GENMASK 28 24.
Definition APPLE_SART0_CONFIG_SIZE : Z := GENMASK 18 0.
Definition APPLE_SART0_CONFIG_SIZE_SHIFT : Z := 12.
Definition APPLE_SART0_CONFIG_SIZE_MAX : Z := GENMASK 18 0.
Definition APPLE_SART0_PADDR (idx : Z) : Z := 0x40 + 4 * idx.
Definition APPLE_SART0_PADDR_SHIFT : Z := 12.
Definition APPLE_SART0_FLAGS_ALLOW : Z := 0xf.

(** SARTv2 *)
Definition APPLE_SART2_CONFIG (idx : Z) : Z := 0x00 + 4 * idx.
Definition APPLE_SART2_CONFIG_FLAGS : Z := GENMASK 31 24.
Definition APPLE_SART2_CONFIG_SIZE : Z := GENMASK 23 0.
Definition APPLE_SART2_CONFIG_SIZE_SHIFT : Z := 12.
Definition APPLE_SART2_CONFIG_SIZE_MAX : Z := GENMASK 23 0.
Definition APPLE_SART2_PADDR (idx : Z) : Z := 0x40 + 4 * idx.
Definition APPLE_SART2_PADDR_SHIFT : Z := 12.
Definition APPLE_SART2_FLAGS_ALLOW : Z := 0xff.

(** SARTv3 *)
Definition APPLE_SART3_CONFIG (idx : Z) : Z := 0x00 + 4 * idx.
Definition APPLE_SART3_PADDR (idx : Z) : Z := 0x40 + 4 * idx.
Definition APPLE_SART3_PADDR_SHIFT : Z := 12.
Definition APPLE_SART3_SIZE (idx : Z) : Z := 0x80 + 4 * idx.
Definition APPLE_SART3_SIZE_SHIFT : Z := 12.
Definition APPLE_SART3_SIZE_MAX : Z := GENMASK 29 0.
Definition APPLE_SART3_FLAGS_ALLOW : Z := 0xff.

(** ** [struct apple_sart_ops]; [get_entry] returns (flags, paddr, size). *)
Record apple_sart_ops := SartOps {
  get_entry : mmio → Z → Z * Z * Z;
  set_entry : mmio → Z → Z → Z → Z → mmio;
  flags_allow : Z;
  size_shift : Z;
  paddr_shift : Z;
  size_max : Z
}.

Record apple_sart := Sart {
  s_regs : mmio;
  s_ops : apple_sart_ops;
  s_protected : Z;   (** [protected_entries] *)
  s_used : Z         (** [used_entries] *)
}.

Definition sart0_get_entry (regs : mmio) (index : Z) : Z * Z * Z :=
  let cfg := readl regs (APPLE_SART0_CONFIG index) in
  let paddr := readl regs (APPLE_SART0_PADDR index) in
  let size := FIELD_GET APPLE_SART0_CONFIG_SIZE cfg in
  (u8 (FIELD_GET APPLE_SART0_CONFIG_FLAGS cfg),
   u64 (Z.shiftl paddr APPLE_SART0_PADDR_SHIFT),
   u64 (Z.shiftl size APPLE_SART0_CONFIG_SIZE_SHIFT)).

Definition sart0_set_entry (regs : mmio) (index flags paddr_shifted size_shifted : Z) : mmio :=
  let cfg := u32 (FIELD_PREP APPLE_SART0_CONFIG_FLAGS flags) in
  let cfg := u32 (Z.lor cfg (FIELD_PREP APPLE_SART0_CONFIG_SIZE size_shifted)) in
  let regs := writel paddr_shifted (APPLE_SART0_PADDR index) regs in
  writel cfg (APPLE_SART0_CONFIG index) regs.

Definition sart_ops_v0 : apple_sart_ops :=
  {| get_entry := sart0_get_entry; set_entry := sart0_set_entry;
     flags_allow := APPLE_SART0_FLAGS_ALLOW; size_shift := APPLE_SART0_CONFIG_SIZE_SHIFT;
     paddr_shift := APPLE_SART0_PADDR_SHIFT; size_max := APPLE_SART0_CONFIG_SIZE_MAX |}.

Definition sart2_get_entry (regs : mmio) (index : Z) : Z * Z * Z :=
  let cfg := readl regs (APPLE_SART2_CONFIG index) in
  let paddr := readl regs (APPLE_SART2_PADDR index) in
  let size := FIELD_GET APPLE_SART2_CONFIG_SIZE cfg in
  (u8 (FIELD_GET APPLE_SART2_CONFIG_FLAGS cfg),
   u64 (Z.shiftl paddr APPLE_SART2_PADDR_SHIFT),
   u64 (Z.shiftl size APPLE_SART2_CONFIG_SIZE_SHIFT)).

Definition sart2_set_entry (regs : mmio) (index flags paddr_shifted size_shifted : Z) : mmio :=
  let cfg := u32 (FIELD_PREP APPLE_SART2_CONFIG_FLAGS flags) in
  let cfg := u32 (Z.lor cfg (FIELD_PREP APPLE_SART2_CONFIG_SIZE size_shifted)) in
  let regs := writel paddr_shifted (APPLE_SART2_PADDR index) regs in
  writel cfg (APPLE_SART2_CONFIG index) regs.

Definition sart_ops_v2 : apple_sart_ops :=
  {| get_entry := sart2_get_entry; set_entry := sart2_set_entry;
     flags_allow := APPLE_SART2_FLAGS_ALLOW; size_shift := APPLE_SART2_CONFIG_SIZE_SHIFT;
     paddr_shift := APPLE_SART2_PADDR_SHIFT; size_max := APPLE_SART2_CONFIG_SIZE_MAX |}.

Definition sart3_get_entry (regs : mmio) (index : Z) : Z * Z * Z :=
  let paddr := readl regs (APPLE_SART3_PADDR index) in
  let size := readl regs (APPLE_SART3_SIZE index) in
  (u8 (readl regs (APPLE_SART3_CONFIG index)),
   u64 (Z.shiftl paddr APPLE_SART3_PADDR_SHIFT),
   u64 (Z.shiftl size APPLE_SART3_SIZE_SHIFT)).

Definition sart3_set_entry (regs : mmio) (index flags paddr_shifted size_shifted : Z) : mmio :=
  let regs := writel paddr_shifted (APPLE_SART3_PADDR index) regs in
  let regs := writel size_shifted (APPLE_SART3_SIZE index) regs in
  writel flags (APPLE_SART3_CONFIG index) regs.

Definition sart_ops_v3 : apple_sart_ops :=
  {| get_entry := sart3_get_entry; set_entry := sart3_set_entry;
     flags_allow := APPLE_SART3_FLAGS_ALLOW; size_shift := APPLE_SART3_SIZE_SHIFT;
     paddr_shift := APPLE_SART3_PADDR_SHIFT; size_max := APPLE_SART3_SIZE_MAX |}.

Definition apple_sart_of_match (compatible : string) : option apple_sart_ops :=
  if String.eqb compatible "apple,t6000-sart" then Some sart_ops_v3
  else if String.eqb compatible "apple,t8103-sart" then Some sart_ops_v2
  else if String.eqb compatible "apple,t8015-sart" then Some sart_ops_v0
  else None.

(** ** Operations *)

(** Loop indices [0 .. APPLE_SART_MAX_ENTRIES - 1]. *)
Definition indices : list Z := seqZ 0 APPLE_SART_MAX_ENTRIES.

Definition entry (s : apple_sart) (i : Z) : Z * Z * Z := get_entry (s_ops s) (s_regs s) i.
Definition e_flags (e : Z * Z * Z) : Z := e.1.1.
Definition e_paddr (e : Z * Z * Z) : Z := e.1.2.
Definition e_size (e : Z * Z * Z) : Z := e.2.

(** The bootloader's entries, the loop of [apple_sart_probe]. *)
Definition probe_protected (ops : apple_sart_ops) (regs : mmio) : Z :=
  fold_left (λ p i, if e_flags (get_entry ops regs i) =? 0 then p else Z.setbit p i) indices 0.

(** [kzalloc] is the success of the allocation, [ioremap] the registers the
    device has at probe time or the error of the mapping. *)
Definition apple_sart_probe (kzalloc : bool) (ops : apple_sart_ops) (ioremap : result Z mmio)
    : result Z apple_sart :=
  if negb kzalloc then Err (- ENOMEM)
  else match ioremap with
       | Err e => Err e
       | Ok regs => Ok (Sart regs ops (probe_protected ops regs) 0)
       end.

(** [devm_apple_sart_get]: the device-tree node, its platform device and that
    device's driver data, each of which may be missing. *)
Definition devm_apple_sart_get {A} (node : option (option (option A))) : result Z A :=
  match node with
  | None => Err (- ENODEV)
  | Some None => Err (- ENODEV)
  | Some (Some None) => Err (- EPROBE_DEFER)
  | Some (Some (Some sart)) => Ok sart
  end.

Definition with_regs (s : apple_sart) (regs : mmio) : apple_sart :=
  Sart regs (s_ops s) (s_protected s) (s_used s).
Definition with_used (s : apple_sart) (used : Z) : apple_sart :=
  Sart (s_regs s) (s_ops s) (s_protected s) used.

Definition sart_set_entry (s : apple_sart) (index flags paddr size : Z) : Z * apple_sart :=
  if negb (Z.land size (Z.shiftl 1 (size_shift (s_ops s)) - 1) =? 0) then (- EINVAL, s)
  else if negb (Z.land paddr (Z.shiftl 1 (paddr_shift (s_ops s)) - 1) =? 0) then (- EINVAL, s)
  else
    let paddr := Z.shiftr paddr (size_shift (s_ops s)) in
    let size := Z.shiftr size (paddr_shift (s_ops s)) in
    if size >? size_max (s_ops s) then (- EINVAL, s)
    else (0, with_regs s (set_entry (s_ops s) (s_regs s) index flags paddr size)).

Fixpoint add_loop (s : apple_sart) (paddr size : Z) (idx : list Z) : Z * apple_sart :=
  match idx with
  | [] => (- EBUSY, s)
  | i :: idx' =>
      if Z.testbit (s_protected s) i then add_loop s paddr size idx'
      else if Z.testbit (s_used s) i then add_loop s paddr size idx'
      else
        let s1 := with_used s (Z.setbit (s_used s) i) in
        let '(ret, s2) := sart_set_entry s1 i (flags_allow (s_ops s)) paddr size in
        if negb (ret =? 0) then (ret, with_used s2 (Z.clearbit (s_used s2) i))
        else (0, s2)
  end.

Definition apple_sart_add_allowed_region (s : apple_sart) (paddr size : Z) : Z * apple_sart :=
  add_loop s paddr size indices.

Fixpoint remove_loop (s : apple_sart) (paddr size : Z) (idx : list Z) : Z * apple_sart :=
  match idx with
  | [] => (- EINVAL, s)
  | i :: idx' =>
      if Z.testbit (s_protected s) i then remove_loop s paddr size idx'
      else
        let e := entry s i in
        if negb (e_paddr e =? paddr) || negb (e_size e =? size)
        then remove_loop s paddr size idx'
        else
          let s1 := with_regs s (set_entry (s_ops s) (s_regs s) i 0 0 0) in
          (0, with_used s1 (Z.clearbit (s_used s1) i))
  end.

Definition apple_sart_remove_allowed_region (s : apple_sart) (paddr size : Z) : Z * apple_sart :=
  remove_loop s paddr size indices.

Definition apple_sart_shutdown (s : apple_sart) : apple_sart :=
  fold_left (λ s i, if Z.testbit (s_protected s) i then s
                    else with_regs s (set_entry (s_ops s) (s_regs s) i 0 0 0)) indices s.

(** ** The law of an entry

    What the driver relies on from a register layout: an entry written is read
    back, and writing an entry leaves the others alone. *)
Class SartOpsLaws (ops : apple_sart_ops) : Prop := {
  ops_allow : 0 < flags_allow ops;
  ops_size_shift : size_shift ops = 12;
  ops_paddr_shift : paddr_shift ops = 12;
  ops_get_set regs i f p z :
    f = 0 ∨ f = flags_allow ops → 0 ≤ p < 2 ^ 32 → 0 ≤ z ≤ size_max ops →
    0 ≤ i < APPLE_SART_MAX_ENTRIES →
    get_entry ops (set_entry ops regs i f p z) i = (f, p * 4096, z * 4096);
  ops_frame regs i j f p z :
    0 ≤ i < APPLE_SART_MAX_ENTRIES → 0 ≤ j < APPLE_SART_MAX_ENTRIES → i ≠ j →
    get_entry ops (set_entry ops regs i f p z) j = get_entry ops regs j;
  ops_size_max : 0 ≤ size_max ops
}.

Lemma readl_writel_eq regs off v : readl (writel v off regs) off = u32 v.
Proof. unfold readl, writel. by rewrite lookup_insert_eq. Qed.
Lemma readl_writel_ne regs off off' v :
  off' ≠ off → readl (writel v off regs) off' = readl regs off'.
Proof. intros. unfold readl, writel. by rewrite lookup_insert_ne by done. Qed.

(** A configuration word made of a flags field and a size field below it. *)
Lemma config_fields hf lf hs f z :
  hs < lf ≤ hf → hf < 32 → 0 ≤ hs → 0 ≤ f < 2 ^ (hf - lf + 1) → 0 ≤ z < 2 ^ (hs + 1) →
  let cfg := u32 (u32 (Z.lor (u32 (FIELD_PREP (GENMASK hf lf) f))
                             (FIELD_PREP (GENMASK hs 0) z))) in
  FIELD_GET (GENMASK hf lf) cfg = f ∧ FIELD_GET (GENMASK hs 0) cfg = z.
Proof.
  intros Hlf Hhf Hhs Hf Hz.
  assert (2 ^ (hf + 1) ≤ 2 ^ 32) by (apply Z.pow_le_mono_r; lia).
  assert (2 ^ (hs + 1) ≤ 2 ^ 32) by (apply Z.pow_le_mono_r; lia).
  pose proof (FIELD_PREP_range hf lf f ltac:(lia) ltac:(lia)).
  pose proof (FIELD_PREP_range hs 0 z ltac:(lia) ltac:(lia)).
  rewrite (u32_small (FIELD_PREP (GENMASK hf lf) f)) by lia.
  rewrite !u32_small by (try apply u32_range; apply lor_u32; lia). cbv zeta.
  rewrite !FIELD_GET_lor, !FIELD_GET_PREP by (rewrite ?Z.sub_0_r; lia).
  rewrite !FIELD_GET_PREP_disjoint by lia. by rewrite Z.lor_0_r, Z.lor_0_l.
Qed.

Lemma u64_page p : 0 ≤ p < 2 ^ 32 → u64 (Z.shiftl p 12) = p * 4096.
Proof. intros. rewrite Z.shiftl_mul_pow2 by lia. apply u64_small. lia. Qed.

Ltac sart_ops :=
  unfold readl, writel, APPLE_SART0_CONFIG, APPLE_SART0_PADDR, APPLE_SART2_CONFIG,
    APPLE_SART2_PADDR, APPLE_SART3_CONFIG, APPLE_SART3_PADDR, APPLE_SART3_SIZE,
    APPLE_SART_MAX_ENTRIES in *;
  repeat match goal with
  | |- context [<[?a := ?v]> ?m !! ?b] =>
      first [rewrite (lookup_insert_ne m a b v) by lia | rewrite (lookup_insert_eq m a v)]
  end; simpl default.

#[export] Instance sart_ops_v0_laws : SartOpsLaws sart_ops_v0.
Proof.
  split; try done; intros; cbn [get_entry set_entry sart_ops_v0 flags_allow size_max] in *.
  - unfold sart0_get_entry, sart0_set_entry. sart_ops.
    change APPLE_SART0_CONFIG_SIZE_MAX with (2 ^ 19 - 1) in *.
    unfold APPLE_SART0_FLAGS_ALLOW in *.
    destruct (config_fields 28 24 18 f z) as [Hf Hz]; [lia..|].
    unfold APPLE_SART0_CONFIG_FLAGS, APPLE_SART0_CONFIG_SIZE. rewrite Hf, Hz.
    unfold APPLE_SART0_PADDR_SHIFT, APPLE_SART0_CONFIG_SIZE_SHIFT.
    rewrite (u32_small p), !u64_page, u8_small by lia. done.
  - unfold sart0_get_entry, sart0_set_entry. sart_ops. done.
Qed.

#[export] Instance sart_ops_v2_laws : SartOpsLaws sart_ops_v2.
Proof.
  split; try done; intros; cbn [get_entry set_entry sart_ops_v2 flags_allow size_max] in *.
  - unfold sart2_get_entry, sart2_set_entry. sart_ops.
    change APPLE_SART2_CONFIG_SIZE_MAX with (2 ^ 24 - 1) in *.
    unfold APPLE_SART2_FLAGS_ALLOW in *.
    destruct (config_fields 31 24 23 f z) as [Hf Hz]; [lia..|].
    unfold APPLE_SART2_CONFIG_FLAGS, APPLE_SART2_CONFIG_SIZE. rewrite Hf, Hz.
    unfold APPLE_SART2_PADDR_SHIFT, APPLE_SART2_CONFIG_SIZE_SHIFT.
    rewrite (u32_small p), !u64_page, u8_small by lia. done.
  - unfold sart2_get_entry, sart2_set_entry. sart_ops. done.
Qed.

#[export] Instance sart_ops_v3_laws : SartOpsLaws sart_ops_v3.
Proof.
  split; try done; intros; cbn [get_entry set_entry sart_ops_v3 flags_allow size_max] in *.
  - unfold sart3_get_entry, sart3_set_entry. sart_ops.
    change APPLE_SART3_SIZE_MAX with (2 ^ 30 - 1) in *. unfold APPLE_SART3_FLAGS_ALLOW in *.
    unfold APPLE_SART3_PADDR_SHIFT, APPLE_SART3_SIZE_SHIFT.
    rewrite (u32_small p), (u32_small z), (u32_small f), !u64_page, u8_small by lia. done.
  - unfold sart3_get_entry, sart3_set_entry. sart_ops. done.
Qed.

(** ** Abstract view and invariant *)

(** The regions the driver has opened: the enabled entries that are not the
    bootloader's, as a list of (paddr, size). *)
Definition allowed (s : apple_sart) (i : Z) : option (Z * Z) :=
  if Z.testbit (s_protected s) i then None
  else if e_flags (entry s i) =? 0 then None
  else Some (e_paddr (entry s i), e_size (entry s i)).
Definition regions (s : apple_sart) : list (Z * Z) := omap (allowed s) indices.

(** [used_entries] marks exactly the enabled entries the driver owns, and a
    disabled entry below an enabled one is blank. *)
Record sart_inv (s : apple_sart) : Prop := {
  inv_laws : SartOpsLaws (s_ops s);
  inv_used i : 0 ≤ i < APPLE_SART_MAX_ENTRIES → Z.testbit (s_protected s) i = false →
    Z.testbit (s_used s) i = negb (e_flags (entry s i) =? 0);
  inv_blank i j : 0 ≤ i < j → j < APPLE_SART_MAX_ENTRIES →
    Z.testbit (s_protected s) i = false → Z.testbit (s_used s) i = false →
    Z.testbit (s_protected s) j = false → Z.testbit (s_used s) j = true →
    entry s i = (0, 0, 0)
}.

(** Bootloader entries and the rest of the state the driver must not touch. *)
Definition preserves_bootloader (s s' : apple_sart) : Prop :=
  s_ops s' = s_ops s ∧ s_protected s' = s_protected s ∧
  ∀ i, 0 ≤ i < APPLE_SART_MAX_ENTRIES → Z.testbit (s_protected s) i = true →
    entry s' i = entry s i.

Definition page_aligned (x : Z) : Prop := x mod 4096 = 0.

Lemma elem_indices i : i ∈ indices ↔ 0 ≤ i < APPLE_SART_MAX_ENTRIES.
Proof. unfold indices. rewrite elem_of_seqZ. lia. Qed.

Lemma NoDup_indices : NoDup indices.
Proof. apply NoDup_seqZ. Qed.

Lemma land_page x n : n = 12 → 0 ≤ x → Z.land x (Z.shiftl 1 n - 1) = x mod 4096.
Proof. intros -> ?. change (Z.shiftl 1 12 - 1) with (Z.ones 12). apply Z.land_ones. lia. Qed.

Definition free (s : apple_sart) (i : Z) : bool :=
  negb (Z.testbit (s_protected s) i) && negb (Z.testbit (s_used s) i).

(** The loop of the addition stops at the first free entry. *)
Lemma add_loop_find s paddr size idx :
  add_loop s paddr size idx =
  match List.find (free s) idx with
  | None => (- EBUSY, s)
  | Some i => add_loop s paddr size [i]
  end.
Proof.
  induction idx as [|i idx IH]; [done|]. simpl. unfold free.
  destruct (Z.testbit (s_protected s) i) eqn:Hp; simpl; [done|].
  destruct (Z.testbit (s_used s) i) eqn:Hu; simpl; [done|]. by rewrite Hp, Hu.
Qed.

(** The state after writing entry [i]. *)
Definition wrote (s : apple_sart) (i f p z used : Z) : apple_sart :=
  Sart (set_entry (s_ops s) (s_regs s) i f p z) (s_ops s) (s_protected s) used.

Definition fits (s : apple_sart) (paddr size : Z) : bool :=
  (size mod 4096 =? 0) && (paddr mod 4096 =? 0) && (size / 4096 <=? size_max (s_ops s)).

Lemma clear_set_bit x i : 0 ≤ i → Z.testbit x i = false → Z.clearbit (Z.setbit x i) i = x.
Proof.
  intros Hi H. apply Z.bits_inj'. intros j Hj. rewrite Z.clearbit_eqb, Z.setbit_eqb by lia.
  destruct (Z.eqb_spec i j) as [<- | ]; simpl; [by rewrite H|by rewrite andb_true_r].
Qed.

Section laws.
Context (s : apple_sart) (Hinv : sart_inv s).
#[local] Instance laws : SartOpsLaws (s_ops s) := inv_laws s Hinv.

Lemma add_at i paddr size :
  0 ≤ i → 0 ≤ paddr → 0 ≤ size → free s i = true →
  add_loop s paddr size [i] =
  if fits s paddr size
  then (0, wrote s i (flags_allow (s_ops s)) (paddr / 4096) (size / 4096) (Z.setbit (s_used s) i))
  else (- EINVAL, s).
Proof.
  intros Hi Hp Hz [Hfp Hfu]%andb_prop. apply negb_true_iff in Hfp, Hfu.
  simpl. rewrite Hfp, Hfu. unfold sart_set_entry, fits. simpl.
  rewrite !land_page by (apply ops_size_shift || apply ops_paddr_shift || done).
  rewrite ops_size_shift, ops_paddr_shift, !Z.shiftr_div_pow2 by lia.
  change (2 ^ 12) with 4096. rewrite Z.gtb_ltb, Z.ltb_antisym.
  assert (with_used (with_used s (Z.setbit (s_used s) i)) (Z.clearbit (Z.setbit (s_used s) i) i)
          = s) as E by (rewrite clear_set_bit by done; by destruct s).
  destruct (size mod 4096 =? 0); simpl; [|by rewrite E].
  destruct (paddr mod 4096 =? 0); simpl; [|by rewrite E].
  destruct (size / 4096 <=? size_max (s_ops s)); simpl; [done|by rewrite E].
Qed.

Lemma entry_wrote i j f p z used :
  f = 0 ∨ f = flags_allow (s_ops s) → 0 ≤ p < 2 ^ 32 → 0 ≤ z ≤ size_max (s_ops s) →
  0 ≤ i < APPLE_SART_MAX_ENTRIES → 0 ≤ j < APPLE_SART_MAX_ENTRIES →
  entry (wrote s i f p z used) j = if j =? i then (f, p * 4096, z * 4096) else entry s j.
Proof.
  intros. unfold entry. simpl. destruct (Z.eqb_spec j i) as [->|].
  - by apply ops_get_set.
  - by apply ops_frame.
Qed.

Lemma wrote_bootloader i f p z used :
  f = 0 ∨ f = flags_allow (s_ops s) → 0 ≤ p < 2 ^ 32 → 0 ≤ z ≤ size_max (s_ops s) →
  0 ≤ i < APPLE_SART_MAX_ENTRIES → Z.testbit (s_protected s) i = false →
  preserves_bootloader s (wrote s i f p z used).
Proof.
  intros ????? . split; [done|]. split; [done|]. intros j Hj Hpj.
  rewrite entry_wrote by done. by destruct (Z.eqb_spec j i) as [->|]; [congruence|].
Qed.
End laws.

(** ** The abstract specification: a bag of regions

    Adding a region adds one element to the bag, removing takes one out, and
    nothing else moves. *)

Lemma allowed_unused s i :
  sart_inv s → 0 ≤ i < APPLE_SART_MAX_ENTRIES → Z.testbit (s_used s) i = false →
  allowed s i = None.
Proof.
  intros Hs Hi Hu. unfold allowed. destruct (Z.testbit (s_protected s) i) eqn:Hp; [done|].
  pose proof (inv_used s Hs i Hi Hp) as H. rewrite Hu in H.
  by destruct (e_flags (entry s i) =? 0).
Qed.

Lemma allowed_used s i :
  sart_inv s → 0 ≤ i < APPLE_SART_MAX_ENTRIES → Z.testbit (s_protected s) i = false →
  Z.testbit (s_used s) i = true → allowed s i = Some (e_paddr (entry s i), e_size (entry s i)).
Proof.
  intros Hs Hi Hp Hu. unfold allowed. rewrite Hp.
  pose proof (inv_used s Hs i Hi Hp) as H. rewrite Hu in H.
  by destruct (e_flags (entry s i) =? 0).
Qed.

Lemma elem_regions s p z :
  sart_inv s → (p, z) ∈ regions s →
  ∃ i, 0 ≤ i < APPLE_SART_MAX_ENTRIES ∧ Z.testbit (s_protected s) i = false ∧
       Z.testbit (s_used s) i = true ∧ e_paddr (entry s i) = p ∧ e_size (entry s i) = z.
Proof.
  intros Hs (i & Hi & Ha)%list_elem_of_omap. apply elem_indices in Hi. exists i.
  destruct (Z.testbit (s_used s) i) eqn:Hu; [|by rewrite allowed_unused in Ha].
  destruct (Z.testbit (s_protected s) i) eqn:Hp; [by unfold allowed in Ha; rewrite Hp in Ha|].
  rewrite allowed_used in Ha by done. injection Ha as -> ->. done.
Qed.

Section writes.
Context (s : apple_sart) (Hinv : sart_inv s) (i : Z).
Hypothesis Hi : 0 ≤ i < APPLE_SART_MAX_ENTRIES.
Hypothesis Hp : Z.testbit (s_protected s) i = false.
#[local] Instance wlaws : SartOpsLaws (s_ops s) := inv_laws s Hinv.

Let opened p z :=
  wrote s i (flags_allow (s_ops s)) p z (Z.setbit (s_used s) i).
Let closed := wrote s i 0 0 0 (Z.clearbit (s_used s) i).

Lemma entry_opened p z j :
  0 ≤ p < 2 ^ 32 → 0 ≤ z ≤ size_max (s_ops s) → 0 ≤ j < APPLE_SART_MAX_ENTRIES →
  entry (opened p z) j =
  if j =? i then (flags_allow (s_ops s), p * 4096, z * 4096) else entry s j.
Proof. intros. apply entry_wrote; auto. Qed.

Lemma entry_closed j :
  0 ≤ j < APPLE_SART_MAX_ENTRIES → entry closed j = if j =? i then (0, 0, 0) else entry s j.
Proof. intros. apply (entry_wrote s Hinv i j 0 0 0); auto; try lia. pose proof ops_size_max; lia. Qed.

Lemma opened_inv p z :
  0 ≤ p < 2 ^ 32 → 0 ≤ z ≤ size_max (s_ops s) →
  (∀ j, 0 ≤ j < i → free s j = false) → sart_inv (opened p z).
Proof.
  intros Hpr Hz Hfirst. split; [exact wlaws| |].
  - intros j Hj Hpj. rewrite entry_opened by done. simpl. rewrite Z.setbit_eqb by lia.
    rewrite (Z.eqb_sym i j). destruct (Z.eqb_spec j i); [|by apply inv_used].
    unfold e_flags; simpl. pose proof ops_allow.
    destruct (Z.eqb_spec (flags_allow (s_ops s)) 0); [lia|done].
  - simpl. intros k j Hk Hj Hpk Huk Hpj Huj. rewrite Z.setbit_eqb in Huk, Huj by lia.
    apply orb_false_elim in Huk as [Hki%Z.eqb_neq Huk].
    rewrite entry_opened by lia. destruct (Z.eqb_spec k i); [lia|].
    destruct (Z.eqb_spec i j) as [<- | ]; simpl in Huj; [|by eapply inv_blank].
    specialize (Hfirst k ltac:(lia)). unfold free in Hfirst. by rewrite Hpk, Huk in Hfirst.
Qed.

Lemma opened_regions p z :
  Z.testbit (s_used s) i = false → 0 ≤ p < 2 ^ 32 → 0 ≤ z ≤ size_max (s_ops s) →
  regions (opened p z) ≡ₚ (p * 4096, z * 4096) :: regions s.
Proof.
  intros Hu Hpr Hz. unfold regions. apply (omap_set _ _ _ i).
  - apply NoDup_indices.
  - by apply elem_indices.
  - intros j Hj Hne. apply elem_indices in Hj. unfold allowed.
    rewrite entry_opened by done. destruct (Z.eqb_spec j i); [done|]. done.
  - by apply allowed_unused.
  - unfold allowed. rewrite entry_opened, Z.eqb_refl by done. simpl. rewrite Hp.
    unfold e_flags; simpl. pose proof ops_allow.
    destruct (Z.eqb_spec (flags_allow (s_ops s)) 0); [lia|done].
Qed.

Lemma closed_inv : sart_inv closed.
Proof.
  split; [exact wlaws| |].
  - intros j Hj Hpj. rewrite entry_closed by done. simpl. rewrite Z.clearbit_eqb by lia.
    rewrite (Z.eqb_sym i j). destruct (Z.eqb_spec j i); simpl; [by rewrite andb_false_r|].
    rewrite andb_true_r. by apply inv_used.
  - simpl. intros k j Hk Hj Hpk Huk Hpj Huj. rewrite Z.clearbit_eqb in Huk, Huj by lia.
    rewrite entry_closed by lia. destruct (Z.eqb_spec k i); [done|].
    destruct (Z.eqb_spec i k); [lia|]. simpl in Huk. rewrite andb_true_r in Huk.
    destruct (Z.eqb_spec i j); simpl in Huj; [by rewrite andb_false_r in Huj|].
    rewrite andb_true_r in Huj. by eapply inv_blank.
Qed.

Lemma closed_regions p z :
  Z.testbit (s_used s) i = true → e_paddr (entry s i) = p → e_size (entry s i) = z →
  regions s ≡ₚ (p, z) :: regions closed.
Proof.
  intros Hu <- <-. unfold regions. apply (omap_set _ _ _ i).
  - apply NoDup_indices.
  - by apply elem_indices.
  - intros j Hj Hne. apply elem_indices in Hj. unfold allowed.
    rewrite entry_closed by done. by destruct (Z.eqb_spec j i).
  - unfold allowed. rewrite entry_closed, Z.eqb_refl by done. simpl. by rewrite Hp.
  - by apply allowed_used.
Qed.

Lemma closed_regions_unused : Z.testbit (s_used s) i = false → regions closed = regions s.
Proof.
  intros Hu. apply omap_ext_in. intros j Hj%elem_indices.
  destruct (Z.eqb_spec j i) as [-> | ].
  - rewrite (allowed_unused s) by done. unfold allowed.
    rewrite entry_closed, Z.eqb_refl by done. simpl. by rewrite Hp.
  - unfold allowed. rewrite entry_closed by done. by destruct (Z.eqb_spec j i).
Qed.

Lemma closed_bootloader : preserves_bootloader s closed.
Proof. apply (wrote_bootloader s Hinv); auto; try lia. pose proof ops_size_max; lia. Qed.
End writes.

(** Number of entries the driver may use. *)
Definition capacity (s : apple_sart) : nat :=
  length (List.filter (λ i, negb (Z.testbit (s_protected s) i)) indices).

Lemma omap_length_filter {A B} (f : A → option B) (g : A → bool) (l : list A) :
  (∀ x, x ∈ l → is_Some (f x) → g x = true) →
  (length (omap f l) ≤ length (List.filter g l))%nat ∧
  (length (omap f l) = length (List.filter g l) ↔ ∀ x, x ∈ l → g x = true → is_Some (f x)).
Proof.
  induction l as [|x l IH]; intros H; simpl.
  { split; [done|]. split; [|done]. by intros _ ? ?%not_elem_of_nil. }
  assert (∀ y, y ∈ l → is_Some (f y) → g y = true) as H'.
  { intros y Hy. apply H. by apply list_elem_of_further. }
  destruct (IH H') as [Hle Heq].
  pose proof (H x ltac:(apply list_elem_of_here)) as Hx.
  assert (∀ P : A → Prop, (∀ y, y ∈ x :: l → P y) ↔ P x ∧ ∀ y, y ∈ l → P y) as Hsplit.
  { intros P. split.
    - intros HP. split; [apply HP, list_elem_of_here|]. intros. by apply HP, list_elem_of_further.
    - intros [? ?] y [-> | ?]%elem_of_cons; auto. }
  rewrite Hsplit. destruct (f x) as [b|] eqn:Hf.
  - rewrite Hx by done. simpl. split; [by apply le_n_S|]. rewrite <- Heq. split; [intros [= ?]; by split|].
    intros [_ E]. by f_equal.
  - destruct (g x) eqn:Hg; simpl.
    + split; [by apply le_S|]. split; [|].
      { intros E. exfalso. apply (Nat.nle_succ_diag_l (length (List.filter g l))).
        by rewrite <- E. }
      intros [HN _]. destruct (HN eq_refl) as [? ?]; done.
    + split; [done|]. rewrite Heq. split; [done|]. by intros [_ ?].
Qed.

Lemma allowed_unprotected s i : is_Some (allowed s i) → negb (Z.testbit (s_protected s) i) = true.
Proof. unfold allowed. destruct (Z.testbit (s_protected s) i); [|done]. by intros [? ?]. Qed.

Lemma regions_full s :
  sart_inv s →
  (List.find (free s) indices = None ↔ length (regions s) = capacity s).
Proof.
  intros Hs. unfold regions, capacity.
  destruct (omap_length_filter (allowed s) (λ i, negb (Z.testbit (s_protected s) i)) indices
    (λ i _, allowed_unprotected s i)) as [_ ->].
  split.
  - intros Hf i Hi Hp. pose proof (find_seqZ_none _ _ _ Hf i) as Hn.
    apply elem_indices in Hi. specialize (Hn ltac:(lia)). unfold free in Hn.
    rewrite Hp in Hn. simpl in Hn. apply negb_false_iff in Hn. apply negb_true_iff in Hp.
    rewrite allowed_used by done. by eexists.
  - intros H. destruct (List.find (free s) indices) as [i|] eqn:Hf; [|done].
    apply find_seqZ_first in Hf as (Hi & [Hp Hu]%andb_prop & _). change (0 + 16) with 16 in Hi.
    apply negb_true_iff in Hu.
    destruct (H i ltac:(by apply elem_indices) Hp) as [? Ha].
    by rewrite allowed_unused in Ha.
Qed.

Lemma regions_length s : (length (regions s) ≤ capacity s)%nat.
Proof. apply omap_length_filter. intros i _. apply allowed_unprotected. Qed.

(** The remove loop stops at the first entry of the driver that matches. *)
Definition matches (s : apple_sart) (paddr size i : Z) : bool :=
  negb (Z.testbit (s_protected s) i) &&
  ((e_paddr (entry s i) =? paddr) && (e_size (entry s i) =? size)).

Lemma remove_loop_find s paddr size idx :
  remove_loop s paddr size idx =
  match List.find (matches s paddr size) idx with
  | None => (- EINVAL, s)
  | Some i => (0, wrote s i 0 0 0 (Z.clearbit (s_used s) i))
  end.
Proof.
  induction idx as [|i idx IH]; [done|]. simpl. unfold matches at 1.
  destruct (Z.testbit (s_protected s) i); simpl; [done|].
  destruct (e_paddr (entry s i) =? paddr); simpl; [|done].
  by destruct (e_size (entry s i) =? size).
Qed.

Lemma preserves_refl s : preserves_bootloader s s.
Proof. done. Qed.

Lemma preserves_trans s1 s2 s3 :
  preserves_bootloader s1 s2 → preserves_bootloader s2 s3 → preserves_bootloader s1 s3.
Proof.
  intros (? & Hp & He) (? & Hp' & He'). split; [congruence|]. split; [congruence|].
  intros i Hi Hb. rewrite He' by (done || congruence). by apply He.
Qed.

(** ** Operations against the bag *)

Inductive sart_call := CallAdd (paddr size : Z) | CallRemove (paddr size : Z).

Definition sart_exec (s : apple_sart) (c : sart_call) : Z * apple_sart :=
  match c with
  | CallAdd p z => apple_sart_add_allowed_region s p z
  | CallRemove p z => apple_sart_remove_allowed_region s p z
  end.

(** Addresses the shifted register can hold, and the sizes callers pass. *)
Definition call_ok (c : sart_call) : Prop :=
  match c with
  | CallAdd p z => 0 ≤ p < 2 ^ 44 ∧ 0 ≤ z
  | CallRemove p z => 0 < z
  end.

(** The promise: a bag of regions of bounded capacity. *)
Inductive bag_step (ok : Z → Z → bool) (cap : nat) :
    list (Z * Z) → sart_call → Z → list (Z * Z) → Prop :=
| bag_full p z b : length b = cap → bag_step ok cap b (CallAdd p z) (- EBUSY) b
| bag_invalid p z b :
    (length b < cap)%nat → ok p z = false → bag_step ok cap b (CallAdd p z) (- EINVAL) b
| bag_added p z b b' :
    (length b < cap)%nat → ok p z = true → b' ≡ₚ (p, z) :: b →
    bag_step ok cap b (CallAdd p z) 0 b'
| bag_removed p z b b' : b ≡ₚ (p, z) :: b' → bag_step ok cap b (CallRemove p z) 0 b'
| bag_absent p z b ret : (p, z) ∉ b → bag_step ok cap b (CallRemove p z) ret b.

Lemma add_refines s p z :
  sart_inv s → 0 ≤ p < 2 ^ 44 → 0 ≤ z →
  let '(ret, s') := apple_sart_add_allowed_region s p z in
  sart_inv s' ∧ preserves_bootloader s s' ∧
  bag_step (fits s) (capacity s) (regions s) (CallAdd p z) ret (regions s').
Proof.
  intros Hs Hp Hz. unfold apple_sart_add_allowed_region. rewrite add_loop_find.
  pose proof (regions_full s Hs) as Hfull. pose proof (regions_length s).
  destruct (List.find (free s) indices) as [i|] eqn:Hf.
  - apply find_seqZ_first in Hf as (Hi & Hfree & Hfirst). change (0 + 16) with 16 in Hi.
    rewrite add_at by (done || lia).
    assert (length (regions s) < capacity s)%nat.
    { destruct (decide (length (regions s) = capacity s)) as [E|]; [|lia]. by apply Hfull in E. }
    destruct (fits s p z) eqn:Hfit.
    + pose proof Hfree as [Hpi Hui]%andb_prop. apply negb_true_iff in Hpi, Hui.
      pose proof Hfit as Hfit'. unfold fits in Hfit'. boolprop.
      assert (0 ≤ p / 4096 < 2 ^ 32) by (Z.to_euclidean_division_equations; lia).
      assert (0 ≤ z / 4096 ≤ size_max (s_ops s)) by (Z.to_euclidean_division_equations; lia).
      split; [by apply opened_inv|]. split; [apply wrote_bootloader; auto|].
      apply bag_added; [done..|].
      replace p with (p / 4096 * 4096) at 2 by (Z.to_euclidean_division_equations; lia).
      replace z with (z / 4096 * 4096) at 2 by (Z.to_euclidean_division_equations; lia).
      by apply opened_regions.
    + split; [done|]. split; [apply preserves_refl|]. by apply bag_invalid.
  - split; [done|]. split; [apply preserves_refl|]. apply bag_full. by apply Hfull.
Qed.

Lemma remove_refines s p z :
  sart_inv s → 0 < z →
  let '(ret, s') := apple_sart_remove_allowed_region s p z in
  sart_inv s' ∧ preserves_bootloader s s' ∧
  bag_step (fits s) (capacity s) (regions s) (CallRemove p z) ret (regions s').
Proof.
  intros Hs Hz. unfold apple_sart_remove_allowed_region. rewrite remove_loop_find.
  destruct (List.find (matches s p z) indices) as [i|] eqn:Hf.
  - apply find_seqZ_first in Hf as (Hi & Hm & Hfirst). change (0 + 16) with 16 in Hi.
    unfold matches in Hm. boolprop.
    split; [by apply closed_inv|]. split; [by apply closed_bootloader|].
    destruct (Z.testbit (s_used s) i) eqn:Hu.
    + apply bag_removed. by apply closed_regions.
    + rewrite closed_regions_unused by done. apply bag_absent.
      intros (j & Hj & Hpj & Huj & Hj1 & Hj2)%elem_regions; [|done].
      destruct (Z.lt_trichotomy j i) as [Hlt|[-> | Hlt]]; [|congruence|].
      * specialize (Hfirst j ltac:(lia)). unfold matches in Hfirst.
        by rewrite Hpj, Hj1, Hj2, !Z.eqb_refl in Hfirst.
      * assert (entry s i = (0, 0, 0)) as E by (eapply (inv_blank s Hs i j); done || lia).
        rewrite E in *. unfold e_size in *. simpl in *. lia.
  - split; [done|]. split; [apply preserves_refl|]. apply bag_absent.
    intros (j & Hj & Hpj & Huj & Hj1 & Hj2)%elem_regions; [|done].
    pose proof (find_seqZ_none _ _ _ Hf j ltac:(done)) as Hn. unfold matches in Hn.
    by rewrite Hpj, Hj1, Hj2, !Z.eqb_refl in Hn.
Qed.

(** ** Sequences of calls *)

Fixpoint sart_run (s : apple_sart) (cs : list sart_call) : list Z * apple_sart :=
  match cs with
  | [] => ([], s)
  | c :: cs' =>
      let '(ret, s1) := sart_exec s c in
      let '(rets, s2) := sart_run s1 cs' in (ret :: rets, s2)
  end.

Inductive bag_run (ok : Z → Z → bool) (cap : nat) :
    list (Z * Z) → list sart_call → list Z → list (Z * Z) → Prop :=
| bag_run_nil b : bag_run ok cap b [] [] b
| bag_run_cons b c ret b1 cs rets b2 :
    bag_step ok cap b c ret b1 → bag_run ok cap b1 cs rets b2 →
    bag_run ok cap b (c :: cs) (ret :: rets) b2.

Lemma exec_refines s c :
  sart_inv s → call_ok c →
  let '(ret, s') := sart_exec s c in
  sart_inv s' ∧ preserves_bootloader s s' ∧
  bag_step (fits s) (capacity s) (regions s) c ret (regions s').
Proof.
  intros Hs Hc. destruct c as [p z|p z]; simpl in *.
  - apply add_refines; tauto.
  - by apply remove_refines.
Qed.

Lemma preserves_fits s s' : preserves_bootloader s s' → fits s' = fits s ∧ capacity s' = capacity s.
Proof. intros (Ho & Hp & _). unfold fits, capacity. by rewrite Ho, Hp. Qed.

Lemma run_refines cs : ∀ s,
  sart_inv s → Forall call_ok cs →
  let '(rets, s') := sart_run s cs in
  sart_inv s' ∧ preserves_bootloader s s' ∧
  bag_run (fits s) (capacity s) (regions s) cs rets (regions s').
Proof.
  induction cs as [|c cs IH]; intros s Hs Hcs; simpl.
  { split; [done|]. split; [apply preserves_refl|]. constructor. }
  inversion Hcs as [|? ? Hc Hcs']; subst. pose proof (exec_refines s c Hs Hc) as H.
  destruct (sart_exec s c) as [ret s1]. destruct H as (Hs1 & Hb1 & Hstep).
  specialize (IH s1 Hs1 Hcs'). destruct (sart_run s1 cs) as [rets s2].
  destruct IH as (Hs2 & Hb2 & Hrun). split; [done|].
  split; [by eapply preserves_trans|]. destruct (preserves_fits _ _ Hb1) as [Ef Ec].
  rewrite Ef, Ec in Hrun. by econstructor.
Qed.

Lemma testbit_probe_fold ops regs i l p :
  0 ≤ i → (∀ j, j ∈ l → 0 ≤ j) →
  Z.testbit (fold_left (λ p i, if e_flags (get_entry ops regs i) =? 0 then p
                               else Z.setbit p i) l p) i =
  Z.testbit p i || bool_decide (i ∈ l) && negb (e_flags (get_entry ops regs i) =? 0).
Proof.
  intros Hi. revert p. induction l as [|j l IH]; intros p Hl; simpl.
  { by rewrite orb_false_r. }
  rewrite IH by (intros; apply Hl; by apply list_elem_of_further).
  assert (0 ≤ j) by apply Hl, list_elem_of_here.
  destruct (Z.eq_dec j i) as [-> | Hne].
  - rewrite (bool_decide_eq_true_2 (i ∈ i :: l)) by apply list_elem_of_here.
    destruct (e_flags (get_entry ops regs i) =? 0); simpl; [by rewrite !andb_false_r|].
    rewrite Z.setbit_eqb, Z.eqb_refl by lia. simpl. by rewrite orb_true_r.
  - assert (bool_decide (i ∈ j :: l) = bool_decide (i ∈ l)) as ->.
    { apply bool_decide_ext. rewrite elem_of_cons. clear -Hne. intuition congruence. }
    destruct (e_flags (get_entry ops regs j) =? 0); [done|].
    rewrite Z.setbit_eqb by lia. by destruct (Z.eqb_spec j i).
Qed.

(** The probe protects exactly the entries the bootloader enabled. *)
Lemma probe_protected_spec ops regs i :
  0 ≤ i < APPLE_SART_MAX_ENTRIES →
  Z.testbit (probe_protected ops regs) i = negb (e_flags (get_entry ops regs i) =? 0).
Proof.
  intros Hi. unfold probe_protected. rewrite testbit_probe_fold.
  - rewrite Z.bits_0, bool_decide_eq_true_2 by by apply elem_indices. done.
  - lia.
  - intros j Hj%elem_indices. lia.
Qed.

Lemma probe_inv ops regs : SartOpsLaws ops → sart_inv (Sart regs ops (probe_protected ops regs) 0).
Proof.
  intros Hl. split; simpl; [done| |].
  - intros i Hi Hp. rewrite probe_protected_spec in Hp by done. unfold entry. simpl.
    by rewrite Hp, Z.bits_0.
  - intros i j _ _ _ _ _. by rewrite Z.bits_0.
Qed.

Lemma of_match_laws c ops : apple_sart_of_match c = Some ops → SartOpsLaws ops.
Proof.
  unfold apple_sart_of_match.
  repeat case_if; intros [= <-] || intros ?; try discriminate; apply _.
Qed.

(** ** Shutdown *)

Lemma shutdown_prefix l s :
  NoDup l → (∀ i, i ∈ l → 0 ≤ i < APPLE_SART_MAX_ENTRIES) → SartOpsLaws (s_ops s) →
  let s' := fold_left (λ s i, if Z.testbit (s_protected s) i then s
                    else with_regs s (set_entry (s_ops s) (s_regs s) i 0 0 0)) l s in
  s_ops s' = s_ops s ∧ s_protected s' = s_protected s ∧
  ∀ j, 0 ≤ j < APPLE_SART_MAX_ENTRIES →
    entry s' j = if negb (Z.testbit (s_protected s) j) && bool_decide (j ∈ l)
                 then (0, 0, 0) else entry s j.
Proof.
  revert s. induction l as [|i l IH]; intros s Hnd Hl Hlaws; simpl.
  { split; [done|]. split; [done|]. intros j Hj. by rewrite andb_false_r. }
  apply NoDup_cons in Hnd as [Hi Hnd]. pose proof (Hl i ltac:(apply list_elem_of_here)) as Hir.
  set (s1 := if Z.testbit (s_protected s) i then s
             else with_regs s (set_entry (s_ops s) (s_regs s) i 0 0 0)).
  assert (s_ops s1 = s_ops s ∧ s_protected s1 = s_protected s) as [Ho Hp].
  { unfold s1. by case_if. }
  assert (∀ j, 0 ≤ j < APPLE_SART_MAX_ENTRIES → entry s1 j =
    if negb (Z.testbit (s_protected s) j) && (j =? i) then (0, 0, 0) else entry s j) as He.
  { intros j Hj. unfold s1. destruct (Z.eqb_spec j i) as [-> | Hne].
    - destruct (Z.testbit (s_protected s) i); [done|]. unfold entry; simpl.
      rewrite ops_get_set by (auto; pose proof ops_size_max; lia). done.
    - rewrite andb_false_r. case_if; [done|]. unfold entry; simpl. by apply ops_frame. }
  destruct (IH s1) as (Ho' & Hp' & He'); [done| |by rewrite Ho|].
  { intros; apply Hl; by apply list_elem_of_further. }
  rewrite Ho', Hp', Ho, Hp. split; [done|]. split; [done|]. intros j Hj.
  rewrite He', He, Hp by done. destruct (Z.testbit (s_protected s) j); simpl; [done|].
  destruct (Z.eqb_spec j i) as [-> | Hne].
  - by rewrite (bool_decide_eq_false_2 _ Hi), (bool_decide_eq_true_2 (i ∈ i :: l))
      by apply list_elem_of_here.
  - erewrite bool_decide_ext; [done|]. rewrite elem_of_cons. clear -Hne. intuition congruence.
Qed.

(** ** Theorems *)


(** A device whose bootloader left entry 0 open, driven through a few calls. *)
Definition sample_regs : mmio := sart3_set_entry ∅ 0 0xff 0x80000 0x10.
Definition sample_calls : list sart_call :=
  [CallAdd 0x900000000 0x4000; CallAdd 0x900000001 0x4000; CallRemove 0x900000000 0x4000].
Definition sample_sart : apple_sart :=
  Sart sample_regs sart_ops_v3 (probe_protected sart_ops_v3 sample_regs) 0.


(** Shutdown disables and blanks every entry the driver could have used and
    leaves each of the bootloader's entries as it was; no region of the driver
    stays open. *)
Theorem sart_shutdown_clears s :
  SartOpsLaws (s_ops s) →
  (∀ i, 0 ≤ i < APPLE_SART_MAX_ENTRIES →
     entry (apple_sart_shutdown s) i =
       if Z.testbit (s_protected s) i then entry s i else (0, 0, 0)) ∧
  regions (apple_sart_shutdown s) = [].
Proof.
  intros Hl. unfold apple_sart_shutdown.
  destruct (shutdown_prefix indices s) as (Ho & Hp & He);
    [apply NoDup_indices|by intros ? ?%elem_indices|done|].
  match type of Ho with s_ops ?t = _ => set (s' := t) in * end.
  assert (∀ j, 0 ≤ j < APPLE_SART_MAX_ENTRIES → entry s' j =
    if Z.testbit (s_protected s) j then entry s j else (0, 0, 0)) as E.
  { intros j Hj. rewrite He by done. rewrite (bool_decide_eq_true_2 (j ∈ indices))
      by by apply elem_indices. by destruct (Z.testbit (s_protected s) j). }
  split; [done|]. unfold regions. apply omap_none.
  intros j Hj%elem_indices. unfold allowed. rewrite E, Hp by done.
  by destruct (Z.testbit (s_protected s) j).
Qed.

Lemma sart_shutdown_clears_witness :
  (regions (sart_run sample_sart sample_calls).2 = [] ∧
   regions (sart_run sample_sart [CallAdd 0x900000000 0x4000]).2 = [(0x900000000, 0x4000)]) ∧
  (∀ i, 0 ≤ i < APPLE_SART_MAX_ENTRIES →
     entry (apple_sart_shutdown sample_sart) i =
       if Z.testbit (s_protected sample_sart) i then entry sample_sart i else (0, 0, 0)) ∧
  regions (apple_sart_shutdown sample_sart) = [].
Proof.
  split; [vm_compute; split; reflexivity|]. exact (sart_shutdown_clears sample_sart sart_ops_v3_laws).
Defined.
