(* ===== verification/Pmgr.v ===== *)
(** * PMGR power states (drivers/pmdomain/apple/pmgr-pwrstate.c)

    One power-state register per domain.  The register is reached through the
    kernel's regmap, whose behaviour (and the device's behind it) is an oracle:
    the definitions issue events and receive answers, the theorems hold for every
    oracle that respects the documented meaning of a poll.  Log messages are not
    modelled. *)

From Stdlib Require Import ZArith Lia Bool Btauto.
From stdpp Require Import base numbers list option.
From S2P Require Import Prelude.

Local Open Scope Z_scope.

Definition APPLE_PMGR_RESET : Z := BIT 31.
Definition APPLE_PMGR_AUTO_ENABLE : Z := BIT 28.
Definition APPLE_PMGR_PS_AUTO : Z := GENMASK 27 24.
Definition APPLE_PMGR_PS_MIN : Z := GENMASK 19 16.
Definition APPLE_PMGR_PS_RESET : Z := BIT 12.
Definition APPLE_PMGR_BUSY : Z := BIT 11.
Definition APPLE_PMGR_DEV_DISABLE : Z := BIT 10.
Definition APPLE_PMGR_WAS_CLKGATED : Z := BIT 9.
Definition APPLE_PMGR_WAS_PWRGATED : Z := BIT 8.
Definition APPLE_PMGR_PS_ACTUAL : Z := GENMASK 7 4.
Definition APPLE_PMGR_PS_TARGET : Z := GENMASK 3 0.
Definition APPLE_PMGR_FLAGS : Z := Z.lor APPLE_PMGR_WAS_CLKGATED APPLE_PMGR_WAS_PWRGATED.

Definition APPLE_PMGR_PS_ACTIVE : Z := 0xf.
Definition APPLE_PMGR_PS_CLKGATE : Z := 0x4.
Definition APPLE_PMGR_PS_PWRGATE : Z := 0x0.
Definition APPLE_PMGR_PS_SET_TIMEOUT : Z := 100.
Definition APPLE_PMGR_RESET_TIME : Z := 1.

(** [genpd.flags], the bits the driver sets. *)
Record genpd_flags := GenpdFlags {
  gf_irq_safe : bool;
  gf_always_on : bool;
  gf_defer_off : bool;
  gf_active_wakeup : bool
}.

Record apple_pmgr_ps := PmgrPs {
  skip_auto_enable : bool;
  offset : Z;
  min_state : Z;
  force_disable : bool;
  force_reset : bool;
  externally_clocked : bool;
  ps_flags : genpd_flags
}.

(** The polling conditions of the driver. *)
Inductive poll :=
| PollBits (mask val : Z)     (** [(cur & mask) == val] *)
| PollActualGe (v : Z)        (** [FIELD_GET(PS_ACTUAL, cur) >= v] *)
| PollActualEq (v : Z).       (** [FIELD_GET(PS_ACTUAL, cur) == v] *)

Definition poll_holds (p : poll) (cur : Z) : bool :=
  match p with
  | PollBits mask val => Z.land cur mask =? val
  | PollActualGe v => v <=? FIELD_GET APPLE_PMGR_PS_ACTUAL cur
  | PollActualEq v => FIELD_GET APPLE_PMGR_PS_ACTUAL cur =? v
  end.

Inductive event :=
| Read (off : Z)
| Write (off val : Z)
| Poll (off : Z) (p : poll) (delay_us timeout_us : Z)
| Update (off mask val : Z)
| Lock | Unlock | Sleep (us : Z)
| GenpdInit (is_off : bool)
| AddProvider
| AddSubdomain (parent : Z)
| RemoveDevice
| RegisterReset
| DelProvider
| GenpdRemove.

Section driver.
(** Return code of an event and value it delivers (for [Read] and [Poll]). *)
Context (code : list event → event → Z) (value : list event → event → Z).

(** The return code and the value stored through the pointer. *)
Definition regmap_read (off : Z) : TR event (Z * Z) := λ t,
  ((code t (Read off), value t (Read off)), t ++ [Read off]).

Definition apple_pmgr_ps_set (ps : apple_pmgr_ps) (pstate : Z) (auto_enable : bool)
    : TR event Z :=
  '(ret, reg) ← regmap_read (offset ps);
  if ret <? 0 then mret ret else
  (if negb (pstate =? APPLE_PMGR_PS_ACTIVE) && (force_disable ps || force_reset ps) then
     let reg_pre := Z.land reg (not32 (Z.lor APPLE_PMGR_AUTO_ENABLE APPLE_PMGR_FLAGS)) in
     let reg_pre := if force_disable ps then Z.lor reg_pre APPLE_PMGR_DEV_DISABLE else reg_pre in
     let reg_pre := if force_reset ps then Z.lor reg_pre APPLE_PMGR_PS_RESET else reg_pre in
     emit (Write (offset ps) reg_pre);;
     ask code (Poll (offset ps)
       (PollBits (Z.lor APPLE_PMGR_DEV_DISABLE APPLE_PMGR_PS_RESET)
          (Z.land reg_pre (Z.lor APPLE_PMGR_DEV_DISABLE APPLE_PMGR_PS_RESET)))
       1 APPLE_PMGR_PS_SET_TIMEOUT)
   else mret ret);;
  let reg := Z.land reg (not32 (Z.lor (Z.lor (Z.lor (Z.lor APPLE_PMGR_DEV_DISABLE
               APPLE_PMGR_PS_RESET) APPLE_PMGR_AUTO_ENABLE) APPLE_PMGR_FLAGS)
               APPLE_PMGR_PS_TARGET)) in
  let reg := Z.lor reg (FIELD_PREP APPLE_PMGR_PS_TARGET pstate) in
  emit (Write (offset ps) reg);;
  ret ← (if externally_clocked ps && (pstate =? APPLE_PMGR_PS_ACTIVE) then
           ask code (Poll (offset ps) (PollActualGe APPLE_PMGR_PS_CLKGATE)
                       1 APPLE_PMGR_PS_SET_TIMEOUT)
         else
           ask code (Poll (offset ps) (PollActualEq pstate) 1 APPLE_PMGR_PS_SET_TIMEOUT));
  (if auto_enable && skip_auto_enable ps then mret tt
   else if auto_enable then
     emit (Write (offset ps) (Z.lor reg APPLE_PMGR_AUTO_ENABLE))
   else mret tt);;
  mret ret.

(** [u32 reg = 0; regmap_read(..., &reg);] the code ignored: a failed read
    leaves the zero. *)
Definition read_or_zero (off : Z) : TR event Z :=
  '(ret, reg) ← regmap_read off;
  mret (if ret =? 0 then reg else 0).

Definition apple_pmgr_ps_is_active (ps : apple_pmgr_ps) : TR event bool :=
  reg ← read_or_zero (offset ps);
  mret ((FIELD_GET APPLE_PMGR_PS_ACTUAL reg =? APPLE_PMGR_PS_ACTIVE) ||
        ((FIELD_GET APPLE_PMGR_PS_TARGET reg =? APPLE_PMGR_PS_ACTIVE) &&
         negb (Z.land reg APPLE_PMGR_AUTO_ENABLE =? 0))).

Definition apple_pmgr_ps_power_on (ps : apple_pmgr_ps) : TR event Z :=
  apple_pmgr_ps_set ps APPLE_PMGR_PS_ACTIVE true.
Definition apple_pmgr_ps_power_off (ps : apple_pmgr_ps) : TR event Z :=
  apple_pmgr_ps_set ps APPLE_PMGR_PS_PWRGATE false.

Definition apple_pmgr_reset_assert (ps : apple_pmgr_ps) : TR event Z :=
  emit Lock;;
  emit (Update (offset ps) (Z.lor APPLE_PMGR_FLAGS APPLE_PMGR_DEV_DISABLE)
          APPLE_PMGR_DEV_DISABLE);;
  emit (Update (offset ps) (Z.lor APPLE_PMGR_FLAGS APPLE_PMGR_RESET) APPLE_PMGR_RESET);;
  emit Unlock;;
  mret 0.

Definition apple_pmgr_reset_deassert (ps : apple_pmgr_ps) : TR event Z :=
  emit Lock;;
  emit (Update (offset ps) (Z.lor APPLE_PMGR_FLAGS APPLE_PMGR_RESET) 0);;
  emit (Update (offset ps) (Z.lor APPLE_PMGR_FLAGS APPLE_PMGR_DEV_DISABLE) 0);;
  emit Unlock;;
  mret 0.

Definition apple_pmgr_reset_reset (ps : apple_pmgr_ps) : TR event Z :=
  ret ← apple_pmgr_reset_assert ps;
  if negb (ret =? 0) then mret ret
  else emit (Sleep APPLE_PMGR_RESET_TIME);; apple_pmgr_reset_deassert ps.

Definition apple_pmgr_reset_status (ps : apple_pmgr_ps) : TR event Z :=
  reg ← read_or_zero (offset ps);
  mret (if Z.land reg APPLE_PMGR_RESET =? 0 then 0 else 1).

(** ** Probe *)

(** What the probe reads of the device tree and the allocator. *)
Record ps_node := PsNode {
  n_regmap : result Z unit;          (** [syscon_node_to_regmap] *)
  n_kzalloc : bool;
  n_skip_auto_enable : bool;
  n_label : result Z unit;
  n_reg : result Z Z;
  n_min_state : option Z;            (** apple,min-state *)
  n_force_disable : bool;
  n_force_reset : bool;
  n_externally_clocked : bool;
  n_preserve_active : bool;          (** of the parent node *)
  n_always_on : bool;
  n_power_domains : list Z           (** the phandles to the parent domains *)
}.

(** The loop over the parent domains: [Some ret] when one fails. *)
Fixpoint add_subdomains (parents : list Z) : TR event (option Z) :=
  match parents with
  | [] => mret None
  | p :: parents' =>
      ret ← ask code (AddSubdomain p);
      if ret <? 0 then mret (Some ret) else add_subdomains parents'
  end.

Definition err_remove (ret : Z) : TR event (Z * option apple_pmgr_ps) :=
  emit DelProvider;; emit GenpdRemove;; mret (ret, None).

(** The [apple_pmgr_ps] filled from the node, before the flags are decided. *)
Definition ps_of_node (n : ps_node) (off : Z) : apple_pmgr_ps :=
  {| skip_auto_enable := n_skip_auto_enable n; offset := off;
     min_state := default 0 (n_min_state n); force_disable := n_force_disable n;
     force_reset := n_force_reset n; externally_clocked := n_externally_clocked n;
     ps_flags := GenpdFlags true false false false |}.

Definition with_flags (ps : apple_pmgr_ps) (f : genpd_flags) : apple_pmgr_ps :=
  {| skip_auto_enable := skip_auto_enable ps; offset := offset ps; min_state := min_state ps;
     force_disable := force_disable ps; force_reset := force_reset ps;
     externally_clocked := externally_clocked ps; ps_flags := f |}.

(** From the register of the domain to its registration as a provider. *)
Definition probe_register (n : ps_node) (ps : apple_pmgr_ps) (active : bool)
    : TR event (Z * option apple_pmgr_ps) :=
  ret ← ask code (GenpdInit (negb active));
  if ret <? 0 then mret (ret, None) else
  ret ← ask code AddProvider;
  if ret <? 0 then mret (ret, None) else
  failed ← add_subdomains (n_power_domains n);
  match failed with
  | Some ret => err_remove ret
  | None =>
      emit RemoveDevice;;
      ret ← ask code RegisterReset;
      if ret <? 0 then err_remove ret else mret (0, Some ps)
  end.

Definition apple_pmgr_ps_probe (n : ps_node) : TR event (Z * option apple_pmgr_ps) :=
  match n_regmap n with
  | Err e => mret (e, None)
  | Ok _ =>
  if negb (n_kzalloc n) then mret (- ENOMEM, None) else
  match n_label n with
  | Err e => mret (e, None)
  | Ok _ =>
  match n_reg n with
  | Err e => mret (e, None)
  | Ok off =>
      let ps := ps_of_node n off in
      (match n_min_state n with
       | Some m => if m <=? APPLE_PMGR_PS_ACTIVE
                   then emit (Update off (Z.lor APPLE_PMGR_FLAGS APPLE_PMGR_PS_MIN)
                                (FIELD_PREP APPLE_PMGR_PS_MIN m))
                   else mret tt
       | None => mret tt
       end);;
      active ← apple_pmgr_ps_is_active ps;
      let keep_on := active && n_preserve_active n in
      '(active, flags) ←
        (if n_always_on n then
           let flags := GenpdFlags true true false false in
           if negb active then
             ret ← apple_pmgr_ps_power_on ps; mret (ret =? 0, flags)
           else mret (active, flags)
         else mret (active, GenpdFlags true keep_on active active));
      let ps := with_flags ps flags in
      (if active && negb (skip_auto_enable ps)
       then emit (Update off (Z.lor APPLE_PMGR_FLAGS APPLE_PMGR_AUTO_ENABLE)
                    APPLE_PMGR_AUTO_ENABLE)
       else mret tt);;
      probe_register n ps active
  end end end.
End driver.

(** ** The value written for a target state *)

(** Bits of the register the driver clears before writing a target: the target
    field, the write-to-clear flags, disable, reset and auto-enable. *)
Definition cleared_bit (i : Z) : bool :=
  ((0 <=? i) && (i <=? 3)) || (i =? 8) || (i =? 9) || (i =? 10) || (i =? 12) || (i =? 28).

Definition target_word (reg pstate : Z) : Z :=
  Z.lor (Z.land reg (not32 (Z.lor (Z.lor (Z.lor (Z.lor APPLE_PMGR_DEV_DISABLE
           APPLE_PMGR_PS_RESET) APPLE_PMGR_AUTO_ENABLE) APPLE_PMGR_FLAGS)
           APPLE_PMGR_PS_TARGET)))
        (FIELD_PREP APPLE_PMGR_PS_TARGET pstate).

Definition pre_word (ps : apple_pmgr_ps) (reg : Z) : Z :=
  let r := Z.land reg (not32 (Z.lor APPLE_PMGR_AUTO_ENABLE APPLE_PMGR_FLAGS)) in
  let r := if force_disable ps then Z.lor r APPLE_PMGR_DEV_DISABLE else r in
  if force_reset ps then Z.lor r APPLE_PMGR_PS_RESET else r.

Ltac bits_of :=
  repeat first [rewrite Z.lor_spec | rewrite Z.land_spec | rewrite testbit_not32 by lia
               | rewrite testbit_BIT by lia | rewrite testbit_GENMASK by lia
               | rewrite testbit_FIELD_PREP by lia].

Lemma target_word_bit reg pstate i :
  0 ≤ i < 32 → 0 ≤ pstate < 16 →
  Z.testbit (target_word reg pstate) i =
  if cleared_bit i then Z.testbit pstate i else Z.testbit reg i.
Proof.
  intros Hi Hp. unfold target_word, cleared_bit, APPLE_PMGR_DEV_DISABLE, APPLE_PMGR_PS_RESET,
    APPLE_PMGR_AUTO_ENABLE, APPLE_PMGR_FLAGS, APPLE_PMGR_WAS_CLKGATED,
    APPLE_PMGR_WAS_PWRGATED, APPLE_PMGR_PS_TARGET. bits_of. rewrite Z.sub_0_r.
  destruct (Z.leb_spec i 3) as [Hl|Hl].
  - destruct (Z.leb_spec 0 i); [|lia]. simpl. rewrite !orb_true_r. simpl. btauto.
  - rewrite andb_false_r, (testbit_above 4 pstate) by lia. simpl.
    destruct (i =? 10), (i =? 12), (i =? 28), (i =? 9), (i =? 8); simpl; btauto.
Qed.

Lemma pre_word_bit ps reg i :
  0 ≤ i < 32 →
  Z.testbit (pre_word ps reg) i =
  ((i =? 10) && force_disable ps) || ((i =? 12) && force_reset ps) ||
  Z.testbit reg i && negb ((i =? 28) || (i =? 9) || (i =? 8)).
Proof.
  intros Hi. unfold pre_word, APPLE_PMGR_DEV_DISABLE, APPLE_PMGR_PS_RESET,
    APPLE_PMGR_AUTO_ENABLE, APPLE_PMGR_FLAGS, APPLE_PMGR_WAS_CLKGATED, APPLE_PMGR_WAS_PWRGATED.
  destruct (force_disable ps), (force_reset ps); bits_of;
    destruct (i =? 10), (i =? 12); simpl; rewrite ?orb_true_r, ?orb_false_r; try done; btauto.
Qed.

(** ** The events of a state change *)

Definition forced (ps : apple_pmgr_ps) (pstate : Z) : bool :=
  negb (pstate =? APPLE_PMGR_PS_ACTIVE) && (force_disable ps || force_reset ps).

Definition pre_events (ps : apple_pmgr_ps) (pstate reg : Z) : list event :=
  if forced ps pstate then
    [Write (offset ps) (pre_word ps reg);
     Poll (offset ps)
       (PollBits (Z.lor APPLE_PMGR_DEV_DISABLE APPLE_PMGR_PS_RESET)
          (Z.land (pre_word ps reg) (Z.lor APPLE_PMGR_DEV_DISABLE APPLE_PMGR_PS_RESET)))
       1 APPLE_PMGR_PS_SET_TIMEOUT]
  else [].

Definition target_poll (ps : apple_pmgr_ps) (pstate : Z) : event :=
  Poll (offset ps)
    (if externally_clocked ps && (pstate =? APPLE_PMGR_PS_ACTIVE)
     then PollActualGe APPLE_PMGR_PS_CLKGATE else PollActualEq pstate)
    1 APPLE_PMGR_PS_SET_TIMEOUT.

Definition auto_events (ps : apple_pmgr_ps) (auto_enable : bool) (w : Z) : list event :=
  if auto_enable && negb (skip_auto_enable ps)
  then [Write (offset ps) (Z.lor w APPLE_PMGR_AUTO_ENABLE)] else [].

Lemma ps_set_events code value ps pstate auto_enable t :
  apple_pmgr_ps_set code value ps pstate auto_enable t =
  let reg := value t (Read (offset ps)) in
  let w := target_word reg pstate in
  let t1 := t ++ Read (offset ps) :: pre_events ps pstate reg ++ [Write (offset ps) w] in
  if code t (Read (offset ps)) <? 0
  then (code t (Read (offset ps)), t ++ [Read (offset ps)])
  else (code t1 (target_poll ps pstate),
        t1 ++ target_poll ps pstate :: auto_events ps auto_enable w).
Proof.
  unfold apple_pmgr_ps_set, regmap_read. trace_step.
  destruct (code t (Read (offset ps)) <? 0); [done|].
  unfold pre_events, forced, target_poll, auto_events, pre_word, target_word.
  destruct (negb (pstate =? APPLE_PMGR_PS_ACTIVE) && (force_disable ps || force_reset ps)),
    (externally_clocked ps && (pstate =? APPLE_PMGR_PS_ACTIVE)),
    auto_enable, (skip_auto_enable ps); trace_step; cbn [andb negb];
    trace_step; rewrite <- ?app_assoc; done.
Qed.

(** The documented meaning of [regmap_read_poll_timeout_atomic]: it returns 0
    only with a value for which the condition holds, else a negative code. *)
Definition poll_sound (code value : list event → event → Z) : Prop :=
  ∀ t off p d u, code t (Poll off p d u) < 0 ∨
    code t (Poll off p d u) = 0 ∧ poll_holds p (value t (Poll off p d u)) = true.

(** The value [cur] shows that the domain has reached [pstate]. *)
Definition reached (ps : apple_pmgr_ps) (pstate cur : Z) : Prop :=
  if externally_clocked ps && (pstate =? APPLE_PMGR_PS_ACTIVE)
  then APPLE_PMGR_PS_CLKGATE ≤ FIELD_GET APPLE_PMGR_PS_ACTUAL cur
  else FIELD_GET APPLE_PMGR_PS_ACTUAL cur = pstate.

Lemma poll_reached ps pstate cur :
  match target_poll ps pstate with Poll _ p _ _ => poll_holds p cur | _ => false end = true →
  reached ps pstate cur.
Proof.
  unfold target_poll, reached. destruct (externally_clocked ps && _); simpl; intros H;
    by boolprop.
Qed.

(** A power-state change reads the register once, quiesces a domain that asks
    for it (and only on the way down), writes one word whose target field is the
    requested state, in which the write-to-clear flags, disable, reset and
    auto-enable are zero and every other bit is as read, and waits for the state.
    Auto-enable is written after that, when asked for and supported.  It returns
    0 only when the device has shown the requested state. *)
Theorem pmgr_ps_set_spec code value ps pstate auto_enable t :
  0 ≤ pstate < 16 → 0 ≤ code t (Read (offset ps)) → poll_sound code value →
  let reg := value t (Read (offset ps)) in
  ∃ w ret, let t1 := t ++ Read (offset ps) :: pre_events ps pstate reg ++ [Write (offset ps) w] in
    apple_pmgr_ps_set code value ps pstate auto_enable t =
      (ret, t1 ++ target_poll ps pstate :: auto_events ps auto_enable w) ∧
    FIELD_GET APPLE_PMGR_PS_TARGET w = pstate ∧
    (∀ i, 4 ≤ i < 32 → Z.testbit w i = negb (cleared_bit i) && Z.testbit reg i) ∧
    (pstate = APPLE_PMGR_PS_ACTIVE → pre_events ps pstate reg = []) ∧
    (ret < 0 ∨ ret = 0 ∧ reached ps pstate (value t1 (target_poll ps pstate))).
Proof.
  intros Hp Hr Hs reg. exists (target_word reg pstate). eexists. cbv zeta.
  rewrite ps_set_events. cbv zeta.
  destruct (Z.ltb_spec (code t (Read (offset ps))) 0) as [?|_]; [lia|].
  split; [done|]. split.
  { apply Z.bits_inj'. intros i Hi. unfold APPLE_PMGR_PS_TARGET.
    rewrite testbit_FIELD_GET, Z.add_0_r by lia. destruct (Z.leb_spec i (3 - 0)); simpl.
    - rewrite target_word_bit by lia. unfold cleared_bit.
      by replace ((0 <=? i) && (i <=? 3)) with true
        by (symmetry; apply andb_true_intro; split; apply Z.leb_le; lia).
    - symmetry. apply (testbit_above 4); lia. }
  split.
  { intros i Hi. rewrite target_word_bit by lia. destruct (cleared_bit i); simpl; [|done].
    apply (testbit_above 4); lia. }
  split; [intros ->; done|].
  edestruct Hs as [H|[H1 H2]]; [left; exact H|right].
  split; [exact H1|]. apply poll_reached. exact H2.
Qed.

(** A device that reaches any state at once: reads give the value set at the
    start, polls deliver a word whose actual state is the one asked for. *)
Definition demo_code (t : list event) (e : event) : Z := 0.
Definition demo_value (t : list event) (e : event) : Z :=
  match e with
  | Poll _ (PollActualEq v) _ _ | Poll _ (PollActualGe v) _ _ => FIELD_PREP APPLE_PMGR_PS_ACTUAL (v mod 16)
  | Poll _ (PollBits m v) _ _ => v
  | _ => 0x1100032f
  end.
Definition demo_ps : apple_pmgr_ps :=
  {| skip_auto_enable := false; offset := 0x100; min_state := 0; force_disable := true;
     force_reset := false; externally_clocked := false;
     ps_flags := GenpdFlags true false false false |}.

Definition demo_code' (t : list event) (e : event) : Z :=
  match e with Poll _ p _ _ => if poll_holds p (demo_value t e) then 0 else - ETIMEDOUT | _ => 0 end.

Lemma pmgr_ps_set_spec_witness :
  (apple_pmgr_ps_set demo_code' demo_value demo_ps 0 false []).1 = 0 ∧
  let reg := demo_value [] (Read (offset demo_ps)) in
  ∃ w ret, let t1 := [] ++ Read (offset demo_ps) :: pre_events demo_ps 0 reg ++ [Write (offset demo_ps) w] in
    apple_pmgr_ps_set demo_code' demo_value demo_ps 0 false [] =
      (ret, t1 ++ target_poll demo_ps 0 :: auto_events demo_ps false w) ∧
    FIELD_GET APPLE_PMGR_PS_TARGET w = 0 ∧
    (∀ i, 4 ≤ i < 32 → Z.testbit w i = negb (cleared_bit i) && Z.testbit reg i) ∧
    (0 = APPLE_PMGR_PS_ACTIVE → pre_events demo_ps 0 reg = []) ∧
    (ret < 0 ∨ ret = 0 ∧ reached demo_ps 0 (demo_value t1 (target_poll demo_ps 0))).
Proof.
  split; [vm_compute; reflexivity|].
  refine (pmgr_ps_set_spec demo_code' demo_value demo_ps 0 false [] _ _ _).
  - lia.
  - vm_compute. discriminate.
  - intros t off p d u. unfold demo_code'.
    destruct (poll_holds p (demo_value t (Poll off p d u))) eqn:E; [right; auto|left].
    vm_compute. reflexivity.
Defined.

(** ** Reset

    The effect of the events on a register that keeps what is written to it. *)
Definition reg_step (r : Z) (e : event) : Z :=
  match e with
  | Write _ v => u32 v
  | Update _ mask val => Z.lor (Z.land r (not32 mask)) (Z.land val mask)
  | _ => r
  end.
Definition reg_after (r : Z) (evs : list event) : Z := fold_left reg_step evs r.

Definition in_reset (r : Z) : bool := Z.testbit r 31.
Definition disabled (r : Z) : bool := Z.testbit r 10.

Lemma reg_step_update_bit r off mask val i :
  0 ≤ i < 32 →
  Z.testbit (reg_step r (Update off mask val)) i =
  if Z.testbit mask i then Z.testbit val i else Z.testbit r i.
Proof. intros Hi. simpl. bits_of. destruct (Z.testbit mask i); simpl; btauto. Qed.

(** The same, one bit at a time, for events that write no whole word. *)
Definition bit_step (i : Z) (b : bool) (e : event) : bool :=
  match e with
  | Update _ mask val => if Z.testbit mask i then Z.testbit val i else b
  | _ => b
  end.

Definition no_write (e : event) : bool := match e with Write _ _ => false | _ => true end.

Lemma reg_after_bit evs r i :
  0 ≤ i < 32 → forallb no_write evs = true →
  Z.testbit (reg_after r evs) i = fold_left (bit_step i) evs (Z.testbit r i).
Proof.
  intros Hi. revert r. unfold reg_after.
  induction evs as [|e evs IH]; intros r Hw; [done|].
  cbn [forallb] in Hw. apply andb_prop in Hw as [He Hw]. cbn [fold_left]. rewrite IH by done.
  f_equal. destruct e; try done. by apply reg_step_update_bit.
Qed.

(** A reset is quiesced at every moment: from any register whose reset bit is
    clear, at each point of the assert, sleep, deassert sequence, reset is
    active only while the device is disabled; both updates of each phase happen
    under the lock; in the end reset and disable are off, the write-to-clear flags
    are zero and the other bits are what they were. *)
Theorem pmgr_reset_quiesced ps t r :
  in_reset r = false →
  ∃ evs, apple_pmgr_reset_reset ps t = (0, t ++ evs) ∧
    (∀ pre post, evs = pre ++ post →
       in_reset (reg_after r pre) = true → disabled (reg_after r pre) = true) ∧
    (∃ pre post, evs = pre ++ post ∧ in_reset (reg_after r pre) = true) ∧
    (∀ i, 0 ≤ i < 32 → Z.testbit (reg_after r evs) i =
       if (i =? 8) || (i =? 9) || (i =? 10) || (i =? 31) then false else Z.testbit r i) ∧
    ∃ u1 u2 u3 u4 us, evs = [Lock; u1; u2; Unlock; Sleep us; Lock; u3; u4; Unlock].
Proof.
  intros Hr. unfold apple_pmgr_reset_reset, apple_pmgr_reset_assert, apple_pmgr_reset_deassert.
  trace_step. cbn [Z.eqb negb]. trace_step. rewrite <- !app_assoc. cbn [app].
  unfold in_reset, disabled in *.
  eexists. split; [done|]. split; [|split; [|split]].
  - intros pre post Hpre.
    assert (forallb no_write pre = true) as Hw.
    { apply (f_equal (forallb no_write)) in Hpre. rewrite forallb_app in Hpre.
      symmetry in Hpre. by apply andb_prop in Hpre as [? _]. }
    rewrite !reg_after_bit, Hr by (lia || done). clear Hw Hr. revert Hpre.
    generalize (Z.testbit r 10) as b. intros b Hpre.
    do 10 (destruct pre as [|? pre]; [destruct b; vm_compute; congruence|first [discriminate Hpre | injection Hpre as <- Hpre]]).
  - eexists [_; _; _], _. split; [reflexivity|]. by rewrite reg_after_bit by (lia || done).
  - intros i Hi. rewrite reg_after_bit by (lia || done). cbn [fold_left bit_step].
    unfold APPLE_PMGR_FLAGS, APPLE_PMGR_DEV_DISABLE, APPLE_PMGR_RESET, APPLE_PMGR_WAS_CLKGATED,
      APPLE_PMGR_WAS_PWRGATED. bits_of. rewrite Z.bits_0.
    destruct (i =? 8), (i =? 9), (i =? 10), (i =? 31); done.
  - by repeat eexists.
Qed.

Lemma pmgr_reset_quiesced_witness :
  in_reset 0x1100030f = false ∧
  ∃ evs, apple_pmgr_reset_reset demo_ps [] = (0, [] ++ evs) ∧
    (∀ pre post, evs = pre ++ post →
       in_reset (reg_after 0x1100030f pre) = true → disabled (reg_after 0x1100030f pre) = true) ∧
    (∃ pre post, evs = pre ++ post ∧ in_reset (reg_after 0x1100030f pre) = true) ∧
    (∀ i, 0 ≤ i < 32 → Z.testbit (reg_after 0x1100030f evs) i =
       if (i =? 8) || (i =? 9) || (i =? 10) || (i =? 31) then false else Z.testbit 0x1100030f i) ∧
    ∃ u1 u2 u3 u4 us, evs = [Lock; u1; u2; Unlock; Sleep us; Lock; u3; u4; Unlock].
Proof.
  split; [reflexivity|]. refine (pmgr_reset_quiesced demo_ps [] 0x1100030f _). reflexivity.
Defined.

(** ** Resources of the probe

    What is registered after a run, from the answers the events got: the power
    domain itself and its provider. *)
Fixpoint held (code : list event → event → Z) (pre evs : list event) (g p : bool) : bool * bool :=
  match evs with
  | [] => (g, p)
  | e :: evs' =>
      let ok := negb (code pre e <? 0) in
      match e with
      | GenpdInit _ => held code (pre ++ [e]) evs' ok p
      | AddProvider => held code (pre ++ [e]) evs' g ok
      | DelProvider => held code (pre ++ [e]) evs' g false
      | GenpdRemove => held code (pre ++ [e]) evs' false p
      | _ => held code (pre ++ [e]) evs' g p
      end
  end.

(** Events that touch neither. *)
Definition neutral (e : event) : bool :=
  match e with GenpdInit _ | AddProvider | DelProvider | GenpdRemove => false | _ => true end.

Lemma held_app code evs1 evs2 pre g p :
  held code pre (evs1 ++ evs2) g p =
  let '(g', p') := held code pre evs1 g p in held code (pre ++ evs1) evs2 g' p'.
Proof.
  revert pre g p. induction evs1 as [|e evs1 IH]; intros pre g p; simpl.
  { by rewrite app_nil_r. }
  destruct e; rewrite IH, <- app_assoc; done.
Qed.

Lemma held_neutral code evs pre g p : forallb neutral evs = true → held code pre evs g p = (g, p).
Proof.
  revert pre. induction evs as [|e evs IH]; intros pre H; [done|].
  cbn [forallb] in H. apply andb_prop in H as [He H]. destruct e; try done; simpl; by apply IH.
Qed.

Lemma quiet_regmap_read code value off : quiet neutral (regmap_read code value off).
Proof. intros t. by exists [Read off]. Qed.
#[export] Hint Resolve quiet_regmap_read : quiet.

Lemma quiet_set code value ps st a : quiet neutral (apple_pmgr_ps_set code value ps st a).
Proof.
  unfold apple_pmgr_ps_set. apply quiet_bind; [auto with quiet|]. intros [ret reg].
  eauto 20 with quiet.
Qed.
Lemma quiet_is_active code value ps : quiet neutral (apple_pmgr_ps_is_active code value ps).
Proof.
  unfold apple_pmgr_ps_is_active, read_or_zero. apply quiet_bind; [|auto with quiet].
  apply quiet_bind; [auto with quiet|]. intros [? ?]. auto with quiet.
Qed.
Lemma quiet_subdomains code ps : quiet neutral (add_subdomains code ps).
Proof. induction ps; simpl; auto 10 with quiet. Qed.
#[export] Hint Resolve quiet_set quiet_is_active quiet_subdomains : quiet.

(** The codes of the registration calls when they succeed. *)
Lemma probe_register_held code n ps active t :
  let '((ret, res), t') := probe_register code n ps active t in
  ∃ evs, t' = t ++ evs ∧
  match res with
  | Some ps' => ret = 0 ∧ ps' = ps ∧ held code t evs false false = (true, true)
  | None => ret < 0 ∧ (held code t evs false false).2 = false ∧
            ((held code t evs false false).1 = true ↔
             0 ≤ code t (GenpdInit (negb active)) ∧
             code (t ++ [GenpdInit (negb active)]) AddProvider < 0)
  end.
Proof.
  unfold probe_register. set (e0 := GenpdInit (negb active)). trace_step.
  destruct (Z.ltb_spec (code t e0) 0) as [H0|H0].
  { trace_step. exists [e0]. split; [done|]. subst e0. simpl.
    destruct (Z.ltb_spec (code t (GenpdInit (negb active))) 0); [|lia]. simpl. repeat split; lia || done. }
  assert ((code t e0 <? 0) = false) as E0 by (apply Z.ltb_ge; lia). trace_step.
  destruct (Z.ltb_spec (code (t ++ [e0]) AddProvider) 0) as [H1|H1].
  { trace_step. exists [e0; AddProvider]. split; [by rewrite <- app_assoc|]. subst e0. simpl.
    rewrite E0. destruct (Z.ltb_spec (code (t ++ [GenpdInit (negb active)]) AddProvider) 0); [|lia].
    simpl. repeat split; done. }
  assert ((code (t ++ [e0]) AddProvider <? 0) = false) as E1 by (apply Z.ltb_ge; lia).
  set (t2 := (t ++ [e0]) ++ [AddProvider]). trace_step.
  assert (∀ evs, held code t (e0 :: AddProvider :: evs) false false = held code t2 evs true true) as Eh.
  { intros evs. subst e0. simpl. by rewrite E0, E1. }
  destruct (quiet_subdomains code (n_power_domains n) t2) as (evs & Hevs & Hq).
  assert ((add_subdomains code (n_power_domains n) t2).1 = None ∨
    ∃ r, (add_subdomains code (n_power_domains n) t2).1 = Some r ∧ r < 0) as Hr.
  { generalize (n_power_domains n) t2. clear. intros l.
    induction l as [|p l IH]; intros t; [by left|]. simpl. trace_step.
    destruct (Z.ltb_spec (code t (AddSubdomain p)) 0); [|apply IH].
    right. by eexists. }
  destruct (add_subdomains code (n_power_domains n) t2) as [failed t3] eqn:Hsub.
  cbn [fst snd] in *. subst t3.
  destruct Hr as [-> | (r & -> & Hr)].
  - trace_step. set (t4 := (t2 ++ evs) ++ [RemoveDevice]).
    destruct (Z.ltb_spec (code t4 RegisterReset) 0) as [H2|H2]; unfold err_remove; trace_step.
    + exists (e0 :: AddProvider :: evs ++ [RemoveDevice; RegisterReset; DelProvider; GenpdRemove]).
      split; [subst t4 t2; by rewrite <- !app_assoc|]. rewrite Eh, held_app, held_neutral by done.
      simpl. repeat split; lia || done.
    + exists (e0 :: AddProvider :: evs ++ [RemoveDevice; RegisterReset]).
      split; [subst t4 t2; by rewrite <- !app_assoc|]. rewrite Eh, held_app, held_neutral by done.
      done.
  - unfold err_remove. trace_step.
    exists (e0 :: AddProvider :: evs ++ [DelProvider; GenpdRemove]).
    split; [subst t2; by rewrite <- !app_assoc|]. rewrite Eh, held_app, held_neutral by done.
    simpl. repeat split; lia || done.
Qed.

(** The lookups of the probe that fail give negative codes. *)
Definition node_errors_negative (n : ps_node) : Prop :=
  (∀ e, n_regmap n = Err e → e < 0) ∧ (∀ e, n_label n = Err e → e < 0) ∧
  (∀ e, n_reg n = Err e → e < 0).

(** The probe leaves no provider behind when it fails: it returns 0 with the
    domain and its provider registered, or a negative code with no provider
    registered; and the flags it registers say always-on when the tree does. *)
Theorem pmgr_probe_resources code value n t :
  node_errors_negative n →
  let '((ret, res), t') := apple_pmgr_ps_probe code value n t in
  ∃ evs, t' = t ++ evs ∧
  match res with
  | Some ps => ret = 0 ∧ held code t evs false false = (true, true) ∧
      (n_always_on n = true → gf_always_on (ps_flags ps) = true) ∧ n_reg n = Ok (offset ps)
  | None => ret < 0 ∧ (held code t evs false false).2 = false
  end.
Proof.
  intros (Hm & Hlab & Hreg). unfold apple_pmgr_ps_probe.
  destruct (n_regmap n) as [[]|e] eqn:Er; [|exists []; rewrite app_nil_r; eauto].
  destruct (n_kzalloc n); [|exists []; rewrite app_nil_r; done]. cbn [negb].
  destruct (n_label n) as [[]|e] eqn:El; [|exists []; rewrite app_nil_r; eauto].
  destruct (n_reg n) as [off|e] eqn:Eo; [|exists []; rewrite app_nil_r; eauto].
  clear Hm Hlab Hreg.
  match goal with |- context [mbind (λ _ : (), ?k) ?m] => set (head := m) end.
  assert (quiet neutral head) as Hq1 by (subst head; destruct (n_min_state n); auto with quiet).
  trace_step. destruct (Hq1 t) as (e1 & -> & N1). trace_step.
  destruct (quiet_is_active code value (ps_of_node n off) (t ++ e1)) as (e2 & He2 & N2).
  destruct (apple_pmgr_ps_is_active _ _ _ _) as [act t2]. cbn [fst snd] in *. subst t2.
  match goal with |- context [fst (?m ((t ++ e1) ++ e2))] => set (mid := m) end.
  assert (quiet neutral mid) as Hq2 by (subst mid; unfold apple_pmgr_ps_power_on; auto 20 with quiet).
  assert (∀ t, n_always_on n = true → gf_always_on (mid t).1.2 = true) as Hfl.
  { intros t0 Hon. subst mid. rewrite Hon. destruct act; cbn [negb]; trace_step; done. }
  destruct (Hq2 ((t ++ e1) ++ e2)) as (e3 & He3 & N3).
  specialize (Hfl ((t ++ e1) ++ e2)).
  destruct (mid ((t ++ e1) ++ e2)) as [[active flags] t3]. cbn [fst snd] in *. subst t3.
  match goal with |- context [mbind (λ _ : (), ?k) ?m] => set (auto := m) end.
  assert (quiet neutral auto) as Hq3 by (subst auto; apply quiet_if; [by intros u; eexists|auto with quiet]).
  trace_step. destruct (Hq3 (((t ++ e1) ++ e2) ++ e3)) as (e4 & -> & N4).
  pose proof (probe_register_held code n (with_flags (ps_of_node n off) flags) active
    ((((t ++ e1) ++ e2) ++ e3) ++ e4)) as H.
  destruct (probe_register _ _ _ _ _) as [[ret res] t5]. destruct H as (evs & -> & H).
  exists ((((e1 ++ e2) ++ e3) ++ e4) ++ evs). split; [by rewrite !app_assoc|].
  rewrite (held_app _ _ evs), held_neutral by (by rewrite !forallb_app, N1, N2, N3, N4).
  rewrite !app_assoc. destruct res as [ps'|].
  - destruct H as (-> & -> & ->). auto.
  - by destruct H as (? & ? & _).
Qed.

Definition demo_node : ps_node :=
  {| n_regmap := Ok tt; n_kzalloc := true; n_skip_auto_enable := false; n_label := Ok tt;
     n_reg := Ok 0x100; n_min_state := Some 4; n_force_disable := false; n_force_reset := false;
     n_externally_clocked := false; n_preserve_active := false; n_always_on := true;
     n_power_domains := [1; 2] |}.

Lemma pmgr_probe_resources_witness :
  (apple_pmgr_ps_probe demo_code' demo_value demo_node []).1.1 = 0 ∧
  let '((ret, res), t') := apple_pmgr_ps_probe demo_code' demo_value demo_node [] in
  ∃ evs, t' = [] ++ evs ∧
  match res with
  | Some ps => ret = 0 ∧ held demo_code' [] evs false false = (true, true) ∧
      (n_always_on demo_node = true → gf_always_on (ps_flags ps) = true) ∧
      n_reg demo_node = Ok (offset ps)
  | None => ret < 0 ∧ (held demo_code' [] evs false false).2 = false
  end.
Proof.
  split; [vm_compute; reflexivity|].
  refine (pmgr_probe_resources demo_code' demo_value demo_node [] _).
  split; [|split]; intros e; discriminate.
Defined.

(** The provider registration fails, everything else succeeds. *)
Definition provider_fails (t : list event) (e : event) : Z :=
  match e with AddProvider => - ENOMEM | _ => demo_code' t e end.

(** When the registration of the provider fails, the probe returns its error
    and leaves the domain initialised: [pm_genpd_remove] is not called, although
    the structure holding the domain is freed with the device. *)
Theorem pmgr_probe_keeps_domain :
  let '((ret, res), evs) := apple_pmgr_ps_probe provider_fails demo_value demo_node [] in
  ret = - ENOMEM ∧ res = None ∧ held provider_fails [] evs false false = (true, false).
Proof. vm_compute. done. Qed.
