(* ===== verification/NvmePrp.v ===== *)
(** * NVMe data mapping (drivers/nvme/host/apple.c, PRP part)

    How a request's scatter list becomes the PRP entries of a command, and how
    they are taken down again.  CPU pointers to PRP list pages are opaque numbers;
    [bus] gives the DMA address of the page behind one, and the memory of the
    pages is keyed by DMA address, since the controller reads what the CPU writes.
    The DMA pool is an oracle that answers the n-th allocation. *)

From Stdlib Require Import ZArith Lia Bool.
From stdpp Require Import base numbers list option gmap.
From S2P Require Import Prelude.

Local Open Scope Z_scope.

Definition NVME_CTRL_PAGE_SIZE : Z := 4096.
Definition PAGE_SIZE : Z := 16384.
Definition NVME_MAX_KB_SZ : Z := 4096.
Definition NVME_MAX_SEGS : Z := 127.

(** [sizeof] a list pointer and a scatterlist element on arm64. *)
Definition sizeof_ptr : Z := 8.
Definition sizeof_scatterlist : Z := 32.

Definition apple_nvme_iod_alloc_size : Z :=
  let nprps := DIV_ROUND_UP (NVME_MAX_KB_SZ + NVME_CTRL_PAGE_SIZE) NVME_CTRL_PAGE_SIZE in
  let npages := DIV_ROUND_UP (8 * nprps) (PAGE_SIZE - 8) in
  sizeof_ptr * npages + sizeof_scatterlist * NVME_MAX_SEGS.

(** Byte offset of [list[j]] in the pool element: the pointers start behind the
    scatter list. *)
Definition apple_nvme_iod_list (nr_phys_segments j : Z) : Z :=
  sizeof_scatterlist * nr_phys_segments + sizeof_ptr * j.

Inductive blk_status := BLK_STS_OK | BLK_STS_RESOURCE | BLK_STS_IOERR.

(** What the mapping acquires and releases. *)
Inductive event :=
| AllocPrp (small : bool) (ptr dma : Z)
| FreePrp (small : bool) (ptr dma : Z)
| MapSg (nents : Z)
| UnmapSg (nents : Z)
| MapPage (dma len : Z)
| UnmapPage (dma len : Z)
| AllocSg
| FreeSg.

Record iod := Iod {
  npages : Z;
  nents : Z;
  first_dma : Z;
  dma_len : Z;
  sg : list (Z * Z)          (** (dma address, dma length) *)
}.

Record state := State {
  io : iod;
  mem : gmap (Z * nat) Z;    (** (DMA address of a list page, slot) *)
  lst : gmap Z Z;            (** the [list] pointers behind the scatter list *)
  nalloc : nat;              (** pool allocations made so far *)
  log : list event
}.

(** [dptr] of the command. *)
Record dptr := Dptr { prp1 : Z; prp2 : Z }.

(** A run that dereferences NULL, or that the fuel did not suffice for. *)
Inductive fault := NullDeref | OutOfFuel.

Definition set_io (f : iod → iod) (s : state) : state :=
  State (f (io s)) (mem s) (lst s) (nalloc s) (log s).
Definition set_npages (n : Z) (d : iod) : iod := Iod n (nents d) (first_dma d) (dma_len d) (sg d).
Definition set_nents (n : Z) (d : iod) : iod := Iod (npages d) n (first_dma d) (dma_len d) (sg d).
Definition set_first_dma (a : Z) (d : iod) : iod := Iod (npages d) (nents d) a (dma_len d) (sg d).
Definition set_dma_len (n : Z) (d : iod) : iod := Iod (npages d) (nents d) (first_dma d) n (sg d).
Definition set_sg (l : list (Z * Z)) (d : iod) : iod :=
  Iod (npages d) (nents d) (first_dma d) (dma_len d) l.
Definition logged (e : event) (s : state) : state :=
  State (io s) (mem s) (lst s) (nalloc s) (log s ++ [e]).
Definition set_list (j ptr : Z) (s : state) : state :=
  State (io s) (mem s) (<[j := ptr]> (lst s)) (nalloc s) (log s).

(** Last slot of a list page. *)
Definition last_prp : nat := 511.
Definition slots : nat := 512.

Section mapping.
Context (bus : Z → Z) (pool : nat → option Z).

Definition store (ptr : Z) (i : nat) (v : Z) (s : state) : state :=
  State (io s) (<[(bus ptr, i) := u64 v]> (mem s)) (lst s) (nalloc s) (log s).
Definition load (ptr : Z) (i : nat) (s : state) : Z := default 0 (mem s !! (bus ptr, i)).

Definition dma_pool_alloc (small : bool) (s : state) : option Z * state :=
  let r := pool (nalloc s) in
  let s := State (io s) (mem s) (lst s) (S (nalloc s)) (log s) in
  match r with
  | Some ptr => (Some ptr, logged (AllocPrp small ptr (bus ptr)) s)
  | None => (None, s)
  end.

(** [for (i = 0; i < iod->npages; i++)]; [n] counts the iterations left. *)
Fixpoint free_prps_loop (n : nat) (i dma_addr : Z) (s : state) : state :=
  match n with
  | O => s
  | S n' =>
      let prp_list := default 0 (lst s !! i) in
      let next_dma_addr := load prp_list last_prp s in
      free_prps_loop n' (i + 1) next_dma_addr (logged (FreePrp false prp_list dma_addr) s)
  end.

Definition apple_nvme_free_prps (s : state) : state :=
  free_prps_loop (Z.to_nat (npages (io s))) 0 (first_dma (io s)) s.

(** The head of the loop body: when the list page is full, chain a new one.
    [Err] is the jump to [free_prps]. *)
Definition next_slot (small : bool) (i : nat) (prp_list : Z) (s : state)
    : result state (nat * Z * state) :=
  if Nat.eqb i slots then
    let old_prp_list := prp_list in
    match dma_pool_alloc small s with
    | (None, s) => Err s
    | (Some prp_list, s) =>
        let s := set_list (npages (io s)) prp_list s in
        let s := set_io (λ d, set_npages (npages d + 1) d) s in
        let s := store prp_list 0 (load old_prp_list (i - 1) s) s in
        let s := store old_prp_list (i - 1) (bus prp_list) s in
        Ok (1%nat, prp_list, s)
    end
  else Ok (i, prp_list, s).

(** The [for (;;)] of [apple_nvme_setup_prps].  [rest] is what [sg_next]
    delivers after the current element; [length] is the payload still to be
    described.  [Ok (BLK_STS_OK, _)] is the [break]. *)
Fixpoint fill (fuel : nat) (small : bool) (rest : list (Z * Z))
    (dma_addr dma_len length : Z) (i : nat) (prp_list : Z) (s : state)
    : result fault (blk_status * state) :=
  match fuel with
  | O => Err OutOfFuel
  | S fuel' =>
      match next_slot small i prp_list s with
      | Err s => Ok (BLK_STS_RESOURCE, apple_nvme_free_prps s)
      | Ok (i, prp_list, s) =>
          let s := store prp_list i dma_addr s in
          let dma_len := dma_len - NVME_CTRL_PAGE_SIZE in
          let dma_addr := u64 (dma_addr + NVME_CTRL_PAGE_SIZE) in
          let length := length - NVME_CTRL_PAGE_SIZE in
          if length <=? 0 then Ok (BLK_STS_OK, s)
          else if dma_len >? 0
               then fill fuel' small rest dma_addr dma_len length (S i) prp_list s
          else if dma_len <? 0 then Ok (BLK_STS_IOERR, s)
          else match rest with
               | [] => Err NullDeref
               | (dma_addr, dma_len) :: rest =>
                   fill fuel' small rest dma_addr dma_len length (S i) prp_list s
               end
      end
  end.

Definition setup_done (s : state) : result fault (blk_status * dptr * state) :=
  match sg (io s) with
  | [] => Err NullDeref
  | (addr, _) :: _ => Ok (BLK_STS_OK, Dptr (u64 addr) (u64 (first_dma (io s))), s)
  end.

(** [payload] is [blk_rq_payload_bytes(req)]. *)
Definition apple_nvme_setup_prps (payload : Z) (cmnd : dptr) (s : state)
    : result fault (blk_status * dptr * state) :=
  match sg (io s) with
  | [] => Err NullDeref
  | (dma_addr, dma_len) :: rest =>
      let offset := Z.land dma_addr (NVME_CTRL_PAGE_SIZE - 1) in
      let length := payload - (NVME_CTRL_PAGE_SIZE - offset) in
      if length <=? 0 then setup_done (set_io (set_first_dma 0) s)
      else
        let dma_len := dma_len - (NVME_CTRL_PAGE_SIZE - offset) in
        match (if negb (dma_len =? 0)
               then Some (u64 (dma_addr + (NVME_CTRL_PAGE_SIZE - offset)), dma_len, rest)
               else match rest with
                    | [] => None
                    | (a, l) :: rest => Some (a, l, rest)
                    end) with
        | None => Err NullDeref
        | Some (dma_addr, dma_len, rest) =>
            if length <=? NVME_CTRL_PAGE_SIZE
            then setup_done (set_io (set_first_dma dma_addr) s)
            else
              let nprps := DIV_ROUND_UP length NVME_CTRL_PAGE_SIZE in
              let small := nprps <=? 256 / 8 in
              let s := set_io (set_npages (if small then 0 else 1)) s in
              match dma_pool_alloc small s with
              | (None, s) =>
                  Ok (BLK_STS_RESOURCE, cmnd,
                      set_io (λ d, set_npages (-1) (set_first_dma dma_addr d)) s)
              | (Some prp_list, s) =>
                  let s := set_list 0 prp_list s in
                  let s := set_io (set_first_dma (bus prp_list)) s in
                  match fill (Z.to_nat length) small rest dma_addr dma_len length 0 prp_list s with
                  | Err f => Err f
                  | Ok (BLK_STS_OK, s) => setup_done s
                  | Ok (st, s) => Ok (st, cmnd, s)
                  end
              end
        end
  end.

(** A single segment of at most two pages.  [mapped] is the outcome of
    [dma_map_bvec]. *)
Definition apple_nvme_setup_prp_simple (mapped : option Z) (bv_offset bv_len : Z)
    (cmnd : dptr) (s : state) : blk_status * dptr * state :=
  let offset := Z.land bv_offset (NVME_CTRL_PAGE_SIZE - 1) in
  let first_prp_len := NVME_CTRL_PAGE_SIZE - offset in
  match mapped with
  | None => (BLK_STS_RESOURCE, cmnd, s)
  | Some addr =>
      let s := logged (MapPage addr bv_len) s in
      let s := set_io (λ d, set_dma_len bv_len (set_first_dma addr d)) s in
      let cmnd := Dptr (u64 addr) (prp2 cmnd) in
      let cmnd := if bv_len >? first_prp_len
                  then Dptr (prp1 cmnd) (u64 (addr + first_prp_len)) else cmnd in
      (BLK_STS_OK, cmnd, s)
  end.

(** The request and the answers of the allocator and the DMA layer. *)
Record request := Request {
  nr_phys_segments : Z;
  payload_bytes : Z;
  bvec : Z * Z;                  (** offset and length of [req_bvec] *)
  map_bvec : option Z;           (** [dma_map_bvec] *)
  mempool : bool;                (** [mempool_alloc] succeeds *)
  rq_map_sg : Z;                 (** [blk_rq_map_sg] *)
  map_sg : list (Z * Z)          (** [dma_map_sg_attrs]: the mapped elements *)
}.

Definition apple_nvme_map_data (r : request) (cmnd : dptr) (s : state)
    : result fault (blk_status * dptr * state) :=
  if (nr_phys_segments r =? 1) &&
     ((bvec r).1 + (bvec r).2 <=? NVME_CTRL_PAGE_SIZE * 2)
  then Ok (apple_nvme_setup_prp_simple (map_bvec r) (bvec r).1 (bvec r).2 cmnd s)
  else
    let s := set_io (set_dma_len 0) s in
    if negb (mempool r) then Ok (BLK_STS_RESOURCE, cmnd, s)
    else
      let s := logged AllocSg s in
      let s := set_io (set_nents (rq_map_sg r)) s in
      if rq_map_sg r =? 0 then Ok (BLK_STS_RESOURCE, cmnd, logged FreeSg s)
      else match map_sg r with
           | [] => Ok (BLK_STS_RESOURCE, cmnd, logged FreeSg s)
           | sgl =>
               let s := logged (MapSg (nents (io s))) (set_io (set_sg sgl) s) in
               match apple_nvme_setup_prps (payload_bytes r) cmnd s with
               | Err f => Err f
               | Ok (BLK_STS_OK, c, s) => Ok (BLK_STS_OK, c, s)
               | Ok (st, c, s) =>
                   Ok (st, c, logged FreeSg (logged (UnmapSg (nents (io s))) s))
               end
           end.

Definition apple_nvme_unmap_data (s : state) : state :=
  if negb (dma_len (io s) =? 0)
  then logged (UnmapPage (first_dma (io s)) (dma_len (io s))) s
  else
    let s := logged (UnmapSg (nents (io s))) s in
    let s := if npages (io s) =? 0
             then logged (FreePrp true (default 0 (lst s !! 0)) (first_dma (io s))) s
             else apple_nvme_free_prps s in
    logged FreeSg s.

(** [apple_nvme_unmap_rq] *)
Definition apple_nvme_unmap_rq (r : request) (s : state) : state :=
  if nr_phys_segments r =? 0 then s else apple_nvme_unmap_data s.
End mapping.

(** ** The controller's side

    NVMe base specification: PRP1 may point into a page, every other entry must be
    page aligned; with more than two entries PRP2 is a list, and the last slot of
    a list page is a pointer to the next one when more than one entry is left. *)
Fixpoint ctrl_list (m : gmap (Z * nat) Z) (d : Z) (slot n : nat) : option (list Z) :=
  match n with
  | O => Some []
  | S n' =>
      '(d, slot) ← (if Nat.eqb slot last_prp && negb (Nat.eqb n' 0)
                    then d' ← m !! (d, last_prp); Some (d', 0%nat)
                    else Some (d, slot));
      e ← m !! (d, slot);
      es ← ctrl_list m d (S slot) n';
      Some (e :: es)
  end.

Definition ctrl_prps (m : gmap (Z * nat) Z) (len : Z) (c : dptr) : option (list Z) :=
  let rem := len - (NVME_CTRL_PAGE_SIZE - prp1 c mod NVME_CTRL_PAGE_SIZE) in
  if rem <=? 0 then Some [prp1 c]
  else if rem <=? NVME_CTRL_PAGE_SIZE then Some [prp1 c; prp2 c]
  else es ← ctrl_list m (prp2 c) 0 (Z.to_nat (DIV_ROUND_UP rem NVME_CTRL_PAGE_SIZE));
       Some (prp1 c :: es).

Definition aligned (p : Z) : bool := p mod NVME_CTRL_PAGE_SIZE =? 0.
(** From an entry to the end of its page. *)
Definition page_bytes (p : Z) : list Z := seqZ p (NVME_CTRL_PAGE_SIZE - p mod NVME_CTRL_PAGE_SIZE).

(** The addresses of the bytes the controller transfers, in order; [None] when it
    rejects the entries. *)
Definition ctrl_bytes (m : gmap (Z * nat) Z) (len : Z) (c : dptr) : option (list Z) :=
  ps ← ctrl_prps m len c;
  if forallb aligned (tail ps)
  then Some (take (Z.to_nat len) (mjoin (page_bytes <$> ps))) else None.

(** ** The scatter list *)

Definition sgl_bytes (sgl : list (Z * Z)) : list Z := mjoin ((λ al, seqZ al.1 al.2) <$> sgl).

(** Elements behind the first: page aligned, and whole pages unless the last. *)
Fixpoint tail_ok (sgl : list (Z * Z)) : Prop :=
  match sgl with
  | [] => True
  | (a, l) :: rest =>
      0 ≤ a ∧ 0 < l ∧ a + l ≤ 2 ^ 64 ∧ a mod 4096 = 0 ∧ (rest ≠ [] → l mod 4096 = 0) ∧ tail_ok rest
  end.

(** What the block layer builds with the driver's virtual boundary of one page. *)
Definition sgl_ok (sgl : list (Z * Z)) : Prop :=
  match sgl with
  | [] => False
  | (a, l) :: rest =>
      0 ≤ a ∧ 0 < l ∧ a + l ≤ 2 ^ 64 ∧ (rest ≠ [] → (a + l) mod 4096 = 0) ∧ tail_ok rest
  end.

Definition sgl_len (sgl : list (Z * Z)) : Z := foldr (λ al n, al.2 + n) 0 sgl.

(** ** Chained list pages *)

#[local] Arguments Nat.mul : simpl never.

Record chained (m : gmap (Z * nat) Z) (P es : list Z) (i : nat) : Prop := {
  ch_nodup : NoDup P;
  ch_len : length es = (511 * (length P - 1) + i)%nat;
  ch_pages : (0 < length P)%nat;
  ch_i : (i ≤ 512)%nat;
  ch_i1 : (1 < length P)%nat → (1 ≤ i)%nat;
  ch_ent j k p e : P !! j = Some p →
    ((S j < length P ∧ k < 511) ∨ (S j = length P ∧ k < i))%nat →
    es !! (511 * j + k)%nat = Some e → m !! (p, k) = Some e;
  ch_ptr j p q : P !! j = Some p → P !! S j = Some q → m !! (p, 511%nat) = Some q
}.

Lemma chained_walk m P es i : chained m P es i → (1 < length P → 2 ≤ i)%nat → ∀ n j k p,
  P !! j = Some p → (511 * j + k + n = length es)%nat → (S j < length P → k ≤ 511)%nat →
  ctrl_list m p k n = Some (drop (511 * j + k) es).
Proof.
  intros H Hi2. pose proof (ch_len _ _ _ _ H) as Hlen. pose proof (ch_i _ _ _ _ H) as Hi.
  induction n as [|n IH]; intros j k p Hp Hn Hk.
  { simpl. rewrite drop_ge by lia. done. }
  pose proof (lookup_lt_Some _ _ _ Hp) as Hj.
  simpl. unfold last_prp.
  destruct (lookup_lt_is_Some_2 es (511 * j + k)) as [e He]; [lia|].
  destruct (Nat.eqb_spec k 511) as [-> | Hk'].
  - destruct (Nat.eqb_spec n 0) as [-> | Hn0]; simpl.
    + assert (S j = length P) by lia.
      rewrite (ch_ent _ _ _ _ H j 511 p e) by (try done; lia). simpl.
      rewrite (drop_S es e) by done. rewrite drop_ge by lia. done.
    + assert (S j < length P)%nat by lia.
      destruct (lookup_lt_is_Some_2 P (S j)) as [q Hq]; [lia|].
      rewrite (ch_ptr _ _ _ _ H j p q) by done. simpl.
      rewrite (ch_ent _ _ _ _ H (S j) 0 q e); [|done| |].
      2:{ destruct (decide (S (S j) = length P)); lia. }
      2:{ rewrite <- He. f_equal. lia. }
      simpl. rewrite (IH (S j) 1%nat q) by (try done; lia).
      rewrite (drop_S es e (511 * j + 511)) by done.
      by replace (511 * S j + 1)%nat with (S (511 * j + 511)) by lia.
  - simpl. rewrite (ch_ent _ _ _ _ H j k p e) by (try done; lia). simpl.
    rewrite (IH j (S k) p) by (try done; lia).
    rewrite (drop_S es e (511 * j + k)) by done.
    by replace (511 * j + S k)%nat with (S (511 * j + k)) by lia.
Qed.

Lemma NoDup_lookup_ne {A} (l : list A) i j x y :
  NoDup l → l !! i = Some x → l !! j = Some y → i ≠ j → x ≠ y.
Proof. intros H Hi Hj Hne ->. by apply Hne, (NoDup_lookup l i j y). Qed.

Lemma chained_new m p v : chained (<[(p, 0%nat) := v]> m) [p] [v] 1.
Proof.
  split; simpl; try lia.
  - apply NoDup_singleton.
  - intros j k q e Hj Hk He. destruct j as [|j]; [|by destruct j]. injection Hj as <-.
    assert (k = 0%nat) as -> by lia. injection He as <-. by rewrite lookup_insert_eq.
  - intros j q r _ Hr. by destruct j.
Qed.

Lemma chained_put m P es i p e :
  chained m P es i → P !! (length P - 1)%nat = Some p → (i < 512)%nat →
  chained (<[(p, i) := e]> m) P (es ++ [e]) (S i).
Proof.
  intros H Hp Hi. pose proof (ch_len _ _ _ _ H). pose proof (ch_pages _ _ _ _ H).
  pose proof (ch_nodup _ _ _ _ H) as Hnd. split; try done; try lia.
  - rewrite length_app. simpl. lia.
  - intros j k q e' Hq Hk He.
    destruct (decide ((q, k) = (p, i))) as [[= -> ->]|Hne].
    + rewrite lookup_insert_eq. destruct (decide (j = (length P - 1)%nat)) as [-> | Hj].
      * rewrite lookup_app_r in He by lia.
        replace (511 * (length P - 1) + i - length es)%nat with 0%nat in He by lia.
        by injection He as <-.
      * exfalso. by eapply (NoDup_lookup_ne P j (length P - 1)).
    + rewrite lookup_insert_ne by done. pose proof (lookup_lt_Some _ _ _ Hq).
      assert (((S j < length P ∧ k < 511) ∨ (S j = length P ∧ k < i))%nat) as Hk'.
      { destruct Hk as [?|[Hjl Hki]]; [by left|right]. split; [done|].
        destruct (decide (k = i)) as [-> | ]; [|lia]. exfalso. apply Hne. f_equal.
        assert (j = (length P - 1)%nat) as -> by lia. congruence. }
      apply (ch_ent _ _ _ _ H j k q e'); try done. rewrite <- He. symmetry.
      apply lookup_app_l. lia.
  - intros j q r Hq Hr. rewrite lookup_insert_ne; [by apply (ch_ptr _ _ _ _ H j)|].
    intros [= -> ->]. pose proof (lookup_lt_Some _ _ _ Hr).
    eapply (NoDup_lookup_ne P j (length P - 1)); [done..|lia|done].
Qed.

(** A new list page: the entry of the last slot moves to it, the slot becomes the
    pointer. *)
Lemma chained_grow m P es p q :
  chained m P es 512 → P !! (length P - 1)%nat = Some p → q ∉ P →
  ∃ x, x ∈ es ∧ m !! (p, 511%nat) = Some x ∧
  chained (<[(p, 511%nat) := q]> (<[(q, 0%nat) := x]> m)) (P ++ [q]) es 1.
Proof.
  intros H Hp Hq. pose proof (ch_len _ _ _ _ H). pose proof (ch_pages _ _ _ _ H).
  pose proof (ch_nodup _ _ _ _ H) as Hnd.
  destruct (lookup_lt_is_Some_2 es (511 * (length P - 1) + 511)) as [x Hx]; [lia|].
  exists x. split; [by eapply list_elem_of_lookup_2|].
  split; [apply (ch_ent _ _ _ _ H (length P - 1)); auto with lia|].
  assert (p ≠ q) as Hpq by (intros ->; by eapply Hq, list_elem_of_lookup_2).
  split; rewrite ?length_app; simpl; try lia.
  - apply NoDup_app. split; [done|]. split; [|apply NoDup_singleton].
    intros y Hy ->%list_elem_of_singleton. done.
  - intros j k r e Hr Hk He.
    apply lookup_app_Some in Hr as [Hr|[Hj Hr]].
    + pose proof (lookup_lt_Some _ _ _ Hr). rewrite !lookup_insert_ne.
      * apply (ch_ent _ _ _ _ H j k r e); try done. lia.
      * intros [= ? ?]; subst. by eapply Hq, list_elem_of_lookup_2.
      * intros [= ? ?]; subst. lia.
    + destruct (j - length P)%nat eqn:Ej; [|done]. injection Hr as <-.
      assert (k = 0%nat) as -> by lia. rewrite lookup_insert_ne by congruence.
      rewrite lookup_insert_eq. rewrite <- Hx, <- He. f_equal. lia.
  - intros j r r' Hr Hr'. apply lookup_app_Some in Hr' as [Hr'|[Hj Hr']].
    + pose proof (lookup_lt_Some _ _ _ Hr'). rewrite lookup_app_l in Hr by lia.
      rewrite !lookup_insert_ne.
      * by apply (ch_ptr _ _ _ _ H j).
      * intros [= ? ?].
      * intros [= ?]; subst. eapply (NoDup_lookup_ne P j (length P - 1)); [done..|lia|done].
    + destruct (S j - length P)%nat eqn:Ej; [|done]. injection Hr' as <-.
      rewrite lookup_app_l in Hr by lia. assert (j = (length P - 1)%nat) as -> by lia.
      rewrite Hp in Hr. injection Hr as <-. by rewrite lookup_insert_eq.
Qed.

(** ** The loop *)

Section fill.
Context (bus : Z → Z) (pool : nat → option Z).
Hypothesis bus_u64 : ∀ p, 0 ≤ bus p < 2 ^ 64.
Hypothesis pool_fresh : ∀ j k p q,
  j ≠ k → pool j = Some p → pool k = Some q → bus p ≠ bus q.

Definition allocs (small : bool) (ptrs : list Z) : list event :=
  (λ p, AllocPrp small p (bus p)) <$> ptrs.
Definition frees (small : bool) (ptrs : list Z) : list event :=
  (λ p, FreePrp small p (bus p)) <$> ptrs.

Record pinv (small : bool) (s : state) (ptrs es : list Z) (i : nat) : Prop := {
  pi_chain : chained (mem s) (bus <$> ptrs) es i;
  pi_list j p : ptrs !! j = Some p → lst s !! Z.of_nat j = Some p;
  pi_first : bus <$> (ptrs !! 0%nat) = Some (first_dma (io s));
  pi_pool p : p ∈ ptrs → ∃ k, (k < nalloc s)%nat ∧ pool k = Some p;
  pi_u64 : Forall (λ e, 0 ≤ e < 2 ^ 64) es;
  pi_npages : npages (io s) = if small then 0 else Z.of_nat (length ptrs)
}.

Lemma put_inv small s ptrs es i p a :
  pinv small s ptrs es i → ptrs !! (length ptrs - 1)%nat = Some p → (i < 512)%nat →
  0 ≤ a < 2 ^ 64 → pinv small (store bus p i a s) ptrs (es ++ [a]) (S i).
Proof.
  intros [Hc Hl Hf Hp Hu Hn] Hlast Hi Ha. split; simpl; try done.
  2:{ apply Forall_app. split; [done|]. by apply Forall_singleton. }
  rewrite u64_small by done. apply chained_put; [done| |done].
  rewrite length_fmap, list_lookup_fmap, Hlast. done.
Qed.

Lemma pinv_alloc small s ptrs es i :
  pinv small s ptrs es i →
  pinv small (State (io s) (mem s) (lst s) (S (nalloc s)) (log s)) ptrs es i.
Proof.
  intros [Hc Hl Hf Hp Hu Hn]. split; simpl; try done.
  intros p (k & ? & ?)%Hp. exists k. split; [lia|done].
Qed.

Lemma grow_inv s ptrs es p q :
  pinv false s ptrs es 512 → ptrs !! (length ptrs - 1)%nat = Some p →
  pool (nalloc s) = Some q →
  ∃ s1, next_slot bus pool false 512 p s = Ok (1%nat, q, s1) ∧
    pinv false s1 (ptrs ++ [q]) es 1 ∧ log s1 = log s ++ allocs false [q] ∧
    sg (io s1) = sg (io s) ∧ nents (io s1) = nents (io s) ∧ dma_len (io s1) = dma_len (io s).
Proof.
  intros [Hc Hl Hf Hp Hu Hn] Hlast Hq.
  unfold next_slot, dma_pool_alloc. simpl. rewrite Hq. simpl.
  eexists. split; [reflexivity|]. simpl.
  destruct (chained_grow (mem s) (bus <$> ptrs) es (bus p) (bus q)) as (x & Hxe & Hx & Hc').
  { done. }
  { by rewrite length_fmap, list_lookup_fmap, Hlast. }
  { intros (p' & Heq & (k & Hk & Hpk)%Hp)%list_elem_of_fmap.
    apply (pool_fresh k (nalloc s) p' q); [lia|done..]. }
  assert ((0 < length ptrs)%nat) by (pose proof (ch_pages _ _ _ _ Hc) as H; by rewrite length_fmap in H).
  split; [|done]. split; simpl.
  - unfold load. simpl. rewrite Hx. simpl. rewrite fmap_app, !u64_small; [done| |done].
    rewrite Forall_forall in Hu. by apply Hu.
  - intros j r [Hj|[Hj Hr]]%lookup_app_Some.
    + rewrite lookup_insert_ne by (rewrite Hn; apply lookup_lt_Some in Hj; lia). by apply Hl.
    + destruct (j - length ptrs)%nat eqn:E; [|done]. injection Hr as <-.
      rewrite Hn. replace j with (length ptrs) by lia. by rewrite lookup_insert_eq.
  - rewrite lookup_app_l by lia. done.
  - intros r [Hr|Hr]%elem_of_app.
    + apply Hp in Hr as (k & ? & ?). exists k. split; [lia|done].
    + apply list_elem_of_singleton in Hr as ->. exists (nalloc s). split; [lia|done].
  - done.
  - rewrite length_app. simpl. lia.
Qed.

Lemma free_loop_frees small s ptrs es i : pinv small s ptrs es i → ∀ n j d s',
  (n + j = length ptrs)%nat → mem s' = mem s → lst s' = lst s →
  (∀ p, ptrs !! j = Some p → d = bus p) →
  free_prps_loop bus n (Z.of_nat j) d s' =
  State (io s') (mem s') (lst s') (nalloc s') (log s' ++ frees false (drop j ptrs)).
Proof.
  intros [Hc Hl Hf Hp Hu Hn]. induction n as [|n IH]; intros j d s' Hj Hm Hls Hd; simpl.
  { rewrite drop_ge by lia. rewrite app_nil_r. by destruct s'. }
  destruct (lookup_lt_is_Some_2 ptrs j) as [p Hpj]; [lia|].
  rewrite Hls, (Hl j p Hpj). simpl. rewrite (Hd p Hpj).
  replace (Z.of_nat j + 1) with (Z.of_nat (S j)) by lia.
  rewrite IH; simpl; try done; [|lia|].
  - rewrite (drop_S ptrs p j) by done. simpl. by rewrite <- app_assoc, Hls.
  - intros q Hq. unfold load, last_prp. rewrite Hm.
    rewrite (ch_ptr _ _ _ _ Hc j (bus p) (bus q)); [done| |];
      by rewrite list_lookup_fmap, ?Hpj, ?Hq.
Qed.

Lemma free_prps_frees s ptrs es i :
  pinv false s ptrs es i →
  apple_nvme_free_prps bus s =
  State (io s) (mem s) (lst s) (nalloc s) (log s ++ frees false ptrs).
Proof.
  intros H. unfold apple_nvme_free_prps. rewrite (pi_npages _ _ _ _ _ H), Nat2Z.id.
  rewrite (free_loop_frees _ _ _ _ _ H (length ptrs) 0); try done; try lia.
  intros p Hp. pose proof (pi_first _ _ _ _ _ H) as Hf. rewrite Hp in Hf. by injection Hf.
Qed.

(** *** Bytes *)

Definition entry_bytes (es : list Z) : list Z := mjoin (page_bytes <$> es).

Lemma page_bytes_aligned a : a mod 4096 = 0 → page_bytes a = seqZ a 4096.
Proof. intros H. unfold page_bytes, NVME_CTRL_PAGE_SIZE. by rewrite H. Qed.

Lemma sgl_bytes_cons a l rest : sgl_bytes ((a, l) :: rest) = seqZ a l ++ sgl_bytes rest.
Proof. done. Qed.

Lemma sgl_len_nonneg rest : tail_ok rest → 0 ≤ sgl_len rest ∧ (rest ≠ [] → 0 < sgl_len rest).
Proof.
  induction rest as [|[a l] rest IH]; simpl; [done|].
  intros (? & ? & ? & ? & ? & [? ?]%IH). unfold sgl_len in *. simpl. split; lia.
Qed.

Lemma seqZ_split a n k : 0 ≤ k ≤ n → seqZ a n = seqZ a k ++ seqZ (a + k) (n - k).
Proof. intros. replace n with (k + (n - k)) at 1 by lia. apply seqZ_app; lia. Qed.

(** What is left of a well-formed list once a page has been described. *)
Definition advance (a l : Z) (rest : list (Z * Z)) : list (Z * Z) :=
  if l - 4096 =? 0 then rest else (a + 4096, l - 4096) :: rest.

Lemma advance_ok a l rest :
  tail_ok ((a, l) :: rest) → 4096 < sgl_len ((a, l) :: rest) →
  4096 ≤ l ∧ tail_ok (advance a l rest) ∧ advance a l rest ≠ [] ∧
  sgl_len (advance a l rest) = sgl_len ((a, l) :: rest) - 4096 ∧
  sgl_bytes ((a, l) :: rest) = seqZ a 4096 ++ sgl_bytes (advance a l rest).
Proof.
  intros (Ha & Hl & Hal & Hmod & Hlm & Hr) Hlen. unfold sgl_len in Hlen. simpl in Hlen.
  fold (sgl_len rest) in Hlen.
  assert (4096 ≤ l) as Hle.
  { destruct (decide (rest = [])) as [-> | Hne]; [unfold sgl_len in Hlen; simpl in Hlen; lia|].
    specialize (Hlm Hne). Z.to_euclidean_division_equations. lia. }
  unfold advance. destruct (Z.eqb_spec (l - 4096) 0) as [Hz|Hz].
  - assert (l = 4096) as -> by lia. split; [lia|]. split; [done|].
    split; [intros ->; unfold sgl_len in Hlen; simpl in Hlen; lia|].
    split; [unfold sgl_len; simpl; fold (sgl_len rest); lia|]. done.
  - split; [lia|]. split.
    { simpl. repeat split; try lia; try done.
      - Z.to_euclidean_division_equations. lia.
      - intros ?%Hlm. Z.to_euclidean_division_equations. lia. }
    split; [done|]. split; [unfold sgl_len; simpl; fold (sgl_len rest); lia|].
    rewrite !sgl_bytes_cons, app_assoc. f_equal. apply seqZ_split. lia.
Qed.

(** The last page: the entry covers all that is left. *)
Lemma last_page a l rest :
  tail_ok ((a, l) :: rest) → sgl_len ((a, l) :: rest) ≤ 4096 →
  rest = [] ∧ take (Z.to_nat l) (seqZ a 4096) = seqZ a l ∧ sgl_len ((a, l) :: rest) = l.
Proof.
  intros (Ha & Hl & Hal & Hmod & Hlm & Hr) Hlen. unfold sgl_len in *. simpl in *.
  assert (rest = []) as ->.
  { destruct (decide (rest = [])) as [|Hne]; [done|].
    destruct (sgl_len_nonneg rest Hr) as [_ H]. specialize (H Hne). specialize (Hlm Hne).
    unfold sgl_len in H. Z.to_euclidean_division_equations. lia. }
  simpl in *. split; [done|]. split; [|lia].
  rewrite (seqZ_split a 4096 l) by lia. apply take_app_length'. rewrite length_seqZ. done.
Qed.

(** *** One iteration *)

Definition same_io (s s' : state) : Prop :=
  sg (io s') = sg (io s) ∧ nents (io s') = nents (io s) ∧ dma_len (io s') = dma_len (io s).

Lemma same_io_trans s1 s2 s3 : same_io s1 s2 → same_io s2 s3 → same_io s1 s3.
Proof. unfold same_io. intros (? & ? & ?) (? & ? & ?). repeat split; congruence. Qed.

Lemma next_slot_spec small s ptrs es i p :
  pinv small s ptrs es i → ptrs !! (length ptrs - 1)%nat = Some p → (small = true → i < 512)%nat →
  (∃ i1 p1 s1 new, next_slot bus pool small i p s = Ok (i1, p1, s1) ∧ (i1 < 512)%nat ∧
     (small = true → new = [] ∧ i1 = i) ∧ pinv small s1 (ptrs ++ new) es i1 ∧
     (ptrs ++ new) !! (length (ptrs ++ new) - 1)%nat = Some p1 ∧
     log s1 = log s ++ allocs small new ∧ same_io s s1) ∨
  (∃ s1, next_slot bus pool small i p s = Err s1 ∧ small = false ∧ (∃ k, pool k = None) ∧
     log (apple_nvme_free_prps bus s1) = log s ++ frees false ptrs ∧
     same_io s (apple_nvme_free_prps bus s1)).
Proof.
  intros H Hp Hsm. pose proof (ch_i _ _ _ _ (pi_chain _ _ _ _ _ H)) as Hi.
  destruct (Nat.eqb_spec i 512) as [-> | Hne].
  - destruct small; [specialize (Hsm eq_refl); lia|].
    destruct (pool (nalloc s)) as [q|] eqn:Hq.
    + left. destruct (grow_inv s ptrs es p q H Hp Hq) as (s1 & Hs1 & Hinv & Hlog & Hsame).
      exists 1%nat, q, s1, [q]. split; [done|]. split; [lia|]. split; [done|]. split; [done|]. split; [|done].
      rewrite length_app, lookup_app_r by (simpl; lia).
      by replace (length ptrs + length [q] - 1 - length ptrs)%nat with 0%nat by (simpl; lia).
    + right. eexists. unfold next_slot, dma_pool_alloc. rewrite Hq. simpl.
      split; [reflexivity|]. split; [done|]. split; [by eexists|].
      rewrite (free_prps_frees _ ptrs es 512) by by apply pinv_alloc.
      done.
  - left. exists i, p, s, []. unfold next_slot, slots. apply Nat.eqb_neq in Hne. rewrite Hne.
    rewrite app_nil_r. unfold allocs. simpl. rewrite app_nil_r. apply Nat.eqb_neq in Hne.
    split; [done|]. split; [lia|]. done.
Qed.

Definition nprps (len : Z) : nat := Z.to_nat (DIV_ROUND_UP len 4096).

Lemma nprps_last len : 0 < len ≤ 4096 → nprps len = 1%nat.
Proof.
  intros. unfold nprps, DIV_ROUND_UP.
  by replace ((len + 4096 - 1) / 4096) with 1 by (Z.to_euclidean_division_equations; lia).
Qed.
Lemma nprps_step len : 4096 < len → nprps len = S (nprps (len - 4096)).
Proof.
  intros. unfold nprps, DIV_ROUND_UP. rewrite <- Z2Nat.inj_succ by (apply Z.div_pos; lia).
  f_equal. Z.to_euclidean_division_equations; lia.
Qed.

Lemma entry_bytes_take a es len :
  a mod 4096 = 0 → 4096 ≤ len →
  take (Z.to_nat len) (entry_bytes (a :: es)) =
  seqZ a 4096 ++ take (Z.to_nat (len - 4096)) (entry_bytes es).
Proof.
  intros Ha Hl. unfold entry_bytes. rewrite fmap_cons. cbn [mjoin list_join].
  rewrite page_bytes_aligned, take_app, length_seqZ by done.
  rewrite take_ge by (rewrite length_seqZ; lia). do 2 f_equal. lia.
Qed.

(** The outcome of the loop on a well-formed list. *)
Definition fill_post (small : bool) (s : state) (ptrs es : list Z) (sgl : list (Z * Z)) (len : Z)
    (r : result fault (blk_status * state)) : Prop :=
  ∃ new s', same_io s s' ∧
    ((r = Ok (BLK_STS_OK, s') ∧ log s' = log s ++ allocs small new ∧
      ∃ es' i', pinv small s' (ptrs ++ new) (es ++ es') i' ∧
        (1 < length (ptrs ++ new) → 2 ≤ i')%nat ∧ Forall (λ e, e mod 4096 = 0) es' ∧
        length es' = nprps len ∧ take (Z.to_nat len) (entry_bytes es') = sgl_bytes sgl ∧
        (small = true → new = [])) ∨
     (r = Ok (BLK_STS_RESOURCE, s') ∧ small = false ∧ (∃ k, pool k = None) ∧
      log s' = log s ++ allocs false new ++ frees false (ptrs ++ new))).

Lemma fill_post_step small s ptrs es new1 s2 a sgl sgl' len r :
  a mod 4096 = 0 → 4096 < len → same_io s s2 → log s2 = log s ++ allocs small new1 →
  (small = true → new1 = []) → sgl_bytes sgl = seqZ a 4096 ++ sgl_bytes sgl' →
  fill_post small s2 (ptrs ++ new1) (es ++ [a]) sgl' (len - 4096) r →
  fill_post small s ptrs es sgl len r.
Proof.
  intros Ha Hlen Hs2 Hlog Hsm Hb (new & s' & Hs' & H).
  exists (new1 ++ new), s'. split; [by eapply same_io_trans|].
  destruct H as [(-> & Hl & es' & i' & Hinv & Hi' & Hal & Hln & Htk & Hnew)|(-> & -> & Hk & Hl)].
  - left. split; [done|]. split.
    { rewrite Hl, Hlog, <- app_assoc. unfold allocs. by rewrite fmap_app. }
    exists (a :: es'), i'. rewrite <- !app_assoc in Hinv. rewrite <- app_assoc in Hi'.
    split; [done|]. split; [done|]. split; [by constructor|].
    split; [simpl; by rewrite Hln, (nprps_step len)|]. split.
    + rewrite entry_bytes_take, Htk by (done || lia). done.
    + intros E. by rewrite Hsm, Hnew.
  - right. split; [done|]. split; [done|]. split; [done|]. rewrite Hl, Hlog, <- !app_assoc.
    unfold allocs, frees. by rewrite !fmap_app, <- !app_assoc.
Qed.

Lemma fill_spec small : ∀ fuel rest a l i p s ptrs es,
  tail_ok ((a, l) :: rest) → sgl_len ((a, l) :: rest) ≤ 4096 * Z.of_nat fuel →
  pinv small s ptrs es i → ptrs !! (length ptrs - 1)%nat = Some p →
  (small = true → i + nprps (sgl_len ((a, l) :: rest)) ≤ 32)%nat →
  fill_post small s ptrs es ((a, l) :: rest) (sgl_len ((a, l) :: rest))
    (fill bus pool fuel small rest a l (sgl_len ((a, l) :: rest)) i p s).
Proof.
  induction fuel as [|fuel IH]; intros rest a l i p s ptrs es Hok Hfuel Hinv Hp Hsm;
    set (len := sgl_len ((a, l) :: rest)) in *.
  { destruct (sgl_len_nonneg _ Hok) as [_ H]. specialize (H ltac:(done)). lia. }
  assert (0 < len) as Hpos by (by apply (sgl_len_nonneg _ Hok)).
  destruct (next_slot_spec small s ptrs es i p Hinv Hp) as
    [(i1 & p1 & s1 & new & Hns & Hi1 & Hnew & Hinv1 & Hp1 & Hlog1 & Hs1)|(s1 & Hns & -> & Hk & Hlog & Hs1)].
  { intros E. specialize (Hsm E). lia. }
  2:{ cbn [fill]. rewrite Hns. eexists [], _. split; [exact Hs1|]. right.
      split; [done|]. split; [done|]. split; [done|]. by rewrite app_nil_r. }
  pose proof Hok as (Ha & Hl & Hal & Hmod & _ & _).
  assert (0 ≤ a < 2 ^ 64) as Ha64 by lia.
  pose proof (put_inv small s1 _ es i1 p1 a Hinv1 Hp1 Hi1 Ha64) as Hinv2.
  set (s2 := store bus p1 i1 a s1) in *.
  assert (same_io s s2) as Hs2 by exact Hs1. assert (log s2 = log s1) as Hlog2 by done.
  cbn [fill]. rewrite Hns. cbv zeta. fold s2. unfold NVME_CTRL_PAGE_SIZE.
  destruct (Z.leb_spec (len - 4096) 0) as [Hle|Hgt].
  - destruct (last_page a l rest Hok ltac:(fold len; lia)) as (-> & Htk & Hll). fold len in Hll.
    exists new, s2. split; [done|]. left. split; [done|]. split; [by rewrite Hlog2|].
    exists [a], (S i1). split; [done|]. split.
    { intros Hlen. pose proof (ch_i1 _ _ _ _ (pi_chain _ _ _ _ _ Hinv1)) as H.
      rewrite length_fmap in H. specialize (H Hlen). lia. }
    split; [by constructor|]. split; [by rewrite nprps_last by lia|].
    split; [|intros E; by apply Hnew].
    unfold entry_bytes. simpl. rewrite page_bytes_aligned, !app_nil_r, Hll, Htk by done.
    by rewrite sgl_bytes_cons, app_nil_r.
  - destruct (advance_ok a l rest Hok ltac:(fold len; lia)) as (Hl4 & Hok' & Hne & Hlen' & Hb).
    fold len in Hlen'.
    assert (∀ a' l' rest', advance a l rest = (a', l') :: rest' →
      fill_post small s ptrs es ((a, l) :: rest) len
        (fill bus pool fuel small rest' a' l' (len - 4096) (S i1) p1 s2)) as Hstep.
    { intros a' l' rest' E. apply (fill_post_step _ _ _ _ new s2 a _ (advance a l rest));
        try done; [lia|intros E'; by apply Hnew|].
      rewrite <- Hlen', E. rewrite E in Hok', Hlen'. apply IH; try done; [lia|].
      intros Esm. destruct (Hnew Esm) as [_ ->]. specialize (Hsm Esm).
      rewrite Hlen'. rewrite nprps_step in Hsm by lia. lia. }
    rewrite Z.gtb_ltb. destruct (Z.ltb_spec 0 (l - 4096)) as [Hl0|Hl0].
    + rewrite u64_small by lia. apply Hstep. unfold advance.
      by destruct (Z.eqb_spec (l - 4096) 0); [lia|].
    + destruct (Z.ltb_spec (l - 4096) 0); [lia|].
      assert (advance a l rest = rest) as E.
      { unfold advance. by destruct (Z.eqb_spec (l - 4096) 0); [|lia]. }
      rewrite E in Hne. destruct rest as [|[a' l'] rest']; [done|]. by apply Hstep.
Qed.

(** *** The whole set-up *)

Definition first_len (a : Z) : Z := 4096 - a mod 4096.

Definition advance1 (a l : Z) (rest : list (Z * Z)) : list (Z * Z) :=
  if l - first_len a =? 0 then rest else (a + first_len a, l - first_len a) :: rest.

Lemma advance1_ok a l rest :
  sgl_ok ((a, l) :: rest) → first_len a < sgl_len ((a, l) :: rest) →
  first_len a ≤ l ∧ tail_ok (advance1 a l rest) ∧ advance1 a l rest ≠ [] ∧
  sgl_len (advance1 a l rest) = sgl_len ((a, l) :: rest) - first_len a ∧
  sgl_bytes ((a, l) :: rest) = seqZ a (first_len a) ++ sgl_bytes (advance1 a l rest).
Proof.
  intros (Ha & Hl & Hal & Hlm & Hr) Hlen. unfold sgl_len in *. cbn [foldr snd] in *.
  fold (sgl_len rest) in *.
  assert (0 < first_len a ≤ 4096) as Hf.
  { unfold first_len. pose proof (Z.mod_pos_bound a 4096). lia. }
  assert (first_len a ≤ l) as Hle.
  { destruct (decide (rest = [])) as [-> | Hne]; [unfold sgl_len in Hlen; simpl in Hlen; lia|].
    specialize (Hlm Hne). unfold first_len. Z.to_euclidean_division_equations. lia. }
  split; [done|]. unfold advance1. destruct (Z.eqb_spec (l - first_len a) 0) as [Hz|Hz].
  - split; [done|]. split; [intros ->; unfold sgl_len in Hlen; simpl in Hlen; lia|].
    split; [unfold sgl_len; lia|]. rewrite sgl_bytes_cons. by replace l with (first_len a) by lia.
  - split.
    { simpl. repeat split; try lia; try done.
      - unfold first_len. Z.to_euclidean_division_equations. lia.
      - intros ?%Hlm. unfold first_len in *. Z.to_euclidean_division_equations. lia. }
    split; [done|]. split; [cbn [foldr snd]; fold (sgl_len rest); lia|].
    rewrite !sgl_bytes_cons, app_assoc. f_equal. apply seqZ_split. lia.
Qed.

Lemma first_page_only a l rest :
  sgl_ok ((a, l) :: rest) → sgl_len ((a, l) :: rest) ≤ first_len a →
  rest = [] ∧ sgl_len ((a, l) :: rest) = l ∧ take (Z.to_nat l) (page_bytes a) = seqZ a l.
Proof.
  intros (Ha & Hl & Hal & Hlm & Hr) Hlen. unfold sgl_len in *. cbn [foldr snd] in *.
  assert (rest = []) as ->.
  { destruct (decide (rest = [])) as [|Hne]; [done|].
    destruct (sgl_len_nonneg rest Hr) as [_ H]. specialize (H Hne). specialize (Hlm Hne).
    unfold sgl_len, first_len in *. Z.to_euclidean_division_equations. lia. }
  simpl in *. split; [done|]. split; [lia|]. unfold page_bytes, NVME_CTRL_PAGE_SIZE.
  fold (first_len a). rewrite (seqZ_split a (first_len a) l) by lia.
  apply take_app_length'. by rewrite length_seqZ.
Qed.

Lemma aligned_true a : a mod 4096 = 0 → aligned a = true.
Proof. intros. by apply Z.eqb_eq. Qed.

Lemma forallb_aligned es : Forall (λ e, e mod 4096 = 0) es → forallb aligned es = true.
Proof. induction 1; simpl; [done|]. by rewrite aligned_true. Qed.

Lemma ctrl_bytes_first m a p2 l :
  0 < l ≤ first_len a → take (Z.to_nat l) (page_bytes a) = seqZ a l →
  ctrl_bytes m l (Dptr a p2) = Some (seqZ a l).
Proof.
  intros Hl Ht. unfold ctrl_bytes, ctrl_prps, NVME_CTRL_PAGE_SIZE. cbn [prp1 prp2].
  fold (first_len a). destruct (Z.leb_spec (l - first_len a) 0); [|lia].
  simpl. by rewrite app_nil_r, Ht.
Qed.

(** Entries behind PRP1 that describe the rest of the bytes. *)
Lemma ctrl_bytes_more m a p2 len es B :
  first_len a < len →
  (if len - first_len a <=? 4096 then es = [p2]
   else ctrl_list m p2 0 (nprps (len - first_len a)) = Some es) →
  Forall (λ e, e mod 4096 = 0) es →
  take (Z.to_nat (len - first_len a)) (entry_bytes es) = B →
  ctrl_bytes m len (Dptr a p2) = Some (seqZ a (first_len a) ++ B).
Proof.
  intros Hlen Hes Hal HB.
  assert (0 < first_len a) by (unfold first_len; pose proof (Z.mod_pos_bound a 4096); lia).
  assert (ctrl_prps m len (Dptr a p2) = Some (a :: es)) as E.
  { unfold ctrl_prps, NVME_CTRL_PAGE_SIZE. cbn [prp1 prp2]. fold (first_len a).
    destruct (Z.leb_spec (len - first_len a) 0); [lia|].
    destruct (len - first_len a <=? 4096); [by rewrite Hes|].
    unfold nprps in Hes. by rewrite Hes. }
  unfold ctrl_bytes. rewrite E. cbn [mbind option_bind tail]. rewrite forallb_aligned by done.
  f_equal. rewrite fmap_cons. cbn [mjoin list_join]. fold (entry_bytes es).
  rewrite take_app. unfold page_bytes at 2, NVME_CTRL_PAGE_SIZE. fold (first_len a).
  rewrite length_seqZ, <- HB. f_equal.
  - unfold page_bytes, NVME_CTRL_PAGE_SIZE. fold (first_len a).
    apply take_ge. rewrite length_seqZ. lia.
  - f_equal. lia.
Qed.

(** Taking down a mapped scatter list gives back exactly what it holds. *)
Definition releases (small : bool) (ptrs : list Z) (s : state) : Prop :=
  dma_len (io s) = 0 →
  log (apple_nvme_unmap_data bus s) =
  log s ++ UnmapSg (nents (io s)) :: frees small ptrs ++ [FreeSg].

Lemma releases_none s : npages (io s) = -1 → releases false [] s.
Proof.
  intros Hn Hd. unfold apple_nvme_unmap_data. rewrite Hd. simpl. rewrite Hn. simpl.
  unfold apple_nvme_free_prps. simpl. rewrite Hn. simpl. by rewrite <- app_assoc.
Qed.

Lemma pinv_logged e small s ptrs es i : pinv small s ptrs es i → pinv small (logged e s) ptrs es i.
Proof. by intros [Hc Hl Hf Hp Hu Hn]. Qed.

Lemma releases_pages small s ptrs es i :
  pinv small s ptrs es i → (small = true → length ptrs = 1%nat) → releases small ptrs s.
Proof.
  intros H Hone Hd. pose proof (pi_npages _ _ _ _ _ H) as Hn.
  unfold apple_nvme_unmap_data. rewrite Hd. cbn [Z.eqb negb].
  pose proof (pinv_logged (UnmapSg (nents (io s))) _ _ _ _ _ H) as H'.
  set (s1 := logged (UnmapSg (nents (io s))) s) in *.
  assert (npages (io s1) = npages (io s)) as -> by done. destruct small.
  - rewrite Hn. cbn [Z.eqb]. specialize (Hone eq_refl).
    destruct ptrs as [|p [|]]; try done. pose proof (pi_list _ _ _ _ _ H 0 p eq_refl) as Hl.
    pose proof (pi_first _ _ _ _ _ H) as Hf. simpl in Hf. injection Hf as Hf.
    simpl in *. change (Z.of_nat 0) with 0 in Hl. rewrite Hl, <- Hf, <- !app_assoc. done.
  - pose proof (ch_pages _ _ _ _ (pi_chain _ _ _ _ _ H)) as Hlen. rewrite length_fmap in Hlen.
    rewrite Hn. destruct (Z.eqb_spec (Z.of_nat (length ptrs)) 0); [lia|].
    rewrite (free_prps_frees _ _ _ _ H'). simpl. rewrite <- !app_assoc. done.
Qed.

Definition setup_post (payload : Z) (cmnd : dptr) (s : state)
    (r : result fault (blk_status * dptr * state)) : Prop :=
  ∃ small ptrs s', same_io s s' ∧
    ((∃ c, r = Ok (BLK_STS_OK, c, s') ∧
        ctrl_bytes (mem s') payload c = Some (sgl_bytes (sg (io s))) ∧
        log s' = log s ++ allocs small ptrs ∧ releases small ptrs s' ∧
        (payload ≤ 1024 * NVME_MAX_KB_SZ → npages (io s') ≤ 3)) ∨
     (r = Ok (BLK_STS_RESOURCE, cmnd, s') ∧ (∃ k, pool k = None) ∧
        log s' = log s ++ allocs small ptrs ++ frees small ptrs)).

Lemma land_4095 a : 0 ≤ a → Z.land a (NVME_CTRL_PAGE_SIZE - 1) = a mod 4096.
Proof.
  intros. change (NVME_CTRL_PAGE_SIZE - 1) with (Z.ones 12). apply Z.land_ones. lia.
Qed.

(** The state in which the loop starts. *)
Lemma start_inv small s p s1 :
  dma_pool_alloc bus pool small (set_io (set_npages (if small then 0 else 1)) s) = (Some p, s1) →
  let s2 := set_io (set_first_dma (bus p)) (set_list 0 p s1) in
  pinv small s2 [p] [] 0 ∧ log s2 = log s ++ allocs small [p] ∧ same_io s s2.
Proof.
  unfold dma_pool_alloc. simpl. destruct (pool (nalloc s)) as [q|] eqn:Hq; [|done].
  intros [= -> <-]. simpl. split; [|done]. split; simpl.
  - split; simpl; try lia; try done.
    apply NoDup_singleton.
  - intros [|j] q; [intros [= <-]; by rewrite lookup_insert_eq|done].
  - done.
  - intros q ->%list_elem_of_singleton. eauto.
  - constructor.
  - by destruct small.
Qed.

Lemma setup_done_eq s a l rest :
  sg (io s) = (a, l) :: rest →
  setup_done s = Ok (BLK_STS_OK, Dptr (u64 a) (u64 (first_dma (io s))), s).
Proof. intros H. unfold setup_done. by rewrite H. Qed.

(** The part of the set-up that needs a PRP list. *)
Lemma setup_list_spec cmnd s a l rest a' l' rest' p s1 small :
  let len := sgl_len ((a, l) :: rest) in
  sg (io s) = (a, l) :: rest → sgl_ok ((a, l) :: rest) → 4096 < len - first_len a →
  advance1 a l rest = (a', l') :: rest' → first_len a < len →
  small = (DIV_ROUND_UP (len - first_len a) 4096 <=? 32) →
  dma_pool_alloc bus pool small (set_io (set_npages (if small then 0 else 1)) s) = (Some p, s1) →
  setup_post len cmnd s
    (match fill bus pool (Z.to_nat (len - first_len a)) small rest' a' l' (len - first_len a) 0 p
             (set_io (set_first_dma (bus p)) (set_list 0 p s1)) with
     | Err f => Err f
     | Ok (BLK_STS_OK, s) => setup_done s
     | Ok (st, s) => Ok (st, cmnd, s)
     end).
Proof.
  intros len Hsg Hok Hbig Hadv Hfirst Hsmall Hal.
  pose proof Hok as (Ha & Hl & Hal64 & _).
  destruct (start_inv small s p s1 Hal) as (Hinv & Hlog & Hsame).
  set (s2 := set_io (set_first_dma (bus p)) (set_list 0 p s1)) in *.
  destruct (advance1_ok a l rest Hok Hfirst) as (_ & Hok' & _ & Hlen' & Hb).
  rewrite Hadv in Hok', Hlen', Hb. fold len in Hlen'.
  pose proof (fill_spec small (Z.to_nat (len - first_len a)) rest' a' l' 0 p s2 [p] [] Hok') as H.
  rewrite Hlen' in H. destruct H as (new & s' & Hs' & H); [lia|done|done| |].
  { intros Hs. rewrite Hs in Hsmall. unfold nprps. boolprop.
    symmetry in Hsmall. apply Z.leb_le in Hsmall. lia. }
  exists small, (p :: new), s'. split; [by eapply same_io_trans|].
  destruct H as [(-> & Hl' & es & i' & Hinv' & Hi' & Hale & Hln & Htk & Hnew)|(-> & -> & Hk & Hl')].
  - left. rewrite (setup_done_eq s' a l rest) by (destruct Hs' as [-> _]; by destruct Hsame as [-> _]).
    eexists. split; [done|].
    pose proof (pi_first _ _ _ _ _ Hinv') as Hf. cbn in Hf. injection Hf as Hf.
    rewrite <- Hf, !u64_small by (done || lia). split; [|split; [|split]].
    + rewrite Hsg, Hb. eapply ctrl_bytes_more; try done.
      destruct (Z.leb_spec (len - first_len a) 4096); [lia|].
      rewrite <- Hln. rewrite (chained_walk _ _ _ _ (pi_chain _ _ _ _ _ Hinv') ltac:(by rewrite length_fmap)
        (length es) 0 0 (bus p)); [done|done|done|lia].
    + rewrite Hl', Hlog, <- app_assoc. done.
    + eapply releases_pages; [done|]. intros Hs. by rewrite (Hnew Hs).
    + unfold NVME_MAX_KB_SZ. intros Hmax. rewrite (pi_npages _ _ _ _ _ Hinv').
      destruct small; [lia|]. pose proof (ch_len _ _ _ _ (pi_chain _ _ _ _ _ Hinv')) as Hcl.
      rewrite length_fmap in Hcl. cbn [app] in *. rewrite Hln in Hcl. unfold nprps, DIV_ROUND_UP in Hcl.
      assert (0 < first_len a) by (unfold first_len; pose proof (Z.mod_pos_bound a 4096); lia).
      assert ((len - first_len a + 4096 - 1) / 4096 ≤ 1024)
        by (Z.to_euclidean_division_equations; lia).
      assert (length (p :: new) = S (length new)) as El by done. lia.
  - right. split; [done|]. split; [done|]. rewrite Hl', Hlog, <- !app_assoc. done.
Qed.

Lemma setup_spec cmnd s :
  sgl_ok (sg (io s)) → npages (io s) = -1 →
  setup_post (sgl_len (sg (io s))) cmnd s
    (apple_nvme_setup_prps bus pool (sgl_len (sg (io s))) cmnd s).
Proof.
  intros Hok Hn. unfold apple_nvme_setup_prps.
  destruct (sg (io s)) as [|[a l] rest] eqn:Hsg; [done|].
  pose proof Hok as (Ha & Hl & Hal & _). set (len := sgl_len ((a, l) :: rest)).
  rewrite land_4095 by done. unfold NVME_CTRL_PAGE_SIZE. cbv zeta. fold (first_len a).
  destruct (Z.leb_spec (len - first_len a) 0) as [Hle|Hgt].
  - destruct (first_page_only a l rest Hok ltac:(fold len; lia)) as (-> & Hll & Ht). fold len in Hll.
    eexists false, [], _. split; [|left].
    2:{ erewrite setup_done_eq by done. eexists. split; [done|]. rewrite !u64_small by (simpl; lia).
        rewrite Hsg. split; [|split; [by rewrite app_nil_r|split; [by apply releases_none|simpl; lia]]].
        rewrite Hll, sgl_bytes_cons, app_nil_r. apply ctrl_bytes_first; [lia|done]. }
    done.
  - destruct (advance1_ok a l rest Hok ltac:(fold len; lia)) as (Hfl & Hok' & Hne & Hlen' & Hb).
    fold len in Hlen'.
    destruct (advance1 a l rest) as [|[a' l'] rest'] eqn:Hadv; [done|].
    match goal with |- context [match ?x with Some _ => _ | None => Err NullDeref end] =>
      assert (x = Some (a', l', rest')) as -> end.
    { unfold advance1 in Hadv. destruct (l - first_len a =? 0) eqn:E; simpl.
      - by rewrite Hadv.
      - injection Hadv as <- <- <-. boolprop.
        assert (0 < first_len a) by (unfold first_len; pose proof (Z.mod_pos_bound a 4096); lia).
        rewrite u64_small by lia. done. }
    pose proof Hok' as (Ha' & Hl' & Hal' & Hm' & _).
    destruct (Z.leb_spec (len - first_len a) 4096) as [Hsm|Hbig].
    + eexists false, [], _. split; [|left].
      2:{ erewrite setup_done_eq by done. eexists. split; [done|]. simpl first_dma.
          rewrite !u64_small by lia. rewrite Hsg.
          split; [|split; [by rewrite app_nil_r|split; [by apply releases_none|simpl; lia]]].
          destruct (last_page a' l' rest' Hok' ltac:(lia)) as (-> & Ht & Hll').
          rewrite Hb. eapply (ctrl_bytes_more _ _ _ _ [a']); [lia| |by constructor|].
          - by destruct (Z.leb_spec (len - first_len a) 4096); [|lia].
          - unfold entry_bytes. simpl. rewrite page_bytes_aligned, app_nil_r by done.
            rewrite <- Hlen', Hll', Ht, sgl_bytes_cons, app_nil_r. done. }
      done.
    + change (256 / 8) with 32.
      destruct (dma_pool_alloc _ _ _ _) as [[p|] s1] eqn:Hal1.
      * eapply setup_list_spec; try done. lia.
      * eexists false, [], _. split; [|right; split; [done|split]].
        -- unfold dma_pool_alloc in Hal1. destruct (pool _); [done|]. by injection Hal1 as <-.
        -- unfold dma_pool_alloc in Hal1. destruct (pool _) eqn:Hpool; [done|]. by eexists.
        -- unfold dma_pool_alloc in Hal1. destruct (pool _); [done|]. injection Hal1 as <-.
           simpl. by rewrite app_nil_r.
Qed.
End fill.

(** ** Balance of resources *)

Inductive resource := RPrp (small : bool) (ptr dma : Z) | RSg (n : Z) | RPage (dma len : Z) | RPool.

#[export] Instance resource_eq_dec : EqDecision resource.
Proof. solve_decision. Defined.

(** +1 when an event acquires [x], -1 when it releases it. *)
Definition weight (x : resource) (e : event) : Z :=
  match e with
  | AllocPrp b p d => if decide (x = RPrp b p d) then 1 else 0
  | FreePrp b p d => if decide (x = RPrp b p d) then -1 else 0
  | MapSg n => if decide (x = RSg n) then 1 else 0
  | UnmapSg n => if decide (x = RSg n) then -1 else 0
  | MapPage a l => if decide (x = RPage a l) then 1 else 0
  | UnmapPage a l => if decide (x = RPage a l) then -1 else 0
  | AllocSg => if decide (x = RPool) then 1 else 0
  | FreeSg => if decide (x = RPool) then -1 else 0
  end.

(** How many [x] are held after the events. *)
Definition holds (x : resource) (evs : list event) : Z := foldr (λ e n, weight x e + n) 0 evs.

#[local] Arguments holds : simpl never.

Lemma holds_nil x : holds x [] = 0.
Proof. done. Qed.
Lemma holds_app x l1 l2 : holds x (l1 ++ l2) = holds x l1 + holds x l2.
Proof. unfold holds. induction l1 as [|e l1 IH]; simpl; [done|]. rewrite IH. lia. Qed.

Lemma holds_cons x e l : holds x (e :: l) = weight x e + holds x l.
Proof. done. Qed.

Lemma holds_alloc_free bus x b ptrs : holds x (allocs bus b ptrs) + holds x (frees bus b ptrs) = 0.
Proof.
  induction ptrs as [|p ptrs IH]; [done|]. unfold allocs, frees in *. rewrite !fmap_cons, !holds_cons.
  simpl. destruct (decide _); lia.
Qed.

(** What a mapped request must transfer. *)
Definition is_simple (r : request) : bool :=
  (nr_phys_segments r =? 1) && ((bvec r).1 + (bvec r).2 <=? NVME_CTRL_PAGE_SIZE * 2).

Definition request_bytes (r : request) : list Z :=
  if is_simple r then match map_bvec r with Some addr => seqZ addr (bvec r).2 | None => [] end
  else sgl_bytes (map_sg r).

(** The documented behaviour of the block and DMA layers: a mapped bvec keeps its
    offset in the page, a mapped scatter list respects the virtual boundary and
    carries the payload. *)
Definition request_ok (r : request) : Prop :=
  0 < (bvec r).2 ∧ 0 ≤ (bvec r).1 ∧
  (∀ a, map_bvec r = Some a →
     0 ≤ a ∧ a + (bvec r).2 ≤ 2 ^ 64 ∧ a mod 4096 = (bvec r).1 mod 4096) ∧
  (map_sg r ≠ [] → sgl_ok (map_sg r) ∧ sgl_len (map_sg r) = payload_bytes r) ∧
  (is_simple r = true → payload_bytes r = (bvec r).2).

Section map_data.
Context (bus : Z → Z) (pool : nat → option Z).
Hypothesis bus_u64 : ∀ p, 0 ≤ bus p < 2 ^ 64.
Hypothesis pool_fresh : ∀ j k p q,
  j ≠ k → pool j = Some p → pool k = Some q → bus p ≠ bus q.

Lemma simple_spec mapped off len cmnd s :
  0 ≤ off → 0 < len → off + len ≤ 8192 →
  (∀ a, mapped = Some a → 0 ≤ a ∧ a + len ≤ 2 ^ 64 ∧ a mod 4096 = off mod 4096) →
  let '(st, c, s') := apple_nvme_setup_prp_simple mapped off len cmnd s in
  match mapped with
  | None => st = BLK_STS_RESOURCE ∧ s' = s
  | Some a => st = BLK_STS_OK ∧ ctrl_bytes (mem s') len c = Some (seqZ a len) ∧
      log s' = log s ++ [MapPage a len] ∧
      log (apple_nvme_unmap_data bus s') = log s' ++ [UnmapPage a len]
  end.
Proof.
  intros Hoff Hlen Hsum Ha. unfold apple_nvme_setup_prp_simple. rewrite land_4095 by done.
  destruct mapped as [a|]; [|done]. destruct (Ha a eq_refl) as (Ha0 & Ha1 & Hmod).
  rewrite <- Hmod. unfold NVME_CTRL_PAGE_SIZE. fold (first_len a).
  assert (0 < first_len a ≤ 4096).
  { unfold first_len. pose proof (Z.mod_pos_bound a 4096). lia. }
  split; [done|]. split; [|split; [done|]].
  - cbn [mem logged set_io prp1 prp2]. rewrite (u64_small a) by lia. rewrite Z.gtb_ltb.
    destruct (Z.ltb_spec (first_len a) len) as [Hl|Hl].
    + rewrite u64_small by lia. rewrite (seqZ_split a len (first_len a)) by lia.
      assert ((a + first_len a) mod 4096 = 0)
        by (unfold first_len; Z.to_euclidean_division_equations; lia).
      eapply (ctrl_bytes_more _ _ _ _ [a + first_len a]); [lia| |by constructor|].
      * destruct (Z.leb_spec (len - first_len a) 4096) as [|Hbig]; [done|]. exfalso.
        unfold first_len in Hbig. rewrite Hmod in Hbig. Z.to_euclidean_division_equations. lia.
      * unfold entry_bytes. simpl. rewrite page_bytes_aligned, app_nil_r by done.
        rewrite (seqZ_split (a + first_len a) 4096 (len - first_len a)).
        -- apply take_app_length'. by rewrite length_seqZ.
        -- unfold first_len in *. rewrite Hmod. Z.to_euclidean_division_equations. lia.
    + apply ctrl_bytes_first; [lia|]. unfold page_bytes, NVME_CTRL_PAGE_SIZE. fold (first_len a).
      rewrite (seqZ_split a (first_len a) len) by lia. apply take_app_length'. by rewrite length_seqZ.
  - unfold apple_nvme_unmap_data. simpl. destruct (Z.eqb_spec len 0); [lia|]. done.
Qed.

(** The outcomes of mapping a request and taking it down again. *)
Lemma map_data_spec r cmnd s :
  request_ok r → npages (io s) = -1 →
  ∃ st c s', apple_nvme_map_data bus pool r cmnd s = Ok (st, c, s') ∧
    ((st = BLK_STS_OK ∧ ctrl_bytes (mem s') (payload_bytes r) c = Some (request_bytes r) ∧
      ∀ x, holds x (log (apple_nvme_unmap_data bus s')) = holds x (log s)) ∨
     (st = BLK_STS_RESOURCE ∧ ∀ x, holds x (log s') = holds x (log s))).
Proof.
  intros (Hlen & Hoff & Hbv & Hsg & Hpay) Hn. unfold apple_nvme_map_data, request_bytes.
  fold (is_simple r). destruct (is_simple r) eqn:Hs.
  - pose proof Hs as [_ Hsum]%andb_prop. apply Z.leb_le in Hsum. unfold NVME_CTRL_PAGE_SIZE in Hsum.
    pose proof (simple_spec (map_bvec r) (bvec r).1 (bvec r).2 cmnd s Hoff Hlen ltac:(lia) Hbv) as H.
    destruct (apple_nvme_setup_prp_simple _ _ _ _ _) as [[st c] s']. exists st, c, s'. split; [done|].
    destruct (map_bvec r) as [a|].
    + destruct H as (-> & Hb & Hl & Hu). left. rewrite Hpay by done. split; [done|]. split; [done|].
      intros x. rewrite Hu, Hl, !holds_app, !holds_cons, !holds_nil. simpl weight. destruct (decide _); lia.
    + destruct H as (-> & ->). right. done.
  - cbv zeta. destruct (mempool r); cbn [negb]; [|by do 3 eexists; split; [done|right]].
    destruct (rq_map_sg r =? 0).
    { do 3 eexists. split; [done|]. right. split; [done|]. intros x. simpl.
      rewrite !holds_app, !holds_cons, !holds_nil. simpl weight. destruct (decide _); lia. }
    destruct (map_sg r) as [|al rest] eqn:Hmap.
    { do 3 eexists. split; [done|]. right. split; [done|]. intros x. simpl.
      rewrite !holds_app, !holds_cons, !holds_nil. simpl weight. destruct (decide _); lia. }
    rewrite <- Hmap in *. destruct Hsg as [Hok Hp]; [by rewrite Hmap|].
    match goal with |- context [apple_nvme_setup_prps _ _ _ _ ?t] => set (s0 := t) end.
    pose proof (setup_spec bus pool bus_u64 pool_fresh cmnd s0 Hok Hn) as H. simpl sg in H.
    rewrite <- Hp. change (nents (io s0)) with (nents (io s0)) in H.
    destruct H as (small & ptrs & s' & (_ & Hne & Hdl) & [(c & -> & Hb & Hl & Hrel & _)|(-> & _ & Hl)]).
    + do 3 eexists. split; [done|]. left. split; [done|]. split; [done|]. intros x.
      rewrite Hrel by done. rewrite Hl, Hne. unfold s0. simpl.
      pose proof (holds_alloc_free bus x small ptrs).
      repeat rewrite ?holds_app, ?holds_cons, ?holds_nil. simpl weight. repeat destruct (decide _); lia.
    + do 3 eexists. split; [done|]. right. split; [done|]. intros x. simpl.
      rewrite Hl, Hne. unfold s0. simpl. pose proof (holds_alloc_free bus x small ptrs).
      repeat rewrite ?holds_app, ?holds_cons, ?holds_nil. simpl weight. repeat destruct (decide _); lia.
Qed.
End map_data.

(** ** Theorems *)


(** A scatter list of 3 elements and 2103296 bytes, which needs two list pages. *)
Definition demo_sgl : list (Z * Z) :=
  [(0x10000800, 0x800); (0x20000000, 0x200000); (0x40000000, 0x800)].
Definition demo_state : state := State (Iod (-1) 3 0 0 demo_sgl) ∅ ∅ 0 [].
Definition demo_bus (p : Z) : Z := u64 (p * 4096).
Definition demo_pool (k : nat) : option Z :=
  if Nat.ltb k 8 then Some (0x1000 + Z.of_nat k) else None.

Lemma demo_bus_u64 p : 0 ≤ demo_bus p < 2 ^ 64.
Proof. apply u64_range. Qed.
Lemma demo_pool_fresh j k p q :
  j ≠ k → demo_pool j = Some p → demo_pool k = Some q → demo_bus p ≠ demo_bus q.
Proof.
  unfold demo_pool. intros Hne. destruct (Nat.ltb_spec j 8), (Nat.ltb_spec k 8); try done.
  intros [= <-] [= <-]. unfold demo_bus. rewrite !u64_small by lia. lia.
Qed.


(** C14. Mapping a request either fails with everything it took released, or
    succeeds with a command that makes the controller transfer exactly the
    request's bytes, and then unmapping releases everything the mapping took:
    each list page to the pool it came from with its own DMA address, the scatter
    list, its DMA mapping or the page mapping. *)
Theorem map_data_correct bus pool r cmnd s :
  (∀ p, 0 ≤ bus p < 2 ^ 64) →
  (∀ j k p q, j ≠ k → pool j = Some p → pool k = Some q → bus p ≠ bus q) →
  request_ok r → npages (io s) = -1 →
  ∃ st c s', apple_nvme_map_data bus pool r cmnd s = Ok (st, c, s') ∧
    ((st = BLK_STS_OK ∧ ctrl_bytes (mem s') (payload_bytes r) c = Some (request_bytes r) ∧
      ∀ x, holds x (log (apple_nvme_unmap_data bus s')) = holds x (log s)) ∨
     (st = BLK_STS_RESOURCE ∧ ∀ x, holds x (log s') = holds x (log s))).
Proof. intros. by apply map_data_spec. Qed.

Definition demo_request : request :=
  {| nr_phys_segments := 3; payload_bytes := 0x201000; bvec := (0x800, 0x800); map_bvec := None;
     mempool := true; rq_map_sg := 3; map_sg := demo_sgl |}.

Lemma map_data_correct_witness :
  ∃ st c s', apple_nvme_map_data demo_bus demo_pool demo_request (Dptr 0 0) demo_state =
      Ok (st, c, s') ∧
    ((st = BLK_STS_OK ∧
      ctrl_bytes (mem s') (payload_bytes demo_request) c = Some (request_bytes demo_request) ∧
      ∀ x, holds x (log (apple_nvme_unmap_data demo_bus s')) = holds x (log demo_state)) ∨
     (st = BLK_STS_RESOURCE ∧ ∀ x, holds x (log s') = holds x (log demo_state))).
Proof.
  refine (map_data_correct demo_bus demo_pool demo_request (Dptr 0 0) demo_state
            demo_bus_u64 demo_pool_fresh _ _); [|reflexivity].
  split; [done|]. split; [done|]. split; [done|].
  split; [|done]. intros _. split; [|reflexivity]. simpl. repeat split; lia || done.
Defined.

(** For requests within the driver's limits (4 MiB, at most 126 segments) the
    pointers to the list pages stay inside the pool element behind the scatter
    list. *)
Theorem iod_list_in_bounds bus pool cmnd s c s' nsegs :
  (∀ p, 0 ≤ bus p < 2 ^ 64) →
  (∀ j k p q, j ≠ k → pool j = Some p → pool k = Some q → bus p ≠ bus q) →
  sgl_ok (sg (io s)) → npages (io s) = -1 →
  sgl_len (sg (io s)) ≤ 1024 * NVME_MAX_KB_SZ → 0 ≤ nsegs < NVME_MAX_SEGS →
  apple_nvme_setup_prps bus pool (sgl_len (sg (io s))) cmnd s = Ok (BLK_STS_OK, c, s') →
  ∀ j, 0 ≤ j < npages (io s') →
    apple_nvme_iod_list nsegs j + sizeof_ptr ≤ apple_nvme_iod_alloc_size.
Proof.
  intros Hb Hf Hok Hn Hmax Hseg Hrun j Hj.
  destruct (setup_spec bus pool Hb Hf cmnd s Hok Hn) as
    (small & ptrs & s'' & _ & [(c' & E & _ & _ & _ & Hnp)|(E & _)]);
    rewrite Hrun in E; injection E; intros; subst; try done.
  specialize (Hnp Hmax). unfold apple_nvme_iod_list, NVME_MAX_SEGS in *.
  change apple_nvme_iod_alloc_size with 4072. unfold sizeof_scatterlist, sizeof_ptr. lia.
Qed.

Definition demo_run : state :=
  match apple_nvme_setup_prps demo_bus demo_pool 0x201000 (Dptr 0 0) demo_state with
  | Ok (_, _, s') => s' | Err _ => demo_state
  end.

Lemma iod_list_in_bounds_witness :
  npages (io demo_run) = 2 ∧
  ∀ j, 0 ≤ j < npages (io demo_run) →
    apple_nvme_iod_list 3 j + sizeof_ptr ≤ apple_nvme_iod_alloc_size.
Proof.
  split; [vm_compute; reflexivity|].
  refine (iod_list_in_bounds demo_bus demo_pool (Dptr 0 0) demo_state
    (Dptr 0x10000800 0x1000000) demo_run 3 demo_bus_u64 demo_pool_fresh _ _ _ _ _).
  - simpl. repeat split; lia || done.
  - reflexivity.
  - vm_compute. discriminate.
  - vm_compute. split; [discriminate|reflexivity].
  - vm_compute. reflexivity.
Defined.

(** A request at both limits: 127 elements, 4 MiB, starting in mid-page. *)
Definition big_sgl : list (Z * Z) :=
  (0x100000800, 0x7800) ::
  map (λ k, (0x200000000 + Z.of_nat k * 0x10000, 0x8000)) (seq 0 125) ++
  [(0x300000000, 0x10800)].
Definition big_state : state := State (Iod (-1) 127 0 0 big_sgl) ∅ ∅ 0 [].
Definition big_run : result fault (blk_status * dptr * state) :=
  apple_nvme_setup_prps demo_bus demo_pool (sgl_len big_sgl) (Dptr 0 0) big_state.

(** At the advertised limits of 127 segments and 4 MiB the set-up succeeds
    with three list pages, and the second and third pointer are stored behind the
    end of the pool element: the element is sized for one pointer, because the
    limit in KiB is used where bytes are meant. *)
Theorem iod_list_overflows_at_limits :
  Z.of_nat (length big_sgl) = NVME_MAX_SEGS ∧ sgl_len big_sgl = 1024 * NVME_MAX_KB_SZ ∧
  (∃ c s', big_run = Ok (BLK_STS_OK, c, s') ∧ npages (io s') = 3 ∧
     is_Some (lst s' !! 1) ∧ is_Some (lst s' !! 2)) ∧
  apple_nvme_iod_list NVME_MAX_SEGS 1 = apple_nvme_iod_alloc_size ∧
  apple_nvme_iod_list NVME_MAX_SEGS 2 = apple_nvme_iod_alloc_size + 8.
Proof.
  split; [vm_compute; reflexivity|]. split; [vm_compute; reflexivity|].
  split; [|split; vm_compute; reflexivity].
  assert (match big_run with
          | Ok (BLK_STS_OK, c, s') => (npages (io s') =? 3) && bool_decide (is_Some (lst s' !! 1))
                                      && bool_decide (is_Some (lst s' !! 2))
          | _ => false end = true) as H by (vm_compute; reflexivity).
  destruct big_run as [[[[] c] s']|]; try done. exists c, s'.
  apply andb_prop in H as [[? ?]%andb_prop ?]. boolprop.
  split; [done|]. split; [done|]. by split; eapply bool_decide_unpack; apply Is_true_true.
Qed.

(** A scatter list whose middle element is not a whole number of pages. *)
Definition bad_request : request :=
  {| nr_phys_segments := 3; payload_bytes := 0x101000; bvec := (0, 0x1000); map_bvec := None;
     mempool := true; rq_map_sg := 3;
     map_sg := [(0x10000000, 0x1000); (0x20000000, 0x800); (0x30000000, 0xff800)] |}.

(** When the set-up meets an element that is not a whole number of pages it
    reports an I/O error, and the list page it had allocated stays allocated:
    the failure path of the mapping does not free it and unmapping is not called
    for a request that was not queued. *)
Theorem bad_sgl_leaks_page :
  match apple_nvme_map_data demo_bus demo_pool bad_request (Dptr 0 0) demo_state with
  | Ok (st, _, s') =>
      st = BLK_STS_IOERR ∧ holds (RPrp false 0x1000 (demo_bus 0x1000)) (log s') = 1 ∧
      holds RPool (log s') = 0 ∧ holds (RSg 3) (log s') = 0
  | Err _ => False
  end.
Proof. vm_compute. done. Qed.
