(* ===== verification/NvmeQueue.v ===== *)
(** * NVMe queues (drivers/nvme/host/apple.c, queue part)

    The submission paths of the two controller generations, the completion ring
    and the interrupt handler, and the sizes of the queues and tag sets.  What a
    routine does to memory and registers is a list of events in program order.
    The block layer's answers (which request has a tag, whether a completion was
    taken remotely or batched) are parameters. *)

From Stdlib Require Import ZArith Lia Bool String.
From stdpp Require Import base numbers list option gmap strings.
From S2P Require Import Prelude.

Local Open Scope string_scope.
Local Open Scope list_scope.
Local Open Scope Z_scope.

Definition APPLE_NVME_AQ_DEPTH : Z := 2.
Definition APPLE_NVME_AQ_MQ_TAG_DEPTH : Z := APPLE_NVME_AQ_DEPTH - 1.
Definition APPLE_NVME_IOSQES : Z := 7.
Definition sizeof_nvme_command : Z := 64.
Definition sizeof_nvme_completion : Z := 16.
Definition sizeof_apple_nvmmu_tcb : Z := 128.
Definition APPLE_ANS_TCB_DMA_FROM_DEVICE : Z := BIT 0.
Definition APPLE_ANS_TCB_DMA_TO_DEVICE : Z := BIT 1.

Record apple_nvme_hw := Hw {
  has_lsq_nvmmu : bool;
  need_ioq_register : bool;
  separate_nvmmu_region : bool;
  max_queue_depth : Z
}.

Definition apple_nvme_t8015_hw : apple_nvme_hw := Hw false false false 16.
Definition apple_nvme_t8103_hw : apple_nvme_hw := Hw true false false 64.
Definition apple_nvme_t8132_hw : apple_nvme_hw := Hw true true true 64.

Definition apple_nvme_of_match (compatible : string) : option apple_nvme_hw :=
  if String.eqb compatible "apple,t8015-nvme-ans2" then Some apple_nvme_t8015_hw
  else if String.eqb compatible "apple,t8103-nvme-ans2" then Some apple_nvme_t8103_hw
  else if String.eqb compatible "apple,t8132-nvme-ans2" then Some apple_nvme_t8132_hw
  else if String.eqb compatible "apple,nvme-ans2" then Some apple_nvme_t8103_hw
  else None.

(** The fields of [struct nvme_command] the driver looks at; [c_rest] stands for
    the other bytes, which are only copied. *)
Record nvme_command := Cmd {
  c_opcode : Z;
  c_command_id : Z;
  c_nsid : Z;
  c_prp1 : Z;
  c_prp2 : Z;
  c_length : Z;
  c_rest : list Z
}.

Record nvme_completion := Cqe { cqe_result : Z; cqe_command_id : Z; cqe_status : Z }.

Record apple_nvmmu_tcb := Tcb {
  tcb_opcode : Z;
  tcb_dma_flags : Z;
  tcb_command_id : Z;
  tcb_length : Z;
  tcb_prp1 : Z;
  tcb_prp2 : Z
}.

Record apple_nvme_queue := Queue {
  sqes : gmap Z nvme_command;        (** by byte offset *)
  cqes : list nvme_completion;
  tcbs : gmap Z apple_nvmmu_tcb;     (** by tag *)
  sq_tail : Z;
  cq_head : Z;
  cq_phase : Z;
  is_adminq : bool;
  enabled : bool
}.

Definition apple_nvme_queue_depth (hw : apple_nvme_hw) (q : apple_nvme_queue) : Z :=
  if is_adminq q && has_lsq_nvmmu hw then APPLE_NVME_AQ_DEPTH else max_queue_depth hw.

(** Effects of the queue routines, in program order. *)
Inductive event {R : Type} :=
| MemTcb (tag : Z) (t : apple_nvmmu_tcb)
| MemSqe (off : Z) (c : nvme_command)
| WSqDb (admin : bool) (v : Z)
| WCqDb (admin : bool) (v : Z)
| WTcbInval (tag : Z)
| RTcbStat
| Lock | Unlock
| BadId (cid : Z)
| TryComplete (rq : R) (status result : Z)
| AddToBatch (rq : R)
| CompleteRq (rq : R)
| CompleteBatch (rqs : list R).
Arguments event R : clear implicits.

Definition set_sq (sq : gmap Z nvme_command) (tc : gmap Z apple_nvmmu_tcb) (tail : Z)
    (q : apple_nvme_queue) : apple_nvme_queue :=
  Queue sq (cqes q) tc tail (cq_head q) (cq_phase q) (is_adminq q) (enabled q).
Definition set_cq (head phase : Z) (q : apple_nvme_queue) : apple_nvme_queue :=
  Queue (sqes q) (cqes q) (tcbs q) (sq_tail q) head phase (is_adminq q) (enabled q).
Definition set_enabled (b : bool) (q : apple_nvme_queue) : apple_nvme_queue :=
  Queue (sqes q) (cqes q) (tcbs q) (sq_tail q) (cq_head q) (cq_phase q) (is_adminq q) b.

(** ** Submission *)

Section submit.
Context {R : Type}.
(** [nvme_is_write] and [nvme_tag_from_cid] of the NVMe core. *)
Context (nvme_is_write : nvme_command → bool) (nvme_tag_from_cid : Z → Z).

Definition apple_nvme_submit_cmd_t8015 (hw : apple_nvme_hw) (q : apple_nvme_queue)
    (cmd : nvme_command) : apple_nvme_queue * list (event R) :=
  let off := if is_adminq q then sq_tail q * sizeof_nvme_command
             else Z.shiftl (sq_tail q) APPLE_NVME_IOSQES in
  let tail := u16 (sq_tail q + 1) in
  let tail := if tail =? max_queue_depth hw then 0 else tail in
  (set_sq (<[off := cmd]> (sqes q)) (tcbs q) tail q,
   [Lock; MemSqe off cmd; WSqDb (is_adminq q) tail; Unlock]).

Definition apple_nvme_submit_cmd_t8103 (q : apple_nvme_queue) (cmd : nvme_command)
    : apple_nvme_queue * list (event R) :=
  let tag := u32 (nvme_tag_from_cid (c_command_id cmd)) in
  let flags := if nvme_is_write cmd then APPLE_ANS_TCB_DMA_TO_DEVICE
               else APPLE_ANS_TCB_DMA_FROM_DEVICE in
  let tcb := {| tcb_opcode := c_opcode cmd; tcb_dma_flags := flags; tcb_command_id := u8 tag;
                tcb_length := c_length cmd; tcb_prp1 := c_prp1 cmd; tcb_prp2 := c_prp2 cmd |} in
  let off := tag * sizeof_nvme_command in
  (set_sq (<[off := cmd]> (sqes q)) (<[tag := tcb]> (tcbs q)) (sq_tail q) q,
   [MemTcb tag tcb; MemSqe off cmd; Lock; WSqDb (is_adminq q) tag; Unlock]).
End submit.

(** ** Completion *)

Definition apple_nvme_cqe_pending (q : apple_nvme_queue) : bool :=
  match cqes q !! Z.to_nat (cq_head q) with
  | Some hcqe => Z.land (cqe_status hcqe) 1 =? cq_phase q
  | None => false
  end.

Definition apple_nvme_update_cq_head (hw : apple_nvme_hw) (q : apple_nvme_queue)
    : apple_nvme_queue :=
  let tmp := u32 (cq_head q + 1) in
  if tmp =? apple_nvme_queue_depth hw q
  then set_cq 0 (Z.lxor (cq_phase q) 1) q
  else set_cq (u16 tmp) (cq_phase q) q.

Section complete.
Context {R : Type}.
(** The request that holds a tag of the admin or the I/O tag set, and the
    answers of [nvme_try_complete_req] and [blk_mq_add_to_batch]. *)
Context (nvme_find_rq : bool → Z → option R).
Context (try_complete add_to_batch : R → bool).

Definition apple_nvmmu_inval (tag : Z) : list (event R) := [WTcbInval tag; RTcbStat].

(** Returns the batch and the events. *)
Definition apple_nvme_handle_cqe (hw : apple_nvme_hw) (q : apple_nvme_queue)
    (iob : list R) (idx : Z) : list R * list (event R) :=
  match cqes q !! Z.to_nat idx with
  | None => (iob, [])
  | Some cqe =>
      let command_id := cqe_command_id cqe in
      let inval := if has_lsq_nvmmu hw then apple_nvmmu_inval command_id else [] in
      match nvme_find_rq (is_adminq q) command_id with
      | None => (iob, inval ++ [BadId command_id])
      | Some req =>
          let evs := inval ++ [TryComplete req (cqe_status cqe) (cqe_result cqe)] in
          if try_complete req then (iob, evs)
          else if add_to_batch req then (iob ++ [req], evs ++ [AddToBatch req])
          else (iob, evs ++ [AddToBatch req; CompleteRq req])
      end
  end.

(** [while (apple_nvme_cqe_pending(q))]; [None] when the fuel runs out. *)
Fixpoint poll_loop (fuel : nat) (hw : apple_nvme_hw) (q : apple_nvme_queue) (iob : list R)
    (found : bool) (evs : list (event R))
    : option (bool * apple_nvme_queue * list R * list (event R)) :=
  match fuel with
  | O => None
  | S fuel' =>
      if apple_nvme_cqe_pending q then
        let '(iob, e) := apple_nvme_handle_cqe hw q iob (cq_head q) in
        poll_loop fuel' hw (apple_nvme_update_cq_head hw q) iob true (evs ++ e)
      else Some (found, q, iob, evs)
  end.

(** A queue of [depth] slots can hold at most [depth] pending completions. *)
Definition apple_nvme_poll_cq (hw : apple_nvme_hw) (q : apple_nvme_queue) (iob : list R)
    : option (bool * apple_nvme_queue * list R * list (event R)) :=
  match poll_loop (S (Z.to_nat (apple_nvme_queue_depth hw q))) hw q iob false [] with
  | None => None
  | Some (found, q, iob, evs) =>
      Some (found, q, iob, evs ++ if found then [WCqDb (is_adminq q) (cq_head q)] else [])
  end.

Definition apple_nvme_handle_cq (hw : apple_nvme_hw) (q : apple_nvme_queue) (force : bool)
    : option (bool * apple_nvme_queue * list (event R)) :=
  if negb (enabled q) && negb force then Some (false, q, [])
  else
    match apple_nvme_poll_cq hw q [] with
    | None => None
    | Some (found, q, iob, evs) =>
        Some (found, q, evs ++ match iob with [] => [] | _ => [CompleteBatch iob] end)
    end.

(** Returns [IRQ_HANDLED] as [true], and the queues (ioq, adminq). *)
Definition apple_nvme_irq (hw : apple_nvme_hw) (ioq adminq : apple_nvme_queue)
    : option (bool * apple_nvme_queue * apple_nvme_queue * list (event R)) :=
  match apple_nvme_handle_cq hw ioq false with
  | None => None
  | Some (h1, ioq, e1) =>
      match apple_nvme_handle_cq hw adminq false with
      | None => None
      | Some (h2, adminq, e2) => Some (h1 || h2, ioq, adminq, [Lock] ++ e1 ++ e2 ++ [Unlock])
      end
  end.

Definition apple_nvme_poll (hw : apple_nvme_hw) (q : apple_nvme_queue) (iob : list R)
    : option (bool * apple_nvme_queue * list R * list (event R)) :=
  match apple_nvme_poll_cq hw q iob with
  | None => None
  | Some (found, q, iob, evs) => Some (found, q, iob, [Lock] ++ evs ++ [Unlock])
  end.
End complete.

(** ** Set-up *)

Definition apple_nvme_init_queue (hw : apple_nvme_hw) (q : apple_nvme_queue) : apple_nvme_queue :=
  Queue (sqes q) (replicate (Z.to_nat (apple_nvme_queue_depth hw q)) (Cqe 0 0 0))
    (if has_lsq_nvmmu hw then ∅ else tcbs q) 0 0 1 (is_adminq q) true.

(** Bytes of the coherent buffers: completion queue, submission queue, TCBs. *)
Record queue_buffers := Buffers { cq_size : Z; sq_size : Z; tcb_size : Z }.

(** [coherent] is the outcome of the three allocations in order. *)
Definition apple_nvme_queue_alloc (hw : apple_nvme_hw) (q : apple_nvme_queue)
    (coherent : bool * bool * bool) : result Z (apple_nvme_queue * queue_buffers) :=
  let depth := apple_nvme_queue_depth hw q in
  let '(cq_ok, sq_ok, tcb_ok) := coherent in
  if negb cq_ok then Err (- ENOMEM)
  else
    let iosq_size := if has_lsq_nvmmu hw then depth * sizeof_nvme_command
                     else Z.shiftl depth APPLE_NVME_IOSQES in
    if negb sq_ok then Err (- ENOMEM)
    else
      let q := set_cq (cq_head q) 1 q in
      if has_lsq_nvmmu hw then
        if negb tcb_ok then Err (- ENOMEM)
        else Ok (q, Buffers (depth * sizeof_nvme_completion) iosq_size
                      (max_queue_depth hw * sizeof_apple_nvmmu_tcb))
      else Ok (q, Buffers (depth * sizeof_nvme_completion) iosq_size 0).

(** The tag sets: (reserved tags, depth). *)
Record tagsets := Tagsets { admin_depth : Z; io_reserved : Z; io_depth : Z }.

Definition tagsets_of (hw : apple_nvme_hw) : tagsets :=
  {| admin_depth := APPLE_NVME_AQ_MQ_TAG_DEPTH;
     io_reserved := if has_lsq_nvmmu hw then APPLE_NVME_AQ_DEPTH else 0;
     io_depth := max_queue_depth hw - 1 |}.

(** Tags blk-mq hands out to ordinary requests of the two sets. *)
Definition admin_tag (hw : apple_nvme_hw) (tag : Z) : bool :=
  (0 <=? tag) && (tag <? admin_depth (tagsets_of hw)).
Definition io_tag (hw : apple_nvme_hw) (tag : Z) : bool :=
  (io_reserved (tagsets_of hw) <=? tag) && (tag <? io_depth (tagsets_of hw)).

(** The tag-set allocation: [tags] and [actions] are the return codes of the two
    [blk_mq_alloc_tag_set] and [devm_add_action_or_reset] calls. *)
Definition apple_nvme_alloc_tagsets (hw : apple_nvme_hw) (tags actions : Z * Z)
    : result Z tagsets :=
  if negb (tags.1 =? 0) then Err (tags.1)
  else if negb (actions.1 =? 0) then Err (actions.1)
  else if negb (tags.2 =? 0) then Err (tags.2)
  else if negb (actions.2 =? 0) then Err (actions.2)
  else Ok (tagsets_of hw).

(** ** The completion ring and its producer

    The controller posts completions behind its tail with its phase bit, as long
    as the ring is not full with respect to the head it was last told; the driver
    consumes from its head while the phase bit matches, and writes the head to the
    doorbell after a run.  Any interleaving of the three is allowed.  [posted] and
    [handled] record the two ends. *)
Record ring := Ring {
  r_q : apple_nvme_queue;
  c_tail : Z;
  c_phase : Z;
  c_head : Z;
  posted : list nvme_completion;
  handled : list nvme_completion
}.

Definition set_cqes (l : list nvme_completion) (q : apple_nvme_queue) : apple_nvme_queue :=
  Queue (sqes q) l (tcbs q) (sq_tail q) (cq_head q) (cq_phase q) (is_adminq q) (enabled q).

Inductive ring_step (hw : apple_nvme_hw) : ring → ring → Prop :=
| step_post r result cid sc :
    let D := apple_nvme_queue_depth hw (r_q r) in
    let e := Cqe result cid (2 * sc + c_phase r) in
    (c_tail r + 1) mod D ≠ c_head r →
    ring_step hw r
      {| r_q := set_cqes (<[Z.to_nat (c_tail r) := e]> (cqes (r_q r))) (r_q r);
         c_tail := (c_tail r + 1) mod D;
         c_phase := if c_tail r + 1 =? D then 1 - c_phase r else c_phase r;
         c_head := c_head r; posted := posted r ++ [e]; handled := handled r |}
| step_consume r e :
    apple_nvme_cqe_pending (r_q r) = true →
    cqes (r_q r) !! Z.to_nat (cq_head (r_q r)) = Some e →
    ring_step hw r
      {| r_q := apple_nvme_update_cq_head hw (r_q r); c_tail := c_tail r; c_phase := c_phase r;
         c_head := c_head r; posted := posted r; handled := handled r ++ [e] |}
| step_doorbell r :
    ring_step hw r
      {| r_q := r_q r; c_tail := c_tail r; c_phase := c_phase r; c_head := cq_head (r_q r);
         posted := posted r; handled := handled r |}.

Definition ring_init (hw : apple_nvme_hw) (q : apple_nvme_queue) : ring :=
  Ring (apple_nvme_init_queue hw q) 0 1 0 [] [].

(** Phase of the [n]-th entry of a ring of [D] slots. *)
Definition phase_of (D n : Z) : Z := if Z.even (n / D) then 1 else 0.

Lemma next_slot_div D n :
  0 < D →
  (n mod D + 1 = D → (n + 1) mod D = 0 ∧ (n + 1) / D = n / D + 1) ∧
  (n mod D + 1 ≠ D → (n + 1) mod D = n mod D + 1 ∧ (n + 1) / D = n / D).
Proof.
  intros HD. pose proof (Z.div_mod n D ltac:(lia)). pose proof (Z.mod_pos_bound n D HD). split.
  - intros E. replace (n + 1) with ((n / D + 1) * D) by lia.
    rewrite Z_mod_mult, Z_div_mult by lia. done.
  - intros E. split.
    + symmetry. apply (Z.mod_unique_pos _ _ (n / D)); lia.
    + symmetry. apply (Z.div_unique_pos _ _ _ (n mod D + 1)); lia.
Qed.

Lemma phase_next D n :
  0 < D → phase_of D (n + 1) = if n mod D + 1 =? D then 1 - phase_of D n else phase_of D n.
Proof.
  intros HD. destruct (next_slot_div D n HD) as [H1 H2]. unfold phase_of.
  destruct (Z.eqb_spec (n mod D + 1) D) as [E|E].
  - destruct (H1 E) as [_ ->]. rewrite Z.add_1_r, Z.even_succ, <- Z.negb_even.
    by destruct (Z.even (n / D)).
  - by destruct (H2 E) as [_ ->].
Qed.

Lemma phase_prev_lap D n : 0 < D → phase_of D (n - D) = 1 - phase_of D n.
Proof.
  intros HD. unfold phase_of. replace (n - D) with (n + (-1) * D) by lia.
  rewrite Z.div_add by lia. replace (n / D + -1) with (Z.pred (n / D)) by lia.
  rewrite Z.even_pred, <- Z.negb_even. by destruct (Z.even (n / D)).
Qed.

Lemma phase_bool D n : phase_of D n = 0 ∨ phase_of D n = 1.
Proof. unfold phase_of. destruct (Z.even _); auto. Qed.

Lemma mod_inj D a b : 0 < D → a mod D = b mod D → 0 ≤ a - b < D → a = b.
Proof.
  intros HD Hm Hr. pose proof (Z.div_mod a D ltac:(lia)). pose proof (Z.div_mod b D ltac:(lia)).
  rewrite Hm in *. assert (a - b = D * (a / D - b / D)) as E by lia.
  assert (a / D - b / D = 0) by nia. lia.
Qed.

(** The invariant, with [d] the number of completions the controller was told
    about. *)
Record ring_inv (hw : apple_nvme_hw) (r : ring) (d : Z) : Prop := {
  ri_depth : 2 ≤ apple_nvme_queue_depth hw (r_q r) ≤ 2 ^ 15;
  ri_len : Z.of_nat (length (cqes (r_q r))) = apple_nvme_queue_depth hw (r_q r);
  ri_order : 0 ≤ d ≤ Z.of_nat (length (handled r)) ∧
             Z.of_nat (length (handled r)) ≤ Z.of_nat (length (posted r));
  ri_room : Z.of_nat (length (posted r)) - d < apple_nvme_queue_depth hw (r_q r);
  ri_head : cq_head (r_q r) =
    Z.of_nat (length (handled r)) mod apple_nvme_queue_depth hw (r_q r);
  ri_phase : cq_phase (r_q r) =
    phase_of (apple_nvme_queue_depth hw (r_q r)) (Z.of_nat (length (handled r)));
  ri_tail : c_tail r = Z.of_nat (length (posted r)) mod apple_nvme_queue_depth hw (r_q r);
  ri_cphase : c_phase r =
    phase_of (apple_nvme_queue_depth hw (r_q r)) (Z.of_nat (length (posted r)));
  ri_chead : c_head r = d mod apple_nvme_queue_depth hw (r_q r);
  ri_prefix : handled r = take (length (handled r)) (posted r);
  ri_slots j : Z.of_nat (length (posted r)) - apple_nvme_queue_depth hw (r_q r) ≤ j <
               Z.of_nat (length (posted r)) →
    ∃ e, cqes (r_q r) !! Z.to_nat (j mod apple_nvme_queue_depth hw (r_q r)) = Some e ∧
      Z.land (cqe_status e) 1 = phase_of (apple_nvme_queue_depth hw (r_q r)) j ∧
      (0 ≤ j → posted r !! Z.to_nat j = Some e)
}.

Lemma ring_init_inv hw q :
  2 ≤ apple_nvme_queue_depth hw q ≤ 2 ^ 15 → ring_inv hw (ring_init hw q) 0.
Proof.
  intros HD. set (D := apple_nvme_queue_depth hw q) in *.
  assert (apple_nvme_queue_depth hw (apple_nvme_init_queue hw q) = D) as E by done.
  split; simpl; rewrite ?E; try done; try lia.
  - rewrite length_replicate. fold D. lia.
  - intros j Hj. exists (Cqe 0 0 0). split; [|split].
    + fold D. apply lookup_replicate_2. pose proof (Z.mod_pos_bound j D). lia.
    + simpl. unfold phase_of.
      replace (j / D) with (-1); [done|]. apply (Z.div_unique_pos _ _ _ (j + D)); lia.
    + lia.
Qed.

Section ring.
Context (hw : apple_nvme_hw).

Lemma depth_set_cqes q l : apple_nvme_queue_depth hw (set_cqes l q) = apple_nvme_queue_depth hw q.
Proof. done. Qed.
Lemma depth_update q :
  apple_nvme_queue_depth hw (apple_nvme_update_cq_head hw q) = apple_nvme_queue_depth hw q.
Proof. unfold apple_nvme_update_cq_head. by destruct (_ =? _). Qed.
Lemma cqes_update q : cqes (apple_nvme_update_cq_head hw q) = cqes q.
Proof. unfold apple_nvme_update_cq_head. by destruct (_ =? _). Qed.

(** Completions are pending exactly while some posted one is not handled, and
    the next one is at the head. *)
Lemma pending_iff r d :
  ring_inv hw r d →
  (apple_nvme_cqe_pending (r_q r) = true ↔ (length (handled r) < length (posted r))%nat) ∧
  ((length (handled r) < length (posted r))%nat →
   cqes (r_q r) !! Z.to_nat (cq_head (r_q r)) = posted r !! length (handled r)).
Proof.
  intros [HD Hlen Hord Hroom Hh Hp _ _ _ Hpre Hs]. unfold apple_nvme_cqe_pending.
  set (D := apple_nvme_queue_depth hw (r_q r)) in *.
  set (h := Z.of_nat (length (handled r))) in *. set (t := Z.of_nat (length (posted r))) in *.
  rewrite Hh, Hp. destruct (Z.lt_ge_cases h t) as [Hlt|Hge].
  - destruct (Hs h) as (e & He & Hph & Hpo); [lia|]. rewrite He. specialize (Hpo ltac:(lia)).
    replace (Z.to_nat h) with (length (handled r)) in Hpo by lia. rewrite Hph, Z.eqb_refl, Hpo.
    split; [split; [lia|done]|done].
  - assert (h = t) as Eht by lia. destruct (Hs (t - D)) as (e & He & Hph & _); [lia|].
    assert ((t - D) mod D = h mod D) as Em.
    { rewrite Eht. replace (t - D) with (t + (-1) * D) by lia. apply Z_mod_plus_full. }
    rewrite Em in He. rewrite He, Hph, phase_prev_lap, Eht by lia.
    split; [|lia]. split; [|lia]. intros E. boolprop.
    destruct (phase_bool D t) as [E'|E']; rewrite E' in E; lia.
Qed.

Lemma post_inv r d result cid sc :
  ring_inv hw r d →
  let D := apple_nvme_queue_depth hw (r_q r) in
  let e := Cqe result cid (2 * sc + c_phase r) in
  (c_tail r + 1) mod D ≠ c_head r →
  ring_inv hw
    {| r_q := set_cqes (<[Z.to_nat (c_tail r) := e]> (cqes (r_q r))) (r_q r);
       c_tail := (c_tail r + 1) mod D;
       c_phase := if c_tail r + 1 =? D then 1 - c_phase r else c_phase r;
       c_head := c_head r; posted := posted r ++ [e]; handled := handled r |} d.
Proof.
  intros [HD Hlen Hord Hroom Hh Hp Ht Hcp Hch Hpre Hs] D e Hfull.
  assert (Z.of_nat (length (posted r ++ [e])) = Z.of_nat (length (posted r)) + 1) as Hl1
    by (rewrite length_app; simpl; lia).
  fold D in HD, Hlen, Hroom, Hh, Hp, Ht, Hcp, Hch, Hs.
  set (t := Z.of_nat (length (posted r))) in *.
  destruct (next_slot_div D t) as [N1 N2]; [lia|]. pose proof (Z.mod_pos_bound t D).
  assert ((c_tail r + 1) mod D = (t + 1) mod D) as Htail.
  { rewrite Ht. rewrite Zplus_mod_idemp_l. done. }
  split; cbn [r_q c_tail c_phase c_head posted handled]; rewrite ?depth_set_cqes; fold D;
    rewrite ?Hl1; try done; try lia.
  - simpl. rewrite length_insert. lia.
  - rewrite Htail in Hfull. rewrite Hch in Hfull.
    destruct (Z.eq_dec (t - d) (D - 1)) as [E|]; [|lia]. exfalso. apply Hfull.
    replace (t + 1) with (d + 1 * D) by lia. apply Z_mod_plus_full.
  - rewrite phase_next, <- Ht, Hcp by lia. done.
  - rewrite take_app_le by lia. done.
  - intros j Hj. simpl. destruct (Z.eq_dec j t) as [-> | Hne].
    + exists e. rewrite Ht. split; [|split].
      * apply list_lookup_insert_eq. lia.
      * simpl. rewrite Hcp. change (Z.land (2 * sc + phase_of D t) (Z.ones 1) = phase_of D t).
        rewrite Z.land_ones by lia.
        destruct (phase_bool D t) as [-> | ->]; Z.to_euclidean_division_equations; lia.
      * intros _. rewrite lookup_app_r by lia.
        by replace (Z.to_nat t - length (posted r))%nat with 0%nat by lia.
    + destruct (Hs j) as (e' & He' & Hph & Hpo); [lia|]. exists e'. split; [|split].
      * rewrite list_lookup_insert_ne; [done|]. rewrite Ht. pose proof (Z.mod_pos_bound j D).
        intros E. assert (t mod D = j mod D) as E' by lia.
        apply mod_inj in E'; lia.
      * done.
      * intros Hj0. rewrite lookup_app_l by lia. by apply Hpo.
Qed.

Lemma consume_inv r d e :
  ring_inv hw r d → apple_nvme_cqe_pending (r_q r) = true →
  cqes (r_q r) !! Z.to_nat (cq_head (r_q r)) = Some e →
  ring_inv hw
    {| r_q := apple_nvme_update_cq_head hw (r_q r); c_tail := c_tail r; c_phase := c_phase r;
       c_head := c_head r; posted := posted r; handled := handled r ++ [e] |} d.
Proof.
  intros Hinv Hpend He. destruct (pending_iff r d Hinv) as [Hlt Hnext].
  apply Hlt in Hpend. specialize (Hnext Hpend). rewrite He in Hnext.
  destruct Hinv as [HD Hlen Hord Hroom Hh Hp Ht Hcp Hch Hpre Hs].
  assert (Z.of_nat (length (handled r ++ [e])) = Z.of_nat (length (handled r)) + 1) as Hl1
    by (rewrite length_app; simpl; lia).
  set (D := apple_nvme_queue_depth hw (r_q r)) in *.
  set (h := Z.of_nat (length (handled r))) in *.
  destruct (next_slot_div D h) as [N1 N2]; [lia|]. pose proof (Z.mod_pos_bound h D).
  assert (cq_head (apple_nvme_update_cq_head hw (r_q r)) = (h + 1) mod D ∧
          cq_phase (apple_nvme_update_cq_head hw (r_q r)) = phase_of D (h + 1)) as [Eh Ep].
  { unfold apple_nvme_update_cq_head. fold D. rewrite phase_next, Hh, Hp by lia.
    rewrite u32_small by lia. destruct (Z.eqb_spec (h mod D + 1) D) as [E|E]; simpl.
    - split; [by destruct (N1 E)|]. destruct (phase_bool D h) as [-> | ->]; done.
    - split; [|done]. rewrite u16_small by lia. by destruct (N2 E). }
  split; cbn [r_q c_tail c_phase c_head posted handled];
    rewrite ?depth_update, ?cqes_update, ?Hl1; fold D; try done; try lia.
  - rewrite length_app. simpl. rewrite Nat.add_1_r, (take_S_r _ _ e) by done. by rewrite <- Hpre.
Qed.

Lemma ring_step_inv r r' d :
  ring_step hw r r' → ring_inv hw r d → ∃ d', ring_inv hw r' d'.
Proof.
  intros Hstep Hinv. destruct Hstep as [r result cid sc D e Hfull|r e Hp He|r].
  - exists d. by apply post_inv.
  - exists d. by apply consume_inv.
  - exists (Z.of_nat (length (handled r))).
    destruct Hinv as [HD Hlen Hord Hroom Hh Hp Ht Hcp Hch Hpre Hs]. by split; simpl; try lia.
Qed.

Lemma ring_reachable_inv r r' d :
  rtc (ring_step hw) r r' → ring_inv hw r d → ∃ d', ring_inv hw r' d'.
Proof.
  intros H. revert d. induction H as [|r1 r2 r3 H1 _ IH]; intros d Hinv; [by exists d|].
  destruct (ring_step_inv _ _ _ H1 Hinv) as [d' Hd']. by eapply IH.
Qed.
End ring.

(** ** The loop over the pending completions *)

Section poll.
Context {R : Type} (find_rq : bool → Z → option R) (try_complete add_to_batch : R → bool).
Context (hw : apple_nvme_hw).

(** Contribution of one completion: to the batch and to the events. *)
Definition one_cqe (admin : bool) (cqe : nvme_completion) : list R * list (event R) :=
  let inval := if has_lsq_nvmmu hw then apple_nvmmu_inval (cqe_command_id cqe) else [] in
  match find_rq admin (cqe_command_id cqe) with
  | None => ([], inval ++ [BadId (cqe_command_id cqe)])
  | Some req =>
      let evs := inval ++ [TryComplete req (cqe_status cqe) (cqe_result cqe)] in
      if try_complete req then ([], evs)
      else if add_to_batch req then ([req], evs ++ [AddToBatch req])
      else ([], evs ++ [AddToBatch req; CompleteRq req])
  end.

Definition all_cqes (admin : bool) (l : list nvme_completion) : list R * list (event R) :=
  (l ≫= λ c, (one_cqe admin c).1, l ≫= λ c, (one_cqe admin c).2).

Lemma handle_cqe_eq q iob idx cqe :
  cqes q !! Z.to_nat idx = Some cqe →
  apple_nvme_handle_cqe find_rq try_complete add_to_batch hw q iob idx =
  (iob ++ (one_cqe (is_adminq q) cqe).1, (one_cqe (is_adminq q) cqe).2).
Proof.
  intros H. unfold apple_nvme_handle_cqe, one_cqe. rewrite H.
  destruct (find_rq _ _) as [req|]; [|by rewrite app_nil_r].
  destruct (try_complete req); [by rewrite app_nil_r|].
  destruct (add_to_batch req); [done|by rewrite app_nil_r].
Qed.

Lemma is_adminq_update q : is_adminq (apple_nvme_update_cq_head hw q) = is_adminq q.
Proof. unfold apple_nvme_update_cq_head. by destruct (_ =? _). Qed.

Lemma poll_loop_spec fuel : ∀ r d iob found evs,
  ring_inv hw r d → (length (posted r) < fuel + length (handled r))%nat →
  ∃ r', rtc (ring_step hw) r r' ∧ handled r' = posted r ∧ posted r' = posted r ∧
    is_adminq (r_q r') = is_adminq (r_q r) ∧
    let pend := drop (length (handled r)) (posted r) in
    poll_loop find_rq try_complete add_to_batch fuel hw (r_q r) iob found evs =
    Some (found || negb (Nat.eqb (length pend) 0), r_q r',
          iob ++ (all_cqes (is_adminq (r_q r)) pend).1,
          evs ++ (all_cqes (is_adminq (r_q r)) pend).2).
Proof.
  induction fuel as [|fuel IH]; intros r d iob found evs Hinv Hfuel;
    pose proof (ri_order _ _ _ Hinv) as [_ Hord].
  { lia. }
  destruct (pending_iff hw r d Hinv) as [Hpend Hnext]. cbn [poll_loop].
  destruct (apple_nvme_cqe_pending (r_q r)) eqn:Hp.
  - assert (length (handled r) < length (posted r))%nat as Hlt by (by apply Hpend).
    specialize (Hnext Hlt).
    destruct (lookup_lt_is_Some_2 (posted r) (length (handled r)) Hlt) as [e He].
    rewrite He in Hnext. rewrite (handle_cqe_eq _ _ _ e) by done.
    pose proof (step_consume hw r e Hp Hnext) as Hstep.
    pose proof (consume_inv hw r d e Hinv Hp Hnext) as Hinv1.
    match type of Hstep with ring_step _ _ ?x => set (r1 := x) in * end.
    destruct (IH r1 d (iob ++ (one_cqe (is_adminq (r_q r)) e).1) true
      (evs ++ (one_cqe (is_adminq (r_q r)) e).2) Hinv1) as (r' & Hrtc & Hh & Hpo & Hadm & E).
    { subst r1. simpl. rewrite length_app. simpl. lia. }
    exists r'. split; [by eapply rtc_l|]. split; [done|]. split; [done|].
    assert (is_adminq (r_q r1) = is_adminq (r_q r)) as Ea by (subst r1; apply is_adminq_update).
    split; [congruence|]. cbv zeta. cbv zeta in E. change (r_q r1) with
      (apple_nvme_update_cq_head hw (r_q r)) in E. rewrite is_adminq_update in E.
    rewrite E. subst r1. cbn [handled posted]. rewrite length_app.
    change (length [e]) with 1%nat. rewrite Nat.add_1_r.
    rewrite (drop_S (posted r) e (length (handled r))) by done.
    unfold all_cqes. cbn [fst snd length Nat.eqb negb orb]. rewrite !bind_cons.
    rewrite !app_assoc, orb_true_r. done.
  - exists r. assert (length (handled r) = length (posted r)) as Heq.
    { destruct (decide (length (handled r) < length (posted r))%nat) as [Hlt|]; [|lia].
      apply Hpend in Hlt. done. }
    split; [done|]. split.
    { rewrite (ri_prefix _ _ _ Hinv), Heq. by rewrite take_ge by lia. }
    split; [done|]. split; [done|]. cbv zeta. rewrite drop_ge by lia. simpl.
    by rewrite orb_false_r, !app_nil_r.
Qed.

(** Requests that were completed, by whichever path. *)
Definition finished (evs : list (event R)) : list R :=
  evs ≫= λ e, match e with
              | CompleteRq r => [r]
              | CompleteBatch rs => rs
              | TryComplete r _ _ => if try_complete r then [r] else []
              | _ => []
              end.

Lemma finished_app l1 l2 : finished (l1 ++ l2) = finished l1 ++ finished l2.
Proof. unfold finished. apply bind_app. Qed.

Lemma finished_inval tag : finished (if has_lsq_nvmmu hw then apple_nvmmu_inval tag else []) = [].
Proof. by destruct (has_lsq_nvmmu hw). Qed.

Lemma one_cqe_finished admin c :
  finished (one_cqe admin c).2 ++ (one_cqe admin c).1 =
  match find_rq admin (cqe_command_id c) with Some r => [r] | None => [] end.
Proof.
  unfold one_cqe. destruct (find_rq _ _) as [r|].
  - destruct (try_complete r) eqn:Et; [|destruct (add_to_batch r)]; cbn [fst snd];
      rewrite ?finished_app, finished_inval; unfold finished; simpl; by rewrite Et.
  - cbn [fst snd]. by rewrite finished_app, finished_inval.
Qed.

Lemma all_cqes_finished admin l :
  finished (all_cqes admin l).2 ++ (all_cqes admin l).1 ≡ₚ
  omap (λ c, find_rq admin (cqe_command_id c)) l.
Proof.
  induction l as [|c l IH]; [done|]. unfold all_cqes in *. cbn [fst snd] in *.
  rewrite !bind_cons, finished_app. simpl.
  transitivity ((finished (one_cqe admin c).2 ++ (one_cqe admin c).1) ++
    (finished (l ≫= λ c, (one_cqe admin c).2) ++ (l ≫= λ c, (one_cqe admin c).1))).
  { rewrite <- !app_assoc. f_equiv. rewrite !app_assoc. f_equiv. apply Permutation_app_comm. }
  rewrite IH, one_cqe_finished. by destruct (find_rq _ _).
Qed.
End poll.

(** ** Theorems *)

(** C2. The completion ring is a FIFO: from the initialised queue on, whatever the
    interleaving of the controller's posts, the driver's consumption and the
    doorbell writes, the completions handled are a prefix of those posted, in
    order and without loss or repetition; the phase test is true exactly when one
    is outstanding, and then the slot at the head holds the next one. *)
Theorem cq_ring_fifo hw q r :
  2 ≤ apple_nvme_queue_depth hw q ≤ 2 ^ 15 →
  rtc (ring_step hw) (ring_init hw q) r →
  handled r `prefix_of` posted r ∧
  (apple_nvme_cqe_pending (r_q r) = true ↔ handled r ≠ posted r) ∧
  (handled r ≠ posted r →
   ∃ e, cqes (r_q r) !! Z.to_nat (cq_head (r_q r)) = Some e ∧
        handled r ++ [e] `prefix_of` posted r).
Proof.
  intros HD Hr. destruct (ring_reachable_inv hw _ _ _ Hr (ring_init_inv hw q HD)) as [d Hinv].
  destruct (pending_iff hw r d Hinv) as [Hp Hn]. pose proof (ri_prefix _ _ _ Hinv) as Hpre.
  pose proof (ri_order _ _ _ Hinv) as [_ Hord].
  assert (handled r ≠ posted r ↔ (length (handled r) < length (posted r))%nat) as Hne.
  { split; [|intros H E; rewrite E in H; lia]. intros H.
    destruct (decide (length (handled r) < length (posted r))%nat); [done|].
    destruct H. rewrite Hpre. apply take_ge. lia. }
  split; [rewrite Hpre; apply prefix_take|]. split; [by rewrite Hp, Hne|].
  intros H%Hne. destruct (lookup_lt_is_Some_2 _ _ H) as [e He]. exists e.
  split; [by rewrite Hn|]. rewrite Hpre at 1. rewrite <- (take_S_r _ _ e) by done. apply prefix_take.
Qed.

Definition demo_q (admin : bool) : apple_nvme_queue := Queue ∅ [] ∅ 0 0 0 admin false.
Definition demo_ring0 : ring := ring_init apple_nvme_t8103_hw (demo_q true).
Definition demo_e : nvme_completion := Cqe 7 0 1.
Definition demo_ring1 : ring :=
  Ring (set_cqes [demo_e; Cqe 0 0 0] (apple_nvme_init_queue apple_nvme_t8103_hw (demo_q true)))
    1 1 0 [demo_e] [].

Lemma demo_reachable : rtc (ring_step apple_nvme_t8103_hw) demo_ring0 demo_ring1.
Proof.
  apply rtc_once. apply (step_post apple_nvme_t8103_hw demo_ring0 7 0 0). vm_compute. discriminate.
Qed.

Lemma cq_ring_fifo_witness :
  apple_nvme_cqe_pending (r_q demo_ring1) = true ∧
  handled demo_ring1 `prefix_of` posted demo_ring1 ∧
  (apple_nvme_cqe_pending (r_q demo_ring1) = true ↔ handled demo_ring1 ≠ posted demo_ring1) ∧
  (handled demo_ring1 ≠ posted demo_ring1 →
   ∃ e, cqes (r_q demo_ring1) !! Z.to_nat (cq_head (r_q demo_ring1)) = Some e ∧
        handled demo_ring1 ++ [e] `prefix_of` posted demo_ring1).
Proof.
  split; [vm_compute; reflexivity|].
  apply (cq_ring_fifo apple_nvme_t8103_hw (demo_q true) demo_ring1).
  - vm_compute. split; discriminate.
  - exact demo_reachable.
Defined.

(** C25. The completion handler terminates and drains the ring: called on an
    enabled queue (or with force), it leaves the queue in the state reached by
    consuming every outstanding completion, reports whether there was one, tells
    the controller the new head in that case, and completes each request named by
    an outstanding completion exactly once, remotely, in the batch or directly. *)
Theorem handle_cq_drains {R} (find_rq : bool → Z → option R) try_complete add_to_batch
    hw q r force :
  2 ≤ apple_nvme_queue_depth hw q ≤ 2 ^ 15 →
  rtc (ring_step hw) (ring_init hw q) r → enabled (r_q r) || force = true →
  ∃ r' evs, let pend := drop (length (handled r)) (posted r) in
    rtc (ring_step hw) r r' ∧ handled r' = posted r ∧
    apple_nvme_handle_cq find_rq try_complete add_to_batch hw (r_q r) force =
      Some (negb (Nat.eqb (length pend) 0), r_q r', evs) ∧
    apple_nvme_cqe_pending (r_q r') = false ∧
    finished try_complete evs ≡ₚ
      omap (λ c, find_rq (is_adminq (r_q r)) (cqe_command_id c)) pend ∧
    (pend ≠ [] → WCqDb (is_adminq (r_q r)) (cq_head (r_q r')) ∈ evs).
Proof.
  intros HD Hr Hen. destruct (ring_reachable_inv hw _ _ _ Hr (ring_init_inv hw q HD)) as [d Hinv].
  pose proof (ri_order _ _ _ Hinv) as [_ Hord]. pose proof (ri_room _ _ _ Hinv) as Hroom.
  pose proof (ri_order _ _ _ Hinv) as [Hd _].
  destruct (poll_loop_spec find_rq try_complete add_to_batch hw
    (S (Z.to_nat (apple_nvme_queue_depth hw (r_q r)))) r d [] false [] Hinv) as
    (r' & Hrtc & Hh & Hpo & Hadm & E); [lia|].
  set (pend := drop (length (handled r)) (posted r)) in *. cbv zeta in E.
  set (X := all_cqes find_rq try_complete add_to_batch hw (is_adminq (r_q r)) pend) in *.
  exists r', ((X.2 ++ if negb (Nat.eqb (length pend) 0)
                      then [WCqDb (is_adminq (r_q r')) (cq_head (r_q r'))] else []) ++
              match X.1 with [] => [] | _ => [CompleteBatch X.1] end).
  cbv zeta. fold pend. split; [done|]. split; [done|]. split.
  { unfold apple_nvme_handle_cq, apple_nvme_poll_cq. rewrite E.
    destruct (enabled (r_q r)), force; done. }
  split.
  { destruct (ring_reachable_inv hw _ _ _ Hrtc Hinv) as [d' Hinv'].
    destruct (pending_iff hw r' d' Hinv') as [Hp _]. rewrite Hh, Hpo in Hp.
    destruct (apple_nvme_cqe_pending (r_q r')); [|done]. destruct Hp as [Hp _].
    specialize (Hp eq_refl). lia. }
  split.
  - rewrite !finished_app. rewrite <- (all_cqes_finished find_rq try_complete add_to_batch hw).
    fold X. rewrite <- app_assoc. f_equiv.
    destruct (Nat.eqb (length pend) 0); cbn [negb];
      destruct (X.1) as [|x l]; simpl; by rewrite ?app_nil_r.
  - intros Hne. rewrite Hadm. apply elem_of_app. left. apply elem_of_app. right.
    destruct pend; [done|]. simpl. apply list_elem_of_here.
Qed.

Lemma handle_cq_drains_witness :
  let find_rq (a : bool) (cid : Z) := if cid =? 0 then Some cid else None in
  ∃ r' evs, let pend := drop (length (handled demo_ring1)) (posted demo_ring1) in
    rtc (ring_step apple_nvme_t8103_hw) demo_ring1 r' ∧ handled r' = posted demo_ring1 ∧
    apple_nvme_handle_cq find_rq (λ _, false) (λ _, true) apple_nvme_t8103_hw
      (r_q demo_ring1) false = Some (negb (Nat.eqb (length pend) 0), r_q r', evs) ∧
    apple_nvme_cqe_pending (r_q r') = false ∧
    finished (λ _, false) evs ≡ₚ
      omap (λ c, find_rq (is_adminq (r_q demo_ring1)) (cqe_command_id c)) pend ∧
    (pend ≠ [] → WCqDb (is_adminq (r_q demo_ring1)) (cq_head (r_q r')) ∈ evs).
Proof.
  refine (handle_cq_drains _ (λ _, false) (λ _, true) apple_nvme_t8103_hw (demo_q true)
            demo_ring1 false _ _ _).
  - vm_compute. split; discriminate.
  - exact demo_reachable.
  - vm_compute. reflexivity.
Defined.

(** *** Submission *)

(** Position of an event in a trace. *)
Definition before {R} (evs : list (event R)) (P Q : event R → Prop) : Prop :=
  ∃ i j e f, (i < j)%nat ∧ evs !! i = Some e ∧ evs !! j = Some f ∧ P e ∧ Q f.

(** A command submitted to the linear queue is in memory before its tag is
    rung: submission-queue slot and TCB are written first, both are inside their
    buffers for every tag the block layer hands out, the TCB carries the
    command's own PRPs, length and direction under its own tag, and no other slot
    or TCB changes. *)
Theorem submit_t8103_safe {R} compatible hw q bufs q1 is_write tag_of cmd tag :
  apple_nvme_of_match compatible = Some hw → has_lsq_nvmmu hw = true →
  apple_nvme_queue_alloc hw q1 (true, true, true) = Ok (q, bufs) →
  tag_of (c_command_id cmd) = tag →
  (if is_adminq q then admin_tag hw tag else io_tag hw tag) = true →
  let '(q', evs) := apple_nvme_submit_cmd_t8103 (R := R) is_write tag_of q cmd in
  sqes q' !! (tag * 64) = Some cmd ∧ tag * 64 + 64 ≤ sq_size bufs ∧
  (∃ t, tcbs q' !! tag = Some t ∧ tcb_prp1 t = c_prp1 cmd ∧ tcb_prp2 t = c_prp2 cmd ∧
     tcb_length t = c_length cmd ∧ tcb_command_id t = tag ∧
     tcb_dma_flags t = (if is_write cmd then 2 else 1)) ∧
  tag * 128 + 128 ≤ tcb_size bufs ∧
  (∀ off, off ≠ tag * 64 → sqes q' !! off = sqes q !! off) ∧
  (∀ tag', tag' ≠ tag → tcbs q' !! tag' = tcbs q !! tag') ∧
  before evs (λ e, ∃ t, e = MemTcb tag t) (λ e, e = WSqDb (is_adminq q) tag) ∧
  before evs (λ e, e = MemSqe (tag * 64) cmd) (λ e, e = WSqDb (is_adminq q) tag).
Proof.
  intros Hm Hl Hal Htag Hok.
  assert (max_queue_depth hw = 64) as Hd.
  { unfold apple_nvme_of_match in Hm. repeat case_if; simplify_eq; done. }
  assert (bufs = Buffers (apple_nvme_queue_depth hw q * 16) (apple_nvme_queue_depth hw q * 64) 8192) as ->.
  { unfold apple_nvme_queue_alloc in Hal. rewrite Hl, Hd in Hal. simpl in Hal. by injection Hal as <- <-. }
  assert (0 ≤ tag < apple_nvme_queue_depth hw q ∧ tag < 64) as [Ht Ht'].
  { unfold apple_nvme_queue_depth, admin_tag, io_tag, tagsets_of in *. rewrite Hl, Hd in *.
    destruct (is_adminq q); simpl in *; boolprop;
      unfold APPLE_NVME_AQ_MQ_TAG_DEPTH, APPLE_NVME_AQ_DEPTH in *; lia. }
  unfold apple_nvme_submit_cmd_t8103. rewrite Htag, u32_small by lia.
  unfold sizeof_nvme_command. cbn [sqes tcbs set_sq sq_size tcb_size].
  rewrite !lookup_insert_eq, u8_small by lia.
  split; [done|]. split; [lia|]. split.
  { eexists. split; [done|]. cbn. repeat split. }
  split; [lia|]. split; [intros; by rewrite lookup_insert_ne|].
  split; [intros; by rewrite lookup_insert_ne|]. split.
  - exists 0%nat, 3%nat. eexists _, _. split; [lia|]. do 2 (split; [reflexivity|]). eauto.
  - exists 1%nat, 3%nat. eexists _, _. split; [lia|]. do 2 (split; [reflexivity|]). eauto.
Qed.

Definition demo_cmd (cid : Z) : nvme_command := Cmd 2 cid 1 0x1000 0x2000 7 [].

Lemma submit_t8103_safe_witness :
  let q := set_cq 0 1 (demo_q false) in
  let '(q', evs) := apple_nvme_submit_cmd_t8103 (R := Z) (λ _, false) (λ c, Z.land c 0xfff) q
                      (demo_cmd 0x5005) in
  sqes q' !! (5 * 64) = Some (demo_cmd 0x5005) ∧ 5 * 64 + 64 ≤ 4096 ∧
  (∃ t, tcbs q' !! 5 = Some t ∧ tcb_prp1 t = 0x1000 ∧ tcb_prp2 t = 0x2000 ∧
     tcb_length t = 7 ∧ tcb_command_id t = 5 ∧ tcb_dma_flags t = 1) ∧
  5 * 128 + 128 ≤ 8192 ∧
  (∀ off, off ≠ 5 * 64 → sqes q' !! off = sqes q !! off) ∧
  (∀ tag', tag' ≠ 5 → tcbs q' !! tag' = tcbs q !! tag') ∧
  before evs (λ e, ∃ t, e = MemTcb 5 t) (λ e, e = WSqDb false 5) ∧
  before evs (λ e, e = MemSqe (5 * 64) (demo_cmd 0x5005)) (λ e, e = WSqDb false 5).
Proof.
  refine (submit_t8103_safe "apple,nvme-ans2" apple_nvme_t8103_hw (set_cq 0 1 (demo_q false))
    (Buffers 1024 4096 8192) (demo_q false) (λ _, false) (λ c, Z.land c 0xfff)
    (demo_cmd 0x5005) 5 _ _ _ _ _); reflexivity.
Defined.

(** The tags of the two queues are disjoint on the controllers that index one
    NVMMU table with them, and every tag is below the table's size. *)
Theorem tags_disjoint compatible hw a b :
  apple_nvme_of_match compatible = Some hw → has_lsq_nvmmu hw = true →
  admin_tag hw a = true → io_tag hw b = true →
  a ≠ b ∧ 0 ≤ a < max_queue_depth hw ∧ 0 ≤ b < max_queue_depth hw.
Proof.
  intros Hm Hl Ha Hb. assert (max_queue_depth hw = 64) as Hd.
  { unfold apple_nvme_of_match in Hm. repeat case_if; simplify_eq; done. }
  unfold admin_tag, io_tag, tagsets_of in *. rewrite Hl, Hd in *. simpl in *. boolprop.
  unfold APPLE_NVME_AQ_MQ_TAG_DEPTH, APPLE_NVME_AQ_DEPTH in *. lia.
Qed.

Lemma tags_disjoint_witness :
  0 ≠ 2 ∧ 0 ≤ 0 < max_queue_depth apple_nvme_t8132_hw ∧ 0 ≤ 2 < max_queue_depth apple_nvme_t8132_hw.
Proof.
  apply (tags_disjoint "apple,t8132-nvme-ans2" apple_nvme_t8132_hw 0 2); reflexivity.
Defined.

(** *** The classic submission ring *)

Definition slot_off (admin : bool) (slot : Z) : Z :=
  if admin then slot * sizeof_nvme_command else Z.shiftl slot APPLE_NVME_IOSQES.

Fixpoint submit_all {R} (hw : apple_nvme_hw) (q : apple_nvme_queue) (cmds : list nvme_command)
    : apple_nvme_queue * list (event R) :=
  match cmds with
  | [] => (q, [])
  | c :: cmds' =>
      let '(q1, e1) := apple_nvme_submit_cmd_t8015 hw q c in
      let '(q2, e2) := submit_all hw q1 cmds' in (q2, e1 ++ e2)
  end.

Lemma slot_off_inj admin a b : 0 ≤ a → 0 ≤ b → slot_off admin a = slot_off admin b → a = b.
Proof.
  intros. unfold slot_off, sizeof_nvme_command, APPLE_NVME_IOSQES in *.
  rewrite !Z.shiftl_mul_pow2 in * by lia. destruct admin; lia.
Qed.

(** What the last [D] of [n] submissions left in the ring. *)
Record sq_inv (hw : apple_nvme_hw) (q : apple_nvme_queue) (done : list nvme_command) : Prop := {
  si_tail : sq_tail q = Z.of_nat (length done) mod max_queue_depth hw;
  si_slots i c : Z.of_nat (length done) - max_queue_depth hw ≤ Z.of_nat i →
    done !! i = Some c →
    sqes q !! slot_off (is_adminq q) (Z.of_nat i mod max_queue_depth hw) = Some c
}.

Lemma submit_t8015_inv {R} hw q done c :
  2 ≤ max_queue_depth hw ≤ 2 ^ 15 → sq_inv hw q done →
  let '(q', evs) := apple_nvme_submit_cmd_t8015 (R := R) hw q c in
  sq_inv hw q' (done ++ [c]) ∧ is_adminq q' = is_adminq q.
Proof.
  intros HD [Ht Hs]. unfold apple_nvme_submit_cmd_t8015. split; [|done].
  set (D := max_queue_depth hw) in *. set (n := Z.of_nat (length done)) in *.
  assert (Z.of_nat (length (done ++ [c])) = n + 1) as Hn by (rewrite length_app; simpl; lia).
  destruct (next_slot_div D n) as [N1 N2]; [lia|]. pose proof (Z.mod_pos_bound n D ltac:(lia)) as Hm.
  split; simpl; fold D; rewrite Hn.
  - rewrite Ht, u16_small by lia. destruct (Z.eqb_spec (n mod D + 1) D) as [E|E].
    + by destruct (N1 E).
    + by destruct (N2 E).
  - fold (slot_off (is_adminq q) (sq_tail q)). intros i c' Hi [Hc|[Hlen Hc]]%lookup_app_Some.
    + pose proof (lookup_lt_Some _ _ _ Hc). rewrite lookup_insert_ne; [apply Hs; [lia|done]|].
      intros E. pose proof (Z.mod_pos_bound (Z.of_nat i) D ltac:(lia)).
      apply slot_off_inj in E; [|lia|lia]. rewrite Ht in E.
      apply mod_inj in E; lia.
    + destruct (i - length done)%nat eqn:Ei; [|done]. injection Hc as <-.
      replace (Z.of_nat i) with n by lia. by rewrite <- Ht, lookup_insert_eq.
Qed.

Lemma submit_all_inv {R} hw cmds : 2 ≤ max_queue_depth hw ≤ 2 ^ 15 → ∀ q done,
  sq_inv hw q done →
  sq_inv hw (submit_all (R := R) hw q cmds).1 (done ++ cmds) ∧
  is_adminq (submit_all (R := R) hw q cmds).1 = is_adminq q.
Proof.
  intros HD. induction cmds as [|c cmds IH]; intros q done Hq; cbn [submit_all].
  { by rewrite app_nil_r. }
  pose proof (submit_t8015_inv (R := R) hw q done c HD Hq) as H.
  destruct (apple_nvme_submit_cmd_t8015 hw q c) as [q1 e1]. destruct H as [H1 Ha].
  specialize (IH q1 (done ++ [c]) H1). destruct (submit_all hw q1 cmds) as [q2 e2]. cbn [fst] in *.
  rewrite <- app_assoc in IH. by rewrite <- Ha.
Qed.

(** On the older controller the submission ring never overwrites a command that
    can still be outstanding: after any number of submissions from an initialised
    queue, the commands of the last [depth] submissions, more than the block layer
    allows in flight, are intact in their slots, which lie inside the buffer, and
    the tail the doorbell was given is the next slot. *)
Theorem submit_t8015_keeps_outstanding {R} q0 bufs cmds q :
  apple_nvme_queue_alloc apple_nvme_t8015_hw q0 (true, true, true) = Ok (q, bufs) →
  sq_tail q = 0 →
  let q' := (submit_all (R := R) apple_nvme_t8015_hw q cmds).1 in
  sq_tail q' = Z.of_nat (length cmds) mod 16 ∧
  ∀ i c, Z.of_nat (length cmds) - io_depth (tagsets_of apple_nvme_t8015_hw) ≤ Z.of_nat i →
    cmds !! i = Some c →
    let off := slot_off (is_adminq q) (Z.of_nat i mod 16) in
    sqes q' !! off = Some c ∧ 0 ≤ off ∧ off + sizeof_nvme_command ≤ sq_size bufs ∧
    (Z.of_nat (length cmds) - io_depth (tagsets_of apple_nvme_t8015_hw) < Z.of_nat i →
     off ≠ slot_off (is_adminq q) (sq_tail q')).
Proof.
  intros Hal Ht0 q'. assert (sq_size bufs = 2048) as Hsz.
  { unfold apple_nvme_queue_alloc, apple_nvme_queue_depth in Hal. simpl in Hal.
    rewrite andb_false_r in Hal. by injection Hal as <- <-. }
  assert (sq_inv apple_nvme_t8015_hw q []) as H0.
  { split; [done|]. intros i c _ H. by rewrite lookup_nil in H. }
  destruct (submit_all_inv (R := R) apple_nvme_t8015_hw cmds ltac:(simpl; lia) q [] H0) as [[Ht Hs] Ha].
  fold q' in Ht, Hs, Ha. cbn [app] in *. change (max_queue_depth apple_nvme_t8015_hw) with 16 in *.
  split; [done|]. intros i c Hi Hc. simpl in Hi.
  pose proof (Z.mod_pos_bound (Z.of_nat i) 16 ltac:(lia)) as Hm.
  split; [rewrite <- Ha; apply Hs; [lia|done]|].
  split; [unfold slot_off; rewrite Z.shiftl_mul_pow2 by (vm_compute; discriminate);
          unfold sizeof_nvme_command, APPLE_NVME_IOSQES; destruct (is_adminq q); lia|].
  split; [unfold slot_off; rewrite Hsz, Z.shiftl_mul_pow2 by (vm_compute; discriminate);
          unfold sizeof_nvme_command, APPLE_NVME_IOSQES; destruct (is_adminq q); lia|].
  intros Hlt E. apply slot_off_inj in E; [|lia|rewrite Ht; apply Z.mod_pos_bound; lia].
  rewrite Ht in E. symmetry in E. pose proof (lookup_lt_Some _ _ _ Hc). simpl in Hlt.
  apply mod_inj in E; lia.
Qed.

Definition demo_cmds : list nvme_command := demo_cmd <$> seqZ 0 20.

Lemma submit_t8015_keeps_outstanding_witness :
  let q' := (submit_all (R := Z) apple_nvme_t8015_hw (set_cq 0 1 (demo_q false)) demo_cmds).1 in
  sq_tail q' = Z.of_nat (length demo_cmds) mod 16 ∧
  ∀ i c, Z.of_nat (length demo_cmds) - io_depth (tagsets_of apple_nvme_t8015_hw) ≤ Z.of_nat i →
    demo_cmds !! i = Some c →
    let off := slot_off (is_adminq (set_cq 0 1 (demo_q false))) (Z.of_nat i mod 16) in
    sqes q' !! off = Some c ∧ 0 ≤ off ∧
    off + sizeof_nvme_command ≤ sq_size (Buffers 256 2048 0) ∧
    (Z.of_nat (length demo_cmds) - io_depth (tagsets_of apple_nvme_t8015_hw) < Z.of_nat i →
     off ≠ slot_off (is_adminq (set_cq 0 1 (demo_q false))) (sq_tail q')).
Proof.
  refine (submit_t8015_keeps_outstanding (demo_q false) (Buffers 256 2048 0) demo_cmds
            (set_cq 0 1 (demo_q false)) _ _); reflexivity.
Defined.
