(* ===== verification/NvmeCtrl.v ===== *)
(** * NVMe controller life cycle (drivers/nvme/host/apple.c)

    Start-up, reset, error handling and shutdown of the controller, as sequences
    of events.  Each call into the kernel, the firmware interface (RTKit) or the
    hardware is an event; its answer is an oracle on the history, so the theorems
    hold for every behaviour of the other side.  The [enabled] flags of the two
    queues are the last ones written in the history.  Log messages and memory
    barriers are not modelled. *)

From Stdlib Require Import ZArith Lia Bool.
From stdpp Require Import base numbers list option sets.
From S2P Require Import Prelude Sart NvmePrp NvmeQueue.

Local Open Scope list_scope.
Local Open Scope Z_scope.

Inductive nvme_ctrl_state :=
| NVME_CTRL_NEW | NVME_CTRL_LIVE | NVME_CTRL_RESETTING | NVME_CTRL_CONNECTING
| NVME_CTRL_DELETING | NVME_CTRL_DELETING_NOIO | NVME_CTRL_DEAD.

#[export] Instance ctrl_state_eq_dec : EqDecision nvme_ctrl_state.
Proof. solve_decision. Defined.

Definition APPLE_ANS_BOOT_STATUS_OK : Z := 0xde71ce55.
Definition APPLE_ANS_COPROC_CPU_CONTROL_RUN : Z := BIT 4.
Definition NVME_QUEUE_PHYS_CONTIG : Z := BIT 0.
Definition NVME_CQ_IRQ_ENABLED : Z := BIT 1.
Definition APPLE_ANS_ACQ_DB : Z := 0x1004.
Definition APPLE_ANS_IOCQ_DB : Z := 0x100c.
Definition APPLE_ANS_LINEAR_ASQ_DB : Z := 0x2490c.
Definition APPLE_ANS_LINEAR_IOSQ_DB : Z := 0x24910.
Definition NVME_REG_DBS : Z := 0x1000.
Definition NVME_CSTS_RDY : Z := BIT 0.
Definition NVME_CSTS_CFS : Z := BIT 1.

(** Registers the reset path writes. *)
Inductive reg :=
| CPU_CONTROL | MAX_PEND_CMDS_CTRL | NVMMU_NUM_TCBS | NVME_REG_AQA | NVME_REG_ASQ | NVME_REG_ACQ
| NVMMU_ASQ_TCB_BASE | NVMMU_IOSQ_TCB_BASE | IOCQ_REGISTER | IOSQ_REGISTER.

(** Where the registers the driver itself names are (those of the NVMe standard
    come with the NVMe headers): the mapped region, the offset in it and the width
    in bytes of the access. *)
Inductive region := mmio_coproc | mmio_nvme | mmio_nvmmu.
Definition reg_place (r : reg) : option (region * Z * Z) :=
  match r with
  | CPU_CONTROL => Some (mmio_coproc, 0x44, 4)
  | IOSQ_REGISTER => Some (mmio_nvme, 0x1200, 8)
  | IOCQ_REGISTER => Some (mmio_nvme, 0x1208, 8)
  | MAX_PEND_CMDS_CTRL => Some (mmio_nvme, 0x1210, 4)
  | NVMMU_NUM_TCBS => Some (mmio_nvmmu, 0x28100, 4)
  | NVMMU_ASQ_TCB_BASE => Some (mmio_nvmmu, 0x28108, 8)
  | NVMMU_IOSQ_TCB_BASE => Some (mmio_nvmmu, 0x28110, 8)
  | NVME_REG_AQA | NVME_REG_ASQ | NVME_REG_ACQ => None
  end.
Definition APPLE_ANS_BOOT_STATUS : Z := 0x1300.

(** Admin commands of the driver. *)
Inductive admin_cmd :=
| CreateCq (prp1 cqid qsize cq_flags irq_vector : Z)
| CreateSq (prp1 sqid qsize sq_flags cqid : Z)
| DeleteSq (qid : Z)
| DeleteCq (qid : Z).

(** The fallible steps of [apple_nvme_alloc] after the power domains. *)
Inductive alloc_step :=
| SetDmaMask | GetIrq | MapCoproc | MapNvme | MapNvmmu | GetSart | GetReset
| QueueAlloc (admin : bool) | PrpPagePool | PrpSmallPool | IodMempool | MempoolAction
| AllocTagsets | RequestIrq | RtkitInit | InitCtrl.

(** Where the doorbells of the two queues are: the region ([true] for the NVMMU
    one) and the offset in it. *)
Record doorbells := Doorbells {
  adminq_sq_db : bool * Z; adminq_cq_db : bool * Z; ioq_sq_db : bool * Z; ioq_cq_db : bool * Z
}.

Inductive event :=
| ReadCsts | IsCrashed | IsRunning
| StartFreeze | WaitFreezeTimeout | WaitFreeze | Unfreeze
| QuiesceIo | QuiesceAdmin | UnquiesceIo | UnquiesceAdmin
| SyncCmd (c : admin_cmd)
| FlushCmd (ns : Z)
| DisableCtrl (shutdown : bool) | EnableCtrl | InitCtrlFinish | StartCtrl
| SetEnabled (admin b : bool)
| InitQueue (admin : bool)
| HandleCq (admin force : bool)
| CancelTagset | CancelAdminTagset
| RtkitShutdown | RtkitReinit | RtkitBoot | RtkitWake
| ResetAssert | ResetDeassert
| ReadCpuControl | PollBootStatus | WriteReg (r : reg) (v : Z)
| SetLimits (sectors segments : Z) | SetMaxSegSize (n : Z) | SetSqsize (n : Z) | SetQueueCount (n : Z) | ReadCap
| UpdateNrHwQueues (n : Z)
| ChangeState (s : nvme_ctrl_state)
| GetCtrl | PutCtrl | MarkNamespacesDead | QueueRemoveWork
| DeviceReleaseDriver | FlushResetWork | FlushScanWork | FlushDwork
| StopCtrl | RemoveNamespaces | UninitCtrl | ResetCtrl | AsyncSchedule
| CompleteRequest | CancelRequest
| LinkAdd (i : nat) | LinkDel (i : nat) | DomainAttach (i : nat) | DomainDetach (i : nat)
| GetDevice | PutDevice
| AllocStep (s : alloc_step) | SetDoorbells (dbs : doorbells) | InitFlush
| AddCtrl | AllocAdminQueue
| NullDeref.

(** The largest transfer, in sectors. *)
Definition max_hw_sectors (dma_max : Z) : Z :=
  Z.min (u32 (Z.shiftl NVME_MAX_KB_SZ 1)) (u32 (Z.shiftr dma_max 9)).

(** The last value written to a queue's [enabled]; queues start disabled. *)
Definition enabled_after (admin : bool) (t : list event) : bool :=
  fold_left (λ b e, match e with
                    | SetEnabled a b' => if eqb a admin then b' else b
                    | InitQueue a => if eqb a admin then true else b
                    | _ => b
                    end) t false.

Definition read_enabled (admin : bool) : TR event bool := λ t, (enabled_after admin t, t).

Section driver.
(** Answers of the other side, and the controller state the core reports. *)
Context (ans : list event → event → Z) (ctrl_state : list event → nvme_ctrl_state).
Context (hw : apple_nvme_hw).
(** [dma_max_mapping_size], in bytes. *)
Context (dma_max : Z).
(** DMA addresses of the queues: admin sq, cq, tcb; I/O sq, cq, tcb. *)
Context (asq acq atcb iosq iocq iotcb : Z).

Definition get_state : TR event nvme_ctrl_state := λ t, (ctrl_state t, t).
Definition call (e : event) : TR event Z := ask ans e.
Definition ok (e : event) : TR event bool := r ← call e; mret (negb (r =? 0)).

Definition apple_nvme_create_cq : TR event Z :=
  call (SyncCmd (CreateCq iocq 1 (u16 (max_queue_depth hw - 1))
    (Z.lor NVME_QUEUE_PHYS_CONTIG NVME_CQ_IRQ_ENABLED) 0)).
Definition apple_nvme_create_sq : TR event Z :=
  call (SyncCmd (CreateSq iosq 1 (u16 (max_queue_depth hw - 1)) NVME_QUEUE_PHYS_CONTIG 1)).
Definition apple_nvme_remove_cq : TR event Z := call (SyncCmd (DeleteCq 1)).
Definition apple_nvme_remove_sq : TR event Z := call (SyncCmd (DeleteSq 1)).

Definition apple_nvme_disable (shutdown : bool) : TR event unit :=
  state ← get_state;
  csts ← call ReadCsts;
  crashed ← ok IsCrashed;
  let dead := crashed || (Z.land csts NVME_CSTS_RDY =? 0)
              || negb (Z.land csts NVME_CSTS_CFS =? 0) in
  let freeze := bool_decide (state = NVME_CTRL_LIVE) || bool_decide (state = NVME_CTRL_RESETTING) in
  (if freeze then emit StartFreeze else mret tt);;
  (if negb dead && shutdown && freeze then emit WaitFreezeTimeout else mret tt);;
  emit QuiesceIo;;
  (if negb dead then
     io_enabled ← read_enabled false;
     (if io_enabled : bool then apple_nvme_remove_sq;; apple_nvme_remove_cq;; mret tt else mret tt);;
     (if shutdown then emit (DisableCtrl true) else mret tt);;
     emit (DisableCtrl false)
   else mret tt);;
  emit (SetEnabled false false);;
  emit (SetEnabled true false);;
  emit QuiesceAdmin;;
  emit (HandleCq false true);;
  emit (HandleCq true true);;
  emit CancelTagset;;
  emit CancelAdminTagset;;
  (if shutdown then emit UnquiesceIo;; emit UnquiesceAdmin else mret tt).

(** [started] and [completed] are what blk-mq says of the request, the second
    one after the poll as well. *)
Definition apple_nvme_timeout (is_admin started completed completed_after_poll : bool)
    : TR event unit :=
  csts ← call ReadCsts;
  state ← get_state;
  if negb (bool_decide (state = NVME_CTRL_LIVE)) then
    if started && negb completed then emit CancelRequest;; emit CompleteRequest else mret tt
  else
    crashed ← ok IsCrashed;
    polled ←
      (if negb crashed && (Z.land csts NVME_CSTS_CFS =? 0)
       then emit (HandleCq is_admin false);; mret completed_after_poll
       else mret false);
    if polled : bool then mret tt
    else emit CancelRequest;; apple_nvme_disable false;; call ResetCtrl;; mret tt.

(** [out]: the controller goes away. *)
Definition reset_out : TR event unit :=
  emit (ChangeState NVME_CTRL_DELETING);;
  emit GetCtrl;;
  apple_nvme_disable false;;
  emit MarkNamespacesDead;;
  queued ← ok QueueRemoveWork;
  (if queued : bool then mret tt else emit PutCtrl).

(** [goto out] on a non-zero return. *)
Definition try_or_out (m : TR event Z) (k : TR event unit) : TR event unit :=
  ret ← m; if negb (ret =? 0) then reset_out else k.

Definition reset_live : TR event unit :=
  emit (InitQueue false);;
  (if need_ioq_register hw then
     emit (WriteReg IOCQ_REGISTER iocq);; emit (WriteReg IOSQ_REGISTER iosq)
   else mret tt);;
  emit (SetQueueCount 2);;
  emit UnquiesceIo;;
  emit WaitFreeze;;
  emit (UpdateNrHwQueues 1);;
  emit Unfreeze;;
  live ← ok (ChangeState NVME_CTRL_LIVE);
  if negb live then apple_nvme_remove_sq;; apple_nvme_remove_cq;; reset_out
  else emit StartCtrl.

(** From the booted firmware to the live controller. *)
Definition reset_init : TR event unit :=
  let D := max_queue_depth hw in
  emit (SetLimits (max_hw_sectors dma_max) NVME_MAX_SEGS);;
  emit (SetMaxSegSize 0xffffffff);;
  (if has_lsq_nvmmu hw then
     emit (WriteReg MAX_PEND_CMDS_CTRL (u32 (Z.lor D (Z.shiftl D 16))));;
     emit (WriteReg NVMMU_NUM_TCBS (u32 (D - 1)))
   else mret tt);;
  let aqa := if has_lsq_nvmmu hw then APPLE_NVME_AQ_DEPTH - 1 else u32 (D - 1) in
  let aqa := u32 (Z.lor aqa (Z.shiftl aqa 16)) in
  emit (WriteReg NVME_REG_AQA aqa);;
  emit (WriteReg NVME_REG_ASQ asq);;
  emit (WriteReg NVME_REG_ACQ acq);;
  (if has_lsq_nvmmu hw then
     emit (WriteReg NVMMU_ASQ_TCB_BASE atcb);; emit (WriteReg NVMMU_IOSQ_TCB_BASE iotcb)
   else mret tt);;
  emit (SetSqsize (D - 1));;
  emit ReadCap;;
  try_or_out (call EnableCtrl) (
  emit (InitQueue true);;
  emit UnquiesceAdmin;;
  connecting ← ok (ChangeState NVME_CTRL_CONNECTING);
  if negb connecting then reset_out else
  try_or_out (call InitCtrlFinish) (
  try_or_out apple_nvme_create_cq (
  ret ← apple_nvme_create_sq;
  if negb (ret =? 0) then apple_nvme_remove_cq;; reset_out
  else reset_live))).

(** Boot of the coprocessor, then the rest.  The soft reset is only done when
    the CPU is not running. *)
Definition reset_boot : TR event unit :=
  let booted :=
    λ ret : Z, if negb (ret =? 0) then reset_out
               else try_or_out (call PollBootStatus) reset_init in
  control ← call ReadCpuControl;
  if Z.land control APPLE_ANS_COPROC_CPU_CONTROL_RUN =? 0 then
    try_or_out (call ResetAssert) (
    try_or_out (call RtkitReinit) (
    try_or_out (call ResetDeassert) (
    emit (WriteReg CPU_CONTROL APPLE_ANS_COPROC_CPU_CONTROL_RUN);;
    ret ← call RtkitBoot;
    booted ret)))
  else
    ret ← call RtkitWake;
    booted ret.

(** [cc_enable] is [anv->ctrl.ctrl_config & NVME_CC_ENABLE]. *)
Definition apple_nvme_reset_work (cc_enable : bool) : TR event unit :=
  state ← get_state;
  if negb (bool_decide (state = NVME_CTRL_RESETTING)) then reset_out
  else
    crashed ← ok IsCrashed;
    if crashed : bool then reset_out
    else
      running ← ok IsRunning;
      if running : bool then
        (if cc_enable then apple_nvme_disable false else mret tt);;
        try_or_out (call RtkitShutdown) (emit (WriteReg CPU_CONTROL 0);; reset_boot)
      else reset_boot.

Definition apple_nvme_remove_dead_ctrl_work : TR event unit :=
  emit PutCtrl;; emit DeviceReleaseDriver.

(** ** Power domains *)

Inductive pd_slot := PdNull | PdErr (e : Z) | PdDev.

(** [pd_dev] and [pd_link] are NULL until allocated. *)
Record genpd := Genpd {
  pd_count : Z;
  pd_dev : option (list pd_slot);
  pd_link : option (list bool)
}.

(** [n] iterations left: index [n - 1]. *)
Fixpoint detach_loop (n : nat) (devs : option (list pd_slot)) (links : option (list bool))
    : TR event unit :=
  match n with
  | O => mret tt
  | S i =>
      match links, devs with
      | Some links', Some devs' =>
          (if default false (links' !! i) then emit (LinkDel i) else mret tt);;
          (match devs' !! i with Some PdDev => emit (DomainDetach i) | _ => mret tt end);;
          detach_loop i devs links
      | _, _ => emit NullDeref
      end
  end.

Definition apple_nvme_detach_genpd (g : genpd) : TR event unit :=
  if pd_count g <=? 1 then mret tt
  else detach_loop (Z.to_nat (pd_count g)) (pd_dev g) (pd_link g).

(** The loop of the attachment from index [i], [n] iterations left. *)
Fixpoint attach_loop (n i : nat) (count : Z) (devs : list pd_slot) (links : list bool)
    : TR event (Z * genpd) :=
  match n with
  | O => mret (0, Genpd count (Some devs) (Some links))
  | S n' =>
      r ← call (DomainAttach i);
      if r <? 0 then
        let g := Genpd count (Some (<[i := PdErr r]> devs)) (Some links) in
        apple_nvme_detach_genpd g;; mret (r, g)
      else
        let devs := <[i := PdDev]> devs in
        l ← ok (LinkAdd i);
        if negb l then
          let g := Genpd count (Some devs) (Some links) in
          apple_nvme_detach_genpd g;; mret (- EINVAL, g)
        else attach_loop n' (S i) count devs (<[i := true]> links)
  end.

(** [count] is [of_count_phandle_with_args]; [alloc] the success of the two
    allocations. *)
Definition apple_nvme_attach_genpd (count : Z) (alloc : bool * bool) : TR event (Z * genpd) :=
  if count <=? 1 then mret (0, Genpd count None None)
  else if negb alloc.1 then mret (- ENOMEM, Genpd count None None)
  else
    let n := Z.to_nat count in
    let devs := replicate n PdNull in
    if negb alloc.2 then mret (- ENOMEM, Genpd count (Some devs) None)
    else attach_loop n 0 count devs (replicate n false).

(** ** Allocation, probe, removal, power management *)

(** The steps in program order, around the choice of the doorbells; the NVMMU
    region is mapped only when it is separate. *)
Definition alloc_steps1 : list alloc_step :=
  [SetDmaMask; GetIrq; MapCoproc; MapNvme] ++ (if separate_nvmmu_region hw then [MapNvmmu] else []).
Definition alloc_steps2 : list alloc_step :=
  [GetSart; GetReset; QueueAlloc true; QueueAlloc false; PrpPagePool; PrpSmallPool; IodMempool;
   MempoolAction; AllocTagsets; RequestIrq; RtkitInit; InitCtrl].

(** The error code of a step, from what its call returned: a status, an interrupt
    number, an error pointer (negative) or a pointer that may be NULL (0). *)
Definition alloc_error (s : alloc_step) (r : Z) : option Z :=
  match s with
  | SetDmaMask => if r =? 0 then None else Some (- ENXIO)
  | GetIrq => if r <? 0 then Some r else if r =? 0 then Some (- ENXIO) else None
  | MapCoproc | MapNvme | MapNvmmu | GetSart | GetReset | RtkitInit =>
      if r <? 0 then Some r else None
  | PrpPagePool | PrpSmallPool | IodMempool => if r =? 0 then Some (- ENOMEM) else None
  | QueueAlloc _ | MempoolAction | AllocTagsets | RequestIrq | InitCtrl =>
      if r =? 0 then None else Some r
  end.

Fixpoint run_steps (steps : list alloc_step) : TR event (option Z) :=
  match steps with
  | [] => mret None
  | s :: steps' =>
      r ← call (AllocStep s);
      match alloc_error s r with
      | Some e => mret (Some e)
      | None => run_steps steps'
      end
  end.

Definition doorbells_of : doorbells :=
  let nvmmu := separate_nvmmu_region hw in
  if has_lsq_nvmmu hw
  then Doorbells (nvmmu, APPLE_ANS_LINEAR_ASQ_DB) (false, APPLE_ANS_ACQ_DB)
                 (nvmmu, APPLE_ANS_LINEAR_IOSQ_DB) (false, APPLE_ANS_IOCQ_DB)
  else Doorbells (false, NVME_REG_DBS) (false, APPLE_ANS_ACQ_DB)
                 (false, NVME_REG_DBS + 8) (false, APPLE_ANS_IOCQ_DB).

Definition put_dev (g : genpd) (ret : Z) : TR event (result Z genpd) :=
  apple_nvme_detach_genpd g;; emit PutDevice;; mret (Err ret).

(** [kzalloc] and [match_data] may be missing; the result is the error code or
    the power domains of the allocated controller. *)
Definition apple_nvme_alloc (kzalloc match_data : bool) (count : Z) (pd_alloc : bool * bool)
    : TR event (result Z genpd) :=
  if negb kzalloc then mret (Err (- ENOMEM))
  else
    emit GetDevice;;
    if negb match_data then put_dev (Genpd 0 None None) (- ENODEV)
    else
      '(ret, g) ← apple_nvme_attach_genpd count pd_alloc;
      if ret <? 0 then put_dev g ret
      else
        err ← run_steps alloc_steps1;
        match err with
        | Some e => put_dev g e
        | None =>
            emit (SetDoorbells doorbells_of);;
            err ← run_steps alloc_steps2;
            match err with
            | Some e => put_dev g e
            | None => mret (Ok g)
            end
        end.

(** [flush_interval] is the module parameter. *)
Definition apple_nvme_probe (kzalloc match_data : bool) (count : Z) (pd_alloc : bool * bool)
    (flush_interval : Z) : TR event Z :=
  r ← apple_nvme_alloc kzalloc match_data count pd_alloc;
  match r with
  | Err e => mret e
  | Ok g =>
      ret ← call AddCtrl;
      if negb (ret =? 0) then
        emit PutCtrl;; apple_nvme_detach_genpd g;; mret ret
      else
        ret ← call AllocAdminQueue;
        if ret <? 0 then
          emit UninitCtrl;; emit PutCtrl;; apple_nvme_detach_genpd g;; mret (- ENOMEM)
        else
          (if negb (flush_interval =? 0) then emit InitFlush else mret tt);;
          call ResetCtrl;; emit AsyncSchedule;; mret 0
  end.

Definition apple_nvme_async_probe : TR event unit :=
  emit FlushResetWork;; emit FlushScanWork;; emit PutCtrl.

Definition stop_firmware : TR event Z :=
  running ← ok IsRunning;
  if running : bool then
    ret ← call RtkitShutdown;
    emit (WriteReg CPU_CONTROL 0);; mret ret
  else mret 0.

Definition apple_nvme_remove (g : genpd) : TR event unit :=
  emit (ChangeState NVME_CTRL_DELETING);;
  emit FlushResetWork;;
  emit StopCtrl;;
  emit RemoveNamespaces;;
  apple_nvme_disable true;;
  emit UninitCtrl;;
  stop_firmware;;
  apple_nvme_detach_genpd g.

Definition apple_nvme_shutdown : TR event unit :=
  emit FlushDwork;; apple_nvme_disable true;; stop_firmware;; mret tt.

Definition apple_nvme_resume : TR event Z := call ResetCtrl.

Definition apple_nvme_suspend : TR event Z :=
  apple_nvme_disable true;; stop_firmware.

(** The firmware has crashed: the core is asked for a reset. *)
Definition apple_nvme_rtkit_crashed : TR event unit := call ResetCtrl;; mret tt.

(** The last reference to the controller is gone. *)
Definition apple_nvme_free_ctrl : TR event unit := emit PutDevice.
End driver.

(** ** Register accessors of the NVMe core

    [readl] and [readq] give what the controller's region answers at an offset; a
    write is the offset and the word. *)
Definition apple_nvme_reg_read32 (readl : Z → Z) (off : Z) : Z * Z := (0, u32 (readl off)).
Definition apple_nvme_reg_write32 (off val : Z) : Z * (Z * Z) := (0, (off, u32 val)).
Definition apple_nvme_reg_read64 (readq : Z → Z) (off : Z) : Z * Z := (0, u64 (readq off)).

(** ** The events of a disable *)

Lemma enabled_after_app admin t evs :
  enabled_after admin (t ++ evs) =
  fold_left (λ b e, match e with
                    | SetEnabled a b' => if eqb a admin then b' else b
                    | InitQueue a => if eqb a admin then true else b
                    | _ => b
                    end) evs (enabled_after admin t).
Proof. unfold enabled_after. apply fold_left_app. Qed.

Section disable.
Context (ans : list event → event → Z) (ctrl_state : list event → nvme_ctrl_state).

(** The controller does not respond any more. *)
Definition dead_at (t : list event) : bool :=
  let csts := ans t ReadCsts in
  negb (ans (t ++ [ReadCsts]) IsCrashed =? 0) || (Z.land csts NVME_CSTS_RDY =? 0)
  || negb (Z.land csts NVME_CSTS_CFS =? 0).

Definition freeze_at (t : list event) : bool :=
  bool_decide (ctrl_state t = NVME_CTRL_LIVE) || bool_decide (ctrl_state t = NVME_CTRL_RESETTING).

(** Up to the point where the queues are marked disabled. *)
Definition disable_head (shutdown : bool) (t : list event) : list event :=
  [ReadCsts; IsCrashed] ++ (if freeze_at t then [StartFreeze] else []) ++
  (if negb (dead_at t) && shutdown && freeze_at t then [WaitFreezeTimeout] else []) ++
  [QuiesceIo] ++
  (if negb (dead_at t)
   then (if enabled_after false t then [SyncCmd (DeleteSq 1); SyncCmd (DeleteCq 1)] else []) ++
        (if shutdown then [DisableCtrl true] else []) ++ [DisableCtrl false]
   else []).

Definition disable_core : list event :=
  [SetEnabled false false; SetEnabled true false; QuiesceAdmin; HandleCq false true;
   HandleCq true true; CancelTagset; CancelAdminTagset].

Lemma disable_events shutdown t :
  apple_nvme_disable ans ctrl_state shutdown t =
  (tt, t ++ disable_head shutdown t ++ disable_core ++
       (if shutdown then [UnquiesceIo; UnquiesceAdmin] else [])).
Proof.
  unfold apple_nvme_disable, disable_head, get_state, ok, call, read_enabled,
    apple_nvme_remove_sq, apple_nvme_remove_cq, call. trace_step. fold (freeze_at t).
  change (negb (ans (t ++ [ReadCsts]) IsCrashed =? 0)
    || (Z.land (ans t ReadCsts) NVME_CSTS_RDY =? 0)
    || negb (Z.land (ans t ReadCsts) NVME_CSTS_CFS =? 0)) with (dead_at t).
  destruct (freeze_at t), (dead_at t), shutdown; cbn [negb andb]; trace_step;
    rewrite ?enabled_after_app; cbn [fold_left]; destruct (enabled_after false t);
    trace_step; rewrite <- ?app_assoc; done.
Qed.
End disable.

(** ** Outcomes of a reset *)

(** Events that neither decide the fate of the controller nor move its
    reference count. *)
Definition plain (e : event) : bool :=
  match e with QueueRemoveWork | GetCtrl | PutCtrl => false | _ => true end.

(** References taken minus references dropped. *)
Definition refs (evs : list event) : Z :=
  foldr (λ e n, match e with GetCtrl => n + 1 | PutCtrl => n - 1 | _ => n end) 0 evs.

(** The controller is live: both queues run, nothing is being removed. *)
Definition came_up (t evs : list event) : Prop :=
  enabled_after false (t ++ evs) = true ∧ enabled_after true (t ++ evs) = true ∧
  (∃ pre, evs = pre ++ [StartCtrl]) ∧ (QueueRemoveWork ∉ evs) ∧ refs evs = 0.

(** The controller is on its way out: both queues are off, its namespaces are
    dead, and a reference is held exactly when the removal was queued. *)
Definition went_down (ans : list event → event → Z) (t evs : list event) : Prop :=
  enabled_after false (t ++ evs) = false ∧ enabled_after true (t ++ evs) = false ∧
  ChangeState NVME_CTRL_DELETING ∈ evs ∧ MarkNamespacesDead ∈ evs ∧
  ∃ pre post, evs = pre ++ QueueRemoveWork :: post ∧
    refs evs = if ans (t ++ pre) QueueRemoveWork =? 0 then 0 else 1.

Lemma refs_app l1 l2 : refs (l1 ++ l2) = refs l1 + refs l2.
Proof.
  induction l1 as [|e l1 IH]; [done|]. unfold refs in *. simpl. destruct e; lia.
Qed.

Lemma refs_plain evs : forallb plain evs = true → refs evs = 0.
Proof.
  induction evs as [|e evs IH]; [done|]. cbn [forallb]. intros [He H]%andb_prop.
  unfold refs in *. simpl. rewrite IH by done. by destruct e.
Qed.

Lemma plain_not_queue evs : forallb plain evs = true → QueueRemoveWork ∉ evs.
Proof.
  intros H Hin. apply list_elem_of_In in Hin. rewrite forallb_forall in H. by apply H in Hin.
Qed.

Section outcome.
Context (ans : list event → event → Z).

Definition outcome (m : TR event unit) (t : list event) : Prop :=
  ∃ evs, (m t).2 = t ++ evs ∧ (came_up t evs ∨ went_down ans t evs).

Lemma outcome_prefix t e evs :
  forallb plain e = true →
  came_up (t ++ e) evs ∨ went_down ans (t ++ e) evs →
  came_up t (e ++ evs) ∨ went_down ans t (e ++ evs).
Proof.
  intros He [(H1 & H2 & [pre ->] & H4 & H5)|(H1 & H2 & H3 & H4 & pre & post & -> & H5)].
  - left. rewrite <- app_assoc in H1, H2. split; [done|]. split; [done|].
    split; [exists (e ++ pre); by rewrite app_assoc|]. split.
    + apply plain_not_queue in He. rewrite elem_of_app. tauto.
    + rewrite refs_app, refs_plain by done. lia.
  - right. rewrite <- app_assoc in H1, H2. split; [done|]. split; [done|].
    split; [apply elem_of_app; by right|]. split; [apply elem_of_app; by right|].
    exists (e ++ pre), post. split; [by rewrite app_assoc|].
    rewrite refs_app, refs_plain, app_assoc by done. lia.
Qed.

Lemma outcome_quiet {A} (m : TR event A) k t :
  quiet plain m →
  (∀ e, (m t).2 = t ++ e → forallb plain e = true → outcome (k (m t).1) (t ++ e)) →
  outcome (m ≫= k) t.
Proof.
  intros Hm Hk. destruct (Hm t) as (e & He & Hp). destruct (Hk e He Hp) as (evs & Hevs & H).
  exists (e ++ evs). rewrite TR_bind_eq, He, Hevs, app_assoc. split; [done|].
  by apply outcome_prefix.
Qed.

Lemma outcome_call e k t :
  plain e = true → (∀ a, outcome (k a) (t ++ [e])) → outcome (ask ans e ≫= k) t.
Proof.
  intros He Hk. apply outcome_quiet; [by apply quiet_ask|].
  intros e' E _. simpl in E. apply app_inv_head in E as <-. apply Hk.
Qed.

Lemma outcome_emit e k t :
  plain e = true → outcome (k ()) (t ++ [e]) → outcome (emit e ≫= k) t.
Proof.
  intros He Hk. apply outcome_quiet; [by apply quiet_emit|].
  intros e' E _. simpl in E. by apply app_inv_head in E as <-.
Qed.
End outcome.

Section reset.
Context (ans : list event → event → Z) (ctrl_state : list event → nvme_ctrl_state).
Context (hw : apple_nvme_hw) (dma_max asq acq atcb iosq iocq iotcb : Z).

Lemma quiet_disable shutdown : quiet plain (apple_nvme_disable ans ctrl_state shutdown).
Proof.
  intros t. rewrite disable_events. eexists. split; [reflexivity|].
  unfold disable_head. destruct (freeze_at _ _), (dead_at _ _), shutdown, (enabled_after _ _); done.
Qed.

Lemma disable_disables shutdown t admin :
  enabled_after admin (apple_nvme_disable ans ctrl_state shutdown t).2 = false.
Proof.
  rewrite disable_events. cbn [snd]. rewrite !enabled_after_app, !fold_left_app.
  destruct admin, shutdown; done.
Qed.

Lemma reset_out_outcome t : outcome ans (reset_out ans ctrl_state) t.
Proof.
  unfold reset_out. trace_step.
  pose proof (disable_disables false ((t ++ [ChangeState NVME_CTRL_DELETING]) ++ [GetCtrl])) as Hd.
  destruct (quiet_disable false ((t ++ [ChangeState NVME_CTRL_DELETING]) ++ [GetCtrl])) as (e & He & Hp).
  unfold outcome. trace_step. rewrite He in *. unfold ok, call. trace_step.
  set (t1 := (((t ++ [ChangeState NVME_CTRL_DELETING]) ++ [GetCtrl]) ++ e) ++ [MarkNamespacesDead]).
  exists ([ChangeState NVME_CTRL_DELETING; GetCtrl] ++ e ++ [MarkNamespacesDead; QueueRemoveWork] ++
          if ans t1 QueueRemoveWork =? 0 then [PutCtrl] else []).
  split.
  { subst t1. destruct (ans _ _ =? 0); cbn [negb]; trace_step; rewrite <- !app_assoc; done. }
  right. pose proof (Hd false) as Hf. pose proof (Hd true) as Ht.
  rewrite <- !app_assoc in Hf, Ht. cbn [app] in Hf, Ht.
  assert (∀ a, enabled_after a (t ++ ChangeState NVME_CTRL_DELETING :: GetCtrl :: e) = false →
    enabled_after a (t ++ [ChangeState NVME_CTRL_DELETING; GetCtrl] ++ e ++
      [MarkNamespacesDead; QueueRemoveWork] ++
      if ans t1 QueueRemoveWork =? 0 then [PutCtrl] else []) = false) as Hen.
  { intros a Ha. rewrite (app_assoc [_; _] e), (app_assoc t), enabled_after_app.
    cbn [app]. rewrite Ha. by destruct (_ =? 0). }
  split; [by apply Hen|]. split; [by apply Hen|].
  split; [apply list_elem_of_here|]. split.
  { do 2 apply list_elem_of_further. apply elem_of_app. right. apply list_elem_of_here. }
  exists ([ChangeState NVME_CTRL_DELETING; GetCtrl] ++ e ++ [MarkNamespacesDead]),
    (if ans t1 QueueRemoveWork =? 0 then [PutCtrl] else []).
  split; [by rewrite <- !app_assoc|]. rewrite !refs_app, (refs_plain e) by done.
  assert (t ++ [ChangeState NVME_CTRL_DELETING; GetCtrl] ++ e ++ [MarkNamespacesDead] = t1) as ->
    by (subst t1; by rewrite <- !app_assoc).
  by destruct (ans t1 QueueRemoveWork =? 0).
Qed.

Lemma try_or_out_outcome e k t :
  plain e = true → outcome ans k (t ++ [e]) →
  outcome ans (try_or_out ans ctrl_state (ask ans e) k) t.
Proof.
  intros He Hk. unfold try_or_out. apply outcome_call; [done|]. intros a.
  destruct (a =? 0); cbn [negb]; [done|apply reset_out_outcome].
Qed.

Lemma outcome_assoc {A B} (m : TR event A) (f : A → TR event B) k t :
  outcome ans (m ≫= λ a, f a ≫= k) t → outcome ans ((m ≫= f) ≫= k) t.
Proof. unfold outcome. by rewrite !TR_bind_eq. Qed.

Lemma outcome_ret {A} (a : A) k t : outcome ans (k a) t → outcome ans (mret a ≫= k) t.
Proof. unfold outcome. by rewrite TR_bind_eq. Qed.

Ltac outcome_step :=
  match goal with
  | |- outcome _ (reset_out _ _) _ => apply reset_out_outcome
  | |- outcome _ ((?m ≫= ?f) ≫= ?k) _ => apply (outcome_assoc m f k)
  | |- outcome _ (mret ?a ≫= ?k) _ => apply (outcome_ret a k)
  | |- outcome _ (emit ?e ≫= ?k) _ => apply (outcome_emit ans e k); [done|]
  | |- outcome _ (ask _ ?e ≫= ?k) _ => apply (outcome_call ans e k); [done|]; intros ?
  | |- outcome _ (try_or_out _ _ (ask _ ?e) ?k) _ => apply (try_or_out_outcome e k); [done|]
  | |- outcome _ (if ?b then _ else _) _ => destruct b
  | |- outcome _ ((if ?b then _ else _) ≫= _) _ => destruct b
  end; cbv beta.

Lemma reset_live_outcome t :
  enabled_after true t = true → outcome ans (reset_live ans ctrl_state hw iosq iocq) t.
Proof.
  intros Hadm. unfold reset_live, ok, call, apple_nvme_remove_sq, apple_nvme_remove_cq, call.
  repeat outcome_step.
  all: exists [StartCtrl]; split; [done|]; left; rewrite <- !app_assoc.
  all: split; [by rewrite !enabled_after_app|].
  all: split; [by rewrite !enabled_after_app, Hadm|].
  all: split; [by exists []|].
  all: split; [by intros ?%list_elem_of_singleton|done].
Qed.

Lemma reset_init_outcome t :
  outcome ans (reset_init ans ctrl_state hw dma_max asq acq atcb iosq iocq iotcb) t.
Proof.
  unfold reset_init, ok, call, apple_nvme_create_cq, apple_nvme_create_sq, apple_nvme_remove_cq, call.
  repeat first [apply reset_live_outcome | outcome_step].
  all: rewrite <- !app_assoc, !enabled_after_app; done.
Qed.

Lemma reset_boot_outcome t :
  outcome ans (reset_boot ans ctrl_state hw dma_max asq acq atcb iosq iocq iotcb) t.
Proof.
  unfold reset_boot, call. repeat first [apply reset_init_outcome | outcome_step].
Qed.

Lemma reset_work_outcome cc t :
  outcome ans (apple_nvme_reset_work ans ctrl_state hw dma_max asq acq atcb iosq iocq iotcb cc) t.
Proof.
  unfold apple_nvme_reset_work, get_state, ok, call.
  apply outcome_quiet; [apply quiet_read|]. intros e He _.
  repeat first [apply reset_boot_outcome | outcome_step].
  apply outcome_quiet; [apply quiet_disable|]. intros e' _ _.
  repeat first [apply reset_boot_outcome | outcome_step].
Qed.
End reset.

(** ** Theorems *)

(** Disabling the controller stops the queues in a safe order: whatever the
    device and the core answer, I/O is quiesced first, the submission queue is
    deleted before the completion queue and only when the controller is alive and
    the I/O queue is on, both queues are marked off before the last completions
    are collected, and the rest is cancelled after that.  At the end both queues
    are off; dispatch is resumed only for a shutdown. *)
Theorem nvme_disable_order ans ctrl_state shutdown t :
  ∃ head post,
    apple_nvme_disable ans ctrl_state shutdown t =
      (tt, t ++ head ++
           [SetEnabled false false; SetEnabled true false; QuiesceAdmin; HandleCq false true;
            HandleCq true true; CancelTagset; CancelAdminTagset] ++ post) ∧
    (∃ h1 h2, head = h1 ++ QuiesceIo :: h2 ∧
       (h2 = [] ∨ dead_at ans t = false) ∧
       (∀ c, SyncCmd c ∈ head →
          enabled_after false t = true ∧
          take 2 h2 = [SyncCmd (DeleteSq 1); SyncCmd (DeleteCq 1)] ∧
          (SyncCmd c ∉ h1) ∧ (SyncCmd c ∉ drop 2 h2))) ∧
    post = (if shutdown then [UnquiesceIo; UnquiesceAdmin] else []) ∧
    ∀ admin, enabled_after admin (apple_nvme_disable ans ctrl_state shutdown t).2 = false.
Proof.
  exists (disable_head ans ctrl_state shutdown t). eexists.
  split; [apply disable_events|]. split; [|split; [done|intros; apply disable_disables]].
  unfold disable_head. rewrite !app_assoc. eexists _, _. rewrite <- app_assoc. split; [reflexivity|].
  destruct (dead_at ans t) eqn:Hdead; cbn [negb].
  - split; [by left|]. intros c Hc. exfalso.
    destruct (freeze_at ctrl_state t); cbn in Hc; set_solver.
  - split; [by right|]. intros c Hc.
    destruct (freeze_at ctrl_state t), shutdown, (enabled_after false t); cbn in *; set_solver.
Qed.


(** ** Power domains *)

Section genpd.
Context (ans : list event → event → Z).

(** Releases of the domains below [n], last first. *)
Fixpoint detaches (n : nat) : list event :=
  match n with O => [] | S i => [LinkDel i; DomainDetach i] ++ detaches i end.

Lemma detach_loop_all devs links n t :
  (∀ i, (i < n)%nat → devs !! i = Some PdDev ∧ links !! i = Some true) →
  detach_loop n (Some devs) (Some links) t = (tt, t ++ detaches n).
Proof.
  revert t. induction n as [|n IH]; intros t H; [by rewrite app_nil_r|].
  destruct (H n ltac:(lia)) as [Hd Hl]. cbn [detach_loop]. rewrite Hd, Hl. 
  trace_step. rewrite IH by (intros; apply H; lia). cbn. by rewrite <- !app_assoc.
Qed.

(** The attachment of the domains from index [i]. *)
Fixpoint attaches (n i : nat) : list event :=
  match n with O => [] | S n' => [DomainAttach i; LinkAdd i] ++ attaches n' (S i) end.

Lemma attach_loop_ok n : ∀ i count devs links t g t',
  attach_loop ans n i count devs links t = ((0, g), t') →
  (i + n = length devs)%nat → length links = length devs →
  (∀ j, (j < i)%nat → devs !! j = Some PdDev ∧ links !! j = Some true) →
  t' = t ++ attaches n i ∧ pd_count g = count ∧
  ∃ devs' links', pd_dev g = Some devs' ∧ pd_link g = Some links' ∧
    ∀ j, (j < i + n)%nat → devs' !! j = Some PdDev ∧ links' !! j = Some true.
Proof.
  induction n as [|n IH]; intros i count devs links t g t' H Hn Hl Hdone; cbn [attach_loop] in H.
  { rewrite TR_ret_eq in H. injection H as <- <-. rewrite app_nil_r. split; [done|].
    split; [done|]. exists devs, links. split; [done|]. split; [done|]. intros j Hj.
    apply Hdone. lia. }
  revert H. unfold call, ok. trace_step.
  destruct (Z.ltb_spec (ans t (DomainAttach i)) 0) as [Hneg|Hpos].
  { rewrite TR_bind_eq, TR_ret_eq. intros [= E _ _]. lia. }
  unfold call. trace_step. destruct (ans _ (LinkAdd i) =? 0); cbn [negb].
  { rewrite TR_bind_eq, TR_ret_eq. intros [=]. }
  intros H. apply IH in H as (-> & Hc & devs' & links' & H1 & H2 & H3).
  - split; [by rewrite <- !app_assoc|]. split; [done|]. exists devs', links'.
    split; [done|]. split; [done|]. intros j Hj. apply H3. lia.
  - rewrite length_insert. lia.
  - rewrite !length_insert. done.
  - intros j Hj. destruct (decide (j = i)) as [-> | ].
    + rewrite !list_lookup_insert_eq by lia. done.
    + rewrite !list_lookup_insert_ne by done. apply Hdone. lia.
Qed.
End genpd.

(** When all power domains of the controller have been attached, removing the
    controller releases each of them exactly once, the device link before the
    domain and the last domain first. *)
Theorem genpd_detach_exact ans count g t t' u :
  1 < count →
  apple_nvme_attach_genpd ans count (true, true) t = ((0, g), t') →
  t' = t ++ attaches (Z.to_nat count) 0 ∧
  apple_nvme_detach_genpd g u = (tt, u ++ detaches (Z.to_nat count)).
Proof.
  intros Hc H. unfold apple_nvme_attach_genpd in H.
  destruct (Z.leb_spec count 1); [lia|]. cbn [negb fst snd] in H.
  apply attach_loop_ok in H as (-> & Hcount & devs & links & Hd & Hl & Hall).
  - split; [done|]. unfold apple_nvme_detach_genpd. rewrite Hcount, Hd, Hl.
    destruct (Z.leb_spec count 1); [lia|]. apply detach_loop_all. intros i Hi. apply Hall. lia.
  - rewrite length_replicate. lia.
  - by rewrite !length_replicate.
  - intros j Hj. lia.
Qed.

(** ** Allocation *)

(** References to the device taken minus dropped, and the events that leave them. *)
Definition dev_refs (evs : list event) : Z :=
  foldr (λ e n, match e with GetDevice => n + 1 | PutDevice => n - 1 | _ => n end) 0 evs.
Definition no_dev (e : event) : bool := match e with GetDevice | PutDevice => false | _ => true end.

Lemma dev_refs_app l1 l2 : dev_refs (l1 ++ l2) = dev_refs l1 + dev_refs l2.
Proof. induction l1 as [|e l1 IH]; [done|]. unfold dev_refs in *. simpl. destruct e; lia. Qed.

Lemma dev_refs_none evs : forallb no_dev evs = true → dev_refs evs = 0.
Proof.
  induction evs as [|e evs IH]; [done|]. cbn [forallb]. intros [He H]%andb_prop.
  unfold dev_refs in *. simpl. rewrite IH by done. by destruct e.
Qed.

Section alloc.
Context (ans : list event → event → Z) (hw : apple_nvme_hw).

Lemma quiet_detach g : quiet no_dev (apple_nvme_detach_genpd g).
Proof.
  unfold apple_nvme_detach_genpd. apply quiet_if; [apply quiet_ret|].
  induction (Z.to_nat (pd_count g)) as [|n IH]; cbn [detach_loop]; [apply quiet_ret|].
  destruct (pd_link g), (pd_dev g) as [devs|]; auto with quiet.
  apply quiet_bind; [auto with quiet|]. intros _. apply quiet_bind; [|done].
  destruct (devs !! n) as [[]|]; auto with quiet.
Qed.

Lemma quiet_attach_loop n : ∀ i count devs links,
  quiet no_dev (attach_loop ans n i count devs links).
Proof.
  induction n as [|n IH]; intros; cbn [attach_loop]; [apply quiet_ret|]. unfold call, ok.
  apply quiet_bind; [auto with quiet|]. intros r. apply quiet_if.
  - apply quiet_bind; [apply quiet_detach|]. auto with quiet.
  - apply quiet_bind; [unfold call; auto with quiet|]. intros l. apply quiet_if; [|apply IH].
    apply quiet_bind; [apply quiet_detach|]. auto with quiet.
Qed.

Lemma quiet_attach count pd : quiet no_dev (apple_nvme_attach_genpd ans count pd).
Proof. unfold apple_nvme_attach_genpd. auto using quiet_attach_loop with quiet. Qed.

(** The step at each position of [evs] answered without an error. *)
Definition steps_ok (t evs : list event) : Prop :=
  ∀ pre s post, evs = pre ++ AllocStep s :: post →
    alloc_error s (ans (t ++ pre) (AllocStep s)) = None.

Lemma steps_ok_cons t s evs :
  alloc_error s (ans t (AllocStep s)) = None → steps_ok (t ++ [AllocStep s]) evs →
  steps_ok t (AllocStep s :: evs).
Proof.
  intros H IH [|e pre] s' post E; cbn in E.
  - injection E as -> _. by rewrite app_nil_r.
  - injection E as <- E2. specialize (IH pre s' post E2). by rewrite <- app_assoc in IH.
Qed.

Lemma run_steps_spec steps : ∀ t,
  ∃ evs, (run_steps ans steps t).2 = t ++ evs ∧ forallb no_dev evs = true ∧
    ((run_steps ans steps t).1 = None → evs = AllocStep <$> steps ∧ steps_ok t evs).
Proof.
  induction steps as [|s steps IH]; intros t; cbn [run_steps].
  { exists []. rewrite app_nil_r. split; [done|]. split; [done|]. intros _. split; [done|].
    intros [] ? ?; done. }
  unfold call. trace_step. destruct (alloc_error s _) eqn:Es.
  { exists [AllocStep s]. done. }
  destruct (IH (t ++ [AllocStep s])) as (evs & He & Hn & Hok). exists (AllocStep s :: evs).
  rewrite He, <- app_assoc. split; [done|]. split; [done|]. intros E.
  destruct (Hok E) as [-> Hs]. split; [done|]. by apply steps_ok_cons.
Qed.

(** [put_dev] drops the reference. *)
Lemma put_dev_spec g ret t : ∃ evs,
  (put_dev g ret t).2 = t ++ evs ∧ (put_dev g ret t).1 = Err ret ∧ dev_refs evs = -1.
Proof.
  unfold put_dev. destruct (quiet_detach g t) as (e & He & Hn). rewrite TR_bind_eq, He. trace_step.
  exists (e ++ [PutDevice]). rewrite <- app_assoc. split; [done|]. split; [done|].
  rewrite dev_refs_app, dev_refs_none by done. done.
Qed.

(** How the allocation ends, started at history [t]. *)
Definition alloc_ends (t : list event) (r : result Z genpd * list event) : Prop :=
  ∃ evs, r.2 = t ++ evs ∧
    match r.1 with
    | Err _ => dev_refs evs = 0
    | Ok _ => dev_refs evs = 1 ∧ ∃ pds s1 s2,
        evs = GetDevice :: pds ++ s1 ++ [SetDoorbells (doorbells_of hw)] ++ s2 ∧
        s1 = AllocStep <$> alloc_steps1 hw ∧ s2 = AllocStep <$> alloc_steps2 ∧
        steps_ok (t ++ GetDevice :: pds) s1 ∧
        steps_ok (t ++ GetDevice :: pds ++ s1 ++ [SetDoorbells (doorbells_of hw)]) s2
    end.

Lemma alloc_ends_put_dev g e t pre t' :
  t' = t ++ GetDevice :: pre → forallb no_dev pre = true → alloc_ends t (put_dev g e t').
Proof.
  intros -> Hp. destruct (put_dev_spec g e (t ++ GetDevice :: pre)) as (x & H2 & H1 & Hx).
  exists ((GetDevice :: pre) ++ x). rewrite H1, H2, <- app_assoc. split; [done|].
  rewrite dev_refs_app, Hx. cbn. fold (dev_refs pre). rewrite dev_refs_none by done. done.
Qed.

Lemma alloc_steps_end g t pds t1 :
  t1 = t ++ GetDevice :: pds → forallb no_dev pds = true →
  alloc_ends t ((err ← run_steps ans (alloc_steps1 hw);
    match err with
    | Some e => put_dev g e
    | None => emit (SetDoorbells (doorbells_of hw));;
        err ← run_steps ans alloc_steps2;
        match err with Some e => put_dev g e | None => mret (Ok g) end
    end) t1).
Proof.
  intros E1 Hp. destruct (run_steps_spec (alloc_steps1 hw) t1) as (s1 & Hs1 & Hn1 & Hok1).
  rewrite TR_bind_eq, Hs1. destruct (run_steps ans (alloc_steps1 hw) t1).1 as [e|].
  { apply (alloc_ends_put_dev g e t (pds ++ s1)); [subst; by rewrite <- !app_assoc|].
    by rewrite forallb_app, Hp, Hn1. }
  destruct (Hok1 eq_refl) as [Es1 Hok1']. trace_step.
  set (t2 := (t1 ++ s1) ++ [SetDoorbells (doorbells_of hw)]).
  destruct (run_steps_spec alloc_steps2 t2) as (s2 & Hs2 & Hn2 & Hok2).
  fold t2. rewrite Hs2. destruct (run_steps ans alloc_steps2 t2).1 as [e|].
  { apply (alloc_ends_put_dev g e t (pds ++ s1 ++ [SetDoorbells (doorbells_of hw)] ++ s2)).
    - subst t2 t1. by rewrite <- !app_assoc.
    - by rewrite !forallb_app, Hp, Hn1, Hn2. }
  destruct (Hok2 eq_refl) as [Es2 Hok2']. rewrite TR_ret_eq.
  exists (GetDevice :: pds ++ s1 ++ [SetDoorbells (doorbells_of hw)] ++ s2). cbn [fst snd].
  split; [subst t2 t1; by rewrite <- !app_assoc|]. split.
  { cbn. fold (dev_refs (pds ++ s1 ++ SetDoorbells (doorbells_of hw) :: s2)).
    rewrite dev_refs_none; [done|]. rewrite !forallb_app, Hp, Hn1. cbn. by rewrite Hn2. }
  exists pds, s1, s2. split; [done|]. split; [done|]. split; [done|].
  split; [by rewrite <- E1|]. subst t2 t1. by rewrite <- !app_assoc in Hok2'.
Qed.

Lemma alloc_outcome kzalloc match_data count pd_alloc t :
  alloc_ends t (apple_nvme_alloc ans hw kzalloc match_data count pd_alloc t).
Proof.
  unfold apple_nvme_alloc. destruct kzalloc; cbn [negb].
  2:{ exists []. by rewrite app_nil_r. }
  trace_step. destruct match_data; cbn [negb].
  2:{ by apply (alloc_ends_put_dev _ _ t []). }
  destruct (quiet_attach count pd_alloc (t ++ [GetDevice])) as (pds & He & Hp).
  rewrite TR_bind_eq, He. destruct (apple_nvme_attach_genpd ans count pd_alloc _).1 as [ret g].
  destruct (ret <? 0).
  - apply (alloc_ends_put_dev _ _ t pds); [by rewrite <- app_assoc|done].
  - apply (alloc_steps_end g t pds); [by rewrite <- app_assoc|done].
Qed.
End alloc.

(** The allocation either succeeds after every step has been done, in order and
    without an error, and then holds one reference to the device, or fails and
    holds none. *)
Theorem nvme_alloc_outcome ans hw kzalloc match_data count pd_alloc t :
  let r := apple_nvme_alloc ans hw kzalloc match_data count pd_alloc t in
  ∃ evs, r.2 = t ++ evs ∧
    match r.1 with
    | Err _ => dev_refs evs = 0
    | Ok _ => dev_refs evs = 1 ∧ ∃ pds s1 s2,
        evs = GetDevice :: pds ++ s1 ++ [SetDoorbells (doorbells_of hw)] ++ s2 ∧
        s1 = AllocStep <$> alloc_steps1 hw ∧ s2 = AllocStep <$> alloc_steps2 ∧
        steps_ok ans (t ++ GetDevice :: pds) s1 ∧
        steps_ok ans (t ++ GetDevice :: pds ++ s1 ++ [SetDoorbells (doorbells_of hw)]) s2
    end.
Proof. apply alloc_outcome. Qed.

Definition demo_ans (t : list event) (e : event) : Z :=
  match e with LinkAdd _ => 1 | _ => 0 end.

Lemma genpd_detach_exact_witness :
  let g := (apple_nvme_attach_genpd demo_ans 2 (true, true) []).1.2 in
  (1 < 2) ∧
  [DomainAttach 0; LinkAdd 0; DomainAttach 1; LinkAdd 1] = [] ++ attaches (Z.to_nat 2) 0 ∧
  apple_nvme_detach_genpd g [] = (tt, [] ++ detaches (Z.to_nat 2)).
Proof.
  split; [lia|].
  refine (genpd_detach_exact demo_ans 2 _ []
            [DomainAttach 0; LinkAdd 0; DomainAttach 1; LinkAdd 1] [] _ _); [lia|reflexivity].
Defined.

(** The second domain cannot be attached. *)
Definition second_fails (t : list event) (e : event) : Z :=
  match e with DomainAttach 1 => - EPROBE_DEFER | LinkAdd _ => 1 | _ => 0 end.

(** When a later power domain cannot be attached (a deferred probe, say), the
    domains attached before are released twice: once by the attachment itself and
    once more by the error path of the allocation.  When the first array cannot be
    allocated, the same error path dereferences NULL. *)
Theorem genpd_error_path_releases_twice :
  (apple_nvme_alloc second_fails apple_nvme_t8103_hw true true 2 (true, true) [] =
   (Err (- EPROBE_DEFER),
    [GetDevice; DomainAttach 0; LinkAdd 0; DomainAttach 1;
     LinkDel 0; DomainDetach 0; LinkDel 0; DomainDetach 0; PutDevice])) ∧
  (apple_nvme_alloc demo_ans apple_nvme_t8103_hw true true 2 (false, false) [] =
   (Err (- ENOMEM), [GetDevice; NullDeref; PutDevice])).
Proof. vm_compute. done. Qed.

(** Everything succeeds except the final transition to LIVE. *)
Definition not_live (t : list event) (e : event) : Z :=
  match e with
  | ChangeState NVME_CTRL_LIVE => 0
  | ChangeState _ | QueueRemoveWork | ReadCsts => 1
  | _ => 0
  end.
Definition resetting (t : list event) : nvme_ctrl_state := NVME_CTRL_RESETTING.

(** When the controller cannot be marked live, the reset deletes the I/O queues
    and then, in the common error path, deletes them once more: the I/O queue is
    still marked on when the controller is disabled. *)
Theorem reset_deletes_queues_twice :
  filter (λ e, match e with SyncCmd (DeleteSq _) | SyncCmd (DeleteCq _) => true | _ => false end = true)
    (apple_nvme_reset_work not_live resetting apple_nvme_t8103_hw 0 0 0 0 0 0 0 false []).2 =
  [SyncCmd (DeleteSq 1); SyncCmd (DeleteCq 1); SyncCmd (DeleteSq 1); SyncCmd (DeleteCq 1)].
Proof. vm_compute. done. Qed.

Definition apart (a b : region * Z * Z) : bool :=
  let '(ra, oa, na) := a in
  let '(rb, ob, nb) := b in
  negb (match ra, rb with
        | mmio_coproc, mmio_coproc | mmio_nvme, mmio_nvme | mmio_nvmmu, mmio_nvmmu => true
        | _, _ => false
        end) || (oa + na <=? ob) || (ob + nb <=? oa).
Definition db_place (d : bool * Z) : region * Z * Z :=
  (if d.1 then mmio_nvmmu else mmio_nvme, d.2, 4).

(** No two registers the driver programs overlap, and none lies on a doorbell or
    on the boot status. *)
Lemma nvme_registers_apart hw r1 r2 p1 p2 :
  r1 ≠ r2 → reg_place r1 = Some p1 → reg_place r2 = Some p2 →
  apart p1 p2 = true ∧
  apart p1 (mmio_nvme, APPLE_ANS_BOOT_STATUS, 4) = true ∧
  Forall (λ d, apart p1 (db_place d) = true)
    [adminq_sq_db (doorbells_of hw); adminq_cq_db (doorbells_of hw);
     ioq_sq_db (doorbells_of hw); ioq_cq_db (doorbells_of hw)].
Proof.
  intros H H1 H2. split; [destruct r1, r2; simplify_eq/=; done|].
  split; [destruct r1; simplify_eq/=; done|].
  destruct hw as [[] [] [] n]; repeat constructor; destruct r1; simplify_eq/=; done.
Qed.

(** A successful allocation holds one reference to the device, and releasing the
    controller drops it. *)
Lemma nvme_free_ctrl_balances ans hw kzalloc match_data count pd_alloc t g t' :
  apple_nvme_alloc ans hw kzalloc match_data count pd_alloc t = (Ok g, t') →
  ∃ evs, (apple_nvme_free_ctrl t').2 = t ++ evs ∧ dev_refs evs = 0.
Proof.
  intros E. destruct (alloc_outcome ans hw kzalloc match_data count pd_alloc t) as (evs & H2 & H1).
  rewrite E in H1, H2. simpl in H1, H2. destruct H1 as [Hr _]. subst t'.
  exists (evs ++ [PutDevice]). split; [symmetry; apply app_assoc|].
  rewrite dev_refs_app, Hr. done.
Qed.
