(* ===== verification/NvmeRq.v ===== *)
(** * NVMe requests (drivers/nvme/host/apple.c): dispatch, delayed flush, shared memory

    [apple_nvme_queue_rq] on top of the data mapping ([NvmePrp]) and the queues
    ([NvmeQueue]), the coalescing of cache flushes, and the firmware's shared
    memory on top of the DMA filter ([Sart]). *)

From Stdlib Require Import ZArith Lia Bool.
From stdpp Require Import base numbers list option gmap.
From S2P Require Import Prelude Sart NvmePrp NvmeQueue.

Local Open Scope list_scope.
Local Open Scope Z_scope.

(** ** Delayed flush *)

(** [jiffies] is an unsigned long; [time_before] looks at the sign of the
    difference. *)
Definition s64 (x : Z) : Z := if u64 x <? 2 ^ 63 then u64 x else u64 x - 2 ^ 64.
Definition time_before (a b : Z) : bool := s64 (a - b) <? 0.

Record flush_state := Flush {
  flush_interval : Z;
  last_flush : Z;
  flush_ns : option Z;
  flush_dwork : option Z    (** expiry of the pending delayed work, if any *)
}.

(** Returns whether the flush was put off. *)
Definition apple_nvme_delayed_flush (jiffies ns : Z) (is_flush : bool) (f : flush_state)
    : bool * flush_state :=
  if (flush_interval f =? 0) || negb is_flush then (false, f)
  else if bool_decide (is_Some (flush_dwork f)) then (true, f)
  else if time_before jiffies (u64 (last_flush f + flush_interval f)) then
    let f := Flush (flush_interval f) (last_flush f) (flush_ns f)
               (Some (u64 (jiffies + flush_interval f))) in
    match flush_ns f with
    | Some ns' => if ns' =? ns
                  then (true, Flush (flush_interval f) (last_flush f) (Some ns) (flush_dwork f))
                  else (false, Flush (flush_interval f) (u64 jiffies) (flush_ns f) (flush_dwork f))
    | None => (true, Flush (flush_interval f) (last_flush f) (Some ns) (flush_dwork f))
    end
  else (false, Flush (flush_interval f) (u64 jiffies) (flush_ns f) (flush_dwork f)).

(** The delayed work: the namespace flushed, if any; [err] is the outcome of the
    synchronous command.  The work is not pending while it runs. *)
Definition apple_nvme_flush_work (jiffies err : Z) (f : flush_state) : option Z * flush_state :=
  let f := Flush (flush_interval f) (last_flush f) (flush_ns f) None in
  match flush_ns f with
  | None => (None, f)
  | Some ns =>
      (Some ns, if err =? 0 then Flush (flush_interval f) (u64 jiffies) (flush_ns f) None else f)
  end.

(** Probe: [interval] is the module parameter converted to jiffies. *)
Definition flush_init (interval jiffies : Z) : flush_state :=
  if interval =? 0 then Flush 0 0 None None
  else Flush interval (u64 (jiffies - interval)) None None.

(** ** Dispatch *)

(** What became of a request. *)
Inductive rq_event {R : Type} :=
| NonReady | SetupCmd | StartRequest | CompleteRequest | CleanupCmd
| Hw (e : NvmeQueue.event R).
Arguments rq_event R : clear implicits.

Record rq_out (R : Type) := RqOut {
  o_status : blk_status;
  o_queue : apple_nvme_queue;
  o_data : NvmePrp.state;
  o_flush : flush_state;
  o_cmd : nvme_command;
  o_events : list (rq_event R)
}.
Arguments RqOut {R}.
Arguments o_status {R}.
Arguments o_queue {R}.
Arguments o_data {R}.
Arguments o_flush {R}.
Arguments o_cmd {R}.
Arguments o_events {R}.

Definition with_dptr (c : nvme_command) (d : dptr) : nvme_command :=
  Cmd (c_opcode c) (c_command_id c) (c_nsid c) (prp1 d) (prp2 d) (c_length c) (c_rest c).
Definition dptr_of (c : nvme_command) : dptr := Dptr (c_prp1 c) (c_prp2 c).

Section queue_rq.
Context {R : Type}.
Context (nvme_is_write : nvme_command → bool) (nvme_tag_from_cid : Z → Z).
Context (bus : Z → Z) (pool : nat → option Z) (hw : apple_nvme_hw).

(** [ready] and [nonready] are [nvme_check_ready] and the status of
    [nvme_fail_nonready_command]; [setup] is the command [nvme_setup_cmd] builds
    or its error. *)
Definition apple_nvme_queue_rq (q : apple_nvme_queue) (f : flush_state) (jiffies ns : Z)
    (ready : bool) (nonready : blk_status) (setup : result blk_status nvme_command)
    (is_flush : bool) (r : request) (cmd0 : nvme_command) (s : NvmePrp.state)
    : result fault (rq_out R) :=
  let s := set_io (λ d, set_nents 0 (set_npages (-1) d)) s in
  if negb (enabled q) then Ok (RqOut BLK_STS_IOERR q s f cmd0 [])
  else if negb ready then Ok (RqOut nonready q s f cmd0 [NonReady])
  else match setup with
  | Err st => Ok (RqOut st q s f cmd0 [SetupCmd])
  | Ok cmd =>
      match (if negb (nr_phys_segments r =? 0)
             then apple_nvme_map_data bus pool r (dptr_of cmd) s
             else Ok (BLK_STS_OK, dptr_of cmd, s)) with
      | Err e => Err e
      | Ok (BLK_STS_OK, d, s) =>
          let cmd := with_dptr cmd d in
          let '(delayed, f) := apple_nvme_delayed_flush jiffies ns is_flush f in
          if delayed : bool
          then Ok (RqOut BLK_STS_OK q s f cmd [SetupCmd; StartRequest; CompleteRequest])
          else
            let '(q, evs) :=
              if has_lsq_nvmmu hw
              then apple_nvme_submit_cmd_t8103 nvme_is_write nvme_tag_from_cid q cmd
              else apple_nvme_submit_cmd_t8015 hw q cmd in
            Ok (RqOut BLK_STS_OK q s f cmd ([SetupCmd; StartRequest] ++ (Hw <$> evs)))
      | Ok (st, d, s) =>
          Ok (RqOut st q s f (with_dptr cmd d) [SetupCmd; CleanupCmd])
      end
  end.
End queue_rq.

(** ** Completion and set-up of a request *)

(** The data is unmapped before the core ends the request. *)
Definition apple_nvme_complete_rq {C} (bus : Z → Z) (nvme_complete_rq : request → NvmePrp.state → C)
    (r : request) (s : NvmePrp.state) : C :=
  nvme_complete_rq r (apple_nvme_unmap_rq bus r s).

(** [nvme_complete_batch] of the core runs the given function on each request. *)
Definition apple_nvme_complete_batch {I C} (bus : Z → Z)
    (nvme_complete_batch : I → (request → NvmePrp.state → NvmePrp.state) → C) (iob : I) : C :=
  nvme_complete_batch iob (apple_nvme_unmap_rq bus).

(** Pointers are addresses; the offsets are those of the members of [struct
    apple_nvme], of the private data behind a request and of [cmd] in it. *)
Section pointers.
Context (off_ctrl off_adminq off_ioq pdu off_cmd : Z).

Record rq_links := Links { iod_q : Z; nreq_ctrl : Z; nreq_cmd : Z }.

Definition ctrl_to_apple_nvme (ctrl : Z) : Z := ctrl - off_ctrl.
Definition queue_to_apple_nvme (q : Z) (is_adminq : bool) : Z :=
  if is_adminq then q - off_adminq else q - off_ioq.

Definition apple_nvme_init_hctx (data : Z) : Z * Z := (0, data).
Definition apple_nvme_init_request (driver_data : Z) (is_adminq : bool) (req : Z) : Z * rq_links :=
  let anv := queue_to_apple_nvme driver_data is_adminq in
  let iod := req + pdu in
  (0, Links driver_data (anv + off_ctrl) (iod + off_cmd)).

(** With the tag sets of [apple_nvme_alloc_tagsets] (their driver data is the
    queue of the same kind) a request leads back to its own controller. *)
Lemma init_request_links (anv : Z) (is_adminq : bool) (req : Z) :
  let q := anv + (if is_adminq then off_adminq else off_ioq) in
  let '(ret, l) := apple_nvme_init_request q is_adminq req in
  ret = 0 ∧ iod_q l = q ∧ ctrl_to_apple_nvme (nreq_ctrl l) = anv ∧
  queue_to_apple_nvme (iod_q l) is_adminq = anv.
Proof. unfold ctrl_to_apple_nvme, queue_to_apple_nvme; destruct is_adminq; simpl; lia. Qed.
End pointers.

(** ** Shared memory of the firmware *)

Record apple_rtkit_shmem := Shmem { iova : Z; size : Z; buffer : bool }.

Inductive dma_event := DmaAlloc (iova size : Z) | DmaFree (iova size : Z).

(** [coherent] is the outcome of [dma_alloc_coherent]. *)
Definition apple_nvme_sart_dma_setup (coherent : option Z) (s : apple_sart) (bfr : apple_rtkit_shmem)
    : Z * apple_sart * apple_rtkit_shmem * list dma_event :=
  if negb (iova bfr =? 0) then (- EINVAL, s, bfr, [])
  else if size bfr =? 0 then (- EINVAL, s, bfr, [])
  else match coherent with
  | None => (- ENOMEM, s, Shmem (iova bfr) (size bfr) false, [])
  | Some a =>
      let bfr := Shmem a (size bfr) true in
      let '(ret, s) := apple_sart_add_allowed_region s (iova bfr) (size bfr) in
      if negb (ret =? 0)
      then (- ENOMEM, s, Shmem (iova bfr) (size bfr) false,
            [DmaAlloc a (size bfr); DmaFree (iova bfr) (size bfr)])
      else (0, s, bfr, [DmaAlloc a (size bfr)])
  end.

Definition apple_nvme_sart_dma_destroy (s : apple_sart) (bfr : apple_rtkit_shmem)
    : apple_sart * list dma_event :=
  let '(_, s) := apple_sart_remove_allowed_region s (iova bfr) (size bfr) in
  (s, [DmaFree (iova bfr) (size bfr)]).

(** ** Lemmas *)

(** Doorbell writes to the controller. *)
Definition is_doorbell {R} (e : rq_event R) : bool :=
  match e with Hw (WSqDb _ _) => true | _ => false end.
Definition doorbells {R} (evs : list (rq_event R)) : nat := length (List.filter is_doorbell evs).

(** The command is in the submission queue of [q]. *)
Definition queued (q : apple_nvme_queue) (c : nvme_command) : Prop := ∃ off, sqes q !! off = Some c.

(** The bytes the controller will move for the command. *)
Definition moves (s : NvmePrp.state) (r : request) (c : nvme_command) : Prop :=
  nr_phys_segments r ≠ 0 →
  ctrl_bytes (mem s) (payload_bytes r) (dptr_of c) = Some (request_bytes r).

Lemma dptr_with c d : dptr_of (with_dptr c d) = d.
Proof. by destruct d. Qed.

Lemma submit_queued {R} is_write tag_of hw q c :
  let '(q', evs) := if has_lsq_nvmmu hw
                    then apple_nvme_submit_cmd_t8103 (R := R) is_write tag_of q c
                    else apple_nvme_submit_cmd_t8015 hw q c in
  queued q' c ∧ doorbells (Hw <$> evs) = 1%nat.
Proof.
  destruct (has_lsq_nvmmu hw); simpl; (split; [|done]); eexists; apply lookup_insert_eq.
Qed.

(** ** Theorems *)


Definition demo_cmd0 : nvme_command := Cmd 1 0x3002 1 0 0 0 [].


(** *** Flushes *)

(** With one namespace, a pending delayed flush is for that namespace. *)
Definition flush_inv (ns : Z) (f : flush_state) : Prop :=
  (flush_ns f = None ∨ flush_ns f = Some ns) ∧
  (is_Some (flush_dwork f) → flush_ns f = Some ns).

(** Steps of the flush machinery for one namespace: a flush request, the
    expiry of the delayed work. *)
Inductive flush_step (ns : Z) : flush_state → flush_state → Prop :=
| flush_request j f : flush_step ns f (apple_nvme_delayed_flush j ns true f).2
| flush_other j f : flush_step ns f (apple_nvme_delayed_flush j ns false f).2
| flush_expire j err f : is_Some (flush_dwork f) → flush_step ns f (apple_nvme_flush_work j err f).2.

Lemma delayed_flush_inv ns j is_flush f :
  flush_inv ns f → flush_inv ns (apple_nvme_delayed_flush j ns is_flush f).2.
Proof.
  intros [Hns Hd]. unfold apple_nvme_delayed_flush. destruct (_ || _); [done|].
  case_bool_decide as Hp; [done|]. destruct (time_before _ _); simpl.
  - destruct Hns as [-> | ->]; simpl; [split; [by right|done]|].
    rewrite Z.eqb_refl. split; [by right|done].
  - done.
Qed.

Lemma flush_step_inv ns f f' : flush_step ns f f' → flush_inv ns f → flush_inv ns f'.
Proof.
  intros [j g|j g|j err g Hp] Hinv; try by apply delayed_flush_inv.
  destruct Hinv as [Hns Hd]. unfold apple_nvme_flush_work. simpl.
  destruct (flush_ns g); simpl; [destruct (err =? 0)|]; simpl; split; try done;
    intros [? ?]; done.
Qed.

(** No acknowledged flush is lost while the controller has one namespace: in
    every state reachable from the probe, a flush request that is completed
    without being sent leaves a delayed flush pending, its expiry sends a flush
    for that namespace, and a pending one is never pushed back. *)
Theorem delayed_flush_not_lost ns interval j0 f j :
  rtc (flush_step ns) (flush_init interval j0) f →
  (apple_nvme_delayed_flush j ns true f).1 = true →
  let f' := (apple_nvme_delayed_flush j ns true f).2 in
  (∃ expiry, flush_dwork f' = Some expiry ∧
     (flush_dwork f = Some expiry ∨ flush_dwork f = None ∧ expiry = u64 (j + flush_interval f))) ∧
  ∀ j' err, (apple_nvme_flush_work j' err f').1 = Some ns.
Proof.
  intros Hr Htrue f'.
  assert (flush_inv ns f) as Hinv.
  { assert (flush_inv ns (flush_init interval j0)) as H0.
    { unfold flush_init. destruct (interval =? 0); split; simpl; auto; intros [? ?]; done. }
    clear Htrue f' j. induction Hr as [|f1 f2 f3 H1 _ IH]; [done|]. by eapply IH, flush_step_inv. }
  assert (is_Some (flush_dwork f') ∧ (∀ e, flush_dwork f = Some e → flush_dwork f' = Some e) ∧
    (flush_dwork f = None → flush_dwork f' = Some (u64 (j + flush_interval f)))) as (Hs & Hkeep & Hnew).
  { subst f'. revert Htrue. unfold apple_nvme_delayed_flush. destruct (_ || _); [done|].
    case_bool_decide as Hp; [by intros; repeat split; try done; destruct (flush_dwork f); destruct Hp|].
    assert (flush_dwork f = None) as -> by (destruct (flush_dwork f); [destruct Hp; by eexists|done]).
    destruct (time_before _ _); simpl; [|done].
    destruct (flush_ns f) as [ns'|]; [destruct (ns' =? ns)|]; simpl; intros; try done;
      (split; [by eexists|split; [done|done]]). }
  split.
  - destruct Hs as [e He]. exists e. split; [done|]. destruct (flush_dwork f) as [e'|].
    + left. specialize (Hkeep e' eq_refl). congruence.
    + right. split; [done|]. specialize (Hnew eq_refl). congruence.
  - intros j' err. pose proof (delayed_flush_inv ns j true f Hinv) as [_ Hns]. fold f' in Hns.
    unfold apple_nvme_flush_work. simpl. by rewrite (Hns Hs).
Qed.

Lemma delayed_flush_not_lost_witness :
  let f := (apple_nvme_delayed_flush 6000 1 true (flush_init 1000 5000)).2 in
  let f' := (apple_nvme_delayed_flush 6500 1 true f).2 in
  (∃ expiry, flush_dwork f' = Some expiry ∧
     (flush_dwork f = Some expiry ∨ flush_dwork f = None ∧ expiry = u64 (6500 + flush_interval f))) ∧
  ∀ j' err, (apple_nvme_flush_work j' err f').1 = Some 1.
Proof.
  refine (delayed_flush_not_lost 1 1000 5000
    (apple_nvme_delayed_flush 6000 1 true (flush_init 1000 5000)).2 6500 _ _).
  - apply rtc_once, flush_request.
  - vm_compute. reflexivity.
Defined.

(** With two namespaces a flush is lost: while a delayed flush for namespace 1
    is pending, a flush request for namespace 2 is completed without being sent,
    and the pending work flushes namespace 1 only. *)
Theorem delayed_flush_lost_across_namespaces :
  let f1 := (apple_nvme_delayed_flush 6000 1 true (flush_init 1000 5000)).2 in
  let f2 := (apple_nvme_delayed_flush 6100 1 true f1).2 in
  (apple_nvme_delayed_flush 6200 2 true f2).1 = true ∧
  (apple_nvme_flush_work 7100 0 (apple_nvme_delayed_flush 6200 2 true f2).2).1 = Some 1 ∧
  flush_dwork (apple_nvme_flush_work 7100 0 (apple_nvme_delayed_flush 6200 2 true f2).2).2 = None.
Proof. vm_compute. done. Qed.

(** Shared memory of the firmware is open to it exactly while it exists: a
    successful set-up opens one region of the filter for the new buffer and keeps
    the others, its destruction closes that region again and frees the buffer, and
    a failed set-up leaves the filter's regions as they were and frees what it
    allocated.  The bootloader's regions are never touched. *)
Theorem shmem_region_lifetime s a z :
  sart_inv s → 0 ≤ a < 2 ^ 44 → 0 < z →
  let '(ret, s1, bfr, evs) := apple_nvme_sart_dma_setup (Some a) s (Shmem 0 z false) in
  preserves_bootloader s s1 ∧
  ((ret = 0 ∧ regions s1 ≡ₚ (a, z) :: regions s ∧ evs = [DmaAlloc a z] ∧
    let '(s2, evs2) := apple_nvme_sart_dma_destroy s1 bfr in
    regions s2 ≡ₚ regions s ∧ evs2 = [DmaFree a z] ∧ preserves_bootloader s s2) ∨
   (ret = - ENOMEM ∧ regions s1 = regions s ∧ evs = [DmaAlloc a z; DmaFree a z] ∧
    buffer bfr = false)).
Proof.
  intros Hs Ha Hz. unfold apple_nvme_sart_dma_setup. cbn [iova size].
  destruct (Z.eqb_spec z 0); [lia|]. cbn [negb Z.eqb].
  pose proof (add_refines s a z Hs Ha ltac:(lia)) as H.
  destruct (apple_sart_add_allowed_region s a z) as [ret s1]. destruct H as (Hs1 & Hb1 & Hstep).
  inversion Hstep as [p' z' b Hfull|p' z' b Hlt Hok|p' z' b b' Hlt Hok Hperm| |]; subst; cbn [negb Z.eqb].
  - split; [done|]. right. done.
  - split; [done|]. right. done.
  - split; [done|]. left. split; [done|]. split; [done|]. split; [done|].
    unfold apple_nvme_sart_dma_destroy. cbn [iova size].
    pose proof (remove_refines s1 a z Hs1 Hz) as H.
    destruct (apple_sart_remove_allowed_region s1 a z) as [ret2 s2].
    destruct H as (Hs2 & Hb2 & Hstep2).
    inversion Hstep2 as [| | |p'' z'' b'' b3 Hperm2|p'' z'' b'' ret' Hnot]; subst.
    + split; [|split; [done|by eapply preserves_trans]].
      apply (Permutation_cons_inv (a := (a, z))). by rewrite <- Hperm2.
    + exfalso. match goal with H : _ ∉ regions s1 |- _ => apply H end.
      rewrite Hperm. apply list_elem_of_here.
Qed.

Lemma shmem_region_lifetime_witness :
  (apple_nvme_sart_dma_setup (Some 0x900000000) sample_sart (Shmem 0 0x4000 false)).1.1.1 = 0 ∧
  let '(ret, s1, bfr, evs) :=
    apple_nvme_sart_dma_setup (Some 0x900000000) sample_sart (Shmem 0 0x4000 false) in
  preserves_bootloader sample_sart s1 ∧
  ((ret = 0 ∧ regions s1 ≡ₚ (0x900000000, 0x4000) :: regions sample_sart ∧
    evs = [DmaAlloc 0x900000000 0x4000] ∧
    let '(s2, evs2) := apple_nvme_sart_dma_destroy s1 bfr in
    regions s2 ≡ₚ regions sample_sart ∧ evs2 = [DmaFree 0x900000000 0x4000] ∧
    preserves_bootloader sample_sart s2) ∨
   (ret = - ENOMEM ∧ regions s1 = regions sample_sart ∧
    evs = [DmaAlloc 0x900000000 0x4000; DmaFree 0x900000000 0x4000] ∧ buffer bfr = false)).
Proof.
  split; [vm_compute; reflexivity|].
  refine (shmem_region_lifetime sample_sart 0x900000000 0x4000 _ _ _).
  - exact (probe_inv sart_ops_v3 sample_regs sart_ops_v3_laws).
  - lia.
  - lia.
Defined.
