(* ===== verification/NvmeState.v ===== *)
(** * NVMe core: controller states and request completion (drivers/nvme/host/core.c)

    The state machine of a controller with its fail-fast timer, the decision what
    becomes of a completed request, and what happens to requests that reach a
    controller that is not ready.  Shown: the states are entered in order whatever the
    interleaving of the reset work with other threads, a request ends after a bounded
    number of retries, and the reset of the Apple driver ([NvmeCtrl]) leaves the
    controller live or on its way out.  Status codes and flag bits are defined in headers
    outside the repository and are parameters. *)

From Stdlib Require Import ZArith Lia Bool.
From stdpp Require Import base numbers list option relations.
From S2P Require Import Prelude.
From S2P Require Import NvmeQueue.
From S2P Require Import NvmeCtrl.

Local Open Scope list_scope.
Local Open Scope Z_scope.

(** ** The controller *)

Record nvme_ctrl := Ctrl {
  state : nvme_ctrl_state;
  nr_reset : Z;
  fast_io_fail_tmo : option Z;     (** [ctrl->opts] and its time-out, [None] without options *)
  failfast_work : bool;            (** the delayed work is scheduled *)
  failfast_expired : bool;         (** [NVME_CTRL_FAILFAST_EXPIRED] *)
  reset_work : bool;               (** the work is queued *)
  delete_work : bool;
  scan_work : bool;
  tagset : bool
}.

Definition ENETRESET : Z := 102.

Inductive effect :=
| WakeStateWaiters | KickRequeueLists | FlushResetWork
| StopCtrl | RemoveNamespaces | OpsDeleteCtrl | UninitCtrl.

Definition nvme_do_delete_ctrl : list effect :=
  [FlushResetWork; StopCtrl; RemoveNamespaces; OpsDeleteCtrl; UninitCtrl].

Definition set_state (s : nvme_ctrl_state) (c : nvme_ctrl) : nvme_ctrl :=
  Ctrl s (nr_reset c) (fast_io_fail_tmo c) (failfast_work c) (failfast_expired c) (reset_work c)
       (delete_work c) (scan_work c) (tagset c).
Definition count_reset (c : nvme_ctrl) : nvme_ctrl :=
  Ctrl (state c) (nr_reset c + 1) (fast_io_fail_tmo c) (failfast_work c) (failfast_expired c) (reset_work c)
       (delete_work c) (scan_work c) (tagset c).
Definition set_failfast (work expired : bool) (c : nvme_ctrl) : nvme_ctrl :=
  Ctrl (state c) (nr_reset c) (fast_io_fail_tmo c) work expired (reset_work c)
       (delete_work c) (scan_work c) (tagset c).
Definition set_works (reset delete scan : bool) (c : nvme_ctrl) : nvme_ctrl :=
  Ctrl (state c) (nr_reset c) (fast_io_fail_tmo c) (failfast_work c) (failfast_expired c) reset
       delete scan (tagset c).

Definition nvme_start_failfast_work (c : nvme_ctrl) : nvme_ctrl :=
  match fast_io_fail_tmo c with
  | None => c
  | Some tmo => if tmo =? - 1 then c else set_failfast true (failfast_expired c) c
  end.
Definition nvme_stop_failfast_work (c : nvme_ctrl) : nvme_ctrl :=
  match fast_io_fail_tmo c with
  | None => c
  | Some _ => set_failfast false false c
  end.
(** The timer has run out: the work is no longer scheduled. *)
Definition nvme_failfast_work (c : nvme_ctrl) : nvme_ctrl * list effect :=
  let c := set_failfast false (failfast_expired c) c in
  if negb (bool_decide (state c = NVME_CTRL_CONNECTING)) then (c, [])
  else (set_failfast false true c, [KickRequeueLists]).

(** Whether a transition is one of those the [switch] lists. *)
Definition allowed (new old : nvme_ctrl_state) : bool :=
  match new, old with
  | NVME_CTRL_LIVE, NVME_CTRL_CONNECTING => true
  | NVME_CTRL_RESETTING, (NVME_CTRL_NEW | NVME_CTRL_LIVE) => true
  | NVME_CTRL_CONNECTING, (NVME_CTRL_NEW | NVME_CTRL_RESETTING) => true
  | NVME_CTRL_DELETING, (NVME_CTRL_LIVE | NVME_CTRL_RESETTING | NVME_CTRL_CONNECTING) => true
  | NVME_CTRL_DELETING_NOIO, (NVME_CTRL_DELETING | NVME_CTRL_DEAD) => true
  | NVME_CTRL_DEAD, NVME_CTRL_DELETING => true
  | _, _ => false
  end.

(** The part under the lock, and what follows it when the state has changed. *)
Definition change_locked (new : nvme_ctrl_state) (c : nvme_ctrl) : bool * nvme_ctrl :=
  if allowed new (state c) then
    let c' := match new with NVME_CTRL_RESETTING => count_reset c | _ => c end in
    (true, set_state new c')
  else (false, c).
Definition change_after (new old : nvme_ctrl_state) (c : nvme_ctrl) : nvme_ctrl * list effect :=
  match new with
  | NVME_CTRL_LIVE =>
      (match old with NVME_CTRL_CONNECTING => nvme_stop_failfast_work c | _ => c end, [KickRequeueLists])
  | NVME_CTRL_CONNECTING =>
      (match old with NVME_CTRL_RESETTING => nvme_start_failfast_work c | _ => c end, [])
  | _ => (c, [])
  end.
Definition nvme_change_ctrl_state (new : nvme_ctrl_state) (c : nvme_ctrl) : bool * nvme_ctrl * list effect :=
  let old := state c in
  let '(changed, c) := change_locked new c in
  if negb changed then (false, c, [])
  else let '(c, effs) := change_after new old c in (true, c, WakeStateWaiters :: effs).

(** One look of the waiter: [None] means that it sleeps until it is woken.
    [nvme_state_terminal] comes from a header. *)
Definition nvme_wait_reset (nvme_state_terminal : nvme_ctrl_state → bool) (c : nvme_ctrl)
    : option bool * nvme_ctrl :=
  let '(changed, c, _) := nvme_change_ctrl_state NVME_CTRL_RESETTING c in
  if changed || nvme_state_terminal (state c)
  then (Some (bool_decide (state c = NVME_CTRL_RESETTING)), c)
  else (None, c).

Definition nvme_queue_scan (c : nvme_ctrl) : nvme_ctrl :=
  if bool_decide (state c = NVME_CTRL_LIVE) && tagset c then set_works (reset_work c) (delete_work c) true c else c.

(** [queue_work] fails when the work is queued already. *)
Definition queue_reset (c : nvme_ctrl) : Z * nvme_ctrl :=
  if reset_work c then (- EBUSY, c) else (0, set_works true (delete_work c) (scan_work c) c).
Definition nvme_try_sched_reset (c : nvme_ctrl) : Z * nvme_ctrl :=
  if negb (bool_decide (state c = NVME_CTRL_RESETTING)) then (- EBUSY, c) else queue_reset c.
Definition nvme_reset_ctrl (c : nvme_ctrl) : Z * nvme_ctrl * list effect :=
  let '(changed, c, effs) := nvme_change_ctrl_state NVME_CTRL_RESETTING c in
  if negb changed then (- EBUSY, c, effs) else (queue_reset c, effs).
(** [run] is what the reset work, and whatever else happens meanwhile, makes of the
    controller. *)
Definition nvme_reset_ctrl_sync (run : nvme_ctrl → nvme_ctrl) (c : nvme_ctrl) : Z * nvme_ctrl * list effect :=
  let '(ret, c, effs) := nvme_reset_ctrl c in
  if ret =? 0 then
    let c := run c in
    (if bool_decide (state c = NVME_CTRL_LIVE) then 0 else - ENETRESET, c, effs ++ [FlushResetWork])
  else (ret, c, effs).
Definition nvme_delete_ctrl (c : nvme_ctrl) : Z * nvme_ctrl * list effect :=
  let '(changed, c, effs) := nvme_change_ctrl_state NVME_CTRL_DELETING c in
  if negb changed then (- EBUSY, c, effs)
  else if delete_work c then (- EBUSY, c, effs)
  else (0, set_works (reset_work c) true (scan_work c) c, effs).
Definition nvme_delete_ctrl_sync (c : nvme_ctrl) : nvme_ctrl * list effect :=
  let '(changed, c, effs) := nvme_change_ctrl_state NVME_CTRL_DELETING c in
  (c, if changed then effs ++ nvme_do_delete_ctrl else effs).

(** ** The threads

    The reset work moves the controller to CONNECTING and LIVE; what it does after the
    lock is released is a step of its own, [after] in the state.  Other threads ask for
    a reset, a removal or a death, at any time.  The timer fires when it is scheduled. *)

Record sys := Sys { ctrl : nvme_ctrl; after : option (nvme_ctrl_state * nvme_ctrl_state) }.

Definition by_reset_work (s : nvme_ctrl_state) : bool :=
  match s with NVME_CTRL_CONNECTING | NVME_CTRL_LIVE => true | _ => false end.

Inductive step : sys → sys → Prop :=
| step_other new c a : by_reset_work new = false →
    step (Sys c a) (Sys (change_locked new c).2 a)
| step_change new c : by_reset_work new = true →
    step (Sys c None)
         (Sys (change_locked new c).2 (if (change_locked new c).1 then Some (new, state c) else None))
| step_after new old c :
    step (Sys c (Some (new, old))) (Sys (change_after new old c).1 None)
| step_timer c a : failfast_work c = true → step (Sys c a) (Sys (nvme_failfast_work c).1 a).

Definition ctrl_new (opts : option Z) : nvme_ctrl := Ctrl NVME_CTRL_NEW 0 opts false false false false false false.
Definition reachable (opts : option Z) (s : sys) : Prop := rtc step (Sys (ctrl_new opts) None) s.

(** On its way out. *)
Definition leaving (s : nvme_ctrl_state) : bool :=
  match s with NVME_CTRL_DELETING | NVME_CTRL_DELETING_NOIO | NVME_CTRL_DEAD => true | _ => false end.
Definition may_fail_fast (s : sys) : Prop :=
  state (ctrl s) = NVME_CTRL_CONNECTING ∨ leaving (state (ctrl s)) = true ∨
  after s = Some (NVME_CTRL_LIVE, NVME_CTRL_CONNECTING).

(** What holds in every reachable state. *)
Definition sys_inv (s : sys) : Prop :=
  (failfast_work (ctrl s) || failfast_expired (ctrl s) = true → may_fail_fast s) ∧
  (fast_io_fail_tmo (ctrl s) = None → failfast_work (ctrl s) || failfast_expired (ctrl s) = false) ∧
  match after s with
  | Some (NVME_CTRL_LIVE, old) => old = NVME_CTRL_CONNECTING ∧ state (ctrl s) ≠ NVME_CTRL_CONNECTING
                                   ∧ state (ctrl s) ≠ NVME_CTRL_NEW
  | Some (NVME_CTRL_CONNECTING, _) => state (ctrl s) = NVME_CTRL_CONNECTING ∨ leaving (state (ctrl s)) = true
  | Some _ => False
  | None => True
  end.

Lemma change_locked_cases new c :
  (allowed new (state c) = true ∧ (change_locked new c).1 = true ∧ state (change_locked new c).2 = new ∧
     failfast_work (change_locked new c).2 = failfast_work c ∧
     failfast_expired (change_locked new c).2 = failfast_expired c ∧
     fast_io_fail_tmo (change_locked new c).2 = fast_io_fail_tmo c ∧
     nr_reset (change_locked new c).2 = nr_reset c + (if bool_decide (new = NVME_CTRL_RESETTING) then 1 else 0)) ∨
  (allowed new (state c) = false ∧ change_locked new c = (false, c)).
Proof.
  unfold change_locked. destruct (allowed new (state c)) eqn:E; [left|by right].
  split; [done|]. case_bool_decide; destruct new; try done; cbn; repeat split; lia.
Qed.

Lemma step_inv s s' : step s s' → sys_inv s → sys_inv s'.
Proof.
  intros Hs (H1 & H2 & H3). destruct Hs as [new c a Hn|new c Hn|new old c|c a Ht]; cbn [ctrl after] in *.
  - destruct (change_locked_cases new c) as [(Ha & _ & Es & Ew & Ee & Eo & _)|[_ ->]]; [|done].
    unfold sys_inv, may_fail_fast. cbn [ctrl after]. rewrite Es, Ew, Ee, Eo.
    split; [|split; [done|]].
    + intros Hw. specialize (H1 Hw). unfold may_fail_fast in H1. cbn [ctrl after] in H1.
      destruct new, (state c); try discriminate; naive_solver.
    + destruct a as [[[] old]|]; try done; destruct new, (state c); try discriminate; naive_solver.
  - destruct (change_locked_cases new c) as [(Ha & Ec & Es & Ew & Ee & Eo & _)|[_ ->]]; [|done].
    rewrite Ec. unfold sys_inv, may_fail_fast. cbn [ctrl after]. rewrite Es, Ew, Ee, Eo.
    unfold may_fail_fast in H1. cbn [ctrl after] in H1.
    destruct new; try discriminate; destruct (state c); try discriminate; cbn in *; naive_solver.
  - destruct new; try done; cbn [change_after fst]; unfold sys_inv, may_fail_fast in *; cbn [ctrl after] in *.
    + destruct H3 as (-> & Hc & Hn). unfold nvme_stop_failfast_work. destruct (fast_io_fail_tmo c) eqn:E; cbn; [done|].
      specialize (H2 eq_refl). rewrite H2, E. done.
    + unfold nvme_start_failfast_work.
      assert (failfast_work c || failfast_expired c = true → state c = NVME_CTRL_CONNECTING ∨ leaving (state c) = true) by naive_solver.
      destruct old, (fast_io_fail_tmo c) as [tmo|] eqn:E; try (destruct (tmo =? -1)); cbn; rewrite ?E; naive_solver.
  - unfold sys_inv, may_fail_fast in *. cbn [ctrl after] in *. rewrite Ht in H1, H2. cbn [orb] in H1, H2.
    unfold nvme_failfast_work. cbn [state set_failfast].
    case_bool_decide; cbn [negb fst state set_failfast failfast_work failfast_expired fast_io_fail_tmo orb];
      (split; [naive_solver|split; [|exact H3]]); intros Ho; by apply H2 in Ho.
Qed.

Lemma reachable_inv opts s : reachable opts s → sys_inv s.
Proof.
  unfold reachable. intros Hr. remember (Sys (ctrl_new opts) None) as s0 eqn:E0.
  assert (sys_inv s0) as H0 by (subst; repeat split; done). clear E0.
  induction Hr; [done|]. eauto using step_inv.
Qed.

(** The state, and the number of resets, after a step. *)
Lemma step_state s s' : step s s' →
  (state (ctrl s') = state (ctrl s) ∧ nr_reset (ctrl s') = nr_reset (ctrl s)) ∨
  (allowed (state (ctrl s')) (state (ctrl s)) = true ∧
   nr_reset (ctrl s') = nr_reset (ctrl s) + (if bool_decide (state (ctrl s') = NVME_CTRL_RESETTING) then 1 else 0)).
Proof.
  intros [new c a _|new c _|new old c|c a _]; cbn [ctrl].
  1-2: destruct (change_locked_cases new c) as [(Ha & _ & Es & _ & _ & _ & En)|[_ ->]];
    [right; by rewrite Es|by left].
  - left. destruct new; try done; destruct old; cbn; try done;
      unfold nvme_stop_failfast_work, nvme_start_failfast_work; destruct (fast_io_fail_tmo c); try done; by case_if.
  - left. unfold nvme_failfast_work. cbn [state set_failfast]. by case_bool_decide.
Qed.

(** From a live controller on: the same life, or a counted reset. *)
Definition since_live (n : Z) (s : sys) : Prop :=
  n < nr_reset (ctrl s) ∨
  n = nr_reset (ctrl s) ∧ (state (ctrl s) = NVME_CTRL_LIVE ∨ leaving (state (ctrl s)) = true).

Lemma rtc_states s s' : rtc step s s' →
  (leaving (state (ctrl s)) = true → leaving (state (ctrl s')) = true) ∧
  ∀ n, since_live n s → since_live n s'.
Proof.
  induction 1 as [|s s1 s' Hs _ [IH1 IH2]]; [done|].
  destruct (step_state _ _ Hs) as [[Es En]|[Ha En]].
  - split; [rewrite Es in IH1; done|]. intros n Hn. apply IH2. unfold since_live in *. by rewrite Es, En.
  - split.
    + intros Hl. apply IH1. by destruct (state (ctrl s)), (state (ctrl s1)).
    + intros n Hn. apply IH2. unfold since_live in *. rewrite En.
      case_bool_decide as Hr; [lia|].
      destruct Hn as [Hn|[Hn Hl]]; [lia|]. right. split; [lia|].
      destruct (state (ctrl s)), (state (ctrl s1)); naive_solver.
Qed.

(** C15. The states of a controller are entered in order, however the reset work, the other
    threads and the timer interleave.  A controller on its way out does not come back; one
    that was live connects again only after a reset that has been counted; and unless the
    reset work is in the middle of a transition, requests of a new, live or resetting
    controller are not failed by an expired fail-fast timer, and none is scheduled. *)
Theorem nvme_states_ordered opts s s' :
  reachable opts s → rtc step s s' →
  (leaving (state (ctrl s)) = true → leaving (state (ctrl s')) = true) ∧
  (state (ctrl s) = NVME_CTRL_LIVE → state (ctrl s') = NVME_CTRL_CONNECTING → nr_reset (ctrl s) < nr_reset (ctrl s')) ∧
  (after s' = None → state (ctrl s') ∈ [NVME_CTRL_NEW; NVME_CTRL_LIVE; NVME_CTRL_RESETTING] →
     failfast_work (ctrl s') = false ∧ failfast_expired (ctrl s') = false).
Proof.
  intros Hr Hs. destruct (rtc_states _ _ Hs) as [H1 H2]. split; [done|]. split.
  - intros Hl Hc. destruct (H2 (nr_reset (ctrl s))) as [?|[_ [H|H]]]; [right; auto|done|by rewrite Hc in H..].
  - destruct (reachable_inv opts s') as (H3 & _ & _); [unfold reachable in *; by etrans|]. intros Ha Hin.
    assert (failfast_work (ctrl s') || failfast_expired (ctrl s') = false) as [? ?]%orb_false_elim; [|done].
    apply not_true_is_false. intros Hw. specialize (H3 Hw). unfold may_fail_fast in H3. rewrite Ha in H3.
    repeat (apply elem_of_cons in Hin as [Hin|Hin]; [rewrite Hin in H3; naive_solver|]). by apply elem_of_nil in Hin.
Qed.

(** A schedule: a request for a state, or the second half of a transition. *)
Definition move_ok (s : sys) (o : option nvme_ctrl_state) : bool :=
  match o, after s with
  | Some new, Some _ => negb (by_reset_work new)
  | Some _, None => true
  | None, Some _ => true
  | None, None => false
  end.
Definition advance (s : sys) (o : option nvme_ctrl_state) : sys :=
  match o, after s with
  | Some new, a =>
      Sys (change_locked new (ctrl s)).2
        (if by_reset_work new then if (change_locked new (ctrl s)).1 then Some (new, state (ctrl s)) else None else a)
  | None, Some (new, old) => Sys (change_after new old (ctrl s)).1 None
  | None, None => s
  end.
Fixpoint run (s : sys) (l : list (option nvme_ctrl_state)) : option sys :=
  match l with
  | [] => Some s
  | o :: l' => if move_ok s o then run (advance s o) l' else None
  end.

Lemma run_rtc l : ∀ s s', run s l = Some s' → rtc step s s'.
Proof.
  induction l as [|o l IH]; intros s s'; cbn [run]; [intros [= <-]; done|].
  destruct (move_ok s o) eqn:E; [|done]. intros H. eapply rtc_l; [|by apply IH].
  destruct s as [c a], o as [new|], a as [[n old]|]; try done; unfold move_ok, advance in *; cbn [ctrl after] in *.
  - apply negb_true_iff in E. rewrite E. by apply step_other.
  - destruct (by_reset_work new) eqn:Eb; [by apply step_change|by apply step_other].
  - apply step_after.
Qed.

(** Reset, connected and live; then reset and connecting again. *)
Definition to_live : list (option nvme_ctrl_state) :=
  [Some NVME_CTRL_RESETTING; Some NVME_CTRL_CONNECTING; None; Some NVME_CTRL_LIVE; None].
Definition to_connecting : list (option nvme_ctrl_state) :=
  [Some NVME_CTRL_RESETTING; Some NVME_CTRL_CONNECTING; None].
Definition sys_new : sys := Sys (ctrl_new (Some 5)) None.

Lemma nvme_states_ordered_witness :
  ∃ s s', run sys_new to_live = Some s ∧ run s to_connecting = Some s' ∧ nr_reset (ctrl s) < nr_reset (ctrl s').
Proof.
  eexists _, _. split; [vm_compute; reflexivity|]. split; [vm_compute; reflexivity|].
  eapply (nvme_states_ordered (Some 5)); [apply (run_rtc to_live); vm_compute; reflexivity
    |apply (run_rtc to_connecting); vm_compute; reflexivity|vm_compute; reflexivity|vm_compute; reflexivity].
Defined.

(** ** Completion *)

(** The status codes the functions name. *)
Inductive nvme_sc :=
| NVME_SC_SUCCESS | NVME_SC_CAP_EXCEEDED | NVME_SC_LBA_RANGE | NVME_SC_CMD_INTERRUPTED | NVME_SC_NS_NOT_READY
| NVME_SC_BAD_ATTRIBUTES | NVME_SC_INVALID_OPCODE | NVME_SC_INVALID_FIELD | NVME_SC_INVALID_NS
| NVME_SC_WRITE_FAULT | NVME_SC_READ_ERROR | NVME_SC_UNWRITTEN_BLOCK | NVME_SC_ACCESS_DENIED | NVME_SC_READ_ONLY
| NVME_SC_COMPARE_FAILED | NVME_SC_GUARD_CHECK | NVME_SC_APPTAG_CHECK | NVME_SC_REFTAG_CHECK | NVME_SC_INVALID_PI
| NVME_SC_RESERVATION_CONFLICT | NVME_SC_HOST_PATH_ERROR | NVME_SC_ZONE_TOO_MANY_ACTIVE
| NVME_SC_ZONE_TOO_MANY_OPEN | NVME_SC_AUTH_REQUIRED | NVME_SC_HOST_ABORTED_CMD.
#[export] Instance nvme_sc_eq_dec : EqDecision nvme_sc.
Proof. solve_decision. Defined.

Inductive blk_status_t :=
| BLK_STS_OK | BLK_STS_NOSPC | BLK_STS_TARGET | BLK_STS_NOTSUPP | BLK_STS_MEDIUM | BLK_STS_PROTECTION
| BLK_STS_RESV_CONFLICT | BLK_STS_TRANSPORT | BLK_STS_ZONE_ACTIVE_RESOURCE | BLK_STS_ZONE_OPEN_RESOURCE
| BLK_STS_IOERR | BLK_STS_RESOURCE.
#[export] Instance blk_status_eq_dec : EqDecision blk_status_t.
Proof. solve_decision. Defined.

Inductive nvme_disposition := COMPLETE | RETRY | FAILOVER | AUTHENTICATE.

(** Memory of a discard: allocated, or the page of the controller. *)
Inductive payload := Allocated | DiscardPage.

(** A request with the driver's part of it. *)
Record nvme_request := Rq {
  status : Z; retries : Z;
  rq_cancelled : bool; rq_usercmd : bool;         (** [nvme_req(req)->flags] *)
  dontprep : bool; quiet_rq : bool; special : option payload;   (** [req->rq_flags] *)
  noretry : bool;                                 (** [blk_noretry_request] *)
  mpath : bool;                                   (** [REQ_NVME_MPATH] *)
  passthrough : bool; zone_append : bool; has_ns : bool; on_admin_q : bool;
  in_flight : bool;
  result : Z; sector : Z; submitted : Z           (** [deadline - timeout] *)
}.

Definition set_status (v : Z) (r : nvme_request) : nvme_request :=
  Rq v (retries r) (rq_cancelled r) (rq_usercmd r) (dontprep r) (quiet_rq r) (special r) (noretry r) (mpath r)
     (passthrough r) (zone_append r) (has_ns r) (on_admin_q r) (in_flight r) (result r) (sector r) (submitted r).
Definition set_retries (v : Z) (r : nvme_request) : nvme_request :=
  Rq (status r) v (rq_cancelled r) (rq_usercmd r) (dontprep r) (quiet_rq r) (special r) (noretry r) (mpath r)
     (passthrough r) (zone_append r) (has_ns r) (on_admin_q r) (in_flight r) (result r) (sector r) (submitted r).
Definition set_cancelled (r : nvme_request) : nvme_request :=
  Rq (status r) (retries r) true (rq_usercmd r) (dontprep r) (quiet_rq r) (special r) (noretry r) (mpath r)
     (passthrough r) (zone_append r) (has_ns r) (on_admin_q r) (in_flight r) (result r) (sector r) (submitted r).
Definition drop_special (r : nvme_request) : nvme_request :=
  Rq (status r) (retries r) (rq_cancelled r) (rq_usercmd r) (dontprep r) (quiet_rq r) None (noretry r) (mpath r)
     (passthrough r) (zone_append r) (has_ns r) (on_admin_q r) (in_flight r) (result r) (sector r) (submitted r).
Definition set_sector (v : Z) (r : nvme_request) : nvme_request :=
  Rq (status r) (retries r) (rq_cancelled r) (rq_usercmd r) (dontprep r) (quiet_rq r) (special r) (noretry r) (mpath r)
     (passthrough r) (zone_append r) (has_ns r) (on_admin_q r) (in_flight r) (result r) v (submitted r).

Definition nvme_clear_nvme_request (r : nvme_request) : nvme_request :=
  Rq 0 0 false false true (quiet_rq r) (special r) (noretry r) (mpath r)
     (passthrough r) (zone_append r) (has_ns r) (on_admin_q r) (in_flight r) (result r) (sector r) (submitted r).

Inductive rq_effect :=
| FreePayload | ReleaseDiscardPage
| CompSeen
| LogError | IncNsErrors | IncCtrlErrors | MpathEnd
| IncNsRetries | Requeue (delay : Z) | ReadBehindCrdt
| QueueAuthWork | Failover
| EndRequest (s : blk_status_t)
| CompleteRemote.                 (** [blk_mq_complete_request] *)
#[export] Instance rq_effect_eq_dec : EqDecision rq_effect.
Proof. solve_decision. Defined.

Section completion.
Context (code : nvme_sc → Z) (NVME_SCT_SC_MASK NVME_STATUS_DNR NVME_STATUS_CRD : Z).
Context (nvme_is_path_error : Z → bool) (nvme_lba_to_sect : Z → Z).
(** [CONFIG_NVME_HOST_AUTH], [CONFIG_BLK_DEV_ZONED], the module parameter, the delays
    of the controller, its keep-alive interval and the time of the last check. *)
Context (host_auth zoned : bool) (nvme_max_retries : Z) (crdt : list Z) (kas : bool) (ka_last_check_time : Z).

(** The cases of the [switch], in their order. *)
Definition error_cases : list (nvme_sc * blk_status_t) :=
  [(NVME_SC_SUCCESS, BLK_STS_OK); (NVME_SC_CAP_EXCEEDED, BLK_STS_NOSPC);
   (NVME_SC_LBA_RANGE, BLK_STS_TARGET); (NVME_SC_CMD_INTERRUPTED, BLK_STS_TARGET); (NVME_SC_NS_NOT_READY, BLK_STS_TARGET);
   (NVME_SC_BAD_ATTRIBUTES, BLK_STS_NOTSUPP); (NVME_SC_INVALID_OPCODE, BLK_STS_NOTSUPP);
   (NVME_SC_INVALID_FIELD, BLK_STS_NOTSUPP); (NVME_SC_INVALID_NS, BLK_STS_NOTSUPP);
   (NVME_SC_WRITE_FAULT, BLK_STS_MEDIUM); (NVME_SC_READ_ERROR, BLK_STS_MEDIUM);
   (NVME_SC_UNWRITTEN_BLOCK, BLK_STS_MEDIUM); (NVME_SC_ACCESS_DENIED, BLK_STS_MEDIUM);
   (NVME_SC_READ_ONLY, BLK_STS_MEDIUM); (NVME_SC_COMPARE_FAILED, BLK_STS_MEDIUM);
   (NVME_SC_GUARD_CHECK, BLK_STS_PROTECTION); (NVME_SC_APPTAG_CHECK, BLK_STS_PROTECTION);
   (NVME_SC_REFTAG_CHECK, BLK_STS_PROTECTION); (NVME_SC_INVALID_PI, BLK_STS_PROTECTION);
   (NVME_SC_RESERVATION_CONFLICT, BLK_STS_RESV_CONFLICT); (NVME_SC_HOST_PATH_ERROR, BLK_STS_TRANSPORT);
   (NVME_SC_ZONE_TOO_MANY_ACTIVE, BLK_STS_ZONE_ACTIVE_RESOURCE);
   (NVME_SC_ZONE_TOO_MANY_OPEN, BLK_STS_ZONE_OPEN_RESOURCE)].
Fixpoint switch (v : Z) (cases : list (nvme_sc * blk_status_t)) : blk_status_t :=
  match cases with
  | [] => BLK_STS_IOERR
  | (c, s) :: cases' => if v =? code c then s else switch v cases'
  end.
Definition nvme_error_status (status : Z) : blk_status_t := switch (Z.land status NVME_SCT_SC_MASK) error_cases.

Definition nvme_decide_disposition (dying : bool) (r : nvme_request) : nvme_disposition :=
  if status r =? 0 then COMPLETE
  else if noretry r || negb (Z.land (status r) NVME_STATUS_DNR =? 0) || (nvme_max_retries <=? retries r) then COMPLETE
  else if Z.land (status r) NVME_SCT_SC_MASK =? code NVME_SC_AUTH_REQUIRED then AUTHENTICATE
  else if mpath r then if nvme_is_path_error (status r) || dying then FAILOVER else RETRY
  else if dying then COMPLETE else RETRY.

Definition nvme_retry_req (r : nvme_request) : nvme_request * list rq_effect :=
  let crd := Z.shiftr (Z.land (status r) NVME_STATUS_CRD) 11 in
  let delay :=
    if crd =? 0 then Some 0 else (λ d, u64 (d * 100)) <$> crdt !! Z.to_nat (crd - 1) in
  (set_retries (retries r + 1) r,
   match delay with Some _ => [] | None => [ReadBehindCrdt] end
   ++ (if has_ns r then [IncNsRetries] else []) ++ [Requeue (default 0 delay)]).

Definition nvme_cleanup_cmd (r : nvme_request) : nvme_request * list rq_effect :=
  match special r with
  | None => (r, [])
  | Some DiscardPage => (drop_special r, [ReleaseDiscardPage])
  | Some Allocated => (drop_special r, [FreePayload])
  end.

Definition nvme_end_req_zoned (r : nvme_request) : nvme_request :=
  if zoned && zone_append r then set_sector (nvme_lba_to_sect (result r)) r else r.
Definition __nvme_end_req (r : nvme_request) : nvme_request * list rq_effect :=
  (nvme_end_req_zoned r,
   (if negb (status r =? 0) && negb (quiet_rq r)
    then [LogError; if has_ns r then IncNsErrors else IncCtrlErrors] else [])
   ++ (if mpath r then [MpathEnd] else [])).
Definition nvme_end_req (r : nvme_request) : nvme_request * list rq_effect :=
  let st := nvme_error_status (status r) in
  let '(r, effs) := __nvme_end_req r in (r, effs ++ [EndRequest st]).

Definition nvme_complete_rq (dying : bool) (r : nvme_request) : nvme_request * list rq_effect :=
  let '(r, e1) := nvme_cleanup_cmd r in
  let e2 := if kas && (ka_last_check_time <=? submitted r) then [CompSeen] else [] in
  let '(r, e3) :=
    match nvme_decide_disposition dying r with
    | COMPLETE => nvme_end_req r
    | RETRY => nvme_retry_req r
    | FAILOVER => (r, [Failover])
    | AUTHENTICATE =>
        if host_auth then let '(r, e) := nvme_retry_req r in (r, QueueAuthWork :: e) else nvme_end_req r
    end in
  (r, e1 ++ e2 ++ e3).

Definition nvme_complete_batch_req (r : nvme_request) : nvme_request * list rq_effect :=
  let '(r, e1) := nvme_cleanup_cmd r in
  let '(r, e2) := __nvme_end_req r in (r, e1 ++ e2).

Definition nvme_host_path_error (dying : bool) (r : nvme_request) : blk_status_t * nvme_request * list rq_effect :=
  let '(r, e) := nvme_complete_rq dying (set_status (code NVME_SC_HOST_PATH_ERROR) r) in (BLK_STS_OK, r, e).

Definition nvme_cancel_request (r : nvme_request) : bool * nvme_request * list rq_effect :=
  if negb (in_flight r) then (true, r, [])
  else (true, set_cancelled (set_status (code NVME_SC_HOST_ABORTED_CMD) r), [CompleteRemote]).

(** [blk_mq_tagset_busy_iter] calls the function for the busy requests of a tag set. *)
Definition nvme_cancel_tagset (tags : option (list nvme_request)) : option (list nvme_request) * list rq_effect :=
  match tags with
  | None => (None, [])
  | Some rqs => (Some ((λ r, (nvme_cancel_request r).1.2) <$> rqs), rqs ≫= λ r, (nvme_cancel_request r).2)
  end.

(** ** Requests that find the controller not ready *)

Definition nvme_fail_nonready_command (c : nvme_ctrl) (dying : bool) (r : nvme_request)
    : blk_status_t * nvme_request * list rq_effect :=
  if negb (leaving (state c)) && negb (failfast_expired c) && negb (noretry r) && negb (mpath r)
  then (BLK_STS_RESOURCE, r, [])
  else
    let r := if negb (dontprep r) then nvme_clear_nvme_request r else r in
    nvme_host_path_error dying r.

(** [fabrics]: the transport is a fabric; [admits]: the command is one that a connecting
    fabrics controller needs. *)
Definition __nvme_check_ready (fabrics admits : bool) (s : nvme_ctrl_state) (queue_live : bool) (r : nvme_request) : bool :=
  if on_admin_q r && rq_usercmd r then false
  else if fabrics then
    match s with
    | NVME_CTRL_CONNECTING => if passthrough r && admits then true else queue_live
    | NVME_CTRL_DEAD => false
    | _ => queue_live
    end
  else queue_live.
End completion.

(** ** How often a request is tried *)

Definition requeued (effs : list rq_effect) : bool :=
  existsb (λ e, match e with Requeue _ => true | _ => false end) effs.
Definition ended (effs : list rq_effect) : list rq_effect :=
  List.filter (λ e, match e with EndRequest _ | Failover => true | _ => false end) effs.

Section attempts.
Context (code : nvme_sc → Z) (mask dnr crd : Z) (path_error : Z → bool) (to_sect : Z → Z).
Context (host_auth zoned : bool) (max_retries : Z) (crdt : list Z) (kas : bool) (last : Z).
(** The status the controller gives to the k-th attempt, and whether the queue is dying
    by then. *)
Context (st : nat → Z) (dying : nat → bool).

(** [nvme_setup_cmd] clears the driver's part of the request the first time. *)
Definition attempt (k : nat) (r : nvme_request) : nvme_request * list rq_effect :=
  let r := if negb (dontprep r) then nvme_clear_nvme_request r else r in
  nvme_complete_rq code mask dnr crd path_error to_sect host_auth zoned max_retries crdt kas last (dying k)
    (set_status (st k) r).

(** The attempts of a request, from the k-th on, until it is not requeued. *)
Fixpoint attempts (fuel k : nat) (r : nvme_request) : option (list (list rq_effect)) :=
  match fuel with
  | O => None
  | S fuel' =>
      let '(r, effs) := attempt k r in
      if requeued effs then (effs ::.) <$> attempts fuel' (S k) r else Some [effs]
  end.

Hypothesis Hcrd : ∀ s, 0 ≤ Z.shiftr (Z.land s crd) 11 ≤ 3.
Hypothesis Hcrdt : length crdt = 3%nat.

Definition prep (r : nvme_request) : nvme_request := if negb (dontprep r) then nvme_clear_nvme_request r else r.

Lemma prep_dontprep r : dontprep (prep r) = true.
Proof. unfold prep. by destruct (dontprep r) eqn:E. Qed.

Lemma requeued_app a b : requeued (a ++ b) = requeued a || requeued b.
Proof. apply existsb_app. Qed.
Lemma ended_app a b : ended (a ++ b) = ended a ++ ended b.
Proof. apply List.filter_app. Qed.

(** Effects that neither end a request nor put it back. *)
Definition silent (e : list rq_effect) : Prop := requeued e = false ∧ ended e = [] ∧ ReadBehindCrdt ∉ e.

(** An attempt ends the request, or puts it back with one retry less. *)
Definition outcome (k : nat) (r : nvme_request) (res : nvme_request * list rq_effect) : Prop :=
  (ReadBehindCrdt ∉ res.2) ∧
  ((requeued res.2 = true ∧ ended res.2 = [] ∧
    retries res.1 = retries (prep r) + 1 ∧ retries (prep r) < max_retries ∧ dontprep res.1 = true) ∨
   (requeued res.2 = false ∧
    (ended res.2 = [EndRequest (nvme_error_status code mask (st k))] ∨ ended res.2 = [Failover]))).

Lemma outcome_silent k r r' e e' : silent e → outcome k r (r', e') → outcome k r (r', e ++ e').
Proof.
  intros (H1 & H2 & H3) (H4 & H5). unfold outcome in *. cbn [fst snd] in *.
  rewrite requeued_app, ended_app, H1, H2. split; [set_solver|done].
Qed.

Lemma cleanup_quiet r :
  silent (nvme_cleanup_cmd r).2 ∧
  status (nvme_cleanup_cmd r).1 = status r ∧ retries (nvme_cleanup_cmd r).1 = retries r ∧
  dontprep (nvme_cleanup_cmd r).1 = dontprep r.
Proof.
  unfold nvme_cleanup_cmd, silent. destruct (special r) as [[]|]; cbn; repeat split; set_solver.
Qed.

Lemma retry_effects r :
  let '(r', effs) := nvme_retry_req crd crdt r in
  requeued effs = true ∧ ended effs = [] ∧ (ReadBehindCrdt ∉ effs) ∧
  retries r' = retries r + 1 ∧ dontprep r' = dontprep r.
Proof.
  unfold nvme_retry_req. pose proof (Hcrd (status r)) as Hc. set (k := Z.shiftr _ 11) in *.
  assert (is_Some (if k =? 0 then Some 0 else (λ d, u64 (d * 100)) <$> crdt !! Z.to_nat (k - 1))) as [d ->].
  { destruct (Z.eqb_spec k 0); [by eexists|]. apply fmap_is_Some, lookup_lt_is_Some. lia. }
  cbn [app default]. destruct (has_ns r); cbn; repeat split; set_solver.
Qed.

Lemma end_effects r :
  requeued (nvme_end_req code mask to_sect zoned r).2 = false ∧
  ended (nvme_end_req code mask to_sect zoned r).2 = [EndRequest (nvme_error_status code mask (status r))] ∧
  ReadBehindCrdt ∉ (nvme_end_req code mask to_sect zoned r).2.
Proof.
  unfold nvme_end_req, __nvme_end_req. cbn [snd].
  destruct (negb (status r =? 0) && negb (quiet_rq r)), (has_ns r), (mpath r); cbn; repeat split; set_solver.
Qed.

Lemma disposition_retries b r :
  nvme_decide_disposition code mask dnr path_error max_retries b r ∈ [RETRY; AUTHENTICATE] → retries r < max_retries.
Proof.
  unfold nvme_decide_disposition. destruct (status r =? 0); [set_solver|].
  destruct (Z.leb_spec max_retries (retries r)); [|done]. rewrite orb_true_r. set_solver.
Qed.

Lemma attempt_outcome k r : outcome k r (attempt k r).
Proof.
  unfold attempt. fold (prep r). set (r0 := set_status (st k) (prep r)).
  destruct (cleanup_quiet r0) as (Hq & Hs & Hr & Hd).
  unfold nvme_complete_rq. destruct (nvme_cleanup_cmd r0) as [r1 e1]. cbn [fst snd] in *.
  change (status r0) with (st k) in Hs. change (retries r0) with (retries (prep r)) in Hr.
  change (dontprep r0) with (dontprep (prep r)) in Hd. rewrite prep_dontprep in Hd.
  pose proof (retry_effects r1) as Hret. pose proof (end_effects r1) as (He1 & He2 & He3). rewrite Hs in He2.
  destruct (nvme_retry_req crd crdt r1) as [r2 e4]. destruct Hret as (Hr1 & Hr2 & Hr3 & Hr4 & Hr5).
  rewrite Hr in Hr4. rewrite Hd in Hr5.
  destruct (nvme_end_req code mask to_sect zoned r1) as [r3 e3]. cbn [fst snd] in *.
  pose proof (disposition_retries (dying k) r1) as Hlt. rewrite Hr in Hlt.
  assert (silent [QueueAuthWork]) as Hauth by (repeat split; set_solver).
  assert (outcome k r (r3, e3)) as Hend by (split; [done|right; auto]).
  assert (retries (prep r) < max_retries → outcome k r (r2, e4)) as Hretry by (intros; split; [done|left; auto]).
  match goal with |- context [match ?d with _ => _ end] => set (D := d) end.
  match goal with |- context [if kas && ?b then _ else _] => set (e2 := if kas && b then [CompSeen] else []) end.
  assert (silent e2) by (subst e2; case_if; repeat split; set_solver).
  subst D. destruct (nvme_decide_disposition _ _ _ _ _ _ r1); [| | |destruct host_auth];
    (apply outcome_silent; [done|apply outcome_silent; [done|]]); [done|apply Hretry, Hlt; set_solver| | |done].
  - split; [set_solver|right; split; [done|by right]].
  - apply (outcome_silent k r r2 [QueueAuthWork]); [done|]. apply Hretry, Hlt; set_solver.
Qed.

(** Attempts that have not ended the request, and the one that does. *)
Definition rounds_ok (k : nat) (rounds : list (list rq_effect)) : Prop :=
  Forall (λ e, ReadBehindCrdt ∉ e) rounds ∧
  (ended (concat rounds) = [EndRequest (nvme_error_status code mask (st (k + (length rounds - 1))))] ∨
   ended (concat rounds) = [Failover]).

Lemma attempts_end fuel : ∀ k r,
  (Z.to_nat (max_retries - retries (prep r)) < fuel)%nat →
  ∃ rounds, attempts fuel k r = Some rounds ∧ rounds_ok k rounds ∧
    (1 ≤ length rounds ≤ S (Z.to_nat (max_retries - retries (prep r))))%nat.
Proof.
  induction fuel as [|fuel IH]; intros k r Hf; [lia|]. cbn [attempts].
  pose proof (attempt_outcome k r) as Ho. destruct (attempt k r) as [r' effs]. destruct Ho as [Hn Ho]. cbn [fst snd] in *.
  destruct Ho as [(Hq & He & Hr & Hlt & Hd)|(Hq & He)]; rewrite Hq.
  - assert (prep r' = r') as Hp by (unfold prep; by rewrite Hd).
    destruct (IH (S k) r') as (rounds & Ea & [Hf1 Hf2] & Hl); [rewrite Hp, Hr; lia|].
    exists (effs :: rounds). rewrite Ea. split; [done|]. rewrite Hp, Hr in Hl. cbn [length].
    split; [|lia]. split; [by constructor|]. cbn [concat length]. rewrite ended_app, He. cbn [app].
    replace (k + (S (length rounds) - 1))%nat with (S k + (length rounds - 1))%nat by lia. done.
  - exists [effs]. split; [done|]. cbn [length]. split; [|lia]. split; [by repeat constructor|].
    cbn [concat length]. rewrite app_nil_r, Nat.add_0_r. done.
Qed.
End attempts.


(** The codes of the NVMe standard, and a read that fails twice. *)
Definition code_ex (c : nvme_sc) : Z :=
  match c with
  | NVME_SC_SUCCESS => 0 | NVME_SC_INVALID_OPCODE => 1 | NVME_SC_INVALID_FIELD => 2 | NVME_SC_INVALID_NS => 0xb
  | NVME_SC_CMD_INTERRUPTED => 0x21 | NVME_SC_LBA_RANGE => 0x80 | NVME_SC_CAP_EXCEEDED => 0x81
  | NVME_SC_NS_NOT_READY => 0x82 | NVME_SC_RESERVATION_CONFLICT => 0x83 | NVME_SC_BAD_ATTRIBUTES => 0x180
  | NVME_SC_INVALID_PI => 0x181 | NVME_SC_READ_ONLY => 0x182 | NVME_SC_AUTH_REQUIRED => 0x191
  | NVME_SC_ZONE_TOO_MANY_ACTIVE => 0x1bd | NVME_SC_ZONE_TOO_MANY_OPEN => 0x1be
  | NVME_SC_WRITE_FAULT => 0x280 | NVME_SC_READ_ERROR => 0x281 | NVME_SC_GUARD_CHECK => 0x282
  | NVME_SC_APPTAG_CHECK => 0x283 | NVME_SC_REFTAG_CHECK => 0x284 | NVME_SC_COMPARE_FAILED => 0x285
  | NVME_SC_ACCESS_DENIED => 0x286 | NVME_SC_UNWRITTEN_BLOCK => 0x287
  | NVME_SC_HOST_PATH_ERROR => 0x370 | NVME_SC_HOST_ABORTED_CMD => 0x371
  end.
Definition rq_ex : nvme_request :=
  Rq 0 7 false false false false None false false false false true false true 0 0 0.
Definition st_ex (k : nat) : Z := if (k <? 2)%nat then 0x281 else 0.

Lemma crd_mask_ok s : 0 ≤ Z.shiftr (Z.land s 0x1800) 11 ≤ 3.
Proof.
  rewrite Z.shiftr_land. change (Z.shiftr 0x1800 11) with (Z.ones 2). rewrite Z.land_ones by lia.
  pose proof (Z.mod_pos_bound (Z.shiftr s 11) (2 ^ 2)). lia.
Qed.


(** ** A controller on its way out *)

(** A request that is dispatched again and again to such a controller. *)
Section nonready.
Context (code : nvme_sc → Z) (mask dnr crd : Z) (path_error : Z → bool) (to_sect : Z → Z).
Context (host_auth zoned : bool) (max_retries : Z) (crdt : list Z) (kas : bool) (last : Z) (c : nvme_ctrl).

Fixpoint dispatches (dying : nat → bool) (fuel k : nat) (r : nvme_request)
    : option (list (blk_status_t * list rq_effect)) :=
  match fuel with
  | O => None
  | S fuel' =>
      let '(s, r, effs) := nvme_fail_nonready_command code mask dnr crd path_error to_sect host_auth zoned max_retries
                             crdt kas last c (dying k) r in
      if requeued effs then ((s, effs) ::.) <$> dispatches dying fuel' (S k) r else Some [(s, effs)]
  end.

Lemma nonready_attempt dying k r : leaving (state c) = true →
  nvme_fail_nonready_command code mask dnr crd path_error to_sect host_auth zoned max_retries crdt kas last c (dying k) r
  = (BLK_STS_OK,
     (attempt code mask dnr crd path_error to_sect host_auth zoned max_retries crdt kas last
        (λ _, code NVME_SC_HOST_PATH_ERROR) dying k r).1,
     (attempt code mask dnr crd path_error to_sect host_auth zoned max_retries crdt kas last
        (λ _, code NVME_SC_HOST_PATH_ERROR) dying k r).2).
Proof.
  intros Hl. unfold nvme_fail_nonready_command, attempt, nvme_host_path_error. rewrite Hl. cbn [negb andb].
  by destruct (nvme_complete_rq _ _ _ _ _ _ _ _ _ _ _ _ _ _).
Qed.

Lemma dispatches_attempts dying fuel : leaving (state c) = true → ∀ k r,
  dispatches dying fuel k r =
  fmap (M:=option) (fmap (M:=list) (pair BLK_STS_OK))
    (attempts code mask dnr crd path_error to_sect host_auth zoned max_retries crdt kas last
      (λ _, code NVME_SC_HOST_PATH_ERROR) dying fuel k r).
Proof.
  intros Hl. induction fuel as [|fuel IH]; intros k r; [done|]. cbn [dispatches attempts].
  rewrite nonready_attempt by done.
  destruct (attempt _ _ _ _ _ _ _ _ _ _ _ _ _ _ k r) as [r' effs]. cbn [fst snd].
  destruct (requeued effs); [|done]. rewrite IH. by destruct (attempts _ _ _ _ _ _ _ _ _ _ _ _ _ _ fuel _ _).
Qed.
End nonready.

Lemma switch_finds code v c s cases :
  (∀ a b, code a = code b → a = b) → NoDup cases.*1 → (c, s) ∈ cases → v = code c → switch code v cases = s.
Proof.
  intros Hinj. induction cases as [|[c' s'] cases IH]; cbn [switch fmap list_fmap]; [set_solver|].
  rewrite list.NoDup_cons. intros [Hn Hnd] Hin ->. destruct (Z.eqb_spec (code c) (code c')) as [E|E].
  - apply Hinj in E. subst c'. apply elem_of_cons in Hin as [[= <-]|Hin]; [done|]. exfalso. apply Hn.
    apply list_elem_of_fmap. by exists (c, s).
  - apply elem_of_cons in Hin as [[= -> ->]|Hin]; [done|]. by apply IH.
Qed.

(** Requests do not hang on a controller that goes away: each dispatch is accepted, and
    after at most [nvme_max_retries] retries the request is handed to another path or ended
    with a transport error, exactly once. *)
Theorem nvme_leaving_fails code mask dnr crd path_error to_sect host_auth zoned max_retries crdt kas last c dying r :
  leaving (state c) = true → 0 ≤ max_retries → (∀ s, 0 ≤ Z.shiftr (Z.land s crd) 11 ≤ 3) → length crdt = 3%nat →
  dontprep r = false → (∀ a b, code a = code b → a = b) →
  Z.land (code NVME_SC_HOST_PATH_ERROR) mask = code NVME_SC_HOST_PATH_ERROR →
  ∃ rounds,
    dispatches code mask dnr crd path_error to_sect host_auth zoned max_retries crdt kas last c dying
      (S (Z.to_nat max_retries)) 0 r = Some rounds ∧
    (1 ≤ length rounds ≤ S (Z.to_nat max_retries))%nat ∧
    Forall (λ d, d.1 = BLK_STS_OK) rounds ∧
    (ended (concat rounds.*2) = [EndRequest BLK_STS_TRANSPORT] ∨ ended (concat rounds.*2) = [Failover]).
Proof.
  intros Hl Hm Hc Hlc Hd Hinj Hmask. assert (retries (prep r) = 0) as Hr by (unfold prep; by rewrite Hd).
  destruct (attempts_end code mask dnr crd path_error to_sect host_auth zoned max_retries crdt kas last
    (λ _, code NVME_SC_HOST_PATH_ERROR) dying Hc Hlc (S (Z.to_nat max_retries)) 0 r) as (rounds & E & [H1 H2] & H3);
    [rewrite Hr; lia|].
  exists (pair BLK_STS_OK <$> rounds). rewrite dispatches_attempts by done. rewrite E. split; [done|].
  rewrite length_fmap. rewrite Hr, Z.sub_0_r in H3. split; [done|]. split; [by apply list.Forall_fmap, list.Forall_true|].
  rewrite <- list_fmap_compose. replace (compose snd (pair BLK_STS_OK) <$> rounds) with rounds
    by (symmetry; apply list_fmap_id).
  unfold nvme_error_status in H2. rewrite Hmask in H2.
  rewrite (switch_finds code _ NVME_SC_HOST_PATH_ERROR BLK_STS_TRANSPORT error_cases) in H2; [done|done| | |done].
  - refine (bool_decide_unpack _ _). vm_compute. exact I.
  - refine (bool_decide_unpack _ _). vm_compute. exact I.
Qed.

Lemma nvme_leaving_fails_witness :
  ∃ rounds, dispatches code_ex 0x7ff 0x4000 0x1800 (λ _, false) id true true 5 [1; 2; 3] true 0
              (set_state NVME_CTRL_DEAD (ctrl_new None)) (λ _, false) 6 0 rq_ex = Some rounds ∧
    length rounds = 6%nat ∧ ended (concat rounds.*2) = [EndRequest BLK_STS_TRANSPORT].
Proof.
  destruct (nvme_leaving_fails code_ex 0x7ff 0x4000 0x1800 (λ _, false) id true true 5 [1; 2; 3] true 0
    (set_state NVME_CTRL_DEAD (ctrl_new None)) (λ _, false) rq_ex) as (rounds & E & _);
    [done|lia|apply crd_mask_ok|done|done|by intros [] []|done|].
  exists rounds. split; [exact E|]. vm_compute in E. injection E as <-. done.
Defined.

(** ** The reset of the Apple driver on top of the core

    [NvmeCtrl] asks an oracle for the state of the controller and for the outcome of a
    change.  Here the oracle is the core: the controller after a history is what the
    changes of the history have made of it. *)

Definition core_step (c : nvme_ctrl) (e : event) : nvme_ctrl :=
  match e with ChangeState s => (nvme_change_ctrl_state s c).1.2 | _ => c end.
Definition core (c0 : nvme_ctrl) (t : list event) : nvme_ctrl := fold_left core_step t c0.
Definition core_answers (c0 : nvme_ctrl) (ans : list event → event → Z) : Prop :=
  ∀ t s, ans t (ChangeState s) = if (nvme_change_ctrl_state s (core c0 t)).1.1 then 1 else 0.

Definition no_change (e : event) : bool := match e with ChangeState _ | QueueRemoveWork => false | _ => true end.

Lemma change_state new c :
  state (nvme_change_ctrl_state new c).1.2 = (if allowed new (state c) then new else state c) ∧
  (nvme_change_ctrl_state new c).1.1 = allowed new (state c).
Proof.
  unfold nvme_change_ctrl_state. pose proof (change_locked_cases new c) as H.
  destruct (change_locked new c) as [changed c'] eqn:E. cbn [fst snd] in H.
  destruct H as [(-> & -> & <- & _)|[-> [= -> ->]]]; [|done]. cbn [negb].
  destruct (change_after _ _ _) as [c2 effs] eqn:Ea. cbn [fst snd]. split; [|done].
  unfold change_after, nvme_stop_failfast_work, nvme_start_failfast_work in Ea.
  destruct (state c') eqn:Es, (state c), (fast_io_fail_tmo c') as [tmo|]; try destruct (tmo =? -1);
    by injection Ea as <- _.
Qed.

Section on_core.
Context (c0 : nvme_ctrl) (ans : list event → event → Z).
Hypothesis Hans : core_answers c0 ans.
Context (hw : apple_nvme_hw) (dma_max asq acq atcb iosq iocq iotcb : Z).
Abbreviation cstate := (λ t, state (core c0 t)).

Definition removal (evs : list event) : bool :=
  existsb (λ e, match e with QueueRemoveWork => true | _ => false end) evs.

(** Started in state [s], [m] ends in a state that satisfies [post], together with
    whether the removal of the controller has been queued. *)
Definition leads {A} (m : TR event A) (s : nvme_ctrl_state) (post : nvme_ctrl_state → bool → Prop) : Prop :=
  ∀ t, cstate t = s → ∃ evs, (m t).2 = t ++ evs ∧ post (cstate (t ++ evs)) (removal evs).

Lemma core_quiet evs : ∀ c, forallb no_change evs = true → fold_left core_step evs c = c.
Proof.
  induction evs as [|e evs IH]; intros c; [done|]. cbn [forallb fold_left]. intros [He H]%andb_prop.
  destruct e; try done; by apply IH.
Qed.
Lemma removal_quiet evs : forallb no_change evs = true → removal evs = false.
Proof.
  induction evs as [|e evs IH]; [done|]. cbn [forallb removal existsb]. intros [He H]%andb_prop.
  destruct e; try done; by apply IH.
Qed.

(** A prefix that queues nothing. *)
Lemma leads_prefix {A B} (m : TR event A) (k : A → TR event B) s s' post :
  (∀ t, cstate t = s → ∃ e, (m t).2 = t ++ e ∧ removal e = false ∧ cstate (t ++ e) = s' ∧ leads (k (m t).1) s' post) →
  leads (m ≫= k) s post.
Proof.
  intros Hm t Ht. destruct (Hm t Ht) as (e & He & Hr & Hs & Hk). destruct (Hk (t ++ e) Hs) as (evs & Hevs & Hp).
  exists (e ++ evs). rewrite TR_bind_eq, He, Hevs, <- app_assoc. split; [done|].
  unfold removal in *. rewrite existsb_app, Hr. by rewrite <- app_assoc in Hp.
Qed.
Lemma leads_quiet {A B} (m : TR event A) (k : A → TR event B) s post :
  quiet no_change m → (∀ a, leads (k a) s post) → leads (m ≫= k) s post.
Proof.
  intros Hm Hk. apply (leads_prefix _ _ s s). intros t Ht. destruct (Hm t) as (e & He & Hn). exists e.
  split; [done|]. split; [by apply removal_quiet|]. split; [|done].
  unfold core. rewrite fold_left_app, core_quiet by done. exact Ht.
Qed.
Lemma leads_end {A} (m : TR event A) s (post : nvme_ctrl_state → bool → Prop) :
  quiet no_change m → post s false → leads m s post.
Proof.
  intros Hm Hp t Ht. destruct (Hm t) as (e & -> & He). exists e. split; [done|].
  rewrite removal_quiet by done. unfold core in *. rewrite fold_left_app, core_quiet, Ht by done. done.
Qed.
Lemma leads_change {A} (k : bool → TR event A) new s post :
  leads (k (allowed new s)) (if allowed new s then new else s) post →
  leads (ok ans (ChangeState new) ≫= k) s post.
Proof.
  intros Hk. apply (leads_prefix _ _ s (if allowed new s then new else s)). intros t Ht. exists [ChangeState new].
  unfold ok, call. trace_step. rewrite Hans. destruct (change_state new (core c0 t)) as [H1 H2].
  rewrite H2, Ht in *. split; [done|]. split; [done|].
  split; [unfold core; rewrite fold_left_app; exact H1|]. by destruct (allowed new s).
Qed.
Lemma leads_emit_change {A} (k : unit → TR event A) new s post :
  leads (k tt) (if allowed new s then new else s) post → leads (emit (ChangeState new) ≫= k) s post.
Proof.
  intros Hk. apply (leads_prefix _ _ s (if allowed new s then new else s)). intros t Ht. exists [ChangeState new].
  trace_step. destruct (change_state new (core c0 t)) as [H1 _]. rewrite Ht in H1.
  split; [done|]. split; [done|]. split; [unfold core; rewrite fold_left_app; exact H1|done].
Qed.

Lemma quiet_disable_core b : quiet no_change (apple_nvme_disable ans cstate b).
Proof.
  unfold apple_nvme_disable, get_state, ok, call, read_enabled, apple_nvme_remove_sq, apple_nvme_remove_cq, call.
  auto 30 with quiet.
Qed.

(** Live, or on its way out with the removal queued. *)
Definition settled (s : nvme_ctrl_state) (removing : bool) : Prop :=
  s = NVME_CTRL_LIVE ∧ removing = false ∨ s = NVME_CTRL_DELETING ∧ removing = true.

Lemma out_settled s : allowed NVME_CTRL_DELETING s = true → leads (reset_out ans cstate) s settled.
Proof.
  intros Hs. unfold reset_out, ok, call. apply leads_emit_change. rewrite Hs.
  apply leads_quiet; [by apply quiet_emit|intros _]. apply leads_quiet; [apply quiet_disable_core|intros _].
  apply leads_quiet; [by apply quiet_emit|intros _]. intros t Ht. trace_step.
  exists (QueueRemoveWork :: if ans t QueueRemoveWork =? 0 then [PutCtrl] else []).
  destruct (ans t QueueRemoveWork =? 0); cbn [negb]; trace_step; rewrite <- ?app_assoc;
    (split; [done|right; split; [|done]]); unfold core in *; rewrite fold_left_app; exact Ht.
Qed.

Ltac leads_step :=
  match goal with
  | |- leads (reset_out _ _) _ _ => by apply out_settled
  | |- leads (ok _ (ChangeState _) ≫= _) _ _ => apply leads_change; cbn [allowed negb]; cbv iota
  | |- leads (try_or_out _ _ _ _) _ _ => unfold try_or_out
  | |- leads (if ?b then _ else _) _ _ => destruct b
  | |- leads (emit StartCtrl) _ _ => apply leads_end; [by apply quiet_emit|left; split; done]
  | |- leads (_ ≫= _) _ _ => apply leads_quiet; [solve [auto 30 using quiet_disable_core with quiet]|intros ?]
  end.

Lemma reset_live_leads : leads (reset_live ans cstate hw iosq iocq) NVME_CTRL_CONNECTING settled.
Proof.
  unfold reset_live, apple_nvme_remove_sq, apple_nvme_remove_cq, call. repeat leads_step.
Qed.

Lemma reset_init_leads :
  leads (reset_init ans cstate hw dma_max asq acq atcb iosq iocq iotcb) NVME_CTRL_RESETTING settled.
Proof.
  unfold reset_init, apple_nvme_create_cq, apple_nvme_create_sq, apple_nvme_remove_cq, call.
  repeat first [apply reset_live_leads | leads_step].
Qed.

Lemma reset_boot_leads :
  leads (reset_boot ans cstate hw dma_max asq acq atcb iosq iocq iotcb) NVME_CTRL_RESETTING settled.
Proof. unfold reset_boot, call. repeat first [apply reset_init_leads | leads_step]. Qed.

Lemma reset_work_leads cc :
  leads (apple_nvme_reset_work ans cstate hw dma_max asq acq atcb iosq iocq iotcb cc) NVME_CTRL_RESETTING settled.
Proof.
  unfold apple_nvme_reset_work. intros t Ht. rewrite TR_bind_eq. unfold get_state. cbn [fst snd]. rewrite Ht.
  rewrite bool_decide_eq_true_2 by done. cbn [negb]. revert t Ht. change (leads (ok ans IsCrashed ≫= λ crashed : bool,
    if crashed then reset_out ans cstate else ok ans IsRunning ≫= λ running : bool,
      if running then (if cc then apple_nvme_disable ans cstate false else mret tt);;
        try_or_out ans cstate (call ans RtkitShutdown)
          (emit (WriteReg CPU_CONTROL 0);; reset_boot ans cstate hw dma_max asq acq atcb iosq iocq iotcb)
      else reset_boot ans cstate hw dma_max asq acq atcb iosq iocq iotcb) NVME_CTRL_RESETTING settled).
  unfold ok, call. repeat first [apply reset_boot_leads | leads_step].
Qed.
End on_core.

(** C27. The reset of the Apple driver, on top of the core's state machine: a controller that is
    being reset ends up live and started, or on its way out with its namespaces marked
    dead, whatever fails; no third state is left behind, and on the way out both queues
    are off. *)
Theorem apple_reset_settles c0 ans hw dma_max asq acq atcb iosq iocq iotcb cc t :
  core_answers c0 ans → state (core c0 t) = NVME_CTRL_RESETTING →
  ∃ evs,
    (apple_nvme_reset_work ans (λ t, state (core c0 t)) hw dma_max asq acq atcb iosq iocq iotcb cc t).2 = t ++ evs ∧
    ((state (core c0 (t ++ evs)) = NVME_CTRL_LIVE ∧ enabled_after false (t ++ evs) = true ∧ StartCtrl ∈ evs) ∨
     (state (core c0 (t ++ evs)) = NVME_CTRL_DELETING ∧ enabled_after false (t ++ evs) = false ∧
      enabled_after true (t ++ evs) = false ∧ MarkNamespacesDead ∈ evs)).
Proof.
  intros Ha Hs. destruct (reset_work_leads c0 ans Ha hw dma_max asq acq atcb iosq iocq iotcb cc t Hs) as (evs & He & Hp).
  destruct (reset_work_outcome ans (λ t, state (core c0 t)) hw dma_max asq acq atcb iosq iocq iotcb cc t)
    as (evs' & He' & Ho). rewrite He in He'. apply app_inv_head in He' as <-. exists evs. split; [done|].
  assert (removal evs = true ↔ QueueRemoveWork ∈ evs) as Hrem.
  { unfold removal. rewrite existsb_exists. setoid_rewrite <- list_elem_of_In. split; [|by eexists].
    intros (e & Hin & E). by destruct e. }
  destruct Ho as [(H1 & _ & [pre ->] & H4 & _)|(H1 & H2 & _ & H4 & pre & post & -> & _)].
  - left. destruct Hp as [[Hl _]|[_ Hr]]; [|by apply Hrem in Hr]. split; [done|]. split; [done|]. set_solver.
  - right. destruct Hp as [[_ Hr]|[Hd _]]; [|done].
    exfalso. apply not_true_iff_false in Hr. apply Hr, Hrem. set_solver.
Qed.

(** Everything succeeds, the core answers for the state. *)
Definition resetting_ctrl : nvme_ctrl := set_state NVME_CTRL_RESETTING (ctrl_new None).
Definition core_ans (t : list event) (e : event) : Z :=
  match e with
  | ChangeState s => if (nvme_change_ctrl_state s (core resetting_ctrl t)).1.1 then 1 else 0
  | ReadCsts => 1
  | _ => 0
  end.

Lemma apple_reset_settles_witness :
  ∃ evs,
    (apple_nvme_reset_work core_ans (λ t, state (core resetting_ctrl t)) apple_nvme_t8103_hw 0 0 0 0 0 0 0 false []).2 = evs ∧
    state (core resetting_ctrl evs) = NVME_CTRL_LIVE.
Proof.
  destruct (apple_reset_settles resetting_ctrl core_ans apple_nvme_t8103_hw 0 0 0 0 0 0 0 false []) as (evs & E & Hs);
    [done|done|]. exists evs. cbn [app] in *. split; [exact E|].
  destruct Hs as [[H _]|[H _]]; [exact H|]. exfalso. rewrite <- E in H. vm_compute in H. discriminate.
Defined.
