(* ===== verification/NvmeSetup.v ===== *)
(** * NVMe core: the commands of requests (drivers/nvme/host/core.c)

    [nvme_setup_cmd] and the functions that build the command of a request: flush,
    discard, write zeroes, read, write and zone append.  Opcodes and flags are symbolic;
    what the functions take from headers outside the repository (the conversion of sectors
    to blocks, the reference tags, the zone commands) is a parameter with its documented
    law.  Shown: a command addresses exactly the bytes of its request, a discard lists exactly
    its ranges, and the spare page of the controller is held by one request at a time. *)

From Stdlib Require Import ZArith Lia Bool.
From stdpp Require Import base numbers list option gmap relations.
From S2P Require Import Prelude.
From S2P Require Import NvmeCtrl.
From S2P Require Import NvmeState.

Local Open Scope list_scope.
Local Open Scope Z_scope.

(** ** Namespaces, requests, commands *)

Inductive pi_type := PI_NONE | PI_TYPE1 | PI_TYPE2 | PI_TYPE3.
Inductive guard_type := GUARD_16B | GUARD_64B | GUARD_OTHER.

Record nvme_ns_head := Head {
  ns_id : Z; lba_shift : Z; ms : Z;
  h_pi_type : pi_type; h_guard_type : guard_type;
  ns_deac : bool;                       (** [NVME_NS_DEAC] *)
  nr_plids : Z; plids : list Z
}.

Inductive req_op :=
| REQ_OP_DRV_IN | REQ_OP_DRV_OUT | REQ_OP_FLUSH
| REQ_OP_ZONE_RESET_ALL | REQ_OP_ZONE_RESET | REQ_OP_ZONE_OPEN | REQ_OP_ZONE_CLOSE | REQ_OP_ZONE_FINISH
| REQ_OP_WRITE_ZEROES | REQ_OP_DISCARD | REQ_OP_READ | REQ_OP_WRITE | REQ_OP_ZONE_APPEND
| REQ_OP_OTHER.

(** What the block layer says of a request. *)
Record request := Request {
  op : req_op;
  pos : Z;                              (** first sector *)
  bytes : Z;
  bios : list (Z * Z);                  (** sector and size of each bio *)
  nr_discard_segments : Z;
  req_fua : bool; failfast_dev : bool; rahead : bool; nounmap : bool; req_atomic : bool;
  write_stream : Z;
  integrity_rq : bool;
  check_guard : bool; check_reftag : bool; check_apptag : bool; app_tag : Z;
  cid : Z;
  drv : nvme_request
}.

Inductive opcode := nvme_cmd_flush | nvme_cmd_dsm | nvme_cmd_write_zeroes | nvme_cmd_read | nvme_cmd_write
| nvme_cmd_zone_append | nvme_cmd_other (v : Z).
Inductive rw_flag := RW_FUA | RW_LR | RW_DTYPE_DPLCMT | RW_PRINFO_PRACT | RW_PRCHK_GUARD | RW_PRCHK_REF
| RW_APPEND_PIREMAP | RW_PRCHK_APP | WZ_DEAC.
#[export] Instance rw_flag_eq_dec : EqDecision rw_flag.
Proof. solve_decision. Defined.

(** The fields the functions set; [control] is the set of flags, [prefetch] the bit
    NVME_RW_DSM_FREQ_PREFETCH, [dspec] the upper half of dsmgmt. *)
Record command := Command {
  opc : opcode; nsid : Z; command_id : Z;
  slba : Z; nlb : Z;                    (** [length], zero-based *)
  control : list rw_flag; prefetch : bool; dspec : Z;
  reftag : Z; cdw3 : Z; lbat : Z; lbatm : Z;
  dsm_nr : Z; dsm_ad : bool
}.
Definition zero_command : command := Command (nvme_cmd_other 0) 0 0 0 0 [] false 0 0 0 0 0 0 false.
Definition set_command_id (v : Z) (c : command) : command :=
  Command (opc c) (nsid c) v (slba c) (nlb c) (control c) (prefetch c) (dspec c) (reftag c) (cdw3 c) (lbat c)
          (lbatm c) (dsm_nr c) (dsm_ad c).
Definition set_tags (ref hi lb lbm : Z) (c : command) : command :=
  Command (opc c) (nsid c) (command_id c) (slba c) (nlb c) (control c) (prefetch c) (dspec c) ref hi lb lbm
          (dsm_nr c) (dsm_ad c).
Definition set_control (fl : list rw_flag) (pre : bool) (ds : Z) (c : command) : command :=
  Command (opc c) (nsid c) (command_id c) (slba c) (nlb c) fl pre ds (reftag c) (cdw3 c) (lbat c)
          (lbatm c) (dsm_nr c) (dsm_ad c).

Definition NVME_DSM_MAX_RANGES : nat := 256.

(** Statuses beside those of [NvmeState]. *)
Inductive setup_status := STS_OK | STS_IOERR | STS_RESOURCE | STS_NOTSUPP | STS_INVAL | STS_ZONE (v : Z).
#[export] Instance setup_status_eq_dec : EqDecision setup_status.
Proof. solve_decision. Defined.

(** What building a command leaves: the status, the command, the memory attached to the
    request with its ranges, and the busy bit of the controller's page. *)
Record built := Built {
  b_status : setup_status; b_cmd : command; b_payload : option payload; b_ranges : list (Z * Z); b_busy : bool
}.

Section setup.
Context (nvme_sect_to_lba : Z → Z → Z).           (** shift, sector *)
Context (t10_pi_ref_tag ext_pi_ref_tag : request → Z).
Context (nvme_setup_zone_mgmt_send : request → command → setup_status * command).
Context (nvme_ns_has_pi : nvme_ns_head → bool).
(** The limits of the queue and the quirk NVME_QUIRK_DEALLOCATE_ZEROES. *)
Context (queue_max_discard_segments atomic_write_boundary atomic_write_unit_max : Z) (deallocate_zeroes : bool).
Context (ns : nvme_ns_head).

Definition nvme_setup_flush (c : command) : command :=
  Command nvme_cmd_flush (ns_id ns) 0 0 0 [] false 0 0 0 0 0 0 false.

(** The bios of a discard; [None] when a range is written behind the array. *)
Fixpoint fill_ranges (segments n : Z) (bs : list (Z * Z)) (ranges : list (Z * Z)) : option (Z * list (Z * Z)) :=
  match bs with
  | [] => Some (n, ranges)
  | (sector, size) :: bs' =>
      let r := (nvme_sect_to_lba (lba_shift ns) sector, u32 (Z.shiftr size (lba_shift ns))) in
      if n <? segments then
        if (Z.to_nat n <? length ranges)%nat then fill_ranges segments (u16 (n + 1)) bs' (<[Z.to_nat n := r]> ranges)
        else None
      else fill_ranges segments (u16 (n + 1)) bs' ranges
  end.

(** [alloc]: there is memory; [page]: what the controller's page holds. *)
Definition nvme_setup_discard (alloc : bool) (page : list (Z * Z)) (busy : bool) (r : request) (c : command)
    : option built :=
  let segments := u16 (nr_discard_segments r) in
  if negb alloc && busy then Some (Built STS_RESOURCE c None [] busy)
  else
    let held := if alloc then Allocated else DiscardPage in
    let ranges := if alloc then replicate NVME_DSM_MAX_RANGES (0, 0) else page in
    let busy := if alloc then busy else true in
    match
      if queue_max_discard_segments =? 1
      then Some (1, <[0%nat := (nvme_sect_to_lba (lba_shift ns) (pos r),
                                Z.shiftr (Z.shiftr (bytes r) 9) (lba_shift ns - 9))]> ranges)
      else fill_ranges segments 0 (bios r) ranges
    with
    | None => None
    | Some (n, ranges) =>
        if negb (n =? segments) then Some (Built STS_IOERR c None [] (if alloc then busy else false))
        else Some (Built STS_OK
               (Command nvme_cmd_dsm (ns_id ns) 0 0 0 [] false 0 0 0 0 0 (u32 (segments - 1)) true)
               (Some held) ranges busy)
    end.

Definition nvme_set_app_tag (r : request) (c : command) : command :=
  set_tags (reftag c) (cdw3 c) (u16 (app_tag r)) 0xffff c.

Definition nvme_set_ref_tag (r : request) (c : command) : command :=
  match h_pi_type ns with
  | PI_TYPE1 | PI_TYPE2 =>
      match h_guard_type ns with
      | GUARD_16B => set_tags (u32 (t10_pi_ref_tag r)) (cdw3 c) (lbat c) (lbatm c) c
      | GUARD_64B =>
          let ref48 := ext_pi_ref_tag r in
          set_tags (u32 ref48) (u32 (Z.shiftr ref48 32)) (lbat c) (lbatm c) c
      | GUARD_OTHER => c
      end
  | _ => c
  end.

Definition nvme_setup_write_zeroes (alloc : bool) (page : list (Z * Z)) (busy : bool) (r : request) (c : command)
    : option built :=
  if deallocate_zeroes then nvme_setup_discard alloc page busy r zero_command
  else
    let fl := if negb (nounmap r) && ns_deac ns then [WZ_DEAC] else [] in
    let fl := if nvme_ns_has_pi ns then fl ++ [RW_PRINFO_PRACT] else fl in
    let c := Command nvme_cmd_write_zeroes (ns_id ns) 0 (u64 (nvme_sect_to_lba (lba_shift ns) (pos r)))
               (u16 (Z.shiftr (bytes r) (lba_shift ns) - 1)) fl false 0 0 0 0 0 0 false in
    let c := if nvme_ns_has_pi ns then nvme_set_ref_tag r c else c in
    Some (Built STS_OK c None [] busy).

Definition nvme_valid_atomic_write (r : request) : bool :=
  if atomic_write_unit_max <? bytes r then false
  else if atomic_write_boundary =? 0 then true
  else
    let imask := u64 (Z.lnot (atomic_write_boundary - 1)) in
    let start := u64 (Z.shiftl (pos r) 9) in
    let end_ := u64 (start + bytes r - 1) in
    if atomic_write_boundary <? bytes r then false
    else Z.land start imask =? Z.land end_ imask.

Definition is_write (o : opcode) : bool := match o with nvme_cmd_write => true | _ => false end.
Definition is_append (o : opcode) : bool := match o with nvme_cmd_zone_append => true | _ => false end.

(** The placement of a write: [None] refuses the stream, else the identifier if one is
    set. *)
Definition stream_of (o : opcode) (r : request) : option (option Z) :=
  if is_write o && negb (nr_plids ns =? 0) then
    if nr_plids ns <? write_stream r then None
    else Some (if write_stream r =? 0 then None else Some (default 0 (plids ns !! Z.to_nat (write_stream r - 1))))
  else Some None.

(** The flags of a namespace with metadata, and the tags in the command. *)
Definition rw_metadata (o : opcode) (r : request) (fl : list rw_flag) (c : command)
    : option (list rw_flag * command) :=
  if ms ns =? 0 then Some (fl, c)
  else if negb (integrity_rq r) && negb (nvme_ns_has_pi ns) then None
  else
    let '(fl, c) := if negb (integrity_rq r) then (fl ++ [RW_PRINFO_PRACT], nvme_set_ref_tag r c) else (fl, c) in
    let fl := if check_guard r then fl ++ [RW_PRCHK_GUARD] else fl in
    let '(fl, c) :=
      if check_reftag r
      then (fl ++ [RW_PRCHK_REF] ++ (if is_append o then [RW_APPEND_PIREMAP] else []), nvme_set_ref_tag r c)
      else (fl, c) in
    let '(fl, c) := if check_apptag r then (fl ++ [RW_PRCHK_APP], nvme_set_app_tag r c) else (fl, c) in
    Some (fl, c).

Definition nvme_setup_rw (o : opcode) (r : request) (c : command) : setup_status * command :=
  let fl := (if req_fua r then [RW_FUA] else []) ++ (if failfast_dev r || rahead r then [RW_LR] else []) in
  match stream_of o r with
  | None => (STS_INVAL, c)
  | Some plid =>
      let fl := match plid with Some _ => fl ++ [RW_DTYPE_DPLCMT] | None => fl end in
      if req_atomic r && negb (nvme_valid_atomic_write r) then (STS_INVAL, c)
      else
        let c' := Command o (ns_id ns) (command_id c) (u64 (nvme_sect_to_lba (lba_shift ns) (pos r)))
                    (u16 (Z.shiftr (bytes r) (lba_shift ns) - 1)) (control c) (prefetch c) (dspec c) 0 0 0 0
                    (dsm_nr c) (dsm_ad c) in
        match rw_metadata o r fl c' with
        | None => (STS_NOTSUPP, c')
        | Some (fl, c') => (STS_OK, set_control fl (rahead r) (default 0 plid) c')
        end
  end.

(** [c] is the command of an earlier use of the request, or the passthrough command. *)
Definition nvme_setup_cmd (alloc : bool) (page : list (Z * Z)) (busy : bool) (r : request) (c : command)
    : option (nvme_request * built) :=
  let d := if negb (dontprep (drv r)) then nvme_clear_nvme_request (drv r) else drv r in
  let plain := λ '(s, c), Some (Built s c None [] busy) in
  let finish := λ b, (d, Built (b_status b) (set_command_id (cid r) (b_cmd b)) (b_payload b) (b_ranges b) (b_busy b)) in
  match op r with
  | REQ_OP_DRV_IN | REQ_OP_DRV_OUT => finish <$> plain (STS_OK, c)
  | REQ_OP_FLUSH => finish <$> plain (STS_OK, nvme_setup_flush c)
  | REQ_OP_ZONE_RESET_ALL | REQ_OP_ZONE_RESET | REQ_OP_ZONE_OPEN | REQ_OP_ZONE_CLOSE | REQ_OP_ZONE_FINISH =>
      finish <$> plain (nvme_setup_zone_mgmt_send r c)
  | REQ_OP_WRITE_ZEROES => finish <$> nvme_setup_write_zeroes alloc page busy r c
  | REQ_OP_DISCARD => finish <$> nvme_setup_discard alloc page busy r c
  | REQ_OP_READ => finish <$> plain (nvme_setup_rw nvme_cmd_read r c)
  | REQ_OP_WRITE => finish <$> plain (nvme_setup_rw nvme_cmd_write r c)
  | REQ_OP_ZONE_APPEND => finish <$> plain (nvme_setup_rw nvme_cmd_zone_append r c)
  | REQ_OP_OTHER => Some (d, Built STS_IOERR c None [] busy)
  end.
End setup.

(** ** A command addresses the bytes of its request *)

(** The request is within what a namespace with blocks of [2 ^ shift] bytes can do. *)
Definition in_blocks (shift : Z) (r : request) : Prop :=
  9 ≤ shift ≤ 31 ∧ 0 ≤ pos r < 2 ^ 55 ∧ (512 * pos r) mod 2 ^ shift = 0 ∧
  bytes r mod 2 ^ shift = 0 ∧ 0 < bytes r ≤ 65536 * 2 ^ shift.
(** [nvme_sect_to_lba]: sectors have 512 bytes. *)
Definition sect_law (to_lba : Z → Z → Z) : Prop := ∀ shift s, 9 ≤ shift → 0 ≤ s → to_lba shift s = Z.shiftr s (shift - 9).

Lemma slba_exact to_lba shift r :
  sect_law to_lba → in_blocks shift r → u64 (to_lba shift (pos r)) * 2 ^ shift = 512 * pos r.
Proof.
  intros Hlaw (Hs & Hp & Hm & _). rewrite Hlaw by lia. rewrite Z.shiftr_div_pow2 by lia.
  assert (2 ^ shift = 512 * 2 ^ (shift - 9)) as E.
  { replace shift with (9 + (shift - 9)) at 1 by lia. rewrite Z.pow_add_r by lia. done. }
  rewrite E in Hm |- *. rewrite Z.mul_mod_distr_l in Hm by lia.
  assert (pos r mod 2 ^ (shift - 9) = 0) as Hm' by lia. apply Z_div_exact_full_2 in Hm'; [|lia].
  rewrite u64_small; [lia|]. split; [apply Z.div_pos; lia|].
  apply Z.le_lt_trans with (pos r); [apply Z.div_le_upper_bound; nia|lia].
Qed.

Lemma nlb_exact shift r :
  in_blocks shift r → (u16 (Z.shiftr (bytes r) shift - 1) + 1) * 2 ^ shift = bytes r.
Proof.
  intros (Hs & _ & _ & Hm & Hb). rewrite Z.shiftr_div_pow2 by lia.
  apply Z_div_exact_full_2 in Hm; [|lia]. set (k := bytes r / 2 ^ shift) in *.
  assert (0 < 2 ^ shift) by lia. rewrite u16_small by nia. lia.
Qed.

Definition rw_opcode (o : req_op) : option opcode :=
  match o with
  | REQ_OP_READ => Some nvme_cmd_read | REQ_OP_WRITE => Some nvme_cmd_write
  | REQ_OP_ZONE_APPEND => Some nvme_cmd_zone_append
  | REQ_OP_WRITE_ZEROES => Some nvme_cmd_write_zeroes
  | _ => None
  end.
(** The command names the request's blocks, namespace and tag. *)
Definition addresses (ns : nvme_ns_head) (r : request) (o : opcode) (c : command) : Prop :=
  opc c = o ∧ nsid c = ns_id ns ∧ command_id c = cid r ∧
  slba c * 2 ^ lba_shift ns = 512 * pos r ∧ (nlb c + 1) * 2 ^ lba_shift ns = bytes r.

Lemma ref_tag_keeps t10 ext ns r c :
  opc (nvme_set_ref_tag t10 ext ns r c) = opc c ∧ nsid (nvme_set_ref_tag t10 ext ns r c) = nsid c ∧
  slba (nvme_set_ref_tag t10 ext ns r c) = slba c ∧ nlb (nvme_set_ref_tag t10 ext ns r c) = nlb c.
Proof. unfold nvme_set_ref_tag. by destruct (h_pi_type ns), (h_guard_type ns). Qed.

Lemma rw_metadata_keeps t10 ext pi ns o r fl c fl' c' :
  rw_metadata t10 ext pi ns o r fl c = Some (fl', c') →
  opc c' = opc c ∧ nsid c' = nsid c ∧ slba c' = slba c ∧ nlb c' = nlb c ∧ (RW_FUA ∈ fl' ↔ RW_FUA ∈ fl).
Proof.
  unfold rw_metadata. destruct (ms ns =? 0); [intros [= <- <-]; done|].
  destruct (negb (integrity_rq r) && negb (pi ns)); [done|].
  destruct (integrity_rq r), (check_guard r), (check_reftag r), (is_append o), (check_apptag r); cbn [negb];
    intros [= <- <-]; unfold nvme_set_app_tag; cbn [opc nsid slba nlb set_tags];
    repeat match goal with |- context [nvme_set_ref_tag ?a ?b ?n ?r ?c] =>
      destruct (ref_tag_keeps a b n r c) as (-> & -> & -> & ->) end;
    (split; [done|split; [done|split; [done|split; [done|]]]]); set_solver.
Qed.

(** When a read or write is refused: an unknown stream, an atomic write that the device
    would tear; metadata without a buffer or protection. *)
Definition refused (boundary unit_max : Z) (ns : nvme_ns_head) (o : opcode) (r : request) : bool :=
  (is_write o && negb (nr_plids ns =? 0) && (nr_plids ns <? write_stream r)) ||
  (req_atomic r && negb (nvme_valid_atomic_write boundary unit_max r)).
Definition no_metadata (pi : nvme_ns_head → bool) (ns : nvme_ns_head) (r : request) : bool :=
  negb (ms ns =? 0) && negb (integrity_rq r) && negb (pi ns).

Lemma stream_of_refused ns o r :
  stream_of ns o r = None ↔ is_write o && negb (nr_plids ns =? 0) && (nr_plids ns <? write_stream r) = true.
Proof.
  unfold stream_of. destruct (is_write o && negb (nr_plids ns =? 0)); [|done]. cbn [andb].
  by destruct (nr_plids ns <? write_stream r).
Qed.

Lemma rw_metadata_none t10 ext pi ns o r fl c :
  rw_metadata t10 ext pi ns o r fl c = None ↔ no_metadata pi ns r = true.
Proof.
  unfold rw_metadata, no_metadata. destruct (ms ns =? 0); [done|]. cbn [negb andb].
  destruct (integrity_rq r), (pi ns); cbn [negb andb]; try done;
    by destruct (check_guard r), (check_reftag r), (check_apptag r).
Qed.

Lemma setup_rw_cases to_lba t10 ext pi boundary unit_max ns o r c :
  sect_law to_lba → in_blocks (lba_shift ns) r →
  let '(s, c') := nvme_setup_rw to_lba t10 ext pi boundary unit_max ns o r c in
  s = (if refused boundary unit_max ns o r then STS_INVAL else if no_metadata pi ns r then STS_NOTSUPP else STS_OK) ∧
  (s = STS_OK → addresses ns r o (set_command_id (cid r) c') ∧ (RW_FUA ∈ control c' ↔ req_fua r = true)).
Proof.
  intros Hlaw Hb. unfold nvme_setup_rw, refused.
  destruct (stream_of ns o r) as [plid|] eqn:Es.
  2:{ apply stream_of_refused in Es. rewrite Es. done. }
  assert (is_write o && negb (nr_plids ns =? 0) && (nr_plids ns <? write_stream r) = false) as ->.
  { apply not_true_is_false. rewrite <- stream_of_refused, Es. done. }
  cbn [orb]. destruct (req_atomic r && _); [done|].
  match goal with |- context [rw_metadata _ _ _ _ _ _ ?fl ?c] => set (fl0 := fl); set (c0 := c) end.
  destruct (rw_metadata t10 ext pi ns o r fl0 c0) as [[fl' c']|] eqn:Em.
  - assert (no_metadata pi ns r = false) as ->
      by (apply not_true_is_false; rewrite <- (rw_metadata_none t10 ext pi ns o r fl0 c0), Em; done).
    split; [done|]. intros _. apply rw_metadata_keeps in Em as (H1 & H2 & H3 & H4 & H5).
    unfold addresses. cbn [opc nsid command_id slba nlb set_command_id set_control control].
    rewrite H1, H2, H3, H4, H5. subst c0 fl0. cbn [opc nsid slba nlb].
    rewrite slba_exact, nlb_exact by done. split; [done|].
    destruct plid, (req_fua r), (failfast_dev r || rahead r); set_solver.
  - apply rw_metadata_none in Em. rewrite Em. done.
Qed.


(** Eight blocks of 4096 bytes. *)
Definition head_ex : nvme_ns_head := Head 1 12 0 PI_NONE GUARD_16B false 0 [].
Definition request_ex : request :=
  Request REQ_OP_WRITE 80 32768 [(80, 32768)] 1 true false false false false 0 false false false false 0 17 rq_ex.


(** An atomic write that is accepted does not cross a boundary, and one that is refused is
    too large or crosses one.  Boundaries are powers of two. *)
Lemma valid_atomic_write_exact k unit_max r :
  0 ≤ k < 32 → 0 ≤ pos r < 2 ^ 54 → 0 < bytes r < 2 ^ 32 →
  nvme_valid_atomic_write (2 ^ k) unit_max r = true ↔
  bytes r ≤ unit_max ∧ (512 * pos r) / 2 ^ k = (512 * pos r + bytes r - 1) / 2 ^ k.
Proof.
  intros Hk Hp Hb. unfold nvme_valid_atomic_write. assert (0 < 2 ^ k < 2 ^ 32) as Hk2.
  { split; [lia|]. apply Z.pow_lt_mono_r; lia. }
  destruct (Z.ltb_spec unit_max (bytes r)); [split; [done|lia]|].
  destruct (Z.eqb_spec (2 ^ k) 0); [lia|]. rewrite Z.shiftl_mul_pow2 by lia. change (2 ^ 9) with 512.
  set (B := 512 * pos r) in *. replace (pos r * 512) with B by lia.
  rewrite (u64_small B), (u64_small (B + bytes r - 1)) by lia.
  assert (∀ x, 0 ≤ x < 2 ^ 64 → Z.land x (u64 (Z.lnot (2 ^ k - 1))) = x / 2 ^ k * 2 ^ k) as Hmask.
  { intros x Hx. unfold u64. rewrite <- Z.land_ones, Z.land_assoc, (Z.land_comm x), <- Z.land_assoc by lia.
    replace (2 ^ k - 1) with (Z.ones k) by (rewrite Z.ones_equiv; lia).
    rewrite (Z.land_ones x), (Z.mod_small x) by lia.
    rewrite Z.land_comm, <- Z.ldiff_land, Z.ldiff_ones_r, Z.shiftr_div_pow2, Z.shiftl_mul_pow2 by lia. done. }
  rewrite !Hmask by lia. destruct (Z.ltb_spec (2 ^ k) (bytes r)) as [Hlt|Hle].
  - split; [done|]. intros [_ E]. exfalso.
    pose proof (Z.div_mod B (2 ^ k)). pose proof (Z.div_mod (B + bytes r - 1) (2 ^ k)).
    pose proof (Z.mod_pos_bound B (2 ^ k)). pose proof (Z.mod_pos_bound (B + bytes r - 1) (2 ^ k)). nia.
  - rewrite Z.eqb_eq. split; [|intros [_ ->]; done]. intros E. split; [lia|]. nia.
Qed.

(** ** Discards *)

Definition range_of (to_lba : Z → Z → Z) (ns : nvme_ns_head) (b : Z * Z) : Z * Z :=
  (to_lba (lba_shift ns) b.1, u32 (Z.shiftr b.2 (lba_shift ns))).

Lemma fill_ranges_exact to_lba ns segments bs : ∀ n ranges,
  0 ≤ n → n + Z.of_nat (length bs) = segments → segments ≤ Z.of_nat (length ranges) → segments < 2 ^ 16 →
  ∃ ranges', fill_ranges to_lba ns segments n bs ranges = Some (segments, ranges') ∧
    length ranges' = length ranges ∧ take (Z.to_nat n) ranges' = take (Z.to_nat n) ranges ∧
    take (length bs) (drop (Z.to_nat n) ranges') = range_of to_lba ns <$> bs.
Proof.
  induction bs as [|[sector size] bs IH]; intros n ranges Hn Hs Hl Hb; cbn [fill_ranges length] in *.
  { exists ranges. split; [f_equal; f_equal; lia|]. done. }
  destruct (Z.ltb_spec n segments); [|lia]. destruct (Nat.ltb_spec (Z.to_nat n) (length ranges)); [|lia].
  rewrite u16_small by lia.
  match goal with |- context [<[_ := ?v]> ranges] => set (x := v) end.
  destruct (IH (n + 1) (<[Z.to_nat n := x]> ranges)) as (ranges' & E & Hlen & Ht & Hd); [lia|lia|rewrite length_insert; lia|lia|].
  exists ranges'. split; [done|]. rewrite length_insert in Hlen. split; [done|].
  replace (Z.to_nat (n + 1)) with (S (Z.to_nat n)) in * by lia.
  assert (ranges' !! Z.to_nat n = Some x) as Hx.
  { assert (take (S (Z.to_nat n)) ranges' !! Z.to_nat n = Some x) as Hx.
    { rewrite Ht, lookup_take_lt by lia. apply list_lookup_insert_eq. lia. }
    by rewrite lookup_take_lt in Hx by lia. }
  split.
  - apply (f_equal (take (Z.to_nat n))) in Ht. rewrite !take_take in Ht.
    replace (Z.to_nat n `min` S (Z.to_nat n))%nat with (Z.to_nat n) in Ht by lia.
    rewrite Ht. apply take_insert_ge. lia.
  - rewrite (drop_S _ x) by done. cbn [take fmap list_fmap]. f_equal. exact Hd.
Qed.

(** A discard lists exactly its ranges: with one bio per segment and at most 256 of them it
    is never written behind the array, and unless both the memory and the spare page of the
    controller are taken, it succeeds with the ranges of its bios, in order. *)
Theorem nvme_discard_exact to_lba maxseg ns alloc page busy r c :
  maxseg ≠ 1 → length page = NVME_DSM_MAX_RANGES →
  nr_discard_segments r = Z.of_nat (length (bios r)) → 0 < nr_discard_segments r ≤ 256 →
  ∃ b, nvme_setup_discard to_lba maxseg ns alloc page busy r c = Some b ∧
    if negb alloc && busy then b_status b = STS_RESOURCE ∧ b_payload b = None ∧ b_busy b = busy
    else b_status b = STS_OK ∧ b_payload b = Some (if alloc then Allocated else DiscardPage) ∧
         b_busy b = busy || negb alloc ∧ opc (b_cmd b) = nvme_cmd_dsm ∧
         dsm_nr (b_cmd b) + 1 = nr_discard_segments r ∧
         take (Z.to_nat (dsm_nr (b_cmd b) + 1)) (b_ranges b) = range_of to_lba ns <$> bios r.
Proof.
  intros Hm Hp Hs Hn. unfold nvme_setup_discard. rewrite u16_small by lia.
  destruct (negb alloc && busy) eqn:Eab; [by eexists|].
  destruct (Z.eqb_spec maxseg 1); [done|].
  destruct (fill_ranges_exact to_lba ns (nr_discard_segments r) (bios r) 0
    (if alloc then replicate NVME_DSM_MAX_RANGES (0, 0) else page)) as (ranges & E & Hl & _ & Hd); [lia|lia| |lia|].
  { destruct alloc; [rewrite length_replicate|rewrite Hp]; unfold NVME_DSM_MAX_RANGES; lia. }
  rewrite E, Z.eqb_refl. cbn [negb]. eexists. split; [reflexivity|].
  cbn [b_status b_payload b_busy b_cmd b_ranges opc dsm_nr]. rewrite u32_small by lia.
  split; [done|]. split; [done|]. split; [destruct alloc, busy; done|]. split; [done|]. split; [lia|].
  replace (nr_discard_segments r - 1 + 1) with (Z.of_nat (length (bios r))) by lia.
  rewrite Nat2Z.id. rewrite drop_0 in Hd. exact Hd.
Qed.

Definition discard_ex : request :=
  Request REQ_OP_DISCARD 80 12288 [(80, 8192); (800, 4096)] 2 false false false false false 0 false false false false 0 17 rq_ex.

Lemma nvme_discard_exact_witness :
  ∃ b, nvme_setup_discard (λ sh s, Z.shiftr s (sh - 9)) 256 head_ex false (replicate 256 (7, 7)) false discard_ex zero_command = Some b ∧
    b_payload b = Some DiscardPage ∧ take 2 (b_ranges b) = [(10, 2); (100, 1)].
Proof.
  destruct (nvme_discard_exact (λ sh s, Z.shiftr s (sh - 9)) 256 head_ex false (replicate 256 (7, 7)) false discard_ex
    zero_command) as (b & E & _ & Hp & _ & _ & _ & Hr); [lia|done|done|cbn; lia|].
  exists b. split; [exact E|]. split; [exact Hp|]. vm_compute in E. injection E as <-. done.
Defined.

(** ** The spare page

    Requests are set up and cleaned up in any order, with or without memory. *)

Record pages := Pages { busy_bit : bool; page : list (Z * Z); held : gmap nat payload }.

Section spare.
Context (to_lba : Z → Z → Z) (t10 ext : request → Z) (zone : request → command → setup_status * command).
Context (pi : nvme_ns_head → bool) (maxseg boundary unit_max : Z) (deallocate : bool).

Definition after_cleanup (i : nat) (d : nvme_request) (s : pages) : pages :=
  Pages (if bool_decide (ReleaseDiscardPage ∈ (nvme_cleanup_cmd d).2) then false else busy_bit s) (page s)
        (partial_alter (λ _, special (nvme_cleanup_cmd d).1) i (held s)).

Inductive page_step : pages → pages → Prop :=
| page_setup i ns alloc r c d b s :
    held s !! i = None →
    nvme_setup_cmd to_lba t10 ext zone pi maxseg boundary unit_max deallocate ns alloc (page s) (busy_bit s) r c = Some (d, b) →
    page_step s (Pages (b_busy b) (match b_payload b with Some DiscardPage => b_ranges b | _ => page s end)
                       (partial_alter (λ _, b_payload b) i (held s)))
| page_cleanup i d s : special d = held s !! i → page_step s (after_cleanup i d s).

Definition page_inv (s : pages) : Prop :=
  (busy_bit s = true ↔ ∃ i, held s !! i = Some DiscardPage) ∧
  ∀ i j, held s !! i = Some DiscardPage → held s !! j = Some DiscardPage → i = j.

(** What a set-up does to the busy bit. *)
Lemma discard_busy ns alloc pg busy r c b :
  nvme_setup_discard to_lba maxseg ns alloc pg busy r c = Some b →
  (b_payload b = Some DiscardPage ∧ busy = false ∧ b_busy b = true) ∨ (b_payload b ≠ Some DiscardPage ∧ b_busy b = busy).
Proof.
  unfold nvme_setup_discard. destruct alloc, busy; cbn [negb andb]; try (intros [= <-]; by right);
    match goal with |- match ?x with _ => _ end = _ → _ => destruct x as [[n rs]|]; [|done] end;
    destruct (negb (n =? _)); intros [= <-]; cbn; [by right|by right|by right|by right|by right|by left].
Qed.

Lemma setup_busy ns alloc pg busy r c d b :
  nvme_setup_cmd to_lba t10 ext zone pi maxseg boundary unit_max deallocate ns alloc pg busy r c = Some (d, b) →
  (b_payload b = Some DiscardPage ∧ busy = false ∧ b_busy b = true) ∨ (b_payload b ≠ Some DiscardPage ∧ b_busy b = busy).
Proof.
  assert (∀ (m : option built) (f : built → nvme_request * built),
    (∀ b0, m = Some b0 → (b_payload b0 = Some DiscardPage ∧ busy = false ∧ b_busy b0 = true) ∨
                          (b_payload b0 ≠ Some DiscardPage ∧ b_busy b0 = busy)) →
    (∀ b0, b_payload (f b0).2 = b_payload b0 ∧ b_busy (f b0).2 = b_busy b0) → f <$> m = Some (d, b) →
    (b_payload b = Some DiscardPage ∧ busy = false ∧ b_busy b = true) ∨ (b_payload b ≠ Some DiscardPage ∧ b_busy b = busy)) as Hf.
  { intros [b0|] f Hm Hb; [|done]. cbn. intros [= E]. destruct (Hb b0) as [H1 H2]. rewrite E in H1, H2. cbn [snd] in *.
    rewrite H1, H2. by apply Hm. }
  unfold nvme_setup_cmd. destruct (op r); try (apply Hf; [|done]; try (destruct (nvme_setup_zone_mgmt_send _ _) || idtac)).
  all: try (intros b0; match goal with |- context [let '(_, _) := ?x in _] => destruct x end; intros [= <-]; by right).
  all: try (intros b0 [= <-]; by right).
  - intros b0. unfold nvme_setup_write_zeroes. destruct deallocate; [apply discard_busy|]. intros [= <-]. by right.
  - intros b0. apply discard_busy.
  - intros [= <- <-]. by right.
Qed.

Lemma alter_same (m : gmap nat payload) i v j :
  v ≠ Some DiscardPage → m !! i ≠ Some DiscardPage →
  partial_alter (λ _, v) i m !! j = Some DiscardPage ↔ m !! j = Some DiscardPage.
Proof.
  intros Hv Hm. destruct (decide (i = j)) as [<-|Hj];
    [by rewrite lookup_partial_alter_eq|by rewrite lookup_partial_alter_ne].
Qed.

Lemma page_inv_alter b p p' m i v :
  v ≠ Some DiscardPage → m !! i ≠ Some DiscardPage →
  page_inv (Pages b p m) → page_inv (Pages b p' (partial_alter (λ _, v) i m)).
Proof.
  intros Hv Hm [H1 H2]. assert (∀ j, partial_alter (λ _, v) i m !! j = Some DiscardPage ↔ m !! j = Some DiscardPage) as Hsame.
  { intros j. by apply alter_same. }
  unfold page_inv in *. cbn [busy_bit held] in *. setoid_rewrite Hsame. done.
Qed.

Lemma page_step_inv s s' : page_step s s' → page_inv s → page_inv s'.
Proof.
  intros Hs HI. pose proof HI as [H1 H2]. destruct Hs as [i ns alloc r c d b s Hi Hb|i d s Hd].
  - apply setup_busy in Hb as [(Hp & Hf & ->)|[Hp ->]].
    + unfold page_inv; cbn [busy_bit held]. assert (∀ j, held s !! j ≠ Some DiscardPage) as Hno by (intros j Hj; rewrite Hf in H1; naive_solver).
      rewrite Hp. split; [split; [|done]; intros _; exists i; by rewrite lookup_partial_alter_eq|].
      intros j k. destruct (decide (i = j)) as [<-|Hj], (decide (i = k)) as [<-|Hk];
        rewrite ?lookup_partial_alter_eq, ?lookup_partial_alter_ne by done; try done; intros Hx Hy; exfalso; solve [by apply Hno in Hx | by apply Hno in Hy].
    + apply (page_inv_alter _ (page s)); [done|by rewrite Hi|by destruct s].
  - unfold after_cleanup, nvme_cleanup_cmd. rewrite Hd.
    destruct (held s !! i) as [[]|] eqn:Ei; cbn [fst snd].
    + rewrite bool_decide_eq_false_2 by set_solver. cbn [special drop_special].
      apply (page_inv_alter _ (page s)); [done|by rewrite Ei|by destruct s].
    + rewrite bool_decide_eq_true_2 by set_solver. unfold page_inv. cbn [special drop_special busy_bit held].
      assert (∀ j, partial_alter (λ _ : option payload, None) i (held s) !! j ≠ Some DiscardPage) as Hno.
      { intros j. destruct (decide (i = j)) as [<-|Hj]; [by rewrite lookup_partial_alter_eq|].
        rewrite lookup_partial_alter_ne by done. intros Hj'. by apply Hj, H2. }
      split; [split; [done|intros [j Hj]; by apply Hno in Hj]|intros j k Hj; by apply Hno in Hj].
    + rewrite bool_decide_eq_false_2 by set_solver. rewrite Hd.
      apply (page_inv_alter _ (page s)); [done|by rewrite Ei|by destruct s].
Qed.
End spare.

(** The spare page of a controller is held by at most one request at a time, whatever the
    order of set-ups and clean-ups: its bit is set exactly while a request holds it, so
    the page is neither lost nor given to a second request. *)
Theorem discard_page_exclusive to_lba t10 ext zone pi maxseg boundary unit_max deallocate pg s :
  rtc (page_step to_lba t10 ext zone pi maxseg boundary unit_max deallocate) (Pages false pg ∅) s →
  (busy_bit s = true ↔ ∃ i, held s !! i = Some DiscardPage) ∧
  ∀ i j, held s !! i = Some DiscardPage → held s !! j = Some DiscardPage → i = j.
Proof.
  intros Hs. change (page_inv s). assert (page_inv (Pages false pg ∅)) as H0.
  { split; cbn [busy_bit held]; [split; [done|]; intros [i Hi]; by rewrite lookup_empty in Hi|].
    intros i j Hi. by rewrite lookup_empty in Hi. }
  remember (Pages false pg ∅) as s0 eqn:E. clear E. induction Hs; [done|]. eauto using page_step_inv.
Qed.

Lemma discard_page_exclusive_witness :
  ∃ s, rtc (page_step (λ sh s, Z.shiftr s (sh - 9)) (λ _, 0) (λ _, 0) (λ _ c, (STS_OK, c)) (λ _, false) 256 0 0 false)
         (Pages false (replicate 256 (0, 0)) ∅) s ∧
    busy_bit s = true ∧ ∀ i, held s !! i = Some DiscardPage → i = 3%nat.
Proof.
  set (S := page_step (λ sh s, Z.shiftr s (sh - 9)) (λ _, 0) (λ _, 0) (λ _ c, (STS_OK, c)) (λ _, false) 256 0 0 false).
  assert (∃ s, rtc S (Pages false (replicate 256 (0, 0)) ∅) s ∧ busy_bit s = true ∧ held s !! 3%nat = Some DiscardPage)
    as (s & Hs & Hb & Hh).
  { eexists. split; [eapply rtc_l; [|apply rtc_refl]|].
    - eapply (page_setup _ _ _ _ _ _ _ _ _ 3%nat head_ex false discard_ex zero_command);
        [done|vm_compute; reflexivity].
    - by cbn. }
  exists s. split; [exact Hs|]. split; [done|]. intros i Hi.
  by apply (proj2 (discard_page_exclusive _ _ _ _ _ _ _ _ _ _ s Hs) i 3%nat).
Defined.
