(* ===== verification/NvmeScan.v ===== *)
(** * NVMe core: namespaces of a controller (drivers/nvme/host/core.c)

    The ordered list of namespaces, the scan that brings it in line with the controller (by
    the list of active namespaces with its asynchronous jobs, or number by number), and the
    identification of a namespace with its list of descriptors.  Shown: the list stays
    ordered, and whatever the order in which the jobs of a scan run, exactly the active
    namespaces remain. *)

From Stdlib Require Import ZArith Lia Bool Sorting.Sorted.
From stdpp Require Import base numbers list option sorting.
From S2P Require Import Prelude.

Local Open Scope list_scope.
Local Open Scope Z_scope.

Definition UINT_MAX : Z := 2 ^ 32 - 1.

(** ** Identification *)

Record nvme_ns_ids := Ids { eui64 : list Z; nguid : list Z; uuid : list Z; csi : Z }.
#[export] Instance nvme_ns_ids_eq_dec : EqDecision nvme_ns_ids.
Proof. solve_decision. Defined.

Definition nvme_ns_ids_equal (a b : nvme_ns_ids) : bool :=
  bool_decide (uuid a = uuid b) && bool_decide (nguid a = nguid b) && bool_decide (eui64 a = eui64 b) &&
  (csi a =? csi b).

Inductive fault := ReadBehindPage | NoFuel.

(** Layout and codes of a descriptor, from a header: size, the places of type and length in
    it, the types with their lengths. *)
Record desc_layout := Layout {
  sizeof_desc : Z; off_nidt : Z; off_nidl : Z;
  NIDT_EUI64 : Z; NIDT_NGUID : Z; NIDT_UUID : Z; NIDT_CSI : Z;
  EUI64_LEN : Z; NGUID_LEN : Z; UUID_LEN : Z; CSI_LEN : Z
}.

Section descs.
Context (L : desc_layout) (page_size : Z) (bogus_nid : bool).

(** [n] bytes of the page at [a]. *)
Definition read_page (data : list Z) (a n : Z) : result fault (list Z) :=
  if (a + n <=? Z.of_nat (length data)) then Ok (take (Z.to_nat n) (drop (Z.to_nat a) data)) else Err ReadBehindPage.
Definition read_byte (data : list Z) (a : Z) : result fault Z :=
  match data !! Z.to_nat a with Some b => Ok b | None => Err ReadBehindPage end.

Definition set_eui64 (v : list Z) (i : nvme_ns_ids) : nvme_ns_ids := Ids v (nguid i) (uuid i) (csi i).
Definition set_nguid (v : list Z) (i : nvme_ns_ids) : nvme_ns_ids := Ids (eui64 i) v (uuid i) (csi i).
Definition set_uuid (v : list Z) (i : nvme_ns_ids) : nvme_ns_ids := Ids (eui64 i) (nguid i) v (csi i).
Definition set_csi (v : Z) (i : nvme_ns_ids) : nvme_ns_ids := Ids (eui64 i) (nguid i) (uuid i) v.

(** The length to skip (negative to stop), the identifiers and whether the command set
    was seen. *)
Definition nvme_process_ns_desc (data : list Z) (pos : Z) (ids : nvme_ns_ids) (csi_seen : bool)
    : result fault (Z * nvme_ns_ids * bool) :=
  let store := λ len set nidl,
    if negb (nidl =? len) then Ok (-1, ids, csi_seen)
    else if bogus_nid then Ok (len, ids, csi_seen)
    else match read_page data (pos + sizeof_desc L) len with
         | Ok v => Ok (len, set v ids, csi_seen)
         | Err e => Err e
         end in
  match read_byte data (pos + off_nidt L), read_byte data (pos + off_nidl L) with
  | Ok nidt, Ok nidl =>
      if nidt =? NIDT_EUI64 L then store (EUI64_LEN L) set_eui64 nidl
      else if nidt =? NIDT_NGUID L then store (NGUID_LEN L) set_nguid nidl
      else if nidt =? NIDT_UUID L then store (UUID_LEN L) set_uuid nidl
      else if nidt =? NIDT_CSI L then
        if negb (nidl =? CSI_LEN L) then Ok (-1, ids, csi_seen)
        else match read_byte data (pos + sizeof_desc L) with
             | Ok v => Ok (CSI_LEN L, set_csi v ids, true)
             | Err e => Err e
             end
      else Ok (nidl, ids, csi_seen)
  | Err e, _ | _, Err e => Err e
  end.

Fixpoint desc_loop (fuel : nat) (data : list Z) (pos : Z) (ids : nvme_ns_ids) (csi_seen : bool)
    : result fault (nvme_ns_ids * bool) :=
  match fuel with
  | O => Err NoFuel
  | S fuel' =>
      if negb (pos <? page_size) then Ok (ids, csi_seen)
      else
        match read_byte data (pos + off_nidl L) with
        | Err e => Err e
        | Ok nidl =>
            if nidl =? 0 then Ok (ids, csi_seen)
            else
              match nvme_process_ns_desc data pos ids csi_seen with
              | Err e => Err e
              | Ok (len, ids, csi_seen) =>
                  if len <? 0 then Ok (ids, csi_seen)
                  else desc_loop fuel' data (pos + (len + sizeof_desc L)) ids csi_seen
              end
        end
  end.

(** [alloc]: there is memory for the page; [status], [data]: what the command returns. *)
Definition nvme_identify_ns_descs (vs_1_3 multi_css no_desc_list alloc : bool) (status : Z) (data : list Z)
    (ids : nvme_ns_ids) : result fault (Z * nvme_ns_ids) :=
  if negb vs_1_3 && negb multi_css then Ok (0, ids)
  else if no_desc_list then Ok (0, ids)
  else if negb alloc then Ok (- ENOMEM, ids)
  else if negb (status =? 0) then Ok (status, ids)
  else
    match desc_loop (S (Z.to_nat page_size)) data 0 ids false with
    | Err e => Err e
    | Ok (ids, csi_seen) => Ok (if multi_css && negb csi_seen then - EINVAL else 0, ids)
    end.
End descs.

(** What the controller tells of a namespace; a status of zero is success, a positive one
    comes from the controller, a negative one from the kernel. *)
Record ns_answers := Answers {
  a_descs : Z * nvme_ns_ids;             (** [nvme_identify_ns_descs] *)
  a_indep : Z * bool;                    (** command-set independent: status, ready *)
  a_ident : Z * Z * list Z * list Z;     (** legacy: status, capacity, eui64, nguid *)
  a_update : Z;                          (** [nvme_update_ns_info] of a known namespace *)
  a_alloc : nvme_ns_ids → option nvme_ns_ids  (** [nvme_alloc_ns]: the identifiers it keeps, if it succeeds *)
}.

(** ** The list *)

Record nvme_ns := Ns { ns_id : Z; ns_ids : nvme_ns_ids }.

(** [nvme_get_ns] succeeds for what is on the list. *)
Fixpoint nvme_find_get_ns (l : list nvme_ns) (nsid : Z) : option nvme_ns :=
  match l with
  | [] => None
  | n :: l' => if ns_id n =? nsid then Some n else if nsid <? ns_id n then None else nvme_find_get_ns l' nsid
  end.

(** The list from its end. *)
Fixpoint add_reverse (l : list nvme_ns) (n : nvme_ns) : list nvme_ns :=
  match l with
  | [] => [n]
  | m :: l' => if ns_id m <? ns_id n then n :: m :: l' else m :: add_reverse l' n
  end.
Definition nvme_ns_add_to_ctrl_list (n : nvme_ns) (l : list nvme_ns) : list nvme_ns :=
  reverse (add_reverse (reverse l) n).

(** [list_del] of a namespace. *)
Definition nvme_ns_remove (nsid : Z) (l : list nvme_ns) : list nvme_ns := List.filter (λ n, negb (ns_id n =? nsid)) l.
Definition nvme_ns_remove_by_nsid (nsid : Z) (l : list nvme_ns) : list nvme_ns :=
  match nvme_find_get_ns l nsid with Some n => nvme_ns_remove (ns_id n) l | None => l end.

Fixpoint nvme_remove_nsid_range (start end_ : Z) (l : list nvme_ns) : list nvme_ns :=
  match l with
  | [] => []
  | n :: l' =>
      if end_ <=? ns_id n then n :: l'
      else if start <? ns_id n then nvme_remove_nsid_range start end_ l'
      else n :: nvme_remove_nsid_range start end_ l'
  end.

Section scan.
(** The bit NVME_STATUS_DNR, the command sets, the features of the controller. *)
Context (NVME_STATUS_DNR NVME_CSI_NVM NVME_CSI_ZNS : Z).
Context (multi_css crims vs_1_1 vs_1_2 vs_2_0 bogus_nid : bool).
Context (ans : Z → ns_answers).

Definition fatal (ret : Z) : bool := (0 <? ret) && negb (Z.land ret NVME_STATUS_DNR =? 0).

Definition all_zero (v : list Z) : bool := forallb (λ b, b =? 0) v.
(** Status, whether the namespace is gone, whether it is ready, its identifiers. *)
Definition nvme_ns_info_from_identify (a : ns_answers) (ids : nvme_ns_ids) : Z * bool * bool * nvme_ns_ids :=
  let '(ret, ncap, eui, ngu) := a_ident a in
  if negb (ret =? 0) then (ret, false, false, ids)
  else if ncap =? 0 then (- ENODEV, true, false, ids)
  else if bogus_nid then (0, false, true, ids)
  else
    let ids := if vs_1_1 && all_zero (eui64 ids) then set_eui64 eui ids else ids in
    let ids := if vs_1_2 && all_zero (nguid ids) then set_nguid ngu ids else ids in
    (0, false, true, ids).

Definition nvme_validate_ns (a : ns_answers) (ids : nvme_ns_ids) (n : nvme_ns) (l : list nvme_ns) : list nvme_ns :=
  if negb (nvme_ns_ids_equal (ns_ids n) ids) then nvme_ns_remove (ns_id n) l
  else if fatal (a_update a) then nvme_ns_remove (ns_id n) l else l.

(** What the scan of a namespace finds: nothing to do; gone, or ready with these
    identifiers, or both in turn. *)
Definition ns_info (a : ns_answers) : option (bool * option nvme_ns_ids) :=
  let '(st, ids) := a_descs a in
  if negb (st =? 0) then None
  else if negb (csi ids =? NVME_CSI_NVM) && negb multi_css then None
  else
    let indep := crims || (negb (csi ids =? NVME_CSI_NVM) && negb (csi ids =? NVME_CSI_ZNS)) || vs_2_0 in
    let '(ret, ready) := if indep then a_indep a else (1, false) in
    let '(ret, removed, ready', ids) :=
      if 0 <? ret then nvme_ns_info_from_identify a ids else (ret, false, ready, ids) in
    Some (removed, if (ret =? 0) && ready' then Some ids else None).

Definition nvme_scan_ns (nsid : Z) (l : list nvme_ns) : list nvme_ns :=
  match ns_info (ans nsid) with
  | None => l
  | Some (removed, info) =>
      let l := if removed : bool then nvme_ns_remove_by_nsid nsid l else l in
      match info with
      | None => l
      | Some ids =>
          match nvme_find_get_ns l nsid with
          | Some n => nvme_validate_ns (ans nsid) ids n l
          | None => match a_alloc (ans nsid) ids with
                    | Some kept => nvme_ns_add_to_ctrl_list (Ns nsid kept) l
                    | None => l
                    end
          end
      end
  end.

(** ** The scan by the list of active namespaces *)

(** What runs concurrently: the jobs, and the removal of ranges. *)
Inductive op := Scan (nsid : Z) | RemoveRange (start end_ : Z).
Definition exec (l : list nvme_ns) (o : op) : list nvme_ns :=
  match o with Scan n => nvme_scan_ns n l | RemoveRange s e => nvme_remove_nsid_range s e l end.

(** The entries of a page: what is started, the last number, whether the list has ended. *)
Fixpoint page_loop (entries : list Z) (prev : Z) : list op * Z * bool :=
  match entries with
  | [] => ([], prev, false)
  | nsid :: es =>
      if nsid =? 0 then ([], prev, true)
      else
        let '(ops, last, ended) := page_loop es (Z.max (u32 (prev + 1)) nsid) in
        (Scan nsid :: (if u32 (prev + 1) <? nsid then [RemoveRange prev nsid] else []) ++ ops, last, ended)
  end.

(** [page prev]: what the controller returns; [sched]: the order in which the operations of
    a page take effect. *)
Fixpoint list_loop (page : Z → result Z (list Z)) (sched : list op → list op) (fuel : nat) (prev : Z)
    (l : list nvme_ns) : option (Z * list nvme_ns) :=
  match fuel with
  | O => None
  | S fuel' =>
      match page prev with
      | Err e => Some (e, l)
      | Ok entries =>
          let '(ops, last, ended) := page_loop entries prev in
          if ended then Some (0, fold_left exec (sched (ops ++ [RemoveRange last UINT_MAX])) l)
          else list_loop page sched fuel' last (fold_left exec (sched ops) l)
      end
  end.
Definition nvme_scan_ns_list (alloc : bool) (page : Z → result Z (list Z)) (sched : list op → list op) (fuel : nat)
    (l : list nvme_ns) : option (Z * list nvme_ns) :=
  if negb alloc then Some (- ENOMEM, l) else list_loop page sched fuel 0 l.

(** ** The scan number by number *)

(** [i] is a u32. *)
Fixpoint seq_loop (fuel : nat) (i nn : Z) (l : list nvme_ns) : option (list nvme_ns) :=
  match fuel with
  | O => None
  | S fuel' => if i <=? nn then seq_loop fuel' (u32 (i + 1)) nn (nvme_scan_ns i l) else Some l
  end.
(** [nn]: the answer of [nvme_identify_ctrl]. *)
Definition nvme_scan_ns_sequential (nn : option Z) (fuel : nat) (l : list nvme_ns) : option (list nvme_ns) :=
  match nn with
  | None => Some l
  | Some nn => nvme_remove_nsid_range nn UINT_MAX <$> seq_loop fuel 1 nn l
  end.

(** [nvme_id_cns_ok]. *)
Definition nvme_id_cns_ok (quirk_identify_cns : bool) (cns : Z) : bool :=
  if vs_1_2 then true else if vs_1_1 && negb quirk_identify_cns then cns <=? 3 else cns <=? 1.

(** The part of [nvme_scan_work] under the lock. *)
Definition scan_locked (list_ok alloc : bool) (page : Z → result Z (list Z)) (sched : list op → list op) (nn : option Z)
    (fuel : nat) (l : list nvme_ns) : option (list nvme_ns) :=
  if negb list_ok then nvme_scan_ns_sequential nn fuel l
  else
    match nvme_scan_ns_list alloc page sched fuel l with
    | None => None
    | Some (ret, l) => if fatal ret then nvme_scan_ns_sequential nn fuel l else Some l
    end.
End scan.

(** The list is emptied first; the namespaces removed then. *)
Definition nvme_remove_namespaces (l : list nvme_ns) : list nvme_ns * list Z := ([], ns_id <$> l).

(** ** The list stays ordered *)

Definition ordered (l : list nvme_ns) : Prop := StronglySorted Z.lt (ns_id <$> l).

Lemma ordered_cons n l : ordered (n :: l) ↔ ordered l ∧ Forall (λ m, ns_id n < ns_id m) l.
Proof.
  unfold ordered. cbn [fmap list_fmap]. split.
  - intros H. inversion H as [|? ? H1 H2]; subst. split; [done|].
    rewrite list.Forall_fmap in H2. exact H2.
  - intros [H1 H2]. constructor; [done|]. rewrite list.Forall_fmap. exact H2.
Qed.

Lemma find_small l i : Forall (λ m, i < ns_id m) l → nvme_find_get_ns l i = None.
Proof.
  destruct l as [|m l]; [done|]. rewrite List.Forall_cons_iff. intros [H _]. cbn [nvme_find_get_ns].
  destruct (Z.eqb_spec (ns_id m) i); [lia|]. destruct (Z.ltb_spec i (ns_id m)); [done|lia].
Qed.

Lemma find_cons m l i : ordered (m :: l) →
  nvme_find_get_ns (m :: l) i = if ns_id m =? i then Some m else nvme_find_get_ns l i.
Proof.
  rewrite ordered_cons. intros [_ H]. cbn [nvme_find_get_ns]. destruct (Z.eqb_spec (ns_id m) i); [done|].
  destruct (Z.ltb_spec i (ns_id m)); [|done]. symmetry. apply find_small.
  eapply list.Forall_impl; [exact H|]. intros. simpl in *. lia.
Qed.

Lemma find_id l i n : nvme_find_get_ns l i = Some n → ns_id n = i.
Proof.
  induction l as [|m l IH]; [done|]. cbn [nvme_find_get_ns].
  destruct (Z.eqb_spec (ns_id m) i); [intros [= <-]; done|]. by destruct (i <? ns_id m).
Qed.

Lemma filter_ordered P l : ordered l → ordered (List.filter P l).
Proof.
  induction l as [|m l IH]; [done|]. rewrite ordered_cons. intros [H1 H2]. cbn [List.filter].
  destruct (P m); [|auto]. apply ordered_cons. split; [auto|].
  apply list.Forall_forall. intros x Hx. apply list_elem_of_In, filter_In in Hx as [Hx _].
  rewrite list.Forall_forall in H2. by apply H2, list_elem_of_In.
Qed.

Lemma find_filter P l i : ordered l →
  nvme_find_get_ns (List.filter P l) i =
  match nvme_find_get_ns l i with Some n => if P n then Some n else None | None => None end.
Proof.
  induction l as [|m l IH]; intros Ho; [done|]. rewrite find_cons by done. pose proof Ho as [Ho1 Hm]%ordered_cons.
  cbn [List.filter]. specialize (IH Ho1).
  assert (nvme_find_get_ns l (ns_id m) = None) as Hn by (by apply find_small).
  destruct (P m) eqn:EP.
  - rewrite find_cons by (change (m :: List.filter P l) with (if true then m :: List.filter P l else List.filter P l);
      rewrite <- EP; apply (filter_ordered P (m :: l) Ho)).
    destruct (Z.eqb_spec (ns_id m) i) as [<-|]; [by rewrite EP|done].
  - destruct (Z.eqb_spec (ns_id m) i) as [<-|]; [|done]. by rewrite IH, Hn, EP.
Qed.

Lemma remove_range_filter start end_ l : ordered l →
  nvme_remove_nsid_range start end_ l = List.filter (λ n, negb ((start <? ns_id n) && (ns_id n <? end_))) l.
Proof.
  induction l as [|m l IH]; intros Ho; [done|]. pose proof Ho as [Ho1 Hm]%ordered_cons.
  cbn [nvme_remove_nsid_range List.filter]. destruct (Z.leb_spec end_ (ns_id m)) as [He|He].
  - destruct (Z.ltb_spec (ns_id m) end_); [lia|]. rewrite andb_false_r. cbn [negb]. f_equal. symmetry.
    clear IH Ho Ho1. induction l as [|x l IH]; [done|]. apply List.Forall_cons_iff in Hm as [Hx Hm].
    cbn [List.filter]. destruct (Z.ltb_spec (ns_id x) end_); [lia|]. rewrite andb_false_r. cbn [negb]. f_equal. auto.
  - destruct (Z.ltb_spec (ns_id m) end_); [|lia]. rewrite andb_true_r, IH by done.
    by destruct (start <? ns_id m).
Qed.

(** Where a namespace goes, seen from the front. *)
Fixpoint ins (n : nvme_ns) (l : list nvme_ns) : list nvme_ns :=
  match l with
  | [] => [n]
  | m :: l' => if ns_id m <? ns_id n then m :: ins n l' else n :: m :: l'
  end.

Lemma ordered_snoc l m : ordered (l ++ [m]) ↔ ordered l ∧ Forall (λ x, ns_id x < ns_id m) l.
Proof.
  induction l as [|x l IH]; cbn [app].
  { split; [intros _; split; constructor|]. intros _. apply ordered_cons. split; constructor. }
  rewrite !ordered_cons, IH, List.Forall_app, !List.Forall_cons_iff. naive_solver.
Qed.

Lemma ins_snoc n l m : ordered (l ++ [m]) →
  ins n (l ++ [m]) = if ns_id m <? ns_id n then l ++ [m; n] else ins n l ++ [m].
Proof.
  induction l as [|x l IH]; intros Ho; cbn [app ins].
  { by destruct (ns_id m <? ns_id n). }
  cbn [app] in Ho. pose proof Ho as [Ho1 Hx]%ordered_cons. apply List.Forall_app in Hx as [_ Hx].
  apply List.Forall_cons_iff in Hx as [Hx _]. rewrite IH by done.
  destruct (Z.ltb_spec (ns_id m) (ns_id n)), (Z.ltb_spec (ns_id x) (ns_id n)); done || lia.
Qed.

Lemma add_ins n l : ordered l → nvme_ns_add_to_ctrl_list n l = ins n l.
Proof.
  unfold nvme_ns_add_to_ctrl_list. induction l as [|m l IH] using rev_ind; intros Ho; [done|].
  rewrite ins_snoc by done. apply ordered_snoc in Ho as [Ho _]. rewrite reverse_app. cbn [reverse app add_reverse].
  change (reverse [m] ++ reverse l) with (m :: reverse l). cbn [add_reverse].
  destruct (ns_id m <? ns_id n).
  - rewrite !reverse_cons, reverse_involutive, <- app_assoc. done.
  - rewrite reverse_cons, IH by done. done.
Qed.

Lemma find_ins n l i : ordered l → nvme_find_get_ns l (ns_id n) = None →
  ordered (ins n l) ∧ nvme_find_get_ns (ins n l) i = (if ns_id n =? i then Some n else nvme_find_get_ns l i).
Proof.
  revert i. induction l as [|m l IH]; intros i Ho Hn; cbn [ins].
  { split; [apply ordered_cons; split; constructor|]. cbn [nvme_find_get_ns].
    destruct (ns_id n =? i); [done|]. by destruct (i <? ns_id n). }
  rewrite find_cons in Hn by done. destruct (Z.eqb_spec (ns_id m) (ns_id n)); [done|].
  pose proof Ho as [Ho1 Hm]%ordered_cons. destruct (Z.ltb_spec (ns_id m) (ns_id n)) as [Hlt|Hge].
  - assert (ordered (m :: ins n l)) as Hoi.
    { apply ordered_cons. split; [by apply (IH 0)|]. clear IH Hn Ho. induction l as [|x l IH]; cbn [ins].
      - repeat constructor. done.
      - apply List.Forall_cons_iff in Hm as [Hx Hm]. apply ordered_cons in Ho1 as [Ho1 _].
        destruct (ns_id x <? ns_id n); repeat constructor; auto. }
    split; [done|]. rewrite !find_cons by done. destruct (IH i Ho1 Hn) as [_ ->].
    destruct (Z.eqb_spec (ns_id m) i), (Z.eqb_spec (ns_id n) i); done || congruence.
  - assert (ordered (n :: m :: l)) as Hoi.
    { apply ordered_cons. split; [done|]. constructor; [lia|]. eapply list.Forall_impl; [exact Hm|]. intros; simpl in *; lia. }
    split; [done|]. by rewrite find_cons.
Qed.

(** ** What an operation does to a number *)

Definition get (l : list nvme_ns) (i : Z) : option nvme_ns_ids := ns_ids <$> nvme_find_get_ns l i.

Lemma remove_get nsid l : ordered l →
  ordered (nvme_ns_remove nsid l) ∧ ∀ i, get (nvme_ns_remove nsid l) i = if i =? nsid then None else get l i.
Proof.
  intros Ho. unfold nvme_ns_remove. split; [by apply filter_ordered|]. intros i. unfold get. rewrite find_filter by done.
  destruct (nvme_find_get_ns l i) as [n|] eqn:E; [|by destruct (i =? nsid)].
  apply find_id in E. rewrite E. by destruct (i =? nsid).
Qed.

Lemma range_get start end_ l : ordered l →
  ordered (nvme_remove_nsid_range start end_ l) ∧
  ∀ i, get (nvme_remove_nsid_range start end_ l) i = if (start <? i) && (i <? end_) then None else get l i.
Proof.
  intros Ho. rewrite remove_range_filter by done. split; [by apply filter_ordered|]. intros i. unfold get.
  rewrite find_filter by done. destruct (nvme_find_get_ns l i) as [n|] eqn:E; [|by destruct (_ && _)].
  apply find_id in E. rewrite E. by destruct ((start <? i) && (i <? end_)).
Qed.

Lemma add_get n l : ordered l → get l (ns_id n) = None →
  ordered (nvme_ns_add_to_ctrl_list n l) ∧
  ∀ i, get (nvme_ns_add_to_ctrl_list n l) i = if i =? ns_id n then Some (ns_ids n) else get l i.
Proof.
  intros Ho Hn. unfold get in *. rewrite add_ins by done. apply fmap_None in Hn.
  split; [by apply (find_ins n l 0)|]. intros i. destruct (find_ins n l i Ho Hn) as [_ ->].
  rewrite (Z.eqb_sym i). by destruct (ns_id n =? i).
Qed.

Section pointwise.
Context (dnr nvm zns : Z) (multi_css crims vs_1_1 vs_1_2 vs_2_0 bogus_nid : bool) (ans : Z → ns_answers).
Abbreviation info := (ns_info nvm zns multi_css crims vs_1_1 vs_1_2 vs_2_0 bogus_nid).
Abbreviation scan := (nvme_scan_ns dnr nvm zns multi_css crims vs_1_1 vs_1_2 vs_2_0 bogus_nid ans).
Abbreviation run := (fold_left (exec dnr nvm zns multi_css crims vs_1_1 vs_1_2 vs_2_0 bogus_nid ans)).

(** What becomes of a namespace that is scanned: from what is on the list to what is on
    the list. *)
Definition scan_one (a : ns_answers) (v : option nvme_ns_ids) : option nvme_ns_ids :=
  match info a with
  | None => v
  | Some (removed, found) =>
      let v := if removed : bool then None else v in
      match found, v with
      | None, _ => v
      | Some ids, Some old => if nvme_ns_ids_equal old ids && negb (fatal dnr (a_update a)) then v else None
      | Some ids, None => a_alloc a ids
      end
  end.

Lemma scan_get nsid l : ordered l →
  ordered (scan nsid l) ∧ ∀ i, get (scan nsid l) i = if i =? nsid then scan_one (ans nsid) (get l nsid) else get l i.
Proof.
  intros Ho. unfold nvme_scan_ns, scan_one.
  destruct (info (ans nsid)) as [[removed found]|]; [|split; [done|intros i; by destruct (Z.eqb_spec i nsid) as [->|]]].
  assert (∃ l', (if removed then nvme_ns_remove_by_nsid nsid l else l) = l' ∧ ordered l' ∧
    ∀ i, get l' i = if i =? nsid then (if removed then None else get l nsid) else get l i) as (l' & -> & Ho' & Hg').
  { destruct removed; [|exists l; split; [done|split; [done|]]; intros i; by destruct (Z.eqb_spec i nsid) as [->|]].
    unfold nvme_ns_remove_by_nsid. destruct (nvme_find_get_ns l nsid) as [n|] eqn:E.
    - rewrite (find_id _ _ _ E). destruct (remove_get nsid l Ho) as [H1 H2]. by eexists.
    - exists l. split; [done|]. split; [done|]. intros i. destruct (Z.eqb_spec i nsid) as [->|]; [|done].
      unfold get. by rewrite E. }
  pose proof (Hg' nsid) as Hn. rewrite Z.eqb_refl in Hn.
  destruct found as [ids|]; [|by split].
  rewrite <- Hn. unfold get at 2. destruct (nvme_find_get_ns l' nsid) as [n|] eqn:E; cbn [fmap option_fmap option_map].
  - pose proof (find_id _ _ _ E) as Hid. unfold nvme_validate_ns. rewrite Hid.
    assert (get l' nsid = Some (ns_ids n)) as Hgn by (unfold get; by rewrite E).
    destruct (remove_get nsid l' Ho') as [Hr1 Hr2].
    destruct (nvme_ns_ids_equal (ns_ids n) ids); cbn [negb andb]; [destruct (fatal dnr _); cbn [negb]|];
      (split; [done|]); intros i; rewrite ?Hr2, Hg'; destruct (Z.eqb_spec i nsid) as [->|]; congruence.
  - assert (get l' nsid = None) as Hgn by (unfold get; by rewrite E).
    destruct (a_alloc (ans nsid) ids) as [kept|].
    + destruct (add_get (Ns nsid kept) l' Ho' Hgn) as [H1 H2]. split; [done|]. intros i. rewrite H2. cbn [ns_id ns_ids].
      rewrite Hg'. by destruct (i =? nsid).
    + split; [done|]. intros i. rewrite Hg'. destruct (Z.eqb_spec i nsid) as [->|]; congruence.
Qed.

Definition op_at (i : Z) (v : option nvme_ns_ids) (o : op) : option nvme_ns_ids :=
  match o with
  | Scan n => if i =? n then scan_one (ans n) v else v
  | RemoveRange s e => if (s <? i) && (i <? e) then None else v
  end.

Lemma run_get ops : ∀ l, ordered l →
  ordered (run ops l) ∧ ∀ i, get (run ops l) i = fold_left (op_at i) ops (get l i).
Proof.
  induction ops as [|o ops IH]; intros l Ho; cbn [fold_left]; [done|].
  assert (ordered (exec dnr nvm zns multi_css crims vs_1_1 vs_1_2 vs_2_0 bogus_nid ans l o) ∧
    ∀ i, get (exec dnr nvm zns multi_css crims vs_1_1 vs_1_2 vs_2_0 bogus_nid ans l o) i = op_at i (get l i) o) as [H1 H2].
  { destruct o as [n|s e]; cbn [exec op_at].
    - destruct (scan_get n l Ho) as [H1 H2]. split; [done|]. intros i. rewrite H2.
      by destruct (Z.eqb_spec i n) as [->|].
    - apply (range_get s e l Ho). }
  destruct (IH _ H1) as [H3 H4]. split; [done|]. intros i. by rewrite H4, H2.
Qed.

(** ** The order of the operations of a page does not matter *)

(** No namespace is scanned that a range of the same page removes. *)
Definition compatible (ops : list op) : Prop :=
  ∀ n s e, Scan n ∈ ops → RemoveRange s e ∈ ops → ¬ (s < n < e).

Lemma op_at_commute i ops a b v : compatible ops → a ∈ ops → b ∈ ops →
  op_at i (op_at i v a) b = op_at i (op_at i v b) a.
Proof.
  intros Hc Ha Hb. destruct a as [n|s e], b as [m|s' e']; cbn [op_at].
  - destruct (Z.eqb_spec i n), (Z.eqb_spec i m); congruence.
  - specialize (Hc n s' e' Ha Hb). destruct (Z.eqb_spec i n); [|done].
    destruct (Z.ltb_spec s' i), (Z.ltb_spec i e'); simpl; done || lia.
  - specialize (Hc m s e Hb Ha). destruct (Z.eqb_spec i m); [|done].
    destruct (Z.ltb_spec s i), (Z.ltb_spec i e); simpl; done || lia.
  - by destruct ((s <? i) && (i <? e)), ((s' <? i) && (i <? e')).
Qed.

Lemma fold_commute {A B} (f : B → A → B) l l' :
  (∀ a b v, a ∈ l → b ∈ l → f (f v a) b = f (f v b) a) → l ≡ₚ l' → ∀ v, fold_left f l v = fold_left f l' v.
Proof.
  intros Hc HP. induction HP as [|x l l' HP IH|x y l|l l' l'' HP1 IH1 HP2 IH2]; intros v; cbn [fold_left]; [done| | |].
  - apply IH. intros a b w Ha Hb. apply Hc; by apply list_elem_of_further.
  - rewrite Hc; [done| |]; [apply list_elem_of_here|apply list_elem_of_further, list_elem_of_here].
  - rewrite IH1 by done. apply IH2. intros a b w Ha Hb. apply Hc; by rewrite HP1.
Qed.

Lemma run_any_order ops ops' l : ordered l → compatible ops → ops' ≡ₚ ops →
  ordered (run ops' l) ∧ ∀ i, get (run ops' l) i = fold_left (op_at i) ops (get l i).
Proof.
  intros Ho Hc HP. destruct (run_get ops' l Ho) as [H1 H2]. split; [done|]. intros i. rewrite H2. symmetry.
  apply fold_commute; [|by symmetry]. intros a b v Ha Hb. by apply (op_at_commute i ops).
Qed.

(** ** A page of the list of active namespaces *)

(** Its last number. *)
Fixpoint active_last (es : list Z) (prev : Z) : Z :=
  match es with [] => prev | x :: es => active_last es x end.

(** The numbers of a conforming list that are left after [prev]. *)
Definition active_after (prev : Z) (es : list Z) : Prop :=
  0 <= prev ∧ StronglySorted Z.lt (prev :: es) ∧ Forall (λ x, x < UINT_MAX) (prev :: es).

Lemma active_after_cons prev x es : active_after prev (x :: es) → prev < x ∧ x < UINT_MAX ∧ active_after x es.
Proof.
  intros (H0 & Hs & Hf). inversion Hs as [|? ? Hs1 Hx]; subst.
  apply List.Forall_cons_iff in Hx as [Hx _]. apply List.Forall_cons_iff in Hf as [_ Hf].
  pose proof Hf as Hf'. apply List.Forall_cons_iff in Hf' as [Hx2 _]. repeat split; [done|done|lia|done|done].
Qed.

Lemma active_after_bounds prev es x : active_after prev es → x ∈ es → prev < x ∧ x <= active_last es prev.
Proof.
  revert prev. induction es as [|y es IH]; intros prev Ha Hx; [by apply elem_of_nil in Hx|].
  apply active_after_cons in Ha as (H1 & H2 & Ha). cbn [active_last]. apply elem_of_cons in Hx as [->|Hx].
  - split; [done|]. clear IH H1 H2. revert y Ha. induction es as [|z es IH]; intros y Ha; cbn [active_last]; [lia|].
    apply active_after_cons in Ha as (H1 & H2 & Ha). specialize (IH z Ha). lia.
  - specialize (IH y Ha Hx). lia.
Qed.

Lemma active_last_bounds prev es : active_after prev es → prev <= active_last es prev < UINT_MAX.
Proof.
  revert prev. induction es as [|y es IH]; intros prev Ha; cbn [active_last].
  - destruct Ha as (_ & _ & Hf). apply List.Forall_cons_iff in Hf as [Hf _]. lia.
  - apply active_after_cons in Ha as (H1 & H2 & Ha). specialize (IH y Ha). lia.
Qed.

(** What a page starts: every number is scanned and the gaps are removed. *)
Lemma page_loop_exact es : ∀ prev k, active_after prev es →
  ∃ ops, page_loop (es ++ replicate k 0) prev = (ops, active_last es prev, bool_decide (k ≠ 0%nat)) ∧
    (∀ n, Scan n ∈ ops → n ∈ es) ∧
    (∀ s e, RemoveRange s e ∈ ops → prev <= s ∧ e <= active_last es prev ∧ ∀ x, x ∈ es → ¬ (s < x < e)) ∧
    ∀ i v, fold_left (op_at i) ops v =
      if (prev <? i) && (i <=? active_last es prev) then (if bool_decide (i ∈ es) then scan_one (ans i) v else None) else v.
Proof.
  induction es as [|x es IH]; intros prev k Ha.
  { exists []. cbn [app active_last]. split; [by destruct k|]. split; [intros n Hn; by apply elem_of_nil in Hn|].
    split; [intros s e Hn; by apply elem_of_nil in Hn|]. intros i v. cbn [fold_left].
    destruct (Z.ltb_spec prev i), (Z.leb_spec i prev); simpl; done || lia. }
  pose proof (active_after_cons _ _ _ Ha) as (Hx & Hu & Ha'). destruct (IH x k Ha') as (ops & Hp & Hs & Hr & Hf).
  pose proof (active_last_bounds _ _ Ha') as Hl. destruct Ha as (H0 & _ & _).
  assert (u32 (prev + 1) = prev + 1) as Hw by (unfold u32; apply Z.mod_small; unfold UINT_MAX in *; lia).
  cbn [app page_loop active_last]. destruct (Z.eqb_spec x 0); [lia|]. rewrite Hw, Z.max_r, Hp by lia.
  eexists. split; [reflexivity|]. split; [|split].
  - intros m [Hn|[Hn|Hn]%elem_of_app]%elem_of_cons.
    + injection Hn as ->. apply list_elem_of_here.
    + destruct (prev + 1 <? x); [|by apply elem_of_nil in Hn]. by apply list_elem_of_singleton in Hn.
    + by apply list_elem_of_further, Hs.
  - intros s e [Hn|[Hn|Hn]%elem_of_app]%elem_of_cons; [done| |].
    + destruct (prev + 1 <? x); [|by apply elem_of_nil in Hn]. apply list_elem_of_singleton in Hn. injection Hn as -> ->.
      split; [lia|]. split; [lia|]. intros y [->|Hy]%elem_of_cons; [lia|].
      apply (active_after_bounds _ _ _ Ha') in Hy. lia.
    + destruct (Hr s e Hn) as (H1 & H2 & H3). split; [lia|]. split; [done|].
      intros y [->|Hy]%elem_of_cons; [lia|]. by apply H3.
  - intros i v. cbn [fold_left]. rewrite fold_left_app, Hf.
    assert (∀ w, fold_left (op_at i) (if prev + 1 <? x then [RemoveRange prev x] else []) w =
      if (prev <? i) && (i <? x) then None else w) as ->.
    { intros w. destruct (Z.ltb_spec (prev + 1) x); cbn [fold_left op_at]; [done|].
      destruct (Z.ltb_spec prev i), (Z.ltb_spec i x); simpl; done || lia. }
    cbn [op_at].
    assert (bool_decide (i ∈ x :: es) = (i =? x) || bool_decide (i ∈ es)) as ->.
    { destruct (Z.eqb_spec i x) as [->|]; [apply bool_decide_eq_true, list_elem_of_here|]. simpl.
      apply bool_decide_ext. rewrite elem_of_cons. naive_solver. }
    destruct (bool_decide_reflect (i ∈ es)) as [Hin|Hin].
    + apply (active_after_bounds _ _ _ Ha') in Hin. destruct (Z.ltb_spec x i), (Z.leb_spec i (active_last es x)),
        (Z.ltb_spec prev i), (Z.eqb_spec i x), (Z.ltb_spec i x); simpl; done || lia.
    + destruct (Z.eqb_spec i x) as [E|E]; destruct (Z.ltb_spec x i), (Z.leb_spec i (active_last es x)),
        (Z.ltb_spec prev i), (Z.ltb_spec i x); simpl; try done; try lia; by rewrite E.
Qed.

Lemma page_loop_compatible ops es prev last : active_after prev es →
  (∀ n, Scan n ∈ ops → n ∈ es) →
  (∀ s e, RemoveRange s e ∈ ops → prev <= s ∧ e <= active_last es prev ∧ ∀ x, x ∈ es → ¬ (s < x < e)) →
  active_last es prev <= last → compatible (ops ++ [RemoveRange last UINT_MAX]) ∧ compatible ops.
Proof.
  intros Ha Hs Hr Hl. split; intros n s e Hn He.
  - assert (Scan n ∈ ops) as Hn' by (apply elem_of_app in Hn as [|Hn]; [done|by apply list_elem_of_singleton in Hn]).
    apply Hs in Hn'. apply elem_of_app in He as [He|He]; [by apply (Hr s e He)|].
    apply list_elem_of_singleton in He. injection He as -> ->. apply (active_after_bounds _ _ _ Ha) in Hn'. lia.
  - apply (Hr s e He). by apply Hs.
Qed.

(** ** The whole scan *)

(** The page a controller with the active namespaces [A] returns: the first [N] after
    [prev], then zeros. *)
Definition active_page (N : nat) (A : list Z) (prev : Z) : list Z :=
  let es := take N (List.filter (λ a, prev <? a) A) in es ++ replicate (N - length es) 0.

Lemma filter_after D R prev : Forall (λ a, a <= prev) D → Forall (λ a, prev < a) R →
  List.filter (λ a, prev <? a) (D ++ R) = R.
Proof.
  intros HD HR. rewrite List.filter_app.
  assert (List.filter (λ a, prev <? a) D = []) as ->.
  { induction HD as [|a D Ha HD IH]; [done|]. cbn [List.filter]. destruct (Z.ltb_spec prev a); [lia|done]. }
  cbn [app]. induction HR as [|a R Ha HR IH]; [done|]. cbn [List.filter].
  destruct (Z.ltb_spec prev a); [by rewrite IH|lia].
Qed.

Lemma active_after_app es : ∀ prev fs, active_after prev (es ++ fs) →
  active_after prev es ∧ active_after (active_last es prev) fs ∧ Forall (λ a, a <= active_last es prev) es.
Proof.
  induction es as [|x es IH]; intros prev fs Ha; cbn [app active_last] in *.
  - split; [|done]. destruct Ha as (H0 & Hs & Hf). apply List.Forall_cons_iff in Hf as [Hf _].
    repeat split; [done|repeat constructor|by repeat constructor].
  - pose proof (proj1 Ha) as Hp. apply active_after_cons in Ha as (H1 & H2 & Ha). destruct (IH x fs Ha) as (Hx & Hl & HF).
    pose proof (active_last_bounds _ _ Hx). split; [|split; [done|constructor; [lia|done]]].
    destruct Hx as (H0 & Hs & Hf). repeat split; [done|constructor; [done|]|constructor; [lia|done]].
    constructor; [done|]. inversion Hs as [|? ? _ Hlt]; subst. eapply list.Forall_impl; [exact Hlt|]. simpl. lia.
Qed.

Section conforming.
Context (N : nat) (A : list Z) (page : Z → result Z (list Z)) (sched : list op → list op).
Hypothesis N_pos : (0 < N)%nat.
Hypothesis page_active : ∀ prev, page prev = Ok (active_page N A prev).
Hypothesis sched_perm : ∀ ops, sched ops ≡ₚ ops.
Abbreviation loop := (list_loop dnr nvm zns multi_css crims vs_1_1 vs_1_2 vs_2_0 bogus_nid ans page sched).

(** What the rest [R] of the active namespaces makes of the list. *)
Definition settled (prev : Z) (R : list Z) (l l' : list nvme_ns) : Prop :=
  ordered l' ∧ ∀ i, i < UINT_MAX →
    get l' i = if prev <? i then (if bool_decide (i ∈ R) then scan_one (ans i) (get l i) else None) else get l i.

Lemma list_end_settles prev R ops l : active_after prev R → ordered l →
  (∀ n, Scan n ∈ ops → n ∈ R) →
  (∀ s e, RemoveRange s e ∈ ops → prev <= s ∧ e <= active_last R prev ∧ ∀ x, x ∈ R → ¬ (s < x < e)) →
  (∀ i v, fold_left (op_at i) ops v =
      if (prev <? i) && (i <=? active_last R prev) then (if bool_decide (i ∈ R) then scan_one (ans i) v else None) else v) →
  settled prev R l (run (sched (ops ++ [RemoveRange (active_last R prev) UINT_MAX])) l).
Proof.
  intros Ha Ho Hs Hr Hf. destruct (page_loop_compatible _ _ _ _ Ha Hs Hr (Z.le_refl _)) as [Hc _].
  destruct (run_any_order _ _ l Ho Hc (sched_perm _)) as [H1 H2]. split; [done|]. intros i Hi.
  rewrite H2, fold_left_app, Hf. cbn [fold_left op_at]. pose proof (active_last_bounds _ _ Ha).
  destruct (bool_decide_reflect (i ∈ R)) as [Hin|Hin].
  - apply (active_after_bounds _ _ _ Ha) in Hin.
    destruct (Z.ltb_spec prev i), (Z.leb_spec i (active_last R prev)), (Z.ltb_spec (active_last R prev) i), (Z.ltb_spec i UINT_MAX);
      simpl; done || lia.
  - destruct (Z.ltb_spec prev i), (Z.leb_spec i (active_last R prev)), (Z.ltb_spec (active_last R prev) i), (Z.ltb_spec i UINT_MAX);
      simpl; done || lia.
Qed.

(** What two parts of the list make of a number, and the whole. *)
Lemma split_page es fs prev i v : active_after prev (es ++ fs) → i < UINT_MAX →
  let w := if (prev <? i) && (i <=? active_last es prev) then (if bool_decide (i ∈ es) then scan_one (ans i) v else None) else v in
  (if active_last es prev <? i then (if bool_decide (i ∈ fs) then scan_one (ans i) w else None) else w) =
  if prev <? i then (if bool_decide (i ∈ es ++ fs) then scan_one (ans i) v else None) else v.
Proof.
  intros Ha Hi w. destruct (active_after_app _ _ _ Ha) as (Ht & Hd & _). pose proof (active_last_bounds _ _ Ht). subst w.
  destruct (Z.ltb_spec (active_last es prev) i) as [Hgt|Hle].
  - destruct (Z.leb_spec i (active_last es prev)); [lia|]. rewrite andb_false_r. destruct (Z.ltb_spec prev i); [|lia].
    erewrite (bool_decide_ext (i ∈ es ++ fs)); [done|]. rewrite elem_of_app. split; [|auto]. intros [Hin|]; [|done].
    apply (active_after_bounds _ _ _ Ht) in Hin. lia.
  - destruct (Z.leb_spec i (active_last es prev)); [|lia]. rewrite andb_true_r. destruct (Z.ltb_spec prev i); [|done].
    erewrite (bool_decide_ext (i ∈ es ++ fs)); [done|]. rewrite elem_of_app. split; [|auto]. intros [|Hin]; [done|].
    apply (active_after_bounds _ _ _ Hd) in Hin. lia.
Qed.

Lemma list_loop_exact fuel : ∀ D R prev l, A = D ++ R → Forall (λ a, a <= prev) D → active_after prev R →
  (length R < fuel)%nat → ordered l → ∃ l', loop fuel prev l = Some (0, l') ∧ settled prev R l l'.
Proof.
  induction fuel as [|fuel IH]; intros D R prev l HA HD Ha Hlen Ho; [lia|].
  cbn [list_loop]. rewrite page_active. unfold active_page.
  assert (Forall (λ a, prev < a) R) as HR by (destruct Ha as (_ & Hs & _); by inversion Hs).
  rewrite HA, filter_after by done.
  rewrite <- (take_drop N R) in Ha. destruct (active_after_app _ _ _ Ha) as (Ht & Hd & Hle).
  destruct (page_loop_exact (take N R) prev (N - length (take N R)) Ht) as (ops & Hp & Hs & Hr & Hf).
  rewrite Hp. rewrite length_take in *. case_bool_decide as Hk.
  - assert (take N R = R) as HtR by (apply take_ge; lia). rewrite HtR in *.
    eexists. split; [reflexivity|]. eapply list_end_settles; eauto.
  - destruct (page_loop_compatible _ _ _ _ Ht Hs Hr (Z.le_refl _)) as [_ Hc].
    destruct (run_any_order _ _ l Ho Hc (sched_perm _)) as [H1 H2].
    destruct (IH (D ++ take N R) (drop N R) (active_last (take N R) prev) (run (sched ops) l)) as (l' & Hl & Ho' & Hg).
    + by rewrite <- app_assoc, take_drop.
    + apply List.Forall_app. split; [|done]. pose proof (active_last_bounds _ _ Ht).
      eapply list.Forall_impl; [exact HD|]. simpl. lia.
    + done.
    + rewrite length_drop. lia.
    + done.
    + exists l'. split; [done|]. split; [done|]. intros i Hi. rewrite Hg, H2, Hf by done.
      pose proof (split_page (take N R) (drop N R) prev i (get l i) Ha Hi) as E. by rewrite take_drop in E.
Qed.
End conforming.

(** ** The scan number by number *)

Lemma seq_loop_exact fuel : ∀ i nn l, 0 <= i → i <= nn + 1 → nn < UINT_MAX → nn + 1 - i < Z.of_nat fuel → ordered l →
  ∃ l', seq_loop dnr nvm zns multi_css crims vs_1_1 vs_1_2 vs_2_0 bogus_nid ans fuel i nn l = Some l' ∧ ordered l' ∧
    ∀ j, get l' j = if (i <=? j) && (j <=? nn) then scan_one (ans j) (get l j) else get l j.
Proof.
  induction fuel as [|fuel IH]; intros i nn l Hi Hn Hu Hf Ho; cbn [seq_loop]; [lia|].
  destruct (Z.leb_spec i nn) as [Hle|Hgt].
  - destruct (scan_get i l Ho) as [H1 H2].
    assert (u32 (i + 1) = i + 1) as -> by (unfold u32; apply Z.mod_small; unfold UINT_MAX in *; lia).
    destruct (IH (i + 1) nn (scan i l)) as (l' & Hl & Ho' & Hg); [lia..|done|]. exists l'. split; [done|]. split; [done|].
    intros j. rewrite Hg, H2. destruct (Z.eqb_spec j i) as [E|E];
      destruct (Z.leb_spec (i + 1) j), (Z.leb_spec i j), (Z.leb_spec j nn); simpl; try done; try lia; by rewrite E.
  - exists l. split; [done|]. split; [done|]. intros j.
    destruct (Z.leb_spec i j), (Z.leb_spec j nn); simpl; done || lia.
Qed.

(** With all of the numbers in use the variable of the loop wraps around. *)
Lemma seq_loop_diverges fuel : ∀ i l, 0 <= i <= UINT_MAX →
  seq_loop dnr nvm zns multi_css crims vs_1_1 vs_1_2 vs_2_0 bogus_nid ans fuel i UINT_MAX l = None.
Proof.
  induction fuel as [|fuel IH]; intros i l Hi; cbn [seq_loop]; [done|]. destruct (Z.leb_spec i UINT_MAX); [|lia].
  apply IH. unfold u32, UINT_MAX. pose proof (Z.mod_pos_bound (i + 1) (2 ^ 32)). lia.
Qed.
End pointwise.

(** C16. A scan of a controller brings the list in line with it.  [A], in increasing order and
    below UINT_MAX, are the active namespaces, and the controller answers a request for a
    page with the first [N] of them after the number in the request and then with zeros.
    Whatever the order ([sched]) in which the jobs and removals of a page take effect, the
    scan ends after at most [length A + 1] pages without an error, the list is ordered, every
    active namespace is what its own scan makes of it and every other one has gone. *)
Theorem nvme_scan_exact dnr nvm zns multi_css crims vs_1_1 vs_1_2 vs_2_0 bogus_nid ans N A page sched l fuel
  (HN : (0 < N)%nat) (Hpage : ∀ prev, page prev = Ok (active_page N A prev)) (Hsched : ∀ ops, sched ops ≡ₚ ops)
  (HA : active_after 0 A) (Ho : ordered l) (Hfuel : (length A < fuel)%nat) :
  ∃ l', nvme_scan_ns_list dnr nvm zns multi_css crims vs_1_1 vs_1_2 vs_2_0 bogus_nid ans true page sched fuel l =
      Some (0, l') ∧
    ordered l' ∧
    ∀ i, 0 < i < UINT_MAX →
      get l' i =
      if bool_decide (i ∈ A) then scan_one dnr nvm zns multi_css crims vs_1_1 vs_1_2 vs_2_0 bogus_nid (ans i) (get l i)
      else None.
Proof.
  unfold nvme_scan_ns_list. cbn [negb].
  destruct (list_loop_exact dnr nvm zns multi_css crims vs_1_1 vs_1_2 vs_2_0 bogus_nid ans N A page sched HN Hpage Hsched
    fuel [] A 0 l) as (l' & Hl & Ho' & Hg); [done..|].
  exists l'. split; [done|]. split; [done|]. intros i [Hi Hu]. rewrite Hg by done. by destruct (Z.ltb_spec 0 i); [|lia].
Qed.

(** Pages of two numbers, jobs in reverse order: namespace 5 is new, 2 is lost, 3 is kept. *)
Definition sample_answers (i : Z) : ns_answers :=
  Answers (0, Ids [i] [] [] 0) (1, false) (0, 64, [], []) 0 Some.
Lemma nvme_scan_exact_witness :
  ∃ l', nvme_scan_ns_list 0x4000 0 2 false false true true false false sample_answers true
      (λ prev, Ok (active_page 2 [1; 3; 5] prev)) (@reverse _) 4 [Ns 2 (Ids [2] [] [] 0); Ns 3 (Ids [3] [] [] 0)] =
      Some (0, l') ∧ (ns_id <$> l') = [1; 3; 5] ∧ get l' 2 = None.
Proof.
  destruct (nvme_scan_exact 0x4000 0 2 false false true true false false sample_answers 2 [1; 3; 5]
    (λ prev, Ok (active_page 2 [1; 3; 5] prev)) (@reverse _) [Ns 2 (Ids [2] [] [] 0); Ns 3 (Ids [3] [] [] 0)] 4)
    as (l' & H1 & _ & H2).
  - lia.
  - done.
  - intros. apply reverse_Permutation.
  - repeat split; [done|..]; repeat constructor.
  - repeat constructor.
  - simpl. lia.
  - exists l'. split; [exact H1|]. split; [|by apply (H2 2)]. vm_compute in H1. by injection H1 as <-.
Defined.

(** ** The list of descriptors *)

(** A descriptor as a controller lays it out: its header and what follows. *)
Record desc := Desc { d_head : list Z; d_body : list Z }.
Definition desc_bytes (d : desc) : list Z := d_head d ++ d_body d.

Section desc_list.
Context (L : desc_layout) (bogus_nid : bool).
Hypothesis L_nidt : 0 <= off_nidt L < sizeof_desc L.
Hypothesis L_nidl : 0 <= off_nidl L < sizeof_desc L.
Hypothesis L_csi : CSI_LEN L = 1.

(** The header is complete and carries the length of the body, which is not empty. *)
Definition desc_ok (d : desc) : Prop :=
  Z.of_nat (length (d_head d)) = sizeof_desc L ∧ d_body d ≠ [] ∧
  d_head d !! Z.to_nat (off_nidl L) = Some (Z.of_nat (length (d_body d))).
Definition desc_type (d : desc) : Z := default 0 (d_head d !! Z.to_nat (off_nidt L)).

(** What a descriptor says: whether to go on, the identifiers, whether the command set is
    known. *)
Definition desc_means (d : desc) (st : nvme_ns_ids * bool) : bool * (nvme_ns_ids * bool) :=
  let '(ids, seen) := st in
  let id := λ len set, if Z.of_nat (length (d_body d)) =? len then
                         (true, (if bogus_nid then ids else set (d_body d) ids, seen)) else (false, st) in
  if desc_type d =? NIDT_EUI64 L then id (EUI64_LEN L) set_eui64
  else if desc_type d =? NIDT_NGUID L then id (NGUID_LEN L) set_nguid
  else if desc_type d =? NIDT_UUID L then id (UUID_LEN L) set_uuid
  else if desc_type d =? NIDT_CSI L then
    match d_body d with [v] => (true, (set_csi v ids, true)) | _ => (false, st) end
  else (true, st).
Fixpoint descs_mean (ds : list desc) (st : nvme_ns_ids * bool) : nvme_ns_ids * bool :=
  match ds with
  | [] => st
  | d :: ds => let '(go, st') := desc_means d st in if go then descs_mean ds st' else st'
  end.

Lemma head_lookup (pre h b rest : list Z) o : 0 <= o < Z.of_nat (length h) →
  (pre ++ (h ++ b) ++ rest) !! Z.to_nat (Z.of_nat (length pre) + o) = h !! Z.to_nat o.
Proof.
  intros Ho. rewrite lookup_app_r by lia. replace (Z.to_nat (Z.of_nat (length pre) + o) - length pre)%nat with (Z.to_nat o) by lia.
  rewrite lookup_app_l by (rewrite length_app; lia). by rewrite lookup_app_l by lia.
Qed.

Lemma body_lookup (pre h b rest : list Z) : b ≠ [] →
  (pre ++ (h ++ b) ++ rest) !! Z.to_nat (Z.of_nat (length pre) + Z.of_nat (length h)) = b !! 0%nat.
Proof.
  intros Hb. rewrite <- app_assoc, app_assoc, lookup_app_r by (rewrite length_app; lia).
  rewrite length_app. replace (_ - _)%nat with 0%nat by lia. by destruct b.
Qed.

Lemma body_read (pre h b rest : list Z) len : Z.of_nat (length b) = len →
  read_page (pre ++ (h ++ b) ++ rest) (Z.of_nat (length pre) + Z.of_nat (length h)) len = Ok b.
Proof.
  intros <-. unfold read_page. rewrite !length_app. destruct (Z.leb_spec (Z.of_nat (length pre) + Z.of_nat (length h) + Z.of_nat (length b))
    (Z.of_nat (length pre + (length h + length b + length rest)))); [|lia].
  rewrite <- app_assoc, app_assoc. rewrite drop_app_length' by (rewrite length_app; lia).
  by rewrite take_app_length' by lia.
Qed.

Lemma process_exact pre d rest ids seen : desc_ok d →
  nvme_process_ns_desc L bogus_nid (pre ++ desc_bytes d ++ rest) (Z.of_nat (length pre)) ids seen =
  let '(go, (ids', seen')) := desc_means d (ids, seen) in Ok (if go then Z.of_nat (length (d_body d)) else -1, ids', seen').
Proof.
  intros (Hh & Hb & Hl). destruct d as [h b]. unfold desc_bytes, desc_means, desc_type in *. cbn [d_head d_body] in *.
  unfold nvme_process_ns_desc, read_byte. rewrite !head_lookup by lia. rewrite Hl.
  destruct (h !! Z.to_nat (off_nidt L)) as [t|] eqn:Et; [|apply lookup_ge_None in Et; lia]. cbn [default from_option id].
  assert (∀ len set,
    (if negb (Z.of_nat (length b) =? len) then Ok (-1, ids, seen)
     else if bogus_nid then Ok (len, ids, seen)
     else match read_page (pre ++ (h ++ b) ++ rest) (Z.of_nat (length pre) + sizeof_desc L) len with
          | Ok v => Ok (len, set v ids, seen) | Err e => Err e end) =
    let '(go, (ids', seen')) := if Z.of_nat (length b) =? len then (true, (if bogus_nid then ids else set b ids, seen))
      else (false, (ids, seen)) in
    Ok (if go : bool then Z.of_nat (length b) else -1, ids', seen') :> result fault _) as Hstore.
  { intros len set. destruct (Z.eqb_spec (Z.of_nat (length b)) len) as [<-|]; cbn [negb]; [|done].
    destruct bogus_nid; [done|]. by rewrite <- Hh, body_read. }
  destruct (t =? NIDT_EUI64 L); [apply Hstore|]. destruct (t =? NIDT_NGUID L); [apply Hstore|].
  destruct (t =? NIDT_UUID L); [apply Hstore|]. destruct (t =? NIDT_CSI L); [|done].
  rewrite L_csi, <- Hh, body_lookup by done. destruct b as [|v [|w b]]; [done|done|].
  cbn [length]. destruct (Z.eqb_spec (Z.of_nat (S (S (length b)))) 1); [lia|done].
Qed.

(** The descriptors end with the page, or zeros follow that reach the length of a next one. *)
Definition desc_end (rest : list Z) : Prop :=
  rest = [] ∨ ∃ k, rest = replicate k 0 ∧ off_nidl L < Z.of_nat k.

Lemma desc_loop_exact ds : ∀ pre rest fuel ids seen, Forall desc_ok ds → desc_end rest → (length ds < fuel)%nat →
  let data := pre ++ mjoin (desc_bytes <$> ds) ++ rest in
  desc_loop L (Z.of_nat (length data)) bogus_nid fuel data (Z.of_nat (length pre)) ids seen = Ok (descs_mean ds (ids, seen)).
Proof.
  induction ds as [|d ds IH]; intros pre rest fuel ids seen Hok Hend Hf data; subst data;
    (destruct fuel as [|fuel]; [simpl in Hf; lia|]); cbn [desc_loop fmap list_fmap mjoin list_join app descs_mean].
  - destruct Hend as [->|(k & -> & Hk)].
    + rewrite app_nil_r. destruct (Z.ltb_spec (Z.of_nat (length pre)) (Z.of_nat (length pre))); [lia|done].
    + rewrite length_app, length_replicate. destruct (Z.ltb_spec (Z.of_nat (length pre)) (Z.of_nat (length pre + k))); [|lia].
      cbn [negb]. unfold read_byte. rewrite lookup_app_r by lia. rewrite lookup_replicate_2 by lia. done.
  - apply List.Forall_cons_iff in Hok as [Hd Hok]. rewrite <- (app_assoc (desc_bytes d)).
    pose proof Hd as (Hh & Hb & Hl). assert (length (d_body d) ≠ 0)%nat by (by destruct (d_body d)).
    assert (length (desc_bytes d) = length (d_head d) + length (d_body d))%nat as Hlen by apply length_app.
    match goal with |- context [negb (?a <? ?b)] => destruct (Z.ltb_spec a b) as [_|Hge]; [|rewrite !length_app in Hge; lia] end.
    cbn [negb]. set (rest' := mjoin (desc_bytes <$> ds) ++ rest).
    assert (read_byte (pre ++ desc_bytes d ++ rest') (Z.of_nat (length pre) + off_nidl L) =
      Ok (Z.of_nat (length (d_body d)))) as -> by (unfold read_byte, desc_bytes; by rewrite head_lookup, Hl by lia).
    destruct (Z.eqb_spec (Z.of_nat (length (d_body d))) 0); [lia|]. rewrite process_exact by done.
    destruct (desc_means d (ids, seen)) as [go [ids' seen']]. destruct go; [|done].
    destruct (Z.ltb_spec (Z.of_nat (length (d_body d))) 0); [lia|].
    specialize (IH (pre ++ desc_bytes d) rest fuel ids' seen' Hok Hend ltac:(simpl in Hf; lia)). cbn zeta in IH.
    rewrite <- (app_assoc pre) in IH. fold rest' in IH.
    replace (Z.of_nat (length pre) + (Z.of_nat (length (d_body d)) + sizeof_desc L)) with
      (Z.of_nat (length (pre ++ desc_bytes d))) by (rewrite length_app; lia). exact IH.
Qed.
End desc_list.

(** The layout the headers give: a header of four bytes, the type first, then the length. *)
Definition std_layout : desc_layout := Layout 4 0 1 1 2 3 4 8 16 16 1.

(** C31. The identification of a namespace reads back the descriptors a controller sent: for a
    list of descriptors that carry their lengths and that ends with the page (or at a zero
    where a next length would be), it never reads behind the page, ends, stores the
    identifiers the descriptors carry (those of before when the controller is known to
    send bogus ones), stops at a known type with a wrong length, and fails exactly when a
    controller with several command sets did not name one. *)
Theorem nvme_descs_roundtrip L bogus_nid multi_css ds rest ids
  (Ht : 0 <= off_nidt L < sizeof_desc L) (Hl : 0 <= off_nidl L < sizeof_desc L) (Hc : CSI_LEN L = 1)
  (Hds : Forall (desc_ok L) ds) (Hend : desc_end L rest) :
  let data := mjoin (desc_bytes <$> ds) ++ rest in
  let '(ids', seen) := descs_mean L bogus_nid ds (ids, false) in
  nvme_identify_ns_descs L (Z.of_nat (length data)) bogus_nid true multi_css false true 0 data ids =
  Ok (if multi_css && negb seen then - EINVAL else 0, ids').
Proof.
  intros data. unfold nvme_identify_ns_descs. cbn [negb andb Z.eqb].
  pose proof (desc_loop_exact L bogus_nid Ht Hl Hc ds [] rest (S (Z.to_nat (Z.of_nat (length data)))) ids false Hds Hend) as H.
  cbn [app] in H. change (Z.of_nat (length [])) with 0 in H. fold data in H. rewrite H; [by destruct (descs_mean _ _ _ _)|].
  rewrite Nat2Z.id. apply Nat.lt_succ_r. subst data. rewrite length_app. clear H.
  induction Hds as [|d ds (Hh & Hb & _) Hds IH]; [simpl; lia|].
  change (mjoin (desc_bytes <$> d :: ds)) with (desc_bytes d ++ mjoin (desc_bytes <$> ds)). rewrite length_app.
  assert (length (desc_bytes d) = length (d_head d) + length (d_body d))%nat by apply length_app. simpl. lia.
Qed.

Lemma nvme_descs_roundtrip_witness :
  nvme_identify_ns_descs std_layout 32 false true true false true 0
    ([1; 8; 0; 0; 11; 12; 13; 14; 15; 16; 17; 18] ++ [9; 2; 0; 0; 7; 7] ++ [4; 1; 0; 0; 2] ++ replicate 9 0) (Ids [] [] [] 0) =
  Ok (0, Ids [11; 12; 13; 14; 15; 16; 17; 18] [] [] 2).
Proof.
  pose proof (nvme_descs_roundtrip std_layout false true
    [Desc [1; 8; 0; 0] [11; 12; 13; 14; 15; 16; 17; 18]; Desc [9; 2; 0; 0] [7; 7]; Desc [4; 1; 0; 0] [2]] (replicate 9 0)
    (Ids [] [] [] 0) ltac:(vm_compute; split; congruence) ltac:(vm_compute; split; congruence) eq_refl) as H.
  apply H; [repeat constructor; done|]. right. by exists 9%nat.
Defined.

(** The bound of the loop is that of the first byte of a descriptor only: a length that leads to
    the last byte of the page makes the code read a length behind it, and a body may cross
    the end. *)
Lemma descs_read_behind_page :
  let page := [9; 7; 0; 0] ++ replicate 7 0 ++ [1] in
  nvme_identify_ns_descs std_layout 12 false true false false true 0 page (Ids [] [] [] 0) = Err ReadBehindPage ∧
  nvme_identify_ns_descs std_layout 8 false true false false true 0 [1; 8; 0; 0; 1; 2; 3; 4] (Ids [] [] [] 0) =
    Err ReadBehindPage.
Proof. done. Qed.
