(* ===== verification/NvmeHead.v ===== *)
(** * NVMe core: lifetime of namespaces and their heads (drivers/nvme/host/core.c)

    A subsystem keeps a list of namespace heads; a head is shared by the namespaces that
    controllers of the subsystem have for it.  Namespaces, heads and the subsystem are
    counted.  The set-up of a namespace with its error paths, its removal, and opening and
    closing are operations on that state; multipathing is off ([nvme_mpath_alloc_disk] gives
    no disk, the other functions of multipath.c do nothing).  Shown: the counts are exact in
    every reachable state, nothing is used after it was freed, and no two heads of a
    subsystem carry the same identifier. *)

From Stdlib Require Import ZArith Lia Bool.
From stdpp Require Import base numbers list option gmap.
From S2P Require Import Prelude NvmeScan.

Local Open Scope list_scope.
Local Open Scope Z_scope.

Record nvme_ns_head := Hd { h_nsid : Z; h_ids : nvme_ns_ids; h_shared : bool; h_ref : Z; h_list : list nat }.
Record nvme_ns := NsR { n_head : nat; n_kref : Z; n_removing : bool; n_cdev_live : bool; n_open : Z }.
(** [s_ref]: references to the subsystem; [nsheads]: the list; [heads], [nss]: what exists. *)
Record nvme_subsystem := Subsys {
  s_ref : Z; nsheads : list nat; heads : gmap nat nvme_ns_head; nss : gmap nat nvme_ns
}.

Inductive head_fault := UseAfterFree.
Abbreviation M := (ST nvme_subsystem head_fault).

Definition set_heads (f : gmap nat nvme_ns_head → gmap nat nvme_ns_head) : M unit :=
  λ s, Ok (tt, Subsys (s_ref s) (nsheads s) (f (heads s)) (nss s)).
Definition set_nss (f : gmap nat nvme_ns → gmap nat nvme_ns) : M unit :=
  λ s, Ok (tt, Subsys (s_ref s) (nsheads s) (heads s) (f (nss s))).
Definition set_list (f : list nat → list nat) : M unit :=
  λ s, Ok (tt, Subsys (s_ref s) (f (nsheads s)) (heads s) (nss s)).
Definition add_ref (d : Z) : M unit := λ s, Ok (tt, Subsys (s_ref s + d) (nsheads s) (heads s) (nss s)).

(** Access through a pointer. *)
Definition head_at (h : nat) : M nvme_ns_head :=
  λ s, match heads s !! h with Some hd => Ok (hd, s) | None => Err UseAfterFree end.
Definition ns_at (n : nat) : M nvme_ns :=
  λ s, match nss s !! n with Some r => Ok (r, s) | None => Err UseAfterFree end.

Definition with_ref (v : Z) (hd : nvme_ns_head) : nvme_ns_head := Hd (h_nsid hd) (h_ids hd) (h_shared hd) v (h_list hd).
Definition with_list (l : list nat) (hd : nvme_ns_head) : nvme_ns_head := Hd (h_nsid hd) (h_ids hd) (h_shared hd) (h_ref hd) l.
Definition with_kref (v : Z) (r : nvme_ns) : nvme_ns := NsR (n_head r) v (n_removing r) (n_cdev_live r) (n_open r).

(** ** References *)

Definition nvme_free_ns_head (h : nat) : M unit := add_ref (-1);; set_heads (delete h).
Definition nvme_put_ns_head (h : nat) : M unit :=
  hd ← head_at h;
  if h_ref hd =? 1 then nvme_free_ns_head h else set_heads <[h := with_ref (h_ref hd - 1) hd]>.
Definition nvme_free_ns (n : nat) (r : nvme_ns) : M unit := nvme_put_ns_head (n_head r);; set_nss (delete n).
Definition nvme_put_ns (n : nat) : M unit :=
  r ← ns_at n;
  if n_kref r =? 1 then nvme_free_ns n r else set_nss <[n := with_kref (n_kref r - 1) r]>.
Definition nvme_get_ns (n : nat) : M bool :=
  r ← ns_at n;
  if n_kref r =? 0 then mret false else set_nss <[n := with_kref (n_kref r + 1) r]>;; mret true.

(** ** Finding or making a head *)

Record nvme_ns_info := Info { i_nsid : Z; i_ids : nvme_ns_ids; i_shared : bool }.

(** What the rest of the kernel and the controller answer; zero is success. *)
Record alloc_env := Env {
  ns_mem : bool; disk_ok : bool;
  dup_global : Z;                      (** identifiers in use in another subsystem *)
  fabrics : bool; cmic_multi : bool;
  unique_nsid : nvme_ns_head → bool;   (** [nvme_is_unique_nsid] *)
  head_mem : bool; ida_ret : Z; srcu_ret : Z; effects_ret : Z; fdps : bool; fdp_ret : Z; mpath_ret : Z;
  update_ret : Z; frozen : bool; add_disk_ret : Z; minor_ret : Z; name_ret : Z; cdev_ret : Z;
  status_errno : Z → Z                 (** [blk_status_to_errno(nvme_error_status())] *)
}.

Definition is_null (v : list Z) : bool := forallb (λ b, b =? 0) v.
Definition nvme_subsys_check_duplicate_ids (s : nvme_subsystem) (ids : nvme_ns_ids) : Z :=
  if existsb (λ h, match heads s !! h with
       | Some hd => (negb (is_null (uuid ids)) && bool_decide (uuid ids = uuid (h_ids hd))) ||
                    (negb (is_null (nguid ids)) && bool_decide (nguid ids = nguid (h_ids hd))) ||
                    (negb (is_null (eui64 ids)) && bool_decide (eui64 ids = eui64 (h_ids hd)))
       | None => false
       end) (nsheads s)
  then - EINVAL else 0.

(** The head with a new reference. *)
Definition nvme_find_ns_head (unique : nvme_ns_head → bool) (nsid : Z) : M (option nat) := λ s,
  match List.find (λ h, match heads s !! h with
          | Some hd => (h_nsid hd =? nsid) && unique hd && negb (h_ref hd =? 0)
          | None => false end) (nsheads s) with
  | None => Ok (None, s)
  | Some h => (hd ← head_at h; set_heads <[h := with_ref (h_ref hd + 1) hd]>;; mret (Some h)) s
  end.

(** What a head acquires, in order, and gives back on an error. *)
Inductive resource := HeadMem | Instance | Srcu | Plids.
Inductive acquire := Take (r : resource) | Give (r : resource).
Definition alloc_ns_head_log (e : alloc_env) (csi : Z) : Z * list acquire :=
  let errno := λ r, if 0 <? r then status_errno e r else r in
  let out_free_head := [Give HeadMem] in
  let out_ida_remove := Give Instance :: out_free_head in
  let out_cleanup_srcu := Give Srcu :: out_ida_remove in
  let out_cleanup_fdp := Give Plids :: out_cleanup_srcu in
  if negb (head_mem e) then (errno (- ENOMEM), [])
  else if ida_ret e <? 0 then (errno (ida_ret e), Take HeadMem :: out_free_head)
  else if negb (srcu_ret e =? 0) then (errno (srcu_ret e), [Take HeadMem; Take Instance] ++ out_ida_remove)
  else if negb (csi =? 0) && negb (effects_ret e =? 0)
  then (errno (effects_ret e), [Take HeadMem; Take Instance; Take Srcu] ++ out_cleanup_srcu)
  else if fdps e && (fdp_ret e <? 0)
  then (errno (fdp_ret e), [Take HeadMem; Take Instance; Take Srcu] ++ out_cleanup_srcu)
  else if negb (mpath_ret e =? 0)
  then (errno (mpath_ret e), [Take HeadMem; Take Instance; Take Srcu; Take Plids] ++ out_cleanup_fdp)
  else (0, [Take HeadMem; Take Instance; Take Srcu; Take Plids]).

(** [h]: the memory of the new head. *)
Definition nvme_alloc_ns_head (e : alloc_env) (h : nat) (info : nvme_ns_info) : M (result Z nat) :=
  let ret := (alloc_ns_head_log e (csi (i_ids info))).1 in
  if negb (ret =? 0) then mret (Err ret)
  else
    set_heads <[h := Hd (i_nsid info) (i_ids info) (i_shared info) 1 []]>;;
    set_list (λ l, l ++ [h]);;
    add_ref 1;;
    mret (Ok h).

Definition clear_ids (ids : nvme_ns_ids) : nvme_ns_ids :=
  Ids (replicate (length (eui64 ids)) 0) (replicate (length (nguid ids)) 0) (replicate (length (uuid ids)) 0) (csi ids).

(** Joins namespace [n] to a head; the head, or an error. *)
Definition nvme_init_ns_head (e : alloc_env) (n h : nat) (info : nvme_ns_info) : M (result Z nat) :=
  if negb (dup_global e =? 0) && (fabrics e || (cmic_multi e && i_shared info)) then mret (Err (dup_global e))
  else
    let info := if negb (dup_global e =? 0) then Info (i_nsid info) (clear_ids (i_ids info)) (i_shared info) else info in
    found ← nvme_find_ns_head (unique_nsid e) (i_nsid info);
    r ← match found with
        | None =>
            s ← Prelude.get;
            let ret := nvme_subsys_check_duplicate_ids s (i_ids info) in
            if negb (ret =? 0) then mret (Err ret) else nvme_alloc_ns_head e h info
        | Some h =>
            hd ← head_at h;
            if (negb (i_shared info) || negb (h_shared hd)) && negb (bool_decide (h_list hd = []))
            then nvme_put_ns_head h;; mret (Err (- EINVAL))
            else if negb (nvme_ns_ids_equal (h_ids hd) (i_ids info))
            then nvme_put_ns_head h;; mret (Err (- EINVAL))
            else mret (Ok h)
        end;
    match r with
    | Err ret => mret (Err ret)
    | Ok h => hd ← head_at h; set_heads <[h := with_list (h_list hd ++ [n]) hd]>;; mret (Ok h)
    end.

(** ** Namespaces *)

(** Takes [n] from the siblings of its head, and the head from the list when it was the last. *)
Definition unlink_ns (n h : nat) : M unit :=
  hd ← head_at h;
  let l := List.filter (λ m, negb (m =? n)%nat) (h_list hd) in
  set_heads <[h := with_list l hd]>;;
  if bool_decide (l = []) then set_list (List.filter (λ m, negb (m =? h)%nat)) else mret tt.

(** The release function of the character device. *)
Definition nvme_cdev_rel (n : nat) : M unit := nvme_put_ns n.
Definition nvme_cdev_add (e : alloc_env) (n : nat) : M Z :=
  if minor_ret e <? 0 then mret (minor_ret e)
  else if negb (name_ret e =? 0) then mret (name_ret e)
  else if negb (cdev_ret e =? 0) then nvme_cdev_rel n;; mret (cdev_ret e)
  else mret 0.
Definition set_cdev_live (b : bool) (n : nat) : M unit :=
  r ← ns_at n; set_nss <[n := NsR (n_head r) (n_kref r) (n_removing r) b (n_open r)]>.
Definition nvme_add_ns_cdev (e : alloc_env) (n : nat) : M unit :=
  nvme_get_ns n;;
  ret ← nvme_cdev_add e n;
  if negb (ret =? 0) then nvme_put_ns n else set_cdev_live true n.

(** [n], [h]: the memory of the new namespace and of a new head.  The answer: the head, if the
    namespace is there in the end. *)
Definition nvme_alloc_ns (e : alloc_env) (n h : nat) (info : nvme_ns_info) : M (option nat) :=
  if negb (ns_mem e) then mret None
  else if negb (disk_ok e) then mret None
  else
    r ← nvme_init_ns_head e n h info;
    match r with
    | Err _ => mret None
    | Ok h =>
        set_nss <[n := NsR h 1 false false 0]>;;
        if negb (update_ret e =? 0) || frozen e || negb (add_disk_ret e =? 0) then
          unlink_ns n h;;
          nvme_put_ns_head h;;
          set_nss (delete n);;
          mret None
        else
          nvme_add_ns_cdev e n;;
          mret (Some h)
    end.

Definition nvme_ns_remove (n : nat) : M unit :=
  r ← ns_at n;
  if n_removing r then mret tt
  else
    set_nss <[n := NsR (n_head r) (n_kref r) true (n_cdev_live r) (n_open r)]>;;
    unlink_ns n (n_head r);;
    (if n_cdev_live r then set_cdev_live false n;; nvme_cdev_rel n else mret tt);;
    nvme_put_ns n.

Definition set_open (d : Z) (n : nat) : M unit :=
  r ← ns_at n; set_nss <[n := NsR (n_head r) (n_kref r) (n_removing r) (n_cdev_live r) (n_open r + d)]>.
(** [module_ok]: the answer of [try_module_get]; the handles of a namespace are counted. *)
Definition nvme_ns_open (module_ok : bool) (n : nat) : M Z :=
  ok ← nvme_get_ns n;
  if negb ok then mret (- ENXIO)
  else if negb module_ok then nvme_put_ns n;; mret (- ENXIO)
  else set_open 1 n;; mret 0.
Definition nvme_ns_release (n : nat) : M unit := set_open (-1) n;; nvme_put_ns n.

(** ** The counts are exact *)

(** The namespaces of a head. *)
Definition refs (h : nat) (m : gmap nat nvme_ns) : Z := Z.of_nat (size (filter (λ p, n_head p.2 = h) m)).

Lemma refs_delete h n r m : m !! n = Some r → refs h m = refs h (delete n m) + (if decide (n_head r = h) then 1 else 0).
Proof.
  intros Hn. unfold refs. rewrite <- (insert_delete_id m n r Hn) at 1. rewrite map_filter_insert. cbn [snd].
  destruct (decide (n_head r = h)).
  - rewrite map_size_insert_None; [lia|]. apply map_lookup_filter_None. left. apply lookup_delete_eq.
  - rewrite delete_delete_eq. lia.
Qed.
Lemma refs_new h n r m : m !! n = None → refs h (<[n := r]> m) = refs h m + (if decide (n_head r = h) then 1 else 0).
Proof.
  intros Hn. rewrite (refs_delete h n r (<[n := r]> m)) by apply lookup_insert_eq. by rewrite delete_insert_id.
Qed.
Lemma refs_update h n r r' m : m !! n = Some r → n_head r' = n_head r → refs h (<[n := r']> m) = refs h m.
Proof.
  intros Hn He. rewrite (refs_delete h n r m) by done. rewrite (refs_delete h n r' (<[n := r']> m)) by apply lookup_insert_eq.
  by rewrite delete_insert_eq, He.
Qed.
Lemma refs_nonneg h m : 0 ≤ refs h m.
Proof. unfold refs. lia. Qed.
Lemma refs_pos h n r m : m !! n = Some r → n_head r = h → 0 < refs h m.
Proof. intros Hn <-. rewrite (refs_delete _ _ _ _ Hn), decide_True by done. pose proof (refs_nonneg (n_head r) (delete n m)). lia. Qed.
Lemma refs_zero h m n r : refs h m = 0 → m !! n = Some r → n_head r ≠ h.
Proof. intros H Hn E. pose proof (refs_pos _ _ _ _ Hn E). lia. Qed.

Definition common_id (a b : nvme_ns_ids) : Prop :=
  (is_null (uuid a) = false ∧ uuid a = uuid b) ∨ (is_null (nguid a) = false ∧ nguid a = nguid b) ∨
  (is_null (eui64 a) = false ∧ eui64 a = eui64 b).

(** The state between two steps of an operation that holds [xh] references to heads and
    [xn] references to namespaces; [base] are the references of the controllers. *)
Record wf (base : Z) (xh xn : nat → Z) (s : nvme_subsystem) : Prop := {
  wf_ns : ∀ n r, nss s !! n = Some r → is_Some (heads s !! n_head r) ∧
    n_kref r = (if n_removing r then 0 else 1) + (if n_cdev_live r then 1 else 0) + n_open r + xn n ∧
    0 < n_kref r ∧ 0 ≤ n_open r ∧ 0 ≤ xn n;
  wf_ref : ∀ h hd, heads s !! h = Some hd → h_ref hd = refs h (nss s) + xh h ∧ 0 < h_ref hd ∧ 0 ≤ xh h;
  wf_list : ∀ h hd, heads s !! h = Some hd → NoDup (h_list hd) ∧
    ∀ n, n ∈ h_list hd ↔ ∃ r, nss s !! n = Some r ∧ n_head r = h ∧ n_removing r = false;
  wf_nsheads : NoDup (nsheads s) ∧ ∀ h, h ∈ nsheads s ↔ ∃ hd, heads s !! h = Some hd ∧ h_list hd ≠ [];
  wf_sub : s_ref s = base + Z.of_nat (size (heads s));
  wf_ids : ∀ h h' hd hd', h ∈ nsheads s → h' ∈ nsheads s → heads s !! h = Some hd → heads s !! h' = Some hd' →
    h ≠ h' → ¬ common_id (h_ids hd) (h_ids hd')
}.
Abbreviation none := (λ _ : nat, 0).
Definition at_ (n : nat) (v : Z) (f : nat → Z) : nat → Z := λ m, if decide (m = n) then v else f m.

(** A change of the reference count of a head. *)
Lemma wf_set_ref base xh xn s h hd v : wf base xh xn s → heads s !! h = Some hd → 0 < v → 0 ≤ v - refs h (nss s) →
  wf base (at_ h (v - refs h (nss s)) xh) xn (Subsys (s_ref s) (nsheads s) (<[h := with_ref v hd]> (heads s)) (nss s)).
Proof.
  intros W Hh Hv Hx.
  assert (∀ h' hd', <[h := with_ref v hd]> (heads s) !! h' = Some hd' →
    ∃ hd0, heads s !! h' = Some hd0 ∧ h_list hd' = h_list hd0 ∧ h_ids hd' = h_ids hd0) as Hsame.
  { intros h' hd' H. destruct (decide (h' = h)) as [->|].
    - rewrite lookup_insert_eq in H. injection H as <-. by exists hd.
    - rewrite lookup_insert_ne in H by done. by exists hd'. }
  split; cbn [heads s_ref nsheads nss].
  - intros n r Hn. destruct (wf_ns _ _ _ _ W n r Hn) as (H1 & H2). split; [|done].
    destruct (decide (h = n_head r)) as [<-|]; [by rewrite lookup_insert_eq|by rewrite lookup_insert_ne].
  - intros h' hd' Hh'. unfold at_. destruct (decide (h' = h)) as [->|].
    + rewrite lookup_insert_eq in Hh'. injection Hh' as <-. cbn [with_ref h_ref]. lia.
    + rewrite lookup_insert_ne in Hh' by done. by apply (wf_ref _ _ _ _ W).
  - intros h' hd' (hd0 & H0 & -> & _)%Hsame. by apply (wf_list _ _ _ _ W).
  - destruct (wf_nsheads _ _ _ _ W) as [N1 N2]. split; [done|]. intros h'. rewrite N2. split.
    + intros (hd' & H1 & H2). destruct (decide (h' = h)) as [->|].
      * exists (with_ref v hd). rewrite lookup_insert_eq. split; [done|]. rewrite Hh in H1. by injection H1 as <-.
      * exists hd'. by rewrite lookup_insert_ne.
    + intros (hd' & (hd0 & H0 & E & _)%Hsame & H2). exists hd0. by rewrite <- E.
  - rewrite map_size_insert_Some by done. by apply (wf_sub _ _ _ _ W).
  - intros h1 h2 d1 d2 M1 M2 (e1 & H1 & _ & ->)%Hsame (e2 & H2 & _ & ->)%Hsame. by apply (wf_ids _ _ _ _ W).
Qed.

(** A head without namespaces is not on the list. *)
Lemma wf_unused base xh xn s h hd : wf base xh xn s → heads s !! h = Some hd → refs h (nss s) = 0 → h_list hd = [].
Proof.
  intros W Hh Hz. destruct (h_list hd) as [|m l] eqn:El; [done|]. destruct (wf_list _ _ _ _ W h hd Hh) as [_ Hl].
  destruct (proj1 (Hl m)) as (r & H1 & H2 & _); [rewrite El; apply list_elem_of_here|].
  exfalso. by apply (refs_zero _ _ _ _ Hz H1).
Qed.

Lemma put_head_wf base xh xn s h : wf base xh xn s → is_Some (heads s !! h) → 0 < xh h →
  ∃ s', nvme_put_ns_head h s = Ok (tt, s') ∧ wf base (at_ h (xh h - 1) xh) xn s' ∧ nss s' = nss s.
Proof.
  intros W [hd Hh] Hx. unfold nvme_put_ns_head, mbind, ST_bind, head_at. rewrite Hh.
  destruct (wf_ref _ _ _ _ W h hd Hh) as (Hr & Hr0 & _). pose proof (refs_nonneg h (nss s)).
  destruct (Z.eqb_spec (h_ref hd) 1) as [E|E].
  - assert (refs h (nss s) = 0) as Hz by lia. pose proof (wf_unused _ _ _ _ _ _ W Hh Hz) as Hl.
    unfold nvme_free_ns_head, add_ref, set_heads, mbind, ST_bind. cbn [heads s_ref nsheads nss].
    eexists. split; [done|]. split; [|done]. split; cbn [heads s_ref nsheads nss].
    + intros n r Hn. destruct (wf_ns _ _ _ _ W n r Hn) as (H1 & H2). split; [|done].
      rewrite lookup_delete_ne; [done|]. intros Eh. symmetry in Eh. by apply (refs_zero _ _ _ _ Hz Hn).
    + intros h' hd' Hh'. apply lookup_delete_Some in Hh' as [Hne Hh']. unfold at_. rewrite decide_False by congruence.
      by apply (wf_ref _ _ _ _ W).
    + intros h' hd' Hh'. apply lookup_delete_Some in Hh' as [Hne Hh']. by apply (wf_list _ _ _ _ W).
    + destruct (wf_nsheads _ _ _ _ W) as [N1 N2]. split; [done|]. intros h'. rewrite N2. split.
      * intros (hd' & H1 & H2). exists hd'. split; [|done]. apply lookup_delete_Some. split; [|done]. intros <-. congruence.
      * intros (hd' & [_ H1]%lookup_delete_Some & H2). by exists hd'.
    + rewrite (wf_sub _ _ _ _ W). rewrite map_size_delete_Some by done.
      assert (size (heads s) ≠ 0%nat) by (intros Hs%map_size_empty_iff; by rewrite Hs in Hh). lia.
    + intros h1 h2 d1 d2 M1 M2 [_ H1]%lookup_delete_Some [_ H2]%lookup_delete_Some. by apply (wf_ids _ _ _ _ W).
  - unfold set_heads. eexists. split; [done|]. split; [|done].
    replace (xh h - 1) with (h_ref hd - 1 - refs h (nss s)) by lia. apply wf_set_ref; [done|done|lia|lia].
Qed.

Lemma wf_ext base xh xh' xn xn' s : wf base xh xn s → (∀ h, xh h = xh' h) → (∀ n, xn n = xn' n) → wf base xh' xn' s.
Proof.
  intros W Eh En. split.
  - intros n r Hn. rewrite <- En. by apply (wf_ns _ _ _ _ W).
  - intros h hd Hh. rewrite <- Eh. by apply (wf_ref _ _ _ _ W).
  - apply (wf_list _ _ _ _ W).
  - apply (wf_nsheads _ _ _ _ W).
  - apply (wf_sub _ _ _ _ W).
  - apply (wf_ids _ _ _ _ W).
Qed.

(** A change of the counts of a namespace. *)
Lemma wf_set_ns base xh xn s n r r' v : wf base xh xn s → nss s !! n = Some r →
  n_head r' = n_head r → n_removing r' = n_removing r →
  n_kref r' = (if n_removing r' then 0 else 1) + (if n_cdev_live r' then 1 else 0) + n_open r' + v →
  0 < n_kref r' → 0 ≤ n_open r' → 0 ≤ v →
  wf base xh (at_ n v xn) (Subsys (s_ref s) (nsheads s) (heads s) (<[n := r']> (nss s))).
Proof.
  intros W Hn Hh Hrm Hk Hk0 Ho Hv. split; cbn [heads s_ref nsheads nss].
  - intros n' r0. unfold at_. destruct (decide (n' = n)) as [->|].
    + rewrite lookup_insert_eq. intros [= <-]. rewrite Hh. by destruct (wf_ns _ _ _ _ W n r Hn).
    + rewrite lookup_insert_ne by done. apply (wf_ns _ _ _ _ W).
  - intros h hd Hd. rewrite (refs_update h n r r') by done. by apply (wf_ref _ _ _ _ W).
  - intros h hd Hd. destruct (wf_list _ _ _ _ W h hd Hd) as [H1 H2]. split; [done|]. intros m. rewrite H2.
    destruct (decide (m = n)) as [->|]; [rewrite lookup_insert_eq, Hn|by rewrite lookup_insert_ne].
    split; intros (? & [= <-] & H3 & H4); eexists; (split; [done|]); by rewrite ?Hh, ?Hrm in *.
  - apply (wf_nsheads _ _ _ _ W).
  - apply (wf_sub _ _ _ _ W).
  - apply (wf_ids _ _ _ _ W).
Qed.

(** A namespace that is no longer among the siblings goes; its reference to the head is left. *)
Lemma wf_delete_ns base xh xn s n r : wf base xh xn s → nss s !! n = Some r → n_removing r = true →
  wf base (at_ (n_head r) (xh (n_head r) + 1) xh) (at_ n 0 xn) (Subsys (s_ref s) (nsheads s) (heads s) (delete n (nss s))).
Proof.
  intros W Hn Hrm. split; cbn [heads s_ref nsheads nss].
  - intros n' r' [Hne H]%lookup_delete_Some. unfold at_. rewrite decide_False by congruence. by apply (wf_ns _ _ _ _ W).
  - intros h hd Hd. destruct (wf_ref _ _ _ _ W h hd Hd) as (H1 & H2 & H3). rewrite (refs_delete h n r _ Hn) in H1.
    unfold at_. destruct (decide (h = n_head r)) as [->|]; [rewrite decide_True in H1 by done|rewrite decide_False in H1 by done]; lia.
  - intros h hd Hd. destruct (wf_list _ _ _ _ W h hd Hd) as [H1 H2]. split; [done|]. intros m. rewrite H2. split.
    + intros (r' & H3 & H4 & H5). exists r'. split; [|done]. apply lookup_delete_Some. split; [|done]. intros <-. congruence.
    + intros (r' & [_ H3]%lookup_delete_Some & H4). by exists r'.
  - apply (wf_nsheads _ _ _ _ W).
  - apply (wf_sub _ _ _ _ W).
  - apply (wf_ids _ _ _ _ W).
Qed.

(** Giving back a head does not look at the namespaces. *)
Lemma put_head_frame h a b c m m' s' : nvme_put_ns_head h (Subsys a b c m) = Ok (tt, s') →
  nvme_put_ns_head h (Subsys a b c m') = Ok (tt, Subsys (s_ref s') (nsheads s') (heads s') m') ∧ nss s' = m.
Proof.
  unfold nvme_put_ns_head, mbind, ST_bind, head_at. cbn [heads]. destruct (c !! h) as [hd|]; [|done].
  destruct (h_ref hd =? 1); unfold nvme_free_ns_head, add_ref, set_heads, mbind, ST_bind; intros [= <-]; done.
Qed.

Lemma put_ns_wf base xh xn s n r : wf base xh xn s → nss s !! n = Some r → 0 < xn n →
  ∃ s', nvme_put_ns n s = Ok (tt, s') ∧ wf base xh (at_ n (xn n - 1) xn) s' ∧
    nss s' !! n = (if n_kref r =? 1 then None else Some (with_kref (n_kref r - 1) r)).
Proof.
  intros W Hn Hx. destruct (wf_ns _ _ _ _ W n r Hn) as (Hh & Hk & Hk0 & Ho & _).
  unfold nvme_put_ns, mbind, ST_bind, ns_at. rewrite Hn. destruct (Z.eqb_spec (n_kref r) 1) as [E|E].
  - assert (n_removing r = true ∧ xn n = 1) as [Hrm Hx1] by (destruct (n_removing r), (n_cdev_live r); lia).
    pose proof (wf_delete_ns _ _ _ _ _ _ W Hn Hrm) as W'.
    destruct (put_head_wf _ _ _ _ (n_head r) W') as (s' & Hp & W2 & Hns); [done|unfold at_; rewrite decide_True by done|].
    { destruct Hh as [hd Hh]. destruct (wf_ref _ _ _ _ W _ _ Hh). lia. }
    cbn [nss] in Hns. destruct s as [a b c m]. cbn [s_ref nsheads heads nss] in *.
    destruct (put_head_frame _ _ _ _ _ m _ Hp) as [Hp' _].
    unfold nvme_free_ns, mbind, ST_bind. rewrite Hp'. unfold set_nss. cbn [s_ref nsheads heads nss].
    eexists. split; [done|]. cbn [nss]. rewrite <- Hns. split; [|rewrite Hns; apply lookup_delete_eq].
    replace (Subsys (s_ref s') (nsheads s') (heads s') (nss s')) with s' by (by destruct s').
    eapply wf_ext; [exact W2| |].
    + intros h. unfold at_. destruct (decide (h = n_head r)) as [->|]; [rewrite decide_True by done; lia|done].
    + intros k. unfold at_. by rewrite Hx1.
  - unfold set_nss. eexists. split; [done|]. cbn [nss]. split; [|apply lookup_insert_eq].
    apply (wf_set_ns _ _ _ _ _ r); [done|done|done|done|cbn; lia|cbn; lia|done|lia].
Qed.

Definition mark (r : nvme_ns) : nvme_ns := NsR (n_head r) (n_kref r) true (n_cdev_live r) (n_open r).

Lemma unlink_frame n h a b c m m' s' : unlink_ns n h (Subsys a b c m) = Ok (tt, s') →
  unlink_ns n h (Subsys a b c m') = Ok (tt, Subsys (s_ref s') (nsheads s') (heads s') m') ∧ nss s' = m.
Proof.
  unfold unlink_ns, mbind, ST_bind, head_at. cbn [heads]. destruct (c !! h) as [hd|]; [|done].
  unfold set_heads. cbn [s_ref nsheads heads nss]. case_bool_decide; unfold set_list, mret, ST_ret; intros [= <-]; done.
Qed.

Lemma filter_without (n : nat) l m : m ∈ List.filter (λ m, negb (m =? n)%nat) l ↔ m ∈ l ∧ m ≠ n.
Proof. rewrite !list_elem_of_In, filter_In, negb_true_iff, Nat.eqb_neq. done. Qed.
Lemma filter_NoDup (f : nat → bool) l : NoDup l → NoDup (List.filter f l).
Proof. rewrite !base.NoDup_ListNoDup. apply List.NoDup_filter. Qed.

(** A namespace leaves its head. *)
Lemma unlink_wf base xh xn s n r : wf base xh xn s → nss s !! n = Some r → n_removing r = false →
  ∃ s', unlink_ns n (n_head r) (Subsys (s_ref s) (nsheads s) (heads s) (<[n := mark r]> (nss s))) = Ok (tt, s') ∧
    wf base xh (at_ n (xn n + 1) xn) s' ∧ nss s' = <[n := mark r]> (nss s) ∧ ∀ h, is_Some (heads s !! h) → is_Some (heads s' !! h).
Proof.
  intros W Hn Hrm. destruct (wf_ns _ _ _ _ W n r Hn) as ([hd Hh] & Hk & Hk0 & Ho & Hx). rewrite Hrm in Hk.
  unfold unlink_ns, mbind, ST_bind, head_at. cbn [heads]. rewrite Hh. unfold set_heads. cbn [s_ref nsheads heads nss].
  set (h := n_head r) in *. set (l := List.filter _ (h_list hd)).
  destruct (wf_list _ _ _ _ W h hd Hh) as [L1 L2]. destruct (wf_nsheads _ _ _ _ W) as [N1 N2].
  assert (h ∈ nsheads s) as Hin.
  { apply N2. exists hd. split; [done|]. assert (n ∈ h_list hd) as Hi by (apply L2; by exists r). by destruct (h_list hd); [apply elem_of_nil in Hi|]. }
  set (b' := if bool_decide (l = []) then List.filter (λ m, negb (m =? h)%nat) (nsheads s) else nsheads s).
  exists (Subsys (s_ref s) b' (<[h := with_list l hd]> (heads s)) (<[n := mark r]> (nss s))).
  split; [subst b'; by case_bool_decide|]. split; [|split; [done|]].
  2:{ intros h' Hh'. destruct (decide (h' = h)) as [->|]; cbn [heads]; [by rewrite lookup_insert_eq|by rewrite lookup_insert_ne]. }
  assert (∀ h', h' ∈ b' → h' ∈ nsheads s) as Hsub.
  { intros h'. subst b'. case_bool_decide; [|done]. by intros [? _]%filter_without. }
  split; cbn [heads s_ref nsheads nss].
  - intros n' r0. unfold at_. destruct (decide (n' = n)) as [->|].
    + rewrite lookup_insert_eq. intros [= <-]. cbn. fold h. rewrite lookup_insert_eq. split; [done|]. lia.
    + rewrite lookup_insert_ne by done. intros H0. destruct (wf_ns _ _ _ _ W n' r0 H0) as [H1 H2]. split; [|done].
      destruct (decide (h = n_head r0)) as [E0|]; [rewrite <- E0, lookup_insert_eq; by eexists|by rewrite lookup_insert_ne].
  - intros h' hd' H0. rewrite (refs_update h' n r) by done. destruct (decide (h' = h)) as [->|].
    + rewrite lookup_insert_eq in H0. injection H0 as <-. apply (wf_ref _ _ _ _ W h hd Hh).
    + rewrite lookup_insert_ne in H0 by done. by apply (wf_ref _ _ _ _ W).
  - intros h' hd' H0. assert (∀ m, (∃ r0, <[n := mark r]> (nss s) !! m = Some r0 ∧ n_head r0 = h' ∧ n_removing r0 = false) ↔
      (∃ r0, nss s !! m = Some r0 ∧ n_head r0 = h' ∧ n_removing r0 = false) ∧ m ≠ n) as Hm.
    { intros m. destruct (decide (m = n)) as [->|].
      - rewrite lookup_insert_eq. split; [intros (? & [= <-] & _ & ?); done|intros [_ ?]; done].
      - rewrite lookup_insert_ne by done. naive_solver. }
    destruct (decide (h' = h)) as [->|].
    + rewrite lookup_insert_eq in H0. injection H0 as <-. cbn [with_list h_list]. split; [by apply filter_NoDup|].
      intros m. unfold l. by rewrite Hm, <- L2, filter_without.
    + rewrite lookup_insert_ne in H0 by done. destruct (wf_list _ _ _ _ W h' hd' H0) as [L1' L2']. split; [done|].
      intros m. rewrite Hm, L2'. split; [|by intros [? _]]. intros (r0 & H1 & H2 & H3). split; [by exists r0|].
      intros ->. rewrite Hn in H1. injection H1 as <-. done.
  - split; [subst b'; case_bool_decide; [by apply filter_NoDup|done]|]. intros h'. destruct (decide (h' = h)) as [->|].
    + rewrite lookup_insert_eq. subst b'. case_bool_decide as El.
      * rewrite filter_without. split; [by intros [_ ?]|]. intros (? & [= <-] & H2). by destruct H2.
      * split; [|done]. intros _. by eexists.
    + rewrite lookup_insert_ne by done. rewrite <- N2. subst b'. case_bool_decide; [|done]. rewrite filter_without. naive_solver.
  - rewrite map_size_insert_Some by done. by apply (wf_sub _ _ _ _ W).
  - assert (∀ h' hd', <[h := with_list l hd]> (heads s) !! h' = Some hd' → ∃ hd0, heads s !! h' = Some hd0 ∧ h_ids hd' = h_ids hd0) as Hs.
    { intros h' hd' H. destruct (decide (h' = h)) as [->|].
      - rewrite lookup_insert_eq in H. injection H as <-. by exists hd.
      - rewrite lookup_insert_ne in H by done. by exists hd'. }
    intros h1 h2 d1 d2 M1%Hsub M2%Hsub (e1 & H1 & ->)%Hs (e2 & H2 & ->)%Hs. by apply (wf_ids _ _ _ _ W).
Qed.

Lemma wf_none base xn s n : wf base none (at_ n 0 xn) s → (∀ k, k ≠ n → xn k = 0) → wf base none none s.
Proof. intros W H. eapply wf_ext; [exact W|done|]. intros k. unfold at_. destruct (decide (k = n)); [done|by apply H]. Qed.

Lemma remove_wf base s n r : wf base none none s → nss s !! n = Some r →
  ∃ s', nvme_ns_remove n s = Ok (tt, s') ∧ wf base none none s'.
Proof.
  intros W Hn. unfold nvme_ns_remove, mbind, ST_bind, ns_at at 1. rewrite Hn. destruct (n_removing r) eqn:Er; [by exists s|].
  unfold set_nss at 1. fold (mark r). destruct (unlink_wf _ _ _ _ _ _ W Hn Er) as (s1 & -> & W1 & Hn1 & _).
  assert (nss s1 !! n = Some (mark r)) as Hm by (rewrite Hn1; apply lookup_insert_eq).
  destruct (wf_ns _ _ _ _ W1 n _ Hm) as (_ & Hk & Hk0 & Ho & _). cbn in Hk, Hk0, Ho. unfold at_ in Hk. rewrite decide_True in Hk by done.
  destruct (n_cdev_live r) eqn:Ec.
  - unfold set_cdev_live, mbind, ST_bind, ns_at at 1. rewrite Hm. unfold set_nss at 1. cbn [mark n_head n_kref n_removing n_open].
    set (r2 := NsR _ _ true false _).
    assert (wf base none (at_ n 2 (at_ n 1 none)) (Subsys (s_ref s1) (nsheads s1) (heads s1) (<[n := r2]> (nss s1)))) as W2.
    { apply (wf_set_ns _ _ _ _ _ (mark r)); [done|done|done|done|cbn; lia|cbn; lia|done|lia]. }
    unfold nvme_cdev_rel. destruct (put_ns_wf _ _ _ _ n r2 W2) as (s3 & -> & W3 & H3); [apply lookup_insert_eq|by unfold at_; rewrite decide_True|].
    destruct (Z.eqb_spec (n_kref r2) 1) as [E|E]; [cbn in E; lia|].
    destruct (put_ns_wf _ _ _ _ n _ W3 H3) as (s4 & -> & W4 & _); [unfold at_; rewrite !decide_True by done; lia|].
    exists s4. split; [done|]. eapply wf_ext; [exact W4|done|]. intros k. unfold at_. by destruct (decide (k = n)) as [->|]; [rewrite !decide_True by done|].
  - destruct (put_ns_wf _ _ _ _ n _ W1 Hm) as (s4 & Hp & W4 & _); [unfold at_; rewrite decide_True by done; lia|].
    exists s4. split; [exact Hp|]. eapply wf_ext; [exact W4|done|]. intros k. unfold at_. by destruct (decide (k = n)) as [->|]; [rewrite !decide_True by done|].
Qed.

Lemma get_ns_wf base s n r : wf base none none s → nss s !! n = Some r →
  ∃ s', nvme_get_ns n s = Ok (true, s') ∧ wf base none (at_ n 1 none) s' ∧ nss s' !! n = Some (with_kref (n_kref r + 1) r).
Proof.
  intros W Hn. destruct (wf_ns _ _ _ _ W n r Hn) as (_ & Hk & Hk0 & Ho & _).
  unfold nvme_get_ns, mbind, ST_bind, ns_at. rewrite Hn. destruct (Z.eqb_spec (n_kref r) 0); [lia|].
  unfold set_nss, mret, ST_ret. eexists. split; [done|]. cbn [nss]. split; [|apply lookup_insert_eq].
  apply (wf_set_ns _ _ _ _ _ r); [done|done|done|done|cbn; lia|cbn; lia|done|lia].
Qed.

Lemma open_wf base s n r ok : wf base none none s → nss s !! n = Some r →
  ∃ ret s', nvme_ns_open ok n s = Ok (ret, s') ∧ wf base none none s'.
Proof.
  intros W Hn. destruct (get_ns_wf _ _ _ _ W Hn) as (s1 & H1 & W1 & Hn1).
  unfold nvme_ns_open, mbind, ST_bind at 1. unfold ST_bind at 1. rewrite H1. cbn [negb].
  destruct (wf_ns _ _ _ _ W1 n _ Hn1) as (_ & Hk & Hk0 & Ho & _). unfold at_ in Hk. rewrite decide_True in Hk by done. cbn in Hk, Hk0, Ho.
  destruct ok; cbn [negb].
  - unfold set_open, mbind, ST_bind, ns_at. rewrite Hn1. unfold set_nss, mret, ST_ret. eexists _, _. split; [done|].
    apply (wf_none _ (at_ n 1 none) _ n); [|intros k Hne; unfold at_; by rewrite decide_False].
    apply (wf_set_ns _ _ _ _ _ (with_kref (n_kref r + 1) r)); [done|done|done|done|cbn; lia|cbn; lia|cbn; lia|lia].
  - destruct (put_ns_wf _ _ _ _ n _ W1 Hn1) as (s2 & H2 & W2 & _); [by unfold at_; rewrite decide_True|].
    unfold ST_bind. rewrite H2. eexists _, s2. split; [done|]. unfold at_ in W2. eapply wf_ext; [exact W2|done|]. intros k. cbn.
    destruct (decide (k = n)) as [->|]; [by rewrite decide_True|done].
Qed.

Lemma release_wf base s n r : wf base none none s → nss s !! n = Some r → 0 < n_open r →
  ∃ s', nvme_ns_release n s = Ok (tt, s') ∧ wf base none none s'.
Proof.
  intros W Hn Ho. destruct (wf_ns _ _ _ _ W n r Hn) as (_ & Hk & Hk0 & _).
  unfold nvme_ns_release, mbind, ST_bind at 1. unfold set_open, mbind, ST_bind at 1, ns_at. rewrite Hn. unfold set_nss.
  set (r1 := NsR _ _ _ _ _).
  assert (wf base none (at_ n 1 none) (Subsys (s_ref s) (nsheads s) (heads s) (<[n := r1]> (nss s)))) as W1.
  { apply (wf_set_ns _ _ _ _ _ r); [done|done|done|done|cbn; lia|cbn; lia|cbn; lia|lia]. }
  destruct (put_ns_wf _ _ _ _ n r1 W1) as (s2 & H2 & W2 & _); [apply lookup_insert_eq|by unfold at_; rewrite decide_True|].
  exists s2. split; [exact H2|]. eapply wf_ext; [exact W2|done|]. intros k. unfold at_. by destruct (decide (k = n)) as [->|]; [rewrite decide_True|].
Qed.

(** ** A new namespace *)

(** What joining a head makes of the subsystem: an existing head with one more namespace, or a
    new one whose identifiers no other has. *)
Inductive joined (n h : nat) (s : nvme_subsystem) : nat → nvme_subsystem → Prop :=
| joined_old hx hd : hx ∈ nsheads s → heads s !! hx = Some hd →
    joined n h s hx (Subsys (s_ref s) (nsheads s) (<[hx := with_list (h_list hd ++ [n]) (with_ref (h_ref hd + 1) hd)]> (heads s)) (nss s))
| joined_new nsid ids shared : nvme_subsys_check_duplicate_ids s ids = 0 →
    joined n h s h (Subsys (s_ref s + 1) (nsheads s ++ [h]) (<[h := Hd nsid ids shared 1 [n]]> (heads s)) (nss s)).

Lemma find_head_cases u nsid s :
  nvme_find_ns_head u nsid s = Ok (None, s) ∨
  ∃ h hd, h ∈ nsheads s ∧ heads s !! h = Some hd ∧
    nvme_find_ns_head u nsid s = Ok (Some h, Subsys (s_ref s) (nsheads s) (<[h := with_ref (h_ref hd + 1) hd]> (heads s)) (nss s)).
Proof.
  unfold nvme_find_ns_head. destruct (List.find _ _) as [h|] eqn:E; [|by left]. right. apply find_some in E as [Hin Hf].
  apply list_elem_of_In in Hin. destruct (heads s !! h) as [hd|] eqn:Eh; [|done].
  exists h, hd. split; [done|]. split; [done|]. unfold mbind, ST_bind, head_at. rewrite Eh. done.
Qed.

(** A reference that is taken and given back. *)
Lemma take_and_put h hd s : heads s !! h = Some hd → 0 < h_ref hd →
  nvme_put_ns_head h (Subsys (s_ref s) (nsheads s) (<[h := with_ref (h_ref hd + 1) hd]> (heads s)) (nss s)) = Ok (tt, s).
Proof.
  intros Hh Hr. unfold nvme_put_ns_head, mbind, ST_bind, head_at. cbn [heads]. rewrite lookup_insert_eq. cbn [with_ref h_ref].
  destruct (Z.eqb_spec (h_ref hd + 1) 1); [lia|]. unfold set_heads. cbn [s_ref nsheads heads nss]. rewrite insert_insert_eq.
  replace (h_ref hd + 1 - 1) with (h_ref hd) by lia.
  replace (with_ref (h_ref hd) _) with hd by (by destruct hd). rewrite insert_id by done. by destruct s.
Qed.

Lemma init_head_cases base e n h info s : wf base none none s → heads s !! h = None →
  ∃ res s', nvme_init_ns_head e n h info s = Ok (res, s') ∧ match res with Err _ => s' = s | Ok hx => joined n h s hx s' end.
Proof.
  intros W Hf. unfold nvme_init_ns_head. destruct (_ && _); [by eexists _, _|].
  set (info' := if negb _ then _ else info). unfold mbind, ST_bind at 1.
  destruct (find_head_cases (unique_nsid e) (i_nsid info') s) as [->|(hx & hd & Hin & Hh & ->)].
  - unfold ST_bind at 1. unfold mbind, ST_bind at 1, Prelude.get. destruct (Z.eqb_spec (nvme_subsys_check_duplicate_ids s (i_ids info')) 0) as [E|E];
      cbn [negb]; [|by eexists _, _].
    unfold nvme_alloc_ns_head. destruct (Z.eqb_spec (alloc_ns_head_log e (csi (i_ids info'))).1 0); cbn [negb]; [|by eexists _, _].
    unfold mbind, ST_bind, set_heads, set_list, add_ref, mret, ST_ret, head_at. cbn [heads s_ref nsheads nss]. rewrite lookup_insert_eq.
    eexists _, _. split; [done|]. cbn [with_list h_list h_nsid h_ids h_shared h_ref app s_ref nsheads heads nss].
    rewrite insert_insert_eq. by apply joined_new.
  - destruct (wf_ref _ _ _ _ W hx hd Hh) as (_ & Hr & _). unfold ST_bind at 1. unfold mbind, ST_bind at 1, head_at at 1. cbn [heads].
    rewrite lookup_insert_eq. pose proof (take_and_put hx hd s Hh Hr) as Hput. set (hd1 := with_ref (h_ref hd + 1) hd) in *.
    destruct (_ && _); [unfold ST_bind; rewrite Hput; by eexists _, _|].
    destruct (nvme_ns_ids_equal _ _); cbn [negb]; [|unfold ST_bind; rewrite Hput; by eexists _, _].
    unfold mret, ST_ret, ST_bind, head_at. cbn [heads]. rewrite lookup_insert_eq. unfold set_heads. cbn [s_ref nsheads heads nss].
    eexists _, _. split; [done|]. cbn [s_ref nsheads heads nss]. rewrite insert_insert_eq. by apply (joined_old n h s hx hd).
Qed.

Lemma refs_none h m : (∀ n r, m !! n = Some r → n_head r ≠ h) → refs h m = 0.
Proof.
  intros H. unfold refs. apply (f_equal Z.of_nat (y := 0%nat)), map_size_empty_iff, map_empty. intros n.
  apply map_lookup_filter_None. right. intros r Hn Hh. by apply (H n r).
Qed.

Lemma common_id_sym a b : common_id a b → common_id b a.
Proof. unfold common_id. intros [[H1 H2]|[[H1 H2]|[H1 H2]]]; rewrite <- H2; auto. Qed.

Lemma check_duplicate_none s ids h hd : nvme_subsys_check_duplicate_ids s ids = 0 → h ∈ nsheads s → heads s !! h = Some hd →
  ¬ common_id ids (h_ids hd).
Proof.
  unfold nvme_subsys_check_duplicate_ids. destruct (existsb _ _) eqn:E; [by intros [=]|]. intros _ Hin Hh Hc.
  apply not_true_iff_false in E. apply E, existsb_exists. exists h. split; [by apply list_elem_of_In|]. rewrite Hh.
  destruct Hc as [[H1 H2]|[[H1 H2]|[H1 H2]]]; rewrite H1, (bool_decide_eq_true_2 _ H2); cbn [negb andb orb]; by rewrite ?orb_true_r.
Qed.

Lemma join_wf base n h s hx s1 : wf base none none s → nss s !! n = None → heads s !! h = None → joined n h s hx s1 →
  wf base none none (Subsys (s_ref s1) (nsheads s1) (heads s1) (<[n := NsR hx 1 false false 0]> (nss s1))).
Proof.
  intros W Hn Hf J.
  assert (∀ m h', (∃ r, <[n := NsR hx 1 false false 0]> (nss s) !! m = Some r ∧ n_head r = h' ∧ n_removing r = false) ↔
    (m = n ∧ h' = hx) ∨ (∃ r, nss s !! m = Some r ∧ n_head r = h' ∧ n_removing r = false)) as Hm.
  { intros m h'. destruct (decide (m = n)) as [->|].
    - rewrite lookup_insert_eq, Hn. split; [intros (? & [= <-] & <- & _); by left|].
      intros [[_ ->]|(? & ? & _)]; [by eexists|done].
    - rewrite lookup_insert_ne by done. naive_solver. }
  assert (∀ h' hd', heads s !! h' = Some hd' → n ∉ h_list hd') as Hnot.
  { intros h' hd' H (r & H1 & _)%(wf_list _ _ _ _ W h' hd' H). congruence. }
  assert (∀ m r, nss s !! m = Some r → n_head r ≠ h) as Hno.
  { intros m r H E. destruct (wf_ns _ _ _ _ W m r H) as [[? H1] _]. congruence. }
  destruct J as [hx hd Hin Hh|nsid ids shared Hc]; split; cbn [s_ref nsheads heads nss].
  - intros n' r. destruct (decide (n' = n)) as [->|].
    + rewrite lookup_insert_eq. intros [= <-]. cbn [n_head n_kref n_removing n_cdev_live n_open]. rewrite lookup_insert_eq. split; [done|]. lia.
    + rewrite lookup_insert_ne by done. intros H. destruct (wf_ns _ _ _ _ W n' r H) as [H1 H2]. split; [|done].
      destruct (decide (n_head r = hx)) as [->|]; [by rewrite lookup_insert_eq|by rewrite lookup_insert_ne].
  - intros h' hd' H. rewrite refs_new by done. cbn [n_head]. destruct (decide (h' = hx)) as [->|].
    + rewrite lookup_insert_eq in H. injection H as <-. destruct (wf_ref _ _ _ _ W hx hd Hh). rewrite decide_True by done.
      cbn [with_list with_ref h_ref]. lia.
    + rewrite lookup_insert_ne in H by done. rewrite decide_False by done. destruct (wf_ref _ _ _ _ W h' hd' H). lia.
  - intros h' hd' H. destruct (decide (h' = hx)) as [->|].
    + rewrite lookup_insert_eq in H. injection H as <-. cbn [with_list h_list]. destruct (wf_list _ _ _ _ W hx hd Hh) as [L1 L2]. split.
      * apply list.NoDup_app. split; [done|]. split; [|apply NoDup_singleton]. intros m Hm1 ->%list_elem_of_singleton. by apply (Hnot hx hd Hh).
      * intros m. rewrite Hm, elem_of_app, list_elem_of_singleton, L2. naive_solver.
    + rewrite lookup_insert_ne in H by done. destruct (wf_list _ _ _ _ W h' hd' H) as [L1 L2]. split; [done|].
      intros m. rewrite Hm, L2. split; [by right|]. intros [[_ ?]|?]; [congruence|done].
  - destruct (wf_nsheads _ _ _ _ W) as [N1 N2]. split; [done|]. intros h'. rewrite N2. destruct (decide (h' = hx)) as [->|]; [|by rewrite lookup_insert_ne].
    rewrite lookup_insert_eq. split.
    + intros _. eexists. split; [done|]. cbn [with_list h_list]. by destruct (h_list hd).
    + intros _. by apply N2.
  - rewrite map_size_insert_Some by done. apply (wf_sub _ _ _ _ W).
  - assert (∀ h' hd', <[hx := with_list (h_list hd ++ [n]) (with_ref (h_ref hd + 1) hd)]> (heads s) !! h' = Some hd' →
      ∃ hd0, heads s !! h' = Some hd0 ∧ h_ids hd' = h_ids hd0) as Hs.
    { intros h' hd' H. destruct (decide (h' = hx)) as [->|].
      - rewrite lookup_insert_eq in H. injection H as <-. by exists hd.
      - rewrite lookup_insert_ne in H by done. by exists hd'. }
    intros h1 h2 d1 d2 M1 M2 (e1 & H1 & ->)%Hs (e2 & H2 & ->)%Hs. by apply (wf_ids _ _ _ _ W).
  - intros n' r. destruct (decide (n' = n)) as [->|].
    + rewrite lookup_insert_eq. intros [= <-]. cbn [n_head n_kref n_removing n_cdev_live n_open]. rewrite lookup_insert_eq. split; [done|]. lia.
    + rewrite lookup_insert_ne by done. intros H. destruct (wf_ns _ _ _ _ W n' r H) as [H1 H2]. split; [|done].
      rewrite lookup_insert_ne; [done|]. intros E. rewrite <- E, Hf in H1. by destruct H1.
  - intros h' hd' H. rewrite refs_new by done. cbn [n_head]. destruct (decide (h' = h)) as [->|].
    + rewrite lookup_insert_eq in H. injection H as <-. rewrite decide_True, (refs_none h) by (done || by apply Hno). cbn [h_ref]. lia.
    + rewrite lookup_insert_ne in H by done. rewrite decide_False by done. destruct (wf_ref _ _ _ _ W h' hd' H). lia.
  - intros h' hd' H. destruct (decide (h' = h)) as [->|].
    + rewrite lookup_insert_eq in H. injection H as <-. cbn [h_list]. split; [apply NoDup_singleton|].
      intros m. rewrite Hm, list_elem_of_singleton. split; [by left|]. intros [[? _]|(r & H1 & H2 & _)]; [done|].
      by destruct (Hno m r H1).
    + rewrite lookup_insert_ne in H by done. destruct (wf_list _ _ _ _ W h' hd' H) as [L1 L2]. split; [done|].
      intros m. rewrite Hm, L2. split; [by right|]. intros [[_ ?]|?]; [congruence|done].
  - destruct (wf_nsheads _ _ _ _ W) as [N1 N2]. split.
    + apply list.NoDup_app. split; [done|]. split; [|apply NoDup_singleton]. intros m Hm1 ->%list_elem_of_singleton.
      apply N2 in Hm1 as (? & ? & _). congruence.
    + intros h'. rewrite elem_of_app, list_elem_of_singleton, N2. destruct (decide (h' = h)) as [->|].
      * rewrite lookup_insert_eq. split; [|by right]. intros _. by eexists.
      * rewrite lookup_insert_ne by done. split; [intros [?|?]; done|by left].
  - rewrite map_size_insert_None by done. rewrite (wf_sub _ _ _ _ W). lia.
  - destruct (wf_nsheads _ _ _ _ W) as [_ N2]. intros h1 h2 d1 d2 M1 M2 H1 H2 Hne.
    apply elem_of_app in M1 as [M1| ->%list_elem_of_singleton]; apply elem_of_app in M2 as [M2| ->%list_elem_of_singleton].
    + rewrite lookup_insert_ne in H1 by (intros <-; apply N2 in M1 as (? & ? & _); congruence).
      rewrite lookup_insert_ne in H2 by (intros <-; apply N2 in M2 as (? & ? & _); congruence). by apply (wf_ids _ _ _ _ W h1 h2).
    + rewrite lookup_insert_eq in H2. injection H2 as <-. rewrite lookup_insert_ne in H1 by congruence. cbn [h_ids].
      intros Hx%common_id_sym. by apply (check_duplicate_none _ _ _ _ Hc M1 H1).
    + rewrite lookup_insert_eq in H1. injection H1 as <-. rewrite lookup_insert_ne in H2 by congruence. cbn [h_ids].
      by apply (check_duplicate_none _ _ _ _ Hc M2 H2).
    + done.
Qed.

Lemma filter_all (n : nat) l : n ∉ l → List.filter (λ m, negb (m =? n)%nat) l = l.
Proof.
  induction l as [|x l IH]; [done|]. rewrite not_elem_of_cons. intros [H1 H2]. cbn [List.filter].
  destruct (Nat.eqb_spec x n); [congruence|]. cbn [negb]. by rewrite IH.
Qed.
Lemma filter_snoc (n : nat) l : n ∉ l → List.filter (λ m, negb (m =? n)%nat) (l ++ [n]) = l.
Proof. intros H. rewrite List.filter_app, filter_all by done. cbn [List.filter]. by rewrite Nat.eqb_refl, app_nil_r. Qed.

(** The error path after the head was joined restores the subsystem. *)
Lemma undo_join base n h s hx s1 : wf base none none s → nss s !! n = None → heads s !! h = None → joined n h s hx s1 →
  (unlink_ns n hx;; nvme_put_ns_head hx;; set_nss (delete n))
    (Subsys (s_ref s1) (nsheads s1) (heads s1) (<[n := NsR hx 1 false false 0]> (nss s1))) = Ok (tt, s).
Proof.
  intros W Hn Hf J. destruct (wf_nsheads _ _ _ _ W) as [_ N2].
  destruct J as [hx hd Hin Hh|nsid ids shared Hc]; unfold unlink_ns, nvme_put_ns_head, mbind, ST_bind, head_at, set_heads, set_list, set_nss;
    cbn [s_ref nsheads heads nss]; rewrite lookup_insert_eq; cbn [with_list with_ref h_list].
  - destruct (wf_list _ _ _ _ W hx hd Hh) as [_ L2]. destruct (wf_ref _ _ _ _ W hx hd Hh) as (_ & Hr & _).
    rewrite filter_snoc by (intros (r & H & _)%L2; congruence).
    apply N2 in Hin as (hd' & H & Hl). rewrite Hh in H. injection H as <-. rewrite bool_decide_eq_false_2 by done.
    unfold mret, ST_ret. cbn [s_ref nsheads heads nss]. rewrite lookup_insert_eq. cbn [h_ref with_ref with_list h_nsid h_ids h_shared h_list].
    destruct (Z.eqb_spec (h_ref hd + 1) 1); [lia|]. cbn [s_ref nsheads heads nss].
    rewrite !insert_insert_eq, delete_insert_id by done. replace (h_ref hd + 1 - 1) with (h_ref hd) by lia.
    rewrite insert_id by (rewrite Hh; by destruct hd). by destruct s.
  - cbn [List.filter]. rewrite Nat.eqb_refl. cbn [negb]. rewrite bool_decide_eq_true_2 by done. cbn [s_ref nsheads heads nss].
    rewrite lookup_insert_eq. cbn [h_ref with_list Z.eqb Pos.eqb]. unfold nvme_free_ns_head, mbind, ST_bind, add_ref, set_heads. cbn [s_ref nsheads heads nss].
    rewrite filter_snoc by (intros (? & ? & _)%N2; congruence). rewrite insert_insert_eq, !delete_insert_id by done.
    replace (s_ref s + 1 + -1) with (s_ref s) by lia. by destruct s.
Qed.

(** The registration of the character device does not fail after the device was set up. *)
Definition cdev_registers (e : alloc_env) : bool := (minor_ret e <? 0) || negb (name_ret e =? 0) || (cdev_ret e =? 0).

Lemma add_cdev_wf base e n s r : wf base none none s → nss s !! n = Some r → n_cdev_live r = false → cdev_registers e = true →
  ∃ s', nvme_add_ns_cdev e n s = Ok (tt, s') ∧ wf base none none s'.
Proof.
  intros W Hn Hc He. destruct (get_ns_wf _ _ _ _ W Hn) as (s1 & H1 & W1 & Hn1).
  unfold nvme_add_ns_cdev, mbind, ST_bind at 1. rewrite H1. unfold ST_bind at 1.
  assert (∃ ret, nvme_cdev_add e n s1 = Ok (ret, s1)) as [ret ->].
  { unfold nvme_cdev_add, cdev_registers in *. destruct (minor_ret e <? 0); [by eexists|].
    destruct (name_ret e =? 0); cbn [negb orb] in *; [|by eexists]. rewrite He. by eexists. }
  destruct (wf_ns _ _ _ _ W1 n _ Hn1) as (_ & Hk & Hk0 & Ho & _). unfold at_ in Hk. rewrite decide_True in Hk by done.
  destruct (Z.eqb_spec ret 0); cbn [negb].
  - unfold set_cdev_live, mbind, ST_bind, ns_at. rewrite Hn1. unfold set_nss. eexists. split; [done|].
    apply (wf_none _ (at_ n 1 none) _ n); [|intros k Hne; unfold at_; by rewrite decide_False].
    cbn [with_kref n_head n_kref n_removing n_cdev_live n_open] in *. rewrite Hc in Hk.
    apply (wf_set_ns _ _ _ _ _ (with_kref (n_kref r + 1) r)); [done|done|done|done|cbn; lia|cbn; lia|cbn; lia|lia].
  - destruct (put_ns_wf _ _ _ _ n _ W1 Hn1) as (s2 & H2 & W2 & _); [by unfold at_; rewrite decide_True|].
    exists s2. split; [exact H2|]. eapply wf_ext; [exact W2|done|]. intros k. unfold at_. by destruct (decide (k = n)) as [->|]; [rewrite decide_True|].
Qed.

Lemma alloc_wf base e n h info s : wf base none none s → nss s !! n = None → heads s !! h = None → cdev_registers e = true →
  ∃ res s', nvme_alloc_ns e n h info s = Ok (res, s') ∧ wf base none none s' ∧ (res = None → s' = s).
Proof.
  intros W Hn Hf He. unfold nvme_alloc_ns. destruct (ns_mem e); cbn [negb]; [|by eexists _, _].
  destruct (disk_ok e); cbn [negb]; [|by eexists _, _]. unfold mbind, ST_bind at 1.
  destruct (init_head_cases base e n h info s W Hf) as (res & s1 & -> & H). destruct res as [hx|err]; [|subst s1; by eexists _, _].
  unfold ST_bind at 1. unfold set_nss at 1. pose proof (undo_join _ _ _ _ _ _ W Hn Hf H) as Hundo. pose proof (join_wf _ _ _ _ _ _ W Hn Hf H) as W1.
  destruct (_ || _).
  - exists None, s. split; [|done]. unfold mbind, ST_bind, mret, ST_ret in *.
    destruct (unlink_ns n hx _) as [[[] s2]|]; [|done]. destruct (nvme_put_ns_head hx s2) as [[[] s3]|]; [|done].
    destruct (set_nss (delete n) s3) as [[[] s4]|]; [|done]. by injection Hundo as ->.
  - destruct (add_cdev_wf _ e n _ _ W1 (lookup_insert_eq _ _ _) eq_refl He) as (s2 & H2 & W2).
    unfold ST_bind. rewrite H2. eexists _, s2. split; [done|]. split; [done|]. done.
Qed.

(** ** Reachable states *)

Definition fresh_subsys (base : Z) : nvme_subsystem := Subsys base [] ∅ ∅.

Inductive step (s : nvme_subsystem) : nvme_subsystem → Prop :=
| step_alloc e n h info res s' : nss s !! n = None → heads s !! h = None → cdev_registers e = true →
    nvme_alloc_ns e n h info s = Ok (res, s') → step s s'
| step_remove n s' : is_Some (nss s !! n) → nvme_ns_remove n s = Ok (tt, s') → step s s'
| step_open ok n ret s' : is_Some (nss s !! n) → nvme_ns_open ok n s = Ok (ret, s') → step s s'
| step_release n r s' : nss s !! n = Some r → 0 < n_open r → nvme_ns_release n s = Ok (tt, s') → step s s'.

Lemma fresh_wf base : wf base none none (fresh_subsys base).
Proof.
  split; cbn [fresh_subsys s_ref nsheads heads nss].
  - intros n r H. by rewrite lookup_empty in H.
  - intros h hd H. by rewrite lookup_empty in H.
  - intros h hd H. by rewrite lookup_empty in H.
  - split; [constructor|]. intros h. split; [by intros H%elem_of_nil|]. intros (? & H & _). by rewrite lookup_empty in H.
  - rewrite map_size_empty. lia.
  - intros h h' hd hd' H. by apply elem_of_nil in H.
Qed.

Lemma step_wf base s s' : wf base none none s → step s s' → wf base none none s'.
Proof.
  intros W [e n h info res s1 H1 H2 H3 H4|n s1 [r H1] H2|ok n ret s1 [r H1] H2|n r s1 H1 H2 H3].
  - destruct (alloc_wf _ e n h info s W H1 H2 H3) as (? & ? & H & W' & _). rewrite H4 in H. by injection H as -> ->.
  - destruct (remove_wf _ _ _ _ W H1) as (? & H & W'). rewrite H2 in H. by injection H as ->.
  - destruct (open_wf _ _ _ _ ok W H1) as (? & ? & H & W'). rewrite H2 in H. by injection H as -> ->.
  - destruct (release_wf _ _ _ _ W H1 H2) as (? & H & W'). rewrite H3 in H. by injection H as ->.
Qed.

Lemma reachable_wf base s : rtc step (fresh_subsys base) s → wf base none none s.
Proof.
  intros H. remember (fresh_subsys base) as s0 eqn:E. assert (wf base none none s0) as W by (subst; apply fresh_wf). clear E.
  induction H as [|x y z Hxy Hyz IH]; [done|]. apply IH. by eapply step_wf.
Qed.

(** C22. Lifetime of namespaces.  In every state that set-ups, removals, opens and closes of
    namespaces lead to (when no registered character device fails): a head has exactly as many
    references as namespaces and is on the list exactly while one of them is not being
    removed; a namespace has one reference for the controller, one for its character
    device and one for each handle; the subsystem has one for each head; and no two
    heads on the list carry a common identifier.  From such a state none of the
    operations uses something that was freed, and a set-up that fails leaves the state
    as it was. *)
Theorem nvme_heads_counted (base : Z) (s : nvme_subsystem) (H : rtc step (fresh_subsys base) s) :
  wf base none none s ∧
  (∀ e n h info, nss s !! n = None → heads s !! h = None → cdev_registers e = true →
     ∃ res s', nvme_alloc_ns e n h info s = Ok (res, s') ∧ (res = None → s' = s)) ∧
  (∀ n r ok, nss s !! n = Some r →
     is_ok (nvme_ns_remove n s) = true ∧ is_ok (nvme_ns_open ok n s) = true ∧
     (0 < n_open r → is_ok (nvme_ns_release n s) = true)).
Proof.
  apply reachable_wf in H as W. split; [done|]. split.
  - intros e n h info H1 H2 H3. destruct (alloc_wf _ e n h info s W H1 H2 H3) as (res & s' & H4 & _ & H5). by exists res, s'.
  - intros n r ok Hn. destruct (remove_wf _ _ _ _ W Hn) as (? & -> & _). destruct (open_wf _ _ _ _ ok W Hn) as (? & ? & -> & _).
    repeat split. intros Ho. by destruct (release_wf _ _ _ _ W Hn Ho) as (? & -> & _).
Qed.

Definition env_ok (cdev : Z) : alloc_env :=
  Env true true 0 false false (λ _, true) true 1 0 0 false 0 0 0 false 0 3 0 cdev (λ r, r).
Definition info_ex (i : Z) : nvme_ns_info := Info i (Ids [i] [] [] 0) true.
Lemma nvme_heads_counted_witness :
  ∃ s, rtc step (fresh_subsys 1) s ∧ wf 1 none none s ∧ is_ok (nvme_ns_remove 0 s) = true ∧
    match nvme_ns_remove 0 s with Ok (_, s') => s_ref s' = 1 | Err _ => False end.
Proof.
  set (s := Subsys 2 [7%nat] {[ 7%nat := Hd 1 (Ids [1] [] [] 0) true 1 [0%nat] ]} {[ 0%nat := NsR 7 2 false true 0 ]}).
  assert (rtc step (fresh_subsys 1) s) as Hs.
  { apply rtc_once. apply (step_alloc _ (env_ok 0) 0 7 (info_ex 1) (Some 7%nat)); reflexivity. }
  destruct (nvme_heads_counted 1 s Hs) as (W & _ & H). exists s. split; [exact Hs|]. split; [exact W|].
  split; [|reflexivity]. exact (proj1 (H 0%nat (NsR 7 2 false true 0) true eq_refl)).
Defined.

(** A set-up of a head that fails gives back what it took, one that succeeds holds one of each. *)
Definition held (r : resource) (log : list acquire) : Z :=
  fold_right (λ a n, match a, r with
    | Take HeadMem, HeadMem | Take Instance, Instance | Take Srcu, Srcu | Take Plids, Plids => n + 1
    | Give HeadMem, HeadMem | Give Instance, Instance | Give Srcu, Srcu | Give Plids, Plids => n - 1
    | _, _ => n end) 0 log.
Lemma alloc_ns_head_balanced e csi r : (∀ x, 0 < x → status_errno e x ≠ 0) →
  held r (alloc_ns_head_log e csi).2 = if (alloc_ns_head_log e csi).1 =? 0 then 1 else 0.
Proof.
  intros Hs. assert (∀ x, x ≠ 0 → ((if 0 <? x then status_errno e x else x) =? 0) = false) as Hx.
  { intros x H. apply Z.eqb_neq. destruct (Z.ltb_spec 0 x); [by apply Hs|done]. }
  unfold alloc_ns_head_log. destruct (head_mem e); cbn [negb]; [|by destruct r].
  destruct (Z.ltb_spec (ida_ret e) 0); [cbn [fst snd]; rewrite Hx by lia; by destruct r|].
  destruct (Z.eqb_spec (srcu_ret e) 0); cbn [negb]; [|cbn [fst snd]; rewrite Hx by done; by destruct r].
  destruct (negb (csi =? 0) && negb (effects_ret e =? 0)) eqn:E1; [boolprop; cbn [fst snd]; rewrite Hx by done; by destruct r|].
  destruct (fdps e && (fdp_ret e <? 0)) eqn:E2; [boolprop; cbn [fst snd]; rewrite Hx by lia; by destruct r|].
  destruct (Z.eqb_spec (mpath_ret e) 0); cbn [negb fst snd]; [by destruct r|]. rewrite Hx by done. by destruct r.
Qed.

(** When the character device fails to register, its release function gives back the reference
    of the namespace, and the caller gives it back again: the namespace is freed while it
    is on the lists. *)
Lemma cdev_failure_frees_namespace :
  ∃ s, nvme_alloc_ns (env_ok (- ENOMEM)) 0 7 (info_ex 1) (fresh_subsys 1) = Ok (Some 7%nat, s) ∧
    nss s !! 0%nat = None ∧ nvme_ns_remove 0 s = Err UseAfterFree.
Proof. eexists. split; [vm_compute; reflexivity|]. split; vm_compute; reflexivity. Qed.
