(* ===== verification/NvmeSubsys.v ===== *)
(** * NVMe core: subsystems and the controllers in them (drivers/nvme/host/core.c)

    Controllers take a number, join the subsystem whose name they report or found a new one,
    and leave it when they are freed.  The list of subsystems, their reference counts, the
    numbers and the lock are the state.  Shown: in every reachable state the counts are
    exact, every number has one owner, names are unique, live controllers of a subsystem
    have different identifiers, and when everything is freed nothing is left. *)

From Stdlib Require Import ZArith Lia Bool.
From stdpp Require Import base numbers list option gmap.
From S2P Require Import Prelude.

Local Open Scope list_scope.
Local Open Scope Z_scope.

Record nvme_ctrl := Ctl { instance : Z; cntlid : Z; terminal : bool; discovery : bool; subsys : option nat }.
(** [s_heads]: how many of the references belong to namespace heads. *)
Record nvme_subsystem := Sub { subnqn : list Z; s_instance : Z; s_kref : Z; s_ctrls : list nat; s_heads : Z }.
Record world := World {
  ida : gset Z; ctrls : gmap nat nvme_ctrl; subs : gmap nat nvme_subsystem; nvme_subsystems : list nat; locked : bool
}.

Inductive subsys_fault := Deadlock | NotLocked | Dangling | FreeTwice.
Abbreviation M := (ST world subsys_fault).

Definition set_ida (f : gset Z → gset Z) : M unit := λ w, Ok (tt, World (f (ida w)) (ctrls w) (subs w) (nvme_subsystems w) (locked w)).
Definition set_ctrls (f : gmap nat nvme_ctrl → gmap nat nvme_ctrl) : M unit :=
  λ w, Ok (tt, World (ida w) (f (ctrls w)) (subs w) (nvme_subsystems w) (locked w)).
Definition set_subs (f : gmap nat nvme_subsystem → gmap nat nvme_subsystem) : M unit :=
  λ w, Ok (tt, World (ida w) (ctrls w) (f (subs w)) (nvme_subsystems w) (locked w)).
Definition set_list (f : list nat → list nat) : M unit :=
  λ w, Ok (tt, World (ida w) (ctrls w) (subs w) (f (nvme_subsystems w)) (locked w)).
Definition sub_at (s : nat) : M nvme_subsystem := λ w, match subs w !! s with Some x => Ok (x, w) | None => Err Dangling end.
Definition ctrl_at (c : nat) : M nvme_ctrl := λ w, match ctrls w !! c with Some x => Ok (x, w) | None => Err Dangling end.

(** [nvme_subsystems_lock] is not recursive. *)
Definition mutex_lock : M unit := λ w,
  if locked w then Err Deadlock else Ok (tt, World (ida w) (ctrls w) (subs w) (nvme_subsystems w) true).
Definition mutex_unlock : M unit := λ w,
  if locked w then Ok (tt, World (ida w) (ctrls w) (subs w) (nvme_subsystems w) false) else Err NotLocked.
Definition ida_free (i : Z) : M unit := λ w,
  if bool_decide (i ∈ ida w) then set_ida (λ x, x ∖ {[i]}) w else Err FreeTwice.

Definition without (s : nat) : list nat → list nat := List.filter (λ m, negb (m =? s)%nat).
Definition with_sref (v : Z) (x : nvme_subsystem) : nvme_subsystem := Sub (subnqn x) (s_instance x) v (s_ctrls x) (s_heads x).

Definition nvme_release_subsystem (s : nat) : M unit :=
  x ← sub_at s;
  (if 0 <=? s_instance x then ida_free (s_instance x) else mret tt);;
  set_subs (delete s).
Definition nvme_destroy_subsystem (s : nat) : M unit :=
  mutex_lock;; set_list (without s);; mutex_unlock;; nvme_release_subsystem s.
Definition nvme_put_subsystem (s : nat) : M unit :=
  x ← sub_at s;
  if s_kref x =? 1 then nvme_destroy_subsystem s else set_subs <[s := with_sref (s_kref x - 1) x]>.

(** What a controller reports and what the kernel answers. *)
Record subsys_env := SEnv {
  mem : bool; e_nqn : list Z;          (** [nvme_init_subnqn] *)
  disc_type : bool;                    (** [id->cntrltype == NVME_CTRL_DISC] *)
  multi_ctrl : bool; device_add_ret : Z; sysfs_ret : Z
}.

Section subsystem.
Context (NVME_DISC_SUBSYS_NAME : list Z).

Definition nvme_find_get_subsystem (nqn : list Z) : M (option nat) := λ w,
  if bool_decide (nqn = NVME_DISC_SUBSYS_NAME) then Ok (None, w)
  else
    match List.find (λ s, match subs w !! s with
            | Some x => bool_decide (subnqn x = nqn) && negb (s_kref x =? 0) | None => false end) (nvme_subsystems w) with
    | None => Ok (None, w)
    | Some s => (x ← sub_at s; set_subs <[s := with_sref (s_kref x + 1) x]>;; mret (Some s)) w
    end.

Definition nvme_validate_cntlid (e : subsys_env) (ctrl : nvme_ctrl) (w : world) (x : nvme_subsystem) : bool :=
  forallb (λ c, match ctrls w !! c with
    | Some tmp => terminal tmp || (negb (cntlid tmp =? cntlid ctrl) && (multi_ctrl e || discovery ctrl))
    | None => true end) (s_ctrls x).

(** Joins controller [c] to a subsystem, [s] is the memory of a new one. *)
Definition nvme_init_subsystem (e : subsys_env) (c s : nat) : M Z :=
  ctrl ← ctrl_at c;
  if negb (mem e) then mret (- ENOMEM)
  else if discovery ctrl && negb (disc_type e || bool_decide (e_nqn e = NVME_DISC_SUBSYS_NAME)) then mret (- EINVAL)
  else
    mutex_lock;;
    found ← nvme_find_get_subsystem (e_nqn e);
    let finish := λ s (ret : Z) (put : bool), (if put then nvme_put_subsystem s else mret tt);; mutex_unlock;; mret ret in
    let link := λ s (new : bool),
      if negb (sysfs_ret e =? 0) then finish s (sysfs_ret e) true
      else
        x ← sub_at s;
        set_subs <[s := Sub (subnqn x) (if new then instance ctrl else s_instance x) (s_kref x) (s_ctrls x ++ [c]) (s_heads x)]>;;
        set_ctrls <[c := Ctl (instance ctrl) (cntlid ctrl) (terminal ctrl) (discovery ctrl) (Some s)]>;;
        finish s 0 false in
    match found with
    | Some s =>
        x ← sub_at s;
        w ← Prelude.get;
        if negb (nvme_validate_cntlid e ctrl w x) then finish s (- EINVAL) true else link s false
    | None =>
        if negb (device_add_ret e =? 0) then finish s (device_add_ret e) false
        else
          set_subs <[s := Sub (e_nqn e) (-1) 1 [] 0]>;;
          set_list (λ l, l ++ [s]);;
          link s true
    end.

(** The number of a controller, from [nvme_init_ctrl]. *)
Definition init_instance (c : nat) (i cid : Z) (disc : bool) : M unit :=
  set_ida (λ x, {[i]} ∪ x);; set_ctrls <[c := Ctl i cid false disc None]>.

Definition nvme_free_ctrl (c : nat) : M unit :=
  ctrl ← ctrl_at c;
  match subsys ctrl with
  | None => ida_free (instance ctrl);; set_ctrls (delete c)
  | Some s =>
      x ← sub_at s;
      (if negb (instance ctrl =? s_instance x) then ida_free (instance ctrl) else mret tt);;
      mutex_lock;;
      x ← sub_at s;
      set_subs <[s := Sub (subnqn x) (s_instance x) (s_kref x) (without c (s_ctrls x)) (s_heads x)]>;;
      mutex_unlock;;
      set_ctrls (delete c);;
      nvme_put_subsystem s
  end.
End subsystem.

(** ** The invariant *)

Section invariant.
Context (disc_name : list Z).

(** [xs]: references to subsystems that a running operation holds. *)
Record inv (xs : nat → Z) (w : world) : Prop := {
  i_lock : locked w = false;
  i_list : NoDup (nvme_subsystems w) ∧ ∀ s, s ∈ nvme_subsystems w ↔ is_Some (subs w !! s);
  i_sub : ∀ s x, subs w !! s = Some x →
    s_kref x = Z.of_nat (length (s_ctrls x)) + s_heads x + xs s ∧ 0 < s_kref x ∧ 0 ≤ s_heads x ∧ 0 ≤ xs s ∧ 0 ≤ s_instance x;
  i_members : ∀ s x, subs w !! s = Some x → NoDup (s_ctrls x) ∧
    ∀ c, c ∈ s_ctrls x ↔ ∃ k, ctrls w !! c = Some k ∧ subsys k = Some s;
  i_ctrl : ∀ c k, ctrls w !! c = Some k → 0 ≤ instance k ∧ ∀ s, subsys k = Some s → is_Some (subs w !! s);
  i_ida : ∀ i, i ∈ ida w ↔
    (∃ c k, ctrls w !! c = Some k ∧ instance k = i) ∨ (∃ s x, subs w !! s = Some x ∧ s_instance x = i);
  i_ctrl_num : ∀ c c' k k', ctrls w !! c = Some k → ctrls w !! c' = Some k' → instance k = instance k' → c = c';
  i_sub_num : ∀ s s' x x', subs w !! s = Some x → subs w !! s' = Some x' → s_instance x = s_instance x' → s = s';
  i_both_num : ∀ c k s x, ctrls w !! c = Some k → subs w !! s = Some x → instance k = s_instance x → subsys k = Some s;
  i_nqn : ∀ s s' x x', subs w !! s = Some x → subs w !! s' = Some x' → subnqn x = subnqn x' → subnqn x ≠ disc_name → s = s';
  i_cntlid : ∀ s c c' k k', ctrls w !! c = Some k → ctrls w !! c' = Some k' → subsys k = Some s → subsys k' = Some s →
    terminal k = false → terminal k' = false → cntlid k = cntlid k' → c = c'
}.
Abbreviation none := (λ _ : nat, 0).
Definition at_ (n : nat) (v : Z) (f : nat → Z) : nat → Z := λ m, if decide (m = n) then v else f m.

Lemma without_in n l m : m ∈ without n l ↔ m ∈ l ∧ m ≠ n.
Proof. unfold without. rewrite !list_elem_of_In, filter_In, negb_true_iff, Nat.eqb_neq. done. Qed.
Lemma without_NoDup n l : NoDup l → NoDup (without n l).
Proof. unfold without. rewrite !base.NoDup_ListNoDup. apply List.NoDup_filter. Qed.
Lemma without_length n l : NoDup l → n ∈ l → length l = S (length (without n l)).
Proof.
  intros Hd Hn. apply list.NoDup_Permutation with (l := l) (k := n :: without n l) in Hd as HP.
  - by apply Permutation_length in HP.
  - constructor; [rewrite without_in; by intros [_ ?]|by apply without_NoDup].
  - intros m. rewrite elem_of_cons, without_in. destruct (decide (m = n)) as [->|]; naive_solver.
Qed.

(** A change of the counts of a subsystem. *)
Lemma inv_set_sub xs w s x v hs d : inv xs w → subs w !! s = Some x →
  v = Z.of_nat (length (s_ctrls x)) + hs + d → 0 < v → 0 ≤ hs → 0 ≤ d →
  inv (at_ s d xs) (World (ida w) (ctrls w) (<[s := Sub (subnqn x) (s_instance x) v (s_ctrls x) hs]> (subs w)) (nvme_subsystems w) (locked w)).
Proof.
  intros I Hs Hv Hv0 Hh Hd. set (x' := Sub _ _ v _ hs).
  assert (∀ s' y, <[s := x']> (subs w) !! s' = Some y → ∃ y0, subs w !! s' = Some y0 ∧ subnqn y = subnqn y0 ∧
    s_instance y = s_instance y0 ∧ s_ctrls y = s_ctrls y0) as Hsame.
  { intros s' y H. destruct (decide (s' = s)) as [->|].
    - rewrite lookup_insert_eq in H. injection H as <-. by exists x.
    - rewrite lookup_insert_ne in H by done. by exists y. }
  assert (∀ s', is_Some (<[s := x']> (subs w) !! s') ↔ is_Some (subs w !! s')) as Hdom.
  { intros s'. destruct (decide (s' = s)) as [->|]; [rewrite lookup_insert_eq, Hs; split; eauto|by rewrite lookup_insert_ne]. }
  split; cbn [ida ctrls subs nvme_subsystems locked].
  - apply (i_lock _ _ I).
  - destruct (i_list _ _ I) as [L1 L2]. split; [done|]. intros s'. by rewrite Hdom.
  - intros s' y H. unfold at_. destruct (decide (s' = s)) as [->|].
    + rewrite lookup_insert_eq in H. injection H as <-. destruct (i_sub _ _ I s x Hs) as (_ & _ & _ & _ & H5). cbn. lia.
    + rewrite lookup_insert_ne in H by done. by apply (i_sub _ _ I).
  - intros s' y (y0 & H & _ & _ & ->)%Hsame. by apply (i_members _ _ I).
  - intros c k Hc. destruct (i_ctrl _ _ I c k Hc) as [H1 H2]. split; [done|]. intros s' Hs'. rewrite Hdom. by apply H2.
  - intros i. rewrite (i_ida _ _ I). split; (intros [H|(s' & y & H1 & H2)]; [by left|right]).
    + destruct (decide (s' = s)) as [->|]; [exists s, x'|exists s', y].
      * rewrite lookup_insert_eq. split; [done|]. rewrite Hs in H1. by injection H1 as <-.
      * by rewrite lookup_insert_ne.
    + apply Hsame in H1 as (y0 & H1 & _ & E & _). exists s', y0. by rewrite <- E.
  - apply (i_ctrl_num _ _ I).
  - intros s1 s2 y1 y2 (z1 & H1 & _ & -> & _)%Hsame (z2 & H2 & _ & -> & _)%Hsame. by apply (i_sub_num _ _ I s1 s2 z1 z2).
  - intros c k s' y Hc (z & H1 & _ & -> & _)%Hsame. by apply (i_both_num _ _ I c k s' z).
  - intros s1 s2 y1 y2 (z1 & H1 & -> & _)%Hsame (z2 & H2 & -> & _)%Hsame. by apply (i_nqn _ _ I s1 s2 z1 z2).
  - apply (i_cntlid _ _ I).
Qed.

Lemma put_sub_inv xs w s x : inv xs w → subs w !! s = Some x → 0 < xs s →
  ∃ w', nvme_put_subsystem s w = Ok (tt, w') ∧ inv (at_ s (xs s - 1) xs) w' ∧ ctrls w' = ctrls w.
Proof.
  intros I Hs Hx. destruct (i_sub _ _ I s x Hs) as (Hk & Hk0 & Hh & _ & Hi).
  unfold nvme_put_subsystem, mbind, ST_bind, sub_at at 1. rewrite Hs. destruct (Z.eqb_spec (s_kref x) 1) as [E|E].
  2:{ unfold set_subs. eexists. split; [done|]. split; [|done]. apply (inv_set_sub _ _ _ x); [done|done|lia|lia|done|lia]. }
  assert (s_ctrls x = []) as Hc by (destruct (s_ctrls x); [done|cbn in Hk; lia]).
  unfold nvme_destroy_subsystem, nvme_release_subsystem, mbind, ST_bind, mutex_lock. rewrite (i_lock _ _ I).
  unfold set_list, mutex_unlock, sub_at. cbn [locked subs ida ctrls nvme_subsystems]. rewrite Hs.
  destruct (Z.leb_spec 0 (s_instance x)) as [_|Hbad]; [|lia]. unfold ida_free. cbn [ida].
  rewrite bool_decide_eq_true_2 by (apply (i_ida _ _ I); right; by exists s, x).
  unfold set_ida, set_subs. cbn [locked subs ida ctrls nvme_subsystems]. eexists. split; [done|]. split; [|done].
  assert (∀ c k, ctrls w !! c = Some k → subsys k ≠ Some s) as Hno.
  { intros c k H Hsub. destruct (i_members _ _ I s x Hs) as [_ Hm]. assert (c ∈ s_ctrls x) as Hin by (apply Hm; by exists k).
    rewrite Hc in Hin. by apply elem_of_nil in Hin. }
  split; cbn [locked subs ida ctrls nvme_subsystems].
  - done.
  - destruct (i_list _ _ I) as [L1 L2]. split; [by apply without_NoDup|]. intros s'. rewrite without_in, L2. split.
    + intros [[y Hy] Hne]. exists y. by apply lookup_delete_Some.
    + intros [y [Hne Hy]%lookup_delete_Some]. split; [by exists y|done].
  - intros s' y [Hne Hy]%lookup_delete_Some. unfold at_. rewrite decide_False by congruence. by apply (i_sub _ _ I).
  - intros s' y [Hne Hy]%lookup_delete_Some. by apply (i_members _ _ I).
  - intros c k H. destruct (i_ctrl _ _ I c k H) as [H1 H2]. split; [done|]. intros s' Hs'. destruct (H2 s' Hs') as [y Hy].
    exists y. apply lookup_delete_Some. split; [|done]. intros <-. by apply (Hno c k).
  - intros i. rewrite elem_of_difference, elem_of_singleton, (i_ida _ _ I). split.
    + intros [[H|(s' & y & H1 & H2)] Hne]; [by left|]. right. exists s', y. split; [|done]. apply lookup_delete_Some.
      split; [|done]. intros <-. congruence.
    + intros [(c & k & H1 & H2)|(s' & y & [H0 H1]%lookup_delete_Some & H2)].
      * split; [left; by exists c, k|]. intros ->. apply (Hno c k H1). by apply (i_both_num _ _ I c k s x).
      * split; [right; by exists s', y|]. intros ->. apply H0. by apply (i_sub_num _ _ I s s' x y).
  - apply (i_ctrl_num _ _ I).
  - intros s1 s2 y1 y2 [_ H1]%lookup_delete_Some [_ H2]%lookup_delete_Some. by apply (i_sub_num _ _ I s1 s2 y1 y2).
  - intros c k s' y H1 [_ H2]%lookup_delete_Some. by apply (i_both_num _ _ I c k s' y).
  - intros s1 s2 y1 y2 [_ H1]%lookup_delete_Some [_ H2]%lookup_delete_Some. by apply (i_nqn _ _ I s1 s2 y1 y2).
  - apply (i_cntlid _ _ I).
Qed.

Lemma inv_ext xs xs' w : inv xs w → (∀ s, xs s = xs' s) → inv xs' w.
Proof.
  intros I E. split; [apply (i_lock _ _ I)|apply (i_list _ _ I)| |apply (i_members _ _ I)|apply (i_ctrl _ _ I)|apply (i_ida _ _ I)|
    apply (i_ctrl_num _ _ I)|apply (i_sub_num _ _ I)|apply (i_both_num _ _ I)|apply (i_nqn _ _ I)|apply (i_cntlid _ _ I)].
  intros s x Hs. rewrite <- E. by apply (i_sub _ _ I).
Qed.

(** ** A controller leaves *)

(** The state after the controller has left the list of its subsystem; its reference is left. *)
Lemma leave_inv w c k s x : inv none w → ctrls w !! c = Some k → subsys k = Some s → subs w !! s = Some x →
  inv (at_ s 1 none)
    (World (if instance k =? s_instance x then ida w else ida w ∖ {[instance k]}) (delete c (ctrls w))
       (<[s := Sub (subnqn x) (s_instance x) (s_kref x) (without c (s_ctrls x)) (s_heads x)]> (subs w)) (nvme_subsystems w) false).
Proof.
  intros I Hc Hk Hs. destruct (i_members _ _ I s x Hs) as [M1 M2]. assert (c ∈ s_ctrls x) as Hin by (apply M2; by exists k).
  pose proof (without_length c _ M1 Hin) as Hlen. set (x' := Sub _ _ _ _ _).
  assert (∀ s' y, <[s := x']> (subs w) !! s' = Some y → ∃ y0, subs w !! s' = Some y0 ∧ subnqn y = subnqn y0 ∧
    s_instance y = s_instance y0) as Hsame.
  { intros s' y H. destruct (decide (s' = s)) as [->|].
    - rewrite lookup_insert_eq in H. injection H as <-. by exists x.
    - rewrite lookup_insert_ne in H by done. by exists y. }
  assert (∀ s', is_Some (<[s := x']> (subs w) !! s') ↔ is_Some (subs w !! s')) as Hdom.
  { intros s'. destruct (decide (s' = s)) as [->|]; [rewrite lookup_insert_eq, Hs; split; eauto|by rewrite lookup_insert_ne]. }
  split; cbn [locked subs ida ctrls nvme_subsystems].
  - done.
  - destruct (i_list _ _ I) as [L1 L2]. split; [done|]. intros s'. by rewrite Hdom.
  - intros s' y H. unfold at_. destruct (decide (s' = s)) as [->|].
    + rewrite lookup_insert_eq in H. injection H as <-. destruct (i_sub _ _ I s x Hs) as (H1 & H2 & H3 & _ & H5). cbn. lia.
    + rewrite lookup_insert_ne in H by done. by apply (i_sub _ _ I s' y).
  - intros s' y H. assert (∀ m, (∃ k0, delete c (ctrls w) !! m = Some k0 ∧ subsys k0 = Some s') ↔
      (∃ k0, ctrls w !! m = Some k0 ∧ subsys k0 = Some s') ∧ m ≠ c) as Hm.
    { intros m. split.
      - intros (k0 & [H1 H2]%lookup_delete_Some & H3). split; [by exists k0|congruence].
      - intros [(k0 & H1 & H2) Hne]. exists k0. split; [|done]. by apply lookup_delete_Some. }
    destruct (decide (s' = s)) as [->|].
    + rewrite lookup_insert_eq in H. injection H as <-. cbn [x' s_ctrls]. split; [by apply without_NoDup|].
      intros m. by rewrite Hm, without_in, M2.
    + rewrite lookup_insert_ne in H by done. destruct (i_members _ _ I s' y H) as [M1' M2']. split; [done|].
      intros m. rewrite Hm, M2'. split; [|by intros [? _]]. intros (k0 & H1 & H2). split; [by exists k0|]. intros ->. congruence.
  - intros c' k' [_ H]%lookup_delete_Some. destruct (i_ctrl _ _ I c' k' H) as [H1 H2]. split; [done|].
    intros s' Hs'. rewrite Hdom. by apply H2.
  - intros i.
    assert ((∃ s' y, <[s := x']> (subs w) !! s' = Some y ∧ s_instance y = i) ↔ (∃ s' y, subs w !! s' = Some y ∧ s_instance y = i)) as ->.
    { split.
      - intros (s' & y & (y0 & H & _ & E)%Hsame & H2). exists s', y0. by rewrite <- E.
      - intros (s' & y & H1 & H2). destruct (decide (s' = s)) as [->|]; [exists s, x'|exists s', y; by rewrite lookup_insert_ne].
        rewrite lookup_insert_eq. split; [done|]. rewrite Hs in H1. by injection H1 as <-. }
    assert ((∃ c' k', delete c (ctrls w) !! c' = Some k' ∧ instance k' = i) ↔
      (∃ c' k', ctrls w !! c' = Some k' ∧ instance k' = i) ∧ i ≠ instance k) as ->.
    { split.
      - intros (c' & k' & [H0 H1]%lookup_delete_Some & H2). split; [by exists c', k'|]. intros ->. apply H0.
        by apply (i_ctrl_num _ _ I c c' k k').
      - intros [(c' & k' & H1 & H2) Hne]. exists c', k'. split; [|done]. apply lookup_delete_Some. split; [|done]. intros <-. congruence. }
    destruct (Z.eqb_spec (instance k) (s_instance x)) as [E|E].
    + rewrite (i_ida _ _ I). split; [|intros [[? _]|?]; [by left|by right]].
      intros [(c' & k' & H1 & H2)|?]; [|by right]. destruct (decide (i = instance k)) as [->|]; [|left; split; [by exists c', k'|done]].
      right. by exists s, x.
    + rewrite elem_of_difference, elem_of_singleton, (i_ida _ _ I). split.
      * intros [[H|H] Hne]; [by left|by right].
      * intros [[H Hne]|(s' & y & H1 & H2)]; [split; [by left|done]|]. split; [right; by exists s', y|]. intros ->.
        assert (subsys k = Some s') as H3 by (by apply (i_both_num _ _ I c k s' y)). congruence.
  - intros c1 c2 k1 k2 [_ H1]%lookup_delete_Some [_ H2]%lookup_delete_Some. by apply (i_ctrl_num _ _ I c1 c2 k1 k2).
  - intros s1 s2 y1 y2 (z1 & H1 & _ & ->)%Hsame (z2 & H2 & _ & ->)%Hsame. by apply (i_sub_num _ _ I s1 s2 z1 z2).
  - intros c' k' s' y [_ H1]%lookup_delete_Some (z & H2 & _ & ->)%Hsame. by apply (i_both_num _ _ I c' k' s' z).
  - intros s1 s2 y1 y2 (z1 & H1 & -> & _)%Hsame (z2 & H2 & -> & _)%Hsame. by apply (i_nqn _ _ I s1 s2 z1 z2).
  - intros s' c1 c2 k1 k2 [_ H1]%lookup_delete_Some [_ H2]%lookup_delete_Some. by apply (i_cntlid _ _ I s' c1 c2 k1 k2).
Qed.

Lemma drop_lone w c k : inv none w → ctrls w !! c = Some k → subsys k = None →
  inv none (World (ida w ∖ {[instance k]}) (delete c (ctrls w)) (subs w) (nvme_subsystems w) false).
Proof.
  intros I Hc Hk. split; cbn [locked subs ida ctrls nvme_subsystems].
  - done.
  - apply (i_list _ _ I).
  - apply (i_sub _ _ I).
  - intros s x H. destruct (i_members _ _ I s x H) as [M1 M2]. split; [done|]. intros m. rewrite M2. split.
    + intros (k0 & H1 & H2). exists k0. split; [|done]. apply lookup_delete_Some. split; [|done]. intros <-. congruence.
    + intros (k0 & [_ H1]%lookup_delete_Some & H2). by exists k0.
  - intros c' k' [_ H]%lookup_delete_Some. by apply (i_ctrl _ _ I c' k').
  - intros i. rewrite elem_of_difference, elem_of_singleton, (i_ida _ _ I). split.
    + intros [[(c' & k' & H1 & H2)|H] Hne]; [|by right]. left. exists c', k'. split; [|done]. apply lookup_delete_Some.
      split; [|done]. intros <-. congruence.
    + intros [(c' & k' & [H0 H1]%lookup_delete_Some & H2)|(s & x & H1 & H2)].
      * split; [left; by exists c', k'|]. intros ->. apply H0. by apply (i_ctrl_num _ _ I c c' k k').
      * split; [right; by exists s, x|]. intros ->. assert (subsys k = Some s) by (by apply (i_both_num _ _ I c k s x)). congruence.
  - intros c1 c2 k1 k2 [_ H1]%lookup_delete_Some [_ H2]%lookup_delete_Some. by apply (i_ctrl_num _ _ I c1 c2 k1 k2).
  - apply (i_sub_num _ _ I).
  - intros c' k' s x [_ H1]%lookup_delete_Some H2. by apply (i_both_num _ _ I c' k' s x).
  - apply (i_nqn _ _ I).
  - intros s' c1 c2 k1 k2 [_ H1]%lookup_delete_Some [_ H2]%lookup_delete_Some. by apply (i_cntlid _ _ I s' c1 c2 k1 k2).
Qed.

Lemma free_inv w c k : inv none w → ctrls w !! c = Some k →
  ∃ w', nvme_free_ctrl c w = Ok (tt, w') ∧ inv none w' ∧ ctrls w' = delete c (ctrls w).
Proof.
  intros I Hc. assert (instance k ∈ ida w) as Hida by (apply (i_ida _ _ I); left; by exists c, k).
  unfold nvme_free_ctrl, mbind, ST_bind, ctrl_at. rewrite Hc. destruct (subsys k) as [s|] eqn:Ek.
  - destruct (i_ctrl _ _ I c k Hc) as [_ H]. destruct (H s Ek) as [x Hs]. clear H.
    pose proof (leave_inv w c k s x I Hc Ek Hs) as I1. unfold sub_at at 1. rewrite Hs.
    assert ((if negb (instance k =? s_instance x) then ida_free (instance k) else mret tt) w =
      Ok (tt, World (if instance k =? s_instance x then ida w else ida w ∖ {[instance k]}) (ctrls w) (subs w) (nvme_subsystems w) false)) as ->.
    { destruct (instance k =? s_instance x); cbn [negb].
      - unfold mret, ST_ret. rewrite <- (i_lock _ _ I). by destruct w.
      - unfold ida_free. rewrite bool_decide_eq_true_2 by done. unfold set_ida. by rewrite (i_lock _ _ I). }
    unfold mutex_lock, sub_at at 1. cbn [locked subs ida ctrls nvme_subsystems]. rewrite Hs.
    unfold set_subs, mutex_unlock, set_ctrls. cbn [locked subs ida ctrls nvme_subsystems].
    destruct (put_sub_inv _ _ s _ I1 (lookup_insert_eq _ _ _)) as (w' & Hp & I2 & Hcs); [unfold at_; by rewrite decide_True|].
    exists w'. split; [exact Hp|]. split; [|done]. eapply inv_ext; [exact I2|]. intros m. unfold at_.
    by destruct (decide (m = s)) as [->|]; [rewrite decide_True|].
  - unfold ida_free. rewrite bool_decide_eq_true_2 by done. unfold set_ida, set_ctrls. cbn [locked subs ida ctrls nvme_subsystems].
    eexists. split; [done|]. split; [|done]. rewrite (i_lock _ _ I). by apply drop_lone.
Qed.

(** ** A controller joins *)

Definition member (s : nat) (k : nvme_ctrl) : nvme_ctrl := Ctl (instance k) (cntlid k) (terminal k) (discovery k) (Some s).

(** What joining makes of the state: one more controller in a subsystem that accepts it, or a
    new subsystem that takes over the number. *)
Inductive joined_sub (w : world) (c : nat) (k : nvme_ctrl) : world → Prop :=
| joined_found s x : subs w !! s = Some x →
    (∀ c' k', c' ∈ s_ctrls x → ctrls w !! c' = Some k' → terminal k' = false → cntlid k' ≠ cntlid k) →
    joined_sub w c k (World (ida w) (<[c := member s k]> (ctrls w))
      (<[s := Sub (subnqn x) (s_instance x) (s_kref x + 1) (s_ctrls x ++ [c]) (s_heads x)]> (subs w)) (nvme_subsystems w) false)
| joined_founded s nqn : subs w !! s = None →
    (∀ s' x', subs w !! s' = Some x' → nqn ≠ disc_name → subnqn x' ≠ nqn) →
    joined_sub w c k (World (ida w) (<[c := member s k]> (ctrls w))
      (<[s := Sub nqn (instance k) 1 [c] 0]> (subs w)) (nvme_subsystems w ++ [s]) false).

(** A live controller in the new subsystem with the same number is the one that joined. *)
Lemma joined_ctrls w c s k : inv none w → ctrls w !! c = Some k → subsys k = None →
  ∀ m k0, <[c := member s k]> (ctrls w) !! m = Some k0 →
    ∃ k1, ctrls w !! m = Some k1 ∧ instance k0 = instance k1 ∧ cntlid k0 = cntlid k1 ∧ terminal k0 = terminal k1 ∧
      ((m = c ∧ k1 = k ∧ subsys k0 = Some s) ∨ (m ≠ c ∧ subsys k0 = subsys k1)).
Proof.
  intros I Hc Hk m k0 H. destruct (decide (m = c)) as [->|].
  - rewrite lookup_insert_eq in H. injection H as <-. exists k. repeat split; [done|]. by left.
  - rewrite lookup_insert_ne in H by done. exists k0. repeat split; [done|]. by right.
Qed.

(** The parts of the invariant that only look at the controllers and the numbers. *)
Lemma join_common w c k s (sb : gmap nat nvme_subsystem) : inv none w → ctrls w !! c = Some k → subsys k = None →
  let cs := <[c := member s k]> (ctrls w) in
  (∀ s' x, sb !! s' = Some x → (∃ x0, subs w !! s' = Some x0 ∧ s_instance x = s_instance x0) ∨ (s' = s ∧ s_instance x = instance k ∧ subs w !! s = None)) →
  (∀ s' x, subs w !! s' = Some x → ∃ x0, sb !! s' = Some x0 ∧ s_instance x0 = s_instance x) →
  is_Some (sb !! s) →
  (∀ c' k', cs !! c' = Some k' → 0 ≤ instance k' ∧ ∀ s', subsys k' = Some s' → is_Some (sb !! s')) ∧
  (∀ i, i ∈ ida w ↔ (∃ c' k', cs !! c' = Some k' ∧ instance k' = i) ∨ (∃ s' x, sb !! s' = Some x ∧ s_instance x = i)) ∧
  (∀ c1 c2 k1 k2, cs !! c1 = Some k1 → cs !! c2 = Some k2 → instance k1 = instance k2 → c1 = c2) ∧
  (∀ s1 s2 x1 x2, sb !! s1 = Some x1 → sb !! s2 = Some x2 → s_instance x1 = s_instance x2 → s1 = s2) ∧
  (∀ c' k' s' x, cs !! c' = Some k' → sb !! s' = Some x → instance k' = s_instance x → subsys k' = Some s').
Proof.
  intros I Hc Hk cs Hsb Hbs Hs. pose proof (joined_ctrls w c s k I Hc Hk) as Hj. fold cs in Hj.
  assert (∀ s' x, subs w !! s' = Some x → s_instance x ≠ instance k) as Hfresh.
  { intros s' x H E. assert (subsys k = Some s') by (by apply (i_both_num _ _ I c k s' x)). congruence. }
  split; [|split; [|split; [|split]]].
  - intros c' k' (k1 & H1 & E1 & _ & _ & Hc')%Hj. rewrite E1. destruct (i_ctrl _ _ I c' k1 H1) as [H2 H3]. split; [done|].
    intros s' Hs'. destruct Hc' as [(-> & -> & E)|[_ E]]; [rewrite E in Hs'; by injection Hs' as <-|].
    destruct (H3 s') as [x Hx]; [congruence|]. destruct (Hbs s' x Hx) as (x0 & H & _). by exists x0.
  - intros i. rewrite (i_ida _ _ I). split.
    + intros [(c' & k' & H1 & H2)|(s' & x & H1 & H2)].
      * left. destruct (decide (c' = c)) as [->|]; [exists c, (member s k)|exists c', k'].
        -- unfold cs. rewrite lookup_insert_eq. split; [done|]. cbn. congruence.
        -- unfold cs. by rewrite lookup_insert_ne.
      * right. destruct (Hbs s' x H1) as (x0 & H3 & H4). exists s', x0. split; [done|congruence].
    + intros [(c' & k' & (k1 & H1 & E1 & _)%Hj & H2)|(s' & x & H1 & H2)]; [left; exists c', k1; split; [done|congruence]|].
      destruct (Hsb s' x H1) as [(x0 & H3 & H4)|(-> & E & _)]; [right; exists s', x0; split; [done|congruence]|].
      left. exists c, k. split; [done|congruence].
  - intros c1 c2 k1 k2 (l1 & H1 & E1 & _)%Hj (l2 & H2 & E2 & _)%Hj E. apply (i_ctrl_num _ _ I c1 c2 l1 l2); [done|done|congruence].
  - intros s1 s2 x1 x2 H1 H2 E. destruct (Hsb s1 x1 H1) as [(y1 & G1 & F1)|(-> & F1 & G1)]; destruct (Hsb s2 x2 H2) as [(y2 & G2 & F2)|(-> & F2 & G2)].
    + apply (i_sub_num _ _ I s1 s2 y1 y2); [done|done|congruence].
    + exfalso. apply (Hfresh s1 y1 G1). congruence.
    + exfalso. apply (Hfresh s2 y2 G2). congruence.
    + done.
  - intros c' k' s' x (k1 & H1 & E1 & _ & _ & Hc')%Hj H2 E. destruct (Hsb s' x H2) as [(y & G & F)|(-> & F & G)].
    + assert (subsys k1 = Some s') as Hk1 by (apply (i_both_num _ _ I c' k1 s' y); [done|done|congruence]).
      destruct Hc' as [(-> & -> & _)|[_ E2]]; congruence.
    + assert (c' = c) as -> by (apply (i_ctrl_num _ _ I c' c k1 k); [done|done|congruence]).
      by destruct Hc' as [(_ & _ & ?)|[? _]].
Qed.

Lemma found_inv w c k s x : inv none w → ctrls w !! c = Some k → subsys k = None → subs w !! s = Some x →
  (∀ c' k', c' ∈ s_ctrls x → ctrls w !! c' = Some k' → terminal k' = false → cntlid k' ≠ cntlid k) →
  inv none (World (ida w) (<[c := member s k]> (ctrls w))
      (<[s := Sub (subnqn x) (s_instance x) (s_kref x + 1) (s_ctrls x ++ [c]) (s_heads x)]> (subs w)) (nvme_subsystems w) false).
Proof.
  intros I Hc Hk Hs Hv. set (x' := Sub _ _ _ _ _). destruct (i_members _ _ I s x Hs) as [M1 M2].
  assert (∀ s' y, <[s := x']> (subs w) !! s' = Some y → ∃ y0, subs w !! s' = Some y0 ∧ subnqn y = subnqn y0 ∧ s_instance y = s_instance y0) as Hsame.
  { intros s' y H. destruct (decide (s' = s)) as [->|].
    - rewrite lookup_insert_eq in H. injection H as <-. by exists x.
    - rewrite lookup_insert_ne in H by done. by exists y. }
  assert (c ∉ s_ctrls x) as Hnot by (intros (k0 & H1 & H2)%M2; congruence).
  pose proof (joined_ctrls w c s k I Hc Hk) as Hj.
  destruct (join_common w c k s (<[s := x']> (subs w)) I Hc Hk) as (C1 & C2 & C3 & C4 & C5).
  { intros s' y (y0 & H & _ & E)%Hsame. left. by exists y0. }
  { intros s' y H. destruct (decide (s' = s)) as [->|]; [exists x'|exists y; by rewrite lookup_insert_ne].
    rewrite lookup_insert_eq. split; [done|]. rewrite Hs in H. by injection H as <-. }
  { rewrite lookup_insert_eq. by eexists. }
  assert (∀ s' m, (∃ k0, <[c := member s k]> (ctrls w) !! m = Some k0 ∧ subsys k0 = Some s') ↔
    (m = c ∧ s' = s) ∨ (∃ k0, ctrls w !! m = Some k0 ∧ subsys k0 = Some s')) as Hm.
  { intros s' m. destruct (decide (m = c)) as [->|].
    - rewrite lookup_insert_eq, Hc. split; [intros (? & [= <-] & [= <-]); by left|]. intros [[_ ->]|(? & [= <-] & ?)]; [by eexists|congruence].
    - rewrite lookup_insert_ne by done. naive_solver. }
  split; cbn [locked subs ida ctrls nvme_subsystems]; try done.
  - destruct (i_list _ _ I) as [L1 L2]. split; [done|]. intros s'. rewrite L2.
    destruct (decide (s' = s)) as [->|]; [rewrite lookup_insert_eq, Hs; split; eauto|by rewrite lookup_insert_ne].
  - intros s' y H. destruct (decide (s' = s)) as [->|].
    + rewrite lookup_insert_eq in H. injection H as <-. destruct (i_sub _ _ I s x Hs) as (H1 & H2 & H3 & _ & H5). cbn. rewrite length_app. cbn. lia.
    + rewrite lookup_insert_ne in H by done. by apply (i_sub _ _ I s' y).
  - intros s' y H. destruct (decide (s' = s)) as [->|].
    + rewrite lookup_insert_eq in H. injection H as <-. cbn [x' s_ctrls]. split.
      * apply list.NoDup_app. split; [done|]. split; [|apply NoDup_singleton]. by intros m Hm1 ->%list_elem_of_singleton.
      * intros m. rewrite Hm, elem_of_app, list_elem_of_singleton, M2. naive_solver.
    + rewrite lookup_insert_ne in H by done. destruct (i_members _ _ I s' y H) as [M1' M2']. split; [done|]. intros m. rewrite Hm, M2'. naive_solver.
  - intros s1 s2 y1 y2 (z1 & H1 & -> & _)%Hsame (z2 & H2 & -> & _)%Hsame. by apply (i_nqn _ _ I s1 s2 z1 z2).
  - intros s' c1 c2 k1 k2 (l1 & H1 & _ & E1 & T1 & S1)%Hj (l2 & H2 & _ & E2 & T2 & S2)%Hj U1 U2 V1 V2 E.
    destruct S1 as [(-> & -> & W1)|[N1 W1]], S2 as [(-> & -> & W2)|[N2 W2]].
    + done.
    + exfalso. assert (s' = s) as -> by congruence. apply (Hv c2 l2); [apply M2; exists l2; split; congruence|congruence..].
    + exfalso. assert (s' = s) as -> by congruence. apply (Hv c1 l1); [apply M2; exists l1; split; congruence|congruence..].
    + apply (i_cntlid _ _ I s' c1 c2 l1 l2); congruence.
Qed.

Lemma founded_inv w c k s nqn : inv none w → ctrls w !! c = Some k → subsys k = None → subs w !! s = None →
  (∀ s' x', subs w !! s' = Some x' → nqn ≠ disc_name → subnqn x' ≠ nqn) →
  inv none (World (ida w) (<[c := member s k]> (ctrls w)) (<[s := Sub nqn (instance k) 1 [c] 0]> (subs w)) (nvme_subsystems w ++ [s]) false).
Proof.
  intros I Hc Hk Hs Hq. set (x' := Sub _ _ _ _ _). pose proof (joined_ctrls w c s k I Hc Hk) as Hj.
  destruct (join_common w c k s (<[s := x']> (subs w)) I Hc Hk) as (C1 & C2 & C3 & C4 & C5).
  { intros s' y H. destruct (decide (s' = s)) as [->|]; [rewrite lookup_insert_eq in H; injection H as <-; by right|].
    rewrite lookup_insert_ne in H by done. left. by exists y. }
  { intros s' y H. exists y. rewrite lookup_insert_ne by congruence. done. }
  { rewrite lookup_insert_eq. by eexists. }
  assert (∀ m k0, ctrls w !! m = Some k0 → subsys k0 ≠ Some s) as Hno.
  { intros m k0 H E. destruct (i_ctrl _ _ I m k0 H) as [_ H1]. destruct (H1 s E). congruence. }
  assert (∀ s' m, (∃ k0, <[c := member s k]> (ctrls w) !! m = Some k0 ∧ subsys k0 = Some s') ↔
    (m = c ∧ s' = s) ∨ (∃ k0, ctrls w !! m = Some k0 ∧ subsys k0 = Some s')) as Hm.
  { intros s' m. destruct (decide (m = c)) as [->|].
    - rewrite lookup_insert_eq, Hc. split; [intros (? & [= <-] & [= <-]); by left|]. intros [[_ ->]|(? & [= <-] & ?)]; [by eexists|congruence].
    - rewrite lookup_insert_ne by done. naive_solver. }
  split; cbn [locked subs ida ctrls nvme_subsystems]; try done.
  - destruct (i_list _ _ I) as [L1 L2]. split.
    + apply list.NoDup_app. split; [done|]. split; [|apply NoDup_singleton]. intros m Hm1 ->%list_elem_of_singleton.
      apply L2 in Hm1 as [? ?]. congruence.
    + intros s'. rewrite elem_of_app, list_elem_of_singleton, L2. destruct (decide (s' = s)) as [->|].
      * rewrite lookup_insert_eq. split; [by eexists|by right].
      * rewrite lookup_insert_ne by done. naive_solver.
  - intros s' y H. destruct (decide (s' = s)) as [->|].
    + rewrite lookup_insert_eq in H. injection H as <-. destruct (i_ctrl _ _ I c k Hc) as [Hi _]. cbn. lia.
    + rewrite lookup_insert_ne in H by done. by apply (i_sub _ _ I s' y).
  - intros s' y H. destruct (decide (s' = s)) as [->|].
    + rewrite lookup_insert_eq in H. injection H as <-. cbn [x' s_ctrls]. split; [apply NoDup_singleton|].
      intros m. rewrite Hm, list_elem_of_singleton. split; [by left|]. intros [[? _]|(k0 & H1 & H2)]; [done|]. by destruct (Hno m k0 H1).
    + rewrite lookup_insert_ne in H by done. destruct (i_members _ _ I s' y H) as [M1' M2']. split; [done|]. intros m. rewrite Hm, M2'. naive_solver.
  - intros s1 s2 y1 y2 H1 H2 E Hd. destruct (decide (s1 = s)) as [->|], (decide (s2 = s)) as [->|]; [done|..].
    + rewrite lookup_insert_eq in H1. injection H1 as <-. rewrite lookup_insert_ne in H2 by done. cbn in E, Hd. by destruct (Hq s2 y2 H2 Hd).
    + rewrite lookup_insert_eq in H2. injection H2 as <-. rewrite lookup_insert_ne in H1 by done. cbn in E. by destruct (Hq s1 y1 H1 ltac:(congruence)).
    + rewrite lookup_insert_ne in H1, H2 by done. by apply (i_nqn _ _ I s1 s2 y1 y2).
  - intros s' c1 c2 k1 k2 (l1 & H1 & _ & E1 & T1 & S1)%Hj (l2 & H2 & _ & E2 & T2 & S2)%Hj U1 U2 V1 V2 E.
    destruct S1 as [(-> & -> & W1)|[N1 W1]], S2 as [(-> & -> & W2)|[N2 W2]].
    + done.
    + exfalso. apply (Hno c2 l2 H2). congruence.
    + exfalso. apply (Hno c1 l1 H1). congruence.
    + apply (i_cntlid _ _ I s' c1 c2 l1 l2); congruence.
Qed.

Lemma find_cases w nqn lk : inv none w →
  let wl := World (ida w) (ctrls w) (subs w) (nvme_subsystems w) lk in
  (nvme_find_get_subsystem disc_name nqn wl = Ok (None, wl) ∧ (∀ s x, subs w !! s = Some x → nqn ≠ disc_name → subnqn x ≠ nqn)) ∨
  ∃ s x, subs w !! s = Some x ∧ nvme_find_get_subsystem disc_name nqn wl =
    Ok (Some s, World (ida w) (ctrls w) (<[s := with_sref (s_kref x + 1) x]> (subs w)) (nvme_subsystems w) lk).
Proof.
  intros I. cbn zeta. unfold nvme_find_get_subsystem. case_bool_decide as Hd; [left; split; [done|]; intros; congruence|].
  destruct (List.find _ _) as [s|] eqn:E.
  - right. apply find_some in E as [_ Hf]. cbn [subs] in Hf. destruct (subs w !! s) as [x|] eqn:Es; [|done].
    exists s, x. split; [done|]. unfold mbind, ST_bind, sub_at. cbn [subs]. by rewrite Es.
  - left. split; [done|]. intros s x Hs _ Hq. destruct (i_list _ _ I) as [_ L2].
    assert (s ∈ nvme_subsystems w) as Hin by (apply L2; by exists x). apply list_elem_of_In in Hin.
    pose proof (List.find_none _ _ E s Hin) as Hf. cbn [subs] in Hf. rewrite Hs in Hf. rewrite bool_decide_eq_true_2 in Hf by done.
    destruct (i_sub _ _ I s x Hs) as (_ & H2 & _). destruct (Z.eqb_spec (s_kref x) 0); [lia|done].
Qed.

(** A reference that was just taken is given back under the lock. *)
Lemma put_taken w s x : subs w !! s = Some x → 0 < s_kref x →
  nvme_put_subsystem s (World (ida w) (ctrls w) (<[s := with_sref (s_kref x + 1) x]> (subs w)) (nvme_subsystems w) true) =
  Ok (tt, World (ida w) (ctrls w) (subs w) (nvme_subsystems w) true).
Proof.
  intros Hs Hk. unfold nvme_put_subsystem, mbind, ST_bind, sub_at. cbn [subs]. rewrite lookup_insert_eq. cbn [with_sref s_kref].
  destruct (Z.eqb_spec (s_kref x + 1) 1); [lia|]. unfold set_subs. cbn [ida ctrls subs nvme_subsystems locked].
  rewrite insert_insert_eq. replace (s_kref x + 1 - 1) with (s_kref x) by lia. rewrite insert_id; [done|]. rewrite Hs. by destruct x.
Qed.

Lemma init_cases e c s w k : inv none w → ctrls w !! c = Some k → subsys k = None → subs w !! s = None →
  match nvme_init_subsystem disc_name e c s w with
  | Ok (ret, w') => (ret ≠ 0 ∧ w' = w) ∨ (ret = 0 ∧ joined_sub w c k w')
  | Err f => f = Deadlock ∧ sysfs_ret e ≠ 0 ∧ ∀ s x, subs w !! s = Some x → e_nqn e ≠ disc_name → subnqn x ≠ e_nqn e
  end.
Proof.
  intros I Hc Hk Hf. pose proof (i_lock _ _ I) as Hlk.
  assert (World (ida w) (ctrls w) (subs w) (nvme_subsystems w) false = w) as Heta by (rewrite <- Hlk; by destruct w).
  unfold nvme_init_subsystem, mbind, ST_bind, ctrl_at. rewrite Hc. destruct (mem e); cbn [negb]; [|left; by split].
  destruct (discovery k && _); [left; by split|]. unfold mutex_lock. rewrite Hlk.
  destruct (find_cases w (e_nqn e) true I) as [[-> Hq]|(sf & x & Hs & ->)].
  - destruct (Z.eqb_spec (device_add_ret e) 0) as [Ed|Ed]; cbn [negb].
    + unfold set_subs, set_list. cbn [ida ctrls subs nvme_subsystems locked].
      destruct (Z.eqb_spec (sysfs_ret e) 0) as [Ey|Ey]; cbn [negb].
      * unfold sub_at. cbn [subs]. rewrite lookup_insert_eq. unfold set_ctrls, mutex_unlock, mret, ST_ret.
        cbn [ida ctrls subs nvme_subsystems locked subnqn s_kref s_ctrls s_heads app]. right. split; [done|].
        rewrite insert_insert_eq. by apply joined_founded.
      * unfold nvme_put_subsystem, nvme_destroy_subsystem, mbind, ST_bind, sub_at. cbn [subs]. rewrite lookup_insert_eq. cbn [s_kref Z.eqb Pos.eqb].
        unfold mutex_lock. cbn [locked]. done.
    + unfold mutex_unlock, mret, ST_ret. cbn [ida ctrls subs nvme_subsystems locked]. left. split; [done|exact Heta].
  - destruct (i_sub _ _ I sf x Hs) as (_ & Hk0 & _). unfold sub_at. cbn [subs]. rewrite lookup_insert_eq. unfold Prelude.get.
    pose proof (put_taken w sf x Hs Hk0) as Hput.
    destruct (nvme_validate_cntlid _ _ _ _) eqn:Ev; cbn [negb].
    + destruct (Z.eqb_spec (sysfs_ret e) 0) as [Ey|Ey]; cbn [negb].
      * cbn [subs]. rewrite lookup_insert_eq. unfold set_subs, set_ctrls, mutex_unlock, mret, ST_ret.
        cbn [ida ctrls subs nvme_subsystems locked with_sref subnqn s_instance s_kref s_ctrls s_heads]. right. split; [done|].
        rewrite insert_insert_eq. apply joined_found; [done|]. intros c' k' Hin Hc' Ht Heq.
        unfold nvme_validate_cntlid in Ev. cbn [with_sref s_ctrls ctrls] in Ev. rewrite forallb_forall in Ev.
        apply list_elem_of_In in Hin. specialize (Ev c' Hin). rewrite Hc', Ht in Ev. cbn [orb] in Ev.
        by rewrite Heq, Z.eqb_refl in Ev.
      * rewrite Hput. unfold mutex_unlock, mret, ST_ret. cbn [ida ctrls subs nvme_subsystems locked]. left. split; [done|exact Heta].
    + rewrite Hput. unfold mutex_unlock, mret, ST_ret. cbn [ida ctrls subs nvme_subsystems locked]. left. split; [done|exact Heta].
Qed.

Lemma join_inv w c k w' : inv none w → ctrls w !! c = Some k → subsys k = None → joined_sub w c k w' → inv none w'.
Proof. intros I Hc Hk [s x Hs Hv|s nqn Hs Hq]; [by eapply found_inv|by apply founded_inv]. Qed.

(** ** Reachable states *)

(** The references of namespace heads, from [nvme_alloc_ns_head] and [nvme_free_ns_head]. *)
Definition head_get (s : nat) : M unit :=
  x ← sub_at s; set_subs <[s := Sub (subnqn x) (s_instance x) (s_kref x + 1) (s_ctrls x) (s_heads x + 1)]>.
Definition head_put (s : nat) : M unit :=
  x ← sub_at s; set_subs <[s := Sub (subnqn x) (s_instance x) (s_kref x) (s_ctrls x) (s_heads x - 1)]>;; nvme_put_subsystem s.

Definition dead (k : nvme_ctrl) : nvme_ctrl := Ctl (instance k) (cntlid k) true (discovery k) (subsys k).

Inductive step (w : world) : world → Prop :=
| step_new c i cid disc w' : ctrls w !! c = None → i ∉ ida w → 0 ≤ i → init_instance c i cid disc w = Ok (tt, w') → step w w'
| step_dies c k : ctrls w !! c = Some k →
    step w (World (ida w) (<[c := dead k]> (ctrls w)) (subs w) (nvme_subsystems w) (locked w))
| step_join e c s k ret w' : ctrls w !! c = Some k → subsys k = None → subs w !! s = None →
    nvme_init_subsystem disc_name e c s w = Ok (ret, w') → step w w'
| step_free c w' : is_Some (ctrls w !! c) → nvme_free_ctrl c w = Ok (tt, w') → step w w'
| step_head_get s w' : is_Some (subs w !! s) → head_get s w = Ok (tt, w') → step w w'
| step_head_put s x w' : subs w !! s = Some x → 0 < s_heads x → head_put s w = Ok (tt, w') → step w w'.

Definition empty_world : world := World ∅ ∅ ∅ [] false.

Lemma empty_inv : inv none empty_world.
Proof.
  split; cbn [empty_world ida ctrls subs nvme_subsystems locked]; try (intros; by simplify_map_eq).
  - split; [constructor|]. intros s. rewrite lookup_empty. split; [by intros H%elem_of_nil|by intros [? ?]].
  - intros i. split; [by intros H%elem_of_empty|]. intros [(? & ? & H & _)|(? & ? & H & _)]; by rewrite lookup_empty in H.
Qed.

Lemma new_inv w c i cid disc : inv none w → ctrls w !! c = None → i ∉ ida w → 0 ≤ i →
  inv none (World ({[i]} ∪ ida w) (<[c := Ctl i cid false disc None]> (ctrls w)) (subs w) (nvme_subsystems w) (locked w)).
Proof.
  intros I Hc Hi H0. set (k := Ctl i cid false disc None).
  assert (∀ m k0, <[c := k]> (ctrls w) !! m = Some k0 → (m = c ∧ k0 = k) ∨ (m ≠ c ∧ ctrls w !! m = Some k0)) as Hj.
  { intros m k0 H. destruct (decide (m = c)) as [->|]; [rewrite lookup_insert_eq in H; injection H as <-; by left|].
    rewrite lookup_insert_ne in H by done. by right. }
  assert (∀ m k0, ctrls w !! m = Some k0 → instance k0 ≠ i) as Hfc.
  { intros m k0 H <-. apply Hi, (i_ida _ _ I). left. by exists m, k0. }
  split; cbn [ida ctrls subs nvme_subsystems locked].
  - apply (i_lock _ _ I).
  - apply (i_list _ _ I).
  - apply (i_sub _ _ I).
  - intros s x Hs. destruct (i_members _ _ I s x Hs) as [M1 M2]. split; [done|]. intros m. rewrite M2. split.
    + intros (k0 & H1 & H2). exists k0. rewrite lookup_insert_ne by congruence. done.
    + intros (k0 & [[-> ->]|[_ H1]]%Hj & H2); [done|by exists k0].
  - intros m k0 [[-> ->]|[_ H1]]%Hj; [by split|]. by apply (i_ctrl _ _ I m k0).
  - intros j. rewrite elem_of_union, elem_of_singleton, (i_ida _ _ I). split.
    + intros [->|[(m & k0 & H1 & H2)|H]]; [left; exists c, k; by rewrite lookup_insert_eq| |by right].
      left. exists m, k0. rewrite lookup_insert_ne by congruence. done.
    + intros [(m & k0 & [[-> ->]|[_ H1]]%Hj & H2)|H]; [by left| |by right; right]. right. left. by exists m, k0.
  - intros c1 c2 k1 k2 [[-> ->]|[_ H1]]%Hj [[-> ->]|[_ H2]]%Hj E; [done|by destruct (Hfc c2 k2 H2)|by destruct (Hfc c1 k1 H1)|].
    by apply (i_ctrl_num _ _ I c1 c2 k1 k2).
  - apply (i_sub_num _ _ I).
  - intros m k0 s x [[-> ->]|[_ H1]]%Hj Hs E; [|by apply (i_both_num _ _ I m k0 s x)].
    exfalso. apply Hi, (i_ida _ _ I). right. by exists s, x.
  - apply (i_nqn _ _ I).
  - intros s c1 c2 k1 k2 [[-> ->]|[_ H1]]%Hj [[-> ->]|[_ H2]]%Hj; [done|done|done|]. by apply (i_cntlid _ _ I s c1 c2 k1 k2).
Qed.

Lemma dies_inv w c k : inv none w → ctrls w !! c = Some k →
  inv none (World (ida w) (<[c := dead k]> (ctrls w)) (subs w) (nvme_subsystems w) (locked w)).
Proof.
  intros I Hc.
  assert (∀ m k0, <[c := dead k]> (ctrls w) !! m = Some k0 → ∃ k1, ctrls w !! m = Some k1 ∧ instance k0 = instance k1 ∧
    subsys k0 = subsys k1 ∧ (terminal k0 = false → k0 = k1)) as Hj.
  { intros m k0 H. destruct (decide (m = c)) as [->|]; [rewrite lookup_insert_eq in H; injection H as <-; by exists k|].
    rewrite lookup_insert_ne in H by done. by exists k0. }
  assert (∀ m k0, ctrls w !! m = Some k0 → ∃ k1, <[c := dead k]> (ctrls w) !! m = Some k1 ∧ instance k1 = instance k0 ∧ subsys k1 = subsys k0) as Hi.
  { intros m k0 H. destruct (decide (m = c)) as [->|]; [exists (dead k)|exists k0; by rewrite lookup_insert_ne].
    rewrite lookup_insert_eq. split; [done|]. rewrite Hc in H. by injection H as <-. }
  split; cbn [ida ctrls subs nvme_subsystems locked].
  - apply (i_lock _ _ I).
  - apply (i_list _ _ I).
  - apply (i_sub _ _ I).
  - intros s x Hs. destruct (i_members _ _ I s x Hs) as [M1 M2]. split; [done|]. intros m. rewrite M2. split.
    + intros (k0 & (k1 & H1 & _ & E)%Hi & H2). exists k1. split; [done|congruence].
    + intros (k0 & (k1 & H1 & _ & E & _)%Hj & H2). exists k1. split; [done|congruence].
  - intros m k0 (k1 & H1 & E1 & E2 & _)%Hj. rewrite E1, E2. by apply (i_ctrl _ _ I m k1).
  - intros j. rewrite (i_ida _ _ I). split; (intros [(m & k0 & H1 & H2)|H]; [left|by right]).
    + apply Hi in H1 as (k1 & H1 & E & _). exists m, k1. split; [done|congruence].
    + apply Hj in H1 as (k1 & H1 & E & _). exists m, k1. split; [done|congruence].
  - intros c1 c2 k1 k2 (l1 & H1 & E1 & _)%Hj (l2 & H2 & E2 & _)%Hj E. apply (i_ctrl_num _ _ I c1 c2 l1 l2); [done|done|congruence].
  - apply (i_sub_num _ _ I).
  - intros m k0 s x (k1 & H1 & E1 & E2 & _)%Hj Hs E. rewrite E2. apply (i_both_num _ _ I m k1 s x); [done|done|congruence].
  - apply (i_nqn _ _ I).
  - intros s c1 c2 k1 k2 (l1 & H1 & _ & _ & T1)%Hj (l2 & H2 & _ & _ & T2)%Hj U1 U2 V1 V2. specialize (T1 V1). specialize (T2 V2).
    subst k1 k2. by apply (i_cntlid _ _ I s c1 c2 l1 l2).
Qed.

Lemma head_put_inv w s x : inv none w → subs w !! s = Some x → 0 < s_heads x → ∃ w', head_put s w = Ok (tt, w') ∧ inv none w'.
Proof.
  intros I Hs Hh. destruct (i_sub _ _ I s x Hs) as (H1 & H2 & _). unfold head_put, mbind, ST_bind, sub_at at 1. rewrite Hs. unfold set_subs.
  assert (inv (at_ s 1 none) (World (ida w) (ctrls w) (<[s := Sub (subnqn x) (s_instance x) (s_kref x) (s_ctrls x) (s_heads x - 1)]> (subs w))
    (nvme_subsystems w) (locked w))) as I1 by (apply (inv_set_sub _ _ _ x); [done|done|lia|lia|lia|lia]).
  destruct (put_sub_inv _ _ s _ I1 (lookup_insert_eq _ _ _)) as (w' & H & I2 & _); [unfold at_; by rewrite decide_True|].
  exists w'. split; [exact H|]. eapply inv_ext; [exact I2|]. intros m. unfold at_. by destruct (decide (m = s)) as [->|]; [rewrite decide_True|].
Qed.

Lemma subs_step_inv w w' : inv none w → step w w' → inv none w'.
Proof.
  intros I [c i cid disc w1 H1 H2 H3 [= <-]|c k H1|e c s k ret w1 H1 H2 H3 H4|c w1 [k H1] H2|s w1 [x H1] H2|s x w1 H1 H2 H3].
  - by apply new_inv.
  - by apply dies_inv.
  - pose proof (init_cases e c s w k I H1 H2 H3) as H. rewrite H4 in H. destruct H as [[_ ->]|[_ H]]; [done|by eapply join_inv].
  - destruct (free_inv _ _ _ I H1) as (w2 & H & I' & _). rewrite H2 in H. by injection H as ->.
  - unfold head_get, mbind, ST_bind, sub_at in H2. rewrite H1 in H2. injection H2 as <-. destruct (i_sub _ _ I s x H1) as (E1 & E2 & E3 & _).
    eapply inv_ext; [apply (inv_set_sub _ _ _ x _ _ 0 I H1); lia|]. intros m. unfold at_. by destruct (decide (m = s)).
  - destruct (head_put_inv _ _ _ I H1 H2) as (w2 & H & I'). rewrite H3 in H. by injection H as ->.
Qed.

Lemma subs_reachable_inv w : rtc step empty_world w → inv none w.
Proof.
  intros H. remember empty_world as w0 eqn:E. assert (inv none w0) as I by (subst; apply empty_inv). clear E.
  induction H as [|x y z Hxy Hyz IH]; [done|]. apply IH. by eapply subs_step_inv.
Qed.

Lemma nothing_left w : inv none w → ctrls w = ∅ → (∀ s x, subs w !! s = Some x → s_heads x = 0) →
  subs w = ∅ ∧ ida w = ∅ ∧ nvme_subsystems w = [].
Proof.
  intros I Hc Hh. assert (subs w = ∅) as Hs.
  { apply map_empty. intros s. destruct (subs w !! s) as [x|] eqn:E; [|done]. exfalso.
    destruct (i_sub _ _ I s x E) as (H1 & H2 & _). rewrite (Hh s x E) in H1. destruct (s_ctrls x) as [|c l] eqn:El; [cbn in H1; lia|].
    destruct (i_members _ _ I s x E) as [_ M]. destruct (proj1 (M c)) as (k & H & _); [rewrite El; apply list_elem_of_here|].
    by rewrite Hc, lookup_empty in H. }
  split; [done|]. split.
  - apply set_eq. intros i. rewrite (i_ida _ _ I), Hc, Hs. split; [|by intros H%elem_of_empty].
    intros [(? & ? & H & _)|(? & ? & H & _)]; by rewrite lookup_empty in H.
  - destruct (i_list _ _ I) as [_ L]. destruct (nvme_subsystems w) as [|s l]; [done|].
    destruct (proj1 (L s)) as [? H]; [apply list_elem_of_here|]. by rewrite Hs, lookup_empty in H.
Qed.
End invariant.

(** C23. Subsystems.  In every state that controllers lead to which take a number, join, die and
    are freed, and namespace heads which come and go: a subsystem is on the list exactly
    while it has references, one for each of its controllers and heads; every number in use
    has one owner, a controller or the subsystem that it founded; names are unique but for
    the discovery one; two live controllers of a subsystem have different identifiers.
    Freeing a controller or a head's reference never uses something freed, never
    frees a number twice and never takes the lock twice; joining either fails and changes
    nothing, or joins, or stops in the known deadlock.  When the controllers and heads
    are gone nothing is left. *)
Theorem nvme_subsystems_sound disc_name w (H : rtc (step disc_name) empty_world w) :
  inv disc_name (λ _, 0) w ∧
  (∀ c k, ctrls w !! c = Some k → is_ok (nvme_free_ctrl c w) = true) ∧
  (∀ s x, subs w !! s = Some x → 0 < s_heads x → is_ok (head_put s w) = true) ∧
  (∀ e c s k, ctrls w !! c = Some k → subsys k = None → subs w !! s = None →
     match nvme_init_subsystem disc_name e c s w with
     | Ok (ret, w') => (ret ≠ 0 ∧ w' = w) ∨ (ret = 0 ∧ joined_sub disc_name w c k w')
     | Err f => f = Deadlock ∧ sysfs_ret e ≠ 0
     end) ∧
  (ctrls w = ∅ → (∀ s x, subs w !! s = Some x → s_heads x = 0) → subs w = ∅ ∧ ida w = ∅ ∧ nvme_subsystems w = []).
Proof.
  apply subs_reachable_inv in H as I. split; [done|]. split; [|split; [|split]].
  - intros c k Hc. by destruct (free_inv _ _ _ _ I Hc) as (? & -> & _).
  - intros s x Hs Hh. by destruct (head_put_inv _ _ _ _ I Hs Hh) as (? & -> & _).
  - intros e c s k H1 H2 H3. pose proof (init_cases disc_name e c s w k I H1 H2 H3) as Hi.
    destruct (nvme_init_subsystem disc_name e c s w) as [[ret w']|f]; [done|]. by destruct Hi as (? & ? & _).
  - by apply nothing_left with (disc_name := disc_name).
Qed.

(** Two controllers with the same name. *)
Definition senv (sysfs : Z) : subsys_env := SEnv true [110; 113; 110] false true 0 sysfs.
Definition two_ctrls : world :=
  World {[ 0; 1 ]} {[ 0%nat := Ctl 0 7 false false (Some 5%nat); 1%nat := Ctl 1 8 false false None ]}
    {[ 5%nat := Sub [110; 113; 110] 0 1 [0%nat] 0 ]} [5%nat] false.
Lemma nvme_subsystems_sound_witness :
  rtc (step []) empty_world two_ctrls ∧
  match nvme_init_subsystem [] (senv 0) 1 6 two_ctrls with
  | Ok (ret, w') => (ret ≠ 0 ∧ w' = two_ctrls) ∨ (ret = 0 ∧ joined_sub [] two_ctrls 1 (Ctl 1 8 false false None) w')
  | Err f => f = Deadlock ∧ 0 ≠ 0
  end.
Proof.
  assert (rtc (step []) empty_world two_ctrls) as Hr.
  { eapply rtc_l; [eapply (step_new [] _ 0 0 7 false); [done|set_solver|done|reflexivity]|].
    eapply rtc_l; [eapply (step_join [] _ (senv 0) 0 5); [reflexivity|reflexivity|reflexivity|vm_compute; reflexivity]|].
    eapply rtc_l; [eapply (step_new [] _ 1 1 8 false); [reflexivity| |done|reflexivity]|].
    - apply (bool_decide_unpack _). vm_compute. exact I.
    - exact (rtc_refl _ _). }
  split; [exact Hr|]. destruct (nvme_subsystems_sound [] two_ctrls Hr) as (_ & _ & _ & H & _).
  exact (H (senv 0) 1%nat 6%nat (Ctl 1 8 false false None) eq_refl eq_refl eq_refl).
Defined.

(** A new subsystem that cannot be linked is given back while the lock of the list is held, and
    its last reference takes that lock. *)
Lemma subsystem_link_failure_deadlocks :
  nvme_init_subsystem [] (senv (- ENOMEM)) 0 5
    (World {[ 0 ]} {[ 0%nat := Ctl 0 7 false false None ]} ∅ [] false) = Err Deadlock.
Proof. vm_compute. reflexivity. Qed.
