(* ===== verification/NvmeEnable.v ===== *)
(** * NVMe core: enabling a controller and its power states (drivers/nvme/host/core.c)

    The switch of a controller on and off with the wait for its status, and the table of
    autonomous power state transitions.  Shown: the wait ends when time passes, a controller
    that was enabled is ready with the configuration that was written, and the table names for
    every state exactly the state the documented policy chooses. *)

From Stdlib Require Import ZArith Lia Bool.
From stdpp Require Import base numbers list option.
From S2P Require Import Prelude.

Local Open Scope list_scope.
Local Open Scope Z_scope.

Definition EINTR : Z := 4.

(** Layout of the registers, from a header. *)
Record nvme_regs := Regs {
  REG_CAP : Z; REG_CC : Z; REG_CSTS : Z; REG_CRTO : Z;
  CAP_MPSMIN : Z → Z; CAP_TIMEOUT : Z → Z; CAP_CSS : Z → Z; CRTO_CRWMT : Z → Z;
  CAP_CSS_CSI : Z; CAP_CRMS_CRWMS : Z;
  CC_ENABLE : Z; CC_CSS_NVM : Z; CC_CSS_CSI : Z; CC_CRIME : Z; CC_MPS_SHIFT : Z; CC_AMS_RR : Z;
  CC_SHN_MASK : Z; CC_SHN_NONE : Z; CC_SHN_NORMAL : Z; CC_IOSQES : Z; CC_IOCQES : Z;
  CSTS_RDY : Z; CSTS_SHST_MASK : Z; CSTS_SHST_CMPLT : Z;
  CTRL_PAGE_SHIFT : Z
}.

Inductive event :=
| RegRead (reg : Z)
| RegWrite (reg val : Z)
| Usleep | Msleep
| SetFeatures (fid dword11 : Z) (buffer : list Z).
#[export] Instance event_eq_dec : EqDecision event.
Proof. solve_decision. Defined.

(** [time_after(a, b)] on unsigned longs. *)
Definition time_after (a b : Z) : bool := 2 ^ 63 <=? u64 (b - a).

Section enable.
Context (R : nvme_regs) (HZ : Z).
(** The transport: status and value of an access; the clock and pending signals. *)
Context (dev : list event → event → Z * Z) (jiffies : list event → Z) (signal : list event → bool).

(** [None] when the fuel runs out. *)
Fixpoint wait_loop (fuel : nat) (mask val timeout_jiffies : Z) : TR event (option Z) :=
  match fuel with
  | O => mret None
  | S fuel' =>
      r ← ask dev (RegRead (REG_CSTS R));
      if negb (r.1 =? 0) then mret (Some r.1)
      else if r.2 =? 0xffffffff then mret (Some (- ENODEV))
      else if Z.land r.2 mask =? val then mret (Some 0)
      else
        emit Usleep;;
        sig ← (λ t, (signal t, t));
        if sig : bool then mret (Some (- EINTR))
        else
          now ← (λ t, (jiffies t, t));
          if time_after now timeout_jiffies then mret (Some (- ENODEV))
          else wait_loop fuel' mask val timeout_jiffies
  end.
Definition nvme_wait_ready (fuel : nat) (mask val timeout : Z) : TR event (option Z) :=
  now ← (λ t, (jiffies t, t));
  wait_loop fuel mask val (u64 (now + u32 (timeout * HZ))).

(** The answer and the configuration the driver keeps. *)
Definition nvme_disable_ctrl (fuel : nat) (delay_quirk shutdown : bool) (shutdown_timeout cap ctrl_config : Z)
    : TR event (option Z * Z) :=
  let cc := Z.land ctrl_config (not32 (CC_SHN_MASK R)) in
  let cc := if shutdown then Z.lor cc (CC_SHN_NORMAL R) else Z.land cc (not32 (CC_ENABLE R)) in
  r ← ask dev (RegWrite (REG_CC R) cc);
  if negb (r.1 =? 0) then mret (Some r.1, cc)
  else if shutdown then
    ret ← nvme_wait_ready fuel (CSTS_SHST_MASK R) (CSTS_SHST_CMPLT R) shutdown_timeout;
    mret (ret, cc)
  else
    (if delay_quirk : bool then emit Msleep else mret tt);;
    ret ← nvme_wait_ready fuel (CSTS_RDY R) 0 (u32 (CAP_TIMEOUT R cap + 1) / 2);
    mret (ret, cc).

Definition initial_config (cap : Z) : Z :=
  let cc := if negb (Z.land (CAP_CSS R cap) (CAP_CSS_CSI R) =? 0) then CC_CSS_CSI R else CC_CSS_NVM R in
  let cc := Z.land cc (not32 (CC_CRIME R)) in
  let cc := Z.lor cc (u32 (Z.shiftl (CTRL_PAGE_SHIFT R - 12) (CC_MPS_SHIFT R))) in
  let cc := Z.lor cc (Z.lor (CC_AMS_RR R) (CC_SHN_NONE R)) in
  Z.lor cc (Z.lor (CC_IOSQES R) (CC_IOCQES R)).

(** The last step: set the enable bit and wait. *)
Definition switch_on (fuel : nat) (timeout cc : Z) : TR event (option Z * Z) :=
  let cc := Z.lor cc (CC_ENABLE R) in
  r ← ask dev (RegWrite (REG_CC R) cc);
  if negb (r.1 =? 0) then mret (Some r.1, cc)
  else
    ret ← nvme_wait_ready fuel (CSTS_RDY R) (CSTS_RDY R) (u32 (timeout + 1) / 2);
    mret (ret, cc).

(** The answer and the configuration (that of before when the controller is refused). *)
Definition nvme_enable_ctrl (fuel : nat) (ctrl_config : Z) : TR event (option Z * Z) :=
  r ← ask dev (RegRead (REG_CAP R));
  if negb (r.1 =? 0) then mret (Some r.1, ctrl_config)
  else if CTRL_PAGE_SHIFT R <? CAP_MPSMIN R r.2 + 12 then mret (Some (- ENODEV), ctrl_config)
  else
    let cc := initial_config r.2 in
    w ← ask dev (RegWrite (REG_CC R) cc);
    if negb (w.1 =? 0) then mret (Some w.1, cc)
    else
      r ← ask dev (RegRead (REG_CAP R));
      if negb (r.1 =? 0) then mret (Some r.1, cc)
      else
        let timeout := CAP_TIMEOUT R r.2 in
        if negb (Z.land r.2 (CAP_CRMS_CRWMS R) =? 0) then
          c ← ask dev (RegRead (REG_CRTO R));
          if negb (c.1 =? 0) then mret (Some c.1, cc)
          else switch_on fuel (if CRTO_CRWMT R c.2 <? timeout then timeout else CRTO_CRWMT R c.2) cc
        else switch_on fuel timeout cc.
End enable.

(** ** The wait ends *)

Definition sleeps (t : list event) : Z := Z.of_nat (length (filter (λ e, e = Usleep) t)).

Lemma sleeps_app t u : sleeps (t ++ u) = sleeps t + sleeps u.
Proof. unfold sleeps. rewrite list.filter_app, length_app. lia. Qed.

(** Time passes: the tick counter is a counter of 64 bits that never goes back, advances at
    least once in [per] sleeps and does not advance by [2 ^ 61] in one step. *)
Class Clock (jiffies : list event → Z) (per : Z) := {
  boot : Z;
  elapsed : list event → Z;
  clock_reads : ∀ t, jiffies t = u64 (boot + elapsed t);
  clock_step : ∀ t e, elapsed t ≤ elapsed (t ++ [e]) ≤ elapsed t + 2 ^ 61;
  clock_runs : ∀ t u, elapsed t + sleeps u / per ≤ elapsed (t ++ u);
  clock_per : 0 < per
}.

Lemma time_after_exact b x y : - 2 ^ 63 ≤ y - x < 2 ^ 63 → time_after (u64 (b + x)) (u64 (b + y)) = (y <? x).
Proof.
  intros Hb. unfold time_after, u64. rewrite <- Zminus_mod. replace (b + y - (b + x)) with (y - x) by lia.
  destruct (Z.ltb_spec y x).
  - rewrite <- (Z_mod_plus_full _ 1), Z.mod_small by lia. apply Z.leb_le. lia.
  - rewrite Z.mod_small by lia. apply Z.leb_gt. lia.
Qed.

Section waiting.
Context (R : nvme_regs) (HZ per : Z).
Context (dev : list event → event → Z * Z) (jiffies : list event → Z) (signal : list event → bool).
Context `{Ck : !Clock jiffies per}.
Abbreviation rd := (RegRead (REG_CSTS R)).

(** Why a wait that began at [t] ended after the events [u] with the answer [r]. *)
Inductive wait_end (mask val deadline : Z) (t : list event) : list event → Z → Prop :=
| end_error u r : (dev (t ++ u) rd).1 = r → r ≠ 0 → wait_end mask val deadline t (u ++ [rd]) r
| end_gone u : dev (t ++ u) rd = (0, 0xffffffff) → wait_end mask val deadline t (u ++ [rd]) (- ENODEV)
| end_ready u c : dev (t ++ u) rd = (0, c) → Z.land c mask = val → wait_end mask val deadline t (u ++ [rd]) 0
| end_signal u : signal (t ++ u) = true → wait_end mask val deadline t u (- EINTR)
| end_late u : deadline < elapsed (t ++ u) → wait_end mask val deadline t u (- ENODEV).

Lemma wait_end_after mask val deadline t v u r :
  wait_end mask val deadline (t ++ v) u r → wait_end mask val deadline t (v ++ u) r.
Proof.
  intros H. destruct H as [u r H1 H2|u H1|u c H1 H2|u H1|u H1]; rewrite <- ?(app_assoc t) in H1; rewrite ?(app_assoc v).
  - by apply end_error.
  - by apply end_gone.
  - by eapply end_ready.
  - by apply end_signal.
  - by apply end_late.
Qed.

Lemma wait_loop_ends fuel : ∀ mask val base T t n, elapsed t ≤ base + T → base ≤ elapsed t → 0 ≤ T < 2 ^ 32 →
  per * (T + 1) - n < Z.of_nat fuel → (∀ u, base + (n + sleeps u) / per ≤ elapsed (t ++ u)) →
  ∃ r u, wait_loop R dev jiffies signal fuel mask val (u64 (boot + (base + T))) t = (Some r, t ++ u) ∧
         wait_end mask val (base + T) t u r.
Proof.
  pose proof clock_per as Hper. induction fuel as [|fuel IH]; intros mask val base T t n He Hb HT Hf Hr.
  { exfalso. specialize (Hr []). rewrite app_nil_r in Hr. change (sleeps []) with 0 in Hr.
    pose proof (Z.div_mod (n + 0) per). pose proof (Z.mod_pos_bound (n + 0) per). nia. }
  cbn [wait_loop]. trace_step. destruct (dev t rd) as [ret csts] eqn:Ed. cbn [fst snd].
  assert (dev (t ++ []) rd = (ret, csts)) as Ed' by (by rewrite app_nil_r).
  destruct (Z.eqb_spec ret 0) as [->|Hret]; cbn [negb].
  2:{ exists ret, [rd]. split; [done|]. apply (end_error _ _ _ _ []); [by rewrite Ed'|done]. }
  destruct (Z.eqb_spec csts 0xffffffff) as [->|Hc]; [eexists _, [rd]; split; [done|]; by apply (end_gone _ _ _ _ [])|].
  destruct (Z.eqb_spec (Z.land csts mask) val) as [Hv|Hv]; [eexists _, [rd]; split; [done|]; by apply (end_ready _ _ _ _ [] csts)|].
  trace_step. rewrite <- app_assoc. cbn [app].
  destruct (signal (t ++ [rd; Usleep])) eqn:Es; [eexists _, _; split; [done|]; by apply end_signal|].
  trace_step. rewrite clock_reads.
  assert (elapsed t ≤ elapsed (t ++ [rd; Usleep]) ≤ elapsed t + 2 ^ 62) as Hst.
  { pose proof (clock_step t rd). pose proof (clock_step (t ++ [rd]) Usleep) as H2. rewrite <- app_assoc in H2.
    cbn [app] in H2. lia. }
  rewrite time_after_exact by lia. destruct (Z.ltb_spec (base + T) (elapsed (t ++ [rd; Usleep]))) as [Hl|Hl].
  - eexists _, _. split; [done|]. by apply end_late.
  - destruct (IH mask val base T (t ++ [rd; Usleep]) (n + 1)) as (r & u & Hw & Hend); [done|lia|done|lia| |].
    + intros u. specialize (Hr ([rd; Usleep] ++ u)). rewrite sleeps_app in Hr. change (sleeps [rd; Usleep]) with 1 in Hr.
      rewrite app_assoc in Hr. by replace (n + 1 + sleeps u) with (n + (1 + sleeps u)) by lia.
    + exists r, ([rd; Usleep] ++ u). rewrite Hw, app_assoc. split; [done|]. by apply wait_end_after.
Qed.

Definition wait_fuel (timeout : Z) : nat := Z.to_nat (per * (u32 (timeout * HZ) + 1) + 1).

Lemma wait_ready_ends fuel mask val timeout t : (wait_fuel timeout ≤ fuel)%nat →
  ∃ r u, nvme_wait_ready R HZ dev jiffies signal fuel mask val timeout t = (Some r, t ++ u) ∧
         wait_end mask val (elapsed t + u32 (timeout * HZ)) t u r.
Proof.
  intros Hf. unfold nvme_wait_ready. trace_step. rewrite clock_reads. pose proof (u32_range (timeout * HZ)) as HT.
  assert (u64 (u64 (boot + elapsed t) + u32 (timeout * HZ)) = u64 (boot + (elapsed t + u32 (timeout * HZ)))) as ->.
  { unfold u64. rewrite Z.add_mod_idemp_l by lia. f_equal. lia. }
  apply (wait_loop_ends fuel mask val _ _ t 0); [lia|lia|done| |].
  - pose proof clock_per. unfold wait_fuel in Hf. nia.
  - intros u. apply clock_runs.
Qed.
End waiting.

(** ** Enabling a controller *)

Definition config_writes (t : list event) : list Z :=
  omap (λ e, match e with RegWrite _ v => Some v | _ => None end) t.
Definition no_write (e : event) : bool := match e with RegWrite _ _ => false | _ => true end.

Lemma no_config_writes u : forallb no_write u = true → config_writes u = [].
Proof.
  induction u as [|e u IH]; [done|]. cbn [forallb]. intros [H1 H2]%andb_prop. destruct e; try done; by apply IH.
Qed.

Lemma wait_ready_quiet R HZ dev jiffies signal fuel mask val timeout :
  quiet no_write (nvme_wait_ready R HZ dev jiffies signal fuel mask val timeout).
Proof.
  unfold nvme_wait_ready. apply quiet_bind; [apply quiet_read|]. intros now. generalize (u64 (now + u32 (timeout * HZ))).
  induction fuel as [|fuel IH]; intros d; cbn [wait_loop]; [apply quiet_ret|]. auto 20 with quiet.
Qed.

Section enabling.
Context (R : nvme_regs) (HZ per : Z).
Context (dev : list event → event → Z * Z) (jiffies : list event → Z) (signal : list event → bool).
Context `{Ck : !Clock jiffies per}.
Abbreviation rd := (RegRead (REG_CSTS R)).

(** More than any time-out needs. *)
Definition enough (fuel : nat) : Prop := (Z.to_nat (per * 2 ^ 32 + 1) ≤ fuel)%nat.

Lemma enough_wait fuel timeout : enough fuel → (wait_fuel HZ per timeout ≤ fuel)%nat.
Proof. unfold enough, wait_fuel. pose proof (u32_range (timeout * HZ)). pose proof clock_per. nia. Qed.

(** The wait of a step: its answer, that it writes nothing, and what an answer of zero
    says. *)
Lemma wait_step fuel mask val timeout t : enough fuel →
  ∃ r u, nvme_wait_ready R HZ dev jiffies signal fuel mask val timeout t = (Some r, t ++ u) ∧ config_writes u = [] ∧
    (r = 0 → ∃ v c, u = v ++ [rd] ∧ dev (t ++ v) rd = (0, c) ∧ Z.land c mask = val).
Proof.
  intros Hf. destruct (wait_ready_ends R HZ per dev jiffies signal fuel mask val timeout t) as (r & u & Hw & He); [by apply enough_wait|].
  exists r, u. split; [done|]. split.
  - destruct (wait_ready_quiet R HZ dev jiffies signal fuel mask val timeout t) as (u' & Hu & Hq). rewrite Hw in Hu.
    apply app_inv_head in Hu as ->. by apply no_config_writes.
  - intros ->. inversion He; subst; try done. by eexists _, _.
Qed.

(** What an attempt to enable leaves behind: the answer, the configuration that is kept, the
    writes, and the readiness that a success needs. *)
Definition enabled (cap cc0 : Z) (t : list event) (r cc : Z) (u : list event) : Prop :=
  let cc1 := initial_config R cap in
  let cc2 := Z.lor cc1 (CC_ENABLE R) in
  config_writes u `prefix_of` [cc1; cc2] ∧
  (r = 0 → cc = cc2 ∧ config_writes u = [cc1; cc2] ∧
     ∃ v c, u = v ++ [rd] ∧ dev (t ++ v) rd = (0, c) ∧ Z.land c (CSTS_RDY R) = CSTS_RDY R) ∧
  (CTRL_PAGE_SHIFT R < CAP_MPSMIN R cap + 12 → r = - ENODEV ∧ cc = cc0 ∧ config_writes u = []).

Lemma switch_on_ends fuel timeout cap t0 u0 : enough fuel → CAP_MPSMIN R cap + 12 ≤ CTRL_PAGE_SHIFT R →
  config_writes u0 = [initial_config R cap] →
  ∃ r cc u, switch_on R HZ dev jiffies signal fuel timeout (initial_config R cap) (t0 ++ u0) = ((Some r, cc), t0 ++ u) ∧
    ∀ cc0, enabled cap cc0 t0 r cc u.
Proof.
  intros Hf Hp Hu. unfold switch_on. trace_step. rewrite <- app_assoc.
  set (w := RegWrite (REG_CC R) _). set (cc2 := Z.lor (initial_config R cap) (CC_ENABLE R)) in *.
  assert (config_writes (u0 ++ [w]) = [initial_config R cap; cc2]) as Hw.
  { unfold config_writes in *. rewrite omap_app, Hu. done. }
  destruct (Z.eqb_spec (dev (t0 ++ u0) w).1 0) as [E|E]; cbn [negb].
  - rewrite TR_bind_eq. destruct (wait_step fuel (CSTS_RDY R) (CSTS_RDY R) (u32 (timeout + 1) / 2) (t0 ++ u0 ++ [w]) Hf)
      as (r & v & -> & Hv & Hr). cbn [fst snd]. rewrite TR_ret_eq, <- !app_assoc.
    exists r, cc2, (u0 ++ [w] ++ v). split; [by rewrite <- ?app_assoc|]. intros cc0.
    assert (config_writes (u0 ++ [w] ++ v) = [initial_config R cap; cc2]) as Hall.
    { rewrite app_assoc. unfold config_writes in *. rewrite omap_app, Hw, Hv. done. }
    unfold enabled. cbn zeta. fold cc2. rewrite Hall. split; [done|]. split; [|lia]. intros ->. split; [done|]. split; [done|].
    destruct (Hr eq_refl) as (v' & c & -> & Hd & Hc). exists (u0 ++ [w] ++ v'), c.
    rewrite <- !app_assoc in *. done.
  - exists (dev (t0 ++ u0) w).1, cc2, (u0 ++ [w]). split; [done|]. intros cc0. unfold enabled. cbn zeta. fold cc2.
    rewrite Hw. split; [done|]. split; [done|lia].
Qed.

Lemma enable_ends fuel cc0 t : enough fuel →
  ∃ r cc u, nvme_enable_ctrl R HZ dev jiffies signal fuel cc0 t = ((Some r, cc), t ++ u) ∧
    ((dev t (RegRead (REG_CAP R))).1 = 0 → enabled (dev t (RegRead (REG_CAP R))).2 cc0 t r cc u).
Proof.
  intros Hf. unfold nvme_enable_ctrl. trace_step. set (ca := RegRead (REG_CAP R)). destruct (dev t ca) as [e cap] eqn:Ec. cbn [fst snd].
  destruct (Z.eqb_spec e 0) as [->|He]; cbn [negb]; [|exists e, cc0, [ca]; split; [done|]; intros; lia].
  destruct (Z.ltb_spec (CTRL_PAGE_SHIFT R) (CAP_MPSMIN R cap + 12)) as [Hp|Hp].
  { eexists _, _, [ca]. split; [done|]. intros _. split; [apply prefix_nil|]. done. }
  trace_step. rewrite <- app_assoc. set (w := RegWrite (REG_CC R) _).
  assert (∀ r u, config_writes u = [initial_config R cap] → r ≠ 0 → enabled cap cc0 t r (initial_config R cap) u) as Hfail.
  { intros r u Hu Hr. unfold enabled. rewrite Hu. split; [by exists [Z.lor (initial_config R cap) (CC_ENABLE R)]|]. split; [done|lia]. }
  destruct (Z.eqb_spec (dev (t ++ [ca]) w).1 0) as [E|E]; cbn [negb]; [|eexists _, _, _; split; [done|]; intros _; by apply Hfail].
  trace_step. rewrite <- app_assoc. destruct (dev (t ++ [ca] ++ [w]) ca) as [e2 cap2]. cbn [fst snd].
  destruct (Z.eqb_spec e2 0) as [->|He2]; cbn [negb]; [|eexists _, _, _; split; [done|]; intros _; by apply Hfail].
  destruct (negb _).
  - trace_step. rewrite <- !app_assoc. match goal with |- context [negb (?x =? 0)] => destruct (Z.eqb_spec x 0) as [E3|E3] end; cbn [negb].
    + match goal with |- context [switch_on _ _ _ _ _ _ ?to _ (t ++ ?v)] =>
        destruct (switch_on_ends fuel to cap t v Hf) as (r & cc & u & -> & H); [done|done|] end.
      exists r, cc, u. split; [done|]. intros _. apply H.
    + eexists _, _, _. split; [done|]. intros _. by apply Hfail.
  - rewrite <- !app_assoc. destruct (switch_on_ends fuel (CAP_TIMEOUT R cap2) cap t ([ca] ++ [w] ++ [ca]) Hf) as (r & cc & u & -> & H); [done|done|].
    exists r, cc, u. split; [done|]. intros _. apply H.
Qed.

(** The bit that a switch-off clears stays clear in the configuration that is written. *)
Lemma disable_ends fuel delay shutdown sto cap cc0 t : enough fuel →
  ∃ r cc u, nvme_disable_ctrl R HZ dev jiffies signal fuel delay shutdown sto cap cc0 t = ((Some r, cc), t ++ u) ∧
    config_writes u = [cc] ∧
    (r = 0 → ∃ v c, u = v ++ [rd] ∧ dev (t ++ v) rd = (0, c) ∧
       if shutdown then Z.land c (CSTS_SHST_MASK R) = CSTS_SHST_CMPLT R else Z.land c (CSTS_RDY R) = 0).
Proof.
  intros Hf. unfold nvme_disable_ctrl. trace_step. set (w := RegWrite (REG_CC R) _).
  destruct (Z.eqb_spec (dev t w).1 0) as [E|E]; cbn [negb]; [|eexists _, _, [w]; done].
  assert (∀ mask val to t1, ∃ r u1, (nvme_wait_ready R HZ dev jiffies signal fuel mask val to t1) = (Some r, t1 ++ u1) ∧
    config_writes u1 = [] ∧ (r = 0 → ∃ v c, u1 = v ++ [rd] ∧ dev (t1 ++ v) rd = (0, c) ∧ Z.land c mask = val)) as Hwait
    by (intros; by apply wait_step).
  assert (∀ mask val to cc d, config_writes d = [] → w = RegWrite (REG_CC R) cc →
    ∃ r u, (ret ← nvme_wait_ready R HZ dev jiffies signal fuel mask val to; mret (ret, cc)) ((t ++ [w]) ++ d) =
      ((Some r, cc), t ++ u) ∧ config_writes u = [cc] ∧
      (r = 0 → ∃ v c, u = v ++ [rd] ∧ dev (t ++ v) rd = (0, c) ∧ Z.land c mask = val)) as Hgo.
  { intros mask val to cc d Hd Hw. rewrite TR_bind_eq. destruct (Hwait mask val to ((t ++ [w]) ++ d)) as (r & u & -> & Hu & Hr).
    cbn [fst snd]. rewrite TR_ret_eq. exists r, (([w] ++ d) ++ u). split; [by rewrite <- !app_assoc|].
    split; [unfold config_writes in *; by rewrite !omap_app, Hu, Hd, Hw|].
    intros H0. destruct (Hr H0) as (v & c & -> & Hdv & Hc). exists (([w] ++ d) ++ v), c. by rewrite <- !app_assoc in *. }
  destruct shutdown.
  - destruct (Hgo (CSTS_SHST_MASK R) (CSTS_SHST_CMPLT R) sto _ [] eq_refl eq_refl) as (r & u & H & H2).
    rewrite app_nil_r in H. by eexists r, _, u.
  - destruct delay; trace_step.
    + destruct (Hgo (CSTS_RDY R) 0 (u32 (CAP_TIMEOUT R cap + 1) / 2) _ [Msleep] eq_refl eq_refl) as (r & u & H & H2).
      eexists r, _, u. rewrite TR_bind_eq, TR_ret_eq in H. by rewrite H.
    + destruct (Hgo (CSTS_RDY R) 0 (u32 (CAP_TIMEOUT R cap + 1) / 2) _ [] eq_refl eq_refl) as (r & u & H & H2).
      rewrite app_nil_r in H. eexists r, _, u. rewrite TR_bind_eq, TR_ret_eq in H. by rewrite H.
Qed.
End enabling.


(** A controller with the usual registers that is ready when its enable bit is set, a clock
    that counts the events. *)
Definition usual_regs : nvme_regs :=
  Regs 0 0x14 0x1c 0x68 (λ c, Z.land (Z.shiftr c 48) 0xf) (λ c, Z.land (Z.shiftr c 24) 0xff) (λ c, Z.land (Z.shiftr c 37) 0xff)
       (λ c, Z.land c 0xffff) 64 (BIT 59) 1 0 (Z.shiftl 6 4) (BIT 24) 7 0 (Z.shiftl 3 14) 0 (Z.shiftl 1 14) (Z.shiftl 6 16)
       (Z.shiftl 4 20) 1 (Z.shiftl 3 2) (Z.shiftl 2 2) 12.
Definition usual_dev (t : list event) (e : event) : Z * Z :=
  match e with
  | RegRead r => if r =? 0 then (0, Z.shiftl 20 24) else if r =? 0x1c then (0, Z.land (List.last (config_writes t) 0) 1) else (0, 0)
  | _ => (0, 0)
  end.
#[export] Instance event_clock : Clock (λ t, u64 (7 + Z.of_nat (length t))) 1.
Proof.
  refine {| boot := 7; elapsed := λ t, Z.of_nat (length t) |}.
  - done.
  - intros t e. rewrite length_app. cbn [length]. lia.
  - intros t u. rewrite length_app, Z.div_1_r. unfold sleeps. pose proof (length_filter (λ e, e = Usleep) u). lia.
  - lia.
Defined.


(** ** Autonomous power state transitions *)

Record power_state := Ps { non_op : bool; exit_lat : Z; entry_lat : Z }.

(** The module parameters, and what the driver knows of the controller. *)
Record apst_params := ApstParams {
  primary_timeout_ms : Z; primary_latency_tol_us : Z; secondary_timeout_ms : Z; secondary_latency_tol_us : Z
}.
Record apst_ctrl := ApstCtrl {
  apsta : bool; npss : Z; apst_enabled : bool; ps_max_latency_us : Z; no_deepest_ps : bool; psd : Z → power_state
}.

Section apst.
Context (P : apst_params) (C : apst_ctrl).

(** The time and the index of the tolerance, [None] when the state is not used. *)
Definition nvme_apst_get_transition_time (total_latency last_index : Z) : option (Z * Z) :=
  if total_latency <=? primary_latency_tol_us P then
    if last_index =? 1 then None else Some (primary_timeout_ms P, 1)
  else if negb (secondary_timeout_ms P =? 0) && (total_latency <=? secondary_latency_tol_us P) then
    if last_index <=? 2 then None else Some (secondary_timeout_ms P, 2)
  else None.

Record apst_loop := Loop { target : Z; last_lt_index : Z; entries : list Z }.

Definition explicit : bool := negb (primary_timeout_ms P =? 0) && negb (primary_latency_tol_us P =? 0).

(** One turn of the loop over the states. *)
Definition apst_step (state : Z) (s : apst_loop) : apst_loop :=
  let s := Loop (target s) (last_lt_index s)
             (if negb (target s =? 0) then <[Z.to_nat state := target s]> (entries s) else entries s) in
  if (state =? npss C) && no_deepest_ps C then s
  else if negb (non_op (psd C state)) then s
  else
    let exit_latency_us := exit_lat (psd C state) in
    if ps_max_latency_us C <? exit_latency_us then s
    else
      let total_latency_us := exit_latency_us + entry_lat (psd C state) in
      match
        if explicit then nvme_apst_get_transition_time total_latency_us (last_lt_index s)
        else
          let transition_ms := (total_latency_us + 19) / 20 in
          Some (if 2 ^ 24 - 1 <? transition_ms then 2 ^ 24 - 1 else transition_ms, last_lt_index s)
      with
      | None => s
      | Some (transition_ms, last) =>
          Loop (u64 (Z.lor (Z.shiftl state 3) (Z.shiftl transition_ms 8))) last (entries s)
      end.

(** The states below [n], from the last one down. *)
Fixpoint apst_states (n : nat) (s : apst_loop) : apst_loop :=
  match n with O => s | S n' => apst_states n' (apst_step (Z.of_nat n') s) end.

Definition apst_table : list Z :=
  entries (apst_states (Z.to_nat (npss C + 1)) (Loop 0 (2 ^ 32 - 1) (replicate 32 0))).

(** [set_features]: the answer of the controller. *)
Definition nvme_configure_apst (NVME_FEAT_AUTO_PST : Z) (alloc : bool) (set_features : list event → event → Z) : TR event Z :=
  if negb (apsta C) then mret 0
  else if 31 <? npss C then mret 0
  else if negb alloc then mret 0
  else if negb (apst_enabled C) || (ps_max_latency_us C =? 0)
  then ask set_features (SetFeatures NVME_FEAT_AUTO_PST 0 (replicate 32 0))
  else ask set_features (SetFeatures NVME_FEAT_AUTO_PST 1 apst_table).
End apst.

(** The tolerance in force and whether the table is written again. *)
Definition nvme_set_latency_tolerance (NO_CONSTRAINT ANY : Z) (live : bool) (val old : Z) : Z * bool :=
  let latency := if (val =? NO_CONSTRAINT) || (val =? ANY) then 2 ^ 64 - 1 else u64 val in
  (latency, negb (old =? latency) && live).

(** ** The policy behind the table *)

(** The largest number below [n] with a property, -1 if there is none. *)
Fixpoint deepest (p : Z → bool) (n : nat) : Z :=
  match n with O => -1 | S n' => if p (Z.of_nat n') then Z.of_nat n' else deepest p n' end.

Lemma deepest_spec p n : -1 ≤ deepest p n < Z.of_nat n ∧ (0 ≤ deepest p n → p (deepest p n) = true) ∧
  ∀ j, deepest p n < j < Z.of_nat n → p j = false.
Proof.
  induction n as [|n (IH1 & IH2 & IH3)]; [cbn; repeat split; lia|]. cbn [deepest]. destruct (p (Z.of_nat n)) eqn:E.
  - repeat split; [lia|lia|done|lia].
  - repeat split; [lia|lia|done|]. intros j Hj. destruct (Z.eq_dec j (Z.of_nat n)) as [->|]; [done|]. apply IH3. lia.
Qed.

Section policy.
Context (P : apst_params) (C : apst_ctrl).
Hypothesis npss_ok : 0 ≤ npss C ≤ 31.
Abbreviation N := (Z.to_nat (npss C + 1)).

(** A state the controller may enter by itself. *)
Definition usable (t : Z) : bool :=
  negb ((t =? npss C) && no_deepest_ps C) && non_op (psd C t) && (exit_lat (psd C t) <=? ps_max_latency_us C).
Definition total (t : Z) : Z := exit_lat (psd C t) + entry_lat (psd C t).
Definition within_primary (t : Z) : bool := usable t && (total t <=? primary_latency_tol_us P).
Definition within_secondary (t : Z) : bool :=
  usable t && negb (total t <=? primary_latency_tol_us P) && negb (secondary_timeout_ms P =? 0) &&
  (total t <=? secondary_latency_tol_us P).

(** Where the controller goes from the states below [k], and after how many milliseconds: with
    explicit parameters the deepest state within the first tolerance, else the deepest one
    within the second; without, the next usable state after fifty times its latency. *)
Definition policy (k : Z) : option (Z * Z) :=
  if explicit P then
    if k <=? deepest within_primary N then Some (deepest within_primary N, primary_timeout_ms P)
    else if k <=? deepest within_secondary N then Some (deepest within_secondary N, secondary_timeout_ms P)
    else None
  else (λ t, (t, Z.min ((total t + 19) / 20) (2 ^ 24 - 1))) <$> List.find usable (seqZ k (npss C + 1 - k)).
Definition encode (e : option (Z * Z)) : Z :=
  match e with None => 0 | Some (t, ms) => u64 (Z.lor (Z.shiftl t 3) (Z.shiftl ms 8)) end.

(** The index of the tolerance that was used last. *)
Definition index_at (k : Z) : Z :=
  if explicit P then
    if k <=? deepest within_primary N then 1 else if k <=? deepest within_secondary N then 2 else 2 ^ 32 - 1
  else 2 ^ 32 - 1.

Definition apst_inv (k : Z) (s : apst_loop) : Prop :=
  target s = encode (policy k) ∧ last_lt_index s = index_at k ∧ length (entries s) = 32%nat ∧
  ∀ i, 0 ≤ i < 32 → entries s !! Z.to_nat i = Some (if (k <=? i) && (i <=? npss C) then encode (policy (i + 1)) else 0).

(** The choice at one state, on the terms of the loop. *)
Lemma choice_step k : 0 ≤ k ≤ npss C →
  (encode (policy k), index_at k) =
  if usable k then
    match (if explicit P then nvme_apst_get_transition_time P (total k) (index_at (k + 1))
           else Some (if 2 ^ 24 - 1 <? (total k + 19) / 20 then 2 ^ 24 - 1 else (total k + 19) / 20, index_at (k + 1))) with
    | None => (encode (policy (k + 1)), index_at (k + 1))
    | Some (ms, last) => (encode (Some (k, ms)), last)
    end
  else (encode (policy (k + 1)), index_at (k + 1)).
Proof.
  intros Hk. unfold policy, index_at. destruct (explicit P).
  - destruct (deepest_spec within_primary N) as (A1 & A2 & A3). destruct (deepest_spec within_secondary N) as (B1 & B2 & B3).
    set (D1 := deepest within_primary N) in *. set (D2 := deepest within_secondary N) in *.
    unfold nvme_apst_get_transition_time. specialize (A3 k). specialize (B3 k).
    assert (∀ D (p : Z → bool), (0 ≤ D → p D = true) → p k = false → k ≠ D) as Hne.
    { intros D p HD Hb E. rewrite <- E, Hb in HD. by specialize (HD ltac:(lia)). }
    specialize (Hne D1 within_primary A2) as Hne1. specialize (Hne D2 within_secondary B2) as Hne2. clear Hne A2 B2.
    unfold within_primary in A3, Hne1. unfold within_secondary in B3, Hne2.
    destruct (usable k) eqn:Eu; cbn [andb] in A3, B3, Hne1, Hne2.
    + destruct (Z.leb_spec (total k) (primary_latency_tol_us P)) as [Hp|Hp].
      * assert (k ≤ D1) by (destruct (Z.le_gt_cases k D1); [done|]; by specialize (A3 ltac:(lia))).
        destruct (Z.leb_spec k D1); [|lia]. destruct (Z.leb_spec (k + 1) D1).
        -- done.
        -- assert (D1 = k) as -> by lia. by destruct (k + 1 <=? D2).
      * specialize (Hne1 eq_refl). cbn [negb andb] in B3, Hne2.
        destruct (negb (secondary_timeout_ms P =? 0) && (total k <=? secondary_latency_tol_us P)) eqn:Es.
        -- assert (k ≤ D2) by (destruct (Z.le_gt_cases k D2); [done|]; by specialize (B3 ltac:(lia))).
           destruct (Z.leb_spec k D1), (Z.leb_spec (k + 1) D1), (Z.leb_spec k D2), (Z.leb_spec (k + 1) D2); try (done || lia).
           assert (D2 = k) as -> by lia. done.
        -- specialize (Hne2 eq_refl).
           destruct (Z.leb_spec k D1), (Z.leb_spec (k + 1) D1), (Z.leb_spec k D2), (Z.leb_spec (k + 1) D2); done || lia.
    + specialize (Hne1 eq_refl). specialize (Hne2 eq_refl).
      destruct (Z.leb_spec k D1), (Z.leb_spec (k + 1) D1), (Z.leb_spec k D2), (Z.leb_spec (k + 1) D2); done || lia.
  - rewrite seqZ_cons by lia. cbn [List.find]. destruct (usable k).
    + cbn [fmap option_fmap option_map]. f_equal. f_equal. f_equal. f_equal.
      destruct (Z.ltb_spec (2 ^ 24 - 1) ((total k + 19) / 20)); lia.
    + by replace (Z.pred (npss C + 1 - k)) with (npss C + 1 - Z.succ k) by lia.
Qed.

Lemma apst_step_inv k s : 0 ≤ k ≤ npss C → apst_inv (k + 1) s → apst_inv k (apst_step P C k s).
Proof.
  intros Hk (Ht & Hl & Hlen & He).
  set (es := if negb (target s =? 0) then <[Z.to_nat k := target s]> (entries s) else entries s).
  assert (apst_step P C k s = Loop (encode (policy k)) (index_at k) es) as ->.
  { pose proof (choice_step k Hk) as Hc. unfold apst_step. fold es. cbn [target last_lt_index entries]. unfold usable in Hc.
    rewrite Z.leb_antisym in Hc. rewrite <- Hl, <- Ht in Hc. fold (total k).
    destruct ((k =? npss C) && no_deepest_ps C); cbn [negb andb] in Hc; [by injection Hc as -> ->|].
    destruct (non_op (psd C k)); cbn [negb andb] in *; [|by injection Hc as -> ->].
    destruct (ps_max_latency_us C <? exit_lat (psd C k)); cbn [negb] in *; [by injection Hc as -> ->|].
    destruct (if explicit P then _ else _) as [[ms last]|]; injection Hc as -> ->; done. }
  repeat split.
  - subst es. cbn [entries]. destruct (negb _); [by rewrite length_insert|done].
  - intros i Hi. cbn [entries]. specialize (He i Hi). destruct (Z.eq_dec i k) as [->|Hne].
    + destruct (Z.leb_spec k k), (Z.leb_spec k (npss C)); try lia. cbn [andb]. rewrite <- Ht. subst es.
      destruct (Z.eqb_spec (target s) 0) as [E|E]; cbn [negb].
      * rewrite He, E. destruct (Z.leb_spec (k + 1) k); [lia|done].
      * apply list_lookup_insert_eq. lia.
    + assert (es !! Z.to_nat i = entries s !! Z.to_nat i) as ->.
      { subst es. destruct (negb _); [|done]. rewrite list_lookup_insert_ne by lia. done. }
      rewrite He. destruct (Z.leb_spec k i), (Z.leb_spec (k + 1) i), (Z.leb_spec i (npss C)); done || lia.
Qed.

Lemma apst_states_inv n s : Z.of_nat n ≤ npss C + 1 → apst_inv (Z.of_nat n) s → apst_inv 0 (apst_states P C n s).
Proof.
  revert s. induction n as [|n IH]; intros s Hn Hs; [done|]. cbn [apst_states]. apply IH; [lia|].
  apply apst_step_inv; [lia|]. by replace (Z.of_nat n + 1) with (Z.of_nat (S n)) by lia.
Qed.

Lemma policy_end : policy (npss C + 1) = None ∧ index_at (npss C + 1) = 2 ^ 32 - 1.
Proof.
  unfold policy, index_at. destruct (explicit P).
  - destruct (deepest_spec within_primary N) as (A1 & _). destruct (deepest_spec within_secondary N) as (B1 & _).
    destruct (Z.leb_spec (npss C + 1) (deepest within_primary N)), (Z.leb_spec (npss C + 1) (deepest within_secondary N)); done || lia.
  - by rewrite seqZ_nil by lia.
Qed.

Lemma apst_table_policy i : 0 ≤ i < 32 →
  apst_table P C !! Z.to_nat i = Some (if i <=? npss C then encode (policy (i + 1)) else 0).
Proof.
  intros Hi. unfold apst_table. destruct policy_end as [Hp Hx].
  destruct (apst_states_inv N (Loop 0 (2 ^ 32 - 1) (replicate 32 0))) as (_ & _ & _ & H).
  - lia.
  - replace (Z.of_nat N) with (npss C + 1) by lia. unfold apst_inv. cbn [target last_lt_index entries]. rewrite Hp, Hx.
    repeat split. intros j Hj. rewrite lookup_replicate_2 by lia.
    destruct (Z.leb_spec (npss C + 1) j), (Z.leb_spec j (npss C)); done || lia.
  - rewrite H by done. by destruct (Z.leb_spec 0 i); [|lia].
Qed.
End policy.

Lemma policy_sound P C k t ms : 0 ≤ npss C ≤ 31 → 0 ≤ k → policy P C k = Some (t, ms) →
  k ≤ t ≤ npss C ∧ usable C t = true ∧
  if explicit P then (within_primary P C t = true ∧ ms = primary_timeout_ms P) ∨
                     (within_secondary P C t = true ∧ ms = secondary_timeout_ms P)
  else ms = Z.min ((total C t + 19) / 20) (2 ^ 24 - 1).
Proof.
  intros Hn Hk. unfold policy. destruct (explicit P).
  - destruct (deepest_spec (within_primary P C) (Z.to_nat (npss C + 1))) as (A1 & A2 & _).
    destruct (deepest_spec (within_secondary P C) (Z.to_nat (npss C + 1))) as (B1 & B2 & _).
    destruct (Z.leb_spec k (deepest (within_primary P C) (Z.to_nat (npss C + 1)))).
    { intros [= <- <-]. specialize (A2 ltac:(lia)). pose proof A2 as A3. unfold within_primary in A3.
      apply andb_prop in A3 as [A3 _]. split; [lia|]. auto. }
    destruct (Z.leb_spec k (deepest (within_secondary P C) (Z.to_nat (npss C + 1)))); [|done].
    intros [= <- <-]. specialize (B2 ltac:(lia)). pose proof B2 as B3. unfold within_secondary in B3.
    rewrite <- !andb_assoc in B3. apply andb_prop in B3 as [B3 _]. split; [lia|]. auto.
  - destruct (List.find _ _) as [t'|] eqn:E; [|done]. intros [= <- <-]. apply find_seqZ_first in E as (H1 & H2 & _).
    split; [lia|]. done.
Qed.

Lemma word_decode t ms : 0 ≤ t < 32 → 0 ≤ ms < 2 ^ 24 →
  Z.land (Z.shiftr (encode (Some (t, ms))) 3) 31 = t ∧ Z.shiftr (encode (Some (t, ms))) 8 = ms.
Proof.
  intros Ht Hm. unfold encode. rewrite Z.shiftl_mul_pow2 by lia. rewrite lor_shiftl_add by lia.
  rewrite u64_small by lia. change 31 with (Z.ones 5). rewrite Z.land_ones by lia. rewrite !Z.shiftr_div_pow2 by lia.
  replace (t * 2 ^ 3 + ms * 2 ^ 8) with ((t + ms * 32) * 2 ^ 3) at 1 by lia. rewrite Z.div_mul by lia.
  rewrite Z.mod_add, Z.mod_small by lia. split; [done|].
  rewrite Z.div_add, Z.div_small by lia. lia.
Qed.


(** Three states, the last two not operational. *)
Definition apst_sample (max : Z) : apst_ctrl :=
  ApstCtrl true 2 true max false
    (λ s, if s =? 0 then Ps false 0 0 else if s =? 1 then Ps true 200 300 else Ps true 9000 7000).

(** The limit is on the latency of the exit alone: a state whose whole latency is above it is
    used. *)
Lemma apst_total_above_limit :
  let C := apst_sample 9000 in
  ps_max_latency_us C < total C 2 ∧
  apst_table (ApstParams 0 0 0 0) C !! 1%nat = Some (encode (Some (2, 800))).
Proof. done. Qed.
