(* ===== verification/NvmeKeepAlive.v ===== *)
(** * NVMe core: keep alive (drivers/nvme/host/core.c)

    The delayed work that sends Keep Alive commands, its period with and without traffic
    based keep alive, the completion of such a command, the change of the time-out by a
    Set Features command.  Shown on a timed system, in which other commands complete and
    the state of the controller changes at any moment: as long as the keep alive runs, the
    controller is never without a command for longer than half its time-out plus the
    lateness of the workqueue, or the round trip of the last Keep Alive command. *)

From Stdlib Require Import ZArith Lia Bool.
From stdpp Require Import base numbers list option relations.
From S2P Require Import Prelude.
From S2P Require Import NvmeQueue.
From S2P Require Import NvmeCtrl.
From S2P Require Import NvmeState.

Local Open Scope Z_scope.

(** ** The fields of a controller that keep it alive *)

Record ka := Ka {
  kato : Z;                        (** the time-out in seconds, [unsigned int] *)
  tbkas : bool;                    (** [ctratt & NVME_CTRL_ATTR_TBKAS] *)
  kas : bool;                      (** [ctrl->kas] is not 0 *)
  comp_seen : bool;
  ka_last_check_time : Z;
  ka_work : option Z               (** the delayed work: when it expires, if it is queued *)
}.

Definition set_kato (v : Z) (k : ka) : ka :=
  Ka v (tbkas k) (kas k) (comp_seen k) (ka_last_check_time k) (ka_work k).
Definition set_seen (b : bool) (k : ka) : ka :=
  Ka (kato k) (tbkas k) (kas k) b (ka_last_check_time k) (ka_work k).
Definition set_check (t : Z) (k : ka) : ka :=
  Ka (kato k) (tbkas k) (kas k) (comp_seen k) t (ka_work k).
Definition set_work (w : option Z) (k : ka) : ka :=
  Ka (kato k) (tbkas k) (kas k) (comp_seen k) (ka_last_check_time k) w.

(** The fields of a started request that its end looks at. *)
Record ka_rq := KaRq { deadline : Z; timeout : Z }.
Definition submission (r : ka_rq) : Z := u64 (deadline r - timeout r).

(** [time_after] of linux/jiffies.h: the sign of the difference as a [long]. *)
Definition time_after (a b : Z) : bool := 2 ^ 63 <=? u64 (b - a).

(** [queue_delayed_work] leaves a work that is queued as it is; [cancel_delayed_work_sync]
    leaves it neither queued nor running. *)
Definition queue_delayed_work (jiffies delay : Z) (k : ka) : ka :=
  match ka_work k with Some _ => k | None => set_work (Some (u64 (jiffies + delay))) k end.

Section keep_alive.
Context (HZ : Z).

Definition nvme_keep_alive_work_period (k : ka) : Z :=
  let delay := u32 (kato k * HZ) / 2 in
  if tbkas k then delay / 2 else delay.

Definition nvme_queue_keep_alive_work (jiffies : Z) (k : ka) : ka :=
  let delay := nvme_keep_alive_work_period k in
  let ka_next_check_tm := u64 (ka_last_check_time k + delay) in
  let delay := if time_after jiffies ka_next_check_tm then 0 else u64 (ka_next_check_tm - jiffies) in
  queue_delayed_work jiffies delay k.

(** [failed]: the status is not 0; [st] is the state of the controller on entry. *)
Definition nvme_keep_alive_end_io (jiffies : Z) (st : nvme_ctrl_state) (rq : ka_rq) (failed : bool) (k : ka) : ka :=
  let rtt := u64 (jiffies - submission rq) in
  let delay := nvme_keep_alive_work_period k in
  let delay := if rtt <=? delay then delay - rtt else 0 in
  if failed then k
  else
    let k := set_seen false (set_check jiffies k) in
    match st with
    | NVME_CTRL_LIVE | NVME_CTRL_CONNECTING => queue_delayed_work jiffies delay k
    | _ => k
    end.

(** The request that is sent, if one is.  [alloc]: the admin queue had a tag left; starting
    the request computes its deadline. *)
Definition nvme_keep_alive_work (jiffies : Z) (alloc : bool) (k : ka) (c : nvme_ctrl)
    : option ka_rq * ka * nvme_ctrl :=
  let seen := comp_seen k in
  let k := set_check jiffies k in
  if tbkas k && seen then (None, nvme_queue_keep_alive_work jiffies (set_seen false k), c)
  else if negb alloc then (None, k, (nvme_reset_ctrl c).1.2)
  else
    let timeout := u32 (kato k * HZ) in
    (Some (KaRq (u64 (jiffies + timeout)) timeout), k, c).

Definition nvme_start_keep_alive (jiffies : Z) (k : ka) : ka :=
  if kato k =? 0 then k else nvme_queue_keep_alive_work jiffies k.
Definition nvme_stop_keep_alive (k : ka) : ka :=
  if kato k =? 0 then k else set_work None k.

(** [DIV_ROUND_UP] on [unsigned int] operands. *)
Definition new_kato (cdw11 : Z) : Z := u32 (u32 (cdw11 + 1000) - 1) / 1000.
Definition nvme_update_keep_alive (jiffies cdw11 : Z) (k : ka) : ka :=
  nvme_start_keep_alive jiffies (set_kato (new_kato cdw11) (nvme_stop_keep_alive k)).

(** What the completion of any other command notes ([NvmeState.nvme_complete_rq] issues
    [CompSeen] under the same condition). *)
Definition note_completion (submitted : Z) (k : ka) : ka :=
  if kas k && (ka_last_check_time k <=? submitted) then set_seen true k else k.

(** ** The timed system

    [heard] is the submission time of the newest command the controller is known to have
    received; the controller may have processed it right then, as the comment in
    nvme_complete_rq says.  Time passes no further than [slack] behind the expiry of the
    work and [rtt] behind the start of a Keep Alive command.  [why] records why the keep
    alive has ended. *)

Inductive reason := NoRequest | Failed | NotLive (st : nvme_ctrl_state) | Asked.

Record world := World {
  now : Z;
  kav : ka;
  core : nvme_ctrl;
  flying : option ka_rq;
  heard : Z;
  why : option reason
}.

Context (slack rtt : Z).

Definition in_time (s : world) (t : Z) : Prop :=
  (∀ w, ka_work (kav s) = Some w → t ≤ w + slack) ∧
  (∀ r, flying s = Some r → t ≤ submission r + rtt).

Definition fired (alloc : bool) (s : world) : world :=
  let '(sent, k, c) := nvme_keep_alive_work (now s) alloc (set_work None (kav s)) (core s) in
  match sent with
  | Some r => World (now s) k c (Some r) (now s) (why s)
  | None => World (now s) k c (flying s) (heard s) (match ka_work k with None => Some NoRequest | Some _ => why s end)
  end.
Definition ended (r : ka_rq) (failed : bool) (s : world) : world :=
  let k := nvme_keep_alive_end_io (now s) (state (core s)) r failed (kav s) in
  World (now s) k (core s) None (heard s)
    (match ka_work k with
     | Some _ => why s
     | None => Some (if failed then Failed else NotLive (state (core s)))
     end).

Inductive tstep : world → world → Prop :=
| t_tick s t : now s ≤ t → in_time s t →
    tstep s (World t (kav s) (core s) (flying s) (heard s) (why s))
| t_fire s w alloc : ka_work (kav s) = Some w → w ≤ now s → tstep s (fired alloc s)
| t_end s r failed : flying s = Some r → tstep s (ended r failed s)
| t_complete s t0 : 0 ≤ t0 ≤ now s →
    tstep s (World (now s) (note_completion t0 (kav s)) (core s) (flying s) (Z.max (heard s) t0) (why s))
| t_state s new :
    tstep s (World (now s) (kav s) (nvme_change_ctrl_state new (core s)).1.2 (flying s) (heard s) (why s))
| t_stop s :
    tstep s (World (now s) (nvme_stop_keep_alive (kav s)) (core s) (flying s) (heard s)
               (if kato (kav s) =? 0 then why s else Some Asked)).

(** The keep alive is started at the end of the identification, whose last command was
    submitted at [t0]; no work is queued then. *)
Definition started (t0 t : Z) (k : ka) (c : nvme_ctrl) : world :=
  World t (nvme_start_keep_alive t k) c None t0 None.

Definition running (s : world) : bool :=
  match ka_work (kav s), flying s with None, None => false | _, _ => true end.

(** ** The invariant *)

Definition period (s : world) : Z := nvme_keep_alive_work_period (kav s).

(** How far behind the last command the work may run. *)
Definition reach (s : world) : Z :=
  if tbkas (kav s) then period s + Z.max (period s) rtt + slack else Z.max (period s) rtt.

Definition work_ok (s : world) (w : Z) : Prop :=
  let k := kav s in
  flying s = None ∧ 0 ≤ w ∧ w ≤ Z.max (ka_last_check_time k) (heard s) + Z.max (period s) rtt ∧ w ≤ heard s + reach s.

Record ka_inv (k0 : ka) (s : world) : Prop := {
  inv_kato : kato (kav s) = kato k0;
  inv_tbkas : tbkas (kav s) = tbkas k0;
  inv_times : 0 ≤ ka_last_check_time (kav s) ≤ now s ∧ 0 ≤ heard s ≤ now s;
  inv_seen : tbkas (kav s) && comp_seen (kav s) = true → ka_last_check_time (kav s) ≤ heard s;
  inv_work : ∀ w, ka_work (kav s) = Some w → work_ok s w ∧ now s ≤ w + slack;
  inv_flying : ∀ r, flying s = Some r → 0 ≤ submission r ≤ heard s ∧ now s ≤ submission r + rtt;
  inv_why : running s = false → ∃ r, why s = Some r ∧ r ≠ NotLive NVME_CTRL_LIVE ∧ r ≠ NotLive NVME_CTRL_CONNECTING
}.

Definition horizon : Z := 2 ^ 62.

Lemma period_range k : 0 ≤ nvme_keep_alive_work_period k < 2 ^ 31.
Proof.
  unfold nvme_keep_alive_work_period. pose proof (Z.mod_pos_bound (kato k * HZ) (2 ^ 32) eq_refl) as H.
  fold (u32 (kato k * HZ)) in H. set (x := u32 (kato k * HZ)) in *.
  pose proof (Z.div_pos x 2 ltac:(lia) eq_refl). pose proof (Z.div_lt_upper_bound x 2 (2 ^ 31) eq_refl ltac:(lia)).
  destruct (tbkas k); [|lia].
  pose proof (Z.div_pos (x / 2) 2 ltac:(lia) eq_refl). pose proof (Z.div_le_upper_bound (x / 2) 2 (x / 2) eq_refl ltac:(lia)). lia.
Qed.

(** Far from the end of the 64 bits the modular computations are the plain ones. *)
Lemma time_after_spec a b : 0 ≤ a < 2 ^ 63 → 0 ≤ b < 2 ^ 63 → time_after a b = (b <? a).
Proof.
  intros Ha Hb. unfold time_after, u64. destruct (Z.ltb_spec b a).
  - apply Z.leb_le. replace (b - a) with (b - a + 2 ^ 64 + (-1) * 2 ^ 64) by lia.
    rewrite Z.mod_add by lia. rewrite Z.mod_small by lia. lia.
  - apply Z.leb_gt. rewrite Z.mod_small by lia. lia.
Qed.

Lemma queue_work_at jiffies k :
  0 ≤ jiffies ≤ horizon → 0 ≤ ka_last_check_time k ≤ jiffies → ka_work k = None →
  nvme_queue_keep_alive_work jiffies k =
  set_work (Some (Z.max jiffies (ka_last_check_time k + nvme_keep_alive_work_period k))) k.
Proof.
  unfold horizon. intros Hj Hl Hw. unfold nvme_queue_keep_alive_work, queue_delayed_work. rewrite Hw.
  pose proof (period_range k). set (p := nvme_keep_alive_work_period k) in *.
  rewrite (u64_small (_ + p)) by lia. rewrite time_after_spec by lia.
  destruct (Z.ltb_spec (ka_last_check_time k + p) jiffies).
  - rewrite u64_small by lia. do 3 f_equal. lia.
  - rewrite (u64_small (_ - jiffies)) by lia. rewrite u64_small by lia. do 3 f_equal. lia.
Qed.

Lemma submission_started jiffies t : 0 ≤ jiffies < 2 ^ 64 → submission (KaRq (u64 (jiffies + t)) t) = jiffies.
Proof.
  intros H. unfold submission. cbn [deadline timeout]. unfold u64. rewrite Zminus_mod_idemp_l.
  rewrite Z.mod_small; lia.
Qed.

Context (Hslack : 0 ≤ slack).

Lemma inv_started t0 t k c : 0 ≤ t0 ≤ t → t ≤ t0 + rtt → t ≤ horizon → kato k ≠ 0 →
  0 ≤ ka_last_check_time k ≤ t0 → ka_work k = None → ka_inv k (started t0 t k c).
Proof.
  intros H0 Ht Hh Hk Hl Hw. unfold started, nvme_start_keep_alive. rewrite (proj2 (Z.eqb_neq _ _) Hk).
  rewrite queue_work_at by (lia || done). pose proof (period_range k).
  split; cbn; try done; try lia.
  intros w [= <-]. unfold work_ok, reach, period. cbn. change (nvme_keep_alive_work_period (set_work _ k)) with (nvme_keep_alive_work_period k).
  repeat split; [lia..| |lia]. destruct (tbkas k); lia.
Qed.

Lemma inv_tick k0 s t : ka_inv k0 s → now s ≤ t → in_time s t →
  ka_inv k0 (World t (kav s) (core s) (flying s) (heard s) (why s)).
Proof.
  intros [? ? ? ? Hw Hf ?] Ht [H1 H2]. split; cbn; try done; [lia|..].
  - intros w E. destruct (Hw w E) as [Ho _]. split; [exact Ho|by apply H1].
  - intros r E. destruct (Hf r E) as [Ho _]. split; [exact Ho|by apply H2].
Qed.

Lemma inv_fired k0 s w alloc : ka_inv k0 s → now s ≤ horizon → 0 ≤ rtt → ka_work (kav s) = Some w → w ≤ now s →
  ka_inv k0 (fired alloc s).
Proof.
  intros [Ek Et Htm Hs Hw Hf Hy] Hh Hr E Hle. destruct (Hw w E) as [(Ef & H0 & H1 & H2) H3].
  unfold fired, nvme_keep_alive_work. cbn [tbkas set_check set_work comp_seen].
  pose proof (period_range (kav s)) as Hp. unfold period, reach in *.
  destruct (tbkas (kav s) && comp_seen (kav s)) eqn:Eb.
  - specialize (Hs eq_refl). apply andb_true_iff in Eb as [Eb1 Eb2].
    rewrite queue_work_at by (cbn; lia || done). cbn.
    split; cbn; try done; [lia|by rewrite andb_false_r|]. intros w' [= <-]. unfold work_ok, reach, period. cbn.
    unfold nvme_keep_alive_work_period in *; cbn in *. rewrite Eb1, Ef in *. repeat split; lia.
  - destruct alloc; cbn [negb].
    + split; cbn; try done; [lia..|]. intros r [= <-]. rewrite submission_started by (unfold horizon in *; lia). lia.
    + split; cbn; try done; [lia|by rewrite Eb|]. intros _. by eexists.
Qed.

Lemma inv_ended k0 s r failed : ka_inv k0 s → now s ≤ horizon → flying s = Some r → ka_inv k0 (ended r failed s).
Proof.
  intros [Ek Et Htm Hs Hw Hf Hy] Hh E. destruct (Hf r E) as [H1 H2]. pose proof (period_range (kav s)) as Hp.
  assert (ka_work (kav s) = None) as En.
  { destruct (ka_work (kav s)) as [w|] eqn:Ew; [|done]. destruct (Hw w eq_refl) as [(Ef & _) _]. congruence. }
  unfold ended, nvme_keep_alive_end_io. destruct failed.
  { split; cbn; try done; [by rewrite En|]. intros _. rewrite En. by eexists. }
  rewrite (u64_small (now s - _)) by (unfold horizon in *; lia).
  assert (∀ d, d = (if now s - submission r <=? nvme_keep_alive_work_period (kav s)
                    then nvme_keep_alive_work_period (kav s) - (now s - submission r) else 0) →
    u64 (now s + d) = Z.max (now s) (submission r + nvme_keep_alive_work_period (kav s))) as Hd.
  { intros d ->. unfold horizon in *. destruct (Z.leb_spec (now s - submission r) (nvme_keep_alive_work_period (kav s)));
      rewrite u64_small by lia; lia. }
  destruct (state (core s)) eqn:Est; unfold queue_delayed_work; cbn; rewrite En; cbn;
    (split; cbn; try done; [lia|by rewrite andb_false_r|..]).
  all: try (intros w; rewrite En; done).
  all: try (intros _; eexists; split; [done|]; done).
  all: intros w [= <-]; rewrite (Hd _ eq_refl); unfold work_ok, reach, period; cbn;
    change (nvme_keep_alive_work_period (set_work _ _)) with (nvme_keep_alive_work_period (kav s)) in *;
    repeat split; [lia..|destruct (tbkas (kav s)); lia|lia].
Qed.

Lemma inv_noted k0 s t0 : ka_inv k0 s → 0 ≤ t0 ≤ now s →
  ka_inv k0 (World (now s) (note_completion t0 (kav s)) (core s) (flying s) (Z.max (heard s) t0) (why s)).
Proof.
  intros [Ek Et Htm Hs Hw Hf Hy] Ht. unfold note_completion.
  assert (∀ w, ka_work (kav s) = Some w → work_ok s w → ∀ b,
    work_ok (World (now s) (set_seen b (kav s)) (core s) (flying s) (Z.max (heard s) t0) (why s)) w) as Hok.
  { intros w _ (H1 & H2 & H3 & H4) b. unfold work_ok, reach, period in *. cbn.
    change (nvme_keep_alive_work_period (set_seen b (kav s))) with (nvme_keep_alive_work_period (kav s)).
    repeat split; [done|lia|lia|destruct (tbkas (kav s)); lia]. }
  destruct (kas (kav s) && (ka_last_check_time (kav s) <=? t0)) eqn:Eb.
  - apply andb_true_iff in Eb as [_ Hle]. apply Z.leb_le in Hle. split; cbn; try done; try lia.
    + intros w E. destruct (Hw w E). split; [by apply Hok|done].
    + intros r E. destruct (Hf r E). lia.
  - split; cbn; try done; try lia.
    + intros E. specialize (Hs E). lia.
    + intros w E. destruct (Hw w E). split; [|done].
      specialize (Hok w E ltac:(done) (comp_seen (kav s))). by destruct (kav s).
    + intros r E. destruct (Hf r E). lia.
Qed.

Lemma inv_stopped k0 s : ka_inv k0 s → kato k0 ≠ 0 →
  ka_inv k0 (World (now s) (nvme_stop_keep_alive (kav s)) (core s) (flying s) (heard s)
    (if kato (kav s) =? 0 then why s else Some Asked)).
Proof.
  intros [Ek Et Htm Hs Hw Hf Hy] Hk. unfold nvme_stop_keep_alive. rewrite Ek, (proj2 (Z.eqb_neq _ _) Hk).
  split; cbn; try done. intros _. by eexists.
Qed.

Lemma inv_tstep k0 s s' : 0 ≤ rtt → kato k0 ≠ 0 → ka_inv k0 s → now s' ≤ horizon → tstep s s' → ka_inv k0 s'.
Proof.
  intros Hr Hk Hi Hh H. destruct H; cbn in Hh.
  - by apply inv_tick.
  - eapply inv_fired; [done| |done..]. revert Hh. unfold fired. by destruct (nvme_keep_alive_work _ _ _ _) as [[[?|] ?] ?].
  - by apply inv_ended.
  - by apply inv_noted.
  - destruct Hi. by split.
  - by apply inv_stopped.
Qed.

Lemma tstep_time s s' : tstep s s' → now s ≤ now s'.
Proof.
  intros []; cbn; try lia. unfold fired. by destruct (nvme_keep_alive_work _ _ _ _) as [[[?|] ?] ?].
Qed.

Lemma inv_reachable k0 s s' : 0 ≤ rtt → kato k0 ≠ 0 → ka_inv k0 s → rtc tstep s s' → now s' ≤ horizon → ka_inv k0 s'.
Proof.
  intros Hr Hk Hi H. revert s' H. apply (rtc_ind_r (λ s', now s' ≤ horizon → ka_inv k0 s') s); [done|].
  intros y z _ Hs IH Hh. eapply inv_tstep; [done..| |exact Hh|exact Hs]. apply IH. pose proof (tstep_time _ _ Hs). lia.
Qed.

(** Half the time-out, in the units of the clock. *)
Lemma period_half k : 0 ≤ kato k → 0 ≤ HZ → kato k * HZ < 2 ^ 32 →
  (if tbkas k then 2 else 1) * nvme_keep_alive_work_period k ≤ kato k * HZ / 2.
Proof.
  intros H1 H2 H3. unfold nvme_keep_alive_work_period. rewrite u32_small by nia.
  destruct (tbkas k); [|lia]. pose proof (Z.mul_div_le (kato k * HZ / 2) 2 eq_refl). lia.
Qed.

Lemma inv_gap k0 s : 0 ≤ kato k0 → 0 ≤ HZ → kato k0 * HZ < 2 ^ 32 → 0 ≤ rtt → ka_inv k0 s → running s = true →
  now s - heard s ≤ kato k0 * HZ / 2 + 2 * slack + Z.max 0 (rtt - nvme_keep_alive_work_period k0).
Proof.
  intros Hk Hz Hb Hr [Ek Et Htm Hs Hw Hf Hy] Hrun. pose proof (period_half k0 Hk Hz Hb) as Hp.
  pose proof (period_range k0) as Hpr.
  assert (nvme_keep_alive_work_period (kav s) = nvme_keep_alive_work_period k0) as Ep
    by (unfold nvme_keep_alive_work_period; by rewrite Ek, Et).
  unfold running in Hrun. destruct (ka_work (kav s)) as [w|] eqn:Ew.
  - destruct (Hw w eq_refl) as [(_ & _ & _ & H1) H2]. unfold reach, period in H1. rewrite Ep, Et in H1.
    destruct (tbkas k0); lia.
  - destruct (flying s) as [r|] eqn:Ef; [|done]. destruct (Hf r eq_refl). destruct (tbkas k0); lia.
Qed.
End keep_alive.


Definition ka_ex : ka := Ka 10 true true false 1000 None.
Definition ctrl_ex : nvme_ctrl := set_state NVME_CTRL_LIVE (ctrl_new None).
(** A command submitted at 1100 completes at 1200, so the check at 1250 sends nothing; the
    one at 1500 sends a Keep Alive command. *)
Definition world_ex : world :=
  World 1500 (Ka 10 true true false 1500 None) ctrl_ex (Some (KaRq 2500 1000)) 1500 None.

Ltac tick_to t := eapply rtc_l; [apply (t_tick _ _ _ _ t); [vm_compute; discriminate|
  split; [intros ? [= <-]|intros ? [=]]; vm_compute; discriminate]|]; cbn.

Lemma world_ex_reached : rtc (tstep 100 5 50) (started 100 1000 1010 ka_ex ctrl_ex) world_ex.
Proof.
  vm_compute started. tick_to 1200.
  eapply rtc_l; [apply (t_complete _ _ _ _ 1100); cbn; lia|]. cbn. tick_to 1250.
  eapply rtc_l; [eapply (t_fire _ _ _ _ _ true); [reflexivity|cbn; lia]|]. vm_compute fired. tick_to 1500.
  eapply rtc_l; [eapply (t_fire _ _ _ _ _ true); [reflexivity|cbn; lia]|]. apply rtc_refl.
Qed.


(** The new time-out is the given one in seconds, rounded up, except for the last 999
    values, for which the sum wraps around and the keep alive is switched off. *)
Lemma new_kato_spec cdw11 : 0 ≤ cdw11 < 2 ^ 32 →
  if cdw11 <=? 2 ^ 32 - 1000 then (new_kato cdw11 - 1) * 1000 < cdw11 ≤ new_kato cdw11 * 1000
  else new_kato cdw11 = 0.
Proof.
  intros H. unfold new_kato. unfold u32. rewrite Zminus_mod_idemp_l.
  destruct (Z.leb_spec cdw11 (2 ^ 32 - 1000)).
  - rewrite Z.mod_small by lia. pose proof (Z.div_mod (cdw11 + 1000 - 1) 1000 ltac:(lia)).
    pose proof (Z.mod_pos_bound (cdw11 + 1000 - 1) 1000 ltac:(lia)). lia.
  - replace (cdw11 + 1000 - 1) with (cdw11 + 999 - 2 ^ 32 + 1 * 2 ^ 32) by lia. rewrite Z.mod_add by lia.
    rewrite Z.mod_small by lia. apply Z.div_small. lia.
Qed.

(** A time-out of 2^32 clock ticks or more is cut to 32 bits before it is halved: with a
    clock of 1000 Hz a Keep Alive every 0.35 seconds instead of every 25 days. *)
Lemma period_wraps : nvme_keep_alive_work_period 1000 (Ka 4294968 false true false 0 None) = 352.
Proof. reflexivity. Qed.
