(* ===== verification/NvmeEvents.v ===== *)
(** * NVMe core: events, firmware activation and the gates of the queues
    (drivers/nvme/host/core.c)

    The handling of asynchronous events with the work that asks for the next one, the
    activation of a new firmware, the freezing and quiescing of queues, the bracket around
    commands of user programs, starting and stopping of a controller.  Shown: a transport
    that stops the controller before it tears the admin queue down never has two event
    requests with the controller, and one that does not can have them; a command of a user
    program runs with exactly the locks and freezes its effects ask for, and leaves none
    behind.  Codes and masks of headers outside the repository are parameters. *)

From Stdlib Require Import ZArith Lia Bool.
From stdpp Require Import base numbers list option relations.
From S2P Require Import Prelude.
From S2P Require Import NvmeQueue.
From S2P Require Import NvmeCtrl.
From S2P Require Import NvmeState.
From S2P Require Import NvmeKeepAlive.

Local Open Scope list_scope.
Local Open Scope Z_scope.

(** ** The controller *)

(** The gates of the queues: how often the tag set and the admin queue are quiesced, how
    often each namespace's queue is frozen, the flags of the controller and the two locks. *)
Record gates := Gates {
  STOPPED : bool;
  io_depth : Z;
  ADMIN_Q_STOPPED : bool;
  admin_depth : Z;
  FROZEN : bool;
  freezes : list Z;
  scan_lock : bool;
  subsys_lock : bool
}.

(** [aers] is the number of event requests the controller has; the works are queued or not. *)
Record aen := Aen {
  aers : Z;
  aen_result : Z;
  ns_changed : bool;
  async_event_work : bool;
  fw_act_work : bool;
  ana_work : bool
}.

Inductive ev :=
| Uevent (s : list Z) | AenUevent (result : Z)
| MpathStartFreeze | MpathWaitFreeze | MpathUnfreeze | MpathStop | MpathUpdate
| WaitFreeze (ns : nat) | MarkDead (ns : nat) | SyncQueue (ns : nat) | SyncAdminQueue
| WaitQuiesce | WaitAdminQuiesce
| AuthStop | OpsStopCtrl | SetAsyncEvent (cfg : Z) | FlushScanWork
| HwmonExit | FaultInjectFini | HideLatency | CdevDel | PutCtrl.

Record ectl := Ectl {
  core : nvme_ctrl;
  kav : ka;
  gate : gates;
  event : aen;
  DIRTY_CAPABILITY : bool;
  STARTED_ONCE : bool;
  firmware_rev : list Z;
  trace : list ev
}.

Definition set_core (v : nvme_ctrl) (c : ectl) : ectl :=
  Ectl v (kav c) (gate c) (event c) (DIRTY_CAPABILITY c) (STARTED_ONCE c) (firmware_rev c) (trace c).
Definition set_kav (v : ka) (c : ectl) : ectl :=
  Ectl (core c) v (gate c) (event c) (DIRTY_CAPABILITY c) (STARTED_ONCE c) (firmware_rev c) (trace c).
Definition set_gate (v : gates) (c : ectl) : ectl :=
  Ectl (core c) (kav c) v (event c) (DIRTY_CAPABILITY c) (STARTED_ONCE c) (firmware_rev c) (trace c).
Definition set_event (v : aen) (c : ectl) : ectl :=
  Ectl (core c) (kav c) (gate c) v (DIRTY_CAPABILITY c) (STARTED_ONCE c) (firmware_rev c) (trace c).
Definition set_dirty (c : ectl) : ectl :=
  Ectl (core c) (kav c) (gate c) (event c) true (STARTED_ONCE c) (firmware_rev c) (trace c).
Definition set_started (c : ectl) : ectl :=
  Ectl (core c) (kav c) (gate c) (event c) (DIRTY_CAPABILITY c) true (firmware_rev c) (trace c).
Definition set_rev (v : list Z) (c : ectl) : ectl :=
  Ectl (core c) (kav c) (gate c) (event c) (DIRTY_CAPABILITY c) (STARTED_ONCE c) v (trace c).
Definition note (e : ev) (c : ectl) : ectl :=
  Ectl (core c) (kav c) (gate c) (event c) (DIRTY_CAPABILITY c) (STARTED_ONCE c) (firmware_rev c) (trace c ++ [e]).
Definition notes (l : list ev) (c : ectl) : ectl := fold_left (flip note) l c.

Definition set_io (b : bool) (d : Z) (g : gates) : gates :=
  Gates b d (ADMIN_Q_STOPPED g) (admin_depth g) (FROZEN g) (freezes g) (scan_lock g) (subsys_lock g).
Definition set_admin (b : bool) (d : Z) (g : gates) : gates :=
  Gates (STOPPED g) (io_depth g) b d (FROZEN g) (freezes g) (scan_lock g) (subsys_lock g).
Definition set_freezes (b : bool) (l : list Z) (g : gates) : gates :=
  Gates (STOPPED g) (io_depth g) (ADMIN_Q_STOPPED g) (admin_depth g) b l (scan_lock g) (subsys_lock g).
Definition set_locks (scan subsys : bool) (g : gates) : gates :=
  Gates (STOPPED g) (io_depth g) (ADMIN_Q_STOPPED g) (admin_depth g) (FROZEN g) (freezes g) scan subsys.

Definition set_aers (n : Z) (e : aen) : aen :=
  Aen n (aen_result e) (ns_changed e) (async_event_work e) (fw_act_work e) (ana_work e).
Definition set_result (r : Z) (e : aen) : aen :=
  Aen (aers e) r (ns_changed e) (async_event_work e) (fw_act_work e) (ana_work e).
Definition set_ns_changed (e : aen) : aen :=
  Aen (aers e) (aen_result e) true (async_event_work e) (fw_act_work e) (ana_work e).
Definition set_async (b : bool) (e : aen) : aen :=
  Aen (aers e) (aen_result e) (ns_changed e) b (fw_act_work e) (ana_work e).
Definition set_fw (b : bool) (e : aen) : aen :=
  Aen (aers e) (aen_result e) (ns_changed e) (async_event_work e) b (ana_work e).
Definition set_ana (b : bool) (e : aen) : aen :=
  Aen (aers e) (aen_result e) (ns_changed e) (async_event_work e) (fw_act_work e) b.

(** ** The gates *)

Definition each (f : nat → ev) (c : ectl) : list ev := f <$> seq 0 (length (freezes (gate c))).

Definition nvme_mark_namespaces_dead (c : ectl) : ectl := notes (each MarkDead c) c.
Definition nvme_start_freeze (c : ectl) : ectl :=
  set_gate (set_freezes true (Z.add 1 <$> freezes (gate c)) (gate c)) c.
Definition nvme_unfreeze (c : ectl) : ectl :=
  set_gate (set_freezes false (Z.add (- 1) <$> freezes (gate c)) (gate c)) c.
Definition nvme_wait_freeze (c : ectl) : ectl := notes (each WaitFreeze c) c.

(** [wait ns t]: what is left of [t] when the queue is frozen, or the time is up; the rest
    of a [long] is returned as an [int]. *)
Fixpoint wait_each (wait : nat → Z → Z) (l : list nat) (timeout : Z) : Z :=
  match l with
  | [] => timeout
  | ns :: l => let t := wait ns timeout in if t <=? 0 then t else wait_each wait l t
  end.
Definition to_int (x : Z) : Z := let y := u32 x in if y <? 2 ^ 31 then y else y - 2 ^ 32.
Definition nvme_wait_freeze_timeout (wait : nat → Z → Z) (io_timeout : Z) (c : ectl) : Z :=
  to_int (wait_each wait (seq 0 (length (freezes (gate c)))) io_timeout).

Definition nvme_quiesce_io_queues (c : ectl) : ectl :=
  if negb (tagset (core c)) then c
  else if negb (STOPPED (gate c)) then set_gate (set_io true (io_depth (gate c) + 1) (gate c)) c
  else note WaitQuiesce c.
Definition nvme_unquiesce_io_queues (c : ectl) : ectl :=
  if negb (tagset (core c)) then c
  else if STOPPED (gate c) then set_gate (set_io false (io_depth (gate c) - 1) (gate c)) c
  else c.
Definition nvme_quiesce_admin_queue (c : ectl) : ectl :=
  if negb (ADMIN_Q_STOPPED (gate c)) then set_gate (set_admin true (admin_depth (gate c) + 1) (gate c)) c
  else note WaitAdminQuiesce c.
Definition nvme_unquiesce_admin_queue (c : ectl) : ectl :=
  if ADMIN_Q_STOPPED (gate c) then set_gate (set_admin false (admin_depth (gate c) - 1) (gate c)) c
  else c.
Definition nvme_sync_io_queues (c : ectl) : ectl := notes (each SyncQueue c) c.
Definition nvme_sync_queues (admin_q : bool) (c : ectl) : ectl :=
  let c := nvme_sync_io_queues c in if admin_q then note SyncAdminQueue c else c.

(** ** Commands of user programs *)

Record nvme_command := Cmd { opcode : Z; cdw10 : Z; cdw11 : Z }.

Section passthru.
Context (CSE_MASK CSER_MASK CCC NIC NCC : Z) (nvme_admin_set_features NVME_FEAT_KATO : Z).
(** The tables of effects the namespace's head and the controller point to. *)
Context (iocs acs : Z → Z) (HZ : Z).

Definition any (effects mask : Z) : bool := negb (Z.land effects mask =? 0).

Definition nvme_command_effects (ns : bool) (opcode : Z) : Z :=
  if ns then Z.land (iocs opcode) (not32 CSE_MASK)
  else
    let effects := acs opcode in
    if any effects CSER_MASK then Z.land effects (not32 CSE_MASK) else effects.

Definition nvme_passthru_start (ns : bool) (opcode : Z) (c : ectl) : Z * ectl :=
  let effects := nvme_command_effects ns opcode in
  if any effects CSE_MASK then
    let c := set_gate (set_locks true true (gate c)) c in
    let c := note MpathWaitFreeze (note MpathStartFreeze c) in
    (effects, nvme_wait_freeze (nvme_start_freeze c))
  else (effects, c).

Definition nvme_passthru_end (jiffies : Z) (ns : bool) (effects : Z) (cmd : nvme_command) (status : Z) (c : ectl) : ectl :=
  let c := if any effects CSE_MASK then
      let c := note MpathUnfreeze (nvme_unfreeze c) in set_gate (set_locks false false (gate c)) c
    else c in
  let c := if any effects CCC then set_dirty c else c in
  let c := if any effects (Z.lor NIC NCC) then note FlushScanWork (set_core (nvme_queue_scan (core c)) c) else c in
  if ns then c
  else if (opcode cmd =? nvme_admin_set_features) && (Z.land (cdw10 cmd) 0xff =? NVME_FEAT_KATO) && (status =? 0)
  then set_kav (nvme_update_keep_alive HZ jiffies (cdw11 cmd) (kav c)) c
  else c.
End passthru.

(** ** Asynchronous events *)

Definition nvme_aer_type (result : Z) : Z := Z.land result 7.
Definition nvme_aer_subtype (result : Z) : Z := Z.shiftr (Z.land result 0xff00) 8.

Inductive aer_code :=
| NVME_AER_NOTICE | NVME_AER_ERROR | NVME_AER_SMART | NVME_AER_CSS | NVME_AER_VS.
Inductive notice_code :=
| NVME_AER_NOTICE_NS_CHANGED | NVME_AER_NOTICE_FW_ACT_STARTING | NVME_AER_NOTICE_ANA | NVME_AER_NOTICE_DISC_CHANGED.

Definition queue_async_event_work (c : ectl) : ectl := set_event (set_async true (event c)) c.

(** [alloc]: there is memory for the text of the event. *)
Definition nvme_aen_uevent (alloc : bool) (c : ectl) : ectl :=
  let r := aen_result (event c) in
  let c := set_event (set_result 0 (event c)) c in
  if r =? 0 then c else if negb alloc then c else note (AenUevent r) c.

(** The work has been taken from the queue. *)
Definition nvme_async_event_work (alloc : bool) (c : ectl) : ectl :=
  let c := nvme_aen_uevent alloc c in
  if bool_decide (state (core c) = NVME_CTRL_LIVE) then set_event (set_aers (aers (event c) + 1) (event c)) c else c.

Section events.
Context (type : aer_code → Z) (notice : notice_code → Z) (NVME_AER_ERROR_PERSIST_INT_ERR : Z).
Context (multipath ana_log_buf : bool).

Definition nvme_handle_aen_notice (result : Z) (c : ectl) : bool * ectl :=
  let t := nvme_aer_subtype result in
  if t =? notice NVME_AER_NOTICE_NS_CHANGED then
    (true, set_core (nvme_queue_scan (core c)) (set_event (set_ns_changed (event c)) c))
  else if t =? notice NVME_AER_NOTICE_FW_ACT_STARTING then
    let '(changed, core', _) := nvme_change_ctrl_state NVME_CTRL_RESETTING (core c) in
    let c := set_core core' c in
    if changed then (false, set_event (set_fw true (event c)) c) else (true, c)
  else if multipath && (t =? notice NVME_AER_NOTICE_ANA) then
    (true, if ana_log_buf then set_event (set_ana true (event c)) c else c)
  else if t =? notice NVME_AER_NOTICE_DISC_CHANGED then (true, set_event (set_result result (event c)) c)
  else (true, c).

Definition nvme_handle_aer_persistent_error (c : ectl) : ectl := set_core (nvme_reset_ctrl (core c)).1.2 c.

(** The controller has answered its event request, which is no longer with it. *)
Definition nvme_complete_async_event (status result : Z) (c : ectl) : ectl :=
  let t := nvme_aer_type result in
  let subtype := nvme_aer_subtype result in
  if negb (Z.shiftr status 1 =? 0) then c
  else if t =? type NVME_AER_NOTICE then
    let '(requeue, c) := nvme_handle_aen_notice result c in
    if requeue then queue_async_event_work c else c
  else if (t =? type NVME_AER_ERROR) && (subtype =? NVME_AER_ERROR_PERSIST_INT_ERR) then
    nvme_handle_aer_persistent_error c
  else if existsb (λ x, t =? type x) [NVME_AER_ERROR; NVME_AER_SMART; NVME_AER_CSS; NVME_AER_VS] then
    queue_async_event_work (set_event (set_result result (event c)) c)
  else queue_async_event_work c.
End events.

(** ** Activation of a firmware *)

(** What nvme_get_log returns of the firmware slots: the slot byte and the seven revisions. *)
Record fw_slot_log := SlotLog { afi : Z; frs : list (list Z) }.

(** [alloc]: there is memory for the log; [log] is [None] when reading it fails. *)
Definition nvme_get_fw_slot_info (alloc : bool) (log : option fw_slot_log) (c : ectl) : ectl :=
  if negb alloc then c
  else match log with
  | None => c
  | Some l =>
      let cur := Z.land (afi l) 7 in
      let next := Z.shiftr (Z.land (afi l) 0x70) 4 in
      if (cur =? 0) || (negb (next =? 0) && negb (cur =? next)) then c
      else match frs l !! Z.to_nat (cur - 1) with Some rev => set_rev rev c | None => c end
  end.

Section activation.
Context (CC_ENABLE CSTS_PP ctrl_config : Z).
Context (mtfa admin_timeout : Z) (msecs_to_jiffies secs_to_jiffies : Z → Z).

(** [csts]: what the register holds, [None] when it cannot be read. *)
Definition nvme_ctrl_pp_status (csts : option Z) : bool :=
  match csts with
  | None => false
  | Some v => if v =? 2 ^ 32 - 1 then false else any ctrl_config CC_ENABLE && any v CSTS_PP
  end.

Definition fw_act_timeout (jiffies : Z) : Z :=
  u64 (jiffies + (if negb (mtfa =? 0) then msecs_to_jiffies (mtfa * 100) else secs_to_jiffies admin_timeout)).

Definition fw_begin (c : ectl) : ectl := nvme_quiesce_io_queues (note AuthStop c).

(** One turn of the loop: the firmware is still busy and there is time left, it is busy
    and the time is up, or it is done. *)
Inductive turn := Again | TimedOut | Activated.
Definition fw_poll (csts : option Z) (jiffies timeout : Z) : turn :=
  if nvme_ctrl_pp_status csts then if time_after jiffies timeout then TimedOut else Again else Activated.
Definition fw_timed_out (c : ectl) : ectl := set_core (nvme_try_sched_reset (core c)).2 c.

(** The controller goes live again; then the rest of the work. *)
Definition fw_live (c : ectl) : bool * ectl :=
  let '(b, core', _) := nvme_change_ctrl_state NVME_CTRL_CONNECTING (core c) in
  let c := set_core core' c in
  if negb b then (false, c)
  else let '(b, core', _) := nvme_change_ctrl_state NVME_CTRL_LIVE (core c) in (b, set_core core' c).
Definition fw_finish (alloc : bool) (log : option fw_slot_log) (c : ectl) : ectl :=
  queue_async_event_work (nvme_get_fw_slot_info alloc log (nvme_unquiesce_io_queues c)).

(** The loop; [clock] and [csts] tell what the clock and the register say in each turn. *)
Fixpoint fw_loop (clock : nat → Z) (csts : nat → option Z) (timeout : Z) (fuel i : nat) : option turn :=
  match fuel with
  | O => None
  | S fuel =>
      match fw_poll (csts i) (clock i) timeout with
      | Again => fw_loop clock csts timeout fuel (S i)
      | t => Some t
      end
  end.
Definition nvme_fw_act_work (clock : nat → Z) (csts : nat → option Z) (alloc : bool) (log : option fw_slot_log)
    (fuel : nat) (c : ectl) : option ectl :=
  match fw_loop clock csts (fw_act_timeout (clock O)) fuel 1 with
  | Some Activated => let '(live, c) := fw_live (fw_begin c) in Some (if live then fw_finish alloc log c else c)
  | Some _ => Some (fw_timed_out (fw_begin c))
  | None => None
  end.
End activation.

(** ** Starting and stopping *)

(** [cancel_work_sync] and [flush_work]: the first removes a work that is queued, the second
    waits until it has run. *)
Definition flush_async_event_work (alloc : bool) (c : ectl) : ectl :=
  if async_event_work (event c)
  then nvme_async_event_work alloc (set_event (set_async false (event c)) c) else c.

Definition nvme_stop_ctrl (alloc ops_stop : bool) (c : ectl) : ectl :=
  let c := note AuthStop (note MpathStop c) in
  let c := set_core (nvme_stop_failfast_work (core c)) c in
  let c := flush_async_event_work alloc c in
  let c := set_event (set_fw false (event c)) c in
  if ops_stop then note OpsStopCtrl c else c.

Section starting.
Context (AEN_SUPPORTED oaes : Z) (NVME_DEFAULT_KATO HZ : Z).
Context (rediscover connected : list Z).

(** The result of the Set Features command is only logged. *)
Definition nvme_enable_aen (c : ectl) : ectl :=
  let supported := Z.land oaes AEN_SUPPORTED in
  if supported =? 0 then c else queue_async_event_work (note (SetAsyncEvent supported) c).

Definition nvme_start_ctrl (jiffies queue_count : Z) (discovery : bool) (c : ectl) : ectl :=
  let c := nvme_enable_aen c in
  let c := if STARTED_ONCE c && discovery then
      let c := if kato (kav c) =? 0 then
          set_kav (nvme_start_keep_alive HZ jiffies
                     (set_kato NVME_DEFAULT_KATO (nvme_stop_keep_alive (kav c)))) c
        else c in
      note (Uevent rediscover) c
    else c in
  let c := if 1 <? queue_count then
      note MpathUpdate (nvme_unquiesce_io_queues (set_core (nvme_queue_scan (core c)) c))
    else c in
  note (Uevent connected) (set_started c).
End starting.

Definition nvme_uninit_ctrl (c : ectl) : ectl :=
  let c := set_kav (nvme_stop_keep_alive (kav c)) c in
  notes [HwmonExit; FaultInjectFini; HideLatency; CdevDel; PutCtrl] c.

(** ** The threads

    The controller answers an event request, works that are queued run, other threads ask
    for resets and removals, a transport resets the controller: it drops the requests of
    the admin queue, connects, goes live and starts the controller.  The comment in
    nvme_async_event_work asks transports to flush the work that submits event requests;
    [order] says whether and when nvme_stop_ctrl does that. *)

Inductive tidy := DropThenStop | StopThenDrop | DropOnly.
Inductive fw_phase := FwPolling | FwFinishing.
Inductive reset_phase := RIdle | RDown | RStopped | RReady | RUp.

Record threads := Threads { ec : ectl; fw : option fw_phase; reset : reset_phase }.

(** What all steps take from outside. *)
Record surroundings := Surroundings {
  type : aer_code → Z; notice : notice_code → Z; PERSIST_INT_ERR : Z;
  multipath : bool; ana_log_buf : bool;
  CC_ENABLE : Z; CSTS_PP : Z; ctrl_config : Z;
  AEN_SUPPORTED : Z; oaes : Z; DEFAULT_KATO : Z; hz : Z;
  rediscover : list Z; connected : list Z
}.

Definition drop_admin (c : ectl) : ectl := set_event (set_aers 0 (event c)) c.
Definition take_reset (c : ectl) : ectl :=
  set_core (set_works false (delete_work (core c)) (scan_work (core c)) (core c)) c.
Definition change (new : nvme_ctrl_state) (c : ectl) : bool * ectl :=
  let '(b, core', _) := nvme_change_ctrl_state new (core c) in (b, set_core core' c).

Section threads.
Context (env : surroundings) (order : tidy).

Definition answered (status result : Z) (c : ectl) : ectl :=
  nvme_complete_async_event (type env) (notice env) (PERSIST_INT_ERR env) (multipath env) (ana_log_buf env)
    status result (set_event (set_aers (aers (event c) - 1) (event c)) c).

Definition fw_turn (t : turn) (c : ectl) : ectl * option fw_phase :=
  match t with
  | Again => (c, Some FwPolling)
  | TimedOut => (fw_timed_out c, None)
  | Activated => let '(live, c) := fw_live c in (c, if live then Some FwFinishing else None)
  end.

(** The gates are moved by the transport at any time. *)
Inductive gate_op := QuiesceIo | UnquiesceIo | QuiesceAdmin | UnquiesceAdmin.
Definition move (o : gate_op) : ectl → ectl :=
  match o with
  | QuiesceIo => nvme_quiesce_io_queues
  | UnquiesceIo => nvme_unquiesce_io_queues
  | QuiesceAdmin => nvme_quiesce_admin_queue
  | UnquiesceAdmin => nvme_unquiesce_admin_queue
  end.

Inductive estep : threads → threads → Prop :=
| e_answer c f r status result : 0 < aers (event c) →
    estep (Threads c f r) (Threads (answered status result c) f r)
| e_async c f r alloc : async_event_work (event c) = true →
    estep (Threads c f r) (Threads (flush_async_event_work alloc c) f r)
| e_fw_begin c r : fw_act_work (event c) = true →
    estep (Threads c None r) (Threads (fw_begin (set_event (set_fw false (event c)) c)) (Some FwPolling) r)
| e_fw_turn c r csts jiffies timeout :
    let t := fw_turn (fw_poll (CC_ENABLE env) (CSTS_PP env) (ctrl_config env) csts jiffies timeout) c in
    estep (Threads c (Some FwPolling) r) (Threads t.1 t.2 r)
| e_fw_finish c r alloc log :
    estep (Threads c (Some FwFinishing) r) (Threads (fw_finish alloc log c) None r)
| e_change c f r new : by_reset_work new = false →
    estep (Threads c f r) (Threads (change new c).2 f r)
| e_reset c f r :
    estep (Threads c f r) (Threads (set_core (nvme_reset_ctrl (core c)).1.2 c) f r)
| e_gate c f r o : estep (Threads c f r) (Threads (move o c) f r)
| e_drop_first c f : order ≠ StopThenDrop → reset_work (core c) = true →
    estep (Threads c f RIdle) (Threads (drop_admin (take_reset c)) f RDown)
| e_stop_after c alloc ops_stop : order = DropThenStop →
    estep (Threads c None RDown) (Threads (nvme_stop_ctrl alloc ops_stop c) None RReady)
| e_stop_first c alloc ops_stop : order = StopThenDrop → reset_work (core c) = true →
    estep (Threads c None RIdle) (Threads (nvme_stop_ctrl alloc ops_stop (take_reset c)) None RStopped)
| e_drop_after c f : estep (Threads c f RStopped) (Threads (drop_admin c) f RReady)
| e_no_stop c f : order = DropOnly → estep (Threads c f RDown) (Threads c f RReady)
| e_connect c f : estep (Threads c f RReady) (Threads (change NVME_CTRL_CONNECTING c).2 f RReady)
| e_live c f : (change NVME_CTRL_LIVE c).1 = true →
    estep (Threads c f RReady) (Threads (change NVME_CTRL_LIVE c).2 f RUp)
| e_give_up c f : estep (Threads c f RReady) (Threads c f RIdle)
| e_start c f jiffies queue_count discovery :
    estep (Threads c f RUp)
      (Threads (nvme_start_ctrl (AEN_SUPPORTED env) (oaes env) (DEFAULT_KATO env) (hz env) (rediscover env)
                  (connected env) jiffies queue_count discovery c) f RIdle).
End threads.

(** ** At most one event request *)

(** What will lead to an event request, or is one. *)
Definition tokens (s : threads) : Z :=
  aers (event (ec s)) + Z.b2z (async_event_work (event (ec s))) + Z.b2z (fw_act_work (event (ec s)))
  + (match fw s with Some _ => 1 | None => 0 end).

Definition busy (st : nvme_ctrl_state) : bool :=
  match st with NVME_CTRL_NEW | NVME_CTRL_LIVE | NVME_CTRL_CONNECTING => false | _ => true end.
Definition activating (s : threads) : bool :=
  fw_act_work (event (ec s)) || match fw s with Some FwPolling => true | _ => false end.

Record e_inv (s : threads) : Prop := {
  i_aers : 0 ≤ aers (event (ec s));
  i_tokens : tokens s ≤ 1;
  i_ready : reset s = RReady ∨ reset s = RUp → tokens s = 0;
  i_down : reset s = RDown → aers (event (ec s)) = 0 ∧ busy (state (core (ec s))) = true;
  i_stopped : reset s ≠ RStopped;
  i_live : reset s = RReady → state (core (ec s)) ≠ NVME_CTRL_NEW ∧ state (core (ec s)) ≠ NVME_CTRL_LIVE;
  i_queued : reset_work (core (ec s)) = true →
    busy (state (core (ec s))) = true ∧ (reset s = RIdle ∨ reset s = RUp);
  i_active : activating s = true →
    reset s = RIdle ∧ reset_work (core (ec s)) = false ∧ busy (state (core (ec s))) = true;
  i_io : io_depth (gate (ec s)) = Z.b2z (STOPPED (gate (ec s)));
  i_admin : admin_depth (gate (ec s)) = Z.b2z (ADMIN_Q_STOPPED (gate (ec s)))
}.

(** What the operations of the core do to the state and to the queued reset. *)
Ltac both_ex := solve [do 2 eexists; split_and!; [reflexivity|reflexivity|reflexivity|reflexivity]].
Lemma core_change new c : ∃ effs c',
  nvme_change_ctrl_state new c = (allowed new (state c), c', effs) ∧
  state c' = (if allowed new (state c) then new else state c) ∧ reset_work c' = reset_work c ∧ tagset c' = tagset c.
Proof.
  unfold nvme_change_ctrl_state, change_locked. destruct (allowed new (state c)) eqn:E; [|both_ex].
  destruct new; cbn [negb]; unfold change_after, nvme_stop_failfast_work, nvme_start_failfast_work; cbn;
    destruct (state c); cbn; (try both_ex);
    destruct (fast_io_fail_tmo c) as [t|]; (try both_ex); destruct (t =? -1); both_ex.
Qed.

Lemma core_reset c :
  state (nvme_reset_ctrl c).1.2 = (if allowed NVME_CTRL_RESETTING (state c) then NVME_CTRL_RESETTING else state c) ∧
  reset_work (nvme_reset_ctrl c).1.2 = reset_work c || allowed NVME_CTRL_RESETTING (state c).
Proof.
  unfold nvme_reset_ctrl. destruct (core_change NVME_CTRL_RESETTING c) as (effs & c' & -> & Hs & Hr & _).
  destruct (allowed NVME_CTRL_RESETTING (state c)); cbn; [|by rewrite orb_false_r].
  unfold queue_reset. rewrite Hr, orb_true_r. destruct (reset_work c) eqn:E; cbn; [|done]. by rewrite Hr.
Qed.

Lemma core_sched c :
  state (nvme_try_sched_reset c).2 = state c ∧
  reset_work (nvme_try_sched_reset c).2 = reset_work c || bool_decide (state c = NVME_CTRL_RESETTING).
Proof.
  unfold nvme_try_sched_reset. case_bool_decide; cbn; [|by rewrite orb_false_r].
  unfold queue_reset. rewrite orb_true_r. by destruct (reset_work c) eqn:E.
Qed.

Lemma core_scan c : state (nvme_queue_scan c) = state c ∧ reset_work (nvme_queue_scan c) = reset_work c.
Proof. unfold nvme_queue_scan. by destruct (_ && _). Qed.

(** The part of a controller the invariant speaks of. *)
Definition view (c : ectl) : aen * gates * nvme_ctrl_state * bool :=
  (event c, gate c, state (core c), reset_work (core c)).

Lemma inv_view c c' f r : view c' = view c → e_inv (Threads c f r) → e_inv (Threads c' f r).
Proof.
  unfold view. intros [= H1 H2 H3 H4] []. split; unfold tokens, activating in *; cbn in *; by rewrite ?H1, ?H2, ?H3, ?H4.
Qed.

Lemma view_notes l c : view (notes l c) = view c.
Proof. unfold notes. revert c. induction l as [|e l IH]; intros c; [done|]. cbn. by rewrite IH. Qed.

Lemma view_aen_uevent alloc c :
  view (nvme_aen_uevent alloc c) = (set_result 0 (event c), gate c, state (core c), reset_work (core c)).
Proof. unfold nvme_aen_uevent. by destruct (aen_result (event c) =? 0), alloc. Qed.

Lemma view_slot_info alloc log c : view (nvme_get_fw_slot_info alloc log c) = view c.
Proof.
  unfold nvme_get_fw_slot_info. destruct alloc, log as [l|]; cbn; try done.
  destruct (_ || _); [done|]. by destruct (frs l !! _).
Qed.

(** A change of the state that is not to LIVE or CONNECTING. *)
Ltac open_inv H := destruct H as [Ha Ht Hr Hd Hst Hl Hq Hc Hi Hm]; unfold tokens, activating in *; cbn in *.

Lemma inv_state c f r st :
  e_inv (Threads c f r) → by_reset_work st = false → allowed st (state (core c)) = true →
  ∀ c', event c' = event c → gate c' = gate c → state (core c') = st → reset_work (core c') = reset_work (core c) →
  e_inv (Threads c' f r).
Proof.
  intros H Hb Hal c' He Hg Hs Hw. open_inv H.
  split; unfold tokens, activating; cbn; rewrite ?He, ?Hg, ?Hs, ?Hw; try done.
  - intros E. destruct (Hd E) as [-> E']. split; [done|]. by destruct st, (state (core c)).
  - intros E. by destruct (Hl E), st, (state (core c)).
  - intros E. destruct (Hq E) as [E1 E2]. split; [|done]. by destruct st, (state (core c)).
  - intros E. destruct (Hc E) as (E1 & E2 & E3). repeat split; [done..|]. by destruct st, (state (core c)).
Qed.

Lemma inv_change c f r new : by_reset_work new = false →
  e_inv (Threads c f r) → e_inv (Threads (change new c).2 f r).
Proof.
  intros Hb H. unfold change. destruct (core_change new (core c)) as (effs & c' & -> & Hs & Hr & _). cbn.
  destruct (allowed new (state (core c))) eqn:E.
  - by eapply (inv_state c f r new).
  - eapply inv_view; [|exact H]. unfold view. cbn. by rewrite Hs, Hr.
Qed.

Lemma inv_reset c f r : e_inv (Threads c f r) → e_inv (Threads (set_core (nvme_reset_ctrl (core c)).1.2 c) f r).
Proof.
  intros H. destruct (core_reset (core c)) as [Hs Hw]. destruct (allowed NVME_CTRL_RESETTING (state (core c))) eqn:E.
  - rewrite orb_true_r in Hw. open_inv H.
    assert (activating (Threads c f r) = false ∧ (r = RIdle ∨ r = RUp)) as [Hf Hr'].
    { unfold activating. cbn. split.
      - apply not_true_is_false. intros E'. destruct (Hc E') as (_ & _ & E3). by destruct (state (core c)).
      - destruct r; auto; [|done|]; exfalso; [destruct (Hd eq_refl) as [_ E3]|destruct (Hl eq_refl)]; by destruct (state (core c)). }
    unfold activating in Hf. cbn in Hf.
    split; unfold tokens, activating; cbn; rewrite ?Hs, ?Hw, ?Hf; try done; by destruct Hr' as [-> | ->].
  - rewrite orb_false_r in Hw. eapply inv_view; [|exact H]. unfold view. cbn. by rewrite Hs, Hw.
Qed.

Definition gates_ok (g : gates) : Prop :=
  io_depth g = Z.b2z (STOPPED g) ∧ admin_depth g = Z.b2z (ADMIN_Q_STOPPED g).

(** A step that leaves the state of the controller alone and makes no new token. *)
Lemma inv_move c f c' f' r :
  e_inv (Threads c f r) → state (core c') = state (core c) → reset_work (core c') = reset_work (core c) →
  gates_ok (gate c') → 0 ≤ aers (event c') → tokens (Threads c' f' r) ≤ tokens (Threads c f r) →
  (r = RDown → aers (event c') = 0) → (activating (Threads c' f' r) = true → activating (Threads c f r) = true) →
  e_inv (Threads c' f' r).
Proof.
  intros [Ha Ht Hr Hd Hp Hl Hq Hc Hi Hm] Hs Hw [Hg1 Hg2] Ha' Ht' Hd' Hc'. cbn in *.
  split; cbn [ec fw reset]; rewrite ?Hs, ?Hw; try done.
  - lia.
  - intros E. specialize (Hr E). assert (0 ≤ tokens (Threads c' f' r)); [|lia].
    unfold tokens. cbn. destruct (async_event_work (event c')), (fw_act_work (event c')), f'; cbn; lia.
  - intros E. split; [auto|]. by apply Hd.
  - intros E. exact (Hc (Hc' E)).
Qed.

Lemma inv_gates s : e_inv s → gates_ok (gate (ec s)).
Proof. by intros []. Qed.

(** An answer takes the only token. *)
Lemma answer_alone c f r : e_inv (Threads c f r) → 0 < aers (event c) →
  aers (event c) = 1 ∧ async_event_work (event c) = false ∧ fw_act_work (event c) = false ∧ f = None ∧ r = RIdle.
Proof.
  intros H Hp. open_inv H. destruct (async_event_work (event c)), (fw_act_work (event c)), f; cbn in *; try lia.
  repeat split; [lia|]. destruct r; [done| |done|specialize (Hr (or_introl eq_refl)); lia|specialize (Hr (or_intror eq_refl)); lia].
  destruct (Hd eq_refl). lia.
Qed.

Definition answered_base (c : ectl) : ectl := set_event (set_aers (aers (event c) - 1) (event c)) c.

(** The work is queued again, whatever is noted with it. *)
Lemma inv_requeue c f r c' : e_inv (Threads c f r) → 0 < aers (event c) →
  state (core c') = state (core c) → reset_work (core c') = reset_work (core c) → gate c' = gate c →
  aers (event c') = aers (event c) - 1 → fw_act_work (event c') = fw_act_work (event c) →
  e_inv (Threads (queue_async_event_work c') f r).
Proof.
  intros H Hp Hs Hw Hg Ha Hf. destruct (answer_alone _ _ _ H Hp) as (E1 & E2 & E3 & -> & ->).
  apply (inv_move c None); [done..|by cbn; rewrite Hg; apply (inv_gates _ H)|cbn; lia| |done|].
  - unfold tokens. cbn. rewrite Ha, Hf, E1, E2, E3. cbn. lia.
  - unfold activating. cbn. by rewrite Hf.
Qed.

Lemma inv_answered env c f r status result : e_inv (Threads c f r) → 0 < aers (event c) →
  e_inv (Threads (answered env status result c) f r).
Proof.
  intros H Hp. destruct (answer_alone _ _ _ H Hp) as (E1 & E2 & E3 & -> & ->).
  assert (e_inv (Threads (answered_base c) None RIdle)) as Hb.
  { apply (inv_move c None); [done..|by apply (inv_gates _ H)|cbn; lia|unfold tokens; cbn; lia|done|done]. }
  unfold answered. fold (answered_base c). unfold nvme_complete_async_event.
  destruct (negb _); [done|]. destruct (_ =? _).
  { unfold nvme_handle_aen_notice. destruct (_ =? _).
    { destruct (core_scan (core c)). by apply (inv_requeue c). }
    destruct (_ =? _).
    { destruct (core_change NVME_CTRL_RESETTING (core (answered_base c))) as (effs & c' & -> & Hs & Hw & _).
      cbn in Hs, Hw. destruct (allowed NVME_CTRL_RESETTING (state (core (answered_base c)))) eqn:Eal; cbn in Eal.
      - destruct H as [_ _ _ _ _ _ Hq _ Hi Hm]. cbn in *. rewrite Eal in Hs.
        split; unfold tokens, activating; cbn; rewrite ?Hs, ?E1, ?E2; try done; try by intros [].
        + split; [done|by left].
        + intros _. repeat split. rewrite Hw. apply not_true_is_false. intros E. destruct (Hq E) as [E' _].
          by destruct (state (core c)).
      - rewrite Eal in Hs. by apply (inv_requeue c). }
    destruct (_ && _); [destruct (ana_log_buf env); by apply (inv_requeue c)|].
    destruct (_ =? _); by apply (inv_requeue c). }
  destruct (_ && _); [by apply inv_reset|]. destruct (existsb _ _); by apply (inv_requeue c).
Qed.

Lemma inv_flush alloc c f r : e_inv (Threads c f r) →
  e_inv (Threads (flush_async_event_work alloc c) f r) ∧
  (state (core c) ≠ NVME_CTRL_LIVE → event (flush_async_event_work alloc c) = event c ∨
     event (flush_async_event_work alloc c) = set_result 0 (set_async false (event c))).
Proof.
  intros H. unfold flush_async_event_work. destruct (async_event_work (event c)) eqn:E; [|auto].
  unfold nvme_async_event_work. pose proof (view_aen_uevent alloc (set_event (set_async false (event c)) c)) as Hv.
  destruct (nvme_aen_uevent _ _) as [co ka' g ev d so rv tr]. unfold view in Hv. cbn in Hv. injection Hv as -> -> Hs Hw.
  cbn. pose proof (inv_gates _ H) as Hg. case_bool_decide as El.
  - split; [|congruence]. pose proof (i_aers _ H) as Ha. cbn in Ha. apply (inv_move c f); cbn; try done; [lia|..].
    + unfold tokens. cbn. rewrite E. cbn. lia.
    + intros ->. destruct (i_down _ H eq_refl) as [_ Hb]. cbn in Hb. rewrite Hs in El. by rewrite El in Hb.
  - split; [|by right]. apply (inv_move c f); cbn; try done; [apply (i_aers _ H)|..].
    + unfold tokens. cbn. destruct (async_event_work (event c)); cbn; lia.
    + intros ->. apply (i_down _ H eq_refl).
Qed.

Lemma move_gates o c : gates_ok (gate c) → gates_ok (gate (move o c)).
Proof.
  unfold gates_ok. intros [H1 H2]. destruct o; cbn;
    unfold nvme_quiesce_io_queues, nvme_unquiesce_io_queues, nvme_quiesce_admin_queue, nvme_unquiesce_admin_queue;
    destruct (tagset (core c)), (STOPPED (gate c)) eqn:E1, (ADMIN_Q_STOPPED (gate c)) eqn:E2;
    cbn; rewrite ?E1, ?E2; cbn in *; lia.
Qed.

Lemma move_rest o c : core (move o c) = core c ∧ event (move o c) = event c.
Proof.
  destruct o; cbn;
    unfold nvme_quiesce_io_queues, nvme_unquiesce_io_queues, nvme_quiesce_admin_queue, nvme_unquiesce_admin_queue;
    by destruct (tagset (core c)), (STOPPED (gate c)), (ADMIN_Q_STOPPED (gate c)).
Qed.

Lemma inv_gate o c f r : e_inv (Threads c f r) → e_inv (Threads (move o c) f r).
Proof.
  intros H. destruct (move_rest o c) as [H1 H2]. apply (inv_move c f); rewrite ?H1, ?H2; try done.
  - apply move_gates, (inv_gates _ H).
  - apply (i_aers _ H).
  - unfold tokens. cbn. by rewrite H2.
  - intros E. by apply (i_down _ H).
  - unfold activating. cbn. by rewrite H2.
Qed.

Lemma inv_fw_begin c r : e_inv (Threads c None r) → fw_act_work (event c) = true →
  e_inv (Threads (fw_begin (set_event (set_fw false (event c)) c)) (Some FwPolling) r).
Proof.
  intros H E. unfold fw_begin. set (c1 := note AuthStop (set_event (set_fw false (event c)) c)).
  apply (inv_gate QuiesceIo c1). apply (inv_move c None); cbn; try done; [apply (inv_gates _ H)|apply (i_aers _ H)|..].
  - unfold tokens. cbn. rewrite E. cbn. lia.
  - intros ->. by apply (i_down _ H).
  - intros _. unfold activating. cbn. by rewrite E.
Qed.

Lemma inv_fw_turn c r t : e_inv (Threads c (Some FwPolling) r) → e_inv (Threads (fw_turn t c).1 (fw_turn t c).2 r).
Proof.
  intros H. assert (r = RIdle ∧ reset_work (core c) = false ∧ busy (state (core c)) = true ∧ fw_act_work (event c) = false
    ∧ aers (event c) = 0 ∧ async_event_work (event c) = false) as (-> & Ew & Eb & Ef & Ea & Es).
  { open_inv H. destruct Hc as (? & ? & ?); [by rewrite orb_true_r|].
    destruct (fw_act_work (event c)), (async_event_work (event c)); cbn in *; repeat split; done || lia. }
  pose proof (inv_gates _ H) as [Hg1 Hg2]. destruct t; cbn; [done|..].
  - unfold fw_timed_out. destruct (core_sched (core c)) as [Hs Hw].
    split; unfold tokens, activating; cbn; rewrite ?Hs, ?Hw, ?Ef, ?Ea, ?Es; try done; try (by intros []).
    intros _. auto.
  - unfold fw_live. destruct (core_change NVME_CTRL_CONNECTING (core c)) as (e1 & c1 & -> & Hs1 & Hw1 & _).
    assert (∀ co, reset_work co = false → e_inv (Threads (set_core co c) None RIdle)) as Hend.
    { intros co Hco. split; unfold tokens, activating; cbn; rewrite ?Hco, ?Ef, ?Ea, ?Es; try done; by intros []. }
    destruct (allowed NVME_CTRL_CONNECTING (state (core c))); cbn; [|apply Hend; congruence].
    destruct (core_change NVME_CTRL_LIVE c1) as (e2 & c2 & -> & Hs2 & Hw2 & _). rewrite Hs1. cbn.
    assert (reset_work c2 = false) as Hco by congruence.
    split; unfold tokens, activating; cbn; rewrite ?Hco, ?Ef, ?Ea, ?Es; try done; by intros [].
Qed.

Lemma inv_fw_finish c r alloc log : e_inv (Threads c (Some FwFinishing) r) →
  e_inv (Threads (fw_finish alloc log c) None r).
Proof.
  intros H. unfold fw_finish. pose proof (inv_gate UnquiesceIo _ _ _ H) as H1. cbn [move] in H1.
  set (c1 := nvme_unquiesce_io_queues c) in *. pose proof (view_slot_info alloc log c1) as Hv.
  set (c2 := nvme_get_fw_slot_info alloc log c1) in *. unfold view in Hv. injection Hv as He Hg Hs Hw.
  apply (inv_move c1 (Some FwFinishing)); cbn; rewrite ?He, ?Hg; try done.
  - apply (inv_gates _ H1).
  - apply (i_aers _ H1).
  - unfold tokens. cbn. rewrite He. destruct (async_event_work (event c1)); cbn; lia.
  - intros E. by apply (i_down _ H1).
  - unfold activating. cbn. by rewrite He.
Qed.

Lemma inv_drop_first c f : e_inv (Threads c f RIdle) → reset_work (core c) = true →
  e_inv (Threads (drop_admin (take_reset c)) f RDown).
Proof.
  intros H E. pose proof (inv_gates _ H) as [Hg1 Hg2]. open_inv H. destruct (Hq E) as [Hb _].
  split; unfold tokens, activating; cbn; try done; try lia.
  - by intros [].
  - intros E'. destruct (Hc E') as (_ & E2 & _). congruence.
Qed.

Lemma inv_stop_after c alloc ops_stop : e_inv (Threads c None RDown) →
  e_inv (Threads (nvme_stop_ctrl alloc ops_stop c) None RReady).
Proof.
  intros H. unfold nvme_stop_ctrl. cbv zeta. set (c0 := note AuthStop (note MpathStop c)).
  set (c1 := set_core (nvme_stop_failfast_work (core c0)) c0).
  assert (view c1 = view c) as Hv.
  { unfold view, c1, nvme_stop_failfast_work. cbn. by destruct (fast_io_fail_tmo (core c)). }
  apply (inv_view c c1) in H; [|done]. clearbody c1. clear c c0 Hv.
  destruct (inv_flush alloc c1 None RDown H) as [H2 He]. destruct (i_down _ H eq_refl) as [Ha Hb]. cbn in Ha, Hb.
  assert (state (core c1) ≠ NVME_CTRL_LIVE) as Hnl by (intros E; by rewrite E in Hb). specialize (He Hnl).
  assert (async_event_work (event (flush_async_event_work alloc c1)) = false) as Has.
  { destruct He as [He|He]; rewrite He; [|done]. destruct (async_event_work (event c1)) eqn:E; [|done].
    unfold flush_async_event_work in He. rewrite E in He. unfold nvme_async_event_work in He.
    pose proof (view_aen_uevent alloc (set_event (set_async false (event c1)) c1)) as Hv.
    destruct (nvme_aen_uevent _ _) as [co ka' g ev d so rv tr]. unfold view in Hv. cbn in Hv. injection Hv as -> _ Hs _.
    cbn in He. rewrite Hs, bool_decide_eq_false_2 in He by done. cbn in He. rewrite <- He in E. done. }
  set (c2 := flush_async_event_work alloc c1) in *. clearbody c2. clear He H Ha Hb Hnl.
  assert (e_inv (Threads (set_event (set_fw false (event c2)) c2) None RReady)) as Hd.
  { destruct (i_down _ H2 eq_refl) as [Ha Hb]. cbn in Ha, Hb. pose proof (inv_gates _ H2) as [Hg1 Hg2].
    split; unfold tokens, activating; cbn; rewrite ?Ha, ?Has; try done.
    - intros _. by destruct (state (core c2)).
    - intros E. by destruct (i_queued _ H2 E) as [_ []]. }
  destruct ops_stop; [|exact Hd]. eapply inv_view; [|exact Hd]. done.
Qed.

Lemma inv_start_ctrl env c f jiffies queue_count discovery : e_inv (Threads c f RUp) →
  e_inv (Threads (nvme_start_ctrl (AEN_SUPPORTED env) (oaes env) (DEFAULT_KATO env) (hz env) (rediscover env)
                  (connected env) jiffies queue_count discovery c) f RIdle).
Proof.
  intros H. assert (aers (event c) = 0 ∧ async_event_work (event c) = false ∧ fw_act_work (event c) = false ∧ f = None)
    as (Ea & Es & Ef & ->).
  { open_inv H. specialize (Hr (or_intror eq_refl)).
    destruct (async_event_work (event c)), (fw_act_work (event c)), f; cbn in *; repeat split; lia. }
  assert (e_inv (Threads (nvme_enable_aen (AEN_SUPPORTED env) (oaes env) c) None RIdle)) as H1.
  { unfold nvme_enable_aen. pose proof (inv_gates _ H) as [Hg1 Hg2]. open_inv H.
    destruct (_ =? 0); split; unfold tokens, activating; cbn; rewrite ?Ea, ?Es, ?Ef; try done; try (by intros []);
      intros E; destruct (Hq E); auto. }
  unfold nvme_start_ctrl. set (c1 := nvme_enable_aen _ _ c) in *. clearbody c1.
  set (c2 := if STARTED_ONCE c1 && discovery then _ else c1).
  assert (view c2 = view c1) as Hv by (unfold c2; by destruct (_ && _), (kato (kav c1) =? 0)).
  apply (inv_view c1 c2) in H1; [|done]. clearbody c2. clear Hv c1.
  set (c3 := if 1 <? queue_count then _ else c2).
  assert (e_inv (Threads c3 None RIdle)) as H3.
  { unfold c3. destruct (1 <? queue_count); [|done].
    eapply inv_view; [|apply (inv_gate UnquiesceIo (set_core (nvme_queue_scan (core c2)) c2))]; [done|].
    eapply inv_view; [|exact H1]. destruct (core_scan (core c2)) as [E1 E2]. unfold view. cbn. by rewrite E1, E2. }
  eapply inv_view; [|exact H3]. done.
Qed.

Lemma inv_estep env s s' : e_inv s → estep env DropThenStop s s' → e_inv s'.
Proof.
  intros H Hst. destruct Hst; try done.
  - by apply inv_answered.
  - by apply inv_flush.
  - by apply inv_fw_begin.
  - by apply inv_fw_turn.
  - by apply inv_fw_finish.
  - by apply inv_change.
  - by apply inv_reset.
  - by apply inv_gate.
  - by apply inv_drop_first.
  - by apply inv_stop_after.
  - exfalso. by apply (i_stopped _ H).
  - unfold change. destruct (core_change NVME_CTRL_CONNECTING (core c)) as (e & c' & -> & Hs & Hw & _). cbn.
    open_inv H. split; unfold tokens, activating; cbn; rewrite ?Hs, ?Hw; try done.
    + intros E. destruct (Hl E) as [E1 E2]. by destruct (state (core c)).
    + intros E. by destruct (Hq E) as [_ []].
    + intros E. by destruct (Hc E).
  - revert H0. unfold change. destruct (core_change NVME_CTRL_LIVE (core c)) as (e & c' & -> & Hs & Hw & _). cbn [fst snd].
    intros Hal. rewrite Hal in Hs. open_inv H. specialize (Hr (or_introl eq_refl)).
    split; unfold tokens, activating; cbn; rewrite ?Hw; try done.
    + intros E. by destruct (Hq E) as [_ []].
    + intros E. by destruct (Hc E).
  - open_inv H. specialize (Hr (or_introl eq_refl)). split; unfold tokens, activating; cbn; try done; try (by intros []).
    + intros E. destruct (Hq E) as [E1 _]. auto.
    + intros E. by destruct (Hc E).
  - by apply inv_start_ctrl.
Qed.

Definition events_new (c : nvme_ctrl) (k : ka) (n : nat) : threads :=
  Threads (Ectl c k (Gates false 0 false 0 false (replicate n 0) false false) (Aen 0 0 false false false false)
    false false [] []) None RIdle.


(** A controller with the codes of the specification. *)
Definition env_ex : surroundings :=
  Surroundings
    (λ t, match t with NVME_AER_ERROR => 0 | NVME_AER_SMART => 1 | NVME_AER_NOTICE => 2 | NVME_AER_CSS => 6 | NVME_AER_VS => 7 end)
    (λ n, match n with
          | NVME_AER_NOTICE_NS_CHANGED => 0 | NVME_AER_NOTICE_FW_ACT_STARTING => 1
          | NVME_AER_NOTICE_ANA => 3 | NVME_AER_NOTICE_DISC_CHANGED => 0xf0
          end)
    3 true false 1 32 1 0x80000b00 0x900 5 100 [] [].

Definition start_ex : threads := events_new (ctrl_new None) (Ka 0 false false false 0 None) 1.

Tactic Notation "go" uconstr(H) := eapply rtc_l; [eapply H; first [reflexivity|done|idtac]|];
  match goal with |- rtc ?R ?s ?s' => let t := eval vm_compute in s in change (rtc R t s') end.


(** A transport that does not flush the work, or flushes it while the controller still
    answers, can have two: the work is queued by an answer
    before the requests are dropped, and runs when the controller is live again and not
    started yet. *)
Lemma two_event_requests order : order ≠ DropThenStop →
  ∃ s, rtc (estep env_ex order) start_ex s ∧ aers (event (ec s)) = 2.
Proof.
  intros Ho. destruct order; [done|..].
  - eexists. split.
    + go e_reset. go (e_stop_first _ _ _ true false). go e_drop_after. go e_connect. go e_live.
      go (e_start _ _ _ _ 0 2 false). go (e_async _ _ _ _ _ true). go e_reset.
      go (e_stop_first _ _ _ true false). go (e_answer _ _ _ _ _ 0 1). go e_drop_after. go e_connect. go e_live.
      go (e_async _ _ _ _ _ true). go (e_start _ _ _ _ 0 2 false). go (e_async _ _ _ _ _ true). apply rtc_refl.
    + reflexivity.
  - eexists. split.
    + go e_reset. go e_drop_first. go e_no_stop. go e_connect. go e_live.
      go (e_start _ _ _ _ 0 2 false). go (e_async _ _ _ _ _ true). go (e_answer _ _ _ _ _ 0 1). go e_reset.
      go e_drop_first. go e_no_stop. go e_connect. go e_live.
      go (e_async _ _ _ _ _ true). go (e_start _ _ _ _ 0 2 false). go (e_async _ _ _ _ _ true). apply rtc_refl.
    + reflexivity.
Qed.

(** ** The bracket around a command of a user program *)

Lemma gate_notes l c : gate (notes l c) = gate c ∧ core (notes l c) = core c ∧ kav (notes l c) = kav c
  ∧ DIRTY_CAPABILITY (notes l c) = DIRTY_CAPABILITY c.
Proof. unfold notes. revert c. induction l as [|e l IH]; intros c; [done|]. cbn. destruct (IH (note e c)) as (-> & -> & -> & ->). done. Qed.

Lemma freezes_back (l : list Z) : (Z.add (-1) <$> (Z.add 1 <$> l)) = l.
Proof.
  rewrite <- list_fmap_compose. rewrite <- (list_fmap_id l) at 2. apply list_fmap_ext. intros i x _. cbn. lia.
Qed.

Lemma relaxed CSE x : 0 ≤ CSE < 2 ^ 32 → any (Z.land x (not32 CSE)) CSE = false.
Proof.
  intros H. unfold any. rewrite negb_false_iff. apply Z.eqb_eq. apply Z.bits_inj'. intros n Hn.
  rewrite !Z.land_spec, Z.bits_0. unfold not32, u32. destruct (Z.ltb_spec n 32).
  - rewrite Z.mod_pow2_bits_low, Z.lnot_spec by lia. by destruct (Z.testbit x n), (Z.testbit CSE n).
  - rewrite Z.mod_pow2_bits_high by lia. by rewrite andb_false_r.
Qed.

(** The two locks. *)
Definition unlocked (g : gates) : Prop := scan_lock g = false ∧ subsys_lock g = false.

(** A command of a user program runs with exactly the protection its effects ask for,
    and nothing of it is left: when the effects restrict execution and nothing relaxes
    them, both locks are held and every namespace's queue is frozen once more, which never
    happens for an I/O command; otherwise nothing changes.  When the command has ended,
    whatever happened to the rest of the controller, the locks are free and the queues are
    frozen as often as before, a change of capabilities is noted, a change of the namespaces
    rescans them, and the keep alive follows a successful change of its time-out. *)
Theorem passthru_exact CSE CSER CCC NIC NCC setf katof iocs acs HZ jiffies ns op cmd status c eff c1 c1' :
  0 ≤ CSE < 2 ^ 32 → unlocked (gate c) →
  nvme_passthru_start CSE CSER iocs acs ns op c = (eff, c1) → gate c1' = gate c1 →
  let c2 := nvme_passthru_end CSE CCC NIC NCC setf katof HZ jiffies ns eff cmd status c1' in
  (if any eff CSE then
     ns = false ∧ any (acs op) CSER = false ∧ scan_lock (gate c1) = true ∧ subsys_lock (gate c1) = true ∧
     FROZEN (gate c1) = true ∧ freezes (gate c1) = Z.add 1 <$> freezes (gate c)
   else c1 = c) ∧
  unlocked (gate c2) ∧ freezes (gate c2) = freezes (gate c) ∧
  io_depth (gate c2) = io_depth (gate c) ∧ STOPPED (gate c2) = STOPPED (gate c) ∧
  DIRTY_CAPABILITY c2 = DIRTY_CAPABILITY c1' || any eff CCC ∧
  core c2 = (if any eff (Z.lor NIC NCC) then nvme_queue_scan (core c1') else core c1') ∧
  kav c2 = (if negb ns && (opcode cmd =? setf) && (Z.land (cdw10 cmd) 0xff =? katof) && (status =? 0)
            then nvme_update_keep_alive HZ jiffies (cdw11 cmd) (kav c1') else kav c1').
Proof.
  intros HC [Hl1 Hl2] Hst Hg c2. unfold nvme_passthru_start in Hst. unfold c2, nvme_passthru_end.
  destruct (any (nvme_command_effects _ _ _ _ _ _) CSE) eqn:E; injection Hst as <- <-; rewrite E.
  - assert (ns = false ∧ any (acs op) CSER = false) as [-> Hr].
    { unfold nvme_command_effects in E. destruct ns; [by rewrite relaxed in E|]. split; [done|].
      destruct (any (acs op) CSER); [by rewrite relaxed in E|done]. }
    unfold nvme_wait_freeze in *. set (l := each WaitFreeze _) in *. clearbody l.
    match type of Hg with _ = gate (notes _ ?x) => destruct (gate_notes l x) as (Hn & _) end.
    rewrite Hn in *. cbn in Hg.
    destruct (any _ CCC), (any _ (Z.lor NIC NCC)), (opcode cmd =? setf), (Z.land (cdw10 cmd) 0xff =? katof), (status =? 0);
      cbn; rewrite ?Hg; cbn; rewrite freezes_back, ?orb_true_r, ?orb_false_r; done.
  - rewrite <- Hg in Hl1, Hl2.
    destruct (any _ CCC), (any _ (Z.lor NIC NCC)), ns, (opcode cmd =? setf), (Z.land (cdw10 cmd) 0xff =? katof), (status =? 0);
      cbn; rewrite ?Hg, ?orb_true_r, ?orb_false_r in *; done.
Qed.

Definition ectl_ex : ectl := ec (events_new (set_state NVME_CTRL_LIVE (ctrl_new None)) (Ka 10 false true false 0 None) 2).
Definition acs_ex (op : Z) : Z := if op =? 9 then 0x10013 else 1.

(** A Set Features command that sets the time-out, on a controller whose effects say that
    it must run alone and changes capabilities. *)
Lemma passthru_exact_witness :
  let s := nvme_passthru_start 0x70000 0xc000 acs_ex acs_ex false 9 ectl_ex in
  let c2 := nvme_passthru_end 0x70000 0x10 4 8 9 15 100 1000 false s.1 (Cmd 9 15 4000) 0 s.2 in
  freezes (gate s.2) = [1; 1] ∧ freezes (gate c2) = [0; 0] ∧ unlocked (gate c2) ∧ kato (kav c2) = 4.
Proof.
  destruct (passthru_exact 0x70000 0xc000 0x10 4 8 9 15 acs_ex acs_ex 100 1000 false 9 (Cmd 9 15 4000) 0 ectl_ex
    (nvme_passthru_start 0x70000 0xc000 acs_ex acs_ex false 9 ectl_ex).1
    (nvme_passthru_start 0x70000 0xc000 acs_ex acs_ex false 9 ectl_ex).2
    (nvme_passthru_start 0x70000 0xc000 acs_ex acs_ex false 9 ectl_ex).2)
    as (H1 & H2 & H3 & _); [lia|split; reflexivity|reflexivity|reflexivity|].
  split; [reflexivity|]. split; [exact H3|]. split; [exact H2|reflexivity].
Defined.

(** ** The loop of a firmware activation *)

(** It ends: with a clock that moves on between two turns, at the latest in the first turn
    behind the time-out, and with the time-out only then. *)
Lemma fw_loop_ends CC PP cfg clock csts timeout n :
  (∀ i, 0 ≤ clock i < 2 ^ 63) → (∀ i, clock i < clock (S i)) → 0 ≤ timeout < 2 ^ 63 → timeout < clock n →
  ∀ fuel i, (n < i + fuel)%nat → (i ≤ n)%nat →
  ∃ t, fw_loop CC PP cfg clock csts timeout fuel i = Some t ∧ t ≠ Again ∧
       (t = TimedOut → ∃ j, (i ≤ j ≤ n)%nat ∧ timeout < clock j ∧ nvme_ctrl_pp_status CC PP cfg (csts j) = true).
Proof.
  intros Hc Hm Ht Hn. induction fuel as [|fuel IH]; intros i Hf Hi; [lia|]. cbn. unfold fw_poll.
  destruct (nvme_ctrl_pp_status CC PP cfg (csts i)) eqn:E; [|by exists Activated].
  rewrite time_after_spec by done. destruct (Z.ltb_spec timeout (clock i)).
  - exists TimedOut. split; [done|]. split; [done|]. intros _. exists i. split; [lia|done].
  - assert (i ≠ n) by (intros ->; lia). destruct (IH (S i)) as (t & H1 & H2 & H3); [lia..|].
    exists t. split; [done|]. split; [done|]. intros E'. destruct (H3 E') as (j & ? & ?). exists j. split; [lia|done].
Qed.
