(* ===== verification/NvmeInfo.v ===== *)
(** * NVMe core: what is read of a namespace (drivers/nvme/host/core.c)

    The format of a namespace and the limits its disk gets from it: metadata and protection
    information, atomic writes, block sizes, discards, the boundary of I/O, the placement
    identifiers; and the update of a namespace with its freeze, its lock and its buffers.
    Shown: the limits are well formed for every answer of the controller, the capacity is
    the announced number of blocks or 0, the protection information lies inside the
    metadata, every path gives back what it has taken, and a placement configuration is
    found at its index in every log.  Shifts, divisions and reads that C leaves undefined
    are fault values.  Decoders of headers outside the repository (the index of a format,
    the fields of an extended format, the conversion of blocks to sectors) are parameters. *)

From Stdlib Require Import ZArith Lia Bool Znumtheory.
From stdpp Require Import base numbers list option.
From S2P Require Import Prelude.
From S2P Require Import NvmeSetup.

Local Open Scope list_scope.
Local Open Scope Z_scope.

Inductive fault := BadShift | NoLogarithm | OutOfBounds.

Definition U32_MAX : Z := 2 ^ 32 - 1.
Definition USHRT_MAX : Z := 2 ^ 16 - 1.

(** ** Answers of the controller *)

(** The Identify Namespace structure; bits are named by what they say. *)
Record nvme_id_ns := IdNs {
  nsze : Z; ncap : Z; nuse : Z;
  flbas : Z; flbas_meta_ext : bool;
  lbaf : list (Z * Z);                  (** metadata size and data shift of each format *)
  dps_pi_type : pi_type; dps_pi_first : bool;
  nsfeat : Z; feat_atomics : bool;
  nabo : Z; nawupf : Z; nabspf : Z;
  npwg : Z; nows : Z; npdg : Z; npda : Z;
  noiob : Z;
  dlfeat : Z
}.
(** Its extension for the NVM command set. *)
Record nvme_id_ns_nvm := IdNvm { elbaf : list Z; pic_qpifs : bool; npdgl : Z; npdal : Z }.

(** What the driver knows of the controller. *)
Record nvme_ctrl := NCtrl {
  max_hw_sectors : Z; max_segments : Z; max_integrity_segments : Z;
  get_virt_boundary : bool → Z;
  admin_page_align : bool; stripe_size : bool; deallocate_zeroes : bool;    (** quirks *)
  f_metadata : bool; f_fabrics : bool;                                      (** flags of the transport *)
  attr_elbas : bool; oncs_dsm : bool; vwc_present : bool; vs_2_1 : bool;
  max_zeroes_sectors : Z; dmrsl : Z; dmrl : Z
}.

(** ** Head, limits, disk *)

Record nvme_ns_head := IHead {
  lba_shift : Z; h_nuse : Z; ms : Z;
  h_pi_type : pi_type; pi_size : Z; h_guard_type : guard_type;
  METADATA_SUPPORTED : bool; EXT_LBAS : bool; DEAC : bool;
  nr_plids : Z; plids : list Z; write_stream_granularity : Z
}.

Inductive csum := CSUM_NONE | CSUM_CRC | CSUM_CRC64.
Record blk_integrity := Bi {
  csum_type : csum; tag_size : Z; device_capable : bool; ref_tag : bool; split_interval : bool;
  metadata_size : Z; pi_tuple_size : Z; bi_pi_offset : Z
}.
Definition no_integrity : blk_integrity := Bi CSUM_NONE 0 false false false 0 0 0.

Record ctrl_limits := CtrlLim {
  l_max_hw_sectors : Z; l_max_segments : Z; l_max_integrity_segments : Z; l_virt_boundary_mask : Z;
  l_max_segment_size : Z; l_dma_alignment : Z
}.
Record atomic_limits := AtomicLim { hw_max : Z; hw_boundary : Z; hw_unit_min : Z; hw_unit_max : Z; feat_atomic : bool }.
Record block_limits := BlockLim { logical_block_size : Z; physical_block_size : Z; io_min : Z; io_opt : Z }.
Record discard_limits := DiscardLim {
  max_write_zeroes_sectors : Z; max_hw_discard_sectors : Z; discard_granularity : Z; max_discard_segments : Z
}.
Record queue_limits := Lim {
  l_ctrl : ctrl_limits; chunk_sectors : Z; l_atomic : atomic_limits; l_block : block_limits; l_discard : discard_limits;
  write_cache : bool; rotational : bool; integrity : blk_integrity;
  max_write_streams : Z; l_write_stream_granularity : Z; max_hw_wzeroes_unmap_sectors : Z;
  feat_zoned : bool; max_open_zones : Z; max_active_zones : Z
}.

(** ** Headers, configuration and other files of the kernel *)

Class Headers := {
  nvme_lbaf_index : Z → nat;
  nvme_elbaf_sts : Z → Z; nvme_elbaf_guard_type : Z → Z; nvme_elbaf_qualified_guard_type : Z → Z;
  GUARD_16B_CODE : Z; GUARD_64B_CODE : Z; QTYPE_GUARD : Z;
  crc64_pi_tuple : Z; t10_pi_tuple : Z;                       (** sizes *)
  nvme_ns_has_pi : nvme_ns_head → bool;
  nvme_sect_to_lba : Z → Z → Z; nvme_lba_to_sect : Z → Z → Z; (** shift of a block, number *)
  page_shift : Z; blk_validate_block_size : Z → bool;         (** the size is refused *)
  from0based : Z → Z; OPTPERF_SHIFT : Z; OPTPERF_MASK : Z; OPTPERF_MASK_2_1 : Z;
  NVME_CTRL_PAGE_SIZE : Z; NVME_DSM_MAX_RANGES : Z;
  has_blk_integrity : bool; disable_pi_offsets : bool; blk_dev_zoned : bool;
  update_zone : Z → queue_limits → queue_limits;              (** nvme_update_zone_info, another file *)
  queue_limits_stack_bdev : queue_limits → queue_limits → queue_limits
}.

(** What the code relies on: formats are numbered up to the size of the table, block sizes
    are powers of two between a sector and a page, the tuples are those of the standards, and
    an update of the zones leaves the other limits alone. *)
Class HeaderLaws `{Headers} := {
  lbaf_index_lt f : (nvme_lbaf_index f < 64)%nat;
  block_size_ok bs : blk_validate_block_size bs = false → ∃ k, 9 ≤ k ≤ page_shift ∧ bs = 2 ^ k;
  t10_size : t10_pi_tuple = 8;
  crc64_size : crc64_pi_tuple = 16;
  from0based_spec x : from0based x = x + 1;
  zone_other z l : l_atomic (update_zone z l) = l_atomic l ∧ l_block (update_zone z l) = l_block l ∧
                   l_discard (update_zone z l) = l_discard l
}.

Section info.
Context `{HD : Headers}.

Definition guard_of (code : Z) : guard_type :=
  if code =? GUARD_64B_CODE then GUARD_64B else if code =? GUARD_16B_CODE then GUARD_16B else GUARD_OTHER.

(** *** Metadata and protection information *)

Definition nvme_init_integrity (h : nvme_ns_head) (pi_offset : Z) : bool * blk_integrity :=
  if ms h =? 0 then (true, no_integrity)
  else if negb has_blk_integrity || negb (METADATA_SUPPORTED h) then (nvme_ns_has_pi h, no_integrity)
  else
    let '(c, tag, dev, ref) :=
      match h_pi_type h, h_guard_type h with
      | PI_TYPE3, GUARD_16B => (CSUM_CRC, 2 + 4, true, false)
      | PI_TYPE3, GUARD_64B => (CSUM_CRC64, 2 + 6, true, false)
      | (PI_TYPE1 | PI_TYPE2), GUARD_16B => (CSUM_CRC, 2, true, true)
      | (PI_TYPE1 | PI_TYPE2), GUARD_64B => (CSUM_CRC64, 2, true, true)
      | _, _ => (CSUM_NONE, 0, false, false)
      end in
    let '(size, off) := match c with CSUM_NONE => (0, 0) | _ => (pi_size h, pi_offset) end in
    (true, Bi c tag dev ref true (ms h) size off).

Definition set_meta (m : Z) (t : pi_type) (size : Z) (g : guard_type) (supported ext : bool) (h : nvme_ns_head) : nvme_ns_head :=
  IHead (lba_shift h) (h_nuse h) m t size g supported ext (DEAC h) (nr_plids h) (plids h) (write_stream_granularity h).

(** The guard and the size of its tuple; both stay as they are for a format with storage
    tags, or behind the table. *)
Definition nvme_configure_pi_elbas (g : guard_type) (id : nvme_id_ns) (nvm : nvme_id_ns_nvm)
    : result fault (guard_type * Z) :=
  match elbaf nvm !! nvme_lbaf_index (flbas id) with
  | None => Err OutOfBounds
  | Some e =>
      if negb (nvme_elbaf_sts e =? 0) then Ok (g, 0)
      else
        let code := nvme_elbaf_guard_type e in
        let code := if pic_qpifs nvm && (code =? QTYPE_GUARD) then nvme_elbaf_qualified_guard_type e else code in
        Ok (guard_of code,
            match guard_of code with GUARD_64B => crc64_pi_tuple | GUARD_16B => t10_pi_tuple | GUARD_OTHER => 0 end)
  end.

(** The new head and [info->pi_offset], a byte. *)
Definition nvme_configure_metadata (c : nvme_ctrl) (id : nvme_id_ns) (nvm : option nvme_id_ns_nvm)
    (pi_offset : Z) (h : nvme_ns_head) : result fault (nvme_ns_head * Z) :=
  match lbaf id !! nvme_lbaf_index (flbas id) with
  | None => Err OutOfBounds
  | Some (m, _) =>
      if (m =? 0) || negb (f_metadata c) then Ok (set_meta m PI_NONE 0 (h_guard_type h) false false h, pi_offset)
      else
        match (match nvm with
               | Some n => if attr_elbas c then nvme_configure_pi_elbas (h_guard_type h) id n
                           else Ok (GUARD_16B, t10_pi_tuple)
               | None => Ok (GUARD_16B, t10_pi_tuple)
               end) with
        | Err e => Err e
        | Ok (g, size) =>
            let t := if negb (size =? 0) && (size <=? m) then dps_pi_type id else PI_NONE in
            let '(t, off) :=
              if negb (dps_pi_first id)
              then if disable_pi_offsets then (PI_NONE, pi_offset) else (t, u8 (m - size))
              else (t, pi_offset) in
            let meta supported ext := set_meta m t size g supported ext h in
            Ok (if f_fabrics c then
                  if negb (flbas_meta_ext id) then meta false false
                  else meta (negb (max_integrity_segments c =? 0) && nvme_ns_has_pi (meta false true)) true
                else if flbas_meta_ext id then meta false true else meta true false, off)
        end
  end.

(** *** Limits *)

(** [rounddown_pow_of_two] is undefined at 0. *)
Definition rounddown_pow_of_two (x : Z) : result fault Z := if x =? 0 then Err NoLogarithm else Ok (2 ^ Z.log2 x).
Definition is_power_of_2 (x : Z) : bool := negb (x =? 0) && (Z.land x (x - 1) =? 0).
Definition min_not_zero (x y : Z) : Z := if x =? 0 then y else if y =? 0 then x else Z.min x y.

Definition nvme_configure_atomic_write (id : nvme_id_ns) (bs : Z) (a : atomic_limits)
    : result fault (Z * atomic_limits) :=
  if negb (nabo id =? 0) then Ok (bs, a)
  else
    let '(atomic_bs, boundary) :=
      if feat_atomics id && negb (nawupf id =? 0) then
        (u32 ((1 + nawupf id) * bs), if negb (nabspf id =? 0) then u32 ((nabspf id + 1) * bs) else 0)
      else (bs, 0) in
    match rounddown_pow_of_two atomic_bs with
    | Ok r => Ok (atomic_bs, AtomicLim atomic_bs boundary bs r true)
    | Err e => Err e
    end.

Definition nvme_max_drv_segments (c : nvme_ctrl) : Z := u32 (max_hw_sectors c / (NVME_CTRL_PAGE_SIZE / 512) + 1).

Definition nvme_set_ctrl_limits (c : nvme_ctrl) (is_admin : bool) : ctrl_limits :=
  CtrlLim (max_hw_sectors c)
    (Z.min USHRT_MAX (min_not_zero (nvme_max_drv_segments c) (max_segments c)))
    (max_integrity_segments c) (get_virt_boundary c is_admin) U32_MAX
    (if is_admin && admin_page_align c then NVME_CTRL_PAGE_SIZE - 1 else 3).

(** [1U << shift] is undefined from 32 on. *)
Definition block_size (shift : Z) : result fault Z := if (shift <? 0) || (32 <=? shift) then Err BadShift else Ok (2 ^ shift).

Definition optimal (c : nvme_ctrl) (id : nvme_id_ns) : Z :=
  Z.land (u8 (Z.shiftr (nsfeat id) OPTPERF_SHIFT)) (if vs_2_1 c then OPTPERF_MASK_2_1 else OPTPERF_MASK).

Definition granularity (opt : Z) (id : nvme_id_ns) (nvm : option nvme_id_ns_nvm) (bs : Z) : Z :=
  let high := negb (Z.land opt 2 =? 0) in
  let g := match nvm with
           | Some n => if high && negb (npdgl n =? 0) then npdgl n
                       else if negb (Z.land opt 1 =? 0) then from0based (npdg id) else 1
           | None => if negb (Z.land opt 1 =? 0) then from0based (npdg id) else 1
           end in
  let a := match nvm with
           | Some n => if high && negb (npdal n =? 0) then npdal n
                       else if negb (opt =? 0) then from0based (npda id) else 1
           | None => if negb (opt =? 0) then from0based (npda id) else 1
           end in
  let v := Z.max g a * bs in
  if U32_MAX <? v then bs else v.

Definition discard_of (c : nvme_ctrl) (shift : Z) (g : Z) : discard_limits :=
  DiscardLim
    (if deallocate_zeroes c && oncs_dsm c then U32_MAX else max_zeroes_sectors c)
    (if negb (dmrsl c =? 0) && (dmrsl c <=? nvme_sect_to_lba shift U32_MAX) then u32 (nvme_lba_to_sect shift (dmrsl c))
     else if oncs_dsm c then U32_MAX else 0)
    g
    (if negb (dmrl c =? 0) then dmrl c else NVME_DSM_MAX_RANGES).

(** Whether block I/O is possible, and the new limits. *)
Definition nvme_update_disk_info (c : nvme_ctrl) (shift : Z) (id : nvme_id_ns) (nvm : option nvme_id_ns_nvm)
    (a : atomic_limits) : result fault (bool * (atomic_limits * block_limits * discard_limits)) :=
  match block_size shift with
  | Err e => Err e
  | Ok bs0 =>
      let valid := negb (blk_validate_block_size bs0) in
      let bs := if valid then bs0 else 512 in
      match nvme_configure_atomic_write id bs a with
      | Err e => Err e
      | Ok (atomic_bs, a') =>
          let opt := optimal c id in
          let phys_bs := if negb (opt =? 0) then u32 (bs * (1 + npwg id)) else bs in
          let opt_size := if negb (opt =? 0) && negb (nows id =? 0) then u32 (bs * (1 + nows id)) else 0 in
          Ok (valid, (a', BlockLim bs (Z.min phys_bs atomic_bs) phys_bs opt_size,
                      discard_of c shift (granularity opt id nvm bs)))
      end
  end.

Definition nvme_set_chunk_sectors (c : nvme_ctrl) (shift : Z) (zoned : bool) (id : nvme_id_ns) (chunk : Z) : Z :=
  let iob := if stripe_size c && is_power_of_2 (max_hw_sectors c) then max_hw_sectors c
             else u32 (nvme_lba_to_sect shift (noiob id)) in
  if iob =? 0 then chunk else if negb (is_power_of_2 iob) then chunk else if zoned then chunk else iob.

(** [check_shl_overflow] on 64 bits: whether the shift loses anything, and its result. *)
Definition nvme_invalid_lba_sz (nsze shift : Z) : bool * Z :=
  if (shift <? 0) || (64 <=? shift) then (true, 0)
  else (2 ^ 64 <=? nsze * 2 ^ shift, u64 (nsze * 2 ^ shift)).

(** *** The update of a namespace *)

(** Buffers, the freeze of the queue and the lock of its limits, in the order in which the
    code takes and gives them back; [Commit] gives the lock back. *)
Inductive tev := AllocId | FreeId | AllocNvm | FreeNvm | StartUpdate | CommitUpdate | Freeze | Unfreeze
| HeadStartUpdate | HeadCommitUpdate | HeadFreeze | HeadUnfreeze | RevalidatePaths.

Record nvme_ns := INs {
  head : nvme_ns_head; csi_zns : bool; limits : queue_limits;
  capacity : Z; disk_ro : bool; hidden : bool; READY : bool
}.

Record nvme_ns_info := Info {
  pi_offset : Z; is_readonly : bool; is_removed : bool; is_rotational : bool; no_vwc : bool
}.
Definition set_pi_offset (off : Z) (i : nvme_ns_info) : nvme_ns_info :=
  Info off (is_readonly i) (is_removed i) (is_rotational i) (no_vwc i).
Definition set_removed (i : nvme_ns_info) : nvme_ns_info :=
  Info (pi_offset i) (is_readonly i) true (is_rotational i) (no_vwc i).

(** What the controller and the block layer answer: the Identify structure or an error,
    whether the second one may be asked for and its answer, the zone query with the size of
    a zone, the commit of the limits, the check of the zones. *)
Record answers := Answers {
  a_id : result Z nvme_id_ns;
  a_cns_ok : bool; a_nvm : result Z nvme_id_ns_nvm;
  a_zone : Z * Z;
  a_commit : Z; a_zones : Z
}.

(** A helper may fail with an error code below 0 or a status of the controller above 0. *)
Definition ret_of {A} (r : result Z A) : Z := match r with Ok _ => 0 | Err e => e end.
Definition opt_of {A} (r : result Z A) : option A := match r with Ok a => Some a | Err _ => None end.

(** The head, the offset of the protection information, the limits and the capacity that
    the new format leads to. *)
Definition format (c : nvme_ctrl) (id : nvme_id_ns) (nvm : option nvme_id_ns_nvm) (zone : Z) (info : nvme_ns_info)
    (shift cap : Z) (n : nvme_ns) : result fault (nvme_ns_head * Z * queue_limits * Z) :=
  let h0 := head n in
  let h := IHead shift (nuse id) (ms h0) (h_pi_type h0) (pi_size h0) (h_guard_type h0) (METADATA_SUPPORTED h0)
             (EXT_LBAS h0) (DEAC h0) (nr_plids h0) (plids h0) (write_stream_granularity h0) in
  match nvme_configure_metadata c id nvm (pi_offset info) h with
  | Err e => Err e
  | Ok (h, off) =>
      let l := limits n in
      let chunk := nvme_set_chunk_sectors c shift (feat_zoned l) id (chunk_sectors l) in
      match nvme_update_disk_info c shift id nvm (l_atomic l) with
      | Err e => Err e
      | Ok (valid, (a, b, d)) =>
          let l := Lim (nvme_set_ctrl_limits c false) chunk a b d (write_cache l) (rotational l) (integrity l)
                     (max_write_streams l) (l_write_stream_granularity l) (max_hw_wzeroes_unmap_sectors l)
                     (feat_zoned l) (max_open_zones l) (max_active_zones l) in
          let l := if blk_dev_zoned && csi_zns n && negb (zone =? 0) then update_zone zone l else l in
          let '(usable, bi) := nvme_init_integrity h off in
          let deac := (Z.land (dlfeat id) 7 =? 1) && Z.testbit (dlfeat id) 3 in
          let h := if deac then IHead (lba_shift h) (h_nuse h) (ms h) (h_pi_type h) (pi_size h) (h_guard_type h)
                       (METADATA_SUPPORTED h) (EXT_LBAS h) true (nr_plids h) (plids h) (write_stream_granularity h)
                   else h in
          Ok (h, off,
              Lim (l_ctrl l) (chunk_sectors l) (l_atomic l) (l_block l) (l_discard l)
                (vwc_present c && negb (no_vwc info)) (rotational l || is_rotational info) bi
                (nr_plids h) (write_stream_granularity h)
                (if deac then max_write_zeroes_sectors (l_discard l) else max_hw_wzeroes_unmap_sectors l)
                (feat_zoned l) (max_open_zones l) (max_active_zones l),
              if valid && usable then cap else 0)
      end
  end.

Definition nvme_ns_is_readonly (force_ro : bool) (info : nvme_ns_info) : bool := is_readonly info || force_ro.

(** [first]: the disk is not live yet.  The result is the return value, the namespace, the
    information, and what was taken and given back. *)
Definition nvme_update_ns_info_block (c : nvme_ctrl) (a : answers) (force_ro first : bool) (info : nvme_ns_info) (n : nvme_ns)
    : result fault (Z * nvme_ns * nvme_ns_info * list tev) :=
  match a_id a with
  | Err e => Ok (e, n, info, [])
  | Ok id =>
      let out (ret : Z) (n : nvme_ns) (info : nvme_ns_info) (nvm : bool) (evs : list tev) :=
        Ok (ret, n, info, [AllocId] ++ evs ++ (if nvm then [FreeNvm] else []) ++ [FreeId]) in
      if ncap id =? 0 then out (- ENXIO) n (set_removed info) false []
      else if a_cns_ok a && (ret_of (a_nvm a) <? 0) then out (ret_of (a_nvm a)) n info false []
      else
        let nvm := if a_cns_ok a then opt_of (a_nvm a) else None in
        let has := match nvm with Some _ => true | None => false end in
        let got := if has then [AllocNvm] else [] in
        if blk_dev_zoned && csi_zns n && ((a_zone a).1 <? 0) then out (a_zone a).1 n info has got
        else
          match lbaf id !! nvme_lbaf_index (flbas id) with
          | None => Err OutOfBounds
          | Some (_, ds) =>
              let '(invalid, cap) := nvme_invalid_lba_sz (nsze id) (ds - 9) in
              if invalid then out (- ENODEV) n info has got
              else
                match format c id nvm (a_zone a).2 info ds cap n with
                | Err e => Err e
                | Ok (h, off, l, cap) =>
                    let info := set_pi_offset off info in
                    let got := got ++ [StartUpdate; Freeze; CommitUpdate; Unfreeze] in
                    if negb (a_commit a =? 0) then
                      out (a_commit a) (INs h (csi_zns n) (limits n) (capacity n) (disk_ro n) (hidden n) (READY n)) info has got
                    else
                      let n := INs h (csi_zns n) l cap (nvme_ns_is_readonly force_ro info) (hidden n) true in
                      let ret := if feat_zoned l && negb (a_zones a =? 0) && negb first then a_zones a else 0 in
                      out ret n info has got
                end
          end
  end.

Definition nvme_update_ns_info_generic (c : nvme_ctrl) (a : answers) (force_ro : bool) (info : nvme_ns_info) (n : nvme_ns)
    : Z * nvme_ns * list tev :=
  let l := limits n in
  let l' := Lim (nvme_set_ctrl_limits c false) (chunk_sectors l) (l_atomic l) (l_block l) (l_discard l) (write_cache l)
              (rotational l) (integrity l) (max_write_streams l) (l_write_stream_granularity l)
              (max_hw_wzeroes_unmap_sectors l) (feat_zoned l) (max_open_zones l) (max_active_zones l) in
  (if a_commit a =? 0 then - ENODEV else a_commit a,
   INs (head n) (csi_zns n) (if a_commit a =? 0 then l' else l) (capacity n) (nvme_ns_is_readonly force_ro info) (hidden n)
     (READY n),
   [StartUpdate; Freeze; CommitUpdate; Unfreeze]).

Definition nvme_stack_zone_resources (t b : queue_limits) : queue_limits :=
  Lim (l_ctrl t) (chunk_sectors t) (l_atomic t) (l_block t) (l_discard t) (write_cache t) (rotational t) (integrity t)
    (max_write_streams t) (l_write_stream_granularity t) (max_hw_wzeroes_unmap_sectors t) (feat_zoned t)
    (min_not_zero (max_open_zones t) (max_open_zones b)) (min_not_zero (max_active_zones t) (max_active_zones b)).

(** The disk that the paths of a multipath head share. *)
Record head_disk := HeadDisk { hd_limits : queue_limits; hd_capacity : Z; hd_ro : bool; hd_hidden : bool }.

Definition update_head_disk (commit : Z) (unsupported ro : bool) (off : Z) (n : nvme_ns) (d : head_disk) : head_disk :=
  let b := limits n in
  let set_block l := Lim (l_ctrl l) (chunk_sectors l) (l_atomic l) (l_block b) (l_discard l) (write_cache l) (rotational l)
      (integrity l) (max_write_streams l) (l_write_stream_granularity l) (max_hw_wzeroes_unmap_sectors l) (feat_zoned l)
      (max_open_zones l) (max_active_zones l) in
  let l := queue_limits_stack_bdev (set_block (hd_limits d)) b in
  let l := if feat_zoned l then nvme_stack_zone_resources l b else l in
  let bi := if unsupported then integrity l else (nvme_init_integrity (head n) off).2 in
  let l := Lim (l_ctrl l) (chunk_sectors l) (l_atomic l) (l_block l) (l_discard l) (write_cache l) (rotational l) bi
      (max_write_streams b) (l_write_stream_granularity b) (max_hw_wzeroes_unmap_sectors l) (feat_zoned l)
      (max_open_zones l) (max_active_zones l) in
  HeadDisk (if commit =? 0 then l else hd_limits d) (capacity n) ro (hd_hidden d || unsupported).

Inductive command_set := CSI_NVM | CSI_ZNS | CSI_OTHER.

Definition set_hidden_ready (n : nvme_ns) : nvme_ns := INs (head n) (csi_zns n) (limits n) (capacity n) (disk_ro n) true true.

(** [hd]: the shared disk, when the head has several paths; [commit]: the answer to the
    commit of its limits. *)
Definition nvme_update_ns_info (c : nvme_ctrl) (a : answers) (csi : command_set) (force_ro first : bool) (commit : Z)
    (info : nvme_ns_info) (n : nvme_ns) (hd : option head_disk)
    : result fault (Z * nvme_ns * nvme_ns_info * option head_disk * list tev) :=
  match (match csi with
         | CSI_NVM => nvme_update_ns_info_block c a force_ro first info n
         | CSI_ZNS => if blk_dev_zoned then nvme_update_ns_info_block c a force_ro first info n
                      else let '(ret, n, evs) := nvme_update_ns_info_generic c a force_ro info n in Ok (ret, n, info, evs)
         | CSI_OTHER => let '(ret, n, evs) := nvme_update_ns_info_generic c a force_ro info n in Ok (ret, n, info, evs)
         end) with
  | Err e => Err e
  | Ok (ret, n, info, evs) =>
      let unsupported := ret =? - ENODEV in
      let n := if unsupported then set_hidden_ready n else n in
      let ret := if unsupported then 0 else ret in
      match hd with
      | Some d =>
          if ret =? 0 then
            Ok (commit, n, info, Some (update_head_disk commit unsupported (nvme_ns_is_readonly force_ro info) (pi_offset info) n d),
                evs ++ [HeadStartUpdate; HeadFreeze; HeadCommitUpdate; RevalidatePaths; HeadUnfreeze])
          else Ok (ret, n, info, hd, evs)
      | None => Ok (ret, n, info, hd, evs)
      end
  end.
End info.

(** ** Placement identifiers *)

(** Where the header of the log and its descriptors have their fields. *)
Record fdp_layout := FdpLayout {
  hdr_size : nat; off_numfdpc : nat; off_sze : nat;
  desc_size : nat; off_dsze : nat; off_nrg : nat; off_runs : nat
}.

(** A little-endian number of a buffer. *)
Fixpoint le (l : list Z) : Z := match l with [] => 0 | b :: l => b + 256 * le l end.
Definition read_le (buf : list Z) (off len : nat) : result fault Z :=
  if (off + len <=? length buf)%nat then Ok (le (take len (drop off buf))) else Err OutOfBounds.

Section fdp.
Context (L : fdp_layout) (max_size : Z).

(** The position of the descriptor with the given number behind [pos]; [None] when the log
    does not reach that far. *)
Fixpoint fdp_seek (log : list Z) (i : nat) (pos : nat) : result fault (option nat) :=
  match i with
  | O => Ok (Some pos)
  | S i =>
      match read_le log (pos + off_dsze L) 2 with
      | Err e => Err e
      | Ok dsze =>
          if (dsze =? 0) || (Z.of_nat (length log) <? Z.of_nat pos + dsze) then Ok None
          else fdp_seek log i (pos + Z.to_nat dsze)
      end
  end.

(** [hdr] and [log]: the two reads of the log, the second into a buffer of the given size;
    [alloc]: there is memory for it.  The result is the return value and [info->runs]. *)
Definition nvme_query_fdp_granularity (hdr : result Z (list Z)) (alloc : bool) (log : nat → result Z (list Z))
    (fdp_idx : nat) (runs : Z) : result fault (Z * Z) :=
  match hdr with
  | Err e => Ok (e, runs)
  | Ok h =>
      match read_le h (off_sze L) 4 with
      | Err e => Err e
      | Ok size =>
          if max_size <? size then Ok (0, runs)
          else if negb alloc then Ok (- ENOMEM, runs)
          else
            match log (Z.to_nat size) with
            | Err e => Ok (e, runs)
            | Ok log =>
                match read_le log (off_numfdpc L) 2 with
                | Err e => Err e
                | Ok numfdpc =>
                    if numfdpc + 1 <=? Z.of_nat fdp_idx then Ok (0, runs)
                    else
                      match fdp_seek log fdp_idx (hdr_size L) with
                      | Err e => Err e
                      | Ok None => Ok (0, runs)
                      | Ok (Some pos) =>
                          match read_le log (pos + off_nrg L) 4, read_le log (pos + off_runs L) 8 with
                          | Err e, _ => Err e
                          | Ok nrg, r => if 1 <? nrg then Ok (0, runs)
                                         else match r with Ok v => Ok (0, v) | Err e => Err e end
                          end
                      end
                end
            end
      end
  end.

Definition set_plids (l : list Z) (g : Z) (h : nvme_ns_head) : nvme_ns_head :=
  IHead (lba_shift h) (h_nuse h) (ms h) (h_pi_type h) (pi_size h) (h_guard_type h) (METADATA_SUPPORTED h)
    (EXT_LBAS h) (DEAC h) (Z.of_nat (length l)) l g.

(** Copying [n] identifiers out of the buffer. *)
Fixpoint copy_pids (buf : list Z) (n : nat) {struct n} : result fault (list Z) :=
  match n with
  | O => Ok []
  | S n =>
      match buf with
      | [] => Err OutOfBounds
      | p :: buf => match copy_pids buf n with Ok l => Ok (p :: l) | Err e => Err e end
      end
  end.

(** [feature]: the placement feature, its enable bit and index; [ruhs]: the number of
    handles and the buffer with their identifiers, of S8_MAX - 1 = 126 entries. *)
Definition nvme_query_fdp_info (feature : result Z (bool * nat)) (hdr : result Z (list Z)) (alloc : bool)
    (log : nat → result Z (list Z)) (alloc_ruhs : bool) (ruhs : result Z (nat * list Z)) (alloc_plids : bool) (h : nvme_ns_head)
    : result fault (Z * nvme_ns_head) :=
  match feature with
  | Err e => Ok (e, h)
  | Ok (enabled, idx) =>
      if negb enabled then Ok (0, h)
      else
        match nvme_query_fdp_granularity hdr alloc log idx 0 with
        | Err e => Err e
        | Ok (ret, runs) =>
            if runs =? 0 then Ok (ret, h)
            else if negb alloc_ruhs then Ok (- ENOMEM, h)
            else
              match ruhs with
              | Err e => Ok (e, h)
              | Ok (nruhsd, buf) =>
                  if (nruhsd =? 0)%nat then Ok (0, set_plids [] (write_stream_granularity h) h)
                  else if negb alloc_plids then Ok (- ENOMEM, set_plids [] (write_stream_granularity h) h)
                  else
                    match copy_pids buf nruhsd with
                    | Err e => Err e
                    | Ok l => Ok (0, set_plids l (Z.min runs U32_MAX) h)
                    end
              end
        end
  end.
End fdp.

(** *** Descriptors that are laid out as the standard says *)

Definition layout_ok (L : fdp_layout) : Prop :=
  (off_numfdpc L + 2 ≤ hdr_size L ∧ off_sze L + 4 ≤ hdr_size L ∧ off_dsze L + 2 ≤ desc_size L ∧
   off_nrg L + 4 ≤ desc_size L ∧ off_runs L + 8 ≤ desc_size L)%nat.
Definition field (d : list Z) (off len : nat) : Z := le (take len (drop off d)).
Definition desc_ok (L : fdp_layout) (d : list Z) : Prop :=
  (desc_size L ≤ length d)%nat ∧ field d (off_dsze L) 2 = Z.of_nat (length d) ∧ (0 < length d)%nat.
(** A log: the header with its counts, the descriptors, and what follows them. *)
Definition fdp_log (L : fdp_layout) (h : list Z) (ds : list (list Z)) (rest : list Z) : Prop :=
  length h = hdr_size L ∧ field h (off_numfdpc L) 2 = Z.of_nat (length ds) - 1 ∧ Forall (desc_ok L) ds ∧
  field h (off_sze L) 4 = Z.of_nat (length (h ++ concat ds ++ rest)).

Lemma read_le_in pre d post off len : (off + len ≤ length d)%nat →
  read_le (pre ++ d ++ post) (length pre + off) len = Ok (field d off len).
Proof.
  intros H. unfold read_le, field. rewrite !length_app.
  rewrite (proj2 (Nat.leb_le _ _)) by lia. do 2 f_equal.
  rewrite drop_app_ge by lia. replace (length pre + off - length pre)%nat with off by lia.
  rewrite drop_app_le by lia. rewrite take_app_le; [done|]. rewrite length_drop. lia.
Qed.

Lemma fdp_seek_ok L ds : layout_ok L → Forall (desc_ok L) ds → ∀ i pre post, (i < length ds)%nat →
  fdp_seek L (pre ++ concat ds ++ post) i (length pre) = Ok (Some (length pre + length (concat (take i ds)))%nat).
Proof.
  intros HL. induction 1 as [|d ds (H1 & H2 & H3) Hds IH]; intros i pre post Hi; [cbn in Hi; lia|].
  destruct i as [|i]; cbn [fdp_seek]; [cbn; do 2 f_equal; lia|].
  destruct HL as (_ & _ & HL & _). cbn [concat]. rewrite <- app_assoc. rewrite read_le_in by lia. rewrite H2.
  replace ((Z.of_nat (length d) =? 0) || _) with false; cycle 1.
  { symmetry. apply orb_false_iff. split; [lia|]. apply Z.ltb_ge. rewrite !length_app. lia. }
  replace (pre ++ d ++ concat ds ++ post) with ((pre ++ d) ++ concat ds ++ post) by by rewrite <- app_assoc.
  replace (length pre + Z.to_nat (Z.of_nat (length d)))%nat with (length (pre ++ d)) by (rewrite length_app; lia).
  rewrite IH by (cbn in Hi; lia). cbn [take concat]. do 2 f_equal. rewrite !length_app. lia.
Qed.

Lemma fdp_granularity_ok L max h ds rest alloc idx runs :
  layout_ok L → fdp_log L h ds rest → Z.of_nat (length (h ++ concat ds ++ rest)) ≤ max →
  nvme_query_fdp_granularity L max (Ok h) alloc (λ _, Ok (h ++ concat ds ++ rest)) idx runs =
  Ok (if negb alloc then (- ENOMEM, runs)
      else match ds !! idx with
           | None => (0, runs)
           | Some d => if 1 <? field d (off_nrg L) 4 then (0, runs) else (0, field d (off_runs L) 8)
           end).
Proof.
  intros HL (Hh & Hn & Hds & Hs) Hmax. pose proof HL as (HL1 & HL2 & _ & HL4 & HL5).
  unfold nvme_query_fdp_granularity.
  pose proof (read_le_in [] h [] (off_sze L) 4) as R1. rewrite app_nil_r in R1. cbn [app length Nat.add] in R1.
  rewrite R1 by lia. rewrite Hs. rewrite (proj2 (Z.ltb_ge _ _)) by lia. destruct alloc; [|done]. cbn [negb].
  pose proof (read_le_in [] h (concat ds ++ rest) (off_numfdpc L) 2) as R2. cbn [app length Nat.add] in R2.
  rewrite R2 by lia. rewrite Hn. destruct (ds !! idx) as [d|] eqn:E.
  - pose proof (lookup_lt_Some _ _ _ E) as Hi. rewrite (proj2 (Z.leb_gt _ _)) by lia.
    rewrite <- Hh. rewrite fdp_seek_ok by done. pose proof (list.Forall_lookup_1 _ _ _ _ Hds E) as (D1 & _).
    assert (concat ds = concat (take idx ds) ++ d ++ concat (drop (S idx) ds)) as Ec.
    { rewrite <- (take_drop_middle ds idx d E) at 1. by rewrite concat_app. }
    rewrite Ec, <- !app_assoc. set (pre := h ++ concat (take idx ds)). set (post := concat (drop (S idx) ds) ++ rest).
    replace (h ++ concat (take idx ds) ++ d ++ post) with (pre ++ d ++ post) by (unfold pre; by rewrite <- app_assoc).
    replace (length h + length (concat (take idx ds)))%nat with (length pre) by (unfold pre; by rewrite length_app).
    rewrite !read_le_in by lia. by destruct (1 <? _).
  - apply lookup_ge_None in E. rewrite (proj2 (Z.leb_le _ _)) by lia. done.
Qed.

Lemma copy_pids_spec buf n : copy_pids buf n = if (n <=? length buf)%nat then Ok (take n buf) else Err OutOfBounds.
Proof.
  revert buf. induction n as [|n IH]; intros buf; [done|]. destruct buf as [|p buf]; [done|].
  cbn [copy_pids length]. rewrite IH. change (S n <=? S (length buf))%nat with (n <=? length buf)%nat.
  by destruct (n <=? length buf)%nat.
Qed.

(** The placement identifiers of a namespace are those of its configuration: for every
    log of placement configurations, at any number of descriptors of any sizes, the driver
    finds the one the feature names; with one reclaim group and at most as many handles as
    the buffer holds, the head gets exactly the identifiers of its handles in order and the
    size of their reclaim units, and otherwise it is left without identifiers.  No read is
    outside a buffer. *)
Theorem fdp_info_exact L max h ds rest alloc idx nruhsd buf alloc_plids hd :
  layout_ok L → fdp_log L h ds rest → Z.of_nat (length (h ++ concat ds ++ rest)) ≤ max →
  (nruhsd ≤ length buf)%nat → nr_plids hd = 0 → plids hd = [] →
  nvme_query_fdp_info L max (Ok (true, idx)) (Ok h) alloc (λ _, Ok (h ++ concat ds ++ rest)) true
    (Ok (nruhsd, buf)) alloc_plids hd =
  Ok (if negb alloc then (- ENOMEM, hd)
      else match ds !! idx with
           | None => (0, hd)
           | Some d =>
               let runs := field d (off_runs L) 8 in
               if (1 <? field d (off_nrg L) 4) || (runs =? 0) || (nruhsd =? 0)%nat then (0, hd)
               else if negb alloc_plids then (- ENOMEM, hd)
               else (0, set_plids (take nruhsd buf) (Z.min runs U32_MAX) hd)
           end).
Proof.
  intros HL Hlog Hmax Hn H0 H1. unfold nvme_query_fdp_info. cbn [negb]. rewrite fdp_granularity_ok by done.
  assert (set_plids [] (write_stream_granularity hd) hd = hd) as He by (destruct hd; cbn in *; by subst).
  rewrite He, copy_pids_spec, (proj2 (Nat.leb_le _ _) Hn). destruct alloc; [|done]. cbn [negb].
  destruct (ds !! idx) as [d|]; [|done]. destruct (1 <? field d (off_nrg L) 4); [done|]. cbn [orb].
  destruct (field d (off_runs L) 8 =? 0); [done|]. cbn [orb]. by destruct (nruhsd =? 0)%nat, alloc_plids.
Qed.

Definition layout_ex : fdp_layout := FdpLayout 16 0 4 64 0 4 16.
Definition bytes_ex (n : Z) (len : nat) : list Z := (λ i, (n / 256 ^ Z.of_nat i) mod 256) <$> seq 0 len.
Definition desc_ex (nrg runs : Z) : list Z :=
  bytes_ex 64 2 ++ [0; 0] ++ bytes_ex nrg 4 ++ replicate 8 0 ++ bytes_ex runs 8 ++ replicate 40 0.
Definition hdr_ex : list Z := bytes_ex 1 2 ++ [0; 0] ++ bytes_ex 144 4 ++ replicate 8 0.
Definition head_ex : nvme_ns_head := IHead 12 0 0 PI_NONE 0 GUARD_OTHER false false false 0 [] 0.

Lemma fdp_info_exact_witness :
  nvme_query_fdp_info layout_ex 4096 (Ok (true, 1%nat)) (Ok hdr_ex) true
    (λ _, Ok (hdr_ex ++ concat [desc_ex 1 8192; desc_ex 1 65536] ++ [])) true (Ok (2%nat, [7; 9; 11])) true head_ex
  = Ok (0, set_plids [7; 9] 65536 head_ex).
Proof.
  rewrite (fdp_info_exact layout_ex 4096 hdr_ex [desc_ex 1 8192; desc_ex 1 65536] [] true 1 2 [7; 9; 11] true head_ex);
    [reflexivity|repeat split; cbn; lia| |vm_compute; discriminate|cbn; lia|reflexivity|reflexivity].
  split; [reflexivity|]. split; [reflexivity|]. split; [|reflexivity].
  repeat constructor; vm_compute; lia.
Defined.

(** More handles than the buffer holds are read behind it. *)
Lemma fdp_handles_over_read L max h ds rest idx d nruhsd buf hd :
  layout_ok L → fdp_log L h ds rest → Z.of_nat (length (h ++ concat ds ++ rest)) ≤ max →
  ds !! idx = Some d → field d (off_nrg L) 4 ≤ 1 → field d (off_runs L) 8 ≠ 0 → (length buf < nruhsd)%nat →
  nvme_query_fdp_info L max (Ok (true, idx)) (Ok h) true (λ _, Ok (h ++ concat ds ++ rest)) true
    (Ok (nruhsd, buf)) true hd = Err OutOfBounds.
Proof.
  intros HL Hlog Hmax Hd Hg Hr Hn. unfold nvme_query_fdp_info. cbn [negb]. rewrite fdp_granularity_ok by done. cbn [negb].
  rewrite Hd, (proj2 (Z.ltb_ge _ _)) by done. rewrite (proj2 (Z.eqb_neq _ _) Hr), copy_pids_spec.
  rewrite (proj2 (Nat.leb_gt _ _) Hn). by destruct nruhsd; [cbn in Hn; lia|].
Qed.

(** A log whose last descriptor ends where it ends, but that announces one more, is read
    behind its end. *)
Lemma fdp_log_over_read :
  nvme_query_fdp_granularity layout_ex 4096 (Ok (bytes_ex 1 2 ++ [0; 0] ++ bytes_ex 80 4 ++ replicate 8 0)) true
    (λ _, Ok (bytes_ex 1 2 ++ [0; 0] ++ bytes_ex 80 4 ++ replicate 8 0 ++ desc_ex 1 8192)) 1 0 = Err OutOfBounds.
Proof. reflexivity. Qed.

(** ** The limits *)

Definition id_ok (id : nvme_id_ns) : Prop :=
  0 ≤ nsze id ∧ 0 ≤ nawupf id < 2 ^ 16 ∧ 0 ≤ nabspf id < 2 ^ 16 ∧ 0 ≤ npwg id < 2 ^ 16 ∧ 0 ≤ nows id < 2 ^ 16 ∧
  0 ≤ npdg id < 2 ^ 16 ∧ 0 ≤ npda id < 2 ^ 16 ∧ length (lbaf id) = 64%nat ∧
  Forall (λ f, 0 ≤ f.1 < 2 ^ 16 ∧ 0 ≤ f.2 < 2 ^ 8) (lbaf id).
Definition nvm_ok (n : nvme_id_ns_nvm) : Prop := length (elbaf n) = 64%nat ∧ 0 ≤ npdgl n ∧ 0 ≤ npdal n.

(** All sizes are multiples of the logical block, a power of two between 512 and 32768. *)
Definition block_ok (b : block_limits) (d : discard_limits) : Prop :=
  let s := logical_block_size b in
  (∃ k, 9 ≤ k ≤ 15 ∧ s = 2 ^ k) ∧
  ((s | physical_block_size b) ∧ s ≤ physical_block_size b ≤ io_min b) ∧
  (s | io_min b) ∧ (s | io_opt b) ∧
  ((s | discard_granularity d) ∧ s ≤ discard_granularity d ≤ U32_MAX).
(** Writing one physical block is atomic. *)
Definition atomic_ok (b : block_limits) (a : atomic_limits) : Prop :=
  feat_atomic a = true ∧ hw_unit_min a = logical_block_size b ∧ (∃ k, 0 ≤ k ∧ hw_unit_max a = 2 ^ k) ∧
  logical_block_size b ≤ hw_unit_max a ≤ hw_max a ∧ physical_block_size b ≤ hw_max a.

Section limits.
Context `{HD : Headers} `{HL : !HeaderLaws}.

Lemma mul_small bs x : 512 ≤ bs ≤ 2 ^ 15 → 0 ≤ x < 2 ^ 16 → u32 ((1 + x) * bs) = (1 + x) * bs.
Proof. intros H1 H2. apply u32_small. nia. Qed.

Lemma granularity_ok opt id nvm bs : id_ok id → (∀ n, nvm = Some n → nvm_ok n) → 512 ≤ bs ≤ 2 ^ 15 →
  (bs | granularity opt id nvm bs) ∧ bs ≤ granularity opt id nvm bs ≤ U32_MAX.
Proof.
  intros Hid Hn Hbs. unfold granularity. rewrite !from0based_spec.
  match goal with |- context [Z.max ?g ?a * bs] => assert (1 ≤ Z.max g a) as Hm end.
  { destruct Hid as (_ & _ & _ & _ & _ & Hg & Ha & _). apply Z.max_le_iff. left. destruct nvm as [n|].
    - destruct (Hn n eq_refl) as (_ & Hp & _). destruct (negb (Z.land opt 2 =? 0)); cbn [andb].
      + destruct (Z.eqb_spec (npdgl n) 0); cbn [negb]; [|lia]. destruct (negb _); lia.
      + destruct (negb _); lia.
    - destruct (negb _); lia. }
  revert Hm. match goal with |- context [Z.max ?g ?a * bs] => set (m := Z.max g a) end. clearbody m. intros Hm.
  destruct (Z.ltb_spec U32_MAX (m * bs)); (split; [|unfold U32_MAX in *; nia]).
  - apply Z.divide_refl.
  - apply Z.divide_factor_r.
Qed.

Lemma pow2_between k : 9 ≤ k ≤ 15 → 512 ≤ 2 ^ k ≤ 2 ^ 15.
Proof. intros H. split; [change 512 with (2 ^ 9)|]; apply Z.pow_le_mono_r; lia. Qed.

Lemma rounddown_ok x bs k : bs = 2 ^ k → 0 ≤ k → bs ≤ x →
  ∃ r, rounddown_pow_of_two x = Ok r ∧ (∃ j, 0 ≤ j ∧ r = 2 ^ j) ∧ bs ≤ r ≤ x.
Proof.
  intros -> Hk Hx. assert (0 < 2 ^ k) by (apply Z.pow_pos_nonneg; lia).
  unfold rounddown_pow_of_two. rewrite (proj2 (Z.eqb_neq _ _)) by lia. eexists. split; [done|].
  split; [exists (Z.log2 x); split; [apply Z.log2_nonneg|done]|].
  split; [|apply Z.log2_spec; lia]. apply Z.pow_le_mono_r; [lia|]. apply Z.log2_le_pow2; lia.
Qed.

Lemma atomic_write_ok id bs k a : id_ok id → bs = 2 ^ k → 9 ≤ k ≤ 15 → ∃ atomic_bs a',
  nvme_configure_atomic_write id bs a = Ok (atomic_bs, a') ∧ (bs | atomic_bs) ∧ bs ≤ atomic_bs ∧
  (nabo id = 0 → feat_atomic a' = true ∧ hw_unit_min a' = bs ∧ (∃ j, 0 ≤ j ∧ hw_unit_max a' = 2 ^ j) ∧
     bs ≤ hw_unit_max a' ≤ hw_max a' ∧ hw_max a' = atomic_bs) ∧
  (nabo id ≠ 0 → a' = a ∧ atomic_bs = bs).
Proof.
  intros Hid E Hk. pose proof (pow2_between k Hk) as Hb. rewrite <- E in Hb. unfold nvme_configure_atomic_write.
  destruct (Z.eqb_spec (nabo id) 0) as [E0|E0]; cbn [negb].
  - set (p := if feat_atomics id && _ then _ else _).
    assert ((bs | p.1) ∧ bs ≤ p.1) as [Hp1 Hp2].
    { unfold p. destruct (_ && _); cbn [fst]; [|split; [apply Z.divide_refl|lia]].
      destruct Hid as (_ & Hw & _). rewrite mul_small by done. split; [apply Z.divide_factor_r|nia]. }
    destruct p as [atomic_bs boundary]. cbn [fst] in *.
    destruct (rounddown_ok atomic_bs bs k E) as (r & -> & Hr1 & Hr2); [lia..|].
    exists atomic_bs, (AtomicLim atomic_bs boundary bs r true). cbn. repeat split; try done; try lia.
  - exists bs, a. split; [done|]. split; [apply Z.divide_refl|]. split; [lia|]. split; [lia|done].
Qed.

Lemma disk_info_ok c shift id nvm a : id_ok id → (∀ n, nvm = Some n → nvm_ok n) → page_shift ≤ 15 → 0 ≤ shift < 32 →
  ∃ valid a' b d, nvme_update_disk_info c shift id nvm a = Ok (valid, (a', b, d)) ∧
    logical_block_size b = (if valid then 2 ^ shift else 512) ∧ block_ok b d ∧
    (if decide (nabo id = 0) then atomic_ok b a' else a' = a ∧ physical_block_size b = logical_block_size b).
Proof.
  intros Hid Hn Hp Hs. unfold nvme_update_disk_info, block_size.
  replace ((shift <? 0) || (32 <=? shift)) with false by (symmetry; apply orb_false_iff; lia).
  set (valid := negb (blk_validate_block_size (2 ^ shift))). set (bs := if valid then 2 ^ shift else 512).
  assert (∃ k, 9 ≤ k ≤ 15 ∧ bs = 2 ^ k) as (k & Hk & Ek).
  { unfold bs, valid. destruct (blk_validate_block_size (2 ^ shift)) eqn:E; cbn; [by exists 9|].
    destruct (block_size_ok _ E) as (k & ? & ->). exists k. split; [lia|done]. }
  pose proof (pow2_between k Hk) as Hb. rewrite <- Ek in Hb.
  assert (bs = if valid then 2 ^ shift else 512) as Ebs by done. clearbody bs valid.
  destruct (atomic_write_ok id bs k a Hid Ek Hk) as (atomic_bs & a' & -> & H1 & H2 & H3 & H4).
  set (opt := optimal c id). pose proof (granularity_ok opt id nvm bs Hid Hn Hb) as Hg.
  set (phys := if negb (opt =? 0) then _ else bs). set (io := if _ && _ then _ else 0).
  assert ((bs | phys) ∧ bs ≤ phys) as [Hph1 Hph2].
  { destruct Hid as (_ & _ & _ & Hw & _). unfold phys. destruct (negb _); [|split; [apply Z.divide_refl|lia]].
    rewrite Z.mul_comm, mul_small by done. split; [apply Z.divide_factor_r|nia]. }
  assert (bs | io) as Hio.
  { destruct Hid as (_ & _ & _ & _ & Hw & _). unfold io. destruct (_ && _); [|apply Z.divide_0_r].
    rewrite Z.mul_comm, mul_small by done. apply Z.divide_factor_r. }
  do 4 eexists. split; [reflexivity|]. cbn [logical_block_size physical_block_size io_min io_opt]. split; [done|].
  split.
  - unfold block_ok. cbn [logical_block_size physical_block_size io_min io_opt discard_of discard_granularity].
    split; [by exists k|]. split; [split; [|lia]|by auto]. by destruct (Z.min_spec phys atomic_bs) as [[_ ->]|[_ ->]].
  - destruct (decide (nabo id = 0)) as [E|E].
    + destruct (H3 E) as (E1 & E2 & E3 & E4 & E5). unfold atomic_ok. cbn. rewrite E5 in *. repeat split; try done; lia.
    + destruct (H4 E) as [-> ->]. split; [done|lia].
Qed.

(** The tuple of the protection information lies inside the metadata: at its beginning, or
    at its end where a byte can hold the offset. *)
Definition integrity_ok (first : bool) (bi : blk_integrity) : Prop :=
  csum_type bi = CSUM_NONE ∨
  (0 < pi_tuple_size bi ≤ metadata_size bi ∧
   (metadata_size bi - pi_tuple_size bi < 2 ^ 8 →
    bi_pi_offset bi = if first then 0 else metadata_size bi - pi_tuple_size bi)).

Lemma init_integrity_ok h off (first : bool) :
  (h_pi_type h ≠ PI_NONE → 0 < pi_size h ≤ ms h ∧
     (ms h - pi_size h < 2 ^ 8 → off = if first then 0 else ms h - pi_size h)) →
  integrity_ok first (nvme_init_integrity h off).2.
Proof.
  intros H. unfold nvme_init_integrity, integrity_ok. destruct (ms h =? 0); [by left|].
  destruct (_ || _); [by left|]. destruct (h_pi_type h), (h_guard_type h); cbn; auto; right; by apply H.
Qed.

Lemma metadata_ok c id nvm h m ds :
  id_ok id → (∀ n, nvm = Some n → nvm_ok n) → lbaf id !! nvme_lbaf_index (flbas id) = Some (m, ds) →
  ∃ h' off, nvme_configure_metadata c id nvm 0 h = Ok (h', off) ∧ lba_shift h' = lba_shift h ∧ ms h' = m ∧
    DEAC h' = DEAC h ∧ nr_plids h' = nr_plids h ∧ plids h' = plids h ∧
    write_stream_granularity h' = write_stream_granularity h ∧
    integrity_ok (dps_pi_first id) (nvme_init_integrity h' off).2.
Proof.
  intros Hid Hn E. unfold nvme_configure_metadata. rewrite E. destruct (_ || _).
  { do 2 eexists. split; [done|]. repeat split. by apply init_integrity_ok. }
  set (r := match nvm with Some n => _ | None => _ end).
  assert (∃ g size, r = Ok (g, size) ∧ 0 ≤ size ∧ size ≤ 16) as (g & size & -> & Hs).
  { unfold r. pose proof t10_size. pose proof crc64_size. destruct nvm as [n|]; [|do 2 eexists; split; [done|lia]].
    destruct (attr_elbas c); [|do 2 eexists; split; [done|lia]]. unfold nvme_configure_pi_elbas.
    destruct (Hn n eq_refl) as [Hl _]. destruct (lookup_lt_is_Some_2 (elbaf n) (nvme_lbaf_index (flbas id))) as [e ->].
    { rewrite Hl. apply lbaf_index_lt. }
    destruct (negb _); [do 2 eexists; split; [done|lia]|]. do 2 eexists; split; [done|].
    destruct (guard_of _); lia. }
  set (t := if _ && _ then dps_pi_type id else PI_NONE).
  assert (t ≠ PI_NONE → 0 < size ≤ m) as Ht.
  { unfold t. destruct (negb (size =? 0) && (size <=? m)) eqn:Eb; [|done]. apply andb_true_iff in Eb as [E1 E2]. lia. }
  assert (0 ≤ m < 2 ^ 16) as Hm.
  { destruct Hid as (_ & _ & _ & _ & _ & _ & _ & _ & Hf). by destruct (list.Forall_lookup_1 _ _ _ _ Hf E). }
  clearbody t. destruct (dps_pi_first id); cbn [negb].
  - do 2 eexists. split; [done|]. destruct (f_fabrics c), (flbas_meta_ext id); cbn; repeat split;
      apply init_integrity_ok; cbn; intros H; split; auto.
  - destruct disable_pi_offsets.
    + do 2 eexists. split; [done|]. destruct (f_fabrics c), (flbas_meta_ext id); cbn; repeat split;
        apply init_integrity_ok; cbn; done.
    + do 2 eexists. split; [done|]. destruct (f_fabrics c), (flbas_meta_ext id); cbn; repeat split;
        apply init_integrity_ok; cbn; intros H; (split; [auto|]); intros H'; unfold u8; specialize (Ht H);
        apply Z.mod_small; lia.
Qed.

(** What the disk shows of a format. *)
Definition shows (id : nvme_id_ns) (ds cap : Z) (h : nvme_ns_head) (l : queue_limits) : Prop :=
  lba_shift h = ds ∧ block_ok (l_block l) (l_discard l) ∧ integrity_ok (dps_pi_first id) (integrity l) ∧
  (nabo id = 0 → atomic_ok (l_block l) (l_atomic l)) ∧
  (cap = 0 ∨ logical_block_size (l_block l) = 2 ^ ds).

Lemma format_ok c id nvm zone info ds cap n m :
  id_ok id → (∀ n, nvm = Some n → nvm_ok n) → page_shift ≤ 15 → 0 ≤ ds < 32 →
  lbaf id !! nvme_lbaf_index (flbas id) = Some (m, ds) → pi_offset info = 0 →
  ∃ h off l cap', format c id nvm zone info ds cap n = Ok (h, off, l, cap') ∧ shows id ds cap' h l ∧ (cap' = cap ∨ cap' = 0).
Proof.
  intros Hid Hn Hp Hds E Hoff. unfold format. rewrite Hoff.
  match goal with |- context [nvme_configure_metadata c id nvm 0 ?h] => set (h0 := h) end.
  destruct (metadata_ok c id nvm h0 m ds Hid Hn E) as (h & off & -> & E1 & E2 & _ & _ & _ & _ & Hi).
  destruct (disk_info_ok c ds id nvm (l_atomic (limits n)) Hid Hn Hp Hds) as (valid & a & b & d & -> & Hl & Hb & Ha).
  match goal with |- context [update_zone zone ?x] => set (l0 := x) end.
  set (l1 := if _ && _ then update_zone zone l0 else l0).
  assert (l_atomic l1 = a ∧ l_block l1 = b ∧ l_discard l1 = d) as (Ea & Eb & Ed).
  { unfold l1. destruct (_ && _); [|done]. destruct (zone_other zone l0) as (-> & -> & ->). done. }
  clearbody l1. destruct (nvme_init_integrity h off) as [usable bi] eqn:Ei. cbn [snd] in Hi.
  do 4 eexists. split; [reflexivity|]. split; [|by destruct (valid && usable); auto].
  unfold shows. cbn. rewrite Ea, Eb, Ed. destruct (_ && _); cbn; (split; [by rewrite E1|]); (split; [done|]);
    (split; [done|]); (split; [intros H0; by rewrite decide_True in Ha by done|]);
    destruct valid, usable; cbn; auto.
Qed.
End limits.

(** ** The update as a whole *)

(** What is held: the two buffers, the lock of the limits, the freeze of the queue.  The
    limits are committed with the queue frozen. *)
Record held := Held { has_id : bool; has_nvm : bool; has_lock : bool; has_freeze : bool }.
Definition nothing : held := Held false false false false.
Definition take_give (e : tev) (o : held) : option held :=
  match e, o with
  | AllocId, Held false n l f => Some (Held true n l f)
  | FreeId, Held true n l f => Some (Held false n l f)
  | AllocNvm, Held i false l f => Some (Held i true l f)
  | FreeNvm, Held i true l f => Some (Held i false l f)
  | StartUpdate, Held i n false f => Some (Held i n true f)
  | CommitUpdate, Held i n true true => Some (Held i n false true)
  | Freeze, Held i n l false => Some (Held i n l true)
  | Unfreeze, Held i n l true => Some (Held i n l false)
  | _, _ => None
  end.
Fixpoint replay (evs : list tev) (o : held) : option held :=
  match evs with [] => Some o | e :: evs => match take_give e o with Some o => replay evs o | None => None end end.

Lemma lba_sz_ok nsze ds cap : 0 ≤ nsze → nvme_invalid_lba_sz nsze (ds - 9) = (false, cap) →
  9 ≤ ds ∧ cap * 512 = nsze * 2 ^ ds.
Proof.
  intros H. unfold nvme_invalid_lba_sz. destruct ((ds - 9 <? 0) || (64 <=? ds - 9)) eqn:E; [done|].
  apply orb_false_iff in E as [E1 E2]. intros [= Hn <-]. split; [lia|].
  assert (0 < 2 ^ (ds - 9)) by (apply Z.pow_pos_nonneg; lia). rewrite u64_small by nia.
  change 512 with (2 ^ 9). rewrite <- Z.mul_assoc, <- Z.pow_add_r by lia. by replace (ds - 9 + 9) with ds by lia.
Qed.


(** The headers of the kernel these drivers are built in, with pages of 16 KiB. *)
#[global] Instance headers_ex : Headers := {|
  nvme_lbaf_index f := Z.to_nat (Z.lor (Z.land f 15) (Z.shiftl (Z.land (Z.shiftr f 5) 3) 4));
  nvme_elbaf_sts e := Z.land e 127;
  nvme_elbaf_guard_type e := Z.land (Z.shiftr e 7) 3;
  nvme_elbaf_qualified_guard_type e := Z.land (Z.shiftr e 9) 15;
  GUARD_16B_CODE := 0; GUARD_64B_CODE := 2; QTYPE_GUARD := 3;
  crc64_pi_tuple := 16; t10_pi_tuple := 8;
  nvme_ns_has_pi h := match h_pi_type h with PI_NONE => false | _ => ms h =? pi_size h end;
  nvme_sect_to_lba shift x := Z.shiftr x (shift - 9);
  nvme_lba_to_sect shift x := Z.shiftl x (shift - 9);
  page_shift := 14;
  blk_validate_block_size bs := negb (existsb (λ k, bs =? 2 ^ k) [9; 10; 11; 12; 13; 14]);
  from0based x := x + 1; OPTPERF_SHIFT := 4; OPTPERF_MASK := 1; OPTPERF_MASK_2_1 := 3;
  NVME_CTRL_PAGE_SIZE := 4096; NVME_DSM_MAX_RANGES := 256;
  has_blk_integrity := true; disable_pi_offsets := false; blk_dev_zoned := false;
  update_zone _ l := l;
  queue_limits_stack_bdev t b := t
|}.

#[global] Instance headers_ex_laws : HeaderLaws.
Proof.
  split; try done.
  - intros f. cbn [nvme_lbaf_index headers_ex]. apply Nat2Z.inj_lt. rewrite Z2Nat.id; cycle 1.
    { apply Z.lor_nonneg. split; [apply Z.land_nonneg; right; lia|]. apply Z.shiftl_nonneg, Z.land_nonneg. right. lia. }
    assert (∀ x y, 0 ≤ x < 2 ^ 6 → 0 ≤ y < 2 ^ 6 → Z.lor x y < 64) as Hlor.
    { intros x y Hx Hy. destruct (Z.eq_dec (Z.lor x y) 0) as [->|Hz]; [lia|]. change 64 with (2 ^ 6).
      assert (0 ≤ Z.lor x y) by (apply Z.lor_nonneg; lia). apply Z.log2_lt_pow2; [lia|].
      rewrite Z.log2_lor by lia. apply Z.max_lub_lt.
      - destruct (Z.eq_dec x 0) as [->|]; [done|]. apply Z.log2_lt_pow2; lia.
      - destruct (Z.eq_dec y 0) as [->|]; [done|]. apply Z.log2_lt_pow2; lia. }
    apply Hlor.
    + change 15 with (Z.ones 4). rewrite Z.land_ones by lia. pose proof (Z.mod_pos_bound f (2 ^ 4)). lia.
    + change 3 with (Z.ones 2). rewrite Z.land_ones by lia. rewrite Z.shiftl_mul_pow2 by lia.
      pose proof (Z.mod_pos_bound (Z.shiftr f 5) (2 ^ 2)). lia.
  - intros bs. cbn [blk_validate_block_size headers_ex page_shift]. rewrite negb_false_iff.
    rewrite existsb_exists. intros (k & Hk & E). apply Z.eqb_eq in E. exists k. split; [|done].
    cbn in Hk. lia.
Qed.

Definition id_ex : nvme_id_ns :=
  IdNs 1000000 1000000 0 1 false ((0, 9) :: (8, 12) :: replicate 62 (0, 0)) PI_TYPE1 false 16 true 0 7 0 3 15 7 7 0 9.
Definition ctrl_ex : nvme_ctrl :=
  NCtrl 2048 0 1 (λ _, 4095) false false false true false false true true false 0 0 0.
Definition bl_ex : queue_limits :=
  Lim (CtrlLim 0 0 0 0 0 0) 0 (AtomicLim 0 0 0 0 false) (BlockLim 512 512 512 0) (DiscardLim 0 0 0 0) false false
    no_integrity 0 0 0 false 0 0.
Definition ns_ex : nvme_ns := INs head_ex false bl_ex 0 false false false.
Definition info_ex : nvme_ns_info := Info 0 false false false false.
Definition answers_ex : answers := Answers (Ok id_ex) false (Err 0) (0, 0) 0 0.


(** A format with blocks of 2^44 bytes passes the test of the capacity; its block size is a
    shift by 44 of a 32-bit number. *)
Lemma big_block_shift :
  nvme_update_ns_info_block ctrl_ex
    (Answers (Ok (IdNs 1 1 0 0 false (replicate 64 (0, 44)) PI_NONE false 0 false 0 0 0 0 0 0 0 0 0)) false (Err 0) (0, 0) 0 0)
    false true info_ex ns_ex = Err BadShift.
Proof. reflexivity. Qed.

(** With blocks of 64 KiB the largest atomic write unit is 2^32 bytes, which 32 bits cut
    to 0. *)
Lemma atomic_unit_wraps a :
  nvme_configure_atomic_write (IdNs 1 1 0 0 false [] PI_NONE false 0 true 0 65535 0 0 0 0 0 0 0) 65536 a = Err NoLogarithm.
Proof. reflexivity. Qed.

(** The offset of the protection information is a byte: behind 512 bytes of metadata it is
    248 instead of 504. *)
Lemma pi_offset_cut :
  match nvme_configure_metadata ctrl_ex
    (IdNs 1 1 0 0 false (replicate 64 (512, 9)) PI_TYPE1 false 0 false 0 0 0 0 0 0 0 0 0) None 0 head_ex with
  | Ok (h, off) => nvme_init_integrity h off = (true, Bi CSUM_CRC 2 true true true 512 8 248)
  | Err _ => False
  end.
Proof. reflexivity. Qed.

(** The flag that deallocated blocks read as zeroes is never taken back. *)
Lemma deac_kept `{HD : Headers} c id nvm zone info ds cap n h off l cap' :
  DEAC (head n) = true → format c id nvm zone info ds cap n = Ok (h, off, l, cap') → DEAC h = true.
Proof.
  intros Hd. unfold format. match goal with |- context [nvme_configure_metadata c id nvm _ ?x] => set (h0 := x) end.
  assert (∀ h1 o, nvme_configure_metadata c id nvm (pi_offset info) h0 = Ok (h1, o) → DEAC h1 = true) as Hm.
  { intros h1 o. unfold nvme_configure_metadata. destruct (lbaf id !! _) as [[m ?]|]; [|done].
    destruct (_ || _); [by intros [= <- _]|]. destruct (match nvm with Some _ => _ | None => _ end) as [[g size]|]; [|done].
    destruct (if negb (dps_pi_first id) then _ else _) as [t o']. intros [= <- _].
    by destruct (f_fabrics c), (flbas_meta_ext id). }
  destruct (nvme_configure_metadata _ _ _ _ _) as [[h1 o]|]; [|done]. specialize (Hm h1 o eq_refl).
  destruct (nvme_update_disk_info _ _ _ _ _) as [[valid [[a b] d]]|]; [|done].
  destruct (nvme_init_integrity _ _) as [usable bi]. destruct (_ && Z.testbit (dlfeat id) 3); by intros [= <- _ _ _].
Qed.

(** ** Smaller answers *)

Definition nvme_getgeo (cap : Z) : Z * Z * Z := (2 ^ 6, 2 ^ 5, Z.shiftr cap 11).

(** [memchr_inv]: a byte is not 0. *)
Definition some_byte (l : list Z) : bool := existsb (λ b, negb (b =? 0)) l.
Definition nvme_ns_get_unique_id (nguid eui64 : list Z) (is_eui64 : bool) : result Z (list Z) :=
  if negb is_eui64 then Err (- EINVAL)
  else if some_byte nguid then Ok nguid
  else if some_byte eui64 then Ok eui64
  else Err (- EINVAL).

(** The return value and the number of queues; [answer] is the status of the Set Features
    command and its result. *)
Definition queue_count_word (count : Z) : Z := u32 (Z.lor (count - 1) (Z.shiftl (count - 1) 16)).
Definition nvme_set_queue_count (NVME_SC_HOST_PATH_ERROR : Z) (answer : Z → Z * Z) (count : Z) : Z * Z :=
  let '(status, result) := answer (queue_count_word count) in
  if (status <? 0) || (status =? NVME_SC_HOST_PATH_ERROR) then (status, count)
  else if 0 <? status then (0, 0)
  else (0, Z.min count (Z.min (Z.land result 0xffff) (Z.shiftr result 16) + 1)).

(** The driver never uses more queues than it asked for or than the controller grants, and
    none after an error of the controller. *)
Lemma queue_count_granted hpe answer count ret n :
  0 < hpe → 0 < count → (∀ w, 0 ≤ (answer w).2) → nvme_set_queue_count hpe answer count = (ret, n) →
  0 ≤ n ≤ count ∧
  (ret = 0 → n ≠ 0 → (answer (queue_count_word count)).1 = 0 ∧
     n - 1 ≤ (answer (queue_count_word count)).2 mod 2 ^ 16 ∧ n - 1 ≤ (answer (queue_count_word count)).2 / 2 ^ 16).
Proof.
  intros Hh Hc Ha. unfold nvme_set_queue_count. specialize (Ha (queue_count_word count)).
  destruct (answer (queue_count_word count)) as [status result]. cbn in *.
  change 0xffff with (Z.ones 16). rewrite Z.land_ones, Z.shiftr_div_pow2 by lia.
  pose proof (Z.mod_pos_bound result (2 ^ 16) eq_refl). pose proof (Z.div_pos result (2 ^ 16) Ha eq_refl).
  destruct (Z.ltb_spec status 0); cbn [orb]; [intros [= <- <-]; lia|].
  destruct (Z.eqb_spec status hpe); [intros [= <- <-]|destruct (Z.ltb_spec 0 status); intros [= <- <-]]; lia.
Qed.
