(* ===== verification/NvmeLife.v ===== *)
(** * NVMe core: life of a controller and of the module (drivers/nvme/host/core.c)

    What a controller takes when it is initialised, announced and given its tag sets and
    queues, and what it gives back; the same for the module.  Shown: whatever fails, a
    transport that follows the rules in the comments of these functions ends with
    everything the controller needs or with nothing, releases nothing twice, and has
    nothing left when it has torn the controller down; the module is loaded as a whole or
    not at all and leaves nothing behind.  The other parts of the kernel are an oracle. *)

From Stdlib Require Import ZArith Lia Bool.
From stdpp Require Import base numbers list option.
From S2P Require Import Prelude.
From S2P Require Import Ledger.

Local Open Scope list_scope.
Local Open Scope Z_scope.

(** ** Resources *)

(** A queue is live until it is destroyed and exists until its reference is dropped. *)
Inductive res :=
| Srcu | DiscardPage | Instance | Auth
| AdminTags | AdminQueue | AdminQueueRef | FabricsQueue | FabricsQueueRef
| IoTags | ConnectQueue | ConnectQueueRef
| Cdev | FaultInject
| NvmeWq | ResetWq | DeleteWq | CtrlChrdev | NvmeClass | SubsysClass | NsChrdev | NsClass | AuthModule.
#[export] Instance res_eq_dec : EqDecision res.
Proof. solve_decision. Defined.

(** [Get] is answered with 0 or an error; the rest is what else is called. *)
Inductive ev :=
| Get (r : res) | GetQueue (queue ref : res) | Put (r : res)
| SetName | LatencyTolerance | HideLatency | HwmonExit | MpathInit | MpathUninit | AuthStop | FreeOpal
| StopKeepAlive | FreeCtrl.

Section life.
Context (ans : list ev → ev → Z).

Definition try (e : ev) : TR ev Z := ask ans e.

(** ** Tag sets *)

Record tag_set := TagSet { queue_depth : Z; reserved_tags : Z; blocking : bool; nr_hw_queues : Z }.

(** Flags of the transport and quirks, and constants of headers. *)
Record transport := Transport {
  fabrics : bool; f_blocking : bool; shared_tags : bool; sqsize : Z; queue_count : Z;
  AQ_MQ_TAG_DEPTH : Z; AQ_DEPTH : Z; BLK_MQ_MAX_DEPTH : Z
}.

(** The pointers of the controller. *)
Record ptrs := Ptrs { admin_q : bool; fabrics_q : bool; connect_q : bool; admin_tagset : bool; tagset : bool }.
Definition no_ptrs : ptrs := Ptrs false false false false false.

Definition admin_set (T : transport) : tag_set :=
  TagSet (AQ_MQ_TAG_DEPTH T) (if fabrics T then 2 else 0) (f_blocking T) 1.
Definition io_set (T : transport) : tag_set :=
  TagSet (Z.min (sqsize T) (BLK_MQ_MAX_DEPTH T - 1))
    (if shared_tags T then AQ_DEPTH T else if fabrics T then 1 else 0) (f_blocking T) (queue_count T - 1).

Definition out_free_admin_tagset (ret : Z) (p : ptrs) : TR ev (Z * ptrs) :=
  emit (Put AdminTags);; mret (ret, Ptrs false false (connect_q p) (admin_tagset p) (tagset p)).

Definition nvme_alloc_admin_tag_set (T : transport) (p : ptrs) : TR ev (Z * ptrs) :=
  ret ← try (Get AdminTags);
  if negb (ret =? 0) then mret (ret, p)
  else
    ret ← try (GetQueue AdminQueue AdminQueueRef);
    if negb (ret =? 0) then out_free_admin_tagset ret p
    else if fabrics T then
      ret ← try (GetQueue FabricsQueue FabricsQueueRef);
      if negb (ret =? 0) then
        emit (Put AdminQueue);; emit (Put AdminQueueRef);; out_free_admin_tagset ret p
      else mret (0, Ptrs true true (connect_q p) true (tagset p))
    else mret (0, Ptrs true (fabrics_q p) (connect_q p) true (tagset p)).

Definition nvme_remove_admin_tag_set (p : ptrs) : TR ev unit :=
  emit StopKeepAlive;; emit (Put AdminQueue);;
  (if fabrics_q p then emit (Put FabricsQueue) else mret tt);;
  emit (Put AdminTags).

Definition nvme_alloc_io_tag_set (T : transport) (p : ptrs) : TR ev (Z * ptrs) :=
  ret ← try (Get IoTags);
  if negb (ret =? 0) then mret (ret, p)
  else if fabrics T then
    ret ← try (GetQueue ConnectQueue ConnectQueueRef);
    if negb (ret =? 0) then
      emit (Put IoTags);; mret (ret, Ptrs (admin_q p) (fabrics_q p) false (admin_tagset p) (tagset p))
    else mret (0, Ptrs (admin_q p) (fabrics_q p) true (admin_tagset p) true)
  else mret (0, Ptrs (admin_q p) (fabrics_q p) (connect_q p) (admin_tagset p) true).

Definition nvme_remove_io_tag_set (T : transport) : TR ev unit :=
  (if fabrics T then emit (Put ConnectQueue);; emit (Put ConnectQueueRef) else mret tt);;
  emit (Put IoTags).

(** ** The controller *)

(** [discard_page]: the page has been allocated. *)
Definition init_out (discard_page : bool) (ret : Z) : TR ev Z :=
  (if discard_page then emit (Put DiscardPage) else mret tt);; emit (Put Srcu);; mret ret.

(** The caller then has one reference to the controller.  [Get Instance] is answered with
    an error below 0. *)
Definition nvme_init_ctrl : TR ev Z :=
  ret ← try (Get Srcu);
  if negb (ret =? 0) then mret ret
  else
    ret ← try (Get DiscardPage);
    if negb (ret =? 0) then init_out false (- ENOMEM)
    else
      ret ← try (Get Instance);
      if ret <? 0 then init_out true ret
      else
        ret ← try (Get Auth);
        if negb (ret =? 0) then emit (Put Instance);; init_out true ret
        else emit MpathInit;; mret ret.

(** On success there is one reference more. *)
Definition nvme_add_ctrl : TR ev Z :=
  ret ← try SetName;
  if negb (ret =? 0) then mret ret
  else
    ret ← try (Get Cdev);
    if negb (ret =? 0) then mret ret
    else emit LatencyTolerance;; emit (Get FaultInject);; mret 0.

(** [own_instance]: the number is not the subsystem's (see [NvmeSubsys]). *)
Definition nvme_free_ctrl (own_instance : bool) (p : ptrs) : TR ev unit :=
  (if admin_q p then emit (Put AdminQueueRef) else mret tt);;
  (if fabrics_q p then emit (Put FabricsQueueRef) else mret tt);;
  (if own_instance then emit (Put Instance) else mret tt);;
  emit MpathUninit;; emit (Put Srcu);; emit AuthStop;; emit (Put Auth);; emit (Put DiscardPage);;
  emit FreeOpal;; emit FreeCtrl.

(** The number of references that are left. *)
Definition nvme_put_ctrl (own_instance : bool) (p : ptrs) (refs : Z) : TR ev Z :=
  if refs =? 1 then nvme_free_ctrl own_instance p;; mret 0 else mret (refs - 1).

Definition nvme_uninit_ctrl (own_instance : bool) (p : ptrs) (refs : Z) : TR ev Z :=
  emit StopKeepAlive;; emit HwmonExit;; emit (Put FaultInject);; emit HideLatency;; emit (Put Cdev);;
  nvme_put_ctrl own_instance p refs.

(** *** A transport that follows the rules

    After [nvme_init_ctrl] it drops its reference with nvme_put_ctrl, after
    [nvme_add_ctrl] it uses nvme_uninit_ctrl. *)
Definition down_ctrl (p : ptrs) : TR ev Z := refs ← nvme_uninit_ctrl true p 2; nvme_put_ctrl true p refs.
Definition down_admin (p : ptrs) : TR ev Z := nvme_remove_admin_tag_set p;; down_ctrl p.

Definition bring_up (T : transport) : TR ev (Z * ptrs) :=
  ret ← nvme_init_ctrl;
  if negb (ret =? 0) then mret (ret, no_ptrs)
  else
    ret ← nvme_add_ctrl;
    if negb (ret =? 0) then nvme_put_ctrl true no_ptrs 1;; mret (ret, no_ptrs)
    else
      '(ret, p) ← nvme_alloc_admin_tag_set T no_ptrs;
      if negb (ret =? 0) then down_ctrl p;; mret (ret, no_ptrs)
      else
        '(ret, p) ← nvme_alloc_io_tag_set T p;
        if negb (ret =? 0) then down_admin p;; mret (ret, no_ptrs)
        else mret (0, p).

Definition tear_down (T : transport) (p : ptrs) : TR ev unit :=
  nvme_remove_io_tag_set T;; down_admin p;; mret tt.

(** ** The module *)

Definition unwind (l : list res) (result : Z) : TR ev Z :=
  (fix go (l : list res) : TR ev Z := match l with [] => mret result | r :: l => emit (Put r);; go l end) l.

(** The resources in the order in which they are taken: an error unwinds those before.
    Work queues fail with -ENOMEM, the character devices with a number below 0. *)
Definition nvme_core_init : TR ev Z :=
  ret ← try (Get NvmeWq); if negb (ret =? 0) then mret (- ENOMEM) else
  ret ← try (Get ResetWq); if negb (ret =? 0) then unwind [NvmeWq] (- ENOMEM) else
  ret ← try (Get DeleteWq); if negb (ret =? 0) then unwind [ResetWq; NvmeWq] (- ENOMEM) else
  ret ← try (Get CtrlChrdev); if ret <? 0 then unwind [DeleteWq; ResetWq; NvmeWq] ret else
  ret ← try (Get NvmeClass);
  if negb (ret =? 0) then unwind [CtrlChrdev; DeleteWq; ResetWq; NvmeWq] ret else
  ret ← try (Get SubsysClass);
  if negb (ret =? 0) then unwind [NvmeClass; CtrlChrdev; DeleteWq; ResetWq; NvmeWq] ret else
  ret ← try (Get NsChrdev);
  if ret <? 0 then unwind [SubsysClass; NvmeClass; CtrlChrdev; DeleteWq; ResetWq; NvmeWq] ret else
  ret ← try (Get NsClass);
  if negb (ret =? 0) then unwind [NsChrdev; SubsysClass; NvmeClass; CtrlChrdev; DeleteWq; ResetWq; NvmeWq] ret else
  ret ← try (Get AuthModule);
  if negb (ret =? 0) then unwind [NsClass; NsChrdev; SubsysClass; NvmeClass; CtrlChrdev; DeleteWq; ResetWq; NvmeWq] ret else
  mret 0.

Definition nvme_core_exit : TR ev unit :=
  unwind [AuthModule; NsClass; SubsysClass; NvmeClass; NsChrdev; CtrlChrdev; DeleteWq; ResetWq; NvmeWq] 0;; mret tt.
End life.

(** ** What is held *)

Definition acquire (r : res) (o : list res) : option (list res) := if decide (r ∈ o) then None else Some (r :: o).
Fixpoint drop_res (r : res) (o : list res) : option (list res) :=
  match o with
  | [] => None
  | x :: o => if decide (x = r) then Some o else match drop_res r o with Some o => Some (x :: o) | None => None end
  end.

Definition granted (r : res) (v : Z) : bool :=
  match r with
  | Instance | CtrlChrdev | NsChrdev => negb (v <? 0)
  | FaultInject => true
  | _ => v =? 0
  end.

(** Taking what is held already, or giving back what is not held, is not possible. *)
Definition life_step (ans : list ev → ev → Z) (pre : list ev) (e : ev) (o : list res) : option (list res) :=
  match e with
  | Get r => if granted r (ans pre e) then acquire r o else Some o
  | GetQueue q r => if ans pre e =? 0 then acquire q o ≫= acquire r else Some o
  | Put r => drop_res r o
  | _ => Some o
  end.

(** What a controller that is up holds, and the module. *)
Definition ctrl_holds (T : transport) : list res :=
  (if fabrics T then [ConnectQueueRef; ConnectQueue; IoTags; FabricsQueueRef; FabricsQueue] else [IoTags])
  ++ [AdminQueueRef; AdminQueue; AdminTags; FaultInject; Cdev; Auth; Instance; DiscardPage; Srcu].
Definition module_holds : list res :=
  [AuthModule; NsClass; NsChrdev; SubsysClass; NvmeClass; CtrlChrdev; DeleteWq; ResetWq; NvmeWq].

Lemma settles_assoc {Ev O A B C} (step : list Ev → Ev → O → option O) (m : TR Ev A) (k : A → TR Ev B) (k2 : B → TR Ev C) t o post :
  settles step (m ≫= (λ x, k x ≫= k2)) t o post → settles step ((m ≫= k) ≫= k2) t o post.
Proof. unfold settles. by rewrite !TR_bind_eq. Qed.

Lemma settles_ret_bind {Ev O A B} (step : list Ev → Ev → O → option O) (a : A) (k : A → TR Ev B) t o post :
  settles step (k a) t o post → settles step (mret a ≫= k) t o post.
Proof. done. Qed.

Lemma settles_emit_end {Ev O} (step : list Ev → Ev → O → option O) e t o o' (post : unit → O → Prop) :
  step t e o = Some o' → post tt o' → settles step (emit e) t o post.
Proof. intros H1 H2. exists [e], o'. split; [done|]. split; [cbn; by rewrite H1|done]. Qed.

(** Giving everything back in the opposite order. *)
Lemma settles_unwind ans l ret : ∀ t (post : Z → list res → Prop), post ret [] → settles (life_step ans) (unwind l ret) t l post.
Proof.
  induction l as [|r l IH]; intros t post H; [by apply settles_ret|].
  change (unwind (r :: l) ret) with (emit (Put r);; unwind l ret).
  eapply settles_emit; [cbn; by rewrite decide_True|]. by apply IH.
Qed.

(** One step of a computation: the answer decides the branch, the ledger is computed. *)
Ltac life1 :=
  cbn [negb fabrics_q admin_q];
  lazymatch goal with
  | |- settles _ (if 2 - 1 =? 1 then _ else _) _ _ _ => change (2 - 1 =? 1) with true; cbv iota
  | |- settles _ ((_ ≫= _) ≫= _) _ _ _ => apply settles_assoc
  | |- settles _ (mret _ ≫= _) _ _ _ => apply settles_ret_bind
  | |- settles _ (mret _) _ _ _ => apply settles_ret
  | |- settles _ (unwind _ _) _ _ _ => apply settles_unwind
  | |- settles _ (emit _ ≫= _) _ _ _ => eapply settles_emit; [reflexivity|]
  | |- settles _ (emit _) _ _ _ => eapply settles_emit_end; [reflexivity|]
  | |- settles _ (try ?ans ?e ≫= _) ?t _ _ =>
      let E0 := fresh "E" in let E1 := fresh "E" in
      destruct (ans t e =? 0) eqn:E0; destruct (ans t e <? 0) eqn:E1; try lia;
      (eapply settles_ask; [unfold life_step, granted; rewrite ?E0, ?E1; reflexivity|]); cbn beta; rewrite ?E0, ?E1
  end.
Ltac life_end := cbn; repeat match goal with H : (_ =? 0) = _ |- _ => rewrite H end; reflexivity.

(** The module is loaded as a whole or not at all. *)
Lemma module_all_or_nothing ans t : settles (life_step ans) (nvme_core_init ans) t []
  (λ ret o, if ret =? 0 then o = module_holds else o = []).
Proof. unfold nvme_core_init. repeat life1. all: life_end. Qed.

Lemma module_exit ans t : settles (life_step ans) nvme_core_exit t module_holds (λ _ o, o = []).
Proof. unfold nvme_core_exit, unwind. repeat life1. done. Qed.

(** *** The functions of a controller *)

Definition init_holds : list res := [Auth; Instance; DiscardPage; Srcu].
Definition add_holds : list res := FaultInject :: Cdev :: init_holds.
Definition admin_holds (T : transport) : list res :=
  (if fabrics T then [FabricsQueueRef; FabricsQueue] else []) ++ [AdminQueueRef; AdminQueue; AdminTags] ++ add_holds.
Definition admin_ptrs (T : transport) : ptrs := Ptrs true (fabrics T) false true false.
Definition ptrs_up (T : transport) : ptrs := Ptrs true (fabrics T) (fabrics T) true true.

Lemma init_ctrl_settles ans t : settles (life_step ans) (nvme_init_ctrl ans) t []
  (λ ret o, if ret =? 0 then o = init_holds else o = []).
Proof. unfold nvme_init_ctrl, init_out. repeat life1. all: life_end. Qed.

Lemma add_ctrl_settles ans t : settles (life_step ans) (nvme_add_ctrl ans) t init_holds
  (λ ret o, if ret =? 0 then o = add_holds else o = init_holds).
Proof. unfold nvme_add_ctrl. repeat life1. all: life_end. Qed.

Lemma alloc_admin_settles ans T t : settles (life_step ans) (nvme_alloc_admin_tag_set ans T no_ptrs) t add_holds
  (λ '(ret, p) o, if ret =? 0 then o = admin_holds T ∧ p = admin_ptrs T else o = add_holds ∧ p = no_ptrs).
Proof.
  unfold nvme_alloc_admin_tag_set, out_free_admin_tagset, admin_holds, admin_ptrs. destruct (fabrics T); repeat life1.
  all: cbn; repeat match goal with H : (_ =? 0) = _ |- _ => rewrite H end; split; reflexivity.
Qed.

Lemma alloc_io_settles ans T t : settles (life_step ans) (nvme_alloc_io_tag_set ans T (admin_ptrs T)) t (admin_holds T)
  (λ '(ret, p) o, if ret =? 0 then o = ctrl_holds T ∧ p = ptrs_up T else o = admin_holds T ∧ p = admin_ptrs T).
Proof.
  unfold nvme_alloc_io_tag_set, ctrl_holds, admin_holds, ptrs_up, admin_ptrs. destruct (fabrics T) eqn:Ef; repeat life1.
  all: cbn; repeat match goal with H : (_ =? 0) = _ |- _ => rewrite H end; split; reflexivity.
Qed.

Lemma put_last_settles ans t : settles (life_step ans) (nvme_put_ctrl true no_ptrs 1) t init_holds (λ _ o, o = []).
Proof. unfold nvme_put_ctrl, nvme_free_ctrl. cbn. repeat life1. reflexivity. Qed.

Lemma down_ctrl_settles ans t : settles (life_step ans) (down_ctrl no_ptrs) t add_holds (λ _ o, o = []).
Proof. unfold down_ctrl, nvme_uninit_ctrl, nvme_put_ctrl, nvme_free_ctrl. cbn. repeat life1. reflexivity. Qed.

Lemma down_admin_settles ans T t p : p = admin_ptrs T ∨ p = ptrs_up T →
  settles (life_step ans) (down_admin p) t (admin_holds T) (λ _ o, o = []).
Proof.
  unfold down_admin, down_ctrl, nvme_remove_admin_tag_set, nvme_uninit_ctrl, nvme_put_ctrl, nvme_free_ctrl, admin_holds,
    admin_ptrs, ptrs_up.
  intros [-> | ->]; destruct (fabrics T); cbn; repeat life1; reflexivity.
Qed.

Lemma bring_up_settles ans T t : settles (life_step ans) (bring_up ans T) t []
  (λ '(ret, p) o, if ret =? 0 then o = ctrl_holds T ∧ p = ptrs_up T else o = []).
Proof.
  unfold bring_up. eapply settles_call; [apply init_ctrl_settles|]. cbv beta. intros e o _ Ho.
  destruct (_ =? 0) eqn:E0; cbn [negb]; subst o; [|apply settles_ret; by rewrite E0].
  eapply settles_call; [apply add_ctrl_settles|]. cbv beta. intros e1 o _ Ho.
  destruct (_ =? 0) eqn:E1 in Ho |- *; cbn [negb]; subst o; cycle 1.
  { eapply settles_call; [apply put_last_settles|]. cbv beta. intros e2 o _ ->. apply settles_ret. by rewrite E1. }
  eapply settles_call; [apply alloc_admin_settles|]. cbv beta. intros e2 o _ Ho.
  destruct (nvme_alloc_admin_tag_set _ _ _ _).1 as [ret p]. destruct (ret =? 0) eqn:E2; cbn [negb]; destruct Ho as [-> ->]; cycle 1.
  { eapply settles_call; [apply down_ctrl_settles|]. cbv beta. intros e3 o _ ->. apply settles_ret. by rewrite E2. }
  eapply settles_call; [apply alloc_io_settles|]. cbv beta. intros e3 o _ Ho.
  destruct (nvme_alloc_io_tag_set _ _ _ _).1 as [ret' p]. destruct (ret' =? 0) eqn:E3; cbn [negb]; destruct Ho as [-> ->];
    [by apply settles_ret|].
  eapply settles_call; [apply down_admin_settles; by left|]. cbv beta. intros e4 o _ ->. apply settles_ret. by rewrite E3.
Qed.

Lemma remove_io_settles ans T t : settles (life_step ans) (nvme_remove_io_tag_set T) t (ctrl_holds T) (λ _ o, o = admin_holds T).
Proof.
  unfold nvme_remove_io_tag_set, ctrl_holds, admin_holds. destruct (fabrics T); cbn; repeat life1; reflexivity.
Qed.

Lemma tear_down_settles ans T t : settles (life_step ans) (tear_down T (ptrs_up T)) t (ctrl_holds T) (λ _ o, o = []).
Proof.
  unfold tear_down. eapply settles_call; [apply remove_io_settles|]. cbv beta. intros e o _ ->.
  eapply settles_call; [apply down_admin_settles; by right|]. cbv beta. intros e1 o _ ->. by apply settles_ret.
Qed.

(** C6. Everything or nothing, and nothing left: whatever fails while a controller is
    initialised, announced and given its tag sets and queues, a transport that follows the
    rules ends with exactly the resources and pointers of a controller that is up, or with
    none; taking it down leaves none; and the module is loaded as a whole or not at all and
    leaves none.  Nothing is taken twice and nothing is given back that is not held. *)
Theorem nvme_life_balanced ans T t :
  settles (life_step ans) (bring_up ans T) t []
    (λ '(ret, p) o, if ret =? 0 then o = ctrl_holds T ∧ p = ptrs_up T else o = []) ∧
  settles (life_step ans) (tear_down T (ptrs_up T)) t (ctrl_holds T) (λ _ o, o = []) ∧
  settles (life_step ans) (nvme_core_init ans) t []
    (λ ret o, if ret =? 0 then o = module_holds else o = []) ∧
  settles (life_step ans) nvme_core_exit t module_holds (λ _ o, o = []).
Proof.
  split; [apply bring_up_settles|]. split; [apply tear_down_settles|].
  split; [apply module_all_or_nothing|apply module_exit].
Qed.
