(* ===== verification/Channel.v ===== *)
(** * The byte channel interface

    What a framed protocol needs from the transport below it: a blocking send and
    a blocking receive that move bytes in order.  [Dockchannel.v] implements it
    over the DockChannel FIFO, [HidPacket.v] builds the HID framing on it. *)

From Stdlib Require Import ZArith Lia.
From stdpp Require Import base numbers list option.
From S2P Require Import Prelude.

Local Open Scope list_scope.
Local Open Scope Z_scope.

Definition is_byte (b : Z) : Prop := 0 ≤ b < 256.
#[export] Instance is_byte_dec b : Decision (is_byte b).
Proof. unfold is_byte. apply _. Defined.

(** [get_unaligned_le32] and [put_unaligned_le32]. *)
Definition get_le32 (b0 b1 b2 b3 : Z) : Z := b0 + b1 * 2 ^ 8 + b2 * 2 ^ 16 + b3 * 2 ^ 24.
Definition put_le32 (v : Z) : list Z :=
  [u8 v; u8 (Z.shiftr v 8); u8 (Z.shiftr v 16); u8 (Z.shiftr v 24)].

Lemma put_get_le32 b0 b1 b2 b3 :
  is_byte b0 → is_byte b1 → is_byte b2 → is_byte b3 →
  put_le32 (get_le32 b0 b1 b2 b3) = [b0; b1; b2; b3].
Proof.
  unfold is_byte, put_le32, get_le32, u8. intros. rewrite !Z.shiftr_div_pow2 by lia.
  repeat f_equal; Z.to_euclidean_division_equations; lia.
Qed.

Lemma get_put_le32 v : 0 ≤ v < 2 ^ 32 →
  get_le32 (u8 v) (u8 (Z.shiftr v 8)) (u8 (Z.shiftr v 16)) (u8 (Z.shiftr v 24)) = v.
Proof.
  intros. unfold get_le32, u8. rewrite !Z.shiftr_div_pow2 by lia.
  Z.to_euclidean_division_equations; lia.
Qed.

Lemma put_le32_bytes v : Forall is_byte (put_le32 v).
Proof. repeat apply List.Forall_cons; try apply List.Forall_nil; apply u8_range. Qed.

Lemma list_ind4 (P : list Z → Prop) :
  (∀ l, (length l < 4)%nat → P l) →
  (∀ a b c d l, P l → P (a :: b :: c :: d :: l)) → ∀ l, P l.
Proof.
  intros H0 H4. assert (∀ n l, (length l ≤ n)%nat → P l) as H; [|intros l; by eapply H].
  induction n as [|n IH]; intros l Hl; [apply H0; lia|].
  destruct l as [|a [|b [|c [|d l]]]]; try (apply H0; simpl; lia).
  apply H4, IH. simpl in Hl. lia.
Qed.

(** [n] bytes of the stream [src] from position [from] on. *)
Definition stream (src : nat → Z) (from n : nat) : list Z := src <$> seq from n.

Lemma stream_app src from n m : stream src from (n + m) = stream src from n ++ stream src (from + n) m.
Proof. unfold stream. by rewrite seq_app, fmap_app. Qed.

Lemma length_stream src from n : length (stream src from n) = n.
Proof. unfold stream. by rewrite length_fmap, length_seq. Qed.

Lemma stream_bytes src from n : (∀ k, is_byte (src k)) → Forall is_byte (stream src from n).
Proof. intros H. apply List.Forall_forall. intros b Hb. apply in_map_iff in Hb as (k & <- & _). apply H. Qed.

(** The operations.  A call returns a count or a negative error, [None] only when
    its fuel runs out. *)
Class ByteChannel (Ev : Type) := {
  ch_send : list Z → TR Ev (option Z);
  ch_recv : nat → TR Ev (option Z * list Z);
  (** bytes a history put on the outgoing side *)
  ch_sent : list Ev → list Z;
  (** number of bytes a history took from the incoming side *)
  ch_taken : list Ev → nat;
  (** the incoming stream *)
  ch_src : nat → Z
}.

(** The promises: a send of bytes returns their number when all of them have gone
    out in order, a negative error otherwise; a receive returns the number asked
    for together with the next bytes of the stream, or a negative error. *)
Class ByteChannelLaws {Ev} (C : ByteChannel Ev) : Prop := {
  ch_sent_app t1 t2 : ch_sent (t1 ++ t2) = ch_sent t1 ++ ch_sent t2;
  ch_taken_app t1 t2 : ch_taken (t1 ++ t2) = (ch_taken t1 + ch_taken t2)%nat;
  ch_src_byte k : is_byte (ch_src k);
  ch_send_law bytes t : Forall is_byte bytes →
    ∃ ret evs, ch_send bytes t = (Some ret, t ++ evs) ∧
      ((ret = Z.of_nat (length bytes) ∧ ch_sent evs = bytes) ∨
       (ret < 0 ∧ ch_sent evs `prefix_of` bytes));
  ch_recv_law n t :
    ∃ ret got evs, ch_recv n t = ((Some ret, got), t ++ evs) ∧
      got = stream ch_src (ch_taken t) (ch_taken evs) ∧
      ((ret = Z.of_nat n ∧ ch_taken evs = n) ∨ (ret < 0 ∧ (ch_taken evs ≤ n)%nat))
}.

Section laws.
Context {Ev : Type} {C : ByteChannel Ev} {L : ByteChannelLaws C}.

Lemma ch_sent_nil : ch_sent [] = [].
Proof.
  pose proof (ch_sent_app [] []) as E. simpl in E.
  apply (f_equal length) in E. rewrite length_app in E. apply nil_length_inv. lia.
Qed.

Lemma ch_taken_nil : ch_taken [] = 0%nat.
Proof. pose proof (ch_taken_app [] []) as E. simpl in E. lia. Qed.
End laws.

(** ** A channel beside other effects

    A component that also calls the kernel has a trace of both kinds of events; the
    channel only sees its own. *)
Section sum.
Context {A B : Type} (C : ByteChannel A).

Definition lefts (t : list (A + B)) : list A :=
  omap (λ e, match e with inl a => Some a | inr _ => None end) t.

Definition lift_left {X} (m : TR A X) : TR (A + B) X := λ t,
  let '(x, t1) := m (lefts t) in (x, t ++ (inl <$> drop (length (lefts t)) t1)).

#[export] Instance sum_channel : ByteChannel (A + B) := {|
  ch_send bytes := lift_left (ch_send bytes);
  ch_recv n := lift_left (ch_recv n);
  ch_sent t := ch_sent (lefts t);
  ch_taken t := ch_taken (lefts t);
  ch_src := ch_src
|}.

Lemma lefts_app t1 t2 : lefts (t1 ++ t2) = lefts t1 ++ lefts t2.
Proof. apply omap_app. Qed.

Lemma lefts_inl (evs : list A) : lefts (inl <$> evs) = evs.
Proof. induction evs as [|e evs IH]; [done|]. unfold lefts in *. rewrite fmap_cons. simpl. by f_equal. Qed.

Lemma lift_left_eq {X} (m : TR A X) t x evs :
  m (lefts t) = (x, lefts t ++ evs) → lift_left m t = (x, t ++ (inl <$> evs)).
Proof. intros E. unfold lift_left. rewrite E. by rewrite drop_app_length. Qed.

Lemma sum_channel_laws : ByteChannelLaws C → ByteChannelLaws sum_channel.
Proof.
  intros L. split; cbn.
  - intros. rewrite lefts_app. apply ch_sent_app.
  - intros. rewrite lefts_app. apply ch_taken_app.
  - apply ch_src_byte.
  - intros bytes t Hb. destruct (ch_send_law bytes (lefts t) Hb) as (ret & evs & E & H).
    exists ret, (inl <$> evs). rewrite lefts_inl. split; [by apply lift_left_eq|done].
  - intros n t. destruct (ch_recv_law n (lefts t)) as (ret & got & evs & E & H).
    exists ret, got, (inl <$> evs). rewrite lefts_inl. split; [by apply lift_left_eq|done].
Qed.
End sum.
