(* ===== verification/Dockchannel.v ===== *)
(** * DockChannel FIFO (drivers/soc/apple/dockchannel.c of the asahi snapshot)

    The transmit and receive loops over a byte FIFO with word and byte ports, the
    receive interrupt, and the interrupt controller in front of it.  The device's
    answers (free space, fill level, data, whether a wait ended in time) are an
    oracle on the history of accesses. *)

From Stdlib Require Import ZArith Lia Bool Sorting.Sorted.
From stdpp Require Import base numbers list option.
From S2P Require Import Prelude.
From S2P Require Import Channel.

Local Open Scope list_scope.
Local Open Scope Z_scope.

Definition DOCKCHANNEL_MAX_IRQ : Z := 32.

Inductive event :=
| ReadTxFree                   (** DATA_TX_FREE *)
| WriteTxThresh (v : Z)        (** CONFIG_TX_THRESH *)
| WriteTx32 (v : Z) | WriteTx8 (v : Z)
| ReadRxCount                  (** DATA_RX_COUNT *)
| WriteRxThresh (v : Z)
| ReadRx32 | ReadRx8
| ReinitTx | ReinitRx | WaitTx | WaitRx
| EnableTxIrq | DisableTxIrq | EnableRxIrq | DisableRxIrq
| Callback (avail : Z).

(** The two inner loops of the transmission: words while four bytes are left. *)
Fixpoint burst (bytes : list Z) : list event :=
  match bytes with
  | b0 :: b1 :: b2 :: b3 :: rest => WriteTx32 (get_le32 b0 b1 b2 b3) :: burst rest
  | _ => WriteTx8 <$> bytes
  end.

Section fifo.
Context (ans : list event → event → Z) (fifo_size : Z).

Definition read32 (e : event) : TR event Z := λ t, (u32 (ans t e), t ++ [e]).

(** [dockchannel_send]; [None] when the fuel runs out. *)
Fixpoint send_loop (fuel : nat) (count : Z) (bytes : list Z) : TR event (option Z) :=
  match fuel with
  | O => mret None
  | S fuel' =>
      match bytes with
      | [] => mret (Some count)
      | _ =>
          avail ← read32 ReadTxFree;
          if avail =? 0 then
            emit (WriteTxThresh (Z.min (fifo_size / 2) (Z.of_nat (length bytes))));;
            emit ReinitTx;;
            emit EnableTxIrq;;
            r ← ask ans WaitTx;
            if r =? 0 then emit DisableTxIrq;; mret (Some (- ETIMEDOUT))
            else send_loop fuel' count bytes
          else
            let block := Nat.min (length bytes) (Z.to_nat avail) in
            emits (burst (take block bytes));;
            send_loop fuel' count (drop block bytes)
      end
  end.

Definition dockchannel_send (bytes : list Z) : TR event (option Z) :=
  send_loop (S (2 * length bytes)) (Z.of_nat (length bytes)) bytes.

(** The inner loops of the reception. *)
Fixpoint drain (block : nat) : TR event (list Z) :=
  match block with
  | S (S (S (S block'))) =>
      v ← read32 ReadRx32;
      rest ← drain block';
      mret (put_le32 v ++ rest)
  | S block' =>
      v ← read32 ReadRx8;
      rest ← drain block';
      mret (u8 (Z.shiftr v 8) :: rest)
  | O => mret []
  end.

(** [dockchannel_recv]: the return value and the bytes stored so far. *)
Fixpoint recv_loop (fuel : nat) (count : Z) (left : nat) : TR event (option Z * list Z) :=
  match fuel with
  | O => mret (None, [])
  | S fuel' =>
      if Nat.eqb left 0 then mret (Some count, [])
      else
        avail ← read32 ReadRxCount;
        if avail =? 0 then
          emit (WriteRxThresh (Z.min (fifo_size / 2) (Z.of_nat left)));;
          emit ReinitRx;;
          emit EnableRxIrq;;
          r ← ask ans WaitRx;
          if r =? 0 then emit DisableRxIrq;; mret (Some (- ETIMEDOUT), [])
          else recv_loop fuel' count left
        else
          let block := Nat.min left (Z.to_nat avail) in
          got ← drain block;
          '(ret, rest) ← recv_loop fuel' count (left - block);
          mret (ret, got ++ rest)
  end.

Definition dockchannel_recv (count : nat) : TR event (option Z * list Z) :=
  recv_loop (S (2 * count)) (Z.of_nat count) count.
End fifo.

(** ** Receive interrupt *)

(** [rx_depth] is the kernel's disable depth of the receive interrupt; it is
    delivered only at depth 0. *)
Record dockchannel := Dockchannel {
  dc_fifo_size : Z;
  dc_awaiting : bool;
  dc_rx_depth : Z
}.

Inductive irq_ret := IRQ_HANDLED | IRQ_WAKE_THREAD.

(** The handler disables the interrupt; the second component says whether it
    completed [rx_comp]. *)
Definition dockchannel_rx_irq (d : dockchannel) : irq_ret * bool * dockchannel :=
  let d := Dockchannel (dc_fifo_size d) (dc_awaiting d) (dc_rx_depth d + 1) in
  if dc_awaiting d then (IRQ_WAKE_THREAD, false, d) else (IRQ_HANDLED, true, d).

(** The thread: the fill level handed to the callback. *)
Definition dockchannel_rx_irq_thread (avail : Z) (d : dockchannel) : Z * dockchannel :=
  (avail, Dockchannel (dc_fifo_size d) false (dc_rx_depth d)).

Definition dockchannel_await (count : Z) (d : dockchannel) : Z * option Z * dockchannel :=
  let threshold := Z.min (dc_fifo_size d) count in
  if count =? 0 then (0, None, Dockchannel (dc_fifo_size d) false (dc_rx_depth d + 1))
  else (threshold, Some threshold, Dockchannel (dc_fifo_size d) true (dc_rx_depth d - 1)).

(** ** Transmit interrupt *)

(** The disable depth of the transmit interrupt and the count of [tx_comp]. *)
Record tx_line := TxLine { tx_depth : Z; tx_done : Z }.

(** The handler: [disable_irq_nosync], then [complete]. *)
Definition dockchannel_tx_irq (l : tx_line) : irq_ret * tx_line :=
  (IRQ_HANDLED, TxLine (tx_depth l + 1) (tx_done l + 1)).

(** What the calls of [dockchannel_send] do to the line; a wait that finds the
    completion done takes it. *)
Definition tx_call (e : event) (l : tx_line) : tx_line :=
  match e with
  | ReinitTx => TxLine (tx_depth l) 0
  | EnableTxIrq => TxLine (tx_depth l - 1) (tx_done l)
  | DisableTxIrq => TxLine (tx_depth l + 1) (tx_done l)
  | WaitTx => TxLine (tx_depth l) (Z.max 0 (tx_done l - 1))
  | _ => l
  end.

(** [IRQF_NO_AUTOEN] and [init_completion]. *)
Definition tx_line_init : tx_line := TxLine 1 0.

(** [dockchannel_init]: the outcomes of its lookups in order. *)
Record dc_resources := DcRes {
  r_kzalloc : bool;
  r_config : result Z unit;
  r_data : result Z unit;
  r_fifo_size : result Z Z;
  r_tx_irq : Z;
  r_rx_irq : Z;
  r_request_tx : Z;
  r_request_rx : Z
}.

Definition dockchannel_init (r : dc_resources) : result Z dockchannel :=
  if negb (r_kzalloc r) then Err (- ENOMEM)
  else match r_config r with
  | Err e => Err e
  | Ok _ =>
  match r_data r with
  | Err e => Err e
  | Ok _ =>
  match r_fifo_size r with
  | Err e => Err e
  | Ok size =>
      if r_tx_irq r <? 0 then Err (r_tx_irq r)
      else if r_rx_irq r <? 0 then Err (r_rx_irq r)
      else if negb (r_request_tx r =? 0) then Err (r_request_tx r)
      else if negb (r_request_rx r =? 0) then Err (r_request_rx r)
      else Ok (Dockchannel size false 1)   (* IRQF_NO_AUTOEN *)
  end end end.

(** ** Interrupt controller *)

Record dockchannel_common := Dcc { irq_mask : Z; irq_flag : Z }.

(** [for_each_set_bit] over the flags: the hardware interrupts handled, in order. *)
Definition dockchannel_irq (d : dockchannel_common) : list Z :=
  List.filter (λ bit, Z.testbit (irq_flag d) bit) (seqZ 0 DOCKCHANNEL_MAX_IRQ).

(** The flag register is write-one-to-clear. *)
Definition write_flag (v : Z) (d : dockchannel_common) : dockchannel_common :=
  Dcc (irq_mask d) (Z.land (irq_flag d) (not32 v)).

Definition dockchannel_irq_ack (hwirq : Z) (d : dockchannel_common) : dockchannel_common :=
  write_flag (BIT hwirq) d.
Definition dockchannel_irq_mask (hwirq : Z) (d : dockchannel_common) : dockchannel_common :=
  Dcc (Z.land (irq_mask d) (not32 (BIT hwirq))) (irq_flag d).
Definition dockchannel_irq_unmask (hwirq : Z) (d : dockchannel_common) : dockchannel_common :=
  Dcc (u32 (Z.lor (irq_mask d) (BIT hwirq))) (irq_flag d).

(** [dockchannel_irq_domain_map]: what a Linux interrupt number is bound to. *)
Inductive flow_handler := handle_level_irq.
Record irq_chip := IrqChip {
  chip_ack : Z → dockchannel_common → dockchannel_common;
  chip_mask : Z → dockchannel_common → dockchannel_common;
  chip_unmask : Z → dockchannel_common → dockchannel_common
}.
Definition dockchannel_irqchip : irq_chip :=
  IrqChip dockchannel_irq_ack dockchannel_irq_mask dockchannel_irq_unmask.

Definition dockchannel_irq_domain_map {D} (host_data : D) (virq hw : Z)
    (table : list (Z * (D * irq_chip * flow_handler))) : Z * list (Z * (D * irq_chip * flow_handler)) :=
  (0, (virq, (host_data, dockchannel_irqchip, handle_level_irq)) :: table).

(** [dockchannel_probe]: outcomes of the allocation, the mapping, the domain and
    the parent interrupt. *)
Definition dockchannel_probe (kzalloc : bool) (ioremap : result Z dockchannel_common)
    (domain : bool) (irq : Z) : result Z dockchannel_common :=
  if negb kzalloc then Err (- ENOMEM)
  else match ioremap with
  | Err e => Err e
  | Ok d =>
      let d := write_flag (2 ^ 32 - 1) (Dcc 0 (irq_flag d)) in
      if negb domain then Err (- ENOMEM)
      else if irq <? 0 then Err irq else Ok d
  end.

Definition dockchannel_remove (d : dockchannel_common) : dockchannel_common :=
  write_flag (2 ^ 32 - 1) (Dcc 0 (irq_flag d)).

(** ** Transmission *)

(** The bytes the device takes from the two transmit ports. *)
Definition tx_bytes (evs : list event) : list Z :=
  evs ≫= λ e, match e with
              | WriteTx32 v => put_le32 v
              | WriteTx8 v => [u8 v]
              | _ => []
              end.

Lemma burst_short l : (length l < 4)%nat → burst l = WriteTx8 <$> l.
Proof. destruct l as [|? [|? [|? [|? ?]]]]; simpl; done || lia. Qed.

Lemma tx_bytes_app l1 l2 : tx_bytes (l1 ++ l2) = tx_bytes l1 ++ tx_bytes l2.
Proof. apply bind_app. Qed.

Lemma tx_bytes_burst l : Forall is_byte l → tx_bytes (burst l) = l.
Proof.
  induction l as [l Hl|a b c d l IH] using list_ind4.
  - intros Hb. rewrite burst_short by done. clear Hl.
    induction Hb as [|x l Hx _ IHl]; [done|]. unfold tx_bytes in *. rewrite fmap_cons, bind_cons, IHl.
    simpl. rewrite u8_small; [done|]. exact Hx.
  - rewrite !List.Forall_cons_iff. intros (Ha & Hb & Hc & Hd & Hl).
    cbn [burst]. unfold tx_bytes in *. rewrite bind_cons, put_get_le32, IH by done. done.
Qed.

(** Within the free space last read: [credit] is what is left of it. *)
Fixpoint paced (ans : list event → event → Z) (pre evs : list event) (credit : Z) : bool :=
  match evs with
  | [] => true
  | e :: evs' =>
      match e with
      | ReadTxFree => paced ans (pre ++ [e]) evs' (u32 (ans pre e))
      | WriteTx32 _ => (4 <=? credit) && paced ans (pre ++ [e]) evs' (credit - 4)
      | WriteTx8 _ => (1 <=? credit) && paced ans (pre ++ [e]) evs' (credit - 1)
      | _ => paced ans (pre ++ [e]) evs' credit
      end
  end.

Lemma paced_burst ans l : ∀ pre evs credit,
  Z.of_nat (length l) ≤ credit →
  paced ans pre (burst l ++ evs) credit =
  paced ans (pre ++ burst l) evs (credit - Z.of_nat (length l)).
Proof.
  induction l as [l Hl|a b c d l IH] using list_ind4; intros pre evs credit Hc.
  - rewrite burst_short by done. clear Hl. revert pre credit Hc.
    induction l as [|x l IHl]; intros pre credit Hc; simpl length in Hc.
    { simpl. by rewrite app_nil_r, Z.sub_0_r. }
    rewrite fmap_cons. cbn [app paced]. destruct (Z.leb_spec 1 credit); [|lia].
    rewrite IHl by lia. cbn [andb]. rewrite <- app_assoc. simpl. f_equal. lia.
  - cbn [burst app paced]. simpl length in Hc. destruct (Z.leb_spec 4 credit); [|lia].
    rewrite IH by lia. cbn [andb]. rewrite <- app_assoc. simpl. f_equal. lia.
Qed.

Section send.
Context (ans : list event → event → Z) (fifo_size : Z).

Lemma send_loop_spec fuel : ∀ count bytes t credit,
  Forall is_byte bytes →
  ∃ evs, (send_loop ans fifo_size fuel count bytes t).2 = t ++ evs ∧
    paced ans t evs credit = true ∧
    match (send_loop ans fifo_size fuel count bytes t).1 with
    | Some ret => (ret = count ∧ tx_bytes evs = bytes) ∨
                  (ret = - ETIMEDOUT ∧ tx_bytes evs `prefix_of` bytes)
    | None => True
    end.
Proof.
  induction fuel as [|fuel IH]; intros count bytes t credit Hb.
  { exists []. by rewrite app_nil_r. }
  cbn [send_loop]. destruct bytes as [|b0 bs] eqn:Eb.
  { exists []. rewrite app_nil_r. split; [done|]. split; [done|]. by left. }
  rewrite <- Eb in *. assert (0 < length bytes)%nat by (rewrite Eb; simpl; lia). clear Eb b0 bs.
  unfold read32. trace_step. destruct (Z.eqb_spec (u32 (ans t ReadTxFree)) 0) as [H0|H0].
  - trace_step. set (th := WriteTxThresh _).
    set (t1 := (((t ++ [ReadTxFree]) ++ [th]) ++ [ReinitTx]) ++ [EnableTxIrq]).
    destruct (ans t1 WaitTx =? 0).
    + trace_step. exists [ReadTxFree; th; ReinitTx; EnableTxIrq; WaitTx; DisableTxIrq].
      split; [subst t1; by rewrite <- !app_assoc|]. split; [done|]. right. split; [done|].
      apply prefix_nil.
    + destruct (IH count bytes (t1 ++ [WaitTx]) (u32 (ans t ReadTxFree)) Hb) as (evs & He & Hp & Hr).
      exists ([ReadTxFree; th; ReinitTx; EnableTxIrq; WaitTx] ++ evs). rewrite He.
      split; [subst t1; by rewrite <- !app_assoc|]. split; [|done].
      subst th. simpl. subst t1. rewrite <- !app_assoc in Hp. rewrite <- !app_assoc. exact Hp.
  - trace_step. set (n := Nat.min (length bytes) (Z.to_nat (u32 (ans t ReadTxFree)))).
    set (t1 := (t ++ [ReadTxFree]) ++ burst (take n bytes)).
    pose proof (u32_range (ans t ReadTxFree)).
    assert (length (take n bytes) = n) as Hn by (rewrite length_take; lia).
    destruct (IH count (drop n bytes) t1 (u32 (ans t ReadTxFree) - Z.of_nat n)) as (evs & He & Hp & Hr).
    { by apply Forall_drop. }
    exists (ReadTxFree :: burst (take n bytes) ++ evs). rewrite He.
    split; [subst t1; by rewrite <- !app_assoc|]. split.
    + cbn [paced]. rewrite paced_burst, Hn by (rewrite Hn; lia). exact Hp.
    + destruct (send_loop ans fifo_size fuel count (drop n bytes) t1).1 as [ret|]; [|done].
      change (tx_bytes (ReadTxFree :: ?l)) with (tx_bytes l).
      rewrite tx_bytes_app, tx_bytes_burst by (by apply Forall_take).
      destruct Hr as [[-> ->]|[-> [k Hk]]].
      * left. split; [done|]. apply take_drop.
      * right. split; [done|]. exists k. rewrite <- app_assoc, <- Hk. symmetry. apply take_drop.
Qed.

(** A wait that ended in time means that there is room. *)
Definition tx_progress : Prop :=
  ∀ t, ans t WaitTx ≠ 0 → u32 (ans (t ++ [WaitTx]) ReadTxFree) ≠ 0.

Lemma send_loop_total fuel : tx_progress → ∀ count bytes t,
  (2 * length bytes < fuel ∨
   (0 < length bytes ∧ 2 * length bytes ≤ fuel ∧ u32 (ans t ReadTxFree) ≠ 0%Z))%nat →
  (send_loop ans fifo_size fuel count bytes t).1 ≠ None.
Proof.
  intros Hprog. induction fuel as [|fuel IH]; intros count bytes t H; [lia|].
  cbn [send_loop]. destruct bytes as [|b0 bs] eqn:Eb; [done|].
  rewrite <- Eb in *. assert (0 < length bytes)%nat by (rewrite Eb; simpl; lia). clear Eb b0 bs.
  unfold read32. trace_step. pose proof (u32_range (ans t ReadTxFree)).
  destruct (Z.eqb_spec (u32 (ans t ReadTxFree)) 0) as [Hz|Hz].
  - trace_step. match goal with |- context [ans ?x WaitTx] => set (t1 := x) end.
    destruct (Z.eqb_spec (ans t1 WaitTx) 0) as [|Hw]; [done|].
    apply IH. right. split; [done|]. split; [lia|]. by apply Hprog.
  - trace_step. apply IH. left. rewrite length_drop. lia.
Qed.
End send.

(** ** Interleaving of the transmit interrupt *)

Section tx_line.
(** [fires p]: the device raises the line when the driver has made the calls [p];
    the interrupt is then delivered if it is enabled. *)
Context (fires : list event → bool).

Definition tx_deliver (p : list event) (l : tx_line) : tx_line :=
  if fires p && (tx_depth l =? 0) then (dockchannel_tx_irq l).2 else l.

Fixpoint line_from (p evs : list event) (l : tx_line) : tx_line :=
  match evs with
  | [] => l
  | e :: evs' => line_from (p ++ [e]) evs' (tx_deliver (p ++ [e]) (tx_call e l))
  end.
Definition line_at (p : list event) : tx_line := line_from [] p tx_line_init.

Lemma line_from_app evs1 : ∀ p evs2 l,
  line_from p (evs1 ++ evs2) l = line_from (p ++ evs1) evs2 (line_from p evs1 l).
Proof.
  induction evs1 as [|e evs1 IH]; intros p evs2 l; simpl; [by rewrite app_nil_r|].
  by rewrite IH, <- app_assoc.
Qed.

Lemma line_at_snoc p e : line_at (p ++ [e]) = tx_deliver (p ++ [e]) (tx_call e (line_at p)).
Proof. unfold line_at. by rewrite line_from_app. Qed.

Lemma tx_deliver_off p l : 1 ≤ tx_depth l → tx_deliver p l = l.
Proof.
  intros H. unfold tx_deliver. destruct (Z.eqb_spec (tx_depth l) 0); [lia|]. by rewrite andb_false_r.
Qed.

(** While the interrupt is disabled, port accesses leave the line alone. *)
Definition tx_plain (e : event) : bool :=
  match e with ReinitTx | EnableTxIrq | DisableTxIrq | WaitTx => false | _ => true end.

Lemma line_at_plain evs : ∀ p,
  1 ≤ tx_depth (line_at p) → forallb tx_plain evs = true → line_at (p ++ evs) = line_at p.
Proof.
  induction evs as [|e evs IH]; intros p Hd H; [by rewrite app_nil_r|].
  simpl in H. apply andb_prop in H as [He Hevs].
  assert (line_at (p ++ [e]) = line_at p) as E.
  { rewrite line_at_snoc. replace (tx_call e (line_at p)) with (line_at p) by by destruct e.
    by apply tx_deliver_off. }
  change (e :: evs) with ([e] ++ evs). rewrite app_assoc, IH by (by rewrite ?E). done.
Qed.

Lemma burst_plain l : forallb tx_plain (burst l) = true.
Proof.
  induction l as [l Hl|a b c d l IH] using list_ind4; [|done].
  rewrite burst_short by done. clear Hl. by induction l.
Qed.

(** A wait ends in time exactly when the handler has completed it. *)
Definition wait_honest (ans : list event → event → Z) : Prop :=
  ∀ p, ans p WaitTx = 0 ↔ tx_done (line_at p) = 0.

(** The handler ran between the end of the wait and [disable_irq]. *)
Definition tx_raced (r : option Z * list event) : bool :=
  bool_decide (r.1 = Some (- ETIMEDOUT)) && fires (removelast r.2).

(** The line at the start of a wait and when it ends, from depth [d]. *)
Lemma line_armed p d v :
  1 ≤ d → tx_depth (line_at p) = d →
  let q := (((p ++ [ReadTxFree]) ++ [WriteTxThresh v]) ++ [ReinitTx]) ++ [EnableTxIrq] in
  line_at q = if fires q && (d =? 1) then TxLine d 1 else TxLine (d - 1) 0.
Proof.
  intros Hd Hp q. subst q. rewrite line_at_snoc, line_at_snoc.
  rewrite <- (app_assoc p), line_at_plain by (rewrite ?Hp; done).
  rewrite (tx_deliver_off _ (tx_call ReinitTx _)) by (simpl; lia). cbn [tx_call tx_depth tx_done].
  rewrite Hp. unfold tx_deliver. cbn [tx_depth].
  replace (d - 1 =? 0) with (d =? 1) by (destruct (Z.eqb_spec d 1), (Z.eqb_spec (d - 1) 0); lia).
  match goal with |- context [fires ?x && _] => destruct (fires x && (d =? 1)) end; [|done].
  simpl. f_equal; lia.
Qed.

Lemma send_loop_line ans fifo_size fuel : wait_honest ans → ∀ count bytes t d,
  0 ≤ count → 1 ≤ d → tx_depth (line_at t) = d →
  let r := send_loop ans fifo_size fuel count bytes t in
  tx_depth (line_at r.2) = d + (if tx_raced r && (d =? 1) then 1 else 0).
Proof.
  intros Hw. induction fuel as [|fuel IH]; intros count bytes t d Hc Hd Ht.
  { cbn [send_loop]. unfold tx_raced. simpl. lia. }
  cbn [send_loop]. destruct bytes as [|b0 bs] eqn:Eb.
  { unfold tx_raced. simpl. rewrite bool_decide_eq_false_2; [simpl; lia|].
    unfold ETIMEDOUT. intros [= ->]. lia. }
  rewrite <- Eb in *. clear Eb b0 bs. unfold read32. trace_step.
  destruct (Z.eqb_spec (u32 (ans t ReadTxFree)) 0) as [Hz|Hz].
  - trace_step. match goal with |- context [WriteTxThresh ?v] =>
      pose proof (line_armed t d v Hd Ht) as Ha end.
    cbv zeta in Ha. match type of Ha with line_at ?q = _ => set (t1 := q) in * end.
    pose proof (Hw t1) as Hw1. rewrite Ha in Hw1.
    destruct (Z.eqb_spec (ans t1 WaitTx) 0) as [H0|H0].
    + trace_step. apply Hw1 in H0.
      destruct (fires t1 && (d =? 1)); simpl in H0; [lia|].
      unfold tx_raced. cbn [fst snd]. rewrite removelast_last, bool_decide_eq_true_2 by done.
      rewrite line_at_snoc, line_at_snoc, Ha. unfold tx_deliver at 2. cbn [tx_call tx_depth].
      replace (d - 1 =? 0) with (d =? 1) by (destruct (Z.eqb_spec d 1), (Z.eqb_spec (d - 1) 0); lia).
      simpl. destruct (fires (t1 ++ [WaitTx]) && (d =? 1)); rewrite tx_deliver_off; simpl; lia.
    + apply (IH count bytes (t1 ++ [WaitTx]) d Hc Hd).
      rewrite line_at_snoc, Ha. destruct (fires t1 && (d =? 1)); [|by destruct H0; apply Hw1].
      rewrite tx_deliver_off; simpl; lia.
  - trace_step. apply IH; [done|done|].
    rewrite <- app_assoc, line_at_plain; [done|lia|]. simpl. apply burst_plain.
Qed.
End tx_line.

(** ** Reception *)

(** Bytes taken from the two receive ports so far. *)
Definition rx_width (e : event) : nat :=
  match e with ReadRx32 => 4 | ReadRx8 => 1 | _ => 0 end.
Definition consumed (t : list event) : nat := sum_list_with rx_width t.

Lemma consumed_app t1 t2 : consumed (t1 ++ t2) = (consumed t1 + consumed t2)%nat.
Proof. apply sum_list_with_app. Qed.

Section recv.
Context (ans : list event → event → Z) (fifo_size : Z) (src : nat → Z).

(** The device: the word port delivers the next four bytes of the stream
    little-endian, the byte port the next one in bits 8 to 15. *)
Record rx_device : Prop := {
  rx_byte k : is_byte (src k);
  rx_word t : u32 (ans t ReadRx32) =
    let c := consumed t in get_le32 (src c) (src (c + 1)%nat) (src (c + 2)%nat) (src (c + 3)%nat);
  rx_single t : u8 (Z.shiftr (u32 (ans t ReadRx8)) 8) = src (consumed t)
}.

Local Abbreviation stream := (stream src).

Lemma drain_byte n t evs :
  rx_device →
  drain ans n (t ++ [ReadRx8]) = (stream (consumed (t ++ [ReadRx8])) n, (t ++ [ReadRx8]) ++ evs) →
  consumed evs = n →
  (v ← read32 ans ReadRx8; rest ← drain ans n; mret (u8 (Z.shiftr v 8) :: rest)) t =
  (stream (consumed t) (S n), t ++ ReadRx8 :: evs) ∧ consumed (ReadRx8 :: evs) = S n.
Proof.
  intros Hdev E Hc. split; [|unfold consumed in *; simpl; lia].
  unfold read32. trace_step. rewrite E. trace_step. rewrite <- app_assoc, (rx_single Hdev).
  f_equal. unfold stream. simpl. do 3 f_equal. rewrite consumed_app. unfold consumed. simpl. lia.
Qed.

Lemma drain_word n t evs :
  rx_device →
  drain ans n (t ++ [ReadRx32]) = (stream (consumed (t ++ [ReadRx32])) n, (t ++ [ReadRx32]) ++ evs) →
  consumed evs = n →
  (v ← read32 ans ReadRx32; rest ← drain ans n; mret (put_le32 v ++ rest)) t =
  (stream (consumed t) (4 + n), t ++ ReadRx32 :: evs) ∧ consumed (ReadRx32 :: evs) = (4 + n)%nat.
Proof.
  intros Hdev E Hc. split; [|unfold consumed in *; simpl; lia].
  unfold read32. trace_step. rewrite E. trace_step. rewrite <- app_assoc, (rx_word Hdev).
  cbv zeta. rewrite put_get_le32 by apply (rx_byte Hdev). rewrite stream_app, consumed_app.
  f_equal. f_equal. unfold stream. simpl. repeat f_equal; lia.
Qed.

Lemma drain_spec : rx_device → ∀ n t,
  ∃ evs, drain ans n t = (stream (consumed t) n, t ++ evs) ∧ consumed evs = n.
Proof.
  intros Hdev n. induction n as [n IH] using lt_wf_ind. intros t.
  destruct n as [|[|[|[|n]]]].
  - exists []. by rewrite app_nil_r.
  - destruct (IH 0%nat ltac:(lia) (t ++ [ReadRx8])) as (evs & E & Hc).
    exists (ReadRx8 :: evs). by apply drain_byte.
  - destruct (IH 1%nat ltac:(lia) (t ++ [ReadRx8])) as (evs & E & Hc).
    exists (ReadRx8 :: evs). by apply drain_byte.
  - destruct (IH 2%nat ltac:(lia) (t ++ [ReadRx8])) as (evs & E & Hc).
    exists (ReadRx8 :: evs). by apply drain_byte.
  - destruct (IH n ltac:(lia) (t ++ [ReadRx32])) as (evs & E & Hc).
    exists (ReadRx32 :: evs). by apply drain_word.
Qed.

Lemma recv_loop_spec : rx_device → ∀ fuel count left t,
  ∃ evs, (recv_loop ans fifo_size fuel count left t).2 = t ++ evs ∧
    let '(ret, got) := (recv_loop ans fifo_size fuel count left t).1 in
    got = stream (consumed t) (consumed evs) ∧ (consumed evs ≤ left)%nat ∧
    match ret with
    | Some r => (r = count ∧ consumed evs = left) ∨ r = - ETIMEDOUT
    | None => True
    end.
Proof.
  intros Hdev. induction fuel as [|fuel IH]; intros count left t.
  { exists []. rewrite app_nil_r. split; [done|]. split; [done|]. split; [simpl; lia|done]. }
  cbn [recv_loop]. destruct (Nat.eqb_spec left 0) as [-> | Hl].
  { exists []. rewrite app_nil_r. split; [done|]. split; [done|]. split; [done|]. by left. }
  unfold read32. trace_step. destruct (Z.eqb_spec (u32 (ans t ReadRxCount)) 0) as [Hz|Hz].
  - trace_step. set (th := WriteRxThresh _).
    set (t1 := (((t ++ [ReadRxCount]) ++ [th]) ++ [ReinitRx]) ++ [EnableRxIrq]).
    destruct (ans t1 WaitRx =? 0).
    + trace_step. exists [ReadRxCount; th; ReinitRx; EnableRxIrq; WaitRx; DisableRxIrq].
      split; [subst t1; by rewrite <- !app_assoc|]. split; [done|]. split; [simpl; lia|by right].
    + destruct (IH count left (t1 ++ [WaitRx])) as (evs & He & H).
      exists ([ReadRxCount; th; ReinitRx; EnableRxIrq; WaitRx] ++ evs). rewrite He.
      split; [subst t1; by rewrite <- !app_assoc|].
      assert (consumed (t1 ++ [WaitRx]) = consumed t) as E.
      { subst t1. rewrite !consumed_app. unfold consumed. simpl. lia. }
      rewrite E in H. exact H.
  - trace_step. set (n := Nat.min left (Z.to_nat (u32 (ans t ReadRxCount)))).
    destruct (drain_spec Hdev n (t ++ [ReadRxCount])) as (e1 & -> & Hc1). trace_step.
    destruct (IH count (left - n)%nat ((t ++ [ReadRxCount]) ++ e1)) as (evs & He & H).
    destruct (recv_loop ans fifo_size fuel count (left - n) ((t ++ [ReadRxCount]) ++ e1))
      as [[ret rest] t2]. cbn [fst snd] in *. subst t2. trace_step.
    exists (ReadRxCount :: e1 ++ evs). split; [by rewrite <- !app_assoc|].
    assert (consumed (ReadRxCount :: e1 ++ evs) = (n + consumed evs)%nat) as E.
    { change (ReadRxCount :: e1 ++ evs) with ([ReadRxCount] ++ e1 ++ evs).
      rewrite !consumed_app, Hc1. unfold consumed. simpl. lia. }
    rewrite !E. destruct H as (-> & Hle & Hr).
    assert (consumed ((t ++ [ReadRxCount]) ++ e1) = (consumed t + n)%nat) as E1.
    { rewrite !consumed_app, Hc1. unfold consumed at 2. simpl. lia. }
    assert (consumed (t ++ [ReadRxCount]) = consumed t) as E2.
    { rewrite !consumed_app. unfold consumed at 2. simpl. lia. }
    rewrite E1, E2. assert (n ≤ left)%nat by lia. split; [by rewrite stream_app|]. split; [lia|].
    destruct ret as [r|]; [|done]. destruct Hr as [[-> Hr]|Hr]; [left|by right]. split; [done|lia].
Qed.

Definition rx_progress : Prop :=
  ∀ t, ans t WaitRx ≠ 0 → u32 (ans (t ++ [WaitRx]) ReadRxCount) ≠ 0.

Lemma recv_loop_total fuel : rx_progress → ∀ count left t,
  (2 * left < fuel ∨ (0 < left ∧ 2 * left ≤ fuel ∧ u32 (ans t ReadRxCount) ≠ 0%Z))%nat →
  (recv_loop ans fifo_size fuel count left t).1.1 ≠ None.
Proof.
  intros Hprog. induction fuel as [|fuel IH]; intros count left t H; [lia|].
  cbn [recv_loop]. destruct (Nat.eqb_spec left 0) as [-> | Hl]; [done|].
  unfold read32. trace_step. pose proof (u32_range (ans t ReadRxCount)).
  destruct (Z.eqb_spec (u32 (ans t ReadRxCount)) 0) as [Hz|Hz].
  - trace_step. match goal with |- context [ans ?x WaitRx] => set (t1 := x) end.
    destruct (Z.eqb_spec (ans t1 WaitRx) 0) as [|Hw]; [done|].
    apply IH. right. split; [lia|]. split; [lia|]. by apply Hprog.
  - trace_step. destruct (drain ans _ _) as [got t1]. trace_step.
    set (n := Nat.min left (Z.to_nat (u32 (ans t ReadRxCount)))).
    specialize (IH count (left - n)%nat t1 ltac:(left; lia)).
    destruct (recv_loop ans fifo_size fuel count (left - n) t1) as [[ret rest] t2]. done.
Qed.
End recv.

Lemma send_spec ans fifo_size bytes t :
  tx_progress ans → Forall is_byte bytes →
  ∃ ret evs, dockchannel_send ans fifo_size bytes t = (Some ret, t ++ evs) ∧
    paced ans t evs 0 = true ∧
    ((ret = Z.of_nat (length bytes) ∧ tx_bytes evs = bytes) ∨
     (ret = - ETIMEDOUT ∧ tx_bytes evs `prefix_of` bytes)).
Proof.
  intros Hprog Hb. unfold dockchannel_send.
  pose proof (send_loop_total ans fifo_size (S (2 * length bytes)) Hprog
    (Z.of_nat (length bytes)) bytes t ltac:(left; lia)) as Htot.
  destruct (send_loop_spec ans fifo_size (S (2 * length bytes)) (Z.of_nat (length bytes)) bytes t 0 Hb)
    as (evs & He & Hp & Hr).
  destruct (send_loop _ _ _ _ _ _) as [[ret|] t']; [|done]. cbn [fst snd] in *. subst t'.
  exists ret, evs. done.
Qed.

Lemma recv_spec ans fifo_size src count t :
  rx_device ans src → rx_progress ans →
  ∃ ret got evs, dockchannel_recv ans fifo_size count t = ((Some ret, got), t ++ evs) ∧
    got = stream src (consumed t) (consumed evs) ∧
    ((ret = Z.of_nat count ∧ consumed evs = count) ∨
     (ret = - ETIMEDOUT ∧ (consumed evs ≤ count)%nat)).
Proof.
  intros Hdev Hprog. unfold dockchannel_recv.
  pose proof (recv_loop_total ans fifo_size (S (2 * count)) Hprog
    (Z.of_nat count) count t ltac:(left; lia)) as Htot.
  destruct (recv_loop_spec ans fifo_size src Hdev (S (2 * count)) (Z.of_nat count) count t)
    as (evs & He & H).
  destruct (recv_loop _ _ _ _ _ _) as [[[ret|] got] t']; [|done]. cbn [fst snd] in *. subst t'.
  destruct H as (Hg & Hle & Hr).
  exists ret, got, evs. split; [done|]. split; [done|].
  destruct Hr as [[-> Hr]| ->]; [left|right]; done.
Qed.

(** ** The FIFO is a byte channel *)

#[export] Instance dockchannel_channel (ans : list event → event → Z) (fifo_size : Z)
    (src : nat → Z) : ByteChannel event := {|
  ch_send := dockchannel_send ans fifo_size;
  ch_recv := dockchannel_recv ans fifo_size;
  ch_sent := tx_bytes;
  ch_taken := consumed;
  ch_src := src
|}.

(** A device that makes progress keeps the promises of the interface. *)
Lemma dockchannel_channel_laws ans fifo_size src :
  tx_progress ans → rx_device ans src → rx_progress ans →
  ByteChannelLaws (dockchannel_channel ans fifo_size src).
Proof.
  intros Htx Hdev Hrx. split; cbn.
  - apply tx_bytes_app.
  - apply consumed_app.
  - apply (rx_byte ans src Hdev).
  - intros bytes t Hb. destruct (send_spec ans fifo_size bytes t Htx Hb) as (ret & evs & E & _ & H).
    exists ret, evs. split; [done|]. destruct H as [H|[-> H]]; [by left|right]. by split.
  - intros n t. destruct (recv_spec ans fifo_size src n t Hdev Hrx) as (ret & got & evs & E & Hg & H).
    exists ret, got, evs. split; [done|]. split; [done|]. destruct H as [H|[-> H]]; [by left|right].
    by split.
Qed.

(** When there is always data, a receive does not wait. *)
Lemma recv_loop_ready ans fifo_size : (∀ t, u32 (ans t ReadRxCount) ≠ 0) → ∀ fuel count left t,
  (recv_loop ans fifo_size fuel count left t).1.1 = Some count ∨
  (recv_loop ans fifo_size fuel count left t).1.1 = None.
Proof.
  intros Hr. induction fuel as [|fuel IH]; intros count left t; [by right|].
  cbn [recv_loop]. destruct (Nat.eqb left 0); [by left|]. unfold read32. trace_step.
  destruct (Z.eqb_spec (u32 (ans t ReadRxCount)) 0) as [H|_]; [by destruct (Hr t)|].
  trace_step. destruct (drain ans _ _) as [got t1]. trace_step.
  specialize (IH count (left - Nat.min left (Z.to_nat (u32 (ans t ReadRxCount))))%nat t1).
  destruct (recv_loop _ _ _ _ _ _) as [[ret rest] t2]. done.
Qed.

(** A device with room and data at any time, whose incoming stream is [src]. *)
Definition demo_wire (src : nat → Z) (t : list event) (e : event) : Z :=
  let c := consumed t in
  match e with
  | ReadRx32 => get_le32 (src c) (src (c + 1)%nat) (src (c + 2)%nat) (src (c + 3)%nat)
  | ReadRx8 => src c * 256
  | ReadTxFree | ReadRxCount => 64
  | _ => 1
  end.

Lemma demo_wire_device src : (∀ k, is_byte (src k)) → rx_device (demo_wire src) src.
Proof.
  intros Hb. split; [done| |].
  - intros t. simpl. apply u32_small. pose proof (Hb (consumed t)).
    pose proof (Hb (consumed t + 1)%nat). pose proof (Hb (consumed t + 2)%nat).
    pose proof (Hb (consumed t + 3)%nat). unfold is_byte, get_le32 in *. lia.
  - intros t. simpl. pose proof (Hb (consumed t)) as H. unfold is_byte in H.
    rewrite u32_small, Z.shiftr_div_pow2 by lia. rewrite Z.div_mul by lia. apply u8_small. lia.
Qed.

Lemma demo_wire_laws src :
  (∀ k, is_byte (src k)) → ByteChannelLaws (dockchannel_channel (demo_wire src) 64 src).
Proof.
  intros Hb. apply dockchannel_channel_laws; [|by apply demo_wire_device|].
  - intros t _. vm_compute. discriminate.
  - intros t _. vm_compute. discriminate.
Qed.

Lemma demo_wire_delivers src n t :
  (dockchannel_recv (demo_wire src) 64 n t).1.1 = Some (Z.of_nat n).
Proof.
  unfold dockchannel_recv.
  destruct (recv_loop_ready (demo_wire src) 64 ltac:(intros; vm_compute; discriminate)
    (S (2 * n)) (Z.of_nat n) n t) as [E|E]; [done|].
  exfalso. apply (recv_loop_total (demo_wire src) 64 (S (2 * n))) in E; [done| |left; lia].
  intros t' _. vm_compute. discriminate.
Qed.

(** ** Theorems *)

(** Sending delivers the buffer: on a device that has room after every wait
    that ended in time, the call returns; it returns the length after putting
    exactly the bytes of the buffer, in order, into the FIFO, or the timeout error
    after a prefix of them.  On any device it never writes more bytes than the
    free space it last read. *)
Theorem dockchannel_send_correct ans fifo_size bytes t :
  tx_progress ans → Forall is_byte bytes →
  ∃ ret evs, dockchannel_send ans fifo_size bytes t = (Some ret, t ++ evs) ∧
    paced ans t evs 0 = true ∧
    ((ret = Z.of_nat (length bytes) ∧ tx_bytes evs = bytes) ∨
     (ret = - ETIMEDOUT ∧ tx_bytes evs `prefix_of` bytes)).
Proof.
  apply send_spec.
Qed.

(** A FIFO that is full at first, then always has five bytes of room. *)
Definition demo_tx (t : list event) (e : event) : Z :=
  match e, t with
  | ReadTxFree, [] => 0
  | ReadTxFree, _ => 5
  | _, _ => 1
  end.

Lemma dockchannel_send_correct_witness :
  (dockchannel_send demo_tx 16 [1; 2; 3; 4; 5; 6] []).1 = Some 6 ∧
  ∃ ret evs, dockchannel_send demo_tx 16 [1; 2; 3; 4; 5; 6] [] = (Some ret, [] ++ evs) ∧
    paced demo_tx [] evs 0 = true ∧
    ((ret = Z.of_nat (length [1; 2; 3; 4; 5; 6]) ∧ tx_bytes evs = [1; 2; 3; 4; 5; 6]) ∨
     (ret = - ETIMEDOUT ∧ tx_bytes evs `prefix_of` [1; 2; 3; 4; 5; 6])).
Proof.
  split; [vm_compute; reflexivity|].
  refine (dockchannel_send_correct demo_tx 16 [1; 2; 3; 4; 5; 6] [] _ _).
  - intros t _. simpl. destruct t; simpl; vm_compute; discriminate.
  - repeat apply List.Forall_cons; try apply List.Forall_nil; unfold is_byte; lia.
Defined.

(** Receiving delivers the stream: on a device whose ports deliver a byte
    stream and that has data after every wait that ended in time, the call
    returns; what it stored are the next bytes of the stream in order, none of
    them skipped, all the requested ones when it returns the length. *)
Theorem dockchannel_recv_correct ans fifo_size src count t :
  rx_device ans src → rx_progress ans →
  ∃ ret got evs, dockchannel_recv ans fifo_size count t = ((Some ret, got), t ++ evs) ∧
    got = stream src (consumed t) (consumed evs) ∧
    ((ret = Z.of_nat count ∧ length got = count) ∨
     (ret = - ETIMEDOUT ∧ (length got ≤ count)%nat)).
Proof.
  intros Hdev Hprog. destruct (recv_spec ans fifo_size src count t Hdev Hprog)
    as (ret & got & evs & E & Hg & H).
  exists ret, got, evs. subst got. rewrite length_stream. done.
Qed.

(** A device that delivers the bytes 1, 2, 3, ... *)
Definition demo_src (k : nat) : Z := u8 (Z.of_nat k + 1).
Definition demo_rx (t : list event) (e : event) : Z :=
  let c := consumed t in
  match e with
  | ReadRx32 => get_le32 (demo_src c) (demo_src (c + 1)) (demo_src (c + 2)) (demo_src (c + 3))
  | ReadRx8 => demo_src c * 256
  | _ => 3
  end.

Lemma demo_rx_device : rx_device demo_rx demo_src.
Proof.
  assert (∀ k, is_byte (demo_src k)) as Hb by (intros k; apply u8_range).
  destruct (demo_wire_device demo_src Hb) as [? Hw Hs]. by split.
Qed.

Lemma dockchannel_recv_correct_witness :
  (dockchannel_recv demo_rx 16 7 []).1 = (Some 7, [1; 2; 3; 4; 5; 6; 7]) ∧
  ∃ ret got evs, dockchannel_recv demo_rx 16 7 [] = ((Some ret, got), [] ++ evs) ∧
    got = stream demo_src (consumed []) (consumed evs) ∧
    ((ret = Z.of_nat 7 ∧ length got = 7%nat) ∨ (ret = - ETIMEDOUT ∧ (length got ≤ 7)%nat)).
Proof.
  split; [vm_compute; reflexivity|].
  refine (dockchannel_recv_correct demo_rx 16 demo_src 7 [] demo_rx_device _).
  intros t _. vm_compute. discriminate.
Defined.

(** The interrupt controller hands out exactly the pending interrupts, lowest
    first and each once; acknowledging one clears its flag and no other; masking
    and unmasking change only their own bit. *)
Theorem dockchannel_irqchip_exact d hwirq i :
  0 ≤ hwirq < DOCKCHANNEL_MAX_IRQ → 0 ≤ i < DOCKCHANNEL_MAX_IRQ →
  (i ∈ dockchannel_irq d ↔ Z.testbit (irq_flag d) i = true) ∧
  Sorted Z.lt (dockchannel_irq d) ∧
  Z.testbit (irq_flag (dockchannel_irq_ack hwirq d)) i =
    negb (i =? hwirq) && Z.testbit (irq_flag d) i ∧
  Z.testbit (irq_mask (dockchannel_irq_mask hwirq d)) i =
    negb (i =? hwirq) && Z.testbit (irq_mask d) i ∧
  Z.testbit (irq_mask (dockchannel_irq_unmask hwirq d)) i =
    (i =? hwirq) || Z.testbit (irq_mask d) i.
Proof.
  unfold DOCKCHANNEL_MAX_IRQ. intros Hh Hi. split; [|split; [|split; [|split]]].
  - unfold dockchannel_irq. rewrite list_elem_of_In, filter_In, <- list_elem_of_In, elem_of_seqZ.
    unfold DOCKCHANNEL_MAX_IRQ. split; [tauto|]. intros H. split; [lia|done].
  - unfold dockchannel_irq. apply StronglySorted_Sorted.
    assert (StronglySorted Z.lt (seqZ 0 DOCKCHANNEL_MAX_IRQ)) as H.
    { vm_compute. repeat constructor. }
    induction H as [|a l Hl IH Ha]; simpl; [constructor|].
    destruct (Z.testbit (irq_flag d) a); [|done]. constructor; [done|].
    rewrite List.Forall_forall in *. intros x [Hx _]%filter_In. by apply Ha.
  - simpl. rewrite Z.land_spec, testbit_not32, testbit_BIT by lia. apply andb_comm.
  - simpl. rewrite Z.land_spec, testbit_not32, testbit_BIT by lia. apply andb_comm.
  - simpl. unfold u32. rewrite Z.mod_pow2_bits_low by lia. rewrite Z.lor_spec, testbit_BIT by lia.
    apply orb_comm.
Qed.

Lemma dockchannel_irqchip_exact_witness :
  dockchannel_irq (Dcc 3 6) = [1; 2] ∧
  (1 ∈ dockchannel_irq (Dcc 3 6) ↔ Z.testbit (irq_flag (Dcc 3 6)) 1 = true) ∧
  Sorted Z.lt (dockchannel_irq (Dcc 3 6)) ∧
  Z.testbit (irq_flag (dockchannel_irq_ack 1 (Dcc 3 6))) 1 =
    negb (1 =? 1) && Z.testbit (irq_flag (Dcc 3 6)) 1 ∧
  Z.testbit (irq_mask (dockchannel_irq_mask 1 (Dcc 3 6))) 1 =
    negb (1 =? 1) && Z.testbit (irq_mask (Dcc 3 6)) 1 ∧
  Z.testbit (irq_mask (dockchannel_irq_unmask 1 (Dcc 3 6))) 1 =
    (1 =? 1) || Z.testbit (irq_mask (Dcc 3 6)) 1.
Proof.
  split; [vm_compute; reflexivity|].
  apply (dockchannel_irqchip_exact (Dcc 3 6) 1 1); vm_compute; split; discriminate || reflexivity.
Defined.

(** Cancelling a wait whose interrupt has already fired disables the interrupt a
    second time: the next wait then leaves it disabled and its data is never
    announced. *)
Theorem dockchannel_cancel_unbalances fifo :
  let d0 := Dockchannel fifo false 1 in
  let '(_, _, d1) := dockchannel_await 8 d0 in
  let '(_, _, d2) := dockchannel_rx_irq d1 in
  let '(_, d3) := dockchannel_rx_irq_thread 8 d2 in
  let '(_, _, d4) := dockchannel_await 0 d3 in
  let '(_, _, d5) := dockchannel_await 8 d4 in
  dc_rx_depth d1 = 0 ∧ dc_awaiting d5 = true ∧ dc_rx_depth d5 = 1.
Proof. vm_compute. done. Qed.

(** Every transmission leaves the interrupt as it found it, with one exception:
    started with the interrupt disabled once, it returns with it disabled once
    unless it timed out and the handler ran between the end of the wait and the
    call that disables the interrupt.  In that case, and only then, the interrupt
    is left disabled twice; from there on no interrupt is delivered any more, so a
    transmission into a full FIFO times out whatever the device does, and leaves
    the interrupt in the same state. *)
Theorem dockchannel_tx_balance ans fires fifo_size bytes t :
  wait_honest fires ans → 1 ≤ tx_depth (line_at fires t) →
  let r := dockchannel_send ans fifo_size bytes t in
  tx_depth (line_at fires r.2) =
    tx_depth (line_at fires t) +
    (if tx_raced fires r && (tx_depth (line_at fires t) =? 1) then 1 else 0) ∧
  (1 < tx_depth (line_at fires t) → bytes ≠ [] → u32 (ans t ReadTxFree) = 0 →
   r.1 = Some (- ETIMEDOUT)).
Proof.
  intros Hw Hd r. split; [apply send_loop_line; done || lia|].
  intros Hd1 Hb Hz. subst r. unfold dockchannel_send. cbn [send_loop].
  destruct bytes as [|b0 bs] eqn:Eb; [done|]. rewrite <- Eb. clear Eb.
  unfold read32. trace_step. rewrite Hz. cbn [Z.eqb]. trace_step.
  match goal with |- context [WriteTxThresh ?v] =>
    pose proof (line_armed fires t _ v Hd eq_refl) as Ha end.
  cbv zeta in Ha. match type of Ha with line_at _ ?q = _ => set (t1 := q) in * end.
  destruct (Z.eqb_spec (tx_depth (line_at fires t)) 1); [lia|].
  rewrite andb_false_r in Ha. destruct (Hw t1) as [_ H0].
  rewrite H0 by (by rewrite Ha). done.
Qed.

(** A device that raises the line just after each wait has ended, and never has
    room. *)
Definition demo_late (p : list event) : bool :=
  match List.last p ReadRx8 with WaitTx => true | _ => false end.
Definition demo_full (p : list event) (e : event) : Z :=
  match e with WaitTx => tx_done (line_at demo_late p) | _ => 0 end.
Definition demo_raced : list event := (dockchannel_send demo_full 64 [1] []).2.

Lemma dockchannel_tx_balance_witness :
  tx_depth (line_at demo_late demo_raced) = 2 ∧
  (let r := dockchannel_send demo_full 64 [7; 8] demo_raced in
   tx_depth (line_at demo_late r.2) =
     tx_depth (line_at demo_late demo_raced) +
     (if tx_raced demo_late r && (tx_depth (line_at demo_late demo_raced) =? 1) then 1 else 0) ∧
   r.1 = Some (- ETIMEDOUT)).
Proof.
  split; [vm_compute; reflexivity|].
  destruct (dockchannel_tx_balance demo_full demo_late 64 [7; 8] demo_raced) as [H1 H2].
  - intros p. reflexivity.
  - vm_compute. discriminate.
  - split; [exact H1|]. apply H2; [vm_compute; reflexivity|discriminate|vm_compute; reflexivity].
Defined.
