(* ===== verification/HidPacket.v ===== *)
(** * DockChannel HID transport: packets and commands
    (drivers/hid/dockchannel-hid/dockchannel-hid.c of the asahi snapshot)

    The packet format and its checksum, the transmission of a message, the
    command/acknowledge exchange and the reception of packets, over a byte channel
    ([Channel.v]).  The handlers that run on received reports are in
    [HidIface.v]. *)

From Stdlib Require Import ZArith Lia Bool.
From stdpp Require Import base numbers list option.
From S2P Require Import Prelude.
From S2P Require Import Channel.
From S2P Require Import Dockchannel.

Local Open Scope list_scope.
Local Open Scope Z_scope.

(** ** Layout *)

Definition MAX_INTERFACES : Z := 16.
Definition MAX_PKT_SIZE : Z := 0xffff + 4.
Definition DCHID_CHANNEL_CMD : Z := 0x11.
Definition DCHID_CHANNEL_REPORT : Z := 0x12.
Definition FLAGS_GROUP : Z := GENMASK 7 6.
Definition FLAGS_REQ : Z := GENMASK 5 0.
Definition REQ_SET_REPORT : Z := 0.
Definition REQ_GET_REPORT : Z := 1.
(** enum hid_report_type of linux/hid.h *)
Definition HID_INPUT_REPORT : Z := 0.
Definition HID_OUTPUT_REPORT : Z := 1.
Definition HID_FEATURE_REPORT : Z := 2.

Record dchid_hdr := Hdr {
  hdr_len : Z; hdr_channel : Z; hdr_length : Z; hdr_seq : Z; hdr_iface : Z; hdr_pad : Z
}.
Record dchid_subhdr := SubHdr { sub_flags : Z; sub_unk : Z; sub_length : Z; sub_retcode : Z }.

Definition put_le16 (v : Z) : list Z := [u8 v; u8 (Z.shiftr v 8)].
Definition byte_at (l : list Z) (i : nat) : Z := nth i l 0.
Definition le16_at (l : list Z) (i : nat) : Z := byte_at l i + byte_at l (i + 1) * 2 ^ 8.
Definition le32_at (l : list Z) (i : nat) : Z :=
  get_le32 (byte_at l i) (byte_at l (i + 1)) (byte_at l (i + 2)) (byte_at l (i + 3)).

(** The packed structures in memory. *)
Definition hdr_bytes (h : dchid_hdr) : list Z :=
  [u8 (hdr_len h); u8 (hdr_channel h)] ++ put_le16 (hdr_length h) ++
  [u8 (hdr_seq h); u8 (hdr_iface h)] ++ put_le16 (hdr_pad h).
Definition sub_bytes (s : dchid_subhdr) : list Z :=
  [u8 (sub_flags s); u8 (sub_unk s)] ++ put_le16 (sub_length s) ++ put_le32 (sub_retcode s).

Definition hdr_of (l : list Z) : dchid_hdr :=
  Hdr (byte_at l 0) (byte_at l 1) (le16_at l 2) (byte_at l 4) (byte_at l 5) (le16_at l 6).
Definition sub_of (l : list Z) : dchid_subhdr :=
  SubHdr (byte_at l 0) (byte_at l 1) (le16_at l 2) (le32_at l 4).
Definition SUBHDR_SIZE : Z := 8.

(** [dchid_checksum]: a trailing partial word is left out. *)
Fixpoint checksum_loop (sum : Z) (l : list Z) : Z :=
  match l with
  | b0 :: b1 :: b2 :: b3 :: rest => checksum_loop (u32 (sum + get_le32 b0 b1 b2 b3)) rest
  | _ => sum
  end.
Definition dchid_checksum (l : list Z) : Z := checksum_loop 0 l.

(** ** State *)

(** The command part of an interface.  [resp_buf] is the content of the buffer the
    caller handed in, [out_complete] the count of the completion. *)
Record cmd_state := CmdState {
  tx_seq : Z;
  out_flags : Z;
  out_report : Z;
  retcode : Z;
  resp_buf : option (list Z);
  resp_size : Z;
  out_complete : Z
}.

(** The life of an interface; [ready] is the completion that [complete_all] sets,
    [has_hid] and [gpio] say whether the pointers are set. *)
Record iface_life := Life {
  creating : bool;
  deferred : bool;
  starting : bool;
  opened : bool;
  ready : bool;
  has_hid : bool;
  hid_desc : option (list Z);
  hid_desc_len : Z;
  gpio : bool;
  gpio_name : list Z;
  gpio_id : Z;
  keyboard_layout_id : Z
}.

Record dchid_iface := Iface {
  index : Z;
  name : option (list Z);
  has_of_node : bool;
  cmd : cmd_state;
  life : iface_life
}.

Record dockchannel_hid := DcHid {
  dc : dockchannel;
  id_ready : bool;
  device_id : list Z;
  serial : list Z;
  ifaces : list (option dchid_iface);
  pkt_buf : list Z
}.

Definition with_cmd (f : cmd_state → cmd_state) (i : dchid_iface) : dchid_iface :=
  Iface (index i) (name i) (has_of_node i) (f (cmd i)) (life i).
Definition with_life (f : iface_life → iface_life) (i : dchid_iface) : dchid_iface :=
  Iface (index i) (name i) (has_of_node i) (cmd i) (f (life i)).
Definition with_dc (c : dockchannel) (d : dockchannel_hid) : dockchannel_hid :=
  DcHid c (id_ready d) (device_id d) (serial d) (ifaces d) (pkt_buf d).
Definition with_ifaces (l : list (option dchid_iface)) (d : dockchannel_hid) : dockchannel_hid :=
  DcHid (dc d) (id_ready d) (device_id d) (serial d) l (pkt_buf d).
Definition with_pkt_buf (b : list Z) (d : dockchannel_hid) : dockchannel_hid :=
  DcHid (dc d) (id_ready d) (device_id d) (serial d) (ifaces d) b.
Definition with_ids (r : bool) (i s : list Z) (d : dockchannel_hid) : dockchannel_hid :=
  DcHid (dc d) r i s (ifaces d) (pkt_buf d).

Definition iface_at (j : Z) (d : dockchannel_hid) : option dchid_iface :=
  mjoin (ifaces d !! Z.to_nat j).
Definition set_iface (j : Z) (i : dchid_iface) (d : dockchannel_hid) : dockchannel_hid :=
  with_ifaces (<[Z.to_nat j := Some i]> (ifaces d)) d.

(** What goes wrong in memory: a pointer that is NULL, an index outside an array, a
    read behind the end of an allocation. *)
Inductive fault := NullDeref | BadIndex (i : Z) | OverRead | NoFuel.

(** ** The acknowledgement *)

Definition dchid_handle_ack (c : cmd_state) (h : dchid_hdr) (data : list Z) : cmd_state :=
  let shdr := sub_of data in
  let payload := drop 8 data in
  if sub_length shdr + SUBHDR_SIZE >? hdr_length h then c
  else if negb (sub_flags shdr =? out_flags c) then c
  else if sub_length shdr <? 1 then c
  else if negb (tx_seq c =? hdr_seq h) then c
  else if negb (out_report c =? byte_at payload 0) then c
  else
    let n := Z.to_nat (Z.min (sub_length shdr - 1) (resp_size c)) in
    let buf := match resp_buf c with
               | Some b => if negb (resp_size c =? 0)
                           then Some (take n (drop 1 payload) ++ drop n b) else Some b
               | None => None
               end in
    CmdState (tx_seq c) (out_flags c) (-1) (sub_retcode shdr) buf (sub_length shdr) (out_complete c + 1).

(** ** The monad of the driver

    State of the driver, the trace of the accesses to the channel and of the calls
    to the kernel, and faults. *)
Inductive kcall :=
| Kzalloc (site : nat) | Kfree (site : nat) | Kstrdup | AllocWq
| OfChild (n : list Z)                (** [of_get_child_by_name] *)
| OfFirmwareName                      (** property "firmware-name": 0 when present *)
| RequestFirmware | ReleaseFirmware | Kmemdup
| DmaAlloc (size : Z) | DmaAddr | DmaCopy (data : list Z)
| GpioGet (n : list Z) | GpioSet (v : Z) | Msleep (ms : Z)
| CreateFile | RemoveFile
| HidAllocate
| HidAdd (j vendor product ver : Z) | HidDestroy (j : Z)
| OfU32 (site : nat)                  (** keyboard properties *)
| QueueCreate (j : Z)                 (** [queue_work] of the creation of interface [j] *)
| QueuePacket (j : Z)
| InputReport (j : Z) (data : list Z)
| WaitReady (j : Z)
| Probe (site : nat).                 (** the lookups of the probe function *)

Section driver.
Context {Ev : Type} {C : ByteChannel Ev}.
(** the event of a kernel call, the kernel's answers, and the packets on the
    command channel that arrive for an interface while a command waits *)
Context (kev : kcall → Ev) (k_ans : list Ev → kcall → Z).
Context (acks : list Ev → Z → list (dchid_hdr * list Z)).

Definition H (A : Type) : Type := dockchannel_hid → TR Ev (result fault (A * dockchannel_hid)).

#[global] Instance H_ret : MRet H := λ A a d t, (Ok (a, d), t).
#[global] Instance H_bind : MBind H := λ A B k m d t,
  match m d t with
  | (Ok (a, d'), t') => k a d' t'
  | (Err e, t') => (Err e, t')
  end.

Definition crash {A} (e : fault) : H A := λ d t, (Err e, t).
Definition get_hid : H dockchannel_hid := λ d t, (Ok (d, d), t).
Definition modify (f : dockchannel_hid → dockchannel_hid) : H unit := λ d t, (Ok (tt, f d), t).
Definition liftH {A} (m : TR Ev A) : H A := λ d t, let '(a, t') := m t in (Ok (a, d), t').
Definition kern (k : kcall) : H Z := λ d t, (Ok (k_ans t k, d), t ++ [kev k]).
(** the interface behind a pointer *)
Definition iface_ptr (j : Z) : H dchid_iface :=
  d ← get_hid;
  match iface_at j d with Some i => mret i | None => crash NullDeref end.
Definition modify_iface (j : Z) (f : dchid_iface → dchid_iface) : H unit :=
  i ← iface_ptr j;
  modify (set_iface j (f i)).

(** ** Transmission *)

(** One [dockchannel_send] and the early return on an error. *)
Definition send_or (bytes : list Z) (k : TR Ev (option Z)) : TR Ev (option Z) :=
  r ← ch_send bytes;
  match r with
  | None => mret None
  | Some ret => if ret <? 0 then mret (Some ret) else k
  end.

Definition dchid_send (idx seq flags : Z) (msg : list Z) : TR Ev (option Z) :=
  let size := length msg in
  let wsize := (size / 4 * 4)%nat in
  let tsize := (size - wsize)%nat in
  let h := hdr_bytes (Hdr 8 DCHID_CHANNEL_CMD
                        (u16 (Z.of_nat ((size + 3) / 4 * 4) + SUBHDR_SIZE)) seq (u8 idx) 0) ++
           sub_bytes (SubHdr (u8 flags) 0 (u16 (Z.of_nat size)) 0) in
  send_or h (
  let checksum := u32 (0xffffffff - dchid_checksum h) in
  send_or (take wsize msg) (
  let checksum := u32 (checksum - dchid_checksum (take wsize msg)) in
  let last checksum := send_or (put_le32 checksum) (mret (Some 0)) in
  if Nat.eqb tsize 0 then last checksum
  else
    let tail := take 4 (drop wsize msg ++ [0; 0; 0; 0]) in
    send_or tail (last (u32 (checksum - dchid_checksum tail))))).

(** ** Commands *)

(** The command set up, the wait that succeeded, and the label [done]. *)
Definition cmd_begin (flags report : Z) (buf : option (list Z)) (size : Z) (c : cmd_state)
    : cmd_state :=
  CmdState (tx_seq c) flags report (retcode c) buf size 0.
Definition cmd_waited (c : cmd_state) : cmd_state :=
  CmdState (tx_seq c) (out_flags c) (out_report c) (retcode c) (resp_buf c) (resp_size c)
    (out_complete c - 1).
Definition cmd_end (c : cmd_state) : cmd_state :=
  CmdState (u8 (tx_seq c + 1)) 0 (-1) (retcode c) None 0 (out_complete c).

(** The wait: packets for the interface are handled meanwhile, and it succeeds when
    one of them completed the command. *)
Definition take_acks (j : Z) : H (list (dchid_hdr * list Z)) := λ d t, (Ok (acks t j, d), t).
Definition cmd_wait (j : Z) : H Z :=
  l ← take_acks j;
  modify_iface j (with_cmd (λ c, fold_left (λ c '(h, p), dchid_handle_ack c h p) l c));;
  i ← iface_ptr j;
  if out_complete (cmd i) =? 0 then mret (- ETIMEDOUT)
  else
    modify_iface j (with_cmd cmd_waited);;
    mret (if negb (retcode (cmd i) =? 0) then - EIO else resp_size (cmd i)).

(** [dchid_cmd] on the interface in slot [j]: the return value and the response
    buffer. *)
Definition dchid_cmd (j type req : Z) (data : list Z) (buf : option (list Z)) (size : Z)
    : H (Z * option (list Z)) :=
  match data with
  | [] => crash OverRead                      (* int report_id = *(u8 * )data *)
  | report_id :: _ =>
      i ← iface_ptr j;
      let flags := Z.lor (FIELD_PREP FLAGS_GROUP type) (FIELD_PREP FLAGS_REQ req) in
      modify_iface j (with_cmd (cmd_begin flags report_id buf size));;
      r ← liftH (dchid_send (index i) (tx_seq (cmd i)) flags data);
      ret ← (if match r with Some r => r <? 0 | None => true end
             then mret (default (- EIO) r)
             else cmd_wait j);
      i ← iface_ptr j;
      let buf := resp_buf (cmd i) in
      modify_iface j (with_cmd cmd_end);;
      mret (ret, buf)
  end.

(** ** Reception *)

(** A report handed to the work queue of an interface: the [struct dchid_work]. *)
Record packet := Packet { p_hdr : dchid_hdr; p_data : list Z }.

(** [dockchannel_await(dc, dchid_handle_packet, dchid, sizeof(hdr))]. *)
Definition rearm : H unit := modify (λ d, with_dc (dockchannel_await 8 (dc d)).2 d).

Definition checksum_ok (raw body : list Z) : bool :=
  u32 (dchid_checksum raw + dchid_checksum body) =? 0xffffffff.

(** From the checksum on; [raw] is the header as received, the body is at the start
    of [pkt_buf].  An interface number of 16 and more is logged and used all the
    same. *)
Definition handle_body (raw : list Z) : H (option (Z * packet)) :=
  d ← get_hid;
  let h := hdr_of raw in
  let body := take (Z.to_nat (hdr_length h + 4)) (pkt_buf d) in
  if negb (checksum_ok raw body) then rearm;; mret None
  else match ifaces d !! Z.to_nat (hdr_iface h) with
  | None => crash (BadIndex (hdr_iface h))
  | Some None => rearm;; mret None
  | Some (Some i) =>
      if hdr_channel h =? DCHID_CHANNEL_CMD then
        modify_iface (hdr_iface h) (with_cmd (λ c, dchid_handle_ack c h (pkt_buf d)));;
        rearm;; mret None
      else
        work ← kern (Kzalloc 0);
        if work =? 0 then mret None
        else
          kern (QueuePacket (hdr_iface h));;
          rearm;;
          mret (Some (hdr_iface h, Packet h (take (Z.to_nat (hdr_length h)) (pkt_buf d))))
  end.

Definition dchid_handle_packet : H (option (Z * packet)) :=
  '(ret, raw) ← liftH (ch_recv 8);
  if negb (bool_decide (ret = Some 8)) then mret None
  else if negb (hdr_len (hdr_of raw) =? 8) then rearm;; mret None
  else
    let n := hdr_length (hdr_of raw) + 4 in
    '(ret, got) ← liftH (ch_recv (Z.to_nat n));
    modify (λ d, with_pkt_buf (got ++ drop (length got) (pkt_buf d)) d);;
    if negb (bool_decide (ret = Some n)) then rearm;; mret None
    else handle_body raw.
End driver.

(** ** Lemmas: the checksum *)

(** The sum of the little-endian words of a block. *)
Fixpoint wsum (l : list Z) : Z :=
  match l with
  | b0 :: b1 :: b2 :: b3 :: rest => get_le32 b0 b1 b2 b3 + wsum rest
  | _ => 0
  end.

Lemma wsum_short l : (length l < 4)%nat → wsum l = 0.
Proof. destruct l as [|? [|? [|? [|? ?]]]]; simpl; done || lia. Qed.

Lemma checksum_loop_wsum l : ∀ s, 0 ≤ s < 2 ^ 32 → checksum_loop s l = u32 (s + wsum l).
Proof.
  induction l as [l Hl|a b c d l IH] using list_ind4; intros s Hs.
  - rewrite wsum_short, Z.add_0_r, u32_small by done.
    by destruct l as [|? [|? [|? [|? ?]]]]; simpl in *; try lia.
  - cbn [checksum_loop wsum]. rewrite IH by apply u32_range. unfold u32.
    rewrite Zplus_mod_idemp_l. f_equal. lia.
Qed.

Lemma checksum_wsum l : dchid_checksum l = u32 (wsum l).
Proof. unfold dchid_checksum. by rewrite checksum_loop_wsum. Qed.

Lemma wsum_app l1 l2 : Nat.divide 4 (length l1) → wsum (l1 ++ l2) = wsum l1 + wsum l2.
Proof.
  induction l1 as [l Hl|a b c d l IH] using list_ind4; intros [k Hk].
  - assert (length l = 0)%nat by lia. by destruct l.
  - cbn [app wsum]. rewrite IH; [lia|]. exists (k - 1)%nat. simpl length in Hk. lia.
Qed.

Lemma wsum_word v : 0 ≤ v < 2 ^ 32 → wsum (put_le32 v) = v.
Proof. intros. unfold put_le32. cbn [wsum]. rewrite get_put_le32 by done. lia. Qed.

Lemma wsum_four w w' :
  length w = 4%nat → length w' = 4%nat → Forall is_byte w → Forall is_byte w' →
  u32 (wsum w) = u32 (wsum w') → w = w'.
Proof.
  intros L L' B B' E.
  destruct w as [|a [|b [|c [|d [|]]]]]; try done.
  destruct w' as [|a' [|b' [|c' [|d' [|]]]]]; try done.
  rewrite !List.Forall_cons_iff in B, B'. cbn [wsum] in E. unfold is_byte, get_le32 in *.
  rewrite !u32_small in E by lia. repeat f_equal; lia.
Qed.

(** ** Lemmas: the layout *)

Lemma le16_put v : 0 ≤ v < 2 ^ 16 → u8 v + u8 (Z.shiftr v 8) * 2 ^ 8 = v.
Proof.
  intros. unfold u8. rewrite !Z.shiftr_div_pow2 by lia. Z.to_euclidean_division_equations; lia.
Qed.

Lemma put_le16_bytes v : Forall is_byte (put_le16 v).
Proof. repeat apply List.Forall_cons; try apply List.Forall_nil; apply u8_range. Qed.

Lemma hdr_bytes_bytes h : Forall is_byte (hdr_bytes h).
Proof.
  unfold hdr_bytes, put_le16. simpl. repeat apply List.Forall_cons; try apply List.Forall_nil; apply u8_range.
Qed.
Lemma sub_bytes_bytes s : Forall is_byte (sub_bytes s).
Proof.
  unfold sub_bytes, put_le16, put_le32. simpl.
  repeat apply List.Forall_cons; try apply List.Forall_nil; apply u8_range.
Qed.

Record hdr_ok (h : dchid_hdr) : Prop := {
  ho_len : is_byte (hdr_len h);
  ho_channel : is_byte (hdr_channel h);
  ho_length : 0 ≤ hdr_length h < 2 ^ 16;
  ho_seq : is_byte (hdr_seq h);
  ho_iface : is_byte (hdr_iface h);
  ho_pad : 0 ≤ hdr_pad h < 2 ^ 16
}.

Lemma hdr_of_bytes h l : hdr_ok h → hdr_of (hdr_bytes h ++ l) = h.
Proof.
  intros [? ? ? ? ? ?]. unfold hdr_of, hdr_bytes, le16_at, byte_at, put_le16. simpl.
  rewrite !le16_put, !u8_small by done. by destruct h.
Qed.

Lemma sub_of_bytes f n r l :
  is_byte f → 0 ≤ n < 2 ^ 16 → 0 ≤ r < 2 ^ 32 →
  sub_of (sub_bytes (SubHdr f 0 n r) ++ l) = SubHdr f 0 n r.
Proof.
  intros. unfold sub_of, sub_bytes, le16_at, le32_at, byte_at, put_le16, put_le32. simpl.
  by rewrite !le16_put, get_put_le32, !u8_small by done.
Qed.

Lemma byte_at_range l i : Forall is_byte l → is_byte (byte_at l i).
Proof.
  intros H. unfold byte_at. destruct (nth_in_or_default i l 0) as [Hi| ->].
  - rewrite List.Forall_forall in H. by apply H.
  - unfold is_byte. lia.
Qed.

Lemma hdr_of_ok l : Forall is_byte l → hdr_ok (hdr_of l).
Proof.
  intros H. unfold hdr_of, le16_at. split; simpl; try by apply byte_at_range.
  - pose proof (byte_at_range l 2 H). pose proof (byte_at_range l 3 H). unfold is_byte in *. lia.
  - pose proof (byte_at_range l 6 H). pose proof (byte_at_range l 7 H). unfold is_byte in *. lia.
Qed.

(** ** Lemmas: the monad *)

Lemma H_bind_eq {Ev A B} (m : H A) (k : A → H B) d (t : list Ev) :
  (m ≫= k) d t =
  match m d t with (Ok (a, d'), t') => k a d' t' | (Err e, t') => (Err e, t') end.
Proof. done. Qed.

Lemma H_ret_eq {Ev A} (a : A) d (t : list Ev) : (mret a : H A) d t = (Ok (a, d), t).
Proof. done. Qed.

(** Runs the straight-line part of a driver computation. *)
Ltac hstep :=
  rewrite ?H_bind_eq; unfold get_hid, modify, kern, crash, rearm, mret, H_ret;
  cbv beta iota zeta.

Lemma iface_ptr_some {Ev} j d i (t : list Ev) :
  iface_at j d = Some i → iface_ptr j d t = (Ok (i, d), t).
Proof. intros E. unfold iface_ptr. hstep. by rewrite E. Qed.

Lemma modify_iface_some {Ev} j f d i (t : list Ev) :
  iface_at j d = Some i → modify_iface j f d t = (Ok (tt, set_iface j (f i) d), t).
Proof. intros E. unfold modify_iface. hstep. by rewrite (iface_ptr_some j d i). Qed.

Lemma iface_at_lt j d i : iface_at j d = Some i → (Z.to_nat j < length (ifaces d))%nat.
Proof.
  unfold iface_at. destruct (ifaces d !! Z.to_nat j) eqn:E; [|done]. intros _. by eapply lookup_lt_Some.
Qed.

Lemma iface_at_set j d i i' : iface_at j d = Some i → iface_at j (set_iface j i' d) = Some i'.
Proof.
  intros E. pose proof (iface_at_lt j d i E). unfold iface_at, set_iface, with_ifaces. simpl.
  by rewrite list_lookup_insert_eq.
Qed.

Lemma set_set_iface j i i' d : set_iface j i (set_iface j i' d) = set_iface j i d.
Proof. unfold set_iface, with_ifaces. simpl. by rewrite list_insert_insert_eq. Qed.

(** ** The wire format *)

(** A message padded to words with zeroes. *)
Definition padded (msg : list Z) : list Z :=
  msg ++ replicate ((length msg + 3) / 4 * 4 - length msg) 0.

Definition frame_hdr (idx seq : Z) (msg : list Z) : dchid_hdr :=
  Hdr 8 DCHID_CHANNEL_CMD (Z.of_nat (length (padded msg)) + SUBHDR_SIZE) seq idx 0.
Definition frame_body (flags : Z) (msg : list Z) : list Z :=
  sub_bytes (SubHdr flags 0 (Z.of_nat (length msg)) 0) ++ padded msg.

(** What a message looks like on the wire: header, sub-header, padded message, and
    the word that makes the sum of all words [0xffffffff]. *)
Definition frame (idx seq flags : Z) (msg : list Z) : list Z :=
  let b := hdr_bytes (frame_hdr idx seq msg) ++ frame_body flags msg in
  b ++ put_le32 (u32 (0xffffffff - wsum b)).

Lemma round_up_bounds n :
  (n ≤ (n + 3) / 4 * 4 < n + 4)%nat ∧ Nat.divide 4 ((n + 3) / 4 * 4).
Proof.
  pose proof (Nat.div_mod_eq (n + 3) 4). pose proof (Nat.mod_upper_bound (n + 3) 4).
  split; [lia|]. by exists ((n + 3) / 4)%nat.
Qed.

Lemma length_padded msg : length (padded msg) = ((length msg + 3) / 4 * 4)%nat.
Proof.
  unfold padded. rewrite length_app, length_replicate.
  pose proof (round_up_bounds (length msg)). lia.
Qed.

Lemma padded_split msg :
  let wsize := (length msg / 4 * 4)%nat in
  padded msg = take wsize msg ++
    (if Nat.eqb (length msg - wsize) 0 then [] else take 4 (drop wsize msg ++ [0; 0; 0; 0])).
Proof.
  cbv zeta. set (n := length msg). pose proof (Nat.div_mod_eq n 4) as E.
  pose proof (Nat.mod_upper_bound n 4 ltac:(lia)) as Hm.
  pose proof (Nat.div_mod_eq (n + 3) 4) as E3.
  pose proof (Nat.mod_upper_bound (n + 3) 4 ltac:(lia)) as Hm3.
  unfold padded. fold n. destruct (Nat.eqb_spec (n - n / 4 * 4) 0) as [H0|H0].
  - rewrite take_ge by (fold n; lia). replace ((n + 3) / 4 * 4 - n)%nat with 0%nat by lia. done.
  - rewrite <- (take_drop (n / 4 * 4) msg) at 1. rewrite <- app_assoc. f_equal.
    rewrite take_app, (take_ge (drop _ _)) by (rewrite length_drop; fold n; lia).
    f_equal. rewrite length_drop. fold n.
    assert ((n + 3) / 4 * 4 - n = 4 - (n - n / 4 * 4))%nat as -> by lia.
    set (r := (n - n / 4 * 4)%nat) in *. assert (0 < r < 4)%nat as Hr by lia. clearbody r.
    destruct r as [|[|[|[|]]]]; done || lia.
Qed.

Lemma padded_bytes msg : Forall is_byte msg → Forall is_byte (padded msg).
Proof.
  intros. apply Forall_app. split; [done|]. apply Forall_replicate. unfold is_byte. lia.
Qed.

Section frame.
Context (idx seq flags : Z) (msg : list Z).
Hypothesis Hidx : is_byte idx.
Hypothesis Hseq : is_byte seq.
Hypothesis Hflags : is_byte flags.
Hypothesis Hmsg : Forall is_byte msg.
Hypothesis Hlen : Z.of_nat (length msg) ≤ 65524.

Lemma length_padded_bound : Z.of_nat (length (padded msg)) ≤ 65524 ∧ Nat.divide 4 (length (padded msg)).
Proof.
  rewrite length_padded. pose proof (round_up_bounds (length msg)) as [? [k Hk]].
  split; [|by exists k]. lia.
Qed.

Lemma frame_hdr_ok : hdr_ok (frame_hdr idx seq msg).
Proof.
  destruct length_padded_bound as [? _]. unfold frame_hdr.
  split; simpl; unfold is_byte, SUBHDR_SIZE, DCHID_CHANNEL_CMD; try lia; done.
Qed.

Lemma frame_body_bytes : Forall is_byte (frame_body flags msg).
Proof. apply Forall_app. split; [apply sub_bytes_bytes|by apply padded_bytes]. Qed.

Lemma length_frame_body : length (frame_body flags msg) = (8 + length (padded msg))%nat.
Proof. unfold frame_body. by rewrite length_app. Qed.

Lemma frame_body_aligned : Nat.divide 4 (length (frame_body flags msg)).
Proof.
  rewrite length_frame_body. destruct length_padded_bound as [_ [k Hk]].
  exists (k + 2)%nat. lia.
Qed.

(** The frame is as long as its header announces. *)
Lemma length_frame :
  length (frame idx seq flags msg) = (8 + Z.to_nat (hdr_length (frame_hdr idx seq msg) + 4))%nat.
Proof.
  unfold frame. rewrite !length_app, length_frame_body. unfold frame_hdr, SUBHDR_SIZE. simpl. lia.
Qed.

(** Header and rest of the frame. *)
Definition frame_rest : list Z :=
  frame_body flags msg ++
  put_le32 (u32 (0xffffffff - wsum (hdr_bytes (frame_hdr idx seq msg) ++ frame_body flags msg))).

Lemma frame_split : frame idx seq flags msg = hdr_bytes (frame_hdr idx seq msg) ++ frame_rest.
Proof. unfold frame, frame_rest. by rewrite <- app_assoc. Qed.

Lemma frame_checksum : checksum_ok (hdr_bytes (frame_hdr idx seq msg)) frame_rest = true.
Proof.
  unfold frame_rest. set (hb := hdr_bytes _). set (fb := frame_body flags msg). set (v := u32 _).
  unfold checksum_ok. rewrite !checksum_wsum.
  assert (Nat.divide 4 (length hb)) as Hh by by exists 2%nat.
  pose proof frame_body_aligned as Hf. fold fb in Hf.
  rewrite (wsum_app fb), wsum_word by (done || apply u32_range).
  apply Z.eqb_eq. unfold v. rewrite wsum_app by done. unfold u32.
  rewrite Zplus_mod_idemp_r, Zplus_mod_idemp_l, Z.add_assoc, Zplus_mod_idemp_r.
  match goal with |- ?x mod _ = _ => replace x with 0xffffffff by lia end. done.
Qed.

(** What a receiver finds in the rest of the frame. *)
Lemma frame_data rest :
  sub_of (frame_rest ++ rest) = SubHdr flags 0 (Z.of_nat (length msg)) 0 ∧
  take (length msg) (drop 8 (frame_rest ++ rest)) = msg.
Proof.
  unfold frame_rest, frame_body. rewrite <- !app_assoc. split.
  - apply sub_of_bytes; [done|lia|lia].
  - rewrite drop_app_length' by done. unfold padded. rewrite <- app_assoc. by rewrite take_app_length.
Qed.
End frame.

(** ** Transmission puts the frame on the wire *)

Section send.
Context {Ev : Type} {C : ByteChannel Ev} {L : ByteChannelLaws C}.

(** The computation returns 0 after putting [w] on the wire, or a negative error
    after a prefix of it. *)
Definition transmits (m : TR Ev (option Z)) (w : list Z) : Prop :=
  ∀ t, ∃ ret evs, m t = (Some ret, t ++ evs) ∧
    ((ret = 0 ∧ ch_sent evs = w) ∨ (ret < 0 ∧ ch_sent evs `prefix_of` w)).

Lemma send_or_transmits bytes k w :
  Forall is_byte bytes → transmits k w → transmits (send_or bytes k) (bytes ++ w).
Proof.
  intros Hb Hk t. unfold send_or. rewrite TR_bind_eq.
  destruct (ch_send_law bytes t Hb) as (r & e1 & -> & [[-> E]|[Hr E]]); cbn [fst snd].
  - destruct (Z.ltb_spec (Z.of_nat (length bytes)) 0); [lia|].
    destruct (Hk (t ++ e1)) as (ret & e2 & -> & H). exists ret, (e1 ++ e2).
    rewrite ch_sent_app, E, app_assoc. split; [done|].
    destruct H as [[-> ->]|[Hr H]]; [by left|right]. split; [done|]. by apply prefix_app.
  - destruct (Z.ltb_spec r 0); [|lia]. exists r, e1. split; [done|]. right. split; [done|].
    etrans; [done|]. by apply prefix_app_r.
Qed.

Lemma send_last_transmits v :
  transmits (send_or (put_le32 v) (mret (Some 0))) (put_le32 v).
Proof.
  rewrite <- (app_nil_r (put_le32 v)) at 2. apply send_or_transmits; [apply put_le32_bytes|].
  intros t. exists 0, []. rewrite app_nil_r. split; [done|]. left. by rewrite ch_sent_nil.
Qed.

(** The running checksum of the code is the one of the frame. *)
Lemma checksum_sub a b : u32 (a - u32 b) = u32 (a - b).
Proof. unfold u32. apply Zminus_mod_idemp_r. Qed.
Lemma u32_sub a b : u32 (u32 a - b) = u32 (a - b).
Proof. unfold u32. apply Zminus_mod_idemp_l. Qed.

Lemma send_transmits idx seq flags msg :
  is_byte idx → is_byte seq → is_byte flags → Forall is_byte msg → Z.of_nat (length msg) ≤ 65524 →
  transmits (dchid_send idx seq flags msg) (frame idx seq flags msg).
Proof.
  intros Hi Hs Hf Hm Hl. pose proof (length_padded_bound msg Hl) as [Hp _]. rewrite length_padded in Hp.
  unfold dchid_send. rewrite !(u16_small), !u8_small by (done || unfold SUBHDR_SIZE; lia).
  rewrite <- length_padded. fold (frame_hdr idx seq msg).
  set (hb := hdr_bytes (frame_hdr idx seq msg)). set (sb := sub_bytes _).
  assert (frame idx seq flags msg = (hb ++ sb) ++ padded msg ++
            put_le32 (u32 (0xffffffff - wsum (hb ++ sb) - wsum (padded msg)))) as ->.
  { unfold frame, frame_body. fold hb sb. rewrite !app_assoc, <- !(app_assoc hb).
    rewrite (wsum_app hb) by by exists 2%nat. rewrite (wsum_app sb (padded msg)) by by exists 2%nat.
    rewrite (wsum_app hb sb) by by exists 2%nat. do 4 f_equal. lia. }
  apply send_or_transmits; [apply Forall_app; split; [apply hdr_bytes_bytes|apply sub_bytes_bytes]|].
  rewrite (padded_split msg). set (w := (length msg / 4 * 4)%nat).
  assert (Nat.divide 4 (length (take w msg))) as Hw.
  { exists (length msg / 4)%nat. rewrite length_take. pose proof (Nat.div_mod_eq (length msg) 4).
    unfold w. lia. }
  rewrite (wsum_app (take w msg)) by done. rewrite <- (app_assoc (take w msg)).
  apply send_or_transmits; [by apply Forall_take|]. rewrite !checksum_wsum, !checksum_sub, u32_sub.
  destruct (length msg - w =? 0)%nat.
  - replace (wsum []) with 0 by done. rewrite Z.add_0_r. apply send_last_transmits.
  - set (tail := take 4 _). apply send_or_transmits.
    { apply Forall_take, Forall_app. split; [by apply Forall_drop|].
      repeat apply List.Forall_cons; try apply List.Forall_nil; unfold is_byte; lia. }
    rewrite ?checksum_sub, ?u32_sub.
    replace (0xffffffff - wsum (hb ++ sb) - wsum (take w msg) - wsum tail) with
      (0xffffffff - wsum (hb ++ sb) - (wsum (take w msg) + wsum tail)) by lia.
    apply send_last_transmits.
Qed.
End send.

(** ** Reception *)

(** The shape of the driver's state: sixteen slots, each empty or holding the
    interface of that number, and a packet buffer of the declared size. *)
Record hid_wf (d : dockchannel_hid) : Prop := {
  wf_slots : length (ifaces d) = Z.to_nat MAX_INTERFACES;
  wf_index j i : ifaces d !! j = Some (Some i) → index i = Z.of_nat j;
  wf_seq j i : ifaces d !! j = Some (Some i) → is_byte (tx_seq (cmd i));
  wf_buf : Z.of_nat (length (pkt_buf d)) = MAX_PKT_SIZE
}.

Section recv.
Context {Ev : Type} {C : ByteChannel Ev} {L : ByteChannelLaws C}.
Context (kev : kcall → Ev) (k_ans : list Ev → kcall → Z).

(** A receive never times out. *)
Definition delivers : Prop := ∀ n t, (ch_recv n t).1.1 = Some (Z.of_nat n).

Lemma recv_delivers n t : delivers →
  ∃ evs, ch_recv n t = ((Some (Z.of_nat n), stream ch_src (ch_taken t) n), t ++ evs) ∧ ch_taken evs = n.
Proof.
  intros Hd. destruct (ch_recv_law n t) as (ret & got & evs & E & -> & H).
  specialize (Hd n t). rewrite E in Hd. injection Hd as ->. exists evs.
  destruct H as [[_ H]|[? _]]; [|lia]. by rewrite E, H.
Qed.

Lemma recv_bytes n t : Forall is_byte (ch_recv n t).1.2.
Proof.
  destruct (ch_recv_law n t) as (ret & got & evs & -> & -> & _). apply stream_bytes, ch_src_byte.
Qed.

(** The buffer after the body of a packet has been received. *)
Definition filled (got : list Z) (d : dockchannel_hid) : dockchannel_hid :=
  with_pkt_buf (got ++ drop (length got) (pkt_buf d)) d.

Lemma filled_wf got d :
  hid_wf d → Z.of_nat (length got) ≤ MAX_PKT_SIZE → hid_wf (filled got d).
Proof.
  intros [Hs Hi Hq Hb] Hg. split; try done. simpl. rewrite length_app, length_drop. lia.
Qed.

Lemma handle_packet_delivers d t raw n :
  delivers → raw = stream ch_src (ch_taken t) 8 → hdr_len (hdr_of raw) = 8 →
  n = Z.to_nat (hdr_length (hdr_of raw) + 4) →
  ∃ evs, ch_taken evs = (8 + n)%nat ∧
    dchid_handle_packet kev k_ans d t =
    handle_body kev k_ans raw (filled (stream ch_src (ch_taken t + 8) n) d) (t ++ evs).
Proof.
  intros Hd Hraw Hl Hn. unfold dchid_handle_packet. rewrite H_bind_eq. unfold liftH at 1.
  destruct (recv_delivers 8 t Hd) as (e1 & -> & T1). cbv beta iota zeta. rewrite <- Hraw.
  rewrite bool_decide_true by done. cbn [negb]. rewrite Hl. cbn [Z.eqb Pos.eqb negb].
  rewrite H_bind_eq. unfold liftH. rewrite <- Hn.
  destruct (recv_delivers n (t ++ e1) Hd) as (e2 & -> & T2). cbv beta iota zeta. hstep.
  assert (0 ≤ hdr_length (hdr_of raw)) as Hpos.
  { eapply ho_length, hdr_of_ok. rewrite Hraw. apply stream_bytes, ch_src_byte. }
  rewrite bool_decide_true by (rewrite Hn; f_equal; lia). cbn [negb].
  exists (e1 ++ e2). rewrite ch_taken_app, T1, T2, app_assoc. split; [done|].
  unfold filled. by rewrite ch_taken_app, T1.
Qed.

(** An acknowledgement that passes the checksum reaches its interface. *)
Lemma handle_body_ack raw d i t :
  let h := hdr_of raw in
  checksum_ok raw (take (Z.to_nat (hdr_length h + 4)) (pkt_buf d)) = true →
  iface_at (hdr_iface h) d = Some i → hdr_channel h = DCHID_CHANNEL_CMD →
  handle_body kev k_ans raw d t =
  (Ok (None, with_dc (dockchannel_await 8 (dc d)).2
               (set_iface (hdr_iface h) (with_cmd (λ c, dchid_handle_ack c h (pkt_buf d)) i) d)), t).
Proof.
  cbv zeta. intros Hck Hi Hch. unfold handle_body. hstep. rewrite Hck. cbn [negb].
  assert (ifaces d !! Z.to_nat (hdr_iface (hdr_of raw)) = Some (Some i)) as ->.
  { unfold iface_at in Hi. destruct (ifaces d !! _); [|done]. simpl in Hi. by subst. }
  rewrite Hch, Z.eqb_refl, H_bind_eq, (modify_iface_some _ _ _ i) by done. by hstep.
Qed.
End recv.

(** C36. The wire format round-trips: a message sent on one channel and received
    on another one that carries the same bytes is accepted; exactly its frame is
    taken from the stream, the acknowledgement handler of the interface it names
    sees the sender's sequence number, flags and length, and the payload is the
    message; the reception is armed again. *)
Theorem hid_roundtrip {Ev1 Ev2} (C1 : ByteChannel Ev1) (C2 : ByteChannel Ev2)
    kev k_ans idx seq flags msg t1 evs d i t2 :
  ByteChannelLaws C1 → ByteChannelLaws C2 → delivers (C := C2) → hid_wf d →
  0 ≤ idx < MAX_INTERFACES → is_byte seq → is_byte flags → Forall is_byte msg →
  Z.of_nat (length msg) ≤ 65524 →
  dchid_send (C := C1) idx seq flags msg t1 = (Some 0, t1 ++ evs) →
  stream (ch_src (ByteChannel := C2)) (ch_taken t2) (length (ch_sent evs)) = ch_sent evs →
  iface_at idx d = Some i →
  ∃ h data t3, dchid_handle_packet (C := C2) kev k_ans d t2 =
      (Ok (None, with_dc (dockchannel_await 8 (dc d)).2
                   (set_iface idx (with_cmd (λ c, dchid_handle_ack c h data) i) (with_pkt_buf data d))),
       t2 ++ t3) ∧
    ch_taken t3 = length (ch_sent evs) ∧
    hdr_seq h = seq ∧ sub_of data = SubHdr flags 0 (Z.of_nat (length msg)) 0 ∧
    Z.of_nat (length msg) + SUBHDR_SIZE ≤ hdr_length h ∧
    take (length msg) (drop 8 data) = msg.
Proof.
  intros L1 L2 Hdel Hwf Hidx Hseq Hfl Hmsg Hlen Hsend Hstr Hi.
  assert (is_byte idx) as Hib by (unfold is_byte, MAX_INTERFACES in *; lia).
  destruct (send_transmits idx seq flags msg Hib Hseq Hfl Hmsg Hlen t1) as (ret & e & E & Hw).
  rewrite Hsend in E. injection E as <- E. apply app_inv_head in E as <-.
  destruct Hw as [[_ Hw]|[? _]]; [|lia]. rewrite Hw in Hstr. rewrite Hw.
  set (h := frame_hdr idx seq msg). set (n := Z.to_nat (hdr_length h + 4)).
  pose proof (frame_hdr_ok idx seq msg Hib Hseq Hlen) as Hh. fold h in Hh.
  rewrite length_frame, stream_app, frame_split in Hstr. fold h n in Hstr.
  set (raw := stream ch_src (ch_taken t2) 8) in *. set (got := stream ch_src (ch_taken t2 + 8) n) in *.
  apply app_inj_1 in Hstr as [Eraw Egot]; [|apply length_stream].
  assert (hdr_of raw = h) as Hof by (rewrite Eraw, <- (app_nil_r (hdr_bytes h)); by apply hdr_of_bytes).
  destruct (handle_packet_delivers kev k_ans d t2 raw n Hdel eq_refl) as (t3 & T3 & ->); [by rewrite Hof..|].
  exists h, (got ++ drop (length got) (pkt_buf d)), t3.
  rewrite (handle_body_ack kev k_ans raw _ i); rewrite ?Hof; [|simpl; fold n|done|done].
  - rewrite length_frame. split; [done|]. split; [done|]. split; [done|]. rewrite Egot.
    destruct (frame_data idx seq flags msg Hfl Hlen (drop (length (frame_rest idx seq flags msg)) (pkt_buf d)))
      as [-> ->].
    split; [done|]. split; [|done]. unfold h, frame_hdr. simpl. rewrite length_padded.
    pose proof (round_up_bounds (length msg)). lia.
  - rewrite take_app_length' by (symmetry; apply length_stream). fold got. rewrite Eraw, Egot. by apply frame_checksum.
Qed.

(** ** Corruption *)

Lemma checksum_split raw body :
  length raw = 8%nat → checksum_ok raw body = (u32 (wsum (raw ++ body)) =? 0xffffffff).
Proof.
  intros Hr. unfold checksum_ok. rewrite !checksum_wsum, wsum_app by (rewrite Hr; by exists 2%nat).
  f_equal. unfold u32. by rewrite <- Z.add_mod.
Qed.

(** Two blocks that differ in one aligned word have different checksums. *)
Lemma wsum_one_word p w w' s :
  Nat.divide 4 (length p) → length w = 4%nat → length w' = 4%nat →
  Forall is_byte w → Forall is_byte w' →
  u32 (wsum (p ++ w ++ s)) = u32 (wsum (p ++ w' ++ s)) → w = w'.
Proof.
  intros Hp Hw Hw' Bw Bw' E. apply wsum_four; try done.
  rewrite !(wsum_app p), !wsum_app in E by (done || (rewrite ?Hw, ?Hw'; by exists 1%nat)).
  unfold u32 in *.
  assert (∀ x, (wsum p + (x + wsum s)) mod 2 ^ 32 = (x + (wsum p + wsum s)) mod 2 ^ 32) as C
    by (intros x; f_equal; lia).
  rewrite !C in E. set (k := wsum p + wsum s) in *. clearbody k.
  apply (f_equal (λ z, (z - k) mod 2 ^ 32)) in E. rewrite !Zminus_mod_idemp_l in E.
  by replace (wsum w + k - k) with (wsum w) in E by lia;
     replace (wsum w' + k - k) with (wsum w') in E by lia.
Qed.

(** A damaged packet has no effect: when one word of a valid packet, behind the
    one that holds the lengths, arrives changed, the packet is taken from the
    stream as a whole and dropped; apart from the receive buffer nothing changes,
    no handler runs, and the reception is armed again. *)
Theorem hid_rejects_corruption {Ev} (C : ByteChannel Ev) kev k_ans d t raw body p w w' s :
  ByteChannelLaws C → delivers →
  length raw = 8%nat → hdr_len (hdr_of raw) = 8 → checksum_ok raw body = true →
  Z.of_nat (length body) = hdr_length (hdr_of raw) + 4 →
  raw ++ body = p ++ w ++ s → Nat.divide 4 (length p) → (4 ≤ length p)%nat →
  length w = 4%nat → length w' = 4%nat → Forall is_byte w → w' ≠ w →
  stream ch_src (ch_taken t) (length (raw ++ body)) = p ++ w' ++ s →
  ∃ evs got, ch_taken evs = length (raw ++ body) ∧
    dchid_handle_packet kev k_ans d t =
    (Ok (None, with_dc (dockchannel_await 8 (dc d)).2 (filled got d)), t ++ evs).
Proof.
  intros L Hdel Hr Hl Hck Hlen Ef Hp Hp4 Hw Hw' Bw Hne Hstr.
  rewrite length_app, Hr, stream_app in Hstr.
  set (raw' := stream ch_src (ch_taken t) 8) in *.
  set (body' := stream ch_src (ch_taken t + 8) (length body)) in *.
  assert (length raw' = 8%nat) as Hr' by apply length_stream.
  assert (take 4 raw' = take 4 raw) as H4.
  { transitivity (take 4 p).
    - rewrite <- (take_app_le raw' body'), Hstr by lia. by apply take_app_le.
    - rewrite <- (take_app_le raw body), Ef by lia. symmetry. by apply take_app_le. }
  assert (hdr_len (hdr_of raw') = 8 ∧ hdr_length (hdr_of raw') = hdr_length (hdr_of raw)) as [Hl' Hlen'].
  { destruct raw as [|b0 [|b1 [|b2 [|b3 ?]]]]; try done. destruct raw' as [|c0 [|c1 [|c2 [|c3 ?]]]]; try done.
    simpl in H4. injection H4 as -> -> -> ->. by split. }
  destruct (handle_packet_delivers kev k_ans d t raw' (length body) Hdel eq_refl Hl') as (evs & T & ->).
  { rewrite Hlen'. lia. }
  exists evs, body'. rewrite length_app, Hr. split; [done|].
  unfold handle_body. hstep. fold body'.
  assert (take (Z.to_nat (hdr_length (hdr_of raw') + 4)) (pkt_buf (filled body' d)) = body') as ->.
  { unfold filled, with_pkt_buf. cbn [pkt_buf]. apply take_app_length'. rewrite Hlen'. unfold body'. rewrite length_stream. lia. }
  destruct (checksum_ok raw' body') eqn:Hck'; [|done].
  rewrite checksum_split, Z.eqb_eq in Hck, Hck' by done.
  rewrite Ef in Hck. rewrite Hstr in Hck'. exfalso. apply Hne, (wsum_one_word p w' w s); try done.
  - assert (Forall is_byte (p ++ w' ++ s)) as Hb.
    { rewrite <- Hstr. apply Forall_app. split; apply stream_bytes, ch_src_byte. }
    rewrite !Forall_app in Hb. tauto.
  - congruence.
Qed.

(** ** Commands *)

(** The acknowledgement of the command in flight. *)
Definition ack_matches (seq flags report : Z) (a : dchid_hdr * list Z) : bool :=
  let '(h, p) := a in
  let s := sub_of p in
  (sub_length s + SUBHDR_SIZE <=? hdr_length h) && (sub_flags s =? flags) && (1 <=? sub_length s)
  && (hdr_seq h =? seq) && (byte_at (drop 8 p) 0 =? report).

(** Its effect on the response buffer: the payload behind the report number, at
    most [size] bytes of it. *)
Definition respond (p : list Z) (size : Z) (b : list Z) : list Z :=
  let n := Z.to_nat (Z.min (sub_length (sub_of p) - 1) size) in
  take n (drop 9 p) ++ drop n b.

Definition ack_done (c : cmd_state) (p : list Z) : cmd_state :=
  CmdState (tx_seq c) (out_flags c) (-1) (sub_retcode (sub_of p))
    (if resp_size c =? 0 then resp_buf c else respond p (resp_size c) <$> resp_buf c)
    (sub_length (sub_of p)) (out_complete c + 1).

Lemma handle_ack_cases c h p :
  dchid_handle_ack c h p =
  if ack_matches (tx_seq c) (out_flags c) (out_report c) (h, p) then ack_done c p else c.
Proof.
  unfold dchid_handle_ack, ack_matches. cbv zeta.
  rewrite Z.gtb_ltb, Z.ltb_antisym. destruct (sub_length (sub_of p) + SUBHDR_SIZE <=? hdr_length h); [|done].
  cbn [negb andb]. destruct (sub_flags (sub_of p) =? out_flags c); [|done]. cbn [negb andb].
  rewrite Z.ltb_antisym. destruct (1 <=? sub_length (sub_of p)); [|done]. cbn [negb andb].
  rewrite (Z.eqb_sym (hdr_seq h)). destruct (tx_seq c =? hdr_seq h); [|done]. cbn [negb andb].
  rewrite (Z.eqb_sym _ (out_report c)). destruct (out_report c =? byte_at (drop 8 p) 0); [|done]. cbn [negb].
  unfold ack_done. f_equal. unfold respond. rewrite drop_drop. simpl.
  destruct (resp_size c =? 0), (resp_buf c); done.
Qed.

(** Without a command in flight nothing matches. *)
Lemma handle_ack_idle c h p :
  out_report c = -1 → Forall is_byte p → dchid_handle_ack c h p = c.
Proof.
  intros Ho Hp. rewrite handle_ack_cases. unfold ack_matches. rewrite Ho.
  pose proof (byte_at_range (drop 8 p) 0 (Forall_drop _ _ _ Hp)) as Hb. unfold is_byte in Hb.
  destruct (Z.eqb_spec (byte_at (drop 8 p) 0) (-1)); [lia|]. by rewrite andb_false_r.
Qed.

(** The packets that arrive while a command waits: the first that matches counts,
    the others have no effect. *)
Lemma fold_acks l : ∀ c,
  Forall (λ a, Forall is_byte a.2) l →
  fold_left (λ c '(h, p), dchid_handle_ack c h p) l c =
  match List.find (ack_matches (tx_seq c) (out_flags c) (out_report c)) l with
  | Some (_, p) => ack_done c p
  | None => c
  end.
Proof.
  induction l as [|[h p] l IH]; intros c Hl; [done|].
  apply List.Forall_cons_iff in Hl as [Hp Hl]. cbn [fold_left List.find].
  rewrite handle_ack_cases. destruct (ack_matches _ _ _ (h, p)); [|by apply IH].
  clear IH Hp h. assert (out_report (ack_done c p) = -1) as Ho by done.
  revert Ho. generalize (ack_done c p). clear c p. intros c Ho.
  induction Hl as [|[h p] l Hp _ IH]; [done|]. cbn [fold_left]. by rewrite handle_ack_idle.
Qed.

(** What an acknowledgement packet looks like: the buffer it was received in, and a
    sixteen-bit length. *)
Definition ack_ok (a : dchid_hdr * list Z) : Prop :=
  Forall is_byte a.2 ∧ Z.of_nat (length a.2) = MAX_PKT_SIZE ∧ hdr_length a.1 < 2 ^ 16.

Lemma respond_length seq flags report a size b :
  ack_ok a → ack_matches seq flags report a = true → Z.of_nat (length b) = size →
  length (respond a.2 size b) = length b.
Proof.
  destruct a as [h p]. intros (_ & Hp & Hh) Hm Hb. unfold ack_matches in Hm. boolprop. cbn [fst snd] in *.
  unfold respond, SUBHDR_SIZE, MAX_PKT_SIZE in *. rewrite length_app, length_take, !length_drop. lia.
Qed.

Section command.
Context {Ev : Type} {C : ByteChannel Ev} {L : ByteChannelLaws C}.
Context (acks : list Ev → Z → list (dchid_hdr * list Z)).

(** No command in flight. *)
Definition cmd_idle (c : cmd_state) : Prop :=
  out_flags c = 0 ∧ out_report c = -1 ∧ resp_buf c = None ∧ resp_size c = 0.

Definition cmd_flags (type req : Z) : Z :=
  Z.lor (FIELD_PREP FLAGS_GROUP type) (FIELD_PREP FLAGS_REQ req).

Lemma cmd_flags_byte type req : 0 ≤ type → 0 ≤ req → is_byte (cmd_flags type req).
Proof.
  intros. unfold cmd_flags, FLAGS_GROUP, FLAGS_REQ.
  pose proof (FIELD_PREP_range 7 6 type ltac:(lia) ltac:(done)).
  pose proof (FIELD_PREP_range 5 0 req ltac:(lia) ltac:(done)).
  split; [apply Z.lor_nonneg; lia|]. apply (bits_bound 8); [lia|apply Z.lor_nonneg; lia|].
  intros k Hk. rewrite Z.lor_spec, (testbit_above 8), (testbit_above 6) by (simpl in *; lia). done.
Qed.

(** The end of every command. *)
Lemma cmd_finish j (ret : Z) d i (t : list Ev) :
  iface_at j d = Some i →
  (i ← iface_ptr j;
   let buf := resp_buf (cmd i) in
   modify_iface j (with_cmd cmd_end);; mret (ret, buf)) d t =
  (Ok ((ret, resp_buf (cmd i)), set_iface j (with_cmd cmd_end i) d), t).
Proof.
  intros Hi. rewrite H_bind_eq, (iface_ptr_some j d i) by done. cbv zeta.
  by rewrite H_bind_eq, (modify_iface_some j _ d i) by done.
Qed.

(** A packet of the right kind ends the wait, the first one decides. *)
Lemma cmd_wait_eq j d i t :
  iface_at j d = Some i → out_complete (cmd i) = 0 → Forall (λ a, Forall is_byte a.2) (acks t j) →
  let c := cmd i in
  cmd_wait acks j d t =
  match List.find (ack_matches (tx_seq c) (out_flags c) (out_report c)) (acks t j) with
  | Some (_, p) =>
      (Ok (if sub_retcode (sub_of p) =? 0 then sub_length (sub_of p) else - EIO,
           set_iface j (with_cmd (λ c, cmd_waited (ack_done c p)) i) d), t)
  | None => (Ok (- ETIMEDOUT, set_iface j i d), t)
  end.
Proof.
  intros Hi H0 Hl c. unfold cmd_wait. rewrite H_bind_eq. unfold take_acks.
  rewrite H_bind_eq, (modify_iface_some j _ d i) by done.
  assert (with_cmd (λ c, fold_left (λ c '(h, p), dchid_handle_ack c h p) (acks t j) c) i =
          match List.find (ack_matches (tx_seq c) (out_flags c) (out_report c)) (acks t j) with
          | Some (_, p) => with_cmd (λ c, ack_done c p) i | None => i end) as ->.
  { unfold with_cmd at 1. rewrite fold_acks by done. fold c.
    destruct (List.find _ _) as [[h p]|]; [done|]. by destruct i. }
  destruct (List.find _ _) as [[h p]|].
  - set (i2 := with_cmd _ i). set (d2 := set_iface j i2 d).
    assert (iface_at j d2 = Some i2) as Hi2 by by apply (iface_at_set j d i).
    rewrite H_bind_eq, (iface_ptr_some j d2 i2) by done.
    assert ((out_complete (cmd i2) =? 0) = false) as ->.
    { change (out_complete (cmd i2)) with (out_complete (cmd i) + 1). by rewrite H0. }
    rewrite H_bind_eq, (modify_iface_some j _ d2 i2), H_ret_eq by done. unfold d2. rewrite set_set_iface.
    change (retcode (cmd i2)) with (sub_retcode (sub_of p)). change (resp_size (cmd i2)) with (sub_length (sub_of p)).
    by destruct (sub_retcode (sub_of p) =? 0).
  - rewrite H_bind_eq, (iface_ptr_some j _ i) by (by apply (iface_at_set j d i)).
    by rewrite H0.
Qed.

(** The command as one equation: its result is determined by the transmission and
    by the first matching packet. *)
Lemma cmd_equation j type req report rest buf size d i t r t1 :
  iface_at j d = Some i → Forall (λ a, Forall is_byte a.2) (acks t1 j) →
  let flags := cmd_flags type req in
  dchid_send (index i) (tx_seq (cmd i)) flags (report :: rest) t = (Some r, t1) →
  let hit := if r <? 0 then None
             else List.find (ack_matches (tx_seq (cmd i)) flags report) (acks t1 j) in
  ∃ c', dchid_cmd acks j type req (report :: rest) buf size d t =
    (Ok ((match hit with
          | Some (_, p) => if sub_retcode (sub_of p) =? 0 then sub_length (sub_of p) else - EIO
          | None => if r <? 0 then r else - ETIMEDOUT
          end,
          match hit with
          | Some (_, p) => if size =? 0 then buf else respond p size <$> buf
          | None => buf
          end),
         set_iface j (with_cmd (λ _, c') i) d), t1) ∧
    cmd_idle c' ∧ tx_seq c' = u8 (tx_seq (cmd i) + 1).
Proof.
  intros Hi Hacks flags Hs hit. unfold dchid_cmd.
  rewrite H_bind_eq, (iface_ptr_some j d i) by done. fold (cmd_flags type req). fold flags.
  rewrite H_bind_eq, (modify_iface_some j _ d i) by done. rewrite H_bind_eq. unfold liftH. rewrite Hs.
  set (i1 := with_cmd _ i). set (d1 := set_iface j i1 d).
  assert (iface_at j d1 = Some i1) as Hi1 by by apply (iface_at_set j d i).
  rewrite H_bind_eq. subst hit. destruct (Z.ltb_spec r 0) as [Hr|Hr].
  - rewrite H_ret_eq. cbv beta iota. rewrite (cmd_finish j _ d1 i1) by done.
    exists (cmd_end (cmd i1)). unfold d1. rewrite set_set_iface. by split.
  - rewrite (cmd_wait_eq j d1 i1) by done. cbv zeta.
    change (tx_seq (cmd i1)) with (tx_seq (cmd i)). change (out_flags (cmd i1)) with flags.
    change (out_report (cmd i1)) with report. unfold d1.
    destruct (List.find _ _) as [[h p]|]; rewrite set_set_iface.
    + set (i2 := with_cmd _ i1). rewrite (cmd_finish j _ _ i2) by (by apply (iface_at_set j d i)).
      rewrite set_set_iface. exists (cmd_end (cmd i2)). by split.
    + rewrite (cmd_finish j _ _ i1) by (by apply (iface_at_set j d i)).
      rewrite set_set_iface. exists (cmd_end (cmd i1)). by split.
Qed.
End command.


(** ** The receiver keeps running *)

(** The receive interrupt is enabled and a callback is registered. *)
Definition armed (d : dockchannel_hid) : Prop := dc_awaiting (dc d) = true ∧ dc_rx_depth (dc d) = 0.

(** The state in which the callback of a packet interrupt starts. *)
Definition irq_entry (avail : Z) (d : dockchannel_hid) : dockchannel_hid :=
  with_dc (dockchannel_rx_irq_thread avail (dockchannel_rx_irq (dc d)).2).2 d.

Lemma set_iface_wf j i i' d :
  hid_wf d → iface_at j d = Some i → index i' = index i → tx_seq (cmd i') = tx_seq (cmd i) →
  hid_wf (set_iface j i' d).
Proof.
  intros [Hs Hx Hq Hb] Hi Hix Hsq.
  assert (ifaces d !! Z.to_nat j = Some (Some i)) as Hslot.
  { unfold iface_at in Hi. destruct (ifaces d !! _); [|done]. simpl in Hi. by subst. }
  split; simpl; try done.
  - by rewrite length_insert.
  - intros k i2. rewrite list_lookup_insert_Some. intros [(<- & E & _)|[_ E]].
    + injection E as <-. rewrite Hix. by apply Hx.
    + by apply Hx.
  - intros k i2. rewrite list_lookup_insert_Some. intros [(<- & E & _)|[_ E]].
    + injection E as <-. rewrite Hsq. by eapply Hq.
    + by eapply Hq.
Qed.

Lemma with_dc_wf c d : hid_wf d → hid_wf (with_dc c d).
Proof. intros [? ? ? ?]. by split. Qed.

Lemma handle_ack_seq c h p : tx_seq (dchid_handle_ack c h p) = tx_seq c.
Proof. rewrite handle_ack_cases. by destruct (ack_matches _ _ _ _). Qed.

Section keeps.
Context {Ev : Type} {C : ByteChannel Ev} {L : ByteChannelLaws C}.
Context (kev : kcall → Ev) (k_ans : list Ev → kcall → Z).

(** What the callback leaves behind when it started with the channel idle. *)
Definition left_running (r : result fault (option (Z * packet) * dockchannel_hid)) : Prop :=
  match r with
  | Ok (w, d') => hid_wf d' ∧ armed d' ∧
      ∀ j p, w = Some (j, p) →
        is_Some (iface_at j d') ∧ Z.of_nat (length (p_data p)) = hdr_length (p_hdr p)
  | Err e => ∃ k, e = BadIndex k ∧ MAX_INTERFACES ≤ k
  end.

Lemma rearmed_running d w :
  hid_wf d → dc_rx_depth (dc d) = 1 →
  (∀ j p, w = Some (j, p) →
    is_Some (iface_at j d) ∧ Z.of_nat (length (p_data p)) = hdr_length (p_hdr p)) →
  left_running (Ok (w, with_dc (dockchannel_await 8 (dc d)).2 d)).
Proof.
  intros Hwf Hd Hw. split; [by apply with_dc_wf|]. split; [|exact Hw].
  split; [done|]. simpl. rewrite Hd. done.
Qed.

Lemma handle_body_running raw d t :
  Forall is_byte raw → hid_wf d → dc_rx_depth (dc d) = 1 → (∀ t s, k_ans t (Kzalloc s) ≠ 0) →
  left_running (handle_body kev k_ans raw d t).1.
Proof.
  intros Hraw Hwf Hd Hmem. pose proof (hdr_of_ok raw Hraw) as Hh. unfold handle_body. hstep.
  set (h := hdr_of raw) in *. destruct (checksum_ok _ _); cbn [negb]; [|by apply rearmed_running].
  destruct (ifaces d !! Z.to_nat (hdr_iface h)) as [[i|]|] eqn:Hs.
  - assert (iface_at (hdr_iface h) d = Some i) as Hi by (unfold iface_at; by rewrite Hs).
    destruct (hdr_channel h =? DCHID_CHANNEL_CMD).
    + rewrite H_bind_eq, (modify_iface_some _ _ _ i) by done. hstep. cbn [fst].
      apply rearmed_running; [|done|done]. eapply set_iface_wf; try done. apply handle_ack_seq.
    + hstep. destruct (Z.eqb_spec (k_ans t (Kzalloc 0)) 0) as [E|_]; [by apply Hmem in E|]. hstep. cbn [fst].
      apply rearmed_running; [done|done|]. intros j p [= <- <-]. split; [by exists i|]. simpl.
      pose proof (ho_length h Hh). pose proof (wf_buf d Hwf) as Hb. unfold MAX_PKT_SIZE in Hb.
      rewrite length_take. change (le16_at raw 2) with (hdr_length h). lia.
  - by apply rearmed_running.
  - cbn [fst]. exists (hdr_iface h). split; [done|]. apply lookup_ge_None in Hs.
    rewrite (wf_slots d Hwf) in Hs. pose proof (ho_iface h Hh) as Hr. unfold is_byte in Hr.
    unfold MAX_INTERFACES in *. lia.
Qed.
End keeps.

(** C37. The receiver keeps running: whatever bytes arrive, when a header can be
    read and memory is available, the packet callback leaves the state well formed
    and the channel armed for the next packet; what it queues carries as many
    bytes as its header says and belongs to an interface that exists, and the
    packet buffer is never overrun.  The only fault is an interface number of 16 or
    more. *)
Theorem hid_receiver_running {Ev} (C : ByteChannel Ev) kev k_ans d t avail :
  ByteChannelLaws C → hid_wf d → armed d →
  (ch_recv 8 t).1.1 = Some 8 → (∀ t s, k_ans t (Kzalloc s) ≠ 0) →
  left_running (dchid_handle_packet kev k_ans (irq_entry avail d) t).1.
Proof.
  intros L Hwf [Ha Hdep] Hhdr Hmem. unfold dchid_handle_packet. rewrite H_bind_eq. unfold liftH at 1.
  pose proof (recv_bytes 8 t) as Hraw. destruct (ch_recv 8 t) as [[ret raw] t1]. cbn [fst snd] in *.
  rewrite Hhdr. cbv beta iota. rewrite bool_decide_true by done. cbn [negb].
  set (d1 := irq_entry avail d).
  assert (hid_wf d1) as Hwf1 by by apply with_dc_wf.
  assert (dc_rx_depth (dc d1) = 1) as Hd1.
  { unfold d1, irq_entry, dockchannel_rx_irq. simpl. rewrite Ha. simpl. rewrite Hdep. done. }
  destruct (hdr_len (hdr_of raw) =? 8); cbn [negb]; [|hstep; by apply rearmed_running].
  set (n := Z.to_nat (hdr_length (hdr_of raw) + 4)).
  rewrite H_bind_eq. unfold liftH.
  destruct (ch_recv_law n t1) as (r & got & evs & -> & Hg & Hn). cbv beta iota.
  assert (hid_wf (filled got d1)) as Hwf2.
  { apply filled_wf; [done|]. rewrite Hg, length_stream.
    pose proof (ho_length _ (hdr_of_ok raw Hraw)). unfold MAX_PKT_SIZE. lia. }
  hstep. fold (filled got d1). destruct (bool_decide _); cbn [negb].
  - by apply handle_body_running.
  - hstep. by apply rearmed_running.
Qed.

(** ** Witnesses *)

Definition idle_cmd (seq : Z) : cmd_state := CmdState seq 0 (-1) 0 None 0 0.
Definition new_life : iface_life := Life false false false false false false None 0 false [] 0 0.
Definition comm_name : list Z := [99; 111; 109; 109].
Definition demo_iface (j seq : Z) : dchid_iface := Iface j (Some comm_name) false (idle_cmd seq) new_life.

(** A driver with its comm interface, waiting for packets. *)
Definition demo_hid : dockchannel_hid :=
  DcHid (Dockchannel 64 true 0) false (replicate 11 0) (replicate 64 0)
    (Some (demo_iface 0 5) :: replicate 15 None) (replicate (Z.to_nat MAX_PKT_SIZE) 0).

(** The DockChannel FIFO with the incoming bytes [l] and then zeroes, beside the
    kernel calls. *)
Definition demo_src (l : list Z) (k : nat) : Z := byte_at l k.
Definition demo_channel (l : list Z) : ByteChannel (event + kcall) :=
  sum_channel (dockchannel_channel (demo_wire (demo_src l)) 64 (demo_src l)).

Lemma demo_channel_laws l : Forall is_byte l → ByteChannelLaws (demo_channel l).
Proof. intros H. apply sum_channel_laws, demo_wire_laws. intros k. by apply byte_at_range. Qed.

Lemma demo_channel_delivers l : delivers (C := demo_channel l).
Proof.
  intros n t. simpl. unfold lift_left. pose proof (demo_wire_delivers (demo_src l) n (lefts t)) as E.
  destruct (dockchannel_recv _ _ _ _) as [r t1]. done.
Qed.

Lemma demo_slot j i : ifaces demo_hid !! j = Some (Some i) → j = 0%nat ∧ i = demo_iface 0 5.
Proof.
  destruct j as [|j]; [by intros [= <-]|].
  change (ifaces demo_hid !! S j) with (replicate 15 (@None dchid_iface) !! j).
  by intros [? _]%lookup_replicate.
Qed.

Lemma demo_hid_wf : hid_wf demo_hid.
Proof.
  split; [done| | |vm_compute; reflexivity]; intros j i [-> ->]%demo_slot; [done|].
  vm_compute. split; [discriminate|reflexivity].
Qed.

Lemma bytes_by_compute l : bool_decide (Forall is_byte l) = true → Forall is_byte l.
Proof. apply bool_decide_eq_true. Qed.

Definition demo_msg : list Z := [0xb4; 1; 7; 0; 9].
Definition demo_kans (t : list (event + kcall)) (k : kcall) : Z := 1.

(** What the sender has put on the wire. *)
Definition demo_sent : list (event + kcall) :=
  (dchid_send (C := demo_channel []) 0 5 0x80 demo_msg []).2.

Lemma hid_roundtrip_witness :
  let C2 := demo_channel (ch_sent (ByteChannel := demo_channel []) demo_sent) in
  ch_sent (ByteChannel := demo_channel []) demo_sent = frame 0 5 0x80 demo_msg ∧
  ∃ h data t3, dchid_handle_packet (C := C2) inr demo_kans demo_hid [] =
      (Ok (None, with_dc (dockchannel_await 8 (dc demo_hid)).2
                   (set_iface 0 (with_cmd (λ c, dchid_handle_ack c h data) (demo_iface 0 5))
                      (with_pkt_buf data demo_hid))), [] ++ t3) ∧
    ch_taken t3 = length (ch_sent (ByteChannel := demo_channel []) demo_sent) ∧
    hdr_seq h = 5 ∧ sub_of data = SubHdr 0x80 0 (Z.of_nat (length demo_msg)) 0 ∧
    Z.of_nat (length demo_msg) + SUBHDR_SIZE ≤ hdr_length h ∧
    take (length demo_msg) (drop 8 data) = demo_msg.
Proof.
  split; [vm_compute; reflexivity|].
  refine (hid_roundtrip (demo_channel []) (demo_channel (ch_sent (ByteChannel := demo_channel []) demo_sent))
    inr demo_kans 0 5 0x80 demo_msg [] demo_sent demo_hid (demo_iface 0 5) [] _ _ _ demo_hid_wf
    _ _ _ _ _ _ _ _).
  - apply demo_channel_laws. constructor.
  - apply demo_channel_laws, bytes_by_compute. vm_compute. reflexivity.
  - apply demo_channel_delivers.
  - vm_compute. split; [discriminate|reflexivity].
  - vm_compute. split; [discriminate|reflexivity].
  - vm_compute. split; [discriminate|reflexivity].
  - apply bytes_by_compute. vm_compute. reflexivity.
  - vm_compute. discriminate.
  - vm_compute. reflexivity.
  - vm_compute. reflexivity.
  - reflexivity.
Defined.

(** A packet with a valid checksum. *)
Definition mk_packet (h : dchid_hdr) (body : list Z) : list Z :=
  hdr_bytes h ++ body ++ put_le32 (u32 (0xffffffff - wsum (hdr_bytes h ++ body))).

Lemma hid_rejects_corruption_witness :
  let f := frame 0 5 0x80 demo_msg in
  let bad := take 16 f ++ [0xb4; 3; 7; 0] ++ drop 20 f in
  let C := demo_channel bad in
  f ≠ bad ∧
  ∃ evs got, ch_taken evs = length (take 8 f ++ drop 8 f) ∧
    dchid_handle_packet (C := C) inr demo_kans demo_hid [] =
    (Ok (None, with_dc (dockchannel_await 8 (dc demo_hid)).2 (filled got demo_hid)), [] ++ evs).
Proof.
  split; [vm_compute; discriminate|].
  refine (hid_rejects_corruption
    (demo_channel (take 16 (frame 0 5 0x80 demo_msg) ++ [0xb4; 3; 7; 0] ++ drop 20 (frame 0 5 0x80 demo_msg)))
    inr demo_kans demo_hid [] (take 8 (frame 0 5 0x80 demo_msg)) (drop 8 (frame 0 5 0x80 demo_msg))
    (take 16 (frame 0 5 0x80 demo_msg)) [0xb4; 1; 7; 0] [0xb4; 3; 7; 0] (drop 20 (frame 0 5 0x80 demo_msg))
    _ _ _ _ _ _ _ _ _ _ _ _ _ _).
  - apply demo_channel_laws, bytes_by_compute. vm_compute. reflexivity.
  - apply demo_channel_delivers.
  - vm_compute. reflexivity.
  - vm_compute. reflexivity.
  - vm_compute. reflexivity.
  - vm_compute. reflexivity.
  - vm_compute. reflexivity.
  - exists 4%nat. vm_compute. reflexivity.
  - vm_compute. lia.
  - reflexivity.
  - reflexivity.
  - apply bytes_by_compute. vm_compute. reflexivity.
  - discriminate.
  - vm_compute. reflexivity.
Defined.

(** A late acknowledgement of an earlier command, then the right one. *)
Definition demo_ack (seq : Z) : dchid_hdr * list Z :=
  (Hdr 8 DCHID_CHANNEL_CMD 12 seq 0 0,
   sub_bytes (SubHdr 0x81 0 4 0) ++ [0x10; 7; 8; 9] ++ replicate (Z.to_nat (MAX_PKT_SIZE - 12)) 0).
Definition demo_acks (t : list (event + kcall)) (j : Z) : list (dchid_hdr * list Z) :=
  [demo_ack 4; demo_ack 5].

#[local] Instance ack_ok_dec a : Decision (ack_ok a).
Proof. unfold ack_ok. apply _. Defined.


(** An input report for the comm interface. *)
Definition demo_report : list Z :=
  mk_packet (Hdr 8 DCHID_CHANNEL_REPORT 12 0 0 0) (sub_bytes (SubHdr 0 0 4 0) ++ [0xf1; 0; 0; 0]).

Lemma hid_receiver_running_witness :
  let r := dchid_handle_packet (C := demo_channel demo_report) inr demo_kans (irq_entry 8 demo_hid) [] in
  (match r.1 with Ok (Some (j, p), _) => Some (j, p_data p) | _ => None end) =
    Some (0, sub_bytes (SubHdr 0 0 4 0) ++ [0xf1; 0; 0; 0]) ∧
  left_running r.1.
Proof.
  split; [vm_compute; reflexivity|].
  refine (hid_receiver_running (demo_channel demo_report) inr demo_kans demo_hid [] 8 _ demo_hid_wf _ _ _).
  - apply demo_channel_laws, bytes_by_compute. vm_compute. reflexivity.
  - by split.
  - apply demo_channel_delivers.
  - intros t s. vm_compute. discriminate.
Defined.

(** ** What goes wrong *)

(** A packet for interface 16 with a valid checksum is only logged: the driver then
    uses what lies behind the table of interfaces as a pointer. *)
Theorem hid_bad_iface_used :
  (dchid_handle_packet (C := demo_channel (mk_packet (Hdr 8 DCHID_CHANNEL_REPORT 8 0 16 0) (replicate 8 0)))
     inr demo_kans demo_hid []).1 = Err (BadIndex 16).
Proof. vm_compute. reflexivity. Qed.

(** When no memory is left for a report the callback returns without arming the
    channel again: no further packet is received. *)
Theorem hid_oom_stops_reception :
  match (dchid_handle_packet (C := demo_channel demo_report) inr (λ _ _, 0) (irq_entry 8 demo_hid) []).1 with
  | Ok (w, d') => w = None ∧ dc_awaiting (dc d') = false ∧ dc_rx_depth (dc d') = 1
  | Err _ => False
  end.
Proof. vm_compute. done. Qed.
