(* ===== verification/HidIface.v ===== *)
(** * DockChannel HID transport: interfaces
    (drivers/hid/dockchannel-hid/dockchannel-hid.c of the asahi snapshot)

    The handlers that run on received reports, the life of an interface from its
    announcement to the registration of its HID device, firmware upload, GPIO
    requests, and the probe.  The kernel answers through an oracle on the
    history. *)

From Stdlib Require Import ZArith Lia Bool String Ascii.
From stdpp Require Import base numbers list option.
From S2P Require Import Prelude.
From S2P Require Import Channel.
From S2P Require Import Dockchannel.
From S2P Require Import HidPacket.

Local Open Scope list_scope.
Local Open Scope Z_scope.

Definition IFACE_COMM : Z := 0.
Definition EVENT_GPIO_CMD : Z := 0xa0.
Definition EVENT_INIT : Z := 0xf0.
Definition EVENT_READY : Z := 0xf1.
Definition INIT_HID_DESCRIPTOR : Z := 0.
Definition INIT_GPIO_REQUEST : Z := 1.
Definition INIT_TERMINATOR : Z := 2.
Definition INIT_PRODUCT_NAME : Z := 7.
Definition CMD_RESET_INTERFACE : Z := 0x40.
Definition CMD_SEND_FIRMWARE : Z := 0x95.
Definition CMD_ENABLE_INTERFACE : Z := 0xb4.
Definition CMD_ACK_GPIO_CMD : Z := 0xa1.
Definition MAX_GPIO_NAME : Z := 32.
Definition STM_REPORT_ID : Z := 0x10.
Definition STM_REPORT_SERIAL : Z := 0x11.
Definition FW_MAGIC : Z := 0x46444948.
Definition FW_VER : Z := 1.
(** sizes of the packed structures *)
Definition INIT_HDR_SIZE : Z := 22.
Definition GPIO_REQUEST_SIZE : Z := 36.
Definition GPIO_CMD_SIZE : Z := 5.
Definition STM_ID_SIZE : Z := 11.
Definition FW_HEADER_SIZE : Z := 20.
Definition EINPROGRESS : Z := 115.
(** enum hid_class_request of linux/hid.h *)
Definition HID_REQ_GET_REPORT : Z := 1.
Definition HID_REQ_SET_REPORT : Z := 9.

(** C strings as the codes of their characters. *)
Definition str (s : string) : list Z := (λ a, Z.of_nat (nat_of_ascii a)) <$> list_ascii_of_string s.
Definition eq_str (l : list Z) (s : string) : bool := bool_decide (l = str s).

(** The string at the start of a block of memory, [None] when it is not terminated
    inside the block. *)
Fixpoint cstr (mem : list Z) : option (list Z) :=
  match mem with
  | [] => None
  | c :: rest => if c =? 0 then Some [] else cons c <$> cstr rest
  end.

(** [strscpy(dst, src, n)]: at most [n - 1] characters. *)
Fixpoint strscpy (n : nat) (src : list Z) : list Z :=
  match n, src with
  | S (S n'), c :: rest => if c =? 0 then [] else c :: strscpy (S n') rest
  | _, _ => []
  end.

Definition put_le64 (v : Z) : list Z := put_le32 (u32 v) ++ put_le32 (u32 (Z.shiftr v 32)).

Definition set_creating (b : bool) (l : iface_life) : iface_life :=
  Life b (deferred l) (starting l) (opened l) (ready l) (has_hid l) (hid_desc l) (hid_desc_len l)
    (gpio l) (gpio_name l) (gpio_id l) (keyboard_layout_id l).
Definition set_deferred (b : bool) (l : iface_life) : iface_life :=
  Life (creating l) b (starting l) (opened l) (ready l) (has_hid l) (hid_desc l) (hid_desc_len l)
    (gpio l) (gpio_name l) (gpio_id l) (keyboard_layout_id l).
Definition set_starting (b : bool) (l : iface_life) : iface_life :=
  Life (creating l) (deferred l) b (opened l) (ready l) (has_hid l) (hid_desc l) (hid_desc_len l)
    (gpio l) (gpio_name l) (gpio_id l) (keyboard_layout_id l).
Definition set_opened (b : bool) (l : iface_life) : iface_life :=
  Life (creating l) (deferred l) (starting l) b (ready l) (has_hid l) (hid_desc l) (hid_desc_len l)
    (gpio l) (gpio_name l) (gpio_id l) (keyboard_layout_id l).
Definition set_ready (l : iface_life) : iface_life :=
  Life (creating l) (deferred l) (starting l) (opened l) true (has_hid l) (hid_desc l) (hid_desc_len l)
    (gpio l) (gpio_name l) (gpio_id l) (keyboard_layout_id l).
Definition set_hid (b : bool) (l : iface_life) : iface_life :=
  Life (creating l) (deferred l) (starting l) (opened l) (ready l) b (hid_desc l) (hid_desc_len l)
    (gpio l) (gpio_name l) (gpio_id l) (keyboard_layout_id l).
Definition set_desc (x : option (list Z)) (n : Z) (l : iface_life) : iface_life :=
  Life (creating l) (deferred l) (starting l) (opened l) (ready l) (has_hid l) x n
    (gpio l) (gpio_name l) (gpio_id l) (keyboard_layout_id l).
Definition set_gpio (b : bool) (l : iface_life) : iface_life :=
  Life (creating l) (deferred l) (starting l) (opened l) (ready l) (has_hid l) (hid_desc l)
    (hid_desc_len l) b (gpio_name l) (gpio_id l) (keyboard_layout_id l).
Definition set_gpio_req (n : list Z) (id : Z) (l : iface_life) : iface_life :=
  Life (creating l) (deferred l) (starting l) (opened l) (ready l) (has_hid l) (hid_desc l)
    (hid_desc_len l) (gpio l) n id (keyboard_layout_id l).
Definition set_layout_id (v : Z) (l : iface_life) : iface_life :=
  Life (creating l) (deferred l) (starting l) (opened l) (ready l) (has_hid l) (hid_desc l)
    (hid_desc_len l) (gpio l) (gpio_name l) (gpio_id l) v.

Section driver.
Context {E : Type} (C0 : ByteChannel E).
Let Ev : Type := (E + kcall)%type.
#[local] Existing Instance sum_channel.
Context (k_ans : list Ev → kcall → Z) (acks : list Ev → Z → list (dchid_hdr * list Z)).
(** the firmware file the kernel found, and the vendor of hid-ids.h *)
Context (fw_file : list Ev → list Z) (HOST_VENDOR_ID_APPLE : Z).

Local Abbreviation HM := (H (Ev := Ev)).
Definition kc (k : kcall) : HM Z := kern inr k_ans k.
Definition kdo (k : kcall) : HM unit := kc k;; mret tt.
Definition command (j type req : Z) (data : list Z) (buf : option (list Z)) (size : Z)
    : HM (Z * option (list Z)) :=
  dchid_cmd (C := sum_channel C0) acks j type req data buf size.

(** The [n] bytes at an address are read; [mem] is what is left of the allocation. *)
Definition need (n : Z) (mem : list Z) : HM unit :=
  if Z.of_nat (length mem) <? n then crash OverRead else mret tt.

(** ** Commands built on [dchid_cmd] *)

Definition dchid_comm_cmd (data : list Z) : HM Z :=
  '(ret, _) ← command IFACE_COMM HID_FEATURE_REPORT REQ_SET_REPORT data None 0;
  mret ret.

Definition dchid_enable_interface (j : Z) : HM Z :=
  i ← iface_ptr j;
  dchid_comm_cmd [CMD_ENABLE_INTERFACE; u8 (index i)].

Definition dchid_reset_interface (j state : Z) : HM Z :=
  i ← iface_ptr j;
  dchid_comm_cmd [CMD_RESET_INTERFACE; 1; u8 (index i); u8 state].

(** The buffer does not hold the report number. *)
Definition dchid_get_report_cmd (j reportnum : Z) (buf : list Z) (len : Z) : HM (Z * list Z) :=
  '(ret, b) ← command j HID_FEATURE_REPORT REQ_GET_REPORT [reportnum] (Some buf) len;
  mret (if ret <=? 0 then ret else ret - 1, default buf b).

Definition dchid_set_report (j : Z) (buf : list Z) : HM Z :=
  '(ret, _) ← command j HID_OUTPUT_REPORT REQ_SET_REPORT buf None 0;
  mret ret.

(** [buf] is the caller's buffer, the result carries its new content. *)
Definition dchid_raw_request (j reportnum : Z) (buf : list Z) (rtype reqtype : Z)
    : HM (Z * list Z) :=
  if reqtype =? HID_REQ_GET_REPORT then
    match buf with
    | [] => crash (BadIndex 0)
    | _ :: rest =>
        '(ret, b) ← command j rtype REQ_GET_REPORT [reportnum] (Some rest) (Z.of_nat (length rest));
        mret (ret, reportnum :: default rest b)
    end
  else if reqtype =? HID_REQ_SET_REPORT then
    ret ← dchid_set_report j buf;
    mret (ret, buf)
  else mret (- EIO, buf).

(** ** Firmware and GPIO *)

Definition dchid_send_firmware (j : Z) (fw : list Z) : HM Z :=
  let size := Z.of_nat (length fw) in
  i ← iface_ptr j;
  buf ← kc (DmaAlloc size);
  if buf <=? 0 then mret (if buf =? 0 then - ENOMEM else buf)
  else
    addr ← kc DmaAddr;
    kdo (DmaCopy fw);;
    dchid_comm_cmd ([CMD_SEND_FIRMWARE; 2; 0; u8 (index i)] ++ put_le64 (u64 addr) ++ put_le32 (u32 size)).

(** A firmware file: its header is checked, its data copied and the number of the
    interface patched in. *)
Definition check_firmware (j : Z) (fw : list Z) : HM (Z * option (list Z)) :=
  let size := Z.of_nat (length fw) in
  let hdr_length := le32_at fw 8 in
  let data_length := le32_at fw 12 in
  let iface_offset := le32_at fw 16 in
  if negb (le32_at fw 0 =? FW_MAGIC) || negb (le32_at fw 4 =? FW_VER) ||
     (hdr_length <? FW_HEADER_SIZE) || (hdr_length >? size) ||
     (hdr_length + data_length >? size) || (iface_offset >=? data_length)
  then kdo ReleaseFirmware;; mret (- EINVAL, None)
  else
    dup ← kc Kmemdup;
    if dup =? 0 then kdo ReleaseFirmware;; mret (- ENOMEM, None)
    else
      i ← iface_ptr j;
      let data := take (Z.to_nat data_length) (drop (Z.to_nat hdr_length) fw) in
      let data := if negb (iface_offset =? 0)
                  then <[Z.to_nat iface_offset := u8 (index i)]> data else data in
      kdo ReleaseFirmware;;
      mret (0, Some data).

(** The error code and, when it is 0, the firmware if the interface has one.  The
    header is read before the size of the file is known to cover it. *)
Definition dchid_get_firmware (j : Z) : HM (Z * option (list Z)) :=
  ret ← kc OfFirmwareName;
  if negb (ret =? 0) then mret (0, None)
  else
    ret ← kc RequestFirmware;
    if negb (ret =? 0) then mret (ret, None)
    else λ d t,
      let fw := fw_file t in
      if Z.of_nat (length fw) <? FW_HEADER_SIZE then crash OverRead d t
      else check_firmware j fw d t.

Definition dchid_request_gpio (j : Z) : HM Z :=
  i ← iface_ptr j;
  if gpio (life i) then mret 0
  else
    r ← kc (GpioGet (str "apple," ++ gpio_name (life i)));
    if r <=? 0 then modify_iface j (with_life (set_gpio false));; mret (-1)
    else modify_iface j (with_life (set_gpio true));; mret 0.

(** The body of [dchid_start_interface] between the flag and the label [err]. *)
Definition start_steps (j : Z) : HM Z :=
  '(ret, fw) ← dchid_get_firmware j;
  if ret <? 0 then mret ret
  else
    i ← iface_ptr j;
    ret ← (if negb (gpio_id (life i) =? 0) then dchid_request_gpio j else mret 0);
    if ret <? 0 then mret ret
    else match fw with
    | Some ((_ :: _) as data) =>
        ret ← dchid_send_firmware j data;
        if ret <? 0 then mret ret
        else dchid_reset_interface j 0;; dchid_reset_interface j 2;; mret 0
    | _ => mret 0
    end.

Definition dchid_start_interface (j : Z) : HM Z :=
  i ← iface_ptr j;
  if starting (life i) then mret (- EINPROGRESS)
  else
    modify_iface j (with_life (set_starting true));;
    ret ← start_steps j;
    if ret <? 0 then modify_iface j (with_life (set_starting false));; mret ret
    else mret 0.

(** ** The operations of the HID core *)

Definition dchid_start (j : Z) : HM Z :=
  i ← iface_ptr j;
  if negb (keyboard_layout_id (life i) =? 0) then
    ret ← kc CreateFile;
    (if negb (ret =? 0) then modify_iface j (with_life (set_layout_id 0)) else mret tt);;
    mret 0
  else mret 0.

Definition dchid_stop (j : Z) : HM unit :=
  i ← iface_ptr j;
  if negb (keyboard_layout_id (life i) =? 0) then kdo RemoveFile else mret tt.

(** While it waits, the notification of the device is handled. *)
Definition dchid_open (j : Z) : HM Z :=
  i ← iface_ptr j;
  ret ← (if ready (life i) then mret 0
         else
           ret ← dchid_start_interface j;
           if ret <? 0 then mret ret
           else
             r ← kc (WaitReady j);
             if r =? 0 then mret (- ETIMEDOUT)
             else modify_iface j (with_life set_ready);; mret 0);
  if ret <? 0 then mret ret
  else modify_iface j (with_life (set_opened true));; mret 0.

Definition dchid_close (j : Z) : HM unit := modify_iface j (with_life (set_opened false)).

(** ** Creation of the HID device *)

Definition dchid_create_interface_work (j : Z) : HM unit :=
  i ← iface_ptr j;
  if has_hid (life i) then mret tt
  else
    ret ← dchid_enable_interface j;
    if ret <? 0 then mret tt
    else
      modify_iface j (with_life (set_deferred false));;
      hid ← kc HidAllocate;
      if hid <? 0 then mret tt
      else
        d ← get_hid;
        match name i with
        | None => crash NullDeref
        | Some n =>
            (if eq_str n "keyboard" then
               kdo (OfU32 0);;
               r ← kc (OfU32 1);
               (if r =? 0 then mret tt else modify_iface j (with_life (set_layout_id (u32 r))))
             else mret tt);;
            modify_iface j (with_life (set_hid true));;
            ret ← kc (HidAdd j (le16_at (device_id d) 1) (le16_at (device_id d) 3)
                        (le16_at (device_id d) 5));
            if ret <? 0 then modify_iface j (with_life (set_hid false));; kdo (HidDestroy j)
            else mret tt
        end.

Definition dchid_create_interface (j : Z) : HM Z :=
  i ← iface_ptr j;
  if creating (life i) then mret (- EBUSY)
  else
    modify_iface j (with_life (set_creating true));;
    kc (QueueCreate j).

(** ** Announcement of an interface *)

(** [None] stands for NULL; [nm] is the string at the address of the name, [None]
    when it is not terminated inside the packet. *)
Definition dchid_get_interface (idx : Z) (nm : option (list Z)) : HM (option Z) :=
  if idx >=? MAX_INTERFACES then mret None
  else
    d ← get_hid;
    match iface_at idx d with
    | Some _ => mret (Some idx)
    | None =>
        iface ← kc (Kzalloc 1);
        if iface =? 0 then mret None
        else match nm with
        | None => crash OverRead
        | Some n =>
            dup ← kc Kstrdup;
            wq ← kc AllocWq;
            let new node := Iface idx (if dup =? 0 then None else Some n) node
                              (CmdState 0 0 (-1) 0 None 0 0) new_life in
            if wq =? 0 then mret None
            else if eq_str n "comm" then modify (set_iface idx (new false));; mret (Some idx)
            else
              node ← kc (OfChild n);
              if node =? 0 then mret None
              else modify (set_iface idx (new true));; mret (Some idx)
        end
    end.

Definition dchid_handle_descriptor (j : Z) (desc : list Z) : HM unit :=
  i ← iface_ptr j;
  if has_hid (life i) then mret tt
  else
    r ← kc Kmemdup;
    if r =? 0 then modify_iface j (with_life (λ l, set_desc None (hid_desc_len l) l))
    else modify_iface j (with_life (set_desc (Some desc) (Z.of_nat (length desc)))).

(** One block of an announcement; [mem] starts behind the block header, [length] is
    what is left of the announcement.  A product name is only printed. *)
Definition init_block (j type blen : Z) (mem : list Z) (length : Z) : HM unit :=
  if type =? INIT_HID_DESCRIPTOR then
    need blen mem;; dchid_handle_descriptor j (take (Z.to_nat blen) mem)
  else if type =? INIT_GPIO_REQUEST then
    if GPIO_REQUEST_SIZE >? length then mret tt
    else
      need GPIO_REQUEST_SIZE mem;;
      i ← iface_ptr j;
      if negb (gpio_id (life i) =? 0) then mret tt
      else modify_iface j (with_life
             (set_gpio_req (strscpy (Z.to_nat MAX_GPIO_NAME) (take 32 (drop 4 mem))) (le16_at mem 2)))
  else mret tt.

Fixpoint init_loop (fuel : nat) (j : Z) (mem : list Z) (length : Z) : HM unit :=
  match fuel with
  | O => crash NoFuel
  | S fuel' =>
      if length <? 4 then mret tt
      else
        need 4 mem;;
        let type := le16_at mem 0 in
        let blen := le16_at mem 2 in
        let mem := drop 4 mem in
        let length := length - 4 in
        if blen >? length then mret tt
        else
          init_block j type blen mem length;;
          if type =? INIT_TERMINATOR then mret tt
          else init_loop fuel' j (drop (Z.to_nat blen) mem) (length - blen)
  end.

(** The end of an announcement: STM is created at once, the others when the device
    information is there. *)
Definition init_finish (j : Z) : HM unit :=
  i ← iface_ptr j;
  d ← get_hid;
  stm ← (if id_ready d then mret true
         else match name i with
              | None => crash NullDeref
              | Some n => mret (eq_str n "stm")
              end);
  if stm : bool then dchid_create_interface j;; mret tt
  else modify_iface j (with_life (set_deferred true)).

Definition dchid_handle_init (mem : list Z) (length : Z) : HM unit :=
  if length <? INIT_HDR_SIZE then mret tt
  else
    need INIT_HDR_SIZE mem;;
    r ← dchid_get_interface (byte_at mem 3) (cstr (drop 4 mem));
    match r with
    | None => mret tt
    | Some j =>
        init_loop (S (Z.to_nat length)) j (drop (Z.to_nat INIT_HDR_SIZE) mem) (length - INIT_HDR_SIZE);;
        if negb (byte_at mem 20 =? 0) then mret tt else init_finish j
    end.

(** ** Readiness *)

(** Creation of the interfaces that waited for the device information. *)
Fixpoint create_deferred (js : list Z) : HM unit :=
  match js with
  | [] => mret tt
  | j :: js' =>
      d ← get_hid;
      match iface_at j d with
      | Some i => if deferred (life i) then dchid_create_interface j;; create_deferred js'
                  else create_deferred js'
      | None => create_deferred js'
      end
  end.

(** [dchid_handle_ready] for the STM interface: the comparison of the return value
    with the size of the structure is unsigned. *)
Definition stm_ready (j : Z) : HM unit :=
  d ← get_hid;
  '(ret, b) ← dchid_get_report_cmd j STM_REPORT_ID (device_id d) STM_ID_SIZE;
  let id := if u64 ret <? STM_ID_SIZE
            then [0] ++ put_le16 HOST_VENDOR_ID_APPLE ++ replicate 8 0 else b in
  modify (λ d, with_ids (id_ready d) id (serial d) d);;
  '(ret, b) ← dchid_get_report_cmd j STM_REPORT_SERIAL (serial d) 63;
  modify (λ d, with_ids true (device_id d) (if ret <? 0 then <[0%nat := 0]> b else b) d);;
  create_deferred (seqZ 0 MAX_INTERFACES).

Definition dchid_handle_ready (mem : list Z) (length : Z) : HM unit :=
  if length <? 2 then mret tt
  else
    need 2 mem;;
    let idx := byte_at mem 1 in
    if idx >=? MAX_INTERFACES then mret tt
    else
      d ← get_hid;
      match iface_at idx d with
      | None => mret tt
      | Some i =>
          modify_iface idx (with_life set_ready);;
          match name i with
          | None => crash NullDeref
          | Some n => if eq_str n "stm" then stm_ready idx else mret tt
          end
      end.

(** ** GPIO commands *)

(** The return code to report: 0 after the pulse, an error otherwise. *)
Definition gpio_pulse (mem : list Z) : HM Z :=
  let err := 0xe000f00d in
  let ciface := byte_at mem 1 in
  d ← get_hid;
  if (ciface >=? MAX_INTERFACES) || negb (bool_decide (is_Some (iface_at ciface d))) then mret err
  else
    r ← dchid_request_gpio ciface;
    if r <? 0 then mret err
    else
      i ← iface_ptr ciface;
      if negb (gpio (life i)) || negb (byte_at mem 2 =? gpio_id (life i)) then mret err
      else if byte_at mem 4 =? 3 then
        kdo (GpioSet 1);; kdo (Msleep 10);; kdo (GpioSet 0);; mret 0
      else mret err.

Definition dchid_handle_gpio (mem : list Z) (length : Z) : HM unit :=
  if length <? GPIO_CMD_SIZE then mret tt
  else
    need GPIO_CMD_SIZE mem;;
    retcode ← gpio_pulse mem;
    ack ← kc (Kzalloc 2);
    if ack =? 0 then mret tt
    else
      need length mem;;
      dchid_comm_cmd ([CMD_ACK_GPIO_CMD] ++ put_le32 retcode ++ take (Z.to_nat length) mem);;
      kdo (Kfree 2).

(** ** Reports *)

(** [mem] is the rest of the allocation, [length] the length the sub-header gives. *)
Definition dchid_handle_event (mem : list Z) (length : Z) : HM unit :=
  match mem with
  | [] => crash OverRead
  | p :: _ =>
      if p =? EVENT_INIT then dchid_handle_init mem length
      else if p =? EVENT_READY then dchid_handle_ready mem length
      else if p =? EVENT_GPIO_CMD then dchid_handle_gpio mem length
      else mret tt
  end.

Definition dchid_handle_report (j : Z) (data : list Z) : HM unit :=
  i ← iface_ptr j;
  if negb (has_hid (life i)) then mret tt
  else if negb (opened (life i)) then mret tt
  else kdo (InputReport j data).

Definition dchid_packet_work (j : Z) (p : packet) : HM unit :=
  let data := p_data p in
  if Z.of_nat (length data) <? SUBHDR_SIZE then crash OverRead
  else
    let shdr := sub_of data in
    let type := FIELD_GET FLAGS_GROUP (sub_flags shdr) in
    let payload := drop 8 data in
    if sub_length shdr + SUBHDR_SIZE >? hdr_length (p_hdr p) then mret tt
    else
      (if type =? HID_INPUT_REPORT then
         if hdr_iface (p_hdr p) =? IFACE_COMM then dchid_handle_event payload (sub_length shdr)
         else need (sub_length shdr) payload;; dchid_handle_report j (take (Z.to_nat (sub_length shdr)) payload)
       else mret tt);;
      kdo (Kfree 0).

(** ** Probe *)

Definition is_gpio_property (n : list Z) : bool :=
  negb ((Z.of_nat (length n) <? 12) || negb (bool_decide (take 6 n = str "apple,")) ||
        negb (bool_decide (drop (length n - 6) n = str "-gpios"))).

(** The GPIOs of all child nodes: [true] when one of them is not there yet. *)
Fixpoint probe_gpios (props : list (list Z)) : HM bool :=
  match props with
  | [] => mret false
  | n :: props' =>
      if negb (is_gpio_property n) then probe_gpios props'
      else
        r ← kc (GpioGet n);
        if r =? - EPROBE_DEFER then mret true else probe_gpios props'
  end.

(** [stm] says whether the child node exists and is available, [init] is the result
    of [dockchannel_init].  The state it starts from is the zeroed structure. *)
Definition dockchannel_hid_probe (stm : bool) (props : list (list Z)) (init : result Z dockchannel)
    : HM Z :=
  ret ← kc (Probe 0);                                   (* dma_set_mask_and_coherent *)
  if negb (ret =? 0) then mret ret
  else
    r ← kc (Kzalloc 3);
    if r =? 0 then mret (- ENOMEM)
    else
      modify (λ d, with_ids (negb stm) (device_id d) (serial d) d);;
      defer ← probe_gpios props;
      if defer : bool then mret (- EPROBE_DEFER)
      else
        helper ← kc (Probe 1);                          (* of_parse_phandle *)
        if helper =? 0 then mret (- EINVAL)
        else
          pdev ← kc (Probe 2);                          (* of_find_device_by_node *)
          if pdev =? 0 then mret (- EINVAL)
          else
            link ← kc (Probe 3);                        (* device_link_add *)
            if link =? 0 then mret (- EINVAL)
            else
              bound ← kc (Probe 4);                     (* supplier bound *)
              if bound =? 0 then mret (- EPROBE_DEFER)
              else match init with
              | Err e => mret e
              | Ok c =>
                  modify (with_dc c);;
                  wq ← kc (Probe 5);                    (* alloc_ordered_workqueue *)
                  if wq =? 0 then mret (- ENOMEM)
                  else
                    comm ← dchid_get_interface IFACE_COMM (Some (str "comm"));
                    match comm with
                    | None => mret (- EIO)
                    | Some _ => rearm;; mret 0
                    end
              end.
End driver.

(** ** The invariant of the driver *)

#[global] Instance kcall_eq_dec : EqDecision kcall.
Proof. solve_decision. Defined.

(** The calls to the kernel in a history. *)
Definition kcalls {E} (t : list (E + kcall)) : list kcall :=
  omap (λ e, match e with inl _ => None | inr k => Some k end) t.

Lemma kcalls_app {E} (t1 t2 : list (E + kcall)) : kcalls (t1 ++ t2) = kcalls t1 ++ kcalls t2.
Proof. apply omap_app. Qed.

Lemma kcalls_inl {E} (evs : list E) : kcalls (inl <$> evs) = [].
Proof. induction evs as [|e evs IH]; [done|]. rewrite fmap_cons. exact IH. Qed.

Lemma kcalls_inr {E} (ks : list kcall) : kcalls (E := E) (inr <$> ks) = ks.
Proof. induction ks as [|k ks IH]; [done|]. rewrite fmap_cons. unfold kcalls in *. simpl. by f_equal. Qed.

(** How often the creation of interface [j] was queued. *)
Definition queued {E} (j : Z) (t : list (E + kcall)) : nat :=
  length (List.filter (λ k, bool_decide (k = QueueCreate j)) (kcalls t)).

Lemma queued_app {E} j (t1 t2 : list (E + kcall)) : queued j (t1 ++ t2) = (queued j t1 + queued j t2)%nat.
Proof. unfold queued. by rewrite kcalls_app, List.filter_app, length_app. Qed.

Definition is_creating (j : Z) (d : dockchannel_hid) : bool :=
  match iface_at j d with Some i => creating (life i) | None => false end.

(** The state is well formed, the comm interface exists, every interface has a name;
    an interface is marked as being created when its creation has been queued, once;
    that happens only after the device information has been read, or for STM, which
    delivers it; and a HID device is registered only after that. *)
Record inv {E} (d : dockchannel_hid) (t : list (E + kcall)) : Prop := {
  inv_wf : hid_wf d;
  inv_comm : is_Some (iface_at 0 d);
  inv_name j i : 0 ≤ j → iface_at j d = Some i → is_Some (name i);
  inv_once j : 0 ≤ j → queued j t = (if is_creating j d then 1 else 0)%nat;
  inv_order j i : 0 ≤ j → iface_at j d = Some i → creating (life i) = true →
    id_ready d = true ∨ name i = Some (str "stm");
  inv_added j v p r : HidAdd j v p r ∈ kcalls t → 0 ≤ j ∧ (0 < queued j t)%nat
}.

Lemma iface_at_slot j d i : iface_at j d = Some i ↔ ifaces d !! Z.to_nat j = Some (Some i).
Proof.
  unfold iface_at. destruct (ifaces d !! Z.to_nat j) as [o|]; simpl; [|done].
  split; [by intros ->|by intros [= ->]].
Qed.

Lemma iface_at_set_ne j k i d : 0 ≤ j → 0 ≤ k → j ≠ k → iface_at k (set_iface j i d) = iface_at k d.
Proof.
  intros. unfold iface_at, set_iface, with_ifaces. simpl.
  rewrite list_lookup_insert_ne by lia. done.
Qed.

(** A slot of the table after an update. *)
Lemma iface_at_update j k i0 i1 i2 d :
  0 ≤ j → 0 ≤ k → iface_at j d = Some i0 → iface_at k (set_iface j i1 d) = Some i2 →
  (k = j ∧ i2 = i1) ∨ (k ≠ j ∧ iface_at k d = Some i2).
Proof.
  intros Hj Hk Hi E. destruct (decide (k = j)) as [-> | Hne].
  - rewrite (iface_at_set j d i0) in E by done. injection E as <-. by left.
  - rewrite iface_at_set_ne in E by lia. by right.
Qed.

Section preserve.
Context {E : Type}.
Implicit Types (t : list (E + kcall)).

(** The kernel calls that do not bear on the creation of interfaces. *)
Definition neutral (k : kcall) : bool :=
  match k with QueueCreate _ | HidAdd _ _ _ _ => false | _ => true end.

Lemma inv_kcall d t k : neutral k = true → inv d t → inv d (t ++ [inr k]).
Proof.
  intros Hk [? ? ? Ho ? Ha]. assert (∀ j, queued j (t ++ [inr k]) = queued j t) as Hq.
  { intros j. rewrite queued_app. unfold queued at 2. simpl.
    rewrite bool_decide_false by (intros ->; discriminate Hk). simpl. lia. }
  split; try done.
  - intros j Hj. by rewrite Hq, Ho.
  - intros j v p r Hin. rewrite Hq. apply (Ha j v p r). rewrite kcalls_app in Hin. apply elem_of_app in Hin as [?|Hin]; [done|].
    simpl in Hin. apply list_elem_of_singleton in Hin as <-. discriminate Hk.
Qed.

(** An update of one interface that keeps what the invariant reads. *)
Lemma inv_update d t j i i' :
  inv d t → 0 ≤ j → iface_at j d = Some i → index i' = index i → is_byte (tx_seq (cmd i')) →
  name i' = name i → creating (life i') = creating (life i) → inv (set_iface j i' d) t.
Proof.
  intros [[Hs Hx Hq Hb] Hc Hn Ho Hr Ha] Hj Hi Eix Esq Enm Ecr. split; [| | | | |done].
  - split; simpl; [by rewrite length_insert| | |done].
    + intros k i2. rewrite list_lookup_insert_Some. intros [(<- & [= <-] & _)|[_ Ek]]; [|by apply Hx].
      rewrite Eix. by apply Hx, iface_at_slot.
    + intros k i2. rewrite list_lookup_insert_Some. intros [(<- & [= <-] & _)|[_ Ek]]; [done|by eapply Hq].
  - destruct (decide (j = 0)) as [-> | ?]; [by erewrite iface_at_set|]. by rewrite iface_at_set_ne by lia.
  - intros k i2 Hk Ek. destruct (iface_at_update j k i i' i2 d Hj Hk Hi Ek) as [[-> ->]|[_ ?]]; [|by eapply Hn].
    rewrite Enm. by apply (Hn j).
  - intros k Hk. rewrite Ho by done. unfold is_creating. destruct (decide (k = j)) as [-> | ?].
    + by rewrite (iface_at_set j d i), Hi, Ecr by done.
    + by rewrite iface_at_set_ne by lia.
  - intros k i2 Hk Ek Hcr. simpl. destruct (iface_at_update j k i i' i2 d Hj Hk Hi Ek) as [[-> ->]|[_ ?]];
      [|by eapply Hr].
    rewrite Enm. apply (Hr j i); [done|done|]. by rewrite <- Ecr.
Qed.

(** The queueing of a creation. *)
Lemma inv_queue d t j i :
  inv d t → 0 ≤ j → iface_at j d = Some i → creating (life i) = false →
  id_ready d = true ∨ name i = Some (str "stm") →
  inv (set_iface j (with_life (set_creating true) i) d) (t ++ [inr (QueueCreate j)]).
Proof.
  intros [Hwf Hc Hn Ho Hr Ha] Hj Hi Hcr Hid.
  assert (∀ k, queued k (t ++ [inr (QueueCreate j)]) = (queued k t + if decide (k = j) then 1 else 0)%nat) as Hq.
  { intros k. rewrite queued_app. f_equal. unfold queued. simpl. destruct (decide (k = j)) as [-> | ?].
    - by rewrite bool_decide_true.
    - rewrite bool_decide_false; [done|]. congruence. }
  assert (hid_wf (set_iface j (with_life (set_creating true) i) d)) as Hwf' by by eapply set_iface_wf.
  split; [done| | | | |].
  - destruct (decide (j = 0)) as [-> | ?]; [by erewrite iface_at_set|]. by rewrite iface_at_set_ne by lia.
  - intros k i2 Hk Ek. destruct (iface_at_update j k i _ i2 d Hj Hk Hi Ek) as [[-> ->]|[_ ?]]; [|by eapply Hn].
    by apply (Hn j i).
  - intros k Hk. rewrite Hq, Ho by done. unfold is_creating. destruct (decide (k = j)) as [-> | ?].
    + by rewrite (iface_at_set j d i), Hi, Hcr by done.
    + rewrite iface_at_set_ne by lia. lia.
  - intros k i2 Hk Ek Hcr2. simpl.
    destruct (iface_at_update j k i _ i2 d Hj Hk Hi Ek) as [[-> ->]|[_ ?]]; [done|]. by eapply (Hr k).
  - intros k v p r Hin. rewrite Hq. rewrite kcalls_app in Hin. apply elem_of_app in Hin as [Hin|Hin].
    + destruct (Ha k v p r Hin). split; [done|lia].
    + simpl in Hin. apply list_elem_of_singleton in Hin. discriminate Hin.
Qed.

(** The registration of a HID device. *)
Lemma inv_hid_add d t j v p r :
  inv d t → 0 ≤ j → is_creating j d = true → inv d (t ++ [inr (HidAdd j v p r)]).
Proof.
  intros [? ? ? Ho ? Ha] Hj Hcr.
  assert (∀ k, queued k (t ++ [inr (HidAdd j v p r)]) = queued k t) as Hq.
  { intros k. rewrite queued_app. unfold queued at 2. simpl.
    lia. }
  split; try done.
  - intros k Hk. by rewrite Hq, Ho.
  - intros k v' p' r' Hin. rewrite Hq. rewrite kcalls_app in Hin. apply elem_of_app in Hin as [?|Hin].
    + by eapply Ha.
    + simpl in Hin. apply list_elem_of_singleton in Hin as [= -> _ _ _]. split; [done|].
      rewrite Ho, Hcr by done. lia.
Qed.

(** A new interface in an empty slot. *)
Lemma inv_new d t j i :
  inv d t → 0 ≤ j < MAX_INTERFACES → iface_at j d = None → index i = j → is_byte (tx_seq (cmd i)) →
  is_Some (name i) → creating (life i) = false → inv (set_iface j i d) t.
Proof.
  intros [[Hs Hx Hq Hb] Hc Hn Ho Hr Ha] Hj Hi Eix Esq Enm Ecr.
  assert (Z.to_nat j < length (ifaces d))%nat as Hlt by (rewrite Hs; unfold MAX_INTERFACES in *; lia).
  assert (iface_at j (set_iface j i d) = Some i) as Hat.
  { apply iface_at_slot. simpl. by rewrite list_lookup_insert_eq. }
  assert (∀ k i2, 0 ≤ k → iface_at k (set_iface j i d) = Some i2 →
    (k = j ∧ i2 = i) ∨ (k ≠ j ∧ iface_at k d = Some i2)) as Hup.
  { intros k i2 Hk Ek. destruct (decide (k = j)) as [-> | ?]; [left; rewrite Hat in Ek; by injection Ek as <-|].
    right. by rewrite iface_at_set_ne in Ek by lia. }
  split; [| | | | |done].
  - split; simpl; [by rewrite length_insert| | |done].
    + intros k i2. rewrite list_lookup_insert_Some. intros [(<- & [= <-] & _)|[_ Ek]]; [lia|by apply Hx].
    + intros k i2. rewrite list_lookup_insert_Some. intros [(<- & [= <-] & _)|[_ Ek]]; [done|by eapply Hq].
  - destruct (decide (j = 0)) as [-> | ?]; [by rewrite Hat|]. by rewrite iface_at_set_ne by lia.
  - intros k i2 Hk Ek. destruct (Hup k i2 Hk Ek) as [[-> ->]|[_ ?]]; [done|by eapply Hn].
  - intros k Hk. rewrite Ho by done. unfold is_creating. destruct (decide (k = j)) as [-> | ?].
    + by rewrite Hat, Hi, Ecr.
    + by rewrite iface_at_set_ne by lia.
  - intros k i2 Hk Ek Hcr. simpl. destruct (Hup k i2 Hk Ek) as [[-> ->]|[_ ?]]; [by rewrite Ecr in Hcr|by eapply Hr].
Qed.

Lemma inv_ids d t r x y : inv d t → (id_ready d = true → r = true) → inv (with_ids r x y d) t.
Proof.
  intros [[? ? ? ?] ? ? ? Hr ?] Hid. split; try done.
  intros j i Hj Ei Hc. destruct (Hr j i Hj Ei Hc) as [?|?]; [left; by apply Hid|by right].
Qed.
End preserve.

(** ** A program logic for the invariant

    [okH js m]: started with the invariant, with the interfaces [present js] there and
    the creation of those of [started js] queued, [m] does not fault, keeps the
    invariant, and both stay so. *)
Record ctx := Ctx { present : list Z; started : list Z }.
Definition push (j : Z) (js : ctx) : ctx := Ctx (j :: present js) (started js).

Section logic.
Context {E : Type}.
Local Abbreviation HM := (H (Ev := E + kcall)).

Definition kept (js : ctx) (d : dockchannel_hid) : Prop :=
  Forall (λ j, 0 ≤ j < MAX_INTERFACES ∧ is_Some (iface_at j d)) (present js) ∧
  Forall (λ j, 0 ≤ j ∧ is_creating j d = true) (started js).
Definition known (js : ctx) (d : dockchannel_hid) (t : list (E + kcall)) : Prop :=
  inv d t ∧ kept js d.

Definition okrun {A} (js : ctx) (r : result fault (A * dockchannel_hid) * list (E + kcall)) : Prop :=
  match r with
  | (Ok (_, d), t) => known js d t
  | (Err _, _) => False
  end.
Definition okH {A} (js : ctx) (m : HM A) : Prop := ∀ d t, known js d t → okrun js (m d t).

Lemma known_elem js j d t : known js d t → j ∈ present js →
  0 ≤ j < MAX_INTERFACES ∧ ∃ i, iface_at j d = Some i ∧ is_Some (name i).
Proof.
  intros (Hinv & Hjs & _) Hin. rewrite List.Forall_forall in Hjs. apply list_elem_of_In in Hin.
  destruct (Hjs j Hin) as [Hj [i Hi]]. split; [done|]. exists i. split; [done|].
  eapply inv_name; [done| |done]. lia.
Qed.

Lemma okH_ret {A} js (a : A) : okH js (mret a).
Proof. intros d t Hd. exact Hd. Qed.

Lemma okH_bind {A B} js (m : HM A) (k : A → HM B) :
  okH js m → (∀ a, okH js (k a)) → okH js (m ≫= k).
Proof.
  intros Hm Hk d t Hd. rewrite H_bind_eq. specialize (Hm d t Hd).
  destruct (m d t) as [[[a d']|e] t']; [|done]. by apply Hk.
Qed.

Lemma okH_if {A} js (b : bool) (m k : HM A) : okH js m → okH js k → okH js (if b then m else k).
Proof. by destruct b. Qed.

(** The state can be inspected. *)
Lemma need_eq {A} n mem (k : unit → HM A) d t :
  n ≤ Z.of_nat (length mem) → (need n mem ≫= k) d t = k tt d t.
Proof. intros Hn. unfold need. rewrite (proj2 (Z.ltb_ge _ _)) by done. done. Qed.

Lemma okH_need {A} js n mem (k : unit → HM A) :
  n ≤ Z.of_nat (length mem) → okH js (k tt) → okH js (need n mem ≫= k).
Proof. intros Hn Hk d t Hd. rewrite need_eq by done. by apply Hk. Qed.

Lemma okH_get {A} js (k : dockchannel_hid → HM A) :
  (∀ d t, known js d t → okrun js (k d d t)) → okH js (get_hid ≫= k).
Proof. intros Hk d t Hd. rewrite H_bind_eq. by apply Hk. Qed.

Lemma okH_get_hid js : okH js get_hid.
Proof. intros d t Hd. exact Hd. Qed.

(** More interfaces may be known in between. *)
Lemma okrun_weaken {A} j js (r : result fault (A * dockchannel_hid) * list (E + kcall)) :
  okrun (push j js) r → okrun js r.
Proof.
  destruct r as [[[a d]|e] t]; [|done]. intros (? & Hjs & Hc). split; [done|]. split; [|done].
  by apply List.Forall_cons_iff in Hjs as [_ ?].
Qed.

Lemma okH_at {A} j i js (m : HM A) d t :
  okH (push j js) m → known js d t → 0 ≤ j < MAX_INTERFACES → iface_at j d = Some i → okrun js (m d t).
Proof.
  intros Hm (Hinv & Hjs & Hc) Hj Hi. apply (okrun_weaken j), Hm. split; [done|]. split; [|done].
  apply List.Forall_cons; [|done]. split; [done|]. by exists i.
Qed.

(** An interface pointer is valid and its name is set. *)
Lemma okH_ptr {A} js j (k : dchid_iface → HM A) :
  j ∈ present js → (∀ i, is_Some (name i) → okH js (k i)) → okH js (iface_ptr j ≫= k).
Proof.
  intros Hj Hk d t Hd. destruct (known_elem js j d t Hd Hj) as (_ & i & Hi & Hn).
  rewrite H_bind_eq, (iface_ptr_some j d i) by done. by apply Hk.
Qed.

Lemma okH_kern js (k_ans : list (E + kcall) → kcall → Z) k :
  neutral k = true → okH js (kern inr k_ans k).
Proof. intros Hk d t [Hinv Hjs]. split; [by apply inv_kcall|done]. Qed.

Lemma okH_hid_add js (k_ans : list (E + kcall) → kcall → Z) j v p r :
  j ∈ started js → okH js (kern inr k_ans (HidAdd j v p r)).
Proof.
  intros Hj d t (Hinv & Hjs & Hc). split; [|done].
  pose proof (proj1 (List.Forall_forall _ _) Hc j (proj1 (list_elem_of_In _ _) Hj)) as [? ?].
  by apply inv_hid_add.
Qed.

(** Slots only get filled. *)
Lemma known_set js j i i0 d t : inv (set_iface j i d) t → kept js d → 0 ≤ j →
  iface_at j d = Some i0 → (creating (life i0) = true → creating (life i) = true) →
  known js (set_iface j i d) t.
Proof.
  intros Hinv (Hjs & Hc) Hj Hi0 Hcr. split; [done|]. split.
  - eapply List.Forall_impl; [|exact Hjs]. intros k [Hk Hs]. split; [done|].
    destruct (decide (j = k)) as [-> | ?]; [by rewrite (iface_at_set k d i0)|].
    by rewrite iface_at_set_ne by lia.
  - eapply List.Forall_impl; [|exact Hc]. unfold is_creating. intros k [Hk Hs]. split; [done|].
    destruct (decide (j = k)) as [-> | ?]; [|by rewrite iface_at_set_ne by lia].
    rewrite (iface_at_set k d i0) by done. rewrite Hi0 in Hs. by apply Hcr.
Qed.

Lemma okH_life js j f :
  j ∈ present js → (∀ l, creating (f l) = creating l) → okH js (modify_iface j (with_life f)).
Proof.
  intros Hj Hf d t Hd. destruct (known_elem js j d t Hd Hj) as (Hr & i & Hi & Hn).
  rewrite (modify_iface_some j _ d i) by done. apply (known_set js j _ i); [|apply Hd|lia|done|by simpl; rewrite Hf].
  apply (inv_update d t j i); try done; [apply Hd|lia| |apply Hf].
  destruct (proj1 Hd) as [[_ _ Hq _] _ _ _ _ _]. apply (Hq (Z.to_nat j) i). by apply iface_at_slot.
Qed.

Lemma okH_ids js f r :
  (∀ d, id_ready d = true → r d = true) →
  okH js (modify (λ d, with_ids (r d) (f d).1 (f d).2 d)).
Proof. intros Hr d t [Hinv Hjs]. split; [|done]. apply inv_ids; [done|apply Hr]. Qed.
End logic.

Create HintDb hid.
#[export] Hint Resolve okH_ret okH_bind okH_if okH_ptr okH_life okH_get_hid : hid.
#[export] Hint Extern 1 (okH _ (kern _ _ _)) => by apply okH_kern : hid.
#[export] Hint Resolve list_elem_of_here list_elem_of_further : hid.
#[export] Hint Extern 2 (_ ∈ present (push _ _)) => simpl : hid.

(** [hid_auto] walks through a driver function: it binds, branches, follows
    interface pointers and closes the leaves with the hints. *)
Ltac hid_auto :=
  repeat match goal with
  | |- ∀ _, _ => intros ?
  | |- okH _ (mret _) => apply okH_ret
  | |- okH _ (iface_ptr _ ≫= _) => apply okH_ptr; [solve [eauto with hid]|]
  | |- okH _ (_ ≫= _) => apply okH_bind
  | |- okH _ (if _ then _ else _) => apply okH_if
  | |- okH _ (let '(_, _) := ?p in _) => destruct p
  | |- okH _ (match ?x with _ => _ end) => destruct x eqn:?
  | |- okH _ _ => solve [eauto with hid]
  end.

Section operations.
Context {E : Type} (C0 : ByteChannel E) {L0 : ByteChannelLaws C0}.
Context (k_ans : list (E + kcall) → kcall → Z)
  (acks : list (E + kcall) → Z → list (dchid_hdr * list Z)).
Hypothesis Hacks : ∀ t j, Forall (λ a, Forall is_byte a.2) (acks t j).
Hypothesis Hdup : ∀ t, k_ans t Kstrdup ≠ 0.

(** A transmission always returns and makes no kernel calls. *)
Definition returns (m : TR (E + kcall) (option Z)) : Prop :=
  ∀ t, ∃ r evs, m t = (Some r, t ++ (inl <$> evs)).

Lemma send_or_returns bytes k :
  Forall is_byte bytes → returns k → returns (send_or (C := sum_channel C0) bytes k).
Proof.
  intros Hb Hk t. unfold send_or. rewrite TR_bind_eq.
  destruct (ch_send_law bytes (lefts t) Hb) as (r & evs & Es & _).
  assert (ch_send (ByteChannel := sum_channel C0) bytes t = (Some r, t ++ (inl <$> evs))) as ->
    by by apply lift_left_eq.
  cbn [fst snd]. destruct (r <? 0); [by exists r, evs|].
  destruct (Hk (t ++ (inl <$> evs))) as (r' & e2 & ->). exists r', (evs ++ e2).
  by rewrite fmap_app, app_assoc.
Qed.

Lemma send_returns idx seq flags msg :
  Forall is_byte msg → returns (dchid_send (C := sum_channel C0) idx seq flags msg).
Proof.
  intros Hm. assert (∀ v, returns (send_or (C := sum_channel C0) (put_le32 v) (mret (Some 0)))) as Hlast.
  { intros v. apply send_or_returns; [apply put_le32_bytes|]. intros t. exists 0, []. by rewrite app_nil_r. }
  unfold dchid_send. apply send_or_returns.
  { apply Forall_app. split; [apply hdr_bytes_bytes|apply sub_bytes_bytes]. }
  apply send_or_returns; [by apply Forall_take|]. cbv zeta. destruct (Nat.eqb _ 0); [apply Hlast|].
  apply send_or_returns; [|apply Hlast]. apply Forall_take, Forall_app. split; [by apply Forall_drop|].
  by apply bytes_by_compute.
Qed.

Lemma inv_inl d t (evs : list E) : inv d t → inv d (t ++ (inl <$> evs)).
Proof.
  intros [? ? ? Ho ? Ha].
  assert (kcalls (t ++ (inl <$> evs)) = kcalls t) as Hk by (by rewrite kcalls_app, kcalls_inl, app_nil_r).
  assert (∀ j, queued j (t ++ (inl <$> evs)) = queued j t) as Hq by (intros; unfold queued; by rewrite Hk).
  split; try done.
  - intros j Hj. rewrite Hq. by apply Ho.
  - intros j v p r. rewrite Hk, Hq. apply Ha.
Qed.

Lemma okH_command js j type req x data buf size :
  j ∈ present js → Forall is_byte (x :: data) → okH js (command C0 acks j type req (x :: data) buf size).
Proof.
  intros Hj Hb d t Hd. destruct (known_elem js j d t Hd Hj) as (Hr & i & Hi & Hn).
  destruct (send_returns (index i) (tx_seq (cmd i)) (cmd_flags type req) (x :: data) Hb t) as (r & evs & Es).
  destruct (cmd_equation acks j type req x data buf size d i t r _ Hi (Hacks _ j) Es) as (c' & Ec & _ & Hseq).
  unfold command. rewrite Ec. apply (known_set js j _ i); [|apply Hd|lia|done|done].
  apply (inv_update d _ j i); try done; [apply inv_inl, Hd|lia|]. simpl. rewrite Hseq. apply u8_range.
Qed.

Lemma okH_comm_cmd js x data :
  0 ∈ present js → Forall is_byte (x :: data) → okH js (dchid_comm_cmd C0 acks (x :: data)).
Proof.
  intros. unfold dchid_comm_cmd. apply okH_bind; [by apply okH_command|]. hid_auto.
Qed.

Lemma okH_kc js k : neutral k = true → okH js (kc k_ans k).
Proof. apply okH_kern. Qed.
Lemma okH_kdo js k : neutral k = true → okH js (kdo k_ans k).
Proof. intros. unfold kdo. apply okH_bind; [by apply okH_kc|hid_auto]. Qed.
End operations.

#[export] Hint Extern 1 (okH _ (kc _ _)) => by apply okH_kc : hid.
#[export] Hint Extern 1 (okH _ (kdo _ _)) => by apply okH_kdo : hid.
#[export] Hint Extern 1 (okH _ (kc _ (HidAdd _ _ _ _))) => by apply okH_hid_add : hid.

Section handlers.
Context {E : Type} (C0 : ByteChannel E) {L0 : ByteChannelLaws C0}.
Context (k_ans : list (E + kcall) → kcall → Z)
  (acks : list (E + kcall) → Z → list (dchid_hdr * list Z))
  (fw_file : list (E + kcall) → list Z) (HOST_VENDOR_ID_APPLE : Z).
Hypothesis Hacks : ∀ t j, Forall (λ a, Forall is_byte a.2) (acks t j).
Hypothesis Hdup : ∀ t, k_ans t Kstrdup ≠ 0.
Hypothesis Hfw : ∀ t, FW_HEADER_SIZE ≤ Z.of_nat (length (fw_file t)).

(** The comm interface is always there. *)
Lemma okH_comm {A} js (m : H (Ev := E + kcall) A) : okH (push 0 js) m → okH js m.
Proof.
  intros Hm d t Hd. destruct (inv_comm d t (proj1 Hd)) as [i Hi].
  eapply (okH_at 0 i); [done|done|unfold MAX_INTERFACES; lia|done].
Qed.

Lemma okH_comm_cmd' js x data : Forall is_byte (x :: data) → okH js (dchid_comm_cmd C0 acks (x :: data)).
Proof. intros. apply okH_comm, okH_comm_cmd; [done|done|apply list_elem_of_here|done]. Qed.

Lemma okH_enable js j : j ∈ present js → okH js (dchid_enable_interface C0 acks j).
Proof.
  intros. unfold dchid_enable_interface. apply okH_ptr; [done|]. intros i _. apply okH_comm_cmd'.
  repeat apply List.Forall_cons; try apply List.Forall_nil; try apply u8_range; unfold is_byte, CMD_ENABLE_INTERFACE; lia.
Qed.

Lemma okH_reset js j state : j ∈ present js → okH js (dchid_reset_interface C0 acks j state).
Proof.
  intros. unfold dchid_reset_interface. apply okH_ptr; [done|]. intros i _. apply okH_comm_cmd'.
  repeat apply List.Forall_cons; try apply List.Forall_nil; try apply u8_range; unfold is_byte, CMD_RESET_INTERFACE; lia.
Qed.

Lemma okH_get_report js j n buf len :
  j ∈ present js → is_byte n → okH js (dchid_get_report_cmd C0 acks j n buf len).
Proof.
  intros. unfold dchid_get_report_cmd. apply okH_bind; [|hid_auto].
  apply okH_command; [done|done|done|]. by apply List.Forall_cons.
Qed.

Lemma okH_send_firmware js j fw : j ∈ present js → okH js (dchid_send_firmware C0 k_ans acks j fw).
Proof.
  intros. unfold dchid_send_firmware. hid_auto. apply okH_comm_cmd'. simpl.
  repeat apply List.Forall_cons; try apply List.Forall_nil; try apply u8_range;
    unfold is_byte, CMD_SEND_FIRMWARE; lia.
Qed.

Lemma okH_get_firmware js j : j ∈ present js → okH js (dchid_get_firmware k_ans fw_file j).
Proof.
  intros Hj. assert (∀ fw, okH js (check_firmware k_ans j fw)) as Hcheck
    by (intros; unfold check_firmware; hid_auto).
  unfold dchid_get_firmware. hid_auto. intros d t Hd. pose proof (Hfw t). cbv zeta.
  destruct (Z.ltb_spec (Z.of_nat (length (fw_file t))) FW_HEADER_SIZE); [lia|]. by apply Hcheck.
Qed.

Lemma okH_request_gpio js j : j ∈ present js → okH js (dchid_request_gpio k_ans j).
Proof. intros. unfold dchid_request_gpio. hid_auto. Qed.

Lemma okH_descriptor js j desc : j ∈ present js → okH js (dchid_handle_descriptor k_ans j desc).
Proof. intros. unfold dchid_handle_descriptor. hid_auto. Qed.

Hint Resolve okH_enable okH_reset okH_get_report okH_send_firmware okH_get_firmware
  okH_request_gpio okH_descriptor : hid.

Lemma okH_start_interface js j :
  j ∈ present js → okH js (dchid_start_interface C0 k_ans acks fw_file j).
Proof. intros. unfold dchid_start_interface, start_steps. hid_auto. Qed.
Hint Resolve okH_start_interface : hid.

Lemma okH_start js j : j ∈ present js → okH js (dchid_start k_ans j).
Proof. intros. unfold dchid_start. hid_auto. Qed.
Lemma okH_stop js j : j ∈ present js → okH js (dchid_stop k_ans j).
Proof. intros. unfold dchid_stop. hid_auto. Qed.
Lemma okH_open js j : j ∈ present js → okH js (dchid_open C0 k_ans acks fw_file j).
Proof. intros. unfold dchid_open. hid_auto. Qed.
Lemma okH_close js j : j ∈ present js → okH js (dchid_close (E := E) j).
Proof. intros. unfold dchid_close. hid_auto. Qed.

Lemma okH_raw_request js j n buf rtype reqtype :
  j ∈ present js → is_byte n → buf ≠ [] → Forall is_byte buf →
  okH js (dchid_raw_request C0 acks j n buf rtype reqtype).
Proof.
  intros Hj Hn Hne Hb. destruct buf as [|x buf]; [done|]. unfold dchid_raw_request, dchid_set_report.
  hid_auto; apply okH_command; try done. by apply List.Forall_cons.
Qed.

Lemma okH_create_work js j :
  j ∈ present js → j ∈ started js → okH js (dchid_create_interface_work C0 k_ans acks j).
Proof.
  intros Hj Hs. unfold dchid_create_interface_work. apply okH_ptr; [done|]. intros i [n Hn].
  rewrite Hn. hid_auto.
Qed.

Lemma create_eq j i d t :
  iface_at j d = Some i →
  dchid_create_interface k_ans j d t =
  if creating (life i) then (Ok (- EBUSY, d), t)
  else (Ok (k_ans t (QueueCreate j), set_iface j (with_life (set_creating true) i) d),
        t ++ [inr (QueueCreate j)]).
Proof.
  intros Hi. unfold dchid_create_interface. rewrite H_bind_eq, (iface_ptr_some j d i) by done.
  destruct (creating (life i)); [done|]. by rewrite H_bind_eq, (modify_iface_some j _ d i) by done.
Qed.

(** An interface is created when the device information is there, or for STM. *)
Lemma create_ok js d t j i :
  known js d t → 0 ≤ j → iface_at j d = Some i →
  id_ready d = true ∨ name i = Some (str "stm") →
  okrun js (dchid_create_interface k_ans j d t).
Proof.
  intros Hd Hj Hi Hid. rewrite (create_eq j i) by done. destruct (creating (life i)) eqn:Hc; [exact Hd|].
  apply (known_set js j _ i); [|apply Hd|done|done|done]. apply inv_queue; try done. apply Hd.
Qed.

Lemma create_deferred_ok js l : Forall (λ j, 0 ≤ j < MAX_INTERFACES) l → ∀ d t,
  known js d t → id_ready d = true → okrun js (create_deferred k_ans l d t).
Proof.
  induction l as [|j l IH]; intros Hl d t Hd Hid; [exact Hd|].
  apply List.Forall_cons_iff in Hl as [Hj Hl]. cbn [create_deferred]. rewrite H_bind_eq. unfold get_hid.
  cbv iota. destruct (iface_at j d) as [i|] eqn:Hi; [|by apply IH].
  destruct (deferred (life i)); [|by apply IH]. rewrite H_bind_eq.
  pose proof (create_ok js d t j i Hd ltac:(lia) Hi (or_introl Hid)) as Hc.
  rewrite (create_eq j i) in * by done. destruct (creating (life i)); by apply IH.
Qed.

Lemma okH_stm_ready js j :
  j ∈ present js → okH js (stm_ready C0 k_ans acks HOST_VENDOR_ID_APPLE j).
Proof.
  intros Hj. unfold stm_ready. apply okH_bind; [hid_auto|]. intros d0.
  apply okH_bind; [apply okH_get_report; [done|by compute]|]. intros [ret b]. cbv zeta.
  apply okH_bind; [by apply (okH_ids js (λ d, (_, serial d)) id_ready)|]. intros _.
  apply okH_bind; [apply okH_get_report; [done|by compute]|]. intros [ret2 b2].
  intros d t Hd. rewrite H_bind_eq. unfold modify. cbv beta iota. apply create_deferred_ok; [|split|done].
  - apply List.Forall_forall. intros k Hk. apply list_elem_of_In, elem_of_seqZ in Hk. lia.
  - apply inv_ids; [apply Hd|done].
  - apply Hd.
Qed.
Hint Resolve okH_stm_ready : hid.

Lemma byte_range mem k : Forall is_byte mem → 0 ≤ byte_at mem k.
Proof. intros H. pose proof (byte_at_range mem k H). unfold is_byte in *. lia. Qed.

Lemma okH_ready js mem len :
  Forall is_byte mem → len ≤ Z.of_nat (length mem) → okH js (dchid_handle_ready C0 k_ans acks HOST_VENDOR_ID_APPLE mem len).
Proof.
  intros Hb Hl. unfold dchid_handle_ready. destruct (Z.ltb_spec len 2); [hid_auto|].
  apply okH_need; [lia|]. cbv zeta.
  destruct (Z.geb_spec (byte_at mem 1) MAX_INTERFACES); [hid_auto|].
  apply okH_get. intros d t Hd. destruct (iface_at (byte_at mem 1) d) as [i|] eqn:Hi; [|exact Hd].
  destruct (inv_name d t (proj1 Hd) _ _ (byte_range mem 1 Hb) Hi) as [n Hn]. rewrite Hn.
  eapply (okH_at (byte_at mem 1) i); [|done|split; [by apply byte_range|lia]|done]. hid_auto.
Qed.

Lemma okH_gpio js mem len :
  Forall is_byte mem → len ≤ Z.of_nat (length mem) → okH js (dchid_handle_gpio C0 k_ans acks mem len).
Proof.
  intros Hb Hl. unfold dchid_handle_gpio. destruct (Z.ltb_spec len GPIO_CMD_SIZE); [hid_auto|].
  apply okH_need; [lia|]. apply okH_bind.
  - unfold gpio_pulse. cbv zeta. apply okH_get. intros d t Hd.
    destruct (Z.geb_spec (byte_at mem 1) MAX_INTERFACES); [exact Hd|]. cbn [orb].
    destruct (iface_at (byte_at mem 1) d) as [i|] eqn:Hi; [|exact Hd].
    eapply (okH_at (byte_at mem 1) i); [|done|split; [by apply byte_range|lia]|done].
    simpl. hid_auto.
  - intros r. apply okH_bind; [hid_auto|]. intros ack. apply okH_if; [hid_auto|]. apply okH_need; [done|].
    hid_auto. apply okH_comm_cmd'. apply List.Forall_cons; [by compute|].
    apply Forall_app. split; [apply put_le32_bytes|by apply Forall_take].
Qed.

(** An interface that is announced: nothing changes, or it is there afterwards. *)
Definition got (js : ctx) (idx : Z)
    (r : result fault (option Z * dockchannel_hid) * list (E + kcall)) : Prop :=
  match r with
  | (Ok (Some j, d'), t') => j = idx ∧ known (push idx js) d' t'
  | (Ok (None, d'), t') => known js d' t'
  | (Err _, _) => False
  end.

Lemma new_iface_got js idx n node d (t : list (E + kcall)) :
  known js d t → 0 ≤ idx < MAX_INTERFACES → iface_at idx d = None →
  known (push idx js) (set_iface idx (Iface idx (Some n) node (CmdState 0 0 (-1) 0 None 0 0) new_life) d) t.
Proof.
  intros [Hinv [Hjs Hc]] Hr Hi. set (i := Iface _ _ _ _ _).
  assert (iface_at idx (set_iface idx i d) = Some i) as Hat.
  { apply iface_at_slot. simpl. apply list_lookup_insert_eq.
    rewrite (wf_slots d (inv_wf d t Hinv)). unfold MAX_INTERFACES in *. lia. }
  split; [apply inv_new; [done|done|done|done|by compute|by eexists|done]|]. split; simpl.
  - apply List.Forall_cons; [split; [done|by rewrite Hat]|].
    eapply List.Forall_impl; [|exact Hjs]. intros k [Hk Hs]. split; [done|].
    destruct (decide (idx = k)) as [-> | ?]; [by rewrite Hat|]. by rewrite iface_at_set_ne by lia.
  - eapply List.Forall_impl; [|exact Hc]. unfold is_creating. intros k [Hk Hs]. split; [done|].
    destruct (decide (idx = k)) as [-> | ?]; [by rewrite Hi in Hs|]. by rewrite iface_at_set_ne by lia.
Qed.

Lemma known_kcall js k d (t : list (E + kcall)) : neutral k = true → known js d t → known js d (t ++ [inr k]).
Proof. intros Hk [? ?]. split; [by apply inv_kcall|done]. Qed.

Lemma get_interface_got js idx n d t :
  known js d t → 0 ≤ idx → got js idx (dchid_get_interface k_ans idx (Some n) d t).
Proof.
  intros Hd Hidx. unfold dchid_get_interface.
  destruct (Z.geb_spec idx MAX_INTERFACES); [exact Hd|]. rewrite H_bind_eq. unfold get_hid. cbv iota.
  destruct (iface_at idx d) as [i|] eqn:Hi.
  { split; [done|]. destruct Hd as [? [? ?]]. split; [done|]. split; [|done].
    apply List.Forall_cons; [|done]. split; [lia|]. by exists i. }
  unfold kc. hstep. pose proof (known_kcall js (Kzalloc 1) d t eq_refl Hd) as Hd1.
  destruct (_ =? 0); [exact Hd1|]. hstep.
  pose proof (known_kcall js AllocWq d _ eq_refl (known_kcall js Kstrdup d _ eq_refl Hd1)) as Hd2.
  destruct (Z.eqb_spec (k_ans (t ++ [inr (Kzalloc 1)]) Kstrdup) 0) as [E0|_]; [by apply Hdup in E0|].
  destruct (_ =? 0); [exact Hd2|]. destruct (eq_str n "comm").
  { hstep. split; [done|]. apply new_iface_got; [done|lia|done]. }
  hstep. pose proof (known_kcall js (OfChild n) d _ eq_refl Hd2) as Hd3.
  destruct (_ =? 0); [exact Hd3|]. hstep. split; [done|]. apply new_iface_got; [done|lia|done].
Qed.

Lemma okH_init_block js j type blen mem len :
  j ∈ present js → blen ≤ len → len ≤ Z.of_nat (length mem) →
  okH js (init_block k_ans j type blen mem len).
Proof.
  intros Hj Hb Hl. unfold init_block. apply okH_if; [apply okH_need; [lia|hid_auto]|].
  apply okH_if; [|hid_auto]. destruct (Z.gtb_spec GPIO_REQUEST_SIZE len); [hid_auto|].
  apply okH_need; [lia|]. hid_auto.
Qed.

(** The loop over the blocks ends: every turn takes at least four bytes. *)
Lemma okH_init_loop js j fuel : j ∈ present js → ∀ mem len,
  Forall is_byte mem → len ≤ Z.of_nat (length mem) → (Z.to_nat len < fuel)%nat →
  okH js (init_loop k_ans fuel j mem len).
Proof.
  intros Hj. induction fuel as [|fuel IH]; intros mem len Hb Hl Hf; [lia|]. cbn [init_loop].
  destruct (Z.ltb_spec len 4); [hid_auto|]. apply okH_need; [lia|]. cbv zeta.
  assert (0 ≤ le16_at mem 2) as H0.
  { unfold le16_at. pose proof (byte_range mem 2 Hb). pose proof (byte_range mem 3 Hb). simpl. lia. }
  destruct (Z.gtb_spec (le16_at mem 2) (len - 4)); [hid_auto|].
  apply okH_bind; [apply okH_init_block; [done|done|rewrite length_drop; lia]|]. intros _.
  apply okH_if; [hid_auto|]. apply IH; [by repeat apply Forall_drop|rewrite !length_drop; lia|lia].
Qed.

Lemma okH_init_finish js j : j ∈ present js → okH js (init_finish k_ans j).
Proof.
  intros Hj d t Hd. destruct (known_elem js j d t Hd Hj) as (Hr & i & Hi & [m Hm]). unfold init_finish.
  rewrite H_bind_eq, (iface_ptr_some j d i) by done. rewrite H_bind_eq. unfold get_hid. cbv iota.
  rewrite Hm, H_bind_eq.
  assert (∀ b : bool, (b = true → id_ready d = true ∨ name i = Some (str "stm")) →
    okrun js ((if b then dchid_create_interface k_ans j;; mret tt
               else modify_iface j (with_life (set_deferred true))) d t)) as Hend.
  { intros [|] Hid; [|by apply okH_life].
    rewrite H_bind_eq. pose proof (create_ok js d t j i Hd ltac:(lia) Hi (Hid eq_refl)) as Hc.
    destruct (dchid_create_interface k_ans j d t) as [[[a d2]|e] t2]; exact Hc. }
  destruct (id_ready d) eqn:Hid; rewrite H_ret_eq.
  { apply (Hend true). by left. }
  apply (Hend (eq_str m "stm")). intros Hs. right. rewrite Hm. f_equal. by apply bool_decide_eq_true in Hs.
Qed.

Lemma okH_init js mem len :
  Forall is_byte mem → len ≤ Z.of_nat (length mem) → is_Some (cstr (drop 4 mem)) → okH js (dchid_handle_init k_ans mem len).
Proof.
  intros Hb Hl [n Hn] d t Hd. unfold dchid_handle_init. rewrite Hn.
  destruct (Z.ltb_spec len INIT_HDR_SIZE); [exact Hd|]. rewrite need_eq by lia. rewrite H_bind_eq.
  pose proof (get_interface_got js (byte_at mem 3) n d t Hd (byte_range mem 3 Hb)) as Hg.
  destruct (dchid_get_interface _ _ _ _ _) as [[[[j|] d1]|e] t1]; [|exact Hg|done].
  destruct Hg as [-> Hd1]. apply (okrun_weaken (byte_at mem 3)). revert d1 t1 Hd1. apply okH_bind.
  - unfold INIT_HDR_SIZE in *.
    apply okH_init_loop; [apply list_elem_of_here|by apply Forall_drop|rewrite length_drop; lia|lia].
  - intros _. apply okH_if; [apply okH_ret|]. apply okH_init_finish, list_elem_of_here.
Qed.

(** What a packet must be for its handlers not to read behind its end: the bytes its
    header promises, a sub-header and one byte, and a terminated name in an
    announcement. *)
Record packet_ok (p : packet) : Prop := {
  po_bytes : Forall is_byte (p_data p);
  po_length : 9 ≤ Z.of_nat (length (p_data p));
  po_header : hdr_length (p_hdr p) ≤ Z.of_nat (length (p_data p));
  po_name : byte_at (p_data p) 8 = EVENT_INIT → is_Some (cstr (drop 12 (p_data p)))
}.

Lemma okH_packet_work js j p :
  j ∈ present js → packet_ok p →
  okH js (dchid_packet_work C0 k_ans acks HOST_VENDOR_ID_APPLE j p).
Proof.
  intros Hj [Hb Hl Hh Hn]. unfold dchid_packet_work. cbv zeta.
  destruct (Z.ltb_spec (Z.of_nat (length (p_data p))) SUBHDR_SIZE) as [|_]; [unfold SUBHDR_SIZE in *; lia|].
  destruct (Z.gtb_spec (sub_length (sub_of (p_data p)) + SUBHDR_SIZE) (hdr_length (p_hdr p))); [hid_auto|].
  assert (sub_length (sub_of (p_data p)) ≤ Z.of_nat (length (drop 8 (p_data p)))) as Hsub.
  { rewrite length_drop. unfold SUBHDR_SIZE in *. lia. }
  apply okH_bind; [|hid_auto]. apply okH_if; [|hid_auto]. apply okH_if.
  - unfold dchid_handle_event. pose proof (Forall_drop _ 8 _ Hb) as Hb8.
    assert (byte_at (p_data p) 8 = byte_at (drop 8 (p_data p)) 0) as E0.
    { unfold byte_at. by rewrite !nth_lookup, lookup_drop. }
    replace (drop 12 (p_data p)) with (drop 4 (drop 8 (p_data p))) in Hn by apply drop_drop.
    rewrite E0 in Hn. destruct (drop 8 (p_data p)) as [|x rest] eqn:Ed.
    { apply (f_equal length) in Ed. rewrite length_drop in Ed. simpl in Ed. lia. }
    destruct (Z.eqb_spec x EVENT_INIT) as [-> |]; [apply okH_init; [done|done|by apply Hn]|].
    apply okH_if; [by apply okH_ready|]. apply okH_if; [by apply okH_gpio|hid_auto].
  - apply okH_need; [done|]. unfold dchid_handle_report. hid_auto.
Qed.
End handlers.

(** ** The driver as a whole *)

(** The activities that run one after the other: a received report on the work queue
    of its interface, the creation of an interface, and the calls of the HID core. *)
Inductive hid_op :=
| OpPacket (j : Z) (p : packet)
| OpCreate (j : Z)
| OpStart (j : Z) | OpStop (j : Z) | OpOpen (j : Z) | OpClose (j : Z)
| OpRaw (j n : Z) (buf : list Z) (rtype reqtype : Z).

(** The zeroed structure. *)
Definition hid_zero : dockchannel_hid :=
  DcHid (Dockchannel 0 false 0) false (replicate 11 0) (replicate 64 0)
    (replicate (Z.to_nat MAX_INTERFACES) None) (replicate (Z.to_nat MAX_PKT_SIZE) 0).

Section system.
Context {E : Type} (C0 : ByteChannel E).
Context (k_ans : list (E + kcall) → kcall → Z)
  (acks : list (E + kcall) → Z → list (dchid_hdr * list Z))
  (fw_file : list (E + kcall) → list Z) (HOST_VENDOR_ID_APPLE : Z).

Definition run_op (o : hid_op) : H (Ev := E + kcall) unit :=
  match o with
  | OpPacket j p => dchid_packet_work C0 k_ans acks HOST_VENDOR_ID_APPLE j p
  | OpCreate j => dchid_create_interface_work C0 k_ans acks j
  | OpStart j => dchid_start k_ans j;; mret tt
  | OpStop j => dchid_stop k_ans j
  | OpOpen j => dchid_open C0 k_ans acks fw_file j;; mret tt
  | OpClose j => dchid_close j
  | OpRaw j n buf rtype reqtype => dchid_raw_request C0 acks j n buf rtype reqtype;; mret tt
  end.

Definition has_iface (j : Z) (d : dockchannel_hid) : Prop :=
  0 ≤ j < MAX_INTERFACES ∧ is_Some (iface_at j d).

(** When an activity can run: on an interface that exists, with a packet that is
    long enough, with a buffer that holds a report number; a creation when it has
    been queued. *)
Definition op_enabled (o : hid_op) (d : dockchannel_hid) (t : list (E + kcall)) : Prop :=
  match o with
  | OpPacket j p => has_iface j d ∧ packet_ok p
  | OpCreate j => 0 ≤ j ∧ (0 < queued j t)%nat
  | OpStart j | OpStop j | OpOpen j | OpClose j => has_iface j d
  | OpRaw j n buf _ _ => has_iface j d ∧ is_byte n ∧ buf ≠ [] ∧ Forall is_byte buf
  end.

(** The states the driver can reach from a successful probe. *)
Inductive reach : dockchannel_hid → list (E + kcall) → Prop :=
| reach_probe stm props init d t :
    (∀ e, init = Err e → e < 0) →
    dockchannel_hid_probe k_ans stm props init hid_zero [] = (Ok (0, d), t) → reach d t
| reach_irq avail d t w d' t' :
    reach d t →
    dchid_handle_packet (C := sum_channel C0) inr k_ans (irq_entry avail d) t = (Ok (w, d'), t') →
    reach d' t'
| reach_op o d t d' t' :
    reach d t → op_enabled o d t → run_op o d t = (Ok (tt, d'), t') → reach d' t'.

Hypothesis L0 : ByteChannelLaws C0.
Hypothesis Hacks : ∀ t j, Forall (λ a, Forall is_byte a.2) (acks t j).
Hypothesis Hdup : ∀ t, k_ans t Kstrdup ≠ 0.
Hypothesis Hfw : ∀ t, FW_HEADER_SIZE ≤ Z.of_nat (length (fw_file t)).

Lemma known_one j d (t : list (E + kcall)) : inv d t → has_iface j d → known (Ctx [j] []) d t.
Proof. intros Hinv Hj. split; [done|]. split; [by apply List.Forall_cons|done]. Qed.

Lemma op_ok o d t : inv d t → op_enabled o d t → ∃ js, okrun js (run_op o d t).
Proof.
  intros Hinv Hen. assert (∀ j, j ∈ present (Ctx [j] [])) as Hin by (intros; apply list_elem_of_here).
  destruct o as [j p|j|j|j|j|j|j n buf rt rq]; simpl in Hen.
  - destruct Hen as [Hj Hp]. exists (Ctx [j] []). apply okH_packet_work; try done. by apply known_one.
  - destruct Hen as [Hj Hq]. exists (Ctx [j] [j]). apply okH_create_work; try done.
    rewrite (inv_once d t Hinv j Hj) in Hq. destruct (is_creating j d) eqn:Hc; [|lia].
    split; [done|]. split; [|by apply List.Forall_cons].
    unfold is_creating in Hc. destruct (iface_at j d) as [i|] eqn:Hi; [|done].
    apply List.Forall_cons; [|done]. split; [|by rewrite Hi].
    pose proof (iface_at_lt j d i Hi) as Hlt. rewrite (wf_slots d (inv_wf d t Hinv)) in Hlt. lia.
  - exists (Ctx [j] []). apply (okH_bind _ (dchid_start k_ans j)); [by apply okH_start|intros; apply okH_ret|by apply known_one].
  - exists (Ctx [j] []). apply okH_stop; [done|by apply known_one].
  - exists (Ctx [j] []). apply (okH_bind _ (dchid_open C0 k_ans acks fw_file j));
      [by apply okH_open|intros; apply okH_ret|by apply known_one].
  - exists (Ctx [j] []). apply okH_close; [done|by apply known_one].
  - destruct Hen as (Hj & Hn & Hne & Hb). exists (Ctx [j] []).
    apply (okH_bind _ (dchid_raw_request C0 acks j n buf rt rq));
      [by apply okH_raw_request|intros; apply okH_ret|by apply known_one].
Qed.

Lemma inv_with_dc c d (t : list (E + kcall)) : inv d t → inv (with_dc c d) t.
Proof. intros [? ? ? ? ? ?]. split; try done. by apply with_dc_wf. Qed.

Lemma inv_filled got d (t : list (E + kcall)) :
  inv d t → Z.of_nat (length got) ≤ MAX_PKT_SIZE → inv (filled got d) t.
Proof. intros [? ? ? ? ? ?] Hg. split; try done. by apply filled_wf. Qed.

Lemma recv_inl n (t : list (E + kcall)) :
  ∃ ret got evs, ch_recv (ByteChannel := sum_channel C0) n t = ((Some ret, got), t ++ (inl <$> evs)) ∧
    Forall is_byte got ∧ (length got ≤ n)%nat.
Proof.
  destruct (ch_recv_law n (lefts t)) as (ret & got & evs & Er & Hg & Hn).
  exists ret, got, evs. split; [by apply lift_left_eq|]. rewrite Hg, length_stream.
  split; [apply stream_bytes, ch_src_byte|]. destruct Hn as [[_ ->]|[_ ?]]; done.
Qed.

(** The invariant survives a run that does not fault. *)
Definition inv_run {A} (r : result fault (A * dockchannel_hid) * list (E + kcall)) : Prop :=
  match r with (Ok (_, d), t) => inv d t | (Err _, _) => True end.

Lemma body_inv raw d t :
  inv d t → Forall is_byte raw → inv_run (handle_body inr k_ans raw d t).
Proof.
  intros Hinv Hraw. unfold handle_body. hstep.
  destruct (checksum_ok _ _); [|by apply inv_with_dc]. cbn [negb].
  destruct (ifaces d !! _) as [[i|]|] eqn:Hs; [|by apply inv_with_dc|done].
  apply iface_at_slot in Hs. destruct (hdr_channel _ =? _).
  - rewrite H_bind_eq, (modify_iface_some _ _ _ i) by done. hstep. apply inv_with_dc.
    apply (inv_update d t _ i); try done.
    + apply (ho_iface _ (hdr_of_ok raw Hraw)).
    + simpl. rewrite handle_ack_seq. eapply (wf_seq d (inv_wf d t Hinv)). by apply iface_at_slot.
  - hstep. destruct (_ =? 0); [by apply inv_kcall|]. hstep. apply inv_with_dc. by repeat (apply inv_kcall; [done|]).
Qed.

Lemma irq_inv avail d t :
  inv d t → inv_run (dchid_handle_packet (C := sum_channel C0) inr k_ans (irq_entry avail d) t).
Proof.
  intros Hinv. apply (inv_with_dc (dockchannel_rx_irq_thread avail (dockchannel_rx_irq (dc d)).2).2) in Hinv.
  fold (irq_entry avail d) in Hinv. revert Hinv. generalize (irq_entry avail d). clear d. intros d Hinv.
  unfold dchid_handle_packet. rewrite H_bind_eq. unfold liftH at 1.
  destruct (recv_inl 8 t) as (ret & raw & e1 & -> & Hraw & _). cbv beta iota.
  pose proof (inv_inl d t e1 Hinv) as Hinv1. destruct (bool_decide _); [|done]. cbn [negb].
  destruct (hdr_len _ =? 8); [|by apply inv_with_dc]. cbn [negb]. rewrite H_bind_eq. unfold liftH.
  destruct (recv_inl (Z.to_nat (hdr_length (hdr_of raw) + 4)) (t ++ (inl <$> e1)))
    as (ret2 & got & e2 & -> & Hgot & Hn). cbv beta iota. hstep. fold (filled got d).
  assert (inv (filled got d) ((t ++ (inl <$> e1)) ++ (inl <$> e2))) as Hinv2.
  { apply inv_filled; [by apply inv_inl|]. pose proof (ho_length _ (hdr_of_ok raw Hraw)).
    unfold MAX_PKT_SIZE. lia. }
  destruct (bool_decide _); [by apply body_inv|by apply inv_with_dc].
Qed.

(** The probe only makes neutral calls. *)
Lemma probe_gpios_run props d t : ∃ b ks,
  probe_gpios k_ans props d t = (Ok (b, d), t ++ (inr <$> ks)) ∧ forallb neutral ks = true.
Proof.
  revert t. induction props as [|n props IH]; intros t; cbn [probe_gpios].
  { exists false, []. by rewrite app_nil_r. }
  destruct (is_gpio_property n); cbn [negb]; [|apply IH].
  unfold kc. hstep. destruct (_ =? _); [by exists true, [GpioGet n]|].
  destruct (IH (t ++ [inr (GpioGet n)])) as (b & ks & -> & Hks). exists b, (GpioGet n :: ks).
  by rewrite <- app_assoc.
Qed.

Lemma inv_start d (t : list (E + kcall)) c r x y i :
  d = with_dc c (set_iface 0 i (with_ids r x y hid_zero)) →
  forallb neutral (kcalls t) = true → index i = 0 → is_byte (tx_seq (cmd i)) → is_Some (name i) →
  creating (life i) = false → inv d t.
Proof.
  intros -> Hk Hx Hq Hn Hc. apply inv_with_dc.
  assert (∀ k, k ∈ kcalls t → neutral k = true) as Hin.
  { intros k Hk'. rewrite forallb_forall in Hk. by apply Hk, list_elem_of_In. }
  assert (∀ k i', iface_at k (set_iface 0 i (with_ids r x y hid_zero)) = Some i' →
    Z.to_nat k = 0%nat ∧ i' = i) as Hslot.
  { intros k i' Hi%iface_at_slot. destruct (Z.to_nat k) as [|m]; [by injection Hi as <-|].
    change (replicate 15 (@None dchid_iface) !! m = Some (Some i')) in Hi.
    by apply lookup_replicate in Hi as [? _]. }
  split.
  - split; [done| | |vm_compute; reflexivity].
    + intros j i' Hj. destruct (Hslot (Z.of_nat j) i') as [? ->]; [apply iface_at_slot; by rewrite Nat2Z.id|]. lia.
    + intros j i' Hj. by destruct (Hslot (Z.of_nat j) i') as [? ->]; [apply iface_at_slot; by rewrite Nat2Z.id|].
  - by exists i.
  - intros j i' _ Hi. by apply Hslot in Hi as [_ ->].
  - intros j Hj. assert (is_creating j (set_iface 0 i (with_ids r x y hid_zero)) = false) as ->.
    { unfold is_creating. destruct (iface_at _ _) eqn:Ei; [|done]. by apply Hslot in Ei as [_ ->]. }
    unfold queued. destruct (List.filter _ _) as [|k l] eqn:Ef; [done|].
    assert (In k (List.filter (λ k, bool_decide (k = QueueCreate j)) (kcalls t))) as Hkin
      by (rewrite Ef; by left).
    apply filter_In in Hkin as [Hkin Hkq]. apply bool_decide_eq_true in Hkq as ->.
    apply list_elem_of_In, Hin in Hkin. done.
  - intros j i' _ Hi Hcr. apply Hslot in Hi as [_ ->]. by rewrite Hc in Hcr.
  - intros j v p r' Ha. by apply Hin in Ha.
Qed.

Lemma hid_probe_inv stm props init d t :
  (∀ e, init = Err e → e < 0) →
  dockchannel_hid_probe k_ans stm props init hid_zero [] = (Ok (0, d), t) → inv d t.
Proof.
  intros Hinit.
  unfold dockchannel_hid_probe, kc. hstep. destruct (Z.eqb_spec (k_ans [] (Probe 0)) 0) as [_|Hne];
    cbn [negb]; [|intros [= ? _ _]; congruence].
  hstep. destruct (_ =? 0); [done|]. hstep.
  destruct (probe_gpios_run props (with_ids (negb stm) (device_id hid_zero) (serial hid_zero) hid_zero)
    (([] ++ [inr (Probe 0)]) ++ [inr (Kzalloc 3)])) as (b & ks & -> & Hks). destruct b; [done|].
  hstep. do 4 (destruct (_ =? 0); [done|]; hstep).
  destruct init as [c|e]; [|specialize (Hinit e eq_refl); intros [= -> _ _]; lia]. hstep.
  destruct (_ =? 0); [done|]. unfold dchid_get_interface, kc.
  change (IFACE_COMM >=? MAX_INTERFACES) with false. cbv iota. hstep.
  change (iface_at IFACE_COMM _) with (@None dchid_iface). cbv iota. hstep.
  destruct (_ =? 0); [done|]. hstep.
  match goal with |- context [k_ans ?x Kstrdup =? 0] =>
    destruct (Z.eqb_spec (k_ans x Kstrdup) 0) as [E0|_]; [by apply Hdup in E0|] end.
  destruct (_ =? 0); [done|]. change (eq_str (str "comm") "comm") with true. cbv iota. hstep.
  intros [= <- <-]. eapply inv_start; [reflexivity| | | | |]; try done.
  match goal with |- context [kcalls (?a :: ?b :: ?l)] => change (a :: b :: l) with ([a; b] ++ l) end.
  by rewrite !kcalls_app, kcalls_inr, !forallb_app, Hks.
Qed.

Lemma reach_inv d t : reach d t → inv d t.
Proof.
  induction 1 as [stm props init d t Hinit Hp|avail d t w d' t' _ IH Hr|o d t d' t' _ IH He Hr].
  - by eapply hid_probe_inv.
  - pose proof (irq_inv avail d t IH) as Hi. by rewrite Hr in Hi.
  - destruct (op_ok o d t IH He) as [js Ho]. rewrite Hr in Ho. apply Ho.
Qed.
End system.


(** Interfaces are created in order and once: in every reachable state the
    creation of an interface has been queued at most once; it has been queued only
    when the device information of STM is there or for STM itself, so that no HID
    device is registered with the identity of an unknown machine before STM had its
    chance; and a HID device is only registered for an interface whose creation was
    queued. *)
Theorem hid_creation_order {E} (C0 : ByteChannel E) k_ans acks fw_file vendor d t j i :
  ByteChannelLaws C0 → (∀ t j, Forall (λ a, Forall is_byte a.2) (acks t j)) →
  (∀ t, k_ans t Kstrdup ≠ 0) → (∀ t, FW_HEADER_SIZE ≤ Z.of_nat (length (fw_file t))) →
  reach C0 k_ans acks fw_file vendor d t → 0 ≤ j → iface_at j d = Some i →
  (queued j t ≤ 1)%nat ∧
  (0 < queued j t → id_ready d = true ∨ name i = Some (str "stm"))%nat ∧
  (∀ v p r, HidAdd j v p r ∈ kcalls t → queued j t = 1%nat).
Proof.
  intros L Hacks Hdup Hfw Hr Hj Hi.
  pose proof (reach_inv C0 k_ans acks fw_file vendor L Hacks Hdup Hfw d t Hr) as [_ _ _ Ho Hid Ha].
  specialize (Ho j Hj). unfold is_creating in Ho. rewrite Hi in Ho.
  destruct (creating (life i)) eqn:Hc; rewrite Ho; repeat split; try lia.
  - intros _. by eapply Hid.
  - intros v p r Hin. apply Ha in Hin as [_ ?]. lia.
Qed.

(** ** The announcement of an interface *)

(** A block: its type and its content. *)
Definition block : Type := Z * list Z.
Definition block_bytes (b : block) : list Z :=
  put_le16 b.1 ++ put_le16 (Z.of_nat (length b.2)) ++ b.2.
Definition blocks_bytes (bs : list block) : list Z := mjoin (block_bytes <$> bs).

Definition block_ok (b : block) : Prop :=
  0 ≤ b.1 < 2 ^ 16 ∧ Z.of_nat (length b.2) < 2 ^ 16 ∧ b.1 ≠ INIT_TERMINATOR ∧
  (b.1 = INIT_GPIO_REQUEST → Z.of_nat (length b.2) = GPIO_REQUEST_SIZE).

(** What a block means: the last descriptor and the first GPIO request count. *)
Definition apply_block (l : iface_life) (b : block) : iface_life :=
  if b.1 =? INIT_HID_DESCRIPTOR then set_desc (Some b.2) (Z.of_nat (length b.2)) l
  else if b.1 =? INIT_GPIO_REQUEST then
    if negb (gpio_id l =? 0) then l
    else set_gpio_req (strscpy (Z.to_nat MAX_GPIO_NAME) (take 32 (drop 4 b.2))) (le16_at b.2 2) l
  else l.

Definition announcement (idx u1 u2 pad : Z) (n : list Z) (bs : list block) : list Z :=
  [EVENT_INIT; u1; u2; idx] ++ (n ++ replicate (16 - length n) 0) ++ [0; pad] ++
  blocks_bytes bs ++ block_bytes (INIT_TERMINATOR, []).

Lemma set_iface_id j i d : iface_at j d = Some i → set_iface j i d = d.
Proof.
  intros Hi%iface_at_slot. unfold set_iface, with_ifaces. rewrite list_insert_id by done. by destruct d.
Qed.

Lemma with_life_with_life f g i : with_life f (with_life g i) = with_life (λ l, f (g l)) i.
Proof. done. Qed.

Lemma block_header b rest : block_ok b →
  le16_at (block_bytes b ++ rest) 0 = b.1 ∧
  le16_at (block_bytes b ++ rest) 2 = Z.of_nat (length b.2) ∧
  drop 4 (block_bytes b ++ rest) = b.2 ++ rest.
Proof.
  intros (Ht & Hl & _ & _). unfold block_bytes, le16_at, byte_at, put_le16. simpl.
  by rewrite !le16_put by lia.
Qed.

Lemma byte_at_app_l l1 l2 k : (k < length l1)%nat → byte_at (l1 ++ l2) k = byte_at l1 k.
Proof. intros. unfold byte_at. by rewrite app_nth1. Qed.

Section announce.
Context {E : Type} (k_ans : list (E + kcall) → kcall → Z).
Hypothesis Hk : ∀ t k, k_ans t k ≠ 0.

Lemma init_block_apply j i b rest len d (t : list (E + kcall)) :
  iface_at j d = Some i → has_hid (life i) = false → block_ok b →
  len = Z.of_nat (length b.2 + length rest) →
  ∃ evs, init_block k_ans j b.1 (Z.of_nat (length b.2)) (b.2 ++ rest) len d t =
    (Ok (tt, set_iface j (with_life (λ l, apply_block l b) i) d), t ++ evs) ∧ ∀ k, queued k evs = 0%nat.
Proof.
  intros Hi Hh (Ht & Hl & Hterm & Hg) Hlen.
  assert (with_life (λ l, l) i = i) as Hid by by destruct i.
  unfold init_block, apply_block. destruct (Z.eqb_spec b.1 INIT_HID_DESCRIPTOR) as [_|_].
  - rewrite need_eq by (rewrite length_app; lia).
    unfold dchid_handle_descriptor, kc. rewrite H_bind_eq, (iface_ptr_some j d i) by done. rewrite Hh. hstep.
    destruct (Z.eqb_spec (k_ans t Kmemdup) 0) as [E0|_]; [by apply Hk in E0|].
    rewrite Nat2Z.id, take_app_length, (modify_iface_some j _ d i) by done. by exists [inr Kmemdup].
  - destruct (Z.eqb_spec b.1 INIT_GPIO_REQUEST) as [Eg|_].
    + specialize (Hg Eg). destruct (Z.gtb_spec GPIO_REQUEST_SIZE len); [lia|].
      rewrite need_eq by (rewrite length_app; lia). unfold GPIO_REQUEST_SIZE in *.
      rewrite H_bind_eq, (iface_ptr_some j d i) by done. exists []. rewrite app_nil_r.
      destruct (gpio_id (life i) =? 0) eqn:E0; cbn [negb].
      * rewrite (modify_iface_some j _ d i) by done. unfold with_life. rewrite E0. cbn [negb].
        rewrite drop_app_le, take_app_le by (rewrite ?length_drop; lia).
        unfold le16_at. by rewrite !byte_at_app_l by lia.
      * rewrite H_ret_eq. unfold with_life. rewrite E0. cbn [negb]. fold (with_life (λ l, l) i).
        by rewrite Hid, set_iface_id.
    + exists []. rewrite app_nil_r, H_ret_eq, Hid, set_iface_id by done. done.
Qed.

Lemma apply_block_hid l b : has_hid (apply_block l b) = has_hid l.
Proof. unfold apply_block. by repeat case_if. Qed.

(** The parser does what the blocks mean. *)
Lemma init_loop_blocks bs : ∀ fuel j i rest len d (t : list (E + kcall)),
  Forall block_ok bs → iface_at j d = Some i → has_hid (life i) = false →
  len = Z.of_nat (length (blocks_bytes bs ++ block_bytes (INIT_TERMINATOR, []) ++ rest)) →
  (Z.to_nat len < fuel)%nat →
  ∃ evs, init_loop k_ans fuel j (blocks_bytes bs ++ block_bytes (INIT_TERMINATOR, []) ++ rest) len d t =
    (Ok (tt, set_iface j (with_life (λ l, fold_left apply_block bs l) i) d), t ++ evs) ∧
    ∀ k, queued k evs = 0%nat.
Proof.
  induction bs as [|b bs IH]; intros fuel j i rest len d t Hbs Hi Hh Hlen Hf.
  { destruct fuel as [|fuel]; [lia|]. cbn [init_loop]. simpl in Hlen.
    destruct (Z.ltb_spec len 4); [lia|]. rewrite need_eq by (simpl; lia). cbv zeta.
    change (le16_at _ 2) with 0. change (le16_at _ 0) with INIT_TERMINATOR.
    destruct (Z.gtb_spec 0 (len - 4)); [lia|]. exists []. rewrite app_nil_r.
    assert (with_life (λ l, fold_left apply_block [] l) i = i) as -> by by destruct i.
    by rewrite set_iface_id. }
  apply List.Forall_cons_iff in Hbs as [Hb Hbs]. destruct fuel as [|fuel]; [lia|]. cbn [init_loop].
  change (blocks_bytes (b :: bs)) with (block_bytes b ++ blocks_bytes bs) in *. rewrite <- app_assoc in *.
  set (more := blocks_bytes bs ++ block_bytes (INIT_TERMINATOR, []) ++ rest) in *.
  destruct (block_header b more Hb) as (E1 & E2 & E3).
  assert (len = 4 + Z.of_nat (length b.2 + length more)) as Hl.
  { rewrite Hlen, length_app. unfold block_bytes. rewrite !length_app. simpl. lia. }
  destruct (Z.ltb_spec len 4); [lia|]. rewrite need_eq by lia. cbv zeta. rewrite E1, E2, E3. clear E1 E2 E3.
  destruct (Z.gtb_spec (Z.of_nat (length b.2)) (len - 4)); [lia|]. rewrite H_bind_eq.
  destruct (init_block_apply j i b more (len - 4) d t Hi Hh Hb ltac:(lia)) as (e1 & -> & Q1).
  destruct (Z.eqb_spec b.1 INIT_TERMINATOR) as [E0|_]; [by destruct Hb as (_ & _ & ? & _)|].
  rewrite Nat2Z.id, drop_app_length. set (i1 := with_life _ i). set (d1 := set_iface j i1 d).
  destruct (IH fuel j i1 rest (len - 4 - Z.of_nat (length b.2)) d1 (t ++ e1) Hbs) as (e2 & E2 & Q2);
    [by apply (iface_at_set j d i)|simpl; by rewrite apply_block_hid|fold more; lia|lia|].
  fold more in E2. rewrite E2. exists (e1 ++ e2). rewrite app_assoc. unfold d1. rewrite set_set_iface.
  split; [done|]. intros k. by rewrite queued_app, Q1, Q2.
Qed.
End announce.

(** A name as it stands in an announcement. *)
Definition name_ok (n : list Z) : Prop :=
  (length n ≤ 15)%nat ∧ Forall (λ c, c ≠ 0) n ∧ eq_str n "comm" = false.

Lemma cstr_name n rest : Forall (λ c, c ≠ 0) n → cstr (n ++ 0 :: rest) = Some n.
Proof.
  induction 1 as [|c n Hc _ IH]; [done|]. simpl. destruct (Z.eqb_spec c 0); [done|]. by rewrite IH.
Qed.

Lemma announcement_layout idx u1 u2 pad n bs :
  name_ok n →
  let mem := announcement idx u1 u2 pad n bs in
  let tail := blocks_bytes bs ++ block_bytes (INIT_TERMINATOR, []) in
  length mem = (22 + length tail)%nat ∧ drop 22 mem = tail ∧
  cstr (drop 4 mem) = Some n ∧ byte_at mem 20 = 0.
Proof.
  intros (Hn & Hnz & _) mem tail.
  assert (length (n ++ replicate (16 - length n) 0) = 16%nat) as H16
    by (rewrite length_app, length_replicate; lia).
  unfold mem, announcement. fold tail. split; [|split; [|split]].
  - rewrite !length_app, length_replicate. simpl. lia.
  - rewrite !app_assoc. apply drop_app_length'. rewrite !length_app, length_replicate. simpl. lia.
  - change (drop 4 ([EVENT_INIT; u1; u2; idx] ++ ?l)) with l.
    replace (16 - length n)%nat with (S (15 - length n)) by lia. cbn [replicate].
    rewrite <- app_assoc. by apply cstr_name.
  - rewrite app_assoc. unfold byte_at. rewrite app_nth2; rewrite length_app, H16; [done|simpl; lia].
Qed.

Lemma apply_blocks_creating bs : ∀ l, creating (fold_left apply_block bs l) = creating l.
Proof.
  induction bs as [|b bs IH]; intros l; [done|]. simpl. rewrite IH. unfold apply_block. by repeat case_if.
Qed.

Section created.
Context {E : Type} (k_ans : list (E + kcall) → kcall → Z).
Hypothesis Hk : ∀ t k, k_ans t k ≠ 0.

Lemma get_interface_new idx n d (t : list (E + kcall)) :
  0 ≤ idx < MAX_INTERFACES → iface_at idx d = None → eq_str n "comm" = false →
  ∃ evs, dchid_get_interface k_ans idx (Some n) d t =
    (Ok (Some idx, set_iface idx (Iface idx (Some n) true (CmdState 0 0 (-1) 0 None 0 0) new_life) d),
     t ++ evs) ∧ ∀ k, queued k evs = 0%nat.
Proof.
  intros Hidx Hi Hn. unfold dchid_get_interface. destruct (Z.geb_spec idx MAX_INTERFACES); [lia|].
  hstep. rewrite Hi. unfold kc. hstep.
  repeat (match goal with |- context [k_ans ?x ?k =? 0] =>
            destruct (Z.eqb_spec (k_ans x k) 0) as [E0|_]; [by apply Hk in E0|] end; hstep).
  rewrite Hn. hstep.
  match goal with |- context [k_ans ?x ?k =? 0] =>
    destruct (Z.eqb_spec (k_ans x k) 0) as [E0|_]; [by apply Hk in E0|] end. hstep.
  exists [inr (Kzalloc 1); inr Kstrdup; inr AllocWq; inr (OfChild n)]. by rewrite <- !app_assoc.
Qed.

Lemma init_finish_eq j i n d (t : list (E + kcall)) :
  iface_at j d = Some i → name i = Some n → creating (life i) = false →
  let created := id_ready d || eq_str n "stm" in
  init_finish k_ans j d t =
  (Ok (tt, set_iface j (with_life (if created then set_creating true else set_deferred true) i) d),
   t ++ (if created then [inr (QueueCreate j)] else [])).
Proof.
  intros Hi Hn Hc. cbv zeta. unfold init_finish. rewrite H_bind_eq, (iface_ptr_some j d i) by done. hstep.
  rewrite Hn, H_bind_eq. destruct (id_ready d); [|destruct (eq_str n "stm")]; rewrite ?H_ret_eq; cbn [orb].
  1,2: by rewrite H_bind_eq, (create_eq k_ans j i), Hc by done.
  by rewrite (modify_iface_some j _ d i), app_nil_r by done.
Qed.
End created.

(** An announcement has the effect its blocks describe: for a new interface the
    driver allocates it under the announced number and name, keeps the last HID
    descriptor and the first GPIO request among the blocks, ignores blocks of other
    types, and then queues its creation, once, if the device information is already
    there or the interface is STM, and otherwise marks it as deferred; no other
    interface changes. *)
Theorem hid_announcement_exact {E} (C0 : ByteChannel E) k_ans acks vendor idx u1 u2 pad n bs d t :
  0 ≤ idx < MAX_INTERFACES → length (ifaces d) = Z.to_nat MAX_INTERFACES → iface_at idx d = None →
  name_ok n → Forall block_ok bs → (∀ t k, k_ans t k ≠ 0) →
  let mem := announcement idx u1 u2 pad n bs in
  let created := id_ready d || eq_str n "stm" in
  let life' := fold_left apply_block bs new_life in
  ∃ evs, dchid_handle_event C0 k_ans acks vendor mem (Z.of_nat (length mem)) d t =
    (Ok (tt, set_iface idx (Iface idx (Some n) true (CmdState 0 0 (-1) 0 None 0 0)
               ((if created then set_creating true else set_deferred true) life')) d), t ++ evs) ∧
    queued idx evs = (if created then 1 else 0)%nat.
Proof.
  intros Hidx Hslots Hi (Hn & Hnz & Hcomm) Hbs Hk mem created life'.
  destruct (announcement_layout idx u1 u2 pad n bs (conj Hn (conj Hnz Hcomm)))
    as (Hlen & Htail & Hname & H20). fold mem in Hlen, Htail, Hname, H20.
  change (dchid_handle_event C0 k_ans acks vendor mem (Z.of_nat (length mem)) d t) with
    (dchid_handle_init k_ans mem (Z.of_nat (length mem)) d t).
  unfold dchid_handle_init. destruct (Z.ltb_spec (Z.of_nat (length mem)) INIT_HDR_SIZE) as [|_];
    [unfold INIT_HDR_SIZE in *; lia|].
  rewrite need_eq by (unfold INIT_HDR_SIZE; lia). rewrite Hname, H_bind_eq. change (byte_at mem 3) with idx.
  destruct (get_interface_new k_ans Hk idx n d t Hidx Hi Hcomm) as (e1 & -> & Q1).
  set (i0 := Iface idx _ _ _ _). set (d1 := set_iface idx i0 d).
  assert (iface_at idx d1 = Some i0) as Hi0.
  { apply iface_at_slot. simpl. apply list_lookup_insert_eq. rewrite Hslots. unfold MAX_INTERFACES in *. lia. }
  rewrite H_bind_eq. change (Z.to_nat INIT_HDR_SIZE) with 22%nat. rewrite Htail.
  rewrite <- (app_nil_r (block_bytes (INIT_TERMINATOR, []))).
  destruct (init_loop_blocks k_ans Hk bs (S (Z.to_nat (Z.of_nat (length mem)))) idx i0 []
    (Z.of_nat (length mem) - INIT_HDR_SIZE) d1 (t ++ e1) Hbs Hi0 eq_refl) as (e2 & -> & Q2).
  { rewrite app_nil_r. unfold INIT_HDR_SIZE. lia. }
  { unfold INIT_HDR_SIZE. lia. }
  rewrite H20. change (negb (0 =? 0)) with false. cbv iota.
  rewrite (init_finish_eq k_ans idx (with_life (λ l, fold_left apply_block bs l) i0) n);
    [|by apply (iface_at_set idx d1 i0)|done|].
  - unfold d1. rewrite !set_set_iface. exists (e1 ++ e2 ++ (if created then [inr (QueueCreate idx)] else [])).
    rewrite !app_assoc. split; [done|]. rewrite !queued_app, Q1, Q2. unfold created.
    change (id_ready (set_iface idx (with_life _ i0) d)) with (id_ready d).
    destruct (id_ready d || eq_str n "stm"); [|done]. unfold queued. simpl.
    by rewrite bool_decide_true.
  - simpl. by rewrite apply_blocks_creating.
Qed.

(** ** Witnesses *)

(** A kernel that grants everything, and one on which the probe succeeds. *)
Definition yes_kans (t : list (event + kcall)) (k : kcall) : Z := 1.
Definition probe_kans (t : list (event + kcall)) (k : kcall) : Z :=
  match k with Probe 0 => 0 | _ => 1 end.
Definition no_acks (t : list (event + kcall)) (j : Z) : list (dchid_hdr * list Z) := [].
Definition small_fw (t : list (event + kcall)) : list Z := replicate 20 0.
(** the DockChannel with nothing to receive but zeroes *)
Definition demo_fifo : ByteChannel event := dockchannel_channel (demo_wire (λ _, 0)) 64 (λ _, 0).

Lemma demo_fifo_laws : ByteChannelLaws demo_fifo.
Proof. apply demo_wire_laws. intros k. unfold is_byte. lia. Qed.

Definition demo_blocks : list block :=
  [(INIT_HID_DESCRIPTOR, [5; 1; 9; 6]); (INIT_PRODUCT_NAME, [75; 0]);
   (INIT_GPIO_REQUEST, [0; 0; 4; 0] ++ str "reset" ++ replicate 27 0)].

#[local] Instance block_ok_dec b : Decision (block_ok b).
Proof. unfold block_ok. apply _. Defined.

Lemma hid_announcement_exact_witness :
  let mem := announcement 3 0 0 0 (str "keyboard") demo_blocks in
  fold_left apply_block demo_blocks new_life =
    Life false false false false false false (Some [5; 1; 9; 6]) 4 false (str "reset") 4 0 ∧
  ∃ evs, dchid_handle_event demo_fifo yes_kans no_acks 0x5ac mem (Z.of_nat (length mem)) demo_hid [] =
    (Ok (tt, set_iface 3 (Iface 3 (Some (str "keyboard")) true (CmdState 0 0 (-1) 0 None 0 0)
               ((if id_ready demo_hid || eq_str (str "keyboard") "stm"
                 then set_creating true else set_deferred true)
                  (fold_left apply_block demo_blocks new_life))) demo_hid), [] ++ evs) ∧
    queued 3 evs = (if id_ready demo_hid || eq_str (str "keyboard") "stm" then 1 else 0)%nat.
Proof.
  split; [vm_compute; reflexivity|].
  refine (hid_announcement_exact demo_fifo yes_kans no_acks 0x5ac 3 0 0 0 (str "keyboard") demo_blocks demo_hid []
    _ _ _ _ _ _).
  - vm_compute. split; [discriminate|reflexivity].
  - vm_compute. reflexivity.
  - vm_compute. reflexivity.
  - split; [vm_compute; lia|]. split; [|vm_compute; reflexivity].
    refine (bool_decide_unpack (Forall (λ c, c ≠ 0) (str "keyboard")) _). vm_compute. exact I.
  - refine (bool_decide_unpack (Forall block_ok demo_blocks) _). vm_compute. exact I.
  - intros t k. discriminate.
Defined.

Definition state_of {A} (r : result fault (A * dockchannel_hid) * list (event + kcall)) : dockchannel_hid :=
  match r with (Ok (_, d), _) => d | (Err _, _) => hid_zero end.

Lemma state_of_eq {A} (r : result fault (A * dockchannel_hid) * list (event + kcall)) a :
  match r.1 with Ok (x, _) => x = a | Err _ => False end → r = (Ok (a, state_of r), r.2).
Proof. destruct r as [[[x d]|e] t]; simpl; [by intros ->|done]. Qed.

(** The driver after its probe, and after STM has announced itself. *)
Definition demo_probe := dockchannel_hid_probe probe_kans true [] (Ok (Dockchannel 64 false 1)) hid_zero [].
Definition stm_packet : packet :=
  let mem := announcement 1 0 0 0 (str "stm") [] in
  let data := sub_bytes (SubHdr 0 0 (Z.of_nat (length mem)) 0) ++ mem in
  Packet (Hdr 8 DCHID_CHANNEL_REPORT (Z.of_nat (length data)) 0 0 0) data.
Definition demo_announced :=
  run_op demo_fifo probe_kans no_acks small_fw 0x5ac (OpPacket 0 stm_packet) (state_of demo_probe) demo_probe.2.

Lemma stm_packet_ok : packet_ok stm_packet.
Proof.
  split; [apply bytes_by_compute; vm_compute; reflexivity|vm_compute; discriminate|vm_compute; discriminate|].
  intros _. vm_compute. by eexists.
Qed.

Lemma demo_probe_reach :
  reach demo_fifo probe_kans no_acks small_fw 0x5ac (state_of demo_probe) demo_probe.2.
Proof.
  refine (reach_probe demo_fifo probe_kans no_acks small_fw 0x5ac true [] (Ok (Dockchannel 64 false 1))
    (state_of demo_probe) demo_probe.2 _ _); [discriminate|].
  apply (state_of_eq demo_probe 0). vm_compute. reflexivity.
Qed.

Lemma demo_comm : has_iface 0 (state_of demo_probe).
Proof. split; [unfold MAX_INTERFACES; lia|]. vm_compute. by eexists. Qed.

Lemma demo_announced_reach :
  reach demo_fifo probe_kans no_acks small_fw 0x5ac (state_of demo_announced) demo_announced.2.
Proof.
  refine (reach_op demo_fifo probe_kans no_acks small_fw 0x5ac (OpPacket 0 stm_packet)
    (state_of demo_probe) demo_probe.2 (state_of demo_announced) demo_announced.2 demo_probe_reach
    (conj demo_comm stm_packet_ok) _).
  apply (state_of_eq demo_announced tt). vm_compute. reflexivity.
Qed.


Lemma hid_creation_order_witness :
  let d := state_of demo_announced in
  let i := Iface 1 (Some (str "stm")) true (CmdState 0 0 (-1) 0 None 0 0) (set_creating true new_life) in
  queued 1 demo_announced.2 = 1%nat ∧ id_ready d = false ∧
  (queued 1 demo_announced.2 ≤ 1)%nat ∧
  (0 < queued 1 demo_announced.2 → id_ready d = true ∨ name i = Some (str "stm"))%nat ∧
  (∀ v p r, HidAdd 1 v p r ∈ kcalls demo_announced.2 → queued 1 demo_announced.2 = 1%nat).
Proof.
  split; [vm_compute; reflexivity|]. split; [vm_compute; reflexivity|].
  refine (hid_creation_order demo_fifo probe_kans no_acks small_fw 0x5ac (state_of demo_announced)
    demo_announced.2 1 (Iface 1 (Some (str "stm")) true (CmdState 0 0 (-1) 0 None 0 0) (set_creating true new_life))
    demo_fifo_laws _ _ _ demo_announced_reach _ _).
  - intros t j. constructor.
  - intros t. discriminate.
  - intros t. vm_compute. discriminate.
  - lia.
  - vm_compute. reflexivity.
Defined.

(** ** What goes wrong *)

Definition stm_iface : dchid_iface :=
  Iface 1 (Some (str "stm")) true (idle_cmd 0) (set_creating true new_life).

(** When STM does not answer, the comparison of the negative return value with a
    size is unsigned and false: the device information is taken to be there, and the
    vendor stays 0 instead of the fallback. *)
Theorem hid_stm_error_ignored :
  match (stm_ready demo_fifo yes_kans no_acks 0x5ac 1 (set_iface 1 stm_iface demo_hid) []).1 with
  | Ok (_, d) => id_ready d = true ∧ le16_at (device_id d) 1 = 0
  | Err _ => False
  end.
Proof. vm_compute. split; reflexivity. Qed.

(** A report whose sub-header claims more than the packet holds is dropped without
    being freed; one with a valid sub-header is freed. *)
Theorem hid_bad_sub_header_leaks :
  let work n := dchid_packet_work demo_fifo yes_kans no_acks 0x5ac 0
    (Packet (Hdr 8 DCHID_CHANNEL_REPORT 12 0 0 0) (sub_bytes (SubHdr 0 0 n 0) ++ [0; 0; 0; 0])) in
  kcalls (work 4 demo_hid []).2 = [Kfree 0] ∧ kcalls (work 5 demo_hid []).2 = [].
Proof. vm_compute. split; reflexivity. Qed.

(** The name in an announcement need not be terminated: it is then read past the
    end of the packet. *)
Theorem hid_unterminated_name_over_read :
  (dchid_handle_event demo_fifo yes_kans no_acks 0x5ac
     ([EVENT_INIT; 0; 0; 3] ++ replicate 16 65 ++ [1; 1]) 22 demo_hid []).1 = Err OverRead.
Proof. vm_compute. reflexivity. Qed.

(** An announcement for an interface without a device-tree node allocates a work
    queue that nothing refers to afterwards, each time it is repeated. *)
Theorem hid_unknown_interface_leaks_wq :
  let k_ans (t : list (event + kcall)) k := match k with OfChild _ => 0 | _ => 1 end in
  let mem := announcement 3 0 0 0 (str "unknown") [] in
  let once := dchid_handle_event demo_fifo k_ans no_acks 0x5ac mem (Z.of_nat (length mem)) in
  let r := (once;; once) demo_hid [] in
  iface_at 3 (state_of r) = None ∧
  List.filter (λ k, bool_decide (k = AllocWq)) (kcalls r.2) = [AllocWq; AllocWq].
Proof. vm_compute. split; reflexivity. Qed.
