(* ===== verification/UsbBridge.v ===== *)
(** * USB to pseudo-terminal bridge (scripts/t6040-usb-bulk-pty.c)

    The selection of the device and of its ACM data interface, the option parser,
    the two copy loops and the main function with its cleanup ladder.  libusb and
    the operating system answer through oracles on the history of calls.  Messages
    on the terminal are not modelled. *)

From Stdlib Require Import ZArith Lia Bool String.
From stdpp Require Import base numbers list option strings.
From S2P Require Import Prelude.

Local Open Scope string_scope.
Local Open Scope list_scope.
Local Open Scope Z_scope.

Definition DEFAULT_VID : Z := 0x1209.
Definition DEFAULT_PID : Z := 0x316d.
Definition EXPECTED_PRODUCT : string := "m1n1-shaped Linux ACM diagnostic".
Definition BUFFER_SIZE : Z := 16384.
Definition UINT16_MAX : Z := 65535.

(** libusb's constants. *)
Definition LIBUSB_SUCCESS : Z := 0.
Definition LIBUSB_ERROR_IO : Z := -1.
Definition LIBUSB_ERROR_NOT_FOUND : Z := -5.
Definition LIBUSB_ERROR_TIMEOUT : Z := -7.
Definition LIBUSB_CLASS_DATA : Z := 10.
Definition LIBUSB_TRANSFER_TYPE_MASK : Z := 3.
Definition LIBUSB_TRANSFER_TYPE_BULK : Z := 2.
Definition LIBUSB_ENDPOINT_IN : Z := 0x80.
Definition EINTR : Z := 4.

Definition EXIT_SUCCESS : Z := 0.
Definition EXIT_FAILURE : Z := 1.

(** ** Choosing the device *)

Record usb_device := UsbDevice {
  d_descriptor : option (Z * Z * Z);   (** idVendor, idProduct, iProduct *)
  d_open : bool;                       (** [libusb_open] succeeds *)
  d_product : option string            (** the product string, if readable *)
}.

Inductive scan_event := ScanOpen (i : nat) | ScanClose (i : nat) | FreeList.

(** The loop over the device list from index [i]. *)
Fixpoint scan (vid pid : Z) (devices : list usb_device) (i : nat) : option nat * list scan_event :=
  match devices with
  | [] => (None, [])
  | d :: devices' =>
      let next := scan vid pid devices' (S i) in
      match d_descriptor d with
      | None => next
      | Some (v, p, iproduct) =>
          if negb (v =? vid) || negb (p =? pid) then next
          else if negb (d_open d) then next
          else if (iproduct =? 0)
                  || negb (bool_decide (d_product d = Some EXPECTED_PRODUCT))
          then (next.1, ScanOpen i :: ScanClose i :: next.2)
          else (Some i, [ScanOpen i])
      end
  end.

(** [list] is [libusb_get_device_list]. *)
Definition open_diagnostic (vid pid : Z) (list : result Z (list usb_device))
    : option nat * Datatypes.list scan_event :=
  match list with
  | Err _ => (None, [])
  | Ok devices => let '(m, evs) := scan vid pid devices 0 in (m, evs ++ [FreeList])
  end.

(** ** Choosing the interface *)

Record endpoint := Endpoint { bmAttributes : Z; bEndpointAddress : Z }.
Record altsetting := Alt {
  bAlternateSetting : Z;
  bInterfaceClass : Z;
  bInterfaceNumber : Z;
  endpoints : list endpoint
}.

(** The last bulk endpoint of each direction, 0 when there is none. *)
Definition bulk_endpoints (eps : list endpoint) : Z * Z :=
  fold_left (λ io ep,
    if negb (Z.land (bmAttributes ep) LIBUSB_TRANSFER_TYPE_MASK =? LIBUSB_TRANSFER_TYPE_BULK)
    then io
    else if negb (Z.land (bEndpointAddress ep) LIBUSB_ENDPOINT_IN =? 0)
         then (bEndpointAddress ep, io.2)
         else (io.1, bEndpointAddress ep)) eps (0, 0).

Definition is_data_alt (alt : altsetting) : bool :=
  (bAlternateSetting alt =? 0) && (bInterfaceClass alt =? LIBUSB_CLASS_DATA).

(** Control interface, data interface, endpoint in, endpoint out. *)
Record acm := Acm { acm_control : Z; acm_data : Z; acm_in : Z; acm_out : Z }.

(** The loop over the alternate settings of one interface: the function found, or
    the counter of data interfaces seen. *)
Fixpoint scan_alts (function_index found : Z) (alts : list altsetting) : acm + Z :=
  match alts with
  | [] => inr found
  | alt :: alts' =>
      if negb (is_data_alt alt) then scan_alts function_index found alts'
      else if negb (found =? function_index) then scan_alts function_index (found + 1) alts'
      else
        let '(i, o) := bulk_endpoints (endpoints alt) in
        if (i =? 0) || (o =? 0) then inr (found + 1)     (* break *)
        else inl (Acm (bInterfaceNumber alt - 1) (bInterfaceNumber alt) i o)
  end.

Fixpoint scan_interfaces (function_index found : Z) (ifs : list (list altsetting)) : option acm :=
  match ifs with
  | [] => None
  | alts :: ifs' =>
      match scan_alts function_index found alts with
      | inl a => Some a
      | inr found => scan_interfaces function_index found ifs'
      end
  end.

(** [config] is [libusb_get_active_config_descriptor]. *)
Definition find_acm_data_interface (config : result Z (list (list altsetting)))
    (function_index : Z) : result Z acm :=
  match config with
  | Err e => Err e
  | Ok ifs => match scan_interfaces function_index 0 ifs with
              | Some a => Ok a
              | None => Err LIBUSB_ERROR_NOT_FOUND
              end
  end.

(** ** Options *)

(** [getopt_long] results: the option letter and, for those with an argument,
    what [strtoul] made of it ([None] when it reported an error or a rest). *)
Inductive getopt_result := Opt (c : string) (value : option Z).

Record options := Options { o_function : Z; o_vid : Z; o_pid : Z }.

(** [inl status] leaves the program. *)
Fixpoint parse_options (opts : list getopt_result) (o : options) : Z + options :=
  match opts with
  | [] => inr o
  | Opt c value :: opts' =>
      if String.eqb c "h" then inl EXIT_SUCCESS
      else if negb (String.eqb c "f") && negb (String.eqb c "v") && negb (String.eqb c "p")
      then inl EXIT_FAILURE
      else match value with
      | None => inl EXIT_FAILURE
      | Some v =>
          if (String.eqb c "f" && (v >? 255)) || (negb (String.eqb c "f") && (v >? UINT16_MAX))
          then inl EXIT_FAILURE
          else parse_options opts'
                 (if String.eqb c "f" then Options v (o_vid o) (o_pid o)
                  else if String.eqb c "v" then Options (o_function o) (u16 v) (o_pid o)
                  else Options (o_function o) (o_vid o) (u16 v))
      end
  end.

(** ** Calls *)

Inductive event :=
| UsbInit | UsbExit
| OpenDiagnostic | CloseHandle
| FindInterface | AutoDetach
| Claim (n : Z) | Release (n : Z)
| Control (request value index : Z) (data : list Z)
| OpenPty | TcGetAttr | TcSetAttr | ClosePty
| CreateThread | JoinThread
| ReadStop | SetStop
| PollPty | ReadPty | BulkOut (data : list Z)
| BulkIn | WritePty (data : list Z).

Section bridge.
(** Return values; [errno] after a call; data delivered by [ReadPty] and
    [BulkIn]; number of bytes moved by [BulkOut] and [BulkIn]. *)
Context (ret errno : list event → event → Z) (data : list event → event → list Z).
Context (moved : list event → event → Z).

(** [write_all]; [None] when the fuel runs out. *)
Fixpoint write_all (fuel : nat) (buf : list Z) : TR event (option Z) :=
  match fuel with
  | O => mret None
  | S fuel' =>
      match buf with
      | [] => mret (Some 0)
      | _ => λ t,
          let e := WritePty buf in
          let written := ret t e in
          if written >? 0 then write_all fuel' (drop (Z.to_nat written) buf) (t ++ [e])
          else if (written <? 0) && (errno t e =? EINTR) then write_all fuel' buf (t ++ [e])
          else (Some (-1), t ++ [e])
      end
  end.

(** [usb_to_pty]: the value of [failed] it leaves, [None] when the fuel runs
    out. *)
Fixpoint usb_to_pty (fuel : nat) : TR event (option bool) :=
  match fuel with
  | O => mret None
  | S fuel' =>
      stop ← ask ret ReadStop;
      if negb (stop =? 0) then mret (Some false)
      else λ t,
        let r := ret t BulkIn in
        let transferred := moved t BulkIn in
        let buf := take (Z.to_nat transferred) (data t BulkIn) in
        let t1 := t ++ [BulkIn] in
        if r =? LIBUSB_ERROR_TIMEOUT then usb_to_pty fuel' t1
        else if negb (r =? LIBUSB_SUCCESS) then (emit SetStop;; mret (Some true)) t1
        else if transferred =? 0 then usb_to_pty fuel' t1
        else (w ← write_all (S fuel') buf;
              match w with
              | None => mret None
              | Some 0 => usb_to_pty fuel'
              | Some _ => emit SetStop;; mret (Some true)
              end) t1
  end.

Definition line_coding : list Z := [0x00; 0xc2; 0x01; 0x00; 0x00; 0x00; 0x08].

Definition configure_acm (control_interface : Z) : TR event Z :=
  r ← ask ret (Control 0x20 0 (u16 control_interface) line_coding);
  if negb (r =? 7) then mret (if r <? 0 then r else LIBUSB_ERROR_IO)
  else
    r ← ask ret (Control 0x22 3 (u16 control_interface) []);
    mret (if r <? 0 then r else LIBUSB_SUCCESS).

(** The main loop: the value of [failed] it leaves. *)
Fixpoint pty_to_usb (fuel : nat) : TR event (option bool) :=
  match fuel with
  | O => mret None
  | S fuel' =>
      stop ← ask ret ReadStop;
      if negb (stop =? 0) then mret (Some false)
      else λ t,
        let r := ret t PollPty in
        let t1 := t ++ [PollPty] in
        if r <? 0 then
          if errno t PollPty =? EINTR then pty_to_usb fuel' t1 else (Some true, t1)
        else if (r =? 0) || (moved t PollPty =? 0) then pty_to_usb fuel' t1
        else
          let length := ret t1 ReadPty in
          let t2 := t1 ++ [ReadPty] in
          if length <? 0 then
            if (errno t1 ReadPty =? EINTR) || (errno t1 ReadPty =? EIO)
            then pty_to_usb fuel' t2 else (Some true, t2)
          else if length =? 0 then pty_to_usb fuel' t2
          else
            let e := BulkOut (take (Z.to_nat length) (data t1 ReadPty)) in
            let t3 := t2 ++ [e] in
            if negb (ret t2 e =? LIBUSB_SUCCESS) || negb (moved t2 e =? length)
            then (Some true, t3) else pty_to_usb fuel' t3
  end.

(** ** main

    The labels of the cleanup ladder, innermost first. *)
Definition out_usb (status : Z) : TR event (option Z) := emit UsbExit;; mret (Some status).
Definition out_handle (status : Z) : TR event (option Z) := emit CloseHandle;; out_usb status.
Definition out_control (a : acm) (status : Z) : TR event (option Z) :=
  emit (Release (acm_control a));; out_handle status.
Definition out_data (a : acm) (status : Z) : TR event (option Z) :=
  emit (Release (acm_data a));; out_control a status.
Definition out_dtr (a : acm) (status : Z) : TR event (option Z) :=
  emit (Control 0x22 0 (u16 (acm_control a)) []);; out_data a status.
Definition out_pty (a : acm) (status : Z) : TR event (option Z) :=
  emit ClosePty;; out_dtr a status.

(** [devices] and [config] are what libusb reports; [fuel] bounds the loop;
    [reader_failed] is the [failed] flag the reader thread set, read after the
    loop. *)
Definition run_main (fuel : nat) (o : options) (devices : result Z (list usb_device))
    (config : result Z (list (list altsetting))) (reader_failed : bool)
    : TR event (option Z) :=
  r ← ask ret UsbInit;
  if negb (r =? LIBUSB_SUCCESS) then mret (Some EXIT_FAILURE) else
  match (open_diagnostic (o_vid o) (o_pid o) devices).1 with
  | None => out_usb EXIT_FAILURE
  | Some _ =>
      emit OpenDiagnostic;;
      emit FindInterface;;
      match find_acm_data_interface config (o_function o) with
      | Err _ => out_handle EXIT_FAILURE
      | Ok a =>
          emit AutoDetach;;
          r ← ask ret (Claim (acm_control a));
          if negb (r =? LIBUSB_SUCCESS) then out_handle EXIT_FAILURE else
          r ← ask ret (Claim (acm_data a));
          if negb (r =? LIBUSB_SUCCESS) then out_control a EXIT_FAILURE else
          r ← configure_acm (acm_control a);
          if negb (r =? LIBUSB_SUCCESS) then out_data a EXIT_FAILURE else
          r ← ask ret OpenPty;
          if negb (r =? 0) then out_dtr a EXIT_FAILURE else
          r ← ask ret TcGetAttr;
          if negb (r =? 0) then out_pty a EXIT_FAILURE else
          r ← ask ret TcSetAttr;
          if negb (r =? 0) then out_pty a EXIT_FAILURE else
          r ← ask ret CreateThread;
          if negb (r =? 0) then out_pty a EXIT_FAILURE else
          failed ← pty_to_usb fuel;
          match failed with
          | None => mret None
          | Some f =>
              emit SetStop;;
              emit JoinThread;;
              out_pty a (if f || reader_failed then EXIT_FAILURE else EXIT_SUCCESS)
          end
      end
  end.

Definition main (fuel : nat) (opts : list getopt_result) (rest : bool)
    (devices : result Z (list usb_device)) (config : result Z (list (list altsetting)))
    (reader_failed : bool) : TR event (option Z) :=
  match parse_options opts (Options 0 DEFAULT_VID DEFAULT_PID) with
  | inl status => mret (Some status)
  | inr o => if rest then mret (Some EXIT_FAILURE)
             else run_main fuel o devices config reader_failed
  end.
End bridge.

(** ** Choosing the device: lemmas *)

(** The device the bridge may use. *)
Definition is_diagnostic (vid pid : Z) (d : usb_device) : bool :=
  match d_descriptor d with
  | Some (v, p, iproduct) =>
      (v =? vid) && (p =? pid) && d_open d && negb (iproduct =? 0) &&
      bool_decide (d_product d = Some EXPECTED_PRODUCT)
  | None => false
  end.

(** A device that is opened and turned away. *)
Definition is_refused (vid pid : Z) (d : usb_device) : bool :=
  match d_descriptor d with
  | Some (v, p, _) => (v =? vid) && (p =? pid) && d_open d && negb (is_diagnostic vid pid d)
  | None => false
  end.

Lemma scan_step vid pid d devices i :
  scan vid pid (d :: devices) i =
  if is_diagnostic vid pid d then (Some i, [ScanOpen i])
  else let next := scan vid pid devices (S i) in
       (next.1, (if is_refused vid pid d then [ScanOpen i; ScanClose i] else []) ++ next.2).
Proof.
  cbn [scan]. unfold is_refused, is_diagnostic. destruct (scan vid pid devices (S i)) as [m evs].
  destruct (d_descriptor d) as [[[v p] ip]|]; [|done].
  destruct (v =? vid), (p =? pid), (d_open d), (ip =? 0), (bool_decide _); done.
Qed.

(** The first diagnostic device is chosen. *)
Lemma scan_finds vid pid devices : ∀ i,
  match (scan vid pid devices i).1 with
  | Some k => (i ≤ k)%nat ∧ (∃ d, devices !! (k - i)%nat = Some d ∧ is_diagnostic vid pid d = true) ∧
      ∀ j d, (j < k - i)%nat → devices !! j = Some d → is_diagnostic vid pid d = false
  | None => ∀ d, d ∈ devices → is_diagnostic vid pid d = false
  end.
Proof.
  induction devices as [|d devices IH]; intros i; [by intros ? ?%not_elem_of_nil|].
  rewrite scan_step. destruct (is_diagnostic vid pid d) eqn:Hd.
  { simpl. rewrite Nat.sub_diag. split; [done|]. split; [by exists d|]. intros; lia. }
  specialize (IH (S i)). cbv zeta. cbn [fst]. destruct (scan vid pid devices (S i)).1 as [k|].
  - destruct IH as (Hk & (d' & Hd' & Hg) & Hf). split; [lia|].
    replace (k - i)%nat with (S (k - S i)) by lia. split; [by exists d'|].
    intros [|j] d'' Hj Hl; [by injection Hl as <-|]. eapply Hf; [|done]. lia.
  - intros d' [-> | Hin]%elem_of_cons; [done|]. by apply IH.
Qed.

(** Every other device that was opened is closed again, the chosen one is not. *)
Lemma scan_closes vid pid devices : ∀ i j,
  (ScanOpen j ∈ (scan vid pid devices i).2 →
   ScanClose j ∈ (scan vid pid devices i).2 ∨ (scan vid pid devices i).1 = Some j) ∧
  (ScanClose j ∈ (scan vid pid devices i).2 → (i ≤ j)%nat ∧ (scan vid pid devices i).1 ≠ Some j).
Proof.
  induction devices as [|d devices IH]; intros i j.
  { split; by intros ?%not_elem_of_nil. }
  rewrite scan_step. destruct (is_diagnostic vid pid d); cbn [fst snd].
  { split; [intros [= ->]%list_elem_of_singleton; by right|by intros ?%list_elem_of_singleton]. }
  destruct (IH (S i) j) as [IH1 IH2]. pose proof (scan_finds vid pid devices (S i)) as Hf.
  assert ((scan vid pid devices (S i)).1 = Some i → False) as Hne.
  { intros E. rewrite E in Hf. destruct Hf as [? _]. lia. }
  assert (ScanClose j ∈ (scan vid pid devices (S i)).2 →
    (i ≤ j)%nat ∧ (scan vid pid devices (S i)).1 ≠ Some j) as IH2'.
  { intros H. destruct (IH2 H). split; [lia|done]. }
  destruct (is_refused vid pid d); cbn [app]; [|done]. rewrite !elem_of_cons. split.
  - intros [[= ->]|[?|H]]; [left; auto|done|]. destruct (IH1 H) as [?|?]; auto.
  - intros [?|[[= ->]|H]]; [done| |auto]. split; [lia|]. intros E. by apply Hne.
Qed.

(** ** Choosing the interface: lemmas *)

(** What the function of an alternate setting is, if it has both endpoints. *)
Definition acm_of (alt : altsetting) : option acm :=
  let '(i, o) := bulk_endpoints (endpoints alt) in
  if (i =? 0) || (o =? 0) then None
  else Some (Acm (bInterfaceNumber alt - 1) (bInterfaceNumber alt) i o).

Definition nth_data (ifs : list (list altsetting)) (n : Z) : option altsetting :=
  List.filter is_data_alt (mjoin ifs) !! Z.to_nat n.

Lemma scan_interfaces_past f ifs : ∀ found, f < found → scan_interfaces f found ifs = None.
Proof.
  assert (∀ alts found, f < found →
    match scan_alts f found alts with inl _ => False | inr n => f < n end) as Halts.
  { induction alts as [|alt alts IH]; intros found Hf; simpl; [done|].
    destruct (is_data_alt alt); simpl; [|by apply IH].
    destruct (Z.eqb_spec found f); [lia|]. simpl. apply IH. lia. }
  induction ifs as [|alts ifs IH]; intros found Hf; simpl; [done|].
  specialize (Halts alts found Hf). destruct (scan_alts f found alts); [done|]. by apply IH.
Qed.

Lemma scan_alts_spec f alts : ∀ found, found ≤ f →
  match scan_alts f found alts with
  | inl a => ∃ alt, List.filter is_data_alt alts !! Z.to_nat (f - found) = Some alt ∧ acm_of alt = Some a
  | inr n => (n ≤ f ∧ n = found + Z.of_nat (length (List.filter is_data_alt alts))) ∨
      (f < n ∧ ∃ alt, List.filter is_data_alt alts !! Z.to_nat (f - found) = Some alt ∧ acm_of alt = None)
  end.
Proof.
  induction alts as [|alt alts IH]; intros found Hf; cbn [scan_alts List.filter].
  { left. simpl. lia. }
  destruct (is_data_alt alt); cbn [negb]; [|by apply IH].
  destruct (Z.eqb_spec found f) as [-> | Hne]; cbn [negb].
  - rewrite Z.sub_diag. unfold acm_of. destruct (bulk_endpoints (endpoints alt)) as [i o] eqn:E.
    destruct ((i =? 0) || (o =? 0)) eqn:Eo.
    + right. split; [lia|]. exists alt. split; [done|]. by rewrite E, Eo.
    + exists alt. split; [done|]. by rewrite E, Eo.
  - specialize (IH (found + 1) ltac:(lia)).
    replace (Z.to_nat (f - found)) with (S (Z.to_nat (f - (found + 1)))) by lia.
    destruct (scan_alts f (found + 1) alts) as [a|n]; [done|].
    destruct IH as [[? ->]|?]; [left|by right]. simpl. lia.
Qed.

Lemma scan_interfaces_spec f ifs : ∀ found, found ≤ f →
  scan_interfaces f found ifs = nth_data ifs (f - found) ≫= acm_of.
Proof.
  unfold nth_data. induction ifs as [|alts ifs IH]; intros found Hf; cbn [scan_interfaces]; [done|].
  assert (List.filter is_data_alt (mjoin (alts :: ifs)) =
    List.filter is_data_alt alts ++ List.filter is_data_alt (mjoin ifs)) as ->
    by (cbn [mjoin list_join]; apply List.filter_app).
  pose proof (scan_alts_spec f alts found Hf) as H.
  destruct (scan_alts f found alts) as [a|n].
  - destruct H as (alt & Hl & Ha). rewrite lookup_app_l by (by eapply lookup_lt_Some).
    rewrite Hl. simpl. by rewrite Ha.
  - destruct H as [[Hn ->]|(Hn & alt & Hl & Ha)].
    + rewrite IH by done. rewrite lookup_app_r by lia. do 2 f_equal. lia.
    + rewrite scan_interfaces_past by done.
      rewrite lookup_app_l by (by eapply lookup_lt_Some). rewrite Hl. simpl. by rewrite Ha.
Qed.

Definition is_bulk (ep : endpoint) : bool :=
  Z.land (bmAttributes ep) LIBUSB_TRANSFER_TYPE_MASK =? LIBUSB_TRANSFER_TYPE_BULK.
Definition is_in (ep : endpoint) : bool := negb (Z.land (bEndpointAddress ep) LIBUSB_ENDPOINT_IN =? 0).

Lemma bulk_endpoints_spec eps :
  let '(i, o) := bulk_endpoints eps in
  (i ≠ 0 → ∃ ep, ep ∈ eps ∧ is_bulk ep = true ∧ is_in ep = true ∧ bEndpointAddress ep = i) ∧
  (o ≠ 0 → ∃ ep, ep ∈ eps ∧ is_bulk ep = true ∧ is_in ep = false ∧ bEndpointAddress ep = o).
Proof.
  unfold bulk_endpoints. induction eps as [|ep eps IH] using rev_ind; [done|].
  rewrite fold_left_app. cbn [fold_left]. destruct (fold_left _ eps (0, 0)) as [i o].
  destruct IH as [IHi IHo].
  assert (∀ x, x ∈ eps → x ∈ eps ++ [ep]) as Hsub by (intros; apply elem_of_app; by left).
  assert (ep ∈ eps ++ [ep]) by (apply elem_of_app; right; apply list_elem_of_here).
  fold (is_bulk ep). fold (is_in ep). destruct (is_bulk ep) eqn:Eb; simpl; [|naive_solver].
  destruct (is_in ep) eqn:Ei; simpl; naive_solver.
Qed.

(** ** Cleanup: lemmas *)

Inductive res := RUsb | RHandle | RIface (n : Z) | RPty | RThread.

#[export] Instance res_eq_dec : EqDecision res.
Proof. solve_decision. Defined.

(** What an event acquires (when the call succeeds) or releases. *)
Definition acquires (e : event) : option res :=
  match e with
  | UsbInit => Some RUsb | OpenDiagnostic => Some RHandle | Claim n => Some (RIface n)
  | OpenPty => Some RPty | CreateThread => Some RThread | _ => None
  end.
Definition releases (e : event) : option res :=
  match e with
  | UsbExit => Some RUsb | CloseHandle => Some RHandle | Release n => Some (RIface n)
  | ClosePty => Some RPty | JoinThread => Some RThread | _ => None
  end.

Section cleanup.
Context (ret errno : list event → event → Z) (data : list event → event → list Z).
Context (moved : list event → event → Z).

(** The resources held after the events, newest first; [None] when something is
    released that is not the newest one.  [OpenDiagnostic] stands for a
    successful open. *)
Fixpoint held (pre evs : list event) (st : list res) : option (list res) :=
  match evs with
  | [] => Some st
  | e :: evs' =>
      match releases e with
      | Some r => match st with
                  | r' :: st' => if decide (r = r') then held (pre ++ [e]) evs' st' else None
                  | [] => None
                  end
      | None =>
          match acquires e with
          | Some r => if match e with OpenDiagnostic => true | _ => ret pre e =? 0 end
                      then held (pre ++ [e]) evs' (r :: st) else held (pre ++ [e]) evs' st
          | None => held (pre ++ [e]) evs' st
          end
      end
  end.

(** The computation, started with [st] held, ends and gives everything back. *)
Definition cleans (m : TR event (option Z)) (t : list event) (st : list res) : Prop :=
  ∃ evs, (m t).2 = t ++ evs ∧ (m t).1 ≠ None ∧ held t evs st = Some [].

Definition neutral (e : event) : bool :=
  match acquires e, releases e with None, None => true | _, _ => false end.

Lemma held_skip_neutral evs : ∀ pre evs' st,
  forallb neutral evs = true → held pre (evs ++ evs') st = held (pre ++ evs) evs' st.
Proof.
  induction evs as [|e evs IH]; intros pre evs' st H; [by rewrite app_nil_r|].
  cbn [forallb] in H. apply andb_prop in H as [He H]. cbn [app held]. unfold neutral in He.
  destruct (acquires e), (releases e); try done. rewrite IH, <- app_assoc by done. done.
Qed.

Lemma cleans_step e k t st st' :
  (∀ evs, held t (e :: evs) st = held (t ++ [e]) evs st') →
  cleans k (t ++ [e]) st' →
  ∃ evs, (k (t ++ [e])).2 = t ++ evs ∧ (k (t ++ [e])).1 ≠ None ∧ held t evs st = Some [].
Proof.
  intros H (evs & Hevs & Hr). exists (e :: evs). rewrite Hevs, <- app_assoc.
  split; [done|]. by rewrite H.
Qed.

Lemma cleans_emit e k t st st' :
  (∀ evs, held t (e :: evs) st = held (t ++ [e]) evs st') →
  cleans (k ()) (t ++ [e]) st' → cleans (emit e ≫= k) t st.
Proof. intros. unfold cleans. trace_step. by apply (cleans_step e (k ()) t st st'). Qed.

Lemma cleans_ask e k t st st' :
  (∀ evs, held t (e :: evs) st = held (t ++ [e]) evs st') →
  cleans (k (ret t e)) (t ++ [e]) st' → cleans (ask ret e ≫= k) t st.
Proof. intros. unfold cleans. trace_step. by apply (cleans_step e (k (ret t e)) t st st'). Qed.

Lemma cleans_quiet {A} (m : TR event A) k t st :
  quiet neutral m → (∀ e, (m t).2 = t ++ e → cleans (k (m t).1) (t ++ e) st) → cleans (m ≫= k) t st.
Proof.
  intros Hm Hk. destruct (Hm t) as (e & He & Hn). destruct (Hk e He) as (evs & Hevs & Hr).
  exists (e ++ evs). rewrite TR_bind_eq, He, Hevs, <- app_assoc. split; [done|].
  by rewrite held_skip_neutral.
Qed.

Lemma cleans_exit status t : cleans (mret (Some status)) t [].
Proof. exists []. rewrite app_nil_r. done. Qed.

Ltac release := eapply cleans_emit;
  [intros ?; cbn [held releases acquires]; rewrite ?decide_True by done; reflexivity|].

Lemma out_usb_cleans s t : cleans (out_usb s) t [RUsb].
Proof. unfold out_usb. release. apply cleans_exit. Qed.
Lemma out_handle_cleans s t : cleans (out_handle s) t [RHandle; RUsb].
Proof. unfold out_handle. release. apply out_usb_cleans. Qed.
Lemma out_control_cleans a s t :
  cleans (out_control a s) t [RIface (acm_control a); RHandle; RUsb].
Proof. unfold out_control. release. apply out_handle_cleans. Qed.
Lemma out_data_cleans a s t :
  cleans (out_data a s) t [RIface (acm_data a); RIface (acm_control a); RHandle; RUsb].
Proof. unfold out_data. release. apply out_control_cleans. Qed.
Lemma out_dtr_cleans a s t :
  cleans (out_dtr a s) t [RIface (acm_data a); RIface (acm_control a); RHandle; RUsb].
Proof. unfold out_dtr. release. apply out_data_cleans. Qed.
Lemma out_pty_cleans a s t :
  cleans (out_pty a s) t [RPty; RIface (acm_data a); RIface (acm_control a); RHandle; RUsb].
Proof. unfold out_pty. release. apply out_dtr_cleans. Qed.

Lemma cleans_acquire e r k t st :
  acquires e = Some r → releases e = None → match e with OpenDiagnostic => False | _ => True end →
  (ret t e = 0 → cleans (k (ret t e)) (t ++ [e]) (r :: st)) →
  (ret t e ≠ 0 → cleans (k (ret t e)) (t ++ [e]) st) → cleans (ask ret e ≫= k) t st.
Proof.
  intros Ha Hr Hne H1 H0. destruct (Z.eqb_spec (ret t e) 0) as [E|E].
  - eapply cleans_ask; [|by apply H1]. intros evs. cbn [held]. rewrite Hr, Ha.
    destruct e; try done; by rewrite E.
  - eapply cleans_ask; [|by apply H0]. intros evs. cbn [held]. rewrite Hr, Ha.
    apply Z.eqb_neq in E. destruct e; try done; by rewrite E.
Qed.

Lemma quiet_configure n : quiet neutral (configure_acm ret n).
Proof. unfold configure_acm. auto 10 with quiet. Qed.

Lemma quiet_pty_to_usb fuel : quiet neutral (pty_to_usb ret errno data moved fuel).
Proof.
  induction fuel as [|fuel IH]; [apply quiet_ret|]. cbn [pty_to_usb].
  apply quiet_bind; [auto with quiet|]. intros stop. apply quiet_if; [apply quiet_ret|].
  assert (∀ (t l : list event), forallb neutral l = true →
    ∃ evs, (pty_to_usb ret errno data moved fuel (t ++ l)).2 = t ++ evs ∧ forallb neutral evs = true) as Hn.
  { intros t l Hl. destruct (IH (t ++ l)) as (e & -> & He). exists (l ++ e).
    by rewrite app_assoc, forallb_app, Hl, He. }
  intros t. cbv zeta. rewrite <- !app_assoc. cbn [app].
  repeat match goal with
  | |- ∃ _, (if ?b then _ else _).2 = _ ∧ _ => destruct b
  end; first [by apply Hn | by eexists].
Qed.

(** Times the main loop has looked at the stop flag. *)
Definition stops (t : list event) : nat :=
  length (List.filter (λ e, match e with ReadStop => true | _ => false end) t).

Lemma stops_app t t' : stops (t ++ t') = (stops t + stops t')%nat.
Proof. unfold stops. by rewrite List.filter_app, length_app. Qed.

(** The flag is set (by a signal or by the reader) before look number [n]. *)
Definition stops_within (n : nat) : Prop := ∀ t, (n ≤ stops t)%nat → ret t ReadStop ≠ 0.

Lemma pty_to_usb_total n : stops_within n → ∀ fuel t, (n < fuel + stops t)%nat → (0 < fuel)%nat →
  (pty_to_usb ret errno data moved fuel t).1 ≠ None.
Proof.
  intros Hstop. induction fuel as [|fuel IH]; intros t Hn Hf; [lia|]. cbn [pty_to_usb].
  rewrite (TR_bind_eq (ask ret ReadStop) _ t). unfold ask. cbn [fst snd].
  destruct (Z.eqb_spec (ret t ReadStop) 0) as [E|E]; cbn [negb]; [|done].
  assert (∀ l, (pty_to_usb ret errno data moved fuel ((t ++ [ReadStop]) ++ l)).1 ≠ None) as Hn'.
  { intros l. assert (¬ n ≤ stops t)%nat by (intros H; by apply (Hstop t H)).
    apply IH; [|lia]. rewrite !stops_app. cbn. lia. }
  cbv zeta. rewrite <- !(app_assoc (t ++ [ReadStop])).
  repeat match goal with |- (if ?b then _ else _).1 ≠ None => destruct b end; first [apply Hn'|done].
Qed.

Lemma run_main_cleans n fuel o devices config failed t :
  stops_within n → (n < fuel)%nat →
  cleans (run_main ret errno data moved fuel o devices config failed) t [].
Proof.
  intros Hstop Hfuel. unfold run_main, LIBUSB_SUCCESS.
  apply (cleans_acquire _ RUsb); [done..| |]; intros E.
  2:{ rewrite (proj2 (Z.eqb_neq _ _) E). apply cleans_exit. }
  rewrite E. cbn [negb Z.eqb].
  destruct (open_diagnostic _ _ _).1; [|apply out_usb_cleans].
  do 2 (eapply cleans_emit; [intros; reflexivity|]).
  destruct (find_acm_data_interface config (o_function o)) as [a|]; [|apply out_handle_cleans].
  eapply cleans_emit; [intros; reflexivity|].
  apply (cleans_acquire _ (RIface (acm_control a))); [done..| |]; intros E1.
  2:{ rewrite (proj2 (Z.eqb_neq _ _) E1). apply out_handle_cleans. }
  rewrite E1. cbn [negb Z.eqb].
  apply (cleans_acquire _ (RIface (acm_data a))); [done..| |]; intros E2.
  2:{ rewrite (proj2 (Z.eqb_neq _ _) E2). apply out_control_cleans. }
  rewrite E2. cbn [negb Z.eqb].
  apply cleans_quiet; [apply quiet_configure|]. intros e _.
  destruct (negb _); [apply out_data_cleans|].
  apply (cleans_acquire _ RPty); [done..| |]; intros E3.
  2:{ rewrite (proj2 (Z.eqb_neq _ _) E3). apply out_dtr_cleans. }
  rewrite E3. cbn [negb Z.eqb].
  eapply cleans_ask; [intros; reflexivity|]. destruct (negb _); [apply out_pty_cleans|].
  eapply cleans_ask; [intros; reflexivity|]. destruct (negb _); [apply out_pty_cleans|].
  apply (cleans_acquire _ RThread); [done..| |]; intros E4.
  2:{ rewrite (proj2 (Z.eqb_neq _ _) E4). apply out_pty_cleans. }
  rewrite E4. cbn [negb Z.eqb].
  apply cleans_quiet; [apply quiet_pty_to_usb|]. intros e' _.
  set (t0 := (_ ++ [CreateThread])).
  pose proof (pty_to_usb_total n Hstop fuel t0 ltac:(lia) ltac:(lia)) as Htot.
  destruct (pty_to_usb _ _ _ _ _ t0).1 as [f|]; [|done].
  eapply cleans_emit; [intros; reflexivity|].
  eapply cleans_emit; [intros; cbn [held releases]; rewrite decide_True by done; reflexivity|].
  apply out_pty_cleans.
Qed.
End cleanup.

(** ** Copying: lemmas *)

Section copy.
Context (ret errno : list event → event → Z) (data : list event → event → list Z).
Context (moved : list event → event → Z).

(** Bytes the terminal accepted, bytes the device delivered. *)
Fixpoint accepted (pre evs : list event) : list Z :=
  match evs with
  | [] => []
  | e :: evs' =>
      (match e with WritePty buf => take (Z.to_nat (ret pre e)) buf | _ => [] end) ++
      accepted (pre ++ [e]) evs'
  end.
Fixpoint delivered (pre evs : list event) : list Z :=
  match evs with
  | [] => []
  | e :: evs' =>
      (match e with
       | BulkIn => if ret pre e =? LIBUSB_SUCCESS
                   then take (Z.to_nat (moved pre e)) (data pre e) else []
       | _ => []
       end) ++ delivered (pre ++ [e]) evs'
  end.

Lemma accepted_app evs1 evs2 pre :
  accepted pre (evs1 ++ evs2) = accepted pre evs1 ++ accepted (pre ++ evs1) evs2.
Proof.
  revert pre. induction evs1 as [|e evs1 IH]; intros pre; simpl; [by rewrite app_nil_r|].
  by rewrite IH, <- app_assoc, <- app_assoc.
Qed.
Lemma delivered_app evs1 evs2 pre :
  delivered pre (evs1 ++ evs2) = delivered pre evs1 ++ delivered (pre ++ evs1) evs2.
Proof.
  revert pre. induction evs1 as [|e evs1 IH]; intros pre; simpl; [by rewrite app_nil_r|].
  by rewrite IH, <- app_assoc, <- app_assoc.
Qed.

Lemma write_all_spec fuel : ∀ buf t,
  ∃ evs, (write_all ret errno fuel buf t).2 = t ++ evs ∧ delivered t evs = [] ∧
    match (write_all ret errno fuel buf t).1 with
    | Some 0 => accepted t evs = buf
    | _ => accepted t evs `prefix_of` buf
    end.
Proof.
  induction fuel as [|fuel IH]; intros buf t.
  { exists []. rewrite app_nil_r. split; [done|]. split; [done|]. apply prefix_nil. }
  cbn [write_all]. destruct buf as [|b buf'] eqn:Eb.
  { exists []. by rewrite app_nil_r. }
  rewrite <- Eb. clear Eb b buf'. cbv zeta. set (e := WritePty buf).
  destruct (ret t e >? 0) eqn:Hw.
  - destruct (IH (drop (Z.to_nat (ret t e)) buf) (t ++ [e])) as (evs & He & Hd & Ha).
    exists (e :: evs). rewrite He, <- app_assoc. split; [done|]. split; [done|].
    cbn [accepted]. subst e.
    set (n := Z.to_nat (ret t (WritePty buf))) in *.
    destruct (write_all _ _ _ _ _).1 as [[]|].
    + rewrite Ha. apply take_drop.
    + rewrite <- (take_drop n buf) at 3. by apply prefix_app.
    + rewrite <- (take_drop n buf) at 3. by apply prefix_app.
    + rewrite <- (take_drop n buf) at 3. by apply prefix_app.
  - assert (accepted t [e] = []) as E0.
    { subst e. simpl. boolprop. by replace (Z.to_nat (ret t (WritePty buf))) with 0%nat by lia. }
    destruct ((ret t e <? 0) && (errno t e =? EINTR)).
    + destruct (IH buf (t ++ [e])) as (evs & He & Hd & Ha). exists ([e] ++ evs).
      rewrite He, <- app_assoc. split; [done|]. split; [done|]. rewrite accepted_app, E0. exact Ha.
    + exists [e]. split; [done|]. split; [done|]. rewrite E0. apply prefix_nil.
Qed.

Lemma usb_to_pty_spec fuel : ∀ t,
  ∃ evs, (usb_to_pty ret errno data moved fuel t).2 = t ++ evs ∧
    accepted t evs `prefix_of` delivered t evs ∧
    ((usb_to_pty ret errno data moved fuel t).1 = Some false →
     accepted t evs = delivered t evs).
Proof.
  induction fuel as [|fuel IH]; intros t.
  { exists []. by rewrite app_nil_r. }
  cbn [usb_to_pty]. rewrite !(TR_bind_eq (ask ret ReadStop) _ t). unfold ask. cbn [fst snd].
  destruct (negb (ret t ReadStop =? 0)).
  { exists [ReadStop]. split; [done|]. split; [apply prefix_nil|done]. }
  set (t1 := t ++ [ReadStop]). cbv zeta.
  assert (∀ l, accepted t1 l = [] → delivered t1 l = [] →
    ∃ evs, (usb_to_pty ret errno data moved fuel (t1 ++ l)).2 = t ++ evs ∧
      accepted t evs `prefix_of` delivered t evs ∧
      ((usb_to_pty ret errno data moved fuel (t1 ++ l)).1 = Some false →
       accepted t evs = delivered t evs)) as Hcont.
  { intros l Ha Hd. destruct (IH (t1 ++ l)) as (evs & He & Hp & Heq).
    exists ([ReadStop] ++ l ++ evs). rewrite He. subst t1. rewrite <- !app_assoc. split; [done|].
    rewrite !accepted_app, !delivered_app, Ha, Hd. simpl. by rewrite <- !app_assoc in *. }
  destruct (Z.eqb_spec (ret t1 BulkIn) LIBUSB_ERROR_TIMEOUT) as [Et|Et].
  { apply Hcont; [done|]. simpl. by rewrite Et. }
  destruct (Z.eqb_spec (ret t1 BulkIn) LIBUSB_SUCCESS) as [Es|Es]; cbn [negb].
  2:{ trace_step. exists [ReadStop; BulkIn; SetStop]. subst t1. rewrite <- !app_assoc.
      split; [done|]. split; [apply prefix_nil|done]. }
  destruct (Z.eqb_spec (moved t1 BulkIn) 0) as [Em|Em].
  { apply Hcont; [done|]. simpl. by rewrite Es, Em. }
  set (buf := take (Z.to_nat (moved t1 BulkIn)) (data t1 BulkIn)).
  assert (delivered t1 [BulkIn] = buf) as Hbuf by (simpl; by rewrite Es, app_nil_r).
  destruct (write_all_spec (S fuel) buf (t1 ++ [BulkIn])) as (e1 & He1 & Hd1 & Ha1).
  rewrite TR_bind_eq, He1. destruct (write_all _ _ _ _ _).1 as [[]|] eqn:Ew.
  - destruct (IH ((t1 ++ [BulkIn]) ++ e1)) as (evs & He & Hp & Heq).
    exists ([ReadStop] ++ [BulkIn] ++ e1 ++ evs). rewrite He.
    split; [subst t1; by rewrite <- !app_assoc|].
    rewrite !accepted_app, !delivered_app. fold t1. rewrite Hbuf, Hd1, Ha1. cbn [accepted delivered app].
    split; [by apply prefix_app|]. intros E. by rewrite Heq.
  - trace_step. exists ([ReadStop] ++ [BulkIn] ++ e1 ++ [SetStop]).
    split; [subst t1; by rewrite <- !app_assoc|]. split; [|done].
    rewrite !accepted_app, !delivered_app. fold t1. rewrite Hbuf, Hd1. simpl.
    by rewrite !app_nil_r.
  - trace_step. exists ([ReadStop] ++ [BulkIn] ++ e1 ++ [SetStop]).
    split; [subst t1; by rewrite <- !app_assoc|]. split; [|done].
    rewrite !accepted_app, !delivered_app. fold t1. rewrite Hbuf, Hd1. simpl.
    by rewrite !app_nil_r.
  - trace_step. exists ([ReadStop] ++ [BulkIn] ++ e1).
    split; [subst t1; by rewrite <- !app_assoc|]. split; [|done].
    rewrite !accepted_app, !delivered_app. fold t1. rewrite Hbuf, Hd1. simpl.
    by rewrite !app_nil_r.
Qed.

(** Bytes read from the terminal, bytes handed to the device and those of them the
    device took ([moved] of a successful transfer). *)
Fixpoint typed (pre evs : list event) : list Z :=
  match evs with
  | [] => []
  | e :: evs' =>
      (match e with ReadPty => take (Z.to_nat (ret pre e)) (data pre e) | _ => [] end) ++
      typed (pre ++ [e]) evs'
  end.
Fixpoint taken (pre evs : list event) : list Z :=
  match evs with
  | [] => []
  | e :: evs' =>
      (match e with
       | BulkOut buf => if ret pre e =? LIBUSB_SUCCESS then take (Z.to_nat (moved pre e)) buf else []
       | _ => []
       end) ++ taken (pre ++ [e]) evs'
  end.

Lemma typed_app evs1 evs2 pre : typed pre (evs1 ++ evs2) = typed pre evs1 ++ typed (pre ++ evs1) evs2.
Proof.
  revert pre. induction evs1 as [|e evs1 IH]; intros pre; simpl; [by rewrite app_nil_r|].
  by rewrite IH, <- app_assoc, <- app_assoc.
Qed.
Lemma taken_app evs1 evs2 pre : taken pre (evs1 ++ evs2) = taken pre evs1 ++ taken (pre ++ evs1) evs2.
Proof.
  revert pre. induction evs1 as [|e evs1 IH]; intros pre; simpl; [by rewrite app_nil_r|].
  by rewrite IH, <- app_assoc, <- app_assoc.
Qed.

(** What one computation of the main loop has moved. *)
Definition moves_typed (m : option bool * list event) (t : list event) : Prop :=
  ∃ evs, m.2 = t ++ evs ∧ taken t evs `prefix_of` typed t evs ∧
    (m.1 ≠ Some true → taken t evs = typed t evs).

Lemma moves_typed_stop r t evs :
  typed t evs = [] → taken t evs = [] → moves_typed (r, t ++ evs) t.
Proof. intros H1 H2. exists evs. rewrite H1, H2. done. Qed.

Lemma moves_typed_app m t evs :
  taken t evs = typed t evs → moves_typed m (t ++ evs) → moves_typed m t.
Proof.
  intros H (evs' & Hm & Hp & He). exists (evs ++ evs'). rewrite Hm, app_assoc. split; [done|].
  rewrite taken_app, typed_app, H. split; [by apply prefix_app|]. intros. by rewrite He.
Qed.

Lemma moves_typed_read t e :
  (∀ buf, e = BulkOut buf →
   buf = take (Z.to_nat (ret t ReadPty)) (data t ReadPty)) →
  match e with BulkOut _ => True | _ => False end →
  typed t [ReadPty; e] = take (Z.to_nat (ret t ReadPty)) (data t ReadPty) ∧
  taken t [ReadPty; e] `prefix_of` typed t [ReadPty; e] ∧
  (ret (t ++ [ReadPty]) e = LIBUSB_SUCCESS → moved (t ++ [ReadPty]) e = ret t ReadPty →
   taken t [ReadPty; e] = typed t [ReadPty; e]).
Proof.
  intros Hb He. destruct e; try done. rewrite (Hb data0 eq_refl). cbn [typed taken app].
  rewrite !app_nil_r. split; [done|]. split.
  - case_if; [apply prefix_take|apply prefix_nil].
  - intros -> ->. cbn. rewrite take_take. f_equal. lia.
Qed.

Lemma pty_to_usb_spec fuel : ∀ t, moves_typed (pty_to_usb ret errno data moved fuel t) t.
Proof.
  induction fuel as [|fuel IH]; intros t.
  { exists []. by rewrite app_nil_r. }
  cbn [pty_to_usb]. rewrite (TR_bind_eq (ask ret ReadStop) _ t). unfold ask. cbn [fst snd].
  apply (moves_typed_app _ t [ReadStop]); [done|]. set (t0 := t ++ [ReadStop]).
  destruct (negb (ret t ReadStop =? 0)).
  { exists []. by rewrite app_nil_r. }
  cbv zeta. apply (moves_typed_app _ t0 [PollPty]); [done|]. set (t1 := t0 ++ [PollPty]).
  assert (∀ b, moves_typed (Some b, t1) t1) as Hstop by (intros; exists []; by rewrite app_nil_r).
  destruct (ret t0 PollPty <? 0); [destruct (errno t0 PollPty =? EINTR); auto|].
  destruct ((ret t0 PollPty =? 0) || (moved t0 PollPty =? 0)); [auto|].
  destruct (ret t1 ReadPty <=? 0) eqn:Hle.
  { assert (typed t1 [ReadPty] = []) as E0.
    { boolprop. simpl. by replace (Z.to_nat (ret t1 ReadPty)) with 0%nat by lia. }
    assert (moves_typed (pty_to_usb ret errno data moved fuel (t1 ++ [ReadPty])) t1) as Hgo
      by (apply (moves_typed_app _ t1 [ReadPty]); auto).
    destruct (ret t1 ReadPty <? 0) eqn:Hlt.
    - destruct (_ || _); [done|]. by apply moves_typed_stop.
    - destruct (ret t1 ReadPty =? 0) eqn:He; [done|]. boolprop. lia. }
  boolprop. rewrite (proj2 (Z.ltb_ge _ 0)), (proj2 (Z.eqb_neq _ 0)) by lia.
  set (e := BulkOut _). rewrite <- (app_assoc t1 [ReadPty] [e]). cbn [app].
  destruct (moves_typed_read t1 e) as (Et & Hp & Hall); [by intros ? [= <-]|done|].
  destruct (Z.eqb_spec (ret (t1 ++ [ReadPty]) e) LIBUSB_SUCCESS) as [Es|Es]; cbn [negb orb].
  2:{ by exists [ReadPty; e]. }
  destruct (Z.eqb_spec (moved (t1 ++ [ReadPty]) e) (ret t1 ReadPty)) as [Em|Em]; cbn [negb].
  2:{ by exists [ReadPty; e]. }
  apply (moves_typed_app _ t1 [ReadPty; e]); [by apply Hall|apply IH].
Qed.
End copy.

(** ** Theorems *)

(** The bridge only ever keeps the diagnostic gadget: the device chosen is the
    first one with the requested identifiers that can be opened and whose product
    string is exactly the expected one, and every other device that was opened
    for the comparison is closed again. *)
Theorem open_diagnostic_exact vid pid devices :
  let '(m, evs) := open_diagnostic vid pid (Ok devices) in
  (match m with
   | Some k => (∃ d, devices !! k = Some d ∧ is_diagnostic vid pid d = true ∧
                     d_product d = Some EXPECTED_PRODUCT) ∧
       ∀ j d, (j < k)%nat → devices !! j = Some d → is_diagnostic vid pid d = false
   | None => ∀ d, d ∈ devices → is_diagnostic vid pid d = false
   end) ∧
  ∀ j, ScanOpen j ∈ evs → (ScanClose j ∈ evs ∧ m ≠ Some j) ∨ (m = Some j ∧ ScanClose j ∉ evs).
Proof.
  unfold open_diagnostic. pose proof (scan_finds vid pid devices 0) as Hf.
  pose proof (scan_closes vid pid devices 0) as Hc.
  destruct (scan vid pid devices 0) as [m evs]. cbn [fst snd] in *. split.
  - destruct m as [k|]; [|done]. destruct Hf as (_ & (d & Hd & Hg) & Hf). rewrite Nat.sub_0_r in *.
    split; [|done]. exists d. split; [done|]. split; [done|]. revert Hg. unfold is_diagnostic.
    destruct (d_descriptor d) as [[[v p] ip]|]; [|done]. rewrite !andb_true_iff.
    intros [_ H]. by apply bool_decide_eq_true in H.
  - intros j. destruct (Hc j) as [H1 H2]. rewrite !elem_of_app. intros [Ho|Ho].
    2:{ by apply list_elem_of_singleton in Ho. }
    destruct (H1 Ho) as [Hcl| ->].
    + left. split; [by left|]. by apply H2.
    + right. split; [done|]. intros [Hcl|Hcl]; [by apply H2 in Hcl as [_ ?]|].
      by apply list_elem_of_singleton in Hcl.
Qed.

(** The interface search equals its specification: function [n] of the
    configuration is the [n]-th alternate setting 0 of class data, with the
    control interface just before it; it is usable when it has a bulk endpoint in
    each direction, and the endpoints reported are such endpoints. *)
Theorem find_acm_data_interface_spec ifs n a :
  0 ≤ n →
  (find_acm_data_interface (Ok ifs) n = Ok a ↔ ∃ alt, nth_data ifs n = Some alt ∧ acm_of alt = Some a) ∧
  (find_acm_data_interface (Ok ifs) n = Ok a →
   ∃ alt i o, nth_data ifs n = Some alt ∧ i ∈ endpoints alt ∧ o ∈ endpoints alt ∧
     is_bulk i = true ∧ is_in i = true ∧ is_bulk o = true ∧ is_in o = false ∧
     a = Acm (bInterfaceNumber alt - 1) (bInterfaceNumber alt) (bEndpointAddress i) (bEndpointAddress o)).
Proof.
  intros Hn. unfold find_acm_data_interface. rewrite scan_interfaces_spec, Z.sub_0_r by done.
  assert ((match nth_data ifs n ≫= acm_of with
    | Some a => Ok a | None => Err LIBUSB_ERROR_NOT_FOUND end = Ok a) ↔
    ∃ alt, nth_data ifs n = Some alt ∧ acm_of alt = Some a) as Hiff.
  { destruct (nth_data ifs n) as [alt|]; simpl.
    - destruct (acm_of alt) eqn:E; split.
      + intros [= ->]. by exists alt.
      + intros (? & [= <-] & E'). congruence.
      + done.
      + intros (? & [= <-] & E'). congruence.
    - split; [done|]. by intros (? & ? & _). }
  split; [done|]. intros (alt & Hl & Ha)%Hiff. unfold acm_of in Ha.
  pose proof (bulk_endpoints_spec (endpoints alt)) as Hb.
  destruct (bulk_endpoints (endpoints alt)) as [i o]. destruct Hb as [Hi Ho].
  destruct ((i =? 0) || (o =? 0)) eqn:E; [done|]. boolprop.
  destruct (Hi ltac:(done)) as (ei & ? & ? & ? & <-). destruct (Ho ltac:(done)) as (eo & ? & ? & ? & <-).
  injection Ha as <-. exists alt, ei, eo. done.
Qed.

Definition demo_ifs : list (list altsetting) :=
  [[Alt 0 2 0 []]; [Alt 0 10 1 [Endpoint 2 0x81; Endpoint 2 0x01]];
   [Alt 0 2 2 []]; [Alt 0 10 3 [Endpoint 3 0x84; Endpoint 2 0x83; Endpoint 2 0x03]]].

Lemma find_acm_data_interface_spec_witness :
  let a := Acm 2 3 0x83 0x03 in
  find_acm_data_interface (Ok demo_ifs) 1 = Ok a ∧
  (find_acm_data_interface (Ok demo_ifs) 1 = Ok a ↔
     ∃ alt, nth_data demo_ifs 1 = Some alt ∧ acm_of alt = Some a) ∧
  (find_acm_data_interface (Ok demo_ifs) 1 = Ok a →
   ∃ alt i o, nth_data demo_ifs 1 = Some alt ∧ i ∈ endpoints alt ∧ o ∈ endpoints alt ∧
     is_bulk i = true ∧ is_in i = true ∧ is_bulk o = true ∧ is_in o = false ∧
     a = Acm (bInterfaceNumber alt - 1) (bInterfaceNumber alt) (bEndpointAddress i) (bEndpointAddress o)).
Proof.
  split; [vm_compute; reflexivity|].
  refine (find_acm_data_interface_spec demo_ifs 1 (Acm 2 3 0x83 0x03) _). lia.
Defined.


Definition demo_devices : result Z (list usb_device) :=
  Ok [UsbDevice (Some (0x1209, 0x316d, 1)) true (Some "m1n1 uartproxy");
      UsbDevice (Some (0x1209, 0x316d, 1)) true (Some EXPECTED_PRODUCT)].
(** Everything works, one byte is forwarded, then the program is asked to stop. *)
Definition demo_ret (t : list event) (e : event) : Z :=
  match e with
  | Control 0x20 _ _ _ => 7
  | PollPty | ReadPty => 1
  | ReadStop => if decide (1 ≤ stops t)%nat then 1 else 0
  | _ => 0
  end.


(** The reader thread forwards what the device delivered: the bytes the terminal
    accepted are at every end of the thread a prefix of the bytes of the
    successful transfers, in order, and all of them when it was asked to stop. *)
Theorem usb_to_pty_forwards ret errno data moved fuel t :
  ∃ evs, (usb_to_pty ret errno data moved fuel t).2 = t ++ evs ∧
    accepted ret t evs `prefix_of` delivered ret data moved t evs ∧
    ((usb_to_pty ret errno data moved fuel t).1 = Some false →
     accepted ret t evs = delivered ret data moved t evs).
Proof. apply usb_to_pty_spec. Qed.

(** The main loop forwards what was typed: at every point the bytes the device
    took are a prefix of the bytes read from the terminal, in order, and all of
    them unless the loop ended with the failure flag set. *)
Theorem pty_to_usb_forwards ret errno data moved fuel t :
  ∃ evs, (pty_to_usb ret errno data moved fuel t).2 = t ++ evs ∧
    taken ret moved t evs `prefix_of` typed ret data t evs ∧
    ((pty_to_usb ret errno data moved fuel t).1 ≠ Some true →
     taken ret moved t evs = typed ret data t evs).
Proof. apply pty_to_usb_spec. Qed.

(** The first transfer times out after five bytes have arrived, then the program is
    asked to stop. *)
Definition timeout_ret (t : list event) (e : event) : Z :=
  match e, t with
  | BulkIn, _ => LIBUSB_ERROR_TIMEOUT
  | ReadStop, _ :: _ => 1
  | _, _ => 0
  end.
Definition timeout_moved (t : list event) (e : event) : Z := 5.

(** libusb reports a timeout together with the number of bytes that did arrive.
    The reader drops them: nothing is written to the terminal. *)
Theorem usb_to_pty_drops_partial :
  let r := usb_to_pty timeout_ret (λ _ _, 0) (λ _ _, [1; 2; 3; 4; 5]) timeout_moved 3 [] in
  r.1 = Some false ∧ timeout_moved [ReadStop] BulkIn = 5 ∧
  r.2 = [ReadStop; BulkIn; ReadStop].
Proof. vm_compute. done. Qed.
