(* ===== verification/Aic.v ===== *)
(** * AIC interrupt controller: hardware interrupts (drivers/irqchip/irq-apple-aic.c)

    The register layouts of the three generations, the interrupt domain, masking,
    dispatch and the initialisation.  Register accesses and calls into the kernel
    are events; their answers are an oracle on the history.  FIQs, inter-processor
    interrupts and the per-CPU state are in [AicFiq].  Messages are not modelled. *)

From Stdlib Require Import ZArith Lia Bool String.
From stdpp Require Import base numbers list option strings gmap.
From S2P Require Import Prelude.
From S2P Require Import Ledger.

Local Open Scope string_scope.
Local Open Scope list_scope.
Local Open Scope Z_scope.

Definition AIC_INFO : Z := 0x0004.
Definition AIC_INFO_NR_IRQ : Z := GENMASK 15 0.
Definition AIC_EVENT : Z := 0x2004.
Definition AIC_EVENT_DIE : Z := GENMASK 31 24.
Definition AIC_EVENT_TYPE : Z := GENMASK 23 16.
Definition AIC_EVENT_NUM : Z := GENMASK 15 0.
Definition AIC_EVENT_TYPE_FIQ : Z := 0.
Definition AIC_EVENT_TYPE_IRQ : Z := 1.
Definition AIC_EVENT_TYPE_IPI : Z := 4.
Definition AIC_IPI_SEND : Z := 0x2008.
Definition AIC_IPI_ACK : Z := 0x200c.
Definition AIC_IPI_MASK_SET : Z := 0x2024.
Definition AIC_IPI_MASK_CLR : Z := 0x2028.
Definition AIC_IPI_SEND_CPU (cpu : Z) : Z := BIT cpu.
Definition AIC_IPI_OTHER : Z := BIT 0.
Definition AIC_IPI_SELF : Z := BIT 31.
Definition AIC_TARGET_CPU : Z := 0x3000.
Definition AIC_MAX_IRQ : Z := 0x400.
Definition AIC2_INFO1 : Z := 0x0004.
Definition AIC2_INFO1_NR_IRQ : Z := GENMASK 15 0.
Definition AIC2_INFO1_LAST_DIE : Z := GENMASK 27 24.
Definition AIC2_INFO3 : Z := 0x000c.
Definition AIC2_INFO3_MAX_IRQ : Z := GENMASK 15 0.
Definition AIC2_INFO3_MAX_DIE : Z := GENMASK 27 24.
Definition AIC2_CONFIG : Z := 0x0014.
Definition AIC2_CONFIG_ENABLE : Z := BIT 0.
Definition AIC2_IRQ_CFG : Z := 0x2000.
Definition AIC3_IRQ_CFG : Z := 0x10000.
Definition AIC_NR_SWIPI : Z := 32.
Definition U32_MAX : Z := 0xffffffff.

Definition MASK_REG (x : Z) : Z := u32 (4 * Z.shiftr x 5).
Definition MASK_BIT (x : Z) : Z := BIT (Z.land x (GENMASK 4 0)).

Definition AIC_IRQ_HWIRQ (die irq : Z) : Z :=
  Z.lor (Z.lor (FIELD_PREP AIC_EVENT_DIE die) (FIELD_PREP AIC_EVENT_TYPE AIC_EVENT_TYPE_IRQ))
        (FIELD_PREP AIC_EVENT_NUM irq).
Definition AIC_FIQ_HWIRQ (x : Z) : Z :=
  Z.lor (FIELD_PREP AIC_EVENT_TYPE AIC_EVENT_TYPE_FIQ) (FIELD_PREP AIC_EVENT_NUM x).
Definition AIC_HWIRQ_IRQ (x : Z) : Z := FIELD_GET AIC_EVENT_NUM x.
Definition AIC_HWIRQ_DIE (x : Z) : Z := FIELD_GET AIC_EVENT_DIE x.

(** The device-tree binding: the two kinds of specifier and the FIQ sources. *)
Definition AIC_IRQ : Z := 0.
Definition AIC_FIQ : Z := 1.
Definition AIC_TMR_HV_PHYS : Z := 0.
Definition AIC_TMR_HV_VIRT : Z := 1.
Definition AIC_TMR_GUEST_PHYS : Z := 2.
Definition AIC_TMR_GUEST_VIRT : Z := 3.
Definition AIC_CPU_PMU_E : Z := 4.
Definition AIC_CPU_PMU_P : Z := 5.
Definition AIC_TMR_EL0_PHYS : Z := AIC_TMR_HV_PHYS.
Definition AIC_TMR_EL0_VIRT : Z := AIC_TMR_HV_VIRT.
Definition AIC_TMR_EL02_PHYS : Z := AIC_TMR_GUEST_PHYS.
Definition AIC_TMR_EL02_VIRT : Z := AIC_TMR_GUEST_VIRT.
Definition AIC_VGIC_MI : Z := AIC_CPU_PMU_P + 1.
Definition AIC_NR_FIQ : Z := AIC_VGIC_MI + 1.

Definition IRQ_TYPE_EDGE_RISING : Z := 1.
Definition IRQ_TYPE_LEVEL_HIGH : Z := 4.
Definition IRQ_TYPE_SENSE_MASK : Z := 0xf.

Record aic_info := AicInfo {
  version : Z;
  event_reg : Z;
  target_cpu : Z;
  irq_cfg : Z;
  sw_set : Z;
  sw_clr : Z;
  mask_set : Z;
  mask_clr : Z;
  die_stride : Z;
  fast_ipi : bool;
  local_fast_ipi : bool
}.

Definition aic1_info : aic_info := AicInfo 1 AIC_EVENT AIC_TARGET_CPU 0 0 0 0 0 0 false false.
Definition aic1_fipi_info : aic_info := AicInfo 1 AIC_EVENT AIC_TARGET_CPU 0 0 0 0 0 0 true false.
Definition aic1_local_fipi_info : aic_info :=
  AicInfo 1 AIC_EVENT AIC_TARGET_CPU 0 0 0 0 0 0 true true.
Definition aic2_info : aic_info := AicInfo 2 0 0 AIC2_IRQ_CFG 0 0 0 0 0 true true.
Definition aic3_info : aic_info := AicInfo 3 0 0 AIC3_IRQ_CFG 0 0 0 0 0 true true.

Definition aic_info_match (compatible : string) : option aic_info :=
  if String.eqb compatible "apple,t8103-aic" then Some aic1_local_fipi_info
  else if String.eqb compatible "apple,t8015-aic" then Some aic1_fipi_info
  else if String.eqb compatible "apple,aic" then Some aic1_info
  else if String.eqb compatible "apple,aic2" then Some aic2_info
  else if String.eqb compatible "apple,t8122-aic3" then Some aic3_info
  else None.

Record aic_irq_chip := AicChip {
  nr_irq : Z;
  max_irq : Z;
  nr_die : Z;
  max_die : Z;
  info : aic_info;
  fiq_aff : gmap Z (gset Z)     (** CPUs of a FIQ, when restricted *)
}.

(** ** The interrupt chip

    A register write is an offset and a value. *)

Definition aic_irq_mask (ic : aic_irq_chip) (hwirq : Z) : Z * Z :=
  let off := u32 (AIC_HWIRQ_DIE hwirq * die_stride (info ic)) in
  let irq := AIC_HWIRQ_IRQ hwirq in
  (u32 (mask_set (info ic) + off + MASK_REG irq), MASK_BIT irq).

Definition aic_irq_unmask (ic : aic_irq_chip) (hwirq : Z) : Z * Z :=
  let off := u32 (AIC_HWIRQ_DIE hwirq * die_stride (info ic)) in
  let irq := AIC_HWIRQ_IRQ hwirq in
  (u32 (mask_clr (info ic) + off + MASK_REG irq), MASK_BIT irq).

(** [masked] is the kernel's view of the interrupt. *)
Definition aic_irq_eoi (ic : aic_irq_chip) (masked : bool) (hwirq : Z) : list (Z * Z) :=
  if negb masked then [aic_irq_unmask ic hwirq] else [].

(** CPU masks are lists in ascending order; [nr_cpu_ids] stands for "none".
    [None] is the [BUG_ON]. *)
Definition aic_irq_set_affinity (ic : aic_irq_chip) (nr_cpu_ids : Z) (mask_val online : list Z)
    (force : bool) (hwirq : Z) : option ((Z * Z) * Z) :=
  if target_cpu (info ic) =? 0 then None
  else
    let cpu := default nr_cpu_ids
                 (head (if force then mask_val
                        else List.filter (λ c, bool_decide (c ∈ online)) mask_val)) in
    Some ((u32 (target_cpu (info ic) + AIC_HWIRQ_IRQ hwirq * 4), u32 (BIT cpu)), cpu).

Definition aic_irq_set_type (type : Z) : Z :=
  if (type =? IRQ_TYPE_LEVEL_HIGH) || (type =? IRQ_TYPE_EDGE_RISING) then 0 else - EINVAL.

(** ** The interrupt domain *)

Inductive chip_kind := ChipAic | ChipAic2 | ChipFiq.
Inductive flow := FastEoi | PercpuDevid.

(** What a Linux interrupt is bound to. *)
Record irq_binding := Binding { b_hwirq : Z; b_chip : chip_kind; b_flow : flow; b_single : bool }.

Definition aic_irq_domain_map (ic : aic_irq_chip) (hw : Z) : irq_binding :=
  let type := FIELD_GET AIC_EVENT_TYPE hw in
  let chip := if (version (info ic) =? 2) || (version (info ic) =? 3) then ChipAic2 else ChipAic in
  if type =? AIC_EVENT_TYPE_IRQ then Binding hw chip FastEoi true
  else Binding hw ChipFiq PercpuDevid false.

(** [of_node] says that the specifier comes from the device tree. *)
Record irq_fwspec := Fwspec { of_node : bool; params : list Z }.

(** [hyp] is [is_kernel_in_hyp_mode()]; the result is the hardware number and the
    trigger type. *)
Definition aic_irq_domain_translate (ic : aic_irq_chip) (hyp : bool) (f : irq_fwspec)
    : result Z (Z * Z) :=
  let '(kind, die, arg0, arg1, bad) :=
    match params f with
    | [k; a; t] => (k, 0, a, t, false)
    | [k; d; a; t] => (k, d, a, t, false)
    | _ => (0, 0, 0, 0, true)
    end in
  if bad || negb (of_node f) then Err (- EINVAL)
  else if kind =? AIC_IRQ then
    if die >=? nr_die ic then Err (- EINVAL)
    else if arg0 >=? nr_irq ic then Err (- EINVAL)
    else Ok (AIC_IRQ_HWIRQ die arg0, Z.land arg1 IRQ_TYPE_SENSE_MASK)
  else if kind =? AIC_FIQ then
    if negb (die =? 0) then Err (- EINVAL)
    else if arg0 >=? AIC_NR_FIQ then Err (- EINVAL)
    else
      match (if hyp then Ok (AIC_FIQ_HWIRQ arg0)
             else if arg0 =? AIC_TMR_GUEST_PHYS then Ok (AIC_FIQ_HWIRQ AIC_TMR_EL0_PHYS)
             else if arg0 =? AIC_TMR_GUEST_VIRT then Ok (AIC_FIQ_HWIRQ AIC_TMR_EL0_VIRT)
             else if (arg0 =? AIC_TMR_HV_PHYS) || (arg0 =? AIC_TMR_HV_VIRT) then Err (- ENOENT)
             else Ok (AIC_FIQ_HWIRQ arg0)) with
      | Err e => Err e
      | Ok hwirq =>
          let hwirq := if hwirq =? AIC_CPU_PMU_E then AIC_CPU_PMU_P else hwirq in
          Ok (hwirq, Z.land arg1 IRQ_TYPE_SENSE_MASK)
      end
  else Err (- EINVAL).

(** The interrupts of a domain, by Linux number. *)
Fixpoint map_loop (ic : aic_irq_chip) (n : nat) (virq hwirq : Z) (d : gmap Z irq_binding)
    : gmap Z irq_binding :=
  match n with
  | O => d
  | S n' => map_loop ic n' (virq + 1) (hwirq + 1) (<[virq := aic_irq_domain_map ic hwirq]> d)
  end.

Definition aic_irq_domain_alloc (ic : aic_irq_chip) (hyp : bool) (f : irq_fwspec) (virq : Z)
    (nr_irqs : nat) (d : gmap Z irq_binding) : result Z (gmap Z irq_binding) :=
  match aic_irq_domain_translate ic hyp f with
  | Err e => Err e
  | Ok (hwirq, _) => Ok (map_loop ic nr_irqs virq hwirq d)
  end.

Fixpoint aic_irq_domain_free (virq : Z) (nr_irqs : nat) (d : gmap Z irq_binding)
    : gmap Z irq_binding :=
  match nr_irqs with
  | O => d
  | S n => aic_irq_domain_free (virq + 1) n (delete virq d)
  end.

(** The affinity of a FIQ: [Ok None] when the specifier is not a FIQ; [Err] is an
    access outside the array [fiq_aff]. *)
Definition aic_irq_get_fwspec_info (ic : aic_irq_chip) (possible : gset Z) (f : irq_fwspec)
    : result Z (option (gset Z)) :=
  if negb (nth 0 (params f) 0 =? AIC_FIQ) then Ok None
  else
    let intid := if Nat.eqb (length (params f)) 3 then nth 1 (params f) 0
                 else nth 2 (params f) 0 in
    if (0 <=? intid) && (intid <? AIC_NR_FIQ)
    then Ok (Some (default possible (fiq_aff ic !! intid)))
    else Err intid.

(** ** Dispatch and initialisation *)

Inductive event :=
| ReadEvent | HandleIrq (hwirq : Z) | HandleIpi | UnknownEvent (type irq : Z)
| ReadHcrEn | ReadMisr | DisableVgic
| Iomap (n : Z) | Iounmap (n : Z) | Kzalloc | Kfree
| ReadReg (r : Z) | WriteReg (r v : Z)
| DisableFastIpi | DisableLocalFastIpi
| CreateDomain | UpdateBusToken | RemoveDomain
| IpiMuxCreate (n : Z) | SetIpiRange (base n : Z)
| AllocAff (fiq : Z)
| SetHandleIrq | SetHandleFiq | CpuhpSetup | CreateMapping (f : irq_fwspec) | SetKvmInfo.

(** A child of the node "affinities": its FIQ index and, when the property can be
    counted, the CPU number of each entry that can be resolved. *)
Record aff_child := AffChild { a_fiq : option Z; a_cpus : option (list (option Z)) }.

Section driver.
Context (ans : list event → event → Z).

(** [while (event)]; [None] when the fuel runs out. *)
Fixpoint irq_loop (fuel : nat) : TR event (option unit) :=
  match fuel with
  | O => mret None
  | S fuel' =>
      r ← ask ans ReadEvent;
      let event := u32 r in
      let type := FIELD_GET AIC_EVENT_TYPE event in
      let irq := FIELD_GET AIC_EVENT_NUM event in
      (if type =? AIC_EVENT_TYPE_IRQ then emit (HandleIrq event)
       else if (type =? AIC_EVENT_TYPE_IPI) && (irq =? 1) then emit HandleIpi
       else if negb (event =? 0) then emit (UnknownEvent type irq)
       else mret tt);;
      if negb (event =? 0) then irq_loop fuel' else mret (Some tt)
  end.

(** The maintenance interrupt of the virtual GIC. *)
Definition vgic_pending : TR event bool :=
  en ← ask ans ReadHcrEn;
  if en =? 0 then mret false
  else misr ← ask ans ReadMisr; mret (negb (misr =? 0)).

Definition aic_handle_irq (fuel : nat) (hyp : bool) : TR event (option unit) :=
  r ← irq_loop fuel;
  match r with
  | None => mret None
  | Some _ =>
      pend ← (if hyp then vgic_pending else mret false);
      (if pend : bool then
         emit (HandleIrq (AIC_FIQ_HWIRQ AIC_VGIC_MI));;
         still ← vgic_pending;
         (if still : bool then emit DisableVgic else mret tt)
       else mret tt);;
      mret (Some tt)
  end.

Definition aic_ic_read (reg : Z) : TR event Z := r ← ask ans (ReadReg reg); mret (u32 r).

Definition aic_init_smp : TR event Z :=
  base_ipi ← ask ans (IpiMuxCreate AIC_NR_SWIPI);
  if base_ipi <=? 0 then mret (- ENODEV)
  else emit (SetIpiRange base_ipi AIC_NR_SWIPI);; mret 0.

Definition build_fiq_affinity (ic : aic_irq_chip) (c : aff_child) : TR event aic_irq_chip :=
  match a_fiq c with
  | None => mret ic
  | Some fiq =>
      if (fiq >=? AIC_NR_FIQ) || bool_decide (is_Some (fiq_aff ic !! fiq)) then mret ic
      else match a_cpus c with
      | None => mret ic
      | Some cpus =>
          p ← ask ans (AllocAff fiq);
          if p =? 0 then mret ic
          else
            let aff := list_to_set (List.filter (λ cpu, 0 <=? cpu) (omap id cpus)) in
            mret (AicChip (nr_irq ic) (max_irq ic) (nr_die ic) (max_die ic) (info ic)
                    (<[fiq := aff]> (fiq_aff ic)))
      end
  end.

Fixpoint build_affinities (ic : aic_irq_chip) (affs : list aff_child) : TR event aic_irq_chip :=
  match affs with
  | [] => mret ic
  | c :: affs' => ic ← build_fiq_affinity ic c; build_affinities ic affs'
  end.

(** The register offsets behind [off], in a block of registers that starts at
    [start_off]. *)
Definition set_layout (start_off off max_irq : Z) (i : aic_info) : aic_info :=
  let words := 4 * Z.shiftr max_irq 5 in
  let sw_set := off in
  let off := u32 (off + words) in
  let sw_clr := off in
  let off := u32 (off + words) in
  let mask_set := off in
  let off := u32 (off + words) in
  let mask_clr := off in
  let off := u32 (off + words) in
  let off := u32 (off + words) in
  AicInfo (version i) (event_reg i) (target_cpu i) (irq_cfg i) sw_set sw_clr mask_set mask_clr
    (u32 (off - start_off)) (fast_ipi i) (local_fast_ipi i).

(** Capabilities of the controller; [Err] when the event registers cannot be
    mapped. *)
Definition read_caps (i : aic_info) : TR event (result unit aic_irq_chip) :=
  if version i =? 1 then
    inf ← aic_ic_read AIC_INFO;
    let start_off := target_cpu i in
    let max := AIC_MAX_IRQ in
    mret (Ok (AicChip (FIELD_GET AIC_INFO_NR_IRQ inf) max 1 1
                (set_layout start_off (u32 (start_off + 4 * max)) max i) ∅))
  else
    info1 ← aic_ic_read AIC2_INFO1;
    info3 ← aic_ic_read AIC2_INFO3;
    let start_off := irq_cfg i in
    let max := FIELD_GET AIC2_INFO3_MAX_IRQ info3 in
    p ← ask ans (Iomap 1);
    if p =? 0 then mret (Err tt)
    else
      mret (Ok (AicChip (FIELD_GET AIC2_INFO1_NR_IRQ info1) max
                  (FIELD_GET AIC2_INFO1_LAST_DIE info1 + 1)
                  (FIELD_GET AIC2_INFO3_MAX_DIE info3)
                  (set_layout start_off (u32 (start_off + 4 * max)) max i) ∅)).

(** The initial register writes of one die. *)
Definition reset_die (ic : aic_irq_chip) (off : Z) : list event :=
  let i := info ic in
  let words := DIV_ROUND_UP (nr_irq ic) 32 in
  ((λ k, WriteReg (u32 (mask_set i + off + k * 4)) U32_MAX) <$> seqZ 0 words) ++
  ((λ k, WriteReg (u32 (sw_clr i + off + k * 4)) U32_MAX) <$> seqZ 0 words) ++
  (if negb (target_cpu i =? 0)
   then (λ k, WriteReg (u32 (target_cpu i + off + k * 4)) 1) <$> seqZ 0 (nr_irq ic) else []).

Fixpoint reset_dies (ic : aic_irq_chip) (n : nat) (off : Z) : list event :=
  match n with
  | O => []
  | S n' => reset_die ic off ++ reset_dies ic n' (u32 (off + die_stride (info ic)))
  end.

Definition err_unmap (event_mapped : bool) : TR event (Z * option aic_irq_chip) :=
  (if event_mapped then emit (Iounmap 1) else mret tt);;
  emit (Iounmap 0);; emit Kfree;; mret (- ENODEV, None).

(** From the created domain to the end. *)
Definition init_domain (ic : aic_irq_chip) (hyp : bool) (affs : list aff_child)
    : TR event (Z * option aic_irq_chip) :=
  emit UpdateBusToken;;
  ret ← aic_init_smp;
  if negb (ret =? 0) then
    emit RemoveDomain;; err_unmap (negb (version (info ic) =? 1))
  else
    ic ← build_affinities ic affs;
    emit SetHandleIrq;;
    emit SetHandleFiq;;
    emits (reset_dies ic (Z.to_nat (nr_die ic)) 0);;
    (if (version (info ic) =? 2) || (version (info ic) =? 3) then
       config ← aic_ic_read AIC2_CONFIG;
       emit (WriteReg AIC2_CONFIG (Z.lor config AIC2_CONFIG_ENABLE))
     else mret tt);;
    emit CpuhpSetup;;
    (if hyp then emit (CreateMapping (Fwspec true [AIC_FIQ; AIC_VGIC_MI; IRQ_TYPE_LEVEL_HIGH]))
     else mret tt);;
    emit SetKvmInfo;;
    mret (0, Some ic).

(** [match_info] is [of_match_node]; [affs] the children of "affinities". *)
Definition aic_of_ic_init (match_info : option aic_info) (hyp : bool) (affs : list aff_child)
    : TR event (Z * option aic_irq_chip) :=
  regs ← ask ans (Iomap 0);
  if regs =? 0 then mret (- EIO, None) else
  p ← ask ans Kzalloc;
  if p =? 0 then emit (Iounmap 0);; mret (- ENOMEM, None) else
  match match_info with
  | None => err_unmap false
  | Some i =>
      caps ← read_caps i;
      match caps with
      | Err _ => err_unmap false
      | Ok ic =>
          (if negb (fast_ipi i) then emit DisableFastIpi else mret tt);;
          (if negb (local_fast_ipi i) then emit DisableLocalFastIpi else mret tt);;
          d ← ask ans CreateDomain;
          if d =? 0 then err_unmap (negb (version i =? 1))
          else init_domain ic hyp affs
      end
  end.
End driver.

(** ** The hardware's side

    Registers of a die, from the layout in the source's comment: the interrupt
    configuration (or target) words, then one bit per interrupt in SW_SET, SW_CLR,
    MASK_SET, MASK_CLR and HW_STATE.  A write of ones to MASK_SET masks, to MASK_CLR
    unmasks. *)
Definition hw_stride (max : Z) : Z := 4 * max + 20 * (max / 32).
Definition hw_bank (start max die bank irq : Z) : Z :=
  start + die * hw_stride max + 4 * max + bank * (4 * (max / 32)) + 4 * (irq / 32).
Definition hw_mask_set (start max die irq : Z) : Z := hw_bank start max die 2 irq.
Definition hw_mask_clr (start max die irq : Z) : Z := hw_bank start max die 3 irq.

(** Which interrupts are masked after a register write. *)
Definition mask_write (start max : Z) (w : Z * Z) (m : Z → Z → bool) : Z → Z → bool :=
  λ die irq,
    if (w.1 =? hw_mask_set start max die irq) && Z.testbit w.2 (irq mod 32) then true
    else if (w.1 =? hw_mask_clr start max die irq) && Z.testbit w.2 (irq mod 32) then false
    else m die irq.

(** The same for the writes among the events of a run. *)
Definition mask_events (start max : Z) (evs : list event) (m : Z → Z → bool) : Z → Z → bool :=
  fold_left (λ m e, match e with WriteReg r v => mask_write start max (r, v) m | _ => m end) evs m.

Definition start_of (ic : aic_irq_chip) : Z :=
  if version (info ic) =? 1 then target_cpu (info ic) else irq_cfg (info ic).

(** What the initialisation establishes about the layout. *)
Record chip_ok (ic : aic_irq_chip) : Prop := {
  ok_start : 0x2000 ≤ start_of ic ≤ 0x10000;
  ok_irq : 0 ≤ nr_irq ic < 2 ^ 16;
  ok_max : 0 ≤ max_irq ic < 2 ^ 16;
  ok_die : 1 ≤ nr_die ic ≤ 16;
  ok_sw_clr : sw_clr (info ic) = start_of ic + 4 * max_irq ic + 4 * (max_irq ic / 32);
  ok_mask_set : mask_set (info ic) = start_of ic + 4 * max_irq ic + 8 * (max_irq ic / 32);
  ok_mask_clr : mask_clr (info ic) = start_of ic + 4 * max_irq ic + 12 * (max_irq ic / 32);
  ok_stride : die_stride (info ic) = hw_stride (max_irq ic);
  ok_target : target_cpu (info ic) = 0 ∨ target_cpu (info ic) = start_of ic ∧ nr_die ic = 1
}.

Definition same_regs (ic ic' : aic_irq_chip) : Prop :=
  nr_irq ic' = nr_irq ic ∧ max_irq ic' = max_irq ic ∧ nr_die ic' = nr_die ic ∧ info ic' = info ic.

Lemma chip_ok_same ic ic' : same_regs ic ic' → chip_ok ic → chip_ok ic'.
Proof.
  intros (H1 & H2 & H3 & H4) []. assert (start_of ic' = start_of ic) as Hs
    by (unfold start_of; by rewrite H4).
  split; rewrite ?Hs, ?H1, ?H2, ?H3, ?H4; done.
Qed.

Lemma set_layout_ok start max i :
  0 ≤ start ≤ 0x10000 → 0 ≤ max < 2 ^ 16 →
  let j := set_layout start (u32 (start + 4 * max)) max i in
  sw_clr j = start + 4 * max + 4 * (max / 32) ∧
  mask_set j = start + 4 * max + 8 * (max / 32) ∧
  mask_clr j = start + 4 * max + 12 * (max / 32) ∧
  die_stride j = hw_stride max ∧
  version j = version i ∧ target_cpu j = target_cpu i ∧ irq_cfg j = irq_cfg i.
Proof.
  intros Hs Hm. unfold set_layout, hw_stride. rewrite Z.shiftr_div_pow2 by lia.
  change (2 ^ 5) with 32. assert (0 ≤ max / 32 ≤ max) by (split; [apply Z.div_pos|apply Z.div_le_upper_bound]; lia).
  cbn [sw_clr mask_set mask_clr die_stride version target_cpu irq_cfg].
  rewrite !(u32_small (_ + _)) by (rewrite ?u32_small; rewrite ?u32_small; rewrite ?u32_small;
    rewrite ?u32_small; rewrite ?u32_small; lia).
  rewrite u32_small by lia. repeat split; lia.
Qed.

Section init.
Context (ans : list event → event → Z).

Definition no_write (e : event) : bool := match e with WriteReg _ _ => false | _ => true end.

Lemma mask_events_quiet start max evs m : forallb no_write evs = true → mask_events start max evs m = m.
Proof.
  unfold mask_events. revert m. induction evs as [|e evs IH]; intros m; [done|]. cbn [forallb fold_left].
  intros [He H]%andb_prop. destruct e; try done; by apply IH.
Qed.

Lemma mask_events_app start max evs evs' m :
  mask_events start max (evs ++ evs') m = mask_events start max evs' (mask_events start max evs m).
Proof. apply fold_left_app. Qed.

Lemma quiet_affinity ic c : quiet no_write (build_fiq_affinity ans ic c).
Proof.
  unfold build_fiq_affinity. destruct (a_fiq c); [|apply quiet_ret].
  apply quiet_if; [apply quiet_ret|]. destruct (a_cpus c); auto with quiet.
Qed.

Lemma affinity_same ic c t : same_regs ic (build_fiq_affinity ans ic c t).1.
Proof.
  unfold build_fiq_affinity, same_regs. destruct (a_fiq c); [|done]. case_if; [done|].
  destruct (a_cpus c); [|done]. trace_step. by case_if.
Qed.

Lemma affinities_same affs : ∀ ic t,
  same_regs ic (build_affinities ans ic affs t).1 ∧
  ∃ evs, (build_affinities ans ic affs t).2 = t ++ evs ∧ forallb no_write evs = true.
Proof.
  induction affs as [|c affs IH]; intros ic t; cbn [build_affinities].
  { split; [done|]. exists []. by rewrite app_nil_r. }
  rewrite TR_bind_eq. destruct (quiet_affinity ic c t) as (e & He & Hn).
  pose proof (affinity_same ic c t) as (H1 & H2 & H3 & H4).
  destruct (IH (build_fiq_affinity ans ic c t).1 (build_fiq_affinity ans ic c t).2)
    as ((G1 & G2 & G3 & G4) & evs & Hevs & Hn').
  split; [unfold same_regs; repeat split; congruence|].
  exists (e ++ evs). by rewrite Hevs, He, forallb_app, Hn, Hn', app_assoc.
Qed.

Lemma read_caps_ok i compatible ic t t' :
  aic_info_match compatible = Some i →
  read_caps ans i t = (Ok ic, t') →
  chip_ok ic ∧ (version (info ic) = version i) ∧
  ∃ evs, t' = t ++ evs ∧ forallb no_write evs = true.
Proof.
  intros Hm. unfold read_caps, aic_ic_read.
  assert (∃ v, (version i = 1 ∧ target_cpu i = AIC_TARGET_CPU ∧ v = true) ∨
    ((version i = 2 ∨ version i = 3) ∧ target_cpu i = 0 ∧
     (irq_cfg i = AIC2_IRQ_CFG ∨ irq_cfg i = AIC3_IRQ_CFG) ∧ v = false)) as [v Hv].
  { unfold aic_info_match in Hm. repeat case_if; simplify_eq; eexists; simpl; auto 10. }
  destruct Hv as [(Hver & Ht & ->)|(Hver & Ht & Hc & ->)].
  - rewrite Hver. cbn [Z.eqb]. trace_step. intros [= <- <-].
    destruct (set_layout_ok (target_cpu i) AIC_MAX_IRQ i) as (L1 & L2 & L3 & L4 & L5 & L6 & L7);
      [rewrite Ht; unfold AIC_TARGET_CPU; lia|unfold AIC_MAX_IRQ; lia|].
    split; [|split; [cbn [info]; by rewrite L5|by eexists]].
    assert (∀ a b c d f, start_of (AicChip a b c d (set_layout (target_cpu i)
      (u32 (target_cpu i + 4 * AIC_MAX_IRQ)) AIC_MAX_IRQ i) f) = target_cpu i) as Hs.
    { intros. unfold start_of. cbn [info]. by rewrite L5, L6, Hver. }
    split; rewrite ?Hs; cbn [nr_irq max_irq nr_die info]; rewrite ?L1, ?L2, ?L3, ?L4, ?L6;
      first [lia | (rewrite Ht); unfold AIC_TARGET_CPU; lia | by unfold AIC_MAX_IRQ | by right
            | apply (FIELD_GET_range 15 0); lia].
  - assert ((version i =? 1) = false) as -> by (destruct Hver as [-> | ->]; done).
    trace_step. case_if; [done|]. intros [= <- <-].
    set (info1 := u32 _) in *. set (info3 := u32 (ans (t ++ [ReadReg AIC2_INFO1]) _)).
    pose proof (FIELD_GET_range 15 0 info3 ltac:(lia)) as Hmax.
    change (GENMASK 15 0) with AIC2_INFO3_MAX_IRQ in Hmax.
    set (max := FIELD_GET AIC2_INFO3_MAX_IRQ info3) in *.
    destruct (set_layout_ok (irq_cfg i) max i) as (L1 & L2 & L3 & L4 & L5 & L6 & L7);
      [destruct Hc as [-> | ->]; unfold AIC2_IRQ_CFG, AIC3_IRQ_CFG; lia|lia|].
    split; [|split; [cbn [info]; by rewrite L5|by eexists; rewrite <- !app_assoc]].
    assert (∀ a b c d f, start_of (AicChip a b c d (set_layout (irq_cfg i)
      (u32 (irq_cfg i + 4 * max)) max i) f) = irq_cfg i) as Hs.
    { intros. unfold start_of. cbn [info]. rewrite L5, L7. by destruct Hver as [-> | ->]. }
    split; rewrite ?Hs; cbn [nr_irq max_irq nr_die info]; rewrite ?L1, ?L2, ?L3, ?L4, ?L6;
      first [lia | by left | apply (FIELD_GET_range 15 0); lia
            | (destruct Hc as [-> | ->]); unfold AIC2_IRQ_CFG, AIC3_IRQ_CFG; lia | idtac].
    pose proof (FIELD_GET_range 27 24 info1 ltac:(lia)) as Hd.
    change (GENMASK 27 24) with AIC2_INFO1_LAST_DIE in Hd. lia.
Qed.

Lemma err_unmap_fails b t : (err_unmap b t).1 = (- ENODEV, None).
Proof. unfold err_unmap. by destruct b; trace_step. Qed.

(** The end of the initialisation: the only register writes are the reset of the
    dies and, behind it, the configuration word. *)
Definition resets (ic : aic_irq_chip) (t t' : list event) : Prop :=
  ∃ pre post, t' = t ++ pre ++ reset_dies ic (Z.to_nat (nr_die ic)) 0 ++ post ∧
    forallb no_write pre = true ∧ ∀ r v, WriteReg r v ∈ post → r = AIC2_CONFIG.

Lemma resets_prefix ic t e t' : forallb no_write e = true → resets ic (t ++ e) t' → resets ic t t'.
Proof.
  intros He (pre & post & -> & Hpre & Hpost). exists (e ++ pre), post.
  by rewrite forallb_app, He, Hpre, <- !app_assoc.
Qed.

Lemma init_domain_success ic0 hyp affs t ic t' :
  init_domain ans ic0 hyp affs t = ((0, Some ic), t') → same_regs ic0 ic ∧ resets ic t t'.
Proof.
  unfold init_domain, aic_init_smp. trace_step.
  destruct (ans (t ++ [UpdateBusToken]) (IpiMuxCreate AIC_NR_SWIPI) <=? 0); trace_step.
  { change (negb (- ENODEV =? 0)) with true. cbv iota. trace_step. intros H.
    pose proof (err_unmap_fails (negb (version (info ic0) =? 1))
      (((t ++ [UpdateBusToken]) ++ [IpiMuxCreate AIC_NR_SWIPI]) ++ [RemoveDomain])) as E.
    by rewrite H in E. }
  cbn [negb Z.eqb]. set (e1 := SetIpiRange _ _).
  set (t1 := (_ ++ [IpiMuxCreate AIC_NR_SWIPI]) ++ [e1]).
  destruct (affinities_same affs ic0 t1) as (Hsame & ea & Hea & Hna). rewrite TR_bind_eq, Hea.
  destruct (build_affinities ans ic0 affs t1).1 as [n m d x i f] eqn:Eic. rewrite <- Eic in *. clear Eic.
  set (ic1 := (build_affinities ans ic0 affs t1).1) in *. trace_step. intros H.
  assert (ic = ic1 ∧ ∃ post, t' = t1 ++ ea ++ [SetHandleIrq; SetHandleFiq] ++
    reset_dies ic1 (Z.to_nat (nr_die ic1)) 0 ++ post ∧
    ∀ r v, WriteReg r v ∈ post → r = AIC2_CONFIG) as (-> & post & -> & Hpost).
  { revert H. unfold aic_ic_read. destruct (_ || _), hyp; trace_step; intros [= <- <-];
      (split; [done|]); eexists;
      (split; [rewrite <- !app_assoc; cbn [app]; reflexivity|]); set_solver. }
  split; [done|].
  exists ([UpdateBusToken; IpiMuxCreate AIC_NR_SWIPI; e1] ++ ea ++ [SetHandleIrq; SetHandleFiq]), post.
  split; [subst t1; by rewrite <- !app_assoc|]. split; [|done].
  by rewrite !forallb_app, Hna.
Qed.

(** A successful initialisation leaves the chip laid out and its dies reset. *)
Lemma init_success compatible i hyp affs t ic t' :
  aic_info_match compatible = Some i →
  aic_of_ic_init ans (Some i) hyp affs t = ((0, Some ic), t') →
  chip_ok ic ∧ resets ic t t'.
Proof.
  intros Hm. unfold aic_of_ic_init. trace_step.
  destruct (ans t (Iomap 0) =? 0); [done|]. trace_step. case_if; [done|]. trace_step.
  destruct (read_caps ans i _) as [[ic0|] t1] eqn:Hcaps; cbn [fst snd].
  2:{ intros H. pose proof (err_unmap_fails false t1) as E. by rewrite H in E. }
  destruct (read_caps_ok _ _ _ _ _ Hm Hcaps) as (Hok & Hver & e0 & He0 & Hn0).
  assert (∀ e t2, forallb no_write e = true → t2 = t1 ++ e →
    (if ans t2 CreateDomain =? 0 then err_unmap (negb (version i =? 1))
     else init_domain ans ic0 hyp affs) (t2 ++ [CreateDomain]) = ((0, Some ic), t') →
    chip_ok ic ∧ resets ic t t') as Hend.
  { intros e t2 He -> H. destruct (ans (t1 ++ e) CreateDomain =? 0).
    { pose proof (err_unmap_fails (negb (version i =? 1)) ((t1 ++ e) ++ [CreateDomain])) as E.
      by rewrite H in E. }
    apply init_domain_success in H as [Hs Hr]. split; [by eapply chip_ok_same|].
    apply (resets_prefix _ t ([Iomap 0; Kzalloc] ++ e0 ++ e ++ [CreateDomain])).
    - by rewrite !forallb_app, Hn0, He.
    - revert Hr. subst t1. by rewrite <- !app_assoc. }
  destruct (negb (fast_ipi i)), (negb (local_fast_ipi i)); trace_step; intros H.
  - apply (Hend [DisableFastIpi; DisableLocalFastIpi] _ eq_refl) in H; [done|by rewrite <- app_assoc].
  - by apply (Hend [DisableFastIpi] _ eq_refl) in H.
  - by apply (Hend [DisableLocalFastIpi] _ eq_refl) in H.
  - apply (Hend [] _ eq_refl) in H; [done|by rewrite app_nil_r].
Qed.
End init.

(** ** Addresses *)

Lemma stride_split S d x d' x' :
  0 ≤ x < S → 0 ≤ x' < S → d * S + x = d' * S + x' → d = d' ∧ x = x'.
Proof.
  intros Hx Hx' E. assert (d = d') as ->; [|split; [done|lia]].
  apply (f_equal (λ y, y / S)) in E. rewrite !Z.div_add_l, !Z.div_small in E by lia. lia.
Qed.

(** An interrupt that has its bits in the registers. *)
Definition in_bank (max irq : Z) : Prop := 0 ≤ irq < 32 * (max / 32).

Lemma in_bank_word max irq : in_bank max irq → 0 ≤ irq / 32 < max / 32.
Proof. intros H. split; [apply Z.div_pos; unfold in_bank in *; lia|]. apply Z.div_lt_upper_bound; [lia|]. apply H. Qed.

Lemma hw_bank_inj start max d b irq d' b' irq' :
  0 ≤ max → in_bank max irq → in_bank max irq' → 0 ≤ b < 5 → 0 ≤ b' < 5 →
  hw_bank start max d b irq = hw_bank start max d' b' irq' →
  d = d' ∧ b = b' ∧ irq / 32 = irq' / 32.
Proof.
  intros Hm Hi%in_bank_word Hi'%in_bank_word Hb Hb' E. unfold hw_bank, hw_stride in E.
  set (W := max / 32) in *. set (k := irq / 32) in *. set (k' := irq' / 32) in *.
  destruct (stride_split (4 * max + 20 * W) d (4 * max + b * (4 * W) + 4 * k)
    d' (4 * max + b' * (4 * W) + 4 * k')) as [-> E']; [nia|nia|lia|].
  destruct (stride_split (4 * W) b (4 * k) b' (4 * k')) as [-> ?]; lia.
Qed.

Lemma div_mod_eq32 a b : a / 32 = b / 32 → a mod 32 = b mod 32 → a = b.
Proof.
  intros H1 H2. rewrite (Z.div_mod a 32), (Z.div_mod b 32) by lia. by rewrite H1, H2.
Qed.

Lemma hwirq_fields die irq :
  0 ≤ die < 256 → 0 ≤ irq < 2 ^ 16 →
  let hw := AIC_IRQ_HWIRQ die irq in
  AIC_HWIRQ_DIE hw = die ∧ AIC_HWIRQ_IRQ hw = irq ∧ FIELD_GET AIC_EVENT_TYPE hw = AIC_EVENT_TYPE_IRQ.
Proof.
  intros Hd Hi. unfold AIC_IRQ_HWIRQ, AIC_HWIRQ_DIE, AIC_HWIRQ_IRQ, AIC_EVENT_DIE, AIC_EVENT_NUM,
    AIC_EVENT_TYPE, AIC_EVENT_TYPE_IRQ. cbv zeta. rewrite !FIELD_GET_lor.
  rewrite !FIELD_GET_PREP by lia. rewrite !FIELD_GET_PREP_disjoint by lia.
  by rewrite !Z.lor_0_r.
Qed.

Section layout.
Context (ic : aic_irq_chip) (Hok : chip_ok ic) (Hnr : nr_irq ic ≤ 32 * (max_irq ic / 32)).
Let start := start_of ic.
Let max := max_irq ic.

Definition valid (die irq : Z) : Prop := 0 ≤ die < nr_die ic ∧ 0 ≤ irq < nr_irq ic.

Lemma valid_bank die irq : valid die irq → in_bank max irq.
Proof. intros [_ ?]. unfold in_bank, max. lia. Qed.

(** No register address wraps. *)
Lemma hw_bank_range die b k :
  0 ≤ die < 16 → 0 ≤ b < 5 → 0 ≤ k < max / 32 →
  0x2000 ≤ hw_bank start max die b (32 * k) < 2 ^ 32.
Proof.
  intros Hd Hb Hk. pose proof (ok_start _ Hok) as Hs. pose proof (ok_max _ Hok) as Hm.
  fold start in Hs. fold max in Hm. unfold hw_bank, hw_stride.
  replace (32 * k / 32) with k by (rewrite Z.mul_comm, Z.div_mul; lia).
  assert (max / 32 < 2048) by (apply Z.div_lt_upper_bound; lia).
  set (W := max / 32) in *. nia.
Qed.

Lemma mask_address die irq :
  valid die irq →
  aic_irq_mask ic (AIC_IRQ_HWIRQ die irq) = (hw_mask_set start max die irq, BIT (irq mod 32)) ∧
  aic_irq_unmask ic (AIC_IRQ_HWIRQ die irq) = (hw_mask_clr start max die irq, BIT (irq mod 32)).
Proof.
  intros Hv. pose proof (in_bank_word _ _ (valid_bank _ _ Hv)) as Hw. destruct Hv as [Hd Hi].
  pose proof (ok_die _ Hok) as Hdie. pose proof (ok_irq _ Hok) as Hirq.
  destruct (hwirq_fields die irq) as (E1 & E2 & _); [lia|lia|].
  assert (∀ b, 0 ≤ b < 5 → 0x2000 ≤ hw_bank start max die b irq < 2 ^ 32) as Hr.
  { intros b Hb. pose proof (hw_bank_range die b (irq / 32) ltac:(lia) Hb ltac:(lia)) as H.
    unfold hw_bank in *. rewrite (Z.mul_comm 32), Z.div_mul in H by lia. done. }
  pose proof (Hr 2 ltac:(lia)) as H2. pose proof (Hr 3 ltac:(lia)) as H3.
  pose proof (ok_start _ Hok) as Hs. pose proof (ok_max _ Hok) as Hm. fold start in Hs. fold max in Hm.
  assert (MASK_BIT irq = BIT (irq mod 32)) as EB.
  { unfold MASK_BIT. change (GENMASK 4 0) with (Z.ones 5). by rewrite Z.land_ones. }
  assert (MASK_REG irq = 4 * (irq / 32)) as ER.
  { unfold MASK_REG. rewrite Z.shiftr_div_pow2 by lia. change (2 ^ 5) with 32.
    apply u32_small. assert (max / 32 < 2048) by (apply Z.div_lt_upper_bound; lia). lia. }
  unfold aic_irq_mask, aic_irq_unmask. rewrite E1, E2, EB, ER.
  rewrite (ok_mask_set _ Hok), (ok_mask_clr _ Hok), (ok_stride _ Hok). fold start max.
  unfold hw_mask_set, hw_mask_clr, hw_bank in *.
  assert (0 ≤ die * hw_stride max) by (unfold hw_stride; nia).
  assert (0 ≤ max / 32) by lia.
  rewrite (u32_small (die * hw_stride max)) by lia.
  split; f_equal; (etrans; [apply u32_small; lia|lia]).
Qed.
End layout.

(** C5. Masking and unmasking are exact: on every generation, after a successful
    initialisation, the register write made for an accepted interrupt specifier
    masks (unmasks) that interrupt of that die and changes no other interrupt of
    any die; no address computation wraps or leaves its register bank. *)
Theorem aic_mask_exact ans compatible i hyp affs t ic t' die irq type hwirq ty m die' irq' :
  aic_info_match compatible = Some i →
  aic_of_ic_init ans (Some i) hyp affs t = ((0, Some ic), t') →
  nr_irq ic ≤ 32 * (max_irq ic / 32) →
  0 ≤ die → 0 ≤ irq →
  aic_irq_domain_translate ic hyp (Fwspec true [AIC_IRQ; die; irq; type]) = Ok (hwirq, ty) →
  0 ≤ die' < nr_die ic → 0 ≤ irq' < nr_irq ic →
  let this := (die' =? die) && (irq' =? irq) in
  let write := mask_write (start_of ic) (max_irq ic) in
  write (aic_irq_mask ic hwirq) m die' irq' = this || m die' irq' ∧
  write (aic_irq_unmask ic hwirq) m die' irq' = negb this && m die' irq'.
Proof.
  intros Hm Hinit Hnr Hd Hi Htr Hd' Hi'.
  destruct (init_success _ _ _ _ _ _ _ _ Hm Hinit) as [Hok _].
  assert (hwirq = AIC_IRQ_HWIRQ die irq ∧ valid ic die irq) as [-> Hv].
  { revert Htr. unfold aic_irq_domain_translate. cbn. repeat case_if; try done.
    intros [= <- _]. boolprop. done. }
  destruct (mask_address ic Hok Hnr die irq Hv) as [-> ->]. cbv zeta.
  assert (valid ic die' irq') as Hv' by done.
  pose proof (valid_bank ic Hnr _ _ Hv) as Hb. pose proof (valid_bank ic Hnr _ _ Hv') as Hb'.
  pose proof (ok_max _ Hok) as Hmax.
  unfold mask_write. cbn [fst snd]. rewrite testbit_BIT by (apply Z.mod_pos_bound; lia).
  assert (∀ b b', 0 ≤ b < 5 → 0 ≤ b' < 5 →
    (hw_bank (start_of ic) (max_irq ic) die b irq =? hw_bank (start_of ic) (max_irq ic) die' b' irq')
     && (irq' mod 32 =? irq mod 32) = (b =? b') && ((die' =? die) && (irq' =? irq))) as Heq.
  { intros b b' Hbb Hbb'. apply eq_true_iff_eq. rewrite !andb_true_iff, !Z.eqb_eq. split.
    - intros [E1 E2]. apply hw_bank_inj in E1 as (-> & -> & E1); try done; [|lia].
      split; [done|]. split; [done|]. symmetry. by apply div_mod_eq32.
    - by intros (-> & -> & ->). }
  unfold hw_mask_set, hw_mask_clr. rewrite !Heq by lia. cbn [Z.eqb Pos.eqb andb].
  destruct ((die' =? die) && (irq' =? irq)); done.
Qed.

(** ** The reset of the dies *)

Lemma mask_events_true start max die irq evs : ∀ m,
  (∀ r v, WriteReg r v ∈ evs → r ≠ hw_mask_clr start max die irq) →
  m die irq = true ∨
    (∃ v, WriteReg (hw_mask_set start max die irq) v ∈ evs ∧ Z.testbit v (irq mod 32) = true) →
  mask_events start max evs m die irq = true.
Proof.
  unfold mask_events. induction evs as [|e evs IH]; intros m Hclr Hset; cbn [fold_left].
  { destruct Hset as [?|(v & []%not_elem_of_nil & _)]; done. }
  apply IH; [intros r v Hin; eapply Hclr; by apply list_elem_of_further|].
  destruct e as [| | | | | | | | | | |?|r v| | | | | | | | | | | | |];
    try (destruct Hset as [?|(v' & Hin & ?)]; [by left|right; exists v';
         apply elem_of_cons in Hin as [|]; done]).
  unfold mask_write. cbn [fst snd].
  assert ((r =? hw_mask_clr start max die irq) = false) as ->
    by (apply Z.eqb_neq; eapply Hclr, list_elem_of_here).
  cbn [andb]. destruct ((r =? hw_mask_set start max die irq) && Z.testbit v (irq mod 32)) eqn:E; [by left|].
  destruct Hset as [?|(v' & Hin & Hv)]; [by left|]. apply elem_of_cons in Hin as [[= <- <-]|Hin].
  - rewrite Z.eqb_refl, Hv in E. done.
  - right. by exists v'.
Qed.

Section reset.
Context (ic : aic_irq_chip) (Hok : chip_ok ic) (Hnr : nr_irq ic ≤ 32 * (max_irq ic / 32)).
Let start := start_of ic.
Let max := max_irq ic.
Let S := hw_stride max.

Lemma words_bound : DIV_ROUND_UP (nr_irq ic) 32 ≤ max / 32.
Proof. unfold DIV_ROUND_UP. apply Z.lt_succ_r, Z.div_lt_upper_bound; subst max; lia. Qed.

Lemma bank_address d b k base :
  0 ≤ d < 16 → 0 ≤ b < 5 → 0 ≤ k < max / 32 →
  base = start + 4 * max + b * (4 * (max / 32)) →
  u32 (base + d * S + k * 4) = hw_bank start max d b (32 * k).
Proof.
  intros Hd Hb Hk ->. pose proof (hw_bank_range ic Hok d b k Hd Hb Hk) as Hr. fold start max in Hr.
  unfold hw_bank in *. rewrite (Z.mul_comm 32), Z.div_mul in * by lia. fold S in Hr |- *.
  rewrite u32_small; lia.
Qed.

Lemma stride_range d : 0 ≤ d ≤ 16 → 0 ≤ d * S < 2 ^ 32.
Proof.
  intros Hd. subst S max. unfold hw_stride. pose proof (ok_max _ Hok).
  assert (0 ≤ max_irq ic / 32 < 2048) by (split; [apply Z.div_pos|apply Z.div_lt_upper_bound]; lia). nia.
Qed.

(** A write of the reset of die [d] hits MASK_SET, SW_CLR or a target word of it. *)
Lemma reset_die_writes d r v :
  0 ≤ d < nr_die ic → WriteReg r v ∈ reset_die ic (d * S) →
  (∃ b k, (b = 1 ∨ b = 2) ∧ 0 ≤ k < max / 32 ∧ r = hw_bank start max d b (32 * k)) ∨
  (start ≤ r < start + 4 * max).
Proof.
  intros Hd. pose proof words_bound as Hw. pose proof (ok_die _ Hok) as Hdie.
  pose proof (ok_sw_clr _ Hok) as E1. pose proof (ok_mask_set _ Hok) as E2.
  fold start max in E1, E2. unfold reset_die. rewrite !elem_of_app. intros [H|[H|H]].
  - apply list_elem_of_fmap in H as (k & [= -> ->] & Hk%elem_of_seqZ). left. exists 2, k.
    split; [auto|]. split; [lia|]. apply bank_address; lia.
  - apply list_elem_of_fmap in H as (k & [= -> ->] & Hk%elem_of_seqZ). left. exists 1, k.
    split; [auto|]. split; [lia|]. apply bank_address; lia.
  - right. destruct (ok_target _ Hok) as [E|[E Hone]]; rewrite E in H; [by apply not_elem_of_nil in H|].
    fold start in H. destruct (negb (start =? 0)); [|by apply not_elem_of_nil in H].
    apply list_elem_of_fmap in H as (k & [= -> ->] & Hk%elem_of_seqZ).
    assert (d = 0) as -> by lia. pose proof (ok_start _ Hok) as Hs. pose proof (ok_max _ Hok) as Hm.
    fold start in Hs. fold max in Hm. assert (32 * (max / 32) ≤ max) by (apply Z.mul_div_le; lia).
    fold max in Hnr. rewrite u32_small; lia.
Qed.

Lemma reset_die_masks d irq :
  valid ic d irq → WriteReg (hw_mask_set start max d irq) U32_MAX ∈ reset_die ic (d * S).
Proof.
  intros [Hd Hi]. unfold reset_die. apply elem_of_app. left.
  assert (0 ≤ irq / 32 < DIV_ROUND_UP (nr_irq ic) 32) as Hk.
  { split; [apply Z.div_pos; lia|]. unfold DIV_ROUND_UP.
    apply Z.div_lt_upper_bound; [lia|]. pose proof (Z.div_mod (nr_irq ic + 32 - 1) 32 ltac:(lia)).
    pose proof (Z.mod_pos_bound (nr_irq ic + 32 - 1) 32 ltac:(lia)). lia. }
  apply list_elem_of_fmap. exists (irq / 32). split; [|apply elem_of_seqZ; lia].
  f_equal. unfold hw_mask_set. pose proof words_bound. pose proof (ok_die _ Hok).
  pose proof (ok_mask_set _ Hok) as E2. fold start max in E2.
  rewrite (bank_address d 2 (irq / 32)) by lia. unfold hw_bank. by rewrite (Z.mul_comm 32 (irq / 32)), Z.div_mul by lia.
Qed.

Lemma reset_dies_elem n : ∀ d e, 0 ≤ d → d + Z.of_nat n ≤ 16 →
  e ∈ reset_dies ic n (d * S) ↔ ∃ d', d ≤ d' < d + Z.of_nat n ∧ e ∈ reset_die ic (d' * S).
Proof.
  induction n as [|n IH]; intros d e Hd Hn; cbn [reset_dies].
  { split; [by intros ?%not_elem_of_nil|]. intros (d' & ? & _). lia. }
  rewrite (ok_stride _ Hok). fold max S. replace (d * S + S) with ((d + 1) * S) by lia.
  rewrite u32_small by (apply stride_range; lia). rewrite elem_of_app, IH by lia. split.
  - intros [H|(d' & Hd' & H)]; [exists d|exists d']; (split; [lia|done]).
  - intros (d' & Hd' & H). destruct (Z.eq_dec d' d) as [-> |]; [by left|]. right.
    exists d'. split; [lia|done].
Qed.

(** Writes of the whole reset never reach MASK_CLR, and reach every MASK_SET. *)
Lemma reset_dies_masks irq die :
  valid ic die irq →
  (∀ r v, WriteReg r v ∈ reset_dies ic (Z.to_nat (nr_die ic)) 0 → r ≠ hw_mask_clr start max die irq) ∧
  WriteReg (hw_mask_set start max die irq) U32_MAX ∈ reset_dies ic (Z.to_nat (nr_die ic)) 0.
Proof.
  intros Hv. pose proof (ok_die _ Hok) as Hdie. pose proof (ok_max _ Hok) as Hm. fold max in Hm.
  pose proof (valid_bank ic Hnr _ _ Hv) as Hb. fold max in Hb.
  change 0 with (0 * S). split.
  - intros r v Hin E. rewrite reset_dies_elem in Hin by lia. destruct Hin as (d & Hd & Hin).
    apply reset_die_writes in Hin as [(b & k & Hbk & Hk & ->)|Hr]; [| |lia].
    + unfold hw_mask_clr in E. apply hw_bank_inj in E as (_ & -> & _); try done; try lia.
      unfold in_bank. lia.
    + pose proof (in_bank_word _ _ Hb). destruct Hv as [Hd' _]. subst r. unfold hw_mask_clr, hw_bank in Hr.
      assert (0 ≤ die * hw_stride max) by (apply (stride_range die); lia). lia.
  - rewrite reset_dies_elem by lia. exists die. destruct Hv as [Hd Hi]. split; [lia|].
    by apply reset_die_masks.
Qed.
End reset.

(** After a successful initialisation every interrupt of every die is masked,
    whatever the state the boot loader left: all MASK_SET words are written, and
    none of the other initial writes reaches a MASK_CLR word. *)
Theorem aic_init_masks_all ans compatible i hyp affs t ic t' :
  aic_info_match compatible = Some i →
  aic_of_ic_init ans (Some i) hyp affs t = ((0, Some ic), t') →
  nr_irq ic ≤ 32 * (max_irq ic / 32) →
  ∃ evs, t' = t ++ evs ∧ ∀ m die irq, 0 ≤ die < nr_die ic → 0 ≤ irq < nr_irq ic →
    mask_events (start_of ic) (max_irq ic) evs m die irq = true.
Proof.
  intros Hm Hinit Hnr.
  destruct (init_success _ _ _ _ _ _ _ _ Hm Hinit) as (Hok & pre & post & -> & Hpre & Hpost).
  eexists. split; [reflexivity|]. intros m die irq Hd Hi.
  assert (valid ic die irq) as Hv by done.
  destruct (reset_dies_masks ic Hok Hnr irq die Hv) as [Hclr Hset].
  rewrite !mask_events_app. apply mask_events_true.
  - intros r v Hin ->. apply Hpost in Hin. revert Hin. unfold hw_mask_clr, hw_bank, AIC2_CONFIG.
    pose proof (ok_start _ Hok). pose proof (ok_max _ Hok).
    pose proof (in_bank_word _ _ (valid_bank ic Hnr _ _ Hv)). unfold hw_stride. intros E.
    assert (0 ≤ die * (4 * max_irq ic + 20 * (max_irq ic / 32))) by nia. lia.
  - left. apply mask_events_true; [done|]. right. exists U32_MAX. split; [done|].
    change U32_MAX with (Z.ones 32). pose proof (Z.mod_pos_bound irq 32 ltac:(lia)).
    rewrite Z.testbit_ones by lia. apply andb_true_intro. split; [apply Z.leb_le|apply Z.ltb_lt]; lia.
Qed.

(** A controller of the second generation with two dies of 40 interrupts. *)
Definition demo_ans (t : list event) (e : event) : Z :=
  match e with
  | ReadReg 0x4 => 0x01000028
  | ReadReg 0xc => 0x04000040
  | ReadReg _ => 0
  | _ => 1
  end.
Definition demo_init := aic_of_ic_init demo_ans (Some aic2_info) false [] [].
Definition demo_ic : aic_irq_chip :=
  Eval vm_compute in match demo_init.1.2 with Some ic => ic | None => AicChip 0 0 0 0 aic1_info ∅ end.

Lemma aic_mask_exact_witness :
  let w := mask_write (start_of demo_ic) (max_irq demo_ic) (aic_irq_mask demo_ic (AIC_IRQ_HWIRQ 1 37)) in
  let u := mask_write (start_of demo_ic) (max_irq demo_ic) (aic_irq_unmask demo_ic (AIC_IRQ_HWIRQ 1 37)) in
  nr_die demo_ic = 2 ∧ nr_irq demo_ic = 40 ∧
  w (λ _ _, false) 1 37 = ((1 =? 1) && (37 =? 37)) || false ∧
  u (λ _ _, true) 1 37 = negb ((1 =? 1) && (37 =? 37)) && true.
Proof.
  split; [done|]. split; [done|].
  assert (aic_of_ic_init demo_ans (Some aic2_info) false [] [] = ((0, Some demo_ic), demo_init.2)) as E
    by (vm_compute; reflexivity).
  split.
  - refine (proj1 (aic_mask_exact demo_ans "apple,aic2" aic2_info false [] [] demo_ic demo_init.2 1 37 4
              (AIC_IRQ_HWIRQ 1 37) 4 (λ _ _, false) 1 37 _ E _ _ _ _ _ _));
      first [reflexivity | by vm_compute].
  - refine (proj2 (aic_mask_exact demo_ans "apple,aic2" aic2_info false [] [] demo_ic demo_init.2 1 37 4
              (AIC_IRQ_HWIRQ 1 37) 4 (λ _ _, true) 1 37 _ E _ _ _ _ _ _));
      first [reflexivity | by vm_compute].
Defined.

Lemma aic_init_masks_all_witness :
  ∃ evs, demo_init.2 = [] ++ evs ∧ ∀ m die irq, 0 ≤ die < nr_die demo_ic → 0 ≤ irq < nr_irq demo_ic →
    mask_events (start_of demo_ic) (max_irq demo_ic) evs m die irq = true.
Proof.
  refine (aic_init_masks_all demo_ans "apple,aic2" aic2_info false [] [] demo_ic demo_init.2 _ _ _).
  - reflexivity.
  - vm_compute. reflexivity.
  - vm_compute. congruence.
Defined.

(** ** The interrupt domain *)

(** A specifier from the device tree denotes one hardware interrupt: a hardware
    specifier is accepted exactly when its die and number exist, and its hardware
    number is the event word the controller reports for that interrupt, bound to
    the controller's own chip; a FIQ specifier is accepted when the source exists
    at the exception level of the kernel, and is bound to a per-CPU source; the
    two PMU sources share one number, and at EL1 the guest timers take the place
    of the hypervisor's. *)
Theorem aic_translate_exact ans compatible i hyp affs t ic t' die n ty :
  aic_info_match compatible = Some i →
  aic_of_ic_init ans (Some i) hyp affs t = ((0, Some ic), t') →
  0 ≤ die → 0 ≤ n →
  match aic_irq_domain_translate ic hyp (Fwspec true [AIC_IRQ; die; n; ty]) with
  | Ok (hw, _) => die < nr_die ic ∧ n < nr_irq ic ∧
      AIC_HWIRQ_DIE hw = die ∧ AIC_HWIRQ_IRQ hw = n ∧
      b_flow (aic_irq_domain_map ic hw) = FastEoi ∧ b_chip (aic_irq_domain_map ic hw) ≠ ChipFiq
  | Err e => e = - EINVAL ∧ (nr_die ic ≤ die ∨ nr_irq ic ≤ n)
  end ∧
  match aic_irq_domain_translate ic hyp (Fwspec true [AIC_FIQ; n; ty]) with
  | Ok (hw, _) => n < AIC_NR_FIQ ∧ aic_irq_domain_map ic hw = Binding hw ChipFiq PercpuDevid false ∧
      hw = (if n =? AIC_CPU_PMU_E then AIC_CPU_PMU_P
            else if negb hyp && (n <=? AIC_TMR_GUEST_VIRT) then n - AIC_TMR_GUEST_PHYS else n)
  | Err e => (e = - EINVAL ∧ AIC_NR_FIQ ≤ n) ∨
      (e = - ENOENT ∧ hyp = false ∧ (n = AIC_TMR_HV_PHYS ∨ n = AIC_TMR_HV_VIRT))
  end.
Proof.
  intros Hm Hinit Hd Hn. destruct (init_success _ _ _ _ _ _ _ _ Hm Hinit) as [Hok _]. split.
  - unfold aic_irq_domain_translate. cbn [params of_node orb negb AIC_IRQ Z.eqb].
    destruct (die >=? nr_die ic) eqn:E1; [boolprop; auto|].
    destruct (n >=? nr_irq ic) eqn:E2; [boolprop; auto|]. boolprop.
    pose proof (ok_die _ Hok). pose proof (ok_irq _ Hok).
    destruct (hwirq_fields die n) as (F1 & F2 & F3); [lia|lia|].
    unfold aic_irq_domain_map. rewrite F1, F2, F3. cbn [Z.eqb Pos.eqb AIC_EVENT_TYPE_IRQ b_flow b_chip].
    repeat split; try done. by case_if.
  - unfold aic_irq_domain_translate. cbn [params of_node orb negb AIC_IRQ AIC_FIQ Z.eqb Pos.eqb].
    destruct (n >=? AIC_NR_FIQ) eqn:E1; [boolprop; auto|]. boolprop. unfold AIC_NR_FIQ, AIC_VGIC_MI, AIC_CPU_PMU_P in E1.
    assert (n = 0 ∨ n = 1 ∨ n = 2 ∨ n = 3 ∨ n = 4 ∨ n = 5 ∨ n = 6) as Hc by lia.
    destruct Hc as [-> |[-> |[-> |[-> |[-> |[-> | ->]]]]]]; destruct hyp; vm_compute; auto 10.
Qed.

Lemma aic_translate_exact_witness :
  aic_irq_domain_translate demo_ic false (Fwspec true [AIC_IRQ; 1; 37; 4]) = Ok (0x1010025, 4) ∧
  (1 < nr_die demo_ic ∧ 37 < nr_irq demo_ic ∧
   AIC_HWIRQ_DIE 0x1010025 = 1 ∧ AIC_HWIRQ_IRQ 0x1010025 = 37 ∧
   b_flow (aic_irq_domain_map demo_ic 0x1010025) = FastEoi ∧
   b_chip (aic_irq_domain_map demo_ic 0x1010025) ≠ ChipFiq).
Proof.
  split; [vm_compute; reflexivity|].
  refine (proj1 (aic_translate_exact demo_ans "apple,aic2" aic2_info false [] [] demo_ic demo_init.2 1 37 4
    _ _ _ _)); [reflexivity|vm_compute; reflexivity|lia|lia].
Defined.

(** ** Dispatch *)

Definition is_read (e : event) : bool := match e with ReadEvent => true | _ => false end.
Definition reads (evs : list event) : nat := length (List.filter is_read evs).

(** From history [t] on, the event register delivers the words of [q] and then 0. *)
Definition event_source (ans : list event → event → Z) (t : list event) (q : list Z) : Prop :=
  ∀ evs, ans (t ++ evs) ReadEvent = nth (reads evs) q 0.

(** What an event word is handed to. *)
Definition dispatch (w : Z) : list event :=
  if FIELD_GET AIC_EVENT_TYPE w =? AIC_EVENT_TYPE_IRQ then [HandleIrq w]
  else if (FIELD_GET AIC_EVENT_TYPE w =? AIC_EVENT_TYPE_IPI) && (FIELD_GET AIC_EVENT_NUM w =? 1)
  then [HandleIpi] else [].
Definition is_dispatch (e : event) : bool :=
  match e with HandleIrq _ | HandleIpi => true | _ => false end.
Definition dispatched (evs : list event) : list event := List.filter is_dispatch evs.

Lemma dispatched_app evs evs' : dispatched (evs ++ evs') = dispatched evs ++ dispatched evs'.
Proof. apply List.filter_app. Qed.

Lemma event_source_tail ans t e q evs :
  event_source ans t (e :: q) → reads evs = 1%nat → event_source ans (t ++ evs) q.
Proof.
  intros H Hr evs'. rewrite <- app_assoc, H. unfold reads in *.
  rewrite List.filter_app, length_app, Hr. done.
Qed.

Lemma irq_loop_spec ans q : ∀ t,
  event_source ans t q → Forall (λ e, 0 < e < 2 ^ 32) q →
  ∃ evs, irq_loop ans (S (length q)) t = (Some tt, t ++ evs) ∧
    dispatched evs = mjoin (dispatch <$> q) ∧ DisableVgic ∉ evs.
Proof.
  induction q as [|e q IH]; intros t Hs Hq; cbn [length].
  - cbn [irq_loop length]. trace_step. pose proof (Hs []) as E. rewrite app_nil_r in E. rewrite E.
    cbn. trace_step. exists [ReadEvent]. split; [done|]. split; [done|]. by intros ?%list_elem_of_singleton.
  - apply Forall_cons in Hq as [He Hq]. remember (S (length q)) as n eqn:En.
    cbn [irq_loop length]. rewrite TR_bind_eq. unfold ask. cbn [fst snd].
    pose proof (Hs []) as E. rewrite app_nil_r in E. cbn in E. rewrite E, u32_small by lia.
    assert ((e =? 0) = false) as E0 by (apply Z.eqb_neq; lia). rewrite E0. cbn [negb].
    assert (∀ x, reads [x] = 0%nat → dispatched [x] = dispatch e → x ≠ DisableVgic → let l := [x] in
      ∃ evs, irq_loop ans n ((t ++ [ReadEvent]) ++ l) = (Some tt, t ++ evs) ∧
        dispatched evs = mjoin (dispatch <$> e :: q) ∧ DisableVgic ∉ evs) as Hgo.
    { intros x Hl Hd Hx l. destruct (IH ((t ++ [ReadEvent]) ++ l)) as (evs & He' & Hd' & Hv); [|done|].
      - rewrite <- app_assoc. apply (event_source_tail _ _ e); [done|]. by destruct x.
      - exists ([ReadEvent] ++ l ++ evs). rewrite He', <- !app_assoc. split; [done|].
        rewrite !dispatched_app. unfold l. rewrite Hd, Hd'. split; [done|].
        rewrite !elem_of_app, !list_elem_of_singleton. by intros [?|[?|?]]. }
    unfold dispatch at 1 in Hgo. destruct (FIELD_GET AIC_EVENT_TYPE e =? AIC_EVENT_TYPE_IRQ); trace_step;
      [by apply (Hgo (HandleIrq e))|].
    destruct (_ && _); trace_step; [by apply (Hgo HandleIpi)|].
    by apply (Hgo (UnknownEvent (FIELD_GET AIC_EVENT_TYPE e) (FIELD_GET AIC_EVENT_NUM e))).
Qed.


(** Interrupt 5 of die 0, an unknown event, an inter-processor interrupt. *)
Definition demo_events (t : list event) (e : event) : Z :=
  match e with ReadEvent => nth (reads t) [0x10005; 0x70000; 0x40001] 0 | _ => 0 end.


(** ** Errors of the initialisation *)

(** What is held: the two register mappings, the chip structure, the domain. *)
Record own := Own { o_map0 : bool; o_map1 : bool; o_chip : bool; o_dom : bool }.

Section owns.
Context (ans : list event → event → Z).

(** [None] when something is released that is not held. *)
Definition own_step (pre : list event) (e : event) (o : own) : option own :=
  let got := negb (ans pre e =? 0) in
  match e with
  | Iomap n => Some (if n =? 0 then Own (o_map0 o || got) (o_map1 o) (o_chip o) (o_dom o)
                     else Own (o_map0 o) (o_map1 o || got) (o_chip o) (o_dom o))
  | Kzalloc => Some (Own (o_map0 o) (o_map1 o) (o_chip o || got) (o_dom o))
  | CreateDomain => Some (Own (o_map0 o) (o_map1 o) (o_chip o) (o_dom o || got))
  | Iounmap n =>
      if n =? 0 then if o_map0 o then Some (Own false (o_map1 o) (o_chip o) (o_dom o)) else None
      else if o_map1 o then Some (Own (o_map0 o) false (o_chip o) (o_dom o)) else None
  | Kfree => if o_chip o then Some (Own (o_map0 o) (o_map1 o) false (o_dom o)) else None
  | RemoveDomain => if o_dom o then Some (Own (o_map0 o) (o_map1 o) (o_chip o) false) else None
  | _ => Some o
  end.

Definition owns : list event → list event → own → option own := ledger own_step.

Definition keeps_own (e : event) : bool :=
  match e with
  | Iomap _ | Kzalloc | CreateDomain | Iounmap _ | Kfree | RemoveDomain => false
  | _ => true
  end.

Lemma own_keeps : keeps own_step keeps_own.
Proof. by intros []. Qed.

(** Initialised, or a negative code with nothing held. *)
Definition init_done (r : Z * option aic_irq_chip) (o : own) : Prop :=
  match r with
  | (ret, Some ic) => ret = 0 ∧ o = Own true (negb (version (info ic) =? 1)) true true
  | (ret, None) => ret < 0 ∧ o = Own false false false false
  end.

(** [m], started with [o] held, ends in the initialised state or with nothing held. *)
Definition all_or_nothing (m : TR event (Z * option aic_irq_chip)) (t : list event) (o : own) : Prop :=
  settles own_step m t o init_done.

Lemma aon_quiet {A} (m : TR event A) k t o :
  quiet keeps_own m → (∀ e, (m t).2 = t ++ e → all_or_nothing (k (m t).1) (t ++ e) o) →
  all_or_nothing (m ≫= k) t o.
Proof. apply settles_quiet, own_keeps. Qed.

(** Reading the capabilities maps the event registers of the newer generations. *)
Lemma read_caps_owns i t :
  ∃ evs, (read_caps ans i t).2 = t ++ evs ∧
    owns t evs (Own true false true false) =
      Some (Own true (match (read_caps ans i t).1 with
                      | Ok _ => negb (version i =? 1) | Err _ => false end) true false).
Proof.
  unfold read_caps, aic_ic_read. destruct (version i =? 1); trace_step; [by eexists|].
  set (t2 := (t ++ [ReadReg AIC2_INFO1]) ++ [ReadReg AIC2_INFO3]).
  exists [ReadReg AIC2_INFO1; ReadReg AIC2_INFO3; Iomap 1]. unfold owns. cbn [ledger own_step Z.eqb o_map0 o_map1 o_chip o_dom orb app].
  fold t2. destruct (ans t2 (Iomap 1) =? 0); trace_step; (split; [subst t2; by rewrite <- !app_assoc|done]).
Qed.

Lemma err_unmap_releases b t : all_or_nothing (err_unmap b) t (Own true b true false).
Proof.
  unfold err_unmap. destruct b.
  - do 3 (eapply settles_emit; [reflexivity|]). by apply settles_ret.
  - eapply aon_quiet; [apply quiet_ret|]. intros e _. do 2 (eapply settles_emit; [reflexivity|]).
    by apply settles_ret.
Qed.

Lemma quiet_affinities affs : ∀ ic, quiet keeps_own (build_affinities ans ic affs).
Proof.
  induction affs as [|c affs IH]; intros ic; cbn [build_affinities]; [apply quiet_ret|].
  apply quiet_bind; [|auto]. unfold build_fiq_affinity. destruct (a_fiq c); [|apply quiet_ret].
  apply quiet_if; [apply quiet_ret|]. destruct (a_cpus c); auto with quiet.
Qed.

Lemma reset_keeps ic n off : forallb keeps_own (reset_dies ic n off) = true.
Proof.
  revert off. induction n as [|n IH]; intros off; [done|]. cbn [reset_dies]. rewrite forallb_app, IH.
  rewrite andb_true_r. unfold reset_die. rewrite !forallb_app.
  assert (∀ (f g : Z → Z) l, forallb keeps_own ((λ k, WriteReg (f k) (g k)) <$> l) = true) as H.
  { intros f g l. induction l; [done|]. cbn. done. }
  rewrite !(H _ (λ _, U32_MAX)). case_if; [apply (H _ (λ _, 1))|done].
Qed.

Lemma init_domain_releases ic hyp affs t :
  all_or_nothing (init_domain ans ic hyp affs) t (Own true (negb (version (info ic) =? 1)) true true).
Proof.
  unfold init_domain, aic_init_smp. eapply settles_emit; [reflexivity|].
  apply aon_quiet; [auto with quiet|]. intros e _. case_if.
  { eapply settles_emit; [reflexivity|]. apply err_unmap_releases. }
  apply aon_quiet; [apply quiet_affinities|]. intros e' _.
  destruct (affinities_same ans affs ic (((t ++ [UpdateBusToken]) ++ e))) as [(_ & _ & _ & Hi) _].
  set (ic' := (build_affinities ans ic affs _).1) in *. rewrite <- Hi.
  do 2 (eapply settles_emit; [reflexivity|]).
  apply aon_quiet; [intros t0; eexists; split; [reflexivity|apply reset_keeps]|]. intros e2 _.
  apply aon_quiet; [unfold aic_ic_read; auto with quiet|]. intros e3 _.
  eapply settles_emit; [reflexivity|]. apply aon_quiet; [auto with quiet|]. intros e4 _.
  eapply settles_emit; [reflexivity|]. by apply settles_ret.
Qed.
End owns.

(** The initialisation is all or nothing: it returns 0 with the registers mapped
    and the domain created, or a negative code after everything it had mapped,
    allocated or created has been given back, each thing once. *)
Theorem aic_init_releases ans compatible i hyp affs t :
  aic_info_match compatible = Some i →
  ∃ evs, (aic_of_ic_init ans (Some i) hyp affs t).2 = t ++ evs ∧
    match (aic_of_ic_init ans (Some i) hyp affs t).1 with
    | (ret, Some ic) => ret = 0 ∧
        owns ans t evs (Own false false false false) = Some (Own true (negb (version (info ic) =? 1)) true true)
    | (ret, None) => ret < 0 ∧
        owns ans t evs (Own false false false false) = Some (Own false false false false)
    end.
Proof.
  intros Hm. enough (all_or_nothing ans (aic_of_ic_init ans (Some i) hyp affs) t (Own false false false false))
    as (evs & o & He & Hl & Hp).
  { exists evs. split; [done|]. destruct (aic_of_ic_init ans (Some i) hyp affs t).1 as [ret [ic|]];
      destruct Hp as [? ->]; done. }
  unfold aic_of_ic_init. eapply settles_ask; [reflexivity|]. cbn [Z.eqb o_map0 o_map1 o_chip o_dom orb].
  destruct (ans t (Iomap 0) =? 0); cbn [negb].
  { by apply settles_ret. }
  eapply settles_ask; [reflexivity|]. cbn [o_map0 o_map1 o_chip o_dom orb].
  destruct (ans (t ++ [Iomap 0]) Kzalloc =? 0); cbn [negb].
  { eapply settles_emit; [reflexivity|]. by apply settles_ret. }
  set (t1 := (t ++ [Iomap 0]) ++ [Kzalloc]).
  destruct (read_caps_owns ans i t1) as (e1 & He1 & Ho1). eapply settles_bind; [done|done|].
  destruct (read_caps ans i t1) as [[ic|] t2] eqn:Hcaps; cbn [fst snd] in *; [|apply err_unmap_releases].
  destruct (read_caps_ok ans i compatible ic t1 t2 Hm Hcaps) as (_ & Hver & _).
  apply aon_quiet; [auto with quiet|]. intros e2 _. apply aon_quiet; [auto with quiet|]. intros e3 _.
  eapply settles_ask; [reflexivity|]. cbn [o_map0 o_map1 o_chip o_dom orb].
  destruct (ans _ CreateDomain =? 0); cbn [negb]; [apply err_unmap_releases|].
  rewrite <- Hver. apply init_domain_releases.
Qed.

(** The domain cannot be created. *)
Definition no_domain (t : list event) (e : event) : Z :=
  match e with CreateDomain => 0 | _ => demo_ans t e end.

Lemma aic_init_releases_witness :
  (aic_of_ic_init no_domain (Some aic2_info) false [] []).1 = (- ENODEV, None) ∧
  ∃ evs, (aic_of_ic_init no_domain (Some aic2_info) false [] []).2 = [] ++ evs ∧
    (- ENODEV < 0 ∧ owns no_domain [] evs (Own false false false false) = Some (Own false false false false)).
Proof.
  split; [vm_compute; reflexivity|].
  refine (aic_init_releases no_domain "apple,aic2" aic2_info false [] [] eq_refl).
Defined.

(** The affinity of a FIQ is looked up without the bound the translation checks: a
    specifier with a number of 7 or more reads behind the array. *)
Theorem aic_fwspec_info_unbounded ic possible :
  aic_irq_get_fwspec_info ic possible (Fwspec true [AIC_FIQ; 7; 4]) = Err 7 ∧
  aic_irq_domain_translate ic true (Fwspec true [AIC_FIQ; 7; 4]) = Err (- EINVAL).
Proof. done. Qed.
