(* ===== verification/AicFiq.v ===== *)
(** * AIC interrupt controller: FIQs and inter-processor interrupts
      (drivers/irqchip/irq-apple-aic.c)

    The per-CPU side of the driver.  The state of a CPU is its system registers and
    the driver's software mask.  What the kernel does with a FIQ that is handed on
    (the handler of the timer or of the PMU) and [ipi_mux_process] are parameters;
    around a handler the kernel's flow for per-CPU interrupts calls the driver's
    own [irq_ack] and [irq_eoi]. *)

From Stdlib Require Import ZArith Lia Bool.
From stdpp Require Import base numbers list option.
From S2P Require Import Prelude Aic.

Local Open Scope list_scope.
Local Open Scope Z_scope.

Definition IPI_RR_CPU : Z := GENMASK 7 0.
Definition IPI_RR_CLUSTER : Z := GENMASK 23 16.
Definition IPI_SR_PENDING : Z := BIT 0.
Definition VM_TMR_FIQ_ENABLE_V : Z := BIT 0.
Definition VM_TMR_FIQ_ENABLE_P : Z := BIT 1.
Definition UPMCR0_IMODE : Z := GENMASK 18 16.
Definition UPMCR0_IMODE_OFF : Z := 0.
Definition UPMCR0_IMODE_FIQ : Z := 4.
Definition UPMSR_IACT : Z := BIT 0.

(** The architected timer control bits and the PMU control register. *)
Definition ARCH_TIMER_CTRL_ENABLE : Z := BIT 0.
Definition ARCH_TIMER_CTRL_IT_MASK : Z := BIT 1.
Definition ARCH_TIMER_CTRL_IT_STAT : Z := BIT 2.
Definition PMCR0_IMODE : Z := GENMASK 10 8.
Definition PMCR0_IMODE_OFF : Z := 0.
Definition PMCR0_IMODE_FIQ : Z := 4.
Definition PMCR0_IACT : Z := BIT 11.

Inductive sysreg :=
| IPI_SR | CNTP_CTL_EL0 | CNTV_CTL_EL0 | VM_TMR_FIQ_ENA | CNTP_CTL_EL02 | CNTV_CTL_EL02
| PMCR0 | UPMCR0 | UPMSR.

#[export] Instance sysreg_eq_dec : EqDecision sysreg.
Proof. solve_decision. Defined.

Record cpu := Cpu {
  sys : sysreg → Z;
  aic_fiq_unmasked : Z
}.

(** The pending bit of the IPI status register is cleared by writing it; the other
    registers keep what is written. *)
Definition write_sysreg (r : sysreg) (v : Z) (c : cpu) : cpu :=
  let v' := match r with IPI_SR => Z.land (sys c IPI_SR) (Z.lnot v) | _ => v end in
  Cpu (λ r', if decide (r' = r) then v' else sys c r') (aic_fiq_unmasked c).

Definition sysreg_clear_set (r : sysreg) (clear set : Z) (c : cpu) : cpu :=
  write_sysreg r (Z.lor (Z.land (sys c r) (Z.lnot clear)) set) c.

Definition set_unmasked (m : Z) (c : cpu) : cpu := Cpu (sys c) m.

(** ** The FIQ chip *)

Definition aic_fiq_set_mask (idx : Z) (c : cpu) : cpu :=
  if idx =? AIC_TMR_EL02_PHYS then sysreg_clear_set VM_TMR_FIQ_ENA VM_TMR_FIQ_ENABLE_P 0 c
  else if idx =? AIC_TMR_EL02_VIRT then sysreg_clear_set VM_TMR_FIQ_ENA VM_TMR_FIQ_ENABLE_V 0 c
  else c.

Definition aic_fiq_clear_mask (idx : Z) (c : cpu) : cpu :=
  if idx =? AIC_TMR_EL02_PHYS then sysreg_clear_set VM_TMR_FIQ_ENA 0 VM_TMR_FIQ_ENABLE_P c
  else if idx =? AIC_TMR_EL02_VIRT then sysreg_clear_set VM_TMR_FIQ_ENA 0 VM_TMR_FIQ_ENABLE_V c
  else c.

Definition aic_fiq_mask (idx : Z) (c : cpu) : cpu :=
  let c := aic_fiq_set_mask idx c in
  set_unmasked (Z.land (aic_fiq_unmasked c) (not32 (BIT idx))) c.

Definition aic_fiq_unmask (idx : Z) (c : cpu) : cpu :=
  let c := aic_fiq_clear_mask idx c in
  set_unmasked (u32 (Z.lor (aic_fiq_unmasked c) (BIT idx))) c.

Definition aic_fiq_eoi (idx : Z) (c : cpu) : cpu :=
  if negb (Z.land (aic_fiq_unmasked c) (BIT idx) =? 0) then aic_fiq_clear_mask idx c else c.

Definition aic_fiq_set_type (type : Z) : Z :=
  if type =? IRQ_TYPE_LEVEL_HIGH then 0 else - EINVAL.

(** ** Inter-processor interrupts *)

Inductive ipi_action :=
| WriteIpiSr (v : Z)
| WriteAic (reg v : Z)
| IpiMuxProcess
| WriteRrLocal (v : Z) | WriteRrGlobal (v : Z).

Definition MPIDR_CPU (mpidr : Z) : Z := Z.land mpidr 0xff.
Definition MPIDR_CLUSTER (mpidr : Z) : Z := Z.land (Z.shiftr mpidr 8) 0xff.

(** [mpidr] of the target, [my_mpidr] of the sender. *)
Definition aic_ipi_send_fast (use_local_fast_ipi : bool) (mpidr my_mpidr : Z) : list ipi_action :=
  let cluster := MPIDR_CLUSTER mpidr in
  let idx := MPIDR_CPU mpidr in
  if use_local_fast_ipi && (MPIDR_CLUSTER my_mpidr =? cluster)
  then [WriteRrLocal (FIELD_PREP IPI_RR_CPU idx)]
  else [WriteRrGlobal (Z.lor (FIELD_PREP IPI_RR_CPU idx) (FIELD_PREP IPI_RR_CLUSTER cluster))].

Definition aic_ipi_send_single (use_fast_ipi use_local_fast_ipi : bool) (cpu_logical_map : Z → Z)
    (my_mpidr cpu : Z) : list ipi_action :=
  if use_fast_ipi then aic_ipi_send_fast use_local_fast_ipi (cpu_logical_map cpu) my_mpidr
  else [WriteAic AIC_IPI_SEND (u32 (AIC_IPI_SEND_CPU cpu))].

Definition aic_handle_ipi (use_fast_ipi : bool) : list ipi_action :=
  (if use_fast_ipi then [WriteIpiSr IPI_SR_PENDING] else [WriteAic AIC_IPI_ACK AIC_IPI_OTHER]) ++
  [IpiMuxProcess] ++
  (if negb use_fast_ipi then [WriteAic AIC_IPI_MASK_CLR AIC_IPI_OTHER] else []).

(** ** The FIQ entry *)

Definition TIMER_FIRING (x : Z) : bool :=
  Z.land x (Z.lor (Z.lor ARCH_TIMER_CTRL_ENABLE ARCH_TIMER_CTRL_IT_MASK) ARCH_TIMER_CTRL_IT_STAT)
  =? Z.lor ARCH_TIMER_CTRL_ENABLE ARCH_TIMER_CTRL_IT_STAT.

Section fiq.
(** The handler bound to a FIQ and the virtual IPIs. *)
Context (handler : Z → cpu → cpu) (ipi_mux_process : cpu → cpu).

(** [generic_handle_domain_irq] for a per-CPU interrupt: acknowledge, handle, end. *)
Definition handle_fiq (idx : Z) (c : cpu) : cpu :=
  aic_fiq_eoi idx (handler idx (aic_fiq_set_mask idx c)).

(** The effect of the actions on the CPU; writes to the AIC are not part of it. *)
Definition run_action (c : cpu) (a : ipi_action) : cpu :=
  match a with
  | WriteIpiSr v => write_sysreg IPI_SR v c
  | IpiMuxProcess => ipi_mux_process c
  | WriteAic _ _ | WriteRrLocal _ | WriteRrGlobal _ => c
  end.

(** What the entry did: an inter-processor interrupt, a FIQ handed on, the uncore
    PMU switched off. *)
Inductive fiq_done := DidIpi | DidFiq (idx : Z) | DidUncore.

Definition pmu_firing (c : cpu) : bool :=
  Z.land (sys c PMCR0) (Z.lor PMCR0_IMODE PMCR0_IACT)
  =? Z.lor (FIELD_PREP PMCR0_IMODE PMCR0_IMODE_FIQ) PMCR0_IACT.
Definition uncore_firing (c : cpu) : bool :=
  (FIELD_GET UPMCR0_IMODE (sys c UPMCR0) =? UPMCR0_IMODE_FIQ)
  && negb (Z.land (sys c UPMSR) UPMSR_IACT =? 0).

(** [if (cond) handle;] *)
Definition fiq_step (cond : cpu → bool) (act : cpu → cpu) (d : fiq_done)
    (s : cpu * list fiq_done) : cpu * list fiq_done :=
  if cond s.1 then (act s.1, s.2 ++ [d]) else s.

Definition ipi_firing (use_fast_ipi : bool) (c : cpu) : bool :=
  use_fast_ipi && negb (Z.land (sys c IPI_SR) IPI_SR_PENDING =? 0).

Definition aic_handle_fiq (use_fast_ipi hyp : bool) (c : cpu) : cpu * list fiq_done :=
  let s := (c, []) in
  let s := fiq_step (ipi_firing use_fast_ipi)
             (λ c, fold_left run_action (aic_handle_ipi use_fast_ipi) c) DidIpi s in
  let s := fiq_step (λ c, TIMER_FIRING (sys c CNTP_CTL_EL0)) (handle_fiq AIC_TMR_EL0_PHYS)
             (DidFiq AIC_TMR_EL0_PHYS) s in
  let s := fiq_step (λ c, TIMER_FIRING (sys c CNTV_CTL_EL0)) (handle_fiq AIC_TMR_EL0_VIRT)
             (DidFiq AIC_TMR_EL0_VIRT) s in
  let s := if hyp then
             let enabled := sys s.1 VM_TMR_FIQ_ENA in
             let s := fiq_step (λ c, negb (Z.land enabled VM_TMR_FIQ_ENABLE_P =? 0)
                                     && TIMER_FIRING (sys c CNTP_CTL_EL02))
                        (handle_fiq AIC_TMR_EL02_PHYS) (DidFiq AIC_TMR_EL02_PHYS) s in
             fiq_step (λ c, negb (Z.land enabled VM_TMR_FIQ_ENABLE_V =? 0)
                            && TIMER_FIRING (sys c CNTV_CTL_EL02))
               (handle_fiq AIC_TMR_EL02_VIRT) (DidFiq AIC_TMR_EL02_VIRT) s
           else s in
  let s := fiq_step pmu_firing (handle_fiq AIC_CPU_PMU_P) (DidFiq AIC_CPU_PMU_P) s in
  fiq_step (λ c, use_fast_ipi && uncore_firing c)
    (sysreg_clear_set UPMCR0 UPMCR0_IMODE (FIELD_PREP UPMCR0_IMODE UPMCR0_IMODE_OFF)) DidUncore s.
End fiq.

(** ** Bringing up a CPU

    Returns the state and the writes to the AIC. *)
Definition aic_init_cpu (use_fast_ipi : bool) (version : Z) (c : cpu) : cpu * list (Z * Z) :=
  let c := if use_fast_ipi then write_sysreg IPI_SR IPI_SR_PENDING c else c in
  let c := sysreg_clear_set CNTP_CTL_EL0 0 ARCH_TIMER_CTRL_IT_MASK c in
  let c := sysreg_clear_set CNTV_CTL_EL0 0 ARCH_TIMER_CTRL_IT_MASK c in
  let c := sysreg_clear_set PMCR0 (Z.lor PMCR0_IMODE PMCR0_IACT)
             (FIELD_PREP PMCR0_IMODE PMCR0_IMODE_OFF) c in
  let c := if use_fast_ipi
           then sysreg_clear_set UPMCR0 UPMCR0_IMODE (FIELD_PREP UPMCR0_IMODE UPMCR0_IMODE_OFF) c
           else c in
  let writes :=
    if version =? 1 then
      [(AIC_IPI_ACK, Z.lor AIC_IPI_SELF AIC_IPI_OTHER)] ++
      (if use_fast_ipi then [(AIC_IPI_MASK_SET, Z.lor AIC_IPI_SELF AIC_IPI_OTHER)]
       else [(AIC_IPI_MASK_SET, AIC_IPI_SELF); (AIC_IPI_MASK_CLR, AIC_IPI_OTHER)])
    else [] in
  (set_unmasked 0 c, writes).

(** ** Sources *)

Inductive source := SIpi | SPhys0 | SVirt0 | SPhys2 | SVirt2 | SPmu | SUncore.

#[export] Instance source_eq_dec : EqDecision source.
Proof. solve_decision. Defined.

(** The order in which the entry looks at them. *)
Definition sources : list source := [SIpi; SPhys0; SVirt0; SPhys2; SVirt2; SPmu; SUncore].

Definition guest_enabled (bit v : Z) : bool := negb (Z.land v bit =? 0).

(** The source asserts the FIQ line of the CPU. *)
Definition firing (fast hyp : bool) (k : source) (c : cpu) : bool :=
  match k with
  | SIpi => ipi_firing fast c
  | SPhys0 => TIMER_FIRING (sys c CNTP_CTL_EL0)
  | SVirt0 => TIMER_FIRING (sys c CNTV_CTL_EL0)
  | SPhys2 => hyp && (guest_enabled VM_TMR_FIQ_ENABLE_P (sys c VM_TMR_FIQ_ENA)
                      && TIMER_FIRING (sys c CNTP_CTL_EL02))
  | SVirt2 => hyp && (guest_enabled VM_TMR_FIQ_ENABLE_V (sys c VM_TMR_FIQ_ENA)
                      && TIMER_FIRING (sys c CNTV_CTL_EL02))
  | SPmu => pmu_firing c
  | SUncore => fast && uncore_firing c
  end.

Definition done_of (k : source) : fiq_done :=
  match k with
  | SIpi => DidIpi
  | SPhys0 => DidFiq AIC_TMR_EL0_PHYS | SVirt0 => DidFiq AIC_TMR_EL0_VIRT
  | SPhys2 => DidFiq AIC_TMR_EL02_PHYS | SVirt2 => DidFiq AIC_TMR_EL02_VIRT
  | SPmu => DidFiq AIC_CPU_PMU_P
  | SUncore => DidUncore
  end.

(** The register that holds the level of a source the kernel handles. *)
Definition src_reg (idx : Z) : option sysreg :=
  if idx =? AIC_TMR_EL0_PHYS then Some CNTP_CTL_EL0
  else if idx =? AIC_TMR_EL0_VIRT then Some CNTV_CTL_EL0
  else if idx =? AIC_TMR_EL02_PHYS then Some CNTP_CTL_EL02
  else if idx =? AIC_TMR_EL02_VIRT then Some CNTV_CTL_EL02
  else if idx =? AIC_CPU_PMU_P then Some PMCR0 else None.

Definition level_low (r : sysreg) (v : Z) : Prop :=
  match r with
  | PMCR0 => (Z.land v (Z.lor PMCR0_IMODE PMCR0_IACT)
              =? Z.lor (FIELD_PREP PMCR0_IMODE PMCR0_IMODE_FIQ) PMCR0_IACT) = false
  | _ => TIMER_FIRING v = false
  end.

(** What a handler owes the interrupt controller: it lowers the level of its own
    source and leaves the other registers and the driver's mask alone. *)
Record handlers_ok (handler : Z → cpu → cpu) (ipi : cpu → cpu) : Prop := {
  h_lowers : ∀ idx c r, src_reg idx = Some r → level_low r (sys (handler idx c) r);
  h_local : ∀ idx c r, src_reg idx ≠ Some r → sys (handler idx c) r = sys c r;
  h_mask : ∀ idx c, aic_fiq_unmasked (handler idx c) = aic_fiq_unmasked c;
  h_ipi : ∀ c r, sys (ipi c) r = sys c r
}.

Lemma sys_write r v c r' : r' ≠ r → sys (write_sysreg r v c) r' = sys c r'.
Proof. intros H. simpl. by rewrite decide_False. Qed.

Lemma sys_clear_set r a b c r' : r' ≠ r → sys (sysreg_clear_set r a b c) r' = sys c r'.
Proof. apply sys_write. Qed.

Lemma sys_clear_set_eq r a b c :
  r ≠ IPI_SR → sys (sysreg_clear_set r a b c) r = Z.lor (Z.land (sys c r) (Z.lnot a)) b.
Proof. intros H. unfold sysreg_clear_set. simpl. rewrite decide_True by done. by destruct r. Qed.

(** The driver's own calls only touch the enable register of the guest timers. *)
Lemma set_mask_sys idx c r : r ≠ VM_TMR_FIQ_ENA → sys (aic_fiq_set_mask idx c) r = sys c r.
Proof. intros H. unfold aic_fiq_set_mask. repeat case_if; [| |done]; by apply sys_clear_set. Qed.

Lemma clear_mask_sys idx c r : r ≠ VM_TMR_FIQ_ENA → sys (aic_fiq_clear_mask idx c) r = sys c r.
Proof. intros H. unfold aic_fiq_clear_mask. repeat case_if; [| |done]; by apply sys_clear_set. Qed.

Lemma eoi_sys idx c r : r ≠ VM_TMR_FIQ_ENA → sys (aic_fiq_eoi idx c) r = sys c r.
Proof. intros H. unfold aic_fiq_eoi. case_if; [by apply clear_mask_sys|done]. Qed.

(** Bit [i] of the enable register after the driver's calls. *)
Definition guest_bit (idx : Z) : Z := if idx =? AIC_TMR_EL02_PHYS then 1 else 0.
Definition is_guest (idx : Z) : bool := (idx =? AIC_TMR_EL02_PHYS) || (idx =? AIC_TMR_EL02_VIRT).

Lemma sysreg_clear_set_bit r a b c i :
  r ≠ IPI_SR → 0 ≤ i →
  Z.testbit (sys (sysreg_clear_set r a b c) r) i =
  (Z.testbit (sys c r) i && negb (Z.testbit a i)) || Z.testbit b i.
Proof. intros H Hi. rewrite sys_clear_set_eq by done. by rewrite Z.lor_spec, Z.land_spec, Z.lnot_spec. Qed.

Lemma set_mask_bit idx c i :
  0 ≤ i → Z.testbit (sys (aic_fiq_set_mask idx c) VM_TMR_FIQ_ENA) i =
  Z.testbit (sys c VM_TMR_FIQ_ENA) i && negb (is_guest idx && (i =? guest_bit idx)).
Proof.
  intros Hi. unfold aic_fiq_set_mask, is_guest, guest_bit.
  destruct (idx =? AIC_TMR_EL02_PHYS); cbn [orb andb];
    [|destruct (idx =? AIC_TMR_EL02_VIRT); cbn [orb andb]; [|by rewrite andb_true_r]].
  - unfold VM_TMR_FIQ_ENABLE_P. rewrite sysreg_clear_set_bit, testbit_BIT, Z.bits_0 by done. by rewrite orb_false_r.
  - unfold VM_TMR_FIQ_ENABLE_V. rewrite sysreg_clear_set_bit, testbit_BIT, Z.bits_0 by done. by rewrite orb_false_r.
Qed.

Lemma clear_mask_bit idx c i :
  0 ≤ i → Z.testbit (sys (aic_fiq_clear_mask idx c) VM_TMR_FIQ_ENA) i =
  Z.testbit (sys c VM_TMR_FIQ_ENA) i || (is_guest idx && (i =? guest_bit idx)).
Proof.
  intros Hi. unfold aic_fiq_clear_mask, is_guest, guest_bit.
  destruct (idx =? AIC_TMR_EL02_PHYS); cbn [orb andb];
    [|destruct (idx =? AIC_TMR_EL02_VIRT); cbn [orb andb]; [|by rewrite orb_false_r]].
  - unfold VM_TMR_FIQ_ENABLE_P. rewrite sysreg_clear_set_bit, testbit_BIT, Z.bits_0 by done. by rewrite andb_true_r.
  - unfold VM_TMR_FIQ_ENABLE_V. rewrite sysreg_clear_set_bit, testbit_BIT, Z.bits_0 by done. by rewrite andb_true_r.
Qed.

Lemma eoi_bit idx c i :
  0 ≤ i → is_guest idx && (i =? guest_bit idx) = false →
  Z.testbit (sys (aic_fiq_eoi idx c) VM_TMR_FIQ_ENA) i = Z.testbit (sys c VM_TMR_FIQ_ENA) i.
Proof.
  intros Hi H. unfold aic_fiq_eoi. case_if; [|done]. rewrite clear_mask_bit, H by done.
  apply orb_false_r.
Qed.

Lemma land_BIT_zero v n : 0 ≤ n → (Z.land v (BIT n) =? 0) = negb (Z.testbit v n).
Proof.
  intros Hn. unfold BIT. rewrite Z.shiftl_1_l. destruct (Z.testbit v n) eqn:E; simpl.
  - apply Z.eqb_neq. intros H0. apply (f_equal (λ x, Z.testbit x n)) in H0.
    rewrite Z.land_spec, Z.pow2_bits_true, E, Z.bits_0 in H0 by done. done.
  - apply Z.eqb_eq. apply Z.bits_inj'. intros i Hi. rewrite Z.land_spec, Z.bits_0, Z.pow2_bits_eqb by done.
    destruct (Z.eqb_spec n i) as [<-|]; [by rewrite E|apply andb_false_r].
Qed.

Lemma guest_enabled_bit n v : 0 ≤ n → guest_enabled (BIT n) v = Z.testbit v n.
Proof. intros. unfold guest_enabled. rewrite land_BIT_zero by done. apply negb_involutive. Qed.

Lemma uncore_off c :
  uncore_firing (sysreg_clear_set UPMCR0 UPMCR0_IMODE (FIELD_PREP UPMCR0_IMODE UPMCR0_IMODE_OFF) c) = false.
Proof.
  unfold uncore_firing. rewrite sys_clear_set_eq by done. rewrite FIELD_GET_lor.
  unfold UPMCR0_IMODE, UPMCR0_IMODE_OFF at 1.
  assert (FIELD_GET (GENMASK 18 16) (Z.land (sys c UPMCR0) (Z.lnot (GENMASK 18 16))) = 0) as ->; [|done].
  apply Z.bits_inj'. intros i Hi.
  rewrite testbit_FIELD_GET, Z.land_spec, Z.lnot_spec, testbit_GENMASK, Z.bits_0 by lia.
  destruct (Z.leb_spec i (18 - 16)); [|done].
  replace (16 <=? i + 16) with true by (symmetry; apply Z.leb_le; lia).
  replace (i + 16 <=? 18) with true by (symmetry; apply Z.leb_le; lia). by rewrite andb_false_r.
Qed.

Section storm.
Context (handler : Z → cpu → cpu) (ipi : cpu → cpu) (fast hyp : bool).
Hypothesis Hok : handlers_ok handler ipi.

Definition act (k : source) : cpu → cpu :=
  match k with
  | SIpi => λ c, fold_left (run_action ipi) (aic_handle_ipi fast) c
  | SPhys0 => handle_fiq handler AIC_TMR_EL0_PHYS
  | SVirt0 => handle_fiq handler AIC_TMR_EL0_VIRT
  | SPhys2 => handle_fiq handler AIC_TMR_EL02_PHYS
  | SVirt2 => handle_fiq handler AIC_TMR_EL02_VIRT
  | SPmu => handle_fiq handler AIC_CPU_PMU_P
  | SUncore => sysreg_clear_set UPMCR0 UPMCR0_IMODE (FIELD_PREP UPMCR0_IMODE UPMCR0_IMODE_OFF)
  end.

Lemma handle_fiq_sys idx c r :
  r ≠ VM_TMR_FIQ_ENA → src_reg idx ≠ Some r → sys (handle_fiq handler idx c) r = sys c r.
Proof.
  intros Hr Hs. unfold handle_fiq. rewrite eoi_sys, (h_local _ _ Hok), set_mask_sys by done. done.
Qed.

Lemma src_reg_not_vm idx : src_reg idx ≠ Some VM_TMR_FIQ_ENA.
Proof. unfold src_reg. by repeat case_if. Qed.

Lemma handle_fiq_bit idx c i :
  0 ≤ i → is_guest idx && (i =? guest_bit idx) = false →
  Z.testbit (sys (handle_fiq handler idx c) VM_TMR_FIQ_ENA) i = Z.testbit (sys c VM_TMR_FIQ_ENA) i.
Proof.
  intros Hi H. unfold handle_fiq. rewrite eoi_bit, (h_local _ _ Hok) by (done || apply src_reg_not_vm).
  rewrite set_mask_bit, H by done. apply andb_true_r.
Qed.

Lemma ipi_sys c r : r ≠ IPI_SR → sys (act SIpi c) r = sys c r.
Proof.
  intros H. unfold act, aic_handle_ipi. destruct fast; cbn [app fold_left run_action negb];
    rewrite ?(h_ipi _ _ Hok), ?sys_write by done; done.
Qed.

(** Handling a source leaves the others as they are. *)
Lemma act_local k j c : k ≠ j → firing fast hyp j (act k c) = firing fast hyp j c.
Proof.
  intros H.
  assert (∀ r, match k with
    | SIpi => r ≠ IPI_SR | SUncore => r ≠ UPMCR0
    | SPhys0 => r ≠ CNTP_CTL_EL0 ∧ r ≠ VM_TMR_FIQ_ENA | SVirt0 => r ≠ CNTV_CTL_EL0 ∧ r ≠ VM_TMR_FIQ_ENA
    | SPhys2 => r ≠ CNTP_CTL_EL02 ∧ r ≠ VM_TMR_FIQ_ENA | SVirt2 => r ≠ CNTV_CTL_EL02 ∧ r ≠ VM_TMR_FIQ_ENA
    | SPmu => r ≠ PMCR0 ∧ r ≠ VM_TMR_FIQ_ENA end → sys (act k c) r = sys c r) as Hs.
  { intros r Hr. destruct k; [by apply ipi_sys| | | | | |by apply sys_clear_set];
      destruct Hr; apply handle_fiq_sys; unfold src_reg; simpl; congruence. }
  assert (∀ n, (n = 0 ∧ k ≠ SVirt2 ∨ n = 1 ∧ k ≠ SPhys2) →
    guest_enabled (BIT n) (sys (act k c) VM_TMR_FIQ_ENA) = guest_enabled (BIT n) (sys c VM_TMR_FIQ_ENA)) as Hb.
  { intros n Hn. rewrite !guest_enabled_bit by lia.
    destruct k; try (rewrite Hs by done; done); try (apply handle_fiq_bit; [lia|done]);
      (apply handle_fiq_bit; [lia|]); destruct Hn as [[-> ?]|[-> ?]]; done. }
  destruct j; unfold firing, ipi_firing, pmu_firing, uncore_firing, VM_TMR_FIQ_ENABLE_P, VM_TMR_FIQ_ENABLE_V;
    rewrite ?Hb by (destruct k; auto; done); rewrite ?Hs by (destruct k; done); done.
Qed.

(** Handling a source silences it. *)
Lemma act_silences k c : firing fast hyp k (act k c) = false.
Proof.
  assert (∀ idx r, src_reg idx = Some r → r ≠ VM_TMR_FIQ_ENA → level_low r (sys (handle_fiq handler idx c) r)) as Hl.
  { intros idx r Hr Hn. unfold handle_fiq. rewrite eoi_sys by done. by apply (h_lowers _ _ Hok). }
  destruct k; unfold firing.
  - unfold ipi_firing, act, aic_handle_ipi. destruct fast; [|done]. cbn [app fold_left run_action negb andb].
    rewrite (h_ipi _ _ Hok). unfold IPI_SR_PENDING. rewrite land_BIT_zero by lia.
    cbn [sys write_sysreg]. rewrite decide_True by done.
    by rewrite Z.land_spec, Z.lnot_spec, testbit_BIT, andb_false_r by lia.
  - by apply (Hl AIC_TMR_EL0_PHYS CNTP_CTL_EL0).
  - by apply (Hl AIC_TMR_EL0_VIRT CNTV_CTL_EL0).
  - pose proof (Hl AIC_TMR_EL02_PHYS CNTP_CTL_EL02 eq_refl ltac:(done)) as E. cbn [level_low] in E.
    unfold act. rewrite E. by rewrite !andb_false_r.
  - pose proof (Hl AIC_TMR_EL02_VIRT CNTV_CTL_EL02 eq_refl ltac:(done)) as E. cbn [level_low] in E.
    unfold act. rewrite E. by rewrite !andb_false_r.
  - by apply (Hl AIC_CPU_PMU_P PMCR0).
  - unfold act. by rewrite uncore_off, andb_false_r.
Qed.

Definition visit (s : cpu * list fiq_done) (k : source) : cpu * list fiq_done :=
  fiq_step (firing fast hyp k) (act k) (done_of k) s.

Lemma fold_visit ks : ∀ c l, NoDup ks →
  let s := fold_left visit ks (c, l) in
  s.2 = l ++ (done_of <$> List.filter (λ k, firing fast hyp k c) ks) ∧
  (∀ k, k ∈ ks → firing fast hyp k s.1 = false) ∧
  (∀ k, k ∉ ks → firing fast hyp k s.1 = firing fast hyp k c).
Proof.
  induction ks as [|k ks IH]; intros c l Hnd; cbn [fold_left].
  { simpl. rewrite app_nil_r. split; [done|]. split; [by intros ? ?%not_elem_of_nil|done]. }
  apply list.NoDup_cons in Hnd as [Hk Hnd].
  assert (∃ c' l', visit (c, l) k = (c', l') ∧ firing fast hyp k c' = false ∧
    l' = l ++ (done_of <$> (if firing fast hyp k c then [k] else [])) ∧
    ∀ j, j ≠ k → firing fast hyp j c' = firing fast hyp j c) as (c' & l' & -> & Hq & -> & Hj).
  { unfold visit, fiq_step. cbn [fst snd]. destruct (firing fast hyp k c) eqn:E.
    - eexists _, _. split; [done|]. split; [apply act_silences|]. split; [done|].
      intros j Hj. by apply act_local.
    - eexists _, _. split; [done|]. split; [done|]. by rewrite app_nil_r. }
  destruct (IH c' (l ++ (done_of <$> (if firing fast hyp k c then [k] else []))) Hnd) as (H1 & H2 & H3).
  split; [|split].
  - rewrite H1, <- app_assoc. f_equal. cbn [List.filter].
    assert (List.filter (λ k, firing fast hyp k c') ks = List.filter (λ k, firing fast hyp k c) ks) as ->.
    { apply List.filter_ext_in. intros j Hin%list_elem_of_In. apply Hj. by intros ->. }
    by destruct (firing fast hyp k c).
  - intros j [-> |Hin]%elem_of_cons; [by rewrite H3|by apply H2].
  - intros j [? ?]%not_elem_of_cons. rewrite H3 by done. by apply Hj.
Qed.

Lemma fiq_step_ext cond cond' f d s : cond s.1 = cond' s.1 → fiq_step cond f d s = fiq_step cond' f d s.
Proof. unfold fiq_step. by intros ->. Qed.

(** The entry visits the sources in order. *)
Lemma handle_fiq_visits c : aic_handle_fiq handler ipi fast hyp c = fold_left visit sources (c, []).
Proof.
  unfold aic_handle_fiq, sources. cbn [fold_left].
  set (s3 := fiq_step _ _ (DidFiq AIC_TMR_EL0_VIRT) _).
  change (visit (visit (visit (c, []) SIpi) SPhys0) SVirt0) with s3.
  set (mid := if hyp then _ else s3).
  assert (mid = visit (visit s3 SPhys2) SVirt2) as ->; [|reflexivity]. subst mid.
  destruct hyp eqn:Ehyp.
  - set (s4 := fiq_step _ _ (DidFiq AIC_TMR_EL02_PHYS) s3).
    assert (visit s3 SPhys2 = s4) as ->.
    { unfold visit. apply fiq_step_ext. unfold firing. rewrite Ehyp. done. }
    symmetry. unfold visit. apply fiq_step_ext. unfold firing. rewrite Ehyp. cbn [andb].
    change (negb (Z.land (sys s3.1 VM_TMR_FIQ_ENA) VM_TMR_FIQ_ENABLE_V =? 0))
      with (guest_enabled VM_TMR_FIQ_ENABLE_V (sys s3.1 VM_TMR_FIQ_ENA)). f_equal.
    unfold VM_TMR_FIQ_ENABLE_V. rewrite !guest_enabled_bit by lia.
    unfold s4, fiq_step. case_if; [|done]. cbn [fst]. by apply handle_fiq_bit.
  - unfold visit, fiq_step, firing. by rewrite Ehyp.
Qed.
End storm.


(** Handlers that stop their timer or counter. *)
Definition demo_handler (idx : Z) (c : cpu) : cpu :=
  match src_reg idx with
  | Some r => Cpu (λ r', if decide (r' = r) then 0 else sys c r') (aic_fiq_unmasked c)
  | None => c
  end.
(** The physical timer, the guest's virtual timer and the uncore PMU fire. *)
Definition demo_cpu : cpu :=
  Cpu (λ r, match r with
            | CNTP_CTL_EL0 | CNTV_CTL_EL02 => 5
            | VM_TMR_FIQ_ENA => 1 | UPMCR0 => 0x40000 | UPMSR => 1
            | _ => 0
            end) 8.


(** ** The software mask *)

(** Calls of the interrupt core on the FIQ chip. *)
Inductive fiq_op := OpMask (idx : Z) | OpUnmask (idx : Z) | OpAck (idx : Z) | OpEoi (idx : Z).

Definition op_index (o : fiq_op) : Z :=
  match o with OpMask i | OpUnmask i | OpAck i | OpEoi i => i end.

Definition run_op (c : cpu) (o : fiq_op) : cpu :=
  match o with
  | OpMask idx => aic_fiq_mask idx c
  | OpUnmask idx => aic_fiq_unmask idx c
  | OpAck idx => aic_fiq_set_mask idx c
  | OpEoi idx => aic_fiq_eoi idx c
  end.

(** What the kernel asked for last. *)
Definition wanted (ops : list fiq_op) (idx : Z) : bool :=
  fold_left (λ b o, match o with
                    | OpMask i => if i =? idx then false else b
                    | OpUnmask i => if i =? idx then true else b
                    | OpAck _ | OpEoi _ => b
                    end) ops false.

Definition enabled (c : cpu) (idx : Z) : bool := Z.testbit (sys c VM_TMR_FIQ_ENA) (guest_bit idx).

Lemma mask_unmasked idx c : aic_fiq_unmasked (aic_fiq_set_mask idx c) = aic_fiq_unmasked c.
Proof. unfold aic_fiq_set_mask. by repeat case_if. Qed.
Lemma clear_unmasked idx c : aic_fiq_unmasked (aic_fiq_clear_mask idx c) = aic_fiq_unmasked c.
Proof. unfold aic_fiq_clear_mask. by repeat case_if. Qed.
Lemma eoi_unmasked idx c : aic_fiq_unmasked (aic_fiq_eoi idx c) = aic_fiq_unmasked c.
Proof. unfold aic_fiq_eoi. case_if; [apply clear_unmasked|done]. Qed.

Lemma guest_bit_inj i j : is_guest i = true → is_guest j = true → (guest_bit j =? guest_bit i) = (i =? j).
Proof.
  unfold is_guest, guest_bit, AIC_TMR_EL02_PHYS, AIC_TMR_EL02_VIRT, AIC_TMR_GUEST_PHYS, AIC_TMR_GUEST_VIRT.
  destruct (Z.eqb_spec i 2), (Z.eqb_spec j 2), (Z.eqb_spec i 3), (Z.eqb_spec j 3), (Z.eqb_spec i j); simpl; intros; try done; lia.
Qed.

Lemma guest_hits i j : is_guest j = true → is_guest i && (guest_bit j =? guest_bit i) = (i =? j).
Proof.
  intros Hj. destruct (is_guest i) eqn:Hi; simpl; [by apply guest_bit_inj|].
  symmetry. apply Z.eqb_neq. intros ->. congruence.
Qed.

Lemma enabled_set_mask i c j : is_guest j = true →
  enabled (aic_fiq_set_mask i c) j = enabled c j && negb (i =? j).
Proof. intros Hj. unfold enabled. rewrite set_mask_bit, guest_hits by (done || by unfold guest_bit; case_if). done. Qed.

Lemma enabled_clear_mask i c j : is_guest j = true →
  enabled (aic_fiq_clear_mask i c) j = enabled c j || (i =? j).
Proof. intros Hj. unfold enabled. rewrite clear_mask_bit, guest_hits by (done || by unfold guest_bit; case_if). done. Qed.

Lemma enabled_eoi i c j : 0 ≤ i → is_guest j = true →
  enabled (aic_fiq_eoi i c) j = enabled c j || (i =? j) && Z.testbit (aic_fiq_unmasked c) i.
Proof.
  intros Hi Hj. unfold aic_fiq_eoi. rewrite land_BIT_zero, negb_involutive by done.
  destruct (Z.testbit (aic_fiq_unmasked c) i).
  - by rewrite enabled_clear_mask, andb_true_r.
  - by rewrite andb_false_r, orb_false_r.
Qed.

Definition mask_inv (c : cpu) (want : Z → bool) : Prop :=
  (∀ i, 0 ≤ i < 32 → Z.testbit (aic_fiq_unmasked c) i = want i) ∧
  ∀ j, is_guest j = true → enabled c j = true → want j = true.

Lemma guest_range j : is_guest j = true → 0 ≤ j < 32.
Proof.
  unfold is_guest, AIC_TMR_EL02_PHYS, AIC_TMR_EL02_VIRT, AIC_TMR_GUEST_PHYS, AIC_TMR_GUEST_VIRT. lia.
Qed.

Lemma mask_inv_op c o ops :
  0 ≤ op_index o < 32 → mask_inv c (wanted ops) → mask_inv (run_op c o) (wanted (ops ++ [o])).
Proof.
  intros Ho [Hm He]. assert (∀ k, wanted (ops ++ [o]) k = match o with
      | OpMask i => if i =? k then false else wanted ops k
      | OpUnmask i => if i =? k then true else wanted ops k
      | OpAck _ | OpEoi _ => wanted ops k end) as Hw
    by (intros k; unfold wanted; by rewrite fold_left_app).
  destruct o as [i|i|i|i]; cbn [run_op op_index] in *; (split; [intros k Hk|intros j Hj]); rewrite Hw.
  - cbn [aic_fiq_mask aic_fiq_unmasked set_unmasked].
    rewrite mask_unmasked, Z.land_spec, testbit_not32, testbit_BIT, Hm by lia.
    destruct (Z.eqb_spec k i), (Z.eqb_spec i k); try lia; by rewrite ?andb_false_r, ?andb_true_r.
  - change (enabled (aic_fiq_mask i c) j) with (enabled (aic_fiq_set_mask i c) j).
    rewrite enabled_set_mask by done. intros [E Hn]%andb_prop. apply negb_true_iff in Hn. rewrite Hn. by apply He.
  - cbn [aic_fiq_unmask aic_fiq_unmasked set_unmasked]. unfold u32.
    rewrite Z.mod_pow2_bits_low, Z.lor_spec, testbit_BIT, clear_unmasked, Hm by lia.
    destruct (Z.eqb_spec k i), (Z.eqb_spec i k); try lia; by rewrite ?orb_false_r, ?orb_true_r.
  - change (enabled (aic_fiq_unmask i c) j) with (enabled (aic_fiq_clear_mask i c) j).
    rewrite enabled_clear_mask by done. intros [E|E]%orb_prop; [|by rewrite E]. case_if; [done|by apply He].
  - rewrite mask_unmasked. by apply Hm.
  - rewrite enabled_set_mask by done. intros [E _]%andb_prop. by apply He.
  - rewrite eoi_unmasked. by apply Hm.
  - rewrite enabled_eoi by (done || lia). intros [E|[Ei E]%andb_prop]%orb_prop; [by apply He|].
    apply Z.eqb_eq in Ei as <-. rewrite <- Hm; done.
Qed.

Lemma mask_inv_run ops : ∀ c, (∀ o, o ∈ ops → 0 ≤ op_index o < 32) →
  mask_inv c (wanted []) → mask_inv (fold_left run_op ops c) (wanted ops).
Proof.
  induction ops as [|o ops IH] using rev_ind; intros c Ho Hc; [done|].
  rewrite fold_left_app. cbn [fold_left]. apply mask_inv_op.
  - apply Ho. apply elem_of_app. right. apply list_elem_of_here.
  - apply IH; [|done]. intros o' Hin. apply Ho. apply elem_of_app. by left.
Qed.

(** Guest timers stay masked as asked: starting from a CPU brought up with the
    guest timers off, after any sequence of mask, unmask, acknowledge and
    end-of-interrupt calls the hardware lets a guest timer through only if the last
    request of the kernel was to unmask it (so an end of interrupt never undoes a
    mask), the software mask records exactly the last requests, and an acknowledge
    followed by an end of interrupt lets the timer through again exactly when it is
    unmasked. *)
Theorem aic_fiq_mask_respected fast version c ops idx :
  (∀ j, is_guest j = true → enabled c j = false) →
  (∀ o, o ∈ ops → 0 ≤ op_index o < AIC_NR_FIQ) → is_guest idx = true →
  let c' := fold_left run_op ops (aic_init_cpu fast version c).1 in
  (enabled c' idx = true → wanted ops idx = true) ∧
  Z.testbit (aic_fiq_unmasked c') idx = wanted ops idx ∧
  enabled (aic_fiq_eoi idx (aic_fiq_set_mask idx c')) idx = wanted ops idx.
Proof.
  intros Hoff Ho Hg c'.
  assert (mask_inv c' (wanted ops)) as [Hm He].
  { apply mask_inv_run.
    - intros o Hin. specialize (Ho o Hin). unfold AIC_NR_FIQ, AIC_VGIC_MI, AIC_CPU_PMU_P in Ho. lia.
    - split; [intros i Hi; cbn; by rewrite Z.bits_0|]. intros j Hj. specialize (Hoff j Hj).
      assert (sys (aic_init_cpu fast version c).1 VM_TMR_FIQ_ENA = sys c VM_TMR_FIQ_ENA) as E
        by (by destruct fast).
      unfold enabled in *. by rewrite E, Hoff. }
  pose proof (guest_range idx Hg). split; [by apply He|]. split; [by apply Hm|].
  rewrite enabled_eoi, enabled_set_mask, mask_unmasked, Hm by (done || lia).
  by rewrite Z.eqb_refl, andb_false_r.
Qed.

Lemma aic_fiq_mask_respected_witness :
  let ops := [OpUnmask 3; OpAck 3; OpMask 3; OpEoi 3] in
  let c' := fold_left run_op ops (aic_init_cpu true 2 (Cpu (λ _, 0) 7)).1 in
  (enabled c' 3 = true → wanted ops 3 = true) ∧
  Z.testbit (aic_fiq_unmasked c') 3 = wanted ops 3 ∧
  enabled (aic_fiq_eoi 3 (aic_fiq_set_mask 3 c')) 3 = wanted ops 3.
Proof.
  refine (aic_fiq_mask_respected true 2 (Cpu (λ _, 0) 7) [OpUnmask 3; OpAck 3; OpMask 3; OpEoi 3] 3 _ _ _).
  - intros j Hj. unfold enabled. cbn. apply Z.bits_0.
  - intros o Hin. repeat (apply elem_of_cons in Hin as [-> | Hin]; [by vm_compute|]).
    by apply not_elem_of_nil in Hin.
  - reflexivity.
Defined.

(** ** Bringing up a CPU *)

Lemma timer_masked x : TIMER_FIRING (Z.lor (Z.land x (Z.lnot 0)) ARCH_TIMER_CTRL_IT_MASK) = false.
Proof.
  unfold TIMER_FIRING. apply Z.eqb_neq. intros E. apply (f_equal (λ v, Z.testbit v 1)) in E.
  unfold ARCH_TIMER_CTRL_IT_MASK, ARCH_TIMER_CTRL_ENABLE, ARCH_TIMER_CTRL_IT_STAT in E.
  rewrite Z.land_spec, !Z.lor_spec, !testbit_BIT in E by lia. cbn in E. by rewrite orb_true_r in E.
Qed.

(** A CPU starts quiet: after [aic_init_cpu] no source asserts the FIQ line,
    except the guest timers when the kernel runs at EL2 and the boot loader left
    them enabled. *)
Theorem aic_init_cpu_quiet fast hyp version c :
  (hyp = true → ∀ j, is_guest j = true → enabled c j = false) →
  ∀ k, firing fast hyp k (aic_init_cpu fast version c).1 = false.
Proof.
  intros Hg k.
  assert (∀ r, r = VM_TMR_FIQ_ENA ∨ r = CNTP_CTL_EL02 ∨ r = CNTV_CTL_EL02 →
    sys (aic_init_cpu fast version c).1 r = sys c r) as Hs.
  { intros r Hr. destruct fast, Hr as [-> |[-> | ->]]; done. }
  destruct k; unfold firing.
  - unfold ipi_firing, IPI_SR_PENDING. destruct fast; [|done]. rewrite land_BIT_zero by lia.
    cbn [andb]. rewrite negb_involutive.
    change (sys (aic_init_cpu true version c).1 IPI_SR) with (Z.land (sys c IPI_SR) (Z.lnot (BIT 0))).
    by rewrite Z.land_spec, Z.lnot_spec, testbit_BIT, andb_false_r by lia.
  - assert (sys (aic_init_cpu fast version c).1 CNTP_CTL_EL0 =
      Z.lor (Z.land (sys c CNTP_CTL_EL0) (Z.lnot 0)) ARCH_TIMER_CTRL_IT_MASK) as -> by (by destruct fast).
    apply timer_masked.
  - assert (sys (aic_init_cpu fast version c).1 CNTV_CTL_EL0 =
      Z.lor (Z.land (sys c CNTV_CTL_EL0) (Z.lnot 0)) ARCH_TIMER_CTRL_IT_MASK) as -> by (by destruct fast).
    apply timer_masked.
  - destruct hyp; [|done]. rewrite Hs by auto. unfold VM_TMR_FIQ_ENABLE_P. rewrite guest_enabled_bit by lia.
    specialize (Hg eq_refl AIC_TMR_EL02_PHYS eq_refl). unfold enabled in Hg. cbn [guest_bit] in Hg.
    change (guest_bit AIC_TMR_EL02_PHYS) with 1 in Hg. by rewrite Hg.
  - destruct hyp; [|done]. rewrite Hs by auto. unfold VM_TMR_FIQ_ENABLE_V. rewrite guest_enabled_bit by lia.
    specialize (Hg eq_refl AIC_TMR_EL02_VIRT eq_refl). unfold enabled in Hg.
    change (guest_bit AIC_TMR_EL02_VIRT) with 0 in Hg. by rewrite Hg.
  - unfold pmu_firing.
    assert (sys (aic_init_cpu fast version c).1 PMCR0 =
      Z.lor (Z.land (sys c PMCR0) (Z.lnot (Z.lor PMCR0_IMODE PMCR0_IACT)))
        (FIELD_PREP PMCR0_IMODE PMCR0_IMODE_OFF)) as -> by (by destruct fast).
    change (FIELD_PREP PMCR0_IMODE PMCR0_IMODE_OFF) with 0. rewrite Z.lor_0_r.
    rewrite <- Z.land_assoc, (Z.land_comm (Z.lnot _)), Z.land_lnot_diag, Z.land_0_r. done.
  - destruct fast; [|done]. cbn [andb].
    apply (uncore_off (sysreg_clear_set PMCR0 (Z.lor PMCR0_IMODE PMCR0_IACT)
      (FIELD_PREP PMCR0_IMODE PMCR0_IMODE_OFF)
      (sysreg_clear_set CNTV_CTL_EL0 0 ARCH_TIMER_CTRL_IT_MASK
        (sysreg_clear_set CNTP_CTL_EL0 0 ARCH_TIMER_CTRL_IT_MASK
          (write_sysreg IPI_SR IPI_SR_PENDING c))))).
Qed.

(** Every source fires, the guest timers are not enabled. *)
Definition noisy_cpu (guest : Z) : cpu :=
  Cpu (λ r, match r with
            | IPI_SR | UPMSR => 1
            | VM_TMR_FIQ_ENA => guest
            | PMCR0 => 0xc00 | UPMCR0 => 0x40000
            | _ => 5
            end) 0xff.

Lemma aic_init_cpu_quiet_witness :
  firing true true SPmu (noisy_cpu 0) = true ∧ firing true true SUncore (noisy_cpu 0) = true ∧
  ∀ k, firing true true k (aic_init_cpu true 2 (noisy_cpu 0)).1 = false.
Proof.
  split; [vm_compute; reflexivity|]. split; [vm_compute; reflexivity|].
  refine (aic_init_cpu_quiet true true 2 (noisy_cpu 0) _).
  intros _ j _. unfold enabled. cbn. apply Z.bits_0.
Defined.

(** Guest timers that are enabled at EL2 when a CPU is brought up stay enabled: the
    code that switches them off is commented out.  They can then fire although the
    software mask says that they are masked. *)
Theorem aic_init_cpu_leaves_guest_timers :
  let c := (aic_init_cpu true 2 (noisy_cpu 3)).1 in
  aic_fiq_unmasked c = 0 ∧ firing true true SPhys2 c = true ∧ firing true true SVirt2 c = true.
Proof. vm_compute. done. Qed.

(** ** Addressing a CPU *)

Lemma mpidr_range m : 0 ≤ MPIDR_CPU m < 256 ∧ 0 ≤ MPIDR_CLUSTER m < 256.
Proof.
  unfold MPIDR_CPU, MPIDR_CLUSTER. change 0xff with (Z.ones 8). rewrite !Z.land_ones by lia.
  split; apply Z.mod_pos_bound; lia.
Qed.

(** An inter-processor interrupt is addressed to its target: the fast request
    register receives the number of the target CPU in its cluster, and the cluster
    as well unless sender and target share one and the local register exists; the
    older controllers receive the bit of the target CPU and no other. *)
Theorem aic_ipi_addresses fast local map my_mpidr cpu :
  0 ≤ cpu < 32 →
  match aic_ipi_send_single fast local map my_mpidr cpu with
  | [WriteRrLocal v] => fast = true ∧ local = true ∧
      MPIDR_CLUSTER my_mpidr = MPIDR_CLUSTER (map cpu) ∧ FIELD_GET IPI_RR_CPU v = MPIDR_CPU (map cpu)
  | [WriteRrGlobal v] => fast = true ∧ FIELD_GET IPI_RR_CPU v = MPIDR_CPU (map cpu) ∧
      FIELD_GET IPI_RR_CLUSTER v = MPIDR_CLUSTER (map cpu)
  | [WriteAic reg v] => fast = false ∧ reg = AIC_IPI_SEND ∧
      ∀ i, 0 ≤ i < 32 → Z.testbit v i = (i =? cpu)
  | _ => False
  end.
Proof.
  intros Hc. unfold aic_ipi_send_single. destruct fast.
  - destruct (mpidr_range (map cpu)) as [H1 H2].
    unfold aic_ipi_send_fast, IPI_RR_CPU, IPI_RR_CLUSTER. case_if.
    + boolprop. split; [done|]. split; [done|]. split; [done|]. by apply FIELD_GET_PREP.
    + split; [done|]. rewrite !FIELD_GET_lor, !FIELD_GET_PREP, !FIELD_GET_PREP_disjoint by lia.
      by rewrite Z.lor_0_r.
  - split; [done|]. split; [done|]. intros i Hi. unfold AIC_IPI_SEND_CPU, u32.
    rewrite Z.mod_pow2_bits_low, testbit_BIT by lia. done.
Qed.

Lemma aic_ipi_addresses_witness :
  aic_ipi_send_single true true (λ _, 0x10203) 0x10000 1 = [WriteRrGlobal 0x20003] ∧
  (true = true ∧ FIELD_GET IPI_RR_CPU 0x20003 = MPIDR_CPU 0x10203 ∧
   FIELD_GET IPI_RR_CLUSTER 0x20003 = MPIDR_CLUSTER 0x10203).
Proof.
  split; [vm_compute; reflexivity|].
  refine (aic_ipi_addresses true true (λ _, 0x10203) 0x10000 1 _). lia.
Defined.
