(* ===== verification/Cpufreq.v ===== *)
(** * Apple SoC CPU cluster performance states
    (drivers/cpufreq/apple-soc-cpufreq.c of the asahi snapshot)

    The command and status registers of a cluster, the selection of a performance
    state, the current frequency, and the set-up and removal of a policy.  The
    registers and the kernel answer through an oracle on the history. *)

From Stdlib Require Import ZArith Lia Bool Btauto String.
From stdpp Require Import base numbers list option.
From S2P Require Import Prelude.
From S2P Require Import Ledger.

Local Open Scope list_scope.
Local Open Scope Z_scope.

Definition APPLE_DVFS_CMD_BUSY : Z := BIT 31.
Definition APPLE_DVFS_CMD_SET : Z := BIT 25.
Definition APPLE_DVFS_CMD_PS1_S5L8960X : Z := GENMASK 24 22.
Definition APPLE_DVFS_CMD_PS1_S5L8960X_SHIFT : Z := 22.
Definition APPLE_DVFS_CMD_PS2 : Z := GENMASK 15 12.
Definition APPLE_DVFS_CMD_PS1 : Z := GENMASK 4 0.
Definition APPLE_DVFS_CMD_PS1_SHIFT : Z := 0.
Definition APPLE_DVFS_STATUS_CUR_PS_S5L8960X : Z := GENMASK 5 3.
Definition APPLE_DVFS_STATUS_CUR_PS_SHIFT_S5L8960X : Z := 3.
Definition APPLE_DVFS_STATUS_CUR_PS_T8103 : Z := GENMASK 7 4.
Definition APPLE_DVFS_STATUS_CUR_PS_SHIFT_T8103 : Z := 4.
Definition APPLE_DVFS_STATUS_CUR_PS_T8112 : Z := GENMASK 9 5.
Definition APPLE_DVFS_STATUS_CUR_PS_SHIFT_T8112 : Z := 5.
Definition APPLE_DVFS_TRANSITION_TIMEOUT : Z := 400.
Definition NSEC_PER_USEC : Z := 1000.
(** [CPUFREQ_ENTRY_INVALID] of linux/cpufreq.h; the end of the table is the end of
    the list. *)
Definition CPUFREQ_ENTRY_INVALID : Z := 2 ^ 32 - 1.

Record apple_soc_cpufreq_info := Info {
  has_ps2 : bool;
  max_pstate : Z;
  cur_pstate_mask : Z;
  cur_pstate_shift : Z;
  ps1_mask : Z;
  ps1_shift : Z
}.

Definition soc_s5l8960x_info : apple_soc_cpufreq_info :=
  Info false 7 APPLE_DVFS_STATUS_CUR_PS_S5L8960X APPLE_DVFS_STATUS_CUR_PS_SHIFT_S5L8960X
    APPLE_DVFS_CMD_PS1_S5L8960X APPLE_DVFS_CMD_PS1_S5L8960X_SHIFT.
Definition soc_t8103_info : apple_soc_cpufreq_info :=
  Info true 15 APPLE_DVFS_STATUS_CUR_PS_T8103 APPLE_DVFS_STATUS_CUR_PS_SHIFT_T8103
    APPLE_DVFS_CMD_PS1 APPLE_DVFS_CMD_PS1_SHIFT.
Definition soc_t8112_info : apple_soc_cpufreq_info :=
  Info false 31 APPLE_DVFS_STATUS_CUR_PS_T8112 APPLE_DVFS_STATUS_CUR_PS_SHIFT_T8112
    APPLE_DVFS_CMD_PS1 APPLE_DVFS_CMD_PS1_SHIFT.
Definition soc_default_info : apple_soc_cpufreq_info :=
  Info false 15 0 0 APPLE_DVFS_CMD_PS1 APPLE_DVFS_CMD_PS1_SHIFT.

Definition apple_soc_cpufreq_of_match (compatible : string) : option apple_soc_cpufreq_info :=
  if String.eqb compatible "apple,s5l8960x-cluster-cpufreq" then Some soc_s5l8960x_info
  else if String.eqb compatible "apple,t8103-cluster-cpufreq" then Some soc_t8103_info
  else if String.eqb compatible "apple,t8112-cluster-cpufreq" then Some soc_t8112_info
  else if String.eqb compatible "apple,cluster-cpufreq" then Some soc_default_info
  else None.

(** An entry of the frequency table. *)
Record entry := Entry { frequency : Z; driver_data : Z }.

(** What the driver sets in a policy; [info] stands for the private data. *)
Record policy := Policy {
  info : apple_soc_cpufreq_info;
  freq_table : list entry;
  transition_latency : Z;
  dvfs_possible_from_any_cpu : bool;
  fast_switch_possible : bool;
  suspend_freq : Z
}.

Inductive event :=
| ReadCmd                      (** APPLE_DVFS_CMD *)
| ReadStatus                   (** APPLE_DVFS_STATUS *)
| WriteCmd (v : Z)
| GetCpuDevice | Kzalloc | Kfree
| GetSharing                   (** [of_perf_domain_get_sharing_cpumask] *)
| NodePut | Iomap | Iounmap
| OppAddTable | OppRemoveTable | OppCount
| InitTable | FreeTable
| FindFloor (rate : Z)         (** the level of the operating point, or an error *)
| OppPut
| MaxLatency.

Section driver.
Context (ans : list event → event → Z).

(** [readq_poll_timeout_atomic] on the command register: the register is read until
    it is not busy; [budget] reads fit into the time, then it is read once more. *)
Fixpoint poll_cmd (budget : nat) : TR event (option Z) :=
  r ← ask ans ReadCmd;
  let reg := u64 r in
  if Z.land reg APPLE_DVFS_CMD_BUSY =? 0 then mret (Some reg)
  else match budget with
  | O =>
      r ← ask ans ReadCmd;
      let reg := u64 r in
      mret (if Z.land reg APPLE_DVFS_CMD_BUSY =? 0 then Some reg else None)
  | S budget' => poll_cmd budget'
  end.

(** [FIELD_MODIFY(mask, &reg, val)] of linux/bitfield.h. *)
Definition FIELD_MODIFY (mask reg val : Z) : Z :=
  Z.lor (Z.land reg (u64 (Z.lnot mask))) (FIELD_PREP mask val).

(** The value written for a performance state. *)
Definition command_word (i : apple_soc_cpufreq_info) (pstate reg : Z) : Z :=
  let reg := Z.land reg (u64 (Z.lnot (ps1_mask i))) in
  let reg := Z.lor reg (u32 (Z.shiftl pstate (ps1_shift i))) in
  let reg := if has_ps2 i then FIELD_MODIFY APPLE_DVFS_CMD_PS2 reg pstate else reg in
  Z.lor reg APPLE_DVFS_CMD_SET.

(** The index is clamped after the performance state has been read from the table,
    so that the clamp has no effect. *)
Definition apple_soc_cpufreq_set_target (budget : nat) (p : policy) (index : nat) : TR event Z :=
  let pstate := from_option driver_data 0 (freq_table p !! index) in
  let index := if Z.of_nat index >? max_pstate (info p) then max_pstate (info p) else Z.of_nat index in
  r ← poll_cmd budget;
  match r with
  | None => mret (- EIO)
  | Some reg => emit (WriteCmd (command_word (info p) pstate reg));; mret 0
  end.

Definition apple_soc_cpufreq_fast_switch (budget : nat) (p : policy) (cached_resolved_idx : nat)
    : TR event Z :=
  ret ← apple_soc_cpufreq_set_target budget p cached_resolved_idx;
  if ret <? 0 then mret 0
  else mret (from_option frequency 0 (freq_table p !! cached_resolved_idx)).

(** The first valid entry of the table with the performance state. *)
Definition find_entry (pstate : Z) (t : list entry) : option entry :=
  List.find (λ e, negb (frequency e =? CPUFREQ_ENTRY_INVALID) && (driver_data e =? pstate)) t.

Definition apple_soc_cpufreq_get_rate (pol : option policy) : TR event Z :=
  match pol with
  | None => mret 0
  | Some p =>
      pstate ← (if negb (cur_pstate_mask (info p) =? 0) then
                  r ← ask ans ReadStatus;
                  mret (u32 (Z.shiftr (Z.land (u32 r) (cur_pstate_mask (info p)))
                               (cur_pstate_shift (info p))))
                else
                  r ← ask ans ReadCmd;
                  mret (u32 (FIELD_GET APPLE_DVFS_CMD_PS1 (u64 r))));
      mret (from_option frequency 0 (find_entry pstate (freq_table p)))
  end.

(** The node's compatible string is an argument; its reference is dropped before its
    registers are mapped. *)
Definition apple_soc_cpufreq_find_cluster (compatible : string)
    : TR event (Z * option apple_soc_cpufreq_info) :=
  ret ← ask ans GetSharing;
  if ret <? 0 then mret (ret, None)
  else
    emit NodePut;;
    match apple_soc_cpufreq_of_match compatible with
    | None => mret (- ENODEV, None)
    | Some i =>
        base ← ask ans Iomap;
        if base =? 0 then mret (- ENOMEM, None) else mret (0, Some i)
    end.

(** The operating points of the table: every entry gets the level of the fastest
    point that is not above it. *)
Fixpoint opp_levels (freqs : list Z) : TR event (result Z (list entry)) :=
  match freqs with
  | [] => mret (Ok [])
  | f :: freqs' =>
      level ← ask ans (FindFloor (u64 (f * 1000 + 999)));
      if level <? 0 then mret (Err level)
      else
        emit OppPut;;
        rest ← opp_levels freqs';
        mret (match rest with Ok l => Ok (Entry f (u32 level) :: l) | Err e => Err e end)
  end.

(** The labels of the error path. *)
Definition out_free_priv (ret : Z) : TR event (Z * option policy) := emit Kfree;; mret (ret, None).
Definition out_iounmap (ret : Z) : TR event (Z * option policy) := emit Iounmap;; out_free_priv ret.
Definition out_free_table (ret : Z) : TR event (Z * option policy) :=
  emit OppRemoveTable;; out_iounmap ret.
Definition out_free_cpufreq_table (ret : Z) : TR event (Z * option policy) :=
  emit FreeTable;; out_free_table ret.

(** [freqs] are the frequencies of the table the OPP core builds. *)
Definition apple_soc_cpufreq_init (compatible : string) (freqs : list Z)
    : TR event (Z * option policy) :=
  cpu_dev ← ask ans GetCpuDevice;
  if cpu_dev =? 0 then mret (- ENODEV, None)
  else
    priv ← ask ans Kzalloc;
    if priv =? 0 then mret (- ENOMEM, None)
    else
      '(ret, i) ← apple_soc_cpufreq_find_cluster compatible;
      match i with
      | None => out_free_priv ret
      | Some i =>
          ret ← ask ans OppAddTable;
          if ret <? 0 then out_iounmap ret
          else
            count ← ask ans OppCount;
            if count <=? 0 then out_free_table (- EPROBE_DEFER)
            else
              ret ← ask ans InitTable;
              if negb (ret =? 0) then out_free_table ret
              else
                levels ← opp_levels freqs;
                match levels with
                | Err e => out_free_cpufreq_table e
                | Ok table =>
                    lat ← ask ans MaxLatency;
                    let lat := u32 lat in
                    let lat := if lat =? 0 then APPLE_DVFS_TRANSITION_TIMEOUT * NSEC_PER_USEC else lat in
                    mret (0, Some (Policy i table lat true true (from_option frequency 0 (table !! 0%nat))))
                end
      end.

Definition apple_soc_cpufreq_exit : TR event unit :=
  emit FreeTable;; emit OppRemoveTable;; emit Iounmap;; emit Kfree.
End driver.

(** ** The command word *)

(** Width of the performance-state field of the command register. *)
Definition ps1_width (i : apple_soc_cpufreq_info) : Z := if ps1_shift i =? 0 then 5 else 3.

Definition in_ps1 (i : apple_soc_cpufreq_info) (k : Z) : bool :=
  (ps1_shift i <=? k) && (k <? ps1_shift i + ps1_width i).
Definition in_ps2 (i : apple_soc_cpufreq_info) (k : Z) : bool :=
  has_ps2 i && (12 <=? k) && (k <=? 15).

(** The layouts of the supported generations. *)
Record layout_ok (i : apple_soc_cpufreq_info) : Prop := {
  lo_ps1 : ps1_mask i = GENMASK (ps1_shift i + ps1_width i - 1) (ps1_shift i);
  lo_shift : ps1_shift i = 0 ∨ ps1_shift i = 22;
  lo_max : 0 ≤ max_pstate i < 2 ^ ps1_width i;
  lo_fallback : cur_pstate_mask i = 0 → ps1_mask i = APPLE_DVFS_CMD_PS1 ∧ ps1_shift i = 0;
  lo_cur : cur_pstate_mask i = 0 ∨
    0 < cur_pstate_shift i ∧ ∃ w, 0 < w ≤ 5 ∧ max_pstate i < 2 ^ w ∧
      cur_pstate_mask i = GENMASK (cur_pstate_shift i + w - 1) (cur_pstate_shift i)
}.

Lemma match_layout compatible i : apple_soc_cpufreq_of_match compatible = Some i → layout_ok i.
Proof.
  unfold apple_soc_cpufreq_of_match. intros H. repeat case_if; simplify_eq.
  - split; [done|by right|by compute|done|]. right. split; [done|]. exists 3. by compute.
  - split; [done|by left|by compute|done|]. right. split; [done|]. exists 4. by compute.
  - split; [done|by left|by compute|done|]. right. split; [done|]. exists 5. by compute.
  - split; [done|by left|by compute|done|]. by left.
Qed.

Lemma testbit_u64_lnot m k : 0 ≤ k < 64 → Z.testbit (u64 (Z.lnot m)) k = negb (Z.testbit m k).
Proof. intros. unfold u64. rewrite Z.mod_pow2_bits_low by lia. by rewrite Z.lnot_spec by lia. Qed.

Lemma testbit_shifted i v k :
  layout_ok i → 0 ≤ v < 2 ^ ps1_width i → 0 ≤ k →
  Z.testbit (u32 (Z.shiftl v (ps1_shift i))) k = in_ps1 i k && Z.testbit v (k - ps1_shift i).
Proof.
  intros Hi Hv Hk. pose proof (lo_shift i Hi) as Hs. unfold ps1_width in *.
  assert (0 ≤ Z.shiftl v (ps1_shift i) < 2 ^ 32) as Hr.
  { rewrite Z.shiftl_mul_pow2 by lia. destruct Hs as [Es|Es]; rewrite Es in *; simpl in *; lia. }
  rewrite u32_small, Z.shiftl_spec by done. unfold in_ps1, ps1_width.
  set (w := if ps1_shift i =? 0 then 5 else 3) in *. assert (0 < w) by (subst w; by case_if).
  destruct (Z.leb_spec (ps1_shift i) k); [|by rewrite Z.testbit_neg_r by lia].
  destruct (Z.ltb_spec k (ps1_shift i + w)); [done|]. by rewrite (testbit_above w v) by lia.
Qed.

(** Every bit of the word: the requested state in its fields, the request bit, and the
    rest of the register as it was read. *)
Lemma command_word_bits i pstate reg k :
  layout_ok i → 0 ≤ pstate < 2 ^ ps1_width i → 0 ≤ k < 64 →
  Z.testbit (command_word i pstate reg) k =
  (k =? 25) || (if in_ps2 i k then Z.testbit pstate (k - 12)
                else if in_ps1 i k then Z.testbit pstate (k - ps1_shift i) else Z.testbit reg k).
Proof.
  intros Hi Hp Hk. unfold command_word. cbv zeta. rewrite Z.lor_spec. unfold APPLE_DVFS_CMD_SET.
  rewrite testbit_BIT, orb_comm by lia. f_equal.
  set (r1 := Z.lor _ _).
  assert (Z.testbit r1 k = if in_ps1 i k then Z.testbit pstate (k - ps1_shift i) else Z.testbit reg k) as H1.
  { unfold r1. rewrite Z.lor_spec, Z.land_spec, testbit_u64_lnot, testbit_shifted by (done || lia).
    rewrite (lo_ps1 i Hi). pose proof (lo_shift i Hi) as Hs.
    assert (0 < ps1_width i) by (unfold ps1_width; by case_if).
    rewrite testbit_GENMASK by lia. unfold in_ps1.
    assert ((k <=? ps1_shift i + ps1_width i - 1) = (k <? ps1_shift i + ps1_width i)) as -> by lia.
    destruct ((ps1_shift i <=? k) && (k <? ps1_shift i + ps1_width i)); simpl;
      by rewrite ?andb_false_r, ?andb_true_r, ?orb_false_r. }
  unfold in_ps2. destruct (has_ps2 i); [|exact H1]. cbn [andb].
  unfold FIELD_MODIFY, APPLE_DVFS_CMD_PS2.
  rewrite Z.lor_spec, Z.land_spec, testbit_u64_lnot, testbit_GENMASK, testbit_FIELD_PREP, H1 by lia.
  destruct ((12 <=? k) && (k <=? 15)); simpl; by rewrite ?andb_false_r, ?andb_true_r, ?orb_false_r.
Qed.

(** ** Polling *)

Definition busy (reg : Z) : bool := Z.testbit reg 31.

Lemma land_busy reg : (Z.land reg APPLE_DVFS_CMD_BUSY =? 0) = negb (busy reg).
Proof.
  unfold busy, APPLE_DVFS_CMD_BUSY. destruct (Z.testbit reg 31) eqn:E; simpl.
  - apply Z.eqb_neq. intros H. assert (Z.testbit (Z.land reg (BIT 31)) 31 = true) as H1.
    { rewrite Z.land_spec, testbit_BIT, E by lia. done. }
    by rewrite H, Z.bits_0 in H1.
  - apply Z.eqb_eq, Z.bits_inj'. intros k Hk. rewrite Z.land_spec, testbit_BIT, Z.bits_0 by lia.
    destruct (Z.eqb_spec k 31) as [-> |]; [by rewrite E|apply andb_false_r].
Qed.

Section poll.
Context (ans : list event → event → Z).

(** The [n]th value read. *)
Definition nth_read (t : list event) (n : nat) : Z := u64 (ans (t ++ replicate n ReadCmd) ReadCmd).

Lemma nth_read_next t n : nth_read (t ++ [ReadCmd]) n = nth_read t (S n).
Proof. unfold nth_read. by rewrite <- app_assoc. Qed.

Lemma poll_cmd_eq budget t :
  poll_cmd ans budget t =
  if busy (nth_read t 0) then
    match budget with
    | O => (if busy (nth_read t 1) then None else Some (nth_read t 1), t ++ [ReadCmd; ReadCmd])
    | S budget' => poll_cmd ans budget' (t ++ [ReadCmd])
    end
  else (Some (nth_read t 0), t ++ [ReadCmd]).
Proof.
  assert (nth_read t 0 = u64 (ans t ReadCmd)) as -> by (unfold nth_read; simpl; by rewrite app_nil_r).
  destruct budget; cbn [poll_cmd]; rewrite TR_bind_eq; cbn [fst snd ask]; rewrite land_busy;
    destruct (busy (u64 (ans t ReadCmd))); try done.
  cbn [negb]. rewrite TR_bind_eq. cbn [fst snd ask]. rewrite land_busy.
  change (u64 (ans (t ++ [ReadCmd]) ReadCmd)) with (nth_read t 1). rewrite TR_ret_eq, <- app_assoc.
  by destruct (busy (nth_read t 1)).
Qed.

(** The first value that is not busy is taken; otherwise every read was busy. *)
Lemma poll_cmd_spec budget : ∀ t,
  (∃ n, (n ≤ S budget)%nat ∧ poll_cmd ans budget t = (Some (nth_read t n), t ++ replicate (S n) ReadCmd) ∧
     busy (nth_read t n) = false ∧ ∀ m, (m < n)%nat → busy (nth_read t m) = true) ∨
  (poll_cmd ans budget t = (None, t ++ replicate (S (S budget)) ReadCmd) ∧
   ∀ m, (m ≤ S budget)%nat → busy (nth_read t m) = true).
Proof.
  induction budget as [|budget IH]; intros t; rewrite poll_cmd_eq;
    destruct (busy (nth_read t 0)) eqn:B0; try (left; exists 0%nat; repeat split; done || lia).
  - destruct (busy (nth_read t 1)) eqn:B1.
    + right. split; [done|]. intros [|[|m]] Hm; [done|done|lia].
    + left. exists 1%nat. repeat split; [lia|done|]. intros [|m] Hm; [done|lia].
  - destruct (IH (t ++ [ReadCmd])) as [(n & Hn & -> & Hb & Hm)|[-> Hm]]; rewrite <- app_assoc.
    + left. exists (S n). rewrite nth_read_next in *. repeat split; [lia|done|].
      intros [|m] Hlt; [done|]. rewrite <- nth_read_next. apply Hm. lia.
    + right. split; [done|]. intros [|m] Hle; [done|]. rewrite <- nth_read_next. apply Hm. lia.
Qed.
End poll.

(** ** The resources of a policy *)

(** What the set-up acquires; what is held is a stack, because everything has to be
    given back in the opposite order. *)
Inductive resource := Priv | Node | Mapping | OppTable | FreqTable | Opp.
#[export] Instance resource_eq_dec : EqDecision resource.
Proof. solve_decision. Defined.

Section resources.
Context (ans : list event → event → Z).

Definition cstep (pre : list event) (e : event) (o : list resource) : option (list resource) :=
  match e with
  | Kzalloc => Some (if ans pre e =? 0 then o else Priv :: o)
  | GetSharing => Some (if ans pre e <? 0 then o else Node :: o)
  | Iomap => Some (if ans pre e =? 0 then o else Mapping :: o)
  | OppAddTable => Some (if ans pre e <? 0 then o else OppTable :: o)
  | InitTable => Some (if negb (ans pre e =? 0) then o else FreqTable :: o)
  | FindFloor _ => Some (if ans pre e <? 0 then o else Opp :: o)
  | Kfree => pop Priv o
  | NodePut => pop Node o
  | Iounmap => pop Mapping o
  | OppRemoveTable => pop OppTable o
  | FreeTable => pop FreqTable o
  | OppPut => pop Opp o
  | ReadCmd | ReadStatus | WriteCmd _ | GetCpuDevice | OppCount | MaxLatency => Some o
  end.

Abbreviation settled := (settles cstep).

Lemma settles_last e t o o' post :
  cstep t e o = Some o' → post tt o' → settled (emit e) t o post.
Proof. intros H Hp. exists [e], o'. simpl. by rewrite H. Qed.

(** The levels are looked up without keeping a reference to an operating point. *)
Lemma opp_levels_settles freqs : ∀ t o,
  settled (opp_levels ans freqs) t o (λ r o', o' = o ∧
    match r with Ok l => frequency <$> l = freqs | Err e => e < 0 end).
Proof.
  induction freqs as [|f freqs IH]; intros t o; cbn [opp_levels]; [by apply settles_ret|].
  eapply settles_ask; [done|]. case_match eqn:E; [apply settles_ret; split; [done|lia]|].
  eapply settles_emit; [done|]. eapply settles_call; [apply IH|].
  intros evs o' _ [-> Hr]. apply settles_ret. split; [done|].
  destruct (opp_levels ans freqs _).1; [|done]. by rewrite <- Hr.
Qed.

(** The error labels give back what is held where they are entered. *)
Lemma out_settles ret t :
  settled (out_free_priv ret) t [Priv] (λ r o, r = (ret, None) ∧ o = []) ∧
  settled (out_iounmap ret) t [Mapping; Priv] (λ r o, r = (ret, None) ∧ o = []) ∧
  settled (out_free_table ret) t [OppTable; Mapping; Priv] (λ r o, r = (ret, None) ∧ o = []) ∧
  settled (out_free_cpufreq_table ret) t [FreqTable; OppTable; Mapping; Priv]
    (λ r o, r = (ret, None) ∧ o = []).
Proof.
  repeat split; repeat (eapply settles_emit; [done|]; cbv beta); by apply settles_ret.
Qed.

(** The cluster's node is given back before the registers are mapped. *)
Lemma find_cluster_settles compatible t o :
  settled (apple_soc_cpufreq_find_cluster ans compatible) t o (λ r o',
    match r.2 with
    | None => r.1 < 0 ∧ o' = o
    | Some i => r.1 = 0 ∧ o' = Mapping :: o ∧ apple_soc_cpufreq_of_match compatible = Some i
    end).
Proof.
  unfold apple_soc_cpufreq_find_cluster. eapply settles_ask; [done|].
  destruct (ans t GetSharing <? 0) eqn:E; [apply settles_ret; split; [simpl; lia|done]|].
  eapply settles_emit; [done|].
  destruct (apple_soc_cpufreq_of_match compatible) as [i|]; [|by apply settles_ret].
  eapply settles_ask; [done|]. by destruct (_ =? 0); apply settles_ret.
Qed.

Lemma exit_settles t :
  settled apple_soc_cpufreq_exit t [FreqTable; OppTable; Mapping; Priv] (λ _ o, o = []).
Proof.
  unfold apple_soc_cpufreq_exit. do 3 (eapply settles_emit; [done|]). by eapply settles_last.
Qed.
End resources.

(** ** Theorems *)

(** A request changes exactly the fields it means to: when the table entry is
    within the limits of the chip, the driver waits until the command register is
    not busy and writes it once, with the entry's performance state in the state
    field (and in the second one on the chips that have it), the request bit set and
    every other bit as it was read; if the register stays busy through every read it
    returns an I/O error and writes nothing. *)
Theorem cpufreq_set_target_exact ans compatible p budget index e t :
  apple_soc_cpufreq_of_match compatible = Some (info p) → freq_table p !! index = Some e →
  0 ≤ driver_data e ≤ max_pstate (info p) →
  (apple_soc_cpufreq_set_target ans budget p index t = (- EIO, t ++ replicate (S (S budget)) ReadCmd) ∧
   ∀ m, (m ≤ S budget)%nat → busy (nth_read ans t m) = true) ∨
  (∃ n w, (n ≤ S budget)%nat ∧
     apple_soc_cpufreq_set_target ans budget p index t = (0, t ++ replicate (S n) ReadCmd ++ [WriteCmd w]) ∧
     busy (nth_read ans t n) = false ∧ (∀ m, (m < n)%nat → busy (nth_read ans t m) = true) ∧
     ∀ k, 0 ≤ k < 64 → Z.testbit w k =
       (k =? 25) || (if in_ps2 (info p) k then Z.testbit (driver_data e) (k - 12)
                     else if in_ps1 (info p) k then Z.testbit (driver_data e) (k - ps1_shift (info p))
                     else Z.testbit (nth_read ans t n) k)).
Proof.
  intros Hm%match_layout He Hd. pose proof (lo_max _ Hm) as Hmax.
  unfold apple_soc_cpufreq_set_target. rewrite He. cbn [from_option].
  destruct (poll_cmd_spec ans budget t) as [(n & Hn & E & Hb & Hall)|[E Hall]]; [right|left];
    rewrite TR_bind_eq, E; cbn [fst snd]; [|by split].
  exists n, (command_word (info p) (driver_data e) (nth_read ans t n)). split; [done|].
  split; [rewrite TR_bind_eq; simpl; by rewrite <- app_assoc|]. split; [done|]. split; [done|].
  intros k Hk. apply command_word_bits; [done|lia|done].
Qed.

(** A device that is not busy, answers five times, and a table of two states. *)
Definition demo_cmd : Z := 0x2f00000000f3a5.
Definition demo_dvfs (t : list event) (e : event) : Z :=
  match e with
  | ReadCmd => if (length t <? 2)%nat then Z.lor demo_cmd (BIT 31) else demo_cmd
  | ReadStatus => 0x30
  | _ => 1
  end.
Definition demo_policy : policy :=
  Policy soc_t8103_info [Entry 600000 1; Entry 972000 3] 400000 true true 600000.


Lemma cpufreq_set_target_exact_witness :
  ∃ n w, apple_soc_cpufreq_set_target demo_dvfs 5 demo_policy 1 [] = (0, replicate n ReadCmd ++ [WriteCmd w]) ∧
    map (Z.testbit w) [0; 1; 2; 3; 4; 12; 13; 14; 15; 25; 53] =
    [true; true; false; false; false; true; true; false; false; true; true].
Proof.
  destruct (cpufreq_set_target_exact demo_dvfs "apple,t8103-cluster-cpufreq" demo_policy 5 1
              (Entry 972000 3) []) as [[H _]|(n & w & Hn & H & Hb & _ & Hw)];
    [done|done|done|by vm_compute in H|].
  exists (S n), w. split; [exact H|]. cbn [map]. rewrite !Hw by done.
  by destruct n as [|[|[|[|[|[|[|n]]]]]]]; [..|lia].
Defined.

(** A cluster that runs at the state it was last told to: after a write of the command
    register, the field of the register that reports the current state holds the
    state of the command. *)
Definition follows (ans : list event → event → Z) (i : apple_soc_cpufreq_info) : Prop :=
  ∀ t w,
    (cur_pstate_mask i ≠ 0 →
     Z.shiftr (Z.land (u32 (ans (t ++ [WriteCmd w]) ReadStatus)) (cur_pstate_mask i)) (cur_pstate_shift i) =
     Z.shiftr (Z.land w (ps1_mask i)) (ps1_shift i)) ∧
    (cur_pstate_mask i = 0 →
     Z.land (u64 (ans (t ++ [WriteCmd w]) ReadCmd)) (ps1_mask i) = Z.land w (ps1_mask i)).

(** The state field of the word is the state that was asked for. *)
Lemma command_word_ps1 i pstate reg :
  layout_ok i → 0 ≤ pstate < 2 ^ ps1_width i →
  Z.shiftr (Z.land (command_word i pstate reg) (ps1_mask i)) (ps1_shift i) = pstate.
Proof.
  intros Hi Hp. pose proof (lo_shift i Hi) as Hs. rewrite (lo_ps1 i Hi).
  assert (0 < ps1_width i ≤ 5 ∧ ps1_shift i + ps1_width i ≤ 25) as [Hw Hlt].
  { unfold ps1_width. destruct Hs as [-> | ->]; simpl; lia. }
  apply Z.bits_inj'. intros k Hk.
  rewrite Z.shiftr_spec, Z.land_spec, testbit_GENMASK by lia.
  destruct (Z.ltb_spec k (ps1_width i)) as [Hlt'|Hge].
  - rewrite command_word_bits by (done || lia).
    unfold in_ps2, in_ps1. replace (k + ps1_shift i - ps1_shift i) with k by lia.
    replace (k + ps1_shift i =? 25) with false by lia. cbn [orb].
    destruct (has_ps2 i && (12 <=? k + ps1_shift i) && (k + ps1_shift i <=? 15)) eqn:E.
    + exfalso. destruct Hs as [Es|Es]; rewrite Es in *; lia.
    + replace ((ps1_shift i <=? k + ps1_shift i) && (k + ps1_shift i <? ps1_shift i + ps1_width i)) with true by lia.
      replace ((ps1_shift i <=? k + ps1_shift i) && (k + ps1_shift i <=? ps1_shift i + ps1_width i - 1)) with true by lia.
      by rewrite andb_true_r.
  - replace (k + ps1_shift i <=? ps1_shift i + ps1_width i - 1) with false by lia.
    by rewrite !andb_false_r, (testbit_above (ps1_width i) pstate) by lia.
Qed.

Lemma find_entry_unique t e :
  NoDup (driver_data <$> t) → e ∈ t → frequency e ≠ CPUFREQ_ENTRY_INVALID →
  find_entry (driver_data e) t = Some e.
Proof.
  intros Hnd Hin Hv. unfold find_entry. induction t as [|x t IH]; [by apply not_elem_of_nil in Hin|].
  rewrite fmap_cons in Hnd. apply list.NoDup_cons in Hnd as [Hx Hnd]. cbn [List.find].
  apply elem_of_cons in Hin as [<- |Hin].
  - by rewrite Z.eqb_refl, (proj2 (Z.eqb_neq _ _) Hv).
  - assert ((driver_data x =? driver_data e) = false) as ->.
    { apply Z.eqb_neq. intros E. apply Hx. rewrite E. by apply list_elem_of_fmap_2. }
    rewrite andb_false_r. by apply IH.
Qed.

Lemma set_target_word ans p budget index e t t' :
  freq_table p !! index = Some e → apple_soc_cpufreq_set_target ans budget p index t = (0, t') →
  ∃ pre reg, t' = pre ++ [WriteCmd (command_word (info p) (driver_data e) reg)].
Proof.
  intros He. unfold apple_soc_cpufreq_set_target. rewrite He, TR_bind_eq. cbn [from_option].
  destruct (poll_cmd ans budget t) as [[reg|] t1]; cbn [fst snd]; [|done].
  rewrite TR_bind_eq. intros [= <-]. by exists t1, reg.
Qed.

(** Setting a frequency and reading it back agree: on a cluster that runs at the
    state it was last told to, with a table that gives every frequency a state of its
    own, within the limits of the chip, a request that succeeds is followed by a
    reading of exactly the frequency that was asked for, which is also what the fast
    switch reports. *)
Theorem cpufreq_set_get_roundtrip ans compatible p budget index e t t' :
  apple_soc_cpufreq_of_match compatible = Some (info p) → follows ans (info p) →
  NoDup (driver_data <$> freq_table p) → freq_table p !! index = Some e →
  frequency e ≠ CPUFREQ_ENTRY_INVALID → 0 ≤ driver_data e ≤ max_pstate (info p) →
  apple_soc_cpufreq_set_target ans budget p index t = (0, t') →
  (apple_soc_cpufreq_get_rate ans (Some p) t').1 = frequency e ∧
  apple_soc_cpufreq_fast_switch ans budget p index t = (frequency e, t').
Proof.
  intros Hm Hf Hnd He Hv Hd Hset. pose proof (match_layout _ _ Hm) as Hi.
  pose proof (lo_max _ Hi) as Hmax. split.
  2:{ unfold apple_soc_cpufreq_fast_switch. rewrite TR_bind_eq, Hset. simpl. by rewrite He. }
  destruct (set_target_word ans p budget index e t t' He Hset) as (pre & reg & ->).
  destruct (Hf pre (command_word (info p) (driver_data e) reg)) as [Hst Hcm].
  rewrite command_word_ps1 in Hst by (done || lia).
  assert (driver_data e < 2 ^ 32) as H32.
  { assert (2 ^ ps1_width (info p) ≤ 2 ^ 32); [|lia]. unfold ps1_width. by case_if. }
  unfold apple_soc_cpufreq_get_rate. rewrite TR_bind_eq, TR_ret_eq. cbn [fst].
  set (r := (_ : TR event Z)).
  assert ((r (pre ++ [WriteCmd (command_word (info p) (driver_data e) reg)])).1 = driver_data e) as ->.
  2:{ rewrite find_entry_unique; [done|done|by eapply list_elem_of_lookup_2|done]. }
  subst r. destruct (Z.eqb_spec (cur_pstate_mask (info p)) 0) as [E|E]; cbn [negb];
    rewrite TR_bind_eq, TR_ret_eq; cbn [fst snd ask].
  - destruct (lo_fallback _ Hi E) as [Em Es].
    rewrite <- Em. unfold FIELD_GET. rewrite (Hcm E), Em. change (bf_shf _) with 0.
    rewrite <- Em, <- Es, command_word_ps1 by (done || lia). apply u32_small. lia.
  - rewrite (Hst E). apply u32_small. lia.
Qed.

(** A cluster that obeys: it reports the state of the last command. *)
Definition last_command (t : list event) : Z :=
  fold_left (λ w e, match e with WriteCmd v => v | _ => w end) t 0.
Definition demo_cluster (i : apple_soc_cpufreq_info) (t : list event) (e : event) : Z :=
  match e with
  | ReadCmd => u32 (Z.land (last_command t) (Z.lnot (BIT 31)))
  | ReadStatus => Z.shiftl (Z.shiftr (Z.land (last_command t) (ps1_mask i)) (ps1_shift i)) (cur_pstate_shift i)
  | _ => 1
  end.

Lemma last_command_write t w : last_command (t ++ [WriteCmd w]) = w.
Proof. unfold last_command. by rewrite fold_left_app. Qed.

Lemma demo_cluster_follows : follows (demo_cluster soc_t8112_info) soc_t8112_info.
Proof.
  intros t w. split; [|done]. intros _. cbn [demo_cluster]. rewrite last_command_write.
  assert (Z.land w (ps1_mask soc_t8112_info) = w mod 2 ^ 5) as ->.
  { change (ps1_mask soc_t8112_info) with (Z.ones 5). apply Z.land_ones. lia. }
  change (ps1_shift soc_t8112_info) with 0. change (cur_pstate_shift soc_t8112_info) with 5.
  change (cur_pstate_mask soc_t8112_info) with (GENMASK 9 5). rewrite Z.shiftr_0_r.
  pose proof (Z.mod_pos_bound w (2 ^ 5)). set (v := w mod 2 ^ 5) in *.
  rewrite u32_small by (rewrite Z.shiftl_mul_pow2 by lia; lia).
  apply Z.bits_inj'. intros k Hk. rewrite Z.shiftr_spec, Z.land_spec, Z.shiftl_spec, testbit_GENMASK by lia.
  replace (k + 5 - 5) with k by lia. destruct (Z.ltb_spec k 5).
  - replace ((5 <=? k + 5) && (k + 5 <=? 9)) with true by lia. apply andb_true_r.
  - by rewrite (testbit_above 5 v) by lia.
Qed.

Lemma cpufreq_set_get_roundtrip_witness :
  let p := Policy soc_t8112_info [Entry 600000 1; Entry 2424000 17] 400000 true true 600000 in
  (apple_soc_cpufreq_get_rate (demo_cluster soc_t8112_info) (Some p)
     (apple_soc_cpufreq_set_target (demo_cluster soc_t8112_info) 3 p 1 []).2).1 = 2424000.
Proof.
  intros p.
  refine (proj1 (cpufreq_set_get_roundtrip (demo_cluster soc_t8112_info) "apple,t8112-cluster-cpufreq"
    p 3 1 (Entry 2424000 17) [] _ _ demo_cluster_follows _ _ _ _ _)); try done.
  refine (bool_decide_unpack (NoDup _) _). vm_compute. exact I.
Defined.

(** Setting up a policy is all or nothing.  On every error path the driver
    returns a negative error, installs no policy and has given back, in the opposite
    order, everything it had acquired (private data, node reference, register
    mapping, operating points, frequency table); on success it holds exactly the four
    that a policy needs, with no reference to a node or an operating point left over,
    the policy's table lists the frequencies of the operating points, its latency is
    not zero, and removing it later gives everything back. *)
Theorem cpufreq_init_all_or_nothing ans compatible freqs t :
  (∀ t, ans t InitTable ≤ 0) →
  settles (cstep ans) (apple_soc_cpufreq_init ans compatible freqs) t [] (λ r o,
    match r.2 with
    | None => r.1 < 0 ∧ o = []
    | Some p =>
        r.1 = 0 ∧ o = [FreqTable; OppTable; Mapping; Priv] ∧
        apple_soc_cpufreq_of_match compatible = Some (info p) ∧
        frequency <$> freq_table p = freqs ∧ 0 < transition_latency p ∧
        ∀ t', settles (cstep ans) apple_soc_cpufreq_exit t' o (λ _ o', o' = [])
    end).
Proof.
  intros Hneg. unfold apple_soc_cpufreq_init. eapply settles_ask; [done|].
  destruct (ans _ GetCpuDevice =? 0); [by apply settles_ret|]. eapply settles_ask; [done|].
  destruct (ans _ Kzalloc =? 0); [by apply settles_ret|].
  eapply settles_call; [apply find_cluster_settles|]. intros evs o' _.
  destruct (apple_soc_cpufreq_find_cluster _ _ _).1 as [ret [i|]]; cbn [fst snd].
  2:{ intros [Hr ->]. eapply settles_weaken; [apply out_settles|]. by intros ? ? [-> ->]. }
  intros (-> & -> & Hm). eapply settles_ask; [done|]. destruct (ans _ OppAddTable <? 0) eqn:E1.
  { eapply settles_weaken; [apply out_settles|]. intros ? ? [-> ->]. split; [simpl; lia|done]. }
  eapply settles_ask; [done|]. destruct (ans _ OppCount <=? 0).
  { eapply settles_weaken; [apply out_settles|]. by intros ? ? [-> ->]. }
  eapply settles_ask; [done|]. destruct (ans _ InitTable =? 0) eqn:E2; cbn [negb].
  2:{ eapply settles_weaken; [apply out_settles|]. intros ? ? [-> ->]. split; [|done].
      apply Z.eqb_neq in E2. simpl. match goal with |- ans ?t _ < 0 => specialize (Hneg t) end. lia. }
  eapply settles_call; [apply opp_levels_settles|]. intros evs' o' _ [-> Hl].
  destruct (opp_levels _ _ _).1 as [table|e].
  2:{ eapply settles_weaken; [apply out_settles|]. by intros ? ? [-> ->]. }
  eapply settles_ask; [done|]. apply settles_ret. cbn [fst snd info freq_table transition_latency].
  do 4 (split; [done|]). split; [|intros t'; apply exit_settles].
  match goal with |- 0 < (if u32 ?x =? 0 then _ else _) => pose proof (u32_range x); destruct (Z.eqb_spec (u32 x) 0) end;
    [done|lia].
Qed.

(** A kernel that grants everything: levels 1 and 2 for two frequencies. *)
Definition demo_kernel (t : list event) (e : event) : Z :=
  match e with
  | InitTable => 0
  | FindFloor rate => if rate <? 700000000 then 1 else 2
  | MaxLatency => 0
  | OppCount => 2
  | _ => 1
  end.

Lemma cpufreq_init_all_or_nothing_witness :
  ∃ evs p, apple_soc_cpufreq_init demo_kernel "apple,t8103-cluster-cpufreq" [600000; 972000] [] =
    ((0, Some p), evs) ∧
    ledger (cstep demo_kernel) [] evs [] = Some [FreqTable; OppTable; Mapping; Priv] ∧
    freq_table p = [Entry 600000 1; Entry 972000 2] ∧ transition_latency p = 400000.
Proof.
  destruct (cpufreq_init_all_or_nothing demo_kernel "apple,t8103-cluster-cpufreq" [600000; 972000] [])
    as (evs & o & He & Hl & H); [by intros t|].
  exists evs, (Policy soc_t8103_info [Entry 600000 1; Entry 972000 2] 400000 true true 600000).
  assert ((apple_soc_cpufreq_init demo_kernel "apple,t8103-cluster-cpufreq" [600000; 972000] []).1 =
    (0, Some (Policy soc_t8103_info [Entry 600000 1; Entry 972000 2] 400000 true true 600000))) as Hr by done.
  rewrite Hr in H. destruct H as (_ & -> & _). split; [|by split].
  rewrite (surjective_pairing (apple_soc_cpufreq_init _ _ _ _)). by rewrite He, Hr.
Defined.

(** ** Two findings *)

(** The index is clamped to the limit of the chip only after the state has been taken
    from the table: a table entry above the limit is written as it is, cut to
    whatever lies next to the field.  Here an entry of state 40 asks a chip whose
    largest state is 15 for it, and the request sets a bit outside the state field. *)
Lemma cpufreq_clamp_has_no_effect ans budget p index :
  apple_soc_cpufreq_set_target ans budget p index =
  (r ← poll_cmd ans budget;
   match r with
   | None => mret (- EIO)
   | Some reg =>
       emit (WriteCmd (command_word (info p) (from_option driver_data 0 (freq_table p !! index)) reg));;
       mret 0
   end).
Proof. done. Qed.

Example cpufreq_state_above_limit :
  let p := Policy soc_default_info [Entry 600000 40] 400000 true true 600000 in
  (apple_soc_cpufreq_set_target (λ _ _, 0) 3 p 0 []).2 = [ReadCmd; WriteCmd (Z.lor 40 (BIT 25))].
Proof. done. Qed.

(** The registers are mapped from a node whose reference has already been dropped. *)
Lemma cpufreq_node_used_after_put ans compatible t i :
  (apple_soc_cpufreq_find_cluster ans compatible t).1 = (0, Some i) →
  (apple_soc_cpufreq_find_cluster ans compatible t).2 = t ++ [GetSharing; NodePut; Iomap].
Proof.
  unfold apple_soc_cpufreq_find_cluster. rewrite TR_bind_eq. cbn [fst snd ask]. case_match; [done|].
  rewrite TR_bind_eq. cbn [fst snd emit]. case_match; [|done].
  rewrite TR_bind_eq. cbn [fst snd ask]. rewrite <- !app_assoc. by case_match.
Qed.
