(* ===== verification/Regcache.v ===== *)
(** * The register cache of regmap (drivers/base/regmap/regcache.c of the asahi snapshot)

    The table of register defaults, the life of a cache, and the synchronisation of
    the hardware with it.  The cache itself (an rbtree, a maple tree, an array) is
    reached through [struct regcache_ops], a record here; the kernel's sort and binary
    search, the access tests and the register writes of regmap.c are parameters.
    Accesses to the hardware, allocations and locks are events; their answers are an
    oracle on the history. *)

From Stdlib Require Import ZArith Lia Bool Sorting.Sorted.
From stdpp Require Import base numbers list option gmap sorting.
From S2P Require Import Prelude.
From S2P Require Import Ledger.

Local Open Scope list_scope.
Local Open Scope Z_scope.

Record reg_default := RegDefault { reg : Z; def : Z }.

Inductive regcache_type :=
| REGCACHE_NONE | REGCACHE_RBTREE | REGCACHE_FLAT | REGCACHE_MAPLE | REGCACHE_FLAT_S.
#[export] Instance regcache_type_eq_dec : EqDecision regcache_type.
Proof. solve_decision. Defined.
#[export] Instance reg_default_eq_dec : EqDecision reg_default.
Proof. solve_decision. Defined.

Record regmap_config := Config {
  c_reg_defaults : option (list reg_default);
  c_num_reg_defaults : Z;
  c_reg_defaults_raw : option (list Z);    (** bytes *)
  c_num_reg_defaults_raw : Z;
  c_val_bits : Z
}.

(** The modes of a map. *)
Record modes := Modes {
  cache_bypass : bool;
  cache_only : bool;
  cache_dirty : bool;
  no_sync_defaults : bool;
  async : bool
}.

(** What [regcache_init] sets up.  [reg_defaults] is the initialised part of the
    array, [num_reg_defaults] its size. *)
Record tables := Tables {
  reg_defaults : option (list reg_default);
  num_reg_defaults : Z;
  reg_defaults_raw : option (list Z);
  num_reg_defaults_raw : Z;
  cache_free : bool;
  cache_word_size : Z;
  cache_size_raw : Z;
  max_register : Z;
  max_register_is_set : bool;
  cache_ops : option nat                   (** index into [cache_types] *)
}.

Record regmap (C : Type) := Regmap {
  cache_type : regcache_type;
  reg_stride : Z;
  val_bytes : Z;
  patch : list reg_default;
  selectors : list Z;                      (** the selector registers of the ranges *)
  use_single_write : bool;
  can_raw_write : bool;                    (** [regmap_can_raw_write] *)
  reg_default_cb : bool;
  md : modes;
  tb : tables;
  cache : C
}.
Arguments Regmap {C} _ _ _ _ _ _ _ _ _ _ _.
Arguments cache_type {C} _.
Arguments reg_stride {C} _.
Arguments val_bytes {C} _.
Arguments patch {C} _.
Arguments selectors {C} _.
Arguments use_single_write {C} _.
Arguments can_raw_write {C} _.
Arguments reg_default_cb {C} _.
Arguments md {C} _.
Arguments tb {C} _.
Arguments cache {C} _.

Definition with_md {C} (f : modes → modes) (m : regmap C) : regmap C :=
  Regmap (cache_type m) (reg_stride m) (val_bytes m) (patch m) (selectors m) (use_single_write m)
    (can_raw_write m) (reg_default_cb m) (f (md m)) (tb m) (cache m).
Definition with_tb {C} (f : tables → tables) (m : regmap C) : regmap C :=
  Regmap (cache_type m) (reg_stride m) (val_bytes m) (patch m) (selectors m) (use_single_write m)
    (can_raw_write m) (reg_default_cb m) (md m) (f (tb m)) (cache m).
Definition with_cache {C} (c : C) (m : regmap C) : regmap C :=
  Regmap (cache_type m) (reg_stride m) (val_bytes m) (patch m) (selectors m) (use_single_write m)
    (can_raw_write m) (reg_default_cb m) (md m) (tb m) c.

Definition set_bypass (b : bool) (x : modes) : modes :=
  Modes b (cache_only x) (cache_dirty x) (no_sync_defaults x) (async x).
Definition set_only (b : bool) (x : modes) : modes :=
  Modes (cache_bypass x) b (cache_dirty x) (no_sync_defaults x) (async x).
Definition set_dirty (b : bool) (x : modes) : modes :=
  Modes (cache_bypass x) (cache_only x) b (no_sync_defaults x) (async x).
Definition set_no_sync (b : bool) (x : modes) : modes :=
  Modes (cache_bypass x) (cache_only x) (cache_dirty x) b (async x).
Definition set_async (b : bool) (x : modes) : modes :=
  Modes (cache_bypass x) (cache_only x) (cache_dirty x) (no_sync_defaults x) b.

Definition set_defaults (l : option (list reg_default)) (n : Z) (x : tables) : tables :=
  Tables l n (reg_defaults_raw x) (num_reg_defaults_raw x) (cache_free x)
    (cache_word_size x) (cache_size_raw x) (max_register x) (max_register_is_set x) (cache_ops x).
Definition set_raw (raw : option (list Z)) (free : bool) (x : tables) : tables :=
  Tables (reg_defaults x) (num_reg_defaults x) raw (num_reg_defaults_raw x) free
    (cache_word_size x) (cache_size_raw x) (max_register x) (max_register_is_set x) (cache_ops x).
Definition set_max (r : Z) (x : tables) : tables :=
  Tables (reg_defaults x) (num_reg_defaults x) (reg_defaults_raw x) (num_reg_defaults_raw x) (cache_free x)
    (cache_word_size x) (cache_size_raw x) r true (cache_ops x).

Inductive memory := DefaultsArray | RawBuffer.

Inductive event :=
| RegWrite (reg val : Z)               (** a write in bypass mode: the hardware only *)
| RawWrite (reg : Z) (data : list Z)   (** consecutive registers, in bypass mode *)
| RegRead (reg : Z)                    (** a read in bypass mode *)
| RawRead (reg len : Z)
| Kmalloc (m : memory) | Kfree (m : memory)
| CacheInit | CacheExit | Populate     (** calls of the cache's operations *)
| Lock | Unlock
| AsyncComplete
| Other (n : Z).                       (** an event of code that is a parameter *)

(** A run that cannot go on: [BUG()] or a call through a null pointer, an access
    behind an array, or a loop that has used up its fuel. *)
Inductive stop := Bug | OutOfBounds | Fuel.

Definition R (C A : Type) : Type := regmap C → TR event (result stop (A * regmap C)).

#[global] Instance R_ret C : MRet (R C) := λ A a m t, (Ok (a, m), t).
#[global] Instance R_bind C : MBind (R C) := λ A B k p m t,
  match p m t with
  | (Ok (a, m'), t') => k a m' t'
  | (Err e, t') => (Err e, t')
  end.

Definition get_map {C} : R C (regmap C) := λ m t, (Ok (m, m), t).
Definition upd {C} (f : regmap C → regmap C) : R C unit := λ m t, (Ok (tt, f m), t).
Definition crash {C A} (e : stop) : R C A := λ m t, (Err e, t).
Definition liftR {C A} (p : TR event A) : R C A := λ m t, let '(a, t') := p t in (Ok (a, m), t').
Definition of_result {C A} (r : result stop A) : R C A :=
  match r with Ok a => mret a | Err e => crash e end.

Definition non_null {A} (o : option A) : bool := match o with Some _ => true | None => false end.

(** [for (...) { ret = body; if (ret != 0) return ret; } return 0;] *)
Fixpoint loop {C} (body : Z → R C Z) (ks : list Z) : R C Z :=
  match ks with
  | [] => mret 0
  | k :: ks' => ret ← body k; if ret =? 0 then loop body ks' else mret ret
  end.

(** [struct regcache_ops]; a missing operation is a null pointer. *)
Record regcache_ops (C : Type) := Ops {
  op_type : regcache_type;
  op_name : bool;
  op_init : option (regmap C → C);
  op_exit : option (C → C);
  op_populate : option (regmap C → C);
  op_read : option (C → Z → Z * Z);
  op_write : option (C → Z → Z → Z * C);
  op_sync : option (Z → Z → R C Z);
  op_drop : option (C → Z → Z → Z * C)
}.
Arguments op_type {C} _.
Arguments op_name {C} _.
Arguments op_init {C} _.
Arguments op_exit {C} _.
Arguments op_populate {C} _.
Arguments op_read {C} _.
Arguments op_write {C} _.
Arguments op_sync {C} _.
Arguments op_drop {C} _.

(** The kernel's [sort] and [bsearch]; the access tests of regmap.c, which look at the
    highest register, when it is set. *)
Class ArrayLib := {
  sort : (reg_default → reg_default → Z) → list reg_default → list reg_default;
  bsearch : (reg_default → reg_default → Z) → reg_default → list reg_default → option nat
}.
Class Access := {
  readable : option Z → Z → bool;
  writeable : option Z → Z → bool;
  volatile : option Z → Z → bool
}.
(** The formatting functions of the bus, where it has them. *)
Class Format := {
  format_val : option (Z → list Z);
  parse_val : option (list Z → Z)
}.

Section regcache.
Context {C : Type} `{ArrayLib} `{Access} `{Format}.
Context (cache_null : C) (cache_types : list (regcache_ops C)).
(** The errors of hardware accesses, allocations and cache set-up; the values read. *)
Context (ans : list event → event → Z) (val_of : list event → Z → Z)
  (raw_of : list event → Z → list Z).
(** [_regmap_write] when the cache is not bypassed. *)
Context (write_through : Z → Z → R C Z).

Definition kern (e : event) : R C Z := liftR (ask ans e).
Definition note (e : event) : R C unit := liftR (emit e).
Definition bypass (b : bool) : R C unit := upd (with_md (set_bypass b)).

Definition limit (m : regmap C) : option Z :=
  if max_register_is_set (tb m) then Some (max_register (tb m)) else None.
Definition regmap_readable (m : regmap C) (r : Z) : bool := readable (limit m) r.
Definition regmap_writeable (m : regmap C) (r : Z) : bool := writeable (limit m) r.
Definition regmap_volatile (m : regmap C) (r : Z) : bool := volatile (limit m) r.

Definition _regmap_write (r v : Z) : R C Z :=
  m ← get_map;
  if cache_bypass (md m) then kern (RegWrite r v) else write_through r v.

(** [BUG_ON(!map->cache_ops)] and the operations. *)
Definition the_ops : R C (regcache_ops C) :=
  m ← get_map;
  match cache_ops (tb m) ≫= (λ i, cache_types !! i) with
  | Some ops => mret ops
  | None => crash Bug
  end.

(** ** The defaults *)

Definition regcache_defaults_cmp (x y : reg_default) : Z :=
  if reg x >? reg y then 1 else if reg x <? reg y then -1 else 0.

Definition regcache_sort_defaults (l : list reg_default) : list reg_default :=
  sort regcache_defaults_cmp l.

Definition cacheable (m : regmap C) (i : Z) : bool :=
  let r := u32 (i * reg_stride m) in regmap_readable m r && negb (regmap_volatile m r).

Definition regcache_count_cacheable_registers (m : regmap C) : Z :=
  Z.of_nat (length (List.filter (cacheable m) (seqZ 0 (num_reg_defaults_raw (tb m))))).

(** The position of a register's default, or an error. *)
Definition regcache_lookup_reg (m : regmap C) (r : Z) : Z :=
  match bsearch regcache_defaults_cmp (RegDefault r 0) (default [] (reg_defaults (tb m))) with
  | Some i => Z.of_nat i
  | None => - ENOENT
  end.

(** ** Values in a buffer *)

(** The [idx]th value of a buffer, and what follows it. *)
Definition regcache_get_val_addr (m : regmap C) (base : list Z) (idx : Z) : list Z :=
  drop (Z.to_nat (cache_word_size (tb m) * idx)) base.

Definition regcache_set_val (m : regmap C) (base : list Z) (idx val : Z) : result stop (list Z) :=
  let off := Z.to_nat (cache_word_size (tb m) * idx) in
  let store (bs : list Z) :=
    if (off + length bs <=? length base)%nat then Ok (take off base ++ bs ++ drop (off + length bs) base)
    else Err OutOfBounds in
  match format_val with
  | Some f => store (f val)
  | None =>
      if bool_decide (cache_word_size (tb m) = 1 ∨ cache_word_size (tb m) = 2 ∨ cache_word_size (tb m) = 4)
      then store (Z_to_little_endian (cache_word_size (tb m)) 8 val)
      else Err Bug
  end.

Definition regcache_get_val (m : regmap C) (base : option (list Z)) (idx : Z) : result stop Z :=
  match base with
  | None => Ok (u32 (- EINVAL))
  | Some base =>
      match parse_val with
      | Some f => Ok (f (regcache_get_val_addr m base idx))
      | None =>
          let w := cache_word_size (tb m) in
          if bool_decide (w = 1 ∨ w = 2 ∨ w = 4) then
            let bs := take (Z.to_nat w) (regcache_get_val_addr m base idx) in
            if (length bs =? Z.to_nat w)%nat then Ok (little_endian_to_Z 8 bs) else Err OutOfBounds
          else Err Bug
      end
  end.

(** ** Set-up *)

(** [map->reg_defaults[j++] = ...]: the array has [num_reg_defaults] elements. *)
Definition push_default (d : reg_default) : R C unit :=
  m ← get_map;
  let l := default [] (reg_defaults (tb m)) in
  if Z.of_nat (length l) <? num_reg_defaults (tb m)
  then upd (with_tb (set_defaults (Some (l ++ [d])) (num_reg_defaults (tb m))))
  else crash OutOfBounds.

(** A default from the hardware, read around the cache. *)
Definition read_back (r : Z) : R C (Z * Z) :=
  m ← get_map;
  let old := cache_bypass (md m) in
  bypass true;;
  ret ← kern (RegRead r);
  val ← (λ m t, (Ok (u32 (val_of t r), m), t));
  bypass old;;
  mret (ret, val).

Definition fill_default (i : Z) : R C Z :=
  m ← get_map;
  let r := u32 (i * reg_stride m) in
  if negb (regmap_readable m r) then mret 0
  else if regmap_volatile m r then mret 0
  else
    '(ret, val) ← (match reg_defaults_raw (tb m) with
                   | Some _ => v ← of_result (regcache_get_val m (reg_defaults_raw (tb m)) i); mret (0, v)
                   | None => read_back r
                   end);
    if negb (ret =? 0) then mret ret
    else push_default (RegDefault r val);; mret 0.

(** The raw defaults from the hardware.  A failed allocation returns with the bypass
    still set. *)
Definition read_raw : R C Z :=
  m ← get_map;
  match reg_defaults_raw (tb m) with
  | Some _ => mret 0
  | None =>
      let old := cache_bypass (md m) in
      bypass true;;
      buf ← kern (Kmalloc RawBuffer);
      if buf =? 0 then mret (- ENOMEM)
      else
        ret ← kern (RawRead 0 (cache_size_raw (tb m)));
        data ← (λ m t, (Ok (raw_of t (cache_size_raw (tb m)), m), t));
        bypass old;;
        if ret =? 0 then upd (with_tb (set_raw (Some data) true));; mret 0
        else note (Kfree RawBuffer);; mret 0
  end.

Definition regcache_hw_init : R C Z :=
  ret ← read_raw;
  if negb (ret =? 0) then mret ret
  else
    m ← get_map;
    loop fill_default (seqZ 0 (num_reg_defaults_raw (tb m))).

Definition regcache_hw_exit : R C unit :=
  m ← get_map;
  if cache_free (tb m) then note (Kfree RawBuffer) else mret tt.

(** [config->reg_defaults]: aligned, and whether they are out of order. *)
Fixpoint check_defaults (stride reg_prev : Z) (unsorted : bool) (l : list reg_default) : option bool :=
  match l with
  | [] => Some unsorted
  | d :: l' =>
      if negb (reg d mod stride =? 0) then None
      else check_defaults stride (reg d) (unsorted || (reg_prev >? reg d)) l'
  end.

Definition exit_cache (ops : regcache_ops C) : R C unit :=
  match op_exit ops with
  | Some f => note CacheExit;; upd (λ m, with_cache (f (cache m)) m)
  | None => mret tt
  end.

(** [kfree(map->reg_defaults)] *)
Definition free_defaults : R C unit :=
  m ← get_map;
  if non_null (reg_defaults (tb m)) then note (Kfree DefaultsArray) else mret tt.

Definition err_free_reg_defaults (ret : Z) : R C Z := free_defaults;; mret ret.
Definition err_exit (ops : regcache_ops C) (ret : Z) : R C Z :=
  exit_cache ops;; err_free_reg_defaults ret.
Definition err_free (ops : regcache_ops C) (ret : Z) : R C Z :=
  regcache_hw_exit;; err_exit ops ret.

(** The array of defaults: a copy of the configured ones, or room for those read
    back.  The result is an error, the number of defaults to read back, or [None]
    when nothing can be cached. *)
Definition init_defaults (config : regmap_config) (unsorted : bool) : R C (Z + option Z) :=
  m ← get_map;
  match c_reg_defaults config with
  | Some l =>
      buf ← kern (Kmalloc DefaultsArray);
      if buf =? 0 then mret (inl (- ENOMEM))
      else
        let l := if unsorted then regcache_sort_defaults l else l in
        upd (with_tb (set_defaults (Some l) (num_reg_defaults (tb m))));;
        mret (inr (Some 0))
  | None =>
      if num_reg_defaults_raw (tb m) =? 0 then mret (inr (Some 0))
      else
        let count := regcache_count_cacheable_registers m in
        (if count =? 0 then bypass true else mret tt);;
        m ← get_map;
        if cache_bypass (md m) then mret (inr None)
        else
          buf ← kern (Kmalloc DefaultsArray);
          if buf =? 0 then
            upd (with_tb (set_defaults None count));; mret (inl (- ENOMEM))
          else
            upd (with_tb (set_defaults (Some []) count));; mret (inr (Some count))
  end.

(** From the set-up of the cache on. *)
Definition init_cache (ops : regcache_ops C) (count : Z) : R C Z :=
  m ← get_map;
  (if negb (max_register_is_set (tb m)) && negb (num_reg_defaults_raw (tb m) =? 0)
   then upd (with_tb (set_max (u32 ((num_reg_defaults_raw (tb m) - 1) * reg_stride m))))
   else mret tt);;
  ret ← (match op_init ops with
         | Some f =>
             ret ← kern CacheInit;
             (if ret =? 0 then upd (λ m, with_cache (f m) m) else mret tt);; mret ret
         | None => mret 0
         end);
  if negb (ret =? 0) then err_free_reg_defaults ret
  else
    ret ← (if negb (count =? 0) then regcache_hw_init else mret 0);
    if negb (ret =? 0) then err_exit ops ret
    else
      m ← get_map;
      match op_populate ops with
      | Some f =>
          if negb (num_reg_defaults (tb m) =? 0) || reg_default_cb m then
            note Lock;;
            ret ← kern Populate;
            upd (λ m, with_cache (f m) m);;
            note Unlock;;
            if negb (ret =? 0) then err_free ops ret else mret 0
          else mret 0
      | None => mret 0
      end.

(** The index of the operations of a cache type. *)
Definition find_ops (type : regcache_type) : option nat :=
  fst <$> list_find (λ ops, op_type ops = type) cache_types.

Definition regcache_init (config : regmap_config) : R C Z :=
  m ← get_map;
  if decide (cache_type m = REGCACHE_NONE) then bypass true;; mret 0
  else if non_null (c_reg_defaults config) && (c_num_reg_defaults config =? 0) then mret (- EINVAL)
  else if negb (c_num_reg_defaults config =? 0) && negb (non_null (c_reg_defaults config)) then mret (- EINVAL)
  else
    match check_defaults (reg_stride m) 0 false
            (take (Z.to_nat (c_num_reg_defaults config)) (default [] (c_reg_defaults config))) with
    | None => mret (- EINVAL)
    | Some unsorted =>
        match find_ops (cache_type m) with
        | None => mret (- EINVAL)
        | Some i =>
            let word := DIV_ROUND_UP (c_val_bits config) 8 in
            upd (with_tb (λ x, Tables (reg_defaults x) (c_num_reg_defaults config) (c_reg_defaults_raw config)
                   (c_num_reg_defaults_raw config) (cache_free x) word
                   (u32 (word * c_num_reg_defaults_raw config)) (max_register x) (max_register_is_set x)
                   (Some i)));;
            upd (with_cache cache_null);;
            ops ← the_ops;
            if negb (non_null (op_read ops)) || negb (non_null (op_write ops)) || negb (op_name ops) then mret (- EINVAL)
            else
              r ← init_defaults config unsorted;
              match r with
              | inl e => mret e
              | inr None => mret 0
              | inr (Some count) => init_cache ops count
              end
        end
    end.

Definition regcache_exit : R C unit :=
  m ← get_map;
  if decide (cache_type m = REGCACHE_NONE) then mret tt
  else
    ops ← the_ops;
    regcache_hw_exit;;
    exit_cache ops;;
    free_defaults.

(** ** Access and synchronisation *)

(** The error and the value. *)
Definition regcache_read (r : Z) : R C (Z * Z) :=
  m ← get_map;
  if decide (cache_type m = REGCACHE_NONE) then mret (- EINVAL, 0)
  else
    ops ← the_ops;
    if regmap_volatile m r then mret (- EINVAL, 0)
    else match op_read ops with
         | Some f => mret (f (cache m) r)
         | None => crash Bug
         end.

Definition regcache_write (r v : Z) : R C Z :=
  m ← get_map;
  if decide (cache_type m = REGCACHE_NONE) then mret 0
  else
    ops ← the_ops;
    if regmap_volatile m r then mret 0
    else match op_write ops with
         | Some f => let '(ret, c) := f (cache m) r v in upd (with_cache c);; mret ret
         | None => crash Bug
         end.

Definition regcache_reg_needs_sync (m : regmap C) (r v : Z) : bool :=
  if negb (regmap_writeable m r) then false
  else if negb (no_sync_defaults (md m)) then true
  else
    let i := regcache_lookup_reg m r in
    negb ((0 <=? i) &&
          match default [] (reg_defaults (tb m)) !! Z.to_nat i with
          | Some d => v =? def d
          | None => false
          end).

(** One register of [regcache_default_sync]; [continue] is 0. *)
Definition default_sync_reg (r : Z) : R C Z :=
  m ← get_map;
  if regmap_volatile m r || negb (regmap_writeable m r) then mret 0
  else
    '(ret, v) ← regcache_read r;
    if ret =? - ENOENT then mret 0
    else if negb (ret =? 0) then mret ret
    else
      m ← get_map;
      if negb (regcache_reg_needs_sync m r v) then mret 0
      else
        bypass true;;
        ret ← _regmap_write r v;
        bypass false;;
        mret ret.

(** The loop over the registers; the register number wraps. *)
Fixpoint regcache_default_sync (fuel : nat) (r max : Z) : R C Z :=
  match fuel with
  | O => crash Fuel
  | S fuel' =>
      m ← get_map;
      if r <=? max then
        ret ← default_sync_reg r;
        if ret =? 0 then regcache_default_sync fuel' (u32 (r + reg_stride m)) max else mret ret
      else mret 0
  end.

(** [map->cache_ops->sync], or the default. *)
Definition sync_range (fuel : nat) (ops : regcache_ops C) (min max : Z) : R C Z :=
  match op_sync ops with
  | Some f => f min max
  | None => regcache_default_sync fuel min max
  end.

Fixpoint patch_loop (l : list reg_default) : R C Z :=
  match l with
  | [] => mret 0
  | d :: l' => ret ← _regmap_write (reg d) (def d); if ret =? 0 then patch_loop l' else mret ret
  end.

(** The selector registers of the ranges are written again; the result of the last
    write replaces the one before. *)
Fixpoint selector_loop (l : list Z) (ret : Z) : R C Z :=
  match l with
  | [] => mret ret
  | sel :: l' =>
      '(e, v) ← regcache_read sel;
      if negb (e =? 0) then selector_loop l' ret
      else
        ret ← _regmap_write sel v;
        if negb (ret =? 0) then mret ret else selector_loop l' ret
  end.

(** What [regcache_sync] does with a dirty cache, up to its label [out]. *)
Definition sync_dirty (fuel : nat) (ops : regcache_ops C) : R C Z :=
  m ← get_map;
  bypass true;;
  ret ← patch_loop (patch m);
  if negb (ret =? 0) then mret ret
  else
    bypass false;;
    ret ← sync_range fuel ops 0 (max_register (tb m));
    (if ret =? 0 then upd (with_md (set_dirty false)) else mret tt);;
    mret ret.

Definition regcache_sync (fuel : nat) : R C Z :=
  m ← get_map;
  if decide (cache_type m = REGCACHE_NONE) then mret (- EINVAL)
  else
    ops ← the_ops;
    note Lock;;
    let old := cache_bypass (md m) in
    ret ← (if cache_dirty (md m) then sync_dirty fuel ops else mret 0);
    bypass old;;
    upd (with_md (set_no_sync false));;
    ret ← selector_loop (selectors m) ret;
    note Unlock;;
    note AsyncComplete;;
    mret ret.

Definition regcache_sync_region (fuel : nat) (min max : Z) : R C Z :=
  m ← get_map;
  if decide (cache_type m = REGCACHE_NONE) then mret (- EINVAL)
  else
    ops ← the_ops;
    note Lock;;
    let old := cache_bypass (md m) in
    ret ← (if cache_dirty (md m) then
             upd (with_md (set_async true));; sync_range fuel ops min max
           else mret 0);
    bypass old;;
    upd (with_md (set_async false));;
    upd (with_md (set_no_sync false));;
    note Unlock;;
    note AsyncComplete;;
    mret ret.

Definition regcache_drop_region (min max : Z) : R C Z :=
  m ← get_map;
  let ops := cache_ops (tb m) ≫= (λ i, cache_types !! i) in
  match match ops with Some ops => op_drop ops | None => None end with
  | None => mret (- EINVAL)
  | Some f =>
      note Lock;;
      m ← get_map;
      let '(ret, c) := f (cache m) min max in
      upd (with_cache c);;
      note Unlock;;
      mret ret
  end.

Definition regcache_cache_only (enable : bool) : R C unit :=
  note Lock;; upd (with_md (set_only enable));; note Unlock.

Definition regcache_mark_dirty : R C unit :=
  note Lock;; upd (with_md (set_dirty true));; upd (with_md (set_no_sync true));; note Unlock.

Definition regcache_cache_bypass (enable : bool) : R C unit :=
  note Lock;; bypass enable;; note Unlock.

Definition regcache_reg_cached (r : Z) : R C bool :=
  note Lock;;
  '(ret, _) ← regcache_read r;
  note Unlock;;
  mret (ret =? 0).

(** ** Blocks *)

(** [cache_present] is the set of the bits that are set, or null. *)
Definition regcache_reg_present (cache_present : option (Z → bool)) (idx : Z) : bool :=
  match cache_present with None => true | Some p => p idx end.

Definition regcache_sync_val (r v : Z) : R C Z :=
  m ← get_map;
  if negb (regcache_reg_needs_sync m r v) then mret 0
  else
    bypass true;;
    ret ← _regmap_write r v;
    bypass false;;
    mret ret.

Definition block_reg (m : regmap C) (block_base i : Z) : Z := u32 (block_base + i * reg_stride m).

Definition sync_single (block : list Z) (present : option (Z → bool)) (block_base i : Z) : R C Z :=
  m ← get_map;
  let regtmp := block_reg m block_base i in
  if negb (regcache_reg_present present i) || negb (regmap_writeable m regtmp) then mret 0
  else
    v ← of_result (regcache_get_val m (Some block) i);
    regcache_sync_val regtmp v.

Definition regcache_sync_block_single (block : list Z) (present : option (Z → bool))
    (block_base start stop : Z) : R C Z :=
  loop (sync_single block present block_base) (seqZ start (stop - start)).

(** [data] is a pointer into the block, or null. *)
Definition regcache_sync_block_raw_flush (data : option (list Z)) (base cur : Z) : R C Z :=
  match data with
  | None => mret 0
  | Some data =>
      m ← get_map;
      let count := u32 (cur - base) / reg_stride m in
      bypass true;;
      ret ← kern (RawWrite base (take (Z.to_nat (count * val_bytes m)) data));
      bypass false;;
      mret ret
  end.

(** Whether register [i] of the block starts or continues a run. *)
Definition in_run (m : regmap C) (block : list Z) (present : option (Z → bool)) (block_base i : Z)
    : result stop bool :=
  let regtmp := block_reg m block_base i in
  if negb (regcache_reg_present present i) || negb (regmap_writeable m regtmp) then Ok false
  else match regcache_get_val m (Some block) i with
       | Ok v => Ok (regcache_reg_needs_sync m regtmp v)
       | Err e => Err e
       end.

Fixpoint raw_loop (block : list Z) (present : option (Z → bool)) (block_base : Z)
    (data : option (list Z)) (base regtmp : Z) (ks : list Z) : R C Z :=
  m ← get_map;
  match ks with
  | [] => regcache_sync_block_raw_flush data base (u32 (regtmp + reg_stride m))
  | i :: ks' =>
      let regtmp := block_reg m block_base i in
      go ← of_result (in_run m block present block_base i);
      if negb go then
        ret ← regcache_sync_block_raw_flush data base regtmp;
        if negb (ret =? 0) then mret ret
        else raw_loop block present block_base None base regtmp ks'
      else match data with
           | None => raw_loop block present block_base (Some (regcache_get_val_addr m block i)) regtmp regtmp ks'
           | Some _ => raw_loop block present block_base data base regtmp ks'
           end
  end.

Definition regcache_sync_block_raw (block : list Z) (present : option (Z → bool))
    (block_base start stop : Z) : R C Z :=
  raw_loop block present block_base None 0 0 (seqZ start (stop - start)).

Definition regcache_sync_block (block : list Z) (present : option (Z → bool))
    (block_base start stop : Z) : R C Z :=
  m ← get_map;
  if can_raw_write m && negb (use_single_write m)
  then regcache_sync_block_raw block present block_base start stop
  else regcache_sync_block_single block present block_base start stop.
End regcache.

(** ** Runs *)

Lemma R_bind_eq {C A B} (p : R C A) (k : A → R C B) m t :
  (p ≫= k) m t = match p m t with
                 | (Ok (a, m'), t') => k a m' t'
                 | (Err e, t') => (Err e, t')
                 end.
Proof. done. Qed.

Lemma R_ret_eq {C A} (a : A) (m : regmap C) t : (mret a : R C A) m t = (Ok (a, m), t).
Proof. done. Qed.

(** [p] ends normally, and its result, the map and the new events satisfy [post]. *)
Definition runs {C A} (p : R C A) (m : regmap C) (t : list event)
    (post : A → regmap C → list event → Prop) : Prop :=
  ∃ a m' evs, p m t = (Ok (a, m'), t ++ evs) ∧ post a m' evs.

Section runs.
Context {C : Type}.

Lemma runs_ret {A} (a : A) (m : regmap C) t (post : A → regmap C → list event → Prop) :
  post a m [] → runs (mret a) m t post.
Proof. intros Hp. exists a, m, []. by rewrite app_nil_r. Qed.

Lemma runs_bind {A B} (p : R C A) (k : A → R C B) m t mid post :
  runs p m t mid →
  (∀ a m' evs, mid a m' evs → runs (k a) m' (t ++ evs) (λ b m'' evs', post b m'' (evs ++ evs'))) →
  runs (p ≫= k) m t post.
Proof.
  intros (a & m' & evs & E & Hm) Hk. destruct (Hk a m' evs Hm) as (b & m'' & evs' & E' & Hp).
  exists b, m'', (evs ++ evs'). rewrite R_bind_eq, E, E', app_assoc. done.
Qed.

Lemma runs_pure {A B} (a : A) (k : A → R C B) m t post :
  runs (k a) m t post → runs (mret a ≫= k) m t post.
Proof. done. Qed.

Lemma runs_get {A} (k : regmap C → R C A) m t post : runs (k m) m t post → runs (get_map ≫= k) m t post.
Proof. intros (a & m' & evs & E & Hp). exists a, m', evs. by rewrite R_bind_eq. Qed.

Lemma runs_upd {A} f (k : unit → R C A) m t post : runs (k tt) (f m) t post → runs (upd f ≫= k) m t post.
Proof. intros (a & m' & evs & E & Hp). exists a, m', evs. by rewrite R_bind_eq. Qed.

Lemma runs_of_result {A B} (r : result stop A) (a : A) (k : A → R C B) m t post :
  r = Ok a → runs (k a) m t post → runs (of_result r ≫= k) m t post.
Proof. intros ->. intros (b & m' & evs & E & Hp). exists b, m', evs. by rewrite R_bind_eq. Qed.

Lemma runs_kern {A} ans e (k : Z → R C A) m t (post : A → regmap C → list event → Prop) :
  runs (k (ans t e)) m (t ++ [e]) (λ a m' evs, post a m' (e :: evs)) → runs (kern ans e ≫= k) m t post.
Proof.
  intros (a & m' & evs & E & Hp). exists a, m', (e :: evs). split; [|done].
  rewrite R_bind_eq. cbn. rewrite E, <- app_assoc. done.
Qed.

Lemma runs_note {A} e (k : unit → R C A) m t (post : A → regmap C → list event → Prop) :
  runs (k tt) m (t ++ [e]) (λ a m' evs, post a m' (e :: evs)) → runs (note e ≫= k) m t post.
Proof.
  intros (a & m' & evs & E & Hp). exists a, m', (e :: evs). split; [|done].
  rewrite R_bind_eq. cbn. rewrite E, <- app_assoc. done.
Qed.

Lemma runs_weaken {A} (p : R C A) m t (post post' : A → regmap C → list event → Prop) :
  runs p m t post → (∀ a m' evs, post a m' evs → post' a m' evs) → runs p m t post'.
Proof. intros (a & m' & evs & E & Hp) Hw. exists a, m', evs. auto. Qed.

Lemma runs_last {A} (p : R C A) m t post : runs (p ≫= mret) m t post → runs p m t post.
Proof.
  intros (a & m' & evs & E & Hp). exists a, m', evs. split; [|done].
  rewrite R_bind_eq in E. destruct (p m t) as [[[a' m'']|] t']; [|done]. by rewrite R_ret_eq in E.
Qed.
End runs.

(** [rstep] runs the next step of the computation in the goal. *)
Ltac rstep :=
  cbn [negb orb andb]; cbv beta zeta;
  lazymatch goal with
  | |- runs (mret _) _ _ _ => apply runs_ret
  | |- runs (mret _ ≫= _) _ _ _ => apply runs_pure
  | |- runs (get_map ≫= _) _ _ _ => apply runs_get
  | |- runs (upd _ ≫= _) _ _ _ => apply runs_upd
  | |- runs (bypass _ ≫= _) _ _ _ => apply runs_upd
  | |- runs (kern _ _ ≫= _) _ _ _ => apply runs_kern
  | |- runs (note _ ≫= _) _ _ _ => apply runs_note
  end; cbv beta zeta.

Lemma with_bypass {C} b (m : regmap C) :
  cache_bypass (md m) = b → with_md (set_bypass b) m = m.
Proof. intros <-. by destruct m as [? ? ? ? ? ? ? ? [] ? ?]. Qed.

Lemma with_bypass_twice {C} b b' (m : regmap C) :
  with_md (set_bypass b) (with_md (set_bypass b') m) = with_md (set_bypass b) m.
Proof. done. Qed.

(** A write around the cache. *)
Lemma bypassed_write {C} ans (write_through : Z → Z → R C Z) r v m t :
  runs (bypass true;; ret ← _regmap_write ans write_through r v; bypass false;; mret ret) m t
    (λ ret m' evs, ret = ans t (RegWrite r v) ∧ m' = with_md (set_bypass false) m ∧ evs = [RegWrite r v]).
Proof.
  rstep. eapply (runs_bind _ _ _ _ (λ ret m' evs,
    ret = ans t (RegWrite r v) ∧ m' = with_md (set_bypass true) m ∧ evs = [RegWrite r v])).
  { unfold _regmap_write. rstep. apply runs_last. cbn [md with_md set_bypass cache_bypass]. do 2 rstep. done. }
  intros ret m' evs (-> & -> & ->). rstep. by rstep.
Qed.

(** A value that lies in the buffer can be read. *)
Lemma get_val_total {C} `{Format} (m : regmap C) data k :
  cache_word_size (tb m) = 1 ∨ cache_word_size (tb m) = 2 ∨ cache_word_size (tb m) = 4 →
  0 ≤ k → cache_word_size (tb m) * (k + 1) ≤ Z.of_nat (length data) →
  ∃ v, regcache_get_val m (Some data) k = Ok v.
Proof.
  intros Hw Hk Hl. unfold regcache_get_val, regcache_get_val_addr. destruct parse_val; [by eexists|].
  rewrite bool_decide_true by done. rewrite length_take, length_drop.
  destruct (Nat.eqb_spec
    (Z.to_nat (cache_word_size (tb m)) `min` (length data - Z.to_nat (cache_word_size (tb m) * k)))
    (Z.to_nat (cache_word_size (tb m)))) as [|Hne]; [by eexists|]. lia.
Qed.

(** ** What a block writes *)

Section block.
Context {C : Type} `{ArrayLib} `{Access} `{Format}.
Context (ans : list event → event → Z) (write_through : Z → Z → R C Z).
Context (m : regmap C) (block : list Z) (present : option (Z → bool)) (block_base : Z).

Definition value (data : list Z) (k : Z) : Z :=
  match regcache_get_val m (Some data) k with Ok v => v | Err _ => 0 end.

(** The registers an event writes: a raw write covers consecutive registers, with the
    values of its buffer. *)
Definition hw_writes (e : event) : list (Z * Z) :=
  match e with
  | RegWrite r v => [(r, v)]
  | RawWrite base data =>
      (λ k, (u32 (base + k * reg_stride m), value data k)) <$>
        seqZ 0 (Z.of_nat (length data) / val_bytes m)
  | _ => []
  end.
Definition all_writes (evs : list event) : list (Z * Z) := evs ≫= hw_writes.

(** What register [i] of the block should be written with. *)
Definition wanted (i : Z) : option (Z * Z) :=
  let r := block_reg m block_base i in
  if regcache_reg_present present i && regmap_writeable m r &&
     regcache_reg_needs_sync m r (value block i)
  then Some (r, value block i) else None.

(** A block in the format of the map: [stop] values, whose registers do not wrap. *)
Record block_ok (stop : Z) : Prop := {
  bo_bypass : cache_bypass (md m) = false;
  bo_stride : 0 < reg_stride m;
  bo_base : 0 ≤ block_base;
  bo_wrap : block_base + stop * reg_stride m < 2 ^ 32;
  bo_word : val_bytes m = cache_word_size (tb m);
  bo_size : cache_word_size (tb m) = 1 ∨ cache_word_size (tb m) = 2 ∨ cache_word_size (tb m) = 4;
  bo_len : cache_word_size (tb m) * stop ≤ Z.of_nat (length block);
  bo_parse : ∀ f bs, parse_val = Some f → f bs = f (take (Z.to_nat (cache_word_size (tb m))) bs)
}.

Context (stop : Z) (Hok : block_ok stop).

Lemma block_reg_eq i : 0 ≤ i ≤ stop → block_reg m block_base i = block_base + i * reg_stride m.
Proof.
  intros Hi. destruct Hok. unfold block_reg. apply u32_small. split; [nia|].
  assert (i * reg_stride m ≤ stop * reg_stride m); [nia|lia].
Qed.

Lemma get_val_ok data k :
  0 ≤ k → cache_word_size (tb m) * (k + 1) ≤ Z.of_nat (length data) →
  regcache_get_val m (Some data) k = Ok (value data k).
Proof.
  intros Hk Hl. unfold value. destruct (get_val_total m data k (bo_size _ Hok) Hk Hl) as [v ->]. done.
Qed.

(** A value of a piece of the block is the value of the block. *)
Lemma value_piece j k count :
  0 ≤ j → 0 ≤ k < count → cache_word_size (tb m) * (j + count) ≤ Z.of_nat (length block) →
  value (take (Z.to_nat (count * cache_word_size (tb m))) (regcache_get_val_addr m block j)) k =
  value block (j + k).
Proof.
  intros Hj Hk Hl. destruct Hok as [_ _ _ _ _ Hw _ Hp]. unfold value, regcache_get_val, regcache_get_val_addr.
  set (w := cache_word_size (tb m)) in *.
  assert (take (Z.to_nat w) (drop (Z.to_nat (w * k)) (take (Z.to_nat (count * w)) (drop (Z.to_nat (w * j)) block))) =
    take (Z.to_nat w) (drop (Z.to_nat (w * (j + k))) block)) as E.
  { assert (w * k + w ≤ count * w) by nia. assert (0 ≤ w * k) by nia.
    rewrite skipn_firstn_comm, take_take, drop_drop. f_equal; [lia|]. f_equal. lia. }
  destruct parse_val as [f|] eqn:Ef.
  - rewrite (Hp f _ eq_refl), E, <- (Hp f _ eq_refl). done.
  - by rewrite E.
Qed.

Lemma wanted_in_run i :
  0 ≤ i < stop → in_run m block present block_base i =
    Ok (non_null (wanted i)).
Proof.
  intros Hi. unfold in_run, wanted. destruct (regcache_reg_present present i); [|done].
  destruct (regmap_writeable m _) eqn:Ew; [|done]. cbn [negb orb andb].
  rewrite get_val_ok by (destruct Hok; nia). by destruct (regcache_reg_needs_sync _ _ _).
Qed.

Lemma wanted_some i p : wanted i = Some p → p = (block_reg m block_base i, value block i).
Proof. unfold wanted. case_match; congruence. Qed.

(** Register by register. *)
Lemma sync_single_runs i t :
  0 ≤ i < stop →
  runs (sync_single ans write_through block present block_base i) m t (λ ret m' evs,
    m' = m ∧ all_writes evs = option_list (wanted i) ∧ (wanted i = None → ret = 0)).
Proof.
  intros Hi. unfold sync_single. rstep. unfold wanted.
  destruct (regcache_reg_present present i); [|by rstep].
  destruct (regmap_writeable m _) eqn:Ew; [|by rstep]. cbn [negb orb andb].
  eapply runs_of_result; [apply get_val_ok; destruct Hok; nia|].
  unfold regcache_sync_val. rstep.
  destruct (regcache_reg_needs_sync _ _ _); cbn [negb]; [|by rstep].
  eapply runs_weaken; [apply bypassed_write|]. intros ret m' evs (-> & -> & ->).
  by rewrite with_bypass by apply Hok.
Qed.

Lemma single_runs ks : ∀ t,
  Forall (λ i, 0 ≤ i < stop) ks →
  runs (loop (sync_single ans write_through block present block_base) ks) m t (λ ret m' evs,
    m' = m ∧ all_writes evs `prefix_of` omap wanted ks ∧ (ret = 0 → all_writes evs = omap wanted ks)).
Proof.
  induction ks as [|i ks IH]; intros t Hks; cbn [loop]; [by rstep|].
  apply List.Forall_cons_iff in Hks as [Hi Hks].
  eapply runs_bind; [by apply sync_single_runs|]. intros ret m' evs (-> & Hw & Hz).
  assert (omap wanted (i :: ks) = option_list (wanted i) ++ omap wanted ks) as -> by (cbn; by destruct (wanted i)).
  destruct (Z.eqb_spec ret 0) as [-> |Hne].
  - eapply runs_weaken; [by apply IH|]. intros ret' m' evs' (-> & Hp & He). split; [done|].
    unfold all_writes in *. rewrite bind_app, Hw. split; [by apply prefix_app|]. intros Hr. by rewrite He.
  - rstep. split; [done|]. rewrite app_nil_r, Hw. split; [by apply prefix_app_r|done].
Qed.

(** A flush writes the registers of the run. *)
Lemma flush_runs j i t :
  0 ≤ j ≤ i → i ≤ stop →
  runs (regcache_sync_block_raw_flush ans (Some (regcache_get_val_addr m block j))
          (block_reg m block_base j) (block_reg m block_base i)) m t (λ ret m' evs,
    m' = m ∧ all_writes evs = (λ k, (block_reg m block_base k, value block k)) <$> seqZ j (i - j)).
Proof.
  intros Hj Hi. unfold regcache_sync_block_raw_flush. rstep.
  assert (u32 (block_reg m block_base i - block_reg m block_base j) / reg_stride m = i - j) as ->.
  { rewrite !block_reg_eq by lia. destruct Hok as [_ Hs Hb Hw _ _ _ _].
    replace (block_base + i * reg_stride m - (block_base + j * reg_stride m)) with ((i - j) * reg_stride m) by lia.
    rewrite u32_small by nia. apply Z.div_mul. lia. }
  rstep. rstep. rstep. rewrite with_bypass_twice, with_bypass by apply Hok. rstep. split; [done|].
  unfold all_writes. cbn [mbind list_bind hw_writes app]. rewrite app_nil_r.
  rewrite (bo_word _ Hok). set (w := cache_word_size (tb m)).
  assert (0 < w) by (destruct Hok; lia).
  assert (Z.of_nat (length (take (Z.to_nat ((i - j) * w)) (regcache_get_val_addr m block j))) / w = i - j) as ->.
  { unfold regcache_get_val_addr. fold w. rewrite length_take, length_drop.
    assert (w * i ≤ Z.of_nat (length block)) by (destruct Hok as [_ _ _ _ _ _ Hl _]; subst w; nia).
    replace (Z.of_nat _) with ((i - j) * w) by nia. by apply Z.div_mul; lia. }
  apply list_eq. intros n. rewrite !list_lookup_fmap. destruct (decide (Z.of_nat n < i - j)) as [Hn|Hn].
  - rewrite !lookup_seqZ_lt by lia. cbn [fmap option_fmap option_map]. f_equal. f_equal.
    + rewrite !block_reg_eq by lia. destruct Hok. rewrite u32_small; nia.
    + rewrite value_piece; [done|lia|lia|]. destruct Hok as [_ _ _ _ _ _ Hl _]. subst w. nia.
  - by rewrite !lookup_seqZ_ge by lia.
Qed.

(** The run that is open before register [i]: where it starts, and what it will write. *)
Inductive pending : option (list Z) → Z → Z → Z → list (Z * Z) → Prop :=
| no_run base regtmp i : pending None base regtmp i []
| open_run j i :
    0 ≤ j < i →
    pending (Some (regcache_get_val_addr m block j)) (block_reg m block_base j)
      (block_reg m block_base (i - 1)) i
      ((λ k, (block_reg m block_base k, value block k)) <$> seqZ j (i - j)).

Lemma pending_flush data base regtmp i ps t :
  pending data base regtmp i ps → 0 ≤ i ≤ stop →
  runs (regcache_sync_block_raw_flush ans data base (block_reg m block_base i)) m t
    (λ ret m' evs, m' = m ∧ all_writes evs = ps ∧ (data = None → ret = 0)).
Proof.
  destruct 1 as [base regtmp i|j i Hj]; intros Hi; [by apply runs_ret|].
  eapply runs_weaken; [apply flush_runs; lia|]. intros ret m' evs [-> ->]. done.
Qed.

Lemma pending_more d base regtmp i ps :
  pending (Some d) base regtmp i ps →
  pending (Some d) base (block_reg m block_base i) (i + 1) (ps ++ [(block_reg m block_base i, value block i)]).
Proof.
  inversion 1 as [|j ? Hj]; subst.
  assert (seqZ j (i + 1 - j) = seqZ j (i - j) ++ [i]) as E.
  { replace (i + 1 - j) with (i - j + 1) by lia. rewrite seqZ_app by lia. f_equal.
    replace (j + (i - j)) with i by lia. done. }
  replace (block_reg m block_base i) with (block_reg m block_base (i + 1 - 1)) at 1 by (f_equal; lia).
  rewrite <- (fmap_app (λ k, (block_reg m block_base k, value block k)) _ [i]), <- E. apply open_run. lia.
Qed.

Lemma pending_new i :
  0 ≤ i → pending (Some (regcache_get_val_addr m block i)) (block_reg m block_base i)
            (block_reg m block_base i) (i + 1) [(block_reg m block_base i, value block i)].
Proof.
  intros Hi. pose proof (open_run i (i + 1) ltac:(lia)) as Hr.
  replace (i + 1 - 1) with i in Hr by lia. by replace (i + 1 - i) with 1 in Hr by lia.
Qed.

Lemma seqZ_step i n : seqZ i (Z.of_nat (S n)) = i :: seqZ (i + 1) (Z.of_nat n).
Proof. rewrite seqZ_cons by lia. f_equal. f_equal; lia. Qed.

Lemma omap_wanted_cons i ks : omap wanted (i :: ks) = option_list (wanted i) ++ omap wanted ks.
Proof. cbn. by destruct (wanted i). Qed.

Lemma raw_runs n : ∀ i t data base regtmp ps,
  pending data base regtmp i ps → 0 ≤ i → i + Z.of_nat n ≤ stop →
  runs (raw_loop ans block present block_base data base regtmp (seqZ i (Z.of_nat n))) m t (λ ret m' evs,
    m' = m ∧ all_writes evs `prefix_of` ps ++ omap wanted (seqZ i (Z.of_nat n)) ∧
    (ret = 0 → all_writes evs = ps ++ omap wanted (seqZ i (Z.of_nat n)))).
Proof.
  induction n as [|n IH]; intros i t data base regtmp ps Hp Hi Hn.
  - change (seqZ i (Z.of_nat 0)) with (@nil Z). cbn [raw_loop]. rstep. rewrite app_nil_r.
    assert (data = None ∨ u32 (regtmp + reg_stride m) = block_reg m block_base i) as [-> | ->].
    { destruct Hp as [|j i Hj]; [by left|right]. rewrite !block_reg_eq by lia.
      destruct Hok. rewrite u32_small; nia. }
    { inversion Hp; subst. by apply runs_ret. }
    eapply runs_weaken; [apply (pending_flush _ _ _ i _ _ Hp); lia|]. intros ret m' evs (-> & -> & _). done.
  - rewrite seqZ_step, omap_wanted_cons. cbn [raw_loop]. rstep.
    eapply runs_of_result; [apply wanted_in_run; lia|].
    destruct (wanted i) as [p|] eqn:Ew; cbn [non_null negb option_list app].
    + apply wanted_some in Ew as ->. destruct data as [d|].
      * eapply runs_weaken; [apply IH; [by apply (pending_more _ _ regtmp)|lia|lia]|].
        intros ret m' evs. by rewrite <- (app_assoc ps).
      * inversion Hp; subst. apply IH; [by apply pending_new|lia|lia].
    + eapply runs_bind; [apply (pending_flush _ _ _ i _ _ Hp); lia|]. intros ret m' evs (-> & Hw & _).
      destruct (Z.eqb_spec ret 0) as [-> |Hne]; cbn [negb].
      * eapply runs_weaken; [apply (IH _ _ _ _ _ []); [apply no_run|lia|lia]|].
        intros ret m' evs' (-> & Hpre & He). split; [done|]. unfold all_writes in *. rewrite bind_app, Hw.
        split; [by apply prefix_app|]. intros Hr. by rewrite He.
      * rstep. split; [done|]. rewrite app_nil_r, Hw. split; [by apply prefix_app_r|done].
Qed.
End block.

(** Writing a block of the cache back in bulk is equivalent to writing it register
    by register: whichever of the two ways the map allows, [regcache_sync_block]
    returns, leaves the map unchanged, and the registers it has written, in order and
    with their values, are a prefix of the registers of the block that are present,
    writable and differ from the default, and exactly those when it reports success.
    In particular a bulk write covers no register that the other way would skip. *)
Theorem regcache_sync_block_exact {C} `{ArrayLib} `{Access} `{Format} ans write_through
    (m : regmap C) block present block_base start stop t :
  block_ok m block block_base stop → 0 ≤ start ≤ stop →
  runs (regcache_sync_block ans write_through block present block_base start stop) m t (λ ret m' evs,
    m' = m ∧
    all_writes m evs `prefix_of` omap (wanted m block present block_base) (seqZ start (stop - start)) ∧
    (ret = 0 → all_writes m evs = omap (wanted m block present block_base) (seqZ start (stop - start)))).
Proof.
  intros Hok Hs. unfold regcache_sync_block. rstep. destruct (can_raw_write m && negb (use_single_write m)).
  - unfold regcache_sync_block_raw. rewrite <- (Z2Nat.id (stop - start)) by lia.
    apply (raw_runs ans m block present block_base stop Hok _ _ _ _ _ _ []); [apply no_run|lia|lia].
  - apply (single_runs ans write_through m block present block_base stop Hok).
    apply Forall_forall. intros i Hi%elem_of_seqZ. lia.
Qed.

(** ** The table of defaults *)

(** What the kernel documents of [sort] and [bsearch] for a comparison that is a total
    preorder: the sorted array is a permutation in order, and a search in an array
    that is in order finds an element equal to the key if there is one. *)
Definition ordered (cmp : reg_default → reg_default → Z) (l : list reg_default) : Prop :=
  StronglySorted (λ x y, cmp x y ≤ 0) l.

Record preorder_cmp (cmp : reg_default → reg_default → Z) : Prop := {
  pc_total x y : cmp x y ≤ 0 ∨ cmp y x ≤ 0;
  pc_trans x y z : cmp x y ≤ 0 → cmp y z ≤ 0 → cmp x z ≤ 0
}.

Class ArrayLibLaws `{ArrayLib} : Prop := {
  sort_perm cmp l : preorder_cmp cmp → sort cmp l ≡ₚ l;
  sort_ordered cmp l : preorder_cmp cmp → ordered cmp (sort cmp l);
  bsearch_found cmp k l i :
    preorder_cmp cmp → ordered cmp l → bsearch cmp k l = Some i → ∃ d, l !! i = Some d ∧ cmp k d = 0;
  bsearch_missing cmp k l d :
    preorder_cmp cmp → ordered cmp l → bsearch cmp k l = None → d ∈ l → cmp k d ≠ 0
}.

Lemma defaults_cmp_le x y : regcache_defaults_cmp x y ≤ 0 ↔ reg x ≤ reg y.
Proof. unfold regcache_defaults_cmp. destruct (Z.gtb_spec (reg x) (reg y)), (Z.ltb_spec (reg x) (reg y)); lia. Qed.

Lemma defaults_cmp_eq x y : regcache_defaults_cmp x y = 0 ↔ reg x = reg y.
Proof. unfold regcache_defaults_cmp. destruct (Z.gtb_spec (reg x) (reg y)), (Z.ltb_spec (reg x) (reg y)); lia. Qed.

Lemma defaults_cmp_preorder : preorder_cmp regcache_defaults_cmp.
Proof. split; intros *; rewrite !defaults_cmp_le; lia. Qed.

(** The scan accepts exactly aligned defaults, and notices when they are out of order. *)
Lemma check_defaults_spec stride l : ∀ prev unsorted b,
  check_defaults stride prev unsorted l = Some b →
  Forall (λ d, reg d mod stride = 0) l ∧
  (b = false → unsorted = false ∧ Forall (λ d, prev ≤ reg d) l ∧ ordered regcache_defaults_cmp l).
Proof.
  induction l as [|d l IH]; intros prev unsorted b Hc; cbn [check_defaults] in Hc.
  - simplify_eq. split; [done|]. intros ->. split; [done|]. split; [done|constructor].
  - destruct (Z.eqb_spec (reg d mod stride) 0) as [Ha|]; [|done].
    apply IH in Hc as [Hal Hs]. split; [by constructor|].
    intros [Hu [Hle Ho]]%Hs. apply orb_false_elim in Hu as [-> Hp].
    rewrite Z.gtb_ltb in Hp. apply Z.ltb_ge in Hp. split; [done|]. split.
    + constructor; [done|]. eapply Forall_impl; [exact Hle|]. simpl. lia.
    + constructor; [done|]. eapply Forall_impl; [exact Hle|]. simpl. intros x. apply defaults_cmp_le.
Qed.

Section lookup.
Context {C : Type} `{ArrayLibLaws}.

(** A look-up in an ordered table: the position of a default of the register, or an
    error when there is none. *)
Lemma lookup_reg_spec (m : regmap C) r :
  let table := default [] (reg_defaults (tb m)) in
  ordered regcache_defaults_cmp table →
  (∃ i d, regcache_lookup_reg m r = Z.of_nat i ∧ table !! i = Some d ∧ reg d = r) ∨
  (regcache_lookup_reg m r = - ENOENT ∧ ∀ d, d ∈ table → reg d ≠ r).
Proof.
  intros table Ho. unfold regcache_lookup_reg. fold table.
  destruct (bsearch _ _ _) as [i|] eqn:E; [left|right].
  - destruct (bsearch_found _ _ _ _ defaults_cmp_preorder Ho E) as (d & Hd & Hc).
    apply defaults_cmp_eq in Hc. by exists i, d.
  - split; [done|]. intros d Hd Hr.
    apply (bsearch_missing _ _ _ _ defaults_cmp_preorder Ho E Hd). by apply defaults_cmp_eq.
Qed.

(** A register needs no write only if its value is its default. *)
Lemma no_sync_default (m : regmap C) `{Access} r v :
  let table := default [] (reg_defaults (tb m)) in
  ordered regcache_defaults_cmp table → regmap_writeable m r = true →
  regcache_reg_needs_sync m r v = false →
  no_sync_defaults (md m) = true ∧ ∃ d, d ∈ table ∧ reg d = r ∧ def d = v.
Proof.
  intros table Ho Hw. unfold regcache_reg_needs_sync. fold table. rewrite Hw. cbn [negb].
  destruct (no_sync_defaults (md m)); [|done]. cbn [negb].
  destruct (lookup_reg_spec m r Ho) as [(i & d & -> & Hd & Hr)|[-> _]]; [|done].
  fold table in Hd. rewrite Nat2Z.id, Hd. intros [_ Hv%Z.eqb_eq]%negb_false_iff%andb_prop.
  split; [done|]. exists d. split; [by eapply list_elem_of_lookup_2|done].
Qed.
End lookup.

(** ** What a map holds *)

Inductive resource := DefaultsR | RawR | CacheR | LockR.
#[export] Instance resource_eq_dec : EqDecision resource.
Proof. solve_decision. Defined.

Definition rc_step (ans : list event → event → Z) (pre : list event) (e : event) (o : list resource)
    : option (list resource) :=
  match e with
  | Kmalloc DefaultsArray => Some (if ans pre e =? 0 then o else DefaultsR :: o)
  | Kmalloc RawBuffer => Some (if ans pre e =? 0 then o else RawR :: o)
  | CacheInit => Some (if ans pre e =? 0 then CacheR :: o else o)
  | Lock => Some (LockR :: o)
  | Kfree DefaultsArray => pop DefaultsR o
  | Kfree RawBuffer => pop RawR o
  | CacheExit => pop CacheR o
  | Unlock => pop LockR o
  | _ => Some o
  end.

Section owns.
Context {C : Type} (ans : list event → event → Z).

(** [p] ends normally, started with [o] held, and what it holds then is related to its
    result by [post]. *)
Definition owns {A} (p : R C A) (m : regmap C) (t : list event) (o : list resource)
    (post : A → regmap C → list resource → Prop) : Prop :=
  runs p m t (λ a m' evs, ∃ o', ledger (rc_step ans) t evs o = Some o' ∧ post a m' o').

Lemma owns_ret {A} (a : A) m t o (post : A → regmap C → list resource → Prop) :
  post a m o → owns (mret a) m t o post.
Proof. intros Hp. apply runs_ret. by exists o. Qed.

Lemma owns_pure {A B} (a : A) (k : A → R C B) m t o post :
  owns (k a) m t o post → owns (mret a ≫= k) m t o post.
Proof. done. Qed.

Lemma owns_bind {A B} (p : R C A) (k : A → R C B) m t o mid post :
  owns p m t o mid → (∀ a m' o' t', mid a m' o' → owns (k a) m' t' o' post) →
  owns (p ≫= k) m t o post.
Proof.
  intros Hp Hk. eapply runs_bind; [exact Hp|]. intros a m' evs (o' & Hl & Hm).
  eapply runs_weaken; [by apply (Hk a m' o')|]. intros b m'' evs' (o'' & Hl' & Hpost).
  exists o''. by rewrite ledger_app, Hl.
Qed.

Lemma owns_get {A} (k : regmap C → R C A) m t o post :
  owns (k m) m t o post → owns (get_map ≫= k) m t o post.
Proof. apply runs_get. Qed.

Lemma owns_upd {A} f (k : unit → R C A) m t o post :
  owns (k tt) (f m) t o post → owns (upd f ≫= k) m t o post.
Proof. apply runs_upd. Qed.

Lemma owns_of_result {A B} (r : result stop A) (a : A) (k : A → R C B) m t o post :
  r = Ok a → owns (k a) m t o post → owns (of_result r ≫= k) m t o post.
Proof. apply runs_of_result. Qed.

Lemma owns_kern {A} e (k : Z → R C A) m t o o' (post : A → regmap C → list resource → Prop) :
  rc_step ans t e o = Some o' → owns (k (ans t e)) m (t ++ [e]) o' post →
  owns (kern ans e ≫= k) m t o post.
Proof.
  intros Hs Hk. apply runs_kern. eapply runs_weaken; [exact Hk|].
  intros a m' evs (o'' & Hl & Hp). exists o''. split; [|done]. cbn [ledger]. by rewrite Hs.
Qed.

Lemma owns_note {A} e (k : unit → R C A) m t o o' (post : A → regmap C → list resource → Prop) :
  rc_step ans t e o = Some o' → owns (k tt) m (t ++ [e]) o' post → owns (note e ≫= k) m t o post.
Proof.
  intros Hs Hk. apply runs_note. eapply runs_weaken; [exact Hk|].
  intros a m' evs (o'' & Hl & Hp). exists o''. split; [|done]. cbn [ledger]. by rewrite Hs.
Qed.

Lemma owns_peek {A B} (f : regmap C → list event → A) (k : A → R C B) m t o post :
  owns (k (f m t)) m t o post → owns ((λ m t, (Ok (f m t, m), t)) ≫= k) m t o post.
Proof. intros (b & m' & evs & E & Hp). exists b, m', evs. by rewrite R_bind_eq. Qed.

Lemma owns_weaken {A} (p : R C A) m t o (post post' : A → regmap C → list resource → Prop) :
  owns p m t o post → (∀ a m' o', post a m' o' → post' a m' o') → owns p m t o post'.
Proof.
  intros Hp Hw. eapply runs_weaken; [exact Hp|]. intros a m' evs (o' & Hl & H). exists o'. auto.
Qed.

Lemma owns_last {A} (p : R C A) m t o post : owns (p ≫= mret) m t o post → owns p m t o post.
Proof. apply runs_last. Qed.
End owns.

(** [ostep] runs the next step of a computation whose holdings are followed. *)
Ltac ostep :=
  cbn [negb orb andb]; cbv beta zeta;
  lazymatch goal with
  | |- owns _ (mret _) _ _ _ _ => apply owns_ret
  | |- owns _ (mret _ ≫= _) _ _ _ _ => apply owns_pure
  | |- owns _ (get_map ≫= _) _ _ _ _ => apply owns_get
  | |- owns _ (upd _ ≫= _) _ _ _ _ => apply owns_upd
  | |- owns _ (bypass _ ≫= _) _ _ _ _ => apply owns_upd
  | |- owns _ (kern _ _ ≫= _) _ _ _ _ => eapply owns_kern; [reflexivity|]
  | |- owns _ (note _ ≫= _) _ _ _ _ => eapply owns_note; [reflexivity|]
  end; cbv beta zeta.

(** ** Set-up *)

Section init.
Context {C : Type} `{ArrayLibLaws} `{Access} `{Format}.
Context (cache_null : C) (cache_types : list (regcache_ops C)).
Context (ans : list event → event → Z) (val_of : list event → Z → Z) (raw_of : list event → Z → list Z).
Implicit Types m : regmap C.

(** The raw defaults, if there are any, are complete. *)
Definition raw_ok (m : regmap C) : Prop :=
  (cache_word_size (tb m) = 1 ∨ cache_word_size (tb m) = 2 ∨ cache_word_size (tb m) = 4) ∧
  ∀ bs, reg_defaults_raw (tb m) = Some bs →
    cache_word_size (tb m) * num_reg_defaults_raw (tb m) ≤ Z.of_nat (length bs).

Definition filled (l : list reg_default) (m : regmap C) : regmap C :=
  with_tb (set_defaults (Some l) (num_reg_defaults (tb m))) m.

Lemma read_back_owns r m t o :
  owns ans (read_back ans val_of r) m t o (λ rv m' o', m' = m ∧ o' = o).
Proof.
  unfold read_back. do 3 ostep. apply owns_peek. do 2 ostep. rewrite with_bypass_twice. by rewrite with_bypass.
Qed.

Lemma fill_default_owns i m t o l :
  reg_defaults (tb m) = Some l → raw_ok m → 0 ≤ i < num_reg_defaults_raw (tb m) →
  (cacheable m i = true → Z.of_nat (length l) < num_reg_defaults (tb m)) →
  owns ans (fill_default ans val_of i) m t o (λ ret m' o', o' = o ∧
    (reg_defaults_raw (tb m) ≠ None → ret = 0) ∧
    if (ret =? 0) && cacheable m i then ∃ v, m' = filled (l ++ [RegDefault (u32 (i * reg_stride m)) v]) m
    else m' = m).
Proof.
  intros El [Hw Hraw] Hi Hroom. unfold fill_default. ostep. unfold cacheable in *. cbv zeta in *.
  destruct (regmap_readable m _); [|by ostep]. destruct (regmap_volatile m _); [by ostep|].
  cbn [negb andb] in *. eapply (owns_bind _ _ _ _ _ _ (λ rv m' o', m' = m ∧ o' = o ∧
    (reg_defaults_raw (tb m) ≠ None → rv.1 = 0))).
  { destruct (reg_defaults_raw (tb m)) as [bs|] eqn:Er; 
      [|eapply owns_weaken; [apply read_back_owns|]; by intros rv m' o' [-> ->]].
    destruct (get_val_total m bs i Hw) as [v Hv]; [lia|specialize (Hraw bs eq_refl); nia|].
    eapply owns_of_result; [exact Hv|]. by ostep. }
  intros [ret v] m' o' t' (-> & -> & Hz). destruct (Z.eqb_spec ret 0) as [-> |Hne]; cbn [negb].
  - unfold push_default. eapply (owns_bind _ _ _ _ _ _ (λ _ m' o', o' = o ∧
      m' = filled (l ++ [RegDefault (u32 (i * reg_stride m)) v]) m)).
    { ostep. rewrite El. cbn [from_option id]. rewrite (proj2 (Z.ltb_lt _ _)) by auto.
      apply owns_last. ostep. by ostep. }
    intros [] m' o' t'' [-> ->]. ostep. do 2 (split; [done|]). by exists v.
  - ostep. do 2 (split; [done|]). rewrite (proj2 (Z.eqb_neq _ _) Hne). done.
Qed.

(** The loop fills the array with the cacheable registers, in ascending order. *)
Lemma fill_loop_owns ks : ∀ m t o l,
  reg_defaults (tb m) = Some l → raw_ok m → Forall (λ i, 0 ≤ i < num_reg_defaults_raw (tb m)) ks →
  Z.of_nat (length l + length (List.filter (cacheable m) ks)) ≤ num_reg_defaults (tb m) →
  owns ans (loop (fill_default ans val_of) ks) m t o (λ ret m' o', o' = o ∧
    (reg_defaults_raw (tb m) ≠ None → ret = 0) ∧
    ∃ new, m' = filled (l ++ new) m ∧
      (ret = 0 → reg <$> new = (λ i, u32 (i * reg_stride m)) <$> List.filter (cacheable m) ks)).
Proof.
  induction ks as [|i ks IH]; intros m t o l El Hraw Hks Hroom; cbn [loop].
  - ostep. do 2 (split; [done|]). exists []. rewrite app_nil_r. split; [|done].
    unfold filled. destruct m as [? ? ? ? ? ? ? ? ? [] ?]. cbn in El. by subst.
  - apply List.Forall_cons_iff in Hks as [Hi Hks]. cbn [List.filter] in *.
    eapply owns_bind; [apply (fill_default_owns i m t o l); [done|done|done|]|].
    { intros Hc. rewrite Hc in Hroom. cbn [length] in Hroom. lia. }
    intros ret m' o' t' (-> & Hz & Hm'). destruct (Z.eqb_spec ret 0) as [-> |Hne]; cbn [andb] in Hm'.
    + destruct (cacheable m i) eqn:Ec.
      * destruct Hm' as [v ->]. eapply owns_weaken; [apply (IH _ t' o (l ++ [RegDefault (u32 (i * reg_stride m)) v]))|];
          [done|exact Hraw|exact Hks| |].
        { rewrite length_app. cbn [length] in *. change (num_reg_defaults (tb (filled _ m))) with (num_reg_defaults (tb m)).
          change (cacheable (filled _ m)) with (cacheable m). lia. }
        intros ret m' o' (-> & Hz' & new & -> & Hn). do 2 (split; [done|]).
        exists (RegDefault (u32 (i * reg_stride m)) v :: new). split; [by rewrite <- app_assoc|].
        intros Hr. cbn. by rewrite (Hn Hr).
      * subst m'. by apply IH.
    + subst m'. ostep. do 2 (split; [done|]). exists []. rewrite app_nil_r. split; [|done].
      unfold filled. destruct m as [? ? ? ? ? ? ? ? ? [] ?]. cbn in El. by subst.
Qed.

Context (Hraw_of : ∀ t n, 0 ≤ n → Z.of_nat (length (raw_of t n)) = n).

Lemma read_raw_owns m t o :
  raw_ok m → 0 ≤ num_reg_defaults_raw (tb m) →
  cache_size_raw (tb m) = cache_word_size (tb m) * num_reg_defaults_raw (tb m) →
  owns ans (read_raw ans raw_of) m t o (λ ret m' o',
    (ret = 0 ∧ m' = m ∧ o' = o) ∨
    (ret = 0 ∧ o' = RawR :: o ∧ reg_defaults_raw (tb m) = None ∧
     ∃ data, m' = with_tb (set_raw (Some data) true) m ∧ raw_ok m') ∨
    (ret ≠ 0 ∧ m' = with_md (set_bypass true) m ∧ o' = o)).
Proof.
  intros [Hw Hraw] Hn Hsize. unfold read_raw. ostep.
  destruct (reg_defaults_raw (tb m)) eqn:Er; [ostep; by left|]. do 2 ostep.
  destruct (ans t (Kmalloc RawBuffer) =? 0); [ostep; by do 2 right|]. ostep.
  apply (owns_peek _ (λ m t, raw_of t (cache_size_raw (tb m)))). ostep.
  rewrite with_bypass_twice, (with_bypass (cache_bypass (md m)) m) by done.
  destruct (_ =? 0).
  - do 2 ostep. right. left. do 3 (split; [done|]). eexists. split; [done|]. split; [done|].
    intros bs [= <-]. change (cache_size_raw (tb (with_md _ m))) with (cache_size_raw (tb m)).
    change (cache_word_size (tb (with_tb (set_raw _ _) m))) with (cache_word_size (tb m)).
    change (num_reg_defaults_raw (tb (with_tb (set_raw _ _) m))) with (num_reg_defaults_raw (tb m)).
    rewrite Hraw_of; nia.
  - ostep. ostep. by left.
Qed.

Definition raw_stack (m : regmap C) : list resource := if cache_free (tb m) then [RawR] else [].
Definition defs_stack (m : regmap C) : list resource :=
  if non_null (reg_defaults (tb m)) then [DefaultsR] else [].
Definition cache_stack (ops : regcache_ops C) : list resource :=
  if non_null (op_init ops) then [CacheR] else [].

(** What the rest of the set-up relies on after the defaults have been read back:
    nothing is left over when it fails, and the raw buffer is kept when it was read. *)
Definition same_map (m m' : regmap C) : Prop :=
  cache_type m' = cache_type m ∧ cache_ops (tb m') = cache_ops (tb m) ∧
  num_reg_defaults (tb m') = num_reg_defaults (tb m).

Definition hw_init_post (m : regmap C) (o : list resource) (ret : Z) (m' : regmap C) (o' : list resource) : Prop :=
  same_map m m' ∧ o' = raw_stack m' ++ o ∧ (ret ≠ 0 → cache_free (tb m') = false) ∧
  ∃ new, reg_defaults (tb m') = Some new ∧
    (ret = 0 → reg <$> new = (λ i, u32 (i * reg_stride m)) <$>
       List.filter (cacheable m) (seqZ 0 (num_reg_defaults_raw (tb m)))).

Lemma hw_init_owns m t o :
  raw_ok m → 0 ≤ num_reg_defaults_raw (tb m) → cache_free (tb m) = false →
  cache_size_raw (tb m) = cache_word_size (tb m) * num_reg_defaults_raw (tb m) →
  reg_defaults (tb m) = Some [] →
  num_reg_defaults (tb m) = regcache_count_cacheable_registers m →
  owns ans (regcache_hw_init ans val_of raw_of) m t o (hw_init_post m o).
Proof.
  intros Hraw Hn Hf Hs El Hnum. unfold regcache_hw_init.
  eapply owns_bind; [by apply read_raw_owns|]. intros ret m1 o1 t1 Hm1.
  assert (Forall (λ i, 0 ≤ i < num_reg_defaults_raw (tb m)) (seqZ 0 (num_reg_defaults_raw (tb m)))) as Hks.
  { apply Forall_forall. intros i Hi%elem_of_seqZ. lia. }
  destruct Hm1 as [(-> & -> & ->)|[(-> & -> & Hnone & data & -> & Hraw1)|(Hr & -> & ->)]].
  - cbn [negb Z.eqb]. ostep. eapply owns_weaken; [eapply (fill_loop_owns _ m t1 o []); try done|].
    { unfold regcache_count_cacheable_registers in Hnum. simpl. lia. }
    intros ret m' o' (-> & _ & new & -> & Hnew). split; [done|]. unfold raw_stack. cbn [filled tb with_tb set_defaults cache_free reg_defaults].
    rewrite Hf. split; [done|]. split; [done|]. by exists new.
  - cbn [negb Z.eqb]. ostep. eapply owns_weaken;
      [eapply (fill_loop_owns _ (with_tb (set_raw (Some data) true) m) t1 (RawR :: o) []); try done|].
    { unfold regcache_count_cacheable_registers in Hnum. simpl.
      change (cacheable (with_tb _ m)) with (cacheable m). lia. }
    intros ret m' o' (-> & Hz & new & -> & Hnew). split; [done|]. split; [done|]. split; [|by exists new].
    intros Hr. by destruct (Hr (Hz ltac:(done))).
  - rewrite (proj2 (Z.eqb_neq _ _) Hr). ostep. split; [done|]. unfold raw_stack. cbn [tb with_md].
    rewrite Hf. split; [done|]. split; [done|]. exists []. split; [done|]. lia.
Qed.

(** The error labels give back what is held where they are entered. *)
Lemma free_defaults_owns m t :
  owns ans free_defaults m t (defs_stack m) (λ _ m' o', m' = m ∧ o' = []).
Proof.
  unfold free_defaults, defs_stack. ostep. destruct (non_null _); [|by ostep].
  apply owns_last. ostep. by ostep.
Qed.

Lemma err_free_reg_defaults_owns ret m t :
  owns ans (err_free_reg_defaults ret) m t (defs_stack m) (λ r _ o', r = ret ∧ o' = []).
Proof.
  eapply owns_bind; [apply free_defaults_owns|]. intros [] m' o' t' [-> ->]. by ostep.
Qed.

Lemma exit_cache_owns (ops : regcache_ops C) m t o :
  non_null (op_init ops) = non_null (op_exit ops) →
  owns ans (exit_cache ops) m t (cache_stack ops ++ o) (λ _ m' o',
    tb m' = tb m ∧ cache_type m' = cache_type m ∧ o' = o).
Proof.
  intros E. unfold cache_stack, exit_cache. rewrite E. destruct (op_exit ops); [|by ostep].
  ostep. apply owns_last. ostep. by ostep.
Qed.

Lemma err_exit_owns (ops : regcache_ops C) ret m t :
  non_null (op_init ops) = non_null (op_exit ops) →
  owns ans (err_exit ops ret) m t (cache_stack ops ++ defs_stack m) (λ r _ o', r = ret ∧ o' = []).
Proof.
  intros E. eapply owns_bind; [by apply exit_cache_owns|]. intros [] m' o' t' (Htb & _ & ->).
  unfold defs_stack. rewrite <- Htb. apply err_free_reg_defaults_owns.
Qed.

Lemma hw_exit_owns m t o :
  owns ans regcache_hw_exit m t (raw_stack m ++ o) (λ _ m' o', m' = m ∧ o' = o).
Proof.
  unfold regcache_hw_exit, raw_stack. ostep. destruct (cache_free (tb m)); [|by ostep].
  apply owns_last. ostep. by ostep.
Qed.

Lemma err_free_owns (ops : regcache_ops C) ret m t :
  non_null (op_init ops) = non_null (op_exit ops) →
  owns ans (err_free ops ret) m t (raw_stack m ++ cache_stack ops ++ defs_stack m) (λ r _ o', r = ret ∧ o' = []).
Proof.
  intros E. eapply owns_bind; [apply hw_exit_owns|]. intros [] m' o' t' [-> ->]. by apply err_exit_owns.
Qed.

Lemma the_ops_owns {A} (k : regcache_ops C → R C A) m t o post i ops :
  cache_ops (tb m) = Some i → cache_types !! i = Some ops →
  owns ans (k ops) m t o post → owns ans (the_ops cache_types ≫= k) m t o post.
Proof.
  intros Ei Eo (b & m' & evs & E & Hp). exists b, m', evs. split; [|done].
  rewrite R_bind_eq. unfold the_ops. rewrite R_bind_eq. cbn [get_map]. rewrite Ei. cbn. by rewrite Eo.
Qed.

(** Removal gives back what a map that is set up holds. *)
Lemma regcache_exit_owns m t i (ops : regcache_ops C) :
  cache_type m ≠ REGCACHE_NONE → cache_ops (tb m) = Some i → cache_types !! i = Some ops →
  non_null (op_init ops) = non_null (op_exit ops) →
  owns ans (regcache_exit cache_types) m t (raw_stack m ++ cache_stack ops ++ defs_stack m) (λ _ _ o', o' = []).
Proof.
  intros Ht Ei Eo Ep. unfold regcache_exit. ostep. rewrite decide_False by done.
  eapply the_ops_owns; [done|done|]. eapply owns_bind; [apply hw_exit_owns|]. intros [] m' o' t' [-> ->].
  eapply owns_bind; [by apply exit_cache_owns|]. intros [] m' o' t'' (Htb & _ & ->).
  unfold defs_stack. rewrite <- Htb. eapply owns_weaken; [apply free_defaults_owns|]. by intros ? ? ? [_ ->].
Qed.

(** The access tests only look at the highest register to refuse those above it. *)
Context (Hread : ∀ x r, r ≤ x → readable (Some x) r = readable None r).
Context (Hvol : ∀ x r, r ≤ x → volatile (Some x) r = volatile None r).

(** The registers that are read back. *)
Definition back_regs (m : regmap C) : list Z :=
  (λ i, u32 (i * reg_stride m)) <$> List.filter (cacheable m) (seqZ 0 (num_reg_defaults_raw (tb m))).

Record read_back_ok (m : regmap C) (count : Z) : Prop := {
  rb_raw : raw_ok m;
  rb_num : 0 ≤ num_reg_defaults_raw (tb m);
  rb_size : cache_size_raw (tb m) = cache_word_size (tb m) * num_reg_defaults_raw (tb m);
  rb_stride : 0 < reg_stride m;
  rb_wrap : num_reg_defaults_raw (tb m) * reg_stride m < 2 ^ 32;
  rb_defs : reg_defaults (tb m) = Some [];
  rb_count : num_reg_defaults (tb m) = count ∧ count = regcache_count_cacheable_registers m
}.

Definition limited (m : regmap C) : regmap C :=
  if negb (max_register_is_set (tb m)) && negb (num_reg_defaults_raw (tb m) =? 0)
  then with_tb (set_max (u32 ((num_reg_defaults_raw (tb m) - 1) * reg_stride m))) m else m.

Lemma limited_cacheable m count :
  read_back_ok m count →
  List.filter (cacheable (limited m)) (seqZ 0 (num_reg_defaults_raw (tb m))) =
  List.filter (cacheable m) (seqZ 0 (num_reg_defaults_raw (tb m))).
Proof.
  intros Hrb. apply List.filter_ext_in. intros i Hi%list_elem_of_In%elem_of_seqZ. unfold limited.
  destruct (max_register_is_set (tb m)) eqn:Em; [done|].
  destruct (Z.eqb_spec (num_reg_defaults_raw (tb m)) 0); [done|]. cbn [negb andb].
  unfold cacheable, regmap_readable, regmap_volatile, limit. cbn [tb with_tb set_max max_register_is_set max_register reg_stride].
  rewrite Em. destruct Hrb. rewrite Hread, Hvol; [done|rewrite !u32_small; nia..].
Qed.

Lemma limited_ok m count : read_back_ok m count → read_back_ok (limited m) count ∧ back_regs (limited m) = back_regs m.
Proof.
  intros Hrb. pose proof (limited_cacheable m count Hrb) as Hc.
  assert (num_reg_defaults_raw (tb (limited m)) = num_reg_defaults_raw (tb m) ∧ reg_stride (limited m) = reg_stride m)
    as [En Es] by (unfold limited; by case_match).
  split; [|unfold back_regs; by rewrite En, Es, Hc].
  destruct Hrb as [? ? ? ? ? ? [? Hcount]]. unfold regcache_count_cacheable_registers in *.
  split; [..|split]; try (unfold limited; by case_match).
  unfold regcache_count_cacheable_registers. by rewrite En, Hc.
Qed.

Definition init_cache_post (ops : regcache_ops C) (count : Z) (m : regmap C) (ret : Z) (m' : regmap C)
    (o' : list resource) : Prop :=
  if ret =? 0 then
    o' = raw_stack m' ++ cache_stack ops ++ defs_stack m' ∧ same_map m m' ∧
    (if count =? 0 then reg_defaults (tb m') = reg_defaults (tb m)
     else ∃ new, reg_defaults (tb m') = Some new ∧ reg <$> new = back_regs m)
  else o' = [].

(** The calls of the cache's own set-up. *)
Lemma op_init_owns (ops : regcache_ops C) m t o :
  owns ans (match op_init ops with
            | Some f => ret ← kern ans CacheInit;
                (if ret =? 0 then upd (λ m, with_cache (f m) m) else mret tt);; mret ret
            | None => mret 0
            end) m t o (λ ret m' o',
    (∃ c, m' = with_cache c m) ∧ o' = if ret =? 0 then cache_stack ops ++ o else o).
Proof.
  unfold cache_stack. destruct (op_init ops) as [f|].
  - ostep. destruct (ans t CacheInit =? 0) eqn:E; do 2 ostep; rewrite E; (split; [|done]).
    + by eexists.
    + exists (cache m). by destruct m.
  - ostep. split; [|done]. exists (cache m). by destruct m.
Qed.

Lemma populate_owns (ops : regcache_ops C) m t :
  non_null (op_init ops) = non_null (op_exit ops) →
  owns ans (match op_populate ops with
            | Some f =>
                if negb (num_reg_defaults (tb m) =? 0) || reg_default_cb m then
                  note Lock;; ret ← kern ans Populate; upd (λ m, with_cache (f m) m);; note Unlock;;
                  if negb (ret =? 0) then err_free ops ret else mret 0
                else mret 0
            | None => mret 0
            end) m t (raw_stack m ++ cache_stack ops ++ defs_stack m) (λ ret m' o',
    if ret =? 0 then (∃ c, m' = with_cache c m) ∧ o' = raw_stack m ++ cache_stack ops ++ defs_stack m
    else o' = []).
Proof.
  intros Ep. destruct (op_populate ops) as [f|].
  2:{ ostep. split; [|done]. exists (cache m). by destruct m. }
  destruct (_ || _).
  2:{ ostep. split; [|done]. exists (cache m). by destruct m. }
  do 4 ostep. destruct (Z.eqb_spec (ans (t ++ [Lock]) Populate) 0) as [|Hne]; cbn [negb].
  - ostep. split; [|done]. by eexists.
  - eapply owns_weaken; [apply (err_free_owns ops _ (with_cache (f m) m) _ Ep)|].
    intros ret m' o' [-> ->]. by rewrite (proj2 (Z.eqb_neq _ _) Hne).
Qed.

Lemma limited_upd {A} (k : unit → R C A) m t o post :
  owns ans (k tt) (limited m) t o post →
  owns ans ((if negb (max_register_is_set (tb m)) && negb (num_reg_defaults_raw (tb m) =? 0)
             then upd (with_tb (set_max (u32 ((num_reg_defaults_raw (tb m) - 1) * reg_stride m))))
             else mret tt) ≫= k) m t o post.
Proof. intros Hk. unfold limited in Hk. case_match; by ostep. Qed.

Lemma init_cache_owns (ops : regcache_ops C) count m t :
  non_null (op_init ops) = non_null (op_exit ops) → cache_free (tb m) = false →
  (count ≠ 0 → read_back_ok m count) →
  owns ans (init_cache ans val_of raw_of ops count) m t (defs_stack m) (init_cache_post ops count m).
Proof.
  intros Ep Hf Hrb. unfold init_cache. ostep. apply limited_upd.
  eapply owns_bind; [apply op_init_owns|]. intros ret m1 o1 t1 [[c ->] ->].
  assert (defs_stack m = defs_stack (limited m) ∧ cache_free (tb (limited m)) = false ∧ same_map m (limited m) ∧
    reg_defaults (tb (limited m)) = reg_defaults (tb m)) as (Hd & Hlf & Hs & Hr) by (unfold limited; by case_match).
  destruct (Z.eqb_spec ret 0) as [-> |Hne]; cbn [negb].
  2:{ rewrite Hd. eapply owns_weaken; [apply (err_free_reg_defaults_owns ret (with_cache c (limited m)))|].
      intros r m' o' [-> ->]. unfold init_cache_post. by rewrite (proj2 (Z.eqb_neq _ _) Hne). }
  eapply (owns_bind _ _ _ _ _ _ (λ ret m' o',
    same_map m m' ∧ o' = raw_stack m' ++ cache_stack ops ++ defs_stack m' ∧ (ret ≠ 0 → cache_free (tb m') = false) ∧
    (ret = 0 → if count =? 0 then reg_defaults (tb m') = reg_defaults (tb m)
       else ∃ new, reg_defaults (tb m') = Some new ∧ reg <$> new = back_regs m))).
  { destruct (Z.eqb_spec count 0) as [-> |Hc]; cbn [negb].
    - ostep. unfold raw_stack. cbn [tb with_cache]. rewrite Hlf, Hd. done.
    - destruct (limited_ok m count (Hrb Hc)) as [[? ? ? ? ? ? [Hnum Hcnt]] Hb].
      eapply owns_weaken; [apply (hw_init_owns (with_cache c (limited m))); try done; exact (eq_trans Hnum Hcnt)|].
      intros ret m' o' ((E1 & E2 & E3) & -> & Hfail & new & Hnew & Hregs). destruct Hs as (S1 & S2 & S3).
      split; [split; [|split]; etrans; [exact E1|exact S1|exact E2|exact S2|exact E3|exact S3]|].
      split; [|split; [done|]].
      + unfold defs_stack at 2. rewrite Hnew. unfold defs_stack. by rewrite (rb_defs _ _ (Hrb Hc)).
      + intros Hz. exists new. split; [done|]. rewrite (Hregs Hz). exact Hb. }
  intros ret m' o' t' (Hsame & -> & Hfail & Htab). destruct (Z.eqb_spec ret 0) as [-> |Hne]; cbn [negb].
  - ostep. eapply owns_weaken; [by apply populate_owns|]. intros ret m'' o'. unfold init_cache_post.
    destruct (ret =? 0); [|done]. intros [[c' ->] ->]. split; [done|]. split; [done|]. by apply Htab.
  - unfold raw_stack. rewrite (Hfail Hne). eapply owns_weaken; [by apply err_exit_owns|].
    intros r m'' o' [-> ->]. unfold init_cache_post. by rewrite (proj2 (Z.eqb_neq _ _) Hne).
Qed.

(** A configuration that describes its buffers correctly. *)
Record config_ok (m : regmap C) (config : regmap_config) : Prop := {
  co_stride : 0 < reg_stride m;
  co_num : ∀ l, c_reg_defaults config = Some l → c_num_reg_defaults config = Z.of_nat (length l);
  co_raw_num : 0 ≤ c_num_reg_defaults_raw config;
  co_wrap : c_num_reg_defaults_raw config * reg_stride m < 2 ^ 32;
  co_word : DIV_ROUND_UP (c_val_bits config) 8 = 1 ∨ DIV_ROUND_UP (c_val_bits config) 8 = 2 ∨
            DIV_ROUND_UP (c_val_bits config) 8 = 4;
  co_size : DIV_ROUND_UP (c_val_bits config) 8 * c_num_reg_defaults_raw config < 2 ^ 32;
  co_raw : ∀ bs, c_reg_defaults_raw config = Some bs →
    DIV_ROUND_UP (c_val_bits config) 8 * c_num_reg_defaults_raw config ≤ Z.of_nat (length bs)
}.

Lemma back_regs_ordered m new :
  0 < reg_stride m → num_reg_defaults_raw (tb m) * reg_stride m < 2 ^ 32 →
  reg <$> new = back_regs m → ordered regcache_defaults_cmp new.
Proof.
  intros Hs Hw Hn. unfold back_regs in Hn.
  assert (StronglySorted Z.le (reg <$> new)) as Hsort.
  { rewrite Hn. clear Hn.
    assert (∀ k n, 0 ≤ k → k + n ≤ num_reg_defaults_raw (tb m) →
      StronglySorted Z.le ((λ i, u32 (i * reg_stride m)) <$> List.filter (cacheable m) (seqZ k n))) as Hgen.
    2:{ destruct (decide (0 ≤ num_reg_defaults_raw (tb m))) as [|Hneg]; [by apply Hgen|].
        rewrite seqZ_nil by lia. constructor. }
    intros k n Hk. destruct (decide (0 ≤ n)) as [Hn|]; [|rewrite seqZ_nil by lia; constructor].
    revert k Hk. pattern n. apply natlike_ind; [intros; constructor| |done]. clear n Hn. intros n Hn IH k Hk Hle.
    rewrite seqZ_cons by lia. cbn [List.filter]. replace (Z.pred (Z.succ n)) with n by lia.
    destruct (cacheable m k); [|apply IH; lia]. rewrite fmap_cons. constructor; [apply IH; lia|].
    apply Forall_forall. intros r (i & -> & Hi%list_elem_of_In%List.filter_In)%list_elem_of_fmap.
    destruct Hi as [Hi%list_elem_of_In%elem_of_seqZ _]. rewrite !u32_small; nia. }
  clear Hn. revert Hsort. induction new as [|d new IH]; cbn [fmap list_fmap]; intros Hsort; [constructor|].
  inversion Hsort as [|? ? Hsort' Hall]; subst. constructor; [by apply IH|].
  apply Forall_forall. intros x Hx. apply defaults_cmp_le. rewrite Forall_forall in Hall.
  by apply Hall, list_elem_of_fmap_2.
Qed.

(** A map that is set up: its table is in order, comes from the configuration or lists
    the registers that were read back, and its removal gives everything back. *)
Definition set_up (config : regmap_config) (m m' : regmap C) (o : list resource) : Prop :=
  let table := default [] (reg_defaults (tb m')) in
  ordered regcache_defaults_cmp table ∧
  (∀ l, c_reg_defaults config = Some l → table ≡ₚ l ∧ Forall (λ d, reg d mod reg_stride m = 0) l) ∧
  (∀ t', owns ans (regcache_exit cache_types) m' t' o (λ _ _ o', o' = [])).

(** What the set-up of the cache starts from. *)
Record prepared (config : regmap_config) (m m1 : regmap C) (count : Z) : Prop := {
  pr_type : cache_type m1 = cache_type m;
  pr_ops : cache_ops (tb m1) = cache_ops (tb m);
  pr_free : cache_free (tb m1) = false;
  pr_back : count ≠ 0 → read_back_ok m1 count;
  pr_ordered : count = 0 → ordered regcache_defaults_cmp (default [] (reg_defaults (tb m1)));
  pr_config : ∀ l, c_reg_defaults config = Some l →
    count = 0 ∧ default [] (reg_defaults (tb m1)) ≡ₚ l ∧ Forall (λ d, reg d mod reg_stride m = 0) l
}.

Lemma init_cache_set_up config m m1 count t i (ops : regcache_ops C) :
  prepared config m m1 count → cache_type m ≠ REGCACHE_NONE →
  cache_ops (tb m) = Some i → cache_types !! i = Some ops →
  non_null (op_init ops) = non_null (op_exit ops) →
  owns ans (init_cache ans val_of raw_of ops count) m1 t (defs_stack m1) (λ ret m' o,
    if ret =? 0 then set_up config m m' o else o = []).
Proof.
  intros [Et Eops Ef Hrb Hord Hperm] Ht Ei Eo Ep.
  eapply owns_weaken; [by apply init_cache_owns|]. intros ret m' o. unfold init_cache_post.
  destruct (ret =? 0); [|done]. intros (-> & (Et' & Eo' & _) & Htab). split; [|split].
  - destruct (Z.eqb_spec count 0) as [E|E]; [rewrite Htab; by apply Hord|].
    destruct Htab as (new & -> & Hnew). destruct (Hrb E). by eapply back_regs_ordered.
  - intros l Hcl. destruct (Hperm l Hcl) as (-> & Hp & Ha). cbn in Htab. by rewrite Htab.
  - intros t'. eapply regcache_exit_owns; [by rewrite Et', Et|by rewrite Eo', Eops|done|done].
Qed.

(** The fields that [regcache_init] copies from the configuration. *)
Record copied (config : regmap_config) (m : regmap C) : Prop := {
  cp_defs : reg_defaults (tb m) = None;
  cp_free : cache_free (tb m) = false;
  cp_num : num_reg_defaults_raw (tb m) = c_num_reg_defaults_raw config;
  cp_raw : reg_defaults_raw (tb m) = c_reg_defaults_raw config;
  cp_word : cache_word_size (tb m) = DIV_ROUND_UP (c_val_bits config) 8;
  cp_size : cache_size_raw (tb m) = u32 (DIV_ROUND_UP (c_val_bits config) 8 * c_num_reg_defaults_raw config)
}.

Lemma copied_read_back config m count :
  config_ok m config → copied config m → count = regcache_count_cacheable_registers m →
  read_back_ok (with_tb (set_defaults (Some []) count) m) count.
Proof.
  intros [] [] ->. split; try done; cbn [tb with_tb set_defaults num_reg_defaults_raw cache_size_raw cache_word_size reg_stride].
  - split; cbn [tb with_tb set_defaults cache_word_size reg_defaults_raw num_reg_defaults_raw];
      rewrite cp_word0; [done|]. rewrite cp_raw0, cp_num0. done.
  - by rewrite cp_num0.
  - rewrite cp_size0, cp_word0, cp_num0. apply u32_small. lia.
  - by rewrite cp_num0.
Qed.

Lemma init_defaults_owns config unsorted m t :
  config_ok m config → copied config m →
  (∀ l, c_reg_defaults config = Some l → Forall (λ d, reg d mod reg_stride m = 0) l ∧
     (unsorted = false → ordered regcache_defaults_cmp l)) →
  owns ans (init_defaults ans config unsorted) m t [] (λ r m1 o,
    match r with
    | inl e => e ≠ 0 ∧ o = []
    | inr None => o = [] ∧ cache_bypass (md m1) = true
    | inr (Some count) => o = defs_stack m1 ∧ prepared config m m1 count
    end).
Proof.
  intros Hc Hcp Hl. pose proof (cp_free _ _ Hcp) as Hf. unfold init_defaults. ostep.
  destruct (c_reg_defaults config) as [l|] eqn:El.
  - ostep. destruct (ans t (Kmalloc DefaultsArray) =? 0); [by ostep|]. do 2 ostep. split; [done|].
    destruct (Hl l eq_refl) as [Ha Ho]. split; try done.
    + intros _. cbn. destruct unsorted; [apply sort_ordered, defaults_cmp_preorder|by apply Ho].
    + intros l' Hl'. rewrite El in Hl'. injection Hl' as <-. split; [done|]. split; [|done]. cbn.
      destruct unsorted; [apply sort_perm, defaults_cmp_preorder|done].
  - assert (∀ m1 count, cache_type m1 = cache_type m → cache_ops (tb m1) = cache_ops (tb m) →
      cache_free (tb m1) = false → (count ≠ 0 → read_back_ok m1 count) → (count = 0 → reg_defaults (tb m1) = None) →
      prepared config m m1 count) as Hprep.
    { intros m1 count Et Eo Ef Hb Hz. split; try done; [|by rewrite El].
      intros E. rewrite (Hz E). constructor. }
    destruct (num_reg_defaults_raw (tb m) =? 0).
    { ostep. unfold defs_stack. rewrite (cp_defs _ _ Hcp). split; [done|]. apply Hprep; try done. intros _. apply Hcp. }
    destruct (Z.eqb_spec (regcache_count_cacheable_registers m) 0) as [Ez|Ez].
    { do 2 ostep. cbn [md with_md set_bypass cache_bypass]. by ostep. }
    do 2 ostep. destruct (cache_bypass (md m)) eqn:Eb; [by ostep|]. ostep.
    destruct (ans t (Kmalloc DefaultsArray) =? 0); do 2 ostep; [done|]. split; [done|].
    apply Hprep; try done. intros _. by apply (copied_read_back config).
Qed.

(** Setting up a register cache is all or nothing, and its table of defaults can
    be searched.  For a consistent configuration [regcache_init] returns without
    touching memory outside its arrays; on every error it has given back everything it
    had allocated; on success either no register can be cached, nothing is held and
    the map bypasses the cache, or the table is in order (a permutation of the
    configured defaults, sorted if they were not), so that [regcache_lookup_reg] finds
    exactly the registers that have a default, and removing the map later gives back
    the table, the raw values and the cache. *)
Theorem regcache_init_correct m t config :
  cache_type m ≠ REGCACHE_NONE → config_ok m config →
  reg_defaults (tb m) = None → cache_free (tb m) = false →
  Forall (λ ops, non_null (op_init ops) = non_null (op_exit ops)) cache_types →
  owns ans (regcache_init cache_null cache_types ans val_of raw_of config) m t [] (λ ret m' o,
    if ret =? 0 then
      (o = [] ∧ cache_bypass (md m') = true) ∨
      (set_up config m m' o ∧
       ∀ r, let table := default [] (reg_defaults (tb m')) in
         (∃ i d, regcache_lookup_reg m' r = Z.of_nat i ∧ table !! i = Some d ∧ reg d = r) ∨
         (regcache_lookup_reg m' r = - ENOENT ∧ ∀ d, d ∈ table → reg d ≠ r))
    else o = []).
Proof.
  intros Ht Hc Hd Hf Hpair. unfold regcache_init. ostep. rewrite decide_False by done.
  destruct (_ && _); [by ostep|]. destruct (negb _ && _); [by ostep|].
  destruct (check_defaults _ _ _ _) as [unsorted|] eqn:Ec; [|by ostep].
  apply check_defaults_spec in Ec as [Hal Hun].
  destruct (find_ops cache_types (cache_type m)) as [i|] eqn:Ei; [|by ostep].
  apply fmap_Some in Ei as ([i' ops] & (Eo & _ & _)%list_find_Some & ->).
  pose proof (proj1 (Forall_lookup _ _) Hpair _ _ Eo) as Ep. cbn [fst] in *. do 2 ostep.
  eapply the_ops_owns; [done|exact Eo|]. destruct (_ || _); [by ostep|].
  set (m0 := with_cache _ _). eapply owns_bind.
  { apply (init_defaults_owns config unsorted m0); [by destruct Hc|by split|].
    intros l El. rewrite El, (co_num _ _ Hc l El), Nat2Z.id in *. cbn [from_option id] in *.
    rewrite take_ge in * by done. split; [done|]. intros Hu. by apply Hun. }
  intros [e|[count|]] m1 o1 t1 Hmid; [ostep; destruct Hmid as [He ->]; by rewrite (proj2 (Z.eqb_neq _ _) He)| |].
  - destruct Hmid as [-> Hprep]. eapply owns_weaken; [by eapply init_cache_set_up|].
    intros ret m' o. cbv beta. destruct (ret =? 0); [|done]. intros Hup. right. split; [exact Hup|].
    intros r. apply lookup_reg_spec, Hup.
  - ostep. by left.
Qed.
End init.

(** ** Synchronisation *)

(** The registers of the device after a history. *)
Definition hw_step (hw : Z → Z) (e : event) : Z → Z :=
  match e with RegWrite r v => λ x, if x =? r then v else hw x | _ => hw end.
Definition hw_after (hw : Z → Z) (evs : list event) : Z → Z := fold_left hw_step evs hw.

Lemma hw_after_app hw evs evs' : hw_after hw (evs ++ evs') = hw_after (hw_after hw evs) evs'.
Proof. apply fold_left_app. Qed.

(** A register holds what all the writes of it say, or what it held. *)
Lemma hw_after_value evs r v : ∀ hw,
  (∀ w, RegWrite r w ∈ evs → w = v) →
  RegWrite r v ∈ evs ∨ hw r = v → hw_after hw evs r = v.
Proof.
  induction evs as [|e evs IH]; intros hw Hall Hor; cbn [hw_after fold_left].
  - destruct Hor as [Hin|]; [by apply elem_of_nil in Hin|done].
  - fold (hw_after (hw_step hw e) evs). apply IH; [intros w Hw; apply Hall; by constructor|].
    destruct Hor as [[Heq|Hin]%elem_of_cons|Hhw]; [right|by left|right].
    + rewrite <- Heq. cbn. by rewrite Z.eqb_refl.
    + destruct e as [r' w| | | | | | | | | | | |]; try done. cbn. destruct (Z.eqb_spec r r') as [<- |]; [|done].
      apply Hall. constructor.
Qed.

Section sync.
Context {C : Type} `{ArrayLibLaws} `{Access}.
Context (cache_types : list (regcache_ops C)).
Context (ans : list event → event → Z) (write_through : Z → Z → R C Z).
Implicit Types m : regmap C.

Lemma the_ops_runs {A} (k : regcache_ops C → R C A) m t post i ops :
  cache_ops (tb m) = Some i → cache_types !! i = Some ops →
  runs (k ops) m t post → runs (the_ops cache_types ≫= k) m t post.
Proof.
  intros Ei Eo (b & m' & evs & E & Hp). exists b, m', evs. split; [|done].
  rewrite R_bind_eq. unfold the_ops. rewrite R_bind_eq. cbn [get_map]. rewrite Ei. cbn. by rewrite Eo.
Qed.

(** The cache of a map, and a register that has to agree with it. *)
Context (i : nat) (ops : regcache_ops C) (f : C → Z → Z * Z).
Context (Eops : cache_types !! i = Some ops) (Ef : op_read ops = Some f).

Record cached_map (m : regmap C) : Prop := {
  cm_type : cache_type m ≠ REGCACHE_NONE;
  cm_ops : cache_ops (tb m) = Some i
}.
Definition synced_reg (m : regmap C) (r v : Z) : Prop :=
  regmap_writeable m r = true ∧ regmap_volatile m r = false ∧ f (cache m) r = (0, v).

Lemma read_runs {A} r (k : Z * Z → R C A) m t post :
  cached_map m → regmap_volatile m r = false →
  runs (k (f (cache m) r)) m t post → runs (regcache_read cache_types r ≫= k) m t post.
Proof.
  intros [Ht Ei] Hv (a & m' & evs & E & Hp). exists a, m', evs. split; [|done].
  rewrite R_bind_eq. unfold regcache_read. rewrite R_bind_eq. cbn [get_map]. rewrite decide_False by done.
  rewrite R_bind_eq. unfold the_ops. rewrite R_bind_eq. cbn [get_map]. rewrite Ei. cbn. rewrite Eops. cbn.
  by rewrite Hv, Ef.
Qed.

(** What synchronising a range of registers has to do: write nothing but cached values,
    and, when it reports success, every register of the range that needs it. *)
Definition range_syncs (m : regmap C) (min max ret : Z) (evs : list event) : Prop :=
  Forall (λ e, ∃ r v, e = RegWrite r v ∧ f (cache m) r = (0, v)) evs ∧
  (ret = 0 → ∀ k r v, 0 ≤ k → r = min + k * reg_stride m → r ≤ max → synced_reg m r v →
     regcache_reg_needs_sync m r v = true → RegWrite r v ∈ evs).

Lemma default_sync_reg_runs r m t :
  cached_map m → cache_bypass (md m) = false →
  runs (default_sync_reg cache_types ans write_through r) m t (λ ret m' evs,
    m' = m ∧ Forall (λ e, ∃ r v, e = RegWrite r v ∧ f (cache m) r = (0, v)) evs ∧
    (ret = 0 → ∀ v, synced_reg m r v → regcache_reg_needs_sync m r v = true → RegWrite r v ∈ evs)).
Proof.
  intros Hm Hb. unfold default_sync_reg. rstep. unfold synced_reg.
  destruct (regmap_volatile m r) eqn:Ev; [rstep; split; [done|]; split; [done|]; naive_solver|].
  destruct (regmap_writeable m r) eqn:Ew; cbn [negb orb];
    [|rstep; split; [done|]; split; [done|]; naive_solver].
  apply read_runs; [done|done|]. destruct (f (cache m) r) as [e v] eqn:Er.
  destruct (Z.eqb_spec e (- ENOENT)) as [-> |]; [rstep; split; [done|]; split; [done|]; naive_solver|].
  destruct (Z.eqb_spec e 0) as [-> |]; cbn [negb]; [|rstep; split; [done|]; split; [done|]; naive_solver].
  rstep. destruct (regcache_reg_needs_sync m r v) eqn:En; cbn [negb].
  - eapply runs_weaken; [apply bypassed_write|]. intros ret m' evs (-> & -> & ->).
    rewrite with_bypass by done. split; [done|]. split; [|intros _ w (_ & _ & [= ->]) _; apply list_elem_of_here].
    constructor; [|done]. by exists r, v.
  - rstep. split; [done|]. split; [done|]. intros _ w (_ & _ & [= ->]). congruence.
Qed.

(** The default loop ends when the register number cannot wrap. *)
Lemma default_sync_runs max fuel : ∀ r m t,
  cached_map m → cache_bypass (md m) = false → 0 < reg_stride m → 0 ≤ r →
  r < 2 ^ 32 → max + reg_stride m < 2 ^ 32 → max - r < (Z.of_nat fuel - 1) * reg_stride m →
  (0 < fuel)%nat →
  runs (regcache_default_sync cache_types ans write_through fuel r max) m t (λ ret m' evs,
    m' = m ∧ range_syncs m r max ret evs).
Proof.
  induction fuel as [|fuel IH]; intros r m t Hm Hb Hs Hr Hr32 Hmax Hfuel Hpos; [lia|].
  cbn [regcache_default_sync]. rstep. destruct (Z.leb_spec r max) as [Hle|Hgt].
  2:{ rstep. split; [done|]. split; [done|]. intros _ k x v Hk -> Hx. nia. }
  eapply runs_bind; [by apply default_sync_reg_runs|]. intros ret m' evs (-> & Hall & Hw).
  destruct (Z.eqb_spec ret 0) as [-> |Hne].
  - rewrite u32_small by lia. eapply runs_weaken; [apply (IH (r + reg_stride m) m); try done; nia|].
    intros ret m' evs' (-> & Hall' & Hw'). split; [done|]. split; [by apply Forall_app|].
    intros Hz k x v Hk -> Hx Hsy Hn. apply elem_of_app.
    destruct (decide (k = 0)) as [-> |]; [left|right].
    + replace (r + 0 * reg_stride m) with r in * by lia. by apply Hw.
    + apply (Hw' Hz (k - 1)); [lia|lia|done|done|done].
  - rstep. split; [done|]. rewrite app_nil_r. split; [done|]. lia.
Qed.

Definition patch_write (d : reg_default) : event := RegWrite (reg d) (def d).

Lemma patch_loop_runs l : ∀ m t,
  cache_bypass (md m) = true →
  runs (patch_loop ans write_through l) m t (λ ret m' evs,
    m' = m ∧ evs `prefix_of` patch_write <$> l).
Proof.
  induction l as [|d l IH]; intros m t Hb; cbn [patch_loop]; [by rstep|].
  eapply (runs_bind _ _ _ _ (λ ret m' evs, m' = m ∧ evs = [patch_write d])).
  { unfold _regmap_write. rstep. rewrite Hb. apply runs_last. rstep. by rstep. }
  intros ret m' evs [-> ->]. case_match.
  - eapply runs_weaken; [by apply IH|]. intros ret' m' evs [-> Hp]. split; [done|]. by apply prefix_cons.
  - rstep. split; [done|]. exists (patch_write <$> l). done.
Qed.

(** A cache with its own synchronisation keeps the contract; the default one has the
    fuel its loop needs and a highest register below which the number does not wrap. *)
Definition range_ok (fuel : nat) (m : regmap C) : Prop :=
  match op_sync ops with
  | Some g => ∀ t, runs (g 0 (max_register (tb m))) m t (λ ret m' evs,
      m' = m ∧ range_syncs m 0 (max_register (tb m)) ret evs)
  | None =>
      0 < reg_stride m ∧ 0 ≤ max_register (tb m) ∧ max_register (tb m) + reg_stride m < 2 ^ 32 ∧
      max_register (tb m) / reg_stride m + 1 < Z.of_nat fuel
  end.

Lemma sync_range_runs fuel m t :
  cached_map m → cache_bypass (md m) = false → range_ok fuel m →
  runs (sync_range cache_types ans write_through fuel ops 0 (max_register (tb m))) m t (λ ret m' evs,
    m' = m ∧ range_syncs m 0 (max_register (tb m)) ret evs).
Proof.
  intros Hm Hb. unfold range_ok, sync_range. destruct (op_sync ops) as [g|]; [auto|].
  intros (Hs & Hmax & Hwrap & Hfuel). pose proof (Z.div_pos _ _ Hmax Hs).
  apply default_sync_runs; try done; [|lia].
  pose proof (Z.mul_succ_div_gt (max_register (tb m)) (reg_stride m) Hs).
  rewrite Z.sub_0_r. eapply Z.lt_le_trans; [eassumption|]. nia.
Qed.

(** The modes of a map after a synchronisation. *)
Definition synced_modes (ret : Z) (x : modes) : modes :=
  set_no_sync false (if ret =? 0 then set_dirty false x else x).

Lemma sync_dirty_runs fuel m t :
  cached_map m → range_ok fuel (with_md (set_bypass false) m) →
  runs (sync_dirty cache_types ans write_through fuel ops) m t (λ ret m' evs,
    ∃ pre post b, evs = pre ++ post ∧ m' = with_md (λ x, set_bypass b (if ret =? 0 then set_dirty false x else x)) m ∧
      pre `prefix_of` patch_write <$> patch m ∧
      range_syncs (with_md (set_bypass false) m) 0 (max_register (tb m)) ret post).
Proof.
  intros Hm Hr. unfold sync_dirty. do 2 rstep. eapply runs_bind; [by apply patch_loop_runs|].
  intros ret m' evs [-> Hp]. destruct (Z.eqb_spec ret 0) as [-> |Hne]; cbn [negb].
  2:{ rstep. exists evs, [], true. rewrite app_nil_r. split; [done|].
      rewrite (proj2 (Z.eqb_neq _ _) Hne). do 2 (split; [done|]). split; [done|]. lia. }
  rstep. rewrite with_bypass_twice. eapply runs_bind;
    [apply (sync_range_runs fuel (with_md (set_bypass false) m)); [by destruct Hm|done|done]|].
  intros ret m' evs' [-> Hs]. destruct (Z.eqb_spec ret 0) as [-> |Hne]; do 2 rstep.
  all: exists evs, evs', false; rewrite app_nil_r; split; [done|]; split; [|done].
  - done.
  - by rewrite (proj2 (Z.eqb_neq _ _) Hne).
Qed.

(** Everything that is written agrees with the cache. *)
Lemma sync_writes m ret pre post max e :
  pre `prefix_of` patch_write <$> patch m →
  range_syncs (with_md (set_bypass false) m) 0 max ret post →
  (∀ d v, d ∈ patch m → f (cache m) (reg d) = (0, v) → def d = v) →
  e ∈ pre ++ post → ∃ r v, e = RegWrite r v ∧ ∀ w, synced_reg m r w → v = w.
Proof.
  intros [rest Hpre] [Hall _] Hpatch [Hin|Hin]%elem_of_app.
  - assert (e ∈ patch_write <$> patch m) as Hin' by (rewrite Hpre; apply elem_of_app; by left).
    apply list_elem_of_fmap in Hin' as (d & -> & Hd). exists (reg d), (def d). split; [done|].
    intros w (_ & _ & Hc). by eapply Hpatch.
  - rewrite Forall_forall in Hall. destruct (Hall _ Hin) as (r & v & -> & Hv). exists r, v. split; [done|].
    intros w (_ & _ & Hc). cbn in Hv. congruence.
Qed.

End sync.

(** ** Values in a buffer *)

(** The bytes of value [j] of a buffer in which value [idx] has been replaced. *)
Lemma splice_words (base bs : list Z) w idx j :
  length bs = w → (w * (idx + 1) ≤ length base)%nat →
  take w (drop (w * j) (take (w * idx) base ++ bs ++ drop (w * idx + w) base)) =
  if decide (j = idx) then bs else take w (drop (w * j) base).
Proof.
  intros Hbs Hl. case_decide as Hj.
  - subst j. rewrite drop_app_length' by (rewrite length_take; lia).
    by rewrite take_app_length'.
  - destruct (decide (j < idx)%nat) as [Hlt|Hge].
    + rewrite drop_app_le by (rewrite length_take; nia).
      rewrite take_app_le by (rewrite length_drop, length_take; nia).
      rewrite skipn_firstn_comm, take_take. f_equal. nia.
    + rewrite drop_app_ge, length_take by (rewrite length_take; nia).
      rewrite drop_app_ge by nia. rewrite drop_drop. do 2 f_equal. nia.
Qed.

(** A value stored in a buffer of the cache is read back, cut to the size of a
    word, and no other value of the buffer changes; the store stays in the buffer. *)
Theorem regcache_val_roundtrip {C} `{Format} (m : regmap C) base idx val :
  format_val = None → parse_val = None →
  cache_word_size (tb m) = 1 ∨ cache_word_size (tb m) = 2 ∨ cache_word_size (tb m) = 4 →
  0 ≤ idx → cache_word_size (tb m) * (idx + 1) ≤ Z.of_nat (length base) →
  ∃ base', regcache_set_val m base idx val = Ok base' ∧ length base' = length base ∧
    regcache_get_val m (Some base') idx = Ok (val mod 2 ^ (8 * cache_word_size (tb m))) ∧
    ∀ j, 0 ≤ j → j ≠ idx → regcache_get_val m (Some base') j = regcache_get_val m (Some base) j.
Proof.
  intros Ef Ep Hw Hi Hl. unfold regcache_set_val, regcache_get_val, regcache_get_val_addr.
  rewrite Ef, Ep, bool_decide_true by done. set (w := cache_word_size (tb m)) in *.
  pose proof (length_Z_to_little_endian w 8 val ltac:(lia)) as Hlen.
  set (bs := Z_to_little_endian w 8 val) in *.
  assert (length bs = Z.to_nat w) as Hbs by lia.
  rewrite (proj2 (Nat.leb_le _ _)) by nia. eexists. split; [done|]. split.
  { rewrite !length_app, length_take, length_drop. nia. }
  rewrite Hbs. assert (∀ k, 0 ≤ k → Z.to_nat (w * k) = (Z.to_nat w * Z.to_nat k)%nat) as Emul by (intros; nia).
  split.
  - rewrite !Emul, splice_words by (done || nia). rewrite decide_True by done.
    rewrite (proj2 (Nat.eqb_eq _ _) Hbs). f_equal. unfold bs.
    rewrite little_endian_to_Z_to_little_endian by lia. do 2 f_equal. lia.
  - intros j Hj Hne. rewrite !Emul, splice_words by (done || nia). by rewrite decide_False by lia.
Qed.

(** ** Examples *)

Module Demo.
(** A library that sorts by merging and searches from the front. *)
Definition cmp_le (cmp : reg_default → reg_default → Z) (x y : reg_default) : Prop := cmp x y ≤ 0.
Instance cmp_le_dec cmp : RelDecision (cmp_le cmp) := λ x y, Z_le_dec (cmp x y) 0.
Instance demo_lib : ArrayLib := {
  sort cmp l := merge_sort (cmp_le cmp) l;
  bsearch cmp k l := fst <$> list_find (λ d, cmp k d = 0) l
}.
Instance demo_lib_laws : ArrayLibLaws.
Proof.
  split.
  - intros cmp l _. apply merge_sort_Permutation.
  - intros cmp l [Htot Htr]. unfold ordered. cbn [sort demo_lib].
    assert (Transitive (cmp_le cmp)) by (intros x y z; apply Htr).
    assert (Total (cmp_le cmp)) by (intros x y; apply Htot).
    exact (StronglySorted_merge_sort (cmp_le cmp) l).
  - intros cmp k l i _ _. cbn [bsearch demo_lib]. intros ([j d] & Hf & ->)%fmap_Some.
    apply list_find_Some in Hf as (Hd & Hc & _). by exists d.
  - intros cmp k l d _ _. cbn [bsearch demo_lib]. intros Hn%fmap_None Hd.
    apply list_find_None in Hn. rewrite Forall_forall in Hn. by apply Hn.
Qed.

(** Every register is readable; register 12 is volatile; nothing above the limit is
    writable. *)
Instance demo_access : Access := {
  readable _ _ := true;
  writeable l r := match l with Some x => r <=? x | None => true end;
  volatile _ r := r =? 12
}.
Instance demo_format : Format := { format_val := None; parse_val := None }.

Definition demo_read (c : gmap Z Z) (r : Z) : Z * Z :=
  match c !! r with Some v => (0, v) | None => (- ENOENT, 0) end.
Definition demo_ops : regcache_ops (gmap Z Z) :=
  Ops _ REGCACHE_FLAT_S true (Some (λ _, ∅)) (Some (λ _, ∅))
    (Some (λ m, list_to_map ((λ d, (reg d, def d)) <$> default [] (reg_defaults (tb m)))))
    (Some demo_read) (Some (λ c r v, (0, <[r := v]> c))) None None.
Definition demo_ans (t : list event) (e : event) : Z := match e with Kmalloc _ => 1 | _ => 0 end.

Definition demo_map : regmap (gmap Z Z) :=
  Regmap REGCACHE_FLAT_S 4 4 [] [] false true false (Modes false false false false false)
    (Tables None 0 None 0 false 0 0 16 true None) ∅.
Definition demo_config : regmap_config :=
  Config (Some [RegDefault 8 1; RegDefault 0 5]) 2 None 0 32.

Definition demo_init : R (gmap Z Z) Z :=
  regcache_init ∅ [demo_ops] demo_ans (λ _ _, 0) (λ _ n, replicate (Z.to_nat n) 0) demo_config.
End Demo.
Import Demo.

Lemma regcache_init_correct_witness :
  ∃ m' evs o, demo_init demo_map [] = (Ok (0, m'), evs) ∧ ledger (rc_step demo_ans) [] evs [] = Some o ∧
    o = [CacheR; DefaultsR] ∧ regcache_lookup_reg m' 8 = 1 ∧ regcache_lookup_reg m' 4 = - ENOENT ∧
    owns demo_ans (regcache_exit [demo_ops]) m' evs o (λ _ _ o', o' = []).
Proof.
  destruct (regcache_init_correct (C := gmap Z Z) ∅ [demo_ops] demo_ans (λ _ _, 0)
    (λ _ n, replicate (Z.to_nat n) 0) ltac:(intros; cbv beta; rewrite length_replicate; lia) ltac:(done) ltac:(done)
    demo_map [] demo_config) as (ret & m' & evs & E & o & Hl & Hpost).
  - done.
  - split; try done; [by intros l [= <-]|right; by right].
  - done.
  - done.
  - by constructor.
  - exists m', evs, o. change (demo_init demo_map [] = (Ok (ret, m'), evs)) in E.
    assert (ret = 0 ∧ evs = [Kmalloc DefaultsArray; CacheInit; Lock; Populate; Unlock] ∧
      tb m' = Tables (Some [RegDefault 0 5; RegDefault 8 1]) 2 None 0 false 4 0 16 true (Some 0%nat) ∧
      cache_bypass (md m') = false) as (-> & -> & Htb & Hb).
    { assert ((demo_init demo_map []).2 = evs) as Hevs by by rewrite E. vm_compute in Hevs.
      vm_compute in E. injection E as <- <- _. by subst. }
    cbn in Hl. injection Hl as <-. destruct Hpost as [[? _]|[[_ [_ Hexit]] _]]; [done|].
    unfold regcache_lookup_reg. rewrite Htb. split; [exact E|]. do 4 (split; [done|]). apply Hexit.
Defined.

(** The map after a reset: two registers differ from their defaults, one does not. *)
Definition demo_dirty : regmap (gmap Z Z) :=
  Regmap REGCACHE_FLAT_S 4 4 [] [] false true false (Modes false false true true false)
    (Tables (Some [RegDefault 0 5; RegDefault 8 1]) 2 None 0 false 4 0 16 true (Some 0%nat))
    (<[0 := 5]> (<[8 := 7]> (<[16 := 3]> ∅))).
Definition demo_hw (r : Z) : Z := if r =? 0 then 5 else if r =? 8 then 1 else 0.


(** Four registers of two bytes; the second one is not writable. *)
Definition demo_block : list Z := [1; 0; 2; 0; 3; 0; 4; 1].
Definition demo_bulk : regmap unit :=
  Regmap REGCACHE_MAPLE 2 2 [] [] false true false (Modes false false true false false)
    (Tables None 0 None 0 false 2 0 200 true (Some 0%nat)) tt.
#[local] Instance demo_access2 : Access := {
  readable _ _ := true; writeable _ r := negb (r =? 102); volatile _ _ := false
}.

Lemma regcache_sync_block_exact_witness :
  ∃ evs, regcache_sync_block (λ _ _, 0) (λ _ _, mret 0) demo_block None 100 0 4 demo_bulk [] =
      (Ok (0, demo_bulk), evs) ∧
    length evs = 2%nat ∧ all_writes demo_bulk evs = [(100, 1); (104, 3); (106, 260)].
Proof.
  destruct (regcache_sync_block_exact (λ _ _, 0) (λ _ _, mret 0) demo_bulk demo_block None 100 0 4 [])
    as (ret & m' & evs & E & -> & _ & Hall); [|done|].
  - split; try done. by right; left.
  - exists evs. assert (ret = 0 ∧ evs = [RawWrite 100 [1; 0]; RawWrite 104 [3; 0; 4; 1]]) as [-> Hev]
      by (vm_compute in E; by injection E as <- <-).
    split; [exact E|]. split; [by rewrite Hev|]. rewrite (Hall eq_refl). by vm_compute.
Defined.

Lemma regcache_val_roundtrip_witness :
  ∃ base', regcache_set_val demo_bulk demo_block 2 0x12345 = Ok base' ∧
    base' = [1; 0; 2; 0; 0x45; 0x23; 4; 1] ∧
    regcache_get_val demo_bulk (Some base') 2 = Ok 0x2345.
Proof.
  destruct (regcache_val_roundtrip demo_bulk demo_block 2 0x12345)
    as (base' & E & _ & Hget & _); [done|done|by right; left|done|done|].
  exists base'. split; [done|]. split; [vm_compute in E; congruence|exact Hget].
Defined.

(** ** Findings *)

(** With a highest register that the stride carries past 32 bits, the register number
    wraps and the default synchronisation never ends. *)
Lemma regcache_default_sync_diverges {C} `{ArrayLib} `{Access} cache_types ans write_through (m : regmap C) fuel :
  (∀ r, regmap_writeable m r = false) → ∀ r t, 0 ≤ r < 2 ^ 32 →
  regcache_default_sync cache_types ans write_through fuel r (2 ^ 32 - 1) m t = (Err Fuel, t).
Proof.
  intros Hw. induction fuel as [|fuel IH]; intros r t Hr; [done|]. cbn [regcache_default_sync].
  rewrite R_bind_eq. cbn [get_map]. rewrite (proj2 (Z.leb_le _ _)) by lia. rewrite R_bind_eq.
  unfold default_sync_reg. rewrite R_bind_eq. cbn [get_map]. rewrite Hw, orb_true_r. cbn [negb].
  rewrite R_ret_eq. cbn [Z.eqb]. apply IH, u32_range.
Qed.

(** A failed synchronisation of a map with a paged range reports success: the write of
    the selector replaces the error.  The cache stays dirty. *)
Example regcache_sync_error_lost :
  let m := Regmap REGCACHE_FLAT_S 4 4 [] [0] false true false (Modes false false true false false)
    (Tables None 0 None 0 false 4 0 16 true (Some 0%nat)) (<[0 := 5]> (<[8 := 7]> (∅ : gmap Z Z))) in
  match (regcache_sync (H0 := demo_access) [demo_ops]
           (λ _ e, match e with RegWrite _ _ => - EIO | _ => 0 end) (λ _ _, mret 0) 10 m []).1 with
  | Ok (ret, m') => ret = 0 ∧ cache_dirty (md m') = true
  | Err _ => False
  end.
Proof. by vm_compute. Qed.

(** When the buffer for the raw values cannot be allocated, the bypass stays on. *)
Lemma regcache_hw_init_keeps_bypass {C} `{ArrayLib} `{Access} `{Format} ans val_of raw_of (m : regmap C) t :
  reg_defaults_raw (tb m) = None → ans t (Kmalloc RawBuffer) = 0 →
  regcache_hw_init ans val_of raw_of m t =
    (Ok (- ENOMEM, with_md (set_bypass true) m), t ++ [Kmalloc RawBuffer]).
Proof.
  intros Er Ea. unfold regcache_hw_init. rewrite R_bind_eq. unfold read_raw. rewrite R_bind_eq.
  cbn [get_map]. rewrite Er. cbv zeta. unfold bypass, kern. rewrite R_bind_eq. cbn [upd].
  rewrite R_bind_eq. cbn [liftR ask]. by rewrite Ea.
Qed.
