(* ===== verification/IdregOverride.v ===== *)
(** * Overrides of the CPU's identification registers
    (arch/arm64/kernel/pi/idreg-override.c, sources/idreg-override.c of the snapshot)

    The early boot code that reads the kernel command line for options of the form
    [register.field=digit] and their aliases, and records for every feature register
    which fields are overridden and with what.  The layout of the registers (generated
    from the architecture's description), the registers of the CPU and the kernel
    configuration are parameters. *)

From Stdlib Require Import ZArith Lia Bool String Ascii.
From stdpp Require Import base numbers list option.
From S2P Require Import Prelude.

Local Open Scope list_scope.
Local Open Scope Z_scope.

(** ** Characters and strings

    A C string is the list of its characters without the terminating zero; reading
    behind its end gives that zero. *)

Definition chr (c : ascii) : Z := Z.of_nat (nat_of_ascii c).
Fixpoint chars (s : string) : list Z :=
  match s with EmptyString => [] | String c s' => chr c :: chars s' end.
Definition char_at (s : list Z) (i : nat) : Z := default 0 (s !! i).

Definition c_eq : Z := chr "="%char.
Definition c_dot : Z := chr "."%char.
Definition c_dash : Z := chr "-"%char.
Definition c_under : Z := chr "_"%char.
Definition c_0 : Z := chr "0"%char.
Definition c_x : Z := chr "x"%char.
Definition c_a : Z := chr "a"%char.

(** linux/ctype.h *)
Definition isspace (c : Z) : bool := ((9 <=? c) && (c <=? 13)) || (c =? 32) || (c =? 160).
Definition isdigit (c : Z) : bool := (48 <=? c) && (c <=? 57).
Definition isupper (c : Z) : bool := ((65 <=? c) && (c <=? 90)) || ((192 <=? c) && (c <=? 222) && negb (c =? 215)).
Definition tolower (c : Z) : Z := if isupper c then c + 32 else c.
Definition isxdigit (c : Z) : bool :=
  isdigit c || ((65 <=? c) && (c <=? 70)) || ((97 <=? c) && (c <=? 102)).

(** [memcmp(a, b, n) == 0] *)
Definition memeq (a b : list Z) (n : nat) : bool := bool_decide (take n a = take n b).

(** ** Registers *)

Definition FTR_DESC_NAME_LEN : nat := 20.
Definition FTR_DESC_FIELD_LEN : nat := 10.
Definition FTR_ALIAS_NAME_LEN : nat := 30.
Definition FTR_ALIAS_OPTION_LEN : nat := 116.

(** The overrides: one per register of [regs], and the one of ID_AA64ZFR0_EL1. *)
Inductive regid := Rmmfr0 | Rmmfr1 | Rmmfr2 | Rpfr0 | Rpfr1 | Risar1 | Risar2 | Rsmfr0 | Rsw | Rzfr0.
#[export] Instance regid_eq_dec : EqDecision regid.
Proof. solve_decision. Defined.

Record arm64_ftr_override := Override { val : Z; mask : Z }.
#[export] Instance override_eq_dec : EqDecision arm64_ftr_override.
Proof. solve_decision. Defined.

(** The variables of the file and the overrides. *)
Record state := State { boot_status : Z; override : regid → arm64_ftr_override }.

Definition set_override (r : regid) (o : arm64_ftr_override) (s : state) : state :=
  State (boot_status s) (λ x, if decide (x = r) then o else override s x).

(** The positions of the fields, from the generated asm/sysreg-defs.h and
    asm/cpufeature.h, and the boot flags of asm/virt.h. *)
Class Layout := {
  ECV_SHIFT : Z; VH_SHIFT : Z; VARange_SHIFT : Z;
  SVE_SHIFT : Z; EL0_SHIFT : Z; MPAM_SHIFT : Z;
  BT_SHIFT : Z; GCS_SHIFT : Z; MTE_SHIFT : Z; SME_SHIFT : Z; MPAM_frac_SHIFT : Z;
  GPI_SHIFT : Z; GPA_SHIFT : Z; API_SHIFT : Z; APA_SHIFT : Z;
  WFxT_SHIFT : Z; GPA3_SHIFT : Z; APA3_SHIFT : Z; MOPS_SHIFT : Z;
  SMEver_SHIFT : Z; FA64_SHIFT : Z;
  NOKASLR : Z; HVHE : Z; RODATA_OFF : Z;
  TGRAN_SHIFT : Z; TGRAN_LPA2 : Z; PARANGE_SHIFT : Z; PARANGE_48 : Z;
  BOOT_CPU_FLAG_E2H : Z; BOOT_CPU_MODE_EL2 : Z
}.

(** The CPU and the configuration: the registers that are read, the extraction of a
    signed and of an unsigned field (asm/cpufeature.h), CONFIG_ARM64_LPA2, the
    built-in command line and CONFIG_CMDLINE_FORCE. *)
Class Platform := {
  id_aa64mmfr0_el1 : Z;
  id_aa64mmfr1_el1 : Z;
  extract_signed : Z → Z → Z;
  extract_unsigned : Z → Z → Z;
  CONFIG_ARM64_LPA2 : bool;
  CONFIG_CMDLINE : list Z;
  CONFIG_CMDLINE_FORCE : bool
}.

(** A filter may change other overrides. *)
Definition filter_t : Type := Z → state → bool * state.

Record ftr_field := Field { f_name : list Z; f_shift : Z; f_width : Z; f_filter : option filter_t }.
Record ftr_set_desc := Desc { d_name : list Z; d_override : regid; d_fields : list ftr_field }.

Section tables.
Context `{Layout} `{Platform}.

Definition FIELD (n : string) (s : Z) (f : option filter_t) : ftr_field := Field (chars n) s 4 f.

Definition mmfr0 : ftr_set_desc := Desc (chars "id_aa64mmfr0") Rmmfr0 [FIELD "ecv" ECV_SHIFT None].

Definition mmfr1_vh_filter : filter_t := λ v s,
  (negb ((boot_status s =? Z.lor BOOT_CPU_FLAG_E2H BOOT_CPU_MODE_EL2) && (v =? 0)), s).

Definition mmfr1 : ftr_set_desc :=
  Desc (chars "id_aa64mmfr1") Rmmfr1 [FIELD "vh" VH_SHIFT (Some mmfr1_vh_filter)].

Definition or_override (r : regid) (v m : Z) (s : state) : state :=
  let o := override s r in set_override r (Override (Z.lor (val o) v) (Z.lor (mask o) m)) s.

Definition mmfr2_varange_filter : filter_t := λ v s,
  if negb (v =? 0) then (false, s)
  else if CONFIG_ARM64_LPA2 then
    let feat := extract_signed id_aa64mmfr0_el1 TGRAN_SHIFT in
    if feat >=? TGRAN_LPA2 then
      let s := or_override Rmmfr0 (Z.shiftl (TGRAN_LPA2 - 1) TGRAN_SHIFT) (Z.shiftl 0xf TGRAN_SHIFT) s in
      let s := or_override Rmmfr0 (Z.shiftl PARANGE_48 PARANGE_SHIFT) (Z.shiftl 0xf PARANGE_SHIFT) s in
      (true, s)
    else (true, s)
  else (true, s).

Definition mmfr2 : ftr_set_desc :=
  Desc (chars "id_aa64mmfr2") Rmmfr2 [FIELD "varange" VARange_SHIFT (Some mmfr2_varange_filter)].

Definition pfr0_sve_filter : filter_t := λ v s,
  (true, if v =? 0 then set_override Rzfr0 (Override 0 (GENMASK 63 0)) s else s).

Definition pfr0 : ftr_set_desc :=
  Desc (chars "id_aa64pfr0") Rpfr0
    [FIELD "sve" SVE_SHIFT (Some pfr0_sve_filter); FIELD "el0" EL0_SHIFT None; FIELD "mpam" MPAM_SHIFT None].

Definition pfr1_sme_filter : filter_t := λ v s,
  (true, if v =? 0 then set_override Rsmfr0 (Override 0 (GENMASK 63 0)) s else s).

Definition pfr1 : ftr_set_desc :=
  Desc (chars "id_aa64pfr1") Rpfr1
    [FIELD "bt" BT_SHIFT None; FIELD "gcs" GCS_SHIFT None; FIELD "mte" MTE_SHIFT None;
     FIELD "sme" SME_SHIFT (Some pfr1_sme_filter); FIELD "mpam_frac" MPAM_frac_SHIFT None].

Definition isar1 : ftr_set_desc :=
  Desc (chars "id_aa64isar1") Risar1
    [FIELD "gpi" GPI_SHIFT None; FIELD "gpa" GPA_SHIFT None;
     FIELD "api" API_SHIFT None; FIELD "apa" APA_SHIFT None].

Definition isar2 : ftr_set_desc :=
  Desc (chars "id_aa64isar2") Risar2
    [FIELD "wfxt" WFxT_SHIFT None; FIELD "gpa3" GPA3_SHIFT None;
     FIELD "apa3" APA3_SHIFT None; FIELD "mops" MOPS_SHIFT None].

Definition smfr0 : ftr_set_desc :=
  Desc (chars "id_aa64smfr0") Rsmfr0
    [FIELD "smever" SMEver_SHIFT None; Field (chars "fa64") FA64_SHIFT 1 None].

(** [lower_32_bits(__boot_status)] *)
Definition hvhe_filter : filter_t := λ v s,
  ((v =? 1) && (u32 (boot_status s) =? BOOT_CPU_MODE_EL2) &&
     negb (extract_unsigned id_aa64mmfr1_el1 VH_SHIFT =? 0), s).

Definition sw_features : ftr_set_desc :=
  Desc (chars "arm64_sw") Rsw
    [FIELD "nokaslr" NOKASLR None; FIELD "hvhe" HVHE (Some hvhe_filter);
     FIELD "rodataoff" RODATA_OFF None].

Definition regs : list ftr_set_desc :=
  [mmfr0; mmfr1; mmfr2; pfr0; pfr1; isar1; isar2; smfr0; sw_features].
End tables.

Definition aliases : list (list Z * list Z) :=
  [(chars "kvm_arm.mode=nvhe", chars "arm64_sw.hvhe=0 id_aa64mmfr1.vh=0");
   (chars "kvm_arm.mode=protected", chars "arm64_sw.hvhe=1");
   (chars "arm64.nosve", chars "id_aa64pfr0.sve=0");
   (chars "arm64.nosme", chars "id_aa64pfr1.sme=0");
   (chars "arm64.nobti", chars "id_aa64pfr1.bt=0");
   (chars "arm64.nogcs", chars "id_aa64pfr1.gcs=0");
   (chars "arm64.nopauth",
    chars "id_aa64isar1.gpi=0 id_aa64isar1.gpa=0 " ++
    chars "id_aa64isar1.api=0 id_aa64isar1.apa=0 " ++
    chars "id_aa64isar2.gpa3=0 id_aa64isar2.apa3=0");
   (chars "arm64.nomops", chars "id_aa64isar2.mops=0");
   (chars "arm64.nowfxt", chars "id_aa64isar2.wfxt=0");
   (chars "arm64.nomte", chars "id_aa64pfr1.mte=0");
   (chars "nokaslr", chars "arm64_sw.nokaslr=1");
   (chars "rodata=off", chars "arm64_sw.rodataoff=1");
   (chars "arm64.nolva", chars "id_aa64mmfr2.varange=0");
   (chars "arm64.no32bit_el0", chars "id_aa64pfr0.el0=1");
   (chars "arm64.nompam", chars "id_aa64pfr0.mpam=0 id_aa64pfr1.mpam_frac=0")].

(** ** The parser *)

Definition parse_hexdigit (p : list Z) : result Z Z :=
  let p := if (char_at p 0 =? c_0) && (tolower (char_at p 1) =? c_x) then drop 2 p else p in
  if negb (isxdigit (char_at p 0)) || (negb (char_at p 1 =? 0) && negb (isspace (char_at p 1)))
  then Err (- EINVAL)
  else Ok (tolower (char_at p 0) - (if isdigit (char_at p 0) then c_0 else c_a - 10)).

(** [opt] holds [<name>.]; the field's name and the equals sign are appended. *)
Definition find_field (cmdline opt : list Z) (f : ftr_field) : result Z Z :=
  let opt := opt ++ f_name f ++ [c_eq] in
  let len := length opt in
  if negb (memeq cmdline opt len) then Err (-1) else parse_hexdigit (drop len cmdline).

Definition field_mask (f : ftr_field) : Z :=
  let width := if f_width f =? 0 then 4 else f_width f in GENMASK (f_shift f + width - 1) (f_shift f).

(** What an option does to its register; whether the search ends there. *)
Definition apply_field (r : regid) (f : ftr_field) (v : Z) (s : state) : bool * state :=
  let m := field_mask f in
  let '(ok, s) := match f_filter f with Some flt => flt v s | None => (true, s) end in
  let o := override s r in
  if negb ok then
    (false, set_override r (Override (Z.lor (val o) m) (Z.land (mask o) (u64 (Z.lnot m)))) s)
  else
    let v0 := Z.land (val o) (u64 (Z.lnot m)) in
    (true, set_override r (Override (Z.lor v0 (Z.land (u64 (Z.shiftl v (f_shift f))) m)) (Z.lor (mask o) m)) s).

Fixpoint match_fields (cmdline opt : list Z) (r : regid) (fs : list ftr_field) (s : state) : bool * state :=
  match fs with
  | [] => (false, s)
  | f :: fs' =>
      match find_field cmdline opt f with
      | Err _ => match_fields cmdline opt r fs' s
      | Ok v =>
          let '(stop, s') := apply_field r f v s in
          if stop then (true, s') else match_fields cmdline opt r fs' s'
      end
  end.

Fixpoint match_regs (cmdline : list Z) (rs : list ftr_set_desc) (s : state) : state :=
  match rs with
  | [] => s
  | d :: rs' =>
      let '(stop, s') := match_fields cmdline (d_name d ++ [c_dot]) (d_override d) (d_fields d) s in
      if stop then s' else match_regs cmdline rs' s'
  end.

Section parser.
Context `{Layout} `{Platform}.
(** What lies on the stack behind the terminating zero of [buf], and behind the entry
    of the table of aliases in memory. *)
Context (junk : list Z).

Definition match_options (cmdline : list Z) (s : state) : state := match_regs cmdline regs s.

Fixpoint skip_spaces (str : list Z) : list Z :=
  match str with c :: str' => if isspace c then skip_spaces str' else str | [] => [] end.

(** The characters up to the next space, at most 255 of them. *)
Fixpoint token (n : nat) (s : list Z) : list Z :=
  match n, s with
  | S n', c :: s' => if isspace c then [] else c :: token n' s'
  | _, _ => []
  end.
Definition BUF_SIZE : nat := 256.
Definition buf_char (c : Z) : Z := if c =? c_dash then c_under else c.

(** The memory from the name of an alias on. *)
Definition alias_memory (a : list Z * list Z) : list Z :=
  a.1 ++ replicate (FTR_ALIAS_NAME_LEN - length a.1) 0 ++
  a.2 ++ replicate (FTR_ALIAS_OPTION_LEN - length a.2) 0 ++ junk.

(** The loop of [__parse_cmdline]; [act] handles one parameter. *)
Fixpoint parse_loop (act : list Z → state → state) (fuel : nat) (cmdline : list Z) (s : state) : option state :=
  match fuel with
  | O => None
  | S fuel' =>
      let cmdline := skip_spaces cmdline in
      if (char_at cmdline 0 =? c_dash) && (char_at cmdline 1 =? c_dash) && isspace (char_at cmdline 2) then Some s
      else
        let tok := token (BUF_SIZE - 1) cmdline in
        if (length tok =? 0)%nat then Some s
        else parse_loop act fuel' (drop (length tok) cmdline) (act (buf_char <$> tok) s)
  end.

Definition buffer (tok : list Z) : list Z := tok ++ [0] ++ junk.

Definition parse_features (cmdline : list Z) (s : state) : option state :=
  parse_loop (λ tok, match_options (buffer tok)) (S (length cmdline)) cmdline s.

(** The aliases that match are expanded in turn. *)
Definition expand_aliases (tok : list Z) (s : state) : state :=
  fold_left (λ s a, if memeq (buffer tok) (alias_memory a) (length tok + 1)
                    then default s (parse_features a.2 s) else s) aliases s.

Definition __parse_cmdline (cmdline : list Z) (parse_aliases : bool) (s : state) : option state :=
  if parse_aliases then
    parse_loop (λ tok s, expand_aliases tok (match_options (buffer tok) s)) (S (length cmdline)) cmdline s
  else parse_features cmdline s.

(** The property of the chosen node, if there is one. *)
Definition get_bootargs_cmdline (prop : option (list Z)) : option (list Z) :=
  match prop with
  | None => None
  | Some p => if (length p =? 0)%nat then None else Some p
  end.

Definition parse_cmdline (prop : option (list Z)) (s : state) : option state :=
  let prop := get_bootargs_cmdline prop in
  s ← (if CONFIG_CMDLINE_FORCE || match prop with None => true | Some _ => false end
       then __parse_cmdline CONFIG_CMDLINE true s else Some s);
  match prop with
  | Some p => if negb CONFIG_CMDLINE_FORCE then __parse_cmdline p true s else Some s
  | None => Some s
  end.

(** The overrides of the registers are reset; the cache maintenance at the end has no
    effect that the model sees. *)
Definition init_feature_override (status : Z) (prop : option (list Z)) (s : state) : option state :=
  let s := fold_left (λ s d, set_override (d_override d) (Override 0 0) s) regs s in
  parse_cmdline prop (State status (override s)).
End parser.

(** ** Matching one parameter

    The options of all registers as one list: register, name and field. *)

Definition options_of (d : ftr_set_desc) : list (regid * list Z * ftr_field) :=
  (λ f, (d_override d, d_name d ++ [c_dot] ++ f_name f, f)) <$> d_fields d.

Fixpoint match_list (cmdline : list Z) (l : list (regid * list Z * ftr_field)) (s : state) : state :=
  match l with
  | [] => s
  | (r, key, f) :: l' =>
      if memeq cmdline (key ++ [c_eq]) (length key + 1) then
        match parse_hexdigit (drop (length key + 1) cmdline) with
        | Err _ => match_list cmdline l' s
        | Ok v =>
            let '(stop, s') := apply_field r f v s in
            if stop then s' else match_list cmdline l' s'
        end
      else match_list cmdline l' s
  end.

Lemma find_field_key cmdline opt f :
  find_field cmdline opt f =
  if memeq cmdline ((opt ++ f_name f) ++ [c_eq]) (length (opt ++ f_name f) + 1)
  then parse_hexdigit (drop (length (opt ++ f_name f) + 1) cmdline) else Err (-1).
Proof.
  unfold find_field. rewrite app_assoc, (length_app (opt ++ f_name f)). cbn [length].
  by destruct (memeq _ _ _).
Qed.

Lemma match_fields_flat cmdline opt r l fs : ∀ s,
  match_list cmdline (((λ f, (r, opt ++ f_name f, f)) <$> fs) ++ l) s =
  let '(stop, s') := match_fields cmdline opt r fs s in if stop then s' else match_list cmdline l s'.
Proof.
  induction fs as [|f fs IH]; intros s; [done|]. cbn [fmap list_fmap app match_list match_fields].
  rewrite find_field_key. destruct (memeq _ _ _); [|apply IH].
  destruct (parse_hexdigit _) as [v|]; [|apply IH].
  destruct (apply_field r f v s) as [[] s']; [done|apply IH].
Qed.

Lemma match_regs_flat cmdline rs : ∀ s, match_regs cmdline rs s = match_list cmdline (rs ≫= options_of) s.
Proof.
  induction rs as [|d rs IH]; intros s; [done|]. cbn [match_regs mbind list_bind].
  assert (options_of d = (λ f, (d_override d, (d_name d ++ [c_dot]) ++ f_name f, f)) <$> d_fields d) as ->.
  { unfold options_of. apply list_fmap_ext. intros ? f _. by rewrite <- app_assoc. }
  rewrite match_fields_flat. destruct (match_fields _ _ _ _ _) as [[] s']; [done|apply IH].
Qed.

(** A parameter is recognised by what stands before its first equals sign. *)
Lemma memeq_key key cmdline :
  memeq cmdline (key ++ [c_eq]) (length key + 1) = true ↔ ∃ rest, cmdline = key ++ c_eq :: rest.
Proof.
  unfold memeq. rewrite bool_decide_eq_true. rewrite (take_ge (key ++ [c_eq])) by (rewrite length_app; simpl; lia).
  split.
  - intros E. exists (drop (length key + 1) cmdline).
    rewrite <- (take_drop (length key + 1) cmdline) at 1. rewrite E, <- app_assoc. done.
  - intros [rest ->]. rewrite cons_middle, app_assoc, take_app_length'; [done|]. rewrite length_app. simpl. lia.
Qed.

Lemma split_unique (sep : Z) key key' rest rest' :
  sep ∉ key → sep ∉ key' → key ++ sep :: rest = key' ++ sep :: rest' → key = key' ∧ rest = rest'.
Proof.
  revert key'. induction key as [|c key IH]; intros [|c' key'] Hk Hk' E; cbn in E.
  - by injection E.
  - injection E as <- _. exfalso. apply Hk', list_elem_of_here.
  - injection E as -> _. exfalso. apply Hk, list_elem_of_here.
  - injection E as -> E. apply IH in E as [-> ->]; [done|by intros ?; apply Hk; constructor|by intros ?; apply Hk'; constructor].
Qed.

Section options.
Context `{Layout} `{Platform}.

Definition options : list (regid * list Z * ftr_field) := regs ≫= options_of.
Definition keys : list (list Z) := (λ o, o.1.2) <$> options.

(** No two options share a name, and no name contains an equals sign or a dash. *)
Lemma keys_distinct : NoDup keys.
Proof. refine (bool_decide_unpack (NoDup keys) _). vm_compute. exact I. Qed.
Lemma keys_plain : Forall (λ k, Forall (λ c, c ≠ 0 ∧ isspace c = false ∧ c ≠ c_eq ∧ c ≠ c_dash) k ∧ (length k < 32)%nat) keys.
Proof. refine (bool_decide_unpack _ _). vm_compute. exact I. Qed.

Lemma key_no_eq r k f : (r, k, f) ∈ options → c_eq ∉ k.
Proof.
  intros Ho Hin. assert (k ∈ keys) as Hk by by apply (list_elem_of_fmap_2 (λ o, o.1.2)) in Ho.
  pose proof (proj1 (list.Forall_forall _ _) keys_plain k Hk) as [Hp _].
  rewrite list.Forall_forall in Hp. by destruct (Hp _ Hin) as (_ & _ & ? & _).
Qed.

(** A parameter that names no option changes nothing. *)
Lemma match_list_miss cmdline l s :
  (∀ r k f rest, (r, k, f) ∈ l → cmdline ≠ k ++ c_eq :: rest) → match_list cmdline l s = s.
Proof.
  induction l as [|[[r k] f] l IH]; intros Hno; [done|]. cbn [match_list].
  destruct (memeq _ _ _) eqn:E; [|apply IH; intros; apply (Hno r0 k0 f0); by constructor].
  apply memeq_key in E as [rest E]. by destruct (Hno r k f rest ltac:(constructor)).
Qed.

(** A parameter that names one has its effect, whatever else is in the list. *)
Lemma match_list_hit l r k f rest s :
  NoDup ((λ o : regid * list Z * ftr_field, o.1.2) <$> l) → (∀ r k f, (r, k, f) ∈ l → c_eq ∉ k) → (r, k, f) ∈ l →
  match_list (k ++ c_eq :: rest) l s =
  match parse_hexdigit rest with Ok v => (apply_field r f v s).2 | Err _ => s end.
Proof.
  induction l as [|[[r' k'] f'] l IH]; intros Hnd Hno Hin; [by apply elem_of_nil in Hin|].
  cbn [fmap list_fmap fst snd] in Hnd. apply list.NoDup_cons in Hnd as [Hk Hnd].
  assert (∀ s, match_list (k' ++ c_eq :: rest) l s = s) as Hmiss.
  { intros s0. apply match_list_miss. intros r0 k0 f0 rest0 Hin0 E.
    apply split_unique in E as [-> _]; [|by apply (Hno r' k' f'); constructor|by apply (Hno r0 k0 f0); constructor].
    apply Hk. by apply (list_elem_of_fmap_2 (λ o : regid * list Z * ftr_field, o.1.2)) in Hin0. }
  cbn [match_list]. apply elem_of_cons in Hin as [[= -> -> ->]|Hin].
  - rewrite (proj2 (memeq_key _ _)) by by exists rest.
    rewrite cons_middle, app_assoc, drop_app_length' by (rewrite length_app; simpl; lia).
    destruct (parse_hexdigit rest) as [v|].
    + destruct (apply_field r' f' v s) as [[] s'] eqn:Ea; [done|]. cbn [snd].
      rewrite <- app_assoc. apply Hmiss.
    + rewrite <- app_assoc. apply Hmiss.
  - destruct (memeq _ _ _) eqn:E.
    + apply memeq_key in E as [rest' E].
      apply split_unique in E as [-> _]; [|by apply (Hno r k f); constructor|by apply (Hno r' k' f'); constructor].
      exfalso. apply Hk. by apply (list_elem_of_fmap_2 (λ o : regid * list Z * ftr_field, o.1.2)) in Hin.
    + apply IH; [done| |done]. intros r0 k0 f0 Hin0. apply (Hno r0 k0 f0). by constructor.
Qed.

Lemma match_options_hit r k f rest s :
  (r, k, f) ∈ options →
  match_options (k ++ c_eq :: rest) s =
  match parse_hexdigit rest with Ok v => (apply_field r f v s).2 | Err _ => s end.
Proof.
  intros Ho. unfold match_options. rewrite match_regs_flat.
  apply match_list_hit; [apply keys_distinct|apply key_no_eq|done].
Qed.
End options.

(** ** Command lines *)

Definition spaces (sp : list Z) : Prop := Forall (λ c, isspace c = true) sp.
(** Nothing follows a parameter but a space. *)
Definition at_space (line : list Z) : Prop := match line with [] => True | c :: _ => isspace c = true end.

(** A parameter that fits into the buffer. *)
Record param_ok (p : list Z) : Prop := {
  po_nonempty : p ≠ [];
  po_length : (length p < BUF_SIZE)%nat;
  po_chars : Forall (λ c, isspace c = false ∧ c ≠ 0) p
}.

(** [reads line ps]: the parameters of a command line, up to a [--] of its own. *)
Inductive reads : list Z → list (list Z) → Prop :=
| reads_end sp : spaces sp → reads sp []
| reads_stop sp c rest : spaces sp → isspace c = true → reads (sp ++ c_dash :: c_dash :: c :: rest) []
| reads_param sp p line ps :
    spaces sp → param_ok p → at_space line → (p = [c_dash; c_dash] → line = []) →
    reads line ps → reads (sp ++ p ++ line) (p :: ps).

Lemma skip_spaces_app sp line :
  spaces sp → (∀ c line', line = c :: line' → isspace c = false) → skip_spaces (sp ++ line) = line.
Proof.
  intros Hsp Hl. induction sp as [|c sp IH]; cbn.
  - destruct line as [|c line]; [done|]. cbn. by rewrite (Hl c line eq_refl).
  - apply List.Forall_cons_iff in Hsp as [-> Hsp]. by apply IH.
Qed.

Lemma token_app p : ∀ n line,
  Forall (λ c, isspace c = false ∧ c ≠ 0) p → (length p ≤ n)%nat → at_space line → token n (p ++ line) = p.
Proof.
  induction p as [|c p IH]; intros n line Hp Hn Hl; cbn [app].
  - destruct n, line as [|c line]; try done. cbn. by rewrite Hl.
  - apply List.Forall_cons_iff in Hp as [[Hc _] Hp]. destruct n; [cbn in Hn; lia|]. cbn [token]. rewrite Hc.
    f_equal. apply IH; [done|cbn in Hn; lia|done].
Qed.

Lemma token_prefix n s : token n s `prefix_of` s.
Proof.
  revert s. induction n as [|n IH]; intros [|c s]; try apply prefix_nil. cbn [token].
  destruct (isspace c); [apply prefix_nil|]. by apply prefix_cons.
Qed.

Section loop.
Context (act : list Z → state → state).

(** The loop ends: a parameter is at least one character. *)
Lemma parse_loop_total fuel : ∀ line s, (length line < fuel)%nat → ∃ s', parse_loop act fuel line s = Some s'.
Proof.
  induction fuel as [|fuel IH]; intros line s Hl; [lia|]. cbn [parse_loop].
  assert (length (skip_spaces line) ≤ length line)%nat as Hsk.
  { clear. induction line as [|c line IH]; [done|]. cbn. destruct (isspace c); [|done]. cbn in IH. lia. }
  destruct (_ && _); [by eexists|]. destruct (Nat.eqb_spec (length (token (BUF_SIZE - 1) (skip_spaces line))) 0).
  { by eexists. }
  apply IH. rewrite length_drop.
  pose proof (prefix_length _ _ (token_prefix (BUF_SIZE - 1) (skip_spaces line))). lia.
Qed.

Lemma parse_loop_end fuel sp s : (0 < fuel)%nat → spaces sp → parse_loop act fuel sp s = Some s.
Proof.
  intros Hf Hsp. destruct fuel; [lia|]. cbn [parse_loop].
  assert (skip_spaces sp = []) as -> by (rewrite <- (app_nil_r sp); by apply skip_spaces_app).
  done.
Qed.

(** Every parameter is handled once, in order. *)
Lemma parse_loop_reads line ps : reads line ps → ∀ fuel s,
  (length line < fuel)%nat → parse_loop act fuel line s = Some (fold_left (λ s p, act (buf_char <$> p) s) ps s).
Proof.
  induction 1 as [sp Hsp|sp c rest Hsp Hc|sp p line ps Hsp Hp Hat Hdash Hr IH]; intros fuel s Hf.
  - apply parse_loop_end; [lia|done].
  - destruct fuel; [lia|]. cbn [parse_loop]. rewrite skip_spaces_app by (done || by intros ? ? [= <- _]).
    cbn. by rewrite Hc.
  - destruct Hp as [Hne Hlen Hch]. destruct fuel; [lia|]. cbn [parse_loop].
    rewrite skip_spaces_app; [|done|].
    2:{ intros c line' E. destruct p as [|x p]; [done|]. injection E as -> _.
        by apply List.Forall_cons_iff in Hch as [[? _] _]. }
    assert ((char_at (p ++ line) 0 =? c_dash) && (char_at (p ++ line) 1 =? c_dash) &&
      isspace (char_at (p ++ line) 2) = false) as ->.
    { apply not_true_iff_false. intros [[H0 H1]%andb_prop H2]%andb_prop.
      apply Z.eqb_eq in H0, H1. destruct p as [|x [|y [|z p]]]; [done| | |]; cbn in H0, H1, H2.
      - destruct line as [|c line]; [done|]. cbn in H1, Hat. by rewrite H1 in Hat.
      - subst x y. by rewrite (Hdash eq_refl) in H2.
      - apply List.Forall_cons_iff in Hch as [_ Hch]. apply List.Forall_cons_iff in Hch as [_ Hch].
        apply List.Forall_cons_iff in Hch as [[Hz _] _]. congruence. }
    rewrite token_app by (done || (unfold BUF_SIZE in *; lia)).
    destruct (Nat.eqb_spec (length p) 0) as [E0|_]; [by destruct p|].
    rewrite drop_app_length. cbn [fold_left]. apply IH. rewrite !length_app in Hf. destruct p; [done|]. cbn in Hf. lia.
Qed.
End loop.

(** ** Fields of a register *)

Definition field_hi (f : ftr_field) : Z := f_shift f + (if f_width f =? 0 then 4 else f_width f).
Definition in_field (f : ftr_field) (k : Z) : bool := (f_shift f <=? k) && (k <? field_hi f).
Definition apart (lo hi lo' hi' : Z) : Prop := hi ≤ lo' ∨ hi' ≤ lo.
#[export] Instance apart_dec lo hi lo' hi' : Decision (apart lo hi lo' hi').
Proof. unfold apart. apply _. Defined.

(** The layout of the architecture: the fields lie in their 64-bit register and do not
    overlap, and the granule and address-range fields do not overlap ECV. *)
Class LayoutLaws `{Layout} `{Platform} : Prop := {
  ll_range d f : d ∈ regs → f ∈ d_fields d → 0 ≤ f_shift f < field_hi f ∧ field_hi f ≤ 64;
  ll_apart d f g : d ∈ regs → f ∈ d_fields d → g ∈ d_fields d → f_name f ≠ f_name g →
    apart (f_shift f) (field_hi f) (f_shift g) (field_hi g);
  ll_tgran : 0 ≤ TGRAN_SHIFT ∧ apart ECV_SHIFT (ECV_SHIFT + 4) TGRAN_SHIFT (TGRAN_SHIFT + 4);
  ll_parange : 0 ≤ PARANGE_SHIFT ∧ apart ECV_SHIFT (ECV_SHIFT + 4) PARANGE_SHIFT (PARANGE_SHIFT + 4);
  ll_values : 0 ≤ TGRAN_LPA2 - 1 < 2 ^ 4 ∧ 0 ≤ PARANGE_48 < 2 ^ 4
}.

Lemma testbit_field_mask f k :
  0 ≤ f_shift f < field_hi f → 0 ≤ k → Z.testbit (field_mask f) k = in_field f k.
Proof.
  intros Hf Hk. unfold field_mask, in_field, field_hi in *. cbv zeta.
  rewrite testbit_GENMASK by lia. f_equal. lia.
Qed.

Lemma testbit_clear x f k :
  0 ≤ f_shift f < field_hi f → 0 ≤ k < 64 →
  Z.testbit (Z.land x (u64 (Z.lnot (field_mask f)))) k = Z.testbit x k && negb (in_field f k).
Proof.
  intros Hf Hk. rewrite Z.land_spec. unfold u64. rewrite Z.mod_pow2_bits_low, Z.lnot_spec by lia.
  by rewrite testbit_field_mask by lia.
Qed.

(** What an option does to the bits of its register. *)
Definition run_filter (f : ftr_field) (v : Z) (s : state) : bool * state :=
  match f_filter f with Some flt => flt v s | None => (true, s) end.

Lemma apply_field_bits r f v s ok s1 k :
  run_filter f v s = (ok, s1) → 0 ≤ f_shift f < field_hi f → field_hi f ≤ 64 → 0 ≤ k < 64 →
  let s' := (apply_field r f v s).2 in
  Z.testbit (val (override s' r)) k =
    (if in_field f k then (if ok then Z.testbit v (k - f_shift f) else true) else Z.testbit (val (override s1 r)) k) ∧
  Z.testbit (mask (override s' r)) k = (if in_field f k then ok else Z.testbit (mask (override s1 r)) k) ∧
  (∀ r', r' ≠ r → override s' r' = override s1 r') ∧ boot_status s' = boot_status s1.
Proof.
  intros Ef Hf H64 Hk. unfold apply_field. cbv zeta. fold (run_filter f v s). rewrite Ef.
  destruct ok; cbn [negb snd set_override override]; rewrite decide_True by done; cbn [val mask].
  all: split; [|split; [|split; [intros r' Hr; by rewrite decide_False|done]]].
  - rewrite Z.lor_spec, testbit_clear, Z.land_spec, testbit_field_mask by lia.
    unfold u64. rewrite Z.mod_pow2_bits_low, Z.shiftl_spec by lia.
    destruct (in_field f k); cbn; by rewrite ?andb_false_r, ?andb_true_r, ?orb_false_r.
  - rewrite Z.lor_spec, testbit_field_mask by lia. by destruct (in_field f k); rewrite ?orb_true_r, ?orb_false_r.
  - rewrite Z.lor_spec, testbit_field_mask by lia. by destruct (in_field f k); rewrite ?orb_true_r, ?orb_false_r.
  - rewrite testbit_clear by lia. by destruct (in_field f k); rewrite ?andb_false_r, ?andb_true_r.
Qed.

(** ** The state of a field *)

Definition full (x : Z) (f : ftr_field) : Prop := ∀ k, in_field f k = true → Z.testbit x k = true.
Definition clear (x : Z) (f : ftr_field) : Prop := ∀ k, in_field f k = true → Z.testbit x k = false.

(** Overridden, or not overridden: then the value is zero, or all ones when an override
    was refused. *)
Definition wf_field (o : arm64_ftr_override) (f : ftr_field) : Prop :=
  full (mask o) f ∨ (clear (mask o) f ∧ (clear (val o) f ∨ full (val o) f)).

(** Two words that agree on the field. *)
Definition agrees (o o' : arm64_ftr_override) (f : ftr_field) : Prop :=
  ∀ k, in_field f k = true → Z.testbit (val o) k = Z.testbit (val o') k ∧ Z.testbit (mask o) k = Z.testbit (mask o') k.

Lemma wf_agrees o o' f : agrees o o' f → wf_field o f → wf_field o' f.
Proof.
  intros Ha [Hm|[Hm Hv]]; [left|right].
  - intros k Hk. destruct (Ha k Hk) as [_ <-]. by apply Hm.
  - split; [intros k Hk; destruct (Ha k Hk) as [_ <-]; by apply Hm|].
    destruct Hv as [Hv|Hv]; [left|right]; intros k Hk; destruct (Ha k Hk) as [<- _]; by apply Hv.
Qed.

Section wf.
Context `{LayoutLaws}.

Definition wf_state (s : state) : Prop :=
  ∀ d f, d ∈ regs → f ∈ d_fields d → wf_field (override s (d_override d)) f.

Lemma regs_distinct : NoDup (d_override <$> regs).
Proof. refine (bool_decide_unpack (NoDup _) _). vm_compute. exact I. Qed.

Lemma regs_inj d d' : d ∈ regs → d' ∈ regs → d_override d = d_override d' → d = d'.
Proof.
  intros [i Hi]%list_elem_of_lookup [j Hj]%list_elem_of_lookup E.
  assert (i = j) as <-; [|congruence].
  apply (NoDup_lookup _ _ _ (d_override d) regs_distinct); rewrite list_lookup_fmap; [by rewrite Hi|by rewrite Hj, E].
Qed.

Lemma names_distinct : Forall (λ d, NoDup (f_name <$> d_fields d)) regs.
Proof.
  repeat (constructor; [refine (bool_decide_unpack (NoDup _) _); vm_compute; exact I|]). constructor.
Qed.

Lemma fields_inj d f g : d ∈ regs → f ∈ d_fields d → g ∈ d_fields d → f_name f = f_name g → f = g.
Proof.
  intros Hd [i Hi]%list_elem_of_lookup [j Hj]%list_elem_of_lookup E.
  pose proof (proj1 (list.Forall_forall _ _) names_distinct d Hd) as Hnd.
  assert (i = j) as <-; [|congruence].
  apply (NoDup_lookup _ _ _ (f_name f) Hnd); rewrite list_lookup_fmap; [by rewrite Hi|by rewrite Hj, E].
Qed.

(** A register that is replaced by one whose fields are well formed. *)
Lemma wf_set_override r o s :
  wf_state s → (∀ d f, d ∈ regs → d_override d = r → f ∈ d_fields d → wf_field o f) →
  wf_state (set_override r o s).
Proof.
  intros Hs Ho d f Hd Hf. unfold set_override. cbn [override]. case_decide; [by apply (Ho d)|by apply Hs].
Qed.

(** Bits outside the ECV field do not matter. *)
Lemma wf_or_mmfr0 a x m s :
  0 ≤ a → apart ECV_SHIFT (ECV_SHIFT + 4) a (a + 4) → 0 ≤ x < 2 ^ 4 → 0 ≤ m < 2 ^ 4 →
  wf_state s → wf_state (or_override Rmmfr0 (Z.shiftl x a) (Z.shiftl m a) s).
Proof.
  intros Ha Hap Hx Hm Hs. apply wf_set_override; [done|]. intros d f Hd Er Hf.
  destruct (ll_range d f Hd Hf) as [[Hpos _] _].
  apply (wf_agrees (override s Rmmfr0)); [|rewrite <- Er; by apply Hs].
  assert (d = mmfr0) as -> by (apply regs_inj; [done|by left|done]).
  apply list_elem_of_singleton in Hf as ->. intros k [Hlo Hhi]%andb_prop. cbn in Hpos, Hlo, Hhi.
  assert (∀ y, 0 ≤ y < 2 ^ 4 → Z.testbit (Z.shiftl y a) k = false) as Hbit.
  { intros y Hy. rewrite Z.shiftl_spec by lia. destruct (Z.ltb_spec k a); [by rewrite Z.testbit_neg_r by lia|].
    apply (testbit_above 4); [done|]. unfold field_hi in Hhi. cbn in Hhi. destruct Hap; lia. }
  cbn [val mask]. by rewrite !Z.lor_spec, !Hbit, !orb_false_r.
Qed.

Lemma wf_varange v s : wf_state s → wf_state (mmfr2_varange_filter v s).2.
Proof.
  intros Hs. unfold mmfr2_varange_filter. destruct ll_tgran, ll_parange, ll_values.
  destruct (v =? 0); [|done]. destruct CONFIG_ARM64_LPA2; [|done]. cbn [negb]. cbv zeta.
  destruct (_ >=? _); [|done]. cbn [snd]. by do 2 (apply wf_or_mmfr0; [done..|]).
Qed.

Lemma wf_sme v s : wf_state s → wf_state (pfr1_sme_filter v s).2.
Proof.
  intros Hs. unfold pfr1_sme_filter. destruct (v =? 0); [|done]. apply wf_set_override; [done|].
  intros d f Hd _ Hf. left. intros k [Hlo Hhi]%andb_prop. destruct (ll_range d f Hd Hf).
  cbn [mask]. rewrite testbit_GENMASK by lia. lia.
Qed.

Lemma wf_sve v s : wf_state s → wf_state (pfr0_sve_filter v s).2.
Proof.
  intros Hs. unfold pfr0_sve_filter. destruct (v =? 0); [|done]. apply wf_set_override; [done|].
  intros d f Hd Er _. exfalso. revert Hd Er. unfold regs. rewrite !elem_of_cons, elem_of_nil.
  by intros Hd; repeat destruct Hd as [-> |Hd].
Qed.

(** The filters of the table. *)
Lemma wf_filter d f v s : d ∈ regs → f ∈ d_fields d → wf_state s → wf_state (run_filter f v s).2.
Proof.
  intros Hd Hf Hs. unfold run_filter. destruct (f_filter f) as [flt|] eqn:E; [|done].
  assert (flt = mmfr1_vh_filter ∨ flt = mmfr2_varange_filter ∨ flt = pfr0_sve_filter ∨ flt = pfr1_sme_filter ∨
    flt = hvhe_filter) as Hflt.
  { revert Hd Hf E. unfold regs. rewrite !elem_of_cons, elem_of_nil.
    intros Hd; repeat destruct Hd as [-> |Hd]; try done; cbn [d_fields mmfr0 mmfr1 mmfr2 pfr0 pfr1 isar1 isar2 smfr0 sw_features];
      rewrite ?elem_of_cons, ?elem_of_nil; intros Hf; repeat destruct Hf as [-> |Hf]; try done;
      cbn [f_filter FIELD]; intros [= <-]; auto 6. }
  destruct Hflt as [-> |[-> |[-> |[-> | ->]]]]; [done|by apply wf_varange|by apply wf_sve|by apply wf_sme|done].
Qed.

Lemma wf_apply d f v s :
  d ∈ regs → f ∈ d_fields d → wf_state s → wf_state (apply_field (d_override d) f v s).2.
Proof.
  intros Hd Hf Hs d' g Hd' Hg. pose proof (wf_filter d f v s Hd Hf Hs) as Hs1.
  destruct (run_filter f v s) as [ok s1] eqn:Ef. cbn [snd] in Hs1. destruct (ll_range d f Hd Hf) as [Hr H64].
  pose proof (λ k, apply_field_bits (d_override d) f v s ok s1 k Ef Hr H64) as Hb. cbv zeta in Hb.
  destruct (decide (d_override d' = d_override d)) as [E|E].
  2:{ destruct (Hb 0 ltac:(lia)) as (_ & _ & Hoth & _). rewrite Hoth by done. by apply Hs1. }
  apply regs_inj in E; [|done|done]. subst d'. destruct (ll_range d g Hd Hg) as [Hr' H64'].
  destruct (decide (f_name f = f_name g)) as [En|En].
  - apply (fields_inj d f g) in En; [|done..]. subst g. destruct ok; [left|right].
    + intros k Hk. assert (0 ≤ k < 64) as Hk' by (apply andb_prop in Hk; lia).
      destruct (Hb k Hk') as (_ & Hm & _). by rewrite Hm, Hk.
    + split; [|right]; intros k Hk; assert (0 ≤ k < 64) as Hk' by (apply andb_prop in Hk; lia);
        destruct (Hb k Hk') as (Hv & Hm & _); by rewrite ?Hv, ?Hm, Hk.
  - apply (wf_agrees (override s1 (d_override d))); [|by apply Hs1].
    intros k Hk. assert (0 ≤ k < 64 ∧ in_field f k = false) as [Hk' Hn].
    { pose proof (ll_apart d f g Hd Hf Hg En) as Hap. unfold apart, in_field in *. apply andb_prop in Hk. lia. }
    destruct (Hb k Hk') as (Hv & Hm & _). by rewrite Hv, Hm, Hn.
Qed.

Lemma wf_match_list cmdline l s :
  (∀ r k f, (r, k, f) ∈ l → ∃ d, d ∈ regs ∧ f ∈ d_fields d ∧ r = d_override d) →
  wf_state s → wf_state (match_list cmdline l s).
Proof.
  revert s. induction l as [|[[r k] f] l IH]; intros s Hl Hs; [done|].
  assert (∀ s, wf_state s → wf_state (match_list cmdline l s)) as Hrest.
  { intros s0. apply IH. intros r0 k0 f0 Hin. apply (Hl r0 k0 f0). by constructor. }
  cbn [match_list]. destruct (memeq _ _ _); [|by apply Hrest].
  destruct (parse_hexdigit _) as [v|]; [|by apply Hrest].
  destruct (Hl r k f ltac:(constructor)) as (d & Hd & Hf & ->).
  pose proof (wf_apply d f v s Hd Hf Hs) as Ha. destruct (apply_field _ _ _ _) as [[] s']; [done|by apply Hrest].
Qed.

Lemma wf_match_options cmdline s : wf_state s → wf_state (match_options cmdline s).
Proof.
  intros Hs. unfold match_options. rewrite match_regs_flat. apply wf_match_list; [|done].
  intros r k f (d & Ho & Hd)%list_elem_of_bind.
  apply list_elem_of_fmap in Ho as (f' & [= -> _ ->] & Hf). by exists d.
Qed.

Lemma parse_loop_keeps (P : state → Prop) act fuel : (∀ tok s, P s → P (act tok s)) → ∀ line s s',
  parse_loop act fuel line s = Some s' → P s → P s'.
Proof.
  intros Hact. induction fuel as [|fuel IH]; intros line s s' E Hs; [done|]. cbn [parse_loop] in E.
  destruct (_ && _); [by simplify_eq|]. destruct (_ =? 0)%nat; [by simplify_eq|].
  by eapply IH, Hact.
Qed.

Lemma parse_features_total junk line s : ∃ s', parse_features junk line s = Some s'.
Proof. apply parse_loop_total. lia. Qed.

Lemma parse_total junk line b s : ∃ s', __parse_cmdline junk line b s = Some s'.
Proof. unfold __parse_cmdline. destruct b; [apply parse_loop_total; lia|apply parse_features_total]. Qed.

Lemma wf_parse_features junk line s s' : parse_features junk line s = Some s' → wf_state s → wf_state s'.
Proof. apply parse_loop_keeps. intros tok s0. apply wf_match_options. Qed.

Lemma wf_expand junk tok s : wf_state s → wf_state (expand_aliases junk tok s).
Proof.
  unfold expand_aliases. generalize aliases. intros l. revert s. induction l as [|a l IH]; intros s Hs; [done|].
  cbn [fold_left]. apply IH. destruct (memeq _ _ _); [|done].
  destruct (parse_features_total junk a.2 s) as [s' E]. rewrite E. by eapply wf_parse_features.
Qed.

Lemma wf_parse junk line b s s' : __parse_cmdline junk line b s = Some s' → wf_state s → wf_state s'.
Proof.
  destruct b; [|apply wf_parse_features]. apply parse_loop_keeps. intros tok s0 Hs.
  by apply wf_expand, wf_match_options.
Qed.

Lemma reset_override rs s r :
  override (fold_left (λ s d, set_override (d_override d) (Override 0 0) s) rs s) r =
  if decide (r ∈ d_override <$> rs) then Override 0 0 else override s r.
Proof.
  revert s. induction rs as [|d rs IH]; intros s; [done|]. cbn [fold_left fmap list_fmap].
  rewrite IH. cbn [set_override override]. destruct (decide (r ∈ d_override <$> rs)) as [Hin|Hn].
  - rewrite decide_True; [done|by apply elem_of_cons; right].
  - destruct (decide (r = d_override d)) as [-> |Hne]; [rewrite decide_True; [done|by apply elem_of_cons; left]|].
    rewrite decide_False; [done|]. by intros [|]%elem_of_cons.
Qed.

Lemma wf_parse_cmdline junk prop s : wf_state s → ∃ s', parse_cmdline junk prop s = Some s' ∧ wf_state s'.
Proof.
  intros Hs. unfold parse_cmdline. cbv zeta. generalize (get_bootargs_cmdline prop). intros prop'.
  assert (∀ (b : bool) line, ∃ s1, (if b then __parse_cmdline junk line true s else Some s) = Some s1 ∧ wf_state s1) as Hfirst.
  { intros [] line; [|by eexists]. destruct (parse_total junk line true s) as [s1 E].
    exists s1. split; [done|]. by eapply wf_parse. }
  destruct (Hfirst (CONFIG_CMDLINE_FORCE || match prop' with None => true | Some _ => false end) CONFIG_CMDLINE)
    as (s1 & -> & Hs1).
  cbn [mbind option_bind]. destruct prop' as [p|]; [|by eexists]. destruct CONFIG_CMDLINE_FORCE; cbn [negb]; [by eexists|].
  destruct (parse_total junk p true s1) as [s2 E]. exists s2. split; [done|]. by eapply wf_parse.
Qed.

(** Whatever the command line is, early boot ends with consistent overrides: the
    parser returns, and every field of every feature register is either overridden
    (its whole mask set), or not (its whole mask clear, and its value all zeroes, or
    all ones as the mark of an override that was refused), so that no field is ever
    overridden in part and no option disturbs another field. *)
Theorem idreg_overrides_consistent junk status prop s :
  ∃ s', init_feature_override junk status prop s = Some s' ∧ wf_state s'.
Proof.
  unfold init_feature_override. cbv zeta. set (s0 := fold_left _ _ _).
  assert (wf_state (State status (override s0))) as Hs0.
  { intros d f Hd Hf. cbn [override]. unfold s0. rewrite reset_override, decide_True by by apply list_elem_of_fmap_2.
    right. split; [|left]; intros k _; apply Z.bits_0. }
  by apply wf_parse_cmdline.
Qed.
End wf.

(** ** The reference semantics of a command line

    What a parameter means, without buffers: the option it names, and the options its
    alias stands for. *)

Section reference.
Context `{Layout} `{Platform}.

Definition option_effect (p : list Z) (s : state) : state :=
  match list_find (λ o : regid * list Z * ftr_field, (o.1.2 ++ [c_eq]) `prefix_of` p) options with
  | Some (_, (r, k, f)) =>
      match parse_hexdigit (drop (length k + 1) p) with Ok v => (apply_field r f v s).2 | Err _ => s end
  | None => s
  end.

(** The words of a line. *)
Fixpoint words (l : list Z) : list (list Z) :=
  match l with
  | [] => [[]]
  | c :: l' =>
      if c =? 32 then [] :: words l'
      else match words l' with w :: ws => (c :: w) :: ws | [] => [[c]] end
  end.

Definition alias_effect (p : list Z) (s : state) : state :=
  match list_find (λ a : list Z * list Z, a.1 = p) aliases with
  | Some (_, a) => fold_left (λ s q, option_effect q s) (words a.2) s
  | None => s
  end.

Definition param_effect (parse_aliases : bool) (p : list Z) (s : state) : state :=
  let p := buf_char <$> p in
  let s := option_effect p s in
  if parse_aliases then alias_effect p s else s.

Context (junk : list Z).

(** The digit is read up to the terminating zero. *)
Lemma parse_hexdigit_buffer p :
  0 ∉ p → parse_hexdigit (p ++ 0 :: junk) = parse_hexdigit p.
Proof.
  intros Hz. unfold parse_hexdigit, char_at.
  destruct p as [|a [|b [|c [|d p]]]]; cbn [app lookup list_lookup default from_option id drop]; try done.
  - change (tolower 0 =? c_x) with false. by rewrite andb_false_r.
  - by destruct (_ && _).
  - by destruct (_ && _).
  - by destruct (_ && _).
Qed.

Lemma match_options_effect p s : 0 ∉ p → match_options (buffer junk p) s = option_effect p s.
Proof.
  intros Hz. unfold option_effect, buffer. destruct (list_find _ options) as [[i [[r k] f]]|] eqn:E.
  - apply list_find_Some in E as (Hi & [rest Hp] & _). apply list_elem_of_lookup_2 in Hi. cbn [fst snd] in Hp.
    rewrite <- app_assoc in Hp. cbn [app] in Hp. subst p.
    replace ((k ++ c_eq :: rest) ++ [0] ++ junk) with (k ++ c_eq :: (rest ++ 0 :: junk)) by by rewrite <- app_assoc.
    rewrite (match_options_hit r k f) by done. rewrite parse_hexdigit_buffer.
    2:{ intros Hin. apply Hz, elem_of_app. right. by constructor. }
    rewrite cons_middle, app_assoc, drop_app_length' by (rewrite length_app; simpl; lia). done.
  - unfold match_options. rewrite match_regs_flat. apply match_list_miss. intros r k f rest Ho Hp.
    apply list_find_None in E. rewrite list.Forall_forall in E. apply (E _ Ho). cbn [fst snd].
    assert (k ∈ keys) as Hk by by apply (list_elem_of_fmap_2 (λ o, o.1.2)) in Ho.
    pose proof (proj1 (list.Forall_forall _ _) keys_plain k Hk) as [Hplain _]. rewrite list.Forall_forall in Hplain.
    assert (0 ∉ k ++ [c_eq]) as Hzk.
    { intros [Hin|Hin%list_elem_of_singleton]%elem_of_app; [by destruct (Hplain _ Hin)|by vm_compute in Hin]. }
    replace (k ++ c_eq :: rest) with ((k ++ [c_eq]) ++ rest) in Hp by by rewrite <- app_assoc.
    destruct (decide (length (k ++ [c_eq]) ≤ length p)%nat) as [Hle|Hgt].
    + exists (drop (length (k ++ [c_eq])) p). rewrite <- (take_drop (length (k ++ [c_eq])) p) at 1. f_equal.
      apply (f_equal (take (length (k ++ [c_eq])))) in Hp.
      rewrite take_app_le, take_app_length in Hp by done. done.
    + exfalso. apply Hzk.
      assert ((p ++ [0] ++ junk) !! length p = Some 0) as Hend
        by (rewrite lookup_app_r by lia; by rewrite Nat.sub_diag).
      rewrite Hp, lookup_app_l in Hend by lia. by eapply list_elem_of_lookup_2.
Qed.

(** The name of an alias is compared with its terminating zero, and nothing behind it
    matters. *)
Lemma memeq_alias p (a : list Z * list Z) :
  0 ∉ p → 0 ∉ a.1 → (length a.1 < FTR_ALIAS_NAME_LEN)%nat →
  memeq (buffer junk p) (alias_memory junk a) (length p + 1) = bool_decide (a.1 = p).
Proof.
  intros Hp Ha Hl. unfold memeq, buffer. apply bool_decide_ext.
  rewrite (app_assoc p), take_app_length' by (rewrite length_app; simpl; lia).
  unfold alias_memory. destruct (FTR_ALIAS_NAME_LEN - length a.1)%nat as [|n] eqn:En; [lia|]. cbn [replicate app].
  set (rest := replicate n 0 ++ _). split.
  - intros E. assert (p ++ 0 :: drop (length p + 1) (a.1 ++ 0 :: rest) = a.1 ++ 0 :: rest) as E'.
    { etrans; [|apply (take_drop (length p + 1))]. by rewrite <- E, <- app_assoc. }
    apply split_unique in E' as [-> _]; done.
  - intros <-. replace (a.1 ++ 0 :: rest) with ((a.1 ++ [0]) ++ rest) by by rewrite <- app_assoc.
    rewrite take_app_length'; [done|]. rewrite length_app. simpl. lia.
Qed.

(** The table of aliases: names that differ, fit and hold no zero, and expansions that
    are words within the limits of a parameter, with neither zero nor dash. *)
Lemma aliases_distinct : NoDup aliases.*1.
Proof. refine (bool_decide_unpack (NoDup _) _). vm_compute. exact I. Qed.

Definition word_ok (w : list Z) : Prop :=
  w ≠ [] ∧ (length w < BUF_SIZE)%nat ∧ Forall (λ c, isspace c = false ∧ c ≠ 0 ∧ c ≠ c_dash) w.

Lemma aliases_ok :
  Forall (λ a : list Z * list Z, Forall (λ c, c ≠ 0) a.1 ∧ (length a.1 < FTR_ALIAS_NAME_LEN)%nat ∧ Forall word_ok (words a.2)) aliases.
Proof. refine (bool_decide_unpack (Forall _ _) _). vm_compute. exact I. Qed.

Lemma words_inv l : ∀ w ws, words l = w :: ws →
  (32 ∉ w) ∧ ((ws = [] ∧ l = w) ∨ ∃ l', l = w ++ 32 :: l' ∧ words l' = ws).
Proof.
  induction l as [|c l IH]; intros w ws E; cbn [words] in E.
  - injection E as <- <-. split; [by apply not_elem_of_nil|by left].
  - destruct (Z.eqb_spec c 32) as [-> |Hc].
    + injection E as <- <-. split; [by apply not_elem_of_nil|]. right. by exists l.
    + destruct (words l) as [|w' ws'] eqn:Ew; injection E as <- <-.
      * destruct l as [|d l]; [done|]. cbn in Ew. destruct (d =? 32); [done|]. by destruct (words l).
      * destruct (IH w' ws' eq_refl) as [Hn Hor]. split; [by intros [|]%elem_of_cons|].
        destruct Hor as [[-> ->]|(l' & -> & <-)]; [by left|right; by exists l'].
Qed.

Lemma reads_space c l ps : isspace c = true → reads l ps → reads (c :: l) ps.
Proof.
  intros Hc. destruct 1 as [sp Hsp|sp d rest Hsp Hd|sp p line ps Hsp Hp Hat Hdash Hr].
  - apply reads_end. by constructor.
  - apply (reads_stop (c :: sp)); [by constructor|done].
  - apply (reads_param (c :: sp)); [by constructor|done..].
Qed.

(** A line of words separated by single spaces is read as its words. *)
Lemma words_reads ws : ∀ l, words l = ws → Forall word_ok ws → reads l ws.
Proof.
  induction ws as [|w ws IH]; intros l E Hok.
  - destruct l as [|c l]; [done|]. cbn in E. destruct (c =? 32); [done|]. by destruct (words l).
  - apply List.Forall_cons_iff in Hok as [(Hne & Hlen & Hch) Hok].
    assert (param_ok w) as Hp.
    { split; [done|done|]. eapply Forall_impl; [|exact Hch]. by intros c (? & ? & _). }
    assert (w = [c_dash; c_dash] → False) as Hnd.
    { intros ->. by apply List.Forall_cons_iff in Hch as [(_ & _ & ?) _]. }
    destruct (words_inv l w ws E) as [_ [[-> ->]|(l' & -> & El')]].
    + rewrite <- (app_nil_r w) at 1. apply (reads_param [] w [] []); [constructor|done|done|done|].
      apply reads_end. constructor.
    + apply (reads_param [] w (32 :: l') ws); [constructor|done|done|by intros ?%Hnd|].
      apply reads_space; [done|]. by apply IH.
Qed.

Lemma word_no_dash w : word_ok w → buf_char <$> w = w ∧ 0 ∉ w.
Proof.
  intros (_ & _ & Hch). split.
  - induction Hch as [|c w (_ & _ & Hd) _ IH]; [done|]. cbn. rewrite IH. unfold buf_char.
    by rewrite (proj2 (Z.eqb_neq _ _) Hd).
  - intros Hin. rewrite list.Forall_forall in Hch. by destruct (Hch _ Hin) as (_ & ? & _).
Qed.

Lemma features_effect (a : list Z * list Z) s :
  Forall word_ok (words a.2) →
  parse_features junk a.2 s = Some (fold_left (λ s q, option_effect q s) (words a.2) s).
Proof.
  intros Hok. unfold parse_features. rewrite (parse_loop_reads _ _ (words a.2)); [|by apply words_reads|lia].
  f_equal. revert s. induction Hok as [|w ws Hw _ IH]; intros s; [done|]. cbn [fold_left].
  destruct (word_no_dash w Hw) as [-> Hz]. rewrite match_options_effect by done. apply IH.
Qed.

Lemma expand_effect p s : 0 ∉ p → expand_aliases junk p s = alias_effect p s.
Proof.
  intros Hz. unfold expand_aliases, alias_effect. pose proof aliases_ok as Hok. pose proof aliases_distinct as Hnd.
  revert Hok Hnd. generalize aliases. intros l Hok Hnd. revert s.
  induction l as [|a l IH]; intros s; [done|].
  apply List.Forall_cons_iff in Hok as [(Ha & Hl & Hw) Hok]. cbn [fmap list_fmap] in Hnd.
  apply list.NoDup_cons in Hnd as [Hnin Hnd]. cbn [fold_left list_find].
  rewrite memeq_alias; [|done| |done].
  2:{ intros Hin. rewrite list.Forall_forall in Ha. by apply (Ha _ Hin). }
  destruct (decide (a.1 = p)) as [Ea|Ea]; [rewrite bool_decide_true by done|rewrite bool_decide_false by done].
  - rewrite features_effect by done. cbn [default from_option id]. rewrite IH by done.
    destruct (list_find (λ a0 : list Z * list Z, a0.1 = p) l) as [[i a']|] eqn:E; [|done].
    exfalso. apply list_find_Some in E as (Hi & Ea' & _). apply Hnin. rewrite Ea, <- Ea'.
    by eapply list_elem_of_fmap_2, list_elem_of_lookup_2.
  - rewrite IH by done. by destruct (list_find (λ a0 : list Z * list Z, a0.1 = p) l) as [[i a']|].
Qed.
End reference.

Lemma buf_char_nonzero p : Forall (λ c, isspace c = false ∧ c ≠ 0) p → 0 ∉ buf_char <$> p.
Proof.
  intros Hp (c & Ec & Hc)%list_elem_of_fmap. rewrite list.Forall_forall in Hp.
  destruct (Hp _ Hc) as [_ Hn]. unfold buf_char in Ec. destruct (c =? c_dash); [done|congruence].
Qed.

Lemma reads_params line ps : reads line ps → Forall param_ok ps.
Proof. by induction 1; constructor. Qed.

Lemma parse_cmdline_effect `{Layout} `{Platform} junk line ps parse_aliases s :
  reads line ps →
  __parse_cmdline junk line parse_aliases s =
  Some (fold_left (λ s p, param_effect parse_aliases p s) ps s).
Proof.
  intros Hr. pose proof (reads_params _ _ Hr) as Hps.
  assert (∀ act, (∀ p s, param_ok p → act (buf_char <$> p) s = param_effect parse_aliases p s) →
    ∀ s, fold_left (λ s p, act (buf_char <$> p) s) ps s = fold_left (λ s p, param_effect parse_aliases p s) ps s) as Hfold.
  { clear Hr s. intros act Hact. induction Hps as [|p ps Hp _ IH]; intros s; [done|]. cbn [fold_left].
    by rewrite Hact. }
  unfold __parse_cmdline, parse_features. destruct parse_aliases; rewrite (parse_loop_reads _ _ ps) by (done || lia); f_equal.
  - apply (Hfold (λ tok s, expand_aliases junk tok (match_options (buffer junk tok) s))).
    intros p s0 [_ _ Hch]. pose proof (buf_char_nonzero p Hch). unfold param_effect. cbv zeta.
    by rewrite match_options_effect, expand_effect.
  - apply (Hfold (λ tok, match_options (buffer junk tok))).
    intros p s0 [_ _ Hch]. pose proof (buf_char_nonzero p Hch). unfold param_effect. cbv zeta.
    by rewrite match_options_effect.
Qed.

(** C35. The parser does what a command line says.  For every command line whose
    parameters fit the buffer (separated by any white space, ended by the end of the
    line or by a [--] of its own), it returns, having handled the parameters once each
    and in their order: a parameter that names an option of a register takes effect if
    its value is a single hexadecimal digit, a parameter that is an alias has the effect
    of the options it stands for, and any other has none.  What lies on the stack
    behind the buffer or in memory behind the table of aliases does not matter. *)
Theorem idreg_parse_exact `{Layout} `{Platform} junk line ps parse_aliases s :
  reads line ps →
  __parse_cmdline junk line parse_aliases s =
  Some (fold_left (λ s p, param_effect parse_aliases p s) ps s).
Proof. apply parse_cmdline_effect. Qed.

(** ** One option *)

(** The hexadecimal digits and their values. *)
Definition hex_digits : list (Z * Z) :=
  zip (chars "0123456789abcdefABCDEF") (seqZ 0 16 ++ seqZ 10 6).
Definition hex_prefixes : list (list Z) := [[]; chars "0x"; chars "0X"].

Lemma hexdigit_value :
  Forall (λ pre, Forall (λ cv : Z * Z, parse_hexdigit (pre ++ [cv.1]) = Ok cv.2) hex_digits) hex_prefixes.
Proof. by repeat constructor. Qed.

Lemma digits_plain :
  Forall (λ pre, Forall (λ cv : Z * Z, Forall (λ c, c ≠ 0 ∧ isspace c = false ∧ c ≠ c_dash) (pre ++ [cv.1]) ∧
    (length (pre ++ [cv.1]) < 8)%nat) hex_digits) hex_prefixes.
Proof. refine (bool_decide_unpack (Forall _ _) _). vm_compute. exact I. Qed.

Definition option_text (d : ftr_set_desc) (f : ftr_field) (value : list Z) : list Z :=
  (d_name d ++ [c_dot] ++ f_name f) ++ c_eq :: value.

Section one_option.
Context `{Layout} `{Platform}.

Lemma option_elem d f : d ∈ regs → f ∈ d_fields d → (d_override d, d_name d ++ [c_dot] ++ f_name f, f) ∈ options.
Proof.
  intros Hd Hf. apply list_elem_of_bind. exists d. split; [|done].
  by apply (list_elem_of_fmap_2 (λ f, (d_override d, d_name d ++ [c_dot] ++ f_name f, f))).
Qed.

Lemma option_text_plain d f pre c v :
  d ∈ regs → f ∈ d_fields d → pre ∈ hex_prefixes → (c, v) ∈ hex_digits →
  Forall (λ c, c ≠ 0 ∧ isspace c = false ∧ c ≠ c_dash) (option_text d f (pre ++ [c])) ∧
  (length (option_text d f (pre ++ [c])) < BUF_SIZE)%nat.
Proof.
  intros Hd Hf Hpre Hc. pose proof (option_elem d f Hd Hf) as Ho.
  apply (list_elem_of_fmap_2 (λ o : regid * list Z * ftr_field, o.1.2)) in Ho. cbn [fst snd] in Ho.
  pose proof (proj1 (list.Forall_forall _ _) keys_plain _ Ho) as [Hk Hkl].
  pose proof (proj1 (list.Forall_forall _ _) digits_plain _ Hpre) as Hd1.
  pose proof (proj1 (list.Forall_forall _ _) Hd1 _ Hc) as [Hv Hvl]. cbn [fst] in Hv, Hvl.
  unfold option_text. split.
  - apply Forall_app. split; [eapply Forall_impl; [|exact Hk]; naive_solver|]. constructor; [done|exact Hv].
  - rewrite length_app. cbn [length]. unfold BUF_SIZE. lia.
Qed.

Lemma parse_option junk d f pre c v s :
  d ∈ regs → f ∈ d_fields d → pre ∈ hex_prefixes → (c, v) ∈ hex_digits →
  __parse_cmdline junk (option_text d f (pre ++ [c])) false s = Some (apply_field (d_override d) f v s).2.
Proof.
  intros Hd Hf Hpre Hc. destruct (option_text_plain d f pre c v Hd Hf Hpre Hc) as [Hch Hlen].
  set (p := option_text d f (pre ++ [c])) in *.
  assert (word_ok p) as Hw.
  { split; [unfold p, option_text; by destruct (d_name d ++ [c_dot] ++ f_name f)|]. split; [done|].
    eapply Forall_impl; [|exact Hch]. naive_solver. }
  destruct (word_no_dash p Hw) as [Hbuf Hz].
  rewrite (parse_cmdline_effect junk p [p]).
  2:{ rewrite <- (app_nil_r p) at 1. apply (reads_param [] p [] []); [constructor| |done|done|apply reads_end; constructor].
      destruct Hw as (? & ? & ?). split; [done|done|]. eapply Forall_impl; [|exact Hch]. naive_solver. }
  cbn [fold_left]. unfold param_effect. cbv zeta. rewrite Hbuf, <- (match_options_effect []) by done.
  unfold buffer, p, option_text. rewrite <- app_assoc. cbn [app].
  rewrite (match_options_hit _ _ _ _ _ (option_elem d f Hd Hf)), parse_hexdigit_buffer.
  2:{ intros Hin. apply Hz. unfold p, option_text. apply elem_of_app. right. by constructor. }
  pose proof (proj1 (list.Forall_forall _ _) hexdigit_value _ Hpre) as Hd1.
  pose proof (proj1 (list.Forall_forall _ _) Hd1 _ Hc) as Hv. cbn [fst snd] in Hv. by rewrite Hv.
Qed.
End one_option.

(** An option that is written is the option that is set.  For every register and
    field of the table and every hexadecimal digit, with or without a leading 0x, the
    command line [register.field=digit] is recognised, and
    exactly that field changes: if its filter accepts the value, the bits of the field
    hold the digit and are marked as overridden; if the filter refuses it, they hold
    the mark of a refused override and are not overridden.  Every other bit of the
    register, and every other register, is what the filter left. *)
Theorem idreg_option_exact `{LayoutLaws} junk d f pre c v s ok s1 :
  d ∈ regs → f ∈ d_fields d → pre ∈ hex_prefixes → (c, v) ∈ hex_digits →
  run_filter f v s = (ok, s1) →
  ∃ s', __parse_cmdline junk (option_text d f (pre ++ [c])) false s = Some s' ∧
    (∀ k, 0 ≤ k < 64 →
       Z.testbit (val (override s' (d_override d))) k =
         (if in_field f k then (if ok then Z.testbit v (k - f_shift f) else true)
          else Z.testbit (val (override s1 (d_override d))) k) ∧
       Z.testbit (mask (override s' (d_override d))) k =
         (if in_field f k then ok else Z.testbit (mask (override s1 (d_override d))) k)) ∧
    ∀ r, r ≠ d_override d → override s' r = override s1 r.
Proof.
  intros Hd Hf Hpre Hc Ef. destruct (ll_range d f Hd Hf) as [Hr H64].
  eexists. split; [by apply parse_option with (v := v)|]. split.
  - intros k Hk. destruct (apply_field_bits (d_override d) f v s ok s1 k Ef Hr H64 Hk) as (? & ? & _). done.
  - by destruct (apply_field_bits (d_override d) f v s ok s1 0 Ef Hr H64 ltac:(lia)) as (_ & _ & ? & _).
Qed.

(** ** Examples *)

Module Arm.
(** The positions of the Arm architecture, for 16 KiB pages. *)
Instance arm_layout : Layout := {
  ECV_SHIFT := 60; VH_SHIFT := 8; VARange_SHIFT := 16;
  SVE_SHIFT := 32; EL0_SHIFT := 0; MPAM_SHIFT := 40;
  BT_SHIFT := 0; GCS_SHIFT := 44; MTE_SHIFT := 8; SME_SHIFT := 24; MPAM_frac_SHIFT := 16;
  GPI_SHIFT := 28; GPA_SHIFT := 24; API_SHIFT := 8; APA_SHIFT := 4;
  WFxT_SHIFT := 0; GPA3_SHIFT := 8; APA3_SHIFT := 12; MOPS_SHIFT := 16;
  SMEver_SHIFT := 56; FA64_SHIFT := 63;
  NOKASLR := 0; HVHE := 4; RODATA_OFF := 8;
  TGRAN_SHIFT := 20; TGRAN_LPA2 := 2; PARANGE_SHIFT := 0; PARANGE_48 := 5;
  BOOT_CPU_FLAG_E2H := BIT 32; BOOT_CPU_MODE_EL2 := 0xe12
}.
(** A CPU with LPA2 and the VHE feature. *)
Instance arm_platform : Platform := {
  id_aa64mmfr0_el1 := 0x200000;
  id_aa64mmfr1_el1 := 0x100;
  extract_signed w s := let x := Z.land (Z.shiftr w s) 0xf in if x >=? 8 then x - 16 else x;
  extract_unsigned w s := Z.land (Z.shiftr w s) 0xf;
  CONFIG_ARM64_LPA2 := true;
  CONFIG_CMDLINE := [];
  CONFIG_CMDLINE_FORCE := false
}.

Instance arm_laws : LayoutLaws.
Proof.
  assert (Forall (λ d, Forall (λ f, 0 ≤ f_shift f < field_hi f ∧ field_hi f ≤ 64) (d_fields d)) regs) as Hr
    by (refine (bool_decide_unpack (Forall _ _) _); vm_compute; exact I).
  assert (Forall (λ d, Forall (λ f, Forall (λ g, f_name f ≠ f_name g →
      apart (f_shift f) (field_hi f) (f_shift g) (field_hi g)) (d_fields d)) (d_fields d)) regs) as Ha
    by (refine (bool_decide_unpack (Forall _ _) _); vm_compute; exact I).
  split.
  - intros d f Hd Hf. exact (proj1 (list.Forall_forall _ _) (proj1 (list.Forall_forall _ _) Hr d Hd) f Hf).
  - intros d f g Hd Hf Hg.
    exact (proj1 (list.Forall_forall _ _) (proj1 (list.Forall_forall _ _) (proj1 (list.Forall_forall _ _) Ha d Hd) f Hf) g Hg).
  - refine (bool_decide_unpack (_ ∧ _) _). vm_compute. exact I.
  - refine (bool_decide_unpack (_ ∧ _) _). vm_compute. exact I.
  - refine (bool_decide_unpack (_ ∧ _) _). vm_compute. exact I.
Qed.

Definition clean : state := State 0 (λ _, Override 0 0).
End Arm.
Import Arm.

(** [nokaslr arm64.nopauth id_aa64pfr0.sve=0x0 -- arm64.nobti]: the last one is not
    for the kernel. *)
Definition demo_line : list Z := chars "nokaslr  arm64.nopauth id-aa64pfr0.sve=0x0 -- arm64.nobti".

Lemma idreg_parse_exact_witness :
  ∃ s', __parse_cmdline [7; 7] demo_line true clean = Some s' ∧
    override s' Rsw = Override 1 0xf ∧ override s' Risar1 = Override 0 0xff000ff0 ∧
    override s' Rpfr0 = Override 0 0xf00000000 ∧ override s' Rzfr0 = Override 0 (2 ^ 64 - 1) ∧
    override s' Rpfr1 = Override 0 0.
Proof.
  exists (fold_left (λ s p, param_effect true p s)
    [chars "nokaslr"; chars "arm64.nopauth"; chars "id-aa64pfr0.sve=0x0"] clean).
  split; [|by vm_compute]. apply idreg_parse_exact.
  assert (∀ p, bool_decide (p ≠ [] ∧ (length p < BUF_SIZE)%nat ∧ Forall (λ c, isspace c = false ∧ c ≠ 0) p) = true → param_ok p) as Hp
    by (intros p (? & ? & ?)%bool_decide_eq_true; by split).
  apply (reads_param [] (chars "nokaslr")); [constructor|by apply Hp; vm_compute|done|done|].
  apply (reads_param [32; 32] (chars "arm64.nopauth")); [by repeat constructor|by apply Hp; vm_compute|done|done|].
  apply (reads_param [32] (chars "id-aa64pfr0.sve=0x0")); [by repeat constructor|by apply Hp; vm_compute|done|done|].
  apply (reads_stop [32] 32 (chars "arm64.nobti")); [by repeat constructor|done].
Defined.

Lemma idreg_option_exact_witness :
  ∃ s', __parse_cmdline [] (chars "id_aa64mmfr2.varange=0") false clean = Some s' ∧
    Z.testbit (mask (override s' Rmmfr2)) 17 = true ∧ Z.testbit (val (override s' Rmmfr2)) 17 = false ∧
    override s' Rmmfr0 = Override 0x100005 0xf0000f.
Proof.
  set (f := FIELD "varange" VARange_SHIFT (Some mmfr2_varange_filter)).
  destruct (idreg_option_exact [] mmfr2 f [] 48 0 clean true (mmfr2_varange_filter 0 clean).2)
    as (s' & E & Hb & Ho).
  - by apply list_elem_of_lookup_2 with (i := 2%nat).
  - by apply list_elem_of_lookup_2 with (i := 0%nat).
  - by apply list_elem_of_lookup_2 with (i := 0%nat).
  - by apply list_elem_of_lookup_2 with (i := 0%nat).
  - by vm_compute.
  - exists s'. split; [exact E|]. destruct (Hb 17 ltac:(done)) as [Hv Hm].
    cbn [d_override mmfr2] in Hv, Hm. rewrite Hv, Hm, (Ho Rmmfr0) by done. by vm_compute.
Defined.

Lemma idreg_overrides_consistent_witness :
  ∃ s', init_feature_override [] 0xe12 (Some (chars "kvm-arm.mode=protected")) clean = Some s' ∧
    wf_state s' ∧ override s' Rsw = Override 0x10 0xf0.
Proof.
  destruct (idreg_overrides_consistent [] 0xe12 (Some (chars "kvm-arm.mode=protected")) clean) as (s' & E & Hs).
  exists s'. split; [exact E|]. split; [exact Hs|].
  transitivity (override (default clean (init_feature_override [] 0xe12 (Some (chars "kvm-arm.mode=protected")) clean)) Rsw);
    [by rewrite E|by vm_compute].
Defined.

(** ** Findings *)

(** A parameter longer than the buffer is cut, and its rest is taken for a parameter of
    its own: here the tail of a long one switches KASLR off. *)
Example idreg_long_parameter_split :
  override (default clean (__parse_cmdline [] (replicate 255 (chr "a"%char) ++ chars "nokaslr") true clean)) Rsw =
  Override 1 0xf.
Proof. by vm_compute. Qed.
