(* ===== verification/CpuFtrTables.v ===== *)
(** * The tables of arm64 feature registers

    sources/asahi--arch__arm64__kernel__cpufeature.c, lines 124-875: the fields of each
    identification register and the array of registers.  The positions of the fields and
    the encodings of the registers are constants of a generated header: [SYSREG] maps a
    name to its value.  [sample_sysreg] at the end is one assignment, on which witnesses
    run. *)

From Stdlib Require Import ZArith Lia Bool.
From stdpp Require Import base numbers list strings option gmap.
From S2P Require Import Prelude IdregOverride.

Local Open Scope Z_scope.

(** ** The structures of asm/cpufeature.h *)

Inductive ftr_type := FTR_EXACT | FTR_LOWER_SAFE | FTR_HIGHER_SAFE | FTR_HIGHER_OR_ZERO_SAFE.

Record arm64_ftr_bits := FtrBits {
  fb_sign : bool; fb_visible : bool; fb_strict : bool; fb_type : ftr_type;
  fb_shift : Z; fb_width : Z; fb_safe_val : Z
}.

(** [fr_override] names the override object; [None] is [no_override]. *)
Record arm64_ftr_reg := FtrReg {
  fr_name : string; fr_strict_mask : Z; fr_user_mask : Z; fr_sys_val : Z; fr_user_val : Z;
  fr_override : option regid; fr_bits : list arm64_ftr_bits
}.

(** The constants of the generated headers, masks and values of 64 bits apart from numbers,
    and the configuration of the kernel. *)
Class Sysregs := {
  SYSREG : string → Z;
  SYSREG64 : string → Z;
  IS_ENABLED : string → bool
}.

Definition FTR_VISIBLE : bool := true.
Definition FTR_HIDDEN : bool := false.
Definition FTR_STRICT : bool := true.
Definition FTR_NONSTRICT : bool := false.
Definition FTR_SIGNED : bool := true.
Definition FTR_UNSIGNED : bool := false.

Definition __ARM64_FTR_BITS (SIGNED VISIBLE STRICT : bool) (TYPE : ftr_type) (SHIFT WIDTH SAFE_VAL : Z) : arm64_ftr_bits :=
  FtrBits SIGNED VISIBLE STRICT TYPE SHIFT WIDTH SAFE_VAL.
Definition ARM64_FTR_BITS : bool → bool → ftr_type → Z → Z → Z → arm64_ftr_bits := __ARM64_FTR_BITS FTR_UNSIGNED.
Definition S_ARM64_FTR_BITS : bool → bool → ftr_type → Z → Z → Z → arm64_ftr_bits := __ARM64_FTR_BITS FTR_SIGNED.
(** The initialiser sets the width and leaves the rest zero. *)
Definition ARM64_FTR_END : arm64_ftr_bits := FtrBits false false false FTR_EXACT 0 0 0.

(** The part of [struct arm64_cpu_capabilities] that describes a field. *)
Record cpuid_field := CpuidField {
  cf_sys_reg : string; cf_field_pos : Z; cf_field_width : Z; cf_sign : bool; cf_min_field_value : Z; cf_max_field_value : Z
}.
#[export] Instance cpuid_field_eq_dec : EqDecision cpuid_field.
Proof. solve_decision. Defined.

Section tables.
Context `{Sysregs}.

(** ** Fields of capabilities

    The macros paste the names of the constants; [SYS_FIELD_VALUE] is asm/sysreg.h's. *)

Definition field_const (reg field what : string) : Z := SYSREG (reg +:+ "_" +:+ field +:+ "_" +:+ what).
Definition SYS_FIELD_VALUE (reg field v : string) : Z := field_const reg field v.
Definition __ARM64_MAX_POSITIVE (reg field : string) : Z :=
  (if negb (field_const reg field "SIGNED" =? 0) then BIT (field_const reg field "WIDTH" - 1)
   else BIT (field_const reg field "WIDTH")) - 1.
Definition __ARM64_MIN_NEGATIVE (reg field : string) : Z := BIT (field_const reg field "WIDTH" - 1).
Definition __ARM64_CPUID_FIELDS (reg field : string) (min_value max_value : Z) : cpuid_field :=
  CpuidField ("SYS_" +:+ reg) (field_const reg field "SHIFT") (field_const reg field "WIDTH")
    (negb (field_const reg field "SIGNED" =? 0)) min_value max_value.
Definition ARM64_CPUID_FIELDS (reg field min_value : string) : cpuid_field :=
  __ARM64_CPUID_FIELDS reg field (SYS_FIELD_VALUE reg field min_value) (__ARM64_MAX_POSITIVE reg field).
Definition ARM64_CPUID_FIELDS_NEG (reg field max_value : string) : cpuid_field :=
  __ARM64_CPUID_FIELDS reg field (__ARM64_MIN_NEGATIVE reg field) (SYS_FIELD_VALUE reg field max_value).

Definition FTR_VISIBLE_IF_IS_ENABLED (config : string) : bool :=
  if IS_ENABLED config then FTR_VISIBLE else FTR_HIDDEN.

(** ** The fields of the registers *)

Definition ftr_id_aa64isar0 : list arm64_ftr_bits := [
  ARM64_FTR_BITS FTR_VISIBLE FTR_STRICT FTR_LOWER_SAFE (SYSREG "ID_AA64ISAR0_EL1_RNDR_SHIFT") 4 0;
  ARM64_FTR_BITS FTR_HIDDEN FTR_STRICT FTR_LOWER_SAFE (SYSREG "ID_AA64ISAR0_EL1_TLB_SHIFT") 4 0;
  ARM64_FTR_BITS FTR_VISIBLE FTR_STRICT FTR_LOWER_SAFE (SYSREG "ID_AA64ISAR0_EL1_TS_SHIFT") 4 0;
  ARM64_FTR_BITS FTR_VISIBLE FTR_STRICT FTR_LOWER_SAFE (SYSREG "ID_AA64ISAR0_EL1_FHM_SHIFT") 4 0;
  ARM64_FTR_BITS FTR_VISIBLE FTR_STRICT FTR_LOWER_SAFE (SYSREG "ID_AA64ISAR0_EL1_DP_SHIFT") 4 0;
  ARM64_FTR_BITS FTR_VISIBLE FTR_STRICT FTR_LOWER_SAFE (SYSREG "ID_AA64ISAR0_EL1_SM4_SHIFT") 4 0;
  ARM64_FTR_BITS FTR_VISIBLE FTR_STRICT FTR_LOWER_SAFE (SYSREG "ID_AA64ISAR0_EL1_SM3_SHIFT") 4 0;
  ARM64_FTR_BITS FTR_VISIBLE FTR_STRICT FTR_LOWER_SAFE (SYSREG "ID_AA64ISAR0_EL1_SHA3_SHIFT") 4 0;
  ARM64_FTR_BITS FTR_VISIBLE FTR_STRICT FTR_LOWER_SAFE (SYSREG "ID_AA64ISAR0_EL1_RDM_SHIFT") 4 0;
  ARM64_FTR_BITS FTR_VISIBLE FTR_STRICT FTR_LOWER_SAFE (SYSREG "ID_AA64ISAR0_EL1_ATOMIC_SHIFT") 4 0;
  ARM64_FTR_BITS FTR_VISIBLE FTR_STRICT FTR_LOWER_SAFE (SYSREG "ID_AA64ISAR0_EL1_CRC32_SHIFT") 4 0;
  ARM64_FTR_BITS FTR_VISIBLE FTR_STRICT FTR_LOWER_SAFE (SYSREG "ID_AA64ISAR0_EL1_SHA2_SHIFT") 4 0;
  ARM64_FTR_BITS FTR_VISIBLE FTR_STRICT FTR_LOWER_SAFE (SYSREG "ID_AA64ISAR0_EL1_SHA1_SHIFT") 4 0;
  ARM64_FTR_BITS FTR_VISIBLE FTR_STRICT FTR_LOWER_SAFE (SYSREG "ID_AA64ISAR0_EL1_AES_SHIFT") 4 0;
  ARM64_FTR_END].

Definition ftr_id_aa64isar1 : list arm64_ftr_bits := [
  ARM64_FTR_BITS FTR_VISIBLE FTR_STRICT FTR_LOWER_SAFE (SYSREG "ID_AA64ISAR1_EL1_LS64_SHIFT") 4 0;
  ARM64_FTR_BITS FTR_HIDDEN FTR_STRICT FTR_LOWER_SAFE (SYSREG "ID_AA64ISAR1_EL1_XS_SHIFT") 4 0;
  ARM64_FTR_BITS FTR_VISIBLE FTR_STRICT FTR_LOWER_SAFE (SYSREG "ID_AA64ISAR1_EL1_I8MM_SHIFT") 4 0;
  ARM64_FTR_BITS FTR_VISIBLE FTR_STRICT FTR_LOWER_SAFE (SYSREG "ID_AA64ISAR1_EL1_DGH_SHIFT") 4 0;
  ARM64_FTR_BITS FTR_VISIBLE FTR_STRICT FTR_LOWER_SAFE (SYSREG "ID_AA64ISAR1_EL1_BF16_SHIFT") 4 0;
  ARM64_FTR_BITS FTR_HIDDEN FTR_STRICT FTR_LOWER_SAFE (SYSREG "ID_AA64ISAR1_EL1_SPECRES_SHIFT") 4 0;
  ARM64_FTR_BITS FTR_VISIBLE FTR_STRICT FTR_LOWER_SAFE (SYSREG "ID_AA64ISAR1_EL1_SB_SHIFT") 4 0;
  ARM64_FTR_BITS FTR_VISIBLE FTR_STRICT FTR_LOWER_SAFE (SYSREG "ID_AA64ISAR1_EL1_FRINTTS_SHIFT") 4 0;
  ARM64_FTR_BITS (FTR_VISIBLE_IF_IS_ENABLED "CONFIG_ARM64_PTR_AUTH") FTR_STRICT FTR_LOWER_SAFE (SYSREG "ID_AA64ISAR1_EL1_GPI_SHIFT") 4 0;
  ARM64_FTR_BITS (FTR_VISIBLE_IF_IS_ENABLED "CONFIG_ARM64_PTR_AUTH") FTR_STRICT FTR_LOWER_SAFE (SYSREG "ID_AA64ISAR1_EL1_GPA_SHIFT") 4 0;
  ARM64_FTR_BITS FTR_VISIBLE FTR_STRICT FTR_LOWER_SAFE (SYSREG "ID_AA64ISAR1_EL1_LRCPC_SHIFT") 4 0;
  ARM64_FTR_BITS FTR_VISIBLE FTR_STRICT FTR_LOWER_SAFE (SYSREG "ID_AA64ISAR1_EL1_FCMA_SHIFT") 4 0;
  ARM64_FTR_BITS FTR_VISIBLE FTR_STRICT FTR_LOWER_SAFE (SYSREG "ID_AA64ISAR1_EL1_JSCVT_SHIFT") 4 0;
  ARM64_FTR_BITS (FTR_VISIBLE_IF_IS_ENABLED "CONFIG_ARM64_PTR_AUTH") FTR_STRICT FTR_EXACT (SYSREG "ID_AA64ISAR1_EL1_API_SHIFT") 4 0;
  ARM64_FTR_BITS (FTR_VISIBLE_IF_IS_ENABLED "CONFIG_ARM64_PTR_AUTH") FTR_STRICT FTR_EXACT (SYSREG "ID_AA64ISAR1_EL1_APA_SHIFT") 4 0;
  ARM64_FTR_BITS FTR_VISIBLE FTR_STRICT FTR_LOWER_SAFE (SYSREG "ID_AA64ISAR1_EL1_DPB_SHIFT") 4 0;
  ARM64_FTR_END].

Definition ftr_id_aa64isar2 : list arm64_ftr_bits := [
  ARM64_FTR_BITS FTR_HIDDEN FTR_STRICT FTR_LOWER_SAFE (SYSREG "ID_AA64ISAR2_EL1_ATS1A_SHIFT") 4 0;
  ARM64_FTR_BITS FTR_VISIBLE FTR_NONSTRICT FTR_LOWER_SAFE (SYSREG "ID_AA64ISAR2_EL1_LUT_SHIFT") 4 0;
  ARM64_FTR_BITS FTR_VISIBLE FTR_NONSTRICT FTR_LOWER_SAFE (SYSREG "ID_AA64ISAR2_EL1_CSSC_SHIFT") 4 0;
  ARM64_FTR_BITS FTR_VISIBLE FTR_NONSTRICT FTR_LOWER_SAFE (SYSREG "ID_AA64ISAR2_EL1_RPRFM_SHIFT") 4 0;
  ARM64_FTR_BITS FTR_HIDDEN FTR_STRICT FTR_LOWER_SAFE (SYSREG "ID_AA64ISAR2_EL1_CLRBHB_SHIFT") 4 0;
  ARM64_FTR_BITS FTR_VISIBLE FTR_STRICT FTR_LOWER_SAFE (SYSREG "ID_AA64ISAR2_EL1_BC_SHIFT") 4 0;
  ARM64_FTR_BITS FTR_VISIBLE FTR_STRICT FTR_LOWER_SAFE (SYSREG "ID_AA64ISAR2_EL1_MOPS_SHIFT") 4 0;
  ARM64_FTR_BITS (FTR_VISIBLE_IF_IS_ENABLED "CONFIG_ARM64_PTR_AUTH") FTR_STRICT FTR_EXACT (SYSREG "ID_AA64ISAR2_EL1_APA3_SHIFT") 4 0;
  ARM64_FTR_BITS (FTR_VISIBLE_IF_IS_ENABLED "CONFIG_ARM64_PTR_AUTH") FTR_STRICT FTR_LOWER_SAFE (SYSREG "ID_AA64ISAR2_EL1_GPA3_SHIFT") 4 0;
  ARM64_FTR_BITS FTR_VISIBLE FTR_NONSTRICT FTR_LOWER_SAFE (SYSREG "ID_AA64ISAR2_EL1_RPRES_SHIFT") 4 0;
  ARM64_FTR_BITS FTR_VISIBLE FTR_NONSTRICT FTR_LOWER_SAFE (SYSREG "ID_AA64ISAR2_EL1_WFxT_SHIFT") 4 0;
  ARM64_FTR_END].

Definition ftr_id_aa64isar3 : list arm64_ftr_bits := [
  ARM64_FTR_BITS FTR_VISIBLE FTR_NONSTRICT FTR_LOWER_SAFE (SYSREG "ID_AA64ISAR3_EL1_FPRCVT_SHIFT") 4 0;
  ARM64_FTR_BITS FTR_HIDDEN FTR_NONSTRICT FTR_LOWER_SAFE (SYSREG "ID_AA64ISAR3_EL1_LSUI_SHIFT") 4 (SYSREG "ID_AA64ISAR3_EL1_LSUI_NI");
  ARM64_FTR_BITS FTR_VISIBLE FTR_NONSTRICT FTR_LOWER_SAFE (SYSREG "ID_AA64ISAR3_EL1_LSFE_SHIFT") 4 0;
  ARM64_FTR_BITS FTR_VISIBLE FTR_NONSTRICT FTR_LOWER_SAFE (SYSREG "ID_AA64ISAR3_EL1_FAMINMAX_SHIFT") 4 0;
  ARM64_FTR_END].

Definition ftr_id_aa64pfr0 : list arm64_ftr_bits := [
  ARM64_FTR_BITS FTR_HIDDEN FTR_NONSTRICT FTR_LOWER_SAFE (SYSREG "ID_AA64PFR0_EL1_CSV3_SHIFT") 4 0;
  ARM64_FTR_BITS FTR_HIDDEN FTR_NONSTRICT FTR_LOWER_SAFE (SYSREG "ID_AA64PFR0_EL1_CSV2_SHIFT") 4 0;
  ARM64_FTR_BITS FTR_VISIBLE FTR_STRICT FTR_LOWER_SAFE (SYSREG "ID_AA64PFR0_EL1_DIT_SHIFT") 4 0;
  ARM64_FTR_BITS FTR_HIDDEN FTR_NONSTRICT FTR_LOWER_SAFE (SYSREG "ID_AA64PFR0_EL1_AMU_SHIFT") 4 0;
  ARM64_FTR_BITS FTR_HIDDEN FTR_STRICT FTR_LOWER_SAFE (SYSREG "ID_AA64PFR0_EL1_MPAM_SHIFT") 4 0;
  ARM64_FTR_BITS FTR_HIDDEN FTR_NONSTRICT FTR_LOWER_SAFE (SYSREG "ID_AA64PFR0_EL1_SEL2_SHIFT") 4 0;
  ARM64_FTR_BITS (FTR_VISIBLE_IF_IS_ENABLED "CONFIG_ARM64_SVE") FTR_STRICT FTR_LOWER_SAFE (SYSREG "ID_AA64PFR0_EL1_SVE_SHIFT") 4 0;
  ARM64_FTR_BITS FTR_HIDDEN FTR_STRICT FTR_LOWER_SAFE (SYSREG "ID_AA64PFR0_EL1_RAS_SHIFT") 4 0;
  ARM64_FTR_BITS FTR_HIDDEN FTR_STRICT FTR_LOWER_SAFE (SYSREG "ID_AA64PFR0_EL1_GIC_SHIFT") 4 0;
  S_ARM64_FTR_BITS FTR_VISIBLE FTR_STRICT FTR_LOWER_SAFE (SYSREG "ID_AA64PFR0_EL1_AdvSIMD_SHIFT") 4 (SYSREG "ID_AA64PFR0_EL1_AdvSIMD_NI");
  S_ARM64_FTR_BITS FTR_VISIBLE FTR_STRICT FTR_LOWER_SAFE (SYSREG "ID_AA64PFR0_EL1_FP_SHIFT") 4 (SYSREG "ID_AA64PFR0_EL1_FP_NI");
  ARM64_FTR_BITS FTR_HIDDEN FTR_NONSTRICT FTR_LOWER_SAFE (SYSREG "ID_AA64PFR0_EL1_EL3_SHIFT") 4 0;
  ARM64_FTR_BITS FTR_HIDDEN FTR_NONSTRICT FTR_LOWER_SAFE (SYSREG "ID_AA64PFR0_EL1_EL2_SHIFT") 4 0;
  ARM64_FTR_BITS FTR_HIDDEN FTR_NONSTRICT FTR_LOWER_SAFE (SYSREG "ID_AA64PFR0_EL1_EL1_SHIFT") 4 (SYSREG "ID_AA64PFR0_EL1_EL1_IMP");
  ARM64_FTR_BITS FTR_HIDDEN FTR_NONSTRICT FTR_LOWER_SAFE (SYSREG "ID_AA64PFR0_EL1_EL0_SHIFT") 4 (SYSREG "ID_AA64PFR0_EL1_EL0_IMP");
  ARM64_FTR_END].

Definition ftr_id_aa64pfr1 : list arm64_ftr_bits := [
  ARM64_FTR_BITS FTR_HIDDEN FTR_STRICT FTR_LOWER_SAFE (SYSREG "ID_AA64PFR1_EL1_DF2_SHIFT") 4 0;
  ARM64_FTR_BITS (FTR_VISIBLE_IF_IS_ENABLED "CONFIG_ARM64_GCS") FTR_STRICT FTR_LOWER_SAFE (SYSREG "ID_AA64PFR1_EL1_GCS_SHIFT") 4 0;
  S_ARM64_FTR_BITS FTR_HIDDEN FTR_STRICT FTR_LOWER_SAFE (SYSREG "ID_AA64PFR1_EL1_MTE_frac_SHIFT") 4 0;
  ARM64_FTR_BITS (FTR_VISIBLE_IF_IS_ENABLED "CONFIG_ARM64_SME") FTR_STRICT FTR_LOWER_SAFE (SYSREG "ID_AA64PFR1_EL1_SME_SHIFT") 4 0;
  ARM64_FTR_BITS FTR_HIDDEN FTR_STRICT FTR_LOWER_SAFE (SYSREG "ID_AA64PFR1_EL1_MPAM_frac_SHIFT") 4 0;
  ARM64_FTR_BITS FTR_HIDDEN FTR_STRICT FTR_LOWER_SAFE (SYSREG "ID_AA64PFR1_EL1_RAS_frac_SHIFT") 4 0;
  ARM64_FTR_BITS (FTR_VISIBLE_IF_IS_ENABLED "CONFIG_ARM64_MTE") FTR_STRICT FTR_LOWER_SAFE (SYSREG "ID_AA64PFR1_EL1_MTE_SHIFT") 4 (SYSREG "ID_AA64PFR1_EL1_MTE_NI");
  ARM64_FTR_BITS FTR_VISIBLE FTR_NONSTRICT FTR_LOWER_SAFE (SYSREG "ID_AA64PFR1_EL1_SSBS_SHIFT") 4 (SYSREG "ID_AA64PFR1_EL1_SSBS_NI");
  ARM64_FTR_BITS (FTR_VISIBLE_IF_IS_ENABLED "CONFIG_ARM64_BTI") FTR_STRICT FTR_LOWER_SAFE (SYSREG "ID_AA64PFR1_EL1_BT_SHIFT") 4 0;
  ARM64_FTR_END].

Definition ftr_id_aa64pfr2 : list arm64_ftr_bits := [
  ARM64_FTR_BITS FTR_VISIBLE FTR_STRICT FTR_LOWER_SAFE (SYSREG "ID_AA64PFR2_EL1_FPMR_SHIFT") 4 0;
  ARM64_FTR_BITS FTR_HIDDEN FTR_STRICT FTR_LOWER_SAFE (SYSREG "ID_AA64PFR2_EL1_GCIE_SHIFT") 4 (SYSREG "ID_AA64PFR2_EL1_GCIE_NI");
  ARM64_FTR_BITS FTR_VISIBLE FTR_NONSTRICT FTR_LOWER_SAFE (SYSREG "ID_AA64PFR2_EL1_MTEFAR_SHIFT") 4 (SYSREG "ID_AA64PFR2_EL1_MTEFAR_NI");
  ARM64_FTR_BITS FTR_VISIBLE FTR_NONSTRICT FTR_LOWER_SAFE (SYSREG "ID_AA64PFR2_EL1_MTESTOREONLY_SHIFT") 4 (SYSREG "ID_AA64PFR2_EL1_MTESTOREONLY_NI");
  ARM64_FTR_END].

Definition ftr_id_aa64zfr0 : list arm64_ftr_bits := [
  ARM64_FTR_BITS (FTR_VISIBLE_IF_IS_ENABLED "CONFIG_ARM64_SVE") FTR_STRICT FTR_LOWER_SAFE (SYSREG "ID_AA64ZFR0_EL1_F64MM_SHIFT") 4 0;
  ARM64_FTR_BITS (FTR_VISIBLE_IF_IS_ENABLED "CONFIG_ARM64_SVE") FTR_STRICT FTR_LOWER_SAFE (SYSREG "ID_AA64ZFR0_EL1_F32MM_SHIFT") 4 0;
  ARM64_FTR_BITS (FTR_VISIBLE_IF_IS_ENABLED "CONFIG_ARM64_SVE") FTR_STRICT FTR_LOWER_SAFE (SYSREG "ID_AA64ZFR0_EL1_F16MM_SHIFT") 4 0;
  ARM64_FTR_BITS (FTR_VISIBLE_IF_IS_ENABLED "CONFIG_ARM64_SVE") FTR_STRICT FTR_LOWER_SAFE (SYSREG "ID_AA64ZFR0_EL1_I8MM_SHIFT") 4 0;
  ARM64_FTR_BITS (FTR_VISIBLE_IF_IS_ENABLED "CONFIG_ARM64_SVE") FTR_STRICT FTR_LOWER_SAFE (SYSREG "ID_AA64ZFR0_EL1_SM4_SHIFT") 4 0;
  ARM64_FTR_BITS (FTR_VISIBLE_IF_IS_ENABLED "CONFIG_ARM64_SVE") FTR_STRICT FTR_LOWER_SAFE (SYSREG "ID_AA64ZFR0_EL1_SHA3_SHIFT") 4 0;
  ARM64_FTR_BITS (FTR_VISIBLE_IF_IS_ENABLED "CONFIG_ARM64_SVE") FTR_STRICT FTR_LOWER_SAFE (SYSREG "ID_AA64ZFR0_EL1_B16B16_SHIFT") 4 0;
  ARM64_FTR_BITS (FTR_VISIBLE_IF_IS_ENABLED "CONFIG_ARM64_SVE") FTR_STRICT FTR_LOWER_SAFE (SYSREG "ID_AA64ZFR0_EL1_BF16_SHIFT") 4 0;
  ARM64_FTR_BITS (FTR_VISIBLE_IF_IS_ENABLED "CONFIG_ARM64_SVE") FTR_STRICT FTR_LOWER_SAFE (SYSREG "ID_AA64ZFR0_EL1_BitPerm_SHIFT") 4 0;
  ARM64_FTR_BITS (FTR_VISIBLE_IF_IS_ENABLED "CONFIG_ARM64_SVE") FTR_STRICT FTR_LOWER_SAFE (SYSREG "ID_AA64ZFR0_EL1_EltPerm_SHIFT") 4 0;
  ARM64_FTR_BITS (FTR_VISIBLE_IF_IS_ENABLED "CONFIG_ARM64_SVE") FTR_STRICT FTR_LOWER_SAFE (SYSREG "ID_AA64ZFR0_EL1_AES_SHIFT") 4 0;
  ARM64_FTR_BITS (FTR_VISIBLE_IF_IS_ENABLED "CONFIG_ARM64_SVE") FTR_STRICT FTR_LOWER_SAFE (SYSREG "ID_AA64ZFR0_EL1_SVEver_SHIFT") 4 0;
  ARM64_FTR_END].

Definition ftr_id_aa64smfr0 : list arm64_ftr_bits := [
  ARM64_FTR_BITS (FTR_VISIBLE_IF_IS_ENABLED "CONFIG_ARM64_SME") FTR_STRICT FTR_EXACT (SYSREG "ID_AA64SMFR0_EL1_FA64_SHIFT") 1 0;
  ARM64_FTR_BITS (FTR_VISIBLE_IF_IS_ENABLED "CONFIG_ARM64_SME") FTR_STRICT FTR_EXACT (SYSREG "ID_AA64SMFR0_EL1_LUT6_SHIFT") 1 0;
  ARM64_FTR_BITS (FTR_VISIBLE_IF_IS_ENABLED "CONFIG_ARM64_SME") FTR_STRICT FTR_EXACT (SYSREG "ID_AA64SMFR0_EL1_LUTv2_SHIFT") 1 0;
  ARM64_FTR_BITS (FTR_VISIBLE_IF_IS_ENABLED "CONFIG_ARM64_SME") FTR_STRICT FTR_EXACT (SYSREG "ID_AA64SMFR0_EL1_SMEver_SHIFT") 4 0;
  ARM64_FTR_BITS (FTR_VISIBLE_IF_IS_ENABLED "CONFIG_ARM64_SME") FTR_STRICT FTR_EXACT (SYSREG "ID_AA64SMFR0_EL1_I16I64_SHIFT") 4 0;
  ARM64_FTR_BITS (FTR_VISIBLE_IF_IS_ENABLED "CONFIG_ARM64_SME") FTR_STRICT FTR_EXACT (SYSREG "ID_AA64SMFR0_EL1_F64F64_SHIFT") 1 0;
  ARM64_FTR_BITS (FTR_VISIBLE_IF_IS_ENABLED "CONFIG_ARM64_SME") FTR_STRICT FTR_EXACT (SYSREG "ID_AA64SMFR0_EL1_I16I32_SHIFT") 4 0;
  ARM64_FTR_BITS (FTR_VISIBLE_IF_IS_ENABLED "CONFIG_ARM64_SME") FTR_STRICT FTR_EXACT (SYSREG "ID_AA64SMFR0_EL1_B16B16_SHIFT") 1 0;
  ARM64_FTR_BITS (FTR_VISIBLE_IF_IS_ENABLED "CONFIG_ARM64_SME") FTR_STRICT FTR_EXACT (SYSREG "ID_AA64SMFR0_EL1_F16F16_SHIFT") 1 0;
  ARM64_FTR_BITS (FTR_VISIBLE_IF_IS_ENABLED "CONFIG_ARM64_SME") FTR_STRICT FTR_EXACT (SYSREG "ID_AA64SMFR0_EL1_F8F16_SHIFT") 1 0;
  ARM64_FTR_BITS (FTR_VISIBLE_IF_IS_ENABLED "CONFIG_ARM64_SME") FTR_STRICT FTR_EXACT (SYSREG "ID_AA64SMFR0_EL1_F8F32_SHIFT") 1 0;
  ARM64_FTR_BITS (FTR_VISIBLE_IF_IS_ENABLED "CONFIG_ARM64_SME") FTR_STRICT FTR_EXACT (SYSREG "ID_AA64SMFR0_EL1_I8I32_SHIFT") 4 0;
  ARM64_FTR_BITS (FTR_VISIBLE_IF_IS_ENABLED "CONFIG_ARM64_SME") FTR_STRICT FTR_EXACT (SYSREG "ID_AA64SMFR0_EL1_F16F32_SHIFT") 1 0;
  ARM64_FTR_BITS (FTR_VISIBLE_IF_IS_ENABLED "CONFIG_ARM64_SME") FTR_STRICT FTR_EXACT (SYSREG "ID_AA64SMFR0_EL1_B16F32_SHIFT") 1 0;
  ARM64_FTR_BITS (FTR_VISIBLE_IF_IS_ENABLED "CONFIG_ARM64_SME") FTR_STRICT FTR_EXACT (SYSREG "ID_AA64SMFR0_EL1_BI32I32_SHIFT") 1 0;
  ARM64_FTR_BITS (FTR_VISIBLE_IF_IS_ENABLED "CONFIG_ARM64_SME") FTR_STRICT FTR_EXACT (SYSREG "ID_AA64SMFR0_EL1_F32F32_SHIFT") 1 0;
  ARM64_FTR_BITS (FTR_VISIBLE_IF_IS_ENABLED "CONFIG_ARM64_SME") FTR_STRICT FTR_EXACT (SYSREG "ID_AA64SMFR0_EL1_SF8FMA_SHIFT") 1 0;
  ARM64_FTR_BITS (FTR_VISIBLE_IF_IS_ENABLED "CONFIG_ARM64_SME") FTR_STRICT FTR_EXACT (SYSREG "ID_AA64SMFR0_EL1_SF8DP4_SHIFT") 1 0;
  ARM64_FTR_BITS (FTR_VISIBLE_IF_IS_ENABLED "CONFIG_ARM64_SME") FTR_STRICT FTR_EXACT (SYSREG "ID_AA64SMFR0_EL1_SF8DP2_SHIFT") 1 0;
  ARM64_FTR_BITS (FTR_VISIBLE_IF_IS_ENABLED "CONFIG_ARM64_SME") FTR_STRICT FTR_EXACT (SYSREG "ID_AA64SMFR0_EL1_SBitPerm_SHIFT") 1 0;
  ARM64_FTR_BITS (FTR_VISIBLE_IF_IS_ENABLED "CONFIG_ARM64_SME") FTR_STRICT FTR_EXACT (SYSREG "ID_AA64SMFR0_EL1_AES_SHIFT") 1 0;
  ARM64_FTR_BITS (FTR_VISIBLE_IF_IS_ENABLED "CONFIG_ARM64_SME") FTR_STRICT FTR_EXACT (SYSREG "ID_AA64SMFR0_EL1_SFEXPA_SHIFT") 1 0;
  ARM64_FTR_BITS (FTR_VISIBLE_IF_IS_ENABLED "CONFIG_ARM64_SME") FTR_STRICT FTR_EXACT (SYSREG "ID_AA64SMFR0_EL1_STMOP_SHIFT") 1 0;
  ARM64_FTR_BITS (FTR_VISIBLE_IF_IS_ENABLED "CONFIG_ARM64_SME") FTR_STRICT FTR_EXACT (SYSREG "ID_AA64SMFR0_EL1_SMOP4_SHIFT") 1 0;
  ARM64_FTR_END].

Definition ftr_id_aa64fpfr0 : list arm64_ftr_bits := [
  ARM64_FTR_BITS FTR_VISIBLE FTR_STRICT FTR_EXACT (SYSREG "ID_AA64FPFR0_EL1_F8CVT_SHIFT") 1 0;
  ARM64_FTR_BITS FTR_VISIBLE FTR_STRICT FTR_EXACT (SYSREG "ID_AA64FPFR0_EL1_F8FMA_SHIFT") 1 0;
  ARM64_FTR_BITS FTR_VISIBLE FTR_STRICT FTR_EXACT (SYSREG "ID_AA64FPFR0_EL1_F8DP4_SHIFT") 1 0;
  ARM64_FTR_BITS FTR_VISIBLE FTR_STRICT FTR_EXACT (SYSREG "ID_AA64FPFR0_EL1_F8DP2_SHIFT") 1 0;
  ARM64_FTR_BITS FTR_VISIBLE FTR_STRICT FTR_EXACT (SYSREG "ID_AA64FPFR0_EL1_F8MM8_SHIFT") 1 0;
  ARM64_FTR_BITS FTR_VISIBLE FTR_STRICT FTR_EXACT (SYSREG "ID_AA64FPFR0_EL1_F8MM4_SHIFT") 1 0;
  ARM64_FTR_BITS FTR_VISIBLE FTR_STRICT FTR_EXACT (SYSREG "ID_AA64FPFR0_EL1_F16MM2_SHIFT") 1 0;
  ARM64_FTR_BITS FTR_VISIBLE FTR_STRICT FTR_EXACT (SYSREG "ID_AA64FPFR0_EL1_F8E4M3_SHIFT") 1 0;
  ARM64_FTR_BITS FTR_VISIBLE FTR_STRICT FTR_EXACT (SYSREG "ID_AA64FPFR0_EL1_F8E5M2_SHIFT") 1 0;
  ARM64_FTR_END].

Definition ftr_id_aa64mmfr0 : list arm64_ftr_bits := [
  ARM64_FTR_BITS FTR_VISIBLE FTR_STRICT FTR_LOWER_SAFE (SYSREG "ID_AA64MMFR0_EL1_ECV_SHIFT") 4 0;
  ARM64_FTR_BITS FTR_HIDDEN FTR_STRICT FTR_LOWER_SAFE (SYSREG "ID_AA64MMFR0_EL1_FGT_SHIFT") 4 0;
  ARM64_FTR_BITS FTR_HIDDEN FTR_STRICT FTR_LOWER_SAFE (SYSREG "ID_AA64MMFR0_EL1_EXS_SHIFT") 4 0;
  ARM64_FTR_BITS FTR_HIDDEN FTR_NONSTRICT FTR_EXACT (SYSREG "ID_AA64MMFR0_EL1_TGRAN4_2_SHIFT") 4 1;
  ARM64_FTR_BITS FTR_HIDDEN FTR_NONSTRICT FTR_EXACT (SYSREG "ID_AA64MMFR0_EL1_TGRAN64_2_SHIFT") 4 1;
  ARM64_FTR_BITS FTR_HIDDEN FTR_NONSTRICT FTR_EXACT (SYSREG "ID_AA64MMFR0_EL1_TGRAN16_2_SHIFT") 4 1;
  S_ARM64_FTR_BITS FTR_HIDDEN FTR_NONSTRICT FTR_LOWER_SAFE (SYSREG "ID_AA64MMFR0_EL1_TGRAN4_SHIFT") 4 (SYSREG "ID_AA64MMFR0_EL1_TGRAN4_NI");
  S_ARM64_FTR_BITS FTR_HIDDEN FTR_NONSTRICT FTR_LOWER_SAFE (SYSREG "ID_AA64MMFR0_EL1_TGRAN64_SHIFT") 4 (SYSREG "ID_AA64MMFR0_EL1_TGRAN64_NI");
  ARM64_FTR_BITS FTR_HIDDEN FTR_NONSTRICT FTR_LOWER_SAFE (SYSREG "ID_AA64MMFR0_EL1_TGRAN16_SHIFT") 4 (SYSREG "ID_AA64MMFR0_EL1_TGRAN16_NI");
  ARM64_FTR_BITS FTR_HIDDEN FTR_STRICT FTR_LOWER_SAFE (SYSREG "ID_AA64MMFR0_EL1_BIGENDEL0_SHIFT") 4 0;
  ARM64_FTR_BITS FTR_HIDDEN FTR_NONSTRICT FTR_LOWER_SAFE (SYSREG "ID_AA64MMFR0_EL1_SNSMEM_SHIFT") 4 0;
  ARM64_FTR_BITS FTR_HIDDEN FTR_STRICT FTR_LOWER_SAFE (SYSREG "ID_AA64MMFR0_EL1_BIGEND_SHIFT") 4 0;
  ARM64_FTR_BITS FTR_HIDDEN FTR_STRICT FTR_LOWER_SAFE (SYSREG "ID_AA64MMFR0_EL1_ASIDBITS_SHIFT") 4 0;
  ARM64_FTR_BITS FTR_HIDDEN FTR_NONSTRICT FTR_LOWER_SAFE (SYSREG "ID_AA64MMFR0_EL1_PARANGE_SHIFT") 4 0;
  ARM64_FTR_END].

Definition ftr_id_aa64mmfr1 : list arm64_ftr_bits := [
  ARM64_FTR_BITS FTR_HIDDEN FTR_STRICT FTR_LOWER_SAFE (SYSREG "ID_AA64MMFR1_EL1_ECBHB_SHIFT") 4 0;
  ARM64_FTR_BITS FTR_HIDDEN FTR_NONSTRICT FTR_LOWER_SAFE (SYSREG "ID_AA64MMFR1_EL1_TIDCP1_SHIFT") 4 0;
  ARM64_FTR_BITS FTR_VISIBLE FTR_STRICT FTR_LOWER_SAFE (SYSREG "ID_AA64MMFR1_EL1_AFP_SHIFT") 4 0;
  ARM64_FTR_BITS FTR_HIDDEN FTR_STRICT FTR_LOWER_SAFE (SYSREG "ID_AA64MMFR1_EL1_HCX_SHIFT") 4 0;
  ARM64_FTR_BITS FTR_HIDDEN FTR_STRICT FTR_LOWER_SAFE (SYSREG "ID_AA64MMFR1_EL1_ETS_SHIFT") 4 0;
  ARM64_FTR_BITS FTR_HIDDEN FTR_STRICT FTR_LOWER_SAFE (SYSREG "ID_AA64MMFR1_EL1_TWED_SHIFT") 4 0;
  ARM64_FTR_BITS FTR_HIDDEN FTR_STRICT FTR_LOWER_SAFE (SYSREG "ID_AA64MMFR1_EL1_XNX_SHIFT") 4 0;
  ARM64_FTR_BITS FTR_HIDDEN FTR_STRICT FTR_HIGHER_SAFE (SYSREG "ID_AA64MMFR1_EL1_SpecSEI_SHIFT") 4 0;
  ARM64_FTR_BITS FTR_HIDDEN FTR_STRICT FTR_LOWER_SAFE (SYSREG "ID_AA64MMFR1_EL1_PAN_SHIFT") 4 0;
  ARM64_FTR_BITS FTR_HIDDEN FTR_STRICT FTR_LOWER_SAFE (SYSREG "ID_AA64MMFR1_EL1_LO_SHIFT") 4 0;
  ARM64_FTR_BITS FTR_HIDDEN FTR_STRICT FTR_LOWER_SAFE (SYSREG "ID_AA64MMFR1_EL1_HPDS_SHIFT") 4 0;
  ARM64_FTR_BITS FTR_HIDDEN FTR_STRICT FTR_LOWER_SAFE (SYSREG "ID_AA64MMFR1_EL1_VH_SHIFT") 4 0;
  ARM64_FTR_BITS FTR_HIDDEN FTR_STRICT FTR_LOWER_SAFE (SYSREG "ID_AA64MMFR1_EL1_VMIDBits_SHIFT") 4 0;
  ARM64_FTR_BITS FTR_HIDDEN FTR_STRICT FTR_LOWER_SAFE (SYSREG "ID_AA64MMFR1_EL1_HAFDBS_SHIFT") 4 0;
  ARM64_FTR_END].

Definition ftr_id_aa64mmfr2 : list arm64_ftr_bits := [
  ARM64_FTR_BITS FTR_HIDDEN FTR_NONSTRICT FTR_LOWER_SAFE (SYSREG "ID_AA64MMFR2_EL1_E0PD_SHIFT") 4 0;
  ARM64_FTR_BITS FTR_HIDDEN FTR_STRICT FTR_LOWER_SAFE (SYSREG "ID_AA64MMFR2_EL1_EVT_SHIFT") 4 0;
  ARM64_FTR_BITS FTR_HIDDEN FTR_STRICT FTR_LOWER_SAFE (SYSREG "ID_AA64MMFR2_EL1_BBM_SHIFT") 4 0;
  ARM64_FTR_BITS FTR_HIDDEN FTR_STRICT FTR_LOWER_SAFE (SYSREG "ID_AA64MMFR2_EL1_TTL_SHIFT") 4 0;
  ARM64_FTR_BITS FTR_HIDDEN FTR_STRICT FTR_LOWER_SAFE (SYSREG "ID_AA64MMFR2_EL1_FWB_SHIFT") 4 0;
  ARM64_FTR_BITS FTR_HIDDEN FTR_STRICT FTR_LOWER_SAFE (SYSREG "ID_AA64MMFR2_EL1_IDS_SHIFT") 4 0;
  ARM64_FTR_BITS FTR_VISIBLE FTR_STRICT FTR_LOWER_SAFE (SYSREG "ID_AA64MMFR2_EL1_AT_SHIFT") 4 0;
  ARM64_FTR_BITS FTR_HIDDEN FTR_STRICT FTR_LOWER_SAFE (SYSREG "ID_AA64MMFR2_EL1_ST_SHIFT") 4 0;
  ARM64_FTR_BITS FTR_HIDDEN FTR_STRICT FTR_LOWER_SAFE (SYSREG "ID_AA64MMFR2_EL1_NV_SHIFT") 4 0;
  ARM64_FTR_BITS FTR_HIDDEN FTR_STRICT FTR_LOWER_SAFE (SYSREG "ID_AA64MMFR2_EL1_CCIDX_SHIFT") 4 0;
  ARM64_FTR_BITS FTR_HIDDEN FTR_STRICT FTR_LOWER_SAFE (SYSREG "ID_AA64MMFR2_EL1_VARange_SHIFT") 4 0;
  ARM64_FTR_BITS FTR_HIDDEN FTR_NONSTRICT FTR_LOWER_SAFE (SYSREG "ID_AA64MMFR2_EL1_IESB_SHIFT") 4 0;
  ARM64_FTR_BITS FTR_HIDDEN FTR_STRICT FTR_LOWER_SAFE (SYSREG "ID_AA64MMFR2_EL1_LSM_SHIFT") 4 0;
  ARM64_FTR_BITS FTR_HIDDEN FTR_STRICT FTR_LOWER_SAFE (SYSREG "ID_AA64MMFR2_EL1_UAO_SHIFT") 4 0;
  ARM64_FTR_BITS FTR_HIDDEN FTR_STRICT FTR_LOWER_SAFE (SYSREG "ID_AA64MMFR2_EL1_CnP_SHIFT") 4 0;
  ARM64_FTR_END].

Definition ftr_id_aa64mmfr3 : list arm64_ftr_bits := [
  ARM64_FTR_BITS (FTR_VISIBLE_IF_IS_ENABLED "CONFIG_ARM64_POE") FTR_NONSTRICT FTR_LOWER_SAFE (SYSREG "ID_AA64MMFR3_EL1_S1POE_SHIFT") 4 0;
  ARM64_FTR_BITS FTR_HIDDEN FTR_NONSTRICT FTR_LOWER_SAFE (SYSREG "ID_AA64MMFR3_EL1_S1PIE_SHIFT") 4 0;
  ARM64_FTR_BITS FTR_HIDDEN FTR_STRICT FTR_LOWER_SAFE (SYSREG "ID_AA64MMFR3_EL1_SCTLRX_SHIFT") 4 0;
  ARM64_FTR_BITS FTR_HIDDEN FTR_NONSTRICT FTR_LOWER_SAFE (SYSREG "ID_AA64MMFR3_EL1_TCRX_SHIFT") 4 0;
  ARM64_FTR_END].

Definition ftr_id_aa64mmfr4 : list arm64_ftr_bits := [
  S_ARM64_FTR_BITS FTR_HIDDEN FTR_STRICT FTR_LOWER_SAFE (SYSREG "ID_AA64MMFR4_EL1_E2H0_SHIFT") 4 0;
  ARM64_FTR_BITS FTR_HIDDEN FTR_STRICT FTR_LOWER_SAFE (SYSREG "ID_AA64MMFR4_EL1_NV_frac_SHIFT") 4 0;
  ARM64_FTR_END].

Definition ftr_ctr : list arm64_ftr_bits := [
  ARM64_FTR_BITS FTR_VISIBLE FTR_STRICT FTR_EXACT 31 1 1;
  ARM64_FTR_BITS FTR_VISIBLE FTR_STRICT FTR_LOWER_SAFE (SYSREG "CTR_EL0_DIC_SHIFT") 1 1;
  ARM64_FTR_BITS FTR_VISIBLE FTR_STRICT FTR_LOWER_SAFE (SYSREG "CTR_EL0_IDC_SHIFT") 1 1;
  ARM64_FTR_BITS FTR_VISIBLE FTR_STRICT FTR_HIGHER_OR_ZERO_SAFE (SYSREG "CTR_EL0_CWG_SHIFT") 4 0;
  ARM64_FTR_BITS FTR_VISIBLE FTR_STRICT FTR_HIGHER_OR_ZERO_SAFE (SYSREG "CTR_EL0_ERG_SHIFT") 4 0;
  ARM64_FTR_BITS FTR_VISIBLE FTR_STRICT FTR_LOWER_SAFE (SYSREG "CTR_EL0_DminLine_SHIFT") 4 1;
  ARM64_FTR_BITS FTR_VISIBLE FTR_NONSTRICT FTR_EXACT (SYSREG "CTR_EL0_L1Ip_SHIFT") 2 (SYSREG "CTR_EL0_L1Ip_VIPT");
  ARM64_FTR_BITS FTR_VISIBLE FTR_STRICT FTR_LOWER_SAFE (SYSREG "CTR_EL0_IminLine_SHIFT") 4 0;
  ARM64_FTR_END].

Definition ftr_id_mmfr0 : list arm64_ftr_bits := [
  S_ARM64_FTR_BITS FTR_HIDDEN FTR_STRICT FTR_LOWER_SAFE (SYSREG "ID_MMFR0_EL1_InnerShr_SHIFT") 4 15;
  ARM64_FTR_BITS FTR_HIDDEN FTR_STRICT FTR_LOWER_SAFE (SYSREG "ID_MMFR0_EL1_FCSE_SHIFT") 4 0;
  ARM64_FTR_BITS FTR_HIDDEN FTR_NONSTRICT FTR_LOWER_SAFE (SYSREG "ID_MMFR0_EL1_AuxReg_SHIFT") 4 0;
  ARM64_FTR_BITS FTR_HIDDEN FTR_STRICT FTR_LOWER_SAFE (SYSREG "ID_MMFR0_EL1_TCM_SHIFT") 4 0;
  ARM64_FTR_BITS FTR_HIDDEN FTR_STRICT FTR_LOWER_SAFE (SYSREG "ID_MMFR0_EL1_ShareLvl_SHIFT") 4 0;
  S_ARM64_FTR_BITS FTR_HIDDEN FTR_STRICT FTR_LOWER_SAFE (SYSREG "ID_MMFR0_EL1_OuterShr_SHIFT") 4 15;
  ARM64_FTR_BITS FTR_HIDDEN FTR_STRICT FTR_LOWER_SAFE (SYSREG "ID_MMFR0_EL1_PMSA_SHIFT") 4 0;
  ARM64_FTR_BITS FTR_HIDDEN FTR_STRICT FTR_LOWER_SAFE (SYSREG "ID_MMFR0_EL1_VMSA_SHIFT") 4 0;
  ARM64_FTR_END].

Definition ftr_id_aa64dfr0 : list arm64_ftr_bits := [
  S_ARM64_FTR_BITS FTR_HIDDEN FTR_STRICT FTR_LOWER_SAFE (SYSREG "ID_AA64DFR0_EL1_DoubleLock_SHIFT") 4 0;
  ARM64_FTR_BITS FTR_HIDDEN FTR_NONSTRICT FTR_LOWER_SAFE (SYSREG "ID_AA64DFR0_EL1_PMSVer_SHIFT") 4 0;
  ARM64_FTR_BITS FTR_HIDDEN FTR_STRICT FTR_LOWER_SAFE (SYSREG "ID_AA64DFR0_EL1_CTX_CMPs_SHIFT") 4 0;
  ARM64_FTR_BITS FTR_HIDDEN FTR_STRICT FTR_LOWER_SAFE (SYSREG "ID_AA64DFR0_EL1_WRPs_SHIFT") 4 0;
  ARM64_FTR_BITS FTR_HIDDEN FTR_STRICT FTR_LOWER_SAFE (SYSREG "ID_AA64DFR0_EL1_BRPs_SHIFT") 4 0;
  ARM64_FTR_BITS FTR_HIDDEN FTR_NONSTRICT FTR_EXACT (SYSREG "ID_AA64DFR0_EL1_PMUVer_SHIFT") 4 0;
  ARM64_FTR_BITS FTR_HIDDEN FTR_STRICT FTR_EXACT (SYSREG "ID_AA64DFR0_EL1_DebugVer_SHIFT") 4 6;
  ARM64_FTR_END].

Definition ftr_mvfr0 : list arm64_ftr_bits := [
  ARM64_FTR_BITS FTR_HIDDEN FTR_STRICT FTR_LOWER_SAFE (SYSREG "MVFR0_EL1_FPRound_SHIFT") 4 0;
  ARM64_FTR_BITS FTR_HIDDEN FTR_STRICT FTR_LOWER_SAFE (SYSREG "MVFR0_EL1_FPShVec_SHIFT") 4 0;
  ARM64_FTR_BITS FTR_HIDDEN FTR_STRICT FTR_LOWER_SAFE (SYSREG "MVFR0_EL1_FPSqrt_SHIFT") 4 0;
  ARM64_FTR_BITS FTR_HIDDEN FTR_STRICT FTR_LOWER_SAFE (SYSREG "MVFR0_EL1_FPDivide_SHIFT") 4 0;
  ARM64_FTR_BITS FTR_HIDDEN FTR_STRICT FTR_LOWER_SAFE (SYSREG "MVFR0_EL1_FPTrap_SHIFT") 4 0;
  ARM64_FTR_BITS FTR_VISIBLE FTR_STRICT FTR_LOWER_SAFE (SYSREG "MVFR0_EL1_FPDP_SHIFT") 4 0;
  ARM64_FTR_BITS FTR_HIDDEN FTR_STRICT FTR_LOWER_SAFE (SYSREG "MVFR0_EL1_FPSP_SHIFT") 4 0;
  ARM64_FTR_BITS FTR_HIDDEN FTR_STRICT FTR_LOWER_SAFE (SYSREG "MVFR0_EL1_SIMDReg_SHIFT") 4 0;
  ARM64_FTR_END].

Definition ftr_mvfr1 : list arm64_ftr_bits := [
  ARM64_FTR_BITS FTR_VISIBLE FTR_STRICT FTR_LOWER_SAFE (SYSREG "MVFR1_EL1_SIMDFMAC_SHIFT") 4 0;
  ARM64_FTR_BITS FTR_VISIBLE FTR_STRICT FTR_LOWER_SAFE (SYSREG "MVFR1_EL1_FPHP_SHIFT") 4 0;
  ARM64_FTR_BITS FTR_VISIBLE FTR_STRICT FTR_LOWER_SAFE (SYSREG "MVFR1_EL1_SIMDHP_SHIFT") 4 0;
  ARM64_FTR_BITS FTR_VISIBLE FTR_STRICT FTR_LOWER_SAFE (SYSREG "MVFR1_EL1_SIMDSP_SHIFT") 4 0;
  ARM64_FTR_BITS FTR_VISIBLE FTR_STRICT FTR_LOWER_SAFE (SYSREG "MVFR1_EL1_SIMDInt_SHIFT") 4 0;
  ARM64_FTR_BITS FTR_VISIBLE FTR_STRICT FTR_LOWER_SAFE (SYSREG "MVFR1_EL1_SIMDLS_SHIFT") 4 0;
  ARM64_FTR_BITS FTR_HIDDEN FTR_STRICT FTR_LOWER_SAFE (SYSREG "MVFR1_EL1_FPDNaN_SHIFT") 4 0;
  ARM64_FTR_BITS FTR_HIDDEN FTR_STRICT FTR_LOWER_SAFE (SYSREG "MVFR1_EL1_FPFtZ_SHIFT") 4 0;
  ARM64_FTR_END].

Definition ftr_mvfr2 : list arm64_ftr_bits := [
  ARM64_FTR_BITS FTR_HIDDEN FTR_STRICT FTR_LOWER_SAFE (SYSREG "MVFR2_EL1_FPMisc_SHIFT") 4 0;
  ARM64_FTR_BITS FTR_HIDDEN FTR_STRICT FTR_LOWER_SAFE (SYSREG "MVFR2_EL1_SIMDMisc_SHIFT") 4 0;
  ARM64_FTR_END].

Definition ftr_dczid : list arm64_ftr_bits := [
  ARM64_FTR_BITS FTR_VISIBLE FTR_STRICT FTR_EXACT (SYSREG "DCZID_EL0_DZP_SHIFT") 1 1;
  ARM64_FTR_BITS FTR_VISIBLE FTR_STRICT FTR_LOWER_SAFE (SYSREG "DCZID_EL0_BS_SHIFT") 4 0;
  ARM64_FTR_END].

Definition ftr_gmid : list arm64_ftr_bits := [
  ARM64_FTR_BITS FTR_HIDDEN FTR_STRICT FTR_LOWER_SAFE (SYSREG "GMID_EL1_BS_SHIFT") 4 0;
  ARM64_FTR_END].

Definition ftr_id_isar0 : list arm64_ftr_bits := [
  ARM64_FTR_BITS FTR_HIDDEN FTR_STRICT FTR_LOWER_SAFE (SYSREG "ID_ISAR0_EL1_Divide_SHIFT") 4 0;
  ARM64_FTR_BITS FTR_HIDDEN FTR_STRICT FTR_LOWER_SAFE (SYSREG "ID_ISAR0_EL1_Debug_SHIFT") 4 0;
  ARM64_FTR_BITS FTR_HIDDEN FTR_STRICT FTR_LOWER_SAFE (SYSREG "ID_ISAR0_EL1_Coproc_SHIFT") 4 0;
  ARM64_FTR_BITS FTR_HIDDEN FTR_STRICT FTR_LOWER_SAFE (SYSREG "ID_ISAR0_EL1_CmpBranch_SHIFT") 4 0;
  ARM64_FTR_BITS FTR_HIDDEN FTR_STRICT FTR_LOWER_SAFE (SYSREG "ID_ISAR0_EL1_BitField_SHIFT") 4 0;
  ARM64_FTR_BITS FTR_HIDDEN FTR_STRICT FTR_LOWER_SAFE (SYSREG "ID_ISAR0_EL1_BitCount_SHIFT") 4 0;
  ARM64_FTR_BITS FTR_HIDDEN FTR_STRICT FTR_LOWER_SAFE (SYSREG "ID_ISAR0_EL1_Swap_SHIFT") 4 0;
  ARM64_FTR_END].

Definition ftr_id_isar5 : list arm64_ftr_bits := [
  ARM64_FTR_BITS FTR_HIDDEN FTR_STRICT FTR_LOWER_SAFE (SYSREG "ID_ISAR5_EL1_RDM_SHIFT") 4 0;
  ARM64_FTR_BITS FTR_VISIBLE FTR_STRICT FTR_LOWER_SAFE (SYSREG "ID_ISAR5_EL1_CRC32_SHIFT") 4 0;
  ARM64_FTR_BITS FTR_VISIBLE FTR_STRICT FTR_LOWER_SAFE (SYSREG "ID_ISAR5_EL1_SHA2_SHIFT") 4 0;
  ARM64_FTR_BITS FTR_VISIBLE FTR_STRICT FTR_LOWER_SAFE (SYSREG "ID_ISAR5_EL1_SHA1_SHIFT") 4 0;
  ARM64_FTR_BITS FTR_VISIBLE FTR_STRICT FTR_LOWER_SAFE (SYSREG "ID_ISAR5_EL1_AES_SHIFT") 4 0;
  ARM64_FTR_BITS FTR_HIDDEN FTR_STRICT FTR_LOWER_SAFE (SYSREG "ID_ISAR5_EL1_SEVL_SHIFT") 4 0;
  ARM64_FTR_END].

Definition ftr_id_mmfr4 : list arm64_ftr_bits := [
  ARM64_FTR_BITS FTR_HIDDEN FTR_STRICT FTR_LOWER_SAFE (SYSREG "ID_MMFR4_EL1_EVT_SHIFT") 4 0;
  ARM64_FTR_BITS FTR_HIDDEN FTR_STRICT FTR_LOWER_SAFE (SYSREG "ID_MMFR4_EL1_CCIDX_SHIFT") 4 0;
  ARM64_FTR_BITS FTR_HIDDEN FTR_STRICT FTR_LOWER_SAFE (SYSREG "ID_MMFR4_EL1_LSM_SHIFT") 4 0;
  ARM64_FTR_BITS FTR_HIDDEN FTR_STRICT FTR_LOWER_SAFE (SYSREG "ID_MMFR4_EL1_HPDS_SHIFT") 4 0;
  ARM64_FTR_BITS FTR_HIDDEN FTR_STRICT FTR_LOWER_SAFE (SYSREG "ID_MMFR4_EL1_CnP_SHIFT") 4 0;
  ARM64_FTR_BITS FTR_HIDDEN FTR_STRICT FTR_LOWER_SAFE (SYSREG "ID_MMFR4_EL1_XNX_SHIFT") 4 0;
  ARM64_FTR_BITS FTR_HIDDEN FTR_STRICT FTR_LOWER_SAFE (SYSREG "ID_MMFR4_EL1_AC2_SHIFT") 4 0;
  ARM64_FTR_BITS FTR_HIDDEN FTR_STRICT FTR_HIGHER_SAFE (SYSREG "ID_MMFR4_EL1_SpecSEI_SHIFT") 4 0;
  ARM64_FTR_END].

Definition ftr_id_isar4 : list arm64_ftr_bits := [
  ARM64_FTR_BITS FTR_HIDDEN FTR_STRICT FTR_LOWER_SAFE (SYSREG "ID_ISAR4_EL1_SWP_frac_SHIFT") 4 0;
  ARM64_FTR_BITS FTR_HIDDEN FTR_STRICT FTR_LOWER_SAFE (SYSREG "ID_ISAR4_EL1_PSR_M_SHIFT") 4 0;
  ARM64_FTR_BITS FTR_HIDDEN FTR_STRICT FTR_LOWER_SAFE (SYSREG "ID_ISAR4_EL1_SynchPrim_frac_SHIFT") 4 0;
  ARM64_FTR_BITS FTR_HIDDEN FTR_STRICT FTR_LOWER_SAFE (SYSREG "ID_ISAR4_EL1_Barrier_SHIFT") 4 0;
  ARM64_FTR_BITS FTR_HIDDEN FTR_STRICT FTR_LOWER_SAFE (SYSREG "ID_ISAR4_EL1_SMC_SHIFT") 4 0;
  ARM64_FTR_BITS FTR_HIDDEN FTR_STRICT FTR_LOWER_SAFE (SYSREG "ID_ISAR4_EL1_Writeback_SHIFT") 4 0;
  ARM64_FTR_BITS FTR_HIDDEN FTR_STRICT FTR_LOWER_SAFE (SYSREG "ID_ISAR4_EL1_WithShifts_SHIFT") 4 0;
  ARM64_FTR_BITS FTR_HIDDEN FTR_STRICT FTR_LOWER_SAFE (SYSREG "ID_ISAR4_EL1_Unpriv_SHIFT") 4 0;
  ARM64_FTR_END].

Definition ftr_id_mmfr5 : list arm64_ftr_bits := [
  ARM64_FTR_BITS FTR_HIDDEN FTR_STRICT FTR_LOWER_SAFE (SYSREG "ID_MMFR5_EL1_ETS_SHIFT") 4 0;
  ARM64_FTR_END].

Definition ftr_id_isar6 : list arm64_ftr_bits := [
  ARM64_FTR_BITS FTR_VISIBLE FTR_STRICT FTR_LOWER_SAFE (SYSREG "ID_ISAR6_EL1_I8MM_SHIFT") 4 0;
  ARM64_FTR_BITS FTR_VISIBLE FTR_STRICT FTR_LOWER_SAFE (SYSREG "ID_ISAR6_EL1_BF16_SHIFT") 4 0;
  ARM64_FTR_BITS FTR_HIDDEN FTR_STRICT FTR_LOWER_SAFE (SYSREG "ID_ISAR6_EL1_SPECRES_SHIFT") 4 0;
  ARM64_FTR_BITS FTR_VISIBLE FTR_STRICT FTR_LOWER_SAFE (SYSREG "ID_ISAR6_EL1_SB_SHIFT") 4 0;
  ARM64_FTR_BITS FTR_VISIBLE FTR_STRICT FTR_LOWER_SAFE (SYSREG "ID_ISAR6_EL1_FHM_SHIFT") 4 0;
  ARM64_FTR_BITS FTR_VISIBLE FTR_STRICT FTR_LOWER_SAFE (SYSREG "ID_ISAR6_EL1_DP_SHIFT") 4 0;
  ARM64_FTR_BITS FTR_HIDDEN FTR_STRICT FTR_LOWER_SAFE (SYSREG "ID_ISAR6_EL1_JSCVT_SHIFT") 4 0;
  ARM64_FTR_END].

Definition ftr_id_pfr0 : list arm64_ftr_bits := [
  ARM64_FTR_BITS FTR_HIDDEN FTR_STRICT FTR_LOWER_SAFE (SYSREG "ID_PFR0_EL1_DIT_SHIFT") 4 0;
  ARM64_FTR_BITS FTR_HIDDEN FTR_NONSTRICT FTR_LOWER_SAFE (SYSREG "ID_PFR0_EL1_CSV2_SHIFT") 4 0;
  ARM64_FTR_BITS FTR_HIDDEN FTR_STRICT FTR_LOWER_SAFE (SYSREG "ID_PFR0_EL1_State3_SHIFT") 4 0;
  ARM64_FTR_BITS FTR_HIDDEN FTR_STRICT FTR_LOWER_SAFE (SYSREG "ID_PFR0_EL1_State2_SHIFT") 4 0;
  ARM64_FTR_BITS FTR_HIDDEN FTR_STRICT FTR_LOWER_SAFE (SYSREG "ID_PFR0_EL1_State1_SHIFT") 4 0;
  ARM64_FTR_BITS FTR_HIDDEN FTR_STRICT FTR_LOWER_SAFE (SYSREG "ID_PFR0_EL1_State0_SHIFT") 4 0;
  ARM64_FTR_END].

Definition ftr_id_pfr1 : list arm64_ftr_bits := [
  ARM64_FTR_BITS FTR_HIDDEN FTR_STRICT FTR_LOWER_SAFE (SYSREG "ID_PFR1_EL1_GIC_SHIFT") 4 0;
  ARM64_FTR_BITS FTR_HIDDEN FTR_STRICT FTR_LOWER_SAFE (SYSREG "ID_PFR1_EL1_Virt_frac_SHIFT") 4 0;
  ARM64_FTR_BITS FTR_HIDDEN FTR_STRICT FTR_LOWER_SAFE (SYSREG "ID_PFR1_EL1_Sec_frac_SHIFT") 4 0;
  ARM64_FTR_BITS FTR_HIDDEN FTR_STRICT FTR_LOWER_SAFE (SYSREG "ID_PFR1_EL1_GenTimer_SHIFT") 4 0;
  ARM64_FTR_BITS FTR_HIDDEN FTR_STRICT FTR_LOWER_SAFE (SYSREG "ID_PFR1_EL1_Virtualization_SHIFT") 4 0;
  ARM64_FTR_BITS FTR_HIDDEN FTR_STRICT FTR_LOWER_SAFE (SYSREG "ID_PFR1_EL1_MProgMod_SHIFT") 4 0;
  ARM64_FTR_BITS FTR_HIDDEN FTR_STRICT FTR_LOWER_SAFE (SYSREG "ID_PFR1_EL1_Security_SHIFT") 4 0;
  ARM64_FTR_BITS FTR_HIDDEN FTR_STRICT FTR_LOWER_SAFE (SYSREG "ID_PFR1_EL1_ProgMod_SHIFT") 4 0;
  ARM64_FTR_END].

Definition ftr_id_pfr2 : list arm64_ftr_bits := [
  ARM64_FTR_BITS FTR_VISIBLE FTR_NONSTRICT FTR_LOWER_SAFE (SYSREG "ID_PFR2_EL1_SSBS_SHIFT") 4 0;
  ARM64_FTR_BITS FTR_HIDDEN FTR_NONSTRICT FTR_LOWER_SAFE (SYSREG "ID_PFR2_EL1_CSV3_SHIFT") 4 0;
  ARM64_FTR_END].

Definition ftr_id_dfr0 : list arm64_ftr_bits := [
  ARM64_FTR_BITS FTR_HIDDEN FTR_NONSTRICT FTR_EXACT (SYSREG "ID_DFR0_EL1_PerfMon_SHIFT") 4 0;
  ARM64_FTR_BITS FTR_HIDDEN FTR_STRICT FTR_LOWER_SAFE (SYSREG "ID_DFR0_EL1_MProfDbg_SHIFT") 4 0;
  ARM64_FTR_BITS FTR_HIDDEN FTR_STRICT FTR_LOWER_SAFE (SYSREG "ID_DFR0_EL1_MMapTrc_SHIFT") 4 0;
  ARM64_FTR_BITS FTR_HIDDEN FTR_STRICT FTR_LOWER_SAFE (SYSREG "ID_DFR0_EL1_CopTrc_SHIFT") 4 0;
  ARM64_FTR_BITS FTR_HIDDEN FTR_STRICT FTR_LOWER_SAFE (SYSREG "ID_DFR0_EL1_MMapDbg_SHIFT") 4 0;
  ARM64_FTR_BITS FTR_HIDDEN FTR_STRICT FTR_LOWER_SAFE (SYSREG "ID_DFR0_EL1_CopSDbg_SHIFT") 4 0;
  ARM64_FTR_BITS FTR_HIDDEN FTR_STRICT FTR_LOWER_SAFE (SYSREG "ID_DFR0_EL1_CopDbg_SHIFT") 4 0;
  ARM64_FTR_END].

Definition ftr_id_dfr1 : list arm64_ftr_bits := [
  S_ARM64_FTR_BITS FTR_HIDDEN FTR_STRICT FTR_LOWER_SAFE (SYSREG "ID_DFR1_EL1_MTPMU_SHIFT") 4 0;
  ARM64_FTR_END].

Definition ftr_mpamidr : list arm64_ftr_bits := [
  ARM64_FTR_BITS FTR_HIDDEN FTR_NONSTRICT FTR_LOWER_SAFE (SYSREG "MPAMIDR_EL1_PMG_MAX_SHIFT") (SYSREG "MPAMIDR_EL1_PMG_MAX_WIDTH") 0;
  ARM64_FTR_BITS FTR_HIDDEN FTR_NONSTRICT FTR_LOWER_SAFE (SYSREG "MPAMIDR_EL1_VPMR_MAX_SHIFT") (SYSREG "MPAMIDR_EL1_VPMR_MAX_WIDTH") 0;
  ARM64_FTR_BITS FTR_HIDDEN FTR_STRICT FTR_LOWER_SAFE (SYSREG "MPAMIDR_EL1_HAS_HCR_SHIFT") 1 0;
  ARM64_FTR_BITS FTR_HIDDEN FTR_NONSTRICT FTR_LOWER_SAFE (SYSREG "MPAMIDR_EL1_PARTID_MAX_SHIFT") (SYSREG "MPAMIDR_EL1_PARTID_MAX_WIDTH") 0;
  ARM64_FTR_END].

Definition ftr_generic_32bits : list arm64_ftr_bits := [
  ARM64_FTR_BITS FTR_HIDDEN FTR_STRICT FTR_LOWER_SAFE 28 4 0;
  ARM64_FTR_BITS FTR_HIDDEN FTR_STRICT FTR_LOWER_SAFE 24 4 0;
  ARM64_FTR_BITS FTR_HIDDEN FTR_STRICT FTR_LOWER_SAFE 20 4 0;
  ARM64_FTR_BITS FTR_HIDDEN FTR_STRICT FTR_LOWER_SAFE 16 4 0;
  ARM64_FTR_BITS FTR_HIDDEN FTR_STRICT FTR_LOWER_SAFE 12 4 0;
  ARM64_FTR_BITS FTR_HIDDEN FTR_STRICT FTR_LOWER_SAFE 8 4 0;
  ARM64_FTR_BITS FTR_HIDDEN FTR_STRICT FTR_LOWER_SAFE 4 4 0;
  ARM64_FTR_BITS FTR_HIDDEN FTR_STRICT FTR_LOWER_SAFE 0 4 0;
  ARM64_FTR_END].

Definition ftr_single32 : list arm64_ftr_bits := [
  ARM64_FTR_BITS FTR_HIDDEN FTR_STRICT FTR_EXACT 0 32 0;
  ARM64_FTR_END].

Definition ftr_raz : list arm64_ftr_bits := [
  ARM64_FTR_END].

(** ** The registers *)

Definition __ARM64_FTR_REG_OVERRIDE (id : string) (table : list arm64_ftr_bits) (ovr : option regid) : Z * arm64_ftr_reg :=
  (SYSREG id, FtrReg id 0 0 0 0 ovr table).
Definition ARM64_FTR_REG_OVERRIDE (id : string) (table : list arm64_ftr_bits) (ovr : regid) : Z * arm64_ftr_reg :=
  __ARM64_FTR_REG_OVERRIDE id table (Some ovr).
Definition ARM64_FTR_REG (id : string) (table : list arm64_ftr_bits) : Z * arm64_ftr_reg :=
  __ARM64_FTR_REG_OVERRIDE id table None.

Definition arm64_ftr_reg_ctrel0 : arm64_ftr_reg := FtrReg "SYS_CTR_EL0" 0 0 0 0 None ftr_ctr.

Definition arm64_ftr_regs : list (Z * arm64_ftr_reg) := [
  ARM64_FTR_REG "SYS_ID_PFR0_EL1" ftr_id_pfr0;
  ARM64_FTR_REG "SYS_ID_PFR1_EL1" ftr_id_pfr1;
  ARM64_FTR_REG "SYS_ID_DFR0_EL1" ftr_id_dfr0;
  ARM64_FTR_REG "SYS_ID_MMFR0_EL1" ftr_id_mmfr0;
  ARM64_FTR_REG "SYS_ID_MMFR1_EL1" ftr_generic_32bits;
  ARM64_FTR_REG "SYS_ID_MMFR2_EL1" ftr_generic_32bits;
  ARM64_FTR_REG "SYS_ID_MMFR3_EL1" ftr_generic_32bits;
  ARM64_FTR_REG "SYS_ID_ISAR0_EL1" ftr_id_isar0;
  ARM64_FTR_REG "SYS_ID_ISAR1_EL1" ftr_generic_32bits;
  ARM64_FTR_REG "SYS_ID_ISAR2_EL1" ftr_generic_32bits;
  ARM64_FTR_REG "SYS_ID_ISAR3_EL1" ftr_generic_32bits;
  ARM64_FTR_REG "SYS_ID_ISAR4_EL1" ftr_id_isar4;
  ARM64_FTR_REG "SYS_ID_ISAR5_EL1" ftr_id_isar5;
  ARM64_FTR_REG "SYS_ID_MMFR4_EL1" ftr_id_mmfr4;
  ARM64_FTR_REG "SYS_ID_ISAR6_EL1" ftr_id_isar6;
  ARM64_FTR_REG "SYS_MVFR0_EL1" ftr_mvfr0;
  ARM64_FTR_REG "SYS_MVFR1_EL1" ftr_mvfr1;
  ARM64_FTR_REG "SYS_MVFR2_EL1" ftr_mvfr2;
  ARM64_FTR_REG "SYS_ID_PFR2_EL1" ftr_id_pfr2;
  ARM64_FTR_REG "SYS_ID_DFR1_EL1" ftr_id_dfr1;
  ARM64_FTR_REG "SYS_ID_MMFR5_EL1" ftr_id_mmfr5;
  ARM64_FTR_REG_OVERRIDE "SYS_ID_AA64PFR0_EL1" ftr_id_aa64pfr0 Rpfr0;
  ARM64_FTR_REG_OVERRIDE "SYS_ID_AA64PFR1_EL1" ftr_id_aa64pfr1 Rpfr1;
  ARM64_FTR_REG "SYS_ID_AA64PFR2_EL1" ftr_id_aa64pfr2;
  ARM64_FTR_REG_OVERRIDE "SYS_ID_AA64ZFR0_EL1" ftr_id_aa64zfr0 Rzfr0;
  ARM64_FTR_REG_OVERRIDE "SYS_ID_AA64SMFR0_EL1" ftr_id_aa64smfr0 Rsmfr0;
  ARM64_FTR_REG "SYS_ID_AA64FPFR0_EL1" ftr_id_aa64fpfr0;
  ARM64_FTR_REG "SYS_ID_AA64DFR0_EL1" ftr_id_aa64dfr0;
  ARM64_FTR_REG "SYS_ID_AA64DFR1_EL1" ftr_raz;
  ARM64_FTR_REG "SYS_ID_AA64ISAR0_EL1" ftr_id_aa64isar0;
  ARM64_FTR_REG_OVERRIDE "SYS_ID_AA64ISAR1_EL1" ftr_id_aa64isar1 Risar1;
  ARM64_FTR_REG_OVERRIDE "SYS_ID_AA64ISAR2_EL1" ftr_id_aa64isar2 Risar2;
  ARM64_FTR_REG "SYS_ID_AA64ISAR3_EL1" ftr_id_aa64isar3;
  ARM64_FTR_REG_OVERRIDE "SYS_ID_AA64MMFR0_EL1" ftr_id_aa64mmfr0 Rmmfr0;
  ARM64_FTR_REG_OVERRIDE "SYS_ID_AA64MMFR1_EL1" ftr_id_aa64mmfr1 Rmmfr1;
  ARM64_FTR_REG_OVERRIDE "SYS_ID_AA64MMFR2_EL1" ftr_id_aa64mmfr2 Rmmfr2;
  ARM64_FTR_REG "SYS_ID_AA64MMFR3_EL1" ftr_id_aa64mmfr3;
  ARM64_FTR_REG "SYS_ID_AA64MMFR4_EL1" ftr_id_aa64mmfr4;
  ARM64_FTR_REG "SYS_MPAMIDR_EL1" ftr_mpamidr;
  ARM64_FTR_REG "SYS_GMID_EL1" ftr_gmid;
  (SYSREG "SYS_CTR_EL0", arm64_ftr_reg_ctrel0);
  ARM64_FTR_REG "SYS_DCZID_EL0" ftr_dczid;
  ARM64_FTR_REG "SYS_CNTFRQ_EL0" ftr_single32].

End tables.

(** ** A layout

    Fields packed from bit 0 in the order of the tables, ascending encodings. *)

Definition sample_constants : list (string * Z) := [
  ("SYS_ID_PFR0_EL1", 1573376); ("SYS_ID_PFR1_EL1", 1573384); ("SYS_ID_DFR0_EL1", 1573392);
  ("SYS_ID_MMFR0_EL1", 1573400); ("SYS_ID_MMFR1_EL1", 1573408); ("SYS_ID_MMFR2_EL1", 1573416);
  ("SYS_ID_MMFR3_EL1", 1573424); ("SYS_ID_ISAR0_EL1", 1573432); ("SYS_ID_ISAR1_EL1", 1573440);
  ("SYS_ID_ISAR2_EL1", 1573448); ("SYS_ID_ISAR3_EL1", 1573456); ("SYS_ID_ISAR4_EL1", 1573464);
  ("SYS_ID_ISAR5_EL1", 1573472); ("SYS_ID_MMFR4_EL1", 1573480); ("SYS_ID_ISAR6_EL1", 1573488);
  ("SYS_MVFR0_EL1", 1573496); ("SYS_MVFR1_EL1", 1573504); ("SYS_MVFR2_EL1", 1573512);
  ("SYS_ID_PFR2_EL1", 1573520); ("SYS_ID_DFR1_EL1", 1573528); ("SYS_ID_MMFR5_EL1", 1573536);
  ("SYS_ID_AA64PFR0_EL1", 1573544); ("SYS_ID_AA64PFR1_EL1", 1573552); ("SYS_ID_AA64PFR2_EL1", 1573560);
  ("SYS_ID_AA64ZFR0_EL1", 1573568); ("SYS_ID_AA64SMFR0_EL1", 1573576); ("SYS_ID_AA64FPFR0_EL1", 1573584);
  ("SYS_ID_AA64DFR0_EL1", 1573592); ("SYS_ID_AA64DFR1_EL1", 1573600); ("SYS_ID_AA64ISAR0_EL1", 1573608);
  ("SYS_ID_AA64ISAR1_EL1", 1573616); ("SYS_ID_AA64ISAR2_EL1", 1573624); ("SYS_ID_AA64ISAR3_EL1", 1573632);
  ("SYS_ID_AA64MMFR0_EL1", 1573640); ("SYS_ID_AA64MMFR1_EL1", 1573648); ("SYS_ID_AA64MMFR2_EL1", 1573656);
  ("SYS_ID_AA64MMFR3_EL1", 1573664); ("SYS_ID_AA64MMFR4_EL1", 1573672); ("SYS_MPAMIDR_EL1", 1573680);
  ("SYS_GMID_EL1", 1573688); ("SYS_CTR_EL0", 1573696); ("SYS_DCZID_EL0", 1573704);
  ("SYS_CNTFRQ_EL0", 1573712); ("ID_AA64ISAR0_EL1_AES_SHIFT", 0); ("ID_AA64ISAR0_EL1_SHA1_SHIFT", 4);
  ("ID_AA64ISAR0_EL1_SHA2_SHIFT", 8); ("ID_AA64ISAR0_EL1_CRC32_SHIFT", 12);
  ("ID_AA64ISAR0_EL1_ATOMIC_SHIFT", 16); ("ID_AA64ISAR0_EL1_RDM_SHIFT", 20);
  ("ID_AA64ISAR0_EL1_SHA3_SHIFT", 24); ("ID_AA64ISAR0_EL1_SM3_SHIFT", 28);
  ("ID_AA64ISAR0_EL1_SM4_SHIFT", 32); ("ID_AA64ISAR0_EL1_DP_SHIFT", 36); ("ID_AA64ISAR0_EL1_FHM_SHIFT", 40);
  ("ID_AA64ISAR0_EL1_TS_SHIFT", 44); ("ID_AA64ISAR0_EL1_TLB_SHIFT", 48); ("ID_AA64ISAR0_EL1_RNDR_SHIFT", 52);
  ("ID_AA64ISAR1_EL1_DPB_SHIFT", 0); ("ID_AA64ISAR1_EL1_APA_SHIFT", 4); ("ID_AA64ISAR1_EL1_API_SHIFT", 8);
  ("ID_AA64ISAR1_EL1_JSCVT_SHIFT", 12); ("ID_AA64ISAR1_EL1_FCMA_SHIFT", 16);
  ("ID_AA64ISAR1_EL1_LRCPC_SHIFT", 20); ("ID_AA64ISAR1_EL1_GPA_SHIFT", 24);
  ("ID_AA64ISAR1_EL1_GPI_SHIFT", 28); ("ID_AA64ISAR1_EL1_FRINTTS_SHIFT", 32);
  ("ID_AA64ISAR1_EL1_SB_SHIFT", 36); ("ID_AA64ISAR1_EL1_SPECRES_SHIFT", 40);
  ("ID_AA64ISAR1_EL1_BF16_SHIFT", 44); ("ID_AA64ISAR1_EL1_DGH_SHIFT", 48);
  ("ID_AA64ISAR1_EL1_I8MM_SHIFT", 52); ("ID_AA64ISAR1_EL1_XS_SHIFT", 56);
  ("ID_AA64ISAR1_EL1_LS64_SHIFT", 60); ("ID_AA64ISAR2_EL1_WFxT_SHIFT", 0);
  ("ID_AA64ISAR2_EL1_RPRES_SHIFT", 4); ("ID_AA64ISAR2_EL1_GPA3_SHIFT", 8);
  ("ID_AA64ISAR2_EL1_APA3_SHIFT", 12); ("ID_AA64ISAR2_EL1_MOPS_SHIFT", 16);
  ("ID_AA64ISAR2_EL1_BC_SHIFT", 20); ("ID_AA64ISAR2_EL1_CLRBHB_SHIFT", 24);
  ("ID_AA64ISAR2_EL1_RPRFM_SHIFT", 28); ("ID_AA64ISAR2_EL1_CSSC_SHIFT", 32);
  ("ID_AA64ISAR2_EL1_LUT_SHIFT", 36); ("ID_AA64ISAR2_EL1_ATS1A_SHIFT", 40);
  ("ID_AA64ISAR3_EL1_FAMINMAX_SHIFT", 0); ("ID_AA64ISAR3_EL1_LSFE_SHIFT", 4);
  ("ID_AA64ISAR3_EL1_LSUI_SHIFT", 8); ("ID_AA64ISAR3_EL1_FPRCVT_SHIFT", 12);
  ("ID_AA64PFR0_EL1_EL0_SHIFT", 0); ("ID_AA64PFR0_EL1_EL1_SHIFT", 4); ("ID_AA64PFR0_EL1_EL2_SHIFT", 8);
  ("ID_AA64PFR0_EL1_EL3_SHIFT", 12); ("ID_AA64PFR0_EL1_FP_SHIFT", 16); ("ID_AA64PFR0_EL1_AdvSIMD_SHIFT", 20);
  ("ID_AA64PFR0_EL1_GIC_SHIFT", 24); ("ID_AA64PFR0_EL1_RAS_SHIFT", 28); ("ID_AA64PFR0_EL1_SVE_SHIFT", 32);
  ("ID_AA64PFR0_EL1_SEL2_SHIFT", 36); ("ID_AA64PFR0_EL1_MPAM_SHIFT", 40); ("ID_AA64PFR0_EL1_AMU_SHIFT", 44);
  ("ID_AA64PFR0_EL1_DIT_SHIFT", 48); ("ID_AA64PFR0_EL1_CSV2_SHIFT", 52); ("ID_AA64PFR0_EL1_CSV3_SHIFT", 56);
  ("ID_AA64PFR1_EL1_BT_SHIFT", 0); ("ID_AA64PFR1_EL1_SSBS_SHIFT", 4); ("ID_AA64PFR1_EL1_MTE_SHIFT", 8);
  ("ID_AA64PFR1_EL1_RAS_frac_SHIFT", 12); ("ID_AA64PFR1_EL1_MPAM_frac_SHIFT", 16);
  ("ID_AA64PFR1_EL1_SME_SHIFT", 20); ("ID_AA64PFR1_EL1_MTE_frac_SHIFT", 24);
  ("ID_AA64PFR1_EL1_GCS_SHIFT", 28); ("ID_AA64PFR1_EL1_DF2_SHIFT", 32);
  ("ID_AA64PFR2_EL1_MTESTOREONLY_SHIFT", 0); ("ID_AA64PFR2_EL1_MTEFAR_SHIFT", 4);
  ("ID_AA64PFR2_EL1_GCIE_SHIFT", 8); ("ID_AA64PFR2_EL1_FPMR_SHIFT", 12); ("ID_AA64ZFR0_EL1_SVEver_SHIFT", 0);
  ("ID_AA64ZFR0_EL1_AES_SHIFT", 4); ("ID_AA64ZFR0_EL1_EltPerm_SHIFT", 8);
  ("ID_AA64ZFR0_EL1_BitPerm_SHIFT", 12); ("ID_AA64ZFR0_EL1_BF16_SHIFT", 16);
  ("ID_AA64ZFR0_EL1_B16B16_SHIFT", 20); ("ID_AA64ZFR0_EL1_SHA3_SHIFT", 24);
  ("ID_AA64ZFR0_EL1_SM4_SHIFT", 28); ("ID_AA64ZFR0_EL1_I8MM_SHIFT", 32); ("ID_AA64ZFR0_EL1_F16MM_SHIFT", 36);
  ("ID_AA64ZFR0_EL1_F32MM_SHIFT", 40); ("ID_AA64ZFR0_EL1_F64MM_SHIFT", 44);
  ("ID_AA64SMFR0_EL1_SMOP4_SHIFT", 0); ("ID_AA64SMFR0_EL1_STMOP_SHIFT", 1);
  ("ID_AA64SMFR0_EL1_SFEXPA_SHIFT", 2); ("ID_AA64SMFR0_EL1_AES_SHIFT", 3);
  ("ID_AA64SMFR0_EL1_SBitPerm_SHIFT", 4); ("ID_AA64SMFR0_EL1_SF8DP2_SHIFT", 5);
  ("ID_AA64SMFR0_EL1_SF8DP4_SHIFT", 6); ("ID_AA64SMFR0_EL1_SF8FMA_SHIFT", 7);
  ("ID_AA64SMFR0_EL1_F32F32_SHIFT", 8); ("ID_AA64SMFR0_EL1_BI32I32_SHIFT", 9);
  ("ID_AA64SMFR0_EL1_B16F32_SHIFT", 10); ("ID_AA64SMFR0_EL1_F16F32_SHIFT", 11);
  ("ID_AA64SMFR0_EL1_I8I32_SHIFT", 12); ("ID_AA64SMFR0_EL1_F8F32_SHIFT", 16);
  ("ID_AA64SMFR0_EL1_F8F16_SHIFT", 17); ("ID_AA64SMFR0_EL1_F16F16_SHIFT", 18);
  ("ID_AA64SMFR0_EL1_B16B16_SHIFT", 19); ("ID_AA64SMFR0_EL1_I16I32_SHIFT", 20);
  ("ID_AA64SMFR0_EL1_F64F64_SHIFT", 24); ("ID_AA64SMFR0_EL1_I16I64_SHIFT", 25);
  ("ID_AA64SMFR0_EL1_SMEver_SHIFT", 29); ("ID_AA64SMFR0_EL1_LUTv2_SHIFT", 33);
  ("ID_AA64SMFR0_EL1_LUT6_SHIFT", 34); ("ID_AA64SMFR0_EL1_FA64_SHIFT", 35);
  ("ID_AA64FPFR0_EL1_F8E5M2_SHIFT", 0); ("ID_AA64FPFR0_EL1_F8E4M3_SHIFT", 1);
  ("ID_AA64FPFR0_EL1_F16MM2_SHIFT", 2); ("ID_AA64FPFR0_EL1_F8MM4_SHIFT", 3);
  ("ID_AA64FPFR0_EL1_F8MM8_SHIFT", 4); ("ID_AA64FPFR0_EL1_F8DP2_SHIFT", 5);
  ("ID_AA64FPFR0_EL1_F8DP4_SHIFT", 6); ("ID_AA64FPFR0_EL1_F8FMA_SHIFT", 7);
  ("ID_AA64FPFR0_EL1_F8CVT_SHIFT", 8); ("ID_AA64MMFR0_EL1_PARANGE_SHIFT", 0);
  ("ID_AA64MMFR0_EL1_ASIDBITS_SHIFT", 4); ("ID_AA64MMFR0_EL1_BIGEND_SHIFT", 8);
  ("ID_AA64MMFR0_EL1_SNSMEM_SHIFT", 12); ("ID_AA64MMFR0_EL1_BIGENDEL0_SHIFT", 16);
  ("ID_AA64MMFR0_EL1_TGRAN16_SHIFT", 20); ("ID_AA64MMFR0_EL1_TGRAN64_SHIFT", 24);
  ("ID_AA64MMFR0_EL1_TGRAN4_SHIFT", 28); ("ID_AA64MMFR0_EL1_TGRAN16_2_SHIFT", 32);
  ("ID_AA64MMFR0_EL1_TGRAN64_2_SHIFT", 36); ("ID_AA64MMFR0_EL1_TGRAN4_2_SHIFT", 40);
  ("ID_AA64MMFR0_EL1_EXS_SHIFT", 44); ("ID_AA64MMFR0_EL1_FGT_SHIFT", 48); ("ID_AA64MMFR0_EL1_ECV_SHIFT", 52);
  ("ID_AA64MMFR1_EL1_HAFDBS_SHIFT", 0); ("ID_AA64MMFR1_EL1_VMIDBits_SHIFT", 4);
  ("ID_AA64MMFR1_EL1_VH_SHIFT", 8); ("ID_AA64MMFR1_EL1_HPDS_SHIFT", 12); ("ID_AA64MMFR1_EL1_LO_SHIFT", 16);
  ("ID_AA64MMFR1_EL1_PAN_SHIFT", 20); ("ID_AA64MMFR1_EL1_SpecSEI_SHIFT", 24);
  ("ID_AA64MMFR1_EL1_XNX_SHIFT", 28); ("ID_AA64MMFR1_EL1_TWED_SHIFT", 32);
  ("ID_AA64MMFR1_EL1_ETS_SHIFT", 36); ("ID_AA64MMFR1_EL1_HCX_SHIFT", 40); ("ID_AA64MMFR1_EL1_AFP_SHIFT", 44);
  ("ID_AA64MMFR1_EL1_TIDCP1_SHIFT", 48); ("ID_AA64MMFR1_EL1_ECBHB_SHIFT", 52);
  ("ID_AA64MMFR2_EL1_CnP_SHIFT", 0); ("ID_AA64MMFR2_EL1_UAO_SHIFT", 4); ("ID_AA64MMFR2_EL1_LSM_SHIFT", 8);
  ("ID_AA64MMFR2_EL1_IESB_SHIFT", 12); ("ID_AA64MMFR2_EL1_VARange_SHIFT", 16);
  ("ID_AA64MMFR2_EL1_CCIDX_SHIFT", 20); ("ID_AA64MMFR2_EL1_NV_SHIFT", 24); ("ID_AA64MMFR2_EL1_ST_SHIFT", 28);
  ("ID_AA64MMFR2_EL1_AT_SHIFT", 32); ("ID_AA64MMFR2_EL1_IDS_SHIFT", 36); ("ID_AA64MMFR2_EL1_FWB_SHIFT", 40);
  ("ID_AA64MMFR2_EL1_TTL_SHIFT", 44); ("ID_AA64MMFR2_EL1_BBM_SHIFT", 48); ("ID_AA64MMFR2_EL1_EVT_SHIFT", 52);
  ("ID_AA64MMFR2_EL1_E0PD_SHIFT", 56); ("ID_AA64MMFR3_EL1_TCRX_SHIFT", 0);
  ("ID_AA64MMFR3_EL1_SCTLRX_SHIFT", 4); ("ID_AA64MMFR3_EL1_S1PIE_SHIFT", 8);
  ("ID_AA64MMFR3_EL1_S1POE_SHIFT", 12); ("ID_AA64MMFR4_EL1_NV_frac_SHIFT", 0);
  ("ID_AA64MMFR4_EL1_E2H0_SHIFT", 4); ("CTR_EL0_IminLine_SHIFT", 0); ("CTR_EL0_L1Ip_SHIFT", 4);
  ("CTR_EL0_DminLine_SHIFT", 6); ("CTR_EL0_ERG_SHIFT", 10); ("CTR_EL0_CWG_SHIFT", 14);
  ("CTR_EL0_IDC_SHIFT", 18); ("CTR_EL0_DIC_SHIFT", 19); ("ID_MMFR0_EL1_VMSA_SHIFT", 0);
  ("ID_MMFR0_EL1_PMSA_SHIFT", 4); ("ID_MMFR0_EL1_OuterShr_SHIFT", 8); ("ID_MMFR0_EL1_ShareLvl_SHIFT", 12);
  ("ID_MMFR0_EL1_TCM_SHIFT", 16); ("ID_MMFR0_EL1_AuxReg_SHIFT", 20); ("ID_MMFR0_EL1_FCSE_SHIFT", 24);
  ("ID_MMFR0_EL1_InnerShr_SHIFT", 28); ("ID_AA64DFR0_EL1_DebugVer_SHIFT", 0);
  ("ID_AA64DFR0_EL1_PMUVer_SHIFT", 4); ("ID_AA64DFR0_EL1_BRPs_SHIFT", 8); ("ID_AA64DFR0_EL1_WRPs_SHIFT", 12);
  ("ID_AA64DFR0_EL1_CTX_CMPs_SHIFT", 16); ("ID_AA64DFR0_EL1_PMSVer_SHIFT", 20);
  ("ID_AA64DFR0_EL1_DoubleLock_SHIFT", 24); ("MVFR0_EL1_SIMDReg_SHIFT", 0); ("MVFR0_EL1_FPSP_SHIFT", 4);
  ("MVFR0_EL1_FPDP_SHIFT", 8); ("MVFR0_EL1_FPTrap_SHIFT", 12); ("MVFR0_EL1_FPDivide_SHIFT", 16);
  ("MVFR0_EL1_FPSqrt_SHIFT", 20); ("MVFR0_EL1_FPShVec_SHIFT", 24); ("MVFR0_EL1_FPRound_SHIFT", 28);
  ("MVFR1_EL1_FPFtZ_SHIFT", 0); ("MVFR1_EL1_FPDNaN_SHIFT", 4); ("MVFR1_EL1_SIMDLS_SHIFT", 8);
  ("MVFR1_EL1_SIMDInt_SHIFT", 12); ("MVFR1_EL1_SIMDSP_SHIFT", 16); ("MVFR1_EL1_SIMDHP_SHIFT", 20);
  ("MVFR1_EL1_FPHP_SHIFT", 24); ("MVFR1_EL1_SIMDFMAC_SHIFT", 28); ("MVFR2_EL1_SIMDMisc_SHIFT", 0);
  ("MVFR2_EL1_FPMisc_SHIFT", 4); ("DCZID_EL0_BS_SHIFT", 0); ("DCZID_EL0_DZP_SHIFT", 4);
  ("GMID_EL1_BS_SHIFT", 0); ("ID_ISAR0_EL1_Swap_SHIFT", 0); ("ID_ISAR0_EL1_BitCount_SHIFT", 4);
  ("ID_ISAR0_EL1_BitField_SHIFT", 8); ("ID_ISAR0_EL1_CmpBranch_SHIFT", 12);
  ("ID_ISAR0_EL1_Coproc_SHIFT", 16); ("ID_ISAR0_EL1_Debug_SHIFT", 20); ("ID_ISAR0_EL1_Divide_SHIFT", 24);
  ("ID_ISAR5_EL1_SEVL_SHIFT", 0); ("ID_ISAR5_EL1_AES_SHIFT", 4); ("ID_ISAR5_EL1_SHA1_SHIFT", 8);
  ("ID_ISAR5_EL1_SHA2_SHIFT", 12); ("ID_ISAR5_EL1_CRC32_SHIFT", 16); ("ID_ISAR5_EL1_RDM_SHIFT", 20);
  ("ID_MMFR4_EL1_SpecSEI_SHIFT", 0); ("ID_MMFR4_EL1_AC2_SHIFT", 4); ("ID_MMFR4_EL1_XNX_SHIFT", 8);
  ("ID_MMFR4_EL1_CnP_SHIFT", 12); ("ID_MMFR4_EL1_HPDS_SHIFT", 16); ("ID_MMFR4_EL1_LSM_SHIFT", 20);
  ("ID_MMFR4_EL1_CCIDX_SHIFT", 24); ("ID_MMFR4_EL1_EVT_SHIFT", 28); ("ID_ISAR4_EL1_Unpriv_SHIFT", 0);
  ("ID_ISAR4_EL1_WithShifts_SHIFT", 4); ("ID_ISAR4_EL1_Writeback_SHIFT", 8); ("ID_ISAR4_EL1_SMC_SHIFT", 12);
  ("ID_ISAR4_EL1_Barrier_SHIFT", 16); ("ID_ISAR4_EL1_SynchPrim_frac_SHIFT", 20);
  ("ID_ISAR4_EL1_PSR_M_SHIFT", 24); ("ID_ISAR4_EL1_SWP_frac_SHIFT", 28); ("ID_MMFR5_EL1_ETS_SHIFT", 0);
  ("ID_ISAR6_EL1_JSCVT_SHIFT", 0); ("ID_ISAR6_EL1_DP_SHIFT", 4); ("ID_ISAR6_EL1_FHM_SHIFT", 8);
  ("ID_ISAR6_EL1_SB_SHIFT", 12); ("ID_ISAR6_EL1_SPECRES_SHIFT", 16); ("ID_ISAR6_EL1_BF16_SHIFT", 20);
  ("ID_ISAR6_EL1_I8MM_SHIFT", 24); ("ID_PFR0_EL1_State0_SHIFT", 0); ("ID_PFR0_EL1_State1_SHIFT", 4);
  ("ID_PFR0_EL1_State2_SHIFT", 8); ("ID_PFR0_EL1_State3_SHIFT", 12); ("ID_PFR0_EL1_CSV2_SHIFT", 16);
  ("ID_PFR0_EL1_DIT_SHIFT", 20); ("ID_PFR1_EL1_ProgMod_SHIFT", 0); ("ID_PFR1_EL1_Security_SHIFT", 4);
  ("ID_PFR1_EL1_MProgMod_SHIFT", 8); ("ID_PFR1_EL1_Virtualization_SHIFT", 12);
  ("ID_PFR1_EL1_GenTimer_SHIFT", 16); ("ID_PFR1_EL1_Sec_frac_SHIFT", 20);
  ("ID_PFR1_EL1_Virt_frac_SHIFT", 24); ("ID_PFR1_EL1_GIC_SHIFT", 28); ("ID_PFR2_EL1_CSV3_SHIFT", 0);
  ("ID_PFR2_EL1_SSBS_SHIFT", 4); ("ID_DFR0_EL1_CopDbg_SHIFT", 0); ("ID_DFR0_EL1_CopSDbg_SHIFT", 4);
  ("ID_DFR0_EL1_MMapDbg_SHIFT", 8); ("ID_DFR0_EL1_CopTrc_SHIFT", 12); ("ID_DFR0_EL1_MMapTrc_SHIFT", 16);
  ("ID_DFR0_EL1_MProfDbg_SHIFT", 20); ("ID_DFR0_EL1_PerfMon_SHIFT", 24); ("ID_DFR1_EL1_MTPMU_SHIFT", 0);
  ("MPAMIDR_EL1_PARTID_MAX_SHIFT", 0); ("MPAMIDR_EL1_HAS_HCR_SHIFT", 16); ("MPAMIDR_EL1_VPMR_MAX_SHIFT", 17);
  ("MPAMIDR_EL1_PMG_MAX_SHIFT", 20); ("MPAMIDR_EL1_PMG_MAX_WIDTH", 8); ("MPAMIDR_EL1_VPMR_MAX_WIDTH", 3);
  ("MPAMIDR_EL1_PARTID_MAX_WIDTH", 16); ("CTR_EL0_L1Ip_VIPT", 2); ("ID_AA64PFR1_EL1_MTE_MTE2", 2);
  ("ID_AA64PFR0_EL1_EL1_IMP", 1); ("ID_AA64PFR0_EL1_EL0_IMP", 1); ("ID_AA64PFR0_EL1_AdvSIMD_NI", 15);
  ("ID_AA64PFR0_EL1_FP_NI", 15); ("ID_AA64MMFR0_EL1_TGRAN4_NI", 15); ("ID_AA64MMFR0_EL1_TGRAN64_NI", 15)].

Definition sample_map : gmap string Z := list_to_map sample_constants.
Definition at_ (s : string) : Z := default 0 (sample_map !! s).
Definition sample_masks : gmap string Z := list_to_map [
  ("ID_AA64ISAR1_EL1_BF16_MASK", GENMASK (at_ "ID_AA64ISAR1_EL1_BF16_SHIFT" + 3) (at_ "ID_AA64ISAR1_EL1_BF16_SHIFT"));
  ("ID_AA64PFR1_EL1_SSBS_MASK", GENMASK (at_ "ID_AA64PFR1_EL1_SSBS_SHIFT" + 3) (at_ "ID_AA64PFR1_EL1_SSBS_SHIFT"));
  ("SYS_MPIDR_SAFE_VAL", BIT 31)].
Definition sample_sysregs (configs : list string) : Sysregs := {|
  SYSREG s := default 0 (sample_map !! s);
  SYSREG64 s := default 0 (sample_masks !! s);
  IS_ENABLED s := bool_decide (s ∈ configs)
|}.
