(* ===== verification/CpuFeature.v ===== *)
(** * The system-wide feature registers of arm64

    sources/asahi--arch__arm64__kernel__cpufeature.c: the registers of the boot CPU are
    recorded with the overrides of the command line ([init_cpu_features]), each further
    CPU lowers them to what is safe on all CPUs ([update_cpu_features]), and the rest of
    the kernel and user space read the result ([read_sanitised_ftr_reg],
    [__read_sysreg_by_encoding], [emulate_sys_reg]).

    The state is the array of registers, the override objects (those the parser of
    [IdregOverride.v] fills) and the events: warnings, the taint, and the calls that
    probe vector lengths.  [struct cpuinfo_arm64] is a map from the names of its fields. *)

From Stdlib Require Import ZArith Lia Bool Btauto.
From stdpp Require Import base numbers list strings option gmap.
From S2P Require Import Prelude IdregOverride CpuFtrTables.

Local Open Scope Z_scope.

(** ** State *)

Inductive vec_type := ARM64_VEC_SVE | ARM64_VEC_SME.

Inductive event :=
| WarnShift (name : string) (shift : Z)
| WarnOverlap (name : string) (shift : Z)
| WarnNoReg (sys_id : Z)
| WarnBogusField (sys_id field : Z)
| CpacrSave (v : vec_type) | CpacrRestore (v : vec_type)
| VecInit (v : vec_type) | VecUpdate (v : vec_type)
| AddTaint.
#[export] Instance vec_type_eq_dec : EqDecision vec_type.
Proof. solve_decision. Defined.
#[export] Instance event_eq_dec : EqDecision event.
Proof. solve_decision. Defined.

Record sys := Sys {
  ftr_regs : list (Z * arm64_ftr_reg);
  ovr : option regid → arm64_ftr_override;
  evs : list event;
  boot_cpu_32bit_regs_overridden : bool
}.

(** [reg_x] is [reg "reg_x"]; the 32-bit registers are a struct of their own. *)
Record cpuinfo_arm64 := CpuInfo { reg : string → Z; aarch32 : string → Z }.

Definition set_reg_field (n : string) (v : Z) (i : cpuinfo_arm64) : cpuinfo_arm64 :=
  CpuInfo (λ x, if decide (x = n) then v else reg i x) (aarch32 i).

(** Functions that run on the state. *)
Definition FM (A : Type) : Type := sys → A * sys.
#[export] Instance FM_ret : MRet FM := λ A a s, (a, s).
#[export] Instance FM_bind : MBind FM := λ A B k m s, let '(a, s') := m s in k a s'.

Definition event_ (e : event) : FM unit := λ s,
  ((), Sys (ftr_regs s) (ovr s) (evs s ++ [e]) (boot_cpu_32bit_regs_overridden s)).
Definition set_nth_reg (i : nat) (r : arm64_ftr_reg) : FM unit := λ s,
  ((), Sys (alter (λ e, (e.1, r)) i (ftr_regs s)) (ovr s) (evs s) (boot_cpu_32bit_regs_overridden s)).
Definition set_ovr (k : option regid) (o : arm64_ftr_override) : FM unit := λ s,
  ((), Sys (ftr_regs s) (λ x, if decide (x = k) then o else ovr s x) (evs s) (boot_cpu_32bit_regs_overridden s)).
Definition get_sys : FM sys := λ s, (s, s).
Definition when (b : bool) (m : FM unit) : FM unit := if b then m else mret ().
Definition each {A} (f : A → FM unit) : list A → FM unit :=
  fix go l := match l with [] => mret () | x :: l' => f x;; go l' end.

(** ** What the headers and lib/bsearch.c give *)

(** The mask and the value of a field, the predicates on registers, the user-space view
    of a register, and the parts of an encoding. *)
Class FtrHeader := {
  arm64_ftr_mask : arm64_ftr_bits → Z;
  arm64_ftr_value : arm64_ftr_bits → Z → Z;
  arm64_ftr_reg_user_value : arm64_ftr_reg → Z;
  cpuid_feature_extract_field_width : Z → Z → Z → bool → Z;
  cpuid_feature_extract_unsigned_field_width : Z → Z → Z → Z;
  id_aa64pfr0_32bit_el0 : Z → bool; id_aa64pfr0_32bit_el1 : Z → bool;
  id_aa64pfr0_sve : Z → bool; id_aa64pfr1_sme : Z → bool;
  id_aa64pfr0_mpam : Z → bool; id_aa64pfr1_mpamfrac : Z → bool;
  sys_reg_Op0 : Z → Z; sys_reg_Op1 : Z → Z; sys_reg_CRn : Z → Z; sys_reg_CRm : Z → Z;
  bsearch : (Z → Z * arm64_ftr_reg → Z) → Z → list (Z * arm64_ftr_reg) → option nat
}.

Section cpufeature.
Context `{Sysregs} `{FtrHeader}.
(** [read_cpuid(MPAMIDR_EL1)] on a CPU; the command line option; whether the capabilities
    of the system are final. *)
Context (read_mpamidr : Z → Z) (allow_mismatched_32bit_el0 : bool) (system_capabilities_finalized : bool).

(** ** Finding a register *)

Definition s32 (x : Z) : Z := if u32 x <? 2 ^ 31 then u32 x else u32 x - 2 ^ 32.

Definition search_cmp_ftr_reg (id : Z) (regp : Z * arm64_ftr_reg) : Z := s32 (s32 id - s32 regp.1).

Definition get_arm64_ftr_reg_nowarn (sys_id : Z) : FM (option (nat * arm64_ftr_reg)) := λ s,
  (i ← bsearch search_cmp_ftr_reg sys_id (ftr_regs s); e ← ftr_regs s !! i; Some (i, e.2), s).

Definition get_arm64_ftr_reg (sys_id : Z) : FM (option (nat * arm64_ftr_reg)) :=
  r ← get_arm64_ftr_reg_nowarn sys_id;
  when (bool_decide (r = None)) (event_ (WarnNoReg sys_id));;
  mret r.

(** ** Fields *)

(** The loop [for (ftrp = ftr_bits; ftrp->width; ftrp++)]. *)
Fixpoint fields (l : list arm64_ftr_bits) : list arm64_ftr_bits :=
  match l with
  | [] => []
  | f :: l' => if fb_width f =? 0 then [] else f :: fields l'
  end.

(** Where such a loop stands after it stopped at the first field with [p], or at the end
    of the table. *)
Fixpoint seek (p : arm64_ftr_bits → bool) (l : list arm64_ftr_bits) : arm64_ftr_bits :=
  match l with
  | [] => ARM64_FTR_END
  | f :: l' => if fb_width f =? 0 then f else if p f then f else seek p l'
  end.

Definition not64 (x : Z) : Z := u64 (Z.lnot x).

Definition arm64_ftr_set_value (f : arm64_ftr_bits) (r ftr_val : Z) : Z :=
  let m := arm64_ftr_mask f in
  u64 (Z.lor (Z.land r (not64 m)) (Z.land (Z.shiftl ftr_val (fb_shift f)) m)).

Definition arm64_ftr_safe_value (f : arm64_ftr_bits) (new cur : Z) : Z :=
  match fb_type f with
  | FTR_EXACT => fb_safe_val f
  | FTR_LOWER_SAFE => Z.min new cur
  | FTR_HIGHER_OR_ZERO_SAFE => if (cur =? 0) || (new =? 0) then 0 else Z.max new cur
  | FTR_HIGHER_SAFE => Z.max new cur
  end.

(** ** The checks of the tables

    [None]: the kernel stopped at the BUG_ON. *)

Fixpoint sort_ftr_bits (name : string) (prev_shift : option Z) (l : list arm64_ftr_bits) : list event :=
  match l with
  | [] => []
  | f :: l' =>
      (if 64 <? fb_shift f + fb_width f then [WarnShift name (fb_shift f)] else []) ++
      (match prev_shift with
       | Some p => if p <? fb_shift f + fb_width f then [WarnOverlap name (fb_shift f)] else []
       | None => []
       end) ++ sort_ftr_bits name (Some (fb_shift f)) l'
  end.

Fixpoint sort_ftr_regs_from (prev : option Z) (l : list (Z * arm64_ftr_reg)) : option (list event) :=
  match l with
  | [] => Some []
  | (id, r) :: l' =>
      if match prev with Some p => id <=? p | None => false end then None
      else w ← sort_ftr_regs_from (Some id) l'; Some (sort_ftr_bits (fr_name r) None (fields (fr_bits r)) ++ w)
  end.
Definition sort_ftr_regs (l : list (Z * arm64_ftr_reg)) : option (list event) := sort_ftr_regs_from None l.

(** ** The boot CPU *)

Record init_acc := InitAcc {
  ia_val : Z; ia_strict_mask : Z; ia_user_mask : Z; ia_valid_mask : Z;
  ia_override : arm64_ftr_override; ia_user_val : Z
}.

(** What the override makes of a field: the value and the override that is left. *)
Definition apply_override (f : arm64_ftr_bits) (ftr_new : Z) (o : arm64_ftr_override) : Z * arm64_ftr_override :=
  let ftr_mask := arm64_ftr_mask f in
  let ftr_ovr := arm64_ftr_value f (val o) in
  if Z.land ftr_mask (mask o) =? ftr_mask then
    let tmp := arm64_ftr_safe_value f ftr_ovr ftr_new in
    if negb (ftr_ovr =? tmp) then
      (ftr_new, Override (Z.land (val o) (not64 ftr_mask)) (Z.land (mask o) (not64 ftr_mask)))
    else if negb (ftr_new =? tmp) then (tmp, o)
    else (ftr_new, o)
  else if Z.land ftr_mask (val o) =? ftr_mask then
    (ftr_new, Override (Z.land (val o) (not64 ftr_mask)) (mask o))
  else (ftr_new, o).

Definition init_field (new : Z) (a : init_acc) (f : arm64_ftr_bits) : init_acc :=
  let ftr_mask := arm64_ftr_mask f in
  let '(ftr_new, o) := apply_override f (arm64_ftr_value f new) (ia_override a) in
  {| ia_val := arm64_ftr_set_value f (ia_val a) ftr_new;
     ia_valid_mask := Z.lor (ia_valid_mask a) ftr_mask;
     ia_strict_mask := if fb_strict f then ia_strict_mask a else Z.land (ia_strict_mask a) (not64 ftr_mask);
     ia_user_mask := if fb_visible f then Z.lor (ia_user_mask a) ftr_mask else ia_user_mask a;
     ia_user_val := if fb_visible f then ia_user_val a else arm64_ftr_set_value f (ia_user_val a) (fb_safe_val f);
     ia_override := o |}.

Definition init_fields (new : Z) (o : arm64_ftr_override) (user_val : Z) (l : list arm64_ftr_bits) : init_acc :=
  foldl (init_field new) (InitAcc 0 (not64 0) 0 0 o user_val) l.

Definition init_reg (r : arm64_ftr_reg) (new : Z) (o : arm64_ftr_override) : arm64_ftr_reg * arm64_ftr_override :=
  let a := init_fields new o (fr_user_val r) (fields (fr_bits r)) in
  (FtrReg (fr_name r) (ia_strict_mask a) (ia_user_mask a) (Z.land (ia_val a) (ia_valid_mask a)) (ia_user_val a)
     (fr_override r) (fr_bits r), ia_override a).

Definition init_cpu_ftr_reg (sys_reg new : Z) : FM unit :=
  e ← get_arm64_ftr_reg sys_reg;
  match e with
  | None => mret ()
  | Some (i, r) =>
      s ← get_sys;
      let '(r', o) := init_reg r new (ovr s (fr_override r)) in
      set_nth_reg i r';; set_ovr (fr_override r) o
  end.

Definition read_sanitised_ftr_reg (id : Z) : FM Z :=
  e ← get_arm64_ftr_reg id;
  mret (match e with None => 0 | Some (_, r) => fr_sys_val r end).

(** The registers with the field of [cpuinfo] that holds them, in the order of the calls. *)
Definition regs32 : list (string * string) := [
  ("SYS_ID_DFR0_EL1", "reg_id_dfr0"); ("SYS_ID_DFR1_EL1", "reg_id_dfr1");
  ("SYS_ID_ISAR0_EL1", "reg_id_isar0"); ("SYS_ID_ISAR1_EL1", "reg_id_isar1");
  ("SYS_ID_ISAR2_EL1", "reg_id_isar2"); ("SYS_ID_ISAR3_EL1", "reg_id_isar3");
  ("SYS_ID_ISAR4_EL1", "reg_id_isar4"); ("SYS_ID_ISAR5_EL1", "reg_id_isar5");
  ("SYS_ID_ISAR6_EL1", "reg_id_isar6"); ("SYS_ID_MMFR0_EL1", "reg_id_mmfr0");
  ("SYS_ID_MMFR1_EL1", "reg_id_mmfr1"); ("SYS_ID_MMFR2_EL1", "reg_id_mmfr2");
  ("SYS_ID_MMFR3_EL1", "reg_id_mmfr3"); ("SYS_ID_MMFR4_EL1", "reg_id_mmfr4");
  ("SYS_ID_MMFR5_EL1", "reg_id_mmfr5"); ("SYS_ID_PFR0_EL1", "reg_id_pfr0");
  ("SYS_ID_PFR1_EL1", "reg_id_pfr1"); ("SYS_ID_PFR2_EL1", "reg_id_pfr2");
  ("SYS_MVFR0_EL1", "reg_mvfr0"); ("SYS_MVFR1_EL1", "reg_mvfr1"); ("SYS_MVFR2_EL1", "reg_mvfr2")].

Definition regs64 : list (string * string) := [
  ("SYS_CTR_EL0", "reg_ctr"); ("SYS_DCZID_EL0", "reg_dczid"); ("SYS_CNTFRQ_EL0", "reg_cntfrq");
  ("SYS_ID_AA64DFR0_EL1", "reg_id_aa64dfr0"); ("SYS_ID_AA64DFR1_EL1", "reg_id_aa64dfr1");
  ("SYS_ID_AA64ISAR0_EL1", "reg_id_aa64isar0"); ("SYS_ID_AA64ISAR1_EL1", "reg_id_aa64isar1");
  ("SYS_ID_AA64ISAR2_EL1", "reg_id_aa64isar2"); ("SYS_ID_AA64ISAR3_EL1", "reg_id_aa64isar3");
  ("SYS_ID_AA64MMFR0_EL1", "reg_id_aa64mmfr0"); ("SYS_ID_AA64MMFR1_EL1", "reg_id_aa64mmfr1");
  ("SYS_ID_AA64MMFR2_EL1", "reg_id_aa64mmfr2"); ("SYS_ID_AA64MMFR3_EL1", "reg_id_aa64mmfr3");
  ("SYS_ID_AA64MMFR4_EL1", "reg_id_aa64mmfr4"); ("SYS_ID_AA64PFR0_EL1", "reg_id_aa64pfr0");
  ("SYS_ID_AA64PFR1_EL1", "reg_id_aa64pfr1"); ("SYS_ID_AA64PFR2_EL1", "reg_id_aa64pfr2");
  ("SYS_ID_AA64ZFR0_EL1", "reg_id_aa64zfr0"); ("SYS_ID_AA64SMFR0_EL1", "reg_id_aa64smfr0");
  ("SYS_ID_AA64FPFR0_EL1", "reg_id_aa64fpfr0")].

Definition init_from (g : string → Z) (p : string * string) : FM unit := init_cpu_ftr_reg (SYSREG p.1) (g p.2).

Definition init_32bit_cpu_features (info : string → Z) : FM unit := each (init_from info) regs32.

Definition detect_ftr_has_mpam : FM bool :=
  pfr0 ← read_sanitised_ftr_reg (SYSREG "SYS_ID_AA64PFR0_EL1");
  pfr1 ← read_sanitised_ftr_reg (SYSREG "SYS_ID_AA64PFR1_EL1");
  mret (id_aa64pfr0_mpam pfr0 || id_aa64pfr1_mpamfrac pfr1).

Definition gmid_el1_accessible (info : cpuinfo_arm64) : FM bool := λ s,
  (if negb (IS_ENABLED "CONFIG_ARM64_MTE") then false
   else
     let ftrp := seek (λ f, fb_shift f =? SYSREG "ID_AA64PFR1_EL1_MTE_SHIFT") ftr_id_aa64pfr1 in
     let ftr_mask := arm64_ftr_mask ftrp in
     let mte := arm64_ftr_value ftrp (reg info "reg_id_aa64pfr1") in
     let o := ovr s (Some Rpfr1) in
     let mte := if Z.land (mask o) ftr_mask =? ftr_mask
                then arm64_ftr_safe_value ftrp (arm64_ftr_value ftrp (val o)) mte else mte in
     SYSREG "ID_AA64PFR1_EL1_MTE_MTE2" <=? mte, s).

(** The vector lengths of the boot CPU. *)
Definition probe_vec (v : vec_type) (config : string) (has : Z → bool) (r : string) (probe : FM unit) : FM unit :=
  if IS_ENABLED config then
    x ← read_sanitised_ftr_reg (SYSREG r);
    when (has x) (event_ (CpacrSave v);; probe;; event_ (CpacrRestore v))
  else mret ().

(** Vector lengths and the registers that exist with MPAM and MTE only.
    [info->reg_mpamidr = read_cpuid(MPAMIDR_EL1)] changes [info], which is returned. *)
Definition init_optional (cpu : Z) (info : cpuinfo_arm64) : FM cpuinfo_arm64 :=
  probe_vec ARM64_VEC_SVE "CONFIG_ARM64_SVE" id_aa64pfr0_sve "SYS_ID_AA64PFR0_EL1" (event_ (VecInit ARM64_VEC_SVE));;
  probe_vec ARM64_VEC_SME "CONFIG_ARM64_SME" id_aa64pfr1_sme "SYS_ID_AA64PFR1_EL1" (event_ (VecInit ARM64_VEC_SME));;
  mpam ← detect_ftr_has_mpam;
  let info' := if (mpam : bool) then set_reg_field "reg_mpamidr" (read_mpamidr cpu) info else info in
  when mpam (init_cpu_ftr_reg (SYSREG "SYS_MPAMIDR_EL1") (reg info' "reg_mpamidr"));;
  gmid ← gmid_el1_accessible info';
  when gmid (init_cpu_ftr_reg (SYSREG "SYS_GMID_EL1") (reg info' "reg_gmid"));;
  mret info'.

Definition init_cpu_features (cpu : Z) (info : cpuinfo_arm64) : FM cpuinfo_arm64 :=
  each (init_from (reg info)) regs64;;
  when (id_aa64pfr0_32bit_el0 (reg info "reg_id_aa64pfr0")) (init_32bit_cpu_features (aarch32 info));;
  init_optional cpu info.

(** The whole call; [None] when [sort_ftr_regs] stops. *)
Definition boot_cpu_features (cpu : Z) (info : cpuinfo_arm64) (s : sys) : option (cpuinfo_arm64 * sys) :=
  w ← sort_ftr_regs (ftr_regs s);
  Some (init_cpu_features cpu info
          (Sys (ftr_regs s) (ovr s) (evs s ++ w) (boot_cpu_32bit_regs_overridden s))).

(** ** Further CPUs *)

Definition update_field (new sys_val : Z) (f : arm64_ftr_bits) : Z :=
  let ftr_cur := arm64_ftr_value f sys_val in
  let ftr_new := arm64_ftr_value f new in
  if ftr_cur =? ftr_new then sys_val
  else arm64_ftr_set_value f sys_val (arm64_ftr_safe_value f ftr_new ftr_cur).

Definition set_sys_val (r : arm64_ftr_reg) (v : Z) : arm64_ftr_reg :=
  FtrReg (fr_name r) (fr_strict_mask r) (fr_user_mask r) v (fr_user_val r) (fr_override r) (fr_bits r).
Definition set_strict_mask (r : arm64_ftr_reg) (v : Z) : arm64_ftr_reg :=
  FtrReg (fr_name r) v (fr_user_mask r) (fr_sys_val r) (fr_user_val r) (fr_override r) (fr_bits r).

Definition update_cpu_ftr_reg (r : arm64_ftr_reg) (new : Z) : arm64_ftr_reg :=
  set_sys_val r (foldl (update_field new) (fr_sys_val r) (fields (fr_bits r))).

Definition check_update_ftr_reg (sys_id v boot : Z) : FM bool :=
  e ← get_arm64_ftr_reg sys_id;
  match e with
  | None => mret false
  | Some (i, r) =>
      set_nth_reg i (update_cpu_ftr_reg r v);;
      mret (negb (Z.land boot (fr_strict_mask r) =? Z.land v (fr_strict_mask r)))
  end.

Definition relax_cpu_ftr_reg (sys_id field : Z) : FM unit :=
  e ← get_arm64_ftr_reg sys_id;
  match e with
  | None => mret ()
  | Some (i, r) =>
      let ftrp := seek (λ f, fb_shift f =? field) (fr_bits r) in
      if fb_width ftrp =? 0 then event_ (WarnBogusField sys_id field)
      else set_nth_reg i (set_strict_mask r (Z.land (fr_strict_mask r) (not64 (arm64_ftr_mask ftrp))))
  end.

(** Returns [boot]. *)
Definition lazy_init_32bit_cpu_features (info boot : cpuinfo_arm64) : FM cpuinfo_arm64 := λ s,
  if negb allow_mismatched_32bit_el0 || boot_cpu_32bit_regs_overridden s then (boot, s)
  else if id_aa64pfr0_32bit_el0 (reg boot "reg_id_aa64pfr0") then (boot, s)
  else
    let boot' := CpuInfo (reg boot) (aarch32 info) in
    let s' := (init_32bit_cpu_features (aarch32 boot') s).2 in
    (boot', Sys (ftr_regs s') (ovr s') (evs s') true).

(** [taint |= check_update_ftr_reg(...)] over a list of registers. *)
Fixpoint check_update_all (info boot : string → Z) (l : list (string * string)) (taint : bool) : FM bool :=
  match l with
  | [] => mret taint
  | p :: l' =>
      t ← check_update_ftr_reg (SYSREG p.1) (info p.2) (boot p.2);
      check_update_all info boot l' (taint || t)
  end.

(** The fields that matter only with AArch32 at EL1. *)
Definition relaxed : list (string * string) := [
  ("SYS_ID_ISAR4_EL1", "ID_ISAR4_EL1_SMC_SHIFT"); ("SYS_ID_PFR1_EL1", "ID_PFR1_EL1_Virt_frac_SHIFT");
  ("SYS_ID_PFR1_EL1", "ID_PFR1_EL1_Sec_frac_SHIFT"); ("SYS_ID_PFR1_EL1", "ID_PFR1_EL1_Virtualization_SHIFT");
  ("SYS_ID_PFR1_EL1", "ID_PFR1_EL1_Security_SHIFT"); ("SYS_ID_PFR1_EL1", "ID_PFR1_EL1_ProgMod_SHIFT")].

Definition update_32bit_cpu_features (info boot : string → Z) : FM bool :=
  pfr0 ← read_sanitised_ftr_reg (SYSREG "SYS_ID_AA64PFR0_EL1");
  when (negb (id_aa64pfr0_32bit_el1 pfr0)) (each (λ p, relax_cpu_ftr_reg (SYSREG p.1) (SYSREG p.2)) relaxed);;
  check_update_all info boot regs32 false.

(** The vector lengths of a further CPU: for SVE the capabilities are tested before the
    access is enabled, for SME after. *)
Definition update_vec : FM unit :=
  (if IS_ENABLED "CONFIG_ARM64_SVE" then
     x ← read_sanitised_ftr_reg (SYSREG "SYS_ID_AA64PFR0_EL1");
     when (id_aa64pfr0_sve x && negb system_capabilities_finalized)
       (event_ (CpacrSave ARM64_VEC_SVE);; event_ (VecUpdate ARM64_VEC_SVE);; event_ (CpacrRestore ARM64_VEC_SVE))
   else mret ());;
  probe_vec ARM64_VEC_SME "CONFIG_ARM64_SME" id_aa64pfr1_sme "SYS_ID_AA64PFR1_EL1"
    (when (negb system_capabilities_finalized) (event_ (VecUpdate ARM64_VEC_SME))).

(** The part on 32-bit registers; returns the taint and [boot]. *)
Definition update_aarch32 (info boot : cpuinfo_arm64) : FM (bool * cpuinfo_arm64) :=
  if id_aa64pfr0_32bit_el0 (reg info "reg_id_aa64pfr0") then
    boot' ← lazy_init_32bit_cpu_features info boot;
    t ← update_32bit_cpu_features (aarch32 info) (aarch32 boot');
    mret (t, boot')
  else mret (false, boot).

(** As [init_optional]; returns the taint and [info]. *)
Definition update_optional (cpu : Z) (info boot : cpuinfo_arm64) : FM (bool * cpuinfo_arm64) :=
  update_vec;;
  mpam ← detect_ftr_has_mpam;
  let info' := if (mpam : bool) then set_reg_field "reg_mpamidr" (read_mpamidr cpu) info else info in
  t1 ← (if mpam then check_update_ftr_reg (SYSREG "SYS_MPAMIDR_EL1") (reg info' "reg_mpamidr") (reg boot "reg_mpamidr")
        else mret false);
  gmid ← gmid_el1_accessible info';
  t2 ← (if (gmid : bool) then check_update_ftr_reg (SYSREG "SYS_GMID_EL1") (reg info' "reg_gmid") (reg boot "reg_gmid")
        else mret false);
  mret (t1 || t2, info').

(** Returns [info] and [boot]. *)
Definition update_cpu_features (cpu : Z) (info boot : cpuinfo_arm64) : FM (cpuinfo_arm64 * cpuinfo_arm64) :=
  taint ← check_update_all (reg info) (reg boot) regs64 false;
  '(t1, info') ← update_optional cpu info boot;
  '(t2, boot') ← update_aarch32 info' boot;
  when (taint || t1 || t2) (event_ AddTaint);;
  mret (info', boot').

(** ** Readers *)

(** The registers [__read_sysreg_by_encoding] knows, all others stop the kernel.
    [read_sysreg] is the register of the current CPU. *)
Definition readable_regs : list string := (regs32.*1) ++ (regs64.*1).

Definition __read_sysreg_by_encoding (read_sysreg : Z → Z) (sys_id : Z) : FM (option Z) :=
  if bool_decide (sys_id ∈ SYSREG <$> readable_regs) then
    let v := read_sysreg sys_id in
    e ← get_arm64_ftr_reg sys_id;
    match e with
    | None => mret (Some v)
    | Some (_, r) =>
        s ← get_sys;
        let o := ovr s (fr_override r) in
        mret (Some (Z.lor (Z.land v (not64 (mask o))) (Z.land (val o) (mask o))))
    end
  else mret None.

Definition cpufeature_matches (r : Z) (e : cpuid_field) : bool :=
  let extract x := cpuid_feature_extract_field_width x (cf_field_pos e) (cf_field_width e) (cf_sign e) in
  let v := extract r in
  let min := extract (u64 (Z.shiftl (cf_min_field_value e) (cf_field_pos e))) in
  let max := extract (u64 (Z.shiftl (cf_max_field_value e) (cf_field_pos e))) in
  (min <=? v) && (v <=? max).

(** [None]: the kernel stopped.  [scope_system] is [scope == SCOPE_SYSTEM]. *)
Definition read_scoped_sysreg (read_sysreg : Z → Z) (e : cpuid_field) (scope_system : bool) : FM (option Z) :=
  if scope_system then v ← read_sanitised_ftr_reg (SYSREG (cf_sys_reg e)); mret (Some v)
  else __read_sysreg_by_encoding read_sysreg (SYSREG (cf_sys_reg e)).

Definition has_cpuid_feature (read_sysreg : Z → Z) (e : cpuid_field) (scope_system : bool) : FM (option bool) :=
  v ← read_scoped_sysreg read_sysreg e scope_system;
  mret ((λ x, cpufeature_matches x e) <$> v).

Definition has_user_cpuid_feature (read_sysreg : Z → Z) (e : cpuid_field) (scope_system : bool) : FM (option bool) :=
  v ← read_scoped_sysreg read_sysreg e scope_system;
  g ← get_arm64_ftr_reg (SYSREG (cf_sys_reg e));
  mret (match v, g with
        | None, _ => None
        | Some _, None => Some false
        | Some x, Some (_, r) =>
            Some (if cpuid_feature_extract_unsigned_field_width (fr_user_mask r) (cf_field_pos e) (cf_field_width e) =? 0
                  then false else cpufeature_matches x e)
        end).

(** A workaround hides a field from programs. *)
Definition hide_field (have : bool) (r : string) (m : Z) : FM unit :=
  if have then
    e ← get_arm64_ftr_reg (SYSREG r);
    match e with
    | None => mret ()
    | Some (i, q) => set_nth_reg i (FtrReg (fr_name q) (fr_strict_mask q) (Z.land (fr_user_mask q) (not64 m)) (fr_sys_val q)
                       (fr_user_val q) (fr_override q) (fr_bits q))
    end
  else mret ().
Definition user_feature_fixup (cpus_have_cap : string → bool) : FM unit :=
  hide_field (cpus_have_cap "ARM64_WORKAROUND_2658417") "SYS_ID_AA64ISAR1_EL1" (SYSREG64 "ID_AA64ISAR1_EL1_BF16_MASK");;
  hide_field (cpus_have_cap "ARM64_WORKAROUND_SPECULATIVE_SSBS") "SYS_ID_AA64PFR1_EL1" (SYSREG64 "ID_AA64PFR1_EL1_SSBS_MASK").

Definition is_emulated (id : Z) : bool :=
  (sys_reg_Op0 id =? 3) && (sys_reg_CRn id =? 0) && (sys_reg_Op1 id =? 0) &&
  ((sys_reg_CRm id =? 0) || ((2 <=? sys_reg_CRm id) && (sys_reg_CRm id <=? 7))).

(** [read_cpuid_id] is a parameter. *)
Definition emulate_id_reg (midr id : Z) : result Z Z :=
  if id =? SYSREG "SYS_MIDR_EL1" then Ok midr
  else if id =? SYSREG "SYS_MPIDR_EL1" then Ok (SYSREG64 "SYS_MPIDR_SAFE_VAL")
  else if id =? SYSREG "SYS_REVIDR_EL1" then Ok 0
  else Err (- EINVAL).

Definition emulate_sys_reg (midr id : Z) : FM (result Z Z) :=
  if negb (is_emulated id) then mret (Err (- EINVAL))
  else if sys_reg_CRm id =? 0 then mret (emulate_id_reg midr id)
  else
    e ← get_arm64_ftr_reg_nowarn id;
    mret (Ok (match e with Some (_, r) => arm64_ftr_reg_user_value r | None => 0 end)).

(** The registers of the trapped program, how one of them is written and the instruction
    skipped, and the decoding of an instruction (asm/ptrace.h, asm/traps.h, asm/insn.h). *)
Context {pt_regs : Type} (pt_regs_write_reg : pt_regs → Z → Z → pt_regs)
  (arm64_skip_faulting_instruction : pt_regs → pt_regs)
  (compat_user_mode : pt_regs → bool) (aarch64_insn_is_mrs : Z → bool)
  (decode_imm16 decode_rt : Z → Z).

Definition do_emulate_mrs (midr : Z) (regs : pt_regs) (sys_reg rt : Z) : FM (Z * pt_regs) :=
  r ← emulate_sys_reg midr sys_reg;
  mret (match r with
        | Ok v => (0, arm64_skip_faulting_instruction (pt_regs_write_reg regs rt v))
        | Err e => (e, regs)
        end).

Definition try_emulate_mrs (midr : Z) (regs : pt_regs) (insn : Z) : FM (bool * pt_regs) :=
  if compat_user_mode regs || negb (aarch64_insn_is_mrs insn) then mret (false, regs)
  else
    '(rc, regs') ← do_emulate_mrs midr regs (u32 (Z.shiftl (decode_imm16 insn) 5)) (decode_rt insn);
    mret (rc =? 0, regs').

End cpufeature.

(** ** Documented behaviour of the headers and of bsearch *)

Definition field_ok (f : arm64_ftr_bits) : Prop := 0 ≤ fb_shift f ∧ 0 < fb_width f ∧ fb_shift f + fb_width f ≤ 64.
Definition in_range (f : arm64_ftr_bits) (x : Z) : Prop :=
  if fb_sign f then - 2 ^ (fb_width f - 1) ≤ x < 2 ^ (fb_width f - 1) else 0 ≤ x < 2 ^ fb_width f.
#[export] Instance field_ok_dec f : Decision (field_ok f).
Proof. unfold field_ok. apply _. Defined.
#[export] Instance in_range_dec f x : Decision (in_range f x).
Proof. unfold in_range. destruct (fb_sign f); apply _. Defined.

(** An array is sorted for a key: what is below it comes first. *)
Definition sorted_for {A} (cmp : A → Z) (l : list A) : Prop :=
  ∀ i j a b, (i < j)%nat → l !! i = Some a → l !! j = Some b → cmp b < cmp a.

Class FtrHeaderLaws `{FtrHeader} : Prop := {
  ftr_mask_eq f : field_ok f → arm64_ftr_mask f = GENMASK (fb_shift f + fb_width f - 1) (fb_shift f);
  ftr_value_range f v : field_ok f → in_range f (arm64_ftr_value f v);
  ftr_value_mod f v : field_ok f →
    arm64_ftr_value f v mod 2 ^ fb_width f = (v / 2 ^ fb_shift f) mod 2 ^ fb_width f;
  ftr_user_value r : arm64_ftr_reg_user_value r = Z.lor (fr_user_val r) (Z.land (fr_sys_val r) (fr_user_mask r));
  ftr_extract f v : field_ok f → fb_width f ≤ 32 →
    cpuid_feature_extract_field_width v (fb_shift f) (fb_width f) (fb_sign f) = arm64_ftr_value f v;
  ftr_extract_unsigned v p w : 0 ≤ p → 0 < w ≤ 32 →
    cpuid_feature_extract_unsigned_field_width v p w = (v / 2 ^ p) mod 2 ^ w;
  bsearch_hit cmp k l i : bsearch cmp k l = Some i → ∃ e, l !! i = Some e ∧ cmp k e = 0;
  bsearch_miss cmp k l : sorted_for (cmp k) l → bsearch cmp k l = None → ∀ e, e ∈ l → cmp k e ≠ 0
}.

(** The numbers are non-negative integers that an [int] can hold; the policy code VIPT
    fits into its field. *)
Class SysregLaws `{Sysregs} : Prop := {
  sysreg_range s : 0 ≤ SYSREG s < 2 ^ 31;
  sysreg_vipt : SYSREG "CTR_EL0_L1Ip_VIPT" < 2 ^ 2
}.

(** ** Bits and values of fields *)

Definition in_bits (f : arm64_ftr_bits) (k : Z) : bool := (fb_shift f <=? k) && (k <? fb_shift f + fb_width f).
Definition disjoint_fields (f g : arm64_ftr_bits) : Prop :=
  fb_shift f + fb_width f ≤ fb_shift g ∨ fb_shift g + fb_width g ≤ fb_shift f.

Lemma in_bits_disjoint f g k : disjoint_fields f g → in_bits f k = true → in_bits g k = false.
Proof. unfold disjoint_fields, in_bits. lia. Qed.

(** The value a field has, as bits, and the range determine the value. *)
Lemma in_range_eq f x y : 0 < fb_width f → in_range f x → in_range f y →
  x mod 2 ^ fb_width f = y mod 2 ^ fb_width f → x = y.
Proof.
  intros Hw Hx Hy E. unfold in_range in *.
  assert (2 ^ fb_width f = 2 * 2 ^ (fb_width f - 1)) as Hp.
  { rewrite <- Z.pow_succ_r by lia. f_equal. lia. }
  assert (0 < 2 ^ (fb_width f - 1)) by (apply Z.pow_pos_nonneg; lia).
  pose proof (Z.div_mod x (2 ^ fb_width f)). pose proof (Z.div_mod y (2 ^ fb_width f)).
  assert (x - y = 2 ^ fb_width f * (x / 2 ^ fb_width f - y / 2 ^ fb_width f)) by lia.
  assert (x / 2 ^ fb_width f - y / 2 ^ fb_width f = 0); [|nia].
  destruct (fb_sign f); nia.
Qed.

Lemma div_mod_bits x s w k : 0 ≤ s → 0 ≤ w → 0 ≤ k →
  Z.testbit ((x / 2 ^ s) mod 2 ^ w) k = (k <? w) && Z.testbit x (k + s).
Proof.
  intros. rewrite <- Z.land_ones, Z.land_spec, <- Z.shiftr_div_pow2, Z.shiftr_spec by lia.
  rewrite Z.testbit_ones by lia. replace (0 <=? k) with true by lia. apply andb_comm.
Qed.

Section fields.
Context `{FtrHeaderLaws}.

Lemma testbit_mask f k : field_ok f → 0 ≤ k → Z.testbit (arm64_ftr_mask f) k = in_bits f k.
Proof.
  intros Hf Hk. unfold field_ok in Hf. rewrite ftr_mask_eq by done. rewrite testbit_GENMASK by lia.
  unfold in_bits. f_equal. lia.
Qed.

Lemma testbit_u64 x k : 0 ≤ k → Z.testbit (u64 x) k = (k <? 64) && Z.testbit x k.
Proof.
  intros Hk. unfold u64. destruct (Z.ltb_spec k 64).
  - by rewrite Z.mod_pow2_bits_low.
  - by rewrite Z.mod_pow2_bits_high by lia.
Qed.

Lemma testbit_not64 x k : 0 ≤ k → Z.testbit (not64 x) k = (k <? 64) && negb (Z.testbit x k).
Proof. intros Hk. unfold not64. rewrite testbit_u64, Z.lnot_spec by lia. done. Qed.

Lemma testbit_set f r v k : field_ok f → 0 ≤ k →
  Z.testbit (arm64_ftr_set_value f r v) k =
    (k <? 64) && if in_bits f k then Z.testbit v (k - fb_shift f) else Z.testbit r k.
Proof.
  intros Hf Hk. unfold arm64_ftr_set_value.
  rewrite testbit_u64, Z.lor_spec, !Z.land_spec, testbit_not64, testbit_mask, Z.shiftl_spec by done.
  destruct (k <? 64), (in_bits f k); cbn; rewrite ?andb_false_r, ?andb_true_r, ?orb_false_r; done.
Qed.

(** The value of a field depends on its bits only. *)
Lemma value_bits f a b : field_ok f → (∀ k, in_bits f k = true → Z.testbit a k = Z.testbit b k) →
  arm64_ftr_value f a = arm64_ftr_value f b.
Proof.
  intros Hf E. pose proof Hf as (?&?&?).
  apply (in_range_eq f); [lia|by apply ftr_value_range..|]. rewrite !ftr_value_mod by done.
  apply Z.bits_inj'. intros k Hk. rewrite !div_mod_bits by lia.
  destruct (Z.ltb_spec k (fb_width f)); cbn; [|done]. apply E. unfold in_bits. lia.
Qed.

Lemma value_set_same f r v : field_ok f → in_range f v → arm64_ftr_value f (arm64_ftr_set_value f r v) = v.
Proof.
  intros Hf Hv. pose proof Hf as (?&?&?).
  apply (in_range_eq f); [lia|by apply ftr_value_range|done|]. rewrite ftr_value_mod by done.
  apply Z.bits_inj'. intros k Hk. rewrite div_mod_bits, testbit_set by (done || lia).
  rewrite <- Z.land_ones, Z.land_spec, Z.testbit_ones by lia. unfold in_bits.
  destruct (Z.ltb_spec k (fb_width f)); cbn; [|by rewrite !andb_false_r].
  replace (k + fb_shift f <? 64) with true by lia. replace (fb_shift f <=? k + fb_shift f) with true by lia.
  replace (k + fb_shift f <? fb_shift f + fb_width f) with true by lia. replace (0 <=? k) with true by lia.
  cbn. rewrite andb_true_r. f_equal. lia.
Qed.

Lemma value_set_other f g r v : field_ok f → field_ok g → disjoint_fields f g →
  arm64_ftr_value f (arm64_ftr_set_value g r v) = arm64_ftr_value f r.
Proof.
  intros Hf Hg Hd. apply value_bits; [done|]. intros k Hk. pose proof Hf as (?&?&?).
  assert (0 ≤ k < 64) by (unfold in_bits in Hk; lia).
  rewrite testbit_set by (done || lia). rewrite (in_bits_disjoint f g) by done.
  by replace (k <? 64) with true by lia.
Qed.

End fields.

(** ** Tables *)

Definition table_ok (l : list arm64_ftr_bits) : Prop := Forall field_ok l ∧ ForallOrdPairs disjoint_fields l.

Lemma table_ok_cons f l : table_ok (f :: l) → field_ok f ∧ Forall (disjoint_fields f) l ∧ table_ok l.
Proof. intros [Hf Hd]. inversion Hf; inversion Hd; subst. done. Qed.

(** The checks of [sort_ftr_regs] say nothing only of tables whose fields lie in the
    register and do not overlap. *)
Lemma sort_ftr_bits_ok name prev l :
  Forall (λ f, 0 ≤ fb_shift f ∧ 0 < fb_width f) l → sort_ftr_bits name prev l = [] →
  table_ok l ∧ match prev with Some p => Forall (λ f, fb_shift f + fb_width f ≤ p) l | None => True end.
Proof.
  intros Hp. revert prev. induction Hp as [|f l [Hs Hw] Hp IH]; intros prev; cbn.
  { intros _. split; [split; constructor|by destruct prev]. }
  intros [E1 [E2 E3]%app_eq_nil]%app_eq_nil. destruct (IH _ E3) as [[Hl Hd] Hb].
  destruct (Z.ltb_spec 64 (fb_shift f + fb_width f)); [done|].
  split; [split|].
  - constructor; [unfold field_ok; lia|done].
  - constructor; [|done]. eapply list.Forall_impl; [exact Hb|]. intros g Hg. right. done.
  - destruct prev as [p|]; [|done]. destruct (Z.ltb_spec p (fb_shift f + fb_width f)); [done|].
    constructor; [done|]. eapply list.Forall_impl; [exact Hb|]. intros g Hg. cbn in *. lia.
Qed.

(** ** Safe values *)

(** The constant of an exact field is a value of the field. *)
Definition exact_ok (f : arm64_ftr_bits) : Prop := fb_type f = FTR_EXACT → in_range f (fb_safe_val f).

Lemma safe_value_range f a b : 0 < fb_width f → exact_ok f → in_range f a → in_range f b →
  in_range f (arm64_ftr_safe_value f a b).
Proof.
  intros Hw He Ha Hb. unfold arm64_ftr_safe_value, exact_ok in *.
  assert (0 < 2 ^ (fb_width f - 1)) by (apply Z.pow_pos_nonneg; lia).
  assert (0 < 2 ^ fb_width f) by (apply Z.pow_pos_nonneg; lia).
  destruct (fb_type f); [by apply He|..]; unfold in_range in *; destruct (fb_sign f); try lia;
    destruct ((b =? 0) || (a =? 0)); lia.
Qed.

(** One more value, and all values: an exact field keeps a value all CPUs have, a field
    whose lower or higher values are safe has the extreme one, zero included where it
    stands for an unknown value. *)
Definition join (f : arm64_ftr_bits) (cur new : Z) : Z :=
  if cur =? new then cur else arm64_ftr_safe_value f new cur.
Definition safe_over (f : arm64_ftr_bits) (boot : Z) (others : list Z) : Z :=
  match fb_type f with
  | FTR_EXACT => if bool_decide (Forall (eq boot) others) then boot else fb_safe_val f
  | FTR_LOWER_SAFE => foldr Z.min boot others
  | FTR_HIGHER_SAFE => foldr Z.max boot others
  | FTR_HIGHER_OR_ZERO_SAFE => if bool_decide (0 ∈ boot :: others) then 0 else foldr Z.max boot others
  end.

Lemma foldr_min_acc a b l : foldr Z.min (Z.min a b) l = Z.min a (foldr Z.min b l).
Proof. induction l as [|x l IH]; cbn; [done|]. rewrite IH. lia. Qed.
Lemma foldr_max_acc a b l : foldr Z.max (Z.max a b) l = Z.max a (foldr Z.max b l).
Proof. induction l as [|x l IH]; cbn; [done|]. rewrite IH. lia. Qed.
Lemma foldl_join_stuck f l c : (∀ v, join f c v = c) → foldl (join f) c l = c.
Proof. intros E. induction l as [|v l IH]; cbn; [done|]. by rewrite E. Qed.

Lemma join_fold f boot l : foldl (join f) boot l = safe_over f boot l.
Proof.
  unfold safe_over. destruct (fb_type f) eqn:Et.
  - revert boot. induction l as [|v l IH]; intros boot; cbn.
    { done. }
    unfold join at 2. destruct (Z.eqb_spec boot v) as [<-|Hne].
    + rewrite IH. case_bool_decide as E1; case_bool_decide as E2; try done.
      * destruct E2. by constructor.
      * destruct E1. by inversion E2.
    + rewrite bool_decide_false by (inversion 1; done). unfold arm64_ftr_safe_value. rewrite Et.
      apply foldl_join_stuck. intros w. unfold join, arm64_ftr_safe_value. rewrite Et. by destruct (_ =? _).
  - revert boot. induction l as [|v l IH]; intros boot; cbn; [done|]. rewrite IH, <- foldr_min_acc. f_equal.
    unfold join, arm64_ftr_safe_value. rewrite Et. destruct (Z.eqb_spec boot v); lia.
  - revert boot. induction l as [|v l IH]; intros boot; cbn; [done|]. rewrite IH, <- foldr_max_acc. f_equal.
    unfold join, arm64_ftr_safe_value. rewrite Et. destruct (Z.eqb_spec boot v); lia.
  - revert boot. induction l as [|v l IH]; intros boot; cbn.
    { case_bool_decide as E; [|done]. by apply list_elem_of_singleton in E. }
    assert (join f boot v = if (boot =? 0) || (v =? 0) then 0 else Z.max v boot) as ->.
    { unfold join, arm64_ftr_safe_value. rewrite Et. destruct (Z.eqb_spec boot v) as [<-|]; [|done].
      destruct (Z.eqb_spec boot 0); cbn; lia. }
    destruct ((boot =? 0) || (v =? 0)) eqn:Ez.
    + rewrite IH, !bool_decide_true; [done| |constructor].
      rewrite !elem_of_cons. apply orb_true_iff in Ez. lia.
    + apply orb_false_iff in Ez as [E1 E2]. rewrite IH, <- foldr_max_acc.
      rewrite (bool_decide_ext (0 ∈ Z.max v boot :: l) (0 ∈ boot :: v :: l)); [done|].
      rewrite !elem_of_cons. assert (0 ≠ Z.max v boot) by lia. naive_solver lia.
Qed.

(** The order of the CPUs does not matter, that of the first one included. *)
Lemma safe_over_perm f a l b l' : a :: l ≡ₚ b :: l' → safe_over f a l = safe_over f b l'.
Proof.
  intros Hp. unfold safe_over.
  assert (∀ g : Z → Z → Z, (∀ x y z, g x (g y z) = g y (g x z)) → (∀ x y, g x y = g y x) →
    foldr g a l = foldr g b l') as Hf.
  { intros g Ha Hc.
    assert (∀ x m, foldr (λ y o, Some (match o with Some z => g y z | None => y end)) (Some x) m = Some (foldr g x m)) as Hs.
    { intros x m. induction m as [|y m IH]; cbn; [done|]. by rewrite IH. }
    assert (∀ x m, foldr (λ y o, Some (match o with Some z => g y z | None => y end)) None (m ++ [x]) = Some (foldr g x m)) as Hn.
    { intros x m. by rewrite foldr_app, <- Hs. }
    enough (Some (foldr g a l) = Some (foldr g b l')) by congruence. rewrite <- !Hn.
    apply (foldr_permutation eq _ _).
    - intros j1 x1 j2 x2 [z|] _ _ _; f_equal; [apply Ha|apply Hc].
    - by rewrite <- !Permutation_cons_append. }
  assert (foldr Z.max a l = foldr Z.max b l') as Hmax by (apply Hf; lia).
  destruct (fb_type f).
  - assert (Forall (eq a) l ↔ Forall (eq b) l').
    { assert (∀ (x : Z) m, Forall (eq x) m ↔ ∀ y z, y ∈ x :: m → z ∈ x :: m → y = z) as Hq.
      { intros x m. rewrite list.Forall_forall. split.
        - intros Hx y z [->|Hy]%elem_of_cons [->|Hz]%elem_of_cons; [done|by apply Hx|symmetry; by apply Hx|].
          transitivity x; [symmetry|]; by apply Hx.
        - intros Hx y Hy. apply Hx; [constructor|by constructor]. }
      rewrite !Hq. by setoid_rewrite Hp. }
    case_bool_decide as E1; case_bool_decide as E2; try tauto.
    assert (a ∈ b :: l') as Ha by (rewrite <- Hp; constructor).
    apply elem_of_cons in Ha as [->|Ha]; [done|]. symmetry. by apply (proj1 (list.Forall_forall _ _) E2).
  - apply Hf; lia.
  - done.
  - rewrite Hmax. by rewrite (bool_decide_ext (0 ∈ a :: l) (0 ∈ b :: l')) by (by rewrite Hp).
Qed.

(** ** One register *)

Section register.
Context `{FtrHeaderLaws}.

Definition outside (l : list arm64_ftr_bits) (k : Z) : Prop := Forall (λ f, in_bits f k = false) l.

Lemma outside_disjoint f l k : Forall (disjoint_fields f) l → in_bits f k = true → outside l k.
Proof. intros Hd Hk. eapply list.Forall_impl; [exact Hd|]. intros g Hg. by apply (in_bits_disjoint f g). Qed.

Lemma field_bit_range f k : field_ok f → in_bits f k = true → 0 ≤ k < 64.
Proof. unfold field_ok, in_bits. lia. Qed.

Lemma update_field_bits new x f k : field_ok f → 0 ≤ k < 64 → in_bits f k = false →
  Z.testbit (update_field new x f) k = Z.testbit x k.
Proof.
  intros Hf Hk Hb. unfold update_field. cbv zeta. destruct (_ =? _); [done|].
  rewrite testbit_set by (done || lia). rewrite Hb. by replace (k <? 64) with true by lia.
Qed.

Lemma update_fields_bits new l k : ∀ x, Forall field_ok l → 0 ≤ k < 64 → outside l k →
  Z.testbit (foldl (update_field new) x l) k = Z.testbit x k.
Proof.
  induction l as [|f l IH]; intros x Hf Hk Ho; cbn; [done|].
  apply List.Forall_cons_iff in Hf as [Hf Hl]. apply List.Forall_cons_iff in Ho as [Ho Hol].
  rewrite IH by done. by apply update_field_bits.
Qed.

(** A further CPU joins its value to each field. *)
Lemma update_fields_value new l : ∀ x f, table_ok l → Forall exact_ok l → f ∈ l →
  arm64_ftr_value f (foldl (update_field new) x l) = join f (arm64_ftr_value f x) (arm64_ftr_value f new).
Proof.
  induction l as [|g l IH]; intros x f Ht He Hin; [by apply elem_of_nil in Hin|].
  apply table_ok_cons in Ht as (Hg & Hd & Ht). apply List.Forall_cons_iff in He as [Heg He]. cbn.
  apply elem_of_cons in Hin as [->|Hin].
  - transitivity (arm64_ftr_value g (update_field new x g)).
    { apply value_bits; [done|]. intros k Hk. apply update_fields_bits; [apply Ht|by apply field_bit_range in Hk|].
      by apply (outside_disjoint g). }
    unfold update_field, join. cbv zeta. destruct (_ =? _) eqn:E; [done|].
    rewrite value_set_same; [done|done|]. apply safe_value_range; [apply Hg|done|by apply ftr_value_range..].
  - rewrite IH by done. f_equal. apply value_bits.
    { destruct Ht as [Hf _]. by apply (proj1 (list.Forall_forall _ _) Hf). }
    intros k Hk. pose proof (proj1 (list.Forall_forall _ _) Hd f Hin) as Hgf.
    assert (field_ok f) by (destruct Ht as [Hf _]; by apply (proj1 (list.Forall_forall _ _) Hf)).
    apply update_field_bits; [done|by apply field_bit_range in Hk|].
    apply (in_bits_disjoint f g); [|done]. destruct Hgf; [by right|by left].
Qed.

(** *** The override of a field *)

Definition covered (x : Z) (f : arm64_ftr_bits) : Prop := ∀ k, in_bits f k = true → Z.testbit x k = true.
Definition blank (x : Z) (f : arm64_ftr_bits) : Prop := ∀ k, in_bits f k = true → Z.testbit x k = false.

Lemma covered_land f x : field_ok f → (Z.land (arm64_ftr_mask f) x =? arm64_ftr_mask f) = true ↔ covered x f.
Proof.
  intros Hf. rewrite Z.eqb_eq. split.
  - intros E k Hk. pose proof (field_bit_range f k Hf Hk).
    assert (Z.testbit (Z.land (arm64_ftr_mask f) x) k = true) as Ht by (rewrite E, testbit_mask; done || lia).
    rewrite Z.land_spec in Ht. by apply andb_true_iff in Ht as [_ Ht].
  - intros Hc. apply Z.bits_inj'. intros k Hk. rewrite Z.land_spec, testbit_mask by done.
    destruct (in_bits f k) eqn:E; [|done]. by rewrite Hc.
Qed.

(** The overrides agree on a field. *)
Definition same_on (f : arm64_ftr_bits) (o o' : arm64_ftr_override) : Prop :=
  ∀ k, in_bits f k = true → Z.testbit (val o) k = Z.testbit (val o') k ∧ Z.testbit (mask o) k = Z.testbit (mask o') k.

Lemma testbit_drop x f k : field_ok f → 0 ≤ k < 64 →
  Z.testbit (Z.land x (not64 (arm64_ftr_mask f))) k = Z.testbit x k && negb (in_bits f k).
Proof.
  intros Hf Hk. rewrite Z.land_spec, testbit_not64, testbit_mask by (done || lia).
  by replace (k <? 64) with true by lia.
Qed.

Lemma apply_override_frame f g v o : field_ok f → field_ok g → disjoint_fields f g →
  same_on f (apply_override g v o).2 o.
Proof.
  intros Hf Hg Hd k Hk. pose proof (field_bit_range f k Hf Hk) as Hr.
  pose proof (in_bits_disjoint f g k Hd Hk) as Hn. unfold apply_override. cbv zeta.
  repeat match goal with |- context [if ?b then _ else _] => destruct b end; cbn [snd val mask];
    rewrite ?testbit_drop, ?Hn, ?andb_true_r by done; done.
Qed.

Lemma covered_agrees f x y : (∀ k, in_bits f k = true → Z.testbit x k = Z.testbit y k) → field_ok f →
  (Z.land (arm64_ftr_mask f) x =? arm64_ftr_mask f) = (Z.land (arm64_ftr_mask f) y =? arm64_ftr_mask f).
Proof.
  intros E Hf. apply eq_true_iff_eq. rewrite !covered_land by done.
  split; intros Hc k Hk; [rewrite <- E by done|rewrite E by done]; by apply Hc.
Qed.

Lemma apply_override_agrees f v o o' : field_ok f → same_on f o o' →
  (apply_override f v o).1 = (apply_override f v o').1 ∧ same_on f (apply_override f v o).2 (apply_override f v o').2.
Proof.
  intros Hf Ha. unfold apply_override. rewrite (value_bits f (val o) (val o')) by (done || (intros k Hk; apply Ha, Hk)).
  rewrite (covered_agrees f (mask o) (mask o')), (covered_agrees f (val o) (val o'))
    by (done || (intros k Hk; apply Ha, Hk)).
  repeat match goal with |- context [if ?b then _ else _] => destruct b end; (split; [done|]); try done;
    intros k Hk; pose proof (field_bit_range f k Hf Hk); destruct (Ha k Hk) as [E1 E2]; cbn [snd val mask];
    by rewrite ?testbit_drop, ?E1, ?E2 by done.
Qed.

(** The value the override leaves: the overriding value where it is the safe one. *)
Definition overridden (f : arm64_ftr_bits) (o : arm64_ftr_override) (v : Z) : Z := (apply_override f v o).1.

Lemma overridden_range f o v : field_ok f → exact_ok f → in_range f v → in_range f (overridden f o v).
Proof.
  intros Hf He Hv. unfold overridden, apply_override. cbv zeta.
  repeat match goal with |- context [if ?b then _ else _] => destruct b eqn:? end; cbn [fst]; try done.
  apply safe_value_range; [apply Hf|done|by apply ftr_value_range|done].
Qed.

(** *** Recording the boot CPU *)

(** What the fields after [f] leave alone. *)
Lemma init_fields_frame new l f : ∀ a, field_ok f → Forall field_ok l → Forall (disjoint_fields f) l →
  (∀ k, in_bits f k = true → Z.testbit (ia_val (foldl (init_field new) a l)) k = Z.testbit (ia_val a) k) ∧
  same_on f (ia_override (foldl (init_field new) a l)) (ia_override a).
Proof.
  induction l as [|g l IH]; intros a Hf Hl Hd; cbn; [done|].
  apply List.Forall_cons_iff in Hl as [Hg Hl]. apply List.Forall_cons_iff in Hd as [Hdg Hd].
  destruct (IH (init_field new a g) Hf Hl Hd) as [IHv IHo].
  pose proof (apply_override_frame f g (arm64_ftr_value g new) (ia_override a) Hf Hg Hdg) as Ho.
  unfold init_field in IHv, IHo |- *. destruct (apply_override g (arm64_ftr_value g new) (ia_override a)) as [w o'].
  cbn [ia_val ia_override snd] in *. split.
  - intros k Hk. rewrite IHv by done. pose proof (field_bit_range f k Hf Hk).
    rewrite testbit_set by (done || lia). rewrite (in_bits_disjoint f g) by done. by replace (k <? 64) with true by lia.
  - intros k Hk. destruct (IHo k Hk) as [-> ->]. by apply Ho.
Qed.

Lemma init_fields_value new l : ∀ a f, table_ok l → Forall exact_ok l → f ∈ l →
  arm64_ftr_value f (ia_val (foldl (init_field new) a l)) = overridden f (ia_override a) (arm64_ftr_value f new) ∧
  same_on f (ia_override (foldl (init_field new) a l)) (apply_override f (arm64_ftr_value f new) (ia_override a)).2.
Proof.
  induction l as [|g l IH]; intros a f Ht He Hin; [by apply elem_of_nil in Hin|].
  apply table_ok_cons in Ht as (Hg & Hd & Ht). apply List.Forall_cons_iff in He as [Heg He]. cbn.
  apply elem_of_cons in Hin as [->|Hin].
  - destruct (init_fields_frame new l g (init_field new a g) Hg (proj1 Ht) Hd) as [Hv Ho].
    rewrite (value_bits g _ _ Hg Hv). unfold init_field, overridden in *.
    pose proof (overridden_range g (ia_override a) (arm64_ftr_value g new) Hg Heg (ftr_value_range g new Hg)) as Hr.
    unfold overridden in Hr.
    destruct (apply_override g (arm64_ftr_value g new) (ia_override a)) as [w o']. cbn [ia_val ia_override fst snd] in *.
    split; [|done]. by apply value_set_same.
  - assert (field_ok f) as Hf by (destruct Ht as [Hf _]; by apply (proj1 (list.Forall_forall _ _) Hf)).
    pose proof (proj1 (list.Forall_forall _ _) Hd f Hin) as Hgf.
    assert (disjoint_fields f g) as Hfg by (destruct Hgf; [by right|by left]).
    pose proof (apply_override_frame f g (arm64_ftr_value g new) (ia_override a) Hf Hg Hfg) as Ho.
    destruct (IH (init_field new a g) f Ht He Hin) as [Hv Hs].
    assert (same_on f (ia_override (init_field new a g)) (ia_override a)) as Ha.
    { unfold init_field. destruct (apply_override g _ _) as [w o']. exact Ho. }
    destruct (apply_override_agrees f (arm64_ftr_value f new) _ _ Hf Ha) as [E1 E2]. split.
    + by rewrite Hv.
    + intros k Hk. destruct (Hs k Hk) as [-> ->]. by apply E2.
Qed.

(** *** The masks *)

Definition some_bits (p : arm64_ftr_bits → bool) (l : list arm64_ftr_bits) (k : Z) : bool :=
  existsb (λ f, p f && in_bits f k) l.

Lemma some_bits_cons p f l k : some_bits p (f :: l) k = p f && in_bits f k || some_bits p l k.
Proof. done. Qed.

Lemma init_masks new l k : ∀ a, Forall field_ok l → 0 ≤ k < 64 →
  let a' := foldl (init_field new) a l in
  Z.testbit (ia_valid_mask a') k = Z.testbit (ia_valid_mask a) k || some_bits (λ _, true) l k ∧
  Z.testbit (ia_strict_mask a') k = Z.testbit (ia_strict_mask a) k && negb (some_bits (λ f, negb (fb_strict f)) l k) ∧
  Z.testbit (ia_user_mask a') k = Z.testbit (ia_user_mask a) k || some_bits fb_visible l k.
Proof.
  induction l as [|f l IH]; intros a Hl Hk; cbn [foldl].
  { cbn. by rewrite !orb_false_r, andb_true_r. }
  apply List.Forall_cons_iff in Hl as [Hf Hl]. destruct (IH (init_field new a f) Hl Hk) as (-> & -> & ->).
  rewrite !some_bits_cons.
  unfold init_field. destruct (apply_override f _ _) as [w o']. cbn [ia_valid_mask ia_strict_mask ia_user_mask].
  rewrite Z.lor_spec, testbit_mask by (done || lia). split; [|split].
  - cbn. by rewrite orb_assoc.
  - destruct (fb_strict f); cbn; [done|]. rewrite testbit_drop by done. rewrite negb_orb, andb_assoc. done.
  - destruct (fb_visible f); cbn; [|done]. rewrite Z.lor_spec, testbit_mask by (done || lia). by rewrite orb_assoc.
Qed.

Lemma valid_high new l k : ∀ a, Forall field_ok l → 64 ≤ k → Z.testbit (ia_valid_mask a) k = false →
  Z.testbit (ia_valid_mask (foldl (init_field new) a l)) k = false.
Proof.
  induction l as [|f l IH]; intros a Hl Hk Ha; cbn; [done|].
  apply List.Forall_cons_iff in Hl as [Hf Hl]. apply IH; [done..|].
  unfold init_field. destruct (apply_override f _ _) as [w o']. cbn [ia_valid_mask].
  rewrite Z.lor_spec, Ha, testbit_mask by (done || lia). unfold in_bits, field_ok in *. lia.
Qed.

Lemma some_bits_outside p l k : outside l k → some_bits p l k = false.
Proof. induction 1 as [|f l Hf _ IH]; [done|]. by rewrite some_bits_cons, Hf, IH, andb_false_r. Qed.

Lemma some_bits_in p l f k : ForallOrdPairs disjoint_fields l → f ∈ l → in_bits f k = true → some_bits p l k = p f.
Proof.
  induction 1 as [|g l Hg Hd IH]; intros Hin Hk; [by apply elem_of_nil in Hin|].
  rewrite some_bits_cons. apply elem_of_cons in Hin as [->|Hin].
  - rewrite Hk, andb_true_r. rewrite some_bits_outside by (by apply (outside_disjoint g)). apply orb_false_r.
  - pose proof (proj1 (list.Forall_forall _ _) Hg f Hin) as Hgf.
    rewrite (in_bits_disjoint f g k); [|destruct Hgf; [by right|by left]|done]. rewrite andb_false_r. by apply IH.
Qed.

(** What user space is given of a field that is hidden. *)
Lemma init_user_val new l k : ∀ a, table_ok l → 0 ≤ k < 64 →
  Z.testbit (ia_user_val (foldl (init_field new) a l)) k =
    match List.find (λ f, in_bits f k) l with
    | Some f => if fb_visible f then Z.testbit (ia_user_val a) k else Z.testbit (fb_safe_val f) (k - fb_shift f)
    | None => Z.testbit (ia_user_val a) k
    end.
Proof.
  induction l as [|f l IH]; intros a Ht Hk; cbn [foldl List.find]; [done|].
  apply table_ok_cons in Ht as (Hf & Hd & Ht). rewrite IH by done.
  assert (in_bits f k = true → List.find (λ g, in_bits g k) l = None) as Hn.
  { intros Hb. destruct (List.find _ l) as [g|] eqn:Eg; [|done]. apply List.find_some in Eg as [Hg Hgk].
    apply list_elem_of_In in Hg. pose proof (proj1 (list.Forall_forall _ _) Hd g Hg) as Hfg.
    rewrite (in_bits_disjoint f g k Hfg Hb) in Hgk. done. }
  assert (∀ b : bool, Z.testbit (if b then ia_user_val a else arm64_ftr_set_value f (ia_user_val a) (fb_safe_val f)) k =
    if b then Z.testbit (ia_user_val a) k
    else if in_bits f k then Z.testbit (fb_safe_val f) (k - fb_shift f) else Z.testbit (ia_user_val a) k) as Hset.
  { intros []; [done|]. rewrite testbit_set by (done || lia). by replace (k <? 64) with true by lia. }
  unfold init_field. destruct (apply_override f _ _) as [w o']. cbn [ia_user_val].
  destruct (in_bits f k) eqn:Eb.
  - rewrite Hn by done. rewrite Hset. done.
  - rewrite Hset. by destruct (List.find _ l) as [g|]; [destruct (fb_visible g)|]; destruct (fb_visible f).
Qed.

(** The register after the boot CPU. *)
Record recorded (r : arm64_ftr_reg) (new : Z) (o : arm64_ftr_override) (r' : arm64_ftr_reg) (o' : arm64_ftr_override) : Prop := {
  rec_field f : f ∈ fields (fr_bits r) → arm64_ftr_value f (fr_sys_val r') = overridden f o (arm64_ftr_value f new);
  rec_res0 k : 0 ≤ k → outside (fields (fr_bits r)) k → Z.testbit (fr_sys_val r') k = false;
  rec_strict k : 0 ≤ k < 64 →
    Z.testbit (fr_strict_mask r') k = negb (some_bits (λ f, negb (fb_strict f)) (fields (fr_bits r)) k);
  rec_user k : 0 ≤ k < 64 → Z.testbit (fr_user_mask r') k = some_bits fb_visible (fields (fr_bits r)) k;
  rec_user_val k : 0 ≤ k < 64 → Z.testbit (fr_user_val r') k =
    match List.find (λ f, in_bits f k) (fields (fr_bits r)) with
    | Some f => if fb_visible f then Z.testbit (fr_user_val r) k else Z.testbit (fb_safe_val f) (k - fb_shift f)
    | None => Z.testbit (fr_user_val r) k
    end;
  rec_override f : f ∈ fields (fr_bits r) → same_on f o' (apply_override f (arm64_ftr_value f new) o).2;
  rec_static : fr_name r' = fr_name r ∧ fr_bits r' = fr_bits r ∧ fr_override r' = fr_override r
}.

Lemma init_reg_recorded r new o :
  table_ok (fields (fr_bits r)) → Forall exact_ok (fields (fr_bits r)) →
  recorded r new o (init_reg r new o).1 (init_reg r new o).2.
Proof.
  intros Ht He. pose proof Ht as [Hok Hdis]. unfold init_reg, init_fields. cbv zeta.
  set (a0 := InitAcc 0 (not64 0) 0 0 o (fr_user_val r)).
  constructor; cbn [fst snd fr_sys_val fr_strict_mask fr_user_mask fr_user_val fr_name fr_bits fr_override]; [..|done].
  - intros f Hin. destruct (init_fields_value new _ a0 f Ht He Hin) as [Hv _]. etransitivity; [|exact Hv].
    apply value_bits; [by apply (proj1 (list.Forall_forall _ _) Hok)|]. intros k Hk.
    pose proof (field_bit_range f k (proj1 (list.Forall_forall _ _) Hok f Hin) Hk) as Hr.
    rewrite Z.land_spec. destruct (init_masks new _ k a0 Hok Hr) as (-> & _ & _).
    rewrite (some_bits_in _ _ f) by done. by rewrite orb_true_r, andb_true_r.
  - intros k Hk Ho. rewrite Z.land_spec. destruct (Z.lt_ge_cases k 64).
    + destruct (init_masks new _ k a0 Hok ltac:(lia)) as (-> & _ & _). rewrite some_bits_outside by done.
      cbn. by rewrite Z.testbit_0_l, andb_false_r.
    + rewrite (valid_high new _ k a0) by (done || apply Z.testbit_0_l). apply andb_false_r.
  - intros k Hk. destruct (init_masks new _ k a0 Hok Hk) as (_ & -> & _). cbn [ia_strict_mask a0].
    rewrite testbit_not64, Z.testbit_0_l by lia. by replace (k <? 64) with true by lia.
  - intros k Hk. destruct (init_masks new _ k a0 Hok Hk) as (_ & _ & ->). cbn [ia_user_mask a0]. by rewrite Z.testbit_0_l.
  - intros k Hk. apply (init_user_val new _ k a0 Ht Hk).
  - intros f Hin. by destruct (init_fields_value new _ a0 f Ht He Hin) as [_ Hs].
Qed.

End register.

(** ** The array of registers *)

Section array.
Context `{Sysregs} `{FtrHeaderLaws}.

Definition view (s : sys) : gmap Z arm64_ftr_reg := list_to_map (ftr_regs s).
Definition static (r : arm64_ftr_reg) : list arm64_ftr_bits * option regid := (fr_bits r, fr_override r).
Definition reg_ok (r : arm64_ftr_reg) : Prop :=
  table_ok (fields (fr_bits r)) ∧ Forall exact_ok (fields (fr_bits r)).

Fixpoint ascending (prev : Z) (l : list Z) : Prop :=
  match l with [] => True | x :: l' => prev < x < 2 ^ 31 ∧ ascending x l' end.

Record good (s : sys) : Prop := {
  good_ids : ascending (-1) (ftr_regs s).*1;
  good_regs : map_Forall (λ _, reg_ok) (view s);
  good_none : ovr s None = Override 0 0
}.

Lemma ascending_above p l : ascending p l → Forall (λ x, p < x < 2 ^ 31) l.
Proof.
  revert p. induction l as [|x l IH]; intros p; cbn; [by constructor|]. intros [Hx Hl].
  constructor; [done|]. eapply list.Forall_impl; [by apply IH|]. cbn. lia.
Qed.

Lemma ascending_NoDup p l : ascending p l → NoDup l.
Proof.
  revert p. induction l as [|x l IH]; intros p; cbn; [constructor|]. intros [Hx Hl]. constructor; [|by apply (IH x)].
  intros Hin. pose proof (proj1 (list.Forall_forall _ _) (ascending_above _ _ Hl) x Hin). cbn in *. lia.
Qed.

Lemma ascending_sorted p l i j a b : ascending p l → (i < j)%nat → l !! i = Some a → l !! j = Some b → a < b.
Proof.
  revert p i j. induction l as [|x l IH]; intros p i j; [done|]. cbn [ascending]. intros [Hx Hl] Hij Ha Hb.
  destruct j as [|j]; [lia|]. cbn in Hb. destruct i as [|i]; cbn in Ha.
  - injection Ha as <-. apply ascending_above in Hl.
    pose proof (proj1 (Forall_lookup _ _) Hl j b Hb). cbn in *. lia.
  - apply (IH x i j); [done|lia|done|done].
Qed.

Lemma s32_small x : 0 ≤ x < 2 ^ 31 → s32 x = x.
Proof. intros Hx. unfold s32, u32. rewrite Z.mod_small by lia. destruct (Z.ltb_spec x (2 ^ 31)); lia. Qed.
Lemma s32_diff x y : 0 ≤ x < 2 ^ 31 → 0 ≤ y < 2 ^ 31 → s32 (x - y) = x - y.
Proof.
  intros Hx Hy. unfold s32, u32. destruct (Z.le_gt_cases y x).
  - rewrite Z.mod_small by lia. destruct (Z.ltb_spec (x - y) (2 ^ 31)); lia.
  - rewrite <- (Z.mod_add _ 1), Z.mod_small by lia. destruct (Z.ltb_spec (x - y + 1 * 2 ^ 32) (2 ^ 31)); lia.
Qed.

Lemma view_NoDup s : good s → NoDup (ftr_regs s).*1.
Proof. intros [Hi _ _]. by apply ascending_NoDup in Hi. Qed.

(** The binary search finds a register by its encoding. *)
Lemma get_nowarn_spec s id : good s → 0 ≤ id < 2 ^ 31 →
  match view s !! id with
  | Some r => ∃ i, get_arm64_ftr_reg_nowarn id s = (Some (i, r), s) ∧ ftr_regs s !! i = Some (id, r)
  | None => get_arm64_ftr_reg_nowarn id s = (None, s)
  end.
Proof.
  intros Hg Hid. pose proof (view_NoDup s Hg) as Hnd.
  assert (∀ e, e ∈ ftr_regs s → 0 ≤ e.1 < 2 ^ 31) as Hr.
  { intros e He. destruct (proj1 (list.Forall_forall _ _) (ascending_above _ _ (good_ids s Hg)) e.1); [|cbn in *; lia].
    by apply list_elem_of_fmap_2. }
  assert (∀ e, e ∈ ftr_regs s → search_cmp_ftr_reg id e = id - e.1) as Hc.
  { intros e He. specialize (Hr e He). unfold search_cmp_ftr_reg. rewrite (s32_small id), (s32_small e.1) by done. by apply s32_diff. }
  unfold get_arm64_ftr_reg_nowarn, view. destruct (bsearch search_cmp_ftr_reg id (ftr_regs s)) as [i|] eqn:Eb.
  - apply bsearch_hit in Eb as ([id' r] & Hl & E0). cbn. rewrite Hl. cbn.
    rewrite Hc in E0 by (by apply list_elem_of_lookup_2 in Hl). cbn in E0. assert (id' = id) as -> by lia.
    rewrite (proj1 (elem_of_list_to_map _ id r Hnd)) by (by apply list_elem_of_lookup_2 in Hl). eauto.
  - destruct (list_to_map (ftr_regs s) !! id) as [r|] eqn:El; [|done].
    apply elem_of_list_to_map_2 in El. exfalso.
    apply (bsearch_miss search_cmp_ftr_reg id (ftr_regs s)) with (e := (id, r)) in Eb; [|..|done].
    + rewrite Hc in Eb by done. cbn in Eb. lia.
    + intros i j a b Hij Ha Hb. rewrite !Hc by (by eapply list_elem_of_lookup_2).
      assert (a.1 < b.1); [|lia]. apply (ascending_sorted (-1) (ftr_regs s).*1 i j); [apply Hg|done|..];
        rewrite list_lookup_fmap; [by rewrite Ha|by rewrite Hb].
Qed.

Lemma get_spec s id r : good s → 0 ≤ id < 2 ^ 31 → view s !! id = Some r →
  ∃ i, get_arm64_ftr_reg id s = (Some (i, r), s) ∧ ftr_regs s !! i = Some (id, r).
Proof.
  intros Hg Hid Hv. pose proof (get_nowarn_spec s id Hg Hid) as Hn. rewrite Hv in Hn. destruct Hn as (i & E & Hl).
  exists i. split; [|done]. unfold get_arm64_ftr_reg, mbind, FM_bind. by rewrite E.
Qed.

(** Writing a register through the pointer that was found. *)
Lemma view_alter l i id r r' : NoDup l.*1 → l !! i = Some (id, r) →
  (list_to_map (alter (λ e, (e.1, r')) i l) : gmap Z arm64_ftr_reg) = <[id := r']> (list_to_map l).
Proof.
  revert i. induction l as [|[id0 r0] l IH]; intros i Hnd Hl; [done|].
  apply NoDup_cons in Hnd as [Hn Hnd]. destruct i as [|i]; cbn in Hl |- *.
  - injection Hl as -> ->. by rewrite insert_insert_eq.
  - rewrite IH by done. apply insert_insert_ne. intros <-. apply Hn.
    apply list_elem_of_fmap. exists (id0, r). split; [done|]. by eapply list_elem_of_lookup_2.
Qed.

Lemma set_nth_reg_spec s i x r r' : good s → ftr_regs s !! i = Some (x, r) → static r' = static r →
  ∃ s', set_nth_reg i r' s = ((), s') ∧ good s' ∧ view s' = <[x := r']> (view s) ∧ ovr s' = ovr s ∧
    evs s' = evs s ∧ boot_cpu_32bit_regs_overridden s' = boot_cpu_32bit_regs_overridden s.
Proof.
  intros Hg Hl Hs. eexists. split; [done|]. pose proof (view_NoDup s Hg) as Hnd.
  assert ((list_to_map (alter (λ e, (e.1, r')) i (ftr_regs s)) : gmap Z arm64_ftr_reg) = <[x := r']> (view s)) as Ev.
  { by apply (view_alter _ _ _ r). }
  split; [|done]. destruct Hg as [Hi Hr Hn]. split; [|unfold view; cbn; rewrite Ev|done].
  - cbn [ftr_regs]. rewrite (list_fmap_alter fst _ id); [by rewrite list_alter_id|].
    by apply list.Forall_forall.
  - apply map_Forall_insert_2; [|done]. unfold reg_ok. injection Hs as -> _. apply (Hr x).
    unfold view. apply elem_of_list_to_map; [done|]. by eapply list_elem_of_lookup_2.
Qed.

End array.

(** ** Steps of the system *)

Definition quiet (e : event) : Prop :=
  match e with WarnShift _ _ | WarnOverlap _ _ | WarnNoReg _ | WarnBogusField _ _ => False | _ => True end.
Definition zero_override : arm64_ftr_override := Override 0 0.

(** A step that writes only the registers in [N] and the overrides in [O], warns of
    nothing and keeps the tables. *)
Record step_with `{Sysregs} `{FtrHeader} (O : option regid → Prop) (N : Z → Prop) (s s' : sys) : Prop := {
  st_good : good s';
  st_static id : static <$> view s' !! id = static <$> view s !! id;
  st_frame id : ¬ N id → view s' !! id = view s !! id;
  st_evs : ∃ w, evs s' = evs s ++ w ∧ Forall quiet w;
  st_ovr x : ¬ O x → ovr s' x = ovr s x
}.
Abbreviation step := (step_with (λ _, False)).

Lemma existsb_ext_in {A} (f g : A → bool) l : (∀ x, x ∈ l → f x = g x) → existsb f l = existsb g l.
Proof.
  induction l as [|x l IH]; intros E; cbn; [done|]. rewrite E by constructor. f_equal. apply IH.
  intros y Hy. apply E. by constructor.
Qed.

Section steps.
Context `{SysregLaws} `{FtrHeaderLaws}.

Lemma step_refl O N s : good s → step_with O N s s.
Proof. intros Hg. split; try done. exists []. by rewrite app_nil_r. Qed.

Lemma step_trans O N s1 s2 s3 : step_with O N s1 s2 → step_with O N s2 s3 → step_with O N s1 s3.
Proof.
  intros [G1 S1 F1 (w1 & E1 & Q1) O1] [G2 S2 F2 (w2 & E2 & Q2) O2]. split.
  - done.
  - intros id. by rewrite S2.
  - intros id Hid. by rewrite F2, F1.
  - exists (w1 ++ w2). rewrite E2, E1, app_assoc. split; [done|]. by apply Forall_app.
  - intros x Hx. by rewrite O2, O1.
Qed.

Lemma step_weaken O (N N' : Z → Prop) s s' : (∀ id, N id → N' id) → step_with O N s s' → step_with O N' s s'.
Proof. intros HN [G S F E HO]. split; try done. intros id Hid. apply F. auto. Qed.
Lemma step_loosen (O O' : option regid → Prop) N s s' : (∀ x, O x → O' x) → step_with O N s s' → step_with O' N s s'.
Proof. intros HN [G S F E HO]. split; try done. intros x Hx. apply HO. auto. Qed.

(** What a step preserves of a register: it stays there, with its table. *)
Lemma step_present O N s s' id r : step_with O N s s' → view s !! id = Some r →
  ∃ r', view s' !! id = Some r' ∧ static r' = static r.
Proof.
  intros Hs Hv. pose proof (st_static _ _ _ _ Hs id) as E. rewrite Hv in E.
  destruct (view s' !! id) as [r'|]; [|done]. injection E as E. exists r'. split; [done|]. unfold static. congruence.
Qed.

Lemma step_event O N e s : good s → quiet e → step_with O N s (event_ e s).2.
Proof. intros [G1 G2 G3] He. split; try done. exists [e]. split; [done|by constructor]. Qed.

Lemma step_write id r r' i s : good s → ftr_regs s !! i = Some (id, r) → static r' = static r →
  ∃ s', set_nth_reg i r' s = ((), s') ∧ step (eq id) s s' ∧ view s' !! id = Some r' ∧ evs s' = evs s ∧
    boot_cpu_32bit_regs_overridden s' = boot_cpu_32bit_regs_overridden s.
Proof.
  intros Hg Hl Hs. destruct (set_nth_reg_spec s i id r r' Hg Hl Hs) as (s' & E & Hg' & Hv & Ho & He & Hb).
  assert (view s !! id = Some r) as Hr.
  { unfold view. apply elem_of_list_to_map; [by apply view_NoDup|]. by eapply list_elem_of_lookup_2. }
  exists s'. split; [done|]. split; [|by rewrite Hv, lookup_insert_eq].
  split; [done|..].
  - intros x. rewrite Hv. destruct (decide (x = id)) as [->|Hx].
    + rewrite lookup_insert_eq, Hr. cbn. by rewrite Hs.
    + by rewrite lookup_insert_ne.
  - intros x Hx. by rewrite Hv, lookup_insert_ne.
  - exists []. by rewrite app_nil_r.
  - intros x _. by rewrite Ho.
Qed.

Lemma read_sanitised_spec s n r : good s → view s !! SYSREG n = Some r →
  read_sanitised_ftr_reg (SYSREG n) s = (fr_sys_val r, s).
Proof.
  intros Hg Hv. destruct (get_spec s _ r Hg (sysreg_range n) Hv) as (i & E & _).
  unfold read_sanitised_ftr_reg, mbind, FM_bind. by rewrite E.
Qed.

(** A further CPU and one register. *)
Definition mismatch (r : arm64_ftr_reg) (v boot : Z) : bool :=
  negb (Z.land boot (fr_strict_mask r) =? Z.land v (fr_strict_mask r)).

Lemma check_update_spec s n r v boot : good s → view s !! SYSREG n = Some r →
  ∃ s', check_update_ftr_reg (SYSREG n) v boot s = (mismatch r v boot, s') ∧ step (eq (SYSREG n)) s s' ∧
    view s' !! SYSREG n = Some (update_cpu_ftr_reg r v) ∧ evs s' = evs s.
Proof.
  intros Hg Hv. destruct (get_spec s _ r Hg (sysreg_range n) Hv) as (i & E & Hl).
  destruct (step_write (SYSREG n) r (update_cpu_ftr_reg r v) i s Hg Hl eq_refl) as (s' & Ew & Hst & Hv' & He & _).
  exists s'. split; [|done]. unfold check_update_ftr_reg, mbind, FM_bind. rewrite E, Ew. done.
Qed.

Lemma seek_found p l : Exists (λ f, p f = true) (fields l) → fb_width (seek p l) ≠ 0.
Proof.
  induction l as [|f l IH]; cbn; [by intros Hx%Exists_nil|].
  destruct (Z.eqb_spec (fb_width f) 0) as [Ew|Ew]; [by intros Hx%Exists_nil|].
  intros Hx. destruct (p f) eqn:Ep; [done|]. apply IH. by apply Exists_cons in Hx as [Hx|Hx]; [congruence|].
Qed.

Lemma relax_spec s n r field : good s → view s !! SYSREG n = Some r →
  Exists (λ f, (fb_shift f =? field) = true) (fields (fr_bits r)) →
  step (eq (SYSREG n)) s (relax_cpu_ftr_reg (SYSREG n) field s).2.
Proof.
  intros Hg Hv Hx. destruct (get_spec s _ r Hg (sysreg_range n) Hv) as (i & E & Hl).
  unfold relax_cpu_ftr_reg, mbind, FM_bind. rewrite E.
  apply seek_found, Z.eqb_neq in Hx. rewrite Hx.
  destruct (step_write (SYSREG n) r (set_strict_mask r (Z.land (fr_strict_mask r)
    (not64 (arm64_ftr_mask (seek (λ f, fb_shift f =? field) (fr_bits r)))))) i s Hg Hl eq_refl) as (s' & Ew & Hst & _).
  by rewrite Ew.
Qed.

(** *** Loops *)

Definition ids (l : list (string * string)) : list Z := (λ p, SYSREG p.1) <$> l.
Definition present (s : sys) (l : list (string * string)) : Prop := Forall (λ x, is_Some (view s !! x)) (ids l).

Lemma present_step O N s s' l : step_with O N s s' → present s l → present s' l.
Proof.
  intros Hs Hp. eapply list.Forall_impl; [exact Hp|]. intros x [r Hr].
  destruct (step_present _ _ _ _ _ _ Hs Hr) as (r' & -> & _). by eexists.
Qed.

Lemma step_cons O x l s s1 s' :
  step_with O (eq x) s s1 → step_with O (λ y, y ∈ l) s1 s' → step_with O (λ y, y ∈ x :: l) s s'.
Proof.
  intros H1' H2'. eapply step_trans; (eapply step_weaken; [|eassumption]); cbn.
  - intros ? <-. constructor.
  - intros y Hy. by constructor.
Qed.

Lemma check_update_all_spec info boot l : ∀ taint s, good s → NoDup (ids l) → present s l →
  ∃ s', check_update_all info boot l taint s =
      (taint || existsb (λ p, match view s !! SYSREG p.1 with
                              | Some r => mismatch r (info p.2) (boot p.2) | None => false end) l, s') ∧
    step (λ x, x ∈ ids l) s s' ∧ evs s' = evs s ∧
    ∀ p r, p ∈ l → view s !! SYSREG p.1 = Some r → view s' !! SYSREG p.1 = Some (update_cpu_ftr_reg r (info p.2)).
Proof.
  induction l as [|[n fld] l IH]; intros taint s Hg Hnd Hp.
  { exists s. cbn. rewrite orb_false_r. split; [done|]. split; [by apply step_refl|]. split; [done|].
    by intros p r Hin%elem_of_nil. }
  cbn [ids fmap list_fmap fst] in Hnd. apply NoDup_cons in Hnd as [Hn Hnd].
  pose proof Hp as Hp0. apply List.Forall_cons_iff in Hp as [[r Hr] Hp]. cbn in Hr.
  destruct (check_update_spec s n r (info fld) (boot fld) Hg Hr) as (s1 & E1 & Hst1 & Hv1 & He1).
  destruct (IH (taint || mismatch r (info fld) (boot fld)) s1 (st_good _ _ _ _ Hst1) Hnd) as (s' & E' & Hst & He & Hv).
  { eapply present_step; [exact Hst1|]. exact Hp. }
  exists s'. split; [|split; [|split]].
  - cbn [check_update_all]. unfold mbind, FM_bind. cbn [fst snd] in *. rewrite E1, E'. f_equal. cbn [existsb fst snd].
    rewrite Hr, <- orb_assoc. f_equal. f_equal. apply existsb_ext_in. intros p Hpin.
    rewrite (st_frame _ _ _ _ Hst1); [done|]. intros E. apply Hn. cbn. rewrite E.
    apply list_elem_of_fmap. by exists p.
  - by apply (step_cons _ _ (ids l) s s1).
  - congruence.
  - intros p r' [->|Hin]%elem_of_cons Hr'; cbn [fst snd] in *.
    + rewrite (st_frame _ _ _ _ Hst) by done. congruence.
    + apply Hv; [done|]. rewrite (st_frame _ _ _ _ Hst1); [done|]. intros E. apply Hn. cbn. rewrite E.
      apply list_elem_of_fmap. by exists p.
Qed.

(** *** Recording *)

Lemma mask_land_zero f : field_ok f → (Z.land (arm64_ftr_mask f) 0 =? arm64_ftr_mask f) = false.
Proof.
  intros Hf. apply not_true_iff_false. rewrite covered_land by done. intros Hc.
  pose proof Hf as (?&?&?). specialize (Hc (fb_shift f)). rewrite Z.testbit_0_l in Hc. unfold in_bits in Hc. lia.
Qed.

(** [no_override] stays what it is. *)
Lemma init_reg_none r new : reg_ok r → (init_reg r new zero_override).2 = zero_override.
Proof.
  intros [[Hf _] _]. unfold init_reg, init_fields. cbn [snd].
  assert (∀ l a, Forall field_ok l → ia_override a = zero_override → ia_override (foldl (init_field new) a l) = zero_override) as Hl.
  { induction l as [|f l IH]; intros a Hl Ha; cbn; [done|]. apply List.Forall_cons_iff in Hl as [Hf0 Hl].
    apply IH; [done|]. unfold init_field, apply_override. rewrite Ha. cbn [val mask zero_override].
    by rewrite !mask_land_zero. }
  by apply Hl.
Qed.

Lemma init_reg_static r new o : static (init_reg r new o).1 = static r.
Proof. done. Qed.

Lemma init_spec s n r v : good s → view s !! SYSREG n = Some r →
  ∃ s', init_cpu_ftr_reg (SYSREG n) v s = ((), s') ∧
    step_with (λ x, x = fr_override r ∧ x ≠ None) (eq (SYSREG n)) s s' ∧ evs s' = evs s ∧
    boot_cpu_32bit_regs_overridden s' = boot_cpu_32bit_regs_overridden s ∧
    view s' !! SYSREG n = Some (init_reg r v (ovr s (fr_override r))).1 ∧
    ovr s' (fr_override r) = (init_reg r v (ovr s (fr_override r))).2.
Proof.
  intros Hg Hv. destruct (get_spec s _ r Hg (sysreg_range n) Hv) as (i & E & Hl).
  pose proof (good_regs s Hg _ _ Hv) as Hr.
  unfold init_cpu_ftr_reg, mbind, FM_bind. rewrite E. unfold get_sys.
  pose proof (init_reg_static r v (ovr s (fr_override r))) as Hst.
  pose proof (init_reg_none r v Hr) as Hz.
  destruct (init_reg r v (ovr s (fr_override r))) as [r' o] eqn:Er. cbn [fst snd] in *.
  destruct (step_write (SYSREG n) r r' i s Hg Hl Hst) as (s1 & Ew & Hw & Hv1 & He & Hb). rewrite Ew.
  eexists. split; [reflexivity|]. cbn [ovr evs boot_cpu_32bit_regs_overridden set_ovr].
  assert (∀ x, ¬ (x = fr_override r ∧ x ≠ None) → (if decide (x = fr_override r) then o else ovr s1 x) = ovr s x) as Ho.
  { intros x Hx. rewrite (st_ovr _ _ _ _ Hw x) by intros []. case_decide as Ex; [|done].
    destruct x as [x|]; [by destruct Hx|]. rewrite (good_none s Hg).
    rewrite <- Ex in Er. rewrite (good_none s Hg) in Er. change (Override 0 0) with zero_override in *.
    rewrite Er in Hz. done. }
  split; [|split; [done|]; split; [done|]; split; [exact Hv1|by rewrite decide_True]].
  destruct Hw as [[G1 G2 G3] S F (w & Ew' & Q) O]. split; try done.
  - split; [done..|]. cbn. rewrite Ho; [apply Hg|]. by intros [_ ?].
  - by exists w.
Qed.

(** Overrides of different registers are different objects. *)
Definition separate (s : sys) (l : list (string * string)) : Prop :=
  ∀ i j p q rp rq, l !! i = Some p → l !! j = Some q → i ≠ j →
    view s !! SYSREG p.1 = Some rp → view s !! SYSREG q.1 = Some rq →
    fr_override rp = fr_override rq → fr_override rp = None.

Lemma each_init_spec g l : ∀ s, good s → NoDup (ids l) → present s l → separate s l →
  ∃ s', each (init_from g) l s = ((), s') ∧
    step_with (λ x, x ≠ None ∧ ∃ p r, p ∈ l ∧ view s !! SYSREG p.1 = Some r ∧ x = fr_override r) (λ x, x ∈ ids l) s s' ∧
    evs s' = evs s ∧ boot_cpu_32bit_regs_overridden s' = boot_cpu_32bit_regs_overridden s ∧
    ∀ p r, p ∈ l → view s !! SYSREG p.1 = Some r →
      view s' !! SYSREG p.1 = Some (init_reg r (g p.2) (ovr s (fr_override r))).1 ∧
      ovr s' (fr_override r) = (init_reg r (g p.2) (ovr s (fr_override r))).2.
Proof.
  induction l as [|[n fld] l IH]; intros s Hg Hnd Hp Hsep.
  { exists s. split; [done|]. split; [by apply step_refl|]. split; [done|]. split; [done|]. by intros p r Hin%elem_of_nil. }
  cbn [ids fmap list_fmap fst] in Hnd. apply NoDup_cons in Hnd as [Hn Hnd].
  apply List.Forall_cons_iff in Hp as [[r Hr] Hp]. cbn in Hr.
  assert (∀ p, p ∈ l → SYSREG p.1 ≠ SYSREG n) as Hne.
  { intros p Hin E. apply Hn. cbn. rewrite <- E. apply list_elem_of_fmap. by exists p. }
  destruct (init_spec s n r (g fld) Hg Hr) as (s1 & E1 & Hw & He1 & Hb1 & Hv1 & Ho1).
  assert (∀ p, p ∈ l → view s1 !! SYSREG p.1 = view s !! SYSREG p.1) as Hs1.
  { intros p Hin. apply (st_frame _ _ _ _ Hw). intros E. by apply (Hne p). }
  destruct (IH s1 (st_good _ _ _ _ Hw) Hnd) as (s' & E' & Hst & He & Hb & Hv).
  { eapply present_step; [exact Hw|]. exact Hp. }
  { intros i j p q rp rq Hi Hj Hij Hrp Hrq. rewrite Hs1 in Hrp, Hrq by (by eapply list_elem_of_lookup_2).
    apply (Hsep (S i) (S j) p q rp rq); [done..|lia|done|done]. }
  assert (∀ p rp, p ∈ l → view s !! SYSREG p.1 = Some rp → ovr s1 (fr_override rp) = ovr s (fr_override rp)) as Hov.
  { intros p rp [k Hk]%list_elem_of_lookup Hrp. apply (st_ovr _ _ _ _ Hw). intros [Eo Hno]. apply Hno.
    apply (Hsep (S k) 0%nat p (n, fld) rp r); [done..|lia|done|done|done]. }
  exists s'. split; [|split; [|split; [congruence|split; [congruence|]]]].
  - cbn [each]. unfold mbind, FM_bind, init_from at 1. cbn [fst snd]. rewrite E1. exact E'.
  - apply (step_cons _ _ (ids l) s s1).
    + eapply step_loosen; [|exact Hw]. intros x [-> Hx]. split; [done|]. exists (n, fld), r. by repeat constructor.
    + eapply step_loosen; [|exact Hst]. intros x (Hx & p & rp & Hin & Hrp & ->). split; [done|].
      exists p, rp. rewrite Hs1 in Hrp by done. split; [by constructor|done].
  - intros p rp [->|Hin]%elem_of_cons Hrp; cbn [fst snd] in *.
    + assert (rp = r) as -> by congruence. rewrite (st_frame _ _ _ _ Hst) by done. split; [done|].
      rewrite <- Ho1. destruct (fr_override r) as [k|] eqn:Ek.
      * apply (st_ovr _ _ _ _ Hst). intros (_ & q & rq & [j Hj]%list_elem_of_lookup & Hrq & Eq).
        rewrite Hs1 in Hrq by (by eapply list_elem_of_lookup_2).
        assert (fr_override r = None); [|congruence].
        apply (Hsep 0%nat (S j) (n, fld) q r rq); [done..|congruence].
      * apply (st_ovr _ _ _ _ Hst). by intros [? _].
    + rewrite <- (Hov p rp) by done. apply Hv; [done|]. by rewrite Hs1.
Qed.

End steps.

(** ** The tables of the kernel *)

Section kernel_tables.
Context `{SysregLaws} `{FtrHeaderLaws}.

Lemma tables_nonneg : Forall (λ e, Forall (λ f, 0 ≤ fb_shift f ∧ 0 ≤ fb_width f) (fr_bits e.2)) arm64_ftr_regs.
Proof.
  assert (∀ s, 0 ≤ SYSREG s) as Hs by (intros; apply sysreg_range).
  repeat (constructor; [cbn; repeat (constructor; [cbn; split; auto; lia|]); constructor|]). constructor.
Qed.

Lemma tables_exact : Forall (λ e, Forall exact_ok (fr_bits e.2)) arm64_ftr_regs.
Proof.
  pose proof (sysreg_range "CTR_EL0_L1Ip_VIPT"). pose proof sysreg_vipt.
  repeat (constructor; [cbn; repeat (constructor; [first [by intros E | intros _; unfold in_range; cbn -[Z.pow]; lia]|]); constructor|]).
  constructor.
Qed.

Lemma fields_sub l f : f ∈ fields l → f ∈ l ∧ fb_width f ≠ 0.
Proof.
  induction l as [|g l IH]; cbn; [by intros Hf%elem_of_nil|]. destruct (Z.eqb_spec (fb_width g) 0); [by intros Hf%elem_of_nil|].
  intros [->|Hf]%elem_of_cons; [split; [constructor|done]|]. destruct (IH Hf). split; [by constructor|done].
Qed.

Lemma sort_ok prev l : Forall (λ e : Z * arm64_ftr_reg, e.1 < 2 ^ 31) l →
  sort_ftr_regs_from (Some prev) l = Some [] → ascending prev l.*1 ∧
  Forall (λ e, sort_ftr_bits (fr_name e.2) None (fields (fr_bits e.2)) = []) l.
Proof.
  revert prev. induction l as [|[id r] l IH]; intros prev Hl; cbn; [by intros _|].
  apply List.Forall_cons_iff in Hl as [Hid Hl]. cbn in Hid.
  destruct (Z.leb_spec id prev); [done|]. destruct (sort_ftr_regs_from (Some id) l) as [w|] eqn:E; [|done].
  cbn. intros [= Ew]. apply app_eq_nil in Ew as [Ew ->]. destruct (IH id Hl E) as [Ha Hf].
  split; [split; [lia|done]|by constructor].
Qed.

Definition initial (o : option regid → arm64_ftr_override) : sys := Sys arm64_ftr_regs o [] false.

Lemma initial_good o : o None = zero_override → sort_ftr_regs arm64_ftr_regs = Some [] → good (initial o).
Proof.
  intros Ho Hs.
  assert (Forall (λ e : Z * arm64_ftr_reg, 0 ≤ e.1 < 2 ^ 31) arm64_ftr_regs) as Hr.
  { repeat (constructor; [apply sysreg_range|]). constructor. }
  assert (sort_ftr_regs_from (Some (-1)) arm64_ftr_regs = Some []) as Hs'.
  { revert Hs Hr. unfold sort_ftr_regs. generalize arm64_ftr_regs. intros [|[id r] l]; [done|].
    cbn [sort_ftr_regs_from]. intros Hs Hr. apply List.Forall_cons_iff in Hr as [Hr _]. cbn in Hr.
    by replace (id <=? -1) with false by lia. }
  destruct (sort_ok (-1) arm64_ftr_regs) as [Ha Hf]; [by eapply list.Forall_impl; [exact Hr|]; intros ? []|done|].
  split; [done| |done]. intros id r Hv. apply elem_of_list_to_map_2 in Hv.
  pose proof (proj1 (list.Forall_forall _ _) Hf _ Hv) as Hq. cbn in Hq.
  pose proof (proj1 (list.Forall_forall _ _) tables_nonneg _ Hv) as Hn. cbn in Hn.
  pose proof (proj1 (list.Forall_forall _ _) tables_exact _ Hv) as He. cbn in He.
  split; [|apply list.Forall_forall; intros f [Hin _]%fields_sub; by apply (proj1 (list.Forall_forall _ _) He)].
  eapply (sort_ftr_bits_ok _ None); [|exact Hq]. apply list.Forall_forall. intros f [Hin Hw]%fields_sub.
  pose proof (proj1 (list.Forall_forall _ _) Hn f Hin) as [? ?]. lia.
Qed.

(** *** Names *)

Definition reg_names : list string := (λ e, fr_name e.2) <$> arm64_ftr_regs.
Definition ov_of (n : string) : option regid :=
  (list_to_map ((λ e, (fr_name e.2, fr_override e.2)) <$> arm64_ftr_regs) : gmap string (option regid)) !! n ≫= id.

Lemma arm64_ftr_regs_ids : arm64_ftr_regs.*1 = SYSREG <$> reg_names.
Proof. reflexivity. Qed.

(** The registers are where the array has them, with their tables. *)
Definition placed (s : sys) : Prop :=
  ∀ x r0, (x, r0) ∈ arm64_ftr_regs → ∃ r, view s !! x = Some r ∧ static r = static r0.
Definition ok (s : sys) : Prop := good s ∧ placed s ∧ NoDup (SYSREG <$> reg_names).

Lemma ok_initial o : o None = zero_override → sort_ftr_regs arm64_ftr_regs = Some [] → ok (initial o).
Proof.
  intros Ho Hs. pose proof (initial_good o Ho Hs) as Hg. split; [done|]. split.
  - intros x r0 Hin. exists r0. split; [|done]. apply elem_of_list_to_map; [|done]. apply (view_NoDup _ Hg).
  - rewrite <- arm64_ftr_regs_ids. apply (view_NoDup _ Hg).
Qed.

Lemma ok_step O N s s' : ok s → step_with O N s s' → ok s'.
Proof.
  intros (Hg & Hp & Hn) Hs. split; [apply Hs|]. split; [|done]. intros x r0 Hin.
  destruct (Hp x r0 Hin) as (r & Hr & E). destruct (step_present _ _ _ _ _ _ Hs Hr) as (r' & Hr' & E').
  exists r'. split; [done|congruence].
Qed.

Lemma names_unique i j e e' : arm64_ftr_regs !! i = Some e → arm64_ftr_regs !! j = Some e' →
  fr_name e.2 = fr_name e'.2 → i = j.
Proof.
  assert (NoDup reg_names) as Hnd.
  { refine (bool_decide_unpack (NoDup _) _). vm_compute. exact I. }
  intros Hi Hj E. apply (NoDup_lookup _ i j (fr_name e.2) Hnd); unfold reg_names; rewrite list_lookup_fmap;
    [by rewrite Hi|by rewrite Hj, E].
Qed.

Lemma sysreg_inj s n n' : ok s → n ∈ reg_names → n' ∈ reg_names → SYSREG n = SYSREG n' → n = n'.
Proof.
  intros (_ & _ & Hnd) [i Hi]%list_elem_of_lookup [j Hj]%list_elem_of_lookup E.
  assert (i = j) as <-; [|congruence].
  apply (NoDup_lookup _ i j (SYSREG n) Hnd); rewrite list_lookup_fmap; [by rewrite Hi|by rewrite Hj, E].
Qed.

Lemma named_placed s n : ok s → n ∈ reg_names →
  ∃ r r0, view s !! SYSREG n = Some r ∧ (SYSREG n, r0) ∈ arm64_ftr_regs ∧ fr_name r0 = n ∧ static r = static r0 ∧
    fr_override r = ov_of n.
Proof.
  intros Hok Hin. pose proof Hok as (_ & Hp & _). pose proof Hin as [i Hi]%list_elem_of_lookup.
  unfold reg_names in Hi. rewrite list_lookup_fmap in Hi.
  destruct (arm64_ftr_regs !! i) as [[x r0]|] eqn:El; [|done]. cbn in Hi. injection Hi as Hi.
  assert (x = SYSREG n) as ->.
  { assert (arm64_ftr_regs.*1 !! i = Some x) as Hx by (rewrite list_lookup_fmap, El; done).
    rewrite arm64_ftr_regs_ids, list_lookup_fmap in Hx. unfold reg_names in Hx. rewrite list_lookup_fmap, El in Hx.
    cbn in Hx. congruence. }
  pose proof (list_elem_of_lookup_2 _ _ _ El) as Hel. destruct (Hp _ _ Hel) as (r & Hr & E).
  exists r, r0. split; [done|]. split; [done|]. split; [done|]. split; [done|].
  transitivity (fr_override r0); [unfold static in E; congruence|]. unfold ov_of.
  assert ((list_to_map ((λ e, (fr_name e.2, fr_override e.2)) <$> arm64_ftr_regs) : gmap string (option regid)) !! n
    = Some (fr_override r0)) as ->; [|done].
  apply elem_of_list_to_map.
  - rewrite <- list_fmap_compose. refine (bool_decide_unpack (NoDup _) _). vm_compute. exact I.
  - apply list_elem_of_fmap. exists (SYSREG n, r0). cbn. by rewrite Hi.
Qed.

(** *** Lists of names *)

Definition names_in (l : list (string * string)) : Prop := Forall (λ p, p.1 ∈ reg_names) l.

Lemma ids_not_in s n l : ok s → n ∈ reg_names → names_in l → n ∉ l.*1 → SYSREG n ∉ ids l.
Proof.
  intros Hok Hn Hl Hnl (p & E & Hp)%list_elem_of_fmap. apply Hnl.
  apply (sysreg_inj s) in E as ->; [by apply list_elem_of_fmap_2|done..|].
  by apply (proj1 (list.Forall_forall _ _) Hl).
Qed.

Lemma ids_NoDup s l : ok s → names_in l → NoDup l.*1 → NoDup (ids l).
Proof.
  intros Hok. induction l as [|p l IH]; intros Hl Hnd; [constructor|].
  apply List.Forall_cons_iff in Hl as [Hp Hl]. cbn in Hnd. apply NoDup_cons in Hnd as [Hn Hnd].
  cbn. constructor; [by apply (ids_not_in s)|by apply IH].
Qed.

Lemma present_ok s l : ok s → names_in l → present s l.
Proof.
  intros Hok Hl. apply Forall_fmap. eapply list.Forall_impl; [exact Hl|]. intros p Hp. cbn.
  destruct (named_placed s p.1 Hok Hp) as (r & _ & -> & _). by eexists.
Qed.

Lemma NoDup_omap_sep {A B} (f : A → option B) l i j a b k :
  NoDup (omap f l) → l !! i = Some a → l !! j = Some b → f a = Some k → f b = Some k → i = j.
Proof.
  revert i j. induction l as [|x l IH]; intros i j Hnd Hi Hj Ha Hb; [done|].
  assert (∀ y m, l !! m = Some y → f y = Some k → k ∈ omap f l) as Hin.
  { intros y m Hm Hy. apply list_elem_of_omap. exists y. split; [by eapply list_elem_of_lookup_2|done]. }
  destruct i as [|i], j as [|j]; cbn in Hi, Hj; [done| | |f_equal].
  - injection Hi as ->. cbn in Hnd. rewrite Ha in Hnd. apply NoDup_cons in Hnd as [[] _]. by eapply Hin.
  - injection Hj as ->. cbn in Hnd. rewrite Hb in Hnd. apply NoDup_cons in Hnd as [[] _]. by eapply Hin.
  - apply IH; try done. cbn in Hnd. destruct (f x); [by apply NoDup_cons in Hnd as [_ ?]|done].
Qed.

Lemma separate_ok s l : ok s → names_in l → NoDup (omap (λ p, ov_of p.1) l) → separate s l.
Proof.
  intros Hok Hl Hnd i j p q rp rq Hi Hj Hij Hrp Hrq E.
  assert (∀ x r, x ∈ l → view s !! SYSREG x.1 = Some r → fr_override r = ov_of x.1) as Ho.
  { intros x r Hx Hr. destruct (named_placed s x.1 Hok) as (r' & _ & Hr' & _ & _ & _ & <-); [|congruence].
    by apply (proj1 (list.Forall_forall _ _) Hl). }
  pose proof (Ho p rp (list_elem_of_lookup_2 _ _ _ Hi) Hrp) as Ep.
  pose proof (Ho q rq (list_elem_of_lookup_2 _ _ _ Hj) Hrq) as Eq.
  destruct (fr_override rp) as [k|] eqn:Ek; [|done]. destruct Hij.
  apply (NoDup_omap_sep (λ p, ov_of p.1) l i j p q k); [done..|congruence|congruence].
Qed.

Lemma regs64_names : names_in regs64 ∧ NoDup regs64.*1 ∧ NoDup (omap (λ p, ov_of p.1) regs64).
Proof.
  split; [|split]; [refine (bool_decide_unpack (Forall _ _) _)|refine (bool_decide_unpack (NoDup _) _)..];
    vm_compute; exact I.
Qed.
Lemma regs32_names : names_in regs32 ∧ NoDup regs32.*1 ∧ Forall (λ p, ov_of p.1 = None) regs32.
Proof.
  split; [|split]; [refine (bool_decide_unpack (Forall _ _) _)|refine (bool_decide_unpack (NoDup _) _)|
    refine (bool_decide_unpack (Forall _ _) _)]; vm_compute; exact I.
Qed.
Definition rest : list string := ["SYS_MPAMIDR_EL1"; "SYS_GMID_EL1"].
Lemma rest_names : Forall (λ n, n ∈ reg_names ∧ (n ∉ regs64.*1) ∧ (n ∉ regs32.*1) ∧ ov_of n = None) rest.
Proof. refine (bool_decide_unpack (Forall _ _) _). vm_compute. exact I. Qed.
Lemma regs_apart : Forall (λ n, n ∉ regs32.*1) regs64.*1.
Proof. refine (bool_decide_unpack (Forall _ _) _). vm_compute. exact I. Qed.

(** *** Computations that keep to some registers *)

Definition keeps {A} (N : Z → Prop) (m : FM A) : Prop := ∀ s, ok s → step N s (m s).2.

Lemma keeps_ret {A} N (a : A) : keeps N (mret a : FM A).
Proof. intros s Hs. apply step_refl, Hs. Qed.

Lemma keeps_bind {A B} N (m : FM A) (k : A → FM B) : keeps N m → (∀ a, keeps N (k a)) → keeps N (m ≫= k).
Proof.
  intros Hm Hk s Hs. specialize (Hm s Hs). unfold mbind, FM_bind. destruct (m s) as [a s1]. cbn [snd] in Hm.
  eapply step_trans; [exact Hm|]. apply Hk. by eapply ok_step.
Qed.

Lemma keeps_when N b m : keeps N m → keeps N (when b m).
Proof. intros Hm. destruct b; [done|apply keeps_ret]. Qed.

Lemma keeps_event N e : quiet e → keeps N (event_ e).
Proof. intros He s Hs. apply step_event; [apply Hs|done]. Qed.

Lemma keeps_each {A} N (f : A → FM unit) l : (∀ x, x ∈ l → keeps N (f x)) → keeps N (each f l).
Proof.
  induction l as [|x l IH]; intros Hf; [apply keeps_ret|]. apply (keeps_bind _ (f x) (λ _, each f l)).
  - apply Hf. constructor.
  - intros _. apply IH. intros y Hy. apply Hf. by constructor.
Qed.

Lemma keeps_weaken {A} (N N' : Z → Prop) (m : FM A) : (∀ x, N x → N' x) → keeps N m → keeps N' m.
Proof. intros HN Hm s Hs. eapply step_weaken; [exact HN|by apply Hm]. Qed.

Lemma keeps_read N n : n ∈ reg_names → keeps N (read_sanitised_ftr_reg (SYSREG n)).
Proof.
  intros Hn s Hs. destruct (named_placed s n Hs Hn) as (r & _ & Hr & _).
  rewrite (read_sanitised_spec s n r) by (done || apply Hs). apply step_refl, Hs.
Qed.

Lemma keeps_init n v : n ∈ reg_names → ov_of n = None → keeps (eq (SYSREG n)) (init_cpu_ftr_reg (SYSREG n) v).
Proof.
  intros Hn Ho s Hs. destruct (named_placed s n Hs Hn) as (r & _ & Hr & _ & _ & _ & Eo).
  destruct (init_spec s n r v (proj1 Hs) Hr) as (s' & -> & Hst & _). cbn.
  eapply step_loosen; [|exact Hst]. intros x [-> Hx]. cbn in Hx. congruence.
Qed.

Lemma keeps_check n v b : n ∈ reg_names → keeps (eq (SYSREG n)) (check_update_ftr_reg (SYSREG n) v b).
Proof.
  intros Hn s Hs. destruct (named_placed s n Hs Hn) as (r & _ & Hr & _).
  by destruct (check_update_spec s n r v b (proj1 Hs) Hr) as (s' & -> & Hst & _).
Qed.

End kernel_tables.

(** ** The boot CPU and a further CPU *)

Section cpus.
Context `{SysregLaws} `{FtrHeaderLaws}.
Context (read_mpamidr : Z → Z) (allow_mismatched_32bit_el0 : bool) (system_capabilities_finalized : bool).

Definition in_rest (x : Z) : Prop := ∃ n, n ∈ rest ∧ x = SYSREG n.

Lemma rest_eq n x : n ∈ rest → SYSREG n = x → in_rest x.
Proof. intros Hn <-. by exists n. Qed.
Lemma rest_name n : n ∈ rest → n ∈ reg_names ∧ (n ∉ regs64.*1) ∧ (n ∉ regs32.*1) ∧ ov_of n = None.
Proof. apply (proj1 (list.Forall_forall _ _) rest_names). Qed.
Lemma regs64_name n : n ∈ regs64.*1 → n ∈ reg_names ∧ n ∉ rest.
Proof.
  intros (p & -> & Hp)%list_elem_of_fmap. split.
  - by apply (proj1 (list.Forall_forall _ _) (proj1 regs64_names)).
  - intros (_ & Hn & _)%rest_name. apply Hn. by apply list_elem_of_fmap_2.
Qed.
Lemma regs32_name n : n ∈ regs32.*1 → n ∈ reg_names ∧ (n ∉ rest) ∧ (n ∉ regs64.*1) ∧ ov_of n = None.
Proof.
  intros Hn. pose proof Hn as (p & -> & Hp)%list_elem_of_fmap. split; [|split; [|split]].
  - by apply (proj1 (list.Forall_forall _ _) (proj1 regs32_names)).
  - by intros (_ & _ & ? & _)%rest_name.
  - intros H64. by apply (proj1 (list.Forall_forall _ _) regs_apart) in H64.
  - by apply (proj1 (list.Forall_forall _ _) (proj2 (proj2 regs32_names))).
Qed.

Lemma pfr_names : "SYS_ID_AA64PFR0_EL1" ∈ reg_names ∧ "SYS_ID_AA64PFR1_EL1" ∈ reg_names.
Proof. split; refine (bool_decide_unpack (_ ∈ _) _); vm_compute; exact I. Qed.

Lemma keeps_probe_vec N v c h r m : r ∈ reg_names → keeps N m → keeps N (probe_vec v c h r m).
Proof.
  intros Hr Hm. unfold probe_vec. destruct (IS_ENABLED c); [|apply keeps_ret].
  apply keeps_bind; [by apply keeps_read|]. intros x. apply keeps_when.
  apply keeps_bind; [by apply keeps_event|]. intros _. apply keeps_bind; [done|]. intros _. by apply keeps_event.
Qed.

Lemma keeps_detect N : keeps N detect_ftr_has_mpam.
Proof.
  destruct pfr_names. unfold detect_ftr_has_mpam. apply keeps_bind; [by apply keeps_read|]. intros a.
  apply keeps_bind; [by apply keeps_read|]. intros b. apply keeps_ret.
Qed.

Lemma keeps_gmid N info : keeps N (gmid_el1_accessible info).
Proof. intros s Hs. apply step_refl, Hs. Qed.

Lemma keeps_init_rest n v : n ∈ rest → keeps in_rest (init_cpu_ftr_reg (SYSREG n) v).
Proof.
  intros Hn. destruct (rest_name n Hn) as (? & _ & _ & ?). eapply keeps_weaken; [|by apply keeps_init].
  intros x. by apply rest_eq.
Qed.
Lemma keeps_check_rest n v b : n ∈ rest → keeps in_rest (check_update_ftr_reg (SYSREG n) v b).
Proof.
  intros Hn. destruct (rest_name n Hn) as (? & _ & _ & ?). eapply keeps_weaken; [|by apply keeps_check].
  intros x. by apply rest_eq.
Qed.

Ltac keeping :=
  repeat first
    [ apply keeps_ret | apply keeps_detect | apply keeps_gmid
    | apply keeps_when | by apply keeps_event
    | apply keeps_init_rest; repeat constructor | apply keeps_check_rest; repeat constructor
    | apply keeps_probe_vec; [apply pfr_names|] | apply keeps_read; apply pfr_names
    | match goal with |- keeps _ (if ?b then _ else _) => destruct b end
    | apply keeps_bind; [|intros ?] ].

Lemma keeps_init_optional cpu info : keeps in_rest (init_optional read_mpamidr cpu info).
Proof. unfold init_optional. keeping. Qed.

Lemma keeps_update_vec N : keeps N (update_vec system_capabilities_finalized).
Proof. unfold update_vec. keeping. Qed.

Lemma keeps_update_optional cpu info boot :
  keeps in_rest (update_optional read_mpamidr system_capabilities_finalized cpu info boot).
Proof. unfold update_optional. apply keeps_bind; [apply keeps_update_vec|]. intros _. keeping. Qed.

(** *** What [info] and [boot] become *)

Definition rets {A} (P : A → Prop) (m : FM A) : Prop := ∀ s, P (m s).1.
Lemma rets_bind {A B} (P : B → Prop) (m : FM A) (k : A → FM B) : (∀ a, rets P (k a)) → rets P (m ≫= k).
Proof. intros Hk s. unfold mbind, FM_bind. destruct (m s) as [a s1]. apply Hk. Qed.
Lemma rets_ret {A} (P : A → Prop) a : P a → rets P (mret a : FM A).
Proof. intros Ha s. exact Ha. Qed.

(** Only the field of MPAMIDR changes. *)
Definition same_info (i i' : cpuinfo_arm64) : Prop :=
  (∀ fld, fld ≠ "reg_mpamidr" → reg i' fld = reg i fld) ∧ aarch32 i' = aarch32 i.
Lemma same_info_set v i (b : bool) : same_info i (if b then set_reg_field "reg_mpamidr" v i else i).
Proof. destruct b; [|done]. split; [|done]. intros fld Hf. cbn. by rewrite decide_False. Qed.

Lemma init_optional_info cpu info : rets (same_info info) (init_optional read_mpamidr cpu info).
Proof. unfold init_optional. repeat (apply rets_bind; intros ?). apply rets_ret, same_info_set. Qed.
Lemma update_optional_info cpu info boot :
  rets (λ p, same_info info p.2) (update_optional read_mpamidr system_capabilities_finalized cpu info boot).
Proof. unfold update_optional. repeat (apply rets_bind; intros ?). apply rets_ret, same_info_set. Qed.

(** *** The 32-bit registers *)

Lemma relaxed_fields s n fld r : ok s → (n, fld) ∈ relaxed → view s !! SYSREG n = Some r →
  Exists (λ f, (fb_shift f =? SYSREG fld) = true) (fields (fr_bits r)).
Proof.
  intros Hok Hin Hr.
  assert (∃ i e, arm64_ftr_regs !! i = Some e ∧ fr_name e.2 = n ∧
    Exists (λ f, (fb_shift f =? SYSREG fld) = true) (fields (fr_bits e.2))) as (i & e & Hi & En & Hx).
  { unfold relaxed in Hin. repeat (apply elem_of_cons in Hin as [Hin|Hin]); [..|by apply elem_of_nil in Hin];
      injection Hin as -> ->; [exists 11%nat|exists 1%nat..]; eexists; (split; [reflexivity|]); (split; [reflexivity|]);
      cbn; rewrite !Exists_cons, !Z.eqb_refl; tauto. }
  destruct (named_placed s n Hok) as (r' & r0 & Hr' & H0' & E0 & Est & _).
  { rewrite <- En. apply (list_elem_of_fmap_2 (λ e, fr_name e.2)). by eapply list_elem_of_lookup_2. }
  apply list_elem_of_lookup in H0' as [j Hj]. assert (i = j) as <- by (by apply (names_unique i j e _ Hi Hj); rewrite En).
  assert (r' = r) as -> by congruence. unfold static in Est. replace (fr_bits r) with (fr_bits e.2); [done|].
  rewrite Hi in Hj. injection Hj as ->. cbn. congruence.
Qed.

Lemma relaxed_names p : p ∈ relaxed → p.1 ∈ regs32.*1.
Proof.
  apply (proj1 (list.Forall_forall (λ p, p.1 ∈ regs32.*1) relaxed)). refine (bool_decide_unpack (Forall _ _) _).
  vm_compute. exact I.
Qed.

Definition in32 (x : Z) : Prop := x ∈ ids regs32.
Lemma in32_name n : n ∈ regs32.*1 → in32 (SYSREG n).
Proof. intros (p & -> & Hp)%list_elem_of_fmap. apply list_elem_of_fmap. by exists p. Qed.

Lemma keeps_relax p : p ∈ relaxed → keeps in32 (relax_cpu_ftr_reg (SYSREG p.1) (SYSREG p.2)).
Proof.
  intros Hp s Hs. pose proof (relaxed_names p Hp) as Hn. destruct (regs32_name _ Hn) as [Hnr _].
  destruct (named_placed s p.1 Hs Hnr) as (r & _ & Hr & _). eapply step_weaken; [|apply (relax_spec s p.1 r); [apply Hs|done|]].
  - intros x <-. by apply in32_name.
  - destruct p as [n fld]. by apply (relaxed_fields s n).
Qed.

Lemma init_32_spec g s : ok s → ∃ s', init_32bit_cpu_features g s = ((), s') ∧ step in32 s s' ∧ evs s' = evs s ∧
  ∀ p r, p ∈ regs32 → view s !! SYSREG p.1 = Some r →
    view s' !! SYSREG p.1 = Some (init_reg r (g p.2) zero_override).1.
Proof.
  intros Hok. destruct regs32_names as (Hn & Hnd & Ho).
  assert (∀ p r, p ∈ regs32 → view s !! SYSREG p.1 = Some r → fr_override r = None) as Hov.
  { intros p r Hp Hr. destruct (named_placed s p.1 Hok) as (r' & _ & Hr' & _ & _ & _ & Eo).
    { by apply (proj1 (list.Forall_forall _ _) Hn). }
    pose proof (proj1 (list.Forall_forall _ _) Ho p Hp) as E. cbn in E. congruence. }
  destruct (each_init_spec g regs32 s) as (s' & E & Hst & He & _ & Hv).
  - apply Hok.
  - by apply (ids_NoDup s).
  - by apply present_ok.
  - intros i j p q rp rq Hi _ _ Hrp _ _. apply (Hov p); [by eapply list_elem_of_lookup_2|done].
  - exists s'. split; [exact E|]. split; [|split; [done|]].
    + eapply step_loosen; [|exact Hst]. intros x (Hx & p & r & Hp & Hr & ->). apply Hx. by apply (Hov p).
    + intros p r Hp Hr. destruct (Hv p r Hp Hr) as [-> _]. rewrite (Hov p r Hp Hr).
      by rewrite (good_none s (proj1 Hok)).
Qed.

Lemma keeps_lazy info boot : keeps in32 (lazy_init_32bit_cpu_features allow_mismatched_32bit_el0 info boot).
Proof.
  intros s Hs. unfold lazy_init_32bit_cpu_features.
  destruct (_ || _); [apply step_refl, Hs|]. destruct (id_aa64pfr0_32bit_el0 _); [apply step_refl, Hs|].
  destruct (init_32_spec (aarch32 (CpuInfo (reg boot) (aarch32 info))) s Hs) as (s' & -> & Hst & _). cbn [snd].
  destruct Hst as [[G1 G2 G3] S F E O]. done.
Qed.

Lemma lazy_boot info boot : rets (λ b, reg b = reg boot) (lazy_init_32bit_cpu_features allow_mismatched_32bit_el0 info boot).
Proof. intros s. unfold lazy_init_32bit_cpu_features. by repeat case_match. Qed.

Lemma update_aarch32_boot info boot : rets (λ p, reg p.2 = reg boot) (update_aarch32 allow_mismatched_32bit_el0 info boot).
Proof.
  intros s. unfold update_aarch32. destruct (id_aa64pfr0_32bit_el0 _); [|done]. unfold mbind, FM_bind.
  pose proof (lazy_boot info boot s) as Hb.
  destruct (lazy_init_32bit_cpu_features allow_mismatched_32bit_el0 info boot s) as [b' s1]. cbn [fst] in Hb.
  by destruct (update_32bit_cpu_features (aarch32 info) (aarch32 b') s1).
Qed.

Lemma keeps_check_all32 info boot : keeps in32 (check_update_all info boot regs32 false).
Proof.
  intros s Hs. destruct regs32_names as (Hn & Hnd & _).
  destruct (check_update_all_spec info boot regs32 false s (proj1 Hs)) as (s' & -> & Hst & _);
    [by apply (ids_NoDup s)|by apply present_ok|done].
Qed.

Lemma keeps_update_32 info boot : keeps in32 (update_32bit_cpu_features info boot).
Proof.
  unfold update_32bit_cpu_features. apply keeps_bind; [apply keeps_read, pfr_names|]. intros v.
  apply keeps_bind; [|intros _; apply keeps_check_all32]. apply keeps_when, keeps_each. apply keeps_relax.
Qed.

Lemma keeps_aarch32 info boot : keeps in32 (update_aarch32 allow_mismatched_32bit_el0 info boot).
Proof.
  unfold update_aarch32. destruct (id_aa64pfr0_32bit_el0 _); [|apply keeps_ret].
  apply keeps_bind; [apply keeps_lazy|]. intros b. apply keeps_bind; [apply keeps_update_32|]. intros t. apply keeps_ret.
Qed.

Lemma relax_vals p s x r : ok s → p ∈ relaxed → view s !! x = Some r →
  ∃ r', view (relax_cpu_ftr_reg (SYSREG p.1) (SYSREG p.2) s).2 !! x = Some r' ∧ static r' = static r ∧
    fr_sys_val r' = fr_sys_val r.
Proof.
  intros Hs Hp Hx. destruct (regs32_name _ (relaxed_names p Hp)) as [Hnr _].
  destruct (named_placed s p.1 Hs Hnr) as (q & _ & Hq & _). destruct p as [n fld]. cbn [fst snd] in *.
  destruct (get_spec s _ q (proj1 Hs) (sysreg_range n) Hq) as (i & E & Hl).
  unfold relax_cpu_ftr_reg, mbind, FM_bind. rewrite E. destruct (_ =? 0); [by exists r|].
  match goal with |- context [set_nth_reg i ?w s] => destruct (step_write (SYSREG n) q w i s (proj1 Hs) Hl eq_refl)
    as (s' & -> & Hst & Hv & _) end. cbn [snd].
  destruct (decide (x = SYSREG n)) as [->|Hn].
  - rewrite Hv. eexists. split; [done|]. assert (q = r) as -> by congruence. done.
  - rewrite (st_frame _ _ _ _ Hst) by congruence. by exists r.
Qed.

Lemma each_relax_vals l : ∀ s x r, ok s → (∀ p, p ∈ l → p ∈ relaxed) → view s !! x = Some r →
  ∃ r', view (each (λ p, relax_cpu_ftr_reg (SYSREG p.1) (SYSREG p.2)) l s).2 !! x = Some r' ∧
    static r' = static r ∧ fr_sys_val r' = fr_sys_val r.
Proof.
  induction l as [|p l IH]; intros s x r Hs Hl Hx; [by exists r|]. cbn [each]. unfold mbind, FM_bind.
  assert (p ∈ relaxed) as Hp by (apply Hl; constructor).
  destruct (relax_vals p s x r Hs Hp Hx) as (r1 & Hr1 & E1 & E2). pose proof (keeps_relax p Hp s Hs) as Hk.
  destruct (relax_cpu_ftr_reg (SYSREG p.1) (SYSREG p.2) s) as [u s1]. cbn [snd] in *.
  destruct (IH s1 x r1) as (r' & Hr' & E1' & E2'); [by eapply ok_step|intros q Hq; apply Hl; by constructor|done|].
  exists r'. split; [done|]. split; congruence.
Qed.

(** A 32-bit register after a further CPU, when the boot CPU has AArch32. *)
Lemma aarch32_values info boot s p r : ok s → id_aa64pfr0_32bit_el0 (reg boot "reg_id_aa64pfr0") = true →
  p ∈ regs32 → view s !! SYSREG p.1 = Some r →
  ∃ r', view (update_aarch32 allow_mismatched_32bit_el0 info boot s).2 !! SYSREG p.1 = Some r' ∧ static r' = static r ∧
    fr_sys_val r' = (if id_aa64pfr0_32bit_el0 (reg info "reg_id_aa64pfr0")
                     then fr_sys_val (update_cpu_ftr_reg r (aarch32 info p.2)) else fr_sys_val r).
Proof.
  intros Hs Hb Hp Hr. unfold update_aarch32.
  destruct (id_aa64pfr0_32bit_el0 (reg info "reg_id_aa64pfr0")); [|by exists r].
  unfold mbind, FM_bind at 1, lazy_init_32bit_cpu_features. rewrite Hb.
  assert ((if negb allow_mismatched_32bit_el0 || boot_cpu_32bit_regs_overridden s then (boot, s) else (boot, s)) = (boot, s)) as ->
    by (by destruct (_ || _)).
  destruct pfr_names as [Hn0 _]. destruct (named_placed s _ Hs Hn0) as (r0 & _ & Hr0 & _).
  unfold FM_bind at 1, update_32bit_cpu_features, mbind. unfold FM_bind at 1.
  rewrite (read_sanitised_spec s _ r0) by (done || apply Hs). unfold FM_bind.
  assert (∃ s1 r1, when (negb (id_aa64pfr0_32bit_el1 (fr_sys_val r0)))
      (each (λ p, relax_cpu_ftr_reg (SYSREG p.1) (SYSREG p.2)) relaxed) s = ((), s1) ∧ ok s1 ∧
    view s1 !! SYSREG p.1 = Some r1 ∧ static r1 = static r ∧ fr_sys_val r1 = fr_sys_val r) as (s1 & r1 & -> & Hs1 & Hr1 & E1 & E2).
  { destruct (negb _); cbn [when]; [|by exists s, r].
    destruct (each_relax_vals relaxed s (SYSREG p.1) r Hs) as (r1 & ? & ? & ?); [done..|].
    pose proof (keeps_each in32 (λ p, relax_cpu_ftr_reg (SYSREG p.1) (SYSREG p.2)) relaxed keeps_relax s Hs) as Hk.
    destruct (each _ relaxed s) as [[] s1]. exists s1, r1. split; [done|]. split; [by eapply ok_step|done]. }
  destruct regs32_names as (Hn & Hnd & _).
  destruct (check_update_all_spec (aarch32 info) (aarch32 boot) regs32 false s1 (proj1 Hs1)) as (s' & -> & Hst & _ & Hv);
    [by apply (ids_NoDup s1)|by apply present_ok|].
  eexists. split; [exact (Hv p r1 Hp Hr1)|]. split; [done|]. unfold update_cpu_ftr_reg. cbn.
  unfold static in E1. injection E1 as -> _. by rewrite E2.
Qed.

(** ** All CPUs *)

(** A register holds what is safe on the CPUs seen so far. *)
Definition holds (r : arm64_ftr_reg) (o : arm64_ftr_override) (b : Z) (vs : list Z) : Prop :=
  (∀ f, f ∈ fields (fr_bits r) →
    arm64_ftr_value f (fr_sys_val r) = safe_over f (overridden f o (arm64_ftr_value f b)) (arm64_ftr_value f <$> vs)) ∧
  (∀ k, 0 ≤ k → outside (fields (fr_bits r)) k → Z.testbit (fr_sys_val r) k = false).

Lemma update_fields_high new l k : ∀ x, Forall field_ok l → 64 ≤ k → Z.testbit x k = false →
  Z.testbit (foldl (update_field new) x l) k = false.
Proof.
  induction l as [|f l IH]; intros x Hf Hk Hx; cbn; [done|]. apply List.Forall_cons_iff in Hf as [Hf Hl].
  apply IH; [done..|]. unfold update_field. cbv zeta. destruct (_ =? _); [done|].
  rewrite testbit_set by (done || lia). by replace (k <? 64) with false by lia.
Qed.

Lemma holds_init r b o : reg_ok r → holds (init_reg r b o).1 o b [].
Proof.
  intros [Ht He]. destruct (init_reg_recorded r b o Ht He) as [Hf H0' _ _ _ _ _]. split.
  - intros f Hin. rewrite Hf by done. cbn. rewrite <- join_fold. done.
  - exact H0'.
Qed.

Lemma holds_update r o b vs v : reg_ok r → holds r o b vs → holds (update_cpu_ftr_reg r v) o b (vs ++ [v]).
Proof.
  intros [Ht He] [Hf H0']. split; cbn [update_cpu_ftr_reg set_sys_val fr_sys_val fr_bits].
  - intros f Hin. rewrite update_fields_value, Hf, fmap_app by done. rewrite <- !join_fold, foldl_app. done.
  - intros k Hk Ho. destruct (Z.lt_ge_cases k 64).
    + rewrite update_fields_bits; [by apply H0'|apply Ht|done|done].
    + apply update_fields_high; [apply Ht|done|by apply H0'].
Qed.

Lemma holds_same r r' o b vs : static r' = static r → fr_sys_val r' = fr_sys_val r → holds r o b vs → holds r' o b vs.
Proof. unfold holds, static. intros [= E1 E2] E3. by rewrite E1, E3. Qed.

(** The bits that must match between all CPUs. *)
Definition strict_bit (l : list arm64_ftr_bits) (k : Z) : bool := negb (some_bits (λ f, negb (fb_strict f)) l k).
Definition strict_ok (r : arm64_ftr_reg) : Prop :=
  ∀ k, 0 ≤ k < 64 → Z.testbit (fr_strict_mask r) k = strict_bit (fields (fr_bits r)) k.
Definition varies (l : list arm64_ftr_bits) (a b : Z) : Prop :=
  ∃ k, 0 ≤ k < 64 ∧ strict_bit l k = true ∧ Z.testbit a k ≠ Z.testbit b k.

Lemma varies_mismatch r v b : strict_ok r → varies (fields (fr_bits r)) b v → mismatch r v b = true.
Proof.
  intros Hs (k & Hk & Hb & Hne). unfold mismatch. apply negb_true_iff, Z.eqb_neq. intros E. apply Hne.
  assert (Z.testbit (Z.land b (fr_strict_mask r)) k = Z.testbit (Z.land v (fr_strict_mask r)) k) as E' by congruence.
  rewrite !Z.land_spec, Hs, Hb, !andb_true_r in E' by done. done.
Qed.

(** What user space is given: nothing of a visible field from [user_val], the safe
    constant of a hidden one. *)
Definition user_ok (r : arm64_ftr_reg) : Prop := ∀ k, 0 ≤ k < 64 →
  Z.testbit (fr_user_mask r) k = some_bits fb_visible (fields (fr_bits r)) k ∧
  Z.testbit (fr_user_val r) k =
    match List.find (λ f, in_bits f k) (fields (fr_bits r)) with
    | Some f => if fb_visible f then false else Z.testbit (fb_safe_val f) (k - fb_shift f)
    | None => false
    end.

Definition capable (c : cpuinfo_arm64) : bool := id_aa64pfr0_32bit_el0 (reg c "reg_id_aa64pfr0").

(** The state after the boot CPU [info] and the CPUs [cs]; [boot] is what is stored of
    the boot CPU. *)
Record tracks (o : option regid → arm64_ftr_override) (info : cpuinfo_arm64) (cs : list cpuinfo_arm64)
    (boot : cpuinfo_arm64) (s : sys) : Prop := {
  tr_ok : ok s;
  tr_boot fld : fld ≠ "reg_mpamidr" → reg boot fld = reg info fld;
  tr_quiet : Forall quiet (evs s);
  tr_64 p r : p ∈ regs64 → view s !! SYSREG p.1 = Some r →
    holds r (o (fr_override r)) (reg info p.2) ((λ c, reg c p.2) <$> cs) ∧ strict_ok r ∧ user_ok r ∧
    (∀ f, f ∈ fields (fr_bits r) → same_on f (ovr s (fr_override r))
       (apply_override f (arm64_ftr_value f (reg info p.2)) (o (fr_override r))).2) ∧
    ∀ c, c ∈ cs → varies (fields (fr_bits r)) (reg info p.2) (reg c p.2) → AddTaint ∈ evs s;
  tr_32 p r : capable info = true → p ∈ regs32 → view s !! SYSREG p.1 = Some r →
    holds r zero_override (aarch32 info p.2) ((λ c, aarch32 c p.2) <$> List.filter capable cs)
}.

Lemma not_mpamidr p : p ∈ regs64 → p.2 ≠ "reg_mpamidr".
Proof.
  apply (proj1 (list.Forall_forall (λ p, p.2 ≠ "reg_mpamidr") regs64)). refine (bool_decide_unpack (Forall _ _) _).
  vm_compute. exact I.
Qed.

(** Steps that leave a register of a list alone. *)
Lemma frame64 O N s s' p : (∀ x, N x → in_rest x ∨ in32 x) → ok s → step_with O N s s' → p ∈ regs64 →
  view s' !! SYSREG p.1 = view s !! SYSREG p.1.
Proof.
  intros HN Hs Hst Hp. apply (st_frame _ _ _ _ Hst). assert (p.1 ∈ regs64.*1) as Hp1 by (by apply list_elem_of_fmap_2).
  destruct (regs64_name _ Hp1) as [Hn Hr]. intros [(n & Hin & E)|Hx]%HN.
  - apply (sysreg_inj s) in E; [|done|done|by apply rest_name]. apply Hr. by rewrite E.
  - destruct regs32_names as (Hn32 & _ & _). revert Hx. apply (ids_not_in s); [done..|].
    by apply (proj1 (list.Forall_forall _ _) regs_apart).
Qed.
Lemma frame32 O N s s' p : (∀ x, N x → in_rest x ∨ x ∈ ids regs64) → ok s → step_with O N s s' → p ∈ regs32 →
  view s' !! SYSREG p.1 = view s !! SYSREG p.1.
Proof.
  intros HN Hs Hst Hp. apply (st_frame _ _ _ _ Hst). assert (p.1 ∈ regs32.*1) as Hp1 by (by apply list_elem_of_fmap_2).
  destruct (regs32_name _ Hp1) as (Hn & Hr & H64 & _). intros [(n & Hin & E)|Hx]%HN.
  - apply (sysreg_inj s) in E; [|done|done|by apply rest_name]. apply Hr. by rewrite E.
  - destruct regs64_names as (Hn64 & _ & _). revert Hx. by apply (ids_not_in s).
Qed.

Lemma strict_ok_init r b o : reg_ok r → strict_ok (init_reg r b o).1.
Proof.
  intros [Ht He]. destruct (init_reg_recorded r b o Ht He) as [_ _ Hs _ _ _ (_ & Eb & _)]. intros k Hk.
  rewrite Hs, Eb by done. done.
Qed.

Lemma user_ok_init r b o : reg_ok r → fr_user_val r = 0 → user_ok (init_reg r b o).1.
Proof.
  intros [Ht He] H0'. destruct (init_reg_recorded r b o Ht He) as [_ _ _ Hu Huv _ (_ & Eb & _)]. intros k Hk.
  rewrite Hu, Huv, Eb, H0', Z.testbit_0_l by done. done.
Qed.

Lemma init_tracks o cpu info s : ok s → evs s = [] → map_Forall (λ _ r, fr_user_val r = 0) (view s) → (∀ x, ovr s x = o x) →
  tracks o info [] (init_cpu_features read_mpamidr cpu info s).1 (init_cpu_features read_mpamidr cpu info s).2.
Proof.
  intros Hs Hev Huv Ho. destruct regs64_names as (Hn & Hnd & Hsep).
  destruct (each_init_spec (reg info) regs64 s (proj1 Hs)) as (s1 & E1 & Hst1 & He1 & _ & Hv1);
    [by apply (ids_NoDup s)|by apply present_ok|by apply separate_ok|].
  assert (ok s1) as Hs1 by (by eapply ok_step).
  assert (∃ s2, when (id_aa64pfr0_32bit_el0 (reg info "reg_id_aa64pfr0")) (init_32bit_cpu_features (aarch32 info)) s1 = ((), s2) ∧
    step in32 s1 s2 ∧ (capable info = true → ∀ p r, p ∈ regs32 → view s1 !! SYSREG p.1 = Some r →
      view s2 !! SYSREG p.1 = Some (init_reg r (aarch32 info p.2) zero_override).1)) as (s2 & E2 & Hst2 & Hv2).
  { unfold capable. destruct (id_aa64pfr0_32bit_el0 _); cbn [when].
    - destruct (init_32_spec (aarch32 info) s1 Hs1) as (s2 & E2 & Hst2 & _ & Hv2). by exists s2.
    - exists s1. split; [done|]. split; [apply step_refl, Hs1|done]. }
  assert (init_cpu_features read_mpamidr cpu info s = init_optional read_mpamidr cpu info s2) as ->.
  { unfold init_cpu_features, mbind, FM_bind. by rewrite E1, E2. }
  assert (ok s2) as Hs2 by (by eapply ok_step).
  pose proof (keeps_init_optional cpu info s2 Hs2) as Hst3. pose proof (init_optional_info cpu info s2) as Hi.
  destruct (init_optional read_mpamidr cpu info s2) as [boot s3]. cbn [fst snd] in *. split.
  - exact (ok_step _ _ _ _ Hs2 Hst3).
  - apply Hi.
  - destruct (st_evs _ _ _ _ Hst2) as (w2 & Ew2 & Q2). destruct (st_evs _ _ _ _ Hst3) as (w3 & Ew3 & Q3).
    rewrite Ew3, Ew2, He1, Hev. by apply Forall_app.
  - intros p r3 Hp Hr3. rewrite (frame64 _ in_rest s2 s3 p ltac:(auto) Hs2 Hst3 Hp), (frame64 _ in32 s1 s2 p ltac:(auto) Hs1 Hst2 Hp) in Hr3.
    destruct (named_placed s p.1 Hs) as (r & _ & Hr & _); [by apply (proj1 (list.Forall_forall _ _) Hn)|].
    destruct (Hv1 p r Hp Hr) as [Hr1 Ho1].
    assert (r3 = (init_reg r (reg info p.2) (ovr s (fr_override r))).1) as -> by congruence.
    pose proof (good_regs s (proj1 Hs) _ _ Hr) as Hro. rewrite Ho in *.
    split; [by apply holds_init|]. split; [by apply strict_ok_init|]. split; [apply user_ok_init; [done|by apply (Huv _ _ Hr)]|].
    split; [|by intros c Hc%elem_of_nil]. intros f Hf. change (fr_override (init_reg _ _ _).1) with (fr_override r).
    rewrite (st_ovr _ _ _ _ Hst3), (st_ovr _ _ _ _ Hst2), Ho1 by intros []. destruct Hro as [Ht He].
    by destruct (init_reg_recorded r (reg info p.2) (o (fr_override r)) Ht He) as [_ _ _ _ _ Hov _]; apply Hov.
  - intros p r3 Hc Hp Hr3. rewrite (frame32 _ in_rest s2 s3 p ltac:(auto) Hs2 Hst3 Hp) in Hr3.
    destruct (named_placed s1 p.1 Hs1) as (r & _ & Hr & _).
    { by apply (proj1 (list.Forall_forall _ _) (proj1 regs32_names)). }
    rewrite (Hv2 Hc p r Hp Hr) in Hr3. injection Hr3 as <-. apply holds_init. apply (good_regs s1 (proj1 Hs1) _ _ Hr).
Qed.

(** The three stages of a further CPU and the taint. *)
Lemma update_stages cpu c boot s : ok s → ∃ t s1 i' s2 boot' s3,
  update_cpu_features read_mpamidr allow_mismatched_32bit_el0 system_capabilities_finalized cpu c boot s = ((i', boot'), s3) ∧
  step (λ x, x ∈ ids regs64) s s1 ∧ step in_rest s1 s2 ∧ (∃ s2', step in32 s2 s2' ∧
    s2' = (update_aarch32 allow_mismatched_32bit_el0 i' boot s2).2 ∧ view s3 = view s2' ∧ step (λ _, False) s2' s3) ∧
  same_info c i' ∧ reg boot' = reg boot ∧
  t = existsb (λ p, match view s !! SYSREG p.1 with
                    | Some r => mismatch r (reg c p.2) (reg boot p.2) | None => false end) regs64 ∧
  (t = true → AddTaint ∈ evs s3) ∧
  (∀ p r, p ∈ regs64 → view s !! SYSREG p.1 = Some r → view s1 !! SYSREG p.1 = Some (update_cpu_ftr_reg r (reg c p.2))).
Proof.
  intros Hs. destruct regs64_names as (Hn & Hnd & _).
  destruct (check_update_all_spec (reg c) (reg boot) regs64 false s (proj1 Hs)) as (s1 & E1 & Hst1 & _ & Hv1);
    [by apply (ids_NoDup s)|by apply present_ok|].
  assert (ok s1) as Hs1 by (by eapply ok_step).
  pose proof (keeps_update_optional cpu c boot s1 Hs1) as Hst2. pose proof (update_optional_info cpu c boot s1) as Hi.
  destruct (update_optional read_mpamidr system_capabilities_finalized cpu c boot s1) as [[t1 i'] s2] eqn:E2. cbn [fst snd] in *.
  assert (ok s2) as Hs2 by (exact (ok_step _ _ _ _ Hs1 Hst2)).
  pose proof (keeps_aarch32 i' boot s2 Hs2) as Hst3. pose proof (update_aarch32_boot i' boot s2) as Hb.
  destruct (update_aarch32 allow_mismatched_32bit_el0 i' boot s2) as [[t2 boot'] s2'] eqn:E3. cbn [fst snd] in *.
  set (t := existsb _ regs64) in *.
  set (m := when (false || t || t1 || t2) (event_ AddTaint)).
  assert (ok s2') as Hs2' by (exact (ok_step _ _ _ _ Hs2 Hst3)).
  exists t, s1, i', s2, boot', (m s2').2. split; [|split; [done|]; split; [done|]; split; [|split; [done|]; split; [done|]; split; [done|]; split; [|done]]].
  - unfold update_cpu_features, mbind, FM_bind. rewrite E1, E2, E3. unfold m. by destruct (when _ _ s2').
  - exists s2'. split; [done|]. rewrite E3. split; [done|]. unfold m.
    destruct (false || t || t1 || t2); cbn [when]; (split; [done|]); [by apply step_event; [apply Hs2'|]|apply step_refl, Hs2'].
  - intros Ht. unfold m. rewrite Ht. cbn [orb when event_ snd evs]. apply elem_of_app. right. constructor.
Qed.

Lemma update_tracks o info cs boot s cpu c i' boot' s' :
  update_cpu_features read_mpamidr allow_mismatched_32bit_el0 system_capabilities_finalized cpu c boot s = ((i', boot'), s') →
  tracks o info cs boot s → tracks o info (cs ++ [c]) boot' s'.
Proof.
  intros E [Hs Hb Hq H64 H32].
  destruct (update_stages cpu c boot s Hs) as (t & s1 & j & s2 & b' & s3 & E' & Hst1 & Hst2 & (s2' & Hst3 & E2' & Ev & Hst4) &
    Hi & Hb' & Et & Htaint & Hv1).
  rewrite E in E'. injection E' as <- <- <-.
  pose proof (ok_step _ _ _ _ Hs Hst1) as Hs1. pose proof (ok_step _ _ _ _ Hs1 Hst2) as Hs2.
  pose proof (ok_step _ _ _ _ Hs2 Hst3) as Hs2'. pose proof (ok_step _ _ _ _ Hs2' Hst4) as Hs'.
  assert (∃ w, evs s' = evs s ++ w ∧ Forall quiet w) as (w & Ew & Qw).
  { destruct (st_evs _ _ _ _ Hst1) as (w1 & W1 & Q1). destruct (st_evs _ _ _ _ Hst2) as (w2 & W2 & Q2).
    destruct (st_evs _ _ _ _ Hst3) as (w3 & W3 & Q3). destruct (st_evs _ _ _ _ Hst4) as (w4 & W4 & Q4).
    exists (w1 ++ w2 ++ w3 ++ w4). rewrite W4, W3, W2, W1, !app_assoc. split; [done|]. by rewrite !Forall_app. }
  split.
  - done.
  - intros fld Hf. rewrite Hb'. by apply Hb.
  - rewrite Ew. by apply Forall_app.
  - intros p r' Hp Hr'. rewrite Ev, (frame64 _ in32 s2 s2' p ltac:(auto) Hs2 Hst3 Hp),
      (frame64 _ in_rest s1 s2 p ltac:(auto) Hs1 Hst2 Hp) in Hr'.
    destruct (named_placed s p.1 Hs) as (r & _ & Hr & _).
    { by apply (proj1 (list.Forall_forall _ _) (proj1 regs64_names)). }
    rewrite (Hv1 p r Hp Hr) in Hr'. injection Hr' as <-. destruct (H64 p r Hp Hr) as (Hh & Hso & Huo & Hov & Ht).
    pose proof (good_regs s (proj1 Hs) _ _ Hr) as Hro. rewrite fmap_app. split; [by apply holds_update|].
    split; [done|]. split; [done|]. split.
    { intros f Hf. change (fr_override (update_cpu_ftr_reg r (reg c p.2))) with (fr_override r).
      rewrite (st_ovr _ _ _ _ Hst4), (st_ovr _ _ _ _ Hst3), (st_ovr _ _ _ _ Hst2), (st_ovr _ _ _ _ Hst1) by intros [].
      by apply Hov. }
    intros d [Hd|Hd]%elem_of_app Hvar.
    + rewrite Ew. apply elem_of_app. left. by apply (Ht d).
    + apply list_elem_of_singleton in Hd as ->. apply Htaint. rewrite Et. apply List.existsb_exists. exists p.
      split; [by apply list_elem_of_In|]. rewrite Hr. apply varies_mismatch; [done|].
      rewrite Hb by (by apply not_mpamidr). done.
  - intros p r' Hc Hp Hr'. rewrite Ev, E2' in Hr'.
    destruct (named_placed s2 p.1 Hs2) as (r & _ & Hr & _).
    { by apply (proj1 (list.Forall_forall _ _) (proj1 regs32_names)). }
    destruct (aarch32_values i' boot s2 p r Hs2) as (q & Hq' & Eq1 & Eq2); [by rewrite Hb|done|done|].
    rewrite Hq' in Hr'. injection Hr' as <-.
    rewrite (frame32 _ in_rest s1 s2 p ltac:(auto) Hs1 Hst2 Hp),
      (frame32 _ (λ x, x ∈ ids regs64) s s1 p ltac:(auto) Hs Hst1 Hp) in Hr.
    pose proof (H32 p r Hc Hp Hr) as Hh. rewrite List.filter_app, fmap_app. cbn [List.filter].
    destruct Hi as [Hi1 Hi2]. unfold capable at 2. rewrite <- (Hi1 "reg_id_aa64pfr0") by done.
    destruct (id_aa64pfr0_32bit_el0 (reg i' "reg_id_aa64pfr0")).
    + apply (holds_same (update_cpu_ftr_reg r (aarch32 i' p.2))); [done|done|]. rewrite Hi2. apply holds_update; [|done].
      apply (good_regs s (proj1 Hs) _ _ Hr).
    + rewrite app_nil_r. by apply (holds_same r).
Qed.

(** The boot CPU, then the others in some order, each with its number. *)
Definition run_cpus (l : list (Z * cpuinfo_arm64)) (boot : cpuinfo_arm64) (s : sys) : cpuinfo_arm64 * sys :=
  foldl (λ st c, let '((_, boot'), s') := update_cpu_features read_mpamidr allow_mismatched_32bit_el0
                   system_capabilities_finalized c.1 c.2 st.1 st.2 in (boot', s')) (boot, s) l.
Definition system_after (o : option regid → arm64_ftr_override) (boot : Z * cpuinfo_arm64) (l : list (Z * cpuinfo_arm64)) : option sys :=
  '(b, s) ← boot_cpu_features read_mpamidr boot.1 boot.2 (initial o); Some (run_cpus l b s).2.

Lemma run_tracks o info l : ∀ cs boot s, tracks o info cs boot s →
  tracks o info (cs ++ l.*2) (run_cpus l boot s).1 (run_cpus l boot s).2.
Proof.
  induction l as [|c l IH]; intros cs boot s Ht; [by rewrite app_nil_r|].
  unfold run_cpus. cbn [foldl fmap list_fmap fst snd].
  destruct (update_cpu_features read_mpamidr allow_mismatched_32bit_el0 system_capabilities_finalized c.1 c.2 boot s)
    as [[i' b'] s'] eqn:E. fold (run_cpus l b' s'). rewrite cons_middle, app_assoc. apply (IH _ b' s'). by apply (update_tracks o info cs boot s c.1 c.2 i').
Qed.

Lemma system_tracks o boot l : o None = zero_override → sort_ftr_regs arm64_ftr_regs = Some [] →
  ∃ b s, system_after o boot l = Some s ∧ tracks o boot.2 l.*2 b s.
Proof.
  intros Ho Hs. unfold system_after, boot_cpu_features. change (ftr_regs (initial o)) with arm64_ftr_regs. rewrite Hs. cbn [mbind option_bind].
  set (s0 := Sys _ _ _ _). assert (ok s0) as Hok by (exact (ok_initial o Ho Hs)).
  assert (map_Forall (λ _ r, fr_user_val r = 0) (view s0)) as Huv.
  { intros x r Hr%elem_of_list_to_map_2.
    assert (Forall (λ e, fr_user_val e.2 = 0) arm64_ftr_regs) as Hall by (by repeat constructor).
    apply (proj1 (list.Forall_forall _ _) Hall _ Hr). }
  pose proof (init_tracks o boot.1 boot.2 s0 Hok eq_refl Huv (λ _, eq_refl)) as Ht.
  destruct (init_cpu_features read_mpamidr boot.1 boot.2 s0) as [b s1]. cbn [fst snd] in Ht.
  eexists _, _. split; [reflexivity|]. apply (run_tracks _ _ l [] b s1 Ht).
Qed.

(** What the kernel reads as the value of a register of the system. *)
Definition reads_as (s : sys) (n : string) (v : Z) : Prop := read_sanitised_ftr_reg (SYSREG n) s = (v, s).

Lemma value_inj f a b k : field_ok f → arm64_ftr_value f a = arm64_ftr_value f b → in_bits f k = true →
  Z.testbit a k = Z.testbit b k.
Proof.
  intros Hf E Hk. pose proof Hf as (?&?&?). pose proof (ftr_value_mod f a Hf) as Ea. pose proof (ftr_value_mod f b Hf) as Eb.
  rewrite E, Eb in Ea. assert (Z.testbit ((a / 2 ^ fb_shift f) mod 2 ^ fb_width f) (k - fb_shift f) =
    Z.testbit ((b / 2 ^ fb_shift f) mod 2 ^ fb_width f) (k - fb_shift f)) as Et by congruence.
  unfold in_bits in Hk. rewrite !div_mod_bits in Et by lia. replace (k - fb_shift f <? fb_width f) with true in Et by lia.
  by replace (k - fb_shift f + fb_shift f) with k in Et by lia.
Qed.

Lemma overridden_zero f v : field_ok f → overridden f zero_override v = v.
Proof. intros Hf. unfold overridden, apply_override, zero_override. cbn [val mask]. by rewrite !mask_land_zero. Qed.

Lemma filter_snd {A B} (q : B → bool) (l : list (A * B)) : List.filter q l.*2 = (List.filter (λ c, q c.2) l).*2.
Proof. induction l as [|[a b] l IH]; cbn; [done|]. rewrite IH. by destruct (q b). Qed.

(** A register is determined by the values of its fields. *)
Lemma holds_unique r r' o b vs vs' : static r' = static r → reg_ok r → vs ≡ₚ vs' →
  holds r o b vs → holds r' o b vs' → fr_sys_val r = fr_sys_val r'.
Proof.
  intros Est [[Hf _] _] Hp [H1' Z1] [H2' Z2]. unfold static in Est. injection Est as Eb _. rewrite Eb in H2', Z2.
  apply Z.bits_inj'. intros k Hk. destruct (decide (outside (fields (fr_bits r)) k)) as [Ho|Ho]; [by rewrite Z1, Z2|].
  apply not_Forall_Exists in Ho; [|intros ?; apply _]. apply list.Exists_exists in Ho as (f & Hin & Hb).
  apply not_false_iff_true in Hb. apply (value_inj f); [by apply (proj1 (list.Forall_forall _ _) Hf)| |done].
  rewrite H1', H2' by done. apply safe_over_perm. by rewrite Hp.
Qed.

End cpus.

(** C7. The registers the kernel works with are safe on every CPU, whatever the order in
    which the CPUs come up.  If the checks of the tables at boot are silent, then
    after the boot CPU and any list of further CPUs nothing has warned of a missing
    register or field; each field of each 64-bit register has the safe value over all
    CPUs (the minimum, the maximum, the common value or the safe constant, by its type),
    starting from the value of the boot CPU with the override where that is safe; bits
    outside all fields are zero; a CPU that differs from the boot CPU in a bit that must
    match taints the kernel; the order of the CPUs does not change the value.  The 32-bit
    registers are the same over the CPUs that have AArch32, when the boot CPU has it. *)
Theorem cpu_features_safe `{SysregLaws} `{FtrHeaderLaws} read_mpamidr allow finalized o boot cpus :
  o None = zero_override → sort_ftr_regs arm64_ftr_regs = Some [] →
  ∃ s, system_after read_mpamidr allow finalized o boot cpus = Some s ∧ Forall quiet (evs s) ∧
  (∀ p r0, p ∈ regs64 → (SYSREG p.1, r0) ∈ arm64_ftr_regs → ∃ v, reads_as s p.1 v ∧
    (∀ f, f ∈ fields (fr_bits r0) → arm64_ftr_value f v =
      safe_over f (overridden f (o (fr_override r0)) (arm64_ftr_value f (reg boot.2 p.2)))
        ((λ c, arm64_ftr_value f (reg c.2 p.2)) <$> cpus)) ∧
    (∀ k, 0 ≤ k → outside (fields (fr_bits r0)) k → Z.testbit v k = false) ∧
    (∀ c, c ∈ cpus → varies (fields (fr_bits r0)) (reg boot.2 p.2) (reg c.2 p.2) → AddTaint ∈ evs s) ∧
    (∀ cpus' s', cpus ≡ₚ cpus' → system_after read_mpamidr allow finalized o boot cpus' = Some s' → reads_as s' p.1 v)) ∧
  (capable boot.2 = true → ∀ p r0, p ∈ regs32 → (SYSREG p.1, r0) ∈ arm64_ftr_regs → ∃ v, reads_as s p.1 v ∧
    ∀ f, f ∈ fields (fr_bits r0) → arm64_ftr_value f v =
      safe_over f (arm64_ftr_value f (aarch32 boot.2 p.2))
        ((λ c, arm64_ftr_value f (aarch32 c.2 p.2)) <$> List.filter (λ c, capable c.2) cpus)).
Proof.
  intros Ho Hs. destruct (system_tracks read_mpamidr allow finalized o boot cpus Ho Hs) as (b & s & E & [Hok _ Hq H64 H32]).
  exists s. split; [done|]. split; [done|]. pose proof Hok as (Hg & Hp & _). split.
  - intros p r0 Hin Hr0. destruct (Hp _ _ Hr0) as (r & Hr & Est). destruct (H64 p r Hin Hr) as ([Hv Hz] & _ & _ & _ & Ht).
    pose proof Est as Est'. unfold static in Est'. injection Est' as Eb Eo. rewrite Eb in Hv, Hz, Ht. rewrite Eo in Hv.
    exists (fr_sys_val r). split; [by apply read_sanitised_spec|]. split; [|split; [done|split]].
    + intros f Hf. rewrite Hv by done. by rewrite <- !list_fmap_compose.
    + intros c Hc. apply Ht. by apply list_elem_of_fmap_2.
    + intros cpus' s' Hperm E'. destruct (system_tracks read_mpamidr allow finalized o boot cpus' Ho Hs) as (b' & s2 & E2 & [Hok' _ _ H64' _]).
      rewrite E' in E2. injection E2 as <-. pose proof Hok' as (Hg' & Hp' & _). destruct (Hp' _ _ Hr0) as (r' & Hr' & Est').
      destruct (H64' p r' Hin Hr') as (Hh' & _). destruct (H64 p r Hin Hr) as (Hh & _).
      assert (static r' = static r) as Er by congruence. assert (fr_override r' = fr_override r) as Er' by (unfold static in Er; congruence).
      rewrite Er' in Hh'. rewrite (holds_unique r r' _ _ _ _ Er (good_regs s Hg _ _ Hr) (fmap_Permutation _ _ _ (fmap_Permutation snd _ _ Hperm)) Hh Hh').
      by apply read_sanitised_spec.
  - intros Hc p r0 Hin Hr0. destruct (Hp _ _ Hr0) as (r & Hr & Est). destruct (H32 p r Hc Hin Hr) as [Hv _].
    unfold static in Est. injection Est as Eb Eo. rewrite Eb in Hv. exists (fr_sys_val r). split; [by apply read_sanitised_spec|].
    intros f Hf. rewrite Hv, filter_snd, <- !list_fmap_compose by done. rewrite overridden_zero; [done|].
    destruct (good_regs s Hg _ _ Hr) as [[Hok' _] _]. rewrite Eb in Hok'. by apply (proj1 (list.Forall_forall _ _) Hok').
Qed.

(** ** What readers see *)

Section readers.
Context `{SysregLaws} `{FtrHeaderLaws}.

(** The override of a field is accepted: it is the safe one of the two values. *)
Definition accepted (f : arm64_ftr_bits) (o : arm64_ftr_override) (v : Z) : Prop :=
  covered (mask o) f ∧ arm64_ftr_value f (val o) = arm64_ftr_safe_value f (arm64_ftr_value f (val o)) v.
Definition dropped (f : arm64_ftr_bits) (o : arm64_ftr_override) (v : Z) : Prop :=
  blank (mask o) f ∨ (covered (mask o) f ∧ arm64_ftr_value f (val o) ≠ arm64_ftr_safe_value f (arm64_ftr_value f (val o)) v).

Lemma apply_accepted f v o : field_ok f → accepted f o v → (apply_override f v o).2 = o.
Proof.
  intros Hf [Hc E]. unfold apply_override. cbv zeta. rewrite (proj2 (covered_land f (mask o) Hf) Hc).
  rewrite <- E, Z.eqb_refl. by destruct (v =? _).
Qed.

Lemma apply_dropped f v o : field_ok f → dropped f o v → blank (mask (apply_override f v o).2) f.
Proof.
  intros Hf Hd k Hk. pose proof (field_bit_range f k Hf Hk) as Hr. unfold apply_override. cbv zeta.
  destruct (Z.land _ (mask o) =? _) eqn:Ec.
  - destruct Hd as [Hb|[_ Hne]].
    + apply (covered_land f _ Hf) in Ec. specialize (Ec k Hk). specialize (Hb k Hk). congruence.
    + apply Z.eqb_neq in Hne. rewrite Hne. cbn [negb snd mask]. rewrite testbit_drop, Hk by done. apply andb_false_r.
  - destruct Hd as [Hb|[Hc _]]; [|apply (covered_land f _ Hf) in Hc; congruence].
    case_match; cbn [snd mask]; by apply Hb.
Qed.

Definition local_value (x : Z) (o : arm64_ftr_override) : Z :=
  Z.lor (Z.land x (not64 (mask o))) (Z.land (val o) (mask o)).

Lemma local_value_bit x o k : 0 ≤ k < 64 →
  Z.testbit (local_value x o) k = if Z.testbit (mask o) k then Z.testbit (val o) k else Z.testbit x k.
Proof.
  intros Hk. unfold local_value. rewrite Z.lor_spec, !Z.land_spec, testbit_not64 by lia.
  replace (k <? 64) with true by lia. by destruct (Z.testbit (mask o) k), (Z.testbit x k), (Z.testbit (val o) k).
Qed.

Lemma local_value_spec f x o o' v : field_ok f → same_on f o' (apply_override f v o).2 →
  (accepted f o v → arm64_ftr_value f (local_value x o') = arm64_ftr_value f (val o)) ∧
  (dropped f o v → arm64_ftr_value f (local_value x o') = arm64_ftr_value f x).
Proof.
  intros Hf Hs. split.
  - intros Ha. rewrite (apply_accepted f v o Hf Ha) in Hs. apply value_bits; [done|]. intros k Hk.
    pose proof (field_bit_range f k Hf Hk). destruct (Hs k Hk) as [E1 E2], Ha as [Hc _].
    rewrite local_value_bit, E2, Hc by done. done.
  - intros Hd. pose proof (apply_dropped f v o Hf Hd) as Hb. apply value_bits; [done|]. intros k Hk.
    pose proof (field_bit_range f k Hf Hk). destruct (Hs k Hk) as [_ E2].
    by rewrite local_value_bit, E2, Hb by done.
Qed.

Lemma read_local_spec s n r x : ok s → n ∈ regs64.*1 → view s !! SYSREG n = Some r →
  __read_sysreg_by_encoding (λ _, x) (SYSREG n) s = (Some (local_value x (ovr s (fr_override r))), s).
Proof.
  intros Hs Hn Hr. unfold __read_sysreg_by_encoding. rewrite bool_decide_true.
  - destruct (get_spec s _ r (proj1 Hs) (sysreg_range n) Hr) as (i & E & _). unfold mbind, FM_bind. by rewrite E.
  - apply list_elem_of_fmap_2. unfold readable_regs. apply elem_of_app. by right.
Qed.

(** The value user space is given. *)
Lemma user_view r : reg_ok r → user_ok r →
  (∀ f, f ∈ fields (fr_bits r) → fb_visible f = true →
    arm64_ftr_value f (arm64_ftr_reg_user_value r) = arm64_ftr_value f (fr_sys_val r)) ∧
  (∀ f, f ∈ fields (fr_bits r) → fb_visible f = false →
    arm64_ftr_value f (arm64_ftr_reg_user_value r) mod 2 ^ fb_width f = fb_safe_val f mod 2 ^ fb_width f) ∧
  (∀ k, 0 ≤ k < 64 → outside (fields (fr_bits r)) k → Z.testbit (arm64_ftr_reg_user_value r) k = false).
Proof.
  intros [[Hok Hd] _] Hu. rewrite ftr_user_value.
  assert (∀ f k, f ∈ fields (fr_bits r) → in_bits f k = true → List.find (λ g, in_bits g k) (fields (fr_bits r)) = Some f) as Hfind.
  { intros f k. clear Hok Hu. revert Hd. generalize (fields (fr_bits r)). induction 1 as [|g l Hg Hd IH]; intros Hin Hk;
      [by apply elem_of_nil in Hin|]. cbn. apply elem_of_cons in Hin as [->|Hin]; [by rewrite Hk|].
    pose proof (proj1 (list.Forall_forall _ _) Hg f Hin) as Hgf.
    rewrite (in_bits_disjoint f g k); [by apply IH|destruct Hgf; [by right|by left]|done]. }
  split; [|split].
  - intros f Hin Hv. pose proof (proj1 (list.Forall_forall _ _) Hok f Hin) as Hf. apply value_bits; [done|]. intros k Hk.
    pose proof (field_bit_range f k Hf Hk) as Hr. destruct (Hu k Hr) as [E1 E2].
    rewrite Z.lor_spec, Z.land_spec, E1, E2, (Hfind f), Hv, (some_bits_in _ _ f), Hv by done. cbn. apply andb_true_r.
  - intros f Hin Hv. pose proof (proj1 (list.Forall_forall _ _) Hok f Hin) as Hf. pose proof Hf as (?&?&?).
    rewrite ftr_value_mod by done. apply Z.bits_inj'. intros j Hj. rewrite div_mod_bits by lia.
    rewrite <- Z.land_ones, Z.land_spec, Z.testbit_ones by lia.
    destruct (Z.ltb_spec j (fb_width f)); cbn; [|by rewrite !andb_false_r].
    assert (in_bits f (j + fb_shift f) = true) as Hk by (unfold in_bits; lia).
    destruct (Hu (j + fb_shift f)) as [E1 E2]; [lia|].
    rewrite Z.lor_spec, Z.land_spec, E1, E2, (Hfind f), (some_bits_in _ _ f), Hv, andb_false_r, orb_false_r by done.
    replace (0 <=? j) with true by lia. rewrite andb_true_r. f_equal. lia.
  - intros k Hk Ho. destruct (Hu k Hk) as [E1 E2]. rewrite Z.lor_spec, Z.land_spec, E1, E2, some_bits_outside by done.
    destruct (List.find _ _) as [f|] eqn:Ef; [|by rewrite andb_false_r].
    apply List.find_some in Ef as [Hin Hb]. apply list_elem_of_In in Hin.
    rewrite (proj1 (list.Forall_forall _ _) Ho f Hin) in Hb. done.
Qed.

End readers.

(** Readers see the system's view and nothing else.  After the boot CPU and any
    further CPUs: a CPU that reads one of its own registers through the kernel gets the
    override where it was accepted at boot and its own value in a field whose
    override was dropped or never given; a program that reads a register is given
    the sanitised value of the visible fields, the safe constant of the hidden ones and
    zero elsewhere. *)
Theorem cpu_features_views `{SysregLaws} `{FtrHeaderLaws} read_mpamidr allow finalized o boot cpus midr :
  o None = zero_override → sort_ftr_regs arm64_ftr_regs = Some [] →
  ∃ s, system_after read_mpamidr allow finalized o boot cpus = Some s ∧
  ∀ p r0, p ∈ regs64 → (SYSREG p.1, r0) ∈ arm64_ftr_regs →
  (∀ x, ∃ y, __read_sysreg_by_encoding (λ _, x) (SYSREG p.1) s = (Some y, s) ∧
    ∀ f, f ∈ fields (fr_bits r0) → let ov := o (fr_override r0) in let b := arm64_ftr_value f (reg boot.2 p.2) in
      (accepted f ov b → arm64_ftr_value f y = arm64_ftr_value f (val ov)) ∧
      (dropped f ov b → arm64_ftr_value f y = arm64_ftr_value f x)) ∧
  (is_emulated (SYSREG p.1) = true → sys_reg_CRm (SYSREG p.1) ≠ 0 → ∃ u v,
    emulate_sys_reg midr (SYSREG p.1) s = (Ok u, s) ∧ reads_as s p.1 v ∧
    (∀ f, f ∈ fields (fr_bits r0) → if fb_visible f then arm64_ftr_value f u = arm64_ftr_value f v
       else arm64_ftr_value f u mod 2 ^ fb_width f = fb_safe_val f mod 2 ^ fb_width f) ∧
    (∀ k, 0 ≤ k < 64 → outside (fields (fr_bits r0)) k → Z.testbit u k = false)).
Proof.
  intros Ho Hs. destruct (system_tracks read_mpamidr allow finalized o boot cpus Ho Hs) as (b & s & E & [Hok _ _ H64 _]).
  exists s. split; [done|]. pose proof Hok as (Hg & Hp & _). intros p r0 Hin Hr0. destruct (Hp _ _ Hr0) as (r & Hr & Est).
  unfold static in Est. injection Est as Eb Eo. destruct (H64 p r Hin Hr) as (_ & _ & Hu & Hov & _).
  pose proof (good_regs s Hg _ _ Hr) as Hro. rewrite <- Eb, <- Eo. split.
  - intros x. eexists. split; [apply (read_local_spec s p.1 r); [done|by apply list_elem_of_fmap_2|done]|].
    intros f Hf ov b0. apply local_value_spec; [|by apply Hov].
    destruct Hro as [[Hfo _] _]. by apply (proj1 (list.Forall_forall _ _) Hfo).
  - intros He Hc. destruct (user_view r Hro Hu) as (Hv & Hh & Hz). exists (arm64_ftr_reg_user_value r), (fr_sys_val r).
    split; [|split; [by apply read_sanitised_spec|split; [|done]]].
    + unfold emulate_sys_reg. rewrite He. cbn [negb]. apply Z.eqb_neq in Hc. rewrite Hc.
      pose proof (get_nowarn_spec s _ Hg (sysreg_range p.1)) as Hn. rewrite Hr in Hn. destruct Hn as (i & En & _).
      unfold mbind, FM_bind. by rewrite En.
    + intros f Hf. destruct (fb_visible f) eqn:Ev; [by apply Hv|by apply Hh].
Qed.

(** ** Features of the system *)

Section system_features.
Context `{SysregLaws} `{FtrHeaderLaws}.

(** [__ARM64_MAX_POSITIVE]. *)
Definition max_positive (f : arm64_ftr_bits) : Z := (if fb_sign f then BIT (fb_width f - 1) else BIT (fb_width f)) - 1.

(** An entry for a field, with an open upper bound, as [ARM64_CPUID_FIELDS] makes it. *)
Definition field_entry (n : string) (f : arm64_ftr_bits) (min : Z) : cpuid_field :=
  CpuidField n (fb_shift f) (fb_width f) (fb_sign f) min (max_positive f).

Lemma max_positive_value f : field_ok f → arm64_ftr_value f (u64 (Z.shiftl (max_positive f) (fb_shift f))) = max_positive f.
Proof.
  intros Hf. pose proof Hf as (?&?&?).
  assert (in_range f (max_positive f)) as Hr.
  { unfold in_range, max_positive, BIT. rewrite !Z.shiftl_1_l.
    assert (2 ^ fb_width f = 2 * 2 ^ (fb_width f - 1)) as Hp by (rewrite <- Z.pow_succ_r by lia; f_equal; lia).
    assert (0 < 2 ^ (fb_width f - 1)) by (apply Z.pow_pos_nonneg; lia). destruct (fb_sign f); lia. }
  rewrite <- (value_set_same f 0 (max_positive f)) at 2 by done. apply value_bits; [done|]. intros k Hk.
  pose proof (field_bit_range f k Hf Hk). rewrite testbit_set, testbit_u64, Hk, Z.shiftl_spec by (done || lia).
  by replace (k <? 64) with true by lia.
Qed.

Lemma max_positive_top f v : field_ok f → arm64_ftr_value f v ≤ max_positive f.
Proof.
  intros Hf. pose proof (ftr_value_range f v Hf) as Hr. unfold in_range, max_positive, BIT in *. rewrite !Z.shiftl_1_l.
  destruct (fb_sign f); lia.
Qed.

Lemma entry_matches n f min v : field_ok f → fb_width f ≤ 32 →
  cpufeature_matches v (field_entry n f min) = (arm64_ftr_value f (u64 (Z.shiftl min (fb_shift f))) <=? arm64_ftr_value f v).
Proof.
  intros Hf Hw. unfold cpufeature_matches, field_entry. cbn [cf_field_pos cf_field_width cf_sign cf_min_field_value cf_max_field_value].
  rewrite !ftr_extract, max_positive_value by done. rewrite (proj2 (Z.leb_le _ _) (max_positive_top f v Hf)). apply andb_true_r.
Qed.

Lemma foldr_min_lower b l x : x ∈ b :: l → foldr Z.min b l ≤ x.
Proof.
  induction l as [|y l IH]; cbn.
  - intros ->%list_elem_of_singleton. lia.
  - rewrite !elem_of_cons. rewrite elem_of_cons in IH. intros [->|[->|Hx]]; [specialize (IH (or_introl eq_refl))| |specialize (IH (or_intror Hx))]; lia.
Qed.

Lemma overridden_lower f o v : fb_type f = FTR_LOWER_SAFE → overridden f o v ≤ v.
Proof.
  intros Ht. unfold overridden, apply_override. cbv zeta. unfold arm64_ftr_safe_value. rewrite Ht.
  repeat case_match; cbn; lia.
Qed.

End system_features.

(** What the system claims, every CPU has.  When the sanitised registers show a
    feature (an entry of the capability tables with a minimum for a field whose lower
    values are safe), then the register of the boot CPU and of every CPU that came up
    shows it as well. *)
Theorem system_feature_everywhere `{SysregLaws} `{FtrHeaderLaws} read_mpamidr allow finalized o boot cpus s p r0 f min read_sysreg :
  o None = zero_override → sort_ftr_regs arm64_ftr_regs = Some [] →
  system_after read_mpamidr allow finalized o boot cpus = Some s →
  p ∈ regs64 → (SYSREG p.1, r0) ∈ arm64_ftr_regs → f ∈ fields (fr_bits r0) → fb_type f = FTR_LOWER_SAFE → fb_width f ≤ 32 →
  (has_cpuid_feature read_sysreg (field_entry p.1 f min) true s).1 = Some true →
  ∀ c, c ∈ boot :: cpus → cpufeature_matches (reg c.2 p.2) (field_entry p.1 f min) = true.
Proof.
  intros Ho Hs E Hp Hr0 Hf Ht Hw Hsys c Hc.
  destruct (system_tracks read_mpamidr allow finalized o boot cpus Ho Hs) as (b & s2 & E2 & [Hok _ _ H64 _]).
  rewrite E in E2. injection E2 as <-. pose proof Hok as (Hg & Hpl & _). destruct (Hpl _ _ Hr0) as (r & Hr & Est).
  unfold static in Est. injection Est as Eb Eo. destruct (H64 p r Hp Hr) as ([Hv _] & _).
  destruct (good_regs s Hg _ _ Hr) as [[Hfo _] _]. rewrite Eb in Hv, Hfo.
  pose proof (proj1 (list.Forall_forall _ _) Hfo f Hf) as Hfok.
  unfold has_cpuid_feature, read_scoped_sysreg, mbind, FM_bind in Hsys. cbn [cf_sys_reg field_entry] in Hsys.
  rewrite (read_sanitised_spec s p.1 r Hg Hr) in Hsys. cbn in Hsys. injection Hsys as Hsys.
  change (CpuidField p.1 (fb_shift f) (fb_width f) (fb_sign f) min (max_positive f)) with (field_entry p.1 f min) in Hsys.
  rewrite entry_matches in Hsys |- * by done. apply Z.leb_le in Hsys. apply Z.leb_le.
  etransitivity; [exact Hsys|]. rewrite Hv by done. unfold safe_over. rewrite Ht.
  apply elem_of_cons in Hc as [->|Hc].
  - etransitivity; [apply foldr_min_lower; constructor|]. by apply overridden_lower.
  - apply foldr_min_lower. constructor. rewrite <- !list_fmap_compose.
    apply (list_elem_of_fmap_2 (λ c, arm64_ftr_value f (reg c.2 p.2))). done.
Qed.

(** ** A machine *)

#[local] Instance sample : Sysregs := sample_sysregs ["CONFIG_ARM64_SVE"; "CONFIG_ARM64_MTE"].

#[local] Instance sample_laws : SysregLaws.
Proof.
  split; [|reflexivity]. intros n. cbn [SYSREG sample sample_sysregs].
  destruct (sample_map !! n) as [v|] eqn:E; [|cbn; lia]. apply elem_of_list_to_map_2 in E.
  assert (Forall (λ e, 0 ≤ e.2 < 2 ^ 31) sample_constants) as Hall.
  { refine (bool_decide_unpack (Forall _ _) _). vm_compute. exact I. }
  apply (proj1 (list.Forall_forall _ _) Hall _ E).
Qed.

Definition field_value (f : arm64_ftr_bits) (v : Z) : Z :=
  let x := (v / 2 ^ fb_shift f) mod 2 ^ fb_width f in
  if fb_sign f && (2 ^ (fb_width f - 1) <=? x) then x - 2 ^ fb_width f else x.

#[local] Instance sample_header : FtrHeader := {|
  arm64_ftr_mask f := GENMASK (fb_shift f + fb_width f - 1) (fb_shift f);
  arm64_ftr_value := field_value;
  arm64_ftr_reg_user_value r := Z.lor (fr_user_val r) (Z.land (fr_sys_val r) (fr_user_mask r));
  cpuid_feature_extract_field_width v s w g := field_value (FtrBits g false false FTR_EXACT s w 0) v;
  cpuid_feature_extract_unsigned_field_width v s w := field_value (FtrBits false false false FTR_EXACT s w 0) v;
  id_aa64pfr0_32bit_el0 v := v mod 16 =? 2;
  id_aa64pfr0_32bit_el1 v := (v / 16) mod 16 =? 2;
  id_aa64pfr0_sve v := negb ((v / 2 ^ 32) mod 16 =? 0);
  id_aa64pfr1_sme v := negb ((v / 2 ^ 24) mod 16 =? 0);
  id_aa64pfr0_mpam v := negb ((v / 2 ^ 40) mod 16 =? 0);
  id_aa64pfr1_mpamfrac v := negb ((v / 2 ^ 16) mod 16 =? 0);
  sys_reg_Op0 id := Z.land (Z.shiftr id 19) 3;
  sys_reg_Op1 id := Z.land (Z.shiftr id 16) 7;
  sys_reg_CRn id := Z.land (Z.shiftr id 12) 15;
  sys_reg_CRm id := Z.land (Z.shiftr id 8) 15;
  bsearch cmp k l := fst <$> list_find (λ e, cmp k e = 0) l
|}.

#[local] Instance sample_header_laws : FtrHeaderLaws.
Proof.
  split; try done.
  - intros f v (?&Hw&?). cbn. unfold field_value, in_range. cbv zeta.
    assert (2 ^ fb_width f = 2 * 2 ^ (fb_width f - 1)) as Hp by (rewrite <- Z.pow_succ_r by lia; f_equal; lia).
    pose proof (Z.mod_pos_bound (v / 2 ^ fb_shift f) (2 ^ fb_width f) ltac:(lia)).
    destruct (fb_sign f); cbn [andb]; [|lia]. destruct (Z.leb_spec (2 ^ (fb_width f - 1)) ((v / 2 ^ fb_shift f) mod 2 ^ fb_width f)); lia.
  - intros f v (?&Hw&?). cbn. unfold field_value. cbv zeta. destruct (fb_sign f && _).
    + rewrite <- (Z.mod_add _ 1) by lia. rewrite Z.mul_1_l, Z.sub_add. apply Z.mod_mod. lia.
    + apply Z.mod_mod. lia.
  - intros cmp k l i Hb. cbn in Hb. destruct (list_find _ l) as [[j e]|] eqn:El; [|done]. cbn in Hb. injection Hb as <-.
    apply list_find_Some in El as (Hl & Hc & _). by exists e.
  - intros cmp k l _ Hb e He. cbn in Hb. destruct (list_find _ l) as [[j e']|] eqn:El; [done|].
    apply list_find_None in El. by apply (proj1 (list.Forall_forall _ _) El).
Qed.

(** Two clusters: the little cores have fewer features and a different I-cache policy. *)
Definition machine (isar0 pfr0 ctr : Z) : cpuinfo_arm64 := CpuInfo
  (λ n, if decide (n = "reg_id_aa64isar0") then isar0 else if decide (n = "reg_id_aa64pfr0") then pfr0
        else if decide (n = "reg_ctr") then ctr else 0)
  (λ _, 0x11111111).
Definition sample_overrides (x : option regid) : arm64_ftr_override :=
  if decide (x = Some Rpfr0) then Override 0 0xf00000000 else zero_override.

Definition sample_run : option sys :=
  system_after (λ _, 0) false false sample_overrides (0, machine 0x1110 0x100000022 0x80001030)
    [(1, machine 0x2011 0x22 0x80000010); (2, machine 0x1011 0x21 0x80001030)].

Example sample_run_values :
  ((λ s, ((read_sanitised_ftr_reg (SYSREG "SYS_ID_AA64ISAR0_EL1") s).1,
          (read_sanitised_ftr_reg (SYSREG "SYS_CTR_EL0") s).1, bool_decide (AddTaint ∈ evs s))) <$> sample_run)
  = Some (0x1010, 0x80000020, true).
Proof. vm_compute. reflexivity. Qed.

Lemma sample_tables_silent : sort_ftr_regs arm64_ftr_regs = Some [].
Proof. vm_compute. reflexivity. Qed.

Lemma cpu_features_safe_witness : ∃ s, sample_run = Some s ∧ Forall quiet (evs s).
Proof.
  destruct (cpu_features_safe (λ _, 0) false false sample_overrides (0, machine 0x1110 0x100000022 0x80001030)
    [(1, machine 0x2011 0x22 0x80000010); (2, machine 0x1011 0x21 0x80001030)] eq_refl sample_tables_silent)
    as (s & E & Hq & _). exists s. split; [exact E|exact Hq].
Defined.

(** A program reads ID_AA64ISAR0_EL1: it is emulated. *)
Lemma cpu_features_views_witness : ∃ s, sample_run = Some s ∧
  ∃ u, emulate_sys_reg 0 (SYSREG "SYS_ID_AA64ISAR0_EL1") s = (Ok u, s).
Proof.
  destruct (cpu_features_views (λ _, 0) false false sample_overrides (0, machine 0x1110 0x100000022 0x80001030)
    [(1, machine 0x2011 0x22 0x80000010); (2, machine 0x1011 0x21 0x80001030)] 0 eq_refl sample_tables_silent)
    as (s & E & Hv). exists s. split; [exact E|].
  destruct (Hv ("SYS_ID_AA64ISAR0_EL1", "reg_id_aa64isar0") (FtrReg "SYS_ID_AA64ISAR0_EL1" 0 0 0 0 None ftr_id_aa64isar0)) as [_ Hu].
  - refine (bool_decide_unpack (_ ∈ _) _). vm_compute. exact I.
  - apply (list_elem_of_lookup_2 _ 29%nat). reflexivity.
  - destruct Hu as (u & v & E1 & _); [vm_compute; reflexivity|vm_compute; discriminate|]. exists u. exact E1.
Defined.

(** The CRC32 instructions of ID_AA64ISAR0_EL1 on the three CPUs. *)
Definition crc32 : arm64_ftr_bits :=
  ARM64_FTR_BITS FTR_VISIBLE FTR_STRICT FTR_LOWER_SAFE (SYSREG "ID_AA64ISAR0_EL1_CRC32_SHIFT") 4 0.

Lemma system_feature_everywhere_witness : cpufeature_matches 0x2011 (field_entry "SYS_ID_AA64ISAR0_EL1" crc32 1) = true.
Proof.
  destruct sample_run as [s|] eqn:E; [|exfalso; revert E; vm_compute; discriminate].
  assert ((λ s, (has_cpuid_feature (λ _, 0) (field_entry "SYS_ID_AA64ISAR0_EL1" crc32 1) true s).1) <$> sample_run = Some (Some true)) as Hh
    by (vm_compute; reflexivity).
  rewrite E in Hh. injection Hh as Hh.
  apply (system_feature_everywhere (λ _, 0) false false sample_overrides (0, machine 0x1110 0x100000022 0x80001030)
    [(1, machine 0x2011 0x22 0x80000010); (2, machine 0x1011 0x21 0x80001030)] s
    ("SYS_ID_AA64ISAR0_EL1", "reg_id_aa64isar0") (FtrReg "SYS_ID_AA64ISAR0_EL1" 0 0 0 0 None ftr_id_aa64isar0)
    crc32 1 (λ _, 0) eq_refl sample_tables_silent E) with (c := (1, machine 0x2011 0x22 0x80000010)).
  - refine (bool_decide_unpack (_ ∈ _) _). vm_compute. exact I.
  - apply (list_elem_of_lookup_2 _ 29%nat). reflexivity.
  - apply (list_elem_of_lookup_2 _ 10%nat). vm_compute. reflexivity.
  - reflexivity.
  - cbn. lia.
  - exact Hh.
  - do 2 constructor.
Defined.
