(* ===== verification/CpuCaps.v ===== *)
(** * Capabilities of the CPUs of an arm64 system

    sources/asahi--arch__arm64__kernel__cpufeature.c: the table of capabilities, their
    detection on the boot CPU, on the CPUs that come up before the system is final and
    from the sanitised registers, their enabling, the check of a CPU that comes late, the
    capabilities that programs are told of, and the CPUs that can run 32-bit programs.

    The callbacks of a capability are a parameter, [matches], asked on a CPU and for a
    scope.  A CPU that is parked or a kernel that panics does not go on: [Stop]. *)

From Stdlib Require Import ZArith Lia Bool.
From stdpp Require Import base numbers list strings option gmap fin_sets.
From S2P Require Import Prelude CpuFtrTables.

Local Open Scope Z_scope.

(** ** Data *)

Inductive hwcap_type := CAP_HWCAP | CAP_COMPAT_HWCAP | CAP_COMPAT_HWCAP2 | CAP_NONE.
#[export] Instance hwcap_type_eq_dec : EqDecision hwcap_type.
Proof. solve_decision. Defined.

(** [cap_matches] and [cap_cpu_enable] name the callbacks; the empty name is [NULL].
    [cap_match_list] is a list of fields with callbacks, any of which gives the capability. *)
Record arm64_cpu_capabilities := Cap {
  cap_matches : string; capability : Z; cap_type : Z; cap_cpu_enable : string;
  cap_hwcap_type : hwcap_type; cap_hwcap : Z;
  cap_field : cpuid_field; cap_match_list : list (string * cpuid_field)
}.
(** What an initialiser leaves zero. *)
Definition no_name : string := EmptyString.
Definition no_field : cpuid_field := CpuidField no_name 0 0 false 0 0.
Definition cap_enable (c : arm64_cpu_capabilities) : bool := bool_decide (cap_cpu_enable c ≠ no_name).
#[export] Instance cap_eq_dec : EqDecision arm64_cpu_capabilities.
Proof. solve_decision. Defined.

Inductive fate := Dies | Panics.

Inductive cev :=
| WarnInvalid (c : Z) | WarnDuplicate (c : Z) | WarnNoCap (i : nat) | WarnHwcap
| Enable (cpu c : Z) | OfflineDisabled (cpu : Z)
| ApplyBootAlternatives | ApplyAlternativesAll
| CpacrSave (sme : bool) | CpacrRestore (sme : bool).

(** The bitmaps, the array of pointers, and what was done. *)
Record caps := Caps {
  cpucap_ptrs : list (option arm64_cpu_capabilities);
  system_cpucaps : gset Z; boot_cpucaps : gset Z;
  elf_hwcap : gset Z; compat_elf_hwcap : Z; compat_elf_hwcap2 : Z;
  log : list cev
}.

Definition with_ptrs (f : list (option arm64_cpu_capabilities) → list (option arm64_cpu_capabilities)) (s : caps) : caps :=
  Caps (f (cpucap_ptrs s)) (system_cpucaps s) (boot_cpucaps s) (elf_hwcap s) (compat_elf_hwcap s) (compat_elf_hwcap2 s) (log s).
Definition with_system (f : gset Z → gset Z) (s : caps) : caps :=
  Caps (cpucap_ptrs s) (f (system_cpucaps s)) (boot_cpucaps s) (elf_hwcap s) (compat_elf_hwcap s) (compat_elf_hwcap2 s) (log s).
Definition with_boot (f : gset Z → gset Z) (s : caps) : caps :=
  Caps (cpucap_ptrs s) (system_cpucaps s) (f (boot_cpucaps s)) (elf_hwcap s) (compat_elf_hwcap s) (compat_elf_hwcap2 s) (log s).
Definition with_hwcaps (e : gset Z) (c c2 : Z) (s : caps) : caps :=
  Caps (cpucap_ptrs s) (system_cpucaps s) (boot_cpucaps s) e c c2 (log s).
Definition logs (e : cev) (s : caps) : caps :=
  Caps (cpucap_ptrs s) (system_cpucaps s) (boot_cpucaps s) (elf_hwcap s) (compat_elf_hwcap s) (compat_elf_hwcap2 s) (log s ++ [e]).

(** Scopes and flags of asm/cpufeature.h, and what other files tell of the system. *)
Class CapHeader := {
  ARM64_NCAPS : nat;
  SCOPE_LOCAL_CPU : Z; SCOPE_SYSTEM : Z; SCOPE_BOOT_CPU : Z; ARM64_CPUCAP_SCOPE_MASK : Z; SCOPE_ALL : Z;
  cpucap_default_scope : arm64_cpu_capabilities → Z;
  cpucap_match_all_early_cpus : arm64_cpu_capabilities → bool;
  ARM64_CPUCAP_OPTIONAL_FOR_LATE_CPU : Z; ARM64_CPUCAP_PERMITTED_FOR_LATE_CPU : Z; ARM64_CPUCAP_PANIC_ON_CONFLICT : Z;
  KERNEL_HWCAP_CPUID : Z; ARM64_WORKAROUND_1742098 : Z; COMPAT_HWCAP2_AES : Z;
  CONFIG_COMPAT : bool
}.

(** The registers of a CPU and of the system, the limits of KVM and of the address
    spaces, and the checks of other files. *)
Class Machine := {
  read_cpuid : Z → string → Z;
  read_sanitised : string → Z;
  id_aa64pfr0_32bit_el0 : Z → bool;
  verify_cpu_asid_bits : Z → option fate;
  vec_verify_vq_map : Z → bool → bool;
  get_vmid_bits : Z → Z;
  extract_parange : Z → Z;
  id_aa64mmfr0_parange_to_phys_shift : Z → Z;
  get_kvm_ipa_limit : Z;
  CONFIG_KVM : bool;
  system_supports_sve : bool; system_supports_sme : bool; is_hyp_mode_available : bool;
  system_supports_mpam : bool; system_supports_32bit_el0 : bool;
  ID_AA64PFR0_EL1_MPAM_MASK : Z; MPAMIDR_EL1_HAS_HCR : Z; MPAMIDR_EL1_PARTID_MAX : Z; MPAMIDR_EL1_PMG_MAX : Z
}.

Section capabilities.
Context `{CapHeader} `{Machine}.
(** The answer of a callback on a CPU, for a scope. *)
Context (matches : Z → arm64_cpu_capabilities → Z → bool).

Definition cpus_have_cap (c : Z) (s : caps) : bool := bool_decide (c ∈ system_cpucaps s).

(** ** The array of pointers *)

Definition add_cap (c : arm64_cpu_capabilities) (s : caps) : caps :=
  if Z.of_nat ARM64_NCAPS <=? capability c then logs (WarnInvalid (capability c)) s
  else match cpucap_ptrs s !! Z.to_nat (capability c) with
       | Some (Some _) => logs (WarnDuplicate (capability c)) s
       | _ => with_ptrs (insert (Z.to_nat (capability c)) (Some c)) s
       end.
Definition init_cpucap_indirect_list_from_array (l : list arm64_cpu_capabilities) (s : caps) : caps :=
  foldl (λ s c, add_cap c s) s l.
Definition init_cpucap_indirect_list (features errata : list arm64_cpu_capabilities) (s : caps) : caps :=
  init_cpucap_indirect_list_from_array errata (init_cpucap_indirect_list_from_array features s).

(** ** Detection *)

Definition in_scope (c : arm64_cpu_capabilities) (scope_mask : Z) : bool := negb (Z.land (cap_type c) scope_mask =? 0).
Definition has_scope (scope_mask scope : Z) : bool := negb (Z.land scope_mask scope =? 0).

Definition update_cap (cpu scope_mask : Z) (c : arm64_cpu_capabilities) (s : caps) : caps :=
  let match_all := cpucap_match_all_early_cpus c in
  let caps_set := cpus_have_cap (capability c) s in
  let boot_cpu := has_scope scope_mask SCOPE_BOOT_CPU in
  if negb match_all && caps_set then s
  else if match_all && negb caps_set && negb boot_cpu then s
  else if negb (matches cpu c (cpucap_default_scope c)) then
    if match_all then with_system (λ x, x ∖ {[capability c]}) s else s
  else
    let s := with_system (λ x, {[capability c]} ∪ x) s in
    if boot_cpu && in_scope c SCOPE_BOOT_CPU then with_boot (λ x, {[capability c]} ∪ x) s else s.

(** A loop over the indices of the array, for the capabilities in a scope. *)
Definition at_index (i : nat) (scope_mask : Z) (s : caps) : option arm64_cpu_capabilities :=
  c ← cpucap_ptrs s !! i ≫= id; if in_scope c scope_mask then Some c else None.

Definition update_cpu_capabilities (cpu scope_mask : Z) (s : caps) : caps :=
  let scope_mask := Z.land scope_mask ARM64_CPUCAP_SCOPE_MASK in
  foldl (λ s i, match at_index i scope_mask s with Some c => update_cap cpu scope_mask c s | None => s end)
    s (seq 0 ARM64_NCAPS).

(** ** Enabling *)

Definition enable_on (cpu : Z) (c : arm64_cpu_capabilities) (s : caps) : caps :=
  if cap_enable c then logs (Enable cpu (capability c)) s else s.

Definition cpu_enable_non_boot_scope_capabilities (cpu : Z) (s : caps) : caps :=
  let non_boot_scope := Z.land SCOPE_ALL (Z.lnot SCOPE_BOOT_CPU) in
  foldl (λ s i,
    if cpus_have_cap (Z.of_nat i) s then
      match cpucap_ptrs s !! i ≫= id with
      | None => logs (WarnNoCap i) s
      | Some c => if in_scope c non_boot_scope then enable_on cpu c s else s
      end
    else s) s (seq 0 ARM64_NCAPS).

(** [online] is the mask that [stop_machine] runs on. *)
Definition enable_cpu_capabilities (cpu scope_mask : Z) (online : list Z) (s : caps) : caps :=
  let scope_mask := Z.land scope_mask ARM64_CPUCAP_SCOPE_MASK in
  let boot_scope := has_scope scope_mask SCOPE_BOOT_CPU in
  let s := foldl (λ s i, match at_index i scope_mask s with
                         | Some c => if cpus_have_cap (capability c) s && boot_scope then enable_on cpu c s else s
                         | None => s
                         end) s (seq 0 ARM64_NCAPS) in
  if boot_scope then s else foldl (λ s k, cpu_enable_non_boot_scope_capabilities k s) s online.

(** ** A CPU that comes late *)

(** A computation that may stop the CPU or the kernel, with the state it leaves. *)
Inductive outcome := Go (s : caps) | Stop (f : fate) (s : caps).
Definition and_then (k : caps → outcome) (o : outcome) : outcome := match o with Go s => k s | Stop f s => Stop f s end.

Definition cpucap_late_cpu_optional (c : arm64_cpu_capabilities) : bool :=
  negb (Z.land (cap_type c) ARM64_CPUCAP_OPTIONAL_FOR_LATE_CPU =? 0).
Definition cpucap_late_cpu_permitted (c : arm64_cpu_capabilities) : bool :=
  negb (Z.land (cap_type c) ARM64_CPUCAP_PERMITTED_FOR_LATE_CPU =? 0).
Definition cpucap_panic_on_conflict (c : arm64_cpu_capabilities) : bool :=
  negb (Z.land (cap_type c) ARM64_CPUCAP_PANIC_ON_CONFLICT =? 0).

Definition conflict (cpu : Z) (c : arm64_cpu_capabilities) (s : caps) : bool :=
  let cpu_has_cap := matches cpu c SCOPE_LOCAL_CPU in
  if cpus_have_cap (capability c) s then negb cpu_has_cap && negb (cpucap_late_cpu_optional c)
  else cpu_has_cap && negb (cpucap_late_cpu_permitted c).

Definition verify_cap (cpu : Z) (c : arm64_cpu_capabilities) (s : caps) : outcome :=
  if conflict cpu c s then Stop (if cpucap_panic_on_conflict c then Panics else Dies) s
  else Go (if cpus_have_cap (capability c) s then enable_on cpu c s else s).

Definition verify_local_cpu_caps (cpu scope_mask : Z) (s : caps) : outcome :=
  let scope_mask := Z.land scope_mask ARM64_CPUCAP_SCOPE_MASK in
  foldl (λ o i, and_then (λ s, match at_index i scope_mask s with Some c => verify_cap cpu c s | None => Go s end) o)
    (Go s) (seq 0 ARM64_NCAPS).

(** ** What programs are told *)

Definition cpu_set_feature (num : Z) (s : caps) : caps :=
  with_hwcaps ({[num]} ∪ elf_hwcap s) (compat_elf_hwcap s) (compat_elf_hwcap2 s) s.
Definition cpu_have_feature (num : Z) (s : caps) : bool := bool_decide (num ∈ elf_hwcap s).

Definition cap_set_elf_hwcap (c : arm64_cpu_capabilities) (s : caps) : caps :=
  match cap_hwcap_type c with
  | CAP_HWCAP => cpu_set_feature (cap_hwcap c) s
  | CAP_COMPAT_HWCAP =>
      if CONFIG_COMPAT then with_hwcaps (elf_hwcap s) (Z.lor (compat_elf_hwcap s) (u32 (cap_hwcap c))) (compat_elf_hwcap2 s) s
      else logs WarnHwcap s
  | CAP_COMPAT_HWCAP2 =>
      if CONFIG_COMPAT then with_hwcaps (elf_hwcap s) (compat_elf_hwcap s) (Z.lor (compat_elf_hwcap2 s) (u32 (cap_hwcap c))) s
      else logs WarnHwcap s
  | CAP_NONE => logs WarnHwcap s
  end.

Definition cpus_have_elf_hwcap (c : arm64_cpu_capabilities) (s : caps) : bool * caps :=
  match cap_hwcap_type c with
  | CAP_HWCAP => (cpu_have_feature (cap_hwcap c) s, s)
  | CAP_COMPAT_HWCAP =>
      if CONFIG_COMPAT then (negb (Z.land (compat_elf_hwcap s) (u32 (cap_hwcap c)) =? 0), s) else (false, logs WarnHwcap s)
  | CAP_COMPAT_HWCAP2 =>
      if CONFIG_COMPAT then (negb (Z.land (compat_elf_hwcap2 s) (u32 (cap_hwcap c)) =? 0), s) else (false, logs WarnHwcap s)
  | CAP_NONE => (false, logs WarnHwcap s)
  end.

Definition setup_elf_hwcaps (cpu : Z) (hwcaps : list arm64_cpu_capabilities) (s : caps) : caps :=
  foldl (λ s c, if matches cpu c (cpucap_default_scope c) then cap_set_elf_hwcap c s else s)
    (cpu_set_feature KERNEL_HWCAP_CPUID s) hwcaps.

Definition __verify_local_elf_hwcaps (cpu : Z) (hwcaps : list arm64_cpu_capabilities) (s : caps) : outcome :=
  foldl (λ o c, and_then (λ s, let '(have, s) := cpus_have_elf_hwcap c s in
                               if have && negb (matches cpu c SCOPE_LOCAL_CPU) then Stop Dies s else Go s) o)
    (Go s) hwcaps.

Definition verify_local_elf_hwcaps (cpu : Z) (arm64_elf_hwcaps compat_elf_hwcaps : list arm64_cpu_capabilities) (s : caps) : outcome :=
  and_then (λ s, if id_aa64pfr0_32bit_el0 (read_cpuid cpu "ID_AA64PFR0_EL1")
                 then __verify_local_elf_hwcaps cpu compat_elf_hwcaps s else Go s)
    (__verify_local_elf_hwcaps cpu arm64_elf_hwcaps s).

(** [verify_sve_features] and [verify_sme_features]; access is not restored on the way out
    of a CPU that is parked. *)
Definition verify_vec_features (sme : bool) (cpu : Z) (s : caps) : outcome :=
  let s := logs (CpacrSave sme) s in
  if vec_verify_vq_map cpu sme then Stop Dies s else Go (logs (CpacrRestore sme) s).

Definition verify_hyp_capabilities (cpu : Z) (s : caps) : outcome :=
  if negb CONFIG_KVM then Go s
  else if get_vmid_bits (read_cpuid cpu "ID_AA64MMFR1_EL1") <? get_vmid_bits (read_sanitised "SYS_ID_AA64MMFR1_EL1") then Stop Dies s
  else if id_aa64mmfr0_parange_to_phys_shift (extract_parange (read_sanitised "SYS_ID_AA64MMFR0_EL1")) <? get_kvm_ipa_limit
  then Stop Dies s else Go s.

Definition verify_mpam_capabilities (cpu : Z) (s : caps) : outcome :=
  let cpu_pfr0 := read_cpuid cpu "ID_AA64PFR0_EL1" in
  let sys_pfr0 := read_sanitised "SYS_ID_AA64PFR0_EL1" in
  if negb (FIELD_GET ID_AA64PFR0_EL1_MPAM_MASK cpu_pfr0 =? FIELD_GET ID_AA64PFR0_EL1_MPAM_MASK sys_pfr0) then Stop Dies s
  else
    let cpu_idr := read_cpuid cpu "MPAMIDR_EL1" in
    let sys_idr := read_sanitised "SYS_MPAMIDR_EL1" in
    if negb (FIELD_GET MPAMIDR_EL1_HAS_HCR cpu_idr =? FIELD_GET MPAMIDR_EL1_HAS_HCR sys_idr) then Stop Dies s
    else if (u16 (FIELD_GET MPAMIDR_EL1_PARTID_MAX cpu_idr) <? u16 (FIELD_GET MPAMIDR_EL1_PARTID_MAX sys_idr)) ||
            (u16 (FIELD_GET MPAMIDR_EL1_PMG_MAX cpu_idr) <? u16 (FIELD_GET MPAMIDR_EL1_PMG_MAX sys_idr)) then Stop Dies s
    else Go s.

(** The tables of hardware capabilities. *)
Context (arm64_elf_hwcaps compat_elf_hwcaps : list arm64_cpu_capabilities).

Definition only_if (b : bool) (k : caps → outcome) (s : caps) : outcome := if b then k s else Go s.

Definition verify_local_cpu_capabilities (cpu : Z) (s : caps) : outcome :=
  and_then (only_if system_supports_mpam (verify_mpam_capabilities cpu))
  (and_then (only_if is_hyp_mode_available (verify_hyp_capabilities cpu))
  (and_then (only_if system_supports_sme (verify_vec_features true cpu))
  (and_then (only_if system_supports_sve (verify_vec_features false cpu))
  (and_then (verify_local_elf_hwcaps cpu arm64_elf_hwcaps compat_elf_hwcaps)
  (verify_local_cpu_caps cpu (Z.land SCOPE_ALL (Z.lnot SCOPE_BOOT_CPU)) s))))).

Definition check_early_cpu_features (cpu : Z) (s : caps) : outcome :=
  match verify_cpu_asid_bits cpu with
  | Some f => Stop f s
  | None => verify_local_cpu_caps cpu SCOPE_BOOT_CPU s
  end.

(** [finalized] is [system_capabilities_finalized()]. *)
Definition check_local_cpu_capabilities (finalized : bool) (cpu : Z) (s : caps) : outcome :=
  and_then (λ s, if negb finalized then Go (update_cpu_capabilities cpu SCOPE_LOCAL_CPU s)
                 else verify_local_cpu_capabilities cpu s) (check_early_cpu_features cpu s).

(** ** Boot *)

Definition setup_boot_cpu_capabilities (cpu : Z) (s : caps) : caps :=
  let s := update_cpu_capabilities cpu (Z.lor SCOPE_BOOT_CPU SCOPE_LOCAL_CPU) s in
  logs ApplyBootAlternatives (enable_cpu_capabilities cpu SCOPE_BOOT_CPU [] s).

(** [impdef] stands for [init_cpucap_indirect_list_impdef] of another file. *)
Definition setup_boot_cpu_features (cpu : Z) (features errata impdef : list arm64_cpu_capabilities) (s : caps) : caps :=
  setup_boot_cpu_capabilities cpu
    (init_cpucap_indirect_list_from_array impdef (init_cpucap_indirect_list features errata s)).

Definition setup_system_capabilities (cpu : Z) (online : list Z) (s : caps) : caps :=
  let s := update_cpu_capabilities cpu SCOPE_SYSTEM s in
  logs ApplyAlternativesAll (enable_cpu_capabilities cpu (Z.land SCOPE_ALL (Z.lnot SCOPE_BOOT_CPU)) online s).

Definition elf_hwcap_fixup (s : caps) : caps :=
  if CONFIG_COMPAT && cpus_have_cap ARM64_WORKAROUND_1742098 s then
    with_hwcaps (elf_hwcap s) (compat_elf_hwcap s) (Z.land (compat_elf_hwcap2 s) (not32 COMPAT_HWCAP2_AES)) s
  else s.

(** [user_feature_fixup] changes the registers ([CpuFeature.v]), not this state. *)
Definition setup_user_features (cpu : Z) (s : caps) : caps :=
  let s := setup_elf_hwcaps cpu arm64_elf_hwcaps s in
  if system_supports_32bit_el0 then elf_hwcap_fixup (setup_elf_hwcaps cpu compat_elf_hwcaps s) else s.

Definition this_cpu_has_cap (cpu n : Z) (preemptible : bool) (s : caps) : bool :=
  if negb preemptible && (n <? Z.of_nat ARM64_NCAPS) then
    match cpucap_ptrs s !! Z.to_nat n ≫= id with Some c => matches cpu c SCOPE_LOCAL_CPU | None => false end
  else false.
Definition __system_matches_cap (cpu n : Z) (s : caps) : bool :=
  if n <? Z.of_nat ARM64_NCAPS then
    match cpucap_ptrs s !! Z.to_nat n ≫= id with Some c => matches cpu c SCOPE_SYSTEM | None => false end
  else false.

End capabilities.

(** ** CPUs that run 32-bit programs *)

Section mismatched.
Context `{CapHeader} (matches : Z → arm64_cpu_capabilities → Z → bool) (compat_elf_hwcaps : list arm64_cpu_capabilities).
Context (capable32 housekeeping : Z → bool).

(** The mask, the static branch and the CPU that may not go away any more ([None] is -1). *)
Record aarch32 := AArch32 { cpu_32bit_el0_mask : gset Z; arm64_mismatched_32bit_el0 : bool; lucky_winner : option Z }.

(** [any_and] is [cpumask_any_and] with the CPUs that are active. *)
Definition enable_mismatched_32bit_el0 (any_and : gset Z → Z) (cpu : Z) (st : aarch32 * caps) : aarch32 * caps :=
  let '(a, s) := st in
  let cpu_32bit := capable32 cpu && housekeeping cpu in
  let a := if cpu_32bit then AArch32 ({[cpu]} ∪ cpu_32bit_el0_mask a) true (lucky_winner a) else a in
  if Bool.eqb (bool_decide (0 ∈ cpu_32bit_el0_mask a)) cpu_32bit then (a, s)
  else match lucky_winner a with
       | Some _ => (a, s)
       | None =>
           let w := if cpu_32bit then cpu else any_and (cpu_32bit_el0_mask a) in
           (AArch32 (cpu_32bit_el0_mask a) (arm64_mismatched_32bit_el0 a) (Some w),
            elf_hwcap_fixup (setup_elf_hwcaps matches cpu compat_elf_hwcaps (logs (OfflineDisabled w) s)))
       end.

Definition system_32bit_el0_cpumask (supports : bool) (possible : gset Z) (a : aarch32) : gset Z :=
  if negb supports then ∅ else if arm64_mismatched_32bit_el0 a then cpu_32bit_el0_mask a else possible.

Definition runs32 (c : Z) : bool := capable32 c && housekeeping c.

Record masked (l : list Z) (a : aarch32) : Prop := {
  mk_mask c : c ∈ cpu_32bit_el0_mask a ↔ c ∈ l ∧ runs32 c = true;
  mk_branch : arm64_mismatched_32bit_el0 a = bool_decide (cpu_32bit_el0_mask a ≠ ∅);
  mk_winner w : lucky_winner a = Some w → w ∈ cpu_32bit_el0_mask a;
  mk_differ c : c ∈ l → runs32 c ≠ runs32 0 → lucky_winner a ≠ None
}.

Lemma masked_step any_and l x a s : (∀ m, m ≠ ∅ → any_and m ∈ m) → 0 ∈ l ++ [x] →
  masked l a → masked (l ++ [x]) (enable_mismatched_32bit_el0 any_and x (a, s)).1.
Proof.
  intros Hany H0 [Hm Hb Hw Hd]. unfold enable_mismatched_32bit_el0. fold (runs32 x).
  set (a' := if runs32 x then _ else a).
  assert (∀ c, c ∈ cpu_32bit_el0_mask a' ↔ c ∈ l ++ [x] ∧ runs32 c = true) as Hm'.
  { intros c. rewrite elem_of_app, list_elem_of_singleton. unfold a'.
    destruct (runs32 x) eqn:Ex; cbn [cpu_32bit_el0_mask]; rewrite ?elem_of_union, ?elem_of_singleton, Hm; [naive_solver|].
    split; [tauto|]. intros [[Hc| ->] Hr]; [done|congruence]. }
  assert (arm64_mismatched_32bit_el0 a' = bool_decide (cpu_32bit_el0_mask a' ≠ ∅)) as Hb'.
  { unfold a'. destruct (runs32 x); [|done]. cbn. symmetry. apply bool_decide_true. set_solver. }
  assert (lucky_winner a' = lucky_winner a) as Ew by (unfold a'; by destruct (runs32 x)).
  assert (∀ w, lucky_winner a' = Some w → w ∈ cpu_32bit_el0_mask a') as Hw'.
  { intros w. rewrite Ew, Hm'. intros Hl%Hw%Hm. split; [apply elem_of_app; tauto|tauto]. }
  assert (bool_decide (0 ∈ cpu_32bit_el0_mask a') = runs32 0) as E0.
  { apply eq_true_iff_eq. rewrite bool_decide_eq_true, Hm'. tauto. }
  rewrite E0. destruct (Bool.eqb (runs32 0) (runs32 x)) eqn:Eq.
  - apply eqb_prop in Eq. cbn [fst]. split; try done. intros c [Hc|Hc]%elem_of_app Hne; rewrite Ew; [by apply (Hd c)|].
    apply list_elem_of_singleton in Hc as ->. congruence.
  - apply eqb_false_iff in Eq. destruct (lucky_winner a') as [w|] eqn:El; cbn [fst]; [split; rewrite ?El; done|].
    assert ((if runs32 x then x else any_and (cpu_32bit_el0_mask a')) ∈ cpu_32bit_el0_mask a') as Hin.
    { destruct (runs32 x) eqn:Ex; [apply Hm'; split; [apply elem_of_app; right; constructor|done]|].
      apply Hany. destruct (runs32 0) eqn:Er; [|done]. pose proof (bool_decide_eq_true_1 _ E0). set_solver. }
    split; try done. cbn. by intros w' [= <-].
Qed.

(** A CPU that came up is in the mask exactly when it can run 32-bit programs and is not
    isolated; when two CPUs differ in that, one of the mask may not go away. *)
Lemma mismatched_mask any_and l s :
  (∀ m, m ≠ ∅ → any_and m ∈ m) →
  let a := (foldl (λ a c, enable_mismatched_32bit_el0 any_and c a) (AArch32 ∅ false None, s) (0 :: l)).1 in
  (∀ c, c ∈ cpu_32bit_el0_mask a ↔ c ∈ 0 :: l ∧ runs32 c = true) ∧
  ((∃ c, c ∈ l ∧ runs32 c ≠ runs32 0) → ∃ w, lucky_winner a = Some w ∧ w ∈ cpu_32bit_el0_mask a).
Proof.
  intros Hany a.
  assert (masked (0 :: l) a) as [Hm _ Hw Hd].
  { unfold a. clear a. induction l as [|x l IH] using rev_ind.
    - apply (masked_step any_and []); [done|constructor|]. split; cbn; [set_solver|by rewrite bool_decide_false by (by intros [])|done|by intros c Hc%elem_of_nil].
    - rewrite app_comm_cons, foldl_snoc. destruct (foldl _ _ (0 :: l)) as [a s'].
      apply masked_step; [done|constructor|done]. }
  split; [done|]. intros (c & Hc & Hne). assert (lucky_winner a ≠ None) as Hn by (apply (Hd c); [by constructor|done]).
  destruct (lucky_winner a) as [w|]; [|done]. exists w. split; [done|]. by apply Hw.
Qed.

End mismatched.

(** ** Detection, exactly *)

(** As asm/cpufeature.h has them. *)
Class CapLaws `{CapHeader} : Prop := {
  scope_bits : SCOPE_LOCAL_CPU = BIT 0 ∧ SCOPE_SYSTEM = BIT 1 ∧ SCOPE_BOOT_CPU = BIT 2;
  scope_mask_all : ARM64_CPUCAP_SCOPE_MASK = 7 ∧ SCOPE_ALL = ARM64_CPUCAP_SCOPE_MASK
}.

(** The pointers stand at the index of their capability. *)
Definition indexed (P : list (option arm64_cpu_capabilities)) : Prop :=
  ∀ i c, P !! i = Some (Some c) → capability c = Z.of_nat i.

Section detection.
Context `{CapLaws} `{Machine}.
Context (matches : Z → arm64_cpu_capabilities → Z → bool).

Definition mem (s : caps) (i : nat) : bool := cpus_have_cap (Z.of_nat i) s.

Lemma add_cap_indexed c s : 0 ≤ capability c → indexed (cpucap_ptrs s) → indexed (cpucap_ptrs (add_cap c s)).
Proof.
  intros Hc Hi. unfold add_cap. destruct (_ <=? _); [done|].
  assert (indexed (<[Z.to_nat (capability c) := Some c]> (cpucap_ptrs s))) as Hn.
  { intros i c' Hl. destruct (decide (i = Z.to_nat (capability c))) as [->|Hne].
    - apply list_lookup_insert_Some in Hl as [(_ & E & _)|[? _]]; [|done]. injection E as <-. lia.
    - rewrite list_lookup_insert_ne in Hl by done. by apply Hi. }
  by destruct (cpucap_ptrs s !! _) as [[|]|].
Qed.

(** The first table wins: a capability keeps its first entry. *)
Lemma add_cap_kept c s i d : cpucap_ptrs s !! i = Some (Some d) → cpucap_ptrs (add_cap c s) !! i = Some (Some d).
Proof.
  intros Hi. unfold add_cap. destruct (_ <=? _); [done|].
  destruct (cpucap_ptrs s !! Z.to_nat (capability c)) as [[e|]|] eqn:E; cbn; [done|..];
    (rewrite list_lookup_insert_ne; [done|]; intros <-; congruence).
Qed.

(** What one pass does to the bit of a capability. *)
Definition upd_bit (cpu : Z) (boot : bool) (c : arm64_cpu_capabilities) (b : bool) : bool :=
  let m := matches cpu c (cpucap_default_scope c) in
  if cpucap_match_all_early_cpus c then (b || boot) && m else b || m.

Lemma mem_insert s i k : mem (with_system (λ x, {[Z.of_nat k]} ∪ x) s) i = bool_decide (i = k) || mem s i.
Proof.
  unfold mem, cpus_have_cap. cbn. apply eq_true_iff_eq. rewrite orb_true_iff, !bool_decide_eq_true, elem_of_union, elem_of_singleton.
  split; (intros [E|E]; [left; lia|by right]).
Qed.
Lemma mem_delete s i k : mem (with_system (λ x, x ∖ {[Z.of_nat k]}) s) i = negb (bool_decide (i = k)) && mem s i.
Proof.
  unfold mem, cpus_have_cap. cbn. apply eq_true_iff_eq.
  rewrite andb_true_iff, negb_true_iff, bool_decide_eq_false, !bool_decide_eq_true, elem_of_difference, elem_of_singleton.
  split; intros [A B]; (split; [|]); try done; lia.
Qed.

Lemma update_cap_spec cpu scope_mask c s k : capability c = Z.of_nat k →
  let s' := update_cap matches cpu scope_mask c s in
  cpucap_ptrs s' = cpucap_ptrs s ∧ log s' = log s ∧
  ∀ i, mem s' i = if decide (i = k) then upd_bit cpu (has_scope scope_mask SCOPE_BOOT_CPU) c (mem s i) else mem s i.
Proof.
  intros Hk. unfold update_cap, upd_bit. rewrite Hk. fold (mem s k). cbv zeta.
  set (m := matches cpu c _). set (boot := has_scope _ _). set (ma := cpucap_match_all_early_cpus c).
  assert (∀ t : caps, cpucap_ptrs (if boot && in_scope c SCOPE_BOOT_CPU then with_boot (λ x, {[Z.of_nat k]} ∪ x) t else t) = cpucap_ptrs t ∧
    log (if boot && in_scope c SCOPE_BOOT_CPU then with_boot (λ x, {[Z.of_nat k]} ∪ x) t else t) = log t ∧
    ∀ i, mem (if boot && in_scope c SCOPE_BOOT_CPU then with_boot (λ x, {[Z.of_nat k]} ∪ x) t else t) i = mem t i) as Hboot.
  { intros t. by destruct (boot && in_scope c SCOPE_BOOT_CPU). }
  destruct ma, (mem s k) eqn:Es, boot eqn:Eb, m; cbn [negb andb orb];
    rewrite ?(proj1 (Hboot _)), ?(proj1 (proj2 (Hboot _))); (split; [done|]); (split; [done|]); intros i;
    rewrite ?(proj2 (proj2 (Hboot _))), ?mem_insert, ?mem_delete;
    destruct (decide (i = k)) as [->|Hne]; rewrite ?bool_decide_true, ?bool_decide_false by done; cbn; rewrite ?Es; done.
Qed.

(** The bit after a pass over the capabilities of a scope. *)
Definition pass_bit (cpu scope_mask : Z) (P : list (option arm64_cpu_capabilities)) (i : nat) (b : bool) : bool :=
  match P !! i ≫= id with
  | Some c => if in_scope c scope_mask then upd_bit cpu (has_scope scope_mask SCOPE_BOOT_CPU) c b else b
  | None => b
  end.

Lemma ptr_indexed P i c : indexed P → P !! i ≫= id = Some c → capability c = Z.of_nat i.
Proof. intros Hi E. apply Hi. by destruct (P !! i) as [[]|]; cbn in E; simplify_eq. Qed.

Lemma update_step cpu scope_mask i s : indexed (cpucap_ptrs s) →
  let s' := match at_index i scope_mask s with Some c => update_cap matches cpu scope_mask c s | None => s end in
  cpucap_ptrs s' = cpucap_ptrs s ∧ log s' = log s ∧
  ∀ j, mem s' j = if decide (j = i) then pass_bit cpu scope_mask (cpucap_ptrs s) i (mem s i) else mem s j.
Proof.
  intros Hx. unfold at_index, pass_bit. destruct (cpucap_ptrs s !! i ≫= id) as [c|] eqn:E; cbn.
  - destruct (in_scope c scope_mask).
    + destruct (update_cap_spec cpu scope_mask c s i (ptr_indexed _ _ _ Hx E)) as (E1 & E2 & E3).
      split; [done|]. split; [done|]. intros j. rewrite E3. by destruct (decide (j = i)) as [->|].
    + split; [done|]. split; [done|]. intros j. by destruct (decide (j = i)) as [->|].
  - split; [done|]. split; [done|]. intros j. by destruct (decide (j = i)) as [->|].
Qed.

Lemma update_loop cpu scope_mask l : ∀ s, NoDup l → indexed (cpucap_ptrs s) →
  let s' := foldl (λ s i, match at_index i scope_mask s with Some c => update_cap matches cpu scope_mask c s | None => s end) s l in
  cpucap_ptrs s' = cpucap_ptrs s ∧ log s' = log s ∧
  ∀ j, mem s' j = if decide (j ∈ l) then pass_bit cpu scope_mask (cpucap_ptrs s) j (mem s j) else mem s j.
Proof.
  induction l as [|i l IH]; intros s Hnd Hx; cbn [foldl].
  { split; [done|]. split; [done|]. intros j. by rewrite decide_False by (by intros ?%elem_of_nil). }
  apply NoDup_cons in Hnd as [Hn Hnd]. destruct (update_step cpu scope_mask i s Hx) as (E1 & E2 & E3). cbv zeta in E1, E2, E3.
  set (s1 := match at_index i scope_mask s with Some c => update_cap matches cpu scope_mask c s | None => s end) in *.
  destruct (IH s1 Hnd) as (F1 & F2 & F3); [by rewrite E1|]. split; [congruence|]. split; [congruence|].
  intros j. rewrite F3, E1, !E3. destruct (decide (j = i)) as [->|Hne].
  - rewrite (decide_False (P := i ∈ l)) by done. rewrite decide_True by (rewrite elem_of_cons; tauto). done.
  - destruct (decide (j ∈ l)); [rewrite decide_True by (rewrite elem_of_cons; tauto); done|].
    rewrite decide_False by (rewrite elem_of_cons; tauto). done.
Qed.

(** Every capability has a place in the array. *)
Definition wf (s : caps) : Prop := indexed (cpucap_ptrs s) ∧ length (cpucap_ptrs s) = ARM64_NCAPS.

Lemma update_pass cpu scope_mask s : wf s →
  let s' := update_cpu_capabilities matches cpu scope_mask s in
  cpucap_ptrs s' = cpucap_ptrs s ∧ log s' = log s ∧
  ∀ i, mem s' i = pass_bit cpu (Z.land scope_mask ARM64_CPUCAP_SCOPE_MASK) (cpucap_ptrs s) i (mem s i).
Proof.
  intros [Hx Hl]. unfold update_cpu_capabilities. cbv zeta.
  destruct (update_loop cpu (Z.land scope_mask ARM64_CPUCAP_SCOPE_MASK) (seq 0 ARM64_NCAPS) s) as (E1 & E2 & E3);
    [by apply NoDup_seq|done|].
  split; [done|]. split; [done|]. intros i. rewrite E3. destruct (decide (i ∈ seq 0 ARM64_NCAPS)) as [|Hn]; [done|].
  unfold pass_bit. rewrite lookup_ge_None_2; [done|]. rewrite elem_of_seq in Hn. lia.
Qed.

(** ** Enabling *)

(** A pass that only appends to the log. *)
Definition appends (s s' : caps) : Prop :=
  cpucap_ptrs s' = cpucap_ptrs s ∧ system_cpucaps s' = system_cpucaps s ∧ boot_cpucaps s' = boot_cpucaps s ∧
  elf_hwcap s' = elf_hwcap s ∧ compat_elf_hwcap s' = compat_elf_hwcap s ∧ compat_elf_hwcap2 s' = compat_elf_hwcap2 s ∧
  log s `prefix_of` log s'.

#[local] Instance appends_refl : Reflexive appends.
Proof. intros s. by repeat split. Qed.
#[local] Instance appends_trans : Transitive appends.
Proof. intros a b c (?&?&?&?&?&?&?) (?&?&?&?&?&?&?). repeat split; try congruence. by etransitivity. Qed.
Lemma appends_logs e s : appends s (logs e s).
Proof. repeat split; try done. cbn. by eexists. Qed.
Lemma appends_enable cpu c s : appends s (enable_on cpu c s).
Proof. unfold enable_on. destruct (cap_enable c); [apply appends_logs|done]. Qed.

Lemma appends_foldl {A} (f : caps → A → caps) l : (∀ s x, appends s (f s x)) → ∀ s, appends s (foldl f s l).
Proof. intros Hf. induction l as [|x l IH]; intros s; cbn; [done|]. etransitivity; [apply Hf|apply IH]. Qed.

(** An event that the step of one element logs is in the log at the end. *)
Lemma foldl_logged {A} (f : caps → A → caps) l s x e : (∀ s y, appends s (f s y)) → x ∈ l →
  (∀ s', appends s s' → e ∈ log (f s' x)) → e ∈ log (foldl f s l).
Proof.
  intros Hf Hx He. revert s He. induction l as [|y l IH]; intros s He; [by apply elem_of_nil in Hx|]. cbn.
  apply elem_of_cons in Hx as [->|Hx].
  - destruct (appends_foldl f l Hf (f s y)) as (_&_&_&_&_&_&[w ->]). apply elem_of_app. left. by apply He.
  - apply IH; [done|]. intros s' Hs'. apply He. etransitivity; [apply Hf|done].
Qed.

Lemma appends_cpu_enable cpu s : appends s (cpu_enable_non_boot_scope_capabilities cpu s).
Proof.
  apply appends_foldl. intros t i. destruct (cpus_have_cap _ t); [|done].
  destruct (cpucap_ptrs t !! i ≫= id) as [c|]; [|apply appends_logs]. destruct (in_scope _ _); [apply appends_enable|done].
Qed.

Lemma appends_enable_caps cpu scope_mask online s : appends s (enable_cpu_capabilities cpu scope_mask online s).
Proof.
  unfold enable_cpu_capabilities. cbv zeta.
  match goal with |- appends s (if _ then ?t else _) => assert (appends s t) as Ht end.
  { apply appends_foldl. intros t i. destruct (at_index _ _ t); [|done]. destruct (_ && _); [apply appends_enable|done]. }
  destruct (has_scope _ _); [done|]. etransitivity; [exact Ht|]. apply appends_foldl. intros; apply appends_cpu_enable.
Qed.

Lemma mem_appends s s' i : appends s s' → mem s' i = mem s i.
Proof. intros (_&E&_). unfold mem, cpus_have_cap. by rewrite E. Qed.
Lemma wf_appends s s' : appends s s' → wf s → wf s'.
Proof. intros (E&_). unfold wf. by rewrite E. Qed.
Lemma logged_appends s s' e : appends s s' → e ∈ log s → e ∈ log s'.
Proof. intros (_&_&_&_&_&_&[w ->]) He. apply elem_of_app. by left. Qed.

Lemma enable_on_logs cpu c s i : cap_enable c = true → capability c = Z.of_nat i → Enable cpu (Z.of_nat i) ∈ log (enable_on cpu c s).
Proof. intros He <-. unfold enable_on. rewrite He. cbn. apply elem_of_app. right. constructor. Qed.

Lemma at_index_ptr i c sm s : cpucap_ptrs s !! i ≫= id = Some c → in_scope c sm = true → at_index i sm s = Some c.
Proof. intros E Hs. unfold at_index. rewrite E. cbn. by rewrite Hs. Qed.

Lemma index_seq s i c : wf s → cpucap_ptrs s !! i ≫= id = Some c → i ∈ seq 0 ARM64_NCAPS.
Proof.
  intros [_ Hl] E. apply elem_of_seq. destruct (cpucap_ptrs s !! i) eqn:El; [|done]. apply lookup_lt_Some in El. lia.
Qed.

Lemma boot_enabled cpu sm s i c : wf s → has_scope (Z.land sm ARM64_CPUCAP_SCOPE_MASK) SCOPE_BOOT_CPU = true →
  cpucap_ptrs s !! i ≫= id = Some c → in_scope c (Z.land sm ARM64_CPUCAP_SCOPE_MASK) = true →
  mem s i = true → cap_enable c = true → Enable cpu (Z.of_nat i) ∈ log (enable_cpu_capabilities cpu sm [] s).
Proof.
  intros Hw Hb E Hs Hm He. unfold enable_cpu_capabilities. cbv zeta. rewrite Hb.
  pose proof (ptr_indexed _ _ _ (proj1 Hw) E) as Ec.
  apply (foldl_logged _ _ _ i).
  - intros t j. destruct (at_index _ _ t); [|done]. destruct (_ && _); [apply appends_enable|done].
  - by apply (index_seq s i c).
  - intros s' Ha. pose proof Ha as (Ep&_). rewrite <- Ep in E. rewrite (at_index_ptr i c) by done.
    rewrite Ec. fold (mem s' i). rewrite (mem_appends s s') by done. rewrite Hm. cbn. by apply enable_on_logs.
Qed.

Lemma online_enabled cpu sm online s i c k : wf s → has_scope (Z.land sm ARM64_CPUCAP_SCOPE_MASK) SCOPE_BOOT_CPU = false →
  cpucap_ptrs s !! i ≫= id = Some c → in_scope c (Z.land SCOPE_ALL (Z.lnot SCOPE_BOOT_CPU)) = true →
  mem s i = true → cap_enable c = true → k ∈ online →
  Enable k (Z.of_nat i) ∈ log (enable_cpu_capabilities cpu sm online s).
Proof.
  intros Hw Hb E Hs Hm He Hk. unfold enable_cpu_capabilities. cbv zeta. rewrite Hb.
  match goal with |- _ ∈ log (foldl _ ?t online) => assert (appends s t) as Ht end.
  { apply appends_foldl. intros t j. destruct (at_index _ _ t); [|done]. destruct (_ && _); [apply appends_enable|done]. }
  apply (foldl_logged _ _ _ k); [intros; apply appends_cpu_enable|done|].
  intros s1 Ha. assert (appends s s1) as Hs1 by (by etransitivity). clear Ha Ht.
  unfold cpu_enable_non_boot_scope_capabilities. apply (foldl_logged _ _ _ i).
  - intros t j. repeat case_match; done || apply appends_enable || apply appends_logs.
  - by apply (index_seq s i c).
  - intros s' Ha. assert (appends s s') as Hs' by (by etransitivity). fold (mem s' i).
    rewrite (mem_appends s s') by done. rewrite Hm. destruct Hs' as (-> & _). rewrite E, Hs.
    apply enable_on_logs; [done|]. by apply (ptr_indexed _ _ _ (proj1 Hw) E).
Qed.

(** ** Late CPUs *)

Lemma conflict_appends cpu c s s' : appends s s' → conflict matches cpu c s' = conflict matches cpu c s.
Proof. intros (_&E&_). unfold conflict, cpus_have_cap. by rewrite E. Qed.

(** No capability of the scope conflicts. *)
Definition agrees_with (cpu sm : Z) (s : caps) (i : nat) : Prop :=
  ∀ c, at_index i sm s = Some c → conflict matches cpu c s = false.

Lemma and_then_stop {A} (f : A → caps → outcome) l x s :
  foldl (λ o i, and_then (f i) o) (Stop x s) l = Stop x s.
Proof. induction l; by cbn. Qed.

Lemma verify_loop cpu sm l : ∀ s,
  match foldl (λ o i, and_then (λ s, match at_index i sm s with Some c => verify_cap matches cpu c s | None => Go s end) o) (Go s) l with
  | Go s' => appends s s' ∧ (∀ i, i ∈ l → agrees_with cpu sm s i) ∧
      ∀ i c, i ∈ l → at_index i sm s = Some c → cpus_have_cap (capability c) s = true → cap_enable c = true →
        Enable cpu (capability c) ∈ log s'
  | Stop f s' => appends s s' ∧ ∃ i c, i ∈ l ∧ at_index i sm s = Some c ∧ conflict matches cpu c s = true ∧
      f = (if cpucap_panic_on_conflict c then Panics else Dies)
  end.
Proof.
  induction l as [|i l IH]; intros s; cbn [foldl and_then].
  { split; [done|]. split; [|]; by intros ? ?%elem_of_nil || (intros ? ? ?%elem_of_nil). }
  assert (∀ s1, appends s s1 → ∀ j, at_index j sm s1 = at_index j sm s) as Hat.
  { intros s1 (E&_) j. unfold at_index. by rewrite E. }
  set (k := λ o i0, _). destruct (at_index i sm s) as [c|] eqn:Ei.
  - unfold verify_cap at 1. destruct (conflict matches cpu c s) eqn:Ec.
    { unfold k. rewrite (and_then_stop (λ i s, match at_index i sm s with Some c => verify_cap matches cpu c s | None => Go s end)).
      split; [done|]. exists i, c. repeat split; try done. constructor. }
    set (s1 := if cpus_have_cap _ _ then _ else _).
    assert (appends s s1) as Ha by (unfold s1; destruct (cpus_have_cap _ _); [apply appends_enable|done]).
    specialize (IH s1). unfold k. destruct (foldl _ (Go s1) l) as [s'|f s'].
    + destruct IH as (A & B & C). split; [by etransitivity|]. split.
      * intros j [->|Hj]%elem_of_cons d Hd; [congruence|]. rewrite <- (conflict_appends _ _ _ _ Ha). apply (B j Hj). by rewrite Hat.
      * intros j d [->|Hj]%elem_of_cons Hd Hh He.
        -- assert (d = c) as -> by congruence. apply (logged_appends s1); [done|]. unfold s1. rewrite Hh.
           unfold enable_on. rewrite He. cbn. apply elem_of_app. right. constructor.
        -- apply (C j); [done|by rewrite Hat| |done]. destruct Ha as (_&E&_). unfold cpus_have_cap. by rewrite E.
    + destruct IH as (A & j & d & Hj & Hd & Hc & Hf). split; [by etransitivity|]. exists j, d.
      rewrite Hat in Hd by done. rewrite (conflict_appends _ _ _ _ Ha) in Hc. split; [by constructor|done].
  - specialize (IH s). unfold k. destruct (foldl _ (Go s) l) as [s'|f s'].
    + destruct IH as (A & B & C). split; [done|]. split.
      * intros j [->|Hj]%elem_of_cons d Hd; [congruence|]. by apply (B j Hj).
      * intros j d [->|Hj]%elem_of_cons Hd; [congruence|]. by apply (C j).
    + destruct IH as (A & j & d & Hj & Hd & Hc & Hf). split; [done|]. exists j, d. split; [by constructor|done].
Qed.

Definition scope_of (c : arm64_cpu_capabilities) : Z := Z.land (cap_type c) ARM64_CPUCAP_SCOPE_MASK.

(** A capability has one scope. *)
Definition one_scope (c : arm64_cpu_capabilities) : Prop :=
  scope_of c = SCOPE_LOCAL_CPU ∨ scope_of c = SCOPE_SYSTEM ∨ scope_of c = SCOPE_BOOT_CPU.

Lemma in_scope_mask c sm : in_scope c (Z.land sm ARM64_CPUCAP_SCOPE_MASK) = negb (Z.land (scope_of c) sm =? 0).
Proof. unfold in_scope, scope_of. by rewrite (Z.land_comm sm), Z.land_assoc. Qed.

(** The masks of the five passes. *)
Lemma pass_masks : let M := ARM64_CPUCAP_SCOPE_MASK in
  has_scope (Z.land (Z.lor SCOPE_BOOT_CPU SCOPE_LOCAL_CPU) M) SCOPE_BOOT_CPU = true ∧
  has_scope (Z.land SCOPE_LOCAL_CPU M) SCOPE_BOOT_CPU = false ∧
  has_scope (Z.land SCOPE_SYSTEM M) SCOPE_BOOT_CPU = false ∧
  has_scope (Z.land SCOPE_BOOT_CPU M) SCOPE_BOOT_CPU = true ∧
  has_scope (Z.land (Z.land SCOPE_ALL (Z.lnot SCOPE_BOOT_CPU)) M) SCOPE_BOOT_CPU = false.
Proof.
  destruct scope_bits as (-> & -> & ->), scope_mask_all as (E & ->). cbv zeta. rewrite E. done.
Qed.

(** Which pass looks at a capability: boot, early CPUs, system, boot scope, the rest. *)
Lemma scope_passes c : one_scope c → let M := ARM64_CPUCAP_SCOPE_MASK in
  let l := bool_decide (scope_of c = SCOPE_LOCAL_CPU) in let b := bool_decide (scope_of c = SCOPE_BOOT_CPU) in
  let y := bool_decide (scope_of c = SCOPE_SYSTEM) in
  in_scope c (Z.land (Z.lor SCOPE_BOOT_CPU SCOPE_LOCAL_CPU) M) = l || b ∧
  in_scope c (Z.land SCOPE_LOCAL_CPU M) = l ∧ in_scope c (Z.land SCOPE_SYSTEM M) = y ∧
  in_scope c (Z.land SCOPE_BOOT_CPU M) = b ∧ in_scope c (Z.land (Z.land SCOPE_ALL (Z.lnot SCOPE_BOOT_CPU)) M) = l || y ∧
  in_scope c (Z.land SCOPE_ALL (Z.lnot SCOPE_BOOT_CPU)) = l || y.
Proof.
  intros Hc M l b y. unfold M.
  assert (in_scope c (Z.land SCOPE_ALL (Z.lnot SCOPE_BOOT_CPU)) =
    in_scope c (Z.land (Z.land SCOPE_ALL (Z.lnot SCOPE_BOOT_CPU)) ARM64_CPUCAP_SCOPE_MASK)) as ->.
  { destruct scope_mask_all as [_ ->]. f_equal. rewrite <- (Z.land_comm ARM64_CPUCAP_SCOPE_MASK), Z.land_assoc, Z.land_diag. done. }
  rewrite !in_scope_mask. unfold l, b, y, one_scope in *. destruct scope_bits as (El & Ey & Eb), scope_mask_all as (E & Ea).
  rewrite Ea, El, Ey, Eb, E in *. destruct Hc as [->|[->| ->]]; repeat split; vm_compute; reflexivity.
Qed.

(** *** The CPUs that come up before the system is final *)

Context (arm64_elf_hwcaps compat_elf_hwcaps : list arm64_cpu_capabilities).
Abbreviation check := (check_local_cpu_capabilities matches arm64_elf_hwcaps compat_elf_hwcaps).

Definition early_cpus (cs : list Z) (s : caps) : outcome := foldl (λ o k, and_then (check false k) o) (Go s) cs.

Lemma verify_caps_spec cpu sm s : wf s →
  match verify_local_cpu_caps matches cpu sm s with
  | Go s' => appends s s' ∧ ∀ i c, cpucap_ptrs s !! i ≫= id = Some c →
      in_scope c (Z.land sm ARM64_CPUCAP_SCOPE_MASK) = true → conflict matches cpu c s = false ∧
      (mem s i = true → cap_enable c = true → Enable cpu (Z.of_nat i) ∈ log s')
  | Stop f s' => appends s s' ∧ ∃ i c, cpucap_ptrs s !! i ≫= id = Some c ∧
      in_scope c (Z.land sm ARM64_CPUCAP_SCOPE_MASK) = true ∧ conflict matches cpu c s = true ∧
      f = (if cpucap_panic_on_conflict c then Panics else Dies)
  end.
Proof.
  intros Hw. unfold verify_local_cpu_caps. cbv zeta.
  pose proof (verify_loop cpu (Z.land sm ARM64_CPUCAP_SCOPE_MASK) (seq 0 ARM64_NCAPS) s) as Hv.
  destruct (foldl _ _ _) as [s'|f s'].
  - destruct Hv as (A & B & C). split; [done|]. intros i c E Hs. pose proof (index_seq s i c Hw E) as Hi.
    pose proof (at_index_ptr i c _ s E Hs) as Hat. split; [by apply (B i Hi)|]. intros Hm He.
    rewrite <- (ptr_indexed _ _ _ (proj1 Hw) E). apply (C i); [done|done| |done].
    by rewrite (ptr_indexed _ _ _ (proj1 Hw) E).
  - destruct Hv as (A & i & c & Hi & Hat & Hc & Hf). split; [done|]. exists i, c. unfold at_index in Hat.
    destruct (cpucap_ptrs s !! i ≫= id) as [d|] eqn:E; [|done]. cbn in Hat.
    destruct (in_scope d _) eqn:Es; [|done]. by injection Hat as ->.
Qed.

Lemma early_step k s s' : wf s → check false k s = Go s' →
  wf s' ∧ cpucap_ptrs s' = cpucap_ptrs s ∧ (∀ e, e ∈ log s → e ∈ log s') ∧
  (∀ i c, cpucap_ptrs s !! i ≫= id = Some c → one_scope c →
    mem s' i = (if bool_decide (scope_of c = SCOPE_LOCAL_CPU) then upd_bit k false c (mem s i) else mem s i) ∧
    (scope_of c = SCOPE_BOOT_CPU → mem s i = true → cap_enable c = true → Enable k (Z.of_nat i) ∈ log s')).
Proof.
  intros Hw. unfold check_local_cpu_capabilities, check_early_cpu_features. cbn [negb].
  destruct (verify_cpu_asid_bits k); [done|]. pose proof (verify_caps_spec k SCOPE_BOOT_CPU s Hw) as Hv.
  destruct (verify_local_cpu_caps matches k SCOPE_BOOT_CPU s) as [s1|]; [|done]. cbn. intros [= <-].
  destruct Hv as (Ha & Hv). pose proof (wf_appends _ _ Ha Hw) as Hw1.
  destruct (update_pass k SCOPE_LOCAL_CPU s1 Hw1) as (E1 & E2 & E3). pose proof Ha as (Ep & _).
  split; [unfold wf; rewrite E1; exact Hw1|]. split; [congruence|].
  split; [intros e He; rewrite E2; by apply (logged_appends s)|]. intros i c E Hone.
  destruct (scope_passes c Hone) as (_ & S2 & _ & S4 & _). destruct pass_masks as (_ & P2 & _). split.
  - rewrite E3, (mem_appends s s1) by done. unfold pass_bit. rewrite Ep, E, S2, P2. done.
  - intros Hb Hm He. rewrite E2. apply (Hv i c); [done| |done|done]. rewrite S4. by apply bool_decide_true.
Qed.

Lemma early_loop l : ∀ s s', wf s → early_cpus l s = Go s' →
  wf s' ∧ cpucap_ptrs s' = cpucap_ptrs s ∧ (∀ e, e ∈ log s → e ∈ log s') ∧
  (∀ i c, cpucap_ptrs s !! i ≫= id = Some c → one_scope c →
    mem s' i = (if bool_decide (scope_of c = SCOPE_LOCAL_CPU) then foldl (λ b k, upd_bit k false c b) (mem s i) l else mem s i) ∧
    (scope_of c = SCOPE_BOOT_CPU → mem s i = true → cap_enable c = true → ∀ k, k ∈ l → Enable k (Z.of_nat i) ∈ log s')).
Proof.
  induction l as [|k l IH]; intros s s' Hw E; cbn in E.
  { injection E as <-. split; [done|]. split; [done|]. split; [done|]. intros i c _ _.
    split; [by destruct (bool_decide _)|by intros _ _ _ k ?%elem_of_nil]. }
  destruct (check false k s) as [s1|f s1] eqn:Ek; [|by rewrite (and_then_stop (λ k, check false k)) in E].
  destruct (early_step k s s1 Hw Ek) as (Hw1 & Ep & Hl & Hs). destruct (IH s1 s' Hw1 E) as (Hw' & Ep' & Hl' & Hs').
  split; [done|]. split; [congruence|]. split; [auto|]. intros i c Ec Hone.
  destruct (Hs i c Ec Hone) as [Hm1 Hb1]. destruct (Hs' i c ltac:(congruence) Hone) as [Hm' Hb']. split.
  - rewrite Hm', Hm1. by destruct (bool_decide _).
  - intros Hb Hm He j [->|Hj]%elem_of_cons; [apply Hl', Hb1; done|]. apply Hb'; [done| |done|done].
    rewrite Hm1, bool_decide_false; [done|]. rewrite Hb. destruct scope_bits as (-> & _ & ->). done.
Qed.

(** A capability of a CPU is detected on one of them, or on all of them. *)
Definition detected (b : Z) (cs : list Z) (c : arm64_cpu_capabilities) : bool :=
  let m k := matches k c (cpucap_default_scope c) in
  if cpucap_match_all_early_cpus c then forallb m (b :: cs) else existsb m (b :: cs).

Lemma detected_fold b cs c : foldl (λ x k, upd_bit k false c x) (matches b c (cpucap_default_scope c)) cs = detected b cs c.
Proof.
  unfold detected, upd_bit. destruct (cpucap_match_all_early_cpus c); cbn.
  - generalize (matches b c (cpucap_default_scope c)). induction cs as [|k cs IH]; intros x; cbn; [by rewrite andb_true_r|].
    rewrite IH. by rewrite orb_false_r, andb_assoc.
  - generalize (matches b c (cpucap_default_scope c)). induction cs as [|k cs IH]; intros x; cbn; [by rewrite orb_false_r|].
    rewrite IH. by rewrite orb_assoc.
Qed.

(** *** The boot CPU and the system *)

(** The state the kernel starts with. *)
Definition no_caps (compat compat2 : Z) : caps := Caps (replicate ARM64_NCAPS None) ∅ ∅ ∅ compat compat2 [].

Lemma init_list_wf l s : Forall (λ c, 0 ≤ capability c) l → wf s → system_cpucaps s = ∅ →
  wf (init_cpucap_indirect_list_from_array l s) ∧ system_cpucaps (init_cpucap_indirect_list_from_array l s) = ∅.
Proof.
  revert s. induction l as [|c l IH]; intros s Hl Hw Hs; cbn; [done|]. apply List.Forall_cons_iff in Hl as [Hc Hl].
  apply IH; [done|..].
  - destruct Hw as [Hx Hlen]. split; [by apply add_cap_indexed|]. unfold add_cap. repeat case_match; cbn; try done;
      by rewrite length_insert.
  - unfold add_cap. by repeat case_match.
Qed.

Lemma boot_step b s : wf s → system_cpucaps s = ∅ →
  let s' := setup_boot_cpu_capabilities matches b s in
  wf s' ∧ cpucap_ptrs s' = cpucap_ptrs s ∧ ∀ i c, cpucap_ptrs s !! i ≫= id = Some c → one_scope c →
    mem s' i = negb (bool_decide (scope_of c = SCOPE_SYSTEM)) && matches b c (cpucap_default_scope c) ∧
    (scope_of c = SCOPE_BOOT_CPU → mem s' i = true → cap_enable c = true → Enable b (Z.of_nat i) ∈ log s').
Proof.
  intros Hw He. unfold setup_boot_cpu_capabilities. cbv zeta.
  destruct (update_pass b (Z.lor SCOPE_BOOT_CPU SCOPE_LOCAL_CPU) s Hw) as (E1 & _ & E3).
  set (s1 := update_cpu_capabilities matches b (Z.lor SCOPE_BOOT_CPU SCOPE_LOCAL_CPU) s) in *.
  assert (wf s1) as Hw1 by (unfold wf; rewrite E1; exact Hw).
  pose proof (appends_enable_caps b SCOPE_BOOT_CPU [] s1) as Ha.
  set (s2 := enable_cpu_capabilities b SCOPE_BOOT_CPU [] s1) in *.
  assert (appends s1 (logs ApplyBootAlternatives s2)) as Ha2 by (etransitivity; [exact Ha|apply appends_logs]).
  split; [by apply (wf_appends s1)|]. split; [destruct Ha2 as (-> & _); done|]. intros i c E Hone.
  rewrite (mem_appends s1) by done. rewrite E3. unfold pass_bit. rewrite E.
  destruct (scope_passes c Hone) as (S1 & _ & _ & S4 & _). destruct pass_masks as (P1 & _ & _ & P4 & _). rewrite S1, P1.
  assert (mem s i = false) as -> by (unfold mem, cpus_have_cap; rewrite He; by apply bool_decide_false).
  assert (bool_decide (scope_of c = SCOPE_LOCAL_CPU) || bool_decide (scope_of c = SCOPE_BOOT_CPU) =
    negb (bool_decide (scope_of c = SCOPE_SYSTEM))) as Eb.
  { destruct scope_bits as (El & Ey & Eb). unfold one_scope in Hone. rewrite El, Ey, Eb in *. by destruct Hone as [->|[->| ->]]. }
  assert (upd_bit b true c false = matches b c (cpucap_default_scope c)) as Eu.
  { unfold upd_bit. by destruct (cpucap_match_all_early_cpus c). }
  rewrite Eb, Eu. split; [by destruct (bool_decide _)|]. intros Hb Hm Hen.
  apply (logged_appends s2); [apply appends_logs|]. apply (boot_enabled b SCOPE_BOOT_CPU s1 i c); try done.
  - by rewrite E1.
  - rewrite S4. by apply bool_decide_true.
  - rewrite E3. unfold pass_bit. rewrite E, S1, P1, Eb.
    replace (mem s i) with false; [rewrite Eu; by destruct (negb _)|].
    unfold mem, cpus_have_cap. rewrite He. symmetry. by apply bool_decide_false.
Qed.

Lemma system_step b online s : wf s →
  let s' := setup_system_capabilities matches b online s in
  (∀ e, e ∈ log s → e ∈ log s') ∧ ∀ i c, cpucap_ptrs s !! i ≫= id = Some c → one_scope c →
    mem s' i = (if bool_decide (scope_of c = SCOPE_SYSTEM) then upd_bit b false c (mem s i) else mem s i) ∧
    (scope_of c ≠ SCOPE_BOOT_CPU → mem s' i = true → cap_enable c = true → ∀ k, k ∈ online → Enable k (Z.of_nat i) ∈ log s').
Proof.
  intros Hw. unfold setup_system_capabilities. cbv zeta.
  destruct (update_pass b SCOPE_SYSTEM s Hw) as (E1 & E2 & E3).
  set (s1 := update_cpu_capabilities matches b SCOPE_SYSTEM s) in *.
  assert (wf s1) as Hw1 by (unfold wf; rewrite E1; exact Hw).
  set (sm := Z.land SCOPE_ALL (Z.lnot SCOPE_BOOT_CPU)).
  pose proof (appends_enable_caps b sm online s1) as Ha. set (s2 := enable_cpu_capabilities b sm online s1) in *.
  assert (appends s1 (logs ApplyAlternativesAll s2)) as Ha2 by (etransitivity; [exact Ha|apply appends_logs]).
  split; [intros e He; apply (logged_appends s1); [done|by rewrite E2]|]. intros i c E Hone.
  destruct (scope_passes c Hone) as (_ & _ & S3 & _ & _ & S6). destruct pass_masks as (_ & _ & P3 & _ & P5).
  assert (mem s1 i = (if bool_decide (scope_of c = SCOPE_SYSTEM) then upd_bit b false c (mem s i) else mem s i)) as Em.
  { rewrite E3. unfold pass_bit. by rewrite E, S3, P3. }
  rewrite (mem_appends s1) by done. split; [done|]. intros Hb Hm Hen k Hk.
  apply (logged_appends s2); [apply appends_logs|]. apply (online_enabled b sm online s1 i c k); try done.
  - by rewrite E1.
  - rewrite S6. destruct Hone as [->|[->|?]]; [..|done].
    + by rewrite bool_decide_true.
    + rewrite (bool_decide_true (SCOPE_SYSTEM = SCOPE_SYSTEM)) by done. apply orb_true_r.
Qed.

End detection.

(** The array of pointers holds the entries of the first table. *)
Section pointers.
Context `{CapLaws} `{Machine}.
Context (matches : Z → arm64_cpu_capabilities → Z → bool).

Lemma no_caps_wf c0 c1 : wf (no_caps c0 c1).
Proof. split; [|apply length_replicate]. intros j d Hj. apply lookup_replicate in Hj as [? _]. done. Qed.

Lemma add_cap_keeps i c d s : cpucap_ptrs s !! i = Some (Some c) → cpucap_ptrs (add_cap d s) !! i = Some (Some c).
Proof.
  intros E. unfold add_cap. destruct (_ <=? _); [done|]. destruct (decide (Z.to_nat (capability d) = i)) as [->|Hne].
  - by rewrite E.
  - destruct (cpucap_ptrs s !! Z.to_nat (capability d)) as [[?|]|]; cbn; by rewrite ?list_lookup_insert_ne.
Qed.
Lemma init_list_keeps i c l : ∀ s, cpucap_ptrs s !! i = Some (Some c) →
  cpucap_ptrs (init_cpucap_indirect_list_from_array l s) !! i = Some (Some c).
Proof. induction l as [|d l IH]; intros s E; cbn; [done|]. apply IH. by apply add_cap_keeps. Qed.

Lemma init_list_finds l : ∀ s, NoDup (capability <$> l) → Forall (λ c, 0 ≤ capability c < Z.of_nat ARM64_NCAPS) l →
  length (cpucap_ptrs s) = ARM64_NCAPS → (∀ c, c ∈ l → cpucap_ptrs s !! Z.to_nat (capability c) = Some None) →
  ∀ c, c ∈ l → cpucap_ptrs (init_cpucap_indirect_list_from_array l s) !! Z.to_nat (capability c) = Some (Some c).
Proof.
  induction l as [|d l IH]; intros s Hnd Hr Hlen Hn c Hc; [by apply elem_of_nil in Hc|]. cbn in Hnd.
  apply NoDup_cons in Hnd as [Hd Hnd]. apply List.Forall_cons_iff in Hr as [Hdr Hr]. cbn.
  assert (cpucap_ptrs (add_cap d s) = <[Z.to_nat (capability d) := Some d]> (cpucap_ptrs s)) as Ed.
  { unfold add_cap. replace (Z.of_nat ARM64_NCAPS <=? capability d) with false by lia. by rewrite (Hn d) by constructor. }
  apply elem_of_cons in Hc as [->|Hc].
  - apply init_list_keeps. rewrite Ed, list_lookup_insert_eq; [done|]. rewrite Hlen. lia.
  - apply IH; [done|done| |  |done].
    + by rewrite Ed, length_insert.
    + intros e He. rewrite Ed, list_lookup_insert_ne; [apply Hn; by constructor|]. intros E. apply Hd.
      apply list_elem_of_fmap. exists e. split; [|done]. pose proof (proj1 (list.Forall_forall _ _) Hr e He). cbn in *. lia.
Qed.

Lemma boot_ptrs b features errata impdef c0 c1 c : NoDup (capability <$> features) →
  Forall (λ c, 0 ≤ capability c < Z.of_nat ARM64_NCAPS) features → Forall (λ c, 0 ≤ capability c) (errata ++ impdef) → c ∈ features →
  cpucap_ptrs (setup_boot_cpu_features matches b features errata impdef (no_caps c0 c1)) !! Z.to_nat (capability c) = Some (Some c).
Proof.
  intros Hnd Hr Hei Hc. apply Forall_app in Hei as [He Hi].
  pose proof (no_caps_wf c0 c1) as Hw0.
  unfold setup_boot_cpu_features, init_cpucap_indirect_list.
  destruct (init_list_wf features (no_caps c0 c1)) as [Hw1 Hs1]; [by eapply list.Forall_impl; [exact Hr|]; intros ? []|done|done|].
  destruct (init_list_wf errata _ He Hw1 Hs1) as [Hw2 Hs2]. destruct (init_list_wf impdef _ Hi Hw2 Hs2) as [Hw3 Hs3].
  destruct (boot_step matches b _ Hw3 Hs3) as (_ & -> & _). do 2 apply init_list_keeps.
  apply init_list_finds; [done|done|apply Hw0| |done]. intros d Hd. apply lookup_replicate. split; [done|].
  pose proof (proj1 (list.Forall_forall _ _) Hr d Hd). cbn in *. lia.
Qed.

Lemma early_ptrs hwcaps compat b features errata impdef c0 c1 cs s : Forall (λ c, 0 ≤ capability c) (features ++ errata ++ impdef) →
  early_cpus matches hwcaps compat cs (setup_boot_cpu_features matches b features errata impdef (no_caps c0 c1)) = Go s →
  cpucap_ptrs s = cpucap_ptrs (setup_boot_cpu_features matches b features errata impdef (no_caps c0 c1)).
Proof.
  intros Hcap He. rewrite !Forall_app in Hcap. destruct Hcap as (Hf & Hr & Hi).
  pose proof (no_caps_wf c0 c1) as Hw0.
  unfold setup_boot_cpu_features, init_cpucap_indirect_list in He |- *.
  destruct (init_list_wf features _ Hf Hw0 eq_refl) as [Hw1 Hs1].
  destruct (init_list_wf errata _ Hr Hw1 Hs1) as [Hw2 Hs2]. destruct (init_list_wf impdef _ Hi Hw2 Hs2) as [Hw3 Hs3].
  destruct (boot_step matches b _ Hw3 Hs3) as (Hwb & _ & _).
  by destruct (early_loop matches hwcaps compat cs _ s Hwb He) as (_ & Ep & _).
Qed.

End pointers.

Lemma caps_detected `{CapLaws} `{Machine} matches hwcaps compat features errata impdef c0 c1 b cs online s s' :
  Forall (λ c, 0 ≤ capability c) (features ++ errata ++ impdef) →
  early_cpus matches hwcaps compat cs (setup_boot_cpu_features matches b features errata impdef (no_caps c0 c1)) = Go s →
  s' = setup_system_capabilities matches b online s →
  ∀ i c, cpucap_ptrs s !! i ≫= id = Some c → one_scope c →
  capability c = Z.of_nat i ∧
  (scope_of c = SCOPE_LOCAL_CPU → mem s' i = detected matches b cs c) ∧
  (scope_of c = SCOPE_BOOT_CPU → mem s' i = matches b c (cpucap_default_scope c)) ∧
  (scope_of c = SCOPE_SYSTEM → mem s' i = negb (cpucap_match_all_early_cpus c) && matches b c (cpucap_default_scope c)) ∧
  (mem s' i = true → cap_enable c = true →
     ∀ k, k ∈ (if bool_decide (scope_of c = SCOPE_BOOT_CPU) then b :: cs else online) → Enable k (Z.of_nat i) ∈ log s').
Proof.
  intros Hcap He -> i c E Hone. rewrite !Forall_app in Hcap. destruct Hcap as (Hf & Hr & Hi).
  pose proof (no_caps_wf c0 c1) as Hw0.
  unfold setup_boot_cpu_features, init_cpucap_indirect_list in He.
  destruct (init_list_wf features _ Hf Hw0 eq_refl) as [Hw1 Hs1].
  destruct (init_list_wf errata _ Hr Hw1 Hs1) as [Hw2 Hs2]. destruct (init_list_wf impdef _ Hi Hw2 Hs2) as [Hw3 Hs3].
  set (s0 := init_cpucap_indirect_list_from_array impdef _) in *.
  destruct (boot_step matches b s0 Hw3 Hs3) as (Hwb & Epb & Hb). set (sb := setup_boot_cpu_capabilities matches b s0) in *.
  destruct (early_loop matches hwcaps compat cs sb s Hwb He) as (Hw & Ep & Hl & Hs).
  destruct (system_step matches b online s Hw) as [Hl' Hsys].
  destruct (Hsys i c E Hone) as [Hm' Hon]. rewrite Ep in E. destruct (Hs i c E Hone) as [Hm He'].
  rewrite Epb in E. destruct (Hb i c E Hone) as [Hmb Heb].
  destruct scope_bits as (El & Ey & Eb).
  split; [apply (ptr_indexed _ _ _ (proj1 Hw3) E)|]. split; [|split; [|split]].
  - intros Hsc. rewrite Hm', Hm, Hmb, Hsc, El, Ey. cbn. apply detected_fold.
  - intros Hsc. rewrite Hm', Hm, Hmb, Hsc, Eb, El, Ey. done.
  - intros Hsc. rewrite Hm', Hm, Hmb, Hsc, El, Ey. cbn. unfold upd_bit. by destruct (cpucap_match_all_early_cpus c).
  - intros Hset Hen k Hk. destruct (bool_decide_reflect (scope_of c = SCOPE_BOOT_CPU)) as [Hsc|Hsc]; [|by apply Hon].
    assert (mem sb i = true) as Hsb.
    { rewrite Hm', Hm, Hsc, Ey, El, Eb in Hset. exact Hset. }
    apply Hl'. apply elem_of_cons in Hk as [->|Hk]; [apply Hl, Heb; done|by apply He'].
Qed.

(** C11. Which capabilities a system has, and that all its CPUs use them.  From the tables
    (capabilities are numbered, each with one scope) through the boot CPU, the CPUs that
    come up and pass the early checks, and the step that makes the system final:
    a capability of a CPU is set exactly when one of these CPUs has it, or all of
    them for one that asks for all; a capability of the boot CPU exactly when that has
    it; a capability of the system exactly when the sanitised registers have it.
    Each that is set and has a callback was enabled: on the boot CPU and on every CPU
    that came up when it belongs to the boot CPU, else on every CPU that is online. *)
Theorem cpu_caps_exact `{CapLaws} `{Machine} matches hwcaps compat features errata impdef c0 c1 b cs online s s' :
  Forall (λ c, 0 ≤ capability c) (features ++ errata ++ impdef) →
  early_cpus matches hwcaps compat cs (setup_boot_cpu_features matches b features errata impdef (no_caps c0 c1)) = Go s →
  s' = setup_system_capabilities matches b online s →
  ∀ i c, cpucap_ptrs s !! i ≫= id = Some c → one_scope c →
  capability c = Z.of_nat i ∧
  (scope_of c = SCOPE_LOCAL_CPU → mem s' i = detected matches b cs c) ∧
  (scope_of c = SCOPE_BOOT_CPU → mem s' i = matches b c (cpucap_default_scope c)) ∧
  (scope_of c = SCOPE_SYSTEM → mem s' i = negb (cpucap_match_all_early_cpus c) && matches b c (cpucap_default_scope c)) ∧
  (mem s' i = true → cap_enable c = true →
     ∀ k, k ∈ (if bool_decide (scope_of c = SCOPE_BOOT_CPU) then b :: cs else online) → Enable k (Z.of_nat i) ∈ log s').
Proof. apply caps_detected. Qed.

(** ** What a late CPU must have *)

#[export] Existing Instances appends_refl appends_trans.

Section late.
Context `{CapLaws} `{Machine}.
Context (matches : Z → arm64_cpu_capabilities → Z → bool).
Context (arm64_elf_hwcaps compat_elf_hwcaps : list arm64_cpu_capabilities).

(** The CPU has what programs were told of. *)
Definition has_hwcaps (cpu : Z) (l : list arm64_cpu_capabilities) (s : caps) : Prop :=
  ∀ c, c ∈ l → (cpus_have_elf_hwcap c s).1 = true → matches cpu c SCOPE_LOCAL_CPU = true.

(** Whether a stage passes, as a property of the state before it. *)
Definition passes (Q : caps → Prop) (k : caps → outcome) : Prop :=
  ∀ s, wf s → match k s with Go s' => appends s s' ∧ Q s | Stop _ s' => appends s s' ∧ ¬ Q s end.

(** What does not depend on the log. *)
Definition stable (Q : caps → Prop) : Prop := ∀ s s', appends s s' → Q s ↔ Q s'.

Lemma passes_then Q Q' k k' : stable Q' → passes Q k → passes Q' k' →
  passes (λ s, Q s ∧ Q' s) (λ s, and_then k' (k s)).
Proof.
  intros Hst Hk Hk' s Hw. specialize (Hk s Hw). destruct (k s) as [s1|f s1]; cbn.
  - destruct Hk as [Ha HQ]. specialize (Hk' s1 (wf_appends _ _ Ha Hw)). pose proof (Hst _ _ Ha) as Hiff.
    destruct (k' s1) as [s2|f s2]; destruct Hk' as [Ha' HQ']; (split; [by etransitivity|tauto]).
  - destruct Hk as [Ha HQ]. split; [done|]. tauto.
Qed.

Lemma passes_only_if b Q k : passes Q k → passes (λ s, b = true → Q s) (only_if b k).
Proof.
  intros Hk s Hw. unfold only_if. destruct b; [|by split].
  specialize (Hk s Hw). destruct (k s); destruct Hk as [Ha HQ]; (split; [done|]); tauto.
Qed.
Lemma stable_only_if (b : bool) Q : stable Q → stable (λ s, b = true → Q s).
Proof. intros Hs s s' Ha. by rewrite (Hs _ _ Ha). Qed.
Lemma stable_const P : stable (λ _, P).
Proof. by intros s s' _. Qed.

Lemma hwcap_appends c s s' : appends s s' → (cpus_have_elf_hwcap c s').1 = (cpus_have_elf_hwcap c s).1.
Proof.
  intros (_&_&_&E1&E2&E3&_). unfold cpus_have_elf_hwcap, cpu_have_feature. destruct (cap_hwcap_type c), CONFIG_COMPAT; cbn; by rewrite ?E1, ?E2, ?E3.
Qed.
Lemma hwcap_keeps c s : appends s (cpus_have_elf_hwcap c s).2.
Proof. unfold cpus_have_elf_hwcap. by destruct (cap_hwcap_type c), CONFIG_COMPAT; cbn; try apply appends_logs. Qed.

Lemma stable_hwcaps cpu l : stable (has_hwcaps cpu l).
Proof. intros s s' Ha. unfold has_hwcaps. split; intros Hh c Hc;
  [rewrite (hwcap_appends c s s' Ha)|rewrite <- (hwcap_appends c s s' Ha)]; by apply Hh. Qed.

Lemma passes_hwcaps cpu l : passes (has_hwcaps cpu l) (__verify_local_elf_hwcaps matches cpu l).
Proof.
  unfold __verify_local_elf_hwcaps. induction l as [|c l IH]; intros s Hw; cbn [foldl and_then].
  { split; [done|]. by intros c ?%elem_of_nil. }
  pose proof (hwcap_keeps c s) as Ha. destruct (cpus_have_elf_hwcap c s) as [have s1] eqn:E. cbn [snd] in Ha.
  destruct (have && negb (matches cpu c SCOPE_LOCAL_CPU)) eqn:Ef.
  - rewrite (and_then_stop (λ c s, let '(have, s) := cpus_have_elf_hwcap c s in
      if have && negb (matches cpu c SCOPE_LOCAL_CPU) then Stop Dies s else Go s)).
    split; [done|]. intros Hh. apply andb_true_iff in Ef as [-> Ef]. apply negb_true_iff in Ef.
    rewrite (Hh c) in Ef; [done|constructor|by rewrite E].
  - specialize (IH s1 (wf_appends _ _ Ha Hw)). cbv beta in IH. destruct (foldl _ (Go s1) l) as [s2|f s2].
    + destruct IH as [Ha' IH]. split; [by etransitivity|]. apply (stable_hwcaps cpu l s s1 Ha) in IH.
      intros d [->|Hd]%elem_of_cons Hhave; [|by apply IH]. rewrite E in Hhave. cbn in Hhave. subst have.
      by apply negb_false_iff.
    + destruct IH as [Ha' IH]. split; [by etransitivity|]. intros Hh. apply IH, (stable_hwcaps cpu l s s1 Ha).
      intros d Hd. apply Hh. by constructor.
Qed.

(** The capabilities of a scope agree. *)
Definition caps_agree (cpu sm : Z) (s : caps) : Prop :=
  ∀ i c, cpucap_ptrs s !! i ≫= id = Some c → in_scope c (Z.land sm ARM64_CPUCAP_SCOPE_MASK) = true →
    conflict matches cpu c s = false.

Lemma stable_caps cpu sm : stable (caps_agree cpu sm).
Proof.
  intros s s' Ha. unfold caps_agree. pose proof Ha as (E & _). rewrite E.
  split; intros Hc i c Hi Hs; specialize (Hc i c Hi Hs); [by rewrite (conflict_appends _ _ _ s s')|].
  by rewrite (conflict_appends _ _ _ s s') in Hc.
Qed.

Lemma passes_caps cpu sm : passes (caps_agree cpu sm) (verify_local_cpu_caps matches cpu sm).
Proof.
  intros s Hw. pose proof (verify_caps_spec matches cpu sm s Hw) as Hv.
  destruct (verify_local_cpu_caps matches cpu sm s).
  - destruct Hv as [Ha Hv]. split; [done|]. intros i c Hi Hs. by apply (Hv i c Hi Hs).
  - destruct Hv as (Ha & i & c & Hi & Hs & Hc & _). split; [done|]. intros Hq. specialize (Hq i c Hi Hs). congruence.
Qed.

(** What is asked of the registers of the CPU. *)
Definition vec_fits (sme : bool) (cpu : Z) : Prop := vec_verify_vq_map cpu sme = false.
Definition hyp_fits (cpu : Z) : Prop := CONFIG_KVM = true →
  get_vmid_bits (read_sanitised "SYS_ID_AA64MMFR1_EL1") ≤ get_vmid_bits (read_cpuid cpu "ID_AA64MMFR1_EL1") ∧
  get_kvm_ipa_limit ≤ id_aa64mmfr0_parange_to_phys_shift (extract_parange (read_sanitised "SYS_ID_AA64MMFR0_EL1")).
Definition mpam_fits (cpu : Z) : Prop :=
  FIELD_GET ID_AA64PFR0_EL1_MPAM_MASK (read_cpuid cpu "ID_AA64PFR0_EL1") =
    FIELD_GET ID_AA64PFR0_EL1_MPAM_MASK (read_sanitised "SYS_ID_AA64PFR0_EL1") ∧
  FIELD_GET MPAMIDR_EL1_HAS_HCR (read_cpuid cpu "MPAMIDR_EL1") = FIELD_GET MPAMIDR_EL1_HAS_HCR (read_sanitised "SYS_MPAMIDR_EL1") ∧
  u16 (FIELD_GET MPAMIDR_EL1_PARTID_MAX (read_sanitised "SYS_MPAMIDR_EL1")) ≤ u16 (FIELD_GET MPAMIDR_EL1_PARTID_MAX (read_cpuid cpu "MPAMIDR_EL1")) ∧
  u16 (FIELD_GET MPAMIDR_EL1_PMG_MAX (read_sanitised "SYS_MPAMIDR_EL1")) ≤ u16 (FIELD_GET MPAMIDR_EL1_PMG_MAX (read_cpuid cpu "MPAMIDR_EL1")).

Lemma passes_vec sme cpu : passes (λ _, vec_fits sme cpu) (verify_vec_features sme cpu).
Proof.
  intros s Hw. unfold verify_vec_features, vec_fits. cbv zeta. destruct (vec_verify_vq_map cpu sme).
  - split; [apply appends_logs|done].
  - split; [|done]. etransitivity; apply appends_logs.
Qed.
Lemma passes_hyp cpu : passes (λ _, hyp_fits cpu) (verify_hyp_capabilities cpu).
Proof.
  intros s Hw. unfold verify_hyp_capabilities, hyp_fits. destruct CONFIG_KVM; cbn [negb]; [|by split].
  destruct (Z.ltb_spec (get_vmid_bits (read_cpuid cpu "ID_AA64MMFR1_EL1")) (get_vmid_bits (read_sanitised "SYS_ID_AA64MMFR1_EL1")));
    [split; [done|intros Hq; destruct (Hq eq_refl); lia]|].
  match goal with |- context [?a <? ?b] => destruct (Z.ltb_spec a b) end; (split; [done|]); [intros Hq; destruct (Hq eq_refl); lia|].
  intros _. split; lia.
Qed.
Lemma passes_mpam cpu : passes (λ _, mpam_fits cpu) (verify_mpam_capabilities cpu).
Proof.
  intros s Hw. unfold verify_mpam_capabilities, mpam_fits. cbv zeta.
  match goal with |- context [negb (?a =? ?b)] => destruct (Z.eqb_spec a b) end; cbn [negb]; [|split; [done|tauto]].
  match goal with |- context [negb (?a =? ?b)] => destruct (Z.eqb_spec a b) end; cbn [negb]; [|split; [done|tauto]].
  match goal with |- context [(?a <? ?b) || (?c <? ?d)] => destruct (Z.ltb_spec a b), (Z.ltb_spec c d) end; cbn [orb];
    (split; [done|]); [lia..|]. repeat split; lia || done.
Qed.

(** All that a CPU must satisfy to join a system that is final. *)
Record fits (cpu : Z) (s : caps) : Prop := {
  fit_asid : verify_cpu_asid_bits cpu = None;
  fit_boot : caps_agree cpu SCOPE_BOOT_CPU s;
  fit_caps : caps_agree cpu (Z.land SCOPE_ALL (Z.lnot SCOPE_BOOT_CPU)) s;
  fit_hwcaps : has_hwcaps cpu arm64_elf_hwcaps s;
  fit_compat : id_aa64pfr0_32bit_el0 (read_cpuid cpu "ID_AA64PFR0_EL1") = true → has_hwcaps cpu compat_elf_hwcaps s;
  fit_sve : system_supports_sve = true → vec_fits false cpu;
  fit_sme : system_supports_sme = true → vec_fits true cpu;
  fit_hyp : is_hyp_mode_available = true → hyp_fits cpu;
  fit_mpam : system_supports_mpam = true → mpam_fits cpu
}.

Abbreviation check := (check_local_cpu_capabilities matches arm64_elf_hwcaps compat_elf_hwcaps).

Lemma passes_ext Q Q' k : (∀ s, Q s ↔ Q' s) → passes Q k → passes Q' k.
Proof. intros HQ Hk s Hw. specialize (Hk s Hw). by destruct (k s); rewrite <- HQ. Qed.

Lemma passes_verify cpu :
  passes (λ s, (((((caps_agree cpu (Z.land SCOPE_ALL (Z.lnot SCOPE_BOOT_CPU)) s ∧
    (has_hwcaps cpu arm64_elf_hwcaps s ∧
      (id_aa64pfr0_32bit_el0 (read_cpuid cpu "ID_AA64PFR0_EL1") = true → has_hwcaps cpu compat_elf_hwcaps s))) ∧
    (system_supports_sve = true → vec_fits false cpu)) ∧ (system_supports_sme = true → vec_fits true cpu)) ∧
    (is_hyp_mode_available = true → hyp_fits cpu)) ∧ (system_supports_mpam = true → mpam_fits cpu)))
    (verify_local_cpu_capabilities matches arm64_elf_hwcaps compat_elf_hwcaps cpu).
Proof.
  unfold verify_local_cpu_capabilities.
  apply passes_then; [apply stable_const| |apply passes_only_if, passes_mpam].
  apply passes_then; [apply stable_const| |apply passes_only_if, passes_hyp].
  apply passes_then; [apply stable_const| |apply passes_only_if, passes_vec].
  apply passes_then; [apply stable_const| |apply passes_only_if, passes_vec].
  apply passes_then; [|apply passes_caps|].
  - intros s s' Ha. rewrite (stable_hwcaps cpu _ s s' Ha), (stable_hwcaps cpu compat_elf_hwcaps s s' Ha). done.
  - unfold verify_local_elf_hwcaps. apply passes_then; [apply stable_only_if, stable_hwcaps|apply passes_hwcaps|].
    apply (passes_only_if _ _ _ (passes_hwcaps cpu compat_elf_hwcaps)).
Qed.

Lemma passes_check cpu : passes (fits cpu) (check true cpu).
Proof.
  eapply passes_ext; [|unfold check_local_cpu_capabilities; apply passes_then;
    [|instantiate (1 := λ s, verify_cpu_asid_bits cpu = None ∧ caps_agree cpu SCOPE_BOOT_CPU s)|apply passes_verify]].
  - intros s. split; [intros ((A1 & A2) & ((((A3 & A4 & A5) & A6) & A7) & A8) & A9); by split|intros []; tauto].
  - intros s s' Ha. rewrite (stable_caps cpu _ s s' Ha), (stable_hwcaps cpu _ s s' Ha), (stable_hwcaps cpu compat_elf_hwcaps s s' Ha).
    done.
  - intros s Hw. unfold check_early_cpu_features. destruct (verify_cpu_asid_bits cpu) as [f|]; [split; [done|by intros [? _]]|].
    pose proof (passes_caps cpu SCOPE_BOOT_CPU s Hw) as Hp. destruct (verify_local_cpu_caps matches cpu SCOPE_BOOT_CPU s); tauto.
Qed.

(** The two passes over the capabilities of a CPU that joins. *)
Lemma check_passes cpu s s' : wf s → check true cpu s = Go s' →
  ∃ s1 s2, verify_local_cpu_caps matches cpu SCOPE_BOOT_CPU s = Go s1 ∧ wf s1 ∧
    verify_local_cpu_caps matches cpu (Z.land SCOPE_ALL (Z.lnot SCOPE_BOOT_CPU)) s1 = Go s2 ∧ appends s1 s2 ∧ appends s2 s'.
Proof.
  intros Hw. unfold check_local_cpu_capabilities, check_early_cpu_features. cbn [negb].
  destruct (verify_cpu_asid_bits cpu); [done|]. pose proof (passes_caps cpu SCOPE_BOOT_CPU s Hw) as H1'.
  destruct (verify_local_cpu_caps matches cpu SCOPE_BOOT_CPU s) as [s1|] eqn:E1; [|done]. cbn [and_then].
  pose proof (wf_appends _ _ (proj1 H1') Hw) as Hw1. unfold verify_local_cpu_capabilities. set (sm := Z.land SCOPE_ALL _).
  pose proof (passes_caps cpu sm s1 Hw1) as H2'.
  destruct (verify_local_cpu_caps matches cpu sm s1) as [s2|f s2] eqn:E2; [|done]. intros E. exists s1, s2.
  split; [done|]. split; [done|]. split; [done|]. split; [apply H2'|].
  assert (∀ Q k s, passes Q k → wf s → match k s with Go t => appends s t | Stop _ t => appends s t end) as Hpass.
  { intros Q k t Hk Ht. specialize (Hk t Ht). destruct (k t); apply Hk. }
  assert (∀ Q k o, passes Q k → match o with Go t => appends s2 t | Stop _ t => appends s2 t end →
    match and_then k o with Go t => appends s2 t | Stop _ t => appends s2 t end) as Hthen.
  { intros Q k [t|f t] Hk Ht; cbn; [|done]. pose proof (Hpass Q k t Hk (wf_appends _ _ Ht (wf_appends _ _ (proj1 H2') Hw1))) as Hp.
    destruct (k t); by etransitivity. }
  assert (passes (λ s, has_hwcaps cpu arm64_elf_hwcaps s ∧ (id_aa64pfr0_32bit_el0 (read_cpuid cpu "ID_AA64PFR0_EL1") = true →
    has_hwcaps cpu compat_elf_hwcaps s)) (verify_local_elf_hwcaps matches cpu arm64_elf_hwcaps compat_elf_hwcaps)) as Hhw.
  { apply passes_then; [apply stable_only_if, stable_hwcaps|apply passes_hwcaps|].
    apply (passes_only_if _ _ _ (passes_hwcaps cpu compat_elf_hwcaps)). }
  revert E. match goal with |- ?o = Go s' → _ =>
    assert (match o with Go t => appends s2 t | Stop _ t => appends s2 t end) as Hfin;
    [|intros E; rewrite E in Hfin; exact Hfin] end.
  eapply Hthen; [apply passes_only_if, passes_mpam|]. eapply Hthen; [apply passes_only_if, passes_hyp|].
  eapply Hthen; [apply passes_only_if, passes_vec|]. eapply Hthen; [apply passes_only_if, passes_vec|].
  eapply Hthen; [exact Hhw|]. done.
Qed.

Lemma check_enables cpu s s' i c : wf s → check true cpu s = Go s' → cpucap_ptrs s !! i ≫= id = Some c → one_scope c →
  mem s i = true → cap_enable c = true → Enable cpu (Z.of_nat i) ∈ log s'.
Proof.
  intros Hw E Hi Hone Hm He. destruct (check_passes cpu s s' Hw E) as (s1 & s2 & E1 & Hw1 & E2 & Ha2 & Ha').
  pose proof (verify_caps_spec matches cpu SCOPE_BOOT_CPU s Hw) as V1. rewrite E1 in V1. destruct V1 as [Ha1 V1].
  pose proof (verify_caps_spec matches cpu (Z.land SCOPE_ALL (Z.lnot SCOPE_BOOT_CPU)) s1 Hw1) as V2. rewrite E2 in V2. destruct V2 as [_ V2].
  destruct (scope_passes c Hone) as (_ & _ & _ & S4 & S5 & _).
  destruct (bool_decide_reflect (scope_of c = SCOPE_BOOT_CPU)) as [Hb|Hb].
  - apply (logged_appends s1); [by etransitivity|]. apply (V1 i c Hi); [|done|done]. rewrite S4. done.
  - apply (logged_appends s2); [done|]. apply (V2 i c); [destruct Ha1 as (-> & _); done| |by rewrite (mem_appends s s1)|done].
    rewrite S5. destruct Hone as [->|[->|?]]; [by rewrite bool_decide_true| |done].
    rewrite (bool_decide_true (SCOPE_SYSTEM = SCOPE_SYSTEM)) by done. apply orb_true_r.
Qed.

Lemma agree_all cpu s i c : wf s → fits cpu s → cpucap_ptrs s !! i ≫= id = Some c → one_scope c → conflict matches cpu c s = false.
Proof.
  intros Hw [_ Hb Hr _ _ _ _ _ _] Hi Hone. destruct (scope_passes c Hone) as (_ & _ & _ & S4 & S5 & _).
  destruct (bool_decide_reflect (scope_of c = SCOPE_BOOT_CPU)) as [Hs|Hs].
  - by apply (Hb i c Hi).
  - apply (Hr i c Hi). rewrite S5. destruct Hone as [->|[->|?]]; [by rewrite bool_decide_true| |done].
    rewrite (bool_decide_true (SCOPE_SYSTEM = SCOPE_SYSTEM)) by done. apply orb_true_r.
Qed.

End late.

(** C10. A CPU joins a final system exactly when it fits, and then it has what the system
    uses.  The check stops the CPU or the kernel exactly when some requirement fails
    (address-space bits, a capability, a hardware capability programs know of, vector
    lengths, virtualisation, MPAM), and never changes the capabilities of the system.
    When the CPU joins, it has every capability of the system that is not optional for
    late CPUs, it brings none that the system lacks and may not gain late, and every
    capability of the system with a callback was enabled on it. *)
Theorem late_cpu_exact `{CapLaws} `{Machine} matches hwcaps compat cpu s :
  wf s →
  match check_local_cpu_capabilities matches hwcaps compat true cpu s with
  | Go s' => fits matches hwcaps compat cpu s ∧ system_cpucaps s' = system_cpucaps s ∧
      ∀ i c, cpucap_ptrs s !! i ≫= id = Some c → one_scope c →
        (if mem s i then matches cpu c SCOPE_LOCAL_CPU = true ∨ cpucap_late_cpu_optional c = true
         else matches cpu c SCOPE_LOCAL_CPU = false ∨ cpucap_late_cpu_permitted c = true) ∧
        (mem s i = true → cap_enable c = true → Enable cpu (Z.of_nat i) ∈ log s')
  | Stop _ s' => ¬ fits matches hwcaps compat cpu s ∧ system_cpucaps s' = system_cpucaps s
  end.
Proof.
  intros Hw. pose proof (passes_check matches hwcaps compat cpu s Hw) as Hp. cbv beta in Hp.
  destruct (check_local_cpu_capabilities matches hwcaps compat true cpu s) as [s'|f s'] eqn:E.
  - destruct Hp as [(_ & Hs & _) Hf]. split; [done|]. split; [done|]. intros i c Hi Hone. split.
    + pose proof (agree_all matches hwcaps compat cpu s i c Hw Hf Hi Hone) as Hc. unfold conflict in Hc.
      rewrite (ptr_indexed _ _ _ (proj1 Hw) Hi) in Hc. fold (mem s i) in Hc.
      destruct (mem s i), (matches cpu c SCOPE_LOCAL_CPU); cbn in Hc; auto; right; by apply negb_false_iff.
    + by apply (check_enables matches hwcaps compat cpu s s' i c Hw E).
  - destruct Hp as [(_ & Hs & _) Hf]. done.
Qed.

(** ** A system of three CPUs *)

#[local] Instance sample_header : CapHeader := {|
  ARM64_NCAPS := 4%nat;
  SCOPE_LOCAL_CPU := 1; SCOPE_SYSTEM := 2; SCOPE_BOOT_CPU := 4; ARM64_CPUCAP_SCOPE_MASK := 7; SCOPE_ALL := 7;
  cpucap_default_scope c := Z.land (cap_type c) 7;
  cpucap_match_all_early_cpus c := Z.testbit (cap_type c) 7;
  ARM64_CPUCAP_OPTIONAL_FOR_LATE_CPU := 32; ARM64_CPUCAP_PERMITTED_FOR_LATE_CPU := 16; ARM64_CPUCAP_PANIC_ON_CONFLICT := 64;
  KERNEL_HWCAP_CPUID := 11; ARM64_WORKAROUND_1742098 := 3; COMPAT_HWCAP2_AES := 1;
  CONFIG_COMPAT := true
|}.
#[local] Instance sample_laws : CapLaws.
Proof. by repeat split. Qed.

#[local] Instance sample_machine : Machine := {|
  read_cpuid _ _ := 0; read_sanitised _ := 0; id_aa64pfr0_32bit_el0 _ := false;
  verify_cpu_asid_bits _ := None; vec_verify_vq_map _ _ := false; get_vmid_bits _ := 8;
  extract_parange v := v; id_aa64mmfr0_parange_to_phys_shift _ := 40; get_kvm_ipa_limit := 40; CONFIG_KVM := true;
  system_supports_sve := true; system_supports_sme := false; is_hyp_mode_available := true; system_supports_mpam := true;
  system_supports_32bit_el0 := false;
  ID_AA64PFR0_EL1_MPAM_MASK := 0xf; MPAMIDR_EL1_HAS_HCR := 1; MPAMIDR_EL1_PARTID_MAX := 0xff; MPAMIDR_EL1_PMG_MAX := 0xff00
|}.

(** A workaround for one of the CPUs, a feature all must have, one of the boot CPU, one of
    the system. *)
Definition erratum : arm64_cpu_capabilities := Cap "is_affected" 0 (1 + 32 + 16) "cpu_enable_a" CAP_NONE 0 no_field [].
Definition common : arm64_cpu_capabilities := Cap "has_feature" 1 (1 + 128) "cpu_enable_b" CAP_NONE 0 no_field [].
Definition boot_feature : arm64_cpu_capabilities := Cap "has_boot" 2 (4 + 64) "cpu_enable_c" CAP_NONE 0 no_field [].
Definition system_feature : arm64_cpu_capabilities := Cap "has_system" 3 2 no_name CAP_HWCAP 7 no_field [].
Definition sample_matches (cpu : Z) (c : arm64_cpu_capabilities) (scope : Z) : bool :=
  if capability c =? 0 then cpu =? 1 else if capability c =? 1 then negb (cpu =? 2) else true.

Definition sample_early : outcome :=
  early_cpus sample_matches [system_feature] [] [1; 2]
    (setup_boot_cpu_features sample_matches 0 [common; boot_feature; system_feature] [erratum] [] (no_caps 0 0)).

Lemma cpu_caps_exact_witness : ∃ s, sample_early = Go s ∧
  mem (setup_system_capabilities sample_matches 0 [0; 1; 2] s) 0 = detected sample_matches 0 [1; 2] erratum ∧
  mem (setup_system_capabilities sample_matches 0 [0; 1; 2] s) 1 = detected sample_matches 0 [1; 2] common.
Proof.
  eexists. split; [vm_compute; reflexivity|].
  split; eapply (cpu_caps_exact sample_matches [system_feature] [] [common; boot_feature; system_feature] [erratum] [] 0 0 0 [1; 2] [0; 1; 2]
    _ _ ltac:(repeat constructor; cbn; lia) ltac:(vm_compute; reflexivity) eq_refl); try reflexivity; by left.
Defined.

Example sample_detected : detected sample_matches 0 [1; 2] erratum = true ∧ detected sample_matches 0 [1; 2] common = false.
Proof. done. Qed.

(** The third CPU comes late and lacks the common feature. *)
Definition final_state : caps :=
  setup_system_capabilities sample_matches 0 [0; 1]
    (setup_boot_cpu_features sample_matches 0 [common; boot_feature; system_feature] [erratum] [] (no_caps 0 0)).

Lemma late_cpu_exact_witness : wf final_state ∧
  (∃ s', check_local_cpu_capabilities sample_matches [] [] true 2 final_state = Stop Dies s') ∧
  ¬ fits sample_matches [] [] 2 final_state.
Proof.
  assert (wf final_state) as Hw.
  { split; [|reflexivity]. intros [|[|[|[|i]]]] c E; vm_compute in E; congruence || (injection E as <-; reflexivity). }
  split; [exact Hw|]. split; [eexists; vm_compute; reflexivity|].
  pose proof (late_cpu_exact sample_matches [] [] 2 final_state Hw) as Hl.
  assert (∃ s', check_local_cpu_capabilities sample_matches [] [] true 2 final_state = Stop Dies s') as [s' E]
    by (eexists; vm_compute; reflexivity).
  rewrite E in Hl. exact (proj1 Hl).
Defined.
