(* ===== verification/CpuCapTables.v ===== *)
(** * The tables of arm64 CPU capabilities

    sources/asahi--arch__arm64__kernel__cpufeature.c, lines 2568-3492: the capabilities of
    the kernel and those that programs are told of, with the conditions on the
    configuration under which an entry is compiled in.  The descriptions, which are only
    printed, are left out; the numbers are constants of generated headers. *)

From Stdlib Require Import ZArith Bool.
From stdpp Require Import base numbers list strings option.
From S2P Require Import Prelude CpuFtrTables CpuCaps.

Local Open Scope Z_scope.

Section tables.
Context `{Sysregs}.

(** ** The capabilities of the kernel *)

Definition feature (capability type matches cpu_enable : string) (field : cpuid_field)
    (match_list : list (string * cpuid_field)) : arm64_cpu_capabilities :=
  Cap matches (SYSREG capability) (SYSREG type) cpu_enable CAP_NONE 0 field match_list.

Definition arm64_features_1 : list arm64_cpu_capabilities :=
  [feature "ARM64_ALWAYS_BOOT" "ARM64_CPUCAP_BOOT_CPU_FEATURE" "has_always"
     no_name no_field [];
   feature "ARM64_ALWAYS_SYSTEM" "ARM64_CPUCAP_SYSTEM_FEATURE" "has_always"
     no_name no_field [];
   feature "ARM64_HAS_GICV3_CPUIF" "ARM64_CPUCAP_STRICT_BOOT_CPU_FEATURE" "has_useable_gicv3_cpuif"
     no_name (ARM64_CPUID_FIELDS "ID_AA64PFR0_EL1" "GIC" "IMP") [];
   feature "ARM64_HAS_ECV" "ARM64_CPUCAP_SYSTEM_FEATURE" "has_cpuid_feature"
     no_name (ARM64_CPUID_FIELDS "ID_AA64MMFR0_EL1" "ECV" "IMP") [];
   feature "ARM64_HAS_ECV_CNTPOFF" "ARM64_CPUCAP_SYSTEM_FEATURE" "has_cpuid_feature"
     no_name (ARM64_CPUID_FIELDS "ID_AA64MMFR0_EL1" "ECV" "CNTPOFF") [];
   feature "ARM64_HAS_PAN" "ARM64_CPUCAP_SYSTEM_FEATURE" "has_cpuid_feature"
     "cpu_enable_pan" (ARM64_CPUID_FIELDS "ID_AA64MMFR1_EL1" "PAN" "IMP") []] ++
  (if IS_ENABLED "CONFIG_ARM64_EPAN" then
  [feature "ARM64_HAS_EPAN" "ARM64_CPUCAP_SYSTEM_FEATURE" "has_cpuid_feature"
     no_name (ARM64_CPUID_FIELDS "ID_AA64MMFR1_EL1" "PAN" "PAN3") []] else []) ++
  [feature "ARM64_HAS_LSE_ATOMICS" "ARM64_CPUCAP_SYSTEM_FEATURE" "has_cpuid_feature"
     no_name (ARM64_CPUID_FIELDS "ID_AA64ISAR0_EL1" "ATOMIC" "IMP") [];
   feature "ARM64_HAS_VIRT_HOST_EXTN" "ARM64_CPUCAP_STRICT_BOOT_CPU_FEATURE" "runs_at_el2"
     "cpu_copy_el2regs" no_field [];
   feature "ARM64_HAS_NESTED_VIRT" "ARM64_CPUCAP_SYSTEM_FEATURE" "has_nested_virt_support"
     no_name no_field [("has_cpuid_feature", ARM64_CPUID_FIELDS "ID_AA64MMFR2_EL1" "NV" "NV2"); ("has_cpuid_feature", ARM64_CPUID_FIELDS "ID_AA64MMFR4_EL1" "NV_frac" "NV2_ONLY")];
   feature "ARM64_HAS_32BIT_EL0_DO_NOT_USE" "ARM64_CPUCAP_SYSTEM_FEATURE" "has_32bit_el0"
     no_name (ARM64_CPUID_FIELDS "ID_AA64PFR0_EL1" "EL0" "AARCH32") []] ++
  (if IS_ENABLED "CONFIG_KVM" then
  [feature "ARM64_HAS_32BIT_EL1" "ARM64_CPUCAP_SYSTEM_FEATURE" "has_cpuid_feature"
     no_name (ARM64_CPUID_FIELDS "ID_AA64PFR0_EL1" "EL1" "AARCH32") [];
   feature "ARM64_KVM_PROTECTED_MODE" "ARM64_CPUCAP_SYSTEM_FEATURE" "is_kvm_protected_mode"
     no_name no_field [];
   feature "ARM64_HAS_HCX" "ARM64_CPUCAP_STRICT_BOOT_CPU_FEATURE" "has_cpuid_feature"
     no_name (ARM64_CPUID_FIELDS "ID_AA64MMFR1_EL1" "HCX" "IMP") []] else []).

Definition arm64_features_2 : list arm64_cpu_capabilities :=
  [feature "ARM64_UNMAP_KERNEL_AT_EL0" "ARM64_CPUCAP_BOOT_RESTRICTED_CPU_LOCAL_FEATURE" "unmap_kernel_at_el0"
     "cpu_enable_kpti" (ARM64_CPUID_FIELDS "ID_AA64PFR0_EL1" "CSV3" "IMP") [];
   feature "ARM64_HAS_FPSIMD" "ARM64_CPUCAP_SYSTEM_FEATURE" "has_cpuid_feature"
     "cpu_enable_fpsimd" (ARM64_CPUID_FIELDS "ID_AA64PFR0_EL1" "FP" "IMP") []] ++
  (if IS_ENABLED "CONFIG_ARM64_PMEM" then
  [feature "ARM64_HAS_DCPOP" "ARM64_CPUCAP_SYSTEM_FEATURE" "has_cpuid_feature"
     no_name (ARM64_CPUID_FIELDS "ID_AA64ISAR1_EL1" "DPB" "IMP") [];
   feature "ARM64_HAS_DCPODP" "ARM64_CPUCAP_SYSTEM_FEATURE" "has_cpuid_feature"
     no_name (ARM64_CPUID_FIELDS "ID_AA64ISAR1_EL1" "DPB" "DPB2") []] else []) ++
  (if IS_ENABLED "CONFIG_ARM64_SVE" then
  [feature "ARM64_SVE" "ARM64_CPUCAP_SYSTEM_FEATURE" "has_cpuid_feature"
     "cpu_enable_sve" (ARM64_CPUID_FIELDS "ID_AA64PFR0_EL1" "SVE" "IMP") []] else []) ++
  (if IS_ENABLED "CONFIG_ARM64_RAS_EXTN" then
  [feature "ARM64_HAS_RAS_EXTN" "ARM64_CPUCAP_SYSTEM_FEATURE" "has_cpuid_feature"
     "cpu_clear_disr" (ARM64_CPUID_FIELDS "ID_AA64PFR0_EL1" "RAS" "IMP") [];
   feature "ARM64_HAS_RASV1P1_EXTN" "ARM64_CPUCAP_SYSTEM_FEATURE" "has_rasv1p1"
     no_name no_field []] else []) ++
  (if IS_ENABLED "CONFIG_ARM64_AMU_EXTN" then
  [feature "ARM64_HAS_AMU_EXTN" "ARM64_CPUCAP_WEAK_LOCAL_CPU_FEATURE" "has_amu"
     "cpu_amu_enable" (ARM64_CPUID_FIELDS "ID_AA64PFR0_EL1" "AMU" "IMP") []] else []) ++
  [feature "ARM64_HAS_CACHE_IDC" "ARM64_CPUCAP_SYSTEM_FEATURE" "has_cache_idc"
     "cpu_emulate_effective_ctr" no_field [];
   feature "ARM64_HAS_CACHE_DIC" "ARM64_CPUCAP_SYSTEM_FEATURE" "has_cache_dic"
     no_name no_field [];
   feature "ARM64_HAS_STAGE2_FWB" "ARM64_CPUCAP_SYSTEM_FEATURE" "has_cpuid_feature"
     no_name (ARM64_CPUID_FIELDS "ID_AA64MMFR2_EL1" "FWB" "IMP") [];
   feature "ARM64_HAS_ARMv8_4_TTL" "ARM64_CPUCAP_SYSTEM_FEATURE" "has_cpuid_feature"
     no_name (ARM64_CPUID_FIELDS "ID_AA64MMFR2_EL1" "TTL" "IMP") [];
   feature "ARM64_HAS_TLB_RANGE" "ARM64_CPUCAP_SYSTEM_FEATURE" "has_cpuid_feature"
     no_name (ARM64_CPUID_FIELDS "ID_AA64ISAR0_EL1" "TLB" "RANGE") []] ++
  (if IS_ENABLED "CONFIG_ARM64_HW_AFDBM" then
  [feature "ARM64_HW_DBM" "ARM64_CPUCAP_WEAK_LOCAL_CPU_FEATURE" "has_hw_dbm"
     "cpu_enable_hw_dbm" (ARM64_CPUID_FIELDS "ID_AA64MMFR1_EL1" "HAFDBS" "DBM") []] else []).

Definition arm64_features_3 : list arm64_cpu_capabilities :=
  (if IS_ENABLED "CONFIG_ARM64_HAFT" then
  [feature "ARM64_HAFT" "ARM64_CPUCAP_SYSTEM_FEATURE" "has_cpuid_feature"
     no_name (ARM64_CPUID_FIELDS "ID_AA64MMFR1_EL1" "HAFDBS" "HAFT") []] else []) ++
  [feature "ARM64_HAS_CRC32" "ARM64_CPUCAP_SYSTEM_FEATURE" "has_cpuid_feature"
     no_name (ARM64_CPUID_FIELDS "ID_AA64ISAR0_EL1" "CRC32" "IMP") [];
   feature "ARM64_SSBS" "ARM64_CPUCAP_SYSTEM_FEATURE" "has_cpuid_feature"
     no_name (ARM64_CPUID_FIELDS "ID_AA64PFR1_EL1" "SSBS" "IMP") []] ++
  (if IS_ENABLED "CONFIG_ARM64_CNP" then
  [feature "ARM64_HAS_CNP" "ARM64_CPUCAP_SYSTEM_FEATURE" "has_useable_cnp"
     "cpu_enable_cnp" (ARM64_CPUID_FIELDS "ID_AA64MMFR2_EL1" "CnP" "IMP") []] else []) ++
  [feature "ARM64_HAS_SB" "ARM64_CPUCAP_SYSTEM_FEATURE" "has_cpuid_feature"
     no_name (ARM64_CPUID_FIELDS "ID_AA64ISAR1_EL1" "SB" "IMP") []] ++
  (if IS_ENABLED "CONFIG_ARM64_PTR_AUTH" then
  [feature "ARM64_HAS_ADDRESS_AUTH_ARCH_QARMA5" "ARM64_CPUCAP_BOOT_CPU_FEATURE" "has_address_auth_cpucap"
     no_name (ARM64_CPUID_FIELDS "ID_AA64ISAR1_EL1" "APA" "PAuth") [];
   feature "ARM64_HAS_ADDRESS_AUTH_ARCH_QARMA3" "ARM64_CPUCAP_BOOT_CPU_FEATURE" "has_address_auth_cpucap"
     no_name (ARM64_CPUID_FIELDS "ID_AA64ISAR2_EL1" "APA3" "PAuth") [];
   feature "ARM64_HAS_ADDRESS_AUTH_IMP_DEF" "ARM64_CPUCAP_BOOT_CPU_FEATURE" "has_address_auth_cpucap"
     no_name (ARM64_CPUID_FIELDS "ID_AA64ISAR1_EL1" "API" "PAuth") [];
   feature "ARM64_HAS_ADDRESS_AUTH" "ARM64_CPUCAP_BOOT_CPU_FEATURE" "has_address_auth_metacap"
     no_name no_field [];
   feature "ARM64_HAS_GENERIC_AUTH_ARCH_QARMA5" "ARM64_CPUCAP_SYSTEM_FEATURE" "has_cpuid_feature"
     no_name (ARM64_CPUID_FIELDS "ID_AA64ISAR1_EL1" "GPA" "IMP") [];
   feature "ARM64_HAS_GENERIC_AUTH_ARCH_QARMA3" "ARM64_CPUCAP_SYSTEM_FEATURE" "has_cpuid_feature"
     no_name (ARM64_CPUID_FIELDS "ID_AA64ISAR2_EL1" "GPA3" "IMP") [];
   feature "ARM64_HAS_GENERIC_AUTH_IMP_DEF" "ARM64_CPUCAP_SYSTEM_FEATURE" "has_cpuid_feature"
     no_name (ARM64_CPUID_FIELDS "ID_AA64ISAR1_EL1" "GPI" "IMP") [];
   feature "ARM64_HAS_GENERIC_AUTH" "ARM64_CPUCAP_SYSTEM_FEATURE" "has_generic_auth"
     no_name no_field []] else []) ++
  (if IS_ENABLED "CONFIG_ARM64_PSEUDO_NMI" then
  [feature "ARM64_HAS_GIC_PRIO_MASKING" "ARM64_CPUCAP_STRICT_BOOT_CPU_FEATURE" "can_use_gic_priorities"
     no_name no_field [];
   feature "ARM64_HAS_GIC_PRIO_RELAXED_SYNC" "ARM64_CPUCAP_STRICT_BOOT_CPU_FEATURE" "has_gic_prio_relaxed_sync"
     no_name no_field []] else []).

Definition arm64_features_4 : list arm64_cpu_capabilities :=
  [feature "ARM64_HAS_ICH_HCR_EL2_TDIR" "ARM64_CPUCAP_EARLY_LOCAL_CPU_FEATURE" "can_trap_icv_dir_el1"
     no_name no_field []] ++
  (if IS_ENABLED "CONFIG_ARM64_E0PD" then
  [feature "ARM64_HAS_E0PD" "ARM64_CPUCAP_SYSTEM_FEATURE" "has_cpuid_feature"
     "cpu_enable_e0pd" (ARM64_CPUID_FIELDS "ID_AA64MMFR2_EL1" "E0PD" "IMP") []] else []) ++
  [feature "ARM64_HAS_RNG" "ARM64_CPUCAP_SYSTEM_FEATURE" "has_cpuid_feature"
     no_name (ARM64_CPUID_FIELDS "ID_AA64ISAR0_EL1" "RNDR" "IMP") []] ++
  (if IS_ENABLED "CONFIG_ARM64_BTI" then
  [feature "ARM64_BTI" (if IS_ENABLED "CONFIG_ARM64_BTI_KERNEL" then "ARM64_CPUCAP_STRICT_BOOT_CPU_FEATURE" else "ARM64_CPUCAP_SYSTEM_FEATURE") "has_cpuid_feature"
     "bti_enable" (ARM64_CPUID_FIELDS "ID_AA64PFR1_EL1" "BT" "IMP") []] else []) ++
  (if IS_ENABLED "CONFIG_ARM64_MTE" then
  [feature "ARM64_MTE" "ARM64_CPUCAP_STRICT_BOOT_CPU_FEATURE" "has_cpuid_feature"
     "cpu_enable_mte" (ARM64_CPUID_FIELDS "ID_AA64PFR1_EL1" "MTE" "MTE2") [];
   feature "ARM64_MTE_ASYMM" "ARM64_CPUCAP_BOOT_CPU_FEATURE" "has_cpuid_feature"
     no_name (ARM64_CPUID_FIELDS "ID_AA64PFR1_EL1" "MTE" "MTE3") [];
   feature "ARM64_MTE_FAR" "ARM64_CPUCAP_SYSTEM_FEATURE" "has_cpuid_feature"
     no_name (ARM64_CPUID_FIELDS "ID_AA64PFR2_EL1" "MTEFAR" "IMP") [];
   feature "ARM64_MTE_STORE_ONLY" "ARM64_CPUCAP_BOOT_CPU_FEATURE" "has_cpuid_feature"
     no_name (ARM64_CPUID_FIELDS "ID_AA64PFR2_EL1" "MTESTOREONLY" "IMP") []] else []) ++
  [feature "ARM64_HAS_LDAPR" "ARM64_CPUCAP_SYSTEM_FEATURE" "has_cpuid_feature"
     no_name (ARM64_CPUID_FIELDS "ID_AA64ISAR1_EL1" "LRCPC" "IMP") [];
   feature "ARM64_HAS_FGT" "ARM64_CPUCAP_SYSTEM_FEATURE" "has_cpuid_feature"
     no_name (ARM64_CPUID_FIELDS "ID_AA64MMFR0_EL1" "FGT" "IMP") [];
   feature "ARM64_HAS_FGT2" "ARM64_CPUCAP_SYSTEM_FEATURE" "has_cpuid_feature"
     no_name (ARM64_CPUID_FIELDS "ID_AA64MMFR0_EL1" "FGT" "FGT2") []] ++
  (if IS_ENABLED "CONFIG_ARM64_SME" then
  [feature "ARM64_SME" "ARM64_CPUCAP_SYSTEM_FEATURE" "has_cpuid_feature"
     "cpu_enable_sme" (ARM64_CPUID_FIELDS "ID_AA64PFR1_EL1" "SME" "IMP") [];
   feature "ARM64_SME_FA64" "ARM64_CPUCAP_SYSTEM_FEATURE" "has_cpuid_feature"
     "cpu_enable_fa64" (ARM64_CPUID_FIELDS "ID_AA64SMFR0_EL1" "FA64" "IMP") [];
   feature "ARM64_SME2" "ARM64_CPUCAP_SYSTEM_FEATURE" "has_cpuid_feature"
     "cpu_enable_sme2" (ARM64_CPUID_FIELDS "ID_AA64PFR1_EL1" "SME" "SME2") []] else []).

Definition arm64_features_5 : list arm64_cpu_capabilities :=
  [feature "ARM64_HAS_WFXT" "ARM64_CPUCAP_SYSTEM_FEATURE" "has_cpuid_feature"
     no_name (ARM64_CPUID_FIELDS "ID_AA64ISAR2_EL1" "WFxT" "IMP") [];
   feature "ARM64_HAS_TIDCP1" "ARM64_CPUCAP_SYSTEM_FEATURE" "has_cpuid_feature"
     "cpu_trap_el0_impdef" (ARM64_CPUID_FIELDS "ID_AA64MMFR1_EL1" "TIDCP1" "IMP") [];
   feature "ARM64_HAS_DIT" "ARM64_CPUCAP_SYSTEM_FEATURE" "has_cpuid_feature"
     "cpu_enable_dit" (ARM64_CPUID_FIELDS "ID_AA64PFR0_EL1" "DIT" "IMP") [];
   feature "ARM64_HAS_MOPS" "ARM64_CPUCAP_SYSTEM_FEATURE" "has_cpuid_feature"
     "cpu_enable_mops" (ARM64_CPUID_FIELDS "ID_AA64ISAR2_EL1" "MOPS" "IMP") [];
   feature "ARM64_HAS_TCR2" "ARM64_CPUCAP_SYSTEM_FEATURE" "has_cpuid_feature"
     no_name (ARM64_CPUID_FIELDS "ID_AA64MMFR3_EL1" "TCRX" "IMP") [];
   feature "ARM64_HAS_S1PIE" "ARM64_CPUCAP_BOOT_CPU_FEATURE" "has_cpuid_feature"
     no_name (ARM64_CPUID_FIELDS "ID_AA64MMFR3_EL1" "S1PIE" "IMP") [];
   feature "ARM64_KVM_HVHE" "ARM64_CPUCAP_SYSTEM_FEATURE" "hvhe_possible"
     no_name no_field [];
   feature "ARM64_HAS_EVT" "ARM64_CPUCAP_SYSTEM_FEATURE" "has_cpuid_feature"
     no_name (ARM64_CPUID_FIELDS "ID_AA64MMFR2_EL1" "EVT" "IMP") [];
   feature "ARM64_HAS_BBML2_NOABORT" "ARM64_CPUCAP_EARLY_LOCAL_CPU_FEATURE" "has_bbml2_noabort"
     no_name no_field [];
   feature "ARM64_HAS_LPA2" "ARM64_CPUCAP_SYSTEM_FEATURE" "has_lpa2"
     no_name no_field [];
   feature "ARM64_HAS_FPMR" "ARM64_CPUCAP_SYSTEM_FEATURE" "has_cpuid_feature"
     "cpu_enable_fpmr" (ARM64_CPUID_FIELDS "ID_AA64PFR2_EL1" "FPMR" "IMP") []] ++
  (if IS_ENABLED "CONFIG_ARM64_VA_BITS_52" then
  [feature "ARM64_HAS_VA52" "ARM64_CPUCAP_BOOT_CPU_FEATURE" "has_cpuid_feature"
     no_name (if IS_ENABLED "CONFIG_ARM64_64K_PAGES" then (ARM64_CPUID_FIELDS "ID_AA64MMFR2_EL1" "VARange" "52") else (if negb (IS_ENABLED "CONFIG_ARM64_64K_PAGES") && IS_ENABLED "CONFIG_ARM64_4K_PAGES" then (ARM64_CPUID_FIELDS "ID_AA64MMFR0_EL1" "TGRAN4" "52_BIT") else (ARM64_CPUID_FIELDS "ID_AA64MMFR0_EL1" "TGRAN16" "52_BIT"))) []] else []) ++
  [feature "ARM64_MPAM" "ARM64_CPUCAP_SYSTEM_FEATURE" "test_has_mpam"
     "cpu_enable_mpam" no_field [];
   feature "ARM64_MPAM_HCR" "ARM64_CPUCAP_SYSTEM_FEATURE" "test_has_mpam_hcr"
     no_name no_field [];
   feature "ARM64_HAS_HCR_NV1" "ARM64_CPUCAP_SYSTEM_FEATURE" "has_nv1"
     no_name (ARM64_CPUID_FIELDS_NEG "ID_AA64MMFR4_EL1" "E2H0" "NI_NV1") []].

Definition arm64_features_6 : list arm64_cpu_capabilities :=
  (if IS_ENABLED "CONFIG_ARM64_POE" then
  [feature "ARM64_HAS_S1POE" "ARM64_CPUCAP_BOOT_CPU_FEATURE" "has_cpuid_feature"
     "cpu_enable_poe" (ARM64_CPUID_FIELDS "ID_AA64MMFR3_EL1" "S1POE" "IMP") []] else []) ++
  (if IS_ENABLED "CONFIG_ARM64_GCS" then
  [feature "ARM64_HAS_GCS" "ARM64_CPUCAP_SYSTEM_FEATURE" "has_cpuid_feature"
     "cpu_enable_gcs" (ARM64_CPUID_FIELDS "ID_AA64PFR1_EL1" "GCS" "IMP") []] else []) ++
  (if IS_ENABLED "CONFIG_HW_PERF_EVENTS" then
  [feature "ARM64_HAS_PMUV3" "ARM64_CPUCAP_SYSTEM_FEATURE" "has_pmuv3"
     no_name no_field []] else []) ++
  [feature "ARM64_HAS_SCTLR2" "ARM64_CPUCAP_SYSTEM_FEATURE" "has_cpuid_feature"
     no_name (ARM64_CPUID_FIELDS "ID_AA64MMFR3_EL1" "SCTLRX" "IMP") [];
   feature "ARM64_HAS_GICV5_CPUIF" "ARM64_CPUCAP_STRICT_BOOT_CPU_FEATURE" "has_cpuid_feature"
     no_name (ARM64_CPUID_FIELDS "ID_AA64PFR2_EL1" "GCIE" "IMP") [];
   feature "ARM64_HAS_GICV5_LEGACY" "ARM64_CPUCAP_EARLY_LOCAL_CPU_FEATURE" "test_has_gicv5_legacy"
     no_name no_field [];
   feature "ARM64_HAS_XNX" "ARM64_CPUCAP_SYSTEM_FEATURE" "has_cpuid_feature"
     no_name (ARM64_CPUID_FIELDS "ID_AA64MMFR1_EL1" "XNX" "IMP") [];
   feature "ARM64_HAS_LS64" "ARM64_CPUCAP_SYSTEM_FEATURE" "has_cpuid_feature"
     "cpu_enable_ls64" (ARM64_CPUID_FIELDS "ID_AA64ISAR1_EL1" "LS64" "LS64") [];
   feature "ARM64_HAS_LS64_V" "ARM64_CPUCAP_SYSTEM_FEATURE" "has_cpuid_feature"
     "cpu_enable_ls64_v" (ARM64_CPUID_FIELDS "ID_AA64ISAR1_EL1" "LS64" "LS64_V") []] ++
  (if IS_ENABLED "CONFIG_ARM64_LSUI" then
  [feature "ARM64_HAS_LSUI" "ARM64_CPUCAP_SYSTEM_FEATURE" "has_cpuid_feature"
     no_name (ARM64_CPUID_FIELDS "ID_AA64ISAR3_EL1" "LSUI" "IMP") []] else []).

Definition arm64_features : list arm64_cpu_capabilities :=
  arm64_features_1 ++ arm64_features_2 ++ arm64_features_3 ++ arm64_features_4 ++ arm64_features_5 ++ arm64_features_6.

(** ** The capabilities that programs are told of *)

Definition HWCAP_CPUID_MATCH (reg field min_value : string) : string * cpuid_field :=
  ("has_user_cpuid_feature", ARM64_CPUID_FIELDS reg field min_value).
Definition __HWCAP_CAP (matches : string) (type : hwcap_type) (cap : Z) (field : cpuid_field)
    (match_list : list (string * cpuid_field)) : arm64_cpu_capabilities :=
  Cap matches 0 (SYSREG "ARM64_CPUCAP_SYSTEM_FEATURE") no_name type cap field match_list.
Definition HWCAP_CAP (reg field min_value : string) (type : hwcap_type) (cap : Z) : arm64_cpu_capabilities :=
  let '(matches, f) := HWCAP_CPUID_MATCH reg field min_value in __HWCAP_CAP matches type cap f [].
Definition HWCAP_MULTI_CAP (l : list (string * cpuid_field)) (type : hwcap_type) (cap : Z) : arm64_cpu_capabilities :=
  __HWCAP_CAP "cpucap_multi_entry_cap_matches" type cap no_field l.
Definition HWCAP_CAP_MATCH (matches : string) (type : hwcap_type) (cap : Z) : arm64_cpu_capabilities :=
  __HWCAP_CAP matches type cap no_field [].
(** The second initialiser of [matches] wins. *)
Definition HWCAP_CAP_MATCH_ID (matches reg field min_value : string) (type : hwcap_type) (cap : Z) : arm64_cpu_capabilities :=
  __HWCAP_CAP matches type cap (HWCAP_CPUID_MATCH reg field min_value).2 [].

Definition ptr_auth_hwcap_addr_matches : list (string * cpuid_field) :=
  [HWCAP_CPUID_MATCH "ID_AA64ISAR1_EL1" "APA" "PAuth";
   HWCAP_CPUID_MATCH "ID_AA64ISAR2_EL1" "APA3" "PAuth";
   HWCAP_CPUID_MATCH "ID_AA64ISAR1_EL1" "API" "PAuth"].

Definition ptr_auth_hwcap_gen_matches : list (string * cpuid_field) :=
  [HWCAP_CPUID_MATCH "ID_AA64ISAR1_EL1" "GPA" "IMP";
   HWCAP_CPUID_MATCH "ID_AA64ISAR2_EL1" "GPA3" "IMP";
   HWCAP_CPUID_MATCH "ID_AA64ISAR1_EL1" "GPI" "IMP"].

Definition arm64_elf_hwcaps : list arm64_cpu_capabilities :=
  [HWCAP_CAP "ID_AA64ISAR0_EL1" "AES" "PMULL" CAP_HWCAP (SYSREG "KERNEL_HWCAP_PMULL");
   HWCAP_CAP "ID_AA64ISAR0_EL1" "AES" "AES" CAP_HWCAP (SYSREG "KERNEL_HWCAP_AES");
   HWCAP_CAP "ID_AA64ISAR0_EL1" "SHA1" "IMP" CAP_HWCAP (SYSREG "KERNEL_HWCAP_SHA1");
   HWCAP_CAP "ID_AA64ISAR0_EL1" "SHA2" "SHA256" CAP_HWCAP (SYSREG "KERNEL_HWCAP_SHA2");
   HWCAP_CAP "ID_AA64ISAR0_EL1" "SHA2" "SHA512" CAP_HWCAP (SYSREG "KERNEL_HWCAP_SHA512");
   HWCAP_CAP "ID_AA64ISAR0_EL1" "CRC32" "IMP" CAP_HWCAP (SYSREG "KERNEL_HWCAP_CRC32");
   HWCAP_CAP "ID_AA64ISAR0_EL1" "ATOMIC" "IMP" CAP_HWCAP (SYSREG "KERNEL_HWCAP_ATOMICS");
   HWCAP_CAP "ID_AA64ISAR0_EL1" "ATOMIC" "FEAT_LSE128" CAP_HWCAP (SYSREG "KERNEL_HWCAP_LSE128");
   HWCAP_CAP "ID_AA64ISAR0_EL1" "RDM" "IMP" CAP_HWCAP (SYSREG "KERNEL_HWCAP_ASIMDRDM");
   HWCAP_CAP "ID_AA64ISAR0_EL1" "SHA3" "IMP" CAP_HWCAP (SYSREG "KERNEL_HWCAP_SHA3");
   HWCAP_CAP "ID_AA64ISAR0_EL1" "SM3" "IMP" CAP_HWCAP (SYSREG "KERNEL_HWCAP_SM3");
   HWCAP_CAP "ID_AA64ISAR0_EL1" "SM4" "IMP" CAP_HWCAP (SYSREG "KERNEL_HWCAP_SM4");
   HWCAP_CAP "ID_AA64ISAR0_EL1" "DP" "IMP" CAP_HWCAP (SYSREG "KERNEL_HWCAP_ASIMDDP");
   HWCAP_CAP "ID_AA64ISAR0_EL1" "FHM" "IMP" CAP_HWCAP (SYSREG "KERNEL_HWCAP_ASIMDFHM");
   HWCAP_CAP "ID_AA64ISAR0_EL1" "FHM" "F16F32DOT" CAP_HWCAP (SYSREG "KERNEL_HWCAP_F16F32DOT");
   HWCAP_CAP "ID_AA64ISAR0_EL1" "FHM" "F16F32MM" CAP_HWCAP (SYSREG "KERNEL_HWCAP_F16F32MM");
   HWCAP_CAP "ID_AA64ISAR0_EL1" "TS" "FLAGM" CAP_HWCAP (SYSREG "KERNEL_HWCAP_FLAGM");
   HWCAP_CAP "ID_AA64ISAR0_EL1" "TS" "FLAGM2" CAP_HWCAP (SYSREG "KERNEL_HWCAP_FLAGM2");
   HWCAP_CAP "ID_AA64ISAR0_EL1" "RNDR" "IMP" CAP_HWCAP (SYSREG "KERNEL_HWCAP_RNG");
   HWCAP_CAP "ID_AA64ISAR3_EL1" "FPRCVT" "IMP" CAP_HWCAP (SYSREG "KERNEL_HWCAP_FPRCVT");
   HWCAP_CAP "ID_AA64PFR0_EL1" "FP" "IMP" CAP_HWCAP (SYSREG "KERNEL_HWCAP_FP");
   HWCAP_CAP "ID_AA64PFR0_EL1" "FP" "FP16" CAP_HWCAP (SYSREG "KERNEL_HWCAP_FPHP");
   HWCAP_CAP "ID_AA64PFR0_EL1" "AdvSIMD" "IMP" CAP_HWCAP (SYSREG "KERNEL_HWCAP_ASIMD");
   HWCAP_CAP "ID_AA64PFR0_EL1" "AdvSIMD" "FP16" CAP_HWCAP (SYSREG "KERNEL_HWCAP_ASIMDHP");
   HWCAP_CAP "ID_AA64PFR0_EL1" "DIT" "IMP" CAP_HWCAP (SYSREG "KERNEL_HWCAP_DIT");
   HWCAP_CAP "ID_AA64PFR2_EL1" "FPMR" "IMP" CAP_HWCAP (SYSREG "KERNEL_HWCAP_FPMR");
   HWCAP_CAP "ID_AA64ISAR1_EL1" "DPB" "IMP" CAP_HWCAP (SYSREG "KERNEL_HWCAP_DCPOP");
   HWCAP_CAP "ID_AA64ISAR1_EL1" "DPB" "DPB2" CAP_HWCAP (SYSREG "KERNEL_HWCAP_DCPODP");
   HWCAP_CAP "ID_AA64ISAR1_EL1" "JSCVT" "IMP" CAP_HWCAP (SYSREG "KERNEL_HWCAP_JSCVT");
   HWCAP_CAP "ID_AA64ISAR1_EL1" "FCMA" "IMP" CAP_HWCAP (SYSREG "KERNEL_HWCAP_FCMA");
   HWCAP_CAP "ID_AA64ISAR1_EL1" "LRCPC" "IMP" CAP_HWCAP (SYSREG "KERNEL_HWCAP_LRCPC");
   HWCAP_CAP "ID_AA64ISAR1_EL1" "LRCPC" "LRCPC2" CAP_HWCAP (SYSREG "KERNEL_HWCAP_ILRCPC");
   HWCAP_CAP "ID_AA64ISAR1_EL1" "LRCPC" "LRCPC3" CAP_HWCAP (SYSREG "KERNEL_HWCAP_LRCPC3");
   HWCAP_CAP "ID_AA64ISAR1_EL1" "FRINTTS" "IMP" CAP_HWCAP (SYSREG "KERNEL_HWCAP_FRINT");
   HWCAP_CAP "ID_AA64ISAR1_EL1" "SB" "IMP" CAP_HWCAP (SYSREG "KERNEL_HWCAP_SB");
   HWCAP_CAP "ID_AA64ISAR1_EL1" "BF16" "IMP" CAP_HWCAP (SYSREG "KERNEL_HWCAP_BF16");
   HWCAP_CAP "ID_AA64ISAR1_EL1" "BF16" "EBF16" CAP_HWCAP (SYSREG "KERNEL_HWCAP_EBF16");
   HWCAP_CAP "ID_AA64ISAR1_EL1" "DGH" "IMP" CAP_HWCAP (SYSREG "KERNEL_HWCAP_DGH");
   HWCAP_CAP "ID_AA64ISAR1_EL1" "I8MM" "IMP" CAP_HWCAP (SYSREG "KERNEL_HWCAP_I8MM");
   HWCAP_CAP "ID_AA64ISAR1_EL1" "LS64" "LS64" CAP_HWCAP (SYSREG "KERNEL_HWCAP_LS64");
   HWCAP_CAP "ID_AA64ISAR2_EL1" "LUT" "IMP" CAP_HWCAP (SYSREG "KERNEL_HWCAP_LUT");
   HWCAP_CAP "ID_AA64ISAR3_EL1" "FAMINMAX" "IMP" CAP_HWCAP (SYSREG "KERNEL_HWCAP_FAMINMAX");
   HWCAP_CAP "ID_AA64ISAR3_EL1" "LSFE" "IMP" CAP_HWCAP (SYSREG "KERNEL_HWCAP_LSFE");
   HWCAP_CAP "ID_AA64MMFR2_EL1" "AT" "IMP" CAP_HWCAP (SYSREG "KERNEL_HWCAP_USCAT")] ++
  (if IS_ENABLED "CONFIG_ARM64_SVE" then
  [HWCAP_CAP_MATCH_ID "has_sve_feature" "ID_AA64ISAR2_EL1" "LUT" "LUT6" CAP_HWCAP (SYSREG "KERNEL_HWCAP_SVE_LUT6");
   HWCAP_CAP "ID_AA64PFR0_EL1" "SVE" "IMP" CAP_HWCAP (SYSREG "KERNEL_HWCAP_SVE");
   HWCAP_CAP_MATCH_ID "has_sve_feature" "ID_AA64ZFR0_EL1" "SVEver" "SVE2p3" CAP_HWCAP (SYSREG "KERNEL_HWCAP_SVE2P3");
   HWCAP_CAP_MATCH_ID "has_sve_feature" "ID_AA64ZFR0_EL1" "SVEver" "SVE2p2" CAP_HWCAP (SYSREG "KERNEL_HWCAP_SVE2P2");
   HWCAP_CAP_MATCH_ID "has_sve_feature" "ID_AA64ZFR0_EL1" "SVEver" "SVE2p1" CAP_HWCAP (SYSREG "KERNEL_HWCAP_SVE2P1");
   HWCAP_CAP_MATCH_ID "has_sve_feature" "ID_AA64ZFR0_EL1" "SVEver" "SVE2" CAP_HWCAP (SYSREG "KERNEL_HWCAP_SVE2");
   HWCAP_CAP_MATCH_ID "has_sve_feature" "ID_AA64ZFR0_EL1" "AES" "IMP" CAP_HWCAP (SYSREG "KERNEL_HWCAP_SVEAES");
   HWCAP_CAP_MATCH_ID "has_sve_feature" "ID_AA64ZFR0_EL1" "AES" "PMULL128" CAP_HWCAP (SYSREG "KERNEL_HWCAP_SVEPMULL");
   HWCAP_CAP_MATCH_ID "has_sve_feature" "ID_AA64ZFR0_EL1" "AES" "AES2" CAP_HWCAP (SYSREG "KERNEL_HWCAP_SVE_AES2");
   HWCAP_CAP_MATCH_ID "has_sve_feature" "ID_AA64ZFR0_EL1" "BitPerm" "IMP" CAP_HWCAP (SYSREG "KERNEL_HWCAP_SVEBITPERM");
   HWCAP_CAP_MATCH_ID "has_sve_feature" "ID_AA64ZFR0_EL1" "B16B16" "IMP" CAP_HWCAP (SYSREG "KERNEL_HWCAP_SVE_B16B16");
   HWCAP_CAP_MATCH_ID "has_sve_feature" "ID_AA64ZFR0_EL1" "B16B16" "BFSCALE" CAP_HWCAP (SYSREG "KERNEL_HWCAP_SVE_BFSCALE");
   HWCAP_CAP_MATCH_ID "has_sve_feature" "ID_AA64ZFR0_EL1" "B16B16" "B16MM" CAP_HWCAP (SYSREG "KERNEL_HWCAP_SVE_B16MM");
   HWCAP_CAP_MATCH_ID "has_sve_feature" "ID_AA64ZFR0_EL1" "BF16" "IMP" CAP_HWCAP (SYSREG "KERNEL_HWCAP_SVEBF16");
   HWCAP_CAP_MATCH_ID "has_sve_feature" "ID_AA64ZFR0_EL1" "BF16" "EBF16" CAP_HWCAP (SYSREG "KERNEL_HWCAP_SVE_EBF16");
   HWCAP_CAP_MATCH_ID "has_sve_feature" "ID_AA64ZFR0_EL1" "SHA3" "IMP" CAP_HWCAP (SYSREG "KERNEL_HWCAP_SVESHA3");
   HWCAP_CAP_MATCH_ID "has_sve_feature" "ID_AA64ZFR0_EL1" "SM4" "IMP" CAP_HWCAP (SYSREG "KERNEL_HWCAP_SVESM4");
   HWCAP_CAP_MATCH_ID "has_sve_feature" "ID_AA64ZFR0_EL1" "I8MM" "IMP" CAP_HWCAP (SYSREG "KERNEL_HWCAP_SVEI8MM");
   HWCAP_CAP_MATCH_ID "has_sve_feature" "ID_AA64ZFR0_EL1" "F32MM" "IMP" CAP_HWCAP (SYSREG "KERNEL_HWCAP_SVEF32MM");
   HWCAP_CAP_MATCH_ID "has_sve_feature" "ID_AA64ZFR0_EL1" "F64MM" "IMP" CAP_HWCAP (SYSREG "KERNEL_HWCAP_SVEF64MM");
   HWCAP_CAP_MATCH_ID "has_sve_feature" "ID_AA64ZFR0_EL1" "F16MM" "IMP" CAP_HWCAP (SYSREG "KERNEL_HWCAP_SVE_F16MM");
   HWCAP_CAP_MATCH_ID "has_sve_feature" "ID_AA64ZFR0_EL1" "EltPerm" "IMP" CAP_HWCAP (SYSREG "KERNEL_HWCAP_SVE_ELTPERM")] else []) ++
  (if IS_ENABLED "CONFIG_ARM64_GCS" then
  [HWCAP_CAP "ID_AA64PFR1_EL1" "GCS" "IMP" CAP_HWCAP (SYSREG "KERNEL_HWCAP_GCS")] else []) ++
  [HWCAP_CAP "ID_AA64PFR1_EL1" "SSBS" "SSBS2" CAP_HWCAP (SYSREG "KERNEL_HWCAP_SSBS")] ++
  (if IS_ENABLED "CONFIG_ARM64_BTI" then
  [HWCAP_CAP "ID_AA64PFR1_EL1" "BT" "IMP" CAP_HWCAP (SYSREG "KERNEL_HWCAP_BTI")] else []) ++
  (if IS_ENABLED "CONFIG_ARM64_PTR_AUTH" then
  [HWCAP_MULTI_CAP ptr_auth_hwcap_addr_matches CAP_HWCAP (SYSREG "KERNEL_HWCAP_PACA");
   HWCAP_MULTI_CAP ptr_auth_hwcap_gen_matches CAP_HWCAP (SYSREG "KERNEL_HWCAP_PACG")] else []) ++
  (if IS_ENABLED "CONFIG_ARM64_MTE" then
  [HWCAP_CAP "ID_AA64PFR1_EL1" "MTE" "MTE2" CAP_HWCAP (SYSREG "KERNEL_HWCAP_MTE");
   HWCAP_CAP "ID_AA64PFR1_EL1" "MTE" "MTE3" CAP_HWCAP (SYSREG "KERNEL_HWCAP_MTE3");
   HWCAP_CAP "ID_AA64PFR2_EL1" "MTEFAR" "IMP" CAP_HWCAP (SYSREG "KERNEL_HWCAP_MTE_FAR");
   HWCAP_CAP "ID_AA64PFR2_EL1" "MTESTOREONLY" "IMP" CAP_HWCAP (SYSREG "KERNEL_HWCAP_MTE_STORE_ONLY")] else []) ++
  [HWCAP_CAP "ID_AA64MMFR0_EL1" "ECV" "IMP" CAP_HWCAP (SYSREG "KERNEL_HWCAP_ECV");
   HWCAP_CAP "ID_AA64MMFR1_EL1" "AFP" "IMP" CAP_HWCAP (SYSREG "KERNEL_HWCAP_AFP");
   HWCAP_CAP "ID_AA64ISAR2_EL1" "CSSC" "IMP" CAP_HWCAP (SYSREG "KERNEL_HWCAP_CSSC");
   HWCAP_CAP "ID_AA64ISAR2_EL1" "CSSC" "CMPBR" CAP_HWCAP (SYSREG "KERNEL_HWCAP_CMPBR");
   HWCAP_CAP "ID_AA64ISAR2_EL1" "RPRFM" "IMP" CAP_HWCAP (SYSREG "KERNEL_HWCAP_RPRFM");
   HWCAP_CAP "ID_AA64ISAR2_EL1" "RPRES" "IMP" CAP_HWCAP (SYSREG "KERNEL_HWCAP_RPRES");
   HWCAP_CAP "ID_AA64ISAR2_EL1" "WFxT" "IMP" CAP_HWCAP (SYSREG "KERNEL_HWCAP_WFXT");
   HWCAP_CAP "ID_AA64ISAR2_EL1" "MOPS" "IMP" CAP_HWCAP (SYSREG "KERNEL_HWCAP_MOPS");
   HWCAP_CAP "ID_AA64ISAR2_EL1" "BC" "IMP" CAP_HWCAP (SYSREG "KERNEL_HWCAP_HBC")] ++
  (if IS_ENABLED "CONFIG_ARM64_SME" then
  [HWCAP_CAP "ID_AA64PFR1_EL1" "SME" "IMP" CAP_HWCAP (SYSREG "KERNEL_HWCAP_SME");
   HWCAP_CAP_MATCH_ID "has_sme_feature" "ID_AA64SMFR0_EL1" "FA64" "IMP" CAP_HWCAP (SYSREG "KERNEL_HWCAP_SME_FA64");
   HWCAP_CAP_MATCH_ID "has_sme_feature" "ID_AA64SMFR0_EL1" "LUT6" "IMP" CAP_HWCAP (SYSREG "KERNEL_HWCAP_SME_LUT6");
   HWCAP_CAP_MATCH_ID "has_sme_feature" "ID_AA64SMFR0_EL1" "LUTv2" "IMP" CAP_HWCAP (SYSREG "KERNEL_HWCAP_SME_LUTV2");
   HWCAP_CAP_MATCH_ID "has_sme_feature" "ID_AA64SMFR0_EL1" "SMEver" "SME2p3" CAP_HWCAP (SYSREG "KERNEL_HWCAP_SME2P3");
   HWCAP_CAP_MATCH_ID "has_sme_feature" "ID_AA64SMFR0_EL1" "SMEver" "SME2p2" CAP_HWCAP (SYSREG "KERNEL_HWCAP_SME2P2");
   HWCAP_CAP_MATCH_ID "has_sme_feature" "ID_AA64SMFR0_EL1" "SMEver" "SME2p1" CAP_HWCAP (SYSREG "KERNEL_HWCAP_SME2P1");
   HWCAP_CAP_MATCH_ID "has_sme_feature" "ID_AA64SMFR0_EL1" "SMEver" "SME2" CAP_HWCAP (SYSREG "KERNEL_HWCAP_SME2");
   HWCAP_CAP_MATCH_ID "has_sme_feature" "ID_AA64SMFR0_EL1" "I16I64" "IMP" CAP_HWCAP (SYSREG "KERNEL_HWCAP_SME_I16I64");
   HWCAP_CAP_MATCH_ID "has_sme_feature" "ID_AA64SMFR0_EL1" "F64F64" "IMP" CAP_HWCAP (SYSREG "KERNEL_HWCAP_SME_F64F64");
   HWCAP_CAP_MATCH_ID "has_sme_feature" "ID_AA64SMFR0_EL1" "I16I32" "IMP" CAP_HWCAP (SYSREG "KERNEL_HWCAP_SME_I16I32");
   HWCAP_CAP_MATCH_ID "has_sme_feature" "ID_AA64SMFR0_EL1" "B16B16" "IMP" CAP_HWCAP (SYSREG "KERNEL_HWCAP_SME_B16B16");
   HWCAP_CAP_MATCH_ID "has_sme_feature" "ID_AA64SMFR0_EL1" "F16F16" "IMP" CAP_HWCAP (SYSREG "KERNEL_HWCAP_SME_F16F16");
   HWCAP_CAP_MATCH_ID "has_sme_feature" "ID_AA64SMFR0_EL1" "F8F16" "IMP" CAP_HWCAP (SYSREG "KERNEL_HWCAP_SME_F8F16");
   HWCAP_CAP_MATCH_ID "has_sme_feature" "ID_AA64SMFR0_EL1" "F8F32" "IMP" CAP_HWCAP (SYSREG "KERNEL_HWCAP_SME_F8F32");
   HWCAP_CAP_MATCH_ID "has_sme_feature" "ID_AA64SMFR0_EL1" "I8I32" "IMP" CAP_HWCAP (SYSREG "KERNEL_HWCAP_SME_I8I32");
   HWCAP_CAP_MATCH_ID "has_sme_feature" "ID_AA64SMFR0_EL1" "F16F32" "IMP" CAP_HWCAP (SYSREG "KERNEL_HWCAP_SME_F16F32");
   HWCAP_CAP_MATCH_ID "has_sme_feature" "ID_AA64SMFR0_EL1" "B16F32" "IMP" CAP_HWCAP (SYSREG "KERNEL_HWCAP_SME_B16F32");
   HWCAP_CAP_MATCH_ID "has_sme_feature" "ID_AA64SMFR0_EL1" "BI32I32" "IMP" CAP_HWCAP (SYSREG "KERNEL_HWCAP_SME_BI32I32");
   HWCAP_CAP_MATCH_ID "has_sme_feature" "ID_AA64SMFR0_EL1" "F32F32" "IMP" CAP_HWCAP (SYSREG "KERNEL_HWCAP_SME_F32F32");
   HWCAP_CAP_MATCH_ID "has_sme_feature" "ID_AA64SMFR0_EL1" "SF8FMA" "IMP" CAP_HWCAP (SYSREG "KERNEL_HWCAP_SME_SF8FMA");
   HWCAP_CAP_MATCH_ID "has_sme_feature" "ID_AA64SMFR0_EL1" "SF8DP4" "IMP" CAP_HWCAP (SYSREG "KERNEL_HWCAP_SME_SF8DP4");
   HWCAP_CAP_MATCH_ID "has_sme_feature" "ID_AA64SMFR0_EL1" "SF8DP2" "IMP" CAP_HWCAP (SYSREG "KERNEL_HWCAP_SME_SF8DP2");
   HWCAP_CAP_MATCH_ID "has_sme_feature" "ID_AA64SMFR0_EL1" "SBitPerm" "IMP" CAP_HWCAP (SYSREG "KERNEL_HWCAP_SME_SBITPERM");
   HWCAP_CAP_MATCH_ID "has_sme_feature" "ID_AA64SMFR0_EL1" "AES" "IMP" CAP_HWCAP (SYSREG "KERNEL_HWCAP_SME_AES");
   HWCAP_CAP_MATCH_ID "has_sme_feature" "ID_AA64SMFR0_EL1" "SFEXPA" "IMP" CAP_HWCAP (SYSREG "KERNEL_HWCAP_SME_SFEXPA");
   HWCAP_CAP_MATCH_ID "has_sme_feature" "ID_AA64SMFR0_EL1" "STMOP" "IMP" CAP_HWCAP (SYSREG "KERNEL_HWCAP_SME_STMOP");
   HWCAP_CAP_MATCH_ID "has_sme_feature" "ID_AA64SMFR0_EL1" "SMOP4" "IMP" CAP_HWCAP (SYSREG "KERNEL_HWCAP_SME_SMOP4")] else []) ++
  [HWCAP_CAP "ID_AA64FPFR0_EL1" "F8CVT" "IMP" CAP_HWCAP (SYSREG "KERNEL_HWCAP_F8CVT");
   HWCAP_CAP "ID_AA64FPFR0_EL1" "F8FMA" "IMP" CAP_HWCAP (SYSREG "KERNEL_HWCAP_F8FMA");
   HWCAP_CAP "ID_AA64FPFR0_EL1" "F8DP4" "IMP" CAP_HWCAP (SYSREG "KERNEL_HWCAP_F8DP4");
   HWCAP_CAP "ID_AA64FPFR0_EL1" "F8DP2" "IMP" CAP_HWCAP (SYSREG "KERNEL_HWCAP_F8DP2");
   HWCAP_CAP "ID_AA64FPFR0_EL1" "F8MM8" "IMP" CAP_HWCAP (SYSREG "KERNEL_HWCAP_F8MM8");
   HWCAP_CAP "ID_AA64FPFR0_EL1" "F8MM4" "IMP" CAP_HWCAP (SYSREG "KERNEL_HWCAP_F8MM4");
   HWCAP_CAP "ID_AA64FPFR0_EL1" "F16MM2" "IMP" CAP_HWCAP (SYSREG "KERNEL_HWCAP_F16MM");
   HWCAP_CAP "ID_AA64FPFR0_EL1" "F8E4M3" "IMP" CAP_HWCAP (SYSREG "KERNEL_HWCAP_F8E4M3");
   HWCAP_CAP "ID_AA64FPFR0_EL1" "F8E5M2" "IMP" CAP_HWCAP (SYSREG "KERNEL_HWCAP_F8E5M2")] ++
  (if IS_ENABLED "CONFIG_ARM64_POE" then
  [HWCAP_CAP "ID_AA64MMFR3_EL1" "S1POE" "IMP" CAP_HWCAP (SYSREG "KERNEL_HWCAP_POE")] else []).

Definition compat_elf_hwcaps : list arm64_cpu_capabilities :=
  (if IS_ENABLED "CONFIG_COMPAT" then
  [HWCAP_CAP_MATCH "compat_has_neon" CAP_COMPAT_HWCAP (SYSREG "COMPAT_HWCAP_NEON");
   HWCAP_CAP "MVFR1_EL1" "SIMDFMAC" "IMP" CAP_COMPAT_HWCAP (SYSREG "COMPAT_HWCAP_VFPv4");
   HWCAP_CAP "MVFR0_EL1" "FPDP" "VFPv3" CAP_COMPAT_HWCAP (SYSREG "COMPAT_HWCAP_VFP");
   HWCAP_CAP "MVFR0_EL1" "FPDP" "VFPv3" CAP_COMPAT_HWCAP (SYSREG "COMPAT_HWCAP_VFPv3");
   HWCAP_CAP "MVFR1_EL1" "FPHP" "FP16" CAP_COMPAT_HWCAP (SYSREG "COMPAT_HWCAP_FPHP");
   HWCAP_CAP "MVFR1_EL1" "SIMDHP" "SIMDHP_FLOAT" CAP_COMPAT_HWCAP (SYSREG "COMPAT_HWCAP_ASIMDHP");
   HWCAP_CAP "ID_ISAR5_EL1" "AES" "VMULL" CAP_COMPAT_HWCAP2 (SYSREG "COMPAT_HWCAP2_PMULL");
   HWCAP_CAP "ID_ISAR5_EL1" "AES" "IMP" CAP_COMPAT_HWCAP2 (SYSREG "COMPAT_HWCAP2_AES");
   HWCAP_CAP "ID_ISAR5_EL1" "SHA1" "IMP" CAP_COMPAT_HWCAP2 (SYSREG "COMPAT_HWCAP2_SHA1");
   HWCAP_CAP "ID_ISAR5_EL1" "SHA2" "IMP" CAP_COMPAT_HWCAP2 (SYSREG "COMPAT_HWCAP2_SHA2");
   HWCAP_CAP "ID_ISAR5_EL1" "CRC32" "IMP" CAP_COMPAT_HWCAP2 (SYSREG "COMPAT_HWCAP2_CRC32");
   HWCAP_CAP "ID_ISAR6_EL1" "DP" "IMP" CAP_COMPAT_HWCAP (SYSREG "COMPAT_HWCAP_ASIMDDP");
   HWCAP_CAP "ID_ISAR6_EL1" "FHM" "IMP" CAP_COMPAT_HWCAP (SYSREG "COMPAT_HWCAP_ASIMDFHM");
   HWCAP_CAP "ID_ISAR6_EL1" "SB" "IMP" CAP_COMPAT_HWCAP2 (SYSREG "COMPAT_HWCAP2_SB");
   HWCAP_CAP "ID_ISAR6_EL1" "BF16" "IMP" CAP_COMPAT_HWCAP (SYSREG "COMPAT_HWCAP_ASIMDBF16");
   HWCAP_CAP "ID_ISAR6_EL1" "I8MM" "IMP" CAP_COMPAT_HWCAP (SYSREG "COMPAT_HWCAP_I8MM");
   HWCAP_CAP "ID_PFR2_EL1" "SSBS" "IMP" CAP_COMPAT_HWCAP2 (SYSREG "COMPAT_HWCAP2_SSBS")] else []).

End tables.
