(* ===== verification/CpuMatch.v ===== *)
(** * The callbacks of arm64 CPU capabilities

    sources/asahi--arch__arm64__kernel__cpufeature.c, lines 1629-2566 and 4217-4241: how a
    capability is found on a CPU when it is more than a field of a register, and what
    the kernel decides on the isolation of its page tables.

    Functions of other files answer through [CpuEnv]; the capabilities asked for by a
    callback ([cpus_have_cap], [this_cpu_has_cap], [__system_matches_cap], see
    [CpuCaps.v]) are arguments of the section. *)

From Stdlib Require Import ZArith Lia Bool.
From stdpp Require Import base numbers list strings option gmap fin_sets.
From S2P Require Import Prelude IdregOverride CpuFtrTables CpuFeature CpuCaps CpuCapTables.

Local Open Scope Z_scope.

(** ** Lists of CPU models (asm/cputype.h) *)

Inductive midr_range :=
| MIDR_ALL_VERSIONS (m : string)
| MIDR_REV_RANGE (m : string) (v r_min r_max : Z)
| MIDR_REV (m : string) (v r : Z).

(** What other files tell; a function of a CPU takes its number. *)
Class CpuEnv := {
  read_sysreg_s : Z → string → Z;
  is_midr_in_range_list : Z → list midr_range → bool;
  gic_enable_sre : Z → bool;
  gic_read_ctlr : Z → Z;
  read_cpuid_effective_cachetype : Z → Z; read_cpuid_cachetype : Z → Z;
  cpuid_extract_unsigned : Z → Z → Z; cpuid_extract : Z → Z → bool → Z;
  pmuv3_implemented : Z → bool;
  is_kdump_kernel : bool; kaslr_enabled : bool; kaslr_requires_kpti : bool; cpu_mitigations_off : bool;
  kernel_in_hyp_mode : bool; hyp_mode_available : bool; is_protected_kvm_enabled : bool;
  kvm_get_mode : Z; KVM_MODE_NV : Z; KVM_MODE_PROTECTED : Z;
  hvhe_override : bool;
  multi_entry_cap_matches : (string * cpuid_field → bool) → list (string * cpuid_field) → bool;
  hvc_get_ich_vtr : Z → Z * Z; HVC_STUB_ERR : Z;
  mediatek_broken_fw : bool;
  MASK64 : string → Z
}.

Section callbacks.
Context `{Sysregs} `{FtrHeader} `{CapHeader} `{CpuEnv}.
(** The registers of the system, those of the CPUs, the command line. *)
Context (s : sys) (read_sysreg : Z → Z → Z) (allow_mismatched_32bit_el0 enable_pseudo_nmi finalized : bool).
(** The capabilities that are asked for. *)
Context (have_cap : Z → bool) (this_cpu_has : Z → Z → bool) (system_matches : Z → bool).

(** [None]: the kernel stopped. *)
Definition field_matches (cpu scope : Z) (e : cpuid_field) : option bool :=
  (has_cpuid_feature (read_sysreg cpu) e (scope =? SCOPE_SYSTEM) s).1.
Definition sanitised (n : string) : Z := (read_sanitised_ftr_reg (SYSREG n) s).1.

Definition has_always : bool := true.

Definition has_32bit_el0 (cpu scope : Z) (c : arm64_cpu_capabilities) : option bool :=
  m ← field_matches cpu scope (cap_field c); Some (if negb m then allow_mismatched_32bit_el0 else true).

Definition has_useable_gicv3_cpuif (cpu scope : Z) (c : arm64_cpu_capabilities) : option bool :=
  m ← field_matches cpu scope (cap_field c); Some (if negb m then false else gic_enable_sre cpu).

Definition has_cache_idc (cpu scope : Z) : bool :=
  let ctr := if scope =? SCOPE_SYSTEM then sanitised "SYS_CTR_EL0" else read_cpuid_effective_cachetype cpu in
  negb (Z.land ctr (BIT (SYSREG "CTR_EL0_IDC_SHIFT")) =? 0).
Definition has_cache_dic (cpu scope : Z) : bool :=
  let ctr := if scope =? SCOPE_SYSTEM then sanitised "SYS_CTR_EL0" else read_cpuid_cachetype cpu in
  negb (Z.land ctr (BIT (SYSREG "CTR_EL0_DIC_SHIFT")) =? 0).

Definition has_useable_cnp (cpu scope : Z) (c : arm64_cpu_capabilities) : option bool :=
  if is_kdump_kernel then Some false
  else if have_cap (SYSREG "ARM64_WORKAROUND_DISABLE_CNP") then Some false
  else field_matches cpu scope (cap_field c).

(** ** Isolation of the kernel's page tables *)

Definition kpti_safe_list : list midr_range := MIDR_ALL_VERSIONS <$>
  ["MIDR_CAVIUM_THUNDERX2"; "MIDR_BRCM_VULCAN"; "MIDR_BRAHMA_B53"; "MIDR_CORTEX_A35"; "MIDR_CORTEX_A53"; "MIDR_CORTEX_A55";
   "MIDR_CORTEX_A57"; "MIDR_CORTEX_A72"; "MIDR_CORTEX_A73"; "MIDR_HISI_TSV110"; "MIDR_NVIDIA_CARMEL"; "MIDR_QCOM_KRYO_2XX_GOLD";
   "MIDR_QCOM_KRYO_2XX_SILVER"; "MIDR_QCOM_KRYO_3XX_SILVER"; "MIDR_QCOM_KRYO_4XX_SILVER"].

(** [__meltdown_safe] and [__kpti_forced] (0: not forced, positive: on, negative: off). *)
Record kpti := Kpti { meltdown_safe : bool; kpti_forced : Z }.
Definition kpti_init : kpti := Kpti true 0.

(** [enabled] is what [kstrtobool] made of the option, or its error. *)
Definition parse_kpti (enabled : result Z bool) (k : kpti) : Z * kpti :=
  match enabled with
  | Err e => (e, k)
  | Ok b => (0, Kpti (meltdown_safe k) (if b then 1 else -1))
  end.

Definition unmap_kernel_at_el0 (cpu scope : Z) (c : arm64_cpu_capabilities) (k : kpti) : option (bool * kpti) :=
  m ← field_matches cpu scope (cap_field c);
  let safe := if (m : bool) then true else is_midr_in_range_list cpu kpti_safe_list in
  let k := if negb safe then Kpti false (kpti_forced k) else k in
  let k := if this_cpu_has cpu (SYSREG "ARM64_WORKAROUND_CAVIUM_27456") then Kpti (meltdown_safe k) (-1) else k in
  let k := if kaslr_enabled && kaslr_requires_kpti then
             (if kpti_forced k =? 0 then Kpti (meltdown_safe k) 1 else k) else k in
  let k := if cpu_mitigations_off && (kpti_forced k =? 0) then Kpti (meltdown_safe k) (-1) else k in
  Some (if negb (IS_ENABLED "CONFIG_UNMAP_KERNEL_AT_EL0") then false
        else if negb (kpti_forced k =? 0) then 0 <? kpti_forced k else negb safe, k).

Inductive mitigation_state := SPECTRE_UNAFFECTED | SPECTRE_MITIGATED | SPECTRE_VULNERABLE.
(** [unmapped] is [arm64_kernel_unmapped_at_el0()]. *)
Definition arm64_get_meltdown_state (k : kpti) (unmapped : bool) : mitigation_state :=
  if meltdown_safe k then SPECTRE_UNAFFECTED else if unmapped then SPECTRE_MITIGATED else SPECTRE_VULNERABLE.

(** ** Virtualisation, address spaces and counters *)

Definition nv1_ni_list : list midr_range := MIDR_ALL_VERSIONS <$>
  ["MIDR_APPLE_M2_BLIZZARD"; "MIDR_APPLE_M2_AVALANCHE"; "MIDR_APPLE_M2_BLIZZARD_PRO"; "MIDR_APPLE_M2_AVALANCHE_PRO";
   "MIDR_APPLE_M2_BLIZZARD_MAX"; "MIDR_APPLE_M2_AVALANCHE_MAX"].
Definition has_nv1 (cpu scope : Z) (c : arm64_cpu_capabilities) : option bool :=
  if negb (system_matches (SYSREG "ARM64_HAS_NESTED_VIRT")) then Some false
  else m ← field_matches cpu scope (cap_field c); Some (negb (m || is_midr_in_range_list cpu nv1_ni_list)).

Definition has_lpa2_at_stage1 (mmfr0 : Z) : bool :=
  cpuid_extract_unsigned mmfr0 (SYSREG "ID_AA64MMFR0_EL1_TGRAN_SHIFT") =? SYSREG "ID_AA64MMFR0_EL1_TGRAN_LPA2".
Definition has_lpa2_at_stage2 (mmfr0 : Z) : bool :=
  cpuid_extract_unsigned mmfr0 (SYSREG "ID_AA64MMFR0_EL1_TGRAN_2_SHIFT") =? SYSREG "ID_AA64MMFR0_EL1_TGRAN_2_SUPPORTED_LPA2".
(** The two constants are defined for page sizes with 52-bit addresses. *)
Definition has_lpa2 : bool :=
  if IS_ENABLED "ID_AA64MMFR0_EL1_TGRAN_LPA2" && IS_ENABLED "ID_AA64MMFR0_EL1_TGRAN_2_SUPPORTED_LPA2" then
    let mmfr0 := sanitised "SYS_ID_AA64MMFR0_EL1" in has_lpa2_at_stage1 mmfr0 && has_lpa2_at_stage2 mmfr0
  else false.

Definition has_pmuv3 : bool :=
  pmuv3_implemented (cpuid_extract_unsigned (sanitised "SYS_ID_AA64DFR0_EL1") (SYSREG "ID_AA64DFR0_EL1_PMUVer_SHIFT")).

Definition runs_at_el2 : bool := kernel_in_hyp_mode.
Definition has_nested_virt_support (cpu scope : Z) (c : arm64_cpu_capabilities) : bool :=
  if negb (kvm_get_mode =? KVM_MODE_NV) then false
  else multi_entry_cap_matches (λ m, default false (field_matches cpu scope m.2)) (cap_match_list c).
Definition hvhe_possible : bool := hvhe_override.
Definition is_kvm_protected_mode : bool := kvm_get_mode =? KVM_MODE_PROTECTED.

Definition supports_bbml2_noabort_list : list midr_range := [
  MIDR_REV_RANGE "MIDR_CORTEX_X4" 0 3 0xf; MIDR_REV_RANGE "MIDR_NEOVERSE_V3" 0 2 0xf; MIDR_REV_RANGE "MIDR_NEOVERSE_V3AE" 0 2 0xf;
  MIDR_ALL_VERSIONS "MIDR_NVIDIA_OLYMPUS"; MIDR_ALL_VERSIONS "MIDR_AMPERE1"; MIDR_ALL_VERSIONS "MIDR_AMPERE1A"].
Definition cpu_supports_bbml2_noabort (cpu : Z) : bool :=
  if negb (is_midr_in_range_list cpu supports_bbml2_noabort_list) then false else true.
Definition has_bbml2_noabort (cpu : Z) : bool := cpu_supports_bbml2_noabort cpu.

Definition has_rasv1p1 (cpu scope : Z) : option bool :=
  a ← field_matches cpu scope (ARM64_CPUID_FIELDS "ID_AA64PFR0_EL1" "RAS" "V1P1");
  if (a : bool) then Some true else
  b ← field_matches cpu scope (ARM64_CPUID_FIELDS "ID_AA64PFR0_EL1" "RAS" "IMP");
  if negb b then Some false else field_matches cpu scope (ARM64_CPUID_FIELDS "ID_AA64PFR1_EL1" "RAS_frac" "RASv1p1").

(** ** Pointer authentication *)

Definition has_address_auth_cpucap (cpu scope : Z) (e : cpuid_field) : option bool :=
  let boot_val := cpuid_extract (sanitised (cf_sys_reg e)) (cf_field_pos e) (cf_sign e) in
  if negb (Z.land scope SCOPE_BOOT_CPU =? 0) then Some (cf_min_field_value e <=? boot_val)
  else
    v ← (__read_sysreg_by_encoding (read_sysreg cpu) (SYSREG (cf_sys_reg e)) s).1;
    let sec_val := cpuid_extract v (cf_field_pos e) (cf_sign e) in
    Some ((cf_min_field_value e <=? sec_val) && (sec_val =? boot_val)).

(** The three entries of the array that the next one asks. *)
Definition has_address_auth_metacap (api apa apa3 : cpuid_field) (cpu scope : Z) : option bool :=
  x ← has_address_auth_cpucap cpu scope api;
  y ← has_address_auth_cpucap cpu scope apa;
  z ← has_address_auth_cpucap cpu scope apa3;
  Some (y || z || x).

Definition has_generic_auth : bool :=
  system_matches (SYSREG "ARM64_HAS_GENERIC_AUTH_ARCH_QARMA5") || system_matches (SYSREG "ARM64_HAS_GENERIC_AUTH_ARCH_QARMA3") ||
  system_matches (SYSREG "ARM64_HAS_GENERIC_AUTH_IMP_DEF").

(** ** Interrupt controllers and partitioning *)

Definition can_use_gic_priorities : bool :=
  if negb (have_cap (SYSREG "ARM64_HAS_GICV3_CPUIF")) then false else enable_pseudo_nmi.
Definition has_gic_prio_relaxed_sync (cpu : Z) : bool :=
  if negb (have_cap (SYSREG "ARM64_HAS_GIC_PRIO_MASKING")) then false
  else Z.land (gic_read_ctlr cpu) (MASK64 "ICC_CTLR_EL1_PMHE_MASK") =? 0.

Definition has_vgic_v3 : list midr_range := MIDR_ALL_VERSIONS <$>
  ["MIDR_APPLE_M1_ICESTORM"; "MIDR_APPLE_M1_FIRESTORM"; "MIDR_APPLE_M1_ICESTORM_PRO"; "MIDR_APPLE_M1_FIRESTORM_PRO";
   "MIDR_APPLE_M1_ICESTORM_MAX"; "MIDR_APPLE_M1_FIRESTORM_MAX"; "MIDR_APPLE_M2_BLIZZARD"; "MIDR_APPLE_M2_AVALANCHE";
   "MIDR_APPLE_M2_BLIZZARD_PRO"; "MIDR_APPLE_M2_AVALANCHE_PRO"; "MIDR_APPLE_M2_BLIZZARD_MAX"; "MIDR_APPLE_M2_AVALANCHE_MAX"].
Definition can_trap_icv_dir_el1 (cpu : Z) : bool :=
  if negb hyp_mode_available then false
  else if this_cpu_has cpu (SYSREG "ARM64_HAS_GICV5_LEGACY") then true
  else if negb (this_cpu_has cpu (SYSREG "ARM64_HAS_GICV3_CPUIF")) && negb (is_midr_in_range_list cpu has_vgic_v3) then false
  else if finalized && is_protected_kvm_enabled then have_cap (SYSREG "ARM64_HAS_ICH_HCR_EL2_TDIR")
  else
    let '(a0, a1) := if kernel_in_hyp_mode then (0, read_sysreg_s cpu "SYS_ICH_VTR_EL2") else hvc_get_ich_vtr cpu in
    if a0 =? HVC_STUB_ERR then false else negb (Z.land a1 (MASK64 "ICH_VTR_EL2_TDS") =? 0).

Definition test_has_mpam (cpu : Z) : bool :=
  if negb (detect_ftr_has_mpam s).1 then false
  else negb (Z.land (read_sysreg_s cpu "SYS_MPAM1_EL1") (MASK64 "MPAM1_EL1_MPAMEN") =? 0).
Definition test_has_mpam_hcr : bool := negb (Z.land (sanitised "SYS_MPAMIDR_EL1") (MASK64 "MPAMIDR_EL1_HAS_HCR") =? 0).
Definition test_has_gicv5_legacy (cpu : Z) : bool :=
  if negb (this_cpu_has cpu (SYSREG "ARM64_HAS_GICV5_CPUIF")) then false
  else negb (Z.land (read_sysreg_s cpu "SYS_ICC_IDR0_EL1") (MASK64 "ICC_IDR0_EL1_GCIE_LEGACY") =? 0).

(** ** Features that some of the CPUs may have *)

Definition broken_dbm_cpus : list midr_range :=
  (if IS_ENABLED "CONFIG_ARM64_ERRATUM_1024718" then
     [MIDR_ALL_VERSIONS "MIDR_CORTEX_A55"; MIDR_REV "MIDR_QCOM_KRYO_4XX_SILVER" 0xd 0xe] else []) ++
  (if IS_ENABLED "CONFIG_ARM64_ERRATUM_2051678" then [MIDR_REV_RANGE "MIDR_CORTEX_A510" 0 0 2] else []).
Definition cpu_has_broken_dbm (cpu : Z) : bool := is_midr_in_range_list cpu broken_dbm_cpus.
Definition cpu_can_use_dbm (cpu : Z) (c : arm64_cpu_capabilities) : option bool :=
  m ← field_matches cpu SCOPE_LOCAL_CPU (cap_field c); Some (m && negb (cpu_has_broken_dbm cpu)).
Definition has_hw_dbm : bool := true.
Definition has_amu : bool := true.

(** The masks of CPUs, and what was done on a CPU. *)
Inductive mev := WriteTcr (cpu v : Z) | Isb (cpu : Z) | FlushTlb (cpu : Z) | UpdateFreqRefs (cpu : Z).
Record masks := Masks { dbm_cpus : gset Z; amu_cpus : gset Z; done_ : list mev }.

Definition __cpu_enable_hw_dbm (cpu : Z) (k : masks) : masks :=
  let tcr := Z.lor (read_sysreg_s cpu "tcr_el1") (MASK64 "TCR_EL1_HD") in
  Masks (dbm_cpus k) (amu_cpus k) (done_ k ++ [WriteTcr cpu tcr; Isb cpu; FlushTlb cpu]).
Definition cpu_enable_hw_dbm (cpu : Z) (c : arm64_cpu_capabilities) (k : masks) : option masks :=
  u ← cpu_can_use_dbm cpu c;
  Some (if (u : bool) then let k := __cpu_enable_hw_dbm cpu k in Masks ({[cpu]} ∪ dbm_cpus k) (amu_cpus k) (done_ k) else k).

Definition cpu_has_amu_feat (cpu : Z) (k : masks) : bool := bool_decide (cpu ∈ amu_cpus k).
Definition cpu_amu_enable (cpu : Z) (c : arm64_cpu_capabilities) (k : masks) : option masks :=
  m ← field_matches cpu SCOPE_LOCAL_CPU (cap_field c);
  Some (if (m : bool) then
          Masks (dbm_cpus k) ({[cpu]} ∪ amu_cpus k)
            (done_ k ++ if negb (this_cpu_has cpu (SYSREG "ARM64_WORKAROUND_BROKEN_AMU_CONSTCNT")) then [UpdateFreqRefs cpu] else [])
        else k).

End callbacks.

(** The option for pseudo-NMIs and the broken firmware. *)
Definition detect_system_supports_pseudo_nmi `{CpuEnv} (enable_pseudo_nmi : bool) : bool :=
  if negb enable_pseudo_nmi then enable_pseudo_nmi else if mediatek_broken_fw then false else enable_pseudo_nmi.

(** ** The decision on isolation *)

Section decision.
Context `{Sysregs} `{FtrHeader} `{CapHeader} `{CpuEnv}.
Context (s : sys) (read_sysreg : Z → Z → Z) (this_cpu_has : Z → Z → bool) (c : arm64_cpu_capabilities).

(** A CPU is asked for a scope; the callback may be asked any number of times. *)
Definition probe (k : kpti) (q : Z * Z) : option (bool * kpti) := unmap_kernel_at_el0 s read_sysreg this_cpu_has q.1 q.2 c k.
Fixpoint probes (k : kpti) (l : list (Z * Z)) : option (list bool * kpti) :=
  match l with
  | [] => Some ([], k)
  | q :: l' => '(a, k1) ← probe k q; '(rest, k2) ← probes k1 l'; Some (a :: rest, k2)
  end.

(** The CPU does not leak; the erratum that forbids isolation. *)
Definition not_vulnerable (q : Z * Z) : bool :=
  default false (field_matches s read_sysreg q.1 q.2 (cap_field c)) || is_midr_in_range_list q.1 kpti_safe_list.
Definition forbids (q : Z * Z) : bool := this_cpu_has q.1 (SYSREG "ARM64_WORKAROUND_CAVIUM_27456").
Definition readable (q : Z * Z) : bool := bool_decide (field_matches s read_sysreg q.1 q.2 (cap_field c) ≠ None).

(** What the command line, KASLR and the mitigations make of the decision. *)
Definition policy (forced : Z) : Z :=
  if negb (forced =? 0) then forced
  else if kaslr_enabled && kaslr_requires_kpti then 1 else if cpu_mitigations_off then -1 else 0.
Definition verdict (forced : Z) (q : Z * Z) : bool :=
  IS_ENABLED "CONFIG_UNMAP_KERNEL_AT_EL0" && (if forced =? 0 then negb (not_vulnerable q) else 0 <? forced).

Lemma probe_spec k q : readable q = true → let f := if forbids q then -1 else policy (kpti_forced k) in
  probe k q = Some (verdict f q, Kpti (meltdown_safe k && not_vulnerable q) f).
Proof.
  intros Hr f. unfold probe, unmap_kernel_at_el0, readable in *. apply bool_decide_eq_true in Hr.
  destruct (field_matches s read_sysreg q.1 q.2 (cap_field c)) as [m|] eqn:Em; [|done]. cbn [mbind option_bind].
  assert (not_vulnerable q = if m then true else is_midr_in_range_list q.1 kpti_safe_list) as Es.
  { unfold not_vulnerable. rewrite Em. by destruct m. }
  rewrite <- Es. unfold f, policy, forbids, verdict.
  destruct k as [safe forced]. cbn [kpti_forced meltdown_safe].
  destruct (this_cpu_has _ _), (kaslr_enabled && kaslr_requires_kpti), cpu_mitigations_off, (forced =? 0) eqn:Ef,
    (not_vulnerable q), (IS_ENABLED "CONFIG_UNMAP_KERNEL_AT_EL0"); repeat (cbn; rewrite ?Ef, ?andb_true_r, ?andb_false_r); try done;
    apply Z.eqb_eq in Ef; by subst forced.
Qed.

Lemma policy_idem f : policy (policy f) = policy f.
Proof. unfold policy. destruct (f =? 0) eqn:E; cbn; [|by rewrite E]. by destruct (_ && _), cpu_mitigations_off. Qed.

(** Without the erratum the same policy holds for all CPUs. *)
Lemma probes_spec l : ∀ k, forallb readable l = true → forallb (λ q, negb (forbids q)) l = true →
  probes k l = Some (verdict (policy (kpti_forced k)) <$> l,
    Kpti (meltdown_safe k && forallb not_vulnerable l) (if l is [] then kpti_forced k else policy (kpti_forced k))).
Proof.
  induction l as [|q l IH]; intros k Hr Hf; cbn.
  { rewrite andb_true_r. by destruct k. }
  cbn in Hr, Hf. apply andb_true_iff in Hr as [Hq Hr], Hf as [Hn Hf]. apply negb_true_iff in Hn.
  rewrite probe_spec, Hn by done. cbn. rewrite IH by done. cbn [kpti_forced meltdown_safe]. rewrite policy_idem, andb_assoc.
  cbn. by destruct l.
Qed.

(** After a CPU with the erratum isolation stays off. *)
Lemma probes_off l : ∀ k, kpti_forced k = -1 → forallb readable l = true →
  ∃ k', probes k l = Some (replicate (length l) false, k').
Proof.
  induction l as [|q l IH]; intros k Hk Hr; cbn; [by exists k|].
  cbn in Hr. apply andb_true_iff in Hr as [Hq Hr]. rewrite probe_spec by done. rewrite Hk. unfold policy. cbn.
  destruct (IH (Kpti (meltdown_safe k && not_vulnerable q) (-1)) eq_refl Hr) as (k' & E).
  replace (if forbids q then -1 else -1) with (-1) by (by destruct (forbids q)). cbn. rewrite E. cbn.
  exists k'. unfold verdict. cbn. by rewrite andb_false_r.
Qed.

Lemma probes_safe l : ∀ k a k', forallb readable l = true → probes k l = Some (a, k') →
  meltdown_safe k' = meltdown_safe k && forallb not_vulnerable l.
Proof.
  induction l as [|q l IH]; intros k a k' Hr E; cbn in E |- *; [injection E as _ <-; by rewrite andb_true_r|].
  cbn in Hr. apply andb_true_iff in Hr as [Hrq Hr]. rewrite probe_spec in E by done. cbn in E.
  destruct (probes _ l) as [[a' k1]|] eqn:Ep; [|done]. cbn in E. injection E as _ <-.
  rewrite (IH _ _ _ Hr Ep). cbn. by rewrite andb_assoc.
Qed.

End decision.

(** C24. The isolation of the kernel's page tables follows one policy.  The option of the
    command line counts first, then the needs of address-space randomisation, then
    [mitigations=off]; when none of them decides, each CPU answers whether it is
    vulnerable.  As long as no CPU has the erratum that forbids isolation, all
    CPUs, in whatever order and however often they are asked, answer by the same policy; from a
    CPU with the erratum on all answers are no.  The kernel reports that it is not
    affected exactly when no CPU that was asked is vulnerable. *)
Theorem kpti_exact `{Sysregs} `{FtrHeader} `{CapHeader} `{CpuEnv} s read_sysreg this_cpu_has c (option_ : option bool) l :
  let k0 := match option_ with Some b => (parse_kpti (Ok b) kpti_init).2 | None => kpti_init end in
  let f := policy (match option_ with Some true => 1 | Some false => -1 | None => 0 end) in
  forallb (readable s read_sysreg c) l = true →
  (forallb (λ q, negb (forbids this_cpu_has q)) l = true →
     ∃ k, probes s read_sysreg this_cpu_has c k0 l = Some (verdict s read_sysreg c f <$> l, k)) ∧
  (∀ l1 q l2, l = l1 ++ q :: l2 → forbids this_cpu_has q = true →
     ∃ a1 k, length a1 = length l1 ∧ probes s read_sysreg this_cpu_has c k0 l = Some (a1 ++ replicate (S (length l2)) false, k)) ∧
  (∀ a k unmapped, probes s read_sysreg this_cpu_has c k0 l = Some (a, k) →
     arm64_get_meltdown_state k unmapped = SPECTRE_UNAFFECTED ↔ forallb (not_vulnerable s read_sysreg c) l = true).
Proof.
  intros k0 f Hr.
  assert (meltdown_safe k0 = true ∧ policy (kpti_forced k0) = f) as [Hm Hf] by (by destruct option_ as [[]|]).
  split; [|split].
  - intros Hn. eexists. rewrite probes_spec by done. by rewrite Hf.
  - intros l1 q l2 -> Hq. rewrite forallb_app in Hr. apply andb_true_iff in Hr as [Hr1 Hr2]. cbn in Hr2.
    apply andb_true_iff in Hr2 as [Hrq Hr2]. clear Hm Hf f. generalize k0. clear k0.
    induction l1 as [|q1 l1 IH]; intros k0; cbn.
    + rewrite probe_spec, Hq by done. cbn.
      destruct (probes_off s read_sysreg this_cpu_has c l2 (Kpti (meltdown_safe k0 && not_vulnerable s read_sysreg c q) (-1)) eq_refl Hr2)
        as (k' & E). rewrite E. cbn. exists [], k'. split; [done|]. unfold verdict. cbn. by rewrite andb_false_r.
    + cbn in Hr1. apply andb_true_iff in Hr1 as [Hq1 Hr1]. rewrite probe_spec by done. cbn.
      match goal with |- context [probes _ _ _ _ ?k (l1 ++ _)] => destruct (IH Hr1 k) as (a1 & k' & El & E) end.
      rewrite E. cbn. eexists (_ :: a1), k'. split; [cbn; by rewrite El|done].
  - intros a k unmapped E.
    pose proof (probes_safe s read_sysreg this_cpu_has c l k0 a k Hr E) as Es. rewrite Hm in Es. cbn [andb] in Es.
    unfold arm64_get_meltdown_state. rewrite Es. clear. destruct (forallb _ l), unmapped; split; congruence.
Qed.

(** ** The CPUs with a feature that is not asked of all *)

Section some_cpus.
Context `{Sysregs} `{FtrHeader} `{CapHeader} `{CpuEnv}.
Context (s : sys) (read_sysreg : Z → Z → Z) (this_cpu_has : Z → Z → bool) (c : arm64_cpu_capabilities).

Fixpoint on_cpus (f : Z → masks → option masks) (l : list Z) (k : masks) : option masks :=
  match l with [] => Some k | x :: l' => f x k ≫= on_cpus f l' end.

(** The hardware update of dirty bits is switched on exactly where it works. *)
Lemma dbm_cpus_exact l : ∀ k k', on_cpus (λ x, cpu_enable_hw_dbm s read_sysreg x c) l k = Some k' →
  ∀ x, x ∈ dbm_cpus k' ↔ x ∈ dbm_cpus k ∨ (x ∈ l ∧ cpu_can_use_dbm s read_sysreg x c = Some true).
Proof.
  induction l as [|y l IH]; intros k k' E x; cbn in E; [injection E as <-; set_solver|].
  destruct (cpu_enable_hw_dbm s read_sysreg y c k) as [k1|] eqn:Ek; [|done]. cbn in E.
  unfold cpu_enable_hw_dbm in Ek. destruct (cpu_can_use_dbm s read_sysreg y c) as [u|] eqn:Eu; [|done]. injection Ek as <-.
  rewrite (IH _ _ E), elem_of_cons. destruct u; cbn; [rewrite elem_of_union, elem_of_singleton; naive_solver|].
  split; [tauto|]. intros [?|[[->|?] ?]]; [tauto|congruence|tauto].
Qed.
Lemma amu_cpus_exact l : ∀ k k', on_cpus (λ x, cpu_amu_enable s read_sysreg this_cpu_has x c) l k = Some k' →
  ∀ x, x ∈ amu_cpus k' ↔ x ∈ amu_cpus k ∨ (x ∈ l ∧ field_matches s read_sysreg x SCOPE_LOCAL_CPU (cap_field c) = Some true).
Proof.
  induction l as [|y l IH]; intros k k' E x; cbn in E; [injection E as <-; set_solver|].
  destruct (cpu_amu_enable s read_sysreg this_cpu_has y c k) as [k1|] eqn:Ek; [|done]. cbn in E.
  unfold cpu_amu_enable in Ek. destruct (field_matches _ _ y _ _) as [u|] eqn:Eu; [|done]. injection Ek as <-.
  rewrite (IH _ _ E), elem_of_cons. destruct u; cbn; [rewrite elem_of_union, elem_of_singleton; naive_solver|].
  split; [tauto|]. intros [?|[[->|?] ?]]; [tauto|congruence|tauto].
Qed.

(** A further CPU has the level of pointer authentication of the boot CPU. *)
Lemma address_auth_level cpu e : Z.land SCOPE_LOCAL_CPU SCOPE_BOOT_CPU = 0 →
  has_address_auth_cpucap s read_sysreg cpu SCOPE_LOCAL_CPU e = Some true →
  ∃ v, (__read_sysreg_by_encoding (read_sysreg cpu) (SYSREG (cf_sys_reg e)) s).1 = Some v ∧
    cpuid_extract v (cf_field_pos e) (cf_sign e) = cpuid_extract (sanitised s (cf_sys_reg e)) (cf_field_pos e) (cf_sign e).
Proof.
  intros Hs. unfold has_address_auth_cpucap. rewrite Hs. cbn.
  destruct (__read_sysreg_by_encoding _ _ s).1 as [v|]; [|done]. cbn. intros [= Hc]. exists v. split; [done|].
  apply andb_true_iff in Hc as [_ Hc]. by apply Z.eqb_eq.
Qed.

End some_cpus.

(** ** A machine: the second CPU is vulnerable, the third has the erratum *)

#[local] Existing Instances CpuFeature.sample CpuFeature.sample_header CpuCaps.sample_header.
#[local] Instance sample_env : CpuEnv := {|
  read_sysreg_s _ _ := 0; is_midr_in_range_list cpu _ := negb (cpu =? 1); gic_enable_sre _ := true; gic_read_ctlr _ := 0;
  read_cpuid_effective_cachetype _ := 0; read_cpuid_cachetype _ := 0; cpuid_extract_unsigned _ _ := 0; cpuid_extract _ _ _ := 0;
  pmuv3_implemented _ := true; is_kdump_kernel := false; kaslr_enabled := false; kaslr_requires_kpti := false;
  cpu_mitigations_off := false; kernel_in_hyp_mode := true; hyp_mode_available := true; is_protected_kvm_enabled := false;
  kvm_get_mode := 0; KVM_MODE_NV := 2; KVM_MODE_PROTECTED := 1; hvhe_override := false;
  multi_entry_cap_matches p l := existsb p l; hvc_get_ich_vtr _ := (0, 0); HVC_STUB_ERR := 1; mediatek_broken_fw := false;
  MASK64 _ := 1
|}.
(** The field that says a CPU is safe, here a field of ID_AA64PFR0_EL1 that is zero. *)
Definition csv3 : arm64_cpu_capabilities :=
  Cap "unmap_kernel_at_el0" 1 1 "cpu_enable_kpti" CAP_NONE 0 (CpuidField "SYS_ID_AA64PFR0_EL1" 60 4 false 1 15) [].
Definition sample_probes : option (list bool * kpti) :=
  probes (initial (λ _, zero_override)) (λ _ _, 0) (λ cpu _, cpu =? 2) csv3 kpti_init [(0, 1); (1, 1); (2, 1); (1, 1)].

Lemma kpti_exact_witness : ∃ a1 k, length a1 = 2%nat ∧ sample_probes = Some (a1 ++ [false; false], k).
Proof.
  refine (proj1 (proj2 (kpti_exact (initial (λ _, zero_override)) (λ _ _, 0) (λ cpu _, cpu =? 2) csv3 None
    [(0, 1); (1, 1); (2, 1); (1, 1)] _)) [(0, 1); (1, 1)] (2, 1) [(1, 1)] eq_refl eq_refl).
  vm_compute. reflexivity.
Defined.
