(* ===== verification/CpuHwcaps.v ===== *)
(** * What programs are told of the CPUs

    sources/asahi--arch__arm64__kernel__cpufeature.c: the callbacks of the tables of
    hardware capabilities, answered from the registers of [CpuFeature.v], and the set-up of
    the capabilities that programs find in their auxiliary vector, together with what the
    emulation of the identification registers shows them. *)

From Stdlib Require Import ZArith Lia Bool.
From stdpp Require Import base numbers list strings option gmap fin_sets.
From S2P Require Import Prelude IdregOverride CpuFtrTables CpuFeature CpuCaps CpuCapTables.

Local Open Scope Z_scope.

(** ** The callbacks *)

Section hwcaps.
Context `{Sysregs} `{FtrHeader} `{CapHeader} `{Machine}.
(** A register of a CPU, and functions of asm/cpufeature.h: a field of four bits, and
    whether an entry of a list matches. *)
Context (read_sysreg : Z → Z → Z) (cpuid_feature_extract_unsigned_field : Z → Z → Z).
Context (cpucap_multi_entry_cap_matches : (string * cpuid_field → bool) → list (string * cpuid_field) → bool).

(** A callback that stops the kernel gives no answer; the registers of the tables are
    readable ([tables_readable] below). *)
Definition user_matches (s : sys) (cpu scope : Z) (e : cpuid_field) : bool :=
  default false (has_user_cpuid_feature (read_sysreg cpu) e (scope =? SCOPE_SYSTEM) s).1.
Definition has_sve_feature (s : sys) (cpu scope : Z) (e : cpuid_field) : bool := system_supports_sve && user_matches s cpu scope e.
Definition has_sme_feature (s : sys) (cpu scope : Z) (e : cpuid_field) : bool := system_supports_sme && user_matches s cpu scope e.

Definition compat_has_neon (s : sys) (cpu scope : Z) : bool :=
  let mvfr1 := u32 (if scope =? SCOPE_SYSTEM then (read_sanitised_ftr_reg (SYSREG "SYS_MVFR1_EL1") s).1
                    else read_sysreg cpu (SYSREG "SYS_MVFR1_EL1")) in
  let has n := negb (cpuid_feature_extract_unsigned_field mvfr1 (SYSREG n) =? 0) in
  has "MVFR1_EL1_SIMDSP_SHIFT" && has "MVFR1_EL1_SIMDInt_SHIFT" && has "MVFR1_EL1_SIMDLS_SHIFT".

(** The callback of an entry, by its name. *)
Definition hwcap_matches (s : sys) (cpu : Z) (c : arm64_cpu_capabilities) (scope : Z) : bool :=
  if decide (cap_matches c = "has_user_cpuid_feature") then user_matches s cpu scope (cap_field c)
  else if decide (cap_matches c = "has_sve_feature") then has_sve_feature s cpu scope (cap_field c)
  else if decide (cap_matches c = "has_sme_feature") then has_sme_feature s cpu scope (cap_field c)
  else if decide (cap_matches c = "cpucap_multi_entry_cap_matches") then
    cpucap_multi_entry_cap_matches
      (λ m, if decide (m.1 = "has_user_cpuid_feature") then user_matches s cpu scope m.2 else false) (cap_match_list c)
  else if decide (cap_matches c = "compat_has_neon") then compat_has_neon s cpu scope
  else false.

(** The registers and the capabilities together: the fields a workaround hides are hidden
    before the tables are evaluated. *)
Definition setup_user_features (cpu : Z) (st : sys * caps) : sys * caps :=
  let '(s, c) := st in
  let s := (user_feature_fixup (λ n, cpus_have_cap (SYSREG n) c) s).2 in
  (s, CpuCaps.setup_user_features (hwcap_matches s) arm64_elf_hwcaps compat_elf_hwcaps cpu c).

End hwcaps.

(** ** Entries and the tables of registers *)

Section links.
Context `{Sysregs} `{FtrHeader}.

(** The smallest value of the field that an entry accepts. *)
Definition min_of (e : cpuid_field) (f : arm64_ftr_bits) : Z :=
  arm64_ftr_value f (u64 (Z.shiftl (cf_min_field_value e) (fb_shift f))).

(** A field where a value that the system shows is one that all CPUs have. *)
Definition sound_field (f : arm64_ftr_bits) (m : Z) : bool :=
  match fb_type f with FTR_LOWER_SAFE => true | FTR_EXACT => fb_safe_val f <? m | _ => false end.

(** The registers with a field that a workaround hides. *)
Definition hidden_masks : list (string * string * string) := [
  ("ARM64_WORKAROUND_2658417", "SYS_ID_AA64ISAR1_EL1", "ID_AA64ISAR1_EL1_BF16_MASK");
  ("ARM64_WORKAROUND_SPECULATIVE_SSBS", "SYS_ID_AA64PFR1_EL1", "ID_AA64PFR1_EL1_SSBS_MASK")].
Definition hideable (n : string) : bool := existsb (λ p, bool_decide (p.1.2 = n)) hidden_masks.

(** The entry describes the field [f]; programs see it. *)
Definition links (e : cpuid_field) (f : arm64_ftr_bits) : bool :=
  bool_decide (e = field_entry (cf_sys_reg e) f (cf_min_field_value e)) && (fb_width f <=? 32) && sound_field f (min_of e f).
Definition user_links (e : cpuid_field) (f : arm64_ftr_bits) : bool :=
  links e f && fb_visible f && ((0 <? min_of e f) || negb (hideable (cf_sys_reg e))).

(** There is such a field in the table of the register of the entry. *)
Definition in_table (q : cpuid_field → arm64_ftr_bits → bool) (e : cpuid_field) : bool :=
  bool_decide (cf_sys_reg e ∈ regs64.*1) &&
  existsb (λ p, bool_decide (fr_name p.2 = cf_sys_reg e) && existsb (q e) (fields (fr_bits p.2))) arm64_ftr_regs.
Definition emulated (e : cpuid_field) : bool :=
  is_emulated (SYSREG (cf_sys_reg e)) && negb (sys_reg_CRm (SYSREG (cf_sys_reg e)) =? 0).

(** The fields any of which gives a capability. *)
Definition fields_of (c : arm64_cpu_capabilities) : list cpuid_field :=
  if decide (cap_matches c = "cpucap_multi_entry_cap_matches") then (cap_match_list c).*2 else [cap_field c].

Definition hwcaps_linked : bool :=
  forallb (λ c, forallb (λ e, in_table user_links e && emulated e) (fields_of c)) arm64_elf_hwcaps.

End links.

(** ** The registers after the workarounds *)

Section fixup.
Context `{SysregLaws} `{FtrHeaderLaws}.

(** What a workaround takes from a register: bits of the mask of programs. *)
Record hidden_by (m : Z) (r r' : arm64_ftr_reg) : Prop := {
  hb_static : static r' = static r;
  hb_sys : fr_sys_val r' = fr_sys_val r;
  hb_user : fr_user_val r' = fr_user_val r;
  hb_mask k : 0 ≤ k < 64 → Z.testbit (fr_user_mask r') k = Z.testbit (fr_user_mask r) k && negb (Z.testbit m k)
}.

Lemma hidden_none r : hidden_by 0 r r.
Proof. split; try done. intros k _. by rewrite Z.bits_0, andb_true_r. Qed.

Lemma hide_spec have n m s r : ok s → n ∈ reg_names → view s !! SYSREG n = Some r →
  ∃ s' r', hide_field have n m s = ((), s') ∧ step (eq (SYSREG n)) s s' ∧ view s' !! SYSREG n = Some r' ∧
    hidden_by (if have then m else 0) r r'.
Proof.
  intros Hs Hn Hr. unfold hide_field. destruct have.
  - destruct (get_spec s _ r (proj1 Hs) (sysreg_range n) Hr) as (i & E & Hl). unfold mbind, FM_bind. rewrite E.
    destruct (step_write (SYSREG n) r (FtrReg (fr_name r) (fr_strict_mask r) (Z.land (fr_user_mask r) (not64 m)) (fr_sys_val r)
      (fr_user_val r) (fr_override r) (fr_bits r)) i s (proj1 Hs) Hl eq_refl) as (s' & Ew & Hst & Hv & _).
    eexists s', _. split; [exact Ew|]. split; [done|]. split; [exact Hv|]. split; try done.
    intros k Hk. cbn. rewrite Z.land_spec, testbit_not64 by lia. by replace (k <? 64) with true by lia.
  - exists s, r. split; [done|]. split; [apply step_refl, Hs|]. split; [done|apply hidden_none].
Qed.

(** The mask that is taken from a register. *)
Definition taken (have : string → bool) (n : string) : Z :=
  match List.find (λ p, bool_decide (p.1.2 = n)) hidden_masks with
  | Some p => if have p.1.1 then SYSREG64 p.2 else 0
  | None => 0
  end.

Lemma hidden_names : "SYS_ID_AA64ISAR1_EL1" ∈ reg_names ∧ "SYS_ID_AA64PFR1_EL1" ∈ reg_names.
Proof. split; refine (bool_decide_unpack (_ ∈ _) _); vm_compute; exact I. Qed.

Lemma fixup_spec have s : ok s → ∃ s', user_feature_fixup have s = ((), s') ∧ ok s' ∧
  ∀ n r, n ∈ reg_names → view s !! SYSREG n = Some r → ∃ r', view s' !! SYSREG n = Some r' ∧ hidden_by (taken have n) r r'.
Proof.
  intros Hs. destruct hidden_names as [N1 N2]. unfold user_feature_fixup, mbind, FM_bind.
  destruct (named_placed s _ Hs N1) as (r1 & _ & Hr1 & _).
  destruct (hide_spec (have "ARM64_WORKAROUND_2658417") _ (SYSREG64 "ID_AA64ISAR1_EL1_BF16_MASK") s r1 Hs N1 Hr1)
    as (s1 & r1' & -> & Hst1 & Hr1' & Hh1).
  assert (ok s1) as Hs1 by (by eapply ok_step). destruct (named_placed s1 _ Hs1 N2) as (r2 & _ & Hr2 & _).
  destruct (hide_spec (have "ARM64_WORKAROUND_SPECULATIVE_SSBS") _ (SYSREG64 "ID_AA64PFR1_EL1_SSBS_MASK") s1 r2 Hs1 N2 Hr2)
    as (s2 & r2' & -> & Hst2 & Hr2' & Hh2).
  exists s2. split; [done|]. split; [by eapply ok_step|]. intros n r Hn Hr. unfold taken, hidden_masks. cbn [List.find fst snd].
  case_bool_decide as E1.
  - subst n. exists r1'. split; [|by replace r with r1 by congruence].
    rewrite (st_frame _ _ _ _ Hst2); [done|]. intros E. by apply (sysreg_inj s) in E.
  - case_bool_decide as E2.
    + subst n. exists r2'. split; [done|]. rewrite (st_frame _ _ _ _ Hst1) in Hr2; [by replace r with r2 by congruence|].
      intros E. by apply (sysreg_inj s) in E.
    + exists r. split; [|apply hidden_none]. rewrite (st_frame _ _ _ _ Hst2), (st_frame _ _ _ _ Hst1); [done|..];
        intros E; by apply (sysreg_inj s) in E.
Qed.

(** The masks of the workarounds are masks of fields. *)
Definition masks_ok : Prop := ∀ p, p ∈ hidden_masks → ∃ r0 g,
  (SYSREG p.1.2, r0) ∈ arm64_ftr_regs ∧ g ∈ fields (fr_bits r0) ∧ SYSREG64 p.2 = arm64_ftr_mask g.

(** Afterwards programs see a field as before or not at all. *)
Lemma taken_field have n r r' f : masks_ok → NoDup (SYSREG <$> reg_names) → (∃ r0, (SYSREG n, r0) ∈ arm64_ftr_regs ∧ fr_bits r = fr_bits r0) →
  reg_ok r → user_ok r → hidden_by (taken have n) r r' → f ∈ fields (fr_bits r) → fb_visible f = true →
  covered (fr_user_mask r') f ∨ (hideable n = true ∧ blank (fr_user_mask r') f).
Proof.
  intros Hm Hnd (r0 & Hr0 & Eb) [[Hok Hd] _] Hu Hh Hf Hv.
  assert (∀ k, in_bits f k = true → Z.testbit (fr_user_mask r') k = negb (Z.testbit (taken have n) k)) as Hk.
  { intros k Hk. pose proof (field_bit_range f k (proj1 (list.Forall_forall _ _) Hok f Hf) Hk) as Hr.
    rewrite (hb_mask _ _ _ Hh) by done. destruct (Hu k Hr) as [-> _]. by rewrite (some_bits_in _ _ f), Hv. }
  unfold taken in Hk. destruct (List.find _ hidden_masks) as [p|] eqn:Ep.
  2:{ left. intros k Hb. by rewrite Hk, Z.bits_0. }
  apply List.find_some in Ep as [Hp%list_elem_of_In En]. apply bool_decide_eq_true in En. subst n.
  destruct (have p.1.1); [|left; intros k Hb; by rewrite Hk, Z.bits_0].
  destruct (Hm p Hp) as (r1 & g & Hr1 & Hg & Em). rewrite Em in Hk.
  assert (r1 = r0) as ->.
  { apply list_elem_of_lookup in Hr0 as [i Hi], Hr1 as [j Hj].
    assert (i = j) as <-; [|congruence]. rewrite <- arm64_ftr_regs_ids in Hnd.
    apply (NoDup_lookup _ i j (SYSREG p.1.2) Hnd); rewrite list_lookup_fmap; [by rewrite Hi|by rewrite Hj]. }
  rewrite <- Eb in Hg. pose proof (proj1 (list.Forall_forall _ _) Hok g Hg) as Hgok.
  assert (∀ k, in_bits f k = true → Z.testbit (fr_user_mask r') k = negb (in_bits g k)) as Hk'.
  { intros k Hb. rewrite (Hk k Hb). f_equal. apply testbit_mask; [done|].
    pose proof (field_bit_range f k (proj1 (list.Forall_forall _ _) Hok f Hf) Hb). lia. }
  apply list_elem_of_In in Hf, Hg. destruct (ForallOrdPairs_In Hd f g Hf Hg) as [<-|Hfg].
  - right. split; [unfold hideable; apply existsb_exists; exists p; split; [by apply list_elem_of_In|by apply bool_decide_eq_true]|].
    intros k Hb. by rewrite Hk', Hb.
  - left. intros k Hb. rewrite Hk' by done. rewrite (in_bits_disjoint f g k); [done| |done].
    unfold disjoint_fields in *. tauto.
Qed.

End fixup.

(** ** What a program is shown and what it is told *)

Section told.
Context `{SysregLaws} `{FtrHeaderLaws} `{CapHeader} `{Machine}.

Lemma value_blank f x : field_ok f → blank x f → arm64_ftr_value f x = 0.
Proof.
  intros Hf Hb. rewrite (value_bits f x 0) by (done || (intros k Hk; by rewrite Hb, Z.bits_0)).
  pose proof (ftr_value_range f 0 Hf) as Hr. pose proof (ftr_value_mod f 0 Hf) as Em. destruct Hf as (?&Hw&?).
  rewrite Z.div_0_l, Z.mod_0_l in Em by lia. unfold in_range in Hr.
  assert (2 ^ fb_width f = 2 * 2 ^ (fb_width f - 1)) as Hp by (rewrite <- Z.pow_succ_r by lia; f_equal; lia).
  assert (0 < 2 ^ (fb_width f - 1)) as Hpos by (apply Z.pow_pos_nonneg; lia).
  apply Z.mod_divide in Em as [q Eq]; [|lia]. rewrite Eq, Hp in Hr |- *. generalize dependent (2 ^ (fb_width f - 1)).
  intros P Hp' Hpos Hr. destruct (Z.lt_trichotomy q 0) as [Hq|[->|Hq]]; [exfalso|lia|exfalso]; destruct (fb_sign f); nia.
Qed.

(** The test of the mask of programs. *)
Lemma extract_mask f x : field_ok f → fb_width f ≤ 32 →
  (covered x f → cpuid_feature_extract_unsigned_field_width x (fb_shift f) (fb_width f) ≠ 0) ∧
  (blank x f → cpuid_feature_extract_unsigned_field_width x (fb_shift f) (fb_width f) = 0).
Proof.
  intros Hf Hw. pose proof Hf as (?&?&?). rewrite ftr_extract_unsigned by lia. split.
  - intros Hc E. assert (Z.testbit ((x / 2 ^ fb_shift f) mod 2 ^ fb_width f) 0 = false) as Hb by (rewrite E; apply Z.bits_0).
    rewrite div_mod_bits in Hb by lia. replace (0 <? fb_width f) with true in Hb by lia.
    rewrite Hc in Hb; [done|]. unfold in_bits. lia.
  - intros Hb. apply Z.bits_inj'. intros k Hk. rewrite Z.bits_0, div_mod_bits by lia.
    destruct (Z.ltb_spec k (fb_width f)); [|by rewrite ?andb_false_r]. rewrite Hb; [done|]. unfold in_bits. lia.
Qed.

(** A register after the workarounds: the capability and the emulation agree. *)
Lemma user_agrees r r' n f e m : reg_ok r → user_ok r → hidden_by m r r' → f ∈ fields (fr_bits r) →
  user_links e f = true → cf_sys_reg e = n →
  covered (fr_user_mask r') f ∨ (hideable n = true ∧ blank (fr_user_mask r') f) →
  (if cpuid_feature_extract_unsigned_field_width (fr_user_mask r') (cf_field_pos e) (cf_field_width e) =? 0 then false
   else cpufeature_matches (fr_sys_val r') e) = cpufeature_matches (arm64_ftr_reg_user_value r') e.
Proof.
  intros Hro Hu Hh Hf Hl <- Hm. pose proof Hro as [[Hok Hd] _]. pose proof (proj1 (list.Forall_forall _ _) Hok f Hf) as Hfok.
  unfold user_links, links in Hl. rewrite !andb_true_iff in Hl. destruct Hl as [[[[Ee Hw] _] Hv] Hmin].
  apply bool_decide_eq_true in Ee. apply Z.leb_le in Hw.
  assert (∀ v, cpufeature_matches v e = (min_of e f <=? arm64_ftr_value f v)) as Hmatch.
  { intros v. unfold min_of. rewrite Ee at 1. by rewrite entry_matches. }
  rewrite Ee. cbn [cf_field_pos cf_field_width field_entry]. rewrite <- Ee, !Hmatch, ftr_user_value, (hb_sys _ _ _ Hh), (hb_user _ _ _ Hh).
  assert (∀ k, in_bits f k = true → Z.testbit (fr_user_val r) k = false) as Huv.
  { intros k Hk. pose proof (field_bit_range f k Hfok Hk) as Hr. destruct (Hu k Hr) as [_ ->].
    destruct (List.find _ _) as [g|] eqn:Eg; [|done]. apply List.find_some in Eg as [Hg Hgk]. apply list_elem_of_In in Hf.
    destruct (ForallOrdPairs_In Hd f g Hf Hg) as [<-|Hfg]; [by rewrite Hv|].
    rewrite (in_bits_disjoint f g k) in Hgk; [done| |done]. unfold disjoint_fields in *. tauto. }
  destruct (extract_mask f (fr_user_mask r') Hfok Hw) as [Hc Hb]. destruct Hm as [Hm|[Hhide Hm]].
  - specialize (Hc Hm). apply Z.eqb_neq in Hc. rewrite Hc. f_equal. apply value_bits; [done|]. intros k Hk.
    by rewrite Z.lor_spec, Z.land_spec, Huv, Hm, andb_true_r by done.
  - rewrite (Hb Hm), Z.eqb_refl. rewrite Hhide in Hmin. cbn in Hmin. rewrite orb_false_r in Hmin. apply Z.ltb_lt in Hmin.
    rewrite (value_blank f); [lia|done|]. intros k Hk. by rewrite Z.lor_spec, Z.land_spec, Huv, Hm, andb_false_r by done.
Qed.

(** What all CPUs have when the value over all of them is large enough. *)
Lemma overridden_exact f o v : fb_type f = FTR_EXACT → overridden f o v = v ∨ overridden f o v = fb_safe_val f.
Proof.
  intros Ht. unfold overridden, apply_override. cbv zeta. unfold arm64_ftr_safe_value. rewrite Ht.
  repeat case_match; cbn; auto.
Qed.

Lemma safe_over_lower f o b vs m x : sound_field f m = true → m ≤ safe_over f (overridden f o b) vs → x ∈ b :: vs → m ≤ x.
Proof.
  intros Hs Hm Hx. unfold sound_field in Hs. unfold safe_over in Hm. destruct (fb_type f) eqn:Et; try done.
  - apply Z.ltb_lt in Hs. case_bool_decide as Ha; [|lia].
    destruct (overridden_exact f o b Et) as [E|E]; rewrite E in *; [|lia].
    apply elem_of_cons in Hx as [->|Hx]; [done|]. by rewrite <- (proj1 (list.Forall_forall _ _) Ha x Hx).
  - pose proof (overridden_lower f o b Et). apply elem_of_cons in Hx as [->|Hx].
    + etransitivity; [exact Hm|]. etransitivity; [apply foldr_min_lower; constructor|done].
    + etransitivity; [exact Hm|]. apply foldr_min_lower. by constructor.
Qed.

Lemma in_table_spec q e : in_table q e = true → ∃ p r0 f, p ∈ regs64 ∧ p.1 = cf_sys_reg e ∧
  (SYSREG p.1, r0) ∈ arm64_ftr_regs ∧ f ∈ fields (fr_bits r0) ∧ q e f = true.
Proof.
  unfold in_table. rewrite andb_true_iff. intros [Hp%bool_decide_eq_true Hr].
  apply list_elem_of_fmap in Hp as (p & Ep & Hp). exists p.
  apply existsb_exists in Hr as ([x r0] & Hin%list_elem_of_In & Hq). cbn in Hq. apply andb_true_iff in Hq as [En%bool_decide_eq_true Hf].
  apply existsb_exists in Hf as (f & Hf%list_elem_of_In & Hq). exists r0, f. split; [done|]. split; [done|]. split; [|done].
  replace (SYSREG p.1) with x; [done|]. apply list_elem_of_lookup in Hin as [i Hi].
  assert (arm64_ftr_regs.*1 !! i = Some x) as Hx by (rewrite list_lookup_fmap, Hi; done).
  rewrite arm64_ftr_regs_ids, list_lookup_fmap in Hx. unfold reg_names in Hx. rewrite list_lookup_fmap, Hi in Hx. cbn in Hx.
  rewrite <- Ep, <- En. congruence.
Qed.

(** A program that reads the register of an entry is shown the feature. *)
Definition shown (s : sys) (midr : Z) (e : cpuid_field) : Prop :=
  ∃ u, emulate_sys_reg midr (SYSREG (cf_sys_reg e)) s = (Ok u, s) ∧ cpufeature_matches u e = true.

(** An entry of the tables, with its register before and after the workarounds. *)
Lemma entry_register have o info cs b s s' e : tracks o info cs b s → user_feature_fixup have s = ((), s') → masks_ok →
  in_table user_links e = true → ∃ p r r' f, p ∈ regs64 ∧ p.1 = cf_sys_reg e ∧ ok s' ∧ view s' !! SYSREG p.1 = Some r' ∧
    f ∈ fields (fr_bits r) ∧ field_ok f ∧ user_links e f = true ∧
    holds r (o (fr_override r)) (reg info p.2) ((λ c, reg c p.2) <$> cs) ∧ fr_sys_val r' = fr_sys_val r ∧
    (if cpuid_feature_extract_unsigned_field_width (fr_user_mask r') (cf_field_pos e) (cf_field_width e) =? 0 then false
     else cpufeature_matches (fr_sys_val r') e) = cpufeature_matches (arm64_ftr_reg_user_value r') e.
Proof.
  intros [Hok _ _ H64 _] Efix Hm Hin. destruct (in_table_spec _ _ Hin) as (p & r0 & f & Hp & Ep & Hr0 & Hf & Hl).
  pose proof Hok as (Hg & Hpl & Hnd). destruct (Hpl _ _ Hr0) as (r & Hr & Est). unfold static in Est. injection Est as Eb Eo.
  destruct (H64 p r Hp Hr) as (Hh & _ & Hu & _). pose proof (good_regs s Hg _ _ Hr) as Hro.
  assert (p.1 ∈ reg_names) as Hn by (by apply (proj1 (list.Forall_forall _ _) (proj1 regs64_names))).
  destruct (fixup_spec have s Hok) as (s2 & E2 & Hok' & Hv). rewrite Efix in E2. injection E2 as <-.
  destruct (Hv p.1 r Hn Hr) as (r' & Hr' & Hh'). rewrite <- Eb in Hf.
  exists p, r, r', f. split; [done|]. split; [done|]. split; [done|]. split; [done|]. split; [done|].
  split; [by apply (proj1 (list.Forall_forall _ _) (proj1 (proj1 Hro)))|]. split; [done|]. split; [done|].
  split; [apply (hb_sys _ _ _ Hh')|].
  apply (user_agrees r r' p.1 f e (taken have p.1)); try done.
  apply (taken_field have p.1 r r' f); try done; [by exists r0|].
  unfold user_links in Hl. rewrite !andb_true_iff in Hl. tauto.
Qed.

(** The callback of a user field and the emulation of its register agree. *)
Lemma user_told read have o info cs b s s' midr cpu e : tracks o info cs b s → user_feature_fixup have s = ((), s') → masks_ok →
  in_table user_links e = true → emulated e = true →
  (user_matches read s' cpu SCOPE_SYSTEM e = true ↔ shown s' midr e).
Proof.
  intros Ht Efix Hm Hin He. destruct (entry_register _ _ _ _ _ _ _ _ Ht Efix Hm Hin) as (p & r & r' & f & Hp & Ep & Hok & Hr' & _ & _ & _ & _ & _ & Ha).
  assert (user_matches read s' cpu SCOPE_SYSTEM e = cpufeature_matches (arm64_ftr_reg_user_value r') e) as ->.
  { rewrite <- Ha. unfold user_matches, has_user_cpuid_feature, read_scoped_sysreg, mbind, FM_bind. rewrite Z.eqb_refl, <- Ep.
    rewrite (read_sanitised_spec s' p.1 r' (proj1 Hok) Hr'). cbn.
    destruct (get_spec s' _ r' (proj1 Hok) (sysreg_range p.1) Hr') as (i & E & _). by rewrite E. }
  unfold emulated in He. apply andb_true_iff in He as [He1 He2].
  assert (emulate_sys_reg midr (SYSREG (cf_sys_reg e)) s' = (Ok (arm64_ftr_reg_user_value r'), s')) as Ee.
  { unfold emulate_sys_reg. rewrite He1. cbn [negb]. apply negb_true_iff in He2. rewrite He2, <- Ep.
    pose proof (get_nowarn_spec s' _ (proj1 Hok) (sysreg_range p.1)) as Hn. rewrite Hr' in Hn. destruct Hn as (i & En & _).
    unfold mbind, FM_bind. by rewrite En. }
  unfold shown. rewrite Ee. split; [intros Hc; by exists (arm64_ftr_reg_user_value r')|]. intros (u & [= <-] & Hc). done.
Qed.

(** What a program is shown, every CPU has. *)
Lemma shown_everywhere have o info cs b s s' midr e : tracks o info cs b s → user_feature_fixup have s = ((), s') → masks_ok →
  in_table user_links e = true → emulated e = true → shown s' midr e →
  ∃ p, p ∈ regs64 ∧ p.1 = cf_sys_reg e ∧ ∀ c, c ∈ info :: cs → cpufeature_matches (reg c p.2) e = true.
Proof.
  intros Ht Efix Hm Hin He Hs. pose proof (proj2 (user_told (λ _ _, 0) _ _ _ _ _ _ _ midr 0 e Ht Efix Hm Hin He) Hs) as Hu.
  destruct (entry_register _ _ _ _ _ _ _ _ Ht Efix Hm Hin) as (p & r & r' & f & Hp & Ep & Hok & Hr' & Hf & Hfok & Hl & [Hv _] & Esys & Ha).
  exists p. split; [done|]. split; [done|]. unfold user_links, links in Hl. rewrite !andb_true_iff in Hl.
  destruct Hl as [[[[Ee%bool_decide_eq_true Hw%Z.leb_le] Hsound] _] _].
  assert (∀ v, cpufeature_matches v e = (min_of e f <=? arm64_ftr_value f v)) as Hmatch.
  { intros v. unfold min_of. rewrite Ee at 1. by rewrite entry_matches. }
  assert (cpufeature_matches (fr_sys_val r) e = true) as Hsys.
  { unfold user_matches, has_user_cpuid_feature, read_scoped_sysreg, mbind, FM_bind in Hu. rewrite Z.eqb_refl, <- Ep in Hu.
    rewrite (read_sanitised_spec s' p.1 r' (proj1 Hok) Hr') in Hu. cbn in Hu.
    destruct (get_spec s' _ r' (proj1 Hok) (sysreg_range p.1) Hr') as (i & E & _). rewrite E in Hu. cbn in Hu.
    rewrite <- Esys. by destruct (_ =? 0). }
  rewrite Hmatch, Hv in Hsys by done. apply Z.leb_le in Hsys. intros c Hc. rewrite Hmatch. apply Z.leb_le.
  eapply safe_over_lower; [exact Hsound|exact Hsys|]. rewrite <- (list_fmap_compose (λ c, reg c p.2)).
  apply (list_elem_of_fmap_2 (λ c, arm64_ftr_value f (reg c p.2)) (info :: cs) c Hc).
Qed.

(** The capabilities of the first table that are told: those of the entries that match. *)
Lemma set_hwcaps_spec matches cpu l : ∀ c, Forall (λ e, cap_hwcap_type e = CAP_HWCAP) l → ∀ n,
  n ∈ elf_hwcap (setup_elf_hwcaps matches cpu l c) ↔
  n ∈ elf_hwcap c ∨ n = KERNEL_HWCAP_CPUID ∨ ∃ e, e ∈ l ∧ cap_hwcap e = n ∧ matches cpu e (cpucap_default_scope e) = true.
Proof.
  intros c Hl n. unfold setup_elf_hwcaps.
  assert (∀ c1, n ∈ elf_hwcap (foldl (λ s e, if matches cpu e (cpucap_default_scope e) then cap_set_elf_hwcap e s else s) c1 l) ↔
    n ∈ elf_hwcap c1 ∨ ∃ e, e ∈ l ∧ cap_hwcap e = n ∧ matches cpu e (cpucap_default_scope e) = true) as Hf.
  { induction Hl as [|e l He Hl IH]; intros c1; cbn [foldl].
    - split; [by left|]. intros [?|(e & ?%elem_of_nil & _)]; done.
    - rewrite IH. destruct (matches cpu e (cpucap_default_scope e)) eqn:Em.
      + unfold cap_set_elf_hwcap. rewrite He. cbn. rewrite elem_of_union, elem_of_singleton. split.
        * intros [[->|Hn]|(e' & He' & ?)]; [right; exists e; split; [constructor|done]|by left|right; exists e'; split; [by constructor|done]].
        * intros [Hn|(e' & [->|He']%elem_of_cons & <- & Hm)]; [by left; right|by left; left|right; by exists e'].
      + split; (intros [Hn|(e' & He' & En & Hm)]; [by left|right; exists e'; split; [|done]]); [by constructor|].
        apply elem_of_cons in He' as [->|He']; [congruence|done]. }
  rewrite Hf. unfold cpu_set_feature. cbn. rewrite elem_of_union, elem_of_singleton. tauto.
Qed.

Lemma set_compat_keeps matches cpu l : ∀ c, Forall (λ e, cap_hwcap_type e ≠ CAP_HWCAP) l →
  elf_hwcap (setup_elf_hwcaps matches cpu l c) = {[KERNEL_HWCAP_CPUID]} ∪ elf_hwcap c.
Proof.
  intros c Hl. unfold setup_elf_hwcaps. change ({[KERNEL_HWCAP_CPUID]} ∪ elf_hwcap c) with (elf_hwcap (cpu_set_feature KERNEL_HWCAP_CPUID c)).
  generalize (cpu_set_feature KERNEL_HWCAP_CPUID c). clear c. induction Hl as [|e l He Hl IH]; intros c; cbn; [done|].
  rewrite IH. destruct (matches _ _ _); [|done]. unfold cap_set_elf_hwcap. destruct (cap_hwcap_type e), CONFIG_COMPAT; done.
Qed.

(** What the callbacks of the first table ask of the kernel besides the registers. *)
Definition supported (c : arm64_cpu_capabilities) : bool :=
  if decide (cap_matches c = "has_sve_feature") then system_supports_sve
  else if decide (cap_matches c = "has_sme_feature") then system_supports_sme else true.

Definition shaped (c : arm64_cpu_capabilities) : Prop :=
  cap_hwcap_type c = CAP_HWCAP ∧ cap_type c = SYSREG "ARM64_CPUCAP_SYSTEM_FEATURE" ∧
  (cap_matches c ∈ ["has_user_cpuid_feature"; "has_sve_feature"; "has_sme_feature"] ∨
   cap_matches c = "cpucap_multi_entry_cap_matches" ∧ Forall (λ m, m.1 = "has_user_cpuid_feature") (cap_match_list c)).

Lemma shaped_cap r f m n : shaped (HWCAP_CAP r f m CAP_HWCAP n).
Proof. split; [done|]. split; [done|]. left. constructor. Qed.
Lemma shaped_sve r f m n : shaped (HWCAP_CAP_MATCH_ID "has_sve_feature" r f m CAP_HWCAP n).
Proof. split; [done|]. split; [done|]. left. do 2 constructor. Qed.
Lemma shaped_sme r f m n : shaped (HWCAP_CAP_MATCH_ID "has_sme_feature" r f m CAP_HWCAP n).
Proof. split; [done|]. split; [done|]. left. do 3 constructor. Qed.
Lemma shaped_multi l n : Forall (λ m, m.1 = "has_user_cpuid_feature") l → shaped (HWCAP_MULTI_CAP l CAP_HWCAP n).
Proof. intros Hl. split; [done|]. split; [done|]. right. by split. Qed.

Lemma elf_shaped : Forall shaped arm64_elf_hwcaps.
Proof.
  unfold arm64_elf_hwcaps. repeat (apply Forall_app; split); try (destruct (IS_ENABLED _));
    repeat (apply List.Forall_nil || (apply List.Forall_cons; [first [apply shaped_cap|apply shaped_sve|apply shaped_sme|apply shaped_multi]|]));
    repeat constructor.
Qed.
(** A CPU that comes late is asked for registers that can be read. *)
Lemma tables_readable : Forall (λ c, Forall (λ e, cf_sys_reg e ∈ readable_regs) (fields_of c)) arm64_elf_hwcaps.
Proof.
  unfold arm64_elf_hwcaps. repeat (apply Forall_app; split); try (destruct (IS_ENABLED _));
    repeat (apply List.Forall_nil || apply List.Forall_cons);
    refine (bool_decide_unpack (_ ∈ _) _); vm_compute; exact I.
Qed.
Lemma compat_shaped : Forall (λ e, cap_hwcap_type e ≠ CAP_HWCAP) compat_elf_hwcaps.
Proof. unfold compat_elf_hwcaps. destruct (IS_ENABLED _); by repeat constructor. Qed.

Lemma matches_spec read multi extract s midr cpu c : shaped c → (∀ p l, multi p l = existsb p l) →
  (∀ e, e ∈ fields_of c → user_matches read s cpu SCOPE_SYSTEM e = true ↔ shown s midr e) →
  hwcap_matches read extract multi s cpu c SCOPE_SYSTEM = true ↔ supported c = true ∧ ∃ e, e ∈ fields_of c ∧ shown s midr e.
Proof.
  intros (_ & _ & Hn) Hmulti Hu. unfold hwcap_matches, supported. destruct Hn as [Hn|[Hn Hl]].
  - assert (fields_of c = [cap_field c]) as Ef.
    { unfold fields_of. rewrite decide_False; [done|]. intros E. rewrite E in Hn. apply (bool_decide_pack _) in Hn. by vm_compute in Hn. }
    rewrite Ef in *. assert ((∃ e, e ∈ [cap_field c] ∧ shown s midr e) ↔ user_matches read s cpu SCOPE_SYSTEM (cap_field c) = true) as ->.
    { rewrite (Hu (cap_field c)) by constructor. split; [by intros (e & ->%list_elem_of_singleton & ?)|]. intros Hs. exists (cap_field c). split; [constructor|done]. }
    unfold has_sve_feature, has_sme_feature. rewrite !elem_of_cons in Hn.
    destruct Hn as [E|[E|[E|Hn%elem_of_nil]]]; [| | |done]; rewrite E; repeat case_decide; try done; rewrite ?andb_true_iff; tauto.
  - rewrite Hn. repeat (rewrite decide_False by done). rewrite decide_True by done. rewrite Hmulti, existsb_exists. 
    assert (fields_of c = (cap_match_list c).*2) as Ef by (unfold fields_of; by rewrite decide_True). rewrite Ef in *. split.
    + intros (m & Hm%list_elem_of_In & Hc). split; [done|]. exists m.2. split; [by apply list_elem_of_fmap_2|].
      apply Hu; [by apply list_elem_of_fmap_2|]. by case_match.
    + intros (_ & e & (m & -> & Hm)%list_elem_of_fmap & Hs). exists m. split; [by apply list_elem_of_In|].
      rewrite decide_True by (by apply (proj1 (list.Forall_forall _ _) Hl m Hm)). apply Hu; [by apply list_elem_of_fmap_2|done].
Qed.

End told.

(** C9. Programs are told exactly what they would read.  After the boot CPU and any
    further CPUs, and with the fields hidden that a workaround hides, the bits of the
    auxiliary vector are those set before, the bit for the emulation itself, and those of
    the entries of [arm64_elf_hwcaps] for which the emulated register shows the feature
    (for the extensions of SVE and SME also the extension itself must be in use); and for each
    of these entries every CPU has one of its fields large enough in its own register. *)
Theorem hwcaps_exact `{SysregLaws} `{FtrHeaderLaws} `{CapHeader} `{Machine} read_mpamidr allow finalized o boot cpus s
    read extract multi midr cpu c0 :
  o None = zero_override → sort_ftr_regs arm64_ftr_regs = Some [] →
  system_after read_mpamidr allow finalized o boot cpus = Some s →
  masks_ok → hwcaps_linked = true → (∀ p l, multi p l = existsb p l) →
  (∀ c, cap_type c = SYSREG "ARM64_CPUCAP_SYSTEM_FEATURE" → cpucap_default_scope c = SCOPE_SYSTEM) →
  let '(s', c') := setup_user_features read extract multi cpu (s, c0) in
  let told c := c ∈ arm64_elf_hwcaps ∧ supported c = true ∧ ∃ e, e ∈ fields_of c ∧ shown s' midr e in
  (∀ n, n ∈ elf_hwcap c' ↔ n ∈ elf_hwcap c0 ∨ n = KERNEL_HWCAP_CPUID ∨ ∃ c, told c ∧ cap_hwcap c = n) ∧
  (∀ c, told c → ∃ e p, e ∈ fields_of c ∧ p ∈ regs64 ∧ p.1 = cf_sys_reg e ∧
     ∀ k, k ∈ boot :: cpus → cpufeature_matches (reg k.2 p.2) e = true).
Proof.
  intros Ho Hs Esys Hm Hlink Hmulti Hscope.
  destruct (system_tracks read_mpamidr allow finalized o boot cpus Ho Hs) as (b & s2 & E2 & Ht).
  rewrite Esys in E2. injection E2 as <-. unfold setup_user_features.
  destruct (fixup_spec (λ n, cpus_have_cap (SYSREG n) c0) s (tr_ok _ _ _ _ _ Ht)) as (s' & Efix & Hok' & _).
  rewrite Efix. cbn [snd].
  assert (∀ c e, c ∈ arm64_elf_hwcaps → e ∈ fields_of c → in_table user_links e = true ∧ emulated e = true) as Hl.
  { intros c e Hc He. unfold hwcaps_linked in Hlink. rewrite forallb_forall in Hlink. specialize (Hlink c (proj1 (list_elem_of_In _ _) Hc)).
    rewrite forallb_forall in Hlink. by apply andb_true_iff, Hlink, list_elem_of_In. }
  split.
  - intros n. transitivity (n ∈ elf_hwcap (setup_elf_hwcaps (hwcap_matches read extract multi s') cpu arm64_elf_hwcaps c0)).
    { unfold CpuCaps.setup_user_features. destruct system_supports_32bit_el0; [|done]. unfold elf_hwcap_fixup.
      assert (∀ c, elf_hwcap (setup_elf_hwcaps (hwcap_matches read extract multi s') cpu compat_elf_hwcaps
        (setup_elf_hwcaps (hwcap_matches read extract multi s') cpu arm64_elf_hwcaps c)) =
        elf_hwcap (setup_elf_hwcaps (hwcap_matches read extract multi s') cpu arm64_elf_hwcaps c)) as E.
      { intros c. rewrite set_compat_keeps by apply compat_shaped. apply set_eq. intros x. rewrite elem_of_union, elem_of_singleton.
        split; [intros [->|?]; [|done]|by right]. apply set_hwcaps_spec; [|tauto].
        eapply list.Forall_impl; [apply elf_shaped|]. by intros c1 []. }
      destruct (CONFIG_COMPAT && _); cbn [with_hwcaps elf_hwcap]; by rewrite E. }
    rewrite set_hwcaps_spec by (eapply list.Forall_impl; [apply elf_shaped|]; by intros c1 []).
    assert (∀ c, c ∈ arm64_elf_hwcaps → hwcap_matches read extract multi s' cpu c (cpucap_default_scope c) = true ↔
      supported c = true ∧ ∃ e, e ∈ fields_of c ∧ shown s' midr e) as Hc.
    { intros c Hc. pose proof (proj1 (list.Forall_forall _ _) elf_shaped c Hc) as Hsh. rewrite Hscope by apply Hsh.
      apply matches_spec; [done|done|]. intros e He. destruct (Hl c e Hc He). by eapply user_told. }
    split; (intros [?|[?|(c & Hx)]]; [by left|by right; left|right; right; exists c; naive_solver]).
  - intros c (Hc & _ & e & He & Hsh). destruct (Hl c e Hc He) as [Hin Hem].
    destruct (shown_everywhere _ _ _ _ _ _ _ _ _ Ht Efix Hm Hin Hem Hsh) as (p & Hp & Ep & Hall). exists e, p.
    split; [done|]. split; [done|]. split; [done|]. intros k Hk. apply Hall.
    apply elem_of_cons in Hk as [->|Hk]; [constructor|]. constructor. by apply list_elem_of_fmap_2.
Qed.

(** ** A machine *)

(** Constants of the headers for the fields of the tables, in the layout of [CpuFtrTables.v]. *)
Definition hwcap_constants : list (string * Z) := [
  ("ID_AA64ISAR1_EL1_APA_WIDTH", 4); ("ID_AA64ISAR1_EL1_APA_PAuth", 1); ("ID_AA64ISAR2_EL1_APA3_WIDTH", 4);
  ("ID_AA64ISAR2_EL1_APA3_PAuth", 1); ("ID_AA64ISAR1_EL1_API_WIDTH", 4); ("ID_AA64ISAR1_EL1_API_PAuth", 1);
  ("ID_AA64ISAR1_EL1_GPA_WIDTH", 4); ("ID_AA64ISAR1_EL1_GPA_IMP", 1); ("ID_AA64ISAR2_EL1_GPA3_WIDTH", 4);
  ("ID_AA64ISAR2_EL1_GPA3_IMP", 1); ("ID_AA64ISAR1_EL1_GPI_WIDTH", 4); ("ID_AA64ISAR1_EL1_GPI_IMP", 1);
  ("ID_AA64ISAR0_EL1_AES_WIDTH", 4); ("ID_AA64ISAR0_EL1_AES_PMULL", 2); ("ID_AA64ISAR0_EL1_AES_AES", 1);
  ("ID_AA64ISAR0_EL1_SHA1_WIDTH", 4); ("ID_AA64ISAR0_EL1_SHA1_IMP", 1); ("ID_AA64ISAR0_EL1_SHA2_WIDTH", 4);
  ("ID_AA64ISAR0_EL1_SHA2_SHA256", 1); ("ID_AA64ISAR0_EL1_SHA2_SHA512", 2); ("ID_AA64ISAR0_EL1_CRC32_WIDTH", 4);
  ("ID_AA64ISAR0_EL1_CRC32_IMP", 1); ("ID_AA64ISAR0_EL1_ATOMIC_WIDTH", 4); ("ID_AA64ISAR0_EL1_ATOMIC_IMP", 2);
  ("ID_AA64ISAR0_EL1_ATOMIC_FEAT_LSE128", 3); ("ID_AA64ISAR0_EL1_RDM_WIDTH", 4); ("ID_AA64ISAR0_EL1_RDM_IMP", 1);
  ("ID_AA64ISAR0_EL1_SHA3_WIDTH", 4); ("ID_AA64ISAR0_EL1_SHA3_IMP", 1); ("ID_AA64ISAR0_EL1_SM3_WIDTH", 4);
  ("ID_AA64ISAR0_EL1_SM3_IMP", 1); ("ID_AA64ISAR0_EL1_SM4_WIDTH", 4); ("ID_AA64ISAR0_EL1_SM4_IMP", 1);
  ("ID_AA64ISAR0_EL1_DP_WIDTH", 4); ("ID_AA64ISAR0_EL1_DP_IMP", 1); ("ID_AA64ISAR0_EL1_FHM_WIDTH", 4);
  ("ID_AA64ISAR0_EL1_FHM_IMP", 1); ("ID_AA64ISAR0_EL1_FHM_F16F32DOT", 2); ("ID_AA64ISAR0_EL1_FHM_F16F32MM", 3);
  ("ID_AA64ISAR0_EL1_TS_WIDTH", 4); ("ID_AA64ISAR0_EL1_TS_FLAGM", 1); ("ID_AA64ISAR0_EL1_TS_FLAGM2", 2);
  ("ID_AA64ISAR0_EL1_RNDR_WIDTH", 4); ("ID_AA64ISAR0_EL1_RNDR_IMP", 1); ("ID_AA64ISAR3_EL1_FPRCVT_WIDTH", 4);
  ("ID_AA64ISAR3_EL1_FPRCVT_IMP", 1); ("ID_AA64PFR0_EL1_FP_WIDTH", 4); ("ID_AA64PFR0_EL1_FP_SIGNED", 1);
  ("ID_AA64PFR0_EL1_FP_FP16", 1); ("ID_AA64PFR0_EL1_AdvSIMD_WIDTH", 4); ("ID_AA64PFR0_EL1_AdvSIMD_SIGNED", 1);
  ("ID_AA64PFR0_EL1_AdvSIMD_FP16", 1); ("ID_AA64PFR0_EL1_DIT_WIDTH", 4); ("ID_AA64PFR0_EL1_DIT_IMP", 1);
  ("ID_AA64PFR2_EL1_FPMR_WIDTH", 4); ("ID_AA64PFR2_EL1_FPMR_IMP", 1); ("ID_AA64ISAR1_EL1_DPB_WIDTH", 4);
  ("ID_AA64ISAR1_EL1_DPB_IMP", 1); ("ID_AA64ISAR1_EL1_DPB_DPB2", 2); ("ID_AA64ISAR1_EL1_JSCVT_WIDTH", 4);
  ("ID_AA64ISAR1_EL1_JSCVT_IMP", 1); ("ID_AA64ISAR1_EL1_FCMA_WIDTH", 4); ("ID_AA64ISAR1_EL1_FCMA_IMP", 1);
  ("ID_AA64ISAR1_EL1_LRCPC_WIDTH", 4); ("ID_AA64ISAR1_EL1_LRCPC_IMP", 1); ("ID_AA64ISAR1_EL1_LRCPC_LRCPC2", 2);
  ("ID_AA64ISAR1_EL1_LRCPC_LRCPC3", 3); ("ID_AA64ISAR1_EL1_FRINTTS_WIDTH", 4); ("ID_AA64ISAR1_EL1_FRINTTS_IMP", 1);
  ("ID_AA64ISAR1_EL1_SB_WIDTH", 4); ("ID_AA64ISAR1_EL1_SB_IMP", 1); ("ID_AA64ISAR1_EL1_BF16_WIDTH", 4);
  ("ID_AA64ISAR1_EL1_BF16_IMP", 1); ("ID_AA64ISAR1_EL1_BF16_EBF16", 2); ("ID_AA64ISAR1_EL1_DGH_WIDTH", 4);
  ("ID_AA64ISAR1_EL1_DGH_IMP", 1); ("ID_AA64ISAR1_EL1_I8MM_WIDTH", 4); ("ID_AA64ISAR1_EL1_I8MM_IMP", 1);
  ("ID_AA64ISAR1_EL1_LS64_WIDTH", 4); ("ID_AA64ISAR1_EL1_LS64_LS64", 1); ("ID_AA64ISAR2_EL1_LUT_WIDTH", 4);
  ("ID_AA64ISAR2_EL1_LUT_IMP", 1); ("ID_AA64ISAR3_EL1_FAMINMAX_WIDTH", 4); ("ID_AA64ISAR3_EL1_FAMINMAX_IMP", 1);
  ("ID_AA64ISAR3_EL1_LSFE_WIDTH", 4); ("ID_AA64ISAR3_EL1_LSFE_IMP", 1); ("ID_AA64MMFR2_EL1_AT_WIDTH", 4);
  ("ID_AA64MMFR2_EL1_AT_IMP", 1); ("ID_AA64ISAR2_EL1_LUT_LUT6", 2); ("ID_AA64PFR0_EL1_SVE_WIDTH", 4);
  ("ID_AA64PFR0_EL1_SVE_IMP", 1); ("ID_AA64ZFR0_EL1_SVEver_WIDTH", 4); ("ID_AA64ZFR0_EL1_SVEver_SVE2p3", 4);
  ("ID_AA64ZFR0_EL1_SVEver_SVE2p2", 3); ("ID_AA64ZFR0_EL1_SVEver_SVE2p1", 2); ("ID_AA64ZFR0_EL1_SVEver_SVE2", 1);
  ("ID_AA64ZFR0_EL1_AES_WIDTH", 4); ("ID_AA64ZFR0_EL1_AES_IMP", 1); ("ID_AA64ZFR0_EL1_AES_PMULL128", 2);
  ("ID_AA64ZFR0_EL1_AES_AES2", 3); ("ID_AA64ZFR0_EL1_BitPerm_WIDTH", 4); ("ID_AA64ZFR0_EL1_BitPerm_IMP", 1);
  ("ID_AA64ZFR0_EL1_B16B16_WIDTH", 4); ("ID_AA64ZFR0_EL1_B16B16_IMP", 1); ("ID_AA64ZFR0_EL1_B16B16_BFSCALE", 2);
  ("ID_AA64ZFR0_EL1_B16B16_B16MM", 3); ("ID_AA64ZFR0_EL1_BF16_WIDTH", 4); ("ID_AA64ZFR0_EL1_BF16_IMP", 1);
  ("ID_AA64ZFR0_EL1_BF16_EBF16", 2); ("ID_AA64ZFR0_EL1_SHA3_WIDTH", 4); ("ID_AA64ZFR0_EL1_SHA3_IMP", 1);
  ("ID_AA64ZFR0_EL1_SM4_WIDTH", 4); ("ID_AA64ZFR0_EL1_SM4_IMP", 1); ("ID_AA64ZFR0_EL1_I8MM_WIDTH", 4);
  ("ID_AA64ZFR0_EL1_I8MM_IMP", 1); ("ID_AA64ZFR0_EL1_F32MM_WIDTH", 4); ("ID_AA64ZFR0_EL1_F32MM_IMP", 1);
  ("ID_AA64ZFR0_EL1_F64MM_WIDTH", 4); ("ID_AA64ZFR0_EL1_F64MM_IMP", 1); ("ID_AA64ZFR0_EL1_F16MM_WIDTH", 4);
  ("ID_AA64ZFR0_EL1_F16MM_IMP", 1); ("ID_AA64ZFR0_EL1_EltPerm_WIDTH", 4); ("ID_AA64ZFR0_EL1_EltPerm_IMP", 1);
  ("ID_AA64PFR1_EL1_GCS_WIDTH", 4); ("ID_AA64PFR1_EL1_GCS_IMP", 1); ("ID_AA64PFR1_EL1_SSBS_WIDTH", 4);
  ("ID_AA64PFR1_EL1_SSBS_SSBS2", 2); ("ID_AA64PFR1_EL1_BT_WIDTH", 4); ("ID_AA64PFR1_EL1_BT_IMP", 1);
  ("ID_AA64PFR1_EL1_MTE_WIDTH", 4); ("ID_AA64PFR1_EL1_MTE_MTE3", 3); ("ID_AA64PFR2_EL1_MTEFAR_WIDTH", 4);
  ("ID_AA64PFR2_EL1_MTEFAR_IMP", 1); ("ID_AA64PFR2_EL1_MTESTOREONLY_WIDTH", 4);
  ("ID_AA64PFR2_EL1_MTESTOREONLY_IMP", 1); ("ID_AA64MMFR0_EL1_ECV_WIDTH", 4); ("ID_AA64MMFR0_EL1_ECV_IMP", 1);
  ("ID_AA64MMFR1_EL1_AFP_WIDTH", 4); ("ID_AA64MMFR1_EL1_AFP_IMP", 1); ("ID_AA64ISAR2_EL1_CSSC_WIDTH", 4);
  ("ID_AA64ISAR2_EL1_CSSC_IMP", 1); ("ID_AA64ISAR2_EL1_CSSC_CMPBR", 2); ("ID_AA64ISAR2_EL1_RPRFM_WIDTH", 4);
  ("ID_AA64ISAR2_EL1_RPRFM_IMP", 1); ("ID_AA64ISAR2_EL1_RPRES_WIDTH", 4); ("ID_AA64ISAR2_EL1_RPRES_IMP", 1);
  ("ID_AA64ISAR2_EL1_WFxT_WIDTH", 4); ("ID_AA64ISAR2_EL1_WFxT_IMP", 1); ("ID_AA64ISAR2_EL1_MOPS_WIDTH", 4);
  ("ID_AA64ISAR2_EL1_MOPS_IMP", 1); ("ID_AA64ISAR2_EL1_BC_WIDTH", 4); ("ID_AA64ISAR2_EL1_BC_IMP", 1);
  ("ID_AA64PFR1_EL1_SME_WIDTH", 4); ("ID_AA64PFR1_EL1_SME_IMP", 1); ("ID_AA64SMFR0_EL1_FA64_WIDTH", 1);
  ("ID_AA64SMFR0_EL1_FA64_IMP", 1); ("ID_AA64SMFR0_EL1_LUT6_WIDTH", 1); ("ID_AA64SMFR0_EL1_LUT6_IMP", 1);
  ("ID_AA64SMFR0_EL1_LUTv2_WIDTH", 1); ("ID_AA64SMFR0_EL1_LUTv2_IMP", 1); ("ID_AA64SMFR0_EL1_SMEver_WIDTH", 4);
  ("ID_AA64SMFR0_EL1_SMEver_SME2p3", 4); ("ID_AA64SMFR0_EL1_SMEver_SME2p2", 3); ("ID_AA64SMFR0_EL1_SMEver_SME2p1", 2);
  ("ID_AA64SMFR0_EL1_SMEver_SME2", 1); ("ID_AA64SMFR0_EL1_I16I64_WIDTH", 4); ("ID_AA64SMFR0_EL1_I16I64_IMP", 1);
  ("ID_AA64SMFR0_EL1_F64F64_WIDTH", 1); ("ID_AA64SMFR0_EL1_F64F64_IMP", 1); ("ID_AA64SMFR0_EL1_I16I32_WIDTH", 4);
  ("ID_AA64SMFR0_EL1_I16I32_IMP", 1); ("ID_AA64SMFR0_EL1_B16B16_WIDTH", 1); ("ID_AA64SMFR0_EL1_B16B16_IMP", 1);
  ("ID_AA64SMFR0_EL1_F16F16_WIDTH", 1); ("ID_AA64SMFR0_EL1_F16F16_IMP", 1); ("ID_AA64SMFR0_EL1_F8F16_WIDTH", 1);
  ("ID_AA64SMFR0_EL1_F8F16_IMP", 1); ("ID_AA64SMFR0_EL1_F8F32_WIDTH", 1); ("ID_AA64SMFR0_EL1_F8F32_IMP", 1);
  ("ID_AA64SMFR0_EL1_I8I32_WIDTH", 4); ("ID_AA64SMFR0_EL1_I8I32_IMP", 1); ("ID_AA64SMFR0_EL1_F16F32_WIDTH", 1);
  ("ID_AA64SMFR0_EL1_F16F32_IMP", 1); ("ID_AA64SMFR0_EL1_B16F32_WIDTH", 1); ("ID_AA64SMFR0_EL1_B16F32_IMP", 1);
  ("ID_AA64SMFR0_EL1_BI32I32_WIDTH", 1); ("ID_AA64SMFR0_EL1_BI32I32_IMP", 1); ("ID_AA64SMFR0_EL1_F32F32_WIDTH", 1);
  ("ID_AA64SMFR0_EL1_F32F32_IMP", 1); ("ID_AA64SMFR0_EL1_SF8FMA_WIDTH", 1); ("ID_AA64SMFR0_EL1_SF8FMA_IMP", 1);
  ("ID_AA64SMFR0_EL1_SF8DP4_WIDTH", 1); ("ID_AA64SMFR0_EL1_SF8DP4_IMP", 1); ("ID_AA64SMFR0_EL1_SF8DP2_WIDTH", 1);
  ("ID_AA64SMFR0_EL1_SF8DP2_IMP", 1); ("ID_AA64SMFR0_EL1_SBitPerm_WIDTH", 1); ("ID_AA64SMFR0_EL1_SBitPerm_IMP", 1);
  ("ID_AA64SMFR0_EL1_AES_WIDTH", 1); ("ID_AA64SMFR0_EL1_AES_IMP", 1); ("ID_AA64SMFR0_EL1_SFEXPA_WIDTH", 1);
  ("ID_AA64SMFR0_EL1_SFEXPA_IMP", 1); ("ID_AA64SMFR0_EL1_STMOP_WIDTH", 1); ("ID_AA64SMFR0_EL1_STMOP_IMP", 1);
  ("ID_AA64SMFR0_EL1_SMOP4_WIDTH", 1); ("ID_AA64SMFR0_EL1_SMOP4_IMP", 1); ("ID_AA64FPFR0_EL1_F8CVT_WIDTH", 1);
  ("ID_AA64FPFR0_EL1_F8CVT_IMP", 1); ("ID_AA64FPFR0_EL1_F8FMA_WIDTH", 1); ("ID_AA64FPFR0_EL1_F8FMA_IMP", 1);
  ("ID_AA64FPFR0_EL1_F8DP4_WIDTH", 1); ("ID_AA64FPFR0_EL1_F8DP4_IMP", 1); ("ID_AA64FPFR0_EL1_F8DP2_WIDTH", 1);
  ("ID_AA64FPFR0_EL1_F8DP2_IMP", 1); ("ID_AA64FPFR0_EL1_F8MM8_WIDTH", 1); ("ID_AA64FPFR0_EL1_F8MM8_IMP", 1);
  ("ID_AA64FPFR0_EL1_F8MM4_WIDTH", 1); ("ID_AA64FPFR0_EL1_F8MM4_IMP", 1); ("ID_AA64FPFR0_EL1_F16MM2_WIDTH", 1);
  ("ID_AA64FPFR0_EL1_F16MM2_IMP", 1); ("ID_AA64FPFR0_EL1_F8E4M3_WIDTH", 1); ("ID_AA64FPFR0_EL1_F8E4M3_IMP", 1);
  ("ID_AA64FPFR0_EL1_F8E5M2_WIDTH", 1); ("ID_AA64FPFR0_EL1_F8E5M2_IMP", 1); ("ID_AA64MMFR3_EL1_S1POE_WIDTH", 4);
  ("ID_AA64MMFR3_EL1_S1POE_IMP", 1); ("KERNEL_HWCAP_PMULL", 32); ("KERNEL_HWCAP_AES", 33); ("KERNEL_HWCAP_SHA1", 34);
  ("KERNEL_HWCAP_SHA2", 35); ("KERNEL_HWCAP_SHA512", 36); ("KERNEL_HWCAP_CRC32", 37); ("KERNEL_HWCAP_ATOMICS", 38);
  ("KERNEL_HWCAP_LSE128", 39); ("KERNEL_HWCAP_ASIMDRDM", 40); ("KERNEL_HWCAP_SHA3", 41); ("KERNEL_HWCAP_SM3", 42);
  ("KERNEL_HWCAP_SM4", 43); ("KERNEL_HWCAP_ASIMDDP", 44); ("KERNEL_HWCAP_ASIMDFHM", 45);
  ("KERNEL_HWCAP_F16F32DOT", 46); ("KERNEL_HWCAP_F16F32MM", 47); ("KERNEL_HWCAP_FLAGM", 48);
  ("KERNEL_HWCAP_FLAGM2", 49); ("KERNEL_HWCAP_RNG", 50); ("KERNEL_HWCAP_FPRCVT", 51); ("KERNEL_HWCAP_FP", 52);
  ("KERNEL_HWCAP_FPHP", 53); ("KERNEL_HWCAP_ASIMD", 54); ("KERNEL_HWCAP_ASIMDHP", 55); ("KERNEL_HWCAP_DIT", 56);
  ("KERNEL_HWCAP_FPMR", 57); ("KERNEL_HWCAP_DCPOP", 58); ("KERNEL_HWCAP_DCPODP", 59); ("KERNEL_HWCAP_JSCVT", 60);
  ("KERNEL_HWCAP_FCMA", 61); ("KERNEL_HWCAP_LRCPC", 62); ("KERNEL_HWCAP_ILRCPC", 63); ("KERNEL_HWCAP_LRCPC3", 64);
  ("KERNEL_HWCAP_FRINT", 65); ("KERNEL_HWCAP_SB", 66); ("KERNEL_HWCAP_BF16", 67); ("KERNEL_HWCAP_EBF16", 68);
  ("KERNEL_HWCAP_DGH", 69); ("KERNEL_HWCAP_I8MM", 70); ("KERNEL_HWCAP_LS64", 71); ("KERNEL_HWCAP_LUT", 72);
  ("KERNEL_HWCAP_FAMINMAX", 73); ("KERNEL_HWCAP_LSFE", 74); ("KERNEL_HWCAP_USCAT", 75); ("KERNEL_HWCAP_SVE_LUT6", 76);
  ("KERNEL_HWCAP_SVE", 77); ("KERNEL_HWCAP_SVE2P3", 78); ("KERNEL_HWCAP_SVE2P2", 79); ("KERNEL_HWCAP_SVE2P1", 80);
  ("KERNEL_HWCAP_SVE2", 81); ("KERNEL_HWCAP_SVEAES", 82); ("KERNEL_HWCAP_SVEPMULL", 83);
  ("KERNEL_HWCAP_SVE_AES2", 84); ("KERNEL_HWCAP_SVEBITPERM", 85); ("KERNEL_HWCAP_SVE_B16B16", 86);
  ("KERNEL_HWCAP_SVE_BFSCALE", 87); ("KERNEL_HWCAP_SVE_B16MM", 88); ("KERNEL_HWCAP_SVEBF16", 89);
  ("KERNEL_HWCAP_SVE_EBF16", 90); ("KERNEL_HWCAP_SVESHA3", 91); ("KERNEL_HWCAP_SVESM4", 92);
  ("KERNEL_HWCAP_SVEI8MM", 93); ("KERNEL_HWCAP_SVEF32MM", 94); ("KERNEL_HWCAP_SVEF64MM", 95);
  ("KERNEL_HWCAP_SVE_F16MM", 96); ("KERNEL_HWCAP_SVE_ELTPERM", 97); ("KERNEL_HWCAP_GCS", 98);
  ("KERNEL_HWCAP_SSBS", 99); ("KERNEL_HWCAP_BTI", 100); ("KERNEL_HWCAP_PACA", 101); ("KERNEL_HWCAP_PACG", 102);
  ("KERNEL_HWCAP_MTE", 103); ("KERNEL_HWCAP_MTE3", 104); ("KERNEL_HWCAP_MTE_FAR", 105);
  ("KERNEL_HWCAP_MTE_STORE_ONLY", 106); ("KERNEL_HWCAP_ECV", 107); ("KERNEL_HWCAP_AFP", 108);
  ("KERNEL_HWCAP_CSSC", 109); ("KERNEL_HWCAP_CMPBR", 110); ("KERNEL_HWCAP_RPRFM", 111); ("KERNEL_HWCAP_RPRES", 112);
  ("KERNEL_HWCAP_WFXT", 113); ("KERNEL_HWCAP_MOPS", 114); ("KERNEL_HWCAP_HBC", 115); ("KERNEL_HWCAP_SME", 116);
  ("KERNEL_HWCAP_SME_FA64", 117); ("KERNEL_HWCAP_SME_LUT6", 118); ("KERNEL_HWCAP_SME_LUTV2", 119);
  ("KERNEL_HWCAP_SME2P3", 120); ("KERNEL_HWCAP_SME2P2", 121); ("KERNEL_HWCAP_SME2P1", 122);
  ("KERNEL_HWCAP_SME2", 123); ("KERNEL_HWCAP_SME_I16I64", 124); ("KERNEL_HWCAP_SME_F64F64", 125);
  ("KERNEL_HWCAP_SME_I16I32", 126); ("KERNEL_HWCAP_SME_B16B16", 127); ("KERNEL_HWCAP_SME_F16F16", 128);
  ("KERNEL_HWCAP_SME_F8F16", 129); ("KERNEL_HWCAP_SME_F8F32", 130); ("KERNEL_HWCAP_SME_I8I32", 131);
  ("KERNEL_HWCAP_SME_F16F32", 132); ("KERNEL_HWCAP_SME_B16F32", 133); ("KERNEL_HWCAP_SME_BI32I32", 134);
  ("KERNEL_HWCAP_SME_F32F32", 135); ("KERNEL_HWCAP_SME_SF8FMA", 136); ("KERNEL_HWCAP_SME_SF8DP4", 137);
  ("KERNEL_HWCAP_SME_SF8DP2", 138); ("KERNEL_HWCAP_SME_SBITPERM", 139); ("KERNEL_HWCAP_SME_AES", 140);
  ("KERNEL_HWCAP_SME_SFEXPA", 141); ("KERNEL_HWCAP_SME_STMOP", 142); ("KERNEL_HWCAP_SME_SMOP4", 143);
  ("KERNEL_HWCAP_F8CVT", 144); ("KERNEL_HWCAP_F8FMA", 145); ("KERNEL_HWCAP_F8DP4", 146); ("KERNEL_HWCAP_F8DP2", 147);
  ("KERNEL_HWCAP_F8MM8", 148); ("KERNEL_HWCAP_F8MM4", 149); ("KERNEL_HWCAP_F16MM", 150); ("KERNEL_HWCAP_F8E4M3", 151);
  ("KERNEL_HWCAP_F8E5M2", 152); ("KERNEL_HWCAP_POE", 153); ("ARM64_CPUCAP_SYSTEM_FEATURE", 18);
  ("ARM64_WORKAROUND_2658417", 1); ("ARM64_WORKAROUND_SPECULATIVE_SSBS", 2)].
Definition hwcap_map : gmap string Z := list_to_map (sample_constants ++ hwcap_constants).
Definition hwcap_configs : list string := ["CONFIG_ARM64_BTI"; "CONFIG_ARM64_GCS"; "CONFIG_ARM64_MTE"; "CONFIG_ARM64_POE";
  "CONFIG_ARM64_PTR_AUTH"; "CONFIG_ARM64_SME"; "CONFIG_ARM64_SVE"].
#[local] Instance sample_regs : Sysregs := {|
  SYSREG s := default 0 (hwcap_map !! s);
  SYSREG64 s := default 0 (sample_masks !! s);
  IS_ENABLED s := bool_decide (s ∈ hwcap_configs)
|}.
#[local] Instance sample_regs_laws : SysregLaws.
Proof.
  split; [|reflexivity]. intros n. cbn [SYSREG sample_regs].
  destruct (hwcap_map !! n) as [v|] eqn:E; [|cbn; lia]. apply elem_of_list_to_map_2 in E.
  assert (Forall (λ e, 0 ≤ e.2 < 2 ^ 31) (sample_constants ++ hwcap_constants)) as Hall.
  { refine (bool_decide_unpack (Forall _ _) _). vm_compute. exact I. }
  apply (proj1 (list.Forall_forall _ _) Hall _ E).
Qed.
#[local] Existing Instances CpuFeature.sample_header CpuFeature.sample_header_laws CpuCaps.sample_header CpuCaps.sample_machine.

Definition boot_cpu : Z * cpuinfo_arm64 := (0, machine 0x1110 0x100000022 0x80001030).
Definition other_cpus : list (Z * cpuinfo_arm64) := [(1, machine 0x2011 0x22 0x80000010); (2, machine 0x1011 0x21 0x80001030)].
Definition told_of (c : caps) : list Z := elements (elf_hwcap c).

Lemma sample_masks_ok : masks_ok.
Proof.
  intros p Hp. unfold hidden_masks in Hp. rewrite !elem_of_cons in Hp. destruct Hp as [->|[->|Hp%elem_of_nil]]; [| |done].
  - exists (FtrReg "SYS_ID_AA64ISAR1_EL1" 0 0 0 0 (Some Risar1) ftr_id_aa64isar1),
      (ARM64_FTR_BITS FTR_VISIBLE FTR_STRICT FTR_LOWER_SAFE (SYSREG "ID_AA64ISAR1_EL1_BF16_SHIFT") 4 0).
    split; [by apply (list_elem_of_lookup_2 _ 30%nat)|]. split; [by apply (list_elem_of_lookup_2 _ 4%nat)|vm_compute; reflexivity].
  - exists (FtrReg "SYS_ID_AA64PFR1_EL1" 0 0 0 0 (Some Rpfr1) ftr_id_aa64pfr1),
      (ARM64_FTR_BITS FTR_VISIBLE FTR_NONSTRICT FTR_LOWER_SAFE (SYSREG "ID_AA64PFR1_EL1_SSBS_SHIFT") 4 (SYSREG "ID_AA64PFR1_EL1_SSBS_NI")).
    split; [by apply (list_elem_of_lookup_2 _ 22%nat)|]. split; [by apply (list_elem_of_lookup_2 _ 7%nat)|vm_compute; reflexivity].
Qed.

Lemma sample_linked : hwcaps_linked = true.
Proof. vm_compute. reflexivity. Qed.

(** On these CPUs a program is told of the instructions that all three of them have, and of
    what is emulated. *)
Definition sample_told : option (list Z) :=
  (λ s, told_of (setup_user_features (λ _ _, 0) (λ _ _, 0) (λ p l, existsb p l) 0 (s, no_caps 0 0)).2) <$>
  system_after (λ _, 0) false false sample_overrides boot_cpu other_cpus.

Lemma sample_scope c : cap_type c = SYSREG "ARM64_CPUCAP_SYSTEM_FEATURE" → cpucap_default_scope c = SCOPE_SYSTEM.
Proof. intros Hc. change (Z.land (cap_type c) 7 = 2). rewrite Hc. vm_compute. reflexivity. Qed.
Lemma sample_silent : sort_ftr_regs arm64_ftr_regs = Some [].
Proof. vm_compute. reflexivity. Qed.

Lemma hwcaps_exact_witness : ∃ s, system_after (λ _, 0) false false sample_overrides boot_cpu other_cpus = Some s ∧
  let '(s', c') := setup_user_features (λ _ _, 0) (λ _ _, 0) (λ p l, existsb p l) 0 (s, no_caps 0 0) in
  ∀ n, n ∈ elf_hwcap c' ↔ n = 11 ∨ ∃ c, (c ∈ arm64_elf_hwcaps ∧ supported c = true ∧ ∃ e, e ∈ fields_of c ∧ shown s' 0 e) ∧ cap_hwcap c = n.
Proof.
  destruct (system_after (λ _, 0) false false sample_overrides boot_cpu other_cpus) as [s|] eqn:E; [|exfalso; revert E; vm_compute; discriminate].
  exists s. split; [reflexivity|].
  pose proof (hwcaps_exact (λ _, 0) false false sample_overrides boot_cpu other_cpus s (λ _ _, 0) (λ _ _, 0) (λ p l, existsb p l) 0 0 (no_caps 0 0)
    eq_refl sample_silent E sample_masks_ok sample_linked (λ _ _, eq_refl) sample_scope) as Hw.
  destruct (setup_user_features _ _ _ _ _) as [s' c']. destruct Hw as [Hw _]. intros n. rewrite Hw.
  split; [intros [Hn|[Hn|Hn]]; [destruct (not_elem_of_empty n Hn)|left; exact Hn|right; exact Hn]|].
  intros [Hn|Hn]; right; [left|right]; exact Hn.
Defined.

Example sample_told_of : sample_told = Some [11; 37; 54; 34; 52].
Proof. vm_compute. reflexivity. Qed.
