(* ===== verification/CpuSystem.v ===== *)
(** * The capabilities of a system and the registers of its CPUs

    The composition of [CpuFeature.v], [CpuCaps.v] and [CpuCapTables.v]: the table
    [arm64_features] through the boot of a system.  The callback [has_cpuid_feature] reads
    the sanitised registers; all other callbacks are free. *)

From Stdlib Require Import ZArith Lia Bool.
From stdpp Require Import base numbers list strings option gmap fin_sets.
From S2P Require Import Prelude IdregOverride CpuFtrTables CpuFeature CpuCaps CpuCapTables CpuHwcaps.

Local Open Scope Z_scope.

Section system.
Context `{SysregLaws} `{FtrHeaderLaws}.

(** The entries of the system that describe a field. *)
Definition system_field (c : arm64_cpu_capabilities) : bool :=
  bool_decide (cap_matches c = "has_cpuid_feature") && (cap_type c =? SYSREG "ARM64_CPUCAP_SYSTEM_FEATURE").
Definition features_linked : bool :=
  forallb (λ c, negb (system_field c) || in_table links (cap_field c)) arm64_features.

(** Their numbers are indices of the bitmap, each used once. *)
Definition numbers_ok (ncaps : nat) : bool :=
  bool_decide (NoDup (capability <$> arm64_features)) &&
  forallb (λ c, (0 <=? capability c) && (capability c <? Z.of_nat ncaps)) arm64_features.

(** The sanitised register of an entry, and the registers of the CPUs. *)
Lemma field_register read_mpamidr allow finalized o boot cpus s e :
  o None = zero_override → sort_ftr_regs arm64_ftr_regs = Some [] →
  system_after read_mpamidr allow finalized o boot cpus = Some s → in_table links e = true →
  ∃ p r f, p ∈ regs64 ∧ p.1 = cf_sys_reg e ∧ read_sanitised_ftr_reg (SYSREG (cf_sys_reg e)) s = (fr_sys_val r, s) ∧
    f ∈ fields (fr_bits r) ∧ links e f = true ∧
    (∀ v, cpufeature_matches v e = (min_of e f <=? arm64_ftr_value f v)) ∧
    holds r (o (fr_override r)) (reg boot.2 p.2) ((λ c, reg c p.2) <$> cpus.*2).
Proof.
  intros Ho Hs E Hin. destruct (system_tracks read_mpamidr allow finalized o boot cpus Ho Hs) as (b & s2 & E2 & [Hok _ _ H64 _]).
  rewrite E in E2. injection E2 as <-. destruct (in_table_spec _ _ Hin) as (p & r0 & f & Hp & Ep & Hr0 & Hf & Hl).
  pose proof Hok as (Hg & Hpl & _). destruct (Hpl _ _ Hr0) as (r & Hr & Est). unfold static in Est. injection Est as Eb Eo.
  destruct (H64 p r Hp Hr) as (Hh & _). rewrite <- Eb in Hf. exists p, r, f. split; [done|]. split; [done|].
  split; [rewrite <- Ep; by apply read_sanitised_spec|]. split; [done|]. split; [done|]. split; [|done].
  unfold links in Hl. rewrite !andb_true_iff in Hl. destruct Hl as [[Ee%bool_decide_eq_true Hw%Z.leb_le] _].
  intros v. unfold min_of. rewrite Ee at 1. apply entry_matches; [|done].
  by apply (proj1 (list.Forall_forall _ _) (proj1 (proj1 (good_regs s Hg _ _ Hr)))).
Qed.

End system.

(** C8. The capabilities that come from fields of registers are right, from the table to
    the CPUs.  The boot CPU and any further CPUs record their registers, come up with the
    table [arm64_features] and pass the early checks, and the system is made final.  Then
    for each entry of the table that describes a field of the system: it stands in
    the array; its bit is set exactly when the sanitised register shows the feature; when it is
    set, every CPU has the feature in its own register, and the callback, if there is one,
    ran on every CPU that is online. *)
Theorem features_exact `{SysregLaws} `{FtrHeaderLaws} `{CapLaws} `{Machine} read_mpamidr allow finalized o boot cpus s
    read matches hwcaps compat errata impdef c0 c1 b cs online st :
  o None = zero_override → sort_ftr_regs arm64_ftr_regs = Some [] →
  system_after read_mpamidr allow finalized o boot cpus = Some s →
  features_linked = true → numbers_ok ARM64_NCAPS = true → Forall (λ c, 0 ≤ capability c) (errata ++ impdef) →
  (∀ c, cap_type c = SYSREG "ARM64_CPUCAP_SYSTEM_FEATURE" →
    scope_of c = SCOPE_SYSTEM ∧ cpucap_default_scope c = SCOPE_SYSTEM ∧ cpucap_match_all_early_cpus c = false) →
  (∀ c, cap_matches c = "has_cpuid_feature" → matches b c SCOPE_SYSTEM = default false (has_cpuid_feature read (cap_field c) true s).1) →
  early_cpus matches hwcaps compat cs (setup_boot_cpu_features matches b arm64_features errata impdef (no_caps c0 c1)) = Go st →
  let st' := setup_system_capabilities matches b online st in
  ∀ c, c ∈ arm64_features → system_field c = true →
  cpucap_ptrs st !! Z.to_nat (capability c) = Some (Some c) ∧
  (cpus_have_cap (capability c) st' = true ↔ ∃ v, reads_as s (cf_sys_reg (cap_field c)) v ∧ cpufeature_matches v (cap_field c) = true) ∧
  (cpus_have_cap (capability c) st' = true →
     (∃ p, p ∈ regs64 ∧ p.1 = cf_sys_reg (cap_field c) ∧ ∀ k, k ∈ boot :: cpus → cpufeature_matches (reg k.2 p.2) (cap_field c) = true) ∧
     (cap_enable c = true → ∀ k, k ∈ online → Enable k (capability c) ∈ log st')).
Proof.
  intros Ho Hs E Hlink Hnum Hei Hty Hcb He st' c Hc Hsf. unfold numbers_ok in Hnum.
  apply andb_true_iff in Hnum as [Hnd%bool_decide_eq_true Hrange].
  assert (Forall (λ c, 0 ≤ capability c < Z.of_nat ARM64_NCAPS) arm64_features) as Hr.
  { apply list.Forall_forall. intros d Hd. rewrite forallb_forall in Hrange. specialize (Hrange d (proj1 (list_elem_of_In _ _) Hd)). lia. }
  assert (cpucap_ptrs st !! Z.to_nat (capability c) = Some (Some c)) as Hptr.
  { rewrite (early_ptrs matches hwcaps compat b arm64_features errata impdef c0 c1 cs st); [by apply boot_ptrs| |done].
    rewrite Forall_app. split; [|done]. eapply list.Forall_impl; [exact Hr|]. by intros d []. }
  unfold system_field in Hsf. apply andb_true_iff in Hsf as [Hm%bool_decide_eq_true Ht%Z.eqb_eq].
  destruct (Hty c Ht) as (Hsc & Hds & Hall).
  destruct (caps_detected matches hwcaps compat arm64_features errata impdef c0 c1 b cs online st st') with (i := Z.to_nat (capability c)) (c := c)
    as (Ec & _ & _ & Hsys & Hen); [|done|done|by rewrite Hptr|by right; left|].
  { rewrite Forall_app. split; [|done]. eapply list.Forall_impl; [exact Hr|]. by intros d []. }
  split; [done|]. specialize (Hsys Hsc). unfold mem in Hsys, Hen. rewrite <- Ec in Hsys, Hen. rewrite Hall, Hds, (Hcb c Hm) in Hsys. cbn [negb andb] in Hsys.
  assert (in_table links (cap_field c) = true) as Hin.
  { unfold features_linked in Hlink. rewrite forallb_forall in Hlink. specialize (Hlink c (proj1 (list_elem_of_In _ _) Hc)).
    unfold system_field in Hlink. rewrite bool_decide_true, Ht, Z.eqb_refl in Hlink by done. exact Hlink. }
  destruct (field_register _ _ _ _ _ _ _ _ Ho Hs E Hin) as (p & r & f & Hp & Ep & Hread & Hf & Hl & Hmatch & [Hv _]).
  unfold has_cpuid_feature, read_scoped_sysreg, mbind, FM_bind in Hsys. rewrite Hread in Hsys. cbn in Hsys. rewrite Hsys. split.
  - unfold reads_as. rewrite Hread. split; [intros Hx; by exists (fr_sys_val r)|]. by intros (v & [= <-] & Hx).
  - intros Hset. split.
    + exists p. split; [done|]. split; [done|]. rewrite Hmatch, Hv in Hset by done. apply Z.leb_le in Hset. intros k Hk.
      rewrite Hmatch. apply Z.leb_le. unfold links in Hl. rewrite !andb_true_iff in Hl. eapply safe_over_lower; [apply Hl|exact Hset|].
      rewrite <- !list_fmap_compose. apply (list_elem_of_fmap_2 (λ c, arm64_ftr_value f (reg c.2 p.2)) (boot :: cpus) k Hk).
    + intros Hcb' k Hk. apply Hen; [by rewrite Hsys|done|]. rewrite bool_decide_false; [done|]. rewrite Hsc.
      destruct scope_bits as (_ & -> & ->). done.
Qed.

(** ** A machine *)

Definition feature_constants : list (string * Z) := [
  ("ID_AA64PFR0_EL1_GIC_WIDTH", 4); ("ID_AA64PFR0_EL1_GIC_IMP", 1); ("ID_AA64MMFR0_EL1_ECV_CNTPOFF", 2);
  ("ID_AA64MMFR1_EL1_PAN_WIDTH", 4); ("ID_AA64MMFR1_EL1_PAN_IMP", 1); ("ID_AA64MMFR1_EL1_PAN_PAN3", 3);
  ("ID_AA64MMFR2_EL1_NV_WIDTH", 4); ("ID_AA64MMFR2_EL1_NV_NV2", 2); ("ID_AA64MMFR4_EL1_NV_frac_WIDTH", 4);
  ("ID_AA64MMFR4_EL1_NV_frac_NV2_ONLY", 1); ("ID_AA64PFR0_EL1_EL0_WIDTH", 4); ("ID_AA64PFR0_EL1_EL0_AARCH32", 2);
  ("ID_AA64PFR0_EL1_EL1_WIDTH", 4); ("ID_AA64PFR0_EL1_EL1_AARCH32", 2); ("ID_AA64MMFR1_EL1_HCX_WIDTH", 4);
  ("ID_AA64MMFR1_EL1_HCX_IMP", 1); ("ID_AA64PFR0_EL1_CSV3_WIDTH", 4); ("ID_AA64PFR0_EL1_CSV3_IMP", 1);
  ("ID_AA64PFR0_EL1_RAS_WIDTH", 4); ("ID_AA64PFR0_EL1_RAS_IMP", 1); ("ID_AA64PFR0_EL1_AMU_WIDTH", 4);
  ("ID_AA64PFR0_EL1_AMU_IMP", 1); ("ID_AA64MMFR2_EL1_FWB_WIDTH", 4); ("ID_AA64MMFR2_EL1_FWB_IMP", 1);
  ("ID_AA64MMFR2_EL1_TTL_WIDTH", 4); ("ID_AA64MMFR2_EL1_TTL_IMP", 1); ("ID_AA64ISAR0_EL1_TLB_WIDTH", 4);
  ("ID_AA64ISAR0_EL1_TLB_RANGE", 2); ("ID_AA64MMFR1_EL1_HAFDBS_WIDTH", 4); ("ID_AA64MMFR1_EL1_HAFDBS_DBM", 2);
  ("ID_AA64MMFR1_EL1_HAFDBS_HAFT", 3); ("ID_AA64PFR1_EL1_SSBS_IMP", 1); ("ID_AA64MMFR2_EL1_CnP_WIDTH", 4);
  ("ID_AA64MMFR2_EL1_CnP_IMP", 1); ("ID_AA64MMFR2_EL1_E0PD_WIDTH", 4); ("ID_AA64MMFR2_EL1_E0PD_IMP", 1);
  ("ID_AA64MMFR0_EL1_FGT_WIDTH", 4); ("ID_AA64MMFR0_EL1_FGT_IMP", 1); ("ID_AA64MMFR0_EL1_FGT_FGT2", 2);
  ("ID_AA64PFR1_EL1_SME_SME2", 2); ("ID_AA64MMFR1_EL1_TIDCP1_WIDTH", 4); ("ID_AA64MMFR1_EL1_TIDCP1_IMP", 1);
  ("ID_AA64MMFR3_EL1_TCRX_WIDTH", 4); ("ID_AA64MMFR3_EL1_TCRX_IMP", 1); ("ID_AA64MMFR3_EL1_S1PIE_WIDTH", 4);
  ("ID_AA64MMFR3_EL1_S1PIE_IMP", 1); ("ID_AA64MMFR2_EL1_EVT_WIDTH", 4); ("ID_AA64MMFR2_EL1_EVT_IMP", 1);
  ("ID_AA64MMFR2_EL1_VARange_WIDTH", 4); ("ID_AA64MMFR2_EL1_VARange_52", 1); ("ID_AA64MMFR0_EL1_TGRAN4_WIDTH", 4);
  ("ID_AA64MMFR0_EL1_TGRAN4_SIGNED", 1); ("ID_AA64MMFR0_EL1_TGRAN4_52_BIT", 1); ("ID_AA64MMFR0_EL1_TGRAN16_WIDTH", 4);
  ("ID_AA64MMFR0_EL1_TGRAN16_52_BIT", 2); ("ID_AA64MMFR4_EL1_E2H0_WIDTH", 4); ("ID_AA64MMFR4_EL1_E2H0_SIGNED", 1);
  ("ID_AA64MMFR4_EL1_E2H0_NI_NV1", 14); ("ID_AA64MMFR3_EL1_SCTLRX_WIDTH", 4); ("ID_AA64MMFR3_EL1_SCTLRX_IMP", 1);
  ("ID_AA64PFR2_EL1_GCIE_WIDTH", 4); ("ID_AA64PFR2_EL1_GCIE_IMP", 1); ("ID_AA64MMFR1_EL1_XNX_WIDTH", 4);
  ("ID_AA64MMFR1_EL1_XNX_IMP", 1); ("ID_AA64ISAR1_EL1_LS64_LS64_V", 2); ("ID_AA64ISAR3_EL1_LSUI_WIDTH", 4);
  ("ID_AA64ISAR3_EL1_LSUI_IMP", 1); ("ARM64_ALWAYS_BOOT", 3); ("ARM64_ALWAYS_SYSTEM", 4);
  ("ARM64_HAS_GICV3_CPUIF", 5); ("ARM64_HAS_ECV", 6); ("ARM64_HAS_ECV_CNTPOFF", 7); ("ARM64_HAS_PAN", 8);
  ("ARM64_HAS_EPAN", 9); ("ARM64_HAS_LSE_ATOMICS", 10); ("ARM64_HAS_VIRT_HOST_EXTN", 11);
  ("ARM64_HAS_NESTED_VIRT", 12); ("ARM64_HAS_32BIT_EL0_DO_NOT_USE", 13); ("ARM64_HAS_32BIT_EL1", 14);
  ("ARM64_KVM_PROTECTED_MODE", 15); ("ARM64_HAS_HCX", 16); ("ARM64_UNMAP_KERNEL_AT_EL0", 17);
  ("ARM64_HAS_FPSIMD", 18); ("ARM64_HAS_DCPOP", 19); ("ARM64_HAS_DCPODP", 20); ("ARM64_SVE", 21);
  ("ARM64_HAS_RAS_EXTN", 22); ("ARM64_HAS_RASV1P1_EXTN", 23); ("ARM64_HAS_AMU_EXTN", 24); ("ARM64_HAS_CACHE_IDC", 25);
  ("ARM64_HAS_CACHE_DIC", 26); ("ARM64_HAS_STAGE2_FWB", 27); ("ARM64_HAS_ARMv8_4_TTL", 28);
  ("ARM64_HAS_TLB_RANGE", 29); ("ARM64_HW_DBM", 30); ("ARM64_HAFT", 31); ("ARM64_HAS_CRC32", 32); ("ARM64_SSBS", 33);
  ("ARM64_HAS_CNP", 34); ("ARM64_HAS_SB", 35); ("ARM64_HAS_ADDRESS_AUTH_ARCH_QARMA5", 36);
  ("ARM64_HAS_ADDRESS_AUTH_ARCH_QARMA3", 37); ("ARM64_HAS_ADDRESS_AUTH_IMP_DEF", 38); ("ARM64_HAS_ADDRESS_AUTH", 39);
  ("ARM64_HAS_GENERIC_AUTH_ARCH_QARMA5", 40); ("ARM64_HAS_GENERIC_AUTH_ARCH_QARMA3", 41);
  ("ARM64_HAS_GENERIC_AUTH_IMP_DEF", 42); ("ARM64_HAS_GENERIC_AUTH", 43); ("ARM64_HAS_GIC_PRIO_MASKING", 44);
  ("ARM64_HAS_GIC_PRIO_RELAXED_SYNC", 45); ("ARM64_HAS_ICH_HCR_EL2_TDIR", 46); ("ARM64_HAS_E0PD", 47);
  ("ARM64_HAS_RNG", 48); ("ARM64_BTI", 49); ("ARM64_MTE", 50); ("ARM64_MTE_ASYMM", 51); ("ARM64_MTE_FAR", 52);
  ("ARM64_MTE_STORE_ONLY", 53); ("ARM64_HAS_LDAPR", 54); ("ARM64_HAS_FGT", 55); ("ARM64_HAS_FGT2", 56);
  ("ARM64_SME", 57); ("ARM64_SME_FA64", 58); ("ARM64_SME2", 59); ("ARM64_HAS_WFXT", 60); ("ARM64_HAS_TIDCP1", 61);
  ("ARM64_HAS_DIT", 62); ("ARM64_HAS_MOPS", 63); ("ARM64_HAS_TCR2", 64); ("ARM64_HAS_S1PIE", 65);
  ("ARM64_KVM_HVHE", 66); ("ARM64_HAS_EVT", 67); ("ARM64_HAS_BBML2_NOABORT", 68); ("ARM64_HAS_LPA2", 69);
  ("ARM64_HAS_FPMR", 70); ("ARM64_HAS_VA52", 71); ("ARM64_MPAM", 72); ("ARM64_MPAM_HCR", 73);
  ("ARM64_HAS_HCR_NV1", 74); ("ARM64_HAS_S1POE", 75); ("ARM64_HAS_GCS", 76); ("ARM64_HAS_PMUV3", 77);
  ("ARM64_HAS_SCTLR2", 78); ("ARM64_HAS_GICV5_CPUIF", 79); ("ARM64_HAS_GICV5_LEGACY", 80); ("ARM64_HAS_XNX", 81);
  ("ARM64_HAS_LS64", 82); ("ARM64_HAS_LS64_V", 83); ("ARM64_HAS_LSUI", 84); ("ARM64_CPUCAP_BOOT_CPU_FEATURE", 84);
  ("ARM64_CPUCAP_STRICT_BOOT_CPU_FEATURE", 68); ("ARM64_CPUCAP_BOOT_RESTRICTED_CPU_LOCAL_FEATURE", 33);
  ("ARM64_CPUCAP_WEAK_LOCAL_CPU_FEATURE", 49); ("ARM64_CPUCAP_EARLY_LOCAL_CPU_FEATURE", 129)].
Definition feature_map : gmap string Z := list_to_map (sample_constants ++ hwcap_constants ++ feature_constants).
#[local] Instance sample_regs : Sysregs := {|
  SYSREG s := default 0 (feature_map !! s);
  SYSREG64 s := default 0 (sample_masks !! s);
  IS_ENABLED s := bool_decide (s ∈ ["CONFIG_ARM64_4K_PAGES"; "CONFIG_ARM64_AMU_EXTN"; "CONFIG_ARM64_CNP"; "CONFIG_ARM64_E0PD"; "CONFIG_ARM64_EPAN";
    "CONFIG_ARM64_HAFT"; "CONFIG_ARM64_HW_AFDBM"; "CONFIG_ARM64_LSUI"; "CONFIG_ARM64_PMEM"; "CONFIG_ARM64_PSEUDO_NMI";
    "CONFIG_ARM64_RAS_EXTN"; "CONFIG_ARM64_VA_BITS_52"; "CONFIG_HW_PERF_EVENTS"; "CONFIG_KVM"] ++ hwcap_configs)
|}.
#[local] Instance sample_regs_laws : SysregLaws.
Proof.
  split; [|reflexivity]. intros n. cbn [SYSREG sample_regs].
  destruct (feature_map !! n) as [v|] eqn:E; [|cbn; lia]. apply elem_of_list_to_map_2 in E.
  assert (Forall (λ e, 0 ≤ e.2 < 2 ^ 31) (sample_constants ++ hwcap_constants ++ feature_constants)) as Hall.
  { refine (bool_decide_unpack (Forall _ _) _). vm_compute. exact I. }
  apply (proj1 (list.Forall_forall _ _) Hall _ E).
Qed.
#[local] Existing Instances CpuFeature.sample_header CpuFeature.sample_header_laws CpuCaps.sample_machine.
#[local] Instance sample_cap_header : CapHeader := {|
  ARM64_NCAPS := 100%nat;
  SCOPE_LOCAL_CPU := 1; SCOPE_SYSTEM := 2; SCOPE_BOOT_CPU := 4; ARM64_CPUCAP_SCOPE_MASK := 7; SCOPE_ALL := 7;
  cpucap_default_scope c := Z.land (cap_type c) 7;
  cpucap_match_all_early_cpus c := Z.testbit (cap_type c) 7;
  ARM64_CPUCAP_OPTIONAL_FOR_LATE_CPU := 32; ARM64_CPUCAP_PERMITTED_FOR_LATE_CPU := 16; ARM64_CPUCAP_PANIC_ON_CONFLICT := 64;
  KERNEL_HWCAP_CPUID := 11; ARM64_WORKAROUND_1742098 := 0; COMPAT_HWCAP2_AES := 1;
  CONFIG_COMPAT := true
|}.
#[local] Instance sample_cap_laws : CapLaws.
Proof. by repeat split. Qed.

(** The callbacks other than [has_cpuid_feature] say no. *)
Definition sample_system : option sys := system_after (λ _, 0) false false sample_overrides boot_cpu other_cpus.
Definition sample_matches (s : sys) (cpu : Z) (c : arm64_cpu_capabilities) (scope : Z) : bool :=
  bool_decide (cap_matches c = "has_cpuid_feature") && default false (has_cpuid_feature (λ _, 0) (cap_field c) true s).1.

Lemma sample_linked_features : features_linked = true ∧ numbers_ok ARM64_NCAPS = true.
Proof. split; vm_compute; reflexivity. Qed.
Lemma sample_quiet : sort_ftr_regs arm64_ftr_regs = Some [].
Proof. vm_compute. reflexivity. Qed.
Lemma sample_types c : cap_type c = SYSREG "ARM64_CPUCAP_SYSTEM_FEATURE" →
  scope_of c = SCOPE_SYSTEM ∧ cpucap_default_scope c = SCOPE_SYSTEM ∧ cpucap_match_all_early_cpus c = false.
Proof.
  intros Hc. change (Z.land (cap_type c) 7 = 2 ∧ Z.land (cap_type c) 7 = 2 ∧ Z.testbit (cap_type c) 7 = false).
  rewrite Hc. clear. vm_compute. repeat split.
Qed.

(** The entry for the CRC32 instructions, which all three CPUs have. *)
Definition crc32_feature : arm64_cpu_capabilities :=
  feature "ARM64_HAS_CRC32" "ARM64_CPUCAP_SYSTEM_FEATURE" "has_cpuid_feature" no_name (ARM64_CPUID_FIELDS "ID_AA64ISAR0_EL1" "CRC32" "IMP") [].

Lemma features_exact_witness : ∃ s st, sample_system = Some s ∧
  early_cpus (sample_matches s) [] [] [1; 2] (setup_boot_cpu_features (sample_matches s) 0 arm64_features [] [] (no_caps 0 0)) = Go st ∧
  (cpus_have_cap (capability crc32_feature) (setup_system_capabilities (sample_matches s) 0 [0; 1; 2] st) = true ↔
   ∃ v, reads_as s "SYS_ID_AA64ISAR0_EL1" v ∧ cpufeature_matches v (cap_field crc32_feature) = true).
Proof.
  destruct (sample_system) as [s|] eqn:E; [|exfalso; revert E; vm_compute; discriminate].
  assert ((λ s, match early_cpus (sample_matches s) [] [] [1; 2] (setup_boot_cpu_features (sample_matches s) 0 arm64_features [] [] (no_caps 0 0))
    with Go _ => true | Stop _ _ => false end) <$> sample_system = Some true) as Hg by (vm_compute; reflexivity).
  rewrite E in Hg. cbn [fmap option_fmap option_map] in Hg.
  destruct (early_cpus (sample_matches s) [] [] [1; 2] (setup_boot_cpu_features (sample_matches s) 0 arm64_features [] [] (no_caps 0 0))) as [st|? ?] eqn:Ee;
    [|discriminate Hg].
  exists s, st. split; [reflexivity|]. split; [exact Ee|].
  refine (proj1 (proj2 (features_exact (λ _, 0) false false sample_overrides boot_cpu other_cpus s (λ _, 0) (sample_matches s) [] [] [] []
    0 0 0 [1; 2] [0; 1; 2] st eq_refl sample_quiet E (proj1 sample_linked_features) (proj2 sample_linked_features) (Forall_nil_2 _) sample_types
    _ Ee crc32_feature _ _))).
  - intros c Hc. unfold sample_matches. rewrite bool_decide_true by exact Hc. reflexivity.
  - apply (list_elem_of_lookup_2 _ 29%nat). vm_compute. reflexivity.
  - vm_compute. reflexivity.
Defined.
