(* ===== verification/BrcmPcie.v ===== *)
(** * Broadcom wireless PCIe transport: the device (brcmfmac/pcie.c)

    Register windows, access to the chip's memory, reset of the chip, the download
    state, interrupt masks and the doorbell that tells the firmware that the host is
    ready.  Accesses and calls are events; the answers of the device are an oracle on
    the history.  The other [Brcm] files build on the events and accessors of this
    one.  Constants that come from headers outside the repository (bits of the
    ChipCommon core) are parameters. *)

From Stdlib Require Import ZArith Lia Bool.
From stdpp Require Import base numbers list option.
From S2P Require Import Prelude.

Local Open Scope list_scope.
Local Open Scope Z_scope.

(** ** Constants *)

Definition BRCMF_PCIE_REG_MAP_SIZE : Z := 32 * 1024.
Definition BRCMF_PCIE_BAR0_WINDOW : Z := 0x80.
Definition BRCMF_PCIE_BAR0_REG_SIZE : Z := 0x1000.
Definition BRCMF_PCIE_ARMCR4REG_BANKIDX : Z := 0x40.
Definition BRCMF_PCIE_ARMCR4REG_BANKPDA : Z := 0x4C.
Definition BRCMF_PCIE_REG_INTMASK : Z := 0x94.
Definition BRCMF_PCIE_REG_SBMBX : Z := 0x98.
Definition BRCMF_PCIE_REG_LINK_STATUS_CTRL : Z := 0xBC.
Definition BRCMF_PCIE_PCIE2REG_INTMASK : Z := 0x24.
Definition BRCMF_PCIE_PCIE2REG_MAILBOXINT : Z := 0x48.
Definition BRCMF_PCIE_PCIE2REG_MAILBOXMASK : Z := 0x4C.
Definition BRCMF_PCIE_PCIE2REG_CONFIGADDR : Z := 0x120.
Definition BRCMF_PCIE_PCIE2REG_CONFIGDATA : Z := 0x124.
Definition BRCMF_PCIE_PCIE2REG_H2D_MAILBOX_0 : Z := 0x140.
Definition BRCMF_PCIE_PCIE2REG_H2D_MAILBOX_1 : Z := 0x144.
Definition BRCMF_PCIE_64_PCIE2REG_INTMASK : Z := 0xC14.
Definition BRCMF_PCIE_64_PCIE2REG_MAILBOXINT : Z := 0xC30.
Definition BRCMF_PCIE_64_PCIE2REG_MAILBOXMASK : Z := 0xC34.
Definition BRCMF_PCIE_64_PCIE2REG_H2D_MAILBOX_0 : Z := 0xA20.
Definition BRCMF_PCIE_64_PCIE2REG_H2D_MAILBOX_1 : Z := 0xA24.
Definition BRCMF_PCIE_MB_INT_FN0 : Z := Z.lor 0x0100 0x0200.
Definition BRCMF_PCIE_MB_INT_D2H_DB : Z :=
  foldr Z.lor 0 [0x10000; 0x20000; 0x40000; 0x80000; 0x100000; 0x200000; 0x400000; 0x800000].
Definition BRCMF_PCIE_64_MB_INT_D2H_DB : Z :=
  foldr Z.lor 0 [0x1; 0x2; 0x4; 0x8; 0x10; 0x20; 0x40; 0x80;
                 0x100; 0x200; 0x400; 0x800; 0x1000; 0x2000; 0x4000; 0x8000].
Definition BRCMF_PCIE_CFGREG_TLCNTRL_5 : Z := 0x814.
Definition BRCMF_PCIE_LINK_STATUS_CTRL_ASPM_ENAB : Z := 3.
Definition BRCMF_PCIE_SHARED_HOSTRDY_DB1 : Z := 0x10000000.
Definition BRCMF_PCIE_SHARED_DAR : Z := 0x80000000.

Record brcmf_pcie_reginfo := Reginfo {
  intmask : Z; mailboxint : Z; mailboxmask : Z; int_d2h_db : Z; int_fn0 : Z
}.
Definition brcmf_reginfo_default : brcmf_pcie_reginfo :=
  Reginfo BRCMF_PCIE_PCIE2REG_INTMASK BRCMF_PCIE_PCIE2REG_MAILBOXINT
          BRCMF_PCIE_PCIE2REG_MAILBOXMASK BRCMF_PCIE_MB_INT_D2H_DB BRCMF_PCIE_MB_INT_FN0.
Definition brcmf_reginfo_64 : brcmf_pcie_reginfo :=
  Reginfo BRCMF_PCIE_64_PCIE2REG_INTMASK BRCMF_PCIE_64_PCIE2REG_MAILBOXINT
          BRCMF_PCIE_64_PCIE2REG_MAILBOXMASK BRCMF_PCIE_64_MB_INT_D2H_DB 0.

(** ** The chip and the events *)

(** The chips the driver treats specially, and the cores it selects. *)
Inductive chip_id := CC_43602 | CC_4355 | CC_4364 | CC_4377 | CC_4378 | CC_4387 | CC_4388 | CC_other.
Inductive core_id := CORE_PCIE2 | CORE_CHIPCOMMON | CORE_ARM_CR4 | CORE_INTERNAL_MEM | CORE_GCI.
#[export] Instance chip_id_eq_dec : EqDecision chip_id.
Proof. solve_decision. Defined.
#[export] Instance core_id_eq_dec : EqDecision core_id.
Proof. solve_decision. Defined.

Record brcmf_core := Core { core_rev : Z; core_base : Z }.

(** What [brcmf_chip_attach] found. *)
Record brcmf_chip := Chip {
  ci_chip : chip_id;
  ci_core : core_id → option brcmf_core;
  ci_rambase : Z; ci_ramsize : Z; ci_srsize : Z
}.

Inductive cc_reg := CC_sromcontrol | CC_watchdog | CC_intstatus.
#[export] Instance cc_reg_eq_dec : EqDecision cc_reg.
Proof. solve_decision. Defined.

Inductive event :=
| CfgRead (off : Z) | CfgWrite (off v : Z)
| RegRead16 (off : Z) | RegRead32 (off : Z) | RegWrite32 (off v : Z)
| CcRead (r : cc_reg) | CcWrite (r : cc_reg) (v : Z)
| Tcm8 (off : Z) | Tcm16 (off : Z) | Tcm32 (off : Z)
| TcmWrite16 (off v : Z) | TcmWrite32 (off v : Z)
| TcmCopy (off : Z) (bytes : list Z) | TcmZero (off n : Z)
| Msleep (ms : Z)
| ResetCore (c : core_id) | SetActive (resetintr : Z)
| WakeupEnable
| MsgbufMbWrite (v : Z)          (** [brcmf_msgbuf_h2d_mb_write] *)
| WakeMbWaiters | FwCrashed | RxTrigger
| ConsoleLine (error : bool) (line : list Z)
| EnableMsi | DisableMsi | RequestIrq | FreeIrq
| BusState (up : bool) | WaitMb | InIrq
| TimerAdd | TimerMod | TimerDelete
| Kcalloc (n : Z) | Kfree
| ReleaseFw (sig : bool) | NvramFree
| DmaAlloc (size : Z) | DmaFree (size handle : Z)
| KzallocRing | KfreeRing | KzallocFlow (n : Z) | KfreeFlow
| RingInfoWrite (hostaddrs : list Z)
| IdxRead (off : Z) | IdxWrite (off v : Z)
| NullDeref.
#[export] Instance event_eq_dec : EqDecision event.
Proof. solve_decision. Defined.

Section device.
Context (ans : list event → event → Z).

Definition read32 (e : event) : TR event Z := v ← ask ans e; mret (u32 v).

(** [pci_read_config_dword]: a failed read (a negative answer) leaves all ones. *)
Definition pci_read_config_dword (off : Z) : TR event (bool * Z) :=
  v ← ask ans (CfgRead off);
  mret (if v <? 0 then (false, 0xffffffff) else (true, u32 v)).
Definition pci_write_config_dword (off v : Z) : TR event unit := emit (CfgWrite off v).

Definition brcmf_pcie_read_reg16 (reg_offset : Z) : TR event Z :=
  v ← ask ans (RegRead16 reg_offset); mret (u16 v).
Definition brcmf_pcie_read_reg32 (reg_offset : Z) : TR event Z := read32 (RegRead32 reg_offset).
Definition brcmf_pcie_write_reg32 (reg_offset value : Z) : TR event unit :=
  emit (RegWrite32 reg_offset (u32 value)).
Definition brcmf_pcie_read_pcie32 (reg_offset : Z) : TR event Z :=
  brcmf_pcie_read_reg32 (0x2000 + reg_offset).
Definition brcmf_pcie_write_pcie32 (reg_offset value : Z) : TR event unit :=
  brcmf_pcie_write_reg32 (0x2000 + reg_offset) value.
Definition brcmf_pcie_read_tcm8 (mem_offset : Z) : TR event Z :=
  v ← ask ans (Tcm8 mem_offset); mret (u8 v).
Definition brcmf_pcie_read_tcm16 (mem_offset : Z) : TR event Z :=
  v ← ask ans (Tcm16 mem_offset); mret (u16 v).
Definition brcmf_pcie_write_tcm16 (mem_offset value : Z) : TR event unit :=
  emit (TcmWrite16 mem_offset (u16 value)).
Definition brcmf_pcie_read_tcm32 (mem_offset : Z) : TR event Z := read32 (Tcm32 mem_offset).
Definition brcmf_pcie_write_tcm32 (mem_offset value : Z) : TR event unit :=
  emit (TcmWrite32 mem_offset (u32 value)).
Definition READCC32 (r : cc_reg) : TR event Z := read32 (CcRead r).
Definition WRITECC32 (r : cc_reg) (v : Z) : TR event unit := emit (CcWrite r (u32 v)).

Context (ci : brcmf_chip).

Definition brcmf_pcie_read_ram32 (mem_offset : Z) : TR event Z :=
  brcmf_pcie_read_tcm32 (ci_rambase ci + mem_offset).
Definition brcmf_pcie_write_ram32 (mem_offset value : Z) : TR event unit :=
  brcmf_pcie_write_tcm32 (ci_rambase ci + mem_offset) value.

(** [core->rev] of a core that is looked up without a test. *)
Definition core_rev_of (c : core_id) : TR event Z :=
  match ci_core ci c with
  | Some core => mret (core_rev core)
  | None => emit NullDeref;; mret 0
  end.

Definition brcmf_pcie_select_core (coreid : core_id) : TR event unit :=
  match ci_core ci coreid with
  | Some core =>
      pci_write_config_dword BRCMF_PCIE_BAR0_WINDOW (core_base core);;
      '(ok, bar0_win) ← pci_read_config_dword BRCMF_PCIE_BAR0_WINDOW;
      if ok && negb (bar0_win =? core_base core)
      then pci_write_config_dword BRCMF_PCIE_BAR0_WINDOW (core_base core)
      else mret tt
  | None => mret tt
  end.

(** ** Reset *)

Section watchdog.
Context (CC_WD_SSRESET_PCIE_F0_EN CC_WD_SSRESET_PCIE_ALL_FN_EN CC_WD_ENABLE_MASK CC_WD_COUNTER_MASK : Z).

Definition cfg_offset : list Z :=
  [0x4; 0x4C; 0x58; 0x5C; 0x60; 0x64; 0xDC; 0x228; 0x248; 0x4E0; 0x4F4].

(** A configuration register of the chip is read and written back. *)
Definition rewrite_cfg (off : Z) : TR event unit :=
  brcmf_pcie_write_pcie32 BRCMF_PCIE_PCIE2REG_CONFIGADDR off;;
  val ← brcmf_pcie_read_pcie32 BRCMF_PCIE_PCIE2REG_CONFIGDATA;
  brcmf_pcie_write_pcie32 BRCMF_PCIE_PCIE2REG_CONFIGDATA val.
Fixpoint rewrite_cfgs (offs : list Z) : TR event unit :=
  match offs with
  | [] => mret tt
  | off :: offs' => rewrite_cfg off;; rewrite_cfgs offs'
  end.

Definition watchdog_reset : TR event unit :=
  rev ← core_rev_of CORE_CHIPCOMMON;
  if 65 <=? rev then
    rev2 ← core_rev_of CORE_PCIE2;
    let mask := if rev2 <? 66 then Z.lor CC_WD_SSRESET_PCIE_F0_EN CC_WD_SSRESET_PCIE_ALL_FN_EN
                else CC_WD_SSRESET_PCIE_F0_EN in
    val ← READCC32 CC_watchdog;
    let val := Z.lor (Z.land val (not32 CC_WD_ENABLE_MASK)) mask in
    WRITECC32 CC_watchdog val;;
    let val := Z.lor (Z.land val (not32 CC_WD_COUNTER_MASK)) 4 in
    WRITECC32 CC_watchdog val;;
    emit (Msleep 10);;
    val ← READCC32 CC_intstatus;
    WRITECC32 CC_intstatus (Z.lor val mask)
  else WRITECC32 CC_watchdog 4;; emit (Msleep 100).

Definition brcmf_pcie_reset_device : TR event unit :=
  brcmf_pcie_select_core CORE_PCIE2;;
  '(_, lsc) ← pci_read_config_dword BRCMF_PCIE_REG_LINK_STATUS_CTRL;
  let val := Z.land lsc (not32 BRCMF_PCIE_LINK_STATUS_CTRL_ASPM_ENAB) in
  pci_write_config_dword BRCMF_PCIE_REG_LINK_STATUS_CTRL val;;
  brcmf_pcie_select_core CORE_CHIPCOMMON;;
  watchdog_reset;;
  brcmf_pcie_select_core CORE_PCIE2;;
  pci_write_config_dword BRCMF_PCIE_REG_LINK_STATUS_CTRL lsc;;
  rev ← core_rev_of CORE_PCIE2;
  if rev <=? 13 then rewrite_cfgs cfg_offset else mret tt.

Definition brcmf_pcie_buscore_reset : TR event Z :=
  brcmf_pcie_reset_device;;
  rev ← core_rev_of CORE_PCIE2;
  let reg := if 64 <=? rev then BRCMF_PCIE_64_PCIE2REG_MAILBOXINT
             else BRCMF_PCIE_PCIE2REG_MAILBOXINT in
  val ← brcmf_pcie_read_pcie32 reg;
  (if negb (val =? 0xffffffff) then brcmf_pcie_write_pcie32 reg val else mret tt);;
  mret 0.
End watchdog.

Definition brcmf_pcie_attach : TR event unit :=
  brcmf_pcie_select_core CORE_PCIE2;;
  rewrite_cfg 0x4e0;;
  emit WakeupEnable.

(** ** Download state *)

Definition brcmf_pcie_enter_download_state (reginfo : brcmf_pcie_reginfo) : TR event Z :=
  (if decide (ci_chip ci = CC_43602) then
     brcmf_pcie_select_core CORE_ARM_CR4;;
     brcmf_pcie_write_reg32 BRCMF_PCIE_ARMCR4REG_BANKIDX 5;;
     brcmf_pcie_write_reg32 BRCMF_PCIE_ARMCR4REG_BANKPDA 0;;
     brcmf_pcie_write_reg32 BRCMF_PCIE_ARMCR4REG_BANKIDX 7;;
     brcmf_pcie_write_reg32 BRCMF_PCIE_ARMCR4REG_BANKPDA 0
   else mret tt);;
  brcmf_pcie_write_pcie32 (mailboxmask reginfo) 0;;
  brcmf_pcie_write_pcie32 (mailboxint reginfo) 0xffffffff;;
  pci_write_config_dword BRCMF_PCIE_REG_INTMASK 0;;
  brcmf_pcie_write_pcie32 BRCMF_PCIE_PCIE2REG_CONFIGADDR BRCMF_PCIE_CFGREG_TLCNTRL_5;;
  brcmf_pcie_write_pcie32 BRCMF_PCIE_PCIE2REG_CONFIGDATA 0xffffffff;;
  mret 0.

Definition brcmf_pcie_exit_download_state (resetintr : Z) : TR event Z :=
  (if decide (ci_chip ci = CC_43602) then emit (ResetCore CORE_INTERNAL_MEM) else mret tt);;
  active ← ask ans (SetActive resetintr);
  mret (if active =? 0 then - EIO else 0).

(** ** The register window of the chip code *)

Definition brcmf_pcie_buscore_prep_addr (addr : Z) : TR event Z :=
  pci_write_config_dword BRCMF_PCIE_BAR0_WINDOW
    (Z.land addr (not32 (BRCMF_PCIE_BAR0_REG_SIZE - 1)));;
  mret (Z.land addr (BRCMF_PCIE_BAR0_REG_SIZE - 1)).
Definition brcmf_pcie_buscore_read32 (addr : Z) : TR event Z :=
  addr ← brcmf_pcie_buscore_prep_addr addr;
  brcmf_pcie_read_reg32 addr.
Definition brcmf_pcie_buscore_write32 (addr value : Z) : TR event unit :=
  addr ← brcmf_pcie_buscore_prep_addr addr;
  brcmf_pcie_write_reg32 addr value.
Definition brcmf_pcie_buscore_activate (skip_reset_vector : bool) (rstvec : Z) : TR event unit :=
  if negb skip_reset_vector then brcmf_pcie_write_tcm32 0 rstvec else mret tt.

(** ** Doorbells *)

Definition brcmf_pcie_hostready (flags : Z) : TR event unit :=
  if negb (Z.land flags BRCMF_PCIE_SHARED_HOSTRDY_DB1 =? 0) then
    if negb (Z.land flags BRCMF_PCIE_SHARED_DAR =? 0)
    then brcmf_pcie_write_pcie32 BRCMF_PCIE_64_PCIE2REG_H2D_MAILBOX_1 1
    else brcmf_pcie_write_pcie32 BRCMF_PCIE_PCIE2REG_H2D_MAILBOX_1 1
  else mret tt.

(** [ring_bell] is refused unless the device is up. *)
Definition brcmf_pcie_ring_mb_ring_bell (state_up : bool) (flags : Z) : TR event Z :=
  if negb state_up then mret (- EIO)
  else
    (if negb (Z.land flags BRCMF_PCIE_SHARED_DAR =? 0)
     then brcmf_pcie_write_pcie32 BRCMF_PCIE_64_PCIE2REG_H2D_MAILBOX_0 1
     else brcmf_pcie_write_pcie32 BRCMF_PCIE_PCIE2REG_H2D_MAILBOX_0 1);;
    mret 0.
End device.

(** ** Copying out of the chip's memory

    [mem] is the chip's memory by address; the three loops read bytes, half words or
    words and store them in memory order. *)

Section copy.
Context (mem : Z → Z).

Fixpoint io_read (width : nat) (address : Z) (n : nat) : list Z :=
  match n with
  | O => []
  | S n' => (mem <$> seqZ address (Z.of_nat width)) ++ io_read width (address + Z.of_nat width) n'
  end.

Definition bit_set (a b c m : Z) : bool :=
  negb (Z.land a m =? 0) || negb (Z.land b m =? 0) || negb (Z.land c m =? 0).

Definition brcmf_pcie_copy_dev_tomem (address dstaddr len : Z) : list Z :=
  if bit_set address dstaddr len 4 then
    if bit_set address dstaddr len 2 then io_read 1 address (Z.to_nat len)
    else io_read 2 address (Z.to_nat (len / 2))
  else io_read 4 address (Z.to_nat (len / 4)).

(** The unit of the loop that is taken. *)
Definition copy_unit (address dstaddr len : Z) : Z :=
  if bit_set address dstaddr len 4 then if bit_set address dstaddr len 2 then 1 else 2 else 4.
End copy.

Definition brcmf_pcie_get_ramsize (ci : brcmf_chip) : Z := u64 (u32 (ci_ramsize ci - ci_srsize ci)).
Definition brcmf_pcie_get_memdump (mem : Z → Z) (tcm : Z) (ci : brcmf_chip) (data len : Z) : Z * list Z :=
  (0, brcmf_pcie_copy_dev_tomem mem (tcm + ci_rambase ci) data (u32 len)).

(** The blobs the firmware loader left for the protocol layer are handed out once. *)
Inductive brcmf_blob_type := BRCMF_BLOB_CLM | BRCMF_BLOB_TXCAP.
Definition brcmf_pcie_get_blob {F} (clm_fw txcap_fw : option F) (type : option brcmf_blob_type)
    : Z * option F * (option F * option F) :=
  match type with
  | Some BRCMF_BLOB_CLM => (match clm_fw with Some _ => 0 | None => - ENOENT end, clm_fw, (None, txcap_fw))
  | Some BRCMF_BLOB_TXCAP => (match txcap_fw with Some _ => 0 | None => - ENOENT end, txcap_fw, (clm_fw, None))
  | None => (- ENOENT, None, (clm_fw, txcap_fw))
  end.

Lemma io_read_flat mem w n : ∀ a, io_read mem w a n = mem <$> seqZ a (Z.of_nat (w * n)).
Proof.
  induction n as [|n IH]; intros a; cbn [io_read].
  { by rewrite Nat.mul_0_r. }
  rewrite IH. replace (Z.of_nat (w * S n)) with (Z.of_nat w + Z.of_nat (w * n)) by lia.
  rewrite seqZ_app by lia. by rewrite fmap_app.
Qed.

(** A dump takes the bytes of the chip's memory in order, from its start, in units of
    one, two or four bytes; what does not fill a unit is left out.  A length that is a
    multiple of four is copied completely, whatever the two addresses are. *)
Theorem brcmf_copy_exact mem address dstaddr len :
  0 ≤ len →
  let u := copy_unit address dstaddr len in
  brcmf_pcie_copy_dev_tomem mem address dstaddr len = mem <$> seqZ address (u * (len / u)) ∧
  (len mod 4 = 0 →
   brcmf_pcie_copy_dev_tomem mem address dstaddr len = mem <$> seqZ address len).
Proof.
  intros Hl. cbv zeta.
  assert (brcmf_pcie_copy_dev_tomem mem address dstaddr len =
          mem <$> seqZ address (copy_unit address dstaddr len * (len / copy_unit address dstaddr len))) as E.
  { unfold brcmf_pcie_copy_dev_tomem, copy_unit.
    pose proof (Z.div_pos len 2 Hl). pose proof (Z.div_pos len 4 Hl).
    repeat case_if; rewrite io_read_flat; do 2 f_equal; rewrite ?Z.div_1_r; lia. }
  split; [done|]. intros H4. rewrite E. do 2 f_equal.
  pose proof (Z.div_mod len 4). pose proof (Z.div_mod len 2).
  assert (len mod 2 = 0). { apply Z.mod_divide in H4; [|lia]. apply Z.mod_divide; [lia|].
    destruct H4 as [k ->]. exists (k * 2). lia. }
  unfold copy_unit. repeat case_if; rewrite ?Z.div_1_r; lia.
Qed.

Lemma brcmf_copy_exact_witness :
  brcmf_pcie_copy_dev_tomem (λ a, u8 a) 0x200000 0x1004 8 = [0; 1; 2; 3; 4; 5; 6; 7].
Proof.
  destruct (brcmf_copy_exact (λ a, u8 a) 0x200000 0x1004 8) as [_ H]; [lia|].
  rewrite H by reflexivity. vm_compute. reflexivity.
Defined.

(** The tests look at one bit of the addresses and the length instead of the bits
    below the unit: nine bytes are copied as two words and the last one is missing. *)
Lemma brcmf_copy_drops_tail mem a : Z.land a 4 = 0 →
  brcmf_pcie_copy_dev_tomem mem a 0 9 = mem <$> seqZ a 8.
Proof. intros H. unfold brcmf_pcie_copy_dev_tomem, bit_set. rewrite H.
  change (io_read mem 4 a 2 = mem <$> seqZ a 8). by rewrite io_read_flat.
Qed.

(** ** The reset *)

Definition is_lsc (e : event) : bool :=
  match e with CfgWrite off _ => off =? BRCMF_PCIE_REG_LINK_STATUS_CTRL | _ => false end.
Definition no_lsc (e : event) : bool := negb (is_lsc e).

Section reset.
Context (ans : list event → event → Z) (ci : brcmf_chip).

#[local] Hint Extern 1 (no_lsc _ = true) => reflexivity : quiet.
Ltac quiet_go := repeat first
  [ apply quiet_ret | apply quiet_emit; reflexivity | apply quiet_ask; reflexivity
  | apply quiet_if | apply quiet_bind; [|intros ?] ].

Lemma quiet_read32 e : no_lsc e = true → quiet no_lsc (read32 ans e).
Proof. intros H. apply quiet_bind; [by apply quiet_ask|]. intros ?. apply quiet_ret. Qed.

Lemma quiet_core_rev c : quiet no_lsc (core_rev_of ci c).
Proof. unfold core_rev_of. destruct (ci_core ci c); quiet_go. Qed.

Lemma quiet_select_core c : quiet no_lsc (brcmf_pcie_select_core ans ci c).
Proof.
  unfold brcmf_pcie_select_core. destruct (ci_core ci c); [|apply quiet_ret].
  apply quiet_bind; [by apply quiet_emit|]. intros [].
  apply quiet_bind; [unfold pci_read_config_dword; quiet_go|]. intros [ok w]. quiet_go.
Qed.

Lemma quiet_watchdog a b c d : quiet no_lsc (watchdog_reset ans ci a b c d).
Proof.
  unfold watchdog_reset. apply quiet_bind; [apply quiet_core_rev|]. intros rev.
  apply quiet_if; [|quiet_go].
  apply quiet_bind; [apply quiet_core_rev|]. intros rev2.
  apply quiet_bind; [by apply quiet_read32|]. intros v. quiet_go.
Qed.

Lemma quiet_rewrite_cfgs offs : quiet no_lsc (rewrite_cfgs ans offs).
Proof.
  induction offs as [|off offs IH]; [apply quiet_ret|]. cbn [rewrite_cfgs].
  apply quiet_bind; [|intros ?; exact IH]. unfold rewrite_cfg.
  apply quiet_bind; [by apply quiet_emit|]. intros [].
  apply quiet_bind; [by apply quiet_read32|]. intros v. by apply quiet_emit.
Qed.
End reset.

(** ASPM is off while the chip is reset and comes back afterwards: the link control
    register is read once, written without its ASPM bits before the watchdog fires and
    written with the value read when the reset is over; nothing else writes it. *)
Theorem brcmf_reset_restores_aspm ans ci f0 all en cnt t :
  ∃ pre mid post lsc,
    (brcmf_pcie_reset_device ans ci f0 all en cnt t).2 =
      t ++ (pre ++ [CfgRead BRCMF_PCIE_REG_LINK_STATUS_CTRL])
        ++ [CfgWrite BRCMF_PCIE_REG_LINK_STATUS_CTRL (Z.land lsc (not32 3))] ++ mid
        ++ [CfgWrite BRCMF_PCIE_REG_LINK_STATUS_CTRL lsc] ++ post ∧
    forallb no_lsc pre = true ∧ forallb no_lsc mid = true ∧ forallb no_lsc post = true ∧
    (let v := ans (t ++ pre) (CfgRead BRCMF_PCIE_REG_LINK_STATUS_CTRL) in
     lsc = if v <? 0 then 0xffffffff else u32 v) ∧
    ∃ mid1 mid2 wd, mid = mid1 ++ wd ++ mid2 ∧
      (watchdog_reset ans ci f0 all en cnt
         (t ++ (pre ++ [CfgRead BRCMF_PCIE_REG_LINK_STATUS_CTRL])
            ++ [CfgWrite BRCMF_PCIE_REG_LINK_STATUS_CTRL (Z.land lsc (not32 3))] ++ mid1)).2 =
      t ++ (pre ++ [CfgRead BRCMF_PCIE_REG_LINK_STATUS_CTRL])
        ++ [CfgWrite BRCMF_PCIE_REG_LINK_STATUS_CTRL (Z.land lsc (not32 3))] ++ mid1 ++ wd.
Proof.
  unfold brcmf_pcie_reset_device.
  destruct (quiet_select_core ans ci CORE_PCIE2 t) as (pre & Hpre & Npre).
  rewrite TR_bind_eq, Hpre. unfold pci_read_config_dword at 1, pci_write_config_dword at 1 2. trace_step.
  set (v := ans (t ++ pre) _). set (lsc := if v <? 0 then 0xffffffff else u32 v).
  replace (if v <? 0 then (false, 0xffffffff) else (true, u32 v)) with (0 <=? v, lsc)
    by (unfold lsc; destruct (Z.ltb_spec v 0), (Z.leb_spec 0 v); done || lia).
  trace_step. change BRCMF_PCIE_LINK_STATUS_CTRL_ASPM_ENAB with 3.
  match goal with |- context [brcmf_pcie_select_core ans ci CORE_CHIPCOMMON ?x] => set (t1 := x) end.
  destruct (quiet_select_core ans ci CORE_CHIPCOMMON t1) as (m1 & H1 & N1). rewrite H1.
  destruct (quiet_watchdog ans ci f0 all en cnt (t1 ++ m1)) as (wd & Hwd & Nwd). rewrite Hwd.
  destruct (quiet_select_core ans ci CORE_PCIE2 ((t1 ++ m1) ++ wd)) as (m2 & H2 & N2). rewrite H2.
  match goal with |- context [core_rev_of ci CORE_PCIE2 ?x] => set (t2 := x) end.
  destruct (quiet_core_rev ci CORE_PCIE2 t2) as (p1 & Hp1 & Np1). rewrite Hp1.
  destruct (quiet_if no_lsc (Z.leb (core_rev_of ci CORE_PCIE2 t2).1 13)
              (rewrite_cfgs ans cfg_offset) (mret tt) (quiet_rewrite_cfgs ans cfg_offset)
              (quiet_ret no_lsc tt) (t2 ++ p1)) as (p2 & Hp2 & Np2). rewrite Hp2.
  exists pre, (m1 ++ wd ++ m2), (p1 ++ p2), lsc.
  split. { subst t2 t1. by rewrite <- !app_assoc. }
  rewrite !forallb_app, Npre, N1, Nwd, N2, Np1, Np2. do 4 (split; [done|]).
  exists m1, m2, wd. split; [done|]. subst t1. rewrite <- !app_assoc in Hwd. rewrite <- !app_assoc. exact Hwd.
Qed.

(** Clearing the low bits of a word. *)
Lemma land_not32_ones x k : 0 ≤ k ≤ 32 → 0 ≤ x < 2 ^ 32 → Z.land x (not32 (Z.ones k)) = x - x mod 2 ^ k.
Proof.
  intros Hk Hx. rewrite <- Z.land_ones by lia. rewrite Z.sub_nocarry_ldiff.
  - apply Z.bits_inj'. intros i Hi.
    rewrite Z.land_spec, Z.ldiff_spec, Z.land_spec. destruct (Z.lt_ge_cases i 32).
    + rewrite testbit_not32 by lia. destruct (Z.testbit x i), (Z.testbit (Z.ones k) i); done.
    + rewrite (testbit_above 32 x) by lia. done.
  - apply Z.bits_inj'. intros i Hi.
    rewrite Z.ldiff_spec, Z.land_spec, Z.bits_0. destruct (Z.testbit x i); [|done].
    by rewrite andb_false_r.
Qed.

(** The window selects the 4 KiB block of an address: window and offset add up to it. *)
Lemma prep_addr_exact addr t : 0 ≤ addr < 2 ^ 32 →
  let '(off, t') := brcmf_pcie_buscore_prep_addr addr t in
  ∃ win, t' = t ++ [CfgWrite BRCMF_PCIE_BAR0_WINDOW win] ∧ win + off = addr ∧
    0 ≤ off < BRCMF_PCIE_BAR0_REG_SIZE ∧ win mod BRCMF_PCIE_BAR0_REG_SIZE = 0.
Proof.
  intros Ha. unfold brcmf_pcie_buscore_prep_addr, pci_write_config_dword. trace_step.
  unfold BRCMF_PCIE_BAR0_REG_SIZE. change (0x1000 - 1) with (Z.ones 12).
  rewrite land_not32_ones, Z.land_ones by lia. change 0x1000 with (2 ^ 12).
  pose proof (Z.mod_pos_bound addr (2 ^ 12)).
  exists (addr - addr mod 2 ^ 12). split; [done|]. split; [lia|]. split; [lia|].
  rewrite Zminus_mod_idemp_r, Z.sub_diag. done.
Qed.
