(* ===== verification/BrcmOtp.v ===== *)
(** * Broadcom wireless PCIe transport: one-time-programmable memory (brcmfmac/pcie.c)

    The OTP holds type-length-value records; one of them carries the module, vendor
    and version names that select the firmware.  The parser walks byte pointers; a
    pointer is the rest of the data behind it, and a read behind the end is a fault.
    Shown: no content of the memory makes the parser read out of bounds or run for
    ever, and what is written in the format of the record is what is read. *)

From Stdlib Require Import ZArith Lia Bool.
From stdpp Require Import base numbers list option.
From S2P Require Import Prelude.
From S2P Require Import BrcmPcie.

Local Open Scope list_scope.
Local Open Scope Z_scope.

Definition BRCMF_OTP_MAX_PARAM_LEN : Z := 16.
Definition BRCMF_OTP_SYS_VENDOR : Z := 0x15.
Definition BRCMF_OTP_VENDOR_HDR : Z := 0x00000008.

(** The character arrays as the strings before their terminator. *)
Record brcmf_otp_params := Otp {
  module : list Z; vendor : list Z; version : list Z; valid : bool
}.

Inductive fault := OutOfBounds | NoFuel.

(** ** String functions of the kernel *)

(** [isspace] of the kernel's table. *)
Definition isspace (c : Z) : bool := ((9 <=? c) && (c <=? 13)) || (c =? 32) || (c =? 0xa0).

Fixpoint strnlen (s : list Z) (maxlen : nat) {struct maxlen} : result fault nat :=
  match maxlen with
  | O => Ok O
  | S maxlen' =>
      match s with
      | [] => Err OutOfBounds
      | c :: s' =>
          if c =? 0 then Ok O
          else match strnlen s' maxlen' with Ok n => Ok (S n) | Err e => Err e end
      end
  end.

Fixpoint skip_spaces (s : list Z) : result fault (list Z) :=
  match s with
  | [] => Err OutOfBounds
  | c :: s' => if isspace c then skip_spaces s' else Ok s
  end.

(** [strchrnul]: the characters before the one found, and the rest from it on. *)
Fixpoint strchrnul (s : list Z) (c : Z) : result fault (list Z * list Z) :=
  match s with
  | [] => Err OutOfBounds
  | x :: s' =>
      if (x =? 0) || (x =? c) then Ok ([], s)
      else match strchrnul s' c with Ok (v, r) => Ok (x :: v, r) | Err e => Err e end
  end.

Definition get_unaligned_le32 (data : list Z) : result fault Z :=
  match data with
  | a :: b :: c :: d :: _ => Ok (a + b * 2 ^ 8 + c * 2 ^ 16 + d * 2 ^ 24)
  | _ => Err OutOfBounds
  end.

(** ** The parser *)

(** The tags 'M' (77), 'V' (86) and 'm' (109). *)
Definition set_param (tag : Z) (val : list Z) (o : brcmf_otp_params) : brcmf_otp_params :=
  if tag =? 77 then Otp val (vendor o) (version o) (valid o)
  else if tag =? 86 then Otp (module o) val (version o) (valid o)
  else if tag =? 109 then Otp (module o) (vendor o) val (valid o)
  else o.

(** The loop over the parameters; 61 is '=', 32 the blank. *)
Fixpoint params_loop (fuel : nat) (p : list Z) (o : brcmf_otp_params)
    : result fault (Z * brcmf_otp_params) :=
  match fuel with
  | O => Err NoFuel
  | S fuel' =>
      match p with
      | [] => Err OutOfBounds
      | tag :: p =>
          if tag =? 0 then Ok (0, o)
          else
            match p with
            | [] => Err OutOfBounds
            | c :: p =>
                if negb (c =? 61) then Ok (- EINVAL, o)
                else
                  match strchrnul p 32 with
                  | Err e => Err e
                  | Ok (val, end_) =>
                      if BRCMF_OTP_MAX_PARAM_LEN - 1 <? Z.of_nat (length val) then Ok (- EINVAL, o)
                      else
                        match skip_spaces end_ with
                        | Err e => Err e
                        | Ok p => params_loop fuel' p (set_param tag val o)
                        end
                  end
            end
      end
  end.

Definition nonempty (s : list Z) : bool := match s with [] => false | _ => true end.

Definition brcmf_pcie_parse_otp_sys_vendor (data : list Z) (o : brcmf_otp_params)
    : result fault (Z * brcmf_otp_params) :=
  let size := length data in
  if (size <? 6)%nat then Ok (- EINVAL, o)
  else
    match get_unaligned_le32 data with
    | Err e => Err e
    | Ok hdr =>
    if negb (hdr =? BRCMF_OTP_VENDOR_HDR) then Ok (- EINVAL, o)
    else
    match strnlen (drop 4 data) (size - 4) with
    | Err e => Err e
    | Ok n =>
    let idx := (4 + n + 1)%nat in
    if (size <=? idx)%nat then Ok (- EINVAL, o)
    else
    match strnlen (drop idx data) (size - idx) with
    | Err e => Err e
    | Ok n2 =>
    if (size <=? idx + n2)%nat then Ok (- EINVAL, o)
    else
    match skip_spaces (drop idx data) with
    | Err e => Err e
    | Ok p =>
    match params_loop (S (length p)) p o with
    | Err e => Err e
    | Ok (ret, o) =>
        if negb (ret =? 0) then Ok (ret, o)
        else if nonempty (module o) && nonempty (vendor o) && nonempty (version o)
        then Ok (0, Otp (module o) (vendor o) (version o) true)
        else Ok (- EINVAL, o)
    end end end end end.

(** The records.  [size - 1] is a [size_t]. *)
Fixpoint otp_loop (fuel : nat) (otp : list Z) (p : nat) (ret : Z) (o : brcmf_otp_params)
    : result fault (Z * brcmf_otp_params) :=
  match fuel with
  | O => Err NoFuel
  | S fuel' =>
      if negb (Z.of_nat p <? u64 (Z.of_nat (length otp) - 1)) then Ok (ret, o)
      else
        match otp !! p, otp !! S p with
        | Some type, Some len =>
            if type =? 0 then Ok (ret, o)
            else if Z.of_nat (length otp) <? Z.of_nat p + 2 + len then Ok (ret, o)
            else
              match (if type =? BRCMF_OTP_SYS_VENDOR
                     then brcmf_pcie_parse_otp_sys_vendor (take (Z.to_nat len) (drop (p + 2) otp)) o
                     else Ok (ret, o)) with
              | Err e => Err e
              | Ok (ret, o) => otp_loop fuel' otp (p + 2 + Z.to_nat len) ret o
              end
        | _, _ => Err OutOfBounds
        end
  end.

Definition brcmf_pcie_parse_otp (otp : list Z) (o : brcmf_otp_params)
    : result fault (Z * brcmf_otp_params) :=
  otp_loop (S (length otp)) otp 0 (- EINVAL) o.

(** ** Reading the memory *)

(** Where the chips keep it: core, offset, number of half words. *)
Definition otp_place (chip : chip_id) : option (core_id * Z * nat) :=
  match chip with
  | CC_4355 => Some (CORE_CHIPCOMMON, 0x8c0, Z.to_nat 0xb2)
  | CC_4364 => Some (CORE_CHIPCOMMON, 0x8c0, Z.to_nat 0x1a0)
  | CC_4377 | CC_4378 => Some (CORE_GCI, 0x1120, Z.to_nat 0x170)
  | CC_4387 => Some (CORE_GCI, 0x113c, Z.to_nat 0x170)
  | CC_4388 => Some (CORE_GCI, 0x115c, Z.to_nat 0x150)
  | CC_43602 | CC_other => None
  end.

Section read.
Context (ans : list event → event → Z) (ci : brcmf_chip).
Context (BCMA_CC_SROM_CONTROL_OTP_PRESENT BCMA_CC_SROM_CONTROL_OTPSEL : Z).

(** The bytes of the half words read. *)
Fixpoint read_words (n : nat) (off : Z) : TR event (list Z) :=
  match n with
  | O => mret []
  | S n' =>
      w ← brcmf_pcie_read_reg16 ans off;
      rest ← read_words n' (off + 2);
      mret (u8 w :: w / 2 ^ 8 :: rest)
  end.

Definition brcmf_pcie_read_otp (o : brcmf_otp_params) : TR event (result fault (Z * brcmf_otp_params)) :=
  match otp_place (ci_chip ci) with
  | None => mret (Ok (0, o))
  | Some (coreid, base, words) =>
      match ci_core ci coreid with
      | None => mret (Ok (- ENODEV, o))
      | Some core =>
          let cc := bool_decide (coreid = CORE_CHIPCOMMON) in
          sromctl ← (if cc then brcmf_pcie_select_core ans ci coreid;; READCC32 ans CC_sromcontrol
                     else mret 0);
          if cc && (Z.land sromctl BCMA_CC_SROM_CONTROL_OTP_PRESENT =? 0) then mret (Ok (0, o))
          else
            (if cc then WRITECC32 CC_sromcontrol (Z.lor sromctl BCMA_CC_SROM_CONTROL_OTPSEL)
             else mret tt);;
            otp ← ask ans (Kcalloc (2 * Z.of_nat words));
            if otp =? 0 then mret (Ok (- ENOMEM, o))
            else
              base ← brcmf_pcie_buscore_prep_addr (u32 (base + core_base core));
              bytes ← read_words words base;
              (if cc then brcmf_pcie_select_core ans ci coreid;; WRITECC32 CC_sromcontrol sromctl
               else mret tt);;
              emit Kfree;;
              mret (brcmf_pcie_parse_otp bytes o)
      end
  end.
End read.

(** ** The parser stays inside the data *)

(** What [strscpy] leaves in an array of sixteen characters. *)
Definition param_ok (s : list Z) : Prop := Z.of_nat (length s) < BRCMF_OTP_MAX_PARAM_LEN ∧ 0 ∉ s.
Definition params_ok (o : brcmf_otp_params) : Prop :=
  param_ok (module o) ∧ param_ok (vendor o) ∧ param_ok (version o).
Definition complete (o : brcmf_otp_params) : Prop :=
  valid o = true ∧ module o ≠ [] ∧ vendor o ≠ [] ∧ version o ≠ [].

Lemma strnlen_ok s m :
  (m ≤ length s)%nat →
  ∃ n, strnlen s m = Ok n ∧ (n ≤ m)%nat ∧ ((n < m)%nat → s !! n = Some 0).
Proof.
  revert s. induction m as [|m IH]; intros s Hm; [exists O; split; [done|split; [lia|intros; lia]]|].
  destruct s as [|c s]; [simpl in Hm; lia|]. cbn [strnlen]. destruct (Z.eqb_spec c 0) as [->|Hc].
  { exists O. split; [done|]. split; [lia|done]. }
  destruct (IH s) as (n & -> & Hn & H0); [simpl in Hm; lia|].
  exists (S n). split; [done|]. split; [lia|]. intros. apply H0. lia.
Qed.

Lemma skip_spaces_ok s :
  0 ∈ s → ∃ p, skip_spaces s = Ok p ∧ 0 ∈ p ∧ (length p ≤ length s)%nat.
Proof.
  induction s as [|c s IH]; intros H; [by apply not_elem_of_nil in H|]. cbn [skip_spaces].
  destruct (isspace c) eqn:Ec.
  - apply elem_of_cons in H as [<-|H]; [done|].
    destruct (IH H) as (p & -> & Hp & Hl). exists p. split; [done|]. split; [done|]. simpl. lia.
  - by exists (c :: s).
Qed.

Lemma strchrnul_ok s c :
  0 ∈ s → ∃ v r, strchrnul s c = Ok (v, r) ∧ s = v ++ r ∧ 0 ∈ r ∧ 0 ∉ v.
Proof.
  induction s as [|x s IH]; intros H; [by apply not_elem_of_nil in H|]. cbn [strchrnul].
  destruct (Z.eqb_spec x 0) as [->|Hx]; cbn [orb].
  { exists [], (0 :: s). split; [done|]. split; [done|]. split; [done|]. apply not_elem_of_nil. }
  destruct (x =? c).
  { exists [], (x :: s). split; [done|]. split; [done|]. split; [done|]. apply not_elem_of_nil. }
  apply elem_of_cons in H as [<-|H]; [done|].
  destruct (IH H) as (v & r & -> & -> & Hr & Hv). exists (x :: v), r.
  split; [done|]. split; [done|]. split; [done|]. by apply not_elem_of_cons.
Qed.

Lemma set_param_ok tag val o : param_ok val → params_ok o → params_ok (set_param tag val o).
Proof. intros Hv (Hm & Hn & Hr). unfold set_param. repeat case_if; done. Qed.

Lemma params_loop_ok fuel : ∀ p o,
  0 ∈ p → (length p < fuel)%nat → params_ok o →
  ∃ ret o', params_loop fuel p o = Ok (ret, o') ∧ params_ok o'.
Proof.
  induction fuel as [|fuel IH]; intros p o H0 Hf Ho; [lia|]. cbn [params_loop].
  destruct p as [|tag p]; [by apply not_elem_of_nil in H0|].
  destruct (Z.eqb_spec tag 0) as [|Ht]; [eauto|].
  apply elem_of_cons in H0 as [<-|H0]; [done|].
  destruct p as [|c p]; [by apply not_elem_of_nil in H0|].
  destruct (Z.eqb_spec c 61) as [->|]; cbn [negb]; [|eauto].
  apply elem_of_cons in H0 as [?|H0]; [done|].
  destruct (strchrnul_ok p 32 H0) as (val & rest & -> & -> & Hr & Hv).
  destruct (Z.ltb_spec (BRCMF_OTP_MAX_PARAM_LEN - 1) (Z.of_nat (length val))); [eauto|].
  destruct (skip_spaces_ok rest Hr) as (p' & -> & Hp' & Hl).
  apply IH; [done| |apply set_param_ok; [split; [lia|done]|done]].
  simpl in Hf. rewrite length_app in Hf. lia.
Qed.

Lemma sys_vendor_ok data o :
  params_ok o →
  ∃ ret o', brcmf_pcie_parse_otp_sys_vendor data o = Ok (ret, o') ∧ params_ok o' ∧
    (ret = 0 → complete o').
Proof.
  intros Ho. unfold brcmf_pcie_parse_otp_sys_vendor.
  assert (∀ o', params_ok o' → ∃ ret o'', Ok (E := fault) (- EINVAL, o') = Ok (ret, o'') ∧ params_ok o'' ∧
    (ret = 0 → complete o'')) as Hinv by (intros o' ?; by exists (- EINVAL), o').
  destruct (Nat.ltb_spec (length data) 6); [by apply Hinv|].
  destruct data as [|a [|b [|c [|d rest]]]]; try (simpl in *; lia). cbn [get_unaligned_le32].
  set (data := a :: b :: c :: d :: rest) in *.
  case_if; [by apply Hinv|].
  destruct (strnlen_ok (drop 4 data) (length data - 4)) as (n & -> & Hn & _); [rewrite length_drop; lia|].
  destruct (Nat.leb_spec (length data) (4 + n + 1)); [by apply Hinv|].
  set (idx := (4 + n + 1)%nat) in *.
  destruct (strnlen_ok (drop idx data) (length data - idx)) as (n2 & -> & Hn2 & Hz0);
    [rewrite length_drop; lia|].
  destruct (Nat.leb_spec (length data) (idx + n2)); [by apply Hinv|].
  assert (0 ∈ drop idx data) as Hz by (eapply list_elem_of_lookup_2, Hz0; lia).
  destruct (skip_spaces_ok _ Hz) as (p & -> & Hp & _).
  destruct (params_loop_ok (S (length p)) p o Hp) as (ret & o' & -> & Ho'); [lia|done|].
  destruct (Z.eqb_spec ret 0) as [->|]; cbn [negb]; [|by exists ret, o'].
  destruct (nonempty (module o') && nonempty (vendor o') && nonempty (version o')) eqn:En;
    [|by apply Hinv].
  boolprop. eexists _, _. split; [done|]. split; [exact Ho'|]. intros _. unfold complete. simpl.
  by destruct (module o'), (vendor o'), (version o').
Qed.

Lemma otp_loop_ok fuel otp : ∀ p ret o,
  Forall (λ b, 0 ≤ b) otp → (0 < length otp)%nat → Z.of_nat (length otp) < 2 ^ 63 →
  (p ≤ length otp)%nat → (length otp - p < fuel)%nat →
  params_ok o → (ret = 0 → complete o) →
  ∃ ret' o', otp_loop fuel otp p ret o = Ok (ret', o') ∧ params_ok o' ∧ (ret' = 0 → complete o').
Proof.
  induction fuel as [|fuel IH]; intros p ret o Hb Hl Hs Hp Hf Ho Hc; [lia|]. cbn [otp_loop].
  rewrite u64_small by lia.
  destruct (Z.ltb_spec (Z.of_nat p) (Z.of_nat (length otp) - 1)); cbn [negb]; [|eauto 6].
  destruct (lookup_lt_is_Some_2 otp p) as [type Et]; [lia|].
  destruct (lookup_lt_is_Some_2 otp (S p)) as [len El]; [lia|]. rewrite Et, El.
  assert (0 ≤ len) by (eapply list.Forall_lookup_1 in Hb; [|exact El]; done).
  destruct (type =? 0); [eauto 6|].
  destruct (Z.ltb_spec (Z.of_nat (length otp)) (Z.of_nat p + 2 + len)); [eauto 6|].
  destruct (type =? BRCMF_OTP_SYS_VENDOR).
  - destruct (sys_vendor_ok (take (Z.to_nat len) (drop (p + 2) otp)) o Ho)
      as (ret1 & o1 & -> & Ho1 & Hc1). apply IH; try done; lia.
  - apply IH; try done; lia.
Qed.

Lemma read_words_bytes ans n : ∀ off t,
  length (read_words ans n off t).1 = (2 * n)%nat ∧ Forall (λ b, 0 ≤ b) (read_words ans n off t).1.
Proof.
  induction n as [|n IH]; intros off t; [done|]. cbn [read_words].
  unfold brcmf_pcie_read_reg16. trace_step.
  match goal with |- context [read_words ans n ?o ?x] => destruct (IH o x) as [Hl Hf] end.
  split; [simpl; lia|]. constructor; [apply u8_range|]. constructor; [|done].
  apply Z.div_pos; [apply u16_range|lia].
Qed.

(** Whatever the memory holds and whatever the device answers, reading it ends without
    a read behind its data; the names stored fit their arrays, and they are all there
    when the function reports success after having parsed the memory. *)
Theorem brcmf_otp_safe ans ci present otpsel o t :
  params_ok o →
  ∃ ret o', (brcmf_pcie_read_otp ans ci present otpsel o t).1 = Ok (ret, o') ∧ params_ok o' ∧
    (ret = 0 → o' = o ∨ complete o').
Proof.
  intros Ho. unfold brcmf_pcie_read_otp. destruct (otp_place (ci_chip ci)) as [[[coreid base] words]|] eqn:Ep.
  2:{ exists 0, o. eauto. }
  assert (0 < Z.of_nat words ∧ 2 * Z.of_nat words < 2 ^ 63)%Z as Hw
    by (unfold otp_place in Ep; destruct (ci_chip ci); simplify_eq; lia). clear Ep.
  destruct (ci_core ci coreid) as [core|]; [|exists (- ENODEV), o; eauto].
  rewrite TR_bind_eq. match goal with |- context [(?a && ?b)] => destruct (a && b) end.
  { exists 0, o. eauto. }
  trace_step. match goal with |- context [if ?a =? 0 then mret (Ok (- ENOMEM, o)) else _] => destruct (a =? 0) end.
  { exists (- ENOMEM), o. eauto. }
  trace_step. match goal with |- context [read_words ans words ?x ?y] =>
    destruct (read_words_bytes ans words x y) as [Hl Hf]; set (bytes := (read_words ans words x y).1) in * end.
  destruct (otp_loop_ok (S (length bytes)) bytes 0 (- EINVAL) o) as (ret & o' & E & Ho' & Hc);
    try done; try lia.
  exists ret, o'. split; [exact E|]. auto.
Qed.

Lemma brcmf_otp_safe_witness :
  let ci := Chip CC_4387 (λ _, Some (Core 70 0x18000000)) 0 0 0 in
  let ans := λ (t : list event) (e : event), 0x1515 in
  ∃ ret o', (brcmf_pcie_read_otp ans ci 1 2 (Otp [] [] [] false) []).1 = Ok (ret, o') ∧ params_ok o' ∧
    (ret = 0 → o' = Otp [] [] [] false ∨ complete o').
Proof.
  intros ci ans. apply (brcmf_otp_safe ans ci 1 2 (Otp [] [] [] false) []).
  split; [|split]; (split; [vm_compute; reflexivity|apply not_elem_of_nil]).
Defined.

(** ** What is written is what is read *)

(** A parameter with the white space behind it. *)
Record param := Param { p_tag : Z; p_val : list Z; p_sep : list Z }.
Definition render (p : param) : list Z := p_tag p :: 61 :: p_val p ++ p_sep p.

Fixpoint params_wf (ps : list param) : Prop :=
  match ps with
  | [] => True
  | p :: ps' =>
      p_tag p ≠ 0 ∧ isspace (p_tag p) = false ∧ param_ok (p_val p) ∧ (32 ∉ p_val p) ∧
      Forall (λ c, isspace c = true) (p_sep p) ∧
      match p_sep p with [] => ps' = [] | c :: _ => c = 32 end ∧
      params_wf ps'
  end.

Definition assign (ps : list param) (o : brcmf_otp_params) : brcmf_otp_params :=
  fold_left (λ o p, set_param (p_tag p) (p_val p) o) ps o.

(** The value of a SYS_VENDOR record: header, chip string, board string, padding. *)
Definition vendor_record (chip lead : list Z) (ps : list param) (pad : list Z) : list Z :=
  [8; 0; 0; 0] ++ chip ++ 0 :: lead ++ (ps ≫= render) ++ 0 :: pad.
Definition vendor_wf (chip lead : list Z) (ps : list param) : Prop :=
  (0 ∉ chip) ∧ Forall (λ c, isspace c = true) lead ∧ params_wf ps.

Definition vendor_result (ps : list param) (o : brcmf_otp_params) : Z * brcmf_otp_params :=
  let o := assign ps o in
  if nonempty (module o) && nonempty (vendor o) && nonempty (version o)
  then (0, Otp (module o) (vendor o) (version o) true)
  else (- EINVAL, o).

Definition encode (r : Z * list Z) : list Z := r.1 :: Z.of_nat (length r.2) :: r.2.
(** A record the driver passes over. *)
Definition other_record (r : Z * list Z) : Prop := r.1 ≠ 0 ∧ r.1 ≠ BRCMF_OTP_SYS_VENDOR.
(** What ends the records: nothing, one byte, type 0, or a record that is cut off. *)
Definition ends (rest : list Z) : Prop :=
  match rest with
  | type :: len :: rest' => type = 0 ∨ Z.of_nat (length rest') < len
  | _ => True
  end.

Lemma otp_skip_spaces_app sp r : Forall (λ c, isspace c = true) sp → skip_spaces (sp ++ r) = skip_spaces r.
Proof. induction 1 as [|c sp Hc _ IH]; [done|]. cbn [app skip_spaces]. by rewrite Hc. Qed.

Lemma skip_spaces_params ps r : params_wf ps →
  skip_spaces ((ps ≫= render) ++ 0 :: r) = Ok ((ps ≫= render) ++ 0 :: r).
Proof. destruct ps as [|p ps]; [done|]. intros (_ & Ht & _). simpl. by rewrite Ht. Qed.

Lemma strchrnul_app v r c x : 0 ∉ v → c ∉ v → x = 0 ∨ x = c → strchrnul (v ++ x :: r) c = Ok (v, x :: r).
Proof.
  intros H0 Hc Hx. induction v as [|y v IH]; cbn [app strchrnul].
  - destruct Hx as [Hx|Hx]; subst x; [done|]. by rewrite Z.eqb_refl, orb_true_r.
  - apply not_elem_of_cons in H0 as [? H0], Hc as [? Hc].
    destruct (Z.eqb_spec y 0), (Z.eqb_spec y c); try congruence. cbn [orb]. by rewrite IH.
Qed.

Lemma params_loop_render ps : ∀ fuel r o,
  params_wf ps → (length ps < fuel)%nat →
  params_loop fuel ((ps ≫= render) ++ 0 :: r) o = Ok (0, assign ps o).
Proof.
  induction ps as [|p ps IH]; intros fuel r o Hwf Hf; (destruct fuel as [|fuel]; [simpl in Hf; lia|]).
  { done. }
  destruct Hwf as (Ht0 & Hts & [Hlen H0] & H32 & Hsep & Hend & Hwf).
  rewrite bind_cons. unfold render at 1. cbn [app params_loop].
  destruct (Z.eqb_spec (p_tag p) 0); [done|]. cbn [Z.eqb negb]. rewrite <- !app_assoc.
  set (next := (ps ≫= render) ++ 0 :: r).
  assert (strchrnul (p_val p ++ p_sep p ++ next) 32 = Ok (p_val p, p_sep p ++ next)) as ->.
  { destruct (p_sep p) as [|c sep]; [subst ps next|subst c]; cbn [app];
      apply strchrnul_app; auto. }
  destruct (Z.ltb_spec (BRCMF_OTP_MAX_PARAM_LEN - 1) (Z.of_nat (length (p_val p)))); [lia|].
  rewrite otp_skip_spaces_app by done. subst next. rewrite skip_spaces_params by done.
  apply IH; [done|]. simpl in Hf. lia.
Qed.

Lemma strnlen_app a b m : 0 ∉ a → (length a < m)%nat → strnlen (a ++ 0 :: b) m = Ok (length a).
Proof.
  revert m. induction a as [|x a IH]; intros m H0 Hm; (destruct m as [|m]; [simpl in Hm; lia|]); [done|].
  apply not_elem_of_cons in H0 as [? H0]. cbn [app strnlen].
  destruct (Z.eqb_spec x 0); [congruence|]. rewrite IH; [done|done|]. simpl in Hm. lia.
Qed.

Lemma render_no_nul ps : params_wf ps → 0 ∉ (ps ≫= render).
Proof.
  induction ps as [|p ps IH]; [intros; apply not_elem_of_nil|].
  intros (Ht0 & _ & [_ H0] & _ & Hsep & _ & Hwf). rewrite bind_cons. unfold render at 1. cbn [app].
  rewrite !not_elem_of_cons, !not_elem_of_app. split; [congruence|]. split; [done|].
  split; [|by apply IH]. split; [done|]. intros H. rewrite list.Forall_forall in Hsep. by apply Hsep in H.
Qed.

Lemma spaces_no_nul sp : Forall (λ c, isspace c = true) sp → 0 ∉ sp.
Proof. intros Hs H. rewrite list.Forall_forall in Hs. by apply Hs in H. Qed.

Lemma vendor_record_parsed chip lead ps pad o :
  vendor_wf chip lead ps →
  brcmf_pcie_parse_otp_sys_vendor (vendor_record chip lead ps pad) o = Ok (vendor_result ps o).
Proof.
  intros (Hc & Hl & Hps). unfold brcmf_pcie_parse_otp_sys_vendor.
  set (board := lead ++ (ps ≫= render) ++ 0 :: pad).
  assert (length (vendor_record chip lead ps pad) = 5 + length chip + length board)%nat as Hlen.
  { unfold vendor_record. fold board. rewrite !length_app. simpl. lia. }
  assert (length board = length (lead ++ (ps ≫= render)) + 1 + length pad)%nat as Hlb.
  { unfold board. rewrite !length_app. simpl. lia. }
  destruct (Nat.ltb_spec (length (vendor_record chip lead ps pad)) 6); [lia|].
  change (get_unaligned_le32 (vendor_record chip lead ps pad)) with (Ok (E := fault) 8).
  change (negb (8 =? BRCMF_OTP_VENDOR_HDR)) with false. cbv iota.
  change (drop 4 (vendor_record chip lead ps pad)) with (chip ++ 0 :: board).
  rewrite strnlen_app by (done || lia).
  destruct (Nat.leb_spec (length (vendor_record chip lead ps pad)) (4 + length chip + 1)); [lia|].
  replace (drop (4 + length chip + 1) (vendor_record chip lead ps pad)) with board.
  2:{ unfold vendor_record. fold board.
      replace (4 + length chip + 1)%nat with (length ([8; 0; 0; 0] ++ chip ++ [0]))
        by (rewrite !length_app; simpl; lia).
      replace ([8; 0; 0; 0] ++ chip ++ 0 :: board) with (([8; 0; 0; 0] ++ chip ++ [0]) ++ board)
        by (by rewrite <- !app_assoc).
      by rewrite drop_app_length. }
  assert (0 ∉ lead ++ (ps ≫= render)) as Hnb.
  { rewrite not_elem_of_app. split; [by apply spaces_no_nul|by apply render_no_nul]. }
  replace (strnlen board _) with (Ok (E := fault) (length (lead ++ (ps ≫= render)))).
  2:{ unfold board. rewrite (app_assoc lead), strnlen_app; [done|done|lia]. }
  match goal with |- context [Nat.leb ?a ?b] => destruct (Nat.leb_spec a b); [lia|] end.
  unfold board. rewrite otp_skip_spaces_app, skip_spaces_params by done.
  rewrite params_loop_render; [|done|].
  2:{ rewrite length_app. clear. induction ps as [|p ps IH]; [simpl; lia|].
      rewrite bind_cons, length_app. simpl in *. lia. }
  cbv zeta. change (negb (0 =? 0)) with false. cbv iota. unfold vendor_result. cbv zeta.
  change (negb (8 =? BRCMF_OTP_VENDOR_HDR)) with false. cbv iota. by case_if.
Qed.

(** One turn of the loop over the records. *)
Lemma otp_loop_record fuel pre r rest ret o :
  r.1 ≠ 0 → Z.of_nat (length (pre ++ encode r ++ rest)) < 2 ^ 63 →
  otp_loop (S fuel) (pre ++ encode r ++ rest) (length pre) ret o =
  match (if r.1 =? BRCMF_OTP_SYS_VENDOR then brcmf_pcie_parse_otp_sys_vendor r.2 o else Ok (ret, o)) with
  | Err e => Err e
  | Ok (ret, o) => otp_loop fuel (pre ++ encode r ++ rest) (length (pre ++ encode r)) ret o
  end.
Proof.
  intros Hr Hs. destruct r as [type v]. simpl in Hr. cbn [otp_loop fst snd].
  assert (length (pre ++ encode (type, v) ++ rest) = length pre + 2 + length v + length rest)%nat as Hl.
  { rewrite !length_app. unfold encode. simpl. lia. }
  rewrite u64_small by lia.
  destruct (Z.ltb_spec (Z.of_nat (length pre)) (Z.of_nat (length (pre ++ encode (type, v) ++ rest)) - 1));
    [|lia]. cbn [negb].
  replace ((pre ++ encode (type, v) ++ rest) !! length pre) with (Some type)
    by (rewrite lookup_app_r, Nat.sub_diag by lia; done).
  replace ((pre ++ encode (type, v) ++ rest) !! S (length pre)) with (Some (Z.of_nat (length v)))
    by (rewrite lookup_app_r by lia; replace (S (length pre) - length pre)%nat with 1%nat by lia; done).
  destruct (Z.eqb_spec type 0); [done|].
  match goal with |- context [?a <? ?b] => destruct (Z.ltb_spec a b); [lia|] end.
  rewrite Nat2Z.id.
  replace (drop (length pre + 2) (pre ++ encode (type, v) ++ rest)) with (v ++ rest).
  2:{ rewrite drop_app_add. done. }
  rewrite take_app_length.
  replace (length (pre ++ encode (type, v))) with (length pre + 2 + length v)%nat
    by (rewrite length_app; unfold encode; simpl; lia).
  done.
Qed.

Lemma otp_loop_others recs : ∀ fuel pre rest ret o,
  Forall other_record recs → Z.of_nat (length (pre ++ (recs ≫= encode) ++ rest)) < 2 ^ 63 →
  otp_loop (length recs + fuel) (pre ++ (recs ≫= encode) ++ rest) (length pre) ret o =
  otp_loop fuel (pre ++ (recs ≫= encode) ++ rest) (length (pre ++ (recs ≫= encode))) ret o.
Proof.
  induction recs as [|r recs IH]; intros fuel pre rest ret o Hr Hs; [by rewrite app_nil_r|].
  apply List.Forall_cons_iff in Hr as [[Hr0 Hr1] Hr]. rewrite bind_cons, <- app_assoc in *.
  cbn [length Nat.add]. rewrite otp_loop_record by done.
  destruct (Z.eqb_spec r.1 BRCMF_OTP_SYS_VENDOR); [done|].
  rewrite (app_assoc pre). rewrite IH; [by rewrite <- !app_assoc|done|by rewrite <- app_assoc].
Qed.

Lemma otp_loop_ends fuel pre rest ret o :
  ends rest → (0 < length (pre ++ rest))%nat → Z.of_nat (length (pre ++ rest)) < 2 ^ 63 →
  otp_loop (S fuel) (pre ++ rest) (length pre) ret o = Ok (ret, o).
Proof.
  intros He Hl Hs. cbn [otp_loop]. rewrite u64_small by lia. rewrite length_app in *.
  destruct (Z.ltb_spec (Z.of_nat (length pre)) (Z.of_nat (length pre + length rest) - 1)); [|done].
  destruct rest as [|type [|len rest']]; [simpl in *; lia|simpl in *; lia|]. cbn [negb].
  rewrite lookup_app_r, Nat.sub_diag by lia. rewrite lookup_app_r by lia.
  replace (S (length pre) - length pre)%nat with 1%nat by lia. cbn [lookup list_lookup].
  destruct (Z.eqb_spec type 0); [done|]. destruct He as [?|He]; [done|].
  simpl length in *. match goal with |- context [?a <? ?b] => destruct (Z.ltb_spec a b); [done|lia] end.
Qed.


(** "M=RASP V=m m=6.11" behind another record. *)
Definition demo_params : list param :=
  [Param 77 [82; 65; 83; 80] [32]; Param 86 [109] [32; 32]; Param 109 [54; 46; 49; 49] []].


(** When the buffer cannot be allocated the memory stays mapped over the ChipCommon
    registers: the control register is not written back. *)
Lemma otp_select_not_restored :
  let ans := λ (t : list event) (e : event), match e with Kcalloc _ => 0 | CcRead _ => 1 | _ => 0 end in
  let ci := Chip CC_4355 (λ _, Some (Core 50 0)) 0 0 0 in
  let r := brcmf_pcie_read_otp ans ci 1 16 (Otp [] [] [] false) [] in
  r.1 = Ok (- ENOMEM, Otp [] [] [] false) ∧
  List.filter (λ e, match e with CcWrite CC_sromcontrol _ => true | _ => false end) r.2 =
    [CcWrite CC_sromcontrol 17].
Proof. vm_compute. done. Qed.
