(* ===== verification/BrcmIrq.v ===== *)
(** * Broadcom wireless PCIe transport: mailbox, console, interrupts, power (brcmfmac/pcie.c)

    The mailbox in the chip's memory, the firmware's console, the two halves of the
    interrupt handler, and suspend and resume.  The console keeps a line buffer of 256
    characters; it refines a buffer of pending characters of unbounded type. *)

From Stdlib Require Import ZArith Lia Bool.
From stdpp Require Import base numbers list option.
From S2P Require Import Prelude.
From S2P Require Import BrcmPcie.

Local Open Scope list_scope.
Local Open Scope Z_scope.

Definition BRCMF_SHARED_CONSOLE_ADDR_OFFSET : Z := 20.
Definition BRCMF_CONSOLE_BUFADDR_OFFSET : Z := 8.
Definition BRCMF_CONSOLE_BUFSIZE_OFFSET : Z := 12.
Definition BRCMF_CONSOLE_WRITEIDX_OFFSET : Z := 16.
Definition BRCMF_D2H_DEV_D3_ACK : Z := 0x00000001.
Definition BRCMF_D2H_DEV_DS_ENTER_REQ : Z := 0x00000002.
Definition BRCMF_D2H_DEV_FWHALT : Z := 0x10000000.
Definition BRCMF_H2D_HOST_D3_INFORM : Z := 0x00000001.
Definition BRCMF_H2D_HOST_DS_ACK : Z := 0x00000002.
Definition BRCMF_H2D_HOST_D0_INFORM : Z := 0x00000010.

Record brcmf_pcie_console := Console {
  base_addr : Z; buf_addr : Z; bufsize : Z; read_idx : Z;
  log_str : list Z; log_idx : Z
}.

(** The fields of [brcmf_pciedev_info] that the functions of this file change. *)
Record devinfo := Dev {
  d_up : bool;
  d_in_irq : bool;
  d_irq_ready : bool;
  d_irq_allocated : bool;
  d_have_msi : bool;
  d_mbdata_completed : bool;
  d_console : brcmf_pcie_console;
  d_console_interval : Z;
  d_console_active : bool
}.

Definition set_up (b : bool) (d : devinfo) : devinfo :=
  Dev b (d_in_irq d) (d_irq_ready d) (d_irq_allocated d) (d_have_msi d) (d_mbdata_completed d)
      (d_console d) (d_console_interval d) (d_console_active d).
Definition set_in_irq (b : bool) (d : devinfo) : devinfo :=
  Dev (d_up d) b (d_irq_ready d) (d_irq_allocated d) (d_have_msi d) (d_mbdata_completed d)
      (d_console d) (d_console_interval d) (d_console_active d).
Definition set_irq_ready (b : bool) (d : devinfo) : devinfo :=
  Dev (d_up d) (d_in_irq d) b (d_irq_allocated d) (d_have_msi d) (d_mbdata_completed d)
      (d_console d) (d_console_interval d) (d_console_active d).
Definition set_irq_allocated (b : bool) (d : devinfo) : devinfo :=
  Dev (d_up d) (d_in_irq d) (d_irq_ready d) b (d_have_msi d) (d_mbdata_completed d)
      (d_console d) (d_console_interval d) (d_console_active d).
Definition set_have_msi (b : bool) (d : devinfo) : devinfo :=
  Dev (d_up d) (d_in_irq d) (d_irq_ready d) (d_irq_allocated d) b (d_mbdata_completed d)
      (d_console d) (d_console_interval d) (d_console_active d).
Definition set_mbdata_completed (b : bool) (d : devinfo) : devinfo :=
  Dev (d_up d) (d_in_irq d) (d_irq_ready d) (d_irq_allocated d) (d_have_msi d) b
      (d_console d) (d_console_interval d) (d_console_active d).
Definition set_console (c : brcmf_pcie_console) (d : devinfo) : devinfo :=
  Dev (d_up d) (d_in_irq d) (d_irq_ready d) (d_irq_allocated d) (d_have_msi d) (d_mbdata_completed d)
      c (d_console_interval d) (d_console_active d).
Definition set_console_interval (v : Z) (d : devinfo) : devinfo :=
  Dev (d_up d) (d_in_irq d) (d_irq_ready d) (d_irq_allocated d) (d_have_msi d) (d_mbdata_completed d)
      (d_console d) v (d_console_active d).
Definition set_console_active (b : bool) (d : devinfo) : devinfo :=
  Dev (d_up d) (d_in_irq d) (d_irq_ready d) (d_irq_allocated d) (d_have_msi d) (d_mbdata_completed d)
      (d_console d) (d_console_interval d) b.

(** What does not change: the shared area and the register layout. *)
Record shared := Shared {
  s_tcm_base_address : Z;
  s_flags : Z;
  s_htod_mb_data_addr : Z;
  s_dtoh_mb_data_addr : Z;
  s_mb_via_ctl : bool
}.

Section driver.
Context (ans : list event → event → Z) (ci : brcmf_chip) (sh : shared) (ri : brcmf_pcie_reginfo).
(** [BRCMF_FWCON_ON()]: console messages are wanted. *)
Context (fwcon_on : bool).

(** ** Mailbox *)

(** The wait for an empty mailbox: [None] when it is given up. *)
Fixpoint mb_wait (left : nat) (cur : Z) : TR event bool :=
  if cur =? 0 then mret true
  else
    emit (Msleep 10);;
    match left with
    | O => mret false
    | S left' =>
        cur ← brcmf_pcie_read_tcm32 ans (s_htod_mb_data_addr sh);
        mb_wait left' cur
    end.

Definition brcmf_pcie_send_mb_data (htod_mb_data : Z) : TR event Z :=
  if s_mb_via_ctl sh then ask ans (MsgbufMbWrite htod_mb_data)
  else
    cur ← brcmf_pcie_read_tcm32 ans (s_htod_mb_data_addr sh);
    empty ← mb_wait 100 cur;
    if negb empty then mret (- EIO)
    else
      brcmf_pcie_write_tcm32 (s_htod_mb_data_addr sh) htod_mb_data;;
      pci_write_config_dword BRCMF_PCIE_REG_SBMBX 1;;
      rev ← core_rev_of ci CORE_PCIE2;
      (if rev <=? 13 then pci_write_config_dword BRCMF_PCIE_REG_SBMBX 1 else mret tt);;
      mret 0.

Definition has (data bit : Z) : bool := negb (Z.land data bit =? 0).

Definition brcmf_pcie_handle_mb_data (data : Z) (d : devinfo) : TR event devinfo :=
  (if has data BRCMF_D2H_DEV_DS_ENTER_REQ
   then brcmf_pcie_send_mb_data BRCMF_H2D_HOST_DS_ACK;; mret tt else mret tt);;
  d ← (if has data BRCMF_D2H_DEV_D3_ACK
       then emit WakeMbWaiters;; mret (set_mbdata_completed true d) else mret d);
  (if has data BRCMF_D2H_DEV_FWHALT then emit FwCrashed else mret tt);;
  mret d.

Definition brcmf_pcie_poll_mb_data (d : devinfo) : TR event devinfo :=
  dtoh_mb_data ← brcmf_pcie_read_tcm32 ans (s_dtoh_mb_data_addr sh);
  if dtoh_mb_data =? 0 then mret d
  else
    brcmf_pcie_write_tcm32 (s_dtoh_mb_data_addr sh) 0;;
    brcmf_pcie_handle_mb_data dtoh_mb_data d.

Definition brcmf_pcie_d2h_mb_rx (data : Z) (d : devinfo) : TR event devinfo :=
  brcmf_pcie_handle_mb_data data d.

(** ** Console *)

Definition brcmf_pcie_bus_console_init (c : brcmf_pcie_console) : TR event brcmf_pcie_console :=
  base ← brcmf_pcie_read_tcm32 ans (u32 (s_tcm_base_address sh + BRCMF_SHARED_CONSOLE_ADDR_OFFSET));
  buf ← brcmf_pcie_read_tcm32 ans (u32 (base + BRCMF_CONSOLE_BUFADDR_OFFSET));
  size ← brcmf_pcie_read_tcm32 ans (u32 (base + BRCMF_CONSOLE_BUFSIZE_OFFSET));
  mret (Console base buf size (read_idx c) (log_str c) (log_idx c)).

(** What [%s] prints of the array. *)
Fixpoint c_string (s : list Z) : list Z :=
  match s with
  | [] => []
  | c :: s' => if c =? 0 then [] else c :: c_string s'
  end.

(** A character other than '\r' (13) goes into the line buffer; '\n' (10), or 254
    characters, end the line. *)
Definition console_put (error : bool) (ch : Z) (c : brcmf_pcie_console) : TR event brcmf_pcie_console :=
  let str := <[Z.to_nat (log_idx c) := ch]> (log_str c) in
  let idx := u8 (log_idx c + 1) in
  let full := negb (ch =? 10) && (idx =? 256 - 2) in
  let str := if full then <[Z.to_nat idx := 10]> str else str in
  let idx := if full then u8 (idx + 1) else idx in
  let ch := if full then 10 else ch in
  if ch =? 10 then
    let str := <[Z.to_nat idx := 0]> str in
    emit (ConsoleLine error (c_string str));;
    mret (Console (base_addr c) (buf_addr c) (bufsize c) (read_idx c) str 0)
  else mret (Console (base_addr c) (buf_addr c) (bufsize c) (read_idx c) str idx).

Definition console_advance (c : brcmf_pcie_console) : brcmf_pcie_console :=
  let r := u32 (read_idx c + 1) in
  Console (base_addr c) (buf_addr c) (bufsize c) (if r =? bufsize c then 0 else r)
          (log_str c) (log_idx c).

(** [None] when the fuel runs out. *)
Fixpoint console_loop (fuel : nat) (error : bool) (newidx : Z) (c : brcmf_pcie_console)
    : TR event (option brcmf_pcie_console) :=
  match fuel with
  | O => mret None
  | S fuel' =>
      if newidx =? read_idx c then mret (Some c)
      else
        ch ← brcmf_pcie_read_tcm8 ans (u32 (buf_addr c + read_idx c));
        let c := console_advance c in
        if ch =? 13 then console_loop fuel' error newidx c
        else c ← console_put error ch c; console_loop fuel' error newidx c
  end.

Definition brcmf_pcie_bus_console_read (error : bool) (c : brcmf_pcie_console)
    : TR event (option brcmf_pcie_console) :=
  if negb error && negb fwcon_on then mret (Some c)
  else if base_addr c =? 0 then mret (Some c)
  else
    newidx ← brcmf_pcie_read_tcm32 ans (u32 (base_addr c + BRCMF_CONSOLE_WRITEIDX_OFFSET));
    console_loop (S (Z.to_nat (bufsize c))) error newidx c.

(** The console of the device; when the loop does not end, neither does the caller. *)
Definition console_read_dev (error : bool) (d : devinfo) : TR event (option devinfo) :=
  c ← brcmf_pcie_bus_console_read error (d_console d);
  mret ((λ c, set_console c d) <$> c).

Definition brcmf_pcie_fwcon_timer (active : bool) (d : devinfo) : TR event devinfo :=
  if negb active then
    if d_console_active d then emit TimerDelete;; mret (set_console_active false d) else mret d
  else if negb (d_up d) || (d_console_interval d =? 0) || negb fwcon_on then mret d
  else if negb (d_console_active d) then emit TimerAdd;; mret (set_console_active true d)
  else emit TimerMod;; mret d.

Definition brcmf_pcie_fwcon (d : devinfo) : TR event (option devinfo) :=
  if negb (d_console_active d) then mret (Some d)
  else
    d ← console_read_dev false d;
    match d with
    | Some d => emit TimerMod;; mret (Some d)
    | None => mret None
    end.

Definition brcmf_pcie_console_interval_set (max val : Z) (d : devinfo) : TR event (Z * devinfo) :=
  if max <? val then mret (- EINVAL, d)
  else
    let d := set_console_interval val d in
    d ← (if (val =? 0) && d_console_active d then brcmf_pcie_fwcon_timer false d
         else if negb (val =? 0) then brcmf_pcie_fwcon_timer true d
         else mret d);
    mret (0, d).

(** ** Interrupts *)

Definition brcmf_pcie_intr_disable (d : devinfo) : TR event devinfo :=
  brcmf_pcie_write_pcie32 (mailboxmask ri) 0;; mret (set_irq_ready false d).
Definition brcmf_pcie_intr_enable (d : devinfo) : TR event devinfo :=
  brcmf_pcie_write_pcie32 (mailboxmask ri) (Z.lor (int_d2h_db ri) (int_fn0 ri));;
  mret (set_irq_ready true d).

Inductive irqreturn := IRQ_NONE | IRQ_WAKE_THREAD | IRQ_HANDLED.

Definition brcmf_pcie_quick_check_isr (d : devinfo) : TR event (irqreturn * devinfo) :=
  status ← brcmf_pcie_read_pcie32 ans (mailboxint ri);
  if negb (status =? 0) then
    d ← brcmf_pcie_intr_disable d; mret (IRQ_WAKE_THREAD, d)
  else if d_have_msi d then mret (IRQ_WAKE_THREAD, d)
  else mret (IRQ_NONE, d).

Definition brcmf_pcie_isr_thread (d : devinfo) : TR event (option devinfo) :=
  let d := set_in_irq true d in
  status ← brcmf_pcie_read_pcie32 ans (mailboxint ri);
  d ← (if negb (status =? 0) then
         brcmf_pcie_write_pcie32 (mailboxint ri) status;;
         (if has status (int_fn0 ri) then brcmf_pcie_poll_mb_data d else mret d)
       else mret d);
  (if (d_have_msi d || has status (int_d2h_db ri)) && (d_up d && d_irq_ready d)
   then emit RxTrigger else mret tt);;
  d ← console_read_dev false d;
  match d with
  | None => mret None
  | Some d =>
      d ← (if d_up d then brcmf_pcie_intr_enable d else mret d);
      mret (Some (set_in_irq false d))
  end.

Definition brcmf_pcie_request_irq (d : devinfo) : TR event (Z * devinfo) :=
  d ← brcmf_pcie_intr_disable d;
  msi ← ask ans EnableMsi;
  let d := set_have_msi (0 <=? msi) d in
  r ← ask ans RequestIrq;
  if negb (r =? 0) then emit DisableMsi;; mret (- EIO, d)
  else mret (0, set_irq_allocated true d).

(** [in_irq] is written by the handler; the loop looks at it at most 20 times. *)
Fixpoint in_irq_wait (left : nat) : TR event unit :=
  match left with
  | O => mret tt
  | S left' =>
      busy ← ask ans InIrq;
      if busy =? 0 then mret tt else emit (Msleep 50);; in_irq_wait left'
  end.

Definition brcmf_pcie_release_irq (d : devinfo) : TR event devinfo :=
  if negb (d_irq_allocated d) then mret d
  else
    d ← brcmf_pcie_intr_disable d;
    emit FreeIrq;;
    emit DisableMsi;;
    emit (Msleep 50);;
    in_irq_wait 20;;
    status ← brcmf_pcie_read_pcie32 ans (mailboxint ri);
    brcmf_pcie_write_pcie32 (mailboxint ri) status;;
    mret (set_irq_allocated false d).

Definition brcmf_pcie_preinit (d : devinfo) : TR event (Z * devinfo) :=
  d ← brcmf_pcie_intr_enable d;
  brcmf_pcie_hostready (s_flags sh);;
  mret (0, d).

Definition brcmf_pcie_down (d : devinfo) : TR event devinfo := brcmf_pcie_fwcon_timer false d.

(** ** Suspend and resume *)

(** The answer to [WaitMb] is what [mbdata_completed] is when the wait ends. *)
Definition brcmf_pcie_pm_enter_D3 (d : devinfo) : TR event (Z * devinfo) :=
  d ← brcmf_pcie_fwcon_timer false d;
  emit (BusState false);;
  let d := set_mbdata_completed false d in
  brcmf_pcie_send_mb_data BRCMF_H2D_HOST_D3_INFORM;;
  completed ← ask ans WaitMb;
  let d := set_mbdata_completed (negb (completed =? 0)) d in
  if negb (d_mbdata_completed d) then emit (BusState true);; mret (- EIO, d)
  else mret (0, set_up false d).

(** [reprobe] is the removal and the new probe of the device. *)
Definition brcmf_pcie_pm_leave_D3 (reprobe : devinfo → TR event (Z * devinfo)) (d : devinfo)
    : TR event (Z * devinfo) :=
  mask ← brcmf_pcie_read_pcie32 ans (intmask ri);
  if negb (mask =? 0) then
    let d := set_up true d in
    r ← brcmf_pcie_send_mb_data BRCMF_H2D_HOST_D0_INFORM;
    if negb (r =? 0) then reprobe (set_up false d)
    else
      brcmf_pcie_select_core ans ci CORE_PCIE2;;
      emit (BusState true);;
      d ← brcmf_pcie_intr_enable d;
      brcmf_pcie_hostready (s_flags sh);;
      d ← brcmf_pcie_fwcon_timer true d;
      mret (0, d)
  else reprobe (set_up false d).
End driver.

(** ** The console refines a buffer of pending characters *)

(** The line buffer holds [p]. *)
Definition log_ok (c : brcmf_pcie_console) (p : list Z) : Prop :=
  length (log_str c) = 256%nat ∧ log_idx c = Z.of_nat (length p) ∧ (length p ≤ 253)%nat ∧
  take (length p) (log_str c) = p.

(** A character is added to the pending ones; lines come out. *)
Definition feed (st : list Z * list (list Z)) (ch : Z) : list Z * list (list Z) :=
  if ch =? 13 then st
  else
    let p := st.1 ++ [ch] in
    if ch =? 10 then ([], st.2 ++ [c_string p])
    else if (length p =? 254)%nat then ([], st.2 ++ [c_string (p ++ [10])])
    else (p, st.2).

(** The lines printed in a trace. *)
Definition printed (error : bool) (evs : list event) : list (list Z) :=
  evs ≫= λ e, match e with ConsoleLine err l => if eqb err error then [l] else [] | _ => [] end.

(** The characters of the ring from the read index on. *)
Definition ring_chars (mem : Z → Z) (c : brcmf_pcie_console) (n : Z) : list Z :=
  (λ i, u8 (mem (u32 (buf_addr c + (read_idx c + i) mod bufsize c)))) <$> seqZ 0 n.

Definition same_ring (c c' : brcmf_pcie_console) : Prop :=
  base_addr c' = base_addr c ∧ buf_addr c' = buf_addr c ∧ bufsize c' = bufsize c.

Lemma c_string_app p r : c_string (p ++ 0 :: r) = c_string p.
Proof. induction p as [|x p IH]; [done|]. cbn [app c_string]. by rewrite IH. Qed.

Lemma insert_at_end (l p : list Z) x :
  take (length p) l = p → (length p < length l)%nat →
  ∃ r, <[length p := x]> l = p ++ x :: r ∧ (length r = length l - length p - 1)%nat.
Proof.
  intros Hp Hl. exists (drop (S (length p)) l). split; [|rewrite length_drop; lia].
  rewrite insert_take_drop by done. by rewrite Hp.
Qed.

Lemma take_snoc (p r : list Z) x : take (length (p ++ [x])) (p ++ x :: r) = p ++ [x].
Proof. replace (p ++ x :: r) with ((p ++ [x]) ++ r) by (by rewrite <- app_assoc). apply take_app_length. Qed.

Lemma console_put_refines error ch c p t :
  log_ok c p → ch ≠ 13 →
  let '(c', t') := console_put error ch c t in
  let '(p', ls) := feed (p, []) ch in
  ∃ evs, t' = t ++ evs ∧ printed error evs = ls ∧ log_ok c' p' ∧ same_ring c c' ∧ read_idx c' = read_idx c.
Proof.
  intros (Hlen & Hidx & Hp & Htake) Hch. unfold console_put, feed. cbn [fst snd].
  destruct (Z.eqb_spec ch 13); [done|].
  rewrite Hidx, Nat2Z.id, u8_small by lia.
  destruct (insert_at_end (log_str c) p ch Htake) as (r & -> & Hr); [lia|].
  rewrite length_app. cbn [length].
  assert ((Z.of_nat (length p) + 1 =? 256 - 2) = (length p + 1 =? 254)%nat) as ->.
  { destruct (Z.eqb_spec (Z.of_nat (length p) + 1) (256 - 2)), (Nat.eqb_spec (length p + 1) 254); lia. }
  replace (Z.of_nat (length p) + 1) with (Z.of_nat (length (p ++ [ch]))) by (rewrite length_app; simpl; lia).
  assert (∀ q s, length (q ++ s) = 256%nat → (length q ≤ 255)%nat →
    ∃ r', <[Z.to_nat (Z.of_nat (length q)) := 0]> (q ++ s) = q ++ 0 :: r' ∧ length (q ++ 0 :: r') = 256%nat) as Hz.
  { intros q s Hq Hq'. rewrite Nat2Z.id.
    destruct (insert_at_end (q ++ s) q 0) as (r' & -> & Hr'); [apply take_app_length|lia|].
    exists r'. split; [done|]. rewrite !length_app in *. simpl. lia. }
  destruct (Z.eqb_spec ch 10) as [->|H10]; cbn [negb andb].
  - destruct (Hz (p ++ [10]) r) as (r' & E & Hl'); [rewrite <- app_assoc, length_app; simpl; lia|rewrite length_app; simpl; lia|].
    rewrite <- app_assoc in E. cbn [app] in E. rewrite Z.eqb_refl, E. trace_step.
    exists [ConsoleLine error (c_string ((p ++ [10]) ++ 0 :: r'))]. split; [done|].
    rewrite c_string_app. split; [simpl; by rewrite eqb_reflx|]. split; [|done].
    split; [done|]. split; [done|]. split; [simpl; lia|done].
  - destruct (Nat.eqb_spec (length p + 1) 254) as [Hf|Hf].
    + assert (<[Z.to_nat (Z.of_nat (length (p ++ [ch]))) := 10]> (p ++ ch :: r) = (p ++ [ch; 10]) ++ tail r) as ->.
      { rewrite Nat2Z.id. destruct r as [|x r]; [simpl in Hr; lia|].
        replace (p ++ ch :: x :: r) with ((p ++ [ch]) ++ x :: r) by (by rewrite <- app_assoc).
        rewrite insert_app_r_alt, Nat.sub_diag by lia. by rewrite <- !app_assoc. }
      rewrite length_app, u8_small by (simpl; lia).
      replace (Z.of_nat (length p + length [ch]) + 1) with (Z.of_nat (length (p ++ [ch; 10])))
        by (rewrite length_app; simpl; lia).
      destruct (Hz (p ++ [ch; 10]) (tail r)) as (r' & E & Hl').
      { rewrite length_app, length_app. destruct r; simpl in *; lia. }
      { rewrite length_app. simpl. lia. }
      rewrite Z.eqb_refl, E. trace_step.
      exists [ConsoleLine error (c_string ((p ++ [ch; 10]) ++ 0 :: r'))]. split; [done|].
      rewrite c_string_app. split; [simpl; rewrite eqb_reflx; by rewrite <- app_assoc|].
      split; [|done]. split; [done|]. split; [done|]. split; [simpl; lia|done].
    + destruct (Z.eqb_spec ch 10); [done|]. trace_step. exists []. rewrite app_nil_r.
      split; [done|]. split; [done|]. split; [|done].
      split; [cbn [log_str]; rewrite length_app; simpl; lia|].
      split; [done|]. split; [rewrite length_app; simpl; lia|]. apply take_snoc.
Qed.

Lemma console_advance_mod c :
  0 ≤ read_idx c < bufsize c → bufsize c < 2 ^ 32 →
  read_idx (console_advance c) = (read_idx c + 1) mod bufsize c.
Proof.
  intros Hr Hb. unfold console_advance. cbn [read_idx]. rewrite u32_small by lia.
  destruct (Z.eqb_spec (read_idx c + 1) (bufsize c)) as [->|].
  - by rewrite Z.mod_same by lia.
  - by rewrite Z.mod_small by lia.
Qed.

Lemma ring_chars_step mem c n :
  0 ≤ read_idx c < bufsize c → bufsize c < 2 ^ 32 → 0 < n →
  ring_chars mem c n = u8 (mem (u32 (buf_addr c + read_idx c))) :: ring_chars mem (console_advance c) (n - 1).
Proof.
  intros Hr Hb Hn. unfold ring_chars. rewrite seqZ_cons by lia. cbn [fmap list_fmap].
  rewrite Z.add_0_r, Z.mod_small by lia. f_equal. rewrite console_advance_mod by done.
  cbn [buf_addr bufsize console_advance]. unfold console_advance. cbn [buf_addr bufsize].
  replace (Z.succ 0) with (1 + 0) by lia. replace (Z.pred n) with (n - 1) by lia.
  rewrite <- (fmap_add_seqZ 1 0), <- list_fmap_compose. apply list_fmap_ext. intros i x _. unfold compose.
  rewrite Z.add_mod_idemp_l by lia. by replace (read_idx c + 1 + x) with (read_idx c + (1 + x)) by lia.
Qed.

(** The fold over characters only appends lines. *)
Lemma feed_app p ls ch : feed (p, ls) ch = ((feed (p, []) ch).1, ls ++ (feed (p, []) ch).2).
Proof. unfold feed. cbn [fst snd]. repeat case_if; rewrite ?app_nil_r; done. Qed.

Lemma feeds_app chs : ∀ p ls,
  fold_left feed chs (p, ls) = ((fold_left feed chs (p, [])).1, ls ++ (fold_left feed chs (p, [])).2).
Proof.
  induction chs as [|ch chs IH]; intros p ls; cbn [fold_left]; [by rewrite app_nil_r|].
  rewrite feed_app. destruct (feed (p, []) ch) as [p1 l1]. cbn [fst snd].
  rewrite (IH p1 (ls ++ l1)), (IH p1 l1). cbn [fst snd]. by rewrite app_assoc.
Qed.

Section console.
Context (ans : list event → event → Z) (mem : Z → Z).
(** The ring does not change while it is read. *)
Hypothesis Hmem : ∀ t a, ans t (Tcm8 a) = mem a.

Lemma console_loop_refines error newidx : ∀ n fuel c p t,
  0 ≤ read_idx c < bufsize c → bufsize c < 2 ^ 32 → 0 ≤ newidx < bufsize c → log_ok c p →
  (newidx - read_idx c) mod bufsize c = Z.of_nat n → (n < fuel)%nat →
  ∃ c' evs, console_loop ans fuel error newidx c t = (Some c', t ++ evs) ∧
    read_idx c' = newidx ∧ same_ring c c' ∧
    let '(p', ls) := fold_left feed (ring_chars mem c (Z.of_nat n)) (p, []) in
    log_ok c' p' ∧ printed error evs = ls.
Proof.
  induction n as [|n IH]; intros fuel c p t Hr Hb Hn Hlog Hd Hf; (destruct fuel as [|fuel]; [lia|]);
    cbn [console_loop].
  - assert (newidx = read_idx c) as ->.
    { apply Z.mod_divide in Hd as [k Hk]; [|lia]. destruct (Z.lt_trichotomy k 0) as [?|[->|?]]; [nia|lia|nia]. }
    rewrite Z.eqb_refl. exists c, []. rewrite app_nil_r. done.
  - destruct (Z.eqb_spec newidx (read_idx c)) as [->|Hne].
    { rewrite Z.sub_diag, Zmod_0_l in Hd. lia. }
    unfold brcmf_pcie_read_tcm8. trace_step. rewrite Hmem. set (ch := u8 (mem _)).
    rewrite ring_chars_step by (done || lia). fold ch. cbn [fold_left].
    replace (Z.of_nat (S n) - 1) with (Z.of_nat n) by lia.
    set (c1 := console_advance c).
    assert (read_idx c1 = (read_idx c + 1) mod bufsize c) as Hr1 by (by apply console_advance_mod).
    assert ((newidx - read_idx c1) mod bufsize c = Z.of_nat n) as Hd1.
    { rewrite Hr1, Zminus_mod_idemp_r.
      replace (newidx - (read_idx c + 1)) with (newidx - read_idx c - 1) by lia.
      rewrite <- Zminus_mod_idemp_l, Hd. pose proof (Z.mod_pos_bound (newidx - read_idx c) (bufsize c)).
      rewrite Z.mod_small by lia. lia. }
    assert (0 ≤ read_idx c1 < bufsize c1) as Hr1' by (change (bufsize c1) with (bufsize c); rewrite Hr1; apply Z.mod_pos_bound; lia).
    destruct (Z.eqb_spec ch 13) as [E13|H13].
    + destruct (IH fuel c1 p (t ++ [Tcm8 (u32 (buf_addr c + read_idx c))])) as (c' & evs & E & Hi & Hs & H);
        try done; [lia|].
      exists c', (Tcm8 (u32 (buf_addr c + read_idx c)) :: evs). rewrite E, <- app_assoc.
      unfold feed at 2. cbn [fst snd]. rewrite E13, Z.eqb_refl. done.
    + trace_step. pose proof (console_put_refines error ch c1 p (t ++ [Tcm8 (u32 (buf_addr c + read_idx c))]) Hlog H13) as Hput.
      destruct (console_put error ch c1 _) as [c2 t2]. cbn [fst snd].
      destruct (feed (p, []) ch) as [p1 ls1].
      destruct Hput as (evs1 & -> & Hls1 & Hlog1 & (Hs1 & Hs2 & Hs3) & Hri).
      assert (ring_chars mem c1 (Z.of_nat n) = ring_chars mem c2 (Z.of_nat n)) as ->
        by (unfold ring_chars; by rewrite Hs2, Hs3, Hri).
      destruct (IH fuel c2 p1 ((t ++ [Tcm8 (u32 (buf_addr c + read_idx c))]) ++ evs1))
        as (c' & evs & E & Hi & (Hs1' & Hs2' & Hs3') & H); rewrite ?Hri, ?Hs3; try done; [lia|].
      exists c', (Tcm8 (u32 (buf_addr c + read_idx c)) :: evs1 ++ evs). rewrite E, <- !app_assoc.
      split; [done|]. split; [done|]. split; [unfold same_ring; by rewrite Hs1', Hs2', Hs3'|].
      rewrite feeds_app. destruct (fold_left feed (ring_chars mem c2 (Z.of_nat n)) (p1, [])) as [p' ls].
      cbn [fst snd]. destruct H as [H1 H2]. split; [done|].
      unfold printed in *. cbn [mbind list_bind app]. rewrite bind_app. by rewrite Hls1, H2.
Qed.
End console.

(** The console is read completely and in order: when the write index of the firmware
    lies in the ring, the function ends, has taken every character between the two
    indices, and prints exactly the lines that a plain buffer would give; lines are cut
    after 254 characters, the rest stays in the line buffer for the next time, and the
    array of 256 characters is never left. *)
Theorem brcmf_console_exact ans mem fwcon_on error c p t :
  (∀ t a, ans t (Tcm8 a) = mem a) →
  error || fwcon_on = true → base_addr c ≠ 0 →
  0 ≤ read_idx c < bufsize c → bufsize c < 2 ^ 32 → log_ok c p →
  let newidx := u32 (ans t (Tcm32 (u32 (base_addr c + BRCMF_CONSOLE_WRITEIDX_OFFSET)))) in
  newidx < bufsize c →
  ∃ c' evs, brcmf_pcie_bus_console_read ans fwcon_on error c t = (Some c', t ++ evs) ∧
    read_idx c' = newidx ∧ same_ring c c' ∧
    let '(p', ls) := fold_left feed (ring_chars mem c ((newidx - read_idx c) mod bufsize c)) (p, []) in
    log_ok c' p' ∧ printed error evs = ls.
Proof.
  intros Hmem Hon Hbase Hr Hb Hlog newidx Hn. unfold brcmf_pcie_bus_console_read.
  replace (negb error && negb fwcon_on) with false by (by destruct error, fwcon_on).
  destruct (Z.eqb_spec (base_addr c) 0); [done|].
  unfold brcmf_pcie_read_tcm32, read32. trace_step. fold newidx.
  pose proof (u32_range (ans t (Tcm32 (u32 (base_addr c + BRCMF_CONSOLE_WRITEIDX_OFFSET))))).
  fold newidx in H.
  pose proof (Z.mod_pos_bound (newidx - read_idx c) (bufsize c)).
  set (e := Tcm32 _).
  destruct (console_loop_refines ans mem Hmem error newidx (Z.to_nat ((newidx - read_idx c) mod bufsize c))
    (S (Z.to_nat (bufsize c))) c p (t ++ [e])) as (c' & evs & E & Hi & Hs & H'); try done; try lia.
  rewrite Z2Nat.id in H' by lia.
  exists c', (e :: evs). rewrite E, <- app_assoc. done.
Qed.

(** "a\r\nb" in a ring of eight characters, read from index 6. *)
Definition demo_console : brcmf_pcie_console := Console 0x100 0x200 8 6 (replicate 256 0) 0.
Definition demo_ring (a : Z) : Z :=
  if a =? 0x206 then 97 else if a =? 0x207 then 13 else if a =? 0x200 then 10 else if a =? 0x201 then 98 else 0.
Definition demo_chip_ans (t : list event) (e : event) : Z :=
  match e with Tcm8 a => demo_ring a | Tcm32 _ => 2 | _ => 0 end.

Lemma brcmf_console_exact_witness :
  ∃ c' evs, brcmf_pcie_bus_console_read demo_chip_ans false true demo_console [] = (Some c', evs) ∧
    read_idx c' = 2 ∧ log_ok c' [98] ∧ printed true evs = [[97; 10]].
Proof.
  destruct (brcmf_console_exact demo_chip_ans demo_ring false true demo_console [] [])
    as (c' & evs & E & Hi & _ & H).
  - intros. reflexivity.
  - reflexivity.
  - discriminate.
  - vm_compute. split; [discriminate|reflexivity].
  - vm_compute. reflexivity.
  - split; [reflexivity|]. split; [reflexivity|]. split; [vm_compute; lia|reflexivity].
  - vm_compute. reflexivity.
  - exists c', evs. split; [exact E|]. split; [exact Hi|]. exact H.
Defined.

(** A write index outside the ring is never reached: the loop does not end. *)
Lemma console_runaway ans error newidx fuel : ∀ c t,
  0 ≤ read_idx c < bufsize c → bufsize c < 2 ^ 32 → bufsize c ≤ newidx →
  (console_loop ans fuel error newidx c t).1 = None.
Proof.
  induction fuel as [|fuel IH]; intros c t Hr Hb Hn; [done|]. cbn [console_loop].
  destruct (Z.eqb_spec newidx (read_idx c)); [lia|].
  assert (0 ≤ read_idx (console_advance c) < bufsize c) as Hr1.
  { rewrite console_advance_mod by done. apply Z.mod_pos_bound. lia. }
  unfold brcmf_pcie_read_tcm8. trace_step. case_if; [by apply IH|].
  trace_step. unfold console_put. case_if; trace_step; apply IH; done.
Qed.

(** ** The interrupt handler *)

Definition no_reg_write (e : event) : bool := match e with RegWrite32 _ _ => false | _ => true end.
Definition no_rx (e : event) : bool :=
  match e with RegWrite32 _ _ | RxTrigger => false | _ => true end.

Section isr.
Context (ans : list event → event → Z) (ci : brcmf_chip) (sh : shared) (ri : brcmf_pcie_reginfo).
Context (fwcon_on : bool).

Ltac quiet_go := repeat first
  [ apply quiet_ret | apply quiet_emit; reflexivity | apply quiet_ask; reflexivity
  | apply quiet_if | apply quiet_bind; [|intros ?] ].

Lemma quiet_tcm32 off : quiet no_rx (brcmf_pcie_read_tcm32 ans off).
Proof. unfold brcmf_pcie_read_tcm32, read32. quiet_go. Qed.

Lemma quiet_mb_wait left : ∀ cur, quiet no_rx (mb_wait ans sh left cur).
Proof.
  induction left as [|left IH]; intros cur; cbn [mb_wait]; apply quiet_if; [quiet_go|quiet_go|quiet_go|].
  apply quiet_bind; [by apply quiet_emit|]. intros [].
  apply quiet_bind; [apply quiet_tcm32|]. exact IH.
Qed.

Lemma quiet_send_mb v : quiet no_rx (brcmf_pcie_send_mb_data ans ci sh v).
Proof.
  unfold brcmf_pcie_send_mb_data. apply quiet_if; [by apply quiet_ask|].
  apply quiet_bind; [apply quiet_tcm32|]. intros cur.
  apply quiet_bind; [apply quiet_mb_wait|]. intros empty. apply quiet_if; [apply quiet_ret|].
  do 2 (apply quiet_bind; [by apply quiet_emit|]; intros []).
  apply quiet_bind; [|intros rev; quiet_go]. unfold core_rev_of. destruct (ci_core ci CORE_PCIE2); quiet_go.
Qed.

(** The mailbox does not touch the state of the interrupts. *)
Definition same_irq (d d' : devinfo) : Prop :=
  d_up d' = d_up d ∧ d_irq_ready d' = d_irq_ready d ∧ d_have_msi d' = d_have_msi d.

Lemma handle_mb_quiet data d :
  quiet no_rx (brcmf_pcie_handle_mb_data ans ci sh data d) ∧
  ∀ t, same_irq d (brcmf_pcie_handle_mb_data ans ci sh data d t).1.
Proof.
  split.
  - unfold brcmf_pcie_handle_mb_data. apply quiet_bind.
    { apply quiet_if; [|apply quiet_ret]. apply quiet_bind; [apply quiet_send_mb|]. intros. apply quiet_ret. }
    intros []. apply quiet_bind; [quiet_go|]. intros. quiet_go.
  - intros t. unfold brcmf_pcie_handle_mb_data. rewrite TR_bind_eq. rewrite TR_bind_eq.
    case_if; trace_step; done.
Qed.

Lemma poll_mb_quiet d :
  quiet no_rx (brcmf_pcie_poll_mb_data ans ci sh d) ∧
  ∀ t, same_irq d (brcmf_pcie_poll_mb_data ans ci sh d t).1.
Proof.
  unfold brcmf_pcie_poll_mb_data. split.
  - apply quiet_bind; [apply quiet_tcm32|]. intros v. apply quiet_if; [apply quiet_ret|].
    apply quiet_bind; [by apply quiet_emit|]. intros []. apply handle_mb_quiet.
  - intros t. rewrite TR_bind_eq. case_if; [done|]. unfold brcmf_pcie_write_tcm32. trace_step.
    apply handle_mb_quiet.
Qed.

Lemma console_loop_quiet fuel error newidx : ∀ c, quiet no_rx (console_loop ans fuel error newidx c).
Proof.
  induction fuel as [|fuel IH]; intros c; cbn [console_loop]; [apply quiet_ret|].
  apply quiet_if; [apply quiet_ret|].
  apply quiet_bind; [unfold brcmf_pcie_read_tcm8; quiet_go|]. intros ch. apply quiet_if; [apply IH|].
  apply quiet_bind; [|intros; apply IH]. unfold console_put. quiet_go.
Qed.

Lemma console_read_quiet error d : quiet no_rx (console_read_dev ans fwcon_on error d).
Proof.
  unfold console_read_dev, brcmf_pcie_bus_console_read.
  apply quiet_bind; [|intros; apply quiet_ret].
  apply quiet_if; [apply quiet_ret|]. apply quiet_if; [apply quiet_ret|].
  apply quiet_bind; [apply quiet_tcm32|]. intros. apply console_loop_quiet.
Qed.

Lemma console_read_same error d t d' :
  (console_read_dev ans fwcon_on error d t).1 = Some d' → same_irq d d'.
Proof.
  unfold console_read_dev. trace_step. destruct (brcmf_pcie_bus_console_read _ _ _ _ _).1; [|done].
  by intros [= <-].
Qed.

Lemma no_rx_reg evs : forallb no_rx evs = true → forallb no_reg_write evs = true ∧ RxTrigger ∉ evs.
Proof.
  induction evs as [|e evs IH]; [intros; split; [done|apply not_elem_of_nil]|].
  cbn [forallb]. intros [He H]%andb_prop. destruct (IH H) as [H1 H2].
  rewrite not_elem_of_cons. by destruct e.
Qed.
End isr.

Lemma isr_thread_spec ans ci sh ri fwcon_on d t d' t' :
  brcmf_pcie_isr_thread ans ci sh ri fwcon_on d t = (Some d', t') →
  let status := u32 (ans t (RegRead32 (0x2000 + mailboxint ri))) in
  ∃ mid,
    t' = t ++ [RegRead32 (0x2000 + mailboxint ri)]
           ++ (if status =? 0 then [] else [RegWrite32 (0x2000 + mailboxint ri) status])
           ++ mid
           ++ (if d_up d
               then [RegWrite32 (0x2000 + mailboxmask ri) (u32 (Z.lor (int_d2h_db ri) (int_fn0 ri)))]
               else []) ∧
    forallb no_reg_write mid = true ∧
    (RxTrigger ∈ mid ↔ (d_have_msi d || has status (int_d2h_db ri)) && (d_up d && d_irq_ready d) = true) ∧
    d_in_irq d' = false ∧ d_up d' = d_up d ∧ d_irq_ready d' = d_up d || d_irq_ready d.
Proof.
  intros E. set (status := u32 (ans t _)). cbv zeta. unfold brcmf_pcie_isr_thread in E.
  unfold brcmf_pcie_read_pcie32, brcmf_pcie_read_reg32, read32 in E.
  rewrite !TR_bind_eq in E. unfold ask in E. cbn [fst snd mret TR_ret] in E. fold status in E.
  set (d0 := set_in_irq true d) in *. set (rd := RegRead32 _) in *.
  set (ack := if status =? 0 then [] else [RegWrite32 (0x2000 + mailboxint ri) status]).
  assert (∃ d1 m1, (if negb (status =? 0) then
      brcmf_pcie_write_pcie32 (mailboxint ri) status;;
      (if has status (int_fn0 ri) then brcmf_pcie_poll_mb_data ans ci sh d0 else mret d0)
    else mret d0) (t ++ [rd]) = (d1, ((t ++ [rd]) ++ ack) ++ m1) ∧ forallb no_rx m1 = true ∧ same_irq d0 d1)
    as (d1 & m1 & E1 & N1 & S1).
  { subst ack. destruct (status =? 0); cbn [negb].
    { exists d0, []. by rewrite !app_nil_r. }
    unfold brcmf_pcie_write_pcie32, brcmf_pcie_write_reg32. trace_step.
    rewrite (u32_small status) by apply u32_range.
    set (t2 := (t ++ [rd]) ++ _). destruct (has status (int_fn0 ri)).
    - destruct (poll_mb_quiet ans ci sh d0) as [Q S]. destruct (Q t2) as (m1 & Hm & Nm).
      exists (brcmf_pcie_poll_mb_data ans ci sh d0 t2).1, m1. rewrite <- Hm. split; [by destruct (brcmf_pcie_poll_mb_data _ _ _ _ _)|done].
    - exists d0, []. by rewrite app_nil_r. }
  rewrite E1 in E. cbn [fst snd] in E. destruct S1 as (Su & Sr & Sm).
  cbn [d_up d_irq_ready d_have_msi set_in_irq] in Su, Sr, Sm. unfold d0 in Su, Sr, Sm.
  cbn [d_up d_irq_ready d_have_msi set_in_irq] in Su, Sr, Sm. rewrite Su, Sr, Sm in E.
  set (rx := (d_have_msi d || has status (int_d2h_db ri)) && (d_up d && d_irq_ready d)) in *.
  set (t1 := ((t ++ [rd]) ++ ack) ++ m1) in *.
  assert (((if rx then emit RxTrigger else mret tt) : TR event unit) t1 = (tt, t1 ++ if rx then [RxTrigger] else [])) as E2
    by (destruct rx; [done|by rewrite app_nil_r]).
  rewrite E2 in E. cbn [fst snd] in E. set (t2 := t1 ++ _) in *.
  destruct (console_read_quiet ans fwcon_on false d1 t2) as (m2 & Hm2 & N2).
  destruct ((console_read_dev ans fwcon_on false d1 t2).1) as [d2|] eqn:Ed2; [|done].
  apply console_read_same in Ed2 as (Cu & Cr & _). rewrite Su, Sr in *. rewrite Hm2 in E.
  exists (m1 ++ (if rx then [RxTrigger] else []) ++ m2).
  apply no_rx_reg in N1 as [N1 R1], N2 as [N2 R2].
  rewrite Cu in E. rewrite TR_bind_eq in E.
  assert (forallb no_reg_write (m1 ++ (if rx then [RxTrigger] else []) ++ m2) = true) as Hq
    by (rewrite !forallb_app, N1, N2; by destruct rx).
  assert (RxTrigger ∈ m1 ++ (if rx then [RxTrigger] else []) ++ m2 ↔ rx = true) as Hrx.
  { rewrite !elem_of_app. destruct rx; [|split; [intros [?|[H|?]]; try done; by apply not_elem_of_nil in H|done]].
    split; [done|]. intros _. right. left. apply list_elem_of_here. }
  destruct (d_up d) eqn:Eu.
  - unfold brcmf_pcie_intr_enable, brcmf_pcie_write_pcie32, brcmf_pcie_write_reg32 in E.
    rewrite !TR_bind_eq in E. unfold emit in E. cbn [fst snd mret TR_ret] in E. injection E as <- <-.
    split; [subst t2 t1; by rewrite <- !app_assoc|]. done.
  - cbn [fst snd mret TR_ret] in E. injection E as <- <-. cbn. rewrite Cu, Cr.
    split; [subst t2 t1; rewrite !app_nil_r; by rewrite <- !app_assoc|]. done.
Qed.

(** The threaded half of the interrupt handler acknowledges exactly the status it has
    read, looks at the mailbox, the rings and the console in between without touching
    an interrupt register, and unmasks the interrupt as its last access if and only if
    the device is up.  Received messages are looked at exactly when the interrupt asks
    for it (or is a message-signalled one) and the interrupt was unmasked before. *)
Theorem brcmf_isr_exact ans ci sh ri fwcon_on d t d' t' :
  brcmf_pcie_isr_thread ans ci sh ri fwcon_on d t = (Some d', t') →
  let status := u32 (ans t (RegRead32 (0x2000 + mailboxint ri))) in
  ∃ mid,
    t' = t ++ [RegRead32 (0x2000 + mailboxint ri)]
           ++ (if status =? 0 then [] else [RegWrite32 (0x2000 + mailboxint ri) status])
           ++ mid
           ++ (if d_up d
               then [RegWrite32 (0x2000 + mailboxmask ri) (u32 (Z.lor (int_d2h_db ri) (int_fn0 ri)))]
               else []) ∧
    forallb no_reg_write mid = true ∧
    (RxTrigger ∈ mid ↔ (d_have_msi d || has status (int_d2h_db ri)) && (d_up d && d_irq_ready d) = true) ∧
    d_in_irq d' = false ∧ d_up d' = d_up d ∧ d_irq_ready d' = d_up d || d_irq_ready d.
Proof. apply isr_thread_spec. Qed.

Definition demo_dev : devinfo := Dev true false true true true false demo_console 0 false.

Lemma brcmf_isr_exact_witness :
  ∃ d' t', brcmf_pcie_isr_thread (λ _ _, 0x10000) (Chip CC_4387 (λ _, Some (Core 70 0)) 0 0 0)
             (Shared 0 0 0 0 false) brcmf_reginfo_default false demo_dev [] = (Some d', t') ∧
    RxTrigger ∈ t' ∧ d_irq_ready d' = true.
Proof.
  destruct (brcmf_pcie_isr_thread (λ _ _, 0x10000) (Chip CC_4387 (λ _, Some (Core 70 0)) 0 0 0)
             (Shared 0 0 0 0 false) brcmf_reginfo_default false demo_dev []) as [[d'|] t'] eqn:E;
    [|vm_compute in E; discriminate E].
  destruct (brcmf_isr_exact _ _ _ _ _ _ _ _ _ E) as (mid & Ht & _ & Hrx & _ & _ & Hr).
  exists d', t'. split; [reflexivity|]. split; [|rewrite Hr; reflexivity].
  rewrite Ht. apply elem_of_app; right. apply elem_of_app; right. apply elem_of_app; right.
  apply elem_of_app; left. apply Hrx. vm_compute. reflexivity.
Defined.

(** A wired interrupt is masked by the first half of the handler, which also marks the
    interrupts as not ready; the second half then does not look at the rings.  Whatever
    the device does, such an interrupt never leads to received messages. *)
Theorem legacy_interrupt_deaf ans ci sh ri fwcon_on d t d1 t1 d2 t2 :
  d_have_msi d = false →
  brcmf_pcie_quick_check_isr ans ri d t = ((IRQ_WAKE_THREAD, d1), t1) →
  brcmf_pcie_isr_thread ans ci sh ri fwcon_on d1 t1 = (Some d2, t2) →
  ∃ evs, t2 = t ++ evs ∧ RxTrigger ∉ evs.
Proof.
  intros Hm Hq Hi. unfold brcmf_pcie_quick_check_isr, brcmf_pcie_read_pcie32, brcmf_pcie_read_reg32, read32 in Hq.
  rewrite !TR_bind_eq in Hq. unfold ask in Hq. cbn [fst snd mret TR_ret] in Hq. case_if.
  - unfold brcmf_pcie_intr_disable, brcmf_pcie_write_pcie32, brcmf_pcie_write_reg32 in Hq.
    rewrite !TR_bind_eq in Hq. unfold emit in Hq. cbn [fst snd mret TR_ret] in Hq. injection Hq as <- <-.
    destruct (isr_thread_spec _ _ _ _ _ _ _ _ _ Hi) as (mid & -> & _ & Hrx & _).
    rewrite <- !app_assoc. eexists. split; [done|]. rewrite !elem_of_app.
    cbn [d_irq_ready set_irq_ready] in Hrx. rewrite !andb_false_r in Hrx.
    intros [H|[H|[H|[H|[H|H]]]]]; try (by apply list_elem_of_singleton in H).
    + revert H. case_if; [by intros H%not_elem_of_nil|by intros H%list_elem_of_singleton].
    + by apply Hrx in H.
    + revert H. case_if; [by intros H%list_elem_of_singleton|by intros H%not_elem_of_nil].
  - by rewrite Hm in Hq.
Qed.

(** ** The mailbox *)

Section mailbox.
Context (ans : list event → event → Z) (ci : brcmf_chip) (sh : shared).
Definition rd : event := Tcm32 (s_htod_mb_data_addr sh).

(** The accesses of [k] failed looks at the mailbox, and what the next look finds. *)
Fixpoint polls (k : nat) : list event :=
  match k with O => [] | S k' => rd :: Msleep 10 :: polls k' end.
Definition mb_val (t : list event) (k : nat) : Z := u32 (ans (t ++ polls k) rd).

Lemma mb_val_S t k : mb_val ((t ++ [rd]) ++ [Msleep 10]) k = mb_val t (S k).
Proof. unfold mb_val. by rewrite <- !app_assoc. Qed.

Lemma mb_wait_spec left : ∀ t,
  let r := mb_wait ans sh left (mb_val t 0) (t ++ [rd]) in
  (∃ k, (k ≤ left)%nat ∧ (∀ i, (i < k)%nat → mb_val t i ≠ 0) ∧ mb_val t k = 0 ∧
        r = (true, t ++ polls k ++ [rd])) ∨
  ((∀ i, (i ≤ left)%nat → mb_val t i ≠ 0) ∧ r = (false, t ++ polls (S left))).
Proof.
  induction left as [|left IH]; intros t; cbv zeta; cbn [mb_wait];
    (destruct (Z.eqb_spec (mb_val t 0) 0) as [H0|H0]; [left; exists O; split; [lia|]; split; [lia|done]|]); trace_step.
  - right. split; [intros i ?; by replace i with O by lia|]. by rewrite <- app_assoc.
  - unfold brcmf_pcie_read_tcm32, read32. trace_step. fold rd.
    set (t1 := (t ++ [rd]) ++ [Msleep 10]).
    replace (u32 (ans t1 rd)) with (mb_val t1 0) by (unfold mb_val; by rewrite app_nil_r).
    destruct (IH t1) as [(k & Hk & Hlt & Hz & E)|[Hall E]].
    + left. exists (S k). split; [lia|]. unfold t1 in Hz. rewrite mb_val_S in Hz. split; [|split; [done|]].
      * intros [|i] ?; [done|]. rewrite <- mb_val_S. apply Hlt. lia.
      * rewrite E. unfold t1. by rewrite <- !app_assoc.
    + right. split.
      * intros [|i] ?; [done|]. rewrite <- mb_val_S. apply Hall. lia.
      * rewrite E. unfold t1. by rewrite <- !app_assoc.
Qed.

Lemma send_mb_spec core data t :
  s_mb_via_ctl sh = false → ci_core ci CORE_PCIE2 = Some core →
  let r := brcmf_pcie_send_mb_data ans ci sh data t in
  (∃ k, (k ≤ 100)%nat ∧ (∀ i, (i < k)%nat → mb_val t i ≠ 0) ∧ mb_val t k = 0 ∧
        r = (0, t ++ polls k ++ [rd; TcmWrite32 (s_htod_mb_data_addr sh) (u32 data); CfgWrite BRCMF_PCIE_REG_SBMBX 1]
                  ++ (if core_rev core <=? 13 then [CfgWrite BRCMF_PCIE_REG_SBMBX 1] else []))) ∨
  ((∀ i, (i ≤ 100)%nat → mb_val t i ≠ 0) ∧ r = (- EIO, t ++ polls 101)).
Proof.
  intros Hc Hcore. unfold brcmf_pcie_send_mb_data. rewrite Hc.
  unfold brcmf_pcie_read_tcm32, read32. trace_step. fold rd. cbv zeta.
  replace (u32 (ans t rd)) with (mb_val t 0) by (unfold mb_val; by rewrite app_nil_r).
  destruct (mb_wait_spec 100 t) as [(k & Hk & Hlt & Hz & E)|[Hall E]]; rewrite E; cbn [fst snd negb].
  - left. exists k. split; [done|]. split; [done|]. split; [done|].
    unfold brcmf_pcie_write_tcm32, pci_write_config_dword, core_rev_of. trace_step. rewrite Hcore. trace_step.
    destruct (core_rev core <=? 13); trace_step; by rewrite <- !app_assoc, ?app_nil_r.
  - right. done.
Qed.
End mailbox.

(** The mailbox is a one-place buffer: the driver looks at most 101 times, 10 ms apart,
    and writes its message exactly when it has found the place empty; it then rings the
    doorbell, twice on the old cores.  When the place stays occupied it reports an error
    and has written nothing. *)
Theorem brcmf_send_mb_exact ans ci sh core data t :
  s_mb_via_ctl sh = false → ci_core ci CORE_PCIE2 = Some core →
  let rd := Tcm32 (s_htod_mb_data_addr sh) in
  let r := brcmf_pcie_send_mb_data ans ci sh data t in
  (∃ k, (k ≤ 100)%nat ∧ (∀ i, (i < k)%nat → mb_val ans sh t i ≠ 0) ∧ mb_val ans sh t k = 0 ∧
        r = (0, t ++ polls sh k ++ [rd; TcmWrite32 (s_htod_mb_data_addr sh) (u32 data); CfgWrite BRCMF_PCIE_REG_SBMBX 1]
                  ++ (if core_rev core <=? 13 then [CfgWrite BRCMF_PCIE_REG_SBMBX 1] else []))) ∨
  ((∀ i, (i ≤ 100)%nat → mb_val ans sh t i ≠ 0) ∧ r = (- EIO, t ++ polls sh 101)).
Proof. apply send_mb_spec. Qed.

(** The place is occupied at the first look. *)
Lemma brcmf_send_mb_exact_witness :
  let ans := λ (t : list event) (e : event), if (length t =? 0)%nat then 1 else 0 in
  brcmf_pcie_send_mb_data ans (Chip CC_4355 (λ _, Some (Core 9 0)) 0 0 0) (Shared 0 0 0x40 0x44 false) 1 [] =
    (0, [Tcm32 0x40; Msleep 10; Tcm32 0x40; TcmWrite32 0x40 1;
         CfgWrite BRCMF_PCIE_REG_SBMBX 1; CfgWrite BRCMF_PCIE_REG_SBMBX 1]).
Proof.
  intros ans.
  destruct (brcmf_send_mb_exact ans (Chip CC_4355 (λ _, Some (Core 9 0)) 0 0 0) (Shared 0 0 0x40 0x44 false)
              (Core 9 0) 1 [] eq_refl eq_refl) as [(k & Hk & Hlt & Hz & E)|[Hall _]].
  - destruct k as [|[|k]]; [vm_compute in Hz; discriminate Hz|exact E|].
    exfalso. apply (Hlt 1%nat); [lia|]. vm_compute. reflexivity.
  - exfalso. apply (Hall 1%nat); [lia|]. vm_compute. reflexivity.
Defined.
