(* ===== verification/BrcmFw.v ===== *)
(** * Broadcom wireless PCIe transport: firmware download (brcmfmac/pcie.c)

    The image the driver builds in the chip's memory before it starts the chip:
    firmware at the bottom, configuration (NVRAM) at the top, below it a chain of
    records with the length behind the data (random seed, signature, verification
    status, memory map), and zeros in between.  The memory is the replay of the write
    events. *)

From Stdlib Require Import ZArith Lia Bool.
From stdpp Require Import base numbers list option.
From S2P Require Import Prelude.
From S2P Require Import Channel.
From S2P Require Import BrcmPcie.
From S2P Require Import BrcmIrq.

Local Open Scope list_scope.
Local Open Scope Z_scope.

Definition BRCMF_RAMSIZE_MAGIC : Z := 0x534d4152.
Definition BRCMF_RAMSIZE_OFFSET : nat := Z.to_nat 0x6c.
Definition BRCMF_BL_HEAP_START_GAP : Z := 0x1000.
Definition BRCMF_BL_HEAP_SIZE : Z := 0x10000.
Definition BRCMF_RANDOM_SEED_MAGIC : Z := 0xfeedc0de.
Definition BRCMF_RANDOM_SEED_LENGTH : Z := 0x100.
Definition BRCMF_FW_SIG_MAGIC : Z := 0xfeedfe51.
Definition BRCMF_MEMMAP_MAGIC : Z := 0xfeedfe53.
Definition BRCMF_VSTATUS_MAGIC : Z := 0xfeedfe54.
Definition BRCMF_VSTATUS_SIZE : Z := 0x28.
Definition BRCMF_END_MAGIC : Z := 0xfeed0e2d.
Definition BRCMF_PCIE_FW_UP_TIMEOUT : Z := 5000.

Definition BRCMF_PCIE_MIN_SHARED_VERSION : Z := 5.
Definition BRCMF_PCIE_MAX_SHARED_VERSION : Z := 7.
Definition BRCMF_PCIE_SHARED_VERSION_MASK : Z := 0x00FF.
Definition BRCMF_PCIE_SHARED_DMA_INDEX : Z := 0x10000.
Definition BRCMF_PCIE_SHARED_DMA_2B_IDX : Z := 0x100000.
Definition BRCMF_PCIE_SHARED_USE_MAILBOX : Z := 0x2000000.
Definition BRCMF_HOSTCAP_H2D_ENABLE_HOSTRDY : Z := 0x400.
Definition BRCMF_HOSTCAP_DS_NO_OOB_DW : Z := 0x1000.
Definition BRCMF_HOSTCAP_H2D_DAR : Z := 0x10000.
Definition BRCMF_DEF_MAX_RXBUFPOST : Z := 255.

(** [ALIGN(x, 4)] on a u32. *)
Definition ALIGN4 (x : Z) : Z := Z.land (u32 (x + 3)) (not32 (Z.ones 2)).

(** [brcmf_pcie_adjust_ramsize]: the RAM size the firmware asks for. *)
Definition word_at (data : list Z) (off : nat) : Z :=
  match take 4 (drop off data) with
  | [a; b; c; d] => get_le32 a b c d
  | _ => 0
  end.
Definition brcmf_pcie_adjust_ramsize (data : list Z) (ramsize : Z) : Z :=
  if (length data <? BRCMF_RAMSIZE_OFFSET + 8)%nat then ramsize
  else if negb (word_at data BRCMF_RAMSIZE_OFFSET =? BRCMF_RAMSIZE_MAGIC) then ramsize
  else word_at data (BRCMF_RAMSIZE_OFFSET + 4).

(** The memory map handed to the boot loader: eleven regions of start and end. *)
Definition region : Type := Z * Z.
Record brcmf_fw_memmap := Memmap { m_vstatus : region; m_fw : region; m_sig : region; m_heap : region }.
Definition region_bytes (r : region) : list Z := put_le32 r.1 ++ put_le32 r.2.
Definition memmap_bytes (m : brcmf_fw_memmap) : list Z :=
  [(0, 0); (0, 0); (0, 0); (0, 0); m_vstatus m; m_fw m; m_sig m; m_heap m; (0, 0); (0, 0); (0, 0)]
    ≫= region_bytes.
Definition sizeof_memmap : Z := 88.

Section download.
Context (ans : list event → event → Z) (ci : brcmf_chip).
(** [devinfo->fw_size] and the random bytes. *)
Context (fw_size : Z) (randbuf : list Z).

Definition fw_top : Z := u32 (ci_rambase ci + fw_size).
Definition ram_end : Z := u32 (ALIGN4 (fw_top + BRCMF_BL_HEAP_START_GAP) + BRCMF_BL_HEAP_SIZE).

(** An error and the address, or the new address. *)
Definition brcmf_alloc_rtlv (address type length : Z) : TR event (Z * Z) :=
  let length := ALIGN4 length in
  let start_addr := u32 (address - length - 8) in
  if (0xffff <? length) || (address <? start_addr) || (start_addr <? ram_end)
  then mret (- ENOMEM, address)
  else
    let footer_length :=
      if type =? BRCMF_RANDOM_SEED_MAGIC then length
      else Z.lor length (u32 (Z.shiftl (Z.lxor length 0xffff) 16)) in
    emit (TcmCopy (address - 8) (put_le32 footer_length ++ put_le32 type));;
    mret (0, start_addr).

Definition brcmf_pcie_add_random_seed (address : Z) : TR event (Z * Z) :=
  '(err, address) ← brcmf_alloc_rtlv address BRCMF_RANDOM_SEED_MAGIC BRCMF_RANDOM_SEED_LENGTH;
  if negb (err =? 0) then mret (err, address)
  else emit (TcmCopy address randbuf);; mret (0, address).

(** Error, address, and whether the reset vector is to be left alone. *)
Definition brcmf_pcie_add_signature (address : Z) (fwsig : list Z) : TR event (Z * Z * bool) :=
  let sig_end := address in
  '(err, address) ← brcmf_alloc_rtlv address BRCMF_FW_SIG_MAGIC (Z.of_nat (length fwsig));
  if negb (err =? 0) then mret (err, address, false) else
  let sig_start := address in
  '(err, address) ← brcmf_alloc_rtlv address BRCMF_VSTATUS_MAGIC BRCMF_VSTATUS_SIZE;
  if negb (err =? 0) then mret (err, address, false) else
  let vstatus_start := address in
  '(err, address) ← brcmf_alloc_rtlv address BRCMF_MEMMAP_MAGIC sizeof_memmap;
  if negb (err =? 0) then mret (err, address, false) else
  let fw_end := fw_top in
  let heap_start := ALIGN4 (fw_end + BRCMF_BL_HEAP_START_GAP) in
  let heap_end := u32 (heap_start + BRCMF_BL_HEAP_SIZE) in
  if address <? heap_end then mret (- ENOMEM, address, false) else
  let memmap := Memmap (vstatus_start, sig_start) (ci_rambase ci, fw_end) (sig_start, sig_end)
                       (heap_start, heap_end) in
  emit (TcmCopy sig_start fwsig);;
  emit (TcmZero vstatus_start BRCMF_VSTATUS_SIZE);;
  emit (TcmCopy address (memmap_bytes memmap));;
  '(err, address) ← brcmf_alloc_rtlv address BRCMF_END_MAGIC 0;
  if negb (err =? 0) then mret (err, address, false)
  else mret (0, address, true).

Definition brcmf_pcie_populate_footers (fwseed : bool) (address : Z) (fwsig : option (list Z))
    : TR event (Z * Z * bool) :=
  if negb fwseed then mret (0, address, false)
  else
    '(err, address) ← brcmf_pcie_add_random_seed address;
    if negb (err =? 0) then mret (err, address, false)
    else match fwsig with
         | Some fwsig => brcmf_pcie_add_signature address fwsig
         | None => mret (0, address, false)
         end.
End download.

(** ** The shared area *)

Record shared_info := SharedInfo {
  si_tcm_base_address : Z; si_flags : Z; si_flags2 : Z; si_flags3 : Z; si_version : Z;
  si_max_rxbufpost : Z; si_rx_dataoffset : Z;
  si_htod_mb_data_addr : Z; si_dtoh_mb_data_addr : Z; si_ring_info_addr : Z;
  si_console : brcmf_pcie_console; si_mb_via_ctl : bool; si_dma_idx_sz : Z
}.

Section start.
Context (ans : list event → event → Z) (ci : brcmf_chip) (ri : brcmf_pcie_reginfo) (fwcon_on : bool).

(** [old] is what the structure held before: the console's line buffer, the flags of
    revision 6, the choice of mailbox and the size of the indices are only set, never
    cleared.  [None] when reading the console does not end. *)
Definition brcmf_pcie_init_share_ram_info (old : shared_info) (sharedram_addr : Z)
    : TR event (option (Z * shared_info)) :=
  flags ← brcmf_pcie_read_tcm32 ans sharedram_addr;
  let version := u8 (Z.land flags BRCMF_PCIE_SHARED_VERSION_MASK) in
  if (BRCMF_PCIE_MAX_SHARED_VERSION <? version) || (version <? BRCMF_PCIE_MIN_SHARED_VERSION)
  then mret (Some (- EINVAL,
         SharedInfo sharedram_addr flags (si_flags2 old) (si_flags3 old) version (si_max_rxbufpost old)
           (si_rx_dataoffset old) (si_htod_mb_data_addr old) (si_dtoh_mb_data_addr old)
           (si_ring_info_addr old) (si_console old) (si_mb_via_ctl old) (si_dma_idx_sz old)))
  else
  let dma_idx_sz :=
    if has flags BRCMF_PCIE_SHARED_DMA_INDEX
    then if has flags BRCMF_PCIE_SHARED_DMA_2B_IDX then 2 else 4
    else si_dma_idx_sz old in
  rxbufpost ← brcmf_pcie_read_tcm16 ans (u32 (sharedram_addr + 34));
  let rxbufpost := if rxbufpost =? 0 then BRCMF_DEF_MAX_RXBUFPOST else rxbufpost in
  rx_dataoffset ← brcmf_pcie_read_tcm32 ans (u32 (sharedram_addr + 36));
  htod ← brcmf_pcie_read_tcm32 ans (u32 (sharedram_addr + 40));
  dtoh ← brcmf_pcie_read_tcm32 ans (u32 (sharedram_addr + 44));
  ring_info ← brcmf_pcie_read_tcm32 ans (u32 (sharedram_addr + 48));
  console ← brcmf_pcie_bus_console_init ans (Shared sharedram_addr flags htod dtoh (si_mb_via_ctl old))
              (si_console old);
  console ← brcmf_pcie_bus_console_read ans fwcon_on false console;
  match console with
  | None => mret None
  | Some console =>
      if version <? 6 then
        mret (Some (0, SharedInfo sharedram_addr flags (si_flags2 old) (si_flags3 old) version rxbufpost
                         rx_dataoffset htod dtoh ring_info console (si_mb_via_ctl old) dma_idx_sz))
      else
        flags2 ← brcmf_pcie_read_tcm32 ans (u32 (sharedram_addr + 80));
        flags3 ← brcmf_pcie_read_tcm32 ans (u32 (sharedram_addr + 108));
        let mb_via_ctl := negb (has flags BRCMF_PCIE_SHARED_USE_MAILBOX) || si_mb_via_ctl old in
        let host_cap := version in
        let host_cap := if has flags BRCMF_PCIE_SHARED_HOSTRDY_DB1
                        then Z.lor host_cap BRCMF_HOSTCAP_H2D_ENABLE_HOSTRDY else host_cap in
        let host_cap := if has flags BRCMF_PCIE_SHARED_DAR
                        then Z.lor host_cap BRCMF_HOSTCAP_H2D_DAR else host_cap in
        let host_cap := Z.lor host_cap BRCMF_HOSTCAP_DS_NO_OOB_DW in
        brcmf_pcie_write_tcm32 (u32 (sharedram_addr + 84)) host_cap;;
        brcmf_pcie_write_tcm32 (u32 (sharedram_addr + 112)) 0;;
        mret (Some (0, SharedInfo sharedram_addr flags flags2 flags3 version rxbufpost
                         rx_dataoffset htod dtoh ring_info console mb_via_ctl dma_idx_sz))
  end.

(** The wait for the firmware, [left] looks at the last word of the RAM. *)
Fixpoint fw_wait (left : nat) (written addr : Z) : TR event Z :=
  if negb (addr =? written) then mret addr
  else
    match left with
    | O => mret addr
    | S left' =>
        emit (Msleep 50);;
        addr ← brcmf_pcie_read_ram32 ans ci (u32 (ci_ramsize ci - 4));
        fw_wait left' written addr
    end.

(** The image, up to the start of the chip: the reset vector of the firmware and
    whether it is to be left alone. *)
Definition write_image (fwseed : bool) (randbuf fw : list Z) (fwsig nvram : option (list Z))
    : TR event (Z * bool) :=
  brcmf_pcie_enter_download_state ans ci ri;;
  emit (TcmCopy (ci_rambase ci) fw);;
  let resetintr := word_at fw 0 in
  let fw_size := u32 (Z.of_nat (length fw)) in
  emit (ReleaseFw false);;
  brcmf_pcie_write_ram32 ci (u32 (ci_ramsize ci - 4)) 0;;
  let address := u32 (ci_rambase ci + ci_ramsize ci) in
  '(address, skip) ←
    match nvram with
    | Some nvram =>
        let address := u32 (address - Z.of_nat (length nvram)) in
        emit (TcmCopy address nvram);;
        emit NvramFree;;
        '(_, address, skip) ← brcmf_pcie_populate_footers ci fw_size randbuf fwseed address fwsig;
        mret (address, skip)
    | None => mret (address, false)
    end;
  emit (ReleaseFw true);;
  emit (TcmZero (ci_rambase ci + fw_size) (u32 (address - fw_size - ci_rambase ci)));;
  mret (resetintr, skip).

Definition brcmf_pcie_download_fw_nvram (old : shared_info) (fwseed : bool) (randbuf fw : list Z)
    (fwsig nvram : option (list Z)) : TR event (option (Z * shared_info)) :=
  '(resetintr, _) ← write_image fwseed randbuf fw fwsig nvram;
  written ← brcmf_pcie_read_ram32 ans ci (u32 (ci_ramsize ci - 4));
  err ← brcmf_pcie_exit_download_state ans ci resetintr;
  if negb (err =? 0) then mret (Some (err, old))
  else
    sharedram_addr ← fw_wait (Z.to_nat (BRCMF_PCIE_FW_UP_TIMEOUT / 50)) written written;
    if sharedram_addr =? written then mret (Some (- ENODEV, old))
    else if (sharedram_addr <? ci_rambase ci) || (u32 (ci_rambase ci + ci_ramsize ci) <=? sharedram_addr)
    then mret (Some (- ENODEV, old))
    else brcmf_pcie_init_share_ram_info old sharedram_addr.
End start.

(** ** The chip's memory as the replay of the writes *)

Definition write_bytes (a : Z) (bs : list Z) (m : Z → Z) : Z → Z :=
  λ x, if (a <=? x) && (x <? a + Z.of_nat (length bs)) then nth (Z.to_nat (x - a)) bs 0 else m x.
Definition zero_bytes (a n : Z) (m : Z → Z) : Z → Z :=
  λ x, if (a <=? x) && (x <? a + n) then 0 else m x.
Definition apply_write (m : Z → Z) (e : event) : Z → Z :=
  match e with
  | TcmCopy a bs => write_bytes a bs m
  | TcmZero a n => zero_bytes a n m
  | TcmWrite32 a v => write_bytes a (put_le32 v) m
  | TcmWrite16 a v => write_bytes a (take 2 (put_le32 v)) m
  | _ => m
  end.
Definition tcm_after (m : Z → Z) (evs : list event) : Z → Z := fold_left apply_write evs m.
Definition read_mem (m : Z → Z) (a n : Z) : list Z := m <$> seqZ a n.

Lemma tcm_after_app m evs evs' : tcm_after m (evs ++ evs') = tcm_after (tcm_after m evs) evs'.
Proof. apply fold_left_app. Qed.

Lemma read_write_other a bs m b n :
  b + n ≤ a ∨ a + Z.of_nat (length bs) ≤ b → read_mem (write_bytes a bs m) b n = read_mem m b n.
Proof.
  intros H. unfold read_mem. apply list_fmap_ext. intros i x Hx.
  apply list_elem_of_lookup_2, elem_of_seqZ in Hx. unfold write_bytes.
  destruct (Z.leb_spec a x), (Z.ltb_spec x (a + Z.of_nat (length bs))); done || lia.
Qed.

Lemma read_zero_other a k m b n :
  b + n ≤ a ∨ a + k ≤ b → read_mem (zero_bytes a k m) b n = read_mem m b n.
Proof.
  intros H. unfold read_mem. apply list_fmap_ext. intros i x Hx.
  apply list_elem_of_lookup_2, elem_of_seqZ in Hx. unfold zero_bytes.
  destruct (Z.leb_spec a x), (Z.ltb_spec x (a + k)); done || lia.
Qed.

Lemma read_mem_nth (bs : list Z) m a : (∀ i, (i < length bs)%nat → m (a + Z.of_nat i) = nth i bs 0) →
  read_mem m a (Z.of_nat (length bs)) = bs.
Proof.
  revert a. induction bs as [|b bs IH]; intros a H; [done|]. unfold read_mem in *.
  rewrite seqZ_cons by (simpl; lia). cbn [fmap list_fmap]. f_equal.
  - rewrite <- (Z.add_0_r a). apply (H O). simpl. lia.
  - replace (Z.pred (Z.of_nat (length (b :: bs)))) with (Z.of_nat (length bs)) by (simpl; lia).
    apply IH. intros i Hi. replace (Z.succ a + Z.of_nat i) with (a + Z.of_nat (S i)) by lia.
    apply (H (S i)). simpl. lia.
Qed.

Lemma read_write_same a bs m n : n = Z.of_nat (length bs) → read_mem (write_bytes a bs m) a n = bs.
Proof.
  intros ->. apply read_mem_nth. intros i Hi. unfold write_bytes.
  destruct (Z.leb_spec a (a + Z.of_nat i)), (Z.ltb_spec (a + Z.of_nat i) (a + Z.of_nat (length bs))); try lia.
  simpl. f_equal. lia.
Qed.

Lemma read_zero_same a m n : 0 ≤ n → read_mem (zero_bytes a n m) a n = replicate (Z.to_nat n) 0.
Proof.
  intros Hn. rewrite <- (Z2Nat.id n) at 2 by done.
  rewrite <- (length_replicate (Z.to_nat n) 0) at 1. apply read_mem_nth.
  rewrite length_replicate. intros i Hi. unfold zero_bytes. rewrite nth_lookup, lookup_replicate_2 by done.
  destruct (Z.leb_spec a (a + Z.of_nat i)), (Z.ltb_spec (a + Z.of_nat i) (a + n)); done || lia.
Qed.

Lemma read_mem_app m a n k : 0 ≤ n → 0 ≤ k → read_mem m a (n + k) = read_mem m a n ++ read_mem m (a + n) k.
Proof. intros. unfold read_mem. by rewrite seqZ_app, fmap_app by lia. Qed.

(** ** The records, as the boot loader finds them

    A record is found from its end: the last word is its type, the word before it the
    length of the data, with its complement in the upper half except for the seed. *)

Definition le32_at (m : Z → Z) (a : Z) : Z := get_le32 (m a) (m (a + 1)) (m (a + 2)) (m (a + 3)).

Definition rtlv_at (m : Z → Z) (address : Z) : option (Z * list Z * Z) :=
  let word := le32_at m (address - 8) in
  let type := le32_at m (address - 4) in
  let len := if type =? BRCMF_RANDOM_SEED_MAGIC then word else Z.land word 0xffff in
  if (type =? BRCMF_RANDOM_SEED_MAGIC) || (Z.shiftr word 16 =? Z.lxor len 0xffff)
  then Some (type, read_mem m (address - 8 - len) len, address - 8 - len)
  else None.

Definition rtlv_word (type len : Z) : Z :=
  if type =? BRCMF_RANDOM_SEED_MAGIC then len
  else Z.lor len (u32 (Z.shiftl (Z.lxor len 0xffff) 16)).
Definition footer (type len : Z) : list Z := put_le32 (rtlv_word type len) ++ put_le32 type.

Lemma rtlv_word_range type len : 0 ≤ len ≤ 0xffff → 0 ≤ rtlv_word type len < 2 ^ 32.
Proof.
  intros H. unfold rtlv_word. case_if; [lia|]. apply lor_u32; [lia|apply u32_range].
Qed.

Lemma lxor_ffff len : 0 ≤ len ≤ 0xffff → 0 ≤ Z.lxor len 0xffff < 2 ^ 16.
Proof.
  intros H. assert (0 ≤ Z.lxor len 0xffff) by (apply Z.lxor_nonneg; lia). split; [done|].
  apply bits_bound; [lia|done|]. intros i Hi.
  rewrite Z.lxor_spec, (testbit_above 16 len), (testbit_above 16 0xffff) by lia. done.
Qed.

Lemma rtlv_word_fields type len : 0 ≤ len ≤ 0xffff → type ≠ BRCMF_RANDOM_SEED_MAGIC →
  Z.land (rtlv_word type len) 0xffff = len ∧ Z.shiftr (rtlv_word type len) 16 = Z.lxor len 0xffff.
Proof.
  intros H Ht. unfold rtlv_word. destruct (Z.eqb_spec type BRCMF_RANDOM_SEED_MAGIC); [done|].
  pose proof (lxor_ffff len H). set (y := Z.lxor len 0xffff) in *.
  rewrite u32_small by (rewrite Z.shiftl_mul_pow2 by lia; lia).
  rewrite lor_shiftl_add by lia. change 0xffff with (Z.ones 16).
  rewrite Z.land_ones, Z.shiftr_div_pow2 by lia. split.
  - rewrite Z.mod_add by lia. apply Z.mod_small. lia.
  - rewrite Z.div_add by lia. rewrite Z.div_small by lia. lia.
Qed.

Lemma le32_at_read m a v l : 0 ≤ v < 2 ^ 32 → read_mem m a 4 = put_le32 v → l = le32_at m a → l = v.
Proof.
  intros Hv H ->. unfold read_mem in H. change (seqZ a 4) with [0 + a; 1 + a; 2 + a; 3 + a] in H.
  rewrite !(Z.add_comm _ a), Z.add_0_r in H. cbn [fmap list_fmap] in H.
  unfold put_le32 in H. injection H as E0 E1 E2 E3.
  unfold le32_at. rewrite E0, E1, E2, E3. by apply get_put_le32.
Qed.

Lemma rtlv_at_footer m address type len :
  0 ≤ len ≤ 0xffff → 0 ≤ type < 2 ^ 32 → read_mem m (address - 8) 8 = footer type len →
  rtlv_at m address = Some (type, read_mem m (address - 8 - len) len, address - 8 - len).
Proof.
  intros Hl Ht H. change 8 with (4 + 4) in H at 2. rewrite read_mem_app in H by lia.
  apply app_inj_1 in H as [Hw Hty]; [|done].
  replace (address - 8 + 4) with (address - 4) in Hty by lia.
  unfold rtlv_at.
  rewrite (le32_at_read m (address - 8) (rtlv_word type len) _ (rtlv_word_range _ _ Hl) Hw eq_refl).
  rewrite (le32_at_read m (address - 4) type _ Ht Hty eq_refl).
  destruct (Z.eqb_spec type BRCMF_RANDOM_SEED_MAGIC) as [->|Hne]; cbn [orb].
  - unfold rtlv_word. rewrite Z.eqb_refl. done.
  - destruct (rtlv_word_fields type len Hl Hne) as [-> ->]. by rewrite Z.eqb_refl.
Qed.

(** The chain from an address down to the end record. *)
Fixpoint chain (n : nat) (m : Z → Z) (address : Z) : list (Z * list Z) :=
  match n with
  | O => []
  | S n' =>
      match rtlv_at m address with
      | None => []
      | Some (type, data, address') =>
          (type, data) :: (if type =? BRCMF_END_MAGIC then [] else chain n' m address')
      end
  end.

(** ** What the functions write *)

(** All writes lie in [lo, hi). *)
Definition write_in (lo hi : Z) (e : event) : Prop :=
  match e with
  | TcmCopy a bs => lo ≤ a ∧ a + Z.of_nat (length bs) ≤ hi
  | TcmZero a n => lo ≤ a ∧ a + n ≤ hi
  | TcmWrite32 a _ => lo ≤ a ∧ a + 4 ≤ hi
  | TcmWrite16 a _ => lo ≤ a ∧ a + 2 ≤ hi
  | _ => True
  end.
Definition within (lo hi : Z) (evs : list event) : Prop := Forall (write_in lo hi) evs.

Lemma within_outside lo hi evs : ∀ m x, within lo hi evs → x < lo ∨ hi ≤ x → tcm_after m evs x = m x.
Proof.
  induction evs as [|e evs IH]; intros m x Hw Hx; [done|].
  apply List.Forall_cons_iff in Hw as [He Hw]. unfold tcm_after in *. cbn [fold_left].
  rewrite IH by done. destruct e; try done; simpl in *; unfold write_bytes, zero_bytes.
  all: match goal with |- context [(?a <=? ?b) && (?c <? ?d)] =>
         destruct (Z.leb_spec a b), (Z.ltb_spec c d); simpl in *; done || lia end.
Qed.

Lemma within_weaken lo hi lo' hi' evs : lo' ≤ lo → hi ≤ hi' → within lo hi evs → within lo' hi' evs.
Proof. intros ?? H. eapply list.Forall_impl; [exact H|]. intros e. destruct e; simpl; lia || done. Qed.

Lemma read_mem_agree m m' a n : (∀ x, a ≤ x < a + n → m x = m' x) → read_mem m a n = read_mem m' a n.
Proof.
  intros H. unfold read_mem. apply list_fmap_ext. intros i x Hx.
  apply list_elem_of_lookup_2, elem_of_seqZ in Hx. by apply H.
Qed.

Lemma ALIGN4_bounds x : 0 ≤ x → x + 3 < 2 ^ 32 → x ≤ ALIGN4 x < x + 4 ∧ ALIGN4 x mod 4 = 0.
Proof.
  intros Hx Hb. unfold ALIGN4. rewrite (u32_small (x + 3)), land_not32_ones by lia.
  change (2 ^ 2) with 4. pose proof (Z.mod_pos_bound (x + 3) 4). split; [lia|].
  by rewrite Zminus_mod_idemp_r, Z.sub_diag.
Qed.

Lemma length_footer type len : length (footer type len) = 8%nat.
Proof. done. Qed.

(** Reads what a sequence of writes has left at a place. *)
Ltac read_steps := repeat first
  [ rewrite read_write_same by (rewrite ?length_footer; lia)
  | rewrite read_zero_same by lia
  | rewrite read_write_other by (rewrite ?length_footer; lia)
  | rewrite read_zero_other by lia ].

Section rtlv.
Context (ci : brcmf_chip) (fw_size : Z).

Lemma alloc_rtlv_cases address type len t :
  0 ≤ address < 2 ^ 32 → 0 ≤ len → len + 3 < 2 ^ 32 →
  brcmf_alloc_rtlv ci fw_size address type len t = ((- ENOMEM, address), t) ∨
  (0 ≤ ALIGN4 len ≤ 0xffff ∧ ram_end ci fw_size ≤ address - ALIGN4 len - 8 ∧
   brcmf_alloc_rtlv ci fw_size address type len t =
     ((0, address - ALIGN4 len - 8), t ++ [TcmCopy (address - 8) (footer type (ALIGN4 len))])).
Proof.
  intros Ha Hl Hb. destruct (ALIGN4_bounds len Hl Hb) as [HL _]. unfold brcmf_alloc_rtlv.
  destruct ((0xffff <? ALIGN4 len) || (address <? u32 (address - ALIGN4 len - 8)) ||
            (u32 (address - ALIGN4 len - 8) <? ram_end ci fw_size)) eqn:E; [by left|]. right.
  boolprop. destruct (Z.lt_ge_cases (address - ALIGN4 len - 8) 0).
  { assert (u32 (address - ALIGN4 len - 8) = address - ALIGN4 len - 8 + 2 ^ 32); [|lia].
    unfold u32. rewrite <- (Z.mod_add _ 1) by lia. apply Z.mod_small. lia. }
  rewrite u32_small in * by lia. split; [lia|]. split; [lia|]. done.
Qed.

(** The records of a signature, from the address [a1] down. *)
Definition sig_map (a1 : Z) (fwsig : list Z) : brcmf_fw_memmap :=
  let a2 := a1 - ALIGN4 (Z.of_nat (length fwsig)) - 8 in
  let heap := ALIGN4 (fw_top ci fw_size + BRCMF_BL_HEAP_START_GAP) in
  Memmap (a2 - 48, a2) (ci_rambase ci, fw_top ci fw_size) (a2, a1) (heap, u32 (heap + BRCMF_BL_HEAP_SIZE)).

Definition sig_chain (a1 : Z) (fwsig pad : list Z) : list (Z * list Z) :=
  [(BRCMF_FW_SIG_MAGIC, fwsig ++ pad); (BRCMF_VSTATUS_MAGIC, replicate 40 0);
   (BRCMF_MEMMAP_MAGIC, memmap_bytes (sig_map a1 fwsig)); (BRCMF_END_MAGIC, [])].

Definition sig_start (a1 : Z) (fwsig : list Z) : Z := a1 - ALIGN4 (Z.of_nat (length fwsig)) - 8.
(** The writes of a signature that fits. *)
Definition sig_events (a1 : Z) (fwsig : list Z) : list event :=
  let a2 := sig_start a1 fwsig in
  [TcmCopy (a1 - 8) (footer BRCMF_FW_SIG_MAGIC (ALIGN4 (Z.of_nat (length fwsig))));
   TcmCopy (a2 - 8) (footer BRCMF_VSTATUS_MAGIC 40);
   TcmCopy (a2 - 48 - 8) (footer BRCMF_MEMMAP_MAGIC 88);
   TcmCopy a2 fwsig; TcmZero (a2 - 48) BRCMF_VSTATUS_SIZE;
   TcmCopy (a2 - 144) (memmap_bytes (sig_map a1 fwsig));
   TcmCopy (a2 - 144 - 8) (footer BRCMF_END_MAGIC 0)].

Lemma sig_events_chain a1 fwsig m M :
  Z.of_nat (length fwsig) + 3 < 2 ^ 32 → ALIGN4 (Z.of_nat (length fwsig)) ≤ 0xffff →
  (∀ x, sig_start a1 fwsig - 152 ≤ x < a1 → M x = tcm_after m (sig_events a1 fwsig) x) →
  ∃ pad, (length pad < 4)%nat ∧ chain 4 M a1 = sig_chain a1 fwsig pad.
Proof.
  intros Hl HL HM. set (n := Z.of_nat (length fwsig)) in *.
  destruct (ALIGN4_bounds n) as [HLn _]; [lia|lia|]. unfold sig_events, sig_start in *. fold n in HM |- *.
  set (L := ALIGN4 n) in *. set (a2 := a1 - L - 8) in *. set (mm := memmap_bytes _) in *.
  assert (length mm = 88%nat) as Hmm by done.
  set (W := tcm_after m _) in HM. unfold tcm_after in W. cbn [fold_left apply_write] in W.
  assert (∀ a k, a2 - 152 ≤ a → a + k ≤ a1 → read_mem M a k = read_mem W a k) as HR.
  { intros a k ??. apply read_mem_agree. intros x ?. apply HM. lia. }
  unfold BRCMF_VSTATUS_SIZE in W. unfold sig_chain. cbn [chain].
  rewrite (rtlv_at_footer M a1 BRCMF_FW_SIG_MAGIC L) by (lia || (split; done) || (rewrite HR by lia; subst W; read_steps; done)).
  change (BRCMF_FW_SIG_MAGIC =? BRCMF_END_MAGIC) with false. cbv iota.
  replace (a1 - 8 - L) with a2 by lia.
  rewrite (rtlv_at_footer M a2 BRCMF_VSTATUS_MAGIC 40) by (lia || (split; done) || (rewrite HR by lia; subst W; read_steps; done)).
  change (BRCMF_VSTATUS_MAGIC =? BRCMF_END_MAGIC) with false. cbv iota.
  replace (a2 - 8 - 40) with (a2 - 48) by lia.
  rewrite (rtlv_at_footer M (a2 - 48) BRCMF_MEMMAP_MAGIC 88)
    by (lia || (split; done) || (rewrite HR by lia; subst W; read_steps; done)).
  change (BRCMF_MEMMAP_MAGIC =? BRCMF_END_MAGIC) with false. cbv iota.
  replace (a2 - 48 - 8 - 88) with (a2 - 144) by lia.
  rewrite (rtlv_at_footer M (a2 - 144) BRCMF_END_MAGIC 0)
    by (lia || (split; done) || (rewrite HR by lia; subst W; read_steps; done)).
  rewrite Z.eqb_refl.
  exists (read_mem M (a2 + n) (L - n)). split; [unfold read_mem; rewrite length_fmap, length_seqZ; lia|].
  replace (read_mem M a2 L) with (fwsig ++ read_mem M (a2 + n) (L - n)).
  2:{ replace L with (n + (L - n)) at 2 by lia. rewrite read_mem_app by lia. f_equal.
      rewrite HR by lia. subst W. read_steps. done. }
  replace (read_mem M (a2 - 48) 40) with (replicate 40 0 : list Z) by (rewrite HR by lia; subst W; read_steps; done).
  by replace (read_mem M (a2 - 144) 88) with mm by (rewrite HR by lia; subst W; read_steps; done).
Qed.

Lemma add_signature_spec a1 fwsig t :
  0 ≤ a1 < 2 ^ 32 → Z.of_nat (length fwsig) + 3 < 2 ^ 32 → 0 ≤ ram_end ci fw_size →
  ∃ err a' skip evs,
    brcmf_pcie_add_signature ci fw_size a1 fwsig t = ((err, a', skip), t ++ evs) ∧
    a' ≤ a1 ∧ within a' a1 evs ∧ (a' = a1 ∨ ram_end ci fw_size ≤ a') ∧
    (skip = true → ∀ m M, (∀ x, a' ≤ x < a1 → M x = tcm_after m evs x) →
       ∃ pad, (length pad < 4)%nat ∧ chain 4 M a1 = sig_chain a1 fwsig pad).
Proof.
  intros Ha Hl Hre. unfold brcmf_pcie_add_signature.
  set (n := Z.of_nat (length fwsig)) in *.
  destruct (alloc_rtlv_cases a1 BRCMF_FW_SIG_MAGIC n t) as [E|(HL & Hr & E)]; [done|lia|lia|..];
    rewrite TR_bind_eq, E; cbn [fst snd].
  { exists (- ENOMEM), a1, false, []. rewrite app_nil_r. split; [done|]. split; [lia|]. split; [constructor|].
    split; [by left|done]. }
  change (negb (0 =? 0)) with false. cbv iota.
  set (L := ALIGN4 n) in *. destruct (ALIGN4_bounds n) as [HLn _]; [lia|lia|]. fold L in HLn.
  set (a2 := a1 - L - 8) in *. set (e1 := TcmCopy (a1 - 8) _).
  destruct (alloc_rtlv_cases a2 BRCMF_VSTATUS_MAGIC BRCMF_VSTATUS_SIZE (t ++ [e1])) as [E2|(_ & Hr2 & E2)];
    [lia|done|done|..]; rewrite TR_bind_eq, E2; cbn [fst snd].
  { exists (- ENOMEM), a2, false, [e1]. split; [done|]. split; [lia|].
    split; [repeat constructor; simpl; lia|]. split; [by right|done]. }
  change (negb (0 =? 0)) with false. cbv iota.
  change (ALIGN4 BRCMF_VSTATUS_SIZE) with 40 in *. set (a3 := a2 - 40 - 8) in *. set (e2 := TcmCopy (a2 - 8) _).
  destruct (alloc_rtlv_cases a3 BRCMF_MEMMAP_MAGIC sizeof_memmap ((t ++ [e1]) ++ [e2])) as [E3|(_ & Hr3 & E3)];
    [lia|done|done|..]; rewrite TR_bind_eq, E3; cbn [fst snd].
  { exists (- ENOMEM), a3, false, [e1; e2]. split; [by rewrite <- app_assoc|]. split; [lia|].
    split; [repeat constructor; simpl; lia|]. split; [by right|done]. }
  change (negb (0 =? 0)) with false. cbv iota.
  change (ALIGN4 sizeof_memmap) with 88 in *. set (a4 := a3 - 88 - 8) in *. set (e3 := TcmCopy (a3 - 8) _).
  match goal with |- context [a4 <? ?h] => destruct (a4 <? h) end.
  { exists (- ENOMEM), a4, false, [e1; e2; e3]. split; [by rewrite <- !app_assoc|]. split; [lia|].
    split; [repeat constructor; simpl; lia|]. split; [by right|done]. }
  trace_step. set (e4 := TcmCopy a2 fwsig). set (e5 := TcmZero a3 BRCMF_VSTATUS_SIZE).
  set (mm := memmap_bytes _). set (e6 := TcmCopy a4 mm).
  assert (length mm = 88%nat) as Hmm by done.
  match goal with |- context [brcmf_alloc_rtlv _ _ a4 _ 0 ?x] => set (t6 := x) end.
  destruct (alloc_rtlv_cases a4 BRCMF_END_MAGIC 0 t6) as [E4|(_ & Hr4 & E4)]; [lia|done|done|..];
    rewrite E4; cbn [fst snd].
  { exists (- ENOMEM), a4, false, [e1; e2; e3; e4; e5; e6]. split; [subst t6; by rewrite <- !app_assoc|].
    split; [lia|]. split; [|split; [by right|done]].
    repeat constructor; cbn [write_in e1 e2 e3 e4 e5 e6]; unfold BRCMF_VSTATUS_SIZE; rewrite ?length_footer, ?Hmm; lia. }
  change (negb (0 =? 0)) with false. cbv iota.
  change (ALIGN4 0) with 0 in *. set (e7 := TcmCopy (a4 - 8) _).
  assert ([e1; e2; e3; e4; e5; e6; e7] = sig_events a1 fwsig) as Hev.
  { unfold sig_events, sig_start, sig_map. fold n L a2. subst e1 e2 e3 e4 e5 e6 e7 mm.
    replace (a2 - 48) with a3 by lia. by replace (a2 - 144) with a4 by lia. }
  exists 0, (a4 - 0 - 8), true, [e1; e2; e3; e4; e5; e6; e7].
  split; [subst t6; by rewrite <- !app_assoc|]. split; [lia|].
  split. { repeat constructor; cbn [write_in e1 e2 e3 e4 e5 e6 e7]; unfold BRCMF_VSTATUS_SIZE;
           rewrite ?length_footer, ?Hmm; lia. }
  split; [by right|]. intros _ m M HM. rewrite Hev in HM. apply (sig_events_chain a1 fwsig m M); [done|fold n; fold L; lia|].
  intros x Hx. apply HM. unfold sig_start in Hx. fold n L a2 in Hx. lia.
Qed.
End rtlv.

Section footers.
Context (ci : brcmf_chip) (fw_size : Z) (randbuf : list Z).
Hypothesis Hrand : length randbuf = 256%nat.

Lemma populate_spec fwseed a0 fwsig t :
  0 ≤ a0 < 2 ^ 32 → 0 ≤ ram_end ci fw_size →
  match fwsig with Some s => Z.of_nat (length s) + 3 < 2 ^ 32 | None => True end →
  ∃ err a' skip evs,
    brcmf_pcie_populate_footers ci fw_size randbuf fwseed a0 fwsig t = ((err, a', skip), t ++ evs) ∧
    a' ≤ a0 ∧ within a' a0 evs ∧ (a' = a0 ∨ ram_end ci fw_size ≤ a') ∧
    (skip = true → ∀ m M, (∀ x, a' ≤ x < a0 → M x = tcm_after m evs x) →
       ∃ s pad, fwsig = Some s ∧ (length pad < 4)%nat ∧
         chain 5 M a0 = (BRCMF_RANDOM_SEED_MAGIC, randbuf) :: sig_chain ci fw_size (a0 - 264) s pad).
Proof.
  intros Ha Hre Hs. unfold brcmf_pcie_populate_footers. destruct fwseed; cbn [negb].
  2:{ exists 0, a0, false, []. rewrite app_nil_r. split; [done|]. split; [lia|]. split; [constructor|].
      split; [by left|done]. }
  unfold brcmf_pcie_add_random_seed. rewrite !TR_bind_eq.
  destruct (alloc_rtlv_cases ci fw_size a0 BRCMF_RANDOM_SEED_MAGIC BRCMF_RANDOM_SEED_LENGTH t)
    as [E|(_ & Hr & E)]; [done|done|done|..]; rewrite E; cbn [fst snd].
  { exists (- ENOMEM), a0, false, []. rewrite app_nil_r. split; [done|]. split; [lia|]. split; [constructor|].
    split; [by left|done]. }
  change (negb (0 =? 0)) with false. cbv iota. trace_step. change (negb (0 =? 0)) with false. cbv iota.
  change (ALIGN4 BRCMF_RANDOM_SEED_LENGTH) with 256 in *. set (a1 := a0 - 256 - 8) in *.
  set (e1 := TcmCopy (a0 - 8) _). set (e2 := TcmCopy a1 randbuf).
  assert (within a1 a0 [e1; e2]) as Hw12.
  { repeat constructor; cbn [write_in e1 e2]; rewrite ?length_footer, ?Hrand; lia. }
  destruct fwsig as [s|].
  2:{ exists 0, a1, false, [e1; e2]. split; [by rewrite <- app_assoc|]. split; [lia|]. split; [done|].
      split; [by right|done]. }
  destruct (add_signature_spec ci fw_size a1 s ((t ++ [e1]) ++ [e2])) as (err & a' & skip & evs & E' & Hle & Hw & Hor & Hc);
    [lia|done|done|].
  rewrite E'. exists err, a', skip, ([e1; e2] ++ evs). split; [by rewrite <- !app_assoc|]. split; [lia|].
  split. { apply List.Forall_app. split; [by eapply within_weaken; [| |exact Hw12]; lia|by eapply within_weaken; [| |exact Hw]; lia]. }
  split; [destruct Hor; [subst a'; by right|by right]|].
  intros Hskip m M HM.
  rewrite tcm_after_app in HM.
  destruct (Hc Hskip (tcm_after m [e1; e2]) M) as (pad & Hpad & Hch); [intros; apply HM; lia|].
  exists s, pad. split; [done|]. split; [done|].
  assert (∀ a k, a1 ≤ a → a + k ≤ a0 → read_mem M a k = read_mem (tcm_after m [e1; e2]) a k) as HR.
  { intros a k ??. apply read_mem_agree. intros x ?. rewrite HM by lia. eapply within_outside; [done|lia]. }
  change (chain 5 M a0) with
    (match rtlv_at M a0 with
     | None => []
     | Some (type, data, a') => (type, data) :: (if type =? BRCMF_END_MAGIC then [] else chain 4 M a')
     end).
  unfold tcm_after in HR. cbn [fold_left apply_write e1 e2] in HR.
  rewrite (rtlv_at_footer M a0 BRCMF_RANDOM_SEED_MAGIC 256).
  2: lia. 2: split; done.
  2:{ rewrite HR by lia. rewrite read_write_other by lia. rewrite read_write_same by done. done. }
  change (BRCMF_RANDOM_SEED_MAGIC =? BRCMF_END_MAGIC) with false. cbv iota.
  replace (a0 - 8 - 256) with a1 by lia. rewrite HR by lia. rewrite read_write_same by lia.
  replace (a0 - 264) with a1 by lia. by rewrite Hch.
Qed.
End footers.

Lemma enter_download_outside ans ci ri t : ∃ evs,
  (brcmf_pcie_enter_download_state ans ci ri t).2 = t ++ evs ∧ ∀ lo hi, within lo hi evs.
Proof.
  assert (quiet (λ e, match e with TcmCopy _ _ | TcmZero _ _ | TcmWrite32 _ _ | TcmWrite16 _ _ => false | _ => true end)
            (brcmf_pcie_enter_download_state ans ci ri)) as Q.
  { unfold brcmf_pcie_enter_download_state, brcmf_pcie_select_core.
    repeat first [apply quiet_ret | apply quiet_emit; reflexivity | apply quiet_ask; reflexivity | apply quiet_if
                 | apply quiet_bind; [|intros ?] | case_match; subst | (unfold pci_read_config_dword) ]. }
  destruct (Q t) as (evs & He & Hf). exists evs. split; [done|]. intros lo hi.
  unfold within. clear -Hf. induction evs as [|e evs IH]; [constructor|].
  cbn [forallb] in Hf. apply andb_prop in Hf as [He Hf]. constructor; [by destruct e|by apply IH].
Qed.

(** What has to fit into the RAM of the chip. *)
Record fits (ci : brcmf_chip) (randbuf fw nv : list Z) (fwsig : option (list Z)) : Prop := {
  fit_base : 0 ≤ ci_rambase ci;
  fit_top : ci_rambase ci + ci_ramsize ci + 0x11004 < 2 ^ 32;
  fit_size : Z.of_nat (length fw) + Z.of_nat (length nv) ≤ ci_ramsize ci;
  fit_nv : (4 ≤ length nv)%nat;
  fit_rand : length randbuf = 256%nat;
  fit_sig : match fwsig with Some s => Z.of_nat (length s) + 3 < 2 ^ 32 | None => True end
}.


Definition demo_ci : brcmf_chip := Chip CC_4387 (λ _, Some (Core 70 0)) 0x200000 0x20000 0.
Definition demo_fw : list Z := [1; 2; 3; 4; 5; 6; 7; 8].
Definition demo_rand : list Z := replicate 256 9.


(** The sizes are not checked: a configuration that does not fit into the space the
    firmware leaves makes the driver clear almost 4 GiB from the end of the firmware on. *)
Lemma brcmf_nvram_overrun :
  let ci := Chip CC_4387 (λ _, Some (Core 70 0)) 0 0x100 0 in
  TcmZero 0x80 (2 ^ 32 - 0x10) ∈
    (write_image (λ _ _, 0) ci brcmf_reginfo_64 false [] (replicate (Z.to_nat 0x80) 0) None
       (Some (replicate (Z.to_nat 0x90) 0)) []).2.
Proof. refine (bool_decide_unpack (_ ∈ _) _). vm_compute. exact I. Qed.
