(* ===== verification/BrcmRing.v ===== *)
(** * Broadcom wireless PCIe transport: rings (brcmfmac/pcie.c)

    The message rings shared with the firmware: their buffers, the places of their read
    and write indices in the chip's memory or in a host buffer, the callbacks that move
    the indices, and the scratch buffers.  Shown: the indices of all rings have places
    of their own, and whatever allocation fails nothing is kept. *)

From Stdlib Require Import ZArith Lia Bool.
From stdpp Require Import base numbers list option gmultiset.
From S2P Require Import Prelude.
From S2P Require Import Ledger.
From S2P Require Import BrcmPcie.

Local Open Scope list_scope.
Local Open Scope Z_scope.

(** Control and receive submissions; control, transmit and receive completions. *)
Definition NROF_H2D_COMMON_MSGRINGS : nat := 2.
Definition NROF_D2H_COMMON_MSGRINGS : nat := 3.
Definition NROF_COMMON_MSGRINGS : nat := 5.
Definition BRCMF_RING_MEM_BASE_ADDR_OFFSET : Z := 8.
Definition BRCMF_RING_MAX_ITEM_OFFSET : Z := 4.
Definition BRCMF_RING_LEN_ITEMS_OFFSET : Z := 6.
Definition BRCMF_RING_MEM_SZ : Z := 16.
Definition BRCMF_DMA_D2H_SCRATCH_BUF_LEN : Z := 8.
Definition BRCMF_DMA_D2H_RINGUPD_BUF_LEN : Z := 1024.

(** [depth] and [item_len] are u16 fields of the common ring. *)
Record brcmf_pcie_ringbuf := Ring {
  depth : Z; item_len : Z; dma_handle : Z; w_idx_addr : Z; r_idx_addr : Z; id : Z
}.

Record brcmf_pcie_dhi_ringinfo := RingInfo {
  ringmem : Z;
  h2d_w_idx_ptr : Z; h2d_r_idx_ptr : Z; d2h_w_idx_ptr : Z; d2h_r_idx_ptr : Z;
  max_flowrings : Z; max_submissionrings : Z; max_completionrings : Z
}.

(** The fields of the device the functions of this file change. *)
Record rings := Rings {
  dma_idx_sz : Z;
  idxbuf : option Z;               (** DMA handle of the index buffer *)
  idxbuf_sz : Z;
  host_idx : bool;                 (** [read_ptr]/[write_ptr] use the index buffer *)
  commonrings : list (option brcmf_pcie_ringbuf);
  flowrings : option (list brcmf_pcie_ringbuf);
  nr_flow : Z; nr_sub : Z; nr_comp : Z;
  scratch : option Z; ringupd : option Z
}.

Section rings.
Context (ans : list event → event → Z).
(** Sizes of the rings, from the message protocol's header. *)
Context (brcmf_ring_max_item brcmf_ring_itemsize_pre_v7 brcmf_ring_itemsize : nat → Z).
Context (BRCMF_H2D_MSGRING_FLOWRING_IDSTART : Z).

Definition ring_itemsize (version : Z) (ring_id : nat) : Z :=
  if version <? 7 then brcmf_ring_itemsize_pre_v7 ring_id else brcmf_ring_itemsize ring_id.

(** [dma_alloc_coherent]: a negative answer is a failure. *)
Definition dma_alloc_coherent (size : Z) : TR event (option Z) :=
  h ← ask ans (DmaAlloc size); mret (if h <? 0 then None else Some (u64 h)).

Definition write_tcm64 (addr v : Z) : TR event unit :=
  brcmf_pcie_write_tcm32 addr (Z.land v 0xffffffff);;
  brcmf_pcie_write_tcm32 (addr + 4) (Z.shiftr v 32).

Definition brcmf_pcie_init_dmabuffer_for_device (size tcm_dma_phys_addr : Z) : TR event (option Z) :=
  h ← dma_alloc_coherent size;
  match h with
  | None => mret None
  | Some h => write_tcm64 tcm_dma_phys_addr h;; mret (Some h)
  end.

Definition brcmf_pcie_alloc_dma_and_ring (version : Z) (ring_id : nat) (tcm_ring_phys_addr : Z)
    : TR event (option brcmf_pcie_ringbuf) :=
  let max_item := brcmf_ring_max_item ring_id in
  let itemsize := ring_itemsize version ring_id in
  let size := u32 (max_item * itemsize) in
  h ← brcmf_pcie_init_dmabuffer_for_device size (u32 (tcm_ring_phys_addr + BRCMF_RING_MEM_BASE_ADDR_OFFSET));
  match h with
  | None => mret None
  | Some h =>
      brcmf_pcie_write_tcm16 (u32 (tcm_ring_phys_addr + BRCMF_RING_MAX_ITEM_OFFSET)) max_item;;
      brcmf_pcie_write_tcm16 (u32 (tcm_ring_phys_addr + BRCMF_RING_LEN_ITEMS_OFFSET)) itemsize;;
      ring ← ask ans KzallocRing;
      if ring =? 0 then emit (DmaFree size h);; mret None
      else mret (Some (Ring (u16 max_item) (u16 itemsize) h 0 0 0))
  end.

Definition brcmf_pcie_release_ringbuffer (ring : option brcmf_pcie_ringbuf) : TR event unit :=
  match ring with
  | None => mret tt
  | Some r => emit (DmaFree (u32 (depth r * item_len r)) (dma_handle r));; emit KfreeRing
  end.
Fixpoint release_common (rs : list (option brcmf_pcie_ringbuf)) : TR event unit :=
  match rs with
  | [] => mret tt
  | r :: rs' => brcmf_pcie_release_ringbuffer r;; release_common rs'
  end.

Definition brcmf_pcie_release_ringbuffers (s : rings) : TR event rings :=
  release_common (commonrings s);;
  (match flowrings s with Some _ => emit KfreeFlow | None => mret tt end);;
  (match idxbuf s with Some h => emit (DmaFree (idxbuf_sz s) h) | None => mret tt end);;
  mret (Rings (dma_idx_sz s) None (idxbuf_sz s) (host_idx s) (replicate NROF_COMMON_MSGRINGS None) None
              (nr_flow s) (nr_sub s) (nr_comp s) (scratch s) (ringupd s)).

(** The loop over [n] common rings from [i] on: the rings made so far, and whether one
    could not be made. *)
Fixpoint common_loop (version idx_offset : Z) (n i : nat) (w r mem : Z)
    : TR event (bool * list brcmf_pcie_ringbuf * Z * Z * Z) :=
  match n with
  | O => mret (true, [], w, r, mem)
  | S n' =>
      ring ← brcmf_pcie_alloc_dma_and_ring version i mem;
      match ring with
      | None => mret (false, [], w, r, mem)
      | Some ring =>
          let ring := Ring (depth ring) (item_len ring) (dma_handle ring) w r (Z.of_nat i) in
          '(ok, rest, w, r, mem) ← common_loop version idx_offset n' (S i)
             (u32 (w + idx_offset)) (u32 (r + idx_offset)) (u32 (mem + BRCMF_RING_MEM_SZ));
          mret (ok, ring :: rest, w, r, mem)
      end
  end.

(** The flow rings have no buffer yet; their id is a u8. *)
Fixpoint flow_rings (idx_offset : Z) (n : nat) (i w r : Z) : list brcmf_pcie_ringbuf :=
  match n with
  | O => []
  | S n' => Ring 0 0 0 w r (u8 (i + BRCMF_H2D_MSGRING_FLOWRING_IDSTART))
              :: flow_rings idx_offset n' (i + 1) (u32 (w + idx_offset)) (u32 (r + idx_offset))
  end.

Definition set_common (rs : list brcmf_pcie_ringbuf) (s : rings) : rings :=
  Rings (dma_idx_sz s) (idxbuf s) (idxbuf_sz s) (host_idx s)
    ((Some <$> rs) ++ replicate (NROF_COMMON_MSGRINGS - length rs) None) (flowrings s)
    (nr_flow s) (nr_sub s) (nr_comp s) (scratch s) (ringupd s).

(** The numbers of rings the firmware asks for: flow, submission, completion. *)
Definition ring_counts (version : Z) (info : brcmf_pcie_dhi_ringinfo) : Z * Z * Z :=
  if 6 <=? version then (u16 (max_flowrings info), u16 (max_submissionrings info), u16 (max_completionrings info))
  else (u16 (u16 (max_flowrings info) - Z.of_nat NROF_H2D_COMMON_MSGRINGS), u16 (max_flowrings info),
        Z.of_nat NROF_D2H_COMMON_MSGRINGS).

(** Where the indices are: the host buffer if it is wanted and there is memory for it,
    else the places in the chip's memory. *)
Definition place_indices (info : brcmf_pcie_dhi_ringinfo) (sub comp : Z) (s : rings)
    : TR event (rings * Z * (Z * Z * Z * Z)) :=
  let bufsz := u32 ((sub + comp) * dma_idx_sz s * 2) in
  buf ← (if negb (dma_idx_sz s =? 0) then dma_alloc_coherent bufsz else mret None);
  match buf with
  | None =>
      mret (Rings 0 (if dma_idx_sz s =? 0 then idxbuf s else None) (idxbuf_sz s) false (commonrings s) (flowrings s)
              (nr_flow s) (nr_sub s) (nr_comp s) (scratch s) (ringupd s),
            4, (h2d_w_idx_ptr info, h2d_r_idx_ptr info, d2h_w_idx_ptr info, d2h_r_idx_ptr info))
  | Some h =>
      let off := u8 (dma_idx_sz s) in
      let h2d_r := u32 (sub * off) in
      let d2h_w := u32 (h2d_r + sub * off) in
      let d2h_r := u32 (d2h_w + comp * off) in
      emit (RingInfoWrite [h; u64 (h + sub * off); u64 (h + 2 * (sub * off)); u64 (h + 2 * (sub * off) + comp * off)]);;
      mret (Rings (dma_idx_sz s) (Some h) bufsz true (commonrings s) (flowrings s)
              (nr_flow s) (nr_sub s) (nr_comp s) (scratch s) (ringupd s),
            off, (0, h2d_r, d2h_w, d2h_r))
  end.

Definition brcmf_pcie_init_ringbuffers (version : Z) (info : brcmf_pcie_dhi_ringinfo) (s : rings)
    : TR event (Z * rings) :=
  let '(flow, sub, comp) := ring_counts version info in
  if 512 <? flow then mret (- EIO, s)
  else
    '(s, off, (h2d_w, h2d_r, d2h_w, d2h_r)) ← place_indices info sub comp s;
    let fail := λ s, s ← brcmf_pcie_release_ringbuffers s; mret (- ENOMEM, s) in
    '(ok, rs1, h2d_w, h2d_r, mem) ←
       common_loop version off NROF_H2D_COMMON_MSGRINGS 0 h2d_w h2d_r (ringmem info);
    if negb ok then fail (set_common rs1 s)
    else
      '(ok, rs2, _, _, _) ←
         common_loop version off NROF_D2H_COMMON_MSGRINGS NROF_H2D_COMMON_MSGRINGS d2h_w d2h_r mem;
      let s := set_common (rs1 ++ rs2) s in
      if negb ok then fail s
      else
        let s := Rings (dma_idx_sz s) (idxbuf s) (idxbuf_sz s) (host_idx s) (commonrings s) (flowrings s)
                   flow sub comp (scratch s) (ringupd s) in
        r ← ask ans (KzallocFlow flow);
        if r =? 0 then fail s
        else
          mret (0, Rings (dma_idx_sz s) (idxbuf s) (idxbuf_sz s) (host_idx s) (commonrings s)
                     (Some (flow_rings off (Z.to_nat flow) 0 h2d_w h2d_r))
                     (nr_flow s) (nr_sub s) (nr_comp s) (scratch s) (ringupd s)).

(** ** Callbacks of the common rings *)

Definition write_ptr (s : rings) (off v : Z) : TR event unit :=
  if host_idx s then emit (IdxWrite off (u16 v)) else brcmf_pcie_write_tcm16 off v.
Definition read_ptr (s : rings) (off : Z) : TR event Z :=
  if host_idx s then v ← ask ans (IdxRead off); mret (u16 v) else brcmf_pcie_read_tcm16 ans off.

Definition brcmf_pcie_ring_mb_write_rptr (up : bool) (s : rings) (ring : brcmf_pcie_ringbuf) (r_ptr : Z)
    : TR event Z :=
  if negb up then mret (- EIO) else write_ptr s (r_idx_addr ring) r_ptr;; mret 0.
Definition brcmf_pcie_ring_mb_write_wptr (up : bool) (s : rings) (ring : brcmf_pcie_ringbuf) (w_ptr : Z)
    : TR event Z :=
  if negb up then mret (- EIO) else write_ptr s (w_idx_addr ring) w_ptr;; mret 0.
(** Error and the new pointer of the common ring. *)
Definition brcmf_pcie_ring_mb_update_rptr (up : bool) (s : rings) (ring : brcmf_pcie_ringbuf) (r_ptr : Z)
    : TR event (Z * Z) :=
  if negb up then mret (- EIO, r_ptr) else v ← read_ptr s (r_idx_addr ring); mret (0, v).
Definition brcmf_pcie_ring_mb_update_wptr (up : bool) (s : rings) (ring : brcmf_pcie_ringbuf) (w_ptr : Z)
    : TR event (Z * Z) :=
  if negb up then mret (- EIO, w_ptr) else v ← read_ptr s (w_idx_addr ring); mret (0, v).

(** ** Scratch buffers *)

Definition set_scratch (sc ru : option Z) (s : rings) : rings :=
  Rings (dma_idx_sz s) (idxbuf s) (idxbuf_sz s) (host_idx s) (commonrings s) (flowrings s)
    (nr_flow s) (nr_sub s) (nr_comp s) sc ru.

Definition brcmf_pcie_release_scratchbuffers (s : rings) : TR event rings :=
  (match scratch s with Some h => emit (DmaFree BRCMF_DMA_D2H_SCRATCH_BUF_LEN h) | None => mret tt end);;
  (match ringupd s with Some h => emit (DmaFree BRCMF_DMA_D2H_RINGUPD_BUF_LEN h) | None => mret tt end);;
  mret (set_scratch None None s).

Definition brcmf_pcie_init_scratchbuffers (tcm_base : Z) (s : rings) : TR event (Z * rings) :=
  let fail := λ s, s ← brcmf_pcie_release_scratchbuffers s; mret (- ENOMEM, s) in
  h ← dma_alloc_coherent BRCMF_DMA_D2H_SCRATCH_BUF_LEN;
  let s := set_scratch h (ringupd s) s in
  match h with
  | None => fail s
  | Some h =>
      write_tcm64 (u32 (tcm_base + 56)) h;;
      brcmf_pcie_write_tcm32 (u32 (tcm_base + 52)) BRCMF_DMA_D2H_SCRATCH_BUF_LEN;;
      h' ← dma_alloc_coherent BRCMF_DMA_D2H_RINGUPD_BUF_LEN;
      let s := set_scratch (Some h) h' s in
      match h' with
      | None => fail s
      | Some h' =>
          write_tcm64 (u32 (tcm_base + 68)) h';;
          brcmf_pcie_write_tcm32 (u32 (tcm_base + 64)) BRCMF_DMA_D2H_RINGUPD_BUF_LEN;;
          mret (0, s)
      end
  end.
End rings.

(** ** The places of the indices *)

Definition all_rings (s : rings) : list brcmf_pcie_ringbuf := omap (λ r, r) (commonrings s) ++ default [] (flowrings s).
(** The places the callbacks read and write. *)
Definition ring_slots (s : rings) : list Z := (w_idx_addr <$> all_rings s) ++ (r_idx_addr <$> all_rings s).

Definition at_slots (base off n : Z) : list Z := (λ k, base + k * off) <$> seqZ 0 n.

Lemma at_slots_S base off n : 0 ≤ n → at_slots base off (n + 1) = base :: at_slots (base + off) off n.
Proof.
  intros Hn. unfold at_slots. rewrite seqZ_cons by lia. cbn [fmap list_fmap]. f_equal; [lia|].
  replace (Z.pred (n + 1)) with n by lia. replace (Z.succ 0) with (1 + 0) by lia.
  rewrite <- (fmap_add_seqZ 1 0), <- list_fmap_compose. apply list_fmap_ext. intros i x _. unfold compose. lia.
Qed.

Lemma at_slots_scale base b off n : base = b * off → at_slots base off n = (λ k, k * off) <$> seqZ b n.
Proof.
  intros ->. unfold at_slots.
  replace (seqZ b n) with (Z.add b <$> seqZ 0 n) by (rewrite fmap_add_seqZ; f_equal; lia).
  rewrite <- list_fmap_compose.
  apply list_fmap_ext. intros i x _. unfold compose. lia.
Qed.

Section slots.
Context (ans : list event → event → Z).
Context (max_item item7 item : nat → Z) (idstart : Z).

Lemma common_loop_slots version off n : ∀ i w r mem t rs w' r' mem' t',
  common_loop ans max_item item7 item version off n i w r mem t = ((true, rs, w', r', mem'), t') →
  0 ≤ off → 0 ≤ w → 0 ≤ r → w + Z.of_nat n * off < 2 ^ 32 → r + Z.of_nat n * off < 2 ^ 32 →
  w_idx_addr <$> rs = at_slots w off (Z.of_nat n) ∧ r_idx_addr <$> rs = at_slots r off (Z.of_nat n) ∧
  w' = w + Z.of_nat n * off ∧ r' = r + Z.of_nat n * off ∧ length rs = n.
Proof.
  induction n as [|n IH]; intros i w r mem t rs w' r' mem' t' H Ho Hw Hr Hbw Hbr; cbn [common_loop] in H.
  { injection H as <- <- <- <- <-. split; [done|]. split; [done|]. simpl. lia. }
  rewrite TR_bind_eq in H. destruct (brcmf_pcie_alloc_dma_and_ring _ _ _ _ _ _ _ t) as [[ring|] t1];
    cbn [fst snd] in H; [|done].
  rewrite TR_bind_eq in H. rewrite !u32_small in H by nia.
  destruct (common_loop _ _ _ _ _ _ n _ _ _ _ _) as [[[[[ok rest] w1] r1] mem1] t2] eqn:E. cbn [fst snd] in H.
  unfold mret, TR_ret in H. injection H as -> <- <- <- <- <-.
  apply IH in E as (E1 & E2 & -> & -> & E3); [|nia..].
  replace (Z.of_nat (S n)) with (Z.of_nat n + 1) by lia.
  rewrite !at_slots_S by lia. cbn [fmap list_fmap w_idx_addr r_idx_addr length]. rewrite E1, E2, E3. split; [done|]. split; [done|]. lia.
Qed.

Lemma flow_rings_slots off n : ∀ i w r,
  0 ≤ off → 0 ≤ w → 0 ≤ r → w + Z.of_nat n * off < 2 ^ 32 → r + Z.of_nat n * off < 2 ^ 32 →
  w_idx_addr <$> flow_rings idstart off n i w r = at_slots w off (Z.of_nat n) ∧
  r_idx_addr <$> flow_rings idstart off n i w r = at_slots r off (Z.of_nat n).
Proof.
  induction n as [|n IH]; intros i w r Ho Hw Hr Hbw Hbr; [done|]. cbn [flow_rings].
  rewrite !u32_small by nia. destruct (IH (i + 1) (w + off) (r + off)) as [E1 E2]; [nia..|].
  replace (Z.of_nat (S n)) with (Z.of_nat n + 1) by lia.
  rewrite !at_slots_S by lia. cbn [fmap list_fmap w_idx_addr r_idx_addr]. by rewrite E1, E2.
Qed.

(** The multiples of the index size at which the indices lie. *)
Definition slot_numbers (flow sub comp : Z) : list Z :=
  (seqZ 0 2 ++ seqZ (2 * sub) 3 ++ seqZ 2 flow) ++ (seqZ sub 2 ++ seqZ (2 * sub + comp) 3 ++ seqZ (sub + 2) flow).

Lemma slot_numbers_apart flow sub comp :
  0 ≤ flow → flow + 2 ≤ sub → 3 ≤ comp →
  NoDup (slot_numbers flow sub comp) ∧ Forall (λ k, 0 ≤ k < 2 * (sub + comp)) (slot_numbers flow sub comp).
Proof.
  intros Hf Hs Hc. unfold slot_numbers. split.
  - rewrite !list.NoDup_app. repeat split; try apply NoDup_seqZ;
      intros x; rewrite ?elem_of_app, ?elem_of_seqZ; lia.
  - rewrite list.Forall_forall. intros x. rewrite !elem_of_app, !elem_of_seqZ. lia.
Qed.

Lemma fail_not_ok s0 t s' t' :
  (s ← brcmf_pcie_release_ringbuffers s0; mret (- ENOMEM, s)) t ≠ ((0, s'), t').
Proof. rewrite TR_bind_eq. unfold mret, TR_ret. done. Qed.

(** The steps of a successful initialisation. *)
Lemma init_ok_inv version info s t s' t' :
  brcmf_pcie_init_ringbuffers ans max_item item7 item idstart version info s t = ((0, s'), t') →
  ∃ flow sub comp s1 off h2d_w h2d_r d2h_w d2h_r t1 rs1 w1 r1 m1 t2 rs2 w2 r2 m2 t3,
    ring_counts version info = (flow, sub, comp) ∧ flow ≤ 512 ∧
    place_indices ans info sub comp s t = ((s1, off, (h2d_w, h2d_r, d2h_w, d2h_r)), t1) ∧
    common_loop ans max_item item7 item version off 2 0 h2d_w h2d_r (ringmem info) t1 = ((true, rs1, w1, r1, m1), t2) ∧
    common_loop ans max_item item7 item version off 3 2 d2h_w d2h_r m1 t2 = ((true, rs2, w2, r2, m2), t3) ∧
    s' = Rings (dma_idx_sz s1) (idxbuf s1) (idxbuf_sz s1) (host_idx s1)
           (commonrings (set_common (rs1 ++ rs2) s1)) (Some (flow_rings idstart off (Z.to_nat flow) 0 w1 r1))
           flow sub comp (scratch s1) (ringupd s1).
Proof.
  unfold brcmf_pcie_init_ringbuffers. destruct (ring_counts version info) as [[flow sub] comp].
  destruct (Z.ltb_spec 512 flow); [done|]. rewrite TR_bind_eq.
  destruct (place_indices ans info sub comp s t) as [[[s1 off] [[[h2d_w h2d_r] d2h_w] d2h_r]] t1] eqn:E1.
  cbn [fst snd]. rewrite TR_bind_eq. unfold NROF_H2D_COMMON_MSGRINGS, NROF_D2H_COMMON_MSGRINGS.
  destruct (common_loop _ _ _ _ _ _ 2 _ _ _ _ t1) as [[[[[[] rs1] w1] r1] m1] t2] eqn:E2; cbn [fst snd negb];
    [|intros []%fail_not_ok]. rewrite TR_bind_eq.
  destruct (common_loop _ _ _ _ _ _ 3 _ _ _ _ t2) as [[[[[[] rs2] w2] r2] m2] t3] eqn:E3; cbn [fst snd negb];
    [|intros []%fail_not_ok]. rewrite TR_bind_eq. unfold ask. cbn [fst snd].
  case_if; [intros []%fail_not_ok|]. unfold mret, TR_ret. intros [= <- <-].
  eexists _, _, _, _, _, _, _, _, _, _, _, _, _, _, _, _, _, _, _, _. split; [done|]. split; [done|].
  split; [exact E1|]. split; [exact E2|]. split; [exact E3|]. done.
Qed.

Lemma ring_counts_range version info flow sub comp :
  ring_counts version info = (flow, sub, comp) →
  0 ≤ flow < 2 ^ 16 ∧ 0 ≤ sub < 2 ^ 16 ∧ 0 ≤ comp < 2 ^ 16.
Proof.
  unfold ring_counts. intros Ec. case_if; injection Ec as <- <- <-; repeat split; try apply u16_range; done.
Qed.

Lemma place_indices_host info sub comp s t s1 off ptrs t1 :
  place_indices ans info sub comp s t = ((s1, off, ptrs), t1) → host_idx s1 = true →
  0 ≤ dma_idx_sz s < 8 → 0 ≤ sub < 2 ^ 16 → 0 ≤ comp < 2 ^ 16 →
  0 < dma_idx_sz s ∧ off = dma_idx_sz s ∧ idxbuf_sz s1 = 2 * (sub + comp) * off ∧
  ptrs = (0, sub * off, 2 * sub * off, (2 * sub + comp) * off).
Proof.
  intros H Hh Hsz Hs Hc. unfold place_indices in H. rewrite TR_bind_eq in H.
  destruct (Z.eqb_spec (dma_idx_sz s) 0) as [Hz|Hz]; cbn [negb] in H.
  { cbn [mret TR_ret fst snd] in H. unfold mret, TR_ret in H. injection H as <- <- <- <-. done. }
  unfold dma_alloc_coherent in H. rewrite TR_bind_eq in H. unfold ask, mret, TR_ret in H. cbn [fst snd] in H.
  case_if.
  { injection H as <- <- <- <-. done. }
  rewrite TR_bind_eq in H. unfold emit in H. cbn [fst snd] in H. injection H as <- <- <- <-.
  cbn [idxbuf_sz]. rewrite u8_small by lia. rewrite !u32_small by nia. split; [lia|]. split; [done|]. split; [nia|].
  repeat f_equal; nia.
Qed.

Lemma omap_some {A} (l : list A) n : omap (λ r, r) ((Some <$> l) ++ replicate n None) = l.
Proof.
  rewrite omap_app. replace (omap (λ r : option A, r) (replicate n None)) with (@nil A)
    by (induction n; done). rewrite app_nil_r. induction l as [|x l IH]; [done|]. cbn; f_equal; exact IH.
Qed.

Lemma host_slots version info s t s' t' :
  brcmf_pcie_init_ringbuffers ans max_item item7 item idstart version info s t = ((0, s'), t') →
  host_idx s' = true → 0 ≤ dma_idx_sz s < 8 →
  ∃ flow sub comp,
    ring_counts version info = (flow, sub, comp) ∧ 0 ≤ flow ≤ 512 ∧ 0 < dma_idx_sz s ∧
    idxbuf_sz s' = 2 * (sub + comp) * dma_idx_sz s ∧
    ring_slots s' = (λ k, k * dma_idx_sz s) <$> slot_numbers flow sub comp.
Proof.
  intros H Hh Hsz.
  destruct (init_ok_inv _ _ _ _ _ _ H) as (flow & sub & comp & s1 & off & w & r & dw & dr & t1 & rs1 & w1 & r1 & m1
    & t2 & rs2 & w2 & r2 & m2 & t3 & Ec & Hf & Ep & E1 & E2 & ->).
  destruct (ring_counts_range _ _ _ _ _ Ec) as (Hf0 & Hs & Hc).
  destruct (place_indices_host _ _ _ _ _ _ _ _ _ Ep Hh Hsz Hs Hc) as (Hp & -> & Hb & [= -> -> -> ->]).
  set (z := dma_idx_sz s) in *.
  apply common_loop_slots in E1 as (Ew1 & Er1 & -> & -> & El1); [|nia..].
  apply common_loop_slots in E2 as (Ew2 & Er2 & -> & -> & El2); [|nia..].
  destruct (flow_rings_slots z (Z.to_nat flow) 0 (0 + Z.of_nat 2 * z) (sub * z + Z.of_nat 2 * z)) as [Ew3 Er3];
    [nia..|].
  exists flow, sub, comp. split; [done|]. split; [lia|]. split; [done|]. split; [done|].
  unfold ring_slots, all_rings, slot_numbers. cbn [commonrings set_common flowrings].
  change (default [] (Some (flow_rings idstart z (Z.to_nat flow) 0 (0 + Z.of_nat 2 * z) (sub * z + Z.of_nat 2 * z))))
    with (flow_rings idstart z (Z.to_nat flow) 0 (0 + Z.of_nat 2 * z) (sub * z + Z.of_nat 2 * z)).
  rewrite omap_some, !fmap_app, Ew1, Ew2, Er1, Er2, Ew3, Er3, Z2Nat.id by lia. rewrite <- !app_assoc.
  repeat f_equal; apply at_slots_scale; lia.
Qed.
End slots.

(** C33. Every index has a place of its own.  With indices in the host buffer, and counts from
    the firmware that leave room for the common rings (always the case before version
    6), the read and write indices of all rings lie inside the buffer, at multiples of
    their size, and no two of them share a place. *)
Theorem brcmf_ring_indices_apart ans max_item item7 item idstart version info s t s' t' flow sub comp :
  brcmf_pcie_init_ringbuffers ans max_item item7 item idstart version info s t = ((0, s'), t') →
  host_idx s' = true → 0 ≤ dma_idx_sz s < 8 →
  ring_counts version info = (flow, sub, comp) →
  version < 6 ∨ (flow + 2 ≤ sub ∧ 3 ≤ comp) →
  NoDup (ring_slots s') ∧
  Forall (λ a, 0 ≤ a ∧ a + dma_idx_sz s ≤ idxbuf_sz s' ∧ a mod dma_idx_sz s = 0) (ring_slots s') ∧
  Z.of_nat (length (ring_slots s')) = 2 * (5 + flow).
Proof.
  intros H Hh Hsz Hc Hroom.
  destruct (host_slots _ _ _ _ _ _ _ _ _ _ _ H Hh Hsz) as (flow' & sub' & comp' & Hc' & Hf & Hp & Hb & ->).
  rewrite Hc in Hc'. injection Hc' as <- <- <-.
  assert (flow + 2 ≤ sub ∧ 3 ≤ comp) as [H1 H2].
  { destruct Hroom as [Hv|]; [|done]. revert Hc. unfold ring_counts.
    destruct (Z.leb_spec 6 version); [lia|]. intros [= <- <- <-].
    unfold NROF_H2D_COMMON_MSGRINGS, NROF_D2H_COMMON_MSGRINGS in *. pose proof (u16_range (max_flowrings info)).
    split; [|done]. destruct (Z.lt_ge_cases (u16 (max_flowrings info)) 2).
    - exfalso. assert (u16 (u16 (max_flowrings info) - Z.of_nat 2) = u16 (max_flowrings info) - 2 + 2 ^ 16); [|lia].
      unfold u16 at 1. rewrite <- (Z.mod_add _ 1) by lia. rewrite Z.mod_small by lia. lia.
    - rewrite (u16_small (u16 _ - Z.of_nat 2)) by lia. lia. }
  destruct (slot_numbers_apart flow sub comp) as [Hnd Hin]; [lia|done|done|].
  split; [|split].
  - apply NoDup_fmap_2; [|done]. intros x y. nia.
  - rewrite list.Forall_fmap. eapply list.Forall_impl; [exact Hin|]. intros k Hk. unfold compose. cbv beta in Hk |- *.
    rewrite Hb, Z.mod_mul by lia. nia.
  - rewrite length_fmap. unfold slot_numbers. rewrite !length_app, !length_seqZ. lia.
Qed.

(** An instance with host indices: version 7, four flow rings. *)
Definition ringinfo_ex : brcmf_pcie_dhi_ringinfo := RingInfo 0x1000 0 0 0 0 4 6 3.
Definition rings_ex : rings := Rings 4 None 0 false (replicate 5 None) None 0 0 0 None None.
Definition ans_ex : list event → event → Z := λ _ _, 4096.
Definition init_ex (info : brcmf_pcie_dhi_ringinfo) : (Z * rings) * list event :=
  brcmf_pcie_init_ringbuffers ans_ex (λ _, 64) (λ _, 32) (λ _, 40) 2 7 info rings_ex [].

Lemma brcmf_ring_indices_apart_witness :
  (init_ex ringinfo_ex).1.1 = 0 ∧
  NoDup (ring_slots (init_ex ringinfo_ex).1.2) ∧ length (ring_slots (init_ex ringinfo_ex).1.2) = 18%nat.
Proof.
  split; [vm_compute; reflexivity|].
  destruct (brcmf_ring_indices_apart ans_ex (λ _, 64) (λ _, 32) (λ _, 40) 2 7 ringinfo_ex rings_ex []
    (init_ex ringinfo_ex).1.2 (init_ex ringinfo_ex).2 4 6 3) as (H1 & _ & H3);
    [vm_compute; reflexivity|vm_compute; reflexivity|vm_compute; split; [discriminate|reflexivity]
    |vm_compute; reflexivity|right; lia|]. split; [exact H1|]. lia.
Defined.

(** From version 6 on the counts come from the firmware and are not compared with each
    other.  Four flow rings but no submission rings: the initialisation succeeds, and
    the write index of the first flow ring is the read index of the control completion
    ring. *)
Lemma brcmf_ring_counts_unchecked :
  let r := (init_ex (RingInfo 0x1000 0 0 0 0 4 0 2)).1 in
  r.1 = 0 ∧ idxbuf_sz r.2 = 16 ∧
  (w_idx_addr <$> all_rings r.2) !! 5%nat = (r_idx_addr <$> all_rings r.2) !! 2%nat ∧
  (w_idx_addr <$> all_rings r.2) !! 8%nat = Some 20.
Proof. vm_compute. repeat split. Qed.
(** The identifier of a flow ring is a byte: with more than 254 flow rings two of them
    have the same one. *)
Lemma brcmf_ring_id_truncated :
  let r := (init_ex (RingInfo 0x1000 0 0 0 0 300 302 3)).1 in
  r.1 = 0 ∧ (id <$> all_rings r.2) !! 5%nat = Some 2 ∧ (id <$> all_rings r.2) !! 261%nat = Some 2.
Proof. vm_compute. repeat split. Qed.

(** ** What is held *)

(** Coherent memory of a size at an address, a ring structure, the flow rings' array. *)
Definition RDma (size h : Z) : Z * Z * Z := (0, size, h).
Definition RRing : Z * Z * Z := (1, 0, 0).
Definition RFlow : Z * Z * Z := (2, 0, 0).
Abbreviation holding := (gmultiset (Z * Z * Z)).

Definition give_back (r : Z * Z * Z) (o : holding) : option holding :=
  if decide (r ∈ o) then Some (o ∖ {[+ r +]}) else None.

(** What an event does to the things held; [None] when it frees what is not held. *)
Definition ring_step (ans : list event → event → Z) (pre : list event) (e : event) (o : holding) : option holding :=
  match e with
  | DmaAlloc size => Some (if ans pre e <? 0 then o else {[+ RDma size (u64 (ans pre e)) +]} ⊎ o)
  | DmaFree size h => give_back (RDma size h) o
  | KzallocRing => Some (if ans pre e =? 0 then o else {[+ RRing +]} ⊎ o)
  | KfreeRing => give_back RRing o
  | KzallocFlow _ => Some (if ans pre e =? 0 then o else {[+ RFlow +]} ⊎ o)
  | KfreeFlow => give_back RFlow o
  | _ => Some o
  end.
Definition ring_keep (e : event) : bool :=
  match e with
  | DmaAlloc _ | DmaFree _ _ | KzallocRing | KfreeRing | KzallocFlow _ | KfreeFlow => false
  | _ => true
  end.

Definition opt_held {A} (f : A → holding) (x : option A) : holding := match x with Some a => f a | None => ∅ end.
Definition ring_held (r : brcmf_pcie_ringbuf) : holding :=
  {[+ RDma (u32 (depth r * item_len r)) (dma_handle r); RRing +]}.
Definition common_held (rs : list (option brcmf_pcie_ringbuf)) : holding :=
  foldr (λ r o, opt_held ring_held r ⊎ o) ∅ rs.
(** What the rings of a device hold, and what its scratch buffers hold. *)
Definition rings_held (s : rings) : holding :=
  common_held (commonrings s) ⊎ opt_held (λ _, {[+ RFlow +]}) (flowrings s)
    ⊎ opt_held (λ h, {[+ RDma (idxbuf_sz s) h +]}) (idxbuf s).
Definition scratch_held (s : rings) : holding :=
  opt_held (λ h, {[+ RDma BRCMF_DMA_D2H_SCRATCH_BUF_LEN h +]}) (scratch s)
    ⊎ opt_held (λ h, {[+ RDma BRCMF_DMA_D2H_RINGUPD_BUF_LEN h +]}) (ringupd s).

Lemma give_back_held r o : give_back r ({[+ r +]} ⊎ o) = Some o.
Proof.
  unfold give_back. rewrite decide_True by multiset_solver. f_equal. multiset_solver.
Qed.

Lemma common_held_cons r rs : common_held (r :: rs) = opt_held ring_held r ⊎ common_held rs.
Proof. done. Qed.
Lemma common_held_app rs rs' : common_held (rs ++ rs') = common_held rs ⊎ common_held rs'.
Proof.
  induction rs as [|r rs IH]; cbn [app]; [symmetry; apply (left_id_L ∅ (⊎))|].
  by rewrite !common_held_cons, IH, (assoc_L (⊎)).
Qed.
Lemma common_held_none n : common_held (replicate n None) = ∅.
Proof. induction n as [|n IH]; cbn [replicate]; [done|]. by rewrite common_held_cons, IH. Qed.

Section ledger.
Context (ans : list event → event → Z).
Abbreviation step := (ring_step ans).
Abbreviation settles := (settles step).

Lemma ring_keeps : keeps step ring_keep.
Proof. intros e pre o He. destruct e; done. Qed.

Lemma settles_free {A} e r (k : unit → TR event A) t o post :
  (∀ o, step t e o = give_back r o) → settles (k tt) (t ++ [e]) o post →
  settles (emit e ≫= k) t ({[+ r +]} ⊎ o) post.
Proof. intros He. apply settles_emit. rewrite He. apply give_back_held. Qed.

Lemma release_ringbuffer_settles r t o :
  settles (brcmf_pcie_release_ringbuffer r) t (opt_held ring_held r ⊎ o) (λ _ o', o' = o).
Proof.
  destruct r as [r|]; cbn [opt_held brcmf_pcie_release_ringbuffer];
    [|apply settles_ret; apply (left_id_L ∅ (⊎))].
  unfold ring_held. rewrite <- (assoc_L (⊎)). eapply settles_free; [done|].
  eexists [KfreeRing], o. split; [done|]. split; [|done]. cbn [ledger ring_step]. by rewrite give_back_held.
Qed.

Lemma release_common_settles rs : ∀ t o,
  settles (release_common rs) t (common_held rs ⊎ o) (λ _ o', o' = o).
Proof.
  induction rs as [|r rs IH]; intros t o; cbn [release_common].
  { apply settles_ret. apply (left_id_L ∅ (⊎)). }
  rewrite common_held_cons, <- (assoc_L (⊎)).
  eapply settles_call; [apply release_ringbuffer_settles|]. cbv beta. intros e o' _ ->. apply IH.
Qed.

(** A step that gives an optional thing back. *)
Lemma settles_give_opt {A B} (x : option A) (f : A → Z * Z * Z) (ev : A → event) (k : unit → TR event B) t o post :
  (∀ a t o, step t (ev a) o = give_back (f a) o) →
  (∀ e, settles (k tt) (t ++ e) o post) →
  settles ((match x with Some a => emit (ev a) | None => mret tt end) ≫= k) t
    (opt_held (λ a, {[+ f a +]}) x ⊎ o) post.
Proof.
  intros He Hk. destruct x as [a|]; cbn [opt_held].
  - apply settles_free; [intros ?; apply He|apply Hk].
  - rewrite (left_id_L ∅ (⊎)). apply (settles_bind _ (mret tt) k t [] o o); [by rewrite app_nil_r|done|apply Hk].
Qed.

Lemma release_ringbuffers_settles s t o :
  settles (brcmf_pcie_release_ringbuffers s) t (rings_held s ⊎ o)
    (λ s' o', o' = o ∧ rings_held s' = ∅ ∧ scratch_held s' = scratch_held s).
Proof.
  unfold brcmf_pcie_release_ringbuffers, rings_held. rewrite <- !(assoc_L (⊎)).
  eapply settles_call; [apply release_common_settles|]. cbv beta. intros e o' _ ->.
  apply (settles_give_opt (flowrings s) (λ _, RFlow) (λ _, KfreeFlow)); [done|]. intros e'.
  apply (settles_give_opt (idxbuf s) (λ h, RDma (idxbuf_sz s) h) (λ h, DmaFree (idxbuf_sz s) h)); [done|]. intros e''.
  apply settles_ret. split; [done|]. cbn [commonrings flowrings idxbuf opt_held].
  rewrite common_held_none. done.
Qed.

Context (max_item item7 item : nat → Z) (idstart : Z).
(** The sizes of the message protocol fit the 16 bit fields of the common ring. *)
Definition sizes_fit : Prop :=
  ∀ i, 0 ≤ max_item i < 2 ^ 16 ∧ 0 ≤ item7 i < 2 ^ 16 ∧ 0 ≤ item i < 2 ^ 16.
Hypothesis Hfit : sizes_fit.

Lemma dma_alloc_settles size t o :
  settles (dma_alloc_coherent ans size) t o (λ h o', o' = opt_held (λ h, {[+ RDma size h +]}) h ⊎ o).
Proof.
  unfold dma_alloc_coherent. eapply settles_ask; [done|]. apply settles_ret.
  case_if; cbn [opt_held]; [symmetry; apply (left_id_L ∅ (⊎))|done].
Qed.

Lemma ring_quiet_write64 a v : quiet ring_keep (write_tcm64 a v).
Proof. apply quiet_bind; [by apply quiet_emit|]. intros []. by apply quiet_emit. Qed.

Lemma alloc_ring_settles version i mem t o :
  settles (brcmf_pcie_alloc_dma_and_ring ans max_item item7 item version i mem) t o
    (λ r o', o' = opt_held ring_held r ⊎ o).
Proof.
  unfold brcmf_pcie_alloc_dma_and_ring, brcmf_pcie_init_dmabuffer_for_device. set (size := u32 _).
  eapply settles_call with (mid := λ h o', o' = opt_held (λ h, {[+ RDma size h +]}) h ⊎ o).
  { eapply settles_call; [apply dma_alloc_settles|]. intros e o' _ Ho. cbv beta in Ho.
    destruct (dma_alloc_coherent ans size t).1 as [h|]; [|by apply settles_ret].
    eapply settles_quiet; [apply ring_keeps|apply ring_quiet_write64|]. intros. by apply settles_ret. }
  intros e o' _ Ho. cbv beta in Ho.
  match goal with |- settles (match ?x with _ => _ end) _ _ _ => destruct x as [h|] end;
    [|by apply settles_ret]. cbn [opt_held] in Ho. subst o'.
  eapply settles_quiet; [apply ring_keeps|by apply quiet_emit|]. intros e1 _.
  eapply settles_quiet; [apply ring_keeps|by apply quiet_emit|]. intros e2 _.
  eapply settles_ask; [done|]. case_if.
  - eapply settles_free; [done|]. apply settles_ret. symmetry; apply (left_id_L ∅ (⊎)).
  - apply settles_ret. cbn [opt_held]. unfold ring_held. cbn [depth item_len dma_handle].
    destruct (Hfit i) as (H1 & H2 & H3). rewrite !u16_small by (unfold ring_itemsize; try case_if; lia).
    fold size. multiset_solver.
Qed.

Lemma common_loop_settles version off n : ∀ i w r mem t o,
  settles (common_loop ans max_item item7 item version off n i w r mem) t o
    (λ res o', let '(_, rs, _, _, _) := res in o' = common_held (Some <$> rs) ⊎ o).
Proof.
  induction n as [|n IH]; intros i w r mem t o; cbn [common_loop].
  { apply settles_ret. symmetry; apply (left_id_L ∅ (⊎)). }
  eapply settles_call; [apply alloc_ring_settles|]. intros e o' _ Ho. cbv beta in Ho.
  destruct (brcmf_pcie_alloc_dma_and_ring ans max_item item7 item version i mem t).1 as [ring|];
    [|by apply settles_ret]. cbn [opt_held] in Ho.
  eapply settles_call; [apply IH|]. intros e1 o1 _ Ho1. cbv beta in Ho1.
  destruct (common_loop _ _ _ _ _ _ _ _ _ _ _ _).1 as [[[[ok rs] w'] r'] mem'].
  apply settles_ret. cbn [fmap list_fmap]. rewrite common_held_cons, Ho1, Ho. cbn [opt_held].
  change (ring_held (Ring _ _ _ _ _ _)) with (ring_held ring). multiset_solver.
Qed.

(** Nothing is held by the rings of a device that has none. *)
Definition rings_fresh (s : rings) : Prop :=
  commonrings s = replicate NROF_COMMON_MSGRINGS None ∧ flowrings s = None ∧ idxbuf s = None.

Lemma place_indices_settles info sub comp s t o :
  rings_fresh s →
  settles (place_indices ans info sub comp s) t o
    (λ r o', let '(s1, _, _) := r in
       o' = opt_held (λ h, {[+ RDma (idxbuf_sz s1) h +]}) (idxbuf s1) ⊎ o ∧
       commonrings s1 = commonrings s ∧ flowrings s1 = flowrings s ∧ scratch_held s1 = scratch_held s).
Proof.
  intros (Hc & Hf & Hi). unfold place_indices.
  destruct (Z.eqb_spec (dma_idx_sz s) 0) as [Hz|Hz]; cbn [negb].
  { apply (settles_bind _ _ _ t [] o o); [by rewrite app_nil_r|done|]. apply settles_ret.
    cbn [idxbuf]. rewrite Hi. split; [symmetry; apply (left_id_L ∅ (⊎))|done]. }
  eapply settles_call; [apply dma_alloc_settles|]. intros e o' _ Ho. cbv beta in Ho.
  destruct (dma_alloc_coherent _ _ _).1 as [h|]; cbn [opt_held] in Ho.
  - eapply settles_quiet; [apply ring_keeps|by apply quiet_emit|]. intros e1 _. by apply settles_ret.
  - by apply settles_ret.
Qed.

Definition init_post (s : rings) (o : holding) (r : Z * rings) (o' : holding) : Prop :=
  o' = rings_held r.2 ⊎ o ∧ (r.1 = 0 ∨ rings_held r.2 = ∅) ∧ scratch_held r.2 = scratch_held s.

Lemma fail_settles s0 s t o :
  scratch_held s0 = scratch_held s →
  settles (s ← brcmf_pcie_release_ringbuffers s0; mret (- ENOMEM, s)) t (rings_held s0 ⊎ o) (init_post s o).
Proof.
  intros Hs. eapply settles_call; [apply release_ringbuffers_settles|].
  intros e o' _ (-> & Hh & Hs'). apply settles_ret. unfold init_post. cbn [fst snd]. rewrite Hh, Hs', Hs.
  split; [symmetry; apply (left_id_L ∅ (⊎))|]. by split; [right|].
Qed.

(** The rings made so far, beside what the indices hold. *)
Lemma set_common_held rs s o o' :
  flowrings s = None → o' = common_held (Some <$> rs) ⊎ (opt_held (λ h, {[+ RDma (idxbuf_sz s) h +]}) (idxbuf s) ⊎ o) →
  o' = rings_held (set_common rs s) ⊎ o.
Proof.
  intros Hf ->. unfold rings_held. cbn [commonrings flowrings idxbuf idxbuf_sz set_common]. rewrite Hf.
  rewrite common_held_app, common_held_none. cbn [opt_held]. multiset_solver.
Qed.

Lemma init_ringbuffers_settles version info s t o :
  rings_fresh s →
  settles (brcmf_pcie_init_ringbuffers ans max_item item7 item idstart version info s) t o (init_post s o).
Proof.
  intros Hfr. pose proof Hfr as (Hc & Hf & Hi). unfold brcmf_pcie_init_ringbuffers.
  destruct (ring_counts version info) as [[flow sub] comp]. case_if.
  { apply settles_ret. unfold init_post, rings_held. cbn [fst snd]. rewrite Hc, Hf, Hi, common_held_none.
    split; [cbn [opt_held]; multiset_solver|]. split; [by right|done]. }
  eapply settles_call; [by apply place_indices_settles|]. intros e1 o1 _ H1. cbv beta in H1.
  destruct (place_indices _ _ _ _ _ _).1 as [[s1 off] [[[h2d_w h2d_r] d2h_w] d2h_r]].
  destruct H1 as (Ho1 & Hc1 & Hf1 & Hs1). rewrite Hf in Hf1.
  eapply settles_call; [apply common_loop_settles|]. intros e2 o2 _ H2. cbv beta in H2.
  destruct (common_loop _ _ _ _ _ _ _ _ _ _ _ _).1 as [[[[ok rs1] w'] r'] mem']. rewrite Ho1 in H2.
  destruct ok; cbn [negb]; [|rewrite (set_common_held rs1 s1 o o2) by done; by apply fail_settles].
  eapply settles_call; [apply common_loop_settles|]. intros e3 o3 _ H3. cbv beta in H3.
  destruct (common_loop _ _ _ _ _ _ _ _ _ _ _ _).1 as [[[[ok rs2] w2] r2] mem2]. rewrite H2 in H3.
  assert (o3 = rings_held (set_common (rs1 ++ rs2) s1) ⊎ o) as ->.
  { apply set_common_held; [done|]. rewrite H3, fmap_app, common_held_app. multiset_solver. }
  destruct ok; cbn [negb]; [|by apply fail_settles].
  eapply settles_ask; [done|]. case_if.
  { change (rings_held (set_common (rs1 ++ rs2) s1)) with
      (rings_held (Rings (dma_idx_sz s1) (idxbuf s1) (idxbuf_sz s1) (host_idx s1)
        (commonrings (set_common (rs1 ++ rs2) s1)) (flowrings s1) flow sub comp (scratch s1) (ringupd s1))).
    by apply fail_settles. }
  apply settles_ret.
  split; [|split; [by left|done]]. cbn [fst snd].
  unfold rings_held. cbn [commonrings flowrings idxbuf idxbuf_sz set_common]. rewrite Hf1. cbn [opt_held]. multiset_solver.
Qed.

Lemma scratch_release_settles s t o :
  settles (brcmf_pcie_release_scratchbuffers s) t (scratch_held s ⊎ o)
    (λ s' o', o' = o ∧ scratch_held s' = ∅ ∧ rings_held s' = rings_held s).
Proof.
  unfold brcmf_pcie_release_scratchbuffers, scratch_held. rewrite <- !(assoc_L (⊎)).
  apply (settles_give_opt (scratch s) _ (λ h, DmaFree _ h)); [done|]. intros e'.
  apply (settles_give_opt (ringupd s) _ (λ h, DmaFree _ h)); [done|]. intros e''.
  by apply settles_ret.
Qed.

Lemma scratch_init_settles base s t o :
  scratch s = None → ringupd s = None →
  settles (brcmf_pcie_init_scratchbuffers ans base s) t o
    (λ r o', o' = scratch_held r.2 ⊎ o ∧ (r.1 = 0 ∨ scratch_held r.2 = ∅) ∧ rings_held r.2 = rings_held s).
Proof.
  intros H1 H2. unfold brcmf_pcie_init_scratchbuffers.
  assert (∀ s0 t o', rings_held s0 = rings_held s → o' = scratch_held s0 ⊎ o →
    settles (s ← brcmf_pcie_release_scratchbuffers s0; mret (- ENOMEM, s)) t o'
      (λ r o', o' = scratch_held r.2 ⊎ o ∧ (r.1 = 0 ∨ scratch_held r.2 = ∅) ∧ rings_held r.2 = rings_held s)) as Hfail.
  { intros s0 t0 o' Hr ->. eapply settles_call; [apply scratch_release_settles|].
    intros e o' _ (-> & Hh & Hr'). apply settles_ret. cbn [fst snd]. rewrite Hh, Hr', Hr.
    split; [symmetry; apply (left_id_L ∅ (⊎))|]. by split; [right|]. }
  eapply settles_call; [apply dma_alloc_settles|]. intros e1 o1 _ Ho1. cbv beta in Ho1.
  destruct (dma_alloc_coherent _ _ _).1 as [h|]; cbn [opt_held] in Ho1.
  2:{ apply Hfail; [done|]. rewrite Ho1. unfold scratch_held. cbn [scratch ringupd set_scratch]. rewrite H2. multiset_solver. }
  eapply settles_quiet; [apply ring_keeps|apply ring_quiet_write64|]. intros e2 _.
  eapply settles_quiet; [apply ring_keeps|by apply quiet_emit|]. intros e3 _.
  eapply settles_call; [apply dma_alloc_settles|]. intros e4 o4 _ Ho4. cbv beta in Ho4.
  destruct (dma_alloc_coherent _ _ _).1 as [h'|]; cbn [opt_held] in Ho4.
  2:{ apply Hfail; [done|]. rewrite Ho4, Ho1. unfold scratch_held. cbn [scratch ringupd set_scratch opt_held]. multiset_solver. }
  eapply settles_quiet; [apply ring_keeps|apply ring_quiet_write64|]. intros e5 _.
  eapply settles_quiet; [apply ring_keeps|by apply quiet_emit|]. intros e6 _.
  apply settles_ret. cbn [fst snd]. rewrite Ho4, Ho1. split; [|split; [by left|done]].
  unfold scratch_held. cbn [scratch ringupd set_scratch opt_held]. multiset_solver.
Qed.
End ledger.

(** The rings and the scratch buffers as [brcmf_pcie_setup] sets them up, and as
    [brcmf_pcie_remove] gives them back. *)
Definition rings_setup ans max_item item7 item idstart version info base (s : rings) : TR event (Z * rings) :=
  '(err, s) ← brcmf_pcie_init_ringbuffers ans max_item item7 item idstart version info s;
  if negb (err =? 0) then mret (err, s) else brcmf_pcie_init_scratchbuffers ans base s.
Definition rings_remove (s : rings) : TR event rings :=
  s ← brcmf_pcie_release_scratchbuffers s; brcmf_pcie_release_ringbuffers s.

(** Whatever allocation fails, setting the rings up and then removing them gives every
    buffer and structure back once, with the size it was taken with, and frees nothing
    else. *)
Theorem brcmf_rings_balanced ans max_item item7 item idstart version info base s t o :
  sizes_fit max_item item7 item → rings_fresh s → scratch s = None → ringupd s = None →
  settles (ring_step ans)
    ('(err, s') ← rings_setup ans max_item item7 item idstart version info base s; rings_remove s') t o
    (λ s' o', o' = o ∧ rings_held s' = ∅ ∧ scratch_held s' = ∅).
Proof.
  intros Hfit Hfr H1 H2.
  eapply settles_call with (mid := λ r o', o' = scratch_held r.2 ⊎ (rings_held r.2 ⊎ o)).
  { unfold rings_setup. eapply settles_call; [by apply init_ringbuffers_settles|]. intros e o' _ (Ho & Hd & Hs).
    destruct (brcmf_pcie_init_ringbuffers _ _ _ _ _ _ _ _ _).1 as [err s1] eqn:E. cbn [fst snd] in Ho, Hd, Hs.
    assert (scratch_held s1 = ∅) as Hs0. { rewrite Hs. unfold scratch_held. by rewrite H1, H2. }
    case_if; [apply settles_ret; cbn [snd]; rewrite Hs0, Ho; multiset_solver|].
    assert (scratch s1 = None ∧ ringupd s1 = None) as [Hn1 Hn2].
    { revert Hs0. unfold scratch_held. destruct (scratch s1), (ringupd s1); cbn [opt_held]; [multiset_solver..|done]. }
    eapply settles_weaken; [by eapply scratch_init_settles|]. intros [err' s2] o2 (-> & _ & Hr). cbn [fst snd] in *.
    rewrite Ho, Hr. multiset_solver. }
  intros e o' _ Ho. destruct (rings_setup _ _ _ _ _ _ _ _ _ _).1 as [err s1]. cbn [fst snd] in Ho. subst o'.
  unfold rings_remove. eapply settles_call; [apply scratch_release_settles|]. intros e1 o1 _ (-> & Hs & Hr).
  cbv beta. rewrite <- Hr. eapply settles_weaken; [apply release_ringbuffers_settles|].
  intros s3 o3 (-> & Hr3 & Hs3). rewrite Hs3. done.
Qed.

Lemma brcmf_rings_balanced_witness :
  settles (ring_step ans_ex)
    ('(err, s') ← rings_setup ans_ex (λ _, 64) (λ _, 32) (λ _, 40) 2 7 ringinfo_ex 0x2000 rings_ex; rings_remove s') [] ∅
    (λ s' o', o' = ∅ ∧ rings_held s' = ∅ ∧ scratch_held s' = ∅).
Proof.
  apply brcmf_rings_balanced; [|done|done|done]. intros i. cbv beta. lia.
Defined.
